(* ===== verification/_CoqProject ===== *)
-Q . S2P
Prelude.v
Digits.v
Interfaces.v
Pmm.v
PhysMem.v
UserWorld.v
LibcMem.v
Malloc.v
MallocHeap.v
MallocOps.v
MallocGrow.v
MallocSpec.v
MallocStore.v
Vmm.v
Kheap.v
KheapSpec.v
ProcData.v
UserMem.v
AddrSpace.v
UserOps.v
Teardown.v
Uaccess.v
Isolation.v
Arch.v
Sched.v
Ipc.v
Svc.v
Vfs.v
VfsTree.v
VfsFiles.v
Serial.v
Framebuf.v
Console.v
Panic.v
Boot.v
KernelMap.v
Acpi.v
AcpiSpec.v
AcpiTables.v
Lapic.v
Device.v
Tty.v
SelfTest.v
Elf.v
ElfLoad.v
ElfCheck.v
Rtld.v
RtldSpec.v
Process.v
ProcLife.v
ProcRun.v
Slots.v
Syscall.v
SysRun.v
ExitStatus.v
SysWrite.v
KernelMain.v
BootTest.v
ProcWorld.v
