(* ===== verification/Prelude.v ===== *)
(** * VoidOS: a verification library

  VoidOS is a small operating system for x86-64: a kernel ([src/kernel]) with a frame
  allocator, page tables, processes with isolated address spaces, a preemptive
  scheduler, message passing, a service registry, a read-only file system, an ELF
  loader, a device layer with a terminal, and a user land ([src/userland]) with a C
  library and a dynamic linker.  This library models that code and proves what it is
  meant to do.  This file is its prelude: machine integers, status codes, and the
  lemmas and tactics all the others share.

  ** How the program is modelled

  A C function is a Rocq function of the same name from the state it reads to the state
  it leaves.  An unsigned integer of w bits is a [Z] in [[0, 2^w)], wrapped ([u8], [u16],
  [u32], [u64], [i32], [i64]) where C wraps.  Physical memory is a function from
  addresses to bytes ([PhysMem.mem]); page tables, page contents and the pixels of the
  screen live in it, so that a wrong store can damage any of them.  A pointer to a static
  table is an index, a pointer into the kernel heap an address.  Loops over a bound of
  the source are structural; loops without one take fuel, and a theorem says how much is
  enough.  A result [None] (or [Halt], [Fault], [RFault]) is a kernel that stops, a
  processor fault, or undefined behaviour; each file says which.

  A component that uses another is proved against an interface, a class whose laws the
  other file's implementation satisfies:
  - [Interfaces.KernelHeap] (kmalloc, kfree): implemented by [Kheap] in [KheapSpec];
    used by [Ipc], [Vfs], [Device], [Process];
  - [Interfaces.CloseHook] (the service registry's reaction to a closing endpoint):
    implemented by [Svc], used by [Ipc];
  - [Kheap.KernelPages] (one more page at the top of the heap): implemented in
    [KheapSpec] by the frame allocator and [vmm_map_page];
  - [Uaccess.UserAccess] (copies from and to user memory): implemented by the page
    walk of [Uaccess], used by [Ipc], [Svc], [Vfs], [Process], [Syscall];
  - [Serial.SerialPort] (the console port): implemented by the polled driver in [Serial],
    used by [Device], [Tty], [Syscall];
  - [UserWorld.UserBytes], [UserWorld.UserKernel] (a process's memory and its three memory
    calls): used by [LibcMem], [Malloc], [Rtld], implemented in [ProcWorld] by the kernel
    model itself, so that the C library is proved on this kernel.

  ** The parts

  Memory of the machine:
  - [Pmm] ([mm/pmm.c]): the bitmap of frames, its initialisation from the boot loader's
    map, allocation and release.  Free frames and frames handed out are together exactly
    the usable memory without the bitmap.
  - [PhysMem]: bytes and little-endian words.
  - [Vmm] ([mm/vmm.c]): four-level page tables.  Mapping and unmapping change exactly one
    translation and none of another address space.  [KernelMap] follows one path of the
    tables through the kernel half, which drivers share.
  - [Kheap], [KheapSpec] ([mm/kheap.c]): the kernel heap; its live objects are disjoint,
    and what it does is what a bump allocator does.  Fresh pages hold anything: the one
    case in which the code reads a header it never wrote is [Kheap.stale], a side
    condition of these theorems.
  - [Boot] ([boot/boot.c], [boot/limine.h]): the boot context, and with [Pmm] the free
    frames after boot.

  Processes:
  - [ProcData], [UserMem], [AddrSpace], [UserOps], [Teardown], [Isolation]
    ([proc/process.h], the address-space part of [proc/process.c], [mm/user_mem.c], the
    memory calls of [syscall/syscall.c]): the ownership invariant of an address space,
    brk, mmap and munmap on every branch, destruction returns every frame, and no
    process can touch another.
  - [Uaccess] (user pointers in [syscall.c]): copies touch exactly checked user pages.
  - [Arch] ([arch/x86_64]): descriptors, gates, interrupt frames and the dispatch
    decision.
  - [Sched] ([sched/sched.c]): the thread ring, the tick, fairness.
  - [Elf], [ElfLoad] ([elf/elf.c]): validation against a specification in unbounded
    arithmetic, loading, the initial stack.  [ElfCheck] is the image self-test.
  - [Process], [ProcLife], [ProcRun], [Slots] ([proc/process.c]): the process table, spawn,
    fork, exec, exit, wait, and the records each of them leaves alone.
  - [Syscall], [SysRun], [SysWrite] ([syscall/syscall.c], the dispatcher of [idt.c]): the
    kernel's whole state, its steps (system calls, ticks, faults, kernel threads) and
    what every run of them keeps.  [ExitStatus]: through all of these steps an exit status
    waits for the parent, and reaches it exactly once.
  - [KernelMain] ([main.c]): the idle loop, which reaps orphans.  [BootTest]: the
    isolation test of the boot passes whenever there is memory for it.

  Services and devices:
  - [Ipc] ([ipc/ipc.c]): endpoints as bounded FIFO queues, handles, send and receive.
  - [Svc] ([svc/svc.c]): the directory of names; no name leads to a freed endpoint.
  - [Vfs], [VfsTree], [VfsFiles] ([vfs/voidfs.c]): the tree, path resolution, open files.
  - [Device], [Serial], [Tty] ([dev/device.c], [dev/serial_drv.c], [dev/serial.c],
    [dev/tty.c]): the registry, the port, the line discipline; input is lossless and the
    echo shows the staged line.  [SelfTest] runs the two self-tests on the model.
  - [Framebuf], [Console], [Panic] ([dev/console.c], [lib/kpanic.c], [lib/font8x8.inc]):
    drawing stays inside the pixel buffer, [kprintf] prints the text its format
    describes, a panic reports what it was given.
  - [Acpi], [AcpiSpec], [AcpiTables] ([acpi/acpi.c]): the firmware tables through a
    window of mapped pages.
  - [Lapic] ([dev/lapic.c]): the registers of the interrupt controller and the timer that
    drives the scheduler.

  User land:
  - [UserWorld], [LibcMem] ([userland/libc/mem.c]), [Malloc], [MallocHeap], [MallocOps],
    [MallocGrow], [MallocSpec], [MallocStore] ([userland/libc/malloc.c]): the allocator
    refines a store of disjoint objects; where it does not (a refused large mapping, the
    mappings a [munmap] sweeps away, the end of a shrunk block) the contract says so.
  - [Rtld], [RtldSpec] ([userland/ld.so/rtld.c]): relocation as the ABI prescribes it, or
    a refusal with the reason.
  - [ProcWorld]: the kernel implements what the two are proved against.

  [Interfaces] holds the interfaces several components share, [Digits] the numerals that
  [kprintf] and the dynamic linker print.

  ** Specifications

  What a component must do is stated without its own functions wherever it has a format
  or a table of its own: the ELF headers by byte offsets ([Elf.good_image]), the dynamic
  section by the tags of the ABI ([RtldSpec.section]), the usable frames by the entries
  of the boot map ([Pmm.offered]), the list of firmware tables by its length
  ([AcpiTables.listed]), the registers of a panic by name ([Panic.registers]), the pixels
  of a character by the bits of the font ([Framebuf.glyph_bit]).

  ** Fuel and bounds

  The process and thread tables have 64 slots, the device table 32, as in the source.
  String loops of the C library take fuel: the length of the string and one more is
  enough.  Page loops of a process take 257 turns: it owns at most 256 pages, and one
  page more ends the loop with an error.  [MallocStore] shows that no walk of the
  allocator's free list runs out, [RtldSpec] how much fuel the dynamic linker needs,
  [Console] that the loops of [kprintf] end after the format and at most 64 digits, and
  [AcpiTables] that the MADT walk ends within the length of the table, of which every
  entry uses at least two bytes.  The pool of frames is finite: exhaustion is a branch
  of every theorem that allocates.

  ** What is not modelled

  - The assembly: entry, interrupt stubs, the SYSCALL entry, context switch and the
    loading of GDT, IDT and TSS ([arch/x86_64/*.asm], [proc/user_test.asm]).  A switch is
    the return of another frame address by the tick.  The TLB and the memory type of
    pages are not state.
  - The order of the initialisers in [kernel_main] and the messages it prints; console
    messages of components other than [Panic], [Acpi], [Boot] and [Rtld], which do
    not influence what the component does.
  - One processor and no nested interrupts in the kernel, as the source assumes
    (interrupts are off while it runs): a step of the kernel is atomic.
  - The demonstration programs ([userland/*_test.c], [userland/init],
    [userland/services]) and the wrapper headers of system calls they use; the calls
    themselves are [Syscall].  [boot/limine.h] is the protocol's header: only the
    structures [boot_init] reads have a definition. *)
From Stdlib Require Export ZArith Lia.
From stdpp Require Export base tactics numbers list gmap strings.

Open Scope Z_scope.

(** ** Strings

  The bytes of a string literal. *)
Definition str (s : string) : list Z :=
  (fun c => Z.of_nat (Ascii.nat_of_ascii c)) <$> String.list_ascii_of_string s.

(** ** Machine integers

  A w-bit unsigned C integer is a [Z] in [[0, 2^w)]; every operation of the
  source that can leave that range is followed by the wrap below, exactly
  where the C type makes the machine wrap. *)
Definition u8 (x : Z) : Z := x mod 2 ^ 8.
Definition u16 (x : Z) : Z := x mod 2 ^ 16.
Definition u32 (x : Z) : Z := x mod 2 ^ 32.
Definition u64 (x : Z) : Z := x mod 2 ^ 64.

(** Two's-complement reading of the low bits: [(int32_t)x], [(int64_t)x]. *)
Definition i32 (x : Z) : Z :=
  let y := u32 x in if y <? 2 ^ 31 then y else y - 2 ^ 32.
Definition i64 (x : Z) : Z :=
  let y := u64 x in if y <? 2 ^ 63 then y else y - 2 ^ 64.

(** [x & f] used as a C condition. *)
Definition has (x f : Z) : bool := negb (Z.land x f =? 0).

Definition is_u64 (x : Z) : Prop := 0 <= x < 2 ^ 64.

Lemma u64_range x : 0 <= u64 x < 2 ^ 64.
Proof. unfold u64. apply Z.mod_pos_bound. lia. Qed.

Lemma u64_id x : 0 <= x < 2 ^ 64 -> u64 x = x.
Proof. intros. unfold u64. by apply Z.mod_small. Qed.

Lemma u32_range x : 0 <= u32 x < 2 ^ 32.
Proof. unfold u32. apply Z.mod_pos_bound. lia. Qed.

Lemma u32_id x : 0 <= x < 2 ^ 32 -> u32 x = x.
Proof. intros. unfold u32. by apply Z.mod_small. Qed.

Lemma u8_id x : 0 <= x < 256 -> u8 x = x.
Proof. intros. unfold u8. apply Z.mod_small. lia. Qed.

Lemma i64_id x : - 2 ^ 63 <= x < 2 ^ 63 -> i64 x = x.
Proof.
  intros Hx. unfold i64, u64. destruct (Z.ltb_spec (x mod 2 ^ 64) (2 ^ 63)); Z.div_mod_to_equations; lia.
Qed.

(** A word of the upper half is negative as a [long]. *)
Lemma i64_wrap x : 2 ^ 63 <= x < 2 ^ 64 -> i64 x = x - 2 ^ 64.
Proof. intros Hx. unfold i64. rewrite u64_id by lia. destruct (Z.ltb_spec x (2 ^ 63)); lia. Qed.

Lemma i32_id x : - 2 ^ 31 <= x < 2 ^ 31 -> i32 x = x.
Proof.
  intros Hx. unfold i32, u32. destruct (Z.ltb_spec (x mod 2 ^ 32) (2 ^ 31)); Z.div_mod_to_equations; lia.
Qed.

Lemma u64_wrap x : 2 ^ 64 <= x < 2 * 2 ^ 64 -> u64 x = x - 2 ^ 64.
Proof.
  intros. unfold u64. symmetry.
  apply (Z.mod_unique_pos _ _ 1); lia.
Qed.

Lemma u64_neg x : - 2 ^ 64 <= x < 0 -> u64 x = x + 2 ^ 64.
Proof.
  intros. unfold u64. symmetry.
  apply (Z.mod_unique_pos _ _ (-1)); lia.
Qed.

(** ** Bits *)

Lemma testbit_pow2 n k : 0 <= n -> Z.testbit (2 ^ n) k = (n =? k).
Proof.
  intros. destruct (Z.eqb_spec n k) as [->|].
  - by apply Z.pow2_bits_true.
  - by apply Z.pow2_bits_false.
Qed.

Lemma has_bit x n : 0 <= n -> has x (2 ^ n) = Z.testbit x n.
Proof.
  intros Hn. unfold has.
  destruct (Z.testbit x n) eqn:E.
  - apply negb_true_iff, Z.eqb_neq. intros H0.
    assert (Z.testbit (Z.land x (2 ^ n)) n = false) as Hb by (rewrite H0; apply Z.bits_0).
    rewrite Z.land_spec, E, Z.pow2_bits_true in Hb by lia. done.
  - apply negb_false_iff, Z.eqb_eq. apply Z.bits_inj'. intros k Hk.
    rewrite Z.land_spec, Z.bits_0, testbit_pow2 by lia.
    destruct (Z.eqb_spec n k) as [->|]; [by rewrite E | by rewrite andb_false_r].
Qed.

Lemma testbit_above x n k : 0 <= x < 2 ^ n -> n <= k -> Z.testbit x k = false.
Proof.
  intros Hx Hk. destruct (decide (n < 0)) as [Hn|Hn].
  { rewrite Z.pow_neg_r in Hx by lia. lia. }
  rewrite <- (Z.mod_small x (2 ^ n)) by lia.
  apply Z.mod_pow2_bits_high. lia.
Qed.

(** A non-negative number without bits from [n] on is below [2^n]. *)
Lemma bits_bound x n :
  0 <= n -> 0 <= x -> (forall k, n <= k -> Z.testbit x k = false) -> x < 2 ^ n.
Proof.
  intros Hn Hx Hb.
  replace x with (x mod 2 ^ n); [apply Z.mod_pos_bound; lia|].
  apply Z.bits_inj'. intros k Hk. destruct (decide (k < n)).
  - by apply Z.mod_pow2_bits_low.
  - rewrite Hb by lia. apply Z.mod_pow2_bits_high. lia.
Qed.

Lemma lor_bound x y n : 0 <= n -> 0 <= x < 2 ^ n -> 0 <= y < 2 ^ n -> 0 <= Z.lor x y < 2 ^ n.
Proof.
  intros Hn Hx Hy. split; [apply Z.lor_nonneg; lia|].
  apply bits_bound; [lia|apply Z.lor_nonneg; lia|]. intros k Hk.
  by rewrite Z.lor_spec, (testbit_above x n), (testbit_above y n) by lia.
Qed.

Lemma land_bound x y n : 0 <= n -> 0 <= x < 2 ^ n -> 0 <= Z.land x y < 2 ^ n.
Proof.
  intros Hn Hx. split; [apply Z.land_nonneg; lia|].
  apply bits_bound; [lia|apply Z.land_nonneg; lia|]. intros k Hk.
  by rewrite Z.land_spec, (testbit_above x n) by lia.
Qed.

(** [x & ~(2^n - 1)] on 64 bits clears the low bits. *)
Lemma land_high_mask x n : 0 <= n <= 64 -> 0 <= x < 2 ^ 64 -> Z.land x (2 ^ 64 - 2 ^ n) = x - x mod 2 ^ n.
Proof.
  intros Hn Hx. assert (Hm : 2 ^ 64 - 2 ^ n = Z.ldiff (Z.ones 64) (Z.ones n)).
  { rewrite <- Z.sub_nocarry_ldiff, !Z.ones_equiv; [lia|]. apply Z.bits_inj'. intros k Hk.
    rewrite Z.ldiff_spec, Z.bits_0. destruct (decide (k < n)).
    - by rewrite (Z.ones_spec_low 64), andb_false_r by lia.
    - by rewrite (Z.ones_spec_high n) by lia. }
  rewrite Hm, <- Z.land_ones by lia.
  replace (x - Z.land x (Z.ones n)) with (Z.ldiff x (Z.ones n)).
  - apply Z.bits_inj'. intros k Hk. rewrite Z.land_spec, !Z.ldiff_spec. destruct (decide (k < 64)).
    + rewrite (Z.ones_spec_low 64) by lia. by rewrite andb_true_l.
    + by rewrite (testbit_above x 64) by lia.
  - rewrite <- (Z.lor_ldiff_and x (Z.ones n)) at 2.
    rewrite <- Z.lxor_lor, <- Z.add_nocarry_lxor; [lia|..]; apply Z.bits_inj'; intros k Hk;
      rewrite !Z.land_spec, Z.ldiff_spec, Z.bits_0; destruct (Z.testbit (Z.ones n) k); by rewrite ?andb_false_r.
Qed.

(** [((x) + (a - 1)) & ~(a - 1)] with [a = 2^n], on [uint64_t]. *)
Definition align_up (x n : Z) : Z := Z.land (u64 (x + (2 ^ n - 1))) (2 ^ 64 - 2 ^ n).

Lemma align_up_spec x n : 0 <= n <= 64 -> 0 <= x -> x + 2 ^ n <= 2 ^ 64 ->
  align_up x n mod 2 ^ n = 0 /\ x <= align_up x n < x + 2 ^ n.
Proof.
  intros Hn H0 Hx. assert (Hp : 0 < 2 ^ n) by (apply Z.pow_pos_nonneg; lia). unfold align_up.
  rewrite u64_id, land_high_mask by lia. set (y := x + (2 ^ n - 1)). pose proof (Z.mod_pos_bound y (2 ^ n) Hp). split; [|lia].
  rewrite Zminus_mod_idemp_r. by rewrite Z.sub_diag, Z.mod_0_l by lia.
Qed.

Lemma align_up_id x n : 0 <= n <= 64 -> 0 <= x -> x + 2 ^ n <= 2 ^ 64 -> x mod 2 ^ n = 0 -> align_up x n = x.
Proof.
  intros Hn H0 Hx Hm. destruct (align_up_spec x n Hn H0 Hx) as [Ha Hb].
  assert (Hp : 0 < 2 ^ n) by (apply Z.pow_pos_nonneg; lia).
  pose proof (Z.div_mod x (2 ^ n) ltac:(lia)) as Dx. pose proof (Z.div_mod (align_up x n) (2 ^ n) ltac:(lia)) as Da.
  generalize dependent (2 ^ n). intros b Hx' Hm Ha Hb Hp Dx Da.
  assert (align_up x n / b = x / b) as E; [|rewrite E in Da; lia]. rewrite Hm in Dx. rewrite Ha in Da.
  enough (- 1 < align_up x n / b - x / b < 1) by lia. split; nia.
Qed.

(** ** Status codes ([void_status_t]) and errno values ([VE_*]) *)
Definition VOID_OK : Z := 0.
Definition VOID_ERR : Z := -1.
Definition VOID_ERR_NOMEM : Z := -2.
Definition VOID_ERR_INVAL : Z := -3.
Definition VOID_ERR_BUSY : Z := -4.
Definition VOID_ERR_NOENT : Z := -5.

Definition VE_PERM : Z := 1.
Definition VE_NOENT : Z := 2.
Definition VE_IO : Z := 5.
Definition VE_BADF : Z := 9.
Definition VE_CHILD : Z := 10.
Definition VE_NOMEM : Z := 12.
Definition VE_ACCES : Z := 13.
Definition VE_FAULT : Z := 14.
Definition VE_BUSY : Z := 16.
Definition VE_EXIST : Z := 17.
Definition VE_NOTDIR : Z := 20.
Definition VE_ISDIR : Z := 21.
Definition VE_INVAL : Z := 22.
Definition VE_SPACE : Z := 28.
Definition VE_NAMETOOLONG : Z := 36.
Definition VE_NOSYS : Z := 38.

Definition PAGE_SIZE : Z := 4096.

(** ** Arrays: a C array of fixed size is a list, indexed by a [Z]. *)
Definition zget {A} (d : A) (l : list A) (i : Z) : A := nth (Z.to_nat i) l d.
Definition zset {A} (l : list A) (i : Z) (x : A) : list A := <[Z.to_nat i := x]> l.

Lemma length_zset {A} (l : list A) i x : length (zset l i x) = length l.
Proof. apply length_insert. Qed.

Lemma zget_lookup {A} (d : A) l i : zget d l i = default d (l !! Z.to_nat i).
Proof. apply nth_lookup. Qed.

Lemma zget_zset_eq {A} (d : A) l i x :
  0 <= i < Z.of_nat (length l) -> zget d (zset l i x) i = x.
Proof.
  intros. rewrite zget_lookup. unfold zset.
  by rewrite list_lookup_insert_eq by lia.
Qed.

Lemma zget_zset_ne {A} (d : A) l i j x :
  0 <= i -> 0 <= j -> i <> j -> zget d (zset l i x) j = zget d l j.
Proof.
  intros. rewrite !zget_lookup. unfold zset.
  by rewrite list_lookup_insert_ne by lia.
Qed.

Lemma zget_in {A} (d : A) l i :
  0 <= i < Z.of_nat (length l) -> zget d l i ∈ l.
Proof.
  intros. rewrite zget_lookup.
  destruct (lookup_lt_is_Some_2 l (Z.to_nat i)) as [y Hy]; [lia|].
  rewrite Hy. by eapply list_elem_of_lookup_2.
Qed.

(** ** Index ranges of [for] loops: [range lo hi] is [lo, lo+1, ..., hi-1]. *)
Definition range (lo hi : Z) : list Z := seqZ lo (hi - lo).

#[global] Arguments range : simpl never.
#[global] Arguments u64 : simpl never.
#[global] Arguments u32 : simpl never.
#[global] Arguments u8 : simpl never.

Lemma elem_of_range lo hi x : x ∈ range lo hi <-> lo <= x < hi.
Proof. unfold range. rewrite elem_of_seqZ. lia. Qed.

Lemma range_nil lo hi : hi <= lo -> range lo hi = [].
Proof. intros. unfold range. apply seqZ_nil. lia. Qed.

Lemma range_cons lo hi : lo < hi -> range lo hi = lo :: range (lo + 1) hi.
Proof.
  intros. unfold range. rewrite seqZ_cons by lia. f_equal.
  replace (Z.succ lo) with (lo + 1) by lia. f_equal. lia.
Qed.

Lemma range_app lo mid hi : lo <= mid <= hi -> range lo hi = range lo mid ++ range mid hi.
Proof.
  intros. unfold range. replace (hi - lo) with ((mid - lo) + (hi - mid)) by lia.
  rewrite seqZ_app by lia. do 2 f_equal; lia.
Qed.

Lemma range_shift d c : range d (d + c) = Z.add d <$> range 0 c.
Proof. unfold range. rewrite fmap_add_seqZ. f_equal; lia. Qed.

Lemma NoDup_range lo hi : NoDup (range lo hi).
Proof. apply NoDup_seqZ. Qed.

(** ** Filters *)
Lemma filter_all {A} (P : A -> Prop) `{!forall x, Decision (P x)} (l : list A) :
  (forall x, x ∈ l -> P x) -> filter P l = l.
Proof.
  induction l as [|x l IH]; intros Hl; [done|].
  rewrite filter_cons_True by (apply Hl; by left). f_equal. apply IH. intros y Hy. apply Hl. by right.
Qed.

Lemma filter_none {A} (P : A -> Prop) `{!forall x, Decision (P x)} (l : list A) :
  (forall x, x ∈ l -> ~ P x) -> filter P l = [].
Proof.
  induction l as [|x l IH]; intros Hl; [done|].
  rewrite filter_cons_False by (apply Hl; by left). apply IH. intros y Hy. apply Hl. by right.
Qed.

(** A weaker predicate keeps at least as many elements, strictly more if one
  element separates the two. *)
Lemma filter_length_le {A} (P Q : A -> Prop) `{!forall x, Decision (P x)} `{!forall x, Decision (Q x)}
    (l : list A) : (forall x, x ∈ l -> P x -> Q x) -> (length (filter P l) <= length (filter Q l))%nat.
Proof.
  induction l as [|x l IH]; intros Hl; [done|]. rewrite !filter_cons.
  assert (length (filter P l) <= length (filter Q l))%nat.
  { apply IH. intros y Hy. apply Hl. by right. }
  destruct (decide (P x)) as [Hp|]; destruct (decide (Q x)) as [|Hq]; simpl; try lia.
  destruct Hq. apply Hl; [by left|done].
Qed.

Lemma filter_length_lt {A} (P Q : A -> Prop) `{!forall x, Decision (P x)} `{!forall x, Decision (Q x)}
    (l : list A) y : (forall x, x ∈ l -> P x -> Q x) -> y ∈ l -> Q y -> ~ P y ->
  (length (filter P l) < length (filter Q l))%nat.
Proof.
  intros Hl Hy HQ HP. apply list_elem_of_split in Hy as (l1 & l2 & ->).
  rewrite !filter_app, !length_app, filter_cons_False, filter_cons_True by done. simpl.
  pose proof (filter_length_le P Q l1) as H1. pose proof (filter_length_le P Q l2) as H2.
  assert (H1' : (length (filter P l1) <= length (filter Q l1))%nat).
  { apply H1. intros x Hx. apply Hl. apply elem_of_app. by left. }
  assert (H2' : (length (filter P l2) <= length (filter Q l2))%nat).
  { apply H2. intros x Hx. apply Hl. apply elem_of_app. right. by right. }
  lia.
Qed.

(** With distinct second components, an entry is determined by its second one. *)
Lemma NoDup_snd_inj {A B} (l : list (A * B)) a b x : NoDup l.*2 -> (a, x) ∈ l -> (b, x) ∈ l -> a = b.
Proof.
  intros Hn Ha Hb. apply list_elem_of_lookup in Ha as [i Hi]. apply list_elem_of_lookup in Hb as [j Hj].
  assert (i = j) as ->.
  { eapply NoDup_lookup; [apply Hn| |]; rewrite list_lookup_fmap, ?Hi, ?Hj; done. }
  rewrite Hi in Hj. by injection Hj as ->.
Qed.

(** ** Searching an array: the index of the first element that satisfies [f] *)
Fixpoint first_index {A} (f : A -> bool) (l : list A) : option nat :=
  match l with
  | [] => None
  | x :: l => if f x then Some O else S <$> first_index f l
  end.

Lemma first_index_Some {A} (f : A -> bool) l i : first_index f l = Some i <->
  exists x, l !! i = Some x /\ f x = true /\ forall j y, (j < i)%nat -> l !! j = Some y -> f y = false.
Proof.
  revert i. induction l as [|x l IH]; intros i; cbn [first_index].
  { split; [done|]. by intros (y & H & _). }
  destruct (f x) eqn:E.
  - split.
    + intros [= <-]. exists x. split_and!; [done..|]. intros j y Hj. lia.
    + intros (y & Hy & Hf & Hb). destruct i as [|i]; [done|].
      rewrite (Hb 0%nat x ltac:(lia) eq_refl) in E. done.
  - rewrite fmap_Some. split.
    + intros (k & Hk & ->). apply IH in Hk as (y & Hy & Hf & Hb). exists y. split_and!; [done..|].
      intros [|j] z Hj Hz; [by injection Hz as <-|]. apply (Hb j); [lia|done].
    + intros (y & Hy & Hf & Hb). destruct i as [|i]; [by injection Hy as ->; rewrite E in Hf|].
      exists i. split; [|done]. apply IH. exists y. split_and!; [done..|].
      intros j z Hj Hz. apply (Hb (S j)); [lia|done].
Qed.

Lemma first_index_None {A} (f : A -> bool) l : first_index f l = None <-> forall x, x ∈ l -> f x = false.
Proof.
  induction l as [|x l IH]; cbn [first_index].
  { split; [intros _ x H; by apply not_elem_of_nil in H|done]. }
  destruct (f x) eqn:E.
  - split; [done|]. intros H. rewrite H in E by (by left). done.
  - rewrite fmap_None, IH. split.
    + intros H y [->|Hy]%elem_of_cons; [done|by apply H].
    + intros H y Hy. apply H. by right.
Qed.

Lemma first_index_lt {A} (f : A -> bool) l i : first_index f l = Some i -> (i < length l)%nat.
Proof. intros (x & H & _)%first_index_Some. by eapply lookup_lt_Some. Qed.

Lemma first_index_is_Some {A} (f : A -> bool) l x : x ∈ l -> f x = true -> is_Some (first_index f l).
Proof.
  intros Hx Hf. destruct (first_index f l) eqn:E; [done|].
  rewrite first_index_None in E. by rewrite E in Hf.
Qed.

Lemma first_index_unique {A} (f : A -> bool) l i x : l !! i = Some x -> f x = true ->
  (forall j y, l !! j = Some y -> f y = true -> j = i) -> first_index f l = Some i.
Proof.
  intros Hx Hf Hu. destruct (first_index f l) as [j|] eqn:E.
  - apply first_index_Some in E as (y & Hy & Hfy & _). f_equal. by apply (Hu j y).
  - rewrite first_index_None in E. rewrite E in Hf; [done|]. by eapply list_elem_of_lookup_2.
Qed.

(** Changing an element that is found neither before nor after, or the same way,
  changes nothing; a new match is found unless an earlier one is. *)
Lemma first_index_insert_same {A} (f : A -> bool) l i x y : l !! i = Some x -> f y = f x ->
  first_index f (<[i := y]> l) = first_index f l.
Proof.
  revert i. induction l as [|z l IH]; intros [|i] Hi Hf; try done.
  - injection Hi as ->. cbn. by rewrite Hf.
  - change (<[S i := y]> (z :: l)) with (z :: <[i := y]> l). cbn [first_index].
    destruct (f z); [done|]. f_equal. by apply IH.
Qed.

Lemma first_index_insert_new {A} (f : A -> bool) l i x y : l !! i = Some x -> f x = false -> f y = true ->
  first_index f (<[i := y]> l) =
    Some (match first_index f l with Some j => i `min` j | None => i end)%nat.
Proof.
  revert i. induction l as [|z l IH]; intros [|i] Hi Hx Hy; try done.
  - injection Hi as ->. cbn. rewrite Hy, Hx. by destruct (first_index f l).
  - change (<[S i := y]> (z :: l)) with (z :: <[i := y]> l). cbn [first_index].
    destruct (f z); [done|]. rewrite (IH i) by done. by destruct (first_index f l).
Qed.

Lemma first_index_snoc {A} (f : A -> bool) l x : first_index f (l ++ [x]) =
  match first_index f l with Some i => Some i | None => if f x then Some (length l) else None end.
Proof.
  induction l as [|z l IH]; cbn; [by destruct (f x)|]. destruct (f z); [done|].
  rewrite IH. destruct (first_index f l); [done|]. by destruct (f x).
Qed.

Lemma first_index_ext {A} (f g : A -> bool) l : (forall x, x ∈ l -> f x = g x) ->
  first_index f l = first_index g l.
Proof.
  induction l as [|z l IH]; intros Hl; cbn; [done|]. rewrite (Hl z) by by left.
  rewrite IH; [done|]. intros x Hx. apply Hl. by right.
Qed.

(** ** Hint databases of the development *)
Create HintDb void discriminated.
#[export] Hint Constants Opaque : void.
#[export] Hint Resolve u64_range u32_range : void.
Create Rewrite HintDb void_rw.
#[export] Hint Rewrite @length_zset : void_rw.

(** Case analysis on the boolean conditions of the source. *)
Ltac bool_to_prop :=
  repeat match goal with
  | H : (_ && _) = true |- _ => apply andb_true_iff in H as [? ?]
  | H : (_ || _) = false |- _ => apply orb_false_iff in H as [? ?]
  | H : negb _ = true |- _ => apply negb_true_iff in H
  | H : negb _ = false |- _ => apply negb_false_iff in H
  | H : (_ <? _) = true |- _ => apply Z.ltb_lt in H
  | H : (_ <? _) = false |- _ => apply Z.ltb_ge in H
  | H : (_ <=? _) = true |- _ => apply Z.leb_le in H
  | H : (_ <=? _) = false |- _ => apply Z.leb_gt in H
  | H : (_ =? _) = true |- _ => apply Z.eqb_eq in H
  | H : (_ =? _) = false |- _ => apply Z.eqb_neq in H
  end.

(** Split on the condition of the outermost [if] of the goal. *)
Ltac case_if :=
  match goal with
  | |- context [if ?b then _ else _] => destruct b eqn:?
  end.

Ltac case_if_in H :=
  match type of H with
  | context [if ?b then _ else _] => destruct b eqn:?
  end.

(** Split on the scrutinee of the outermost [match] of a hypothesis. *)
Ltac case_match_in H :=
  match type of H with
  | context [match ?x with _ => _ end] => destruct x eqn:?
  end.
