(* ===== verification/Digits.v ===== *)
(** * Positional numerals

  The conversion loops of the kernel's [kprintf] and of the dynamic linker produce
  the digits of a number, the lowest first, in a buffer.  [digits] is that list and
  the lemmas say what it denotes, how long it is and that it has no leading zero. *)
From S2P Require Import Prelude.

Fixpoint digits (fuel : nat) (base v : Z) : list Z :=
  match fuel with
  | O => []
  | S fuel => v mod base :: (if v / base =? 0 then [] else digits fuel base (v / base))
  end.

(** The number that digits denote, the lowest first. *)
Definition numeral (base : Z) (l : list Z) : Z := foldr (fun d v => d + base * v) 0 l.

Section Digits.
Context (base : Z) (Hb : 2 <= base).

Lemma digits_range fuel : forall v, Forall (fun d => 0 <= d < base) (digits fuel base v).
Proof using Hb.
  induction fuel as [|fuel IH]; intros v; cbn [digits]; [constructor|]. constructor; [apply Z.mod_pos_bound; lia|].
  destruct (v / base =? 0); [constructor|apply IH].
Qed.

Lemma digits_length fuel : forall v, (length (digits fuel base v) <= fuel)%nat.
Proof using Type.
  induction fuel as [|fuel IH]; intros v; cbn [digits length]; [lia|].
  destruct (v / base =? 0); cbn [length]; [lia|]. specialize (IH (v / base)). lia.
Qed.

Lemma numeral_digits fuel : forall v, 0 <= v < base ^ Z.of_nat fuel -> numeral base (digits fuel base v) = v.
Proof using Hb.
  induction fuel as [|fuel IH]; intros v Hv; cbn [digits]; [cbn in *; lia|].
  rewrite Nat2Z.inj_succ, Z.pow_succ_r in Hv by lia. unfold numeral in *. cbn [foldr].
  pose proof (Z.div_mod v base ltac:(lia)) as Hdm. destruct (Z.eqb_spec (v / base) 0) as [E|E]; cbn [foldr]; [lia|].
  rewrite IH; [lia|]. split; [apply Z.div_pos; lia|]. apply Z.div_lt_upper_bound; lia.
Qed.

(** Enough fuel gives all digits. *)
Lemma digits_fuel n : forall m v, 0 <= v < base ^ Z.of_nat n -> (0 < n <= m)%nat -> digits m base v = digits n base v.
Proof using Hb.
  induction n as [|n IH]; intros m v Hv Hm; [lia|]. destruct m as [|m]; [lia|]. cbn [digits]. f_equal.
  destruct (Z.eqb_spec (v / base) 0) as [|E]; [done|].
  rewrite Nat2Z.inj_succ, Z.pow_succ_r in Hv by lia.
  assert (Hq : 0 <= v / base < base ^ Z.of_nat n) by (split; [apply Z.div_pos; lia|apply Z.div_lt_upper_bound; lia]).
  apply IH; [done|]. destruct n; [|lia]. cbn in Hq. lia.
Qed.

(** No leading zero, except for zero itself. *)
Lemma digits_last fuel : forall v d, 0 <= v < base ^ Z.of_nat fuel -> last (digits fuel base v) = Some d -> d = 0 -> v = 0.
Proof using Hb.
  induction fuel as [|fuel IH]; intros v d Hv; cbn [digits]; [done|].
  rewrite Nat2Z.inj_succ, Z.pow_succ_r in Hv by lia.
  assert (Hq : 0 <= v / base < base ^ Z.of_nat fuel) by (split; [apply Z.div_pos; lia|apply Z.div_lt_upper_bound; lia]).
  destruct (Z.eqb_spec (v / base) 0) as [E|E].
  - cbn. intros [= <-] E0. pose proof (Z.div_mod v base ltac:(lia)). lia.
  - rewrite last_cons. destruct (last (digits fuel base (v / base))) as [x|] eqn:El; cbn.
    + intros [= <-] ->. by destruct (IH _ _ Hq El eq_refl).
    + intros _ _. apply last_None in El. destruct fuel as [|fuel]; [cbn in Hq; lia|done].
Qed.

Lemma numeral_nonneg ds : Forall (fun d => 0 <= d < base) ds -> 0 <= numeral base ds.
Proof using Hb. induction 1 as [|d ds Hd _ IH]; cbn [numeral foldr]; [lia|]. unfold numeral in IH. nia. Qed.

Lemma numeral_zero ds : Forall (fun d => 0 <= d < base) ds -> numeral base ds = 0 -> ds <> [] -> last ds = Some 0.
Proof using Hb.
  induction 1 as [|d ds Hd Hds IH]; [done|]. cbn [numeral foldr]. fold (numeral base ds). intros E _.
  pose proof (numeral_nonneg ds Hds). destruct ds as [|d' ds]; [cbn in *; f_equal; lia|]. rewrite last_cons_cons. apply IH; [nia|done].
Qed.

(** A number has one numeral. *)
Lemma digits_unique ds : forall fuel v, ds <> [] -> Forall (fun d => 0 <= d < base) ds -> numeral base ds = v ->
  (last ds = Some 0 -> ds = [0]) -> (length ds <= fuel)%nat -> digits fuel base v = ds.
Proof using Hb.
  induction ds as [|d ds IH]; intros fuel v Hne Hr Hv Hl Hf; [done|]. destruct fuel as [|fuel]; [cbn in Hf; lia|].
  apply Forall_cons in Hr as [Hd Hr]. cbn [numeral foldr] in Hv. fold (numeral base ds) in Hv. cbn [digits].
  assert (Em : v mod base = d) by (symmetry; apply (Z.mod_unique_pos _ _ (numeral base ds)); lia).
  assert (Eq : v / base = numeral base ds) by (symmetry; apply (Z.div_unique_pos _ _ _ d); lia).
  rewrite Em, Eq. f_equal. destruct ds as [|d' ds]; [done|].
  destruct (Z.eqb_spec (numeral base (d' :: ds)) 0) as [E|E].
  - pose proof (numeral_zero _ Hr E ltac:(done)) as Hz. rewrite last_cons_cons in Hl. by specialize (Hl Hz).
  - apply IH; [done|done|done| |cbn [length] in *; lia]. intros Hz. rewrite last_cons_cons in Hl. by specialize (Hl Hz).
Qed.
End Digits.
