(* ===== verification/Interfaces.v ===== *)
(** * Interfaces between components

  What the client components rely on without depending on an implementation:
  the kernel heap ([mm/kheap.h]) and the service registry's close hook
  ([svc/svc_internal.h]).  Access to user memory is the interface of [Uaccess].
  [Kheap] and [Svc] give the implementations. *)
From S2P Require Import Prelude.

(** [kmalloc] returns 0 for NULL. *)
Class KernelHeap (H : Type) := { kmalloc : H -> Z -> Z * H; kfree : H -> Z -> H }.

(** A size the heap serves safely: rounded to 16 bytes and with its header, the
  object does not fill fresh pages to exactly 32 bytes before their end, where
  the heap reads a header nobody wrote ([Kheap.stale]).  No client of the
  kernel asks for such a size. *)
Definition clear_size (n : Z) : Prop := ~ (4016 < n mod 4096 <= 4032).

(** [inv L h]: the heap is sound and the objects at the addresses [L] are live.
  An allocation of less than the heap's 256 MiB fails or returns the address of
  a new object. *)
Class KernelHeapLaws (H : Type) `{KernelHeap H} (inv : gset Z -> H -> Prop) := {
  kmalloc_fresh : forall L h n, 0 < n < 2 ^ 28 -> clear_size n -> inv L h ->
    let '(a, h') := kmalloc h n in
    if a =? 0 then inv L h' else a ∉ L /\ inv ({[a]} ∪ L) h';
  kfree_inv : forall L h a, inv L h -> a ∈ L -> inv (L ∖ {[a]}) (kfree h a)
}.

(** [svc_on_endpoint_close] of the service registry. *)
Class CloseHook (S : Type) := { svc_on_endpoint_close : S -> Z -> Z -> S }.

(** A heap that never runs out, for demonstrations. *)
Definition bump_heap : KernelHeap Z := {| kmalloc h n := (h, h + Z.max n 1); kfree h _ := h |}.

Lemma bump_heap_laws : @KernelHeapLaws Z bump_heap (fun L h => 0 < h /\ forall a, a ∈ L -> a < h).
Proof.
  split.
  - intros L h n _ _ [Hp Hb]. cbn [kmalloc bump_heap]. destruct (Z.eqb_spec h 0); [lia|]. split_and!; [|lia|].
    + intros Hin. specialize (Hb _ Hin). lia.
    + intros a [->%elem_of_singleton|Ha]%elem_of_union; [lia|]. specialize (Hb _ Ha). lia.
  - intros L h a [Hp Hb] Ha. split; [done|]. intros x [Hx _]%elem_of_difference. by apply Hb.
Qed.
