(* ===== verification/Pmm.v ===== *)
(** * Physical frame allocator ([kernel/mm/pmm.c])

  The bitmap is the array of bytes [bitmap]; bit [f mod 8] of byte [f / 8] is
  one exactly when frame [f] is used.  The bitmap's own storage is reserved by
  [pmm_init] and never handed out, so it is state of this module rather than
  part of the physical memory other modules write. *)
From S2P Require Import Prelude.

(** ** State *)
Record pmm := Pmm {
  bitmap : list Z;
  bitmap_size : Z;
  total_frames : Z;
  free_frames : Z
}.

(** Boot memory map entries ([boot_mmap_entry_t]). *)
Inductive boot_mem_type_t :=
  | BOOT_MEM_USABLE
  | BOOT_MEM_RESERVED
  | BOOT_MEM_ACPI_RECLAIMABLE
  | BOOT_MEM_ACPI_NVS
  | BOOT_MEM_BAD
  | BOOT_MEM_BOOTLOADER_RECLAIMABLE
  | BOOT_MEM_KERNEL_AND_MODULES.

#[export] Instance boot_mem_type_eq_dec : EqDecision boot_mem_type_t.
Proof. solve_decision. Defined.

Record boot_mmap_entry_t := MmapEntry {
  mm_base : Z;
  mm_length : Z;
  mm_type : boot_mem_type_t
}.

(** ** Bit helpers *)
Definition set_bitmap (p : pmm) (bm : list Z) : pmm :=
  Pmm bm (bitmap_size p) (total_frames p) (free_frames p).

Definition set_free_frames (p : pmm) (n : Z) : pmm :=
  Pmm (bitmap p) (bitmap_size p) (total_frames p) n.

Definition bit_set (p : pmm) (frame : Z) : pmm :=
  set_bitmap p (zset (bitmap p) (frame / 8)
    (Z.lor (zget 0 (bitmap p) (frame / 8)) (u8 (Z.shiftl 1 (frame mod 8))))).

Definition bit_clear (p : pmm) (frame : Z) : pmm :=
  set_bitmap p (zset (bitmap p) (frame / 8)
    (Z.land (zget 0 (bitmap p) (frame / 8)) (u8 (Z.lnot (Z.shiftl 1 (frame mod 8)))))).

Definition bit_test (p : pmm) (frame : Z) : bool :=
  has (Z.shiftr (zget 0 (bitmap p) (frame / 8)) (frame mod 8)) 1.

(** ** pmm_init *)

(** Step 1: the highest physical address of the map. *)
Definition higher (hi : Z) (e : boot_mmap_entry_t) : Z :=
  let top := u64 (mm_base e + mm_length e) in if hi <? top then top else hi.

Definition highest_addr (mmap : list boot_mmap_entry_t) : Z := foldl higher 0 mmap.

(** Step 2: the first usable region large enough for the bitmap (0 = none). *)
Fixpoint find_bitmap_region (size : Z) (mmap : list boot_mmap_entry_t) : Z :=
  match mmap with
  | [] => 0
  | e :: r =>
      if bool_decide (mm_type e <> BOOT_MEM_USABLE) then find_bitmap_region size r
      else if size <=? mm_length e then mm_base e
      else find_bitmap_region size r
  end.

(** Step 4: clear the bits of one usable region, counting every frame. *)
Definition region_start (e : boot_mmap_entry_t) : Z :=
  u64 (u64 (mm_base e + PAGE_SIZE) - 1) / PAGE_SIZE.
Definition region_end (e : boot_mmap_entry_t) : Z :=
  u64 (mm_base e + mm_length e) / PAGE_SIZE.

(** The body of the inner loop: clear the bit, count the frame. *)
Definition clear_frame (q : pmm) (f : Z) : pmm :=
  set_free_frames (bit_clear q f) (u64 (free_frames q + 1)).

Definition free_region (p : pmm) (e : boot_mmap_entry_t) : pmm :=
  if bool_decide (mm_type e <> BOOT_MEM_USABLE) then p
  else foldl clear_frame p (range (region_start e) (region_end e)).

(** Steps 5 and 6: reserve one frame if it is free. *)
Definition reserve_frame (p : pmm) (f : Z) : pmm :=
  if negb (bit_test p f)
  then set_free_frames (bit_set p f) (u64 (free_frames p - 1)) else p.

(** [None] is the fatal halt of the missing bitmap region. *)
Definition pmm_init (mmap : list boot_mmap_entry_t) : option pmm :=
  let total := highest_addr mmap / PAGE_SIZE in
  let size := u64 (total + 7) / 8 in
  let bitmap_phys := find_bitmap_region size mmap in
  if bitmap_phys =? 0 then None else
  let p0 := Pmm (replicate (Z.to_nat size) 255) size total 0 in
  let p1 := foldl free_region p0 mmap in
  let bm_start := bitmap_phys / PAGE_SIZE in
  let bm_end := u64 (u64 (bitmap_phys + size + PAGE_SIZE) - 1) / PAGE_SIZE in
  let p2 := foldl reserve_frame p1 (range bm_start bm_end) in
  Some (if 0 <? total then reserve_frame p2 0 else p2).

(** ** pmm_alloc_frame *)

(** The inner loop over the bits of byte [i]: [None] falls through to the
  next byte, [Some (r, p)] is the [return r] of the source. *)
Fixpoint alloc_bits (p : pmm) (i : Z) (bits : list Z) : option (Z * pmm) :=
  match bits with
  | [] => None
  | bit :: rest =>
      let frame := u64 (i * 8 + bit) in
      if total_frames p <=? frame then Some (0, p)
      else if negb (bit_test p frame)
      then Some (u64 (frame * PAGE_SIZE),
                 set_free_frames (bit_set p frame) (u64 (free_frames p - 1)))
      else alloc_bits p i rest
  end.

Fixpoint alloc_bytes (p : pmm) (idx : list Z) : Z * pmm :=
  match idx with
  | [] => (0, p)
  | i :: rest =>
      if zget 0 (bitmap p) i =? 255 then alloc_bytes p rest
      else match alloc_bits p i (range 0 8) with
           | Some r => r
           | None => alloc_bytes p rest
           end
  end.

Definition pmm_alloc_frame (p : pmm) : Z * pmm :=
  alloc_bytes p (range 0 (bitmap_size p)).

(** ** pmm_free_frame and the counters *)
Definition pmm_free_frame (p : pmm) (phys_addr : Z) : pmm :=
  let frame := phys_addr / PAGE_SIZE in
  if total_frames p <=? frame then p
  else if bit_test p frame
  then set_free_frames (bit_clear p frame) (u64 (free_frames p + 1))
  else p.

Definition pmm_free_count (p : pmm) : Z := free_frames p.
Definition pmm_total_count (p : pmm) : Z := total_frames p.

(** ** Specification: the set of free frames *)
Definition used (p : pmm) (f : Z) : bool :=
  Z.testbit (zget 0 (bitmap p) (f / 8)) (f mod 8).

Definition free_set (p : pmm) : gset Z :=
  list_to_set (filter (fun f => used p f = false) (range 0 (total_frames p))).

Record pmm_wf (p : pmm) : Prop := {
  wf_total : 0 <= total_frames p <= 2 ^ 52;
  wf_size : bitmap_size p = (total_frames p + 7) / 8;
  wf_length : Z.of_nat (length (bitmap p)) = bitmap_size p;
  wf_bytes : Forall (fun b => 0 <= b < 256) (bitmap p)
}.

(** The module's invariant: the counter is the number of clear bits. *)
Record pmm_inv (p : pmm) : Prop := {
  inv_wf : pmm_wf p;
  inv_count : free_frames p = Z.of_nat (size (free_set p))
}.

Lemma bit_test_used p f : bit_test p f = used p f.
Proof.
  unfold bit_test, used. rewrite (has_bit _ 0) by lia.
  rewrite Z.shiftr_spec by lia. f_equal.
Qed.

Lemma elem_of_free_set p f :
  f ∈ free_set p <-> 0 <= f < total_frames p /\ used p f = false.
Proof.
  unfold free_set. rewrite elem_of_list_to_set, list_elem_of_filter, elem_of_range. tauto.
Qed.

Lemma wf_index p f : pmm_wf p -> 0 <= f < total_frames p ->
  0 <= f / 8 < Z.of_nat (length (bitmap p)).
Proof.
  intros [Ht Hs Hl _] Hf. rewrite Hl, Hs. split; [apply Z.div_pos; lia|].
  apply Z.div_lt_upper_bound; [lia|].
  pose proof (Z.div_mod (total_frames p + 7) 8 ltac:(lia)).
  pose proof (Z.mod_pos_bound (total_frames p + 7) 8 ltac:(lia)). lia.
Qed.

Lemma wf_byte p i : pmm_wf p -> 0 <= i < Z.of_nat (length (bitmap p)) ->
  0 <= zget 0 (bitmap p) i < 256.
Proof.
  intros [_ _ _ Hb] Hi. rewrite Forall_forall in Hb. apply Hb. by apply zget_in.
Qed.

Lemma frame_split f g : 0 <= f -> 0 <= g -> f / 8 = g / 8 -> f mod 8 = g mod 8 -> f = g.
Proof. intros. rewrite (Z.div_mod f 8), (Z.div_mod g 8) by lia. lia. Qed.

(** Writing one byte of the bitmap. *)
Lemma set_bitmap_wf p i b : pmm_wf p -> 0 <= b < 256 ->
  pmm_wf (set_bitmap p (zset (bitmap p) i b)).
Proof.
  intros [Ht Hs Hl Hb] Hr. split; simpl; [lia|done|by rewrite length_zset|].
  by apply Forall_insert.
Qed.

Lemma set_free_frames_wf p n : pmm_wf p -> pmm_wf (set_free_frames p n).
Proof. by intros [? ? ? ?]. Qed.

Lemma bit_mask_set k : 0 <= k < 8 -> u8 (Z.shiftl 1 k) = 2 ^ k.
Proof.
  intros. rewrite Z.shiftl_1_l. apply u8_id. split; [lia|].
  change 256 with (2 ^ 8). apply Z.pow_lt_mono_r; lia.
Qed.

Lemma testbit_mask_clear k j : 0 <= k < 8 -> 0 <= j < 8 ->
  Z.testbit (u8 (Z.lnot (Z.shiftl 1 k))) j = negb (k =? j).
Proof.
  intros. unfold u8. rewrite Z.mod_pow2_bits_low, Z.lnot_spec by lia.
  by rewrite Z.shiftl_1_l, testbit_pow2 by lia.
Qed.

Lemma bit_set_wf p f : pmm_wf p -> 0 <= f < total_frames p -> pmm_wf (bit_set p f).
Proof.
  intros Hw Hf. apply set_bitmap_wf; [done|].
  pose proof (Z.mod_pos_bound f 8 ltac:(lia)).
  apply (lor_bound _ _ 8); [lia| |].
  - apply wf_byte; [done|]. by apply wf_index.
  - unfold u8. apply Z.mod_pos_bound. lia.
Qed.

Lemma bit_clear_wf p f : pmm_wf p -> 0 <= f < total_frames p -> pmm_wf (bit_clear p f).
Proof.
  intros Hw Hf. apply set_bitmap_wf; [done|].
  apply (land_bound _ _ 8); [lia|]. apply wf_byte; [done|]. by apply wf_index.
Qed.

Lemma used_bit_set p f g : pmm_wf p -> 0 <= f < total_frames p -> 0 <= g ->
  used (bit_set p f) g = (f =? g) || used p g.
Proof.
  intros Hw Hf Hg. pose proof (wf_index p f Hw Hf) as Hi.
  pose proof (Z.mod_pos_bound f 8 ltac:(lia)). pose proof (Z.mod_pos_bound g 8 ltac:(lia)).
  unfold used, bit_set. simpl. destruct (decide (f / 8 = g / 8)) as [E|E].
  - rewrite <- E, zget_zset_eq by done.
    rewrite Z.lor_spec, bit_mask_set, testbit_pow2 by lia. rewrite orb_comm. f_equal.
    destruct (Z.eqb_spec f g) as [->|]; [by rewrite Z.eqb_refl|].
    apply Z.eqb_neq. intros E'. cut (f = g); [done|]. by apply frame_split; try lia.
  - rewrite zget_zset_ne by (try apply Z.div_pos; lia || done).
    destruct (Z.eqb_spec f g) as [->|]; done.
Qed.

Lemma used_bit_clear p f g : pmm_wf p -> 0 <= f < total_frames p -> 0 <= g ->
  used (bit_clear p f) g = negb (f =? g) && used p g.
Proof.
  intros Hw Hf Hg. pose proof (wf_index p f Hw Hf) as Hi.
  pose proof (Z.mod_pos_bound f 8 ltac:(lia)). pose proof (Z.mod_pos_bound g 8 ltac:(lia)).
  unfold used, bit_clear. simpl. destruct (decide (f / 8 = g / 8)) as [E|E].
  - rewrite <- E, zget_zset_eq by done.
    rewrite Z.land_spec, testbit_mask_clear by lia. rewrite andb_comm. f_equal. f_equal.
    destruct (Z.eqb_spec f g) as [->|]; [by rewrite Z.eqb_refl|].
    apply Z.eqb_neq. intros E'. cut (f = g); [done|]. by apply frame_split; try lia.
  - rewrite zget_zset_ne by (try apply Z.div_pos; lia || done).
    destruct (Z.eqb_spec f g) as [->|]; done.
Qed.

Lemma used_set_free_frames p n f : used (set_free_frames p n) f = used p f.
Proof. done. Qed.

Lemma free_set_set_free_frames p n : free_set (set_free_frames p n) = free_set p.
Proof. done. Qed.

Lemma free_set_bit_set p f : pmm_wf p -> 0 <= f < total_frames p ->
  free_set (bit_set p f) = free_set p ∖ {[f]}.
Proof.
  intros Hw Hf. apply set_eq. intros g.
  rewrite elem_of_difference, !elem_of_free_set, elem_of_singleton. simpl.
  split.
  - intros [? Hu]. rewrite used_bit_set in Hu by (done || lia). apply orb_false_iff in Hu as [Hne%Z.eqb_neq ?]. split; [done|congruence].
  - intros [[? Hu] ?]. split; [done|]. rewrite used_bit_set by (done || lia).
    rewrite Hu, orb_false_r. apply Z.eqb_neq. congruence.
Qed.

Lemma free_set_bit_clear p f : pmm_wf p -> 0 <= f < total_frames p ->
  free_set (bit_clear p f) = {[f]} ∪ free_set p.
Proof.
  intros Hw Hf. apply set_eq. intros g.
  rewrite elem_of_union, !elem_of_free_set, elem_of_singleton. simpl.
  destruct (decide (g = f)) as [->|].
  - split; [by left|intros _]. split; [done|]. by rewrite used_bit_clear, Z.eqb_refl by (done || lia).
  - split.
    + intros [? Hu]. right. split; [done|]. rewrite used_bit_clear in Hu by (done || lia).
      destruct (Z.eqb_spec f g); [congruence|done].
    + intros [?|[? Hu]]; [done|]. split; [done|]. rewrite used_bit_clear by (done || lia).
      by rewrite Hu, andb_false_r.
Qed.

(** ** Allocation *)

(** The lowest free frame, if there is one. *)
Definition lowest_free (p : pmm) (f : Z) : Prop :=
  f ∈ free_set p /\ forall g, g ∈ free_set p -> f <= g.

Definition take_frame (p : pmm) (f : Z) : pmm :=
  set_free_frames (bit_set p f) (u64 (free_frames p - 1)).

Lemma full_byte p i f : pmm_wf p -> zget 0 (bitmap p) i = 255 ->
  0 <= f -> f / 8 = i -> used p f = true.
Proof.
  intros Hw Hb Hf Hi. unfold used. rewrite Hi, Hb.
  pose proof (Z.mod_pos_bound f 8 ltac:(lia)).
  change 255 with (Z.ones 8). by apply Z.ones_spec_low.
Qed.

Lemma alloc_bits_spec p i b :
  pmm_wf p -> 0 <= i < bitmap_size p -> 0 <= b <= 8 ->
  match alloc_bits p i (range b 8) with
  | None => forall f, i * 8 + b <= f < i * 8 + 8 -> f < total_frames p /\ used p f = true
  | Some (r, p') =>
      (exists f, i * 8 + b <= f < total_frames p /\ used p f = false /\
         (forall g, i * 8 + b <= g < f -> used p g = true) /\
         r = f * PAGE_SIZE /\ p' = take_frame p f) \/
      (r = 0 /\ p' = p /\ forall g, i * 8 + b <= g < total_frames p -> used p g = true)
  end.
Proof.
  intros Hw Hi Hb. pose proof Hw as [Ht Hs _ _].
  assert (i < 2 ^ 52) by (rewrite Hs in Hi; assert ((total_frames p + 7) / 8 <= 2 ^ 52); [|lia];
    apply Z.div_le_upper_bound; lia).
  remember (Z.to_nat (8 - b)) as n eqn:Hn. revert b Hb Hn.
  induction n as [|n IH]; intros b Hb Hn.
  { rewrite range_nil by lia. simpl. lia. }
  rewrite range_cons by lia. simpl. rewrite (u64_id (i * 8 + b)) by lia.
  destruct (Z.leb_spec (total_frames p) (i * 8 + b)).
  { right. split_and!; [done..|]. lia. }
  rewrite bit_test_used. destruct (used p (i * 8 + b)) eqn:Hu; simpl.
  - specialize (IH (b + 1) ltac:(lia) ltac:(lia)).
    destruct (alloc_bits p i (range (b + 1) 8)) as [[r p']|].
    + destruct IH as [(f & Hf & Hf0 & Hlow & -> & ->)|(-> & -> & Hall)].
      * left. exists f. split_and!; [lia..|done| |done|done].
        intros g Hg. destruct (decide (g = i * 8 + b)) as [->|]; [done|apply Hlow; lia].
      * right. split_and!; [done..|]. intros g Hg.
        destruct (decide (g = i * 8 + b)) as [->|]; [done|apply Hall; lia].
    + intros f Hf. destruct (decide (f = i * 8 + b)) as [->|]; [done|apply IH; lia].
  - left. exists (i * 8 + b). split_and!; [lia..|done|lia| |done].
    unfold PAGE_SIZE. apply u64_id. lia.
Qed.

Lemma alloc_bytes_spec p i :
  pmm_wf p -> 0 <= i <= bitmap_size p ->
  let '(r, p') := alloc_bytes p (range i (bitmap_size p)) in
  (exists f, i * 8 <= f < total_frames p /\ used p f = false /\
     (forall g, i * 8 <= g < f -> used p g = true) /\
     r = f * PAGE_SIZE /\ p' = take_frame p f) \/
  (r = 0 /\ p' = p /\ forall g, i * 8 <= g < total_frames p -> used p g = true).
Proof.
  intros Hw Hi. remember (Z.to_nat (bitmap_size p - i)) as n eqn:Hn. revert i Hi Hn.
  induction n as [|n IH]; intros i Hi Hn.
  { rewrite range_nil by lia. right. split_and!; [done..|]. intros g Hg.
    pose proof Hw as [Ht Hs _ _].
    pose proof (Z.div_mod (total_frames p + 7) 8 ltac:(lia)).
    pose proof (Z.mod_pos_bound (total_frames p + 7) 8 ltac:(lia)). lia. }
  rewrite range_cons by lia. cbn [alloc_bytes].
  specialize (IH (i + 1) ltac:(lia) ltac:(lia)).
  assert (Hskip : (forall f, i * 8 <= f < i * 8 + 8 -> f < total_frames p -> used p f = true) ->
    let '(r, p') := alloc_bytes p (range (i + 1) (bitmap_size p)) in
    (exists f, i * 8 <= f < total_frames p /\ used p f = false /\
       (forall g, i * 8 <= g < f -> used p g = true) /\
       r = f * PAGE_SIZE /\ p' = take_frame p f) \/
    (r = 0 /\ p' = p /\ forall g, i * 8 <= g < total_frames p -> used p g = true)).
  { intros Hall. destruct (alloc_bytes p (range (i + 1) (bitmap_size p))) as [r p'].
    destruct IH as [(f & Hf & Hf0 & Hlow & -> & ->)|(-> & -> & Hrest)].
    - left. exists f. split_and!; [lia..|done| |done|done].
      intros g Hg. destruct (decide (g < i * 8 + 8)); [apply Hall; lia|apply Hlow; lia].
    - right. split_and!; [done..|]. intros g Hg.
      destruct (decide (g < i * 8 + 8)); [apply Hall; lia|apply Hrest; lia]. }
  destruct (Z.eqb_spec (zget 0 (bitmap p) i) 255) as [E|E].
  { apply Hskip. intros f Hf _. apply (full_byte p i); [done|done|lia|].
    symmetry. apply (Z.div_unique_pos _ _ _ (f - i * 8)); lia. }
  pose proof (alloc_bits_spec p i 0 Hw ltac:(lia) ltac:(lia)) as Hbits.
  destruct (alloc_bits p i (range 0 8)) as [[r p']|].
  - by rewrite !Z.add_0_r in Hbits.
  - apply Hskip. intros f Hf _. apply Hbits. lia.
Qed.

(** The scan of the bitmap is the search for the lowest free frame. *)
Lemma alloc_frame_cases p : pmm_wf p ->
  let '(r, p') := pmm_alloc_frame p in
  (exists f, lowest_free p f /\ 0 <= f < total_frames p /\ r = f * PAGE_SIZE /\ p' = take_frame p f) \/
  (free_set p = ∅ /\ r = 0 /\ p' = p).
Proof.
  intros Hw. unfold pmm_alloc_frame.
  assert (0 <= bitmap_size p).
  { pose proof Hw as [Ht Hs _ _]. rewrite Hs. apply Z.div_pos; lia. }
  pose proof (alloc_bytes_spec p 0 Hw ltac:(lia)) as Hs.
  destruct (alloc_bytes p (range 0 (bitmap_size p))) as [r p'].
  destruct Hs as [(f & Hf & Hf0 & Hlow & -> & ->)|(-> & -> & Hall)].
  - left. exists f. split_and!; [|lia..|done|done]. split.
    + apply elem_of_free_set. split; [lia|done].
    + intros g [Hg Hu]%elem_of_free_set. destruct (decide (f <= g)); [done|].
      rewrite Hlow in Hu by lia. done.
  - right. split_and!; [|done..]. apply set_eq. intros g.
    rewrite elem_of_free_set. split; [|set_solver].
    intros [Hg Hu]. rewrite Hall in Hu by lia. done.
Qed.

Lemma take_frame_wf p f : pmm_wf p -> 0 <= f < total_frames p -> pmm_wf (take_frame p f).
Proof. intros. by apply set_free_frames_wf, bit_set_wf. Qed.

Lemma free_set_take_frame p f : pmm_wf p -> 0 <= f < total_frames p ->
  free_set (take_frame p f) = free_set p ∖ {[f]}.
Proof. intros. unfold take_frame. by rewrite free_set_set_free_frames, free_set_bit_set. Qed.

Lemma size_free_set_le p : pmm_wf p -> 0 <= Z.of_nat (size (free_set p)) <= total_frames p.
Proof.
  intros [Ht _ _ _]. unfold free_set. split; [lia|].
  rewrite size_list_to_set by (apply NoDup_filter, NoDup_range).
  pose proof (length_filter (fun f => used p f = false) (range 0 (total_frames p))) as H.
  unfold range in *. rewrite length_seqZ in H. lia.
Qed.

Lemma take_frame_inv p f : pmm_inv p -> f ∈ free_set p -> pmm_inv (take_frame p f).
Proof.
  intros [Hw Hc] Hf. pose proof Hf as [Hr Hu]%elem_of_free_set. split.
  - by apply take_frame_wf.
  - assert (Hsub : {[f]} ⊆ free_set p) by set_solver.
    rewrite free_set_take_frame, size_difference, size_singleton by done.
    assert (size (free_set p) <> 0%nat).
    { intros H0%size_empty_inv. set_solver. }
    pose proof (size_free_set_le p Hw). pose proof Hw as [? _ _ _].
    unfold take_frame. cbn [free_frames set_free_frames]. rewrite Hc, u64_id by lia. lia.
Qed.

Lemma alloc_frame_inv p : pmm_inv p -> pmm_inv (pmm_alloc_frame p).2.
Proof.
  intros Hi. pose proof (alloc_frame_cases p (inv_wf p Hi)) as Hc.
  destruct (pmm_alloc_frame p) as [r p'].
  destruct Hc as [(f & [Hf _] & _ & _ & ->)|(_ & _ & ->)]; [by apply take_frame_inv|done].
Qed.

(** ** Freeing *)
Lemma free_frame_cases p a : pmm_wf p -> 0 <= a ->
  ((a / PAGE_SIZE ∈ free_set p \/ total_frames p <= a / PAGE_SIZE) /\ pmm_free_frame p a = p) \/
  (0 <= a / PAGE_SIZE < total_frames p /\ a / PAGE_SIZE ∉ free_set p /\
   pmm_free_frame p a =
     set_free_frames (bit_clear p (a / PAGE_SIZE)) (u64 (free_frames p + 1))).
Proof.
  intros Hw Ha. unfold pmm_free_frame.
  assert (0 <= a / PAGE_SIZE) by (apply Z.div_pos; unfold PAGE_SIZE; lia).
  destruct (Z.leb_spec (total_frames p) (a / PAGE_SIZE)); [by left; split; [right|]|].
  rewrite bit_test_used. destruct (used p (a / PAGE_SIZE)) eqn:Hu.
  - right. split_and!; [lia..| |done]. rewrite elem_of_free_set. intros [_ ?]. congruence.
  - left. split; [|done]. left. by apply elem_of_free_set.
Qed.

Lemma free_frame_set p a : pmm_wf p -> 0 <= a ->
  free_set (pmm_free_frame p a) =
    if decide (a / PAGE_SIZE < total_frames p) then {[a / PAGE_SIZE]} ∪ free_set p else free_set p.
Proof.
  intros Hw Ha. destruct (free_frame_cases p a Hw Ha) as [[Hc ->]|(Hr & Hn & ->)].
  - case_decide; [|done]. destruct Hc; [set_solver|lia].
  - rewrite decide_True by lia. by rewrite free_set_set_free_frames, free_set_bit_clear.
Qed.

Lemma free_frame_inv p a : pmm_inv p -> 0 <= a -> pmm_inv (pmm_free_frame p a).
Proof.
  intros [Hw Hc] Ha. destruct (free_frame_cases p a Hw Ha) as [[_ ->]|(Hr & Hn & ->)]; [done|].
  assert (Hw' : pmm_wf (bit_clear p (a / PAGE_SIZE))) by by apply bit_clear_wf.
  split; [by apply set_free_frames_wf|].
  pose proof (size_free_set_le _ Hw') as Hle. pose proof Hw as [? _ _ _].
  rewrite free_set_bit_clear, size_union, size_singleton in Hle by (done || set_solver).
  rewrite free_set_set_free_frames, free_set_bit_clear, size_union, size_singleton
    by (done || set_solver).
  cbn [free_frames set_free_frames]. cbn [total_frames bit_clear set_bitmap] in Hle.
  rewrite Hc, u64_id by lia. lia.
Qed.

(** ** Initialisation *)

(** The frames of the usable regions, as a set. *)
Definition region_frames (e : boot_mmap_entry_t) : gset Z :=
  if bool_decide (mm_type e = BOOT_MEM_USABLE)
  then list_to_set (range (region_start e) (region_end e)) else ∅.

(** What the boot protocol promises of its map: entries do not wrap, usable
  entries are page-aligned and do not share a frame. *)
Record mmap_ok (mmap : list boot_mmap_entry_t) : Prop := {
  mmap_range : forall e, e ∈ mmap -> 0 <= mm_base e /\ 0 <= mm_length e /\
                                    mm_base e + mm_length e <= 2 ^ 63;
  mmap_aligned : forall e, e ∈ mmap -> mm_type e = BOOT_MEM_USABLE ->
                   mm_base e mod PAGE_SIZE = 0 /\ mm_length e mod PAGE_SIZE = 0;
  mmap_disjoint : forall i j e1 e2, mmap !! i = Some e1 -> mmap !! j = Some e2 -> i <> j ->
                    region_frames e1 ## region_frames e2
}.

Lemma clear_frame_inv q f : pmm_inv q -> 0 <= f < total_frames q -> f ∉ free_set q ->
  pmm_inv (clear_frame q f) /\ free_set (clear_frame q f) = {[f]} ∪ free_set q.
Proof.
  intros [Hw Hc] Hf Hn.
  assert (Hw' : pmm_wf (bit_clear q f)) by by apply bit_clear_wf.
  assert (Hs : free_set (clear_frame q f) = {[f]} ∪ free_set q).
  { unfold clear_frame. by rewrite free_set_set_free_frames, free_set_bit_clear. }
  split; [|done]. split; [by apply set_free_frames_wf|].
  pose proof (size_free_set_le _ Hw') as Hle. pose proof Hw as [Ht _ _ _].
  rewrite Hs. rewrite free_set_bit_clear in Hle by done.
  rewrite size_union in * by set_solver. rewrite size_singleton in *.
  unfold clear_frame. cbn [free_frames set_free_frames].
  cbn [total_frames bit_clear set_bitmap] in Hle. rewrite Hc, u64_id by lia. lia.
Qed.

Lemma clear_frames_inv fs q : pmm_inv q -> NoDup fs ->
  (forall f, f ∈ fs -> 0 <= f < total_frames q /\ f ∉ free_set q) ->
  let q' := foldl clear_frame q fs in
  pmm_inv q' /\ total_frames q' = total_frames q /\ free_set q' = list_to_set fs ∪ free_set q.
Proof.
  revert q. induction fs as [|f fs IH]; intros q Hi Hnd Hfs; simpl.
  { split_and!; [done..|]. set_solver. }
  apply NoDup_cons in Hnd as [Hf Hnd].
  destruct (Hfs f ltac:(set_solver)) as [Hr Hn].
  destruct (clear_frame_inv q f Hi Hr Hn) as [Hi' Hs].
  destruct (IH (clear_frame q f) Hi' Hnd) as (Hi2 & Ht2 & Hs2).
  { intros g Hg. destruct (Hfs g ltac:(set_solver)). rewrite Hs. split; [done|]. set_solver. }
  split_and!; [done|done|]. rewrite Hs2, Hs. set_solver.
Qed.

Lemma free_region_inv e q : pmm_inv q -> 0 <= region_start e -> region_end e <= total_frames q ->
  region_frames e ## free_set q ->
  pmm_inv (free_region q e) /\ total_frames (free_region q e) = total_frames q /\
  free_set (free_region q e) = region_frames e ∪ free_set q.
Proof.
  intros Hi H0 He Hd. unfold free_region, region_frames in *.
  destruct (decide (mm_type e = BOOT_MEM_USABLE)) as [Hu|Hu].
  - rewrite (bool_decide_eq_true_2 (mm_type e = _)) in Hd |- * by done.
    rewrite (bool_decide_eq_false_2 (mm_type e <> _)) by tauto.
    apply clear_frames_inv; [done|apply NoDup_range|].
    intros f Hf. split; [apply elem_of_range in Hf; lia|]. set_solver.
  - rewrite (bool_decide_eq_false_2 (mm_type e = _)), (bool_decide_eq_true_2 (mm_type e <> _)) by done.
    split_and!; [done..|set_solver].
Qed.

Lemma free_regions_inv mmap q : pmm_inv q ->
  (forall e, e ∈ mmap -> 0 <= region_start e /\ region_end e <= total_frames q /\
                         region_frames e ## free_set q) ->
  (forall i j e1 e2, mmap !! i = Some e1 -> mmap !! j = Some e2 -> i <> j ->
                     region_frames e1 ## region_frames e2) ->
  let q' := foldl free_region q mmap in
  pmm_inv q' /\ total_frames q' = total_frames q /\
  free_set q' = ⋃ (region_frames <$> mmap) ∪ free_set q.
Proof.
  revert q. induction mmap as [|e mmap IH]; intros q Hi He Hd; simpl.
  { split_and!; [done..|set_solver]. }
  destruct (He e ltac:(set_solver)) as (H0 & H1 & H2).
  destruct (free_region_inv e q Hi H0 H1 H2) as (Hi' & Ht' & Hs').
  destruct (IH (free_region q e) Hi') as (Hi2 & Ht2 & Hs2).
  - intros e' He'. destruct (He e' ltac:(set_solver)) as (? & ? & ?). rewrite Ht', Hs'.
    split_and!; [done..|]. apply list_elem_of_lookup in He' as [j Hj].
    pose proof (Hd 0%nat (S j) e e' eq_refl Hj ltac:(lia)). set_solver.
  - intros i j e1 e2 Hi1 Hj2 Hne. by apply (Hd (S i) (S j)); [..|lia].
  - split_and!; [done|congruence|]. rewrite Hs2, Hs'. set_solver.
Qed.

Lemma reserve_frame_inv q f : pmm_inv q -> 0 <= f < total_frames q ->
  pmm_inv (reserve_frame q f) /\ total_frames (reserve_frame q f) = total_frames q /\
  free_set (reserve_frame q f) = free_set q ∖ {[f]}.
Proof.
  intros Hi Hf. pose proof (inv_wf q Hi) as Hw. unfold reserve_frame.
  rewrite bit_test_used. destruct (used q f) eqn:Hu; simpl.
  - split_and!; [done..|]. assert (f ∉ free_set q); [|set_solver].
    rewrite elem_of_free_set. intros [_ ?]. congruence.
  - split_and!; [|done|by apply free_set_take_frame].
    apply take_frame_inv; [done|]. by apply elem_of_free_set.
Qed.

Lemma reserve_frames_inv fs q : pmm_inv q -> (forall f, f ∈ fs -> 0 <= f < total_frames q) ->
  let q' := foldl reserve_frame q fs in
  pmm_inv q' /\ total_frames q' = total_frames q /\ free_set q' = free_set q ∖ list_to_set fs.
Proof.
  revert q. induction fs as [|f fs IH]; intros q Hi Hfs; simpl.
  { split_and!; [done..|set_solver]. }
  destruct (reserve_frame_inv q f Hi ltac:(apply Hfs; set_solver)) as (Hi' & Ht' & Hs').
  destruct (IH (reserve_frame q f) Hi') as (Hi2 & Ht2 & Hs2).
  { intros g Hg. rewrite Ht'. apply Hfs. set_solver. }
  split_and!; [done|congruence|]. rewrite Hs2, Hs'. set_solver.
Qed.

(** *** Bounds of the map *)
Lemma highest_addr_ge mmap : (forall e, e ∈ mmap -> 0 <= mm_base e /\ 0 <= mm_length e /\
                                    mm_base e + mm_length e <= 2 ^ 63) ->
  0 <= highest_addr mmap <= 2 ^ 63 /\
  forall e, e ∈ mmap -> mm_base e + mm_length e <= highest_addr mmap.
Proof.
  unfold highest_addr. intros Hr.
  assert (Hgen : forall l hi, (forall e, e ∈ l -> e ∈ mmap) -> 0 <= hi <= 2 ^ 63 ->
    hi <= foldl higher hi l <= 2 ^ 63 /\
    forall e, e ∈ l -> mm_base e + mm_length e <= foldl higher hi l).
  { induction l as [|e l IH]; intros hi Hl Hhi; simpl; [split; [lia|set_solver]|].
    destruct (Hr e ltac:(set_solver)) as (? & ? & ?). unfold higher at 2 4 6. rewrite u64_id by lia.
    destruct (Z.ltb_spec hi (mm_base e + mm_length e)) as [Hlt|Hge].
    - destruct (IH (mm_base e + mm_length e) ltac:(set_solver) ltac:(lia)) as [? Hall].
      split; [lia|]. intros e' [->|?]%elem_of_cons; [lia|by apply Hall].
    - destruct (IH hi ltac:(set_solver) ltac:(lia)) as [? Hall].
      split; [lia|]. intros e' [->|?]%elem_of_cons; [lia|by apply Hall]. }
  destruct (Hgen mmap 0 ltac:(done) ltac:(lia)). split; [lia|done].
Qed.

Lemma find_bitmap_region_spec size mmap :
  find_bitmap_region size mmap <> 0 ->
  exists e, e ∈ mmap /\ mm_type e = BOOT_MEM_USABLE /\ size <= mm_length e /\
            find_bitmap_region size mmap = mm_base e.
Proof.
  induction mmap as [|e mmap IH]; simpl; [done|]. intros Hn.
  case_bool_decide as Hu; [destruct IH as (e' & ? & ?); [done|]; exists e'; set_solver|].
  destruct (Z.leb_spec size (mm_length e)).
  - exists e. split_and!; [by apply elem_of_cons; left|destruct (decide (mm_type e = BOOT_MEM_USABLE)); tauto|done|done].
  - destruct IH as (e' & ? & ?); [done|]. exists e'. set_solver.
Qed.

Lemma div_round_up a : 0 <= a -> a <= 2 ^ 63 -> u64 (u64 (a + PAGE_SIZE) - 1) / PAGE_SIZE = (a + (PAGE_SIZE - 1)) / PAGE_SIZE.
Proof.
  intros. unfold PAGE_SIZE in *. rewrite (u64_id (a + 4096)), u64_id by lia. f_equal. lia.
Qed.

Lemma initial_inv total : 0 <= total <= 2 ^ 52 ->
  let p := Pmm (replicate (Z.to_nat (u64 (total + 7) / 8)) 255) (u64 (total + 7) / 8) total 0 in
  pmm_inv p /\ free_set p = ∅.
Proof.
  intros Ht p. subst p. rewrite u64_id by lia.
  set (p := Pmm _ _ _ _).
  assert (0 <= (total + 7) / 8) by (apply Z.div_pos; lia).
  assert (Hw : pmm_wf p).
  { split; simpl; [lia|done|rewrite length_replicate; lia|].
    apply Forall_replicate. lia. }
  assert (Hs : free_set p = ∅).
  { apply set_eq. intros f. rewrite elem_of_free_set. split; [|set_solver]. intros [Hf Hu].
    pose proof (wf_index p f Hw Hf) as Hi. revert Hu. unfold used.
    rewrite zget_lookup. subst p. simpl in *.
    rewrite length_replicate in Hi. rewrite lookup_replicate_2 by lia. simpl.
    change 255 with (Z.ones 8). pose proof (Z.mod_pos_bound f 8 ltac:(lia)).
    by rewrite Z.ones_spec_low by lia. }
  split; [|done]. split; [done|]. by rewrite Hs.
Qed.

(** The frames of the bitmap itself. *)
Definition bitmap_frames (mmap : list boot_mmap_entry_t) : gset Z :=
  let size := (highest_addr mmap / PAGE_SIZE + 7) / 8 in
  let bp := find_bitmap_region size mmap in
  list_to_set (range (bp / PAGE_SIZE) ((bp + size + (PAGE_SIZE - 1)) / PAGE_SIZE)).

Lemma region_bounds mmap e : mmap_ok mmap -> e ∈ mmap ->
  0 <= region_start e /\ region_end e <= highest_addr mmap / PAGE_SIZE.
Proof.
  intros [Hr Ha Hd] He. destruct (Hr e He) as (? & ? & ?).
  destruct (highest_addr_ge mmap Hr) as [_ Hh]. unfold region_start, region_end.
  rewrite div_round_up, u64_id by lia. split.
  - apply Z.div_pos; unfold PAGE_SIZE; lia.
  - apply Z.div_le_mono; [unfold PAGE_SIZE; lia|by apply Hh].
Qed.

Lemma bitmap_frames_bounds mmap f : mmap_ok mmap ->
  find_bitmap_region ((highest_addr mmap / PAGE_SIZE + 7) / 8) mmap <> 0 ->
  f ∈ bitmap_frames mmap -> 0 <= f < highest_addr mmap / PAGE_SIZE.
Proof.
  intros [Hr Ha Hd] Hn Hf. destruct (find_bitmap_region_spec _ _ Hn) as (e & He & Hu & Hsz & Heq).
  destruct (Hr e He) as (? & ? & ?). destruct (Ha e He Hu) as (Hb & Hl).
  destruct (highest_addr_ge mmap Hr) as [? Hh]. specialize (Hh e He).
  unfold bitmap_frames in Hf. rewrite Heq, elem_of_list_to_set, elem_of_range in Hf.
  set (size := (highest_addr mmap / PAGE_SIZE + 7) / 8) in *. unfold PAGE_SIZE in *.
  split. { assert (0 <= mm_base e / 4096) by (apply Z.div_pos; lia). lia. }
  assert (((mm_base e + size + (4096 - 1)) / 4096) <= (highest_addr mmap) / 4096); [|lia].
  transitivity ((mm_base e + mm_length e) / 4096); [|apply Z.div_le_mono; lia].
  pose proof (Z.div_mod (mm_base e) 4096 ltac:(lia)) as Eb.
  pose proof (Z.div_mod (mm_length e) 4096 ltac:(lia)) as El. rewrite Hb in Eb. rewrite Hl in El.
  replace (mm_base e + mm_length e) with ((mm_base e / 4096 + mm_length e / 4096) * 4096) by lia.
  rewrite Z.div_mul by lia. apply Z.lt_succ_r. apply Z.div_lt_upper_bound; lia.
Qed.

Lemma pmm_init_cases mmap p : mmap_ok mmap -> pmm_init mmap = Some p ->
  pmm_inv p /\ total_frames p = highest_addr mmap / PAGE_SIZE /\
  free_set p = ⋃ (region_frames <$> mmap) ∖ bitmap_frames mmap ∖ {[0]}.
Proof.
  intros Hok Hp. pose proof Hok as [Hr Ha Hd].
  destruct (highest_addr_ge mmap Hr) as [Hh0 Hh].
  assert (Htot : 0 <= highest_addr mmap / PAGE_SIZE <= 2 ^ 52).
  { split; [apply Z.div_pos; unfold PAGE_SIZE; lia|].
    apply Z.div_le_upper_bound; unfold PAGE_SIZE; lia. }
  unfold pmm_init in Hp. rewrite u64_id in Hp by lia.
  set (total := highest_addr mmap / PAGE_SIZE) in *. set (size := (total + 7) / 8) in *.
  destruct (Z.eqb_spec (find_bitmap_region size mmap) 0) as [|Hbp]; [done|].
  apply (inj Some) in Hp.
  destruct (initial_inv total Htot) as [Hi0 Hs0]. rewrite u64_id in Hi0, Hs0 by lia. fold size in Hi0, Hs0.
  set (p0 := Pmm _ _ _ _) in *.
  destruct (free_regions_inv mmap p0 Hi0) as (Hi1 & Ht1 & Hs1).
  { intros e He. destruct (region_bounds mmap e Hok He). split_and!; [done..|]. rewrite Hs0. set_solver. }
  { done. }
  set (p1 := foldl free_region p0 mmap) in *.
  assert (Hsz : 0 <= size <= highest_addr mmap).
  { split; [apply Z.div_pos; lia|]. apply Z.div_le_upper_bound; [lia|].
    assert (total <= highest_addr mmap); [|destruct (decide (highest_addr mmap = 0)); [|lia]].
    - apply Z.div_le_upper_bound; unfold PAGE_SIZE; lia.
    - subst total. rewrite e in *. destruct (find_bitmap_region_spec _ _ Hbp) as (x & Hx & _ & ? & Heq).
      specialize (Hh x Hx). destruct (Hr x Hx) as (? & ? & _). lia. }
  assert (Hbf : list_to_set (range (find_bitmap_region size mmap / PAGE_SIZE)
     (u64 (u64 (find_bitmap_region size mmap + size + PAGE_SIZE) - 1) / PAGE_SIZE))
     =@{gset Z} bitmap_frames mmap).
  { unfold bitmap_frames. fold total. fold size. rewrite div_round_up; [done|..].
    all: destruct (find_bitmap_region_spec _ _ Hbp) as (x & Hx & _ & ? & Heq);
      specialize (Hh x Hx); destruct (Hr x Hx) as (? & ? & ?); lia. }
  destruct (reserve_frames_inv (range (find_bitmap_region size mmap / PAGE_SIZE)
     (u64 (u64 (find_bitmap_region size mmap + size + PAGE_SIZE) - 1) / PAGE_SIZE)) p1 Hi1)
    as (Hi2 & Ht2 & Hs2).
  { intros f Hf. rewrite Ht1. apply (bitmap_frames_bounds mmap f Hok Hbp).
    rewrite <- Hbf. by apply elem_of_list_to_set. }
  set (p2 := foldl reserve_frame p1 _) in *.
  rewrite Hbf, Hs1, Hs0 in Hs2. change (total_frames p0) with total in Ht1.
  destruct (Z.ltb_spec 0 total) as [Hpos|Hzero].
  - destruct (reserve_frame_inv p2 0 Hi2 ltac:(lia)) as (Hi3 & Ht3 & Hs3). subst p.
    split_and!; [done|lia|]. rewrite Hs3, Hs2. clear. set_solver.
  - subst p. split_and!; [done|lia|].
    assert (Hemp : forall f, f ∉ free_set p2) by (intros f; rewrite elem_of_free_set; lia).
    rewrite Hs2 in Hemp |- *. clear -Hemp. set_solver.
Qed.

(** ** Clients: the frames a run hands out

  [pmm_run p live]: [p] is reached from an initialised allocator by calls of
  the module, [live] being the addresses handed out and not yet freed. *)
Inductive pmm_run (mmap : list boot_mmap_entry_t) : pmm -> list Z -> Prop :=
  | run_init p : pmm_init mmap = Some p -> pmm_run mmap p []
  | run_alloc p live a p' :
      pmm_run mmap p live -> pmm_alloc_frame p = (a, p') -> a <> 0 -> pmm_run mmap p' (a :: live)
  | run_oom p live p' :
      pmm_run mmap p live -> pmm_alloc_frame p = (0, p') -> pmm_run mmap p' live
  | run_free p l1 a l2 :
      pmm_run mmap p (l1 ++ a :: l2) -> pmm_run mmap (pmm_free_frame p a) (l1 ++ l2).

Definition owns_frame (p : pmm) (a : Z) : Prop :=
  exists f, a = f * PAGE_SIZE /\ 0 < f < total_frames p /\ f ∉ free_set p.

Lemma owns_frame_mono p p' a : total_frames p' = total_frames p -> free_set p' ⊆ free_set p ->
  owns_frame p a -> owns_frame p' a.
Proof. intros Ht Hs (f & ? & ? & ?). exists f. rewrite Ht. split_and!; [done|lia..|]. set_solver. Qed.

Lemma alloc_frame_owns p a p' : pmm_inv p -> pmm_alloc_frame p = (a, p') -> a <> 0 ->
  owns_frame p' a /\ total_frames p' = total_frames p /\ free_set p' ⊆ free_set p /\
  a / PAGE_SIZE ∈ free_set p.
Proof.
  intros Hi Ha Hn. pose proof (inv_wf p Hi) as Hw.
  pose proof (alloc_frame_cases p Hw) as Hc. rewrite Ha in Hc.
  destruct Hc as [(f & [Hf _] & Hr & -> & ->)|(_ & -> & _)]; [|done].
  rewrite free_set_take_frame by done. unfold PAGE_SIZE in *. rewrite Z.div_mul by lia.
  split_and!; [|done|set_solver|done]. exists f. split_and!; [done|lia|simpl; lia|].
  rewrite free_set_take_frame by done. set_solver.
Qed.

Lemma pmm_run_inv mmap p live : mmap_ok mmap -> pmm_run mmap p live ->
  pmm_inv p /\ 0 ∉ free_set p /\ NoDup live /\ forall a, a ∈ live -> owns_frame p a.
Proof.
  intros Hok. induction 1 as [p Hp|p live a p' _ (Hi & H0 & Hnd & Hl) Ha Hn
                             |p live p' _ (Hi & H0 & Hnd & Hl) Ha|p l1 a l2 _ (Hi & H0 & Hnd & Hl)].
  - destruct (pmm_init_cases mmap p Hok Hp) as (Hi & _ & Hs).
    split_and!; [done|rewrite Hs; clear; set_solver|constructor|]. intros a Ha. by apply elem_of_nil in Ha.
  - destruct (alloc_frame_owns p a p' Hi Ha Hn) as (Ho & Ht & Hs & Hf).
    pose proof (alloc_frame_inv p Hi) as Hi'. rewrite Ha in Hi'.
    split_and!; [done|clear -Hs H0; set_solver| |].
    + constructor; [|done]. intros Hin. destruct (Hl a Hin) as (f & -> & ? & ?).
      unfold PAGE_SIZE in Hf. rewrite Z.div_mul in Hf by lia. done.
    + intros b [->|Hb]%elem_of_cons; [done|]. by eapply owns_frame_mono, Hl.
  - pose proof (alloc_frame_cases p (inv_wf p Hi)) as Hc. rewrite Ha in Hc.
    destruct Hc as [(f & [Hf _] & Hr & Hz & ->)|(_ & _ & ->)]; [|done].
    exfalso. assert (f = 0) as -> by (unfold PAGE_SIZE in Hz; lia). done.
  - destruct (Hl a ltac:(clear; set_solver)) as (f & -> & Hf & Hnf).
    assert (Hdiv : f * PAGE_SIZE / PAGE_SIZE = f) by (unfold PAGE_SIZE; by rewrite Z.div_mul by lia).
    pose proof (free_frame_set p (f * PAGE_SIZE) (inv_wf p Hi) ltac:(unfold PAGE_SIZE; lia)) as Hs.
    rewrite Hdiv, decide_True in Hs by lia.
    assert (Ht : total_frames (pmm_free_frame p (f * PAGE_SIZE)) = total_frames p).
    { destruct (free_frame_cases p (f * PAGE_SIZE) (inv_wf p Hi) ltac:(unfold PAGE_SIZE; lia))
        as [[_ ->]|(_ & _ & ->)]; done. }
    apply NoDup_app in Hnd as (Hn1 & Hn12 & [Hna Hn2]%NoDup_cons).
    split_and!; [apply free_frame_inv; [done|unfold PAGE_SIZE; lia]| | |].
    + rewrite Hs. assert (f <> 0) by lia. clear -H H0. set_solver.
    + apply NoDup_app. split_and!; [done| |done]. intros x Hx Hx2. apply (Hn12 x Hx). by apply elem_of_cons; right.
    + intros b Hb. assert (Hb' : b ∈ l1 ++ f * PAGE_SIZE :: l2).
      { apply elem_of_app in Hb as [?|?]; apply elem_of_app; [by left|right; by apply elem_of_cons; right]. }
      assert (b <> f * PAGE_SIZE).
      { intros ->. apply elem_of_app in Hb as [Hb|Hb]; [|done]. apply (Hn12 _ Hb). by apply elem_of_cons; left. }
      destruct (Hl b Hb') as (g & -> & Hg & Hng). exists g. rewrite Ht, Hs.
      split_and!; [done|lia..|]. assert (g <> f) by congruence. clear -H0 Hng H1. set_solver.
Qed.

(** *** The frames the boot map offers, in the map's own terms

  The bitmap has a bit for every whole frame below the highest end of an entry,
  and lies at the start of the first usable entry that is long enough. *)
Definition bitmap_bytes (mmap : list boot_mmap_entry_t) (n : Z) : Prop :=
  0 <= n /\ (forall e, e ∈ mmap -> (mm_base e + mm_length e) / 4096 <= 8 * n) /\
  (n = 0 \/ exists e, e ∈ mmap /\ 8 * (n - 1) < (mm_base e + mm_length e) / 4096).

Definition bitmap_home (mmap : list boot_mmap_entry_t) (n : Z) (home : boot_mmap_entry_t) : Prop :=
  exists before after, mmap = before ++ home :: after /\ mm_type home = BOOT_MEM_USABLE /\ n <= mm_length home /\
    forall e, e ∈ before -> mm_type e = BOOT_MEM_USABLE -> mm_length e < n.

(** A frame other than frame 0 that lies within a usable entry and shares no byte
  with the bitmap. *)
Definition offered (mmap : list boot_mmap_entry_t) (f : Z) : Prop :=
  0 < f /\
  (exists e, e ∈ mmap /\ mm_type e = BOOT_MEM_USABLE /\ mm_base e <= f * 4096 /\ f * 4096 + 4096 <= mm_base e + mm_length e) /\
  (forall n home, bitmap_bytes mmap n -> bitmap_home mmap n home ->
     f * 4096 + 4096 <= mm_base home \/ mm_base home + n <= f * 4096).

Lemma bitmap_home_found mmap n home : bitmap_home mmap n home -> find_bitmap_region n mmap = mm_base home.
Proof.
  intros (l1 & l2 & -> & Hu & Hn & Hb). induction l1 as [|e l1 IH]; cbn [app find_bitmap_region].
  - rewrite (bool_decide_eq_false_2 (mm_type home <> _)) by tauto. by rewrite (proj2 (Z.leb_le _ _)).
  - case_bool_decide as Hd; [apply IH; set_solver|]. destruct (decide (mm_type e = BOOT_MEM_USABLE)) as [He|]; [|tauto].
    pose proof (Hb e ltac:(set_solver) He). rewrite (proj2 (Z.leb_gt _ _)) by lia. apply IH. set_solver.
Qed.

Lemma bitmap_home_exists n mmap : find_bitmap_region n mmap <> 0 -> exists home, bitmap_home mmap n home.
Proof.
  induction mmap as [|e mmap IH]; cbn [find_bitmap_region]; [done|].
  assert (Hstep : (mm_type e = BOOT_MEM_USABLE -> mm_length e < n) -> (exists home, bitmap_home mmap n home) ->
    exists home, bitmap_home (e :: mmap) n home).
  { intros He (home & l1 & l2 & -> & ? & ? & Hb). exists home, (e :: l1), l2. split_and!; [done|done|done|].
    intros x [->|Hx]%elem_of_cons; auto. }
  case_bool_decide as Hd; [intros H; apply Hstep; [tauto|auto]|].
  destruct (Z.leb_spec n (mm_length e)); intros H'; [|by apply Hstep; auto].
  destruct (decide (mm_type e = BOOT_MEM_USABLE)); [|tauto]. exists e, [], mmap. split_and!; [done|done|done|set_solver].
Qed.

Lemma highest_addr_attained mmap : highest_addr mmap = 0 \/
  exists e, e ∈ mmap /\ highest_addr mmap = u64 (mm_base e + mm_length e).
Proof.
  unfold highest_addr. generalize 0 as hi. induction mmap as [|e mmap IH]; intros hi; cbn [foldl]; [by left|].
  destruct (IH (higher hi e)) as [E|(x & Hx & E)]; [|right; exists x; split; [set_solver|done]].
  rewrite E. unfold higher. destruct (hi <? _); [right; exists e; split; [set_solver|done]|by left].
Qed.

Lemma bitmap_bytes_iff mmap n : mmap_ok mmap ->
  bitmap_bytes mmap n <-> n = (highest_addr mmap / PAGE_SIZE + 7) / 8.
Proof.
  intros [Hr _ _]. destruct (highest_addr_ge mmap Hr) as [Hh Hle]. unfold PAGE_SIZE, bitmap_bytes.
  assert (Hpos : 0 <= highest_addr mmap / 4096) by (apply Z.div_pos; lia).
  assert (Hall : forall e, e ∈ mmap -> (mm_base e + mm_length e) / 4096 <= highest_addr mmap / 4096).
  { intros e He. apply Z.div_le_mono; [lia|by apply Hle]. }
  assert (Hat : highest_addr mmap / 4096 = 0 \/ exists e, e ∈ mmap /\ (mm_base e + mm_length e) / 4096 = highest_addr mmap / 4096).
  { destruct (highest_addr_attained mmap) as [->|(e & He & ->)]; [by left|right]. exists e. split; [done|].
    by rewrite u64_id by (destruct (Hr e He); lia). }
  split.
  - intros (Hn & Hup & Hlow).
    assert (H1 : highest_addr mmap / 4096 <= 8 * n) by (destruct Hat as [->|(e & He & <-)]; [lia|by apply Hup]).
    assert (H2 : n = 0 \/ 8 * (n - 1) < highest_addr mmap / 4096).
    { destruct Hlow as [->|(e & He & Hlt)]; [by left|right]. specialize (Hall e He). lia. }
    Z.div_mod_to_equations. lia.
  - intros ->. split_and!; [Z.div_mod_to_equations; lia| |].
    + intros e He. specialize (Hall e He). set (t := highest_addr mmap / 4096) in *. clearbody t. Z.div_mod_to_equations. lia.
    + destruct Hat as [->|(e & He & Heq)]; [by left|right]. exists e. split; [done|]. rewrite Heq.
      set (t := highest_addr mmap / 4096) in *. clearbody t. Z.div_mod_to_equations. lia.
Qed.

Lemma offered_iff mmap p f : mmap_ok mmap -> pmm_init mmap = Some p -> f ∈ free_set p <-> offered mmap f.
Proof.
  intros Hok Hp. destruct (pmm_init_cases mmap p Hok Hp) as (_ & _ & ->). unfold offered.
  rewrite !elem_of_difference, elem_of_union_list, elem_of_singleton.
  set (n := (highest_addr mmap / PAGE_SIZE + 7) / 8).
  assert (Hf : find_bitmap_region n mmap <> 0).
  { intros Hz. unfold pmm_init in Hp. rewrite u64_id in Hp by
      (destruct (highest_addr_ge mmap (mmap_range _ Hok)); unfold PAGE_SIZE; Z.div_mod_to_equations; lia).
    fold n in Hp. by rewrite Hz in Hp. }
  destruct (bitmap_home_exists n mmap Hf) as (home & Hhome). pose proof (bitmap_home_found _ _ _ Hhome) as Hb.
  assert (Hin : home ∈ mmap /\ mm_type home = BOOT_MEM_USABLE).
  { destruct Hhome as (l1 & l2 & -> & Hu & _). split; [set_solver|done]. }
  destruct Hin as [Hin Hu]. pose proof (proj1 (mmap_aligned _ Hok home Hin Hu)) as Hal.
  assert (Hn : bitmap_bytes mmap n) by by apply bitmap_bytes_iff.
  assert (Hbm : f ∈ bitmap_frames mmap <-> ~ (f * 4096 + 4096 <= mm_base home \/ mm_base home + n <= f * 4096)).
  { unfold bitmap_frames. fold n. rewrite Hb, elem_of_list_to_set, elem_of_range. unfold PAGE_SIZE in *.
    clearbody n. Z.div_mod_to_equations. lia. }
  assert (Hreg : (exists X, X ∈ region_frames <$> mmap /\ f ∈ X) <-> exists e, e ∈ mmap /\ mm_type e = BOOT_MEM_USABLE /\
    mm_base e <= f * 4096 /\ f * 4096 + 4096 <= mm_base e + mm_length e).
  { transitivity (exists e, e ∈ mmap /\ f ∈ region_frames e).
    { split; [intros (X & (e & -> & He)%list_elem_of_fmap & Hx); eauto|].
      intros (e & He & Hx). exists (region_frames e). split; [|done]. apply list_elem_of_fmap. eauto. }
    apply exist_proper. intros e. unfold region_frames. case_bool_decide as He; [|set_solver].
    rewrite elem_of_list_to_set, elem_of_range. unfold region_start, region_end.
    split; intros [Hm Hx]; (destruct (mmap_range _ Hok e Hm) as (H1 & H2 & H3)); (split; [done|]).
    - rewrite div_round_up, u64_id in Hx by lia. unfold PAGE_SIZE in Hx. split; [done|]. Z.div_mod_to_equations. lia.
    - rewrite div_round_up, u64_id by lia. unfold PAGE_SIZE. destruct Hx as (_ & Hx). Z.div_mod_to_equations. lia. }
  rewrite Hreg, Hbm. split.
  - intros [[(e & He & Hx) Hnb] H0]. split_and!; [|by exists e|].
    + destruct (mmap_range _ Hok e He). destruct Hx as (_ & ? & ?). lia.
    + intros n' home' ->%(bitmap_bytes_iff _ _ Hok) Hh'. pose proof (bitmap_home_found _ _ _ Hh') as Hb'.
      fold n in Hb' |- *. rewrite <- Hb', Hb. destruct (decide (f * 4096 + 4096 <= mm_base home)); [by left|right].
      destruct (decide (mm_base home + n <= f * 4096)); [done|]. exfalso. apply Hnb. lia.
  - intros (H0 & He & Hall). specialize (Hall n home Hn Hhome). split; [split; [done|lia]|lia].
Qed.

(** Allocating and releasing only move frames between the free and the handed out. *)
Lemma pmm_run_conserves mmap p live : mmap_ok mmap -> pmm_run mmap p live ->
  forall f, offered mmap f <-> f ∈ free_set p \/ f * 4096 ∈ live.
Proof.
  intros Hok Hrun. induction Hrun as [p Hp|p live a p' Hrun IH Ha Hn|p live p' Hrun IH Ha|p l1 a l2 Hrun IH]; intros f.
  - rewrite <- (offered_iff mmap p f Hok Hp). set_solver.
  - rewrite IH. destruct (pmm_run_inv mmap p live Hok Hrun) as (Hi & _). pose proof (inv_wf p Hi) as Hw.
    pose proof (alloc_frame_cases p Hw) as Hc. rewrite Ha in Hc. destruct Hc as [(g & [Hg _] & Hgr & -> & ->)|(_ & -> & _)]; [|done].
    rewrite free_set_take_frame by done. unfold PAGE_SIZE. rewrite elem_of_cons.
    destruct (decide (f = g)) as [->|]; [split; auto|]. assert (f * 4096 <> g * 4096) by lia. clear IH. set_solver.
  - rewrite IH. destruct (pmm_run_inv mmap p live Hok Hrun) as (Hi & H0 & _).
    pose proof (alloc_frame_cases p (inv_wf p Hi)) as Hc. rewrite Ha in Hc.
    destruct Hc as [(g & [Hg _] & _ & Hz & _)|(_ & _ & ->)]; [|done].
    assert (g = 0) as -> by (unfold PAGE_SIZE in Hz; lia). done.
  - rewrite IH. destruct (pmm_run_inv mmap p _ Hok Hrun) as (Hi & _ & Hnd & Hl).
    destruct (Hl a ltac:(clear; set_solver)) as (g & -> & Hg & Hng).
    rewrite free_frame_set by (apply Hi || (unfold PAGE_SIZE; lia)). unfold PAGE_SIZE in *. rewrite Z.div_mul, decide_True by lia.
    assert (f * 4096 = g * 4096 <-> f = g) by lia. set_solver.
Qed.

(** ** Properties *)

(** Boolean form of the invariant, for concrete states. *)
Definition pmm_invb (p : pmm) : bool :=
  (0 <=? total_frames p) && (total_frames p <=? 2 ^ 52) &&
  (bitmap_size p =? (total_frames p + 7) / 8) &&
  (Z.of_nat (length (bitmap p)) =? bitmap_size p) &&
  forallb (fun b => (0 <=? b) && (b <? 256)) (bitmap p) &&
  (free_frames p =? Z.of_nat (size (free_set p))).

Lemma pmm_invb_ok p : pmm_invb p = true -> pmm_inv p.
Proof.
  unfold pmm_invb. intros. bool_to_prop. split; [|done]. split; [lia|done|done|].
  apply Forall_forall. intros b Hb.
  match goal with H : forallb _ _ = true |- _ => rewrite forallb_forall in H;
    specialize (H b ltac:(by apply list_elem_of_In)) end. bool_to_prop. lia.
Qed.

(** [pmm_alloc_frame] is the optimised search for the lowest free frame:
  it returns 0 and changes nothing exactly when no frame is free, otherwise it
  returns the address of the lowest free frame, marks exactly that frame used,
  decrements the counter and keeps the module invariant. *)
Theorem pmm_alloc_frame_correct p : pmm_inv p ->
  let '(a, p') := pmm_alloc_frame p in
  (free_set p = ∅ /\ a = 0 /\ p' = p) \/
  (exists f, lowest_free p f /\ a = f * PAGE_SIZE /\ 0 <= a < total_frames p * PAGE_SIZE /\
     free_set p' = free_set p ∖ {[f]} /\ free_frames p' = free_frames p - 1 /\
     total_frames p' = total_frames p /\ pmm_inv p').
Proof.
  intros Hi. pose proof (inv_wf p Hi) as Hw. pose proof (alloc_frame_cases p Hw) as Hc.
  destruct (pmm_alloc_frame p) as [a p'].
  destruct Hc as [(f & Hf & Hr & -> & ->)|(? & -> & ->)]; [right|by left].
  pose proof (take_frame_inv p f Hi (proj1 Hf)) as Hi'.
  exists f. split_and!; [done|done|unfold PAGE_SIZE; lia..|by apply free_set_take_frame| |done|done].
  pose proof (inv_count p Hi) as Hc. pose proof (size_free_set_le p Hw).
  pose proof (wf_total p Hw). unfold take_frame. cbn [free_frames set_free_frames].
  assert (size (free_set p) <> 0%nat).
  { intros Hz%size_empty_inv. destruct Hf as [Hf _]. clear -Hz Hf. set_solver. }
  apply u64_id. lia.
Qed.

Definition demo_pmm : pmm := Pmm [255; 239; 7] 3 18 1.

Lemma pmm_alloc_frame_correct_witness :
  pmm_inv demo_pmm /\ pmm_alloc_frame demo_pmm = (12 * 4096, Pmm [255; 255; 7] 3 18 0) /\
  exists f, lowest_free demo_pmm f.
Proof.
  assert (Hi : pmm_inv demo_pmm) by (apply pmm_invb_ok; vm_compute; reflexivity).
  split; [exact Hi|]. split; [vm_compute; reflexivity|].
  pose proof (pmm_alloc_frame_correct demo_pmm Hi) as H.
  destruct (pmm_alloc_frame demo_pmm) as [a p'] eqn:E.
  destruct H as [(_ & H0 & _)|(f & Hf & _)]; [|exists f; exact Hf].
  exfalso. vm_compute in E. inversion E; subst. discriminate.
Defined.

(** [pmm_free_frame] makes exactly the frame of the address free when it
  lies in the managed range (a double free changes nothing), keeps the counter
  equal to the number of free frames, and ignores addresses out of range. *)
Theorem pmm_free_frame_correct p a : pmm_inv p -> 0 <= a ->
  pmm_inv (pmm_free_frame p a) /\
  free_set (pmm_free_frame p a) =
    (if decide (a / PAGE_SIZE < total_frames p)
     then {[a / PAGE_SIZE]} ∪ free_set p else free_set p) /\
  (a / PAGE_SIZE ∈ free_set p \/ total_frames p <= a / PAGE_SIZE -> pmm_free_frame p a = p).
Proof.
  intros Hi Ha. pose proof (inv_wf p Hi) as Hw.
  split_and!; [by apply free_frame_inv|by apply free_frame_set|].
  intros Hc. destruct (free_frame_cases p a Hw Ha) as [[_ ?]|(? & ? & _)]; [done|].
  destruct Hc; [done|lia].
Qed.

Lemma pmm_free_frame_correct_witness :
  pmm_free_frame demo_pmm (3 * 4096 + 5) = Pmm [247; 239; 7] 3 18 2 /\
  pmm_inv (pmm_free_frame demo_pmm (3 * 4096 + 5)).
Proof.
  split; [vm_compute; reflexivity|].
  apply (pmm_free_frame_correct demo_pmm); [apply pmm_invb_ok; vm_compute; reflexivity|lia].
Defined.

(** on a boot map whose usable entries are page-aligned and disjoint,
  [pmm_init] establishes the invariant, with exactly the usable frames free
  except those of the bitmap and frame 0. *)
Theorem pmm_init_correct mmap p : mmap_ok mmap -> pmm_init mmap = Some p ->
  pmm_inv p /\ total_frames p = highest_addr mmap / PAGE_SIZE /\
  free_set p = ⋃ (region_frames <$> mmap) ∖ bitmap_frames mmap ∖ {[0]}.
Proof. apply pmm_init_cases. Qed.

Definition demo_mmap : list boot_mmap_entry_t :=
  [MmapEntry 0 4096 BOOT_MEM_RESERVED; MmapEntry 4096 12288 BOOT_MEM_USABLE;
   MmapEntry 16384 5000 BOOT_MEM_BAD; MmapEntry 24576 16384 BOOT_MEM_USABLE].

Lemma demo_mmap_ok : mmap_ok demo_mmap.
Proof.
  split.
  - intros e He. repeat (apply elem_of_cons in He as [->|He]; [simpl; lia|]). by apply elem_of_nil in He.
  - intros e He Hu. repeat (apply elem_of_cons in He as [->|He]; [try done; vm_compute; done|]).
    by apply elem_of_nil in He.
  - intros i j e1 e2 Hi Hj Hne.
    assert (i < 4)%nat by (apply lookup_lt_Some in Hi; done).
    assert (j < 4)%nat by (apply lookup_lt_Some in Hj; done).
    destruct i as [|[|[|[|i]]]]; [..|lia]; destruct j as [|[|[|[|j]]]]; try lia;
      simpl in Hi, Hj; inversion Hi; inversion Hj; subst;
      apply (bool_decide_unpack _); vm_compute; exact I.
Qed.

Lemma pmm_init_correct_witness :
  exists p, pmm_init demo_mmap = Some p /\ pmm_inv p /\ free_frames p = 6.
Proof.
  destruct (pmm_init demo_mmap) as [p|] eqn:E; [|vm_compute in E; discriminate].
  exists p. split; [reflexivity|]. split; [apply (pmm_init_correct demo_mmap p demo_mmap_ok E)|].
  vm_compute in E. inversion E. reflexivity.
Defined.

(** C33.  The allocator hands out usable memory and nothing else.  On a boot map
  whose usable entries are page-aligned and disjoint, at every point of every run
  of the allocator the frames that are free and the frames handed out and not
  given back make up exactly the frames the boot map offers: the whole frames of
  its usable entries that share no byte with the bitmap, but for frame 0.  The
  addresses handed out are pairwise distinct and page-aligned, their frames are
  not free, and the count of free frames is exact; no frame is lost, and a return
  value of 0 always means out of memory. *)
Theorem pmm_run_safe mmap p live : mmap_ok mmap -> pmm_run mmap p live ->
  (forall f, offered mmap f <-> f ∈ free_set p \/ f * 4096 ∈ live) /\
  NoDup live /\ (forall a, a ∈ live -> exists f, a = f * 4096 /\ 0 < f < total_frames p /\ f ∉ free_set p) /\
  pmm_inv p /\ 0 ∉ free_set p /\ free_frames p = Z.of_nat (size (free_set p)).
Proof.
  intros Hok Hr. destruct (pmm_run_inv mmap p live Hok Hr) as (Hi & H0 & Hnd & Hl).
  split_and!; [by apply pmm_run_conserves|done|exact Hl|done|done|by apply inv_count].
Qed.

Lemma pmm_run_safe_witness :
  exists p, pmm_run demo_mmap p [3 * 4096; 2 * 4096] /\ offered demo_mmap 3 /\ ~ offered demo_mmap 1 /\ free_frames p = 4.
Proof.
  destruct (pmm_init demo_mmap) as [p0|] eqn:E0; [|vm_compute in E0; discriminate].
  destruct (pmm_alloc_frame p0) as [a1 p1] eqn:E1. destruct (pmm_alloc_frame p1) as [a2 p2] eqn:E2.
  pose proof E0 as F0. vm_compute in F0. injection F0 as <-.
  pose proof E1 as F1. vm_compute in F1. injection F1 as <- <-.
  pose proof E2 as F2. vm_compute in F2. injection F2 as <- <-.
  assert (Hr : pmm_run demo_mmap (Pmm [63; 252] 2 10 4) [3 * 4096; 2 * 4096]).
  { apply (run_alloc _ _ _ _ _ (run_alloc _ _ _ _ _ (run_init _ _ E0) E1 ltac:(discriminate)) E2).
    discriminate. }
  exists (Pmm [63; 252] 2 10 4). split; [exact Hr|].
  destruct (pmm_run_safe demo_mmap _ _ demo_mmap_ok Hr) as (Hall & _).
  split; [apply Hall; right; apply list_elem_of_here|]. split; [|reflexivity].
  intros Hoff. apply Hall in Hoff as [Hoff|Hoff]; revert Hoff; apply (bool_decide_unpack (_ ∉ _)); vm_compute; exact I.
Defined.
