(* ===== verification/PhysMem.v ===== *)
(** * Physical memory

  The kernel reaches every physical byte through the higher-half direct map:
  [phys_to_virt(a)] adds [g_boot.hhdm_offset] and the hardware subtracts it
  again, so a dereference of [phys_to_virt(a)] is an access to physical
  address [a].  Memory is a total function from physical addresses to bytes;
  a 64-bit access is eight consecutive bytes, little-endian, so page tables
  and page contents live in the same store and can overwrite each other. *)
From S2P Require Import Prelude.

Definition mem := Z -> Z.

(** ** Bytes *)
Definition mem_get (m : mem) (a : Z) : Z := m a mod 256.

(** [for (i = 0; i < len; i++) p[i] = bs[i]] with [p] at address [a]. *)
Definition mem_write (m : mem) (a : Z) (bs : list Z) : mem :=
  fun x => if (a <=? x) && (x <? a + Z.of_nat (length bs))
           then nth (Z.to_nat (x - a)) bs 0 else m x.

Definition mem_read (m : mem) (a : Z) (n : Z) : list Z :=
  (fun i => mem_get m (a + i)) <$> range 0 n.

(** ** Little-endian words *)
Fixpoint le_bytes (n : nat) (v : Z) : list Z :=
  match n with
  | O => []
  | S n => v mod 256 :: le_bytes n (v / 256)
  end.

Fixpoint le_val (l : list Z) : Z :=
  match l with
  | [] => 0
  | b :: l => b + 256 * le_val l
  end.

Definition rd64 (m : mem) (a : Z) : Z := le_val (mem_read m a 8).
Definition wr64 (m : mem) (a v : Z) : mem := mem_write m a (le_bytes 8 v).
Definition rd32 (m : mem) (a : Z) : Z := le_val (mem_read m a 4).
Definition wr32 (m : mem) (a v : Z) : mem := mem_write m a (le_bytes 4 v).

(** A zeroed 4 KiB frame. *)
Definition zero_page : list Z := replicate 4096 0.
Definition zero_frame (m : mem) (a : Z) : mem := mem_write m a zero_page.

Lemma length_le_bytes n v : length (le_bytes n v) = n.
Proof. revert v. induction n; intros; simpl; [done|]. by rewrite IHn. Qed.

Lemma le_val_bytes n v : le_val (le_bytes n v) = v mod 2 ^ (8 * Z.of_nat n).
Proof.
  revert v. induction n as [|n IH]; intros v; cbn [le_bytes le_val].
  { by rewrite Z.mod_1_r. }
  rewrite IH. replace (8 * Z.of_nat (S n)) with (8 + 8 * Z.of_nat n) by lia.
  rewrite Z.pow_add_r by lia. change (2 ^ 8) with 256.
  rewrite Z.rem_mul_r by lia. done.
Qed.

Lemma le_val_bound l : Forall (fun b => 0 <= b < 256) l ->
  0 <= le_val l < 2 ^ (8 * Z.of_nat (length l)).
Proof.
  induction 1 as [|b l Hb _ IH]; cbn [le_val length]; [simpl; lia|].
  replace (8 * Z.of_nat (S (length l))) with (8 + 8 * Z.of_nat (length l)) by lia.
  rewrite Z.pow_add_r by lia. change (2 ^ 8) with 256. nia.
Qed.

Lemma le_bytes_range n v : Forall (fun b => 0 <= b < 256) (le_bytes n v).
Proof.
  revert v. induction n as [|n IH]; intros v; cbn [le_bytes]; constructor; [|done].
  apply Z.mod_pos_bound. lia.
Qed.

Lemma le_bytes_zero n : le_bytes n 0 = replicate n 0.
Proof. induction n; cbn [le_bytes replicate]; [done|]. by rewrite Z.div_0_l, IHn. Qed.

Lemma le_val_zero n : le_val (replicate n 0) = 0.
Proof. induction n; cbn [le_val replicate]; [done|]. rewrite IHn. lia. Qed.

(** ** Reading what was written *)
Lemma length_mem_read m a n : length (mem_read m a n) = Z.to_nat n.
Proof. unfold mem_read. rewrite length_fmap. unfold range. rewrite length_seqZ. f_equal. lia. Qed.

Lemma lookup_mem_read m a n i : 0 <= i < n -> mem_read m a n !! Z.to_nat i = Some (mem_get m (a + i)).
Proof.
  intros. unfold mem_read, range. rewrite list_lookup_fmap, lookup_seqZ_lt by lia. simpl.
  do 2 f_equal. lia.
Qed.

Lemma mem_read_ext m m' a n :
  (forall x, a <= x < a + n -> mem_get m x = mem_get m' x) -> mem_read m a n = mem_read m' a n.
Proof.
  intros H. unfold mem_read. apply list_fmap_ext. intros k x Hx.
  apply list_elem_of_lookup_2, elem_of_range in Hx. apply H. lia.
Qed.

Lemma mem_get_range m a : 0 <= mem_get m a < 256.
Proof. apply Z.mod_pos_bound. lia. Qed.

Lemma mem_read_range m a n : Forall (fun b => 0 <= b < 256) (mem_read m a n).
Proof. apply Forall_fmap, Forall_true. intros. apply mem_get_range. Qed.

Lemma mem_get_write_out m a bs x :
  x < a \/ a + Z.of_nat (length bs) <= x -> mem_get (mem_write m a bs) x = mem_get m x.
Proof.
  intros H. unfold mem_get, mem_write. destruct (_ && _) eqn:E; [|done].
  apply andb_true_iff in E as [?%Z.leb_le ?%Z.ltb_lt]. lia.
Qed.

Lemma mem_get_write_in m a bs i :
  0 <= i < Z.of_nat (length bs) -> Forall (fun b => 0 <= b < 256) bs ->
  mem_get (mem_write m a bs) (a + i) = nth (Z.to_nat i) bs 0.
Proof.
  intros Hi Hb. unfold mem_get, mem_write.
  rewrite (proj2 (Z.leb_le a (a + i))), (proj2 (Z.ltb_lt (a + i) _)) by lia. simpl.
  replace (a + i - a) with i by lia. apply Z.mod_small.
  rewrite Forall_forall in Hb. apply Hb.
  destruct (lookup_lt_is_Some_2 bs (Z.to_nat i)) as [y Hy]; [lia|].
  rewrite (nth_lookup_Some _ _ _ _ Hy). by eapply list_elem_of_lookup_2.
Qed.

Lemma mem_read_write_eq m a bs :
  Forall (fun b => 0 <= b < 256) bs -> mem_read (mem_write m a bs) a (Z.of_nat (length bs)) = bs.
Proof.
  intros Hb. apply list_eq. intros i.
  destruct (decide (i < length bs)%nat) as [Hi|Hi].
  - rewrite <- (Nat2Z.id i) at 1. rewrite lookup_mem_read by lia.
    rewrite mem_get_write_in by (done || lia). rewrite Nat2Z.id.
    rewrite nth_lookup. destruct (lookup_lt_is_Some_2 bs i Hi) as [y ->]. done.
  - rewrite !lookup_ge_None_2; [done|lia|]. rewrite length_mem_read. lia.
Qed.

Lemma mem_read_write_out m a bs b n :
  b + n <= a \/ a + Z.of_nat (length bs) <= b -> mem_read (mem_write m a bs) b n = mem_read m b n.
Proof. intros H. apply mem_read_ext. intros x Hx. apply mem_get_write_out. lia. Qed.

Lemma rd64_range m a : 0 <= rd64 m a < 2 ^ 64.
Proof.
  unfold rd64. pose proof (le_val_bound _ (mem_read_range m a 8)) as H.
  rewrite length_mem_read in H. done.
Qed.

Lemma rd64_wr64_eq m a v : 0 <= v < 2 ^ 64 -> rd64 (wr64 m a v) a = v.
Proof.
  intros Hv. unfold rd64, wr64.
  replace 8 with (Z.of_nat (length (le_bytes 8 v))) at 1 by (by rewrite length_le_bytes).
  rewrite mem_read_write_eq, le_val_bytes by apply le_bytes_range. by apply Z.mod_small.
Qed.

Lemma rd64_write_out m a bs b :
  b + 8 <= a \/ a + Z.of_nat (length bs) <= b -> rd64 (mem_write m a bs) b = rd64 m b.
Proof. intros. unfold rd64. by rewrite mem_read_write_out. Qed.

Lemma rd64_wr64_ne m a v b : b + 8 <= a \/ a + 8 <= b -> rd64 (wr64 m a v) b = rd64 m b.
Proof. intros. unfold wr64. apply rd64_write_out. rewrite length_le_bytes. lia. Qed.

Lemma length_zero_page : Z.of_nat (length zero_page) = 4096.
Proof. unfold zero_page. by rewrite length_replicate. Qed.

#[global] Opaque zero_page.

Lemma mem_get_zero_frame m a x : a <= x < a + 4096 -> mem_get (zero_frame m a) x = 0.
Proof.
  intros. unfold zero_frame, mem_get, mem_write. rewrite length_zero_page.
  rewrite (proj2 (Z.leb_le a x)), (proj2 (Z.ltb_lt x _)) by lia. simpl.
  Transparent zero_page. unfold zero_page. Opaque zero_page.
  rewrite nth_lookup, lookup_replicate_2 by lia. done.
Qed.

Lemma rd64_zero_frame m a b : a <= b -> b + 8 <= a + 4096 -> rd64 (zero_frame m a) b = 0.
Proof.
  intros. unfold rd64. rewrite <- (le_val_zero 8). f_equal. apply list_eq. intros i.
  destruct (decide (i < 8)%nat) as [Hi|Hi].
  - rewrite lookup_replicate_2 by done. rewrite <- (Nat2Z.id i), lookup_mem_read by lia.
    by rewrite mem_get_zero_frame by lia.
  - rewrite !lookup_ge_None_2; [done|rewrite length_replicate; lia|rewrite length_mem_read; lia].
Qed.

(** ** Equality of memories is equality of all bytes *)
Definition mem_eq (m1 m2 : mem) : Prop := forall a, mem_get m1 a = mem_get m2 a.

#[export] Instance mem_eq_equiv : Equivalence mem_eq.
Proof.
  split.
  - intros m a. done.
  - intros m1 m2 H a. by rewrite H.
  - intros m1 m2 m3 H1 H2 a. by rewrite H1, H2.
Qed.

#[export] Instance mem_get_proper : Proper (mem_eq ==> eq ==> eq) mem_get.
Proof. intros m1 m2 H a ? <-. apply H. Qed.

#[export] Instance mem_read_proper : Proper (mem_eq ==> eq ==> eq ==> eq) mem_read.
Proof. intros m1 m2 H a ? <- n ? <-. apply mem_read_ext. intros. apply H. Qed.

#[export] Instance rd64_proper : Proper (mem_eq ==> eq ==> eq) rd64.
Proof. intros m1 m2 H a ? <-. unfold rd64. by rewrite H. Qed.

#[export] Instance mem_write_proper : Proper (mem_eq ==> eq ==> eq ==> mem_eq) mem_write.
Proof.
  intros m1 m2 H a ? <- bs ? <- x. specialize (H x). unfold mem_get, mem_write in *.
  by destruct (_ && _).
Qed.

Lemma mem_write_read_id m a n : mem_eq (mem_write m a (mem_read m a n)) m.
Proof.
  intros x. destruct (decide (a <= x < a + Z.of_nat (length (mem_read m a n)))) as [Hx|Hx].
  - replace x with (a + (x - a)) at 1 by lia.
    rewrite mem_get_write_in by (lia || apply mem_read_range).
    rewrite length_mem_read in Hx. rewrite nth_lookup, lookup_mem_read by lia. simpl. f_equal. lia.
  - apply mem_get_write_out. lia.
Qed.
