(* ===== verification/UserWorld.v ===== *)
(** * What a user program sees: its memory and three system calls

  A user program sees one flat byte memory.  [UserBytes] is a load and a store of
  one byte at a user address, [None] when the access faults.  [UserKernel] is the
  calls of [userland/include/void.h] that the C library makes: [sys_brk],
  [sys_mmap] and [sys_munmap], with the kernel's answer as a signed word.  The laws
  are what the library relies on; [flat] is a small process that has them. *)
From S2P Require Import Prelude.

Class UserBytes (K : Type) := {
  ubyte : K -> Z -> option Z;
  uput : K -> Z -> Z -> option K
}.

(** [rw k a]: the byte at [a] is mapped readable and writable.  [env]: nothing of
  the process but the contents of its memory differs. *)
Class UserBytesLaws (K : Type) `{UserBytes K} (rw : K -> Z -> Prop) (env : K -> K -> Prop) : Prop := {
  env_refl :: Reflexive env;
  env_trans :: Transitive env;
  env_rw : forall k k', env k k' -> forall x, rw k' x <-> rw k x;
  byte_range : forall k a b, ubyte k a = Some b -> 0 <= b < 256;
  rw_byte : forall k a, rw k a -> is_Some (ubyte k a);
  rw_put : forall k a v, rw k a -> 0 <= v < 256 -> exists k', uput k a v = Some k' /\ env k k' /\
    forall x, ubyte k' x = if x =? a then Some v else ubyte k x
}.

Class UserKernel (K : Type) := {
  k_brk : K -> Z -> Z * K;
  k_mmap : K -> Z -> Z -> Z -> Z -> Z -> Z -> Z * K;
  k_munmap : K -> Z -> Z -> Z * K
}.

(** The end of the user half. *)
Definition USER_TOP : Z := 2 ^ 47.

Section Laws.
Context {K : Type}.

(** What was readable and writable stays so, with its contents. *)
Definition keeps `{UserBytes K} (rw : K -> Z -> Prop) (k k' : K) : Prop :=
  forall x, rw k x -> rw k' x /\ ubyte k' x = ubyte k x.

(** [PROT_READ | PROT_WRITE], [MAP_PRIVATE | MAP_ANONYMOUS]. *)
Definition PROT_RW : Z := 3.
Definition MAP_ANON_PRIVATE : Z := 0x22.

(** [brk_now] is the break.  Moving it up by whole pages and an anonymous mapping
  make bytes usable that were not and keep the others.  [munmap] promises what is
  below the address only: the kernel releases everything from there up to the
  stack, whatever the length. *)
Class UserKernelLaws `{UserBytesLaws K rw env} `{UserKernel K}
    (kinv : K -> Prop) (brk_now : K -> Z) : Prop := {
  rw_user : forall k x, kinv k -> rw k x -> 0 < x < USER_TOP;
  put_fault : forall k x v, kinv k -> ~ 0 <= x < USER_TOP -> uput k x v = None;
  env_kinv : forall k k', env k k' -> kinv k -> kinv k';
  env_brk : forall k k', env k k' -> brk_now k' = brk_now k;
  brk_range : forall k, kinv k -> 0 < brk_now k <= USER_TOP /\ brk_now k mod 4096 = 0;
  brk_query : forall k, kinv k -> k_brk k 0 = (brk_now k, k);
  brk_move : forall k nb, kinv k -> brk_now k < nb < 2 ^ 63 -> nb mod 4096 = 0 ->
    let '(r, k') := k_brk k nb in
    kinv k' /\ keeps rw k k' /\
    (r = nb /\ brk_now k' = nb /\ (forall x, brk_now k <= x < nb -> rw k' x /\ ~ rw k x) \/
     r <> nb /\ brk_now k' = brk_now k);
  mmap_anon : forall k len, kinv k -> 0 <= len < 2 ^ 64 -> len mod 4096 = 0 ->
    let '(r, k') := k_mmap k 0 len PROT_RW MAP_ANON_PRIVATE (-1) 0 in
    kinv k' /\ keeps rw k k' /\ brk_now k' = brk_now k /\
    (- 2 ^ 63 <= r < 0 \/
     0 < len /\ brk_now k <= r /\ r mod 4096 = 0 /\ (forall x, r <= x < r + len -> rw k' x /\ ~ rw k x));
  munmap_below : forall k a len, kinv k -> brk_now k <= a < USER_TOP -> a mod 4096 = 0 -> 0 < len ->
    let '(r, k') := k_munmap k a len in
    kinv k' /\ brk_now k' = brk_now k /\
    forall x, x < a -> rw k x -> rw k' x /\ ubyte k' x = ubyte k x
}.

End Laws.

(** ** A small process

  A heap from [FLAT_BASE] to the break and a stack of anonymous mappings, the
  lowest one last; [munmap] drops the mappings from its address on, as the kernel
  does. *)
Record flat := Flat { f_brk : Z; f_low : Z; f_maps : list (Z * Z); f_bytes : gmap Z Z }.

Definition FLAT_BASE : Z := 0x400000.
Definition FLAT_HEAP_MAX : Z := 0x500000.
Definition FLAT_MAP_MIN : Z := 0x600000.
Definition FLAT_TOP : Z := 0x800000.

Definition flat_init : flat := Flat FLAT_BASE FLAT_TOP [] ∅.

Definition flat_mapped (k : flat) (x : Z) : bool :=
  ((FLAT_BASE <=? x) && (x <? f_brk k)) ||
  existsb (fun '(b, n) => (b <=? x) && (x <? b + n)) (f_maps k).

#[export] Instance flat_bytes : UserBytes flat := {|
  ubyte k a := if flat_mapped k a then Some (default 0 (f_bytes k !! a) mod 256) else None;
  uput k a v := if flat_mapped k a then Some (Flat (f_brk k) (f_low k) (f_maps k) (<[a := v]> (f_bytes k))) else None
|}.

#[export] Instance flat_kernel : UserKernel flat := {|
  k_brk k a :=
    if (a <? FLAT_BASE) then (f_brk k, k)
    else if FLAT_HEAP_MAX <? a then (- VE_NOMEM, k)
    else (a, Flat a (f_low k) (f_maps k) (f_bytes k));
  k_mmap k addr len prot flags fd off :=
    if (len <=? 0) || (f_low k - len <? FLAT_MAP_MIN) then (- VE_NOMEM, k)
    else (f_low k - len, Flat (f_brk k) (f_low k - len) ((f_low k - len, len) :: f_maps k) (f_bytes k));
  k_munmap k a len := (0, Flat (f_brk k) (f_low k) (filter (fun m => m.1 < a) (f_maps k)) (f_bytes k))
|}.

Definition flat_rw (k : flat) (x : Z) : Prop := flat_mapped k x = true.
Definition flat_env (k k' : flat) : Prop := f_brk k' = f_brk k /\ f_low k' = f_low k /\ f_maps k' = f_maps k.

Record flat_ok (k : flat) : Prop := {
  fo_brk : FLAT_BASE <= f_brk k <= FLAT_HEAP_MAX /\ f_brk k mod 4096 = 0;
  fo_low : FLAT_MAP_MIN <= f_low k <= FLAT_TOP /\ f_low k mod 4096 = 0;
  fo_maps : forall b n, (b, n) ∈ f_maps k -> f_low k <= b /\ 0 < n /\ b + n <= FLAT_TOP
}.

Lemma flat_mapped_env k k' x : flat_env k k' -> flat_mapped k' x = flat_mapped k x.
Proof. intros (H1 & _ & H3). unfold flat_mapped. by rewrite H1, H3. Qed.

#[export] Instance flat_bytes_laws : UserBytesLaws flat flat_rw flat_env.
Proof.
  split.
  - by intros k.
  - intros k1 k2 k3 (H1 & H2 & H3) (H4 & H5 & H6). split_and!; congruence.
  - intros k k' E x. unfold flat_rw. by rewrite (flat_mapped_env _ _ _ E).
  - intros k a b. cbn [ubyte flat_bytes]. destruct (flat_mapped k a); [|done]. intros [= <-].
    apply Z.mod_pos_bound. lia.
  - intros k a Ha. cbn [ubyte flat_bytes]. unfold flat_rw in Ha. rewrite Ha. by eexists.
  - intros k a v Ha Hv. cbn [ubyte uput flat_bytes]. unfold flat_rw in Ha. rewrite Ha. eexists. split; [done|].
    split; [done|]. intros x. rewrite (flat_mapped_env k _ x) by done. cbn [f_bytes].
    destruct (Z.eqb_spec x a) as [->|].
    + rewrite Ha, lookup_insert_eq. cbn [default]. f_equal. by apply Z.mod_small.
    + by rewrite lookup_insert_ne.
Qed.

Lemma flat_mapped_true k x : flat_mapped k x = true <->
  FLAT_BASE <= x < f_brk k \/ exists b n, (b, n) ∈ f_maps k /\ b <= x < b + n.
Proof.
  unfold flat_mapped. rewrite orb_true_iff, andb_true_iff, Z.leb_le, Z.ltb_lt, existsb_exists. split.
  - intros [?|([b n] & Hin & E)]; [by left|right]. bool_to_prop. exists b, n.
    split; [by apply list_elem_of_In|lia].
  - intros [?|(b & n & Hin & ?)]; [by left|right]. exists (b, n). split; [by apply list_elem_of_In|].
    rewrite andb_true_iff, Z.leb_le, Z.ltb_lt. lia.
Qed.

(** Mapping more keeps what was mapped, with its bytes. *)
Lemma flat_keeps k k' : f_bytes k' = f_bytes k -> (forall x, flat_rw k x -> flat_rw k' x) -> keeps flat_rw k k'.
Proof.
  intros Hb H x Hx. split; [by apply H|]. pose proof (H x Hx) as Hx'. unfold flat_rw in *.
  cbn [ubyte flat_bytes]. by rewrite Hx, Hx', Hb.
Qed.

#[export] Instance flat_kernel_laws : UserKernelLaws flat_ok f_brk.
Proof.
  assert (HC : FLAT_BASE = 4194304 /\ FLAT_HEAP_MAX = 5242880 /\ FLAT_MAP_MIN = 6291456 /\ FLAT_TOP = 8388608 /\
               USER_TOP = 140737488355328) by done.
  assert (Hr : forall k x, flat_ok k -> flat_rw k x -> 0 < x < USER_TOP).
  { intros k x [Hb Hl Hm] [?|(b & n & Hin & ?)]%flat_mapped_true; [lia|].
    specialize (Hm b n Hin). lia. }
  assert (Hn : forall k x, flat_rw k x <-> FLAT_BASE <= x < f_brk k \/ exists b n, (b, n) ∈ f_maps k /\ b <= x < b + n)
    by (intros; apply flat_mapped_true).
  split.
  - done.
  - intros k x v Hk Hx. cbn [uput flat_bytes]. destruct (flat_mapped k x) eqn:E; [|done].
    specialize (Hr k x Hk E). lia.
  - intros k k' (E1 & E2 & E3) [H1 H2 H3]. split; rewrite ?E1, ?E2, ?E3; done.
  - by intros k k' (? & _).
  - intros k [[H1 H1'] _ _]. split; [lia|done].
  - intros k _. done.
  - intros k nb [[Hb1 Hb2] Hl Hm] Hnb Hal. cbn [k_brk flat_kernel].
    rewrite (proj2 (Z.ltb_ge nb FLAT_BASE)) by lia.
    destruct (Z.ltb_spec FLAT_HEAP_MAX nb).
    + split_and!; [by split|by intros x Hx|]. right. split; [unfold VE_NOMEM; lia|done].
    + split_and!.
      * split; cbn [f_brk f_low f_maps]; [lia|done..].
      * apply flat_keeps; [done|]. intros x. rewrite !Hn. cbn [f_brk f_maps]. intros [?|?]; [left; lia|by right].
      * left. cbn [f_brk]. split_and!; [done..|]. intros x Hx. rewrite !Hn. cbn [f_brk f_maps]. split; [left; lia|].
        intros [?|(b & n & Hin & ?)]; [lia|]. specialize (Hm b n Hin). lia.
  - intros k len [Hb [Hl1 Hl2] Hm] Hlen Hal. cbn [k_mmap flat_kernel].
    destruct (Z.leb_spec len 0); cbn [orb];
      [|destruct (Z.ltb_spec (f_low k - len) FLAT_MAP_MIN)].
    1,2: split_and!; [by split|by intros x Hx|done|left; unfold VE_NOMEM; lia].
    split_and!.
    + split; cbn [f_brk f_low f_maps]; [done|split; [lia|]|].
      * rewrite Zminus_mod, Hl2, Hal. done.
      * intros b n [[= -> ->]|Hin]%elem_of_cons; [lia|]. specialize (Hm b n Hin). lia.
    + apply flat_keeps; [done|]. intros x. rewrite !Hn. cbn [f_brk f_maps].
      intros [?|(b & n & ? & ?)]; [by left|right]. exists b, n. split; [by right|done].
    + done.
    + right. split_and!; [lia|lia|by rewrite Zminus_mod, Hl2, Hal|]. intros x Hx.
      rewrite !Hn. cbn [f_brk f_maps]. split.
      * right. exists (f_low k - len), len. split; [by left|lia].
      * intros [?|(b & n & Hin & ?)]; [lia|]. specialize (Hm b n Hin). lia.
  - intros k a len [Hb Hl Hm] Ha Hal Hlen. cbn [k_munmap flat_kernel]. split_and!; [split; cbn [f_brk f_low f_maps]|done|].
    + done.
    + done.
    + intros b n [_ Hin]%list_elem_of_filter. by apply Hm.
    + intros x Hx Hrw.
      assert (Hrw' : flat_rw (Flat (f_brk k) (f_low k) (filter (fun m => m.1 < a) (f_maps k)) (f_bytes k)) x).
      { rewrite Hn in *. cbn [f_brk f_maps]. destruct Hrw as [?|(b & n & Hin & ?)]; [by left|right].
        exists b, n. split; [|done]. apply list_elem_of_filter. split; [cbn; lia|done]. }
      split; [done|]. unfold flat_rw in *. cbn [ubyte flat_bytes]. by rewrite Hrw, Hrw'.
Qed.

Lemma flat_init_ok : flat_ok flat_init.
Proof. split; [by vm_compute|by vm_compute|]. intros b n H. by apply not_elem_of_nil in H. Qed.
