(* ===== verification/LibcMem.v ===== *)
(** * The C library's memory and string primitives ([userland/libc/mem.c])

  Every function of [mem.c] is the byte loop of the source over the byte memory
  of [UserWorld]; [None] when an access faults.  The string functions, whose loops
  have no bound of their own, take fuel, and the lemmas say how much is enough. *)
From S2P Require Import Prelude UserWorld.

Section Bytes.
Context {K : Type} `{UB : UserBytes K}.

(** ** The functions of the source *)

(** [for (i = i; n more times; i++) d[i] = s[i]] *)
Fixpoint copy_up (n : nat) (k : K) (d s i : Z) : option K :=
  match n with
  | O => Some k
  | S n => b ← ubyte k (s + i); k ← uput k (d + i) b; copy_up n k d s (i + 1)
  end.

(** [while (n--) d[n] = s[n]] *)
Fixpoint copy_down (n : nat) (k : K) (d s : Z) : option K :=
  match n with
  | O => Some k
  | S n => b ← ubyte k (s + Z.of_nat n); k ← uput k (d + Z.of_nat n) b; copy_down n k d s
  end.

Definition memcpy (k : K) (dst src n : Z) : option (Z * K) :=
  k ← copy_up (Z.to_nat n) k dst src 0; Some (dst, k).

Definition memmove (k : K) (dst src n : Z) : option (Z * K) :=
  k ← (if dst <=? src then copy_up (Z.to_nat n) k dst src 0 else copy_down (Z.to_nat n) k dst src);
  Some (dst, k).

Fixpoint set_loop (n : nat) (k : K) (p i v : Z) : option K :=
  match n with
  | O => Some k
  | S n => k ← uput k (p + i) v; set_loop n k p (i + 1) v
  end.

Definition memset (k : K) (s c n : Z) : option (Z * K) :=
  k ← set_loop (Z.to_nat n) k s 0 (u8 c); Some (s, k).

Fixpoint cmp_loop (n : nat) (k : K) (x y i : Z) : option Z :=
  match n with
  | O => Some 0
  | S n =>
      a ← ubyte k (x + i); b ← ubyte k (y + i);
      if negb (a =? b) then Some (if a <? b then -1 else 1) else cmp_loop n k x y (i + 1)
  end.

Definition memcmp (k : K) (a b n : Z) : option Z := cmp_loop (Z.to_nat n) k a b 0.

Fixpoint strlen_loop (fuel : nat) (k : K) (s n : Z) : option Z :=
  match fuel with
  | O => None
  | S fuel => b ← ubyte k (s + n); if b =? 0 then Some n else strlen_loop fuel k s (n + 1)
  end.

Definition strlen (fuel : nat) (k : K) (s : Z) : option Z := strlen_loop fuel k s 0.

(** [do *d++ = *src; while ( *src++)] *)
Fixpoint strcpy_loop (fuel : nat) (k : K) (d src : Z) : option K :=
  match fuel with
  | O => None
  | S fuel =>
      b ← ubyte k src; k ← uput k d b;
      b ← ubyte k src; if b =? 0 then Some k else strcpy_loop fuel k (d + 1) (src + 1)
  end.

Definition strcpy (fuel : nat) (k : K) (dst src : Z) : option (Z * K) :=
  k ← strcpy_loop fuel k dst src; Some (dst, k).

(** The first loop of [strncpy] up to index [i], then the padding loop. *)
Fixpoint strncpy_loop (n : nat) (k : K) (dst src i : Z) : option K :=
  match n with
  | O => Some k
  | S n' =>
      b ← ubyte k (src + i);
      if negb (b =? 0) then k ← uput k (dst + i) b; strncpy_loop n' k dst src (i + 1)
      else set_loop n k dst i 0
  end.

Definition strncpy (k : K) (dst src n : Z) : option (Z * K) :=
  k ← strncpy_loop (Z.to_nat n) k dst src 0; Some (dst, k).

Fixpoint strcmp (fuel : nat) (k : K) (a b : Z) : option Z :=
  match fuel with
  | O => None
  | S fuel =>
      x ← ubyte k a;
      y ← ubyte k b;
      if negb (x =? 0) && (x =? y) then strcmp fuel k (a + 1) (b + 1)
      else Some (if x <? y then -1 else if y <? x then 1 else 0)
  end.

Fixpoint strncmp_loop (n : nat) (k : K) (a b i : Z) : option Z :=
  match n with
  | O => Some 0
  | S n =>
      x ← ubyte k (a + i); y ← ubyte k (b + i);
      if negb (x =? y) then Some (if x <? y then -1 else 1)
      else if x =? 0 then Some 0 else strncmp_loop n k a b (i + 1)
  end.

Definition strncmp (k : K) (a b n : Z) : option Z := strncmp_loop (Z.to_nat n) k a b 0.

(** ** What they compute *)
Context {rw : K -> Z -> Prop} {env : K -> K -> Prop} `{!UserBytesLaws K rw env}.

Definition rw_range (k : K) (a n : Z) : Prop := forall x, a <= x < a + n -> rw k x.
Definition readable (k : K) (a n : Z) : Prop := forall x, a <= x < a + n -> is_Some (ubyte k x).

(** The bytes of [f] are written over [[d, d + n)], nothing else changes. *)
Definition written (k : K) (d n : Z) (f : Z -> option Z) (k' : K) : Prop :=
  env k k' /\ forall x, ubyte k' x = if (d <=? x) && (x <? d + n) then f x else ubyte k x.

Lemma rw_readable k a n : rw_range k a n -> readable k a n.
Proof. intros H x Hx. by apply rw_byte, H. Qed.

Lemma rw_range_env k k' a n : env k k' -> rw_range k a n -> rw_range k' a n.
Proof. intros E H x Hx. apply (env_rw _ _ E). by apply H. Qed.

Lemma written_range k d n f k' a m : written k d n f k' -> rw_range k a m -> rw_range k' a m.
Proof. intros [E _]. by apply rw_range_env. Qed.

Lemma written_nil k d f : written k d 0 f k.
Proof.
  split; [done|]. intros x. destruct ((d <=? x) && (x <? d + 0)) eqn:E; [|done]. bool_to_prop. lia.
Qed.

Lemma written_out k d n f k' x : written k d n f k' -> x < d \/ d + n <= x -> ubyte k' x = ubyte k x.
Proof. intros [_ H] Hx. rewrite H. destruct (_ && _) eqn:E; [|done]. bool_to_prop. lia. Qed.

Lemma written_in k d n f k' x : written k d n f k' -> d <= x < d + n -> ubyte k' x = f x.
Proof. intros [_ H] Hx. rewrite H. by rewrite (proj2 (Z.leb_le _ _)), (proj2 (Z.ltb_lt _ _)) by lia. Qed.

Lemma written_put k a v k' : env k k' -> (forall x, ubyte k' x = if x =? a then Some v else ubyte k x) ->
  written k a 1 (fun _ => Some v) k'.
Proof.
  intros E H. split; [done|]. intros x. rewrite H.
  destruct (Z.eqb_spec x a); destruct (_ && _) eqn:C; bool_to_prop; try done.
  - destruct (Z.leb_spec a x), (Z.ltb_spec x (a + 1)); simpl in C; (done || lia).
  - lia.
Qed.

(** Two writes side by side are one. *)
Lemma written_app k1 k2 k3 d1 n1 d2 n2 f g d n : written k1 d1 n1 f k2 -> written k2 d2 n2 g k3 ->
  0 <= n1 -> 0 <= n2 -> n = n1 + n2 ->
  (d1 = d /\ d2 = d + n1 \/ d2 = d /\ d1 = d + n2) ->
  written k1 d n (fun x => if (d2 <=? x) && (x <? d2 + n2) then g x else f x) k3.
Proof.
  intros [E1 H1] [E2 H2] ?? -> Hd. split; [by etrans|]. intros x. rewrite H2.
  destruct ((d2 <=? x) && _) eqn:C2.
  - bool_to_prop. by rewrite (proj2 (Z.leb_le _ _)), (proj2 (Z.ltb_lt _ _)) by lia.
  - rewrite H1. destruct ((d1 <=? x) && _) eqn:C1.
    + bool_to_prop. by rewrite (proj2 (Z.leb_le _ _)), (proj2 (Z.ltb_lt _ _)) by lia.
    + destruct ((d <=? x) && _) eqn:C; [|done]. bool_to_prop.
      destruct (Z.leb_spec d1 x), (Z.ltb_spec x (d1 + n1)), (Z.leb_spec d2 x), (Z.ltb_spec x (d2 + n2));
        simpl in *; (done || lia).
Qed.

Lemma written_ext k d n f g k' : written k d n f k' -> (forall x, d <= x < d + n -> f x = g x) ->
  written k d n g k'.
Proof.
  intros [E H] Hfg. split; [done|]. intros x. rewrite H. destruct (_ && _) eqn:C; [|done].
  bool_to_prop. apply Hfg. lia.
Qed.

Lemma copy_up_spec d s n : forall k i, d <= s \/ s + i + Z.of_nat n <= d + i ->
  rw_range k (d + i) (Z.of_nat n) -> readable k (s + i) (Z.of_nat n) ->
  exists k', copy_up n k d s i = Some k' /\
    written k (d + i) (Z.of_nat n) (fun x => ubyte k (x - d + s)) k'.
Proof.
  induction n as [|n IH]; intros k i Hds Hw Hr; cbn [copy_up].
  { exists k. split; [done|apply written_nil]. }
  destruct (Hr (s + i) ltac:(lia)) as [b Hb]. rewrite Hb. cbn [mbind option_bind].
  destruct (rw_put k (d + i) b ltac:(apply Hw; lia) ltac:(by eapply byte_range)) as (k1 & -> & E1 & H1). cbn.
  pose proof (written_put _ _ _ _ E1 H1) as W1.
  destruct (IH k1 (i + 1)) as (k' & -> & W2).
  - lia.
  - apply (rw_range_env _ _ _ _ E1). intros x Hx. apply Hw. lia.
  - intros x Hx. rewrite H1. destruct (x =? d + i); [done|]. apply Hr. lia.
  - exists k'. split; [done|]. eapply written_ext.
    + eapply (written_app _ _ _ _ _ _ _ _ _ (d + i) (Z.of_nat (S n)) W1 W2); lia.
    + intros x Hx. cbn beta. destruct (_ && _) eqn:C.
      * bool_to_prop. rewrite H1. by rewrite (proj2 (Z.eqb_neq _ _)) by lia.
      * assert (x = d + i) as ->.
        { destruct (Z.leb_spec (d + (i + 1)) x), (Z.ltb_spec x (d + (i + 1) + Z.of_nat n)); simpl in C; (done || lia). }
        rewrite <- Hb. f_equal. lia.
Qed.

Lemma copy_down_spec d s n : forall k, s <= d ->
  rw_range k d (Z.of_nat n) -> readable k s (Z.of_nat n) ->
  exists k', copy_down n k d s = Some k' /\
    written k d (Z.of_nat n) (fun x => ubyte k (x - d + s)) k'.
Proof.
  induction n as [|n IH]; intros k Hds Hw Hr; cbn [copy_down].
  { exists k. split; [done|apply written_nil]. }
  destruct (Hr (s + Z.of_nat n) ltac:(lia)) as [b Hb]. rewrite Hb. cbn [mbind option_bind].
  destruct (rw_put k (d + Z.of_nat n) b ltac:(apply Hw; lia) ltac:(by eapply byte_range)) as (k1 & -> & E1 & H1). cbn.
  pose proof (written_put _ _ _ _ E1 H1) as W1.
  destruct (IH k1 Hds) as (k' & -> & W2).
  - apply (rw_range_env _ _ _ _ E1). intros x Hx. apply Hw. lia.
  - intros x Hx. rewrite H1. destruct (x =? _); [done|]. apply Hr. lia.
  - exists k'. split; [done|]. eapply written_ext.
    + eapply (written_app _ _ _ _ _ _ _ _ _ d (Z.of_nat (S n)) W1 W2); lia.
    + intros x Hx. cbn beta. destruct (_ && _) eqn:C.
      * bool_to_prop. rewrite H1. by rewrite (proj2 (Z.eqb_neq _ _)) by lia.
      * assert (x = d + Z.of_nat n) as ->.
        { destruct (Z.leb_spec d x), (Z.ltb_spec x (d + Z.of_nat n)); simpl in C; (done || lia). }
        rewrite <- Hb. f_equal. lia.
Qed.

Lemma set_loop_spec p v n : 0 <= v < 256 -> forall k i, rw_range k (p + i) (Z.of_nat n) ->
  exists k', set_loop n k p i v = Some k' /\ written k (p + i) (Z.of_nat n) (fun _ => Some v) k'.
Proof.
  intros Hv. induction n as [|n IH]; intros k i Hw; cbn [set_loop].
  { exists k. split; [done|apply written_nil]. }
  destruct (rw_put k (p + i) v ltac:(apply Hw; lia) Hv) as (k1 & -> & E1 & H1). cbn.
  pose proof (written_put _ _ _ _ E1 H1) as W1.
  destruct (IH k1 (i + 1)) as (k' & -> & W2).
  - apply (rw_range_env _ _ _ _ E1). intros x Hx. apply Hw. lia.
  - exists k'. split; [done|]. eapply written_ext.
    + eapply (written_app _ _ _ _ _ _ _ _ _ (p + i) (Z.of_nat (S n)) W1 W2); lia.
    + intros x Hx. cbn beta. by destruct (_ && _).
Qed.

Lemma memcpy_spec k d s n : 0 <= n -> d <= s \/ s + n <= d -> rw_range k d n -> readable k s n ->
  exists k', memcpy k d s n = Some (d, k') /\ written k d n (fun x => ubyte k (x - d + s)) k'.
Proof.
  intros Hn Hds Hw Hr. unfold memcpy.
  destruct (copy_up_spec d s (Z.to_nat n) k 0) as (k' & -> & W);
    rewrite ?Z.add_0_r, ?Z2Nat.id in * by lia; try done.
  by exists k'.
Qed.

Lemma memset_spec k p c n : 0 <= n -> rw_range k p n ->
  exists k', memset k p c n = Some (p, k') /\ written k p n (fun _ => Some (u8 c)) k'.
Proof.
  intros Hn Hw. unfold memset.
  destruct (set_loop_spec p (u8 c) (Z.to_nat n) ltac:(unfold u8; apply Z.mod_pos_bound; lia) k 0) as (k' & -> & W);
    rewrite ?Z.add_0_r, ?Z2Nat.id in * by lia; [done|].
  by exists k'.
Qed.

(** [memmove] writes to the destination the bytes the source had before the
  call, for every overlap of the two areas, and changes no other byte; it does
  not fault when the destination is writable and the source readable. *)
Theorem memmove_correct k d s n : 0 <= n -> rw_range k d n -> readable k s n ->
  exists k', memmove k d s n = Some (d, k') /\ written k d n (fun x => ubyte k (x - d + s)) k'.
Proof.
  intros Hn Hw Hr. unfold memmove. destruct (Z.leb_spec d s).
  - destruct (copy_up_spec d s (Z.to_nat n) k 0) as (k' & -> & W);
      rewrite ?Z.add_0_r, ?Z2Nat.id in * by lia; try done; [by left|]. by exists k'.
  - destruct (copy_down_spec d s (Z.to_nat n) k) as (k' & -> & W);
      rewrite ?Z2Nat.id in * by lia; try done; [lia|]. by exists k'.
Qed.

(** ** Strings *)

Definition bytes_at (k : K) (a : Z) (l : list Z) : Prop :=
  forall i b, l !! i = Some b -> ubyte k (a + Z.of_nat i) = Some b.

(** A NUL-terminated string of non-zero bytes. *)
Definition cstr (k : K) (a : Z) (s : list Z) : Prop :=
  Forall (fun b => 0 < b < 256) s /\ bytes_at k a (s ++ [0]).

(** The order of the comparison functions: by the first difference, a shorter
  string before its extensions. *)
Fixpoint str_order (s t : list Z) : Z :=
  match s, t with
  | [], [] => 0
  | [], _ :: _ => -1
  | _ :: _, [] => 1
  | x :: s, y :: t => if x <? y then -1 else if y <? x then 1 else str_order s t
  end.

Lemma bytes_at_cons k a b l : bytes_at k a (b :: l) <-> ubyte k a = Some b /\ bytes_at k (a + 1) l.
Proof.
  split.
  - intros H. split; [specialize (H O b eq_refl); by rewrite Z.add_0_r in H|].
    intros i c Hi. rewrite <- (H (S i) c Hi). f_equal. lia.
  - intros [H1 H2] [|i] c Hi; [injection Hi as <-; by rewrite Z.add_0_r|].
    rewrite <- (H2 i c Hi). f_equal. lia.
Qed.

Lemma cstr_nil k a : cstr k a [] <-> ubyte k a = Some 0.
Proof.
  unfold cstr. cbn [app]. rewrite bytes_at_cons. split; [tauto|]. intros H. split_and!; [done..|].
  intros i c Hi. by rewrite lookup_nil in Hi.
Qed.

Lemma cstr_cons k a b s : cstr k a (b :: s) <-> 0 < b < 256 /\ ubyte k a = Some b /\ cstr k (a + 1) s.
Proof. unfold cstr. cbn [app]. rewrite bytes_at_cons, Forall_cons. tauto. Qed.

Lemma strlen_spec k s : forall a n fuel, cstr k (a + n) s -> (length s < fuel)%nat ->
  strlen_loop fuel k a n = Some (n + Z.of_nat (length s)).
Proof.
  induction s as [|b s IH]; intros a n [|fuel] Hs Hf; cbn [length] in Hf; try lia; cbn [strlen_loop length].
  - apply cstr_nil in Hs. rewrite Hs. cbn. f_equal. lia.
  - apply cstr_cons in Hs as (Hb & -> & Hs). cbn [mbind option_bind].
    rewrite (proj2 (Z.eqb_neq b 0)) by lia. rewrite IH; [f_equal; lia|by rewrite Z.add_assoc|lia].
Qed.

Lemma strcmp_spec k s : forall t a b fuel, cstr k a s -> cstr k b t -> (length s < fuel)%nat ->
  strcmp fuel k a b = Some (str_order s t).
Proof.
  induction s as [|x s IH]; intros t a b [|fuel] Hs Ht Hf; cbn [length] in Hf; try lia; cbn [strcmp].
  - apply cstr_nil in Hs. rewrite Hs. cbn. destruct t as [|y t].
    + apply cstr_nil in Ht. by rewrite Ht.
    + apply cstr_cons in Ht as (Hy & -> & _). cbn. by rewrite (proj2 (Z.ltb_lt 0 y)) by lia.
  - apply cstr_cons in Hs as (Hx & -> & Hs). cbn [mbind option_bind].
    rewrite (proj2 (Z.eqb_neq x 0)) by lia. cbn [negb andb]. destruct t as [|y t]; cbn [str_order].
    + apply cstr_nil in Ht. rewrite Ht. cbn [mbind option_bind].
      by rewrite (proj2 (Z.eqb_neq x 0)), (proj2 (Z.ltb_ge x 0)), (proj2 (Z.ltb_lt 0 x)) by lia.
    + apply cstr_cons in Ht as (Hy & -> & Ht). cbn [mbind option_bind].
      destruct (Z.eqb_spec x y) as [->|].
      * rewrite Z.ltb_irrefl. apply IH; [done..|lia].
      * destruct (Z.ltb_spec x y); [done|]. by rewrite (proj2 (Z.ltb_lt y x)) by lia.
Qed.

Lemma strncmp_spec k n : forall s t a b i, cstr k (a + i) s -> cstr k (b + i) t ->
  strncmp_loop n k a b i = Some (str_order (take n s) (take n t)).
Proof.
  induction n as [|n IH]; intros s t a b i Hs Ht; [done|]. cbn [strncmp_loop].
  destruct s as [|x s], t as [|y t].
  - apply cstr_nil in Hs, Ht. by rewrite Hs, Ht.
  - apply cstr_nil in Hs. apply cstr_cons in Ht as (Hy & -> & _). rewrite Hs. cbn [mbind option_bind take str_order].
    by rewrite (proj2 (Z.eqb_neq 0 y)), (proj2 (Z.ltb_lt 0 y)) by lia.
  - apply cstr_nil in Ht. apply cstr_cons in Hs as (Hy & -> & _). rewrite Ht. cbn [mbind option_bind take str_order].
    by rewrite (proj2 (Z.eqb_neq x 0)), (proj2 (Z.ltb_ge x 0)) by lia.
  - apply cstr_cons in Hs as (Hx & -> & Hs), Ht as (Hy & -> & Ht). cbn [mbind option_bind take str_order].
    destruct (Z.eqb_spec x y) as [->|]; cbn [negb].
    + rewrite (proj2 (Z.eqb_neq y 0)), Z.ltb_irrefl by lia. apply IH; by rewrite Z.add_assoc.
    + destruct (Z.ltb_spec x y); [done|]. by rewrite (proj2 (Z.ltb_lt y x)) by lia.
Qed.

Lemma memcmp_spec k n : forall s t a b i, bytes_at k (a + i) s -> bytes_at k (b + i) t ->
  length s = n -> length t = n -> cmp_loop n k a b i = Some (str_order s t).
Proof.
  induction n as [|n IH]; intros [|x s] [|y t] a b i Hs Ht Hls Hlt; try discriminate; [done|].
  cbn [cmp_loop]. apply bytes_at_cons in Hs as [-> Hs], Ht as [-> Ht]. cbn [mbind option_bind str_order].
  destruct (Z.eqb_spec x y) as [->|]; cbn [negb].
  - rewrite Z.ltb_irrefl. cbn [length] in Hls, Hlt. apply IH; rewrite ?Z.add_assoc; (done || lia).
  - destruct (Z.ltb_spec x y); [done|]. by rewrite (proj2 (Z.ltb_lt y x)) by lia.
Qed.

Lemma str_order_eq s t : str_order s t = 0 <-> s = t.
Proof.
  revert t. induction s as [|x s IH]; intros [|y t]; cbn [str_order]; try done.
  destruct (Z.ltb_spec x y); [split; [done|intros [= -> _]; lia]|].
  destruct (Z.ltb_spec y x); [split; [done|intros [= -> _]; lia]|].
  rewrite IH. split; [intros ->; f_equal; lia|by intros [= _ ->]].
Qed.

(** The comparison functions compute one order, lexicographic by unsigned
  bytes: [strcmp] of the whole strings, [strncmp] of their first [n] bytes,
  [memcmp] of two blocks; they terminate within the bytes of the first operand,
  and give 0 exactly for equal operands. *)
Theorem string_order_correct k a b s t n fuel : cstr k a s -> cstr k b t -> (length s < fuel)%nat -> 0 <= n ->
  strlen fuel k a = Some (Z.of_nat (length s)) /\
  strcmp fuel k a b = Some (str_order s t) /\
  strncmp k a b n = Some (str_order (take (Z.to_nat n) s) (take (Z.to_nat n) t)) /\
  (n <= Z.of_nat (length s) -> n <= Z.of_nat (length t) ->
   memcmp k a b n = Some (str_order (take (Z.to_nat n) s) (take (Z.to_nat n) t))) /\
  (strcmp fuel k a b = Some 0 <-> s = t).
Proof.
  intros Hs Ht Hf Hn. split_and!.
  - unfold strlen. rewrite (strlen_spec k s a 0 fuel); rewrite ?Z.add_0_r; done.
  - by apply strcmp_spec.
  - apply strncmp_spec; by rewrite Z.add_0_r.
  - intros Hns Hnt. apply memcmp_spec; rewrite ?Z.add_0_r, ?length_take; try lia.
    + intros i c Hi. apply lookup_take_Some in Hi as [Hi _]. apply Hs. by apply lookup_app_l_Some.
    + intros i c Hi. apply lookup_take_Some in Hi as [Hi _]. apply Ht. by apply lookup_app_l_Some.
  - rewrite (strcmp_spec k s t) by done. rewrite <- str_order_eq. split; congruence.
Qed.

Lemma cstr_written k d s f k' : written k d (Z.of_nat (length s) + 1) f k' ->
  Forall (fun b => 0 < b < 256) s ->
  (forall i b, (s ++ [0]) !! i = Some b -> f (d + Z.of_nat i) = Some b) -> cstr k' d s.
Proof.
  intros W Hs Hf. split; [done|]. intros i b Hi. rewrite (written_in _ _ _ _ _ _ W); [by apply Hf|].
  apply lookup_lt_Some in Hi. rewrite length_app in Hi. simpl in Hi. lia.
Qed.

Lemma strcpy_spec s : forall k d src fuel, cstr k src s -> (length s < fuel)%nat ->
  rw_range k d (Z.of_nat (length s) + 1) ->
  d + Z.of_nat (length s) + 1 <= src \/ src + Z.of_nat (length s) + 1 <= d ->
  exists k', strcpy_loop fuel k d src = Some k' /\ cstr k' d s /\
    written k d (Z.of_nat (length s) + 1) (fun x => ubyte k (x - d + src)) k'.
Proof.
  induction s as [|b s IH]; intros k d src [|fuel] Hs Hf Hw Hd; cbn [length] in *; try lia; cbn [strcpy_loop].
  - apply cstr_nil in Hs. rewrite Hs. cbn [mbind option_bind].
    destruct (rw_put k d 0 ltac:(apply Hw; lia) ltac:(lia)) as (k1 & -> & E1 & H1). cbn [mbind option_bind].
    rewrite H1, (proj2 (Z.eqb_neq src d)) by lia. rewrite Hs. cbn. exists k1.
    pose proof (written_put _ _ _ _ E1 H1) as W1. split_and!; [done| |].
    + apply cstr_nil. by rewrite H1, Z.eqb_refl.
    + eapply written_ext; [exact W1|]. intros x Hx. rewrite <- Hs. f_equal. lia.
  - apply cstr_cons in Hs as (Hb & Eb & Hs). rewrite Eb. cbn [mbind option_bind].
    destruct (rw_put k d b ltac:(apply Hw; lia) ltac:(lia)) as (k1 & -> & E1 & H1). cbn [mbind option_bind].
    rewrite H1, (proj2 (Z.eqb_neq src d)) by lia. rewrite Eb. cbn [mbind option_bind].
    rewrite (proj2 (Z.eqb_neq b 0)) by lia. pose proof (written_put _ _ _ _ E1 H1) as W1.
    destruct (IH k1 (d + 1) (src + 1) fuel) as (k' & -> & Hc & W2).
    + destruct Hs as [Hs1 Hs2]. split; [done|]. intros i c Hi. rewrite H1.
      rewrite (proj2 (Z.eqb_neq _ d)); [by apply Hs2|].
      apply lookup_lt_Some in Hi. rewrite length_app in Hi. simpl in Hi. lia.
    + lia.
    + apply (rw_range_env _ _ _ _ E1). intros x Hx. apply Hw. lia.
    + lia.
    + exists k'. split_and!; [done| |].
      * apply cstr_cons. split_and!; [lia|lia| |done].
        rewrite (written_out _ _ _ _ _ _ W2) by lia. by rewrite H1, Z.eqb_refl.
      * eapply written_ext.
        -- eapply (written_app _ _ _ _ _ _ _ _ _ d (Z.of_nat (S (length s)) + 1) W1 W2); lia.
        -- intros x Hx. cbn beta. destruct (_ && _) eqn:C.
           ++ bool_to_prop. rewrite H1, (proj2 (Z.eqb_neq _ d)) by lia. f_equal. lia.
           ++ assert (x = d) as -> by
                (destruct (Z.leb_spec (d + 1) x), (Z.ltb_spec x (d + 1 + (Z.of_nat (length s) + 1))); simpl in C; (done || lia)).
              rewrite <- Eb. f_equal. lia.
Qed.

Lemma strncpy_spec n : forall s k d src i, cstr k (src + i) s -> rw_range k (d + i) (Z.of_nat n) ->
  d + i + Z.of_nat n <= src + i \/ src + i + Z.of_nat (length s) + 1 <= d + i ->
  exists k', strncpy_loop n k d src i = Some k' /\
    written k (d + i) (Z.of_nat n) (fun x => (take n s ++ replicate (n - length s) 0) !! Z.to_nat (x - (d + i))) k'.
Proof.
  induction n as [|n IH]; intros s k d src i Hs Hw Hd; cbn [strncpy_loop].
  { exists k. split; [done|apply written_nil]. }
  destruct s as [|b s].
  - apply cstr_nil in Hs. rewrite Hs. cbn [mbind option_bind Z.eqb negb].
    destruct (set_loop_spec d 0 (S n) ltac:(lia) k i Hw) as (k' & -> & W). exists k'. split; [done|].
    eapply written_ext; [exact W|]. intros x Hx. cbn beta. cbn [take app length].
    rewrite lookup_replicate_2; [done|lia].
  - apply cstr_cons in Hs as (Hb & -> & Hs). cbn [mbind option_bind].
    rewrite (proj2 (Z.eqb_neq b 0)) by lia. cbn [negb].
    destruct (rw_put k (d + i) b ltac:(apply Hw; lia) ltac:(lia)) as (k1 & -> & E1 & H1). cbn [mbind option_bind].
    pose proof (written_put _ _ _ _ E1 H1) as W1.
    destruct (IH s k1 d src (i + 1)) as (k' & -> & W2).
    + destruct Hs as [Hs1 Hs2]. split; [done|]. intros j c Hj. rewrite H1.
      cbn [length] in Hd. destruct (Z.eqb_spec (src + (i + 1) + Z.of_nat j) (d + i)).
      * apply lookup_lt_Some in Hj. rewrite length_app in Hj. simpl in Hj. lia.
      * rewrite <- (Hs2 j c Hj). f_equal. lia.
    + apply (rw_range_env _ _ _ _ E1). intros x Hx. apply Hw. lia.
    + cbn [length] in Hd. lia.
    + exists k'. split; [done|]. eapply written_ext.
      * eapply (written_app _ _ _ _ _ _ _ _ _ (d + i) (Z.of_nat (S n)) W1 W2); lia.
      * intros x Hx. cbn beta. destruct (_ && _) eqn:C.
        -- bool_to_prop. replace (Z.to_nat (x - (d + i))) with (S (Z.to_nat (x - (d + (i + 1))))) by lia. done.
        -- assert (x = d + i) as ->.
           { destruct (Z.leb_spec (d + (i + 1)) x), (Z.ltb_spec x (d + (i + 1) + Z.of_nat n)); simpl in C; (done || lia). }
           by rewrite Z.sub_diag.
Qed.

End Bytes.

(** ** Demonstration: the string ["abc"] at 0x400000 and ["abd"] at 0x400010 *)
Section Demo.

Definition demo_mem : flat := Flat 0x401000 FLAT_TOP []
  (list_to_map [(0x400000, 97); (0x400001, 98); (0x400002, 99); (0x400010, 97); (0x400011, 98); (0x400012, 100)]).

Lemma demo_rw a n : 0x400000 <= a -> a + n <= 0x401000 -> rw_range (rw := flat_rw) demo_mem a n.
Proof. intros Ha Hn x Hx. apply flat_mapped_true. left. cbn [f_brk demo_mem]. unfold FLAT_BASE. lia. Qed.

(** Overlapping by two bytes. *)
Lemma memmove_correct_witness : exists k', memmove demo_mem 0x400001 0x400000 3 = Some (0x400001, k') /\
  written (env := flat_env) demo_mem 0x400001 3 (fun x => ubyte demo_mem (x - 0x400001 + 0x400000)) k'.
Proof.
  apply (memmove_correct (rw := flat_rw)); [lia|apply demo_rw; lia|].
  intros x Hx. apply rw_byte. apply (demo_rw 0x400000 3); lia.
Defined.

Lemma demo_cstr a s : Forall (fun b => 0 < b < 256) s ->
  forallb (fun ib => bool_decide (ubyte demo_mem (a + Z.of_nat ib.1) = Some ib.2)) (imap (fun i b => (i, b)) (s ++ [0])) = true ->
  cstr demo_mem a s.
Proof.
  intros Hs Hb. split; [done|]. intros i b Hi. rewrite forallb_forall in Hb.
  specialize (Hb (i, b)). apply (bool_decide_eq_true (ubyte demo_mem (a + Z.of_nat i) = Some b)). apply Hb.
  apply list_elem_of_In, list_elem_of_lookup. exists i. by rewrite list_lookup_imap, Hi.
Qed.

Lemma string_order_correct_witness :
  strlen 4 demo_mem 0x400000 = Some 3 /\ strcmp 4 demo_mem 0x400000 0x400010 = Some (-1) /\
  strncmp demo_mem 0x400000 0x400010 2 = Some 0.
Proof.
  destruct (string_order_correct demo_mem 0x400000 0x400010 [97; 98; 99] [97; 98; 100] 2 4) as (H1 & H2 & H3 & _).
  - apply demo_cstr; [repeat constructor; lia|by vm_compute].
  - apply demo_cstr; [repeat constructor; lia|by vm_compute].
  - simpl. lia.
  - lia.
  - split; [exact H1|split; [exact H2|exact H3]].
Defined.

End Demo.
