(* ===== verification/Malloc.v ===== *)
(** * The C library's heap allocator ([userland/libc/malloc.c])

  A boundary-tag allocator in the memory of the process: blocks tile the arena
  between [a_start] and [a_end], a header of two words in front of each, a footer
  that mirrors it at the end of a free block, and a doubly linked list through the
  payloads of the free blocks.  Large requests get a mapping of their own.  The
  state is the static data of [malloc.c] and of [sys_sbrk], and the process.  An
  operation ends with a value, with a fault (an access to memory that is not
  mapped), or with the message of [memerr], which exits the process; [Spin] is a
  loop that ran out of fuel, and [MallocSpec] shows that none does. *)
From S2P Require Import Prelude PhysMem UserWorld LibcMem.

Definition B_ALLOC : Z := Z.shiftl 1 0.
Definition B_PREV : Z := Z.shiftl 1 1.
Definition B_MMAP : Z := Z.shiftl 1 2.
Definition HEADER_SZ : Z := 16.
Definition MIN_BLOCK : Z := 48.
Definition PAGE_SZ : Z := 4096.
Definition MALLOC_MMAP_THRESHOLD : Z := 128 * 1024.
Definition SIZE_MAX : Z := 2 ^ 64 - 1.

(** [(void * )-1] *)
Definition MAP_FAILED : Z := -1.

Definition DOUBLE_FREE : string := "malloc: double free" +:+ String (Ascii.ascii_of_nat 10) EmptyString.

Inductive out (A : Type) := Val (x : A) | Fault | Died (m : string) | Spin.
Arguments Val {A} x.
Arguments Fault {A}.
Arguments Died {A} m.
Arguments Spin {A}.

Section Malloc.
Context {K : Type} `{UB : UserBytes K} `{UK : UserKernel K}.

Record heap := Heap { a_start : Z; a_end : Z; free_head : Z; brk_cache : Z; world : K }.

Definition with_world (h : heap) (k : K) : heap := Heap (a_start h) (a_end h) (free_head h) (brk_cache h) k.
Definition with_head (h : heap) (x : Z) : heap := Heap (a_start h) (a_end h) x (brk_cache h) (world h).
Definition with_end (h : heap) (x : Z) : heap := Heap (a_start h) x (free_head h) (brk_cache h) (world h).
Definition with_arena (h : heap) (x y : Z) : heap := Heap x y (free_head h) (brk_cache h) (world h).
Definition with_cache (h : heap) (x : Z) : heap := Heap (a_start h) (a_end h) (free_head h) x (world h).

(** ** Sequences of accesses *)

Definition M (A : Type) : Type := heap -> out (A * heap).
#[local] Instance M_ret : MRet M := fun A x h => Val (x, h).
#[local] Instance M_bind : MBind M := fun A B f m h =>
  match m h with
  | Val (x, h) => f x h
  | Fault => Fault
  | Died m => Died m
  | Spin => Spin
  end.

Definition load64 (k : K) (a : Z) : option Z := le_val <$> mapM (fun i => ubyte k (a + i)) (range 0 8).

Fixpoint put_bytes (k : K) (a : Z) (l : list Z) : option K :=
  match l with
  | [] => Some k
  | b :: l => k ← uput k a b; put_bytes k (a + 1) l
  end.

Definition ld (a : Z) : M Z := fun h =>
  match load64 (world h) a with Some v => Val (v, h) | None => Fault end.
Definition st (a v : Z) : M unit := fun h =>
  match put_bytes (world h) a (le_bytes 8 v) with Some k => Val (tt, with_world h k) | None => Fault end.
Definition get : M heap := fun h => Val (h, h).
Definition put (f : heap -> heap) : M unit := fun h => Val (tt, f h).
Definition skip : M unit := fun h => Val (tt, h).
Definition spin {A} : M A := fun _ => Spin.

(** The fields of a header, the links of a node. *)
Definition hsize (b : Z) : Z := b.
Definition hflags (b : Z) : Z := b + 8.
Definition nprev (n : Z) : Z := n.
Definition nnext (n : Z) : Z := n + 8.
Definition FN (b : Z) : Z := b + HEADER_SZ.

(** [FOOT(b)], which reads the size in the header. *)
Definition FOOT (b : Z) : M Z := s ← ld (hsize b); mret (b + s - HEADER_SZ).

Definition memerr {A} (m : string) : M A := fun _ => Died m.

(** [*f = { size, flags } of b], [f] the footer of [b]. *)
Definition mirror (b : Z) : M unit :=
  f ← FOOT b;
  s ← ld (hsize b); st (hsize f) s;;
  g ← ld (hflags b); st (hflags f) g.

(** ** The break ([void.h]) *)

Definition sys_brk (addr : Z) : M Z := fun h =>
  let '(r, k) := k_brk (world h) addr in Val (r, with_world h k).

(** The part of [sys_sbrk] after its cache of the break is filled. *)
Definition sbrk_cached (inc : Z) : M Z :=
  h ← get;
  let old := brk_cache h in
  let nb := i64 (old + inc) in
  if nb <? 0 then mret (-1)
  else
    r ← sys_brk nb;
    if negb (r =? nb) then mret (-1)
    else put (fun h => with_cache h nb);; mret old.

Definition sys_sbrk (inc : Z) : M Z :=
  if inc =? 0 then sys_brk 0
  else
    h ← get;
    if brk_cache h =? 0 then
      zero ← sys_brk 0;
      if zero <=? 0 then mret (-1) else put (fun h => with_cache h zero);; sbrk_cached inc
    else sbrk_cached inc.

Definition sys_mmap (addr len prot flags fd off : Z) : M Z := fun h =>
  let '(r, k) := k_mmap (world h) addr len prot flags fd off in
  Val (if r =? -1 then MAP_FAILED else u64 r, with_world h k).

Definition sys_munmap (addr len : Z) : M unit := fun h =>
  let '(r, k) := k_munmap (world h) addr len in Val (tt, with_world h k).

(** ** Free-list plumbing *)

Definition fl_unlink (n : Z) : M unit :=
  prev ← ld (nprev n);
  (if negb (prev =? 0) then next ← ld (nnext n); st (nnext prev) next
   else next ← ld (nnext n); put (fun h => with_head h next));;
  next ← ld (nnext n);
  (if negb (next =? 0) then prev ← ld (nprev n); st (nprev next) prev else skip);;
  st (nnext n) 0;; st (nprev n) 0.

Definition fl_insert (blk : Z) : M unit :=
  let n := FN blk in
  st (nprev n) 0;;
  h ← get; st (nnext n) (free_head h);;
  (if negb (free_head h =? 0) then st (nprev (free_head h)) n else skip);;
  put (fun h => with_head h n);;
  mirror blk;;
  s ← ld (hsize blk);
  let nx := blk + s in
  h ← get;
  if nx <? a_end h then f ← ld (hflags nx); st (hflags nx) (Z.lor f B_PREV) else skip.

(** Absorb the following block when it is free: [h->size += H(nx)->size;
  fl_unlink(FN(nx))]. *)
Definition absorb_next (blk : Z) : M unit :=
  s ← ld (hsize blk);
  let nx := blk + s in
  h ← get;
  if nx <? a_end h then
    f ← ld (hflags nx);
    if negb (has f B_ALLOC) then
      s ← ld (hsize blk); t ← ld (hsize nx); st (hsize blk) (u64 (s + t));;
      fl_unlink (FN nx)
    else skip
  else skip.

Definition insert_free (blk : Z) : M unit := absorb_next blk;; fl_insert blk.

Fixpoint top_free_loop (fuel : nat) (n : Z) : M Z :=
  match fuel with
  | O => spin
  | S fuel =>
      if n =? 0 then mret 0
      else
        let blk := n - HEADER_SZ in
        s ← ld (hsize blk);
        h ← get;
        if blk + s =? a_end h then mret blk
        else next ← ld (nnext n); top_free_loop fuel next
  end.

(** More steps than there are blocks of 16 bytes. *)
Definition list_fuel (h : heap) : nat := S (S (Z.to_nat ((a_end h - a_start h) / 16))).

Definition top_free_block : M Z := h ← get; top_free_loop (list_fuel h) (free_head h).

(** ** Growing *)

(** [true] when it fails. *)
Definition arena_init : M bool :=
  h ← get;
  if a_start h =? 0 then
    b ← sys_sbrk 0;
    if b =? -1 then mret true else put (fun h => with_arena h b b);; mret false
  else mret false.

(** The footer of a new block [b], which goes to the list. *)
Definition insert_new (b chunk : Z) : M unit :=
  f ← FOOT b; st (hsize f) chunk;; st (hflags f) 0;; fl_insert b.

(** The break moved outside the allocator: a block at the old break. *)
Definition grow_gap (old chunk : Z) : M unit :=
  put (fun h => with_end h (old + chunk));;
  st (hsize old) chunk;; st (hflags old) 0;;
  insert_new old chunk.

(** The free block at the end grows in place. *)
Definition grow_top (tb chunk : Z) : M unit :=
  s ← ld (hsize tb); st (hsize tb) (u64 (s + chunk));;
  mirror tb;;
  put (fun h => with_end h (a_end h + chunk)).

(** A new block above the last one. *)
Definition grow_new (chunk : Z) : M unit :=
  h ← get;
  let b := a_end h in
  st (hsize b) chunk;; st (hflags b) 0;;
  put (fun h => with_end h (a_end h + chunk));;
  insert_new b chunk.

Definition arena_grow (need : Z) : M bool :=
  let chunk := u64 (need + PAGE_SZ - 1) / PAGE_SZ * PAGE_SZ in
  let chunk := if chunk <? PAGE_SZ then PAGE_SZ else chunk in
  old ← sys_sbrk chunk;
  if old =? -1 then mret true
  else
    h ← get;
    if negb (old =? a_end h) then grow_gap old chunk;; mret false
    else
      tb ← top_free_block;
      if negb (tb =? 0) then grow_top tb chunk;; mret false
      else grow_new chunk;; mret false.

(** ** Allocation *)

Definition align16 (n : Z) : Z := Z.land (u64 (n + 15)) (2 ^ 64 - 1 - 15).

Definition size_to_need (size : Z) : Z :=
  if SIZE_MAX - (HEADER_SZ + 15) <? size then 0
  else
    let need := u64 (HEADER_SZ + align16 size) in
    if need <? MIN_BLOCK then MIN_BLOCK else need.

(** The two ways to use the free block [blk]: its first [need] bytes, the rest
  stays free, or all of it. *)
Definition cut_split (blk need : Z) : M Z :=
  old ← ld (hsize blk);
  fl_unlink (FN blk);;
  st (hsize blk) need;;
  f ← ld (hflags blk); st (hflags blk) (Z.lor (Z.land f (Z.lor B_PREV B_MMAP)) B_ALLOC);;
  let r := blk + need / 16 * 16 in
  st (hsize r) (u64 (old - need));;
  st (hflags r) 0;;
  insert_free r;;
  mret (blk + HEADER_SZ).

Definition cut_whole (blk : Z) : M Z :=
  f ← ld (hflags blk); st (hflags blk) (Z.lor f B_ALLOC);;
  s ← ld (hsize blk);
  let nx := blk + s in
  h ← get;
  (if nx <? a_end h then f ← ld (hflags nx); st (hflags nx) (Z.land f (SIZE_MAX - B_PREV)) else skip);;
  fl_unlink (FN blk);;
  mret (blk + HEADER_SZ).

Definition take_cut (blk need : Z) : M Z :=
  s ← ld (hsize blk);
  if MIN_BLOCK <=? u64 (s - need) then cut_split blk need else cut_whole blk.

Fixpoint cut_loop (fuel : nat) (n need : Z) : M Z :=
  match fuel with
  | O => spin
  | S fuel =>
      if n =? 0 then mret 0
      else
        let blk := n - HEADER_SZ in
        s ← ld (hsize blk);
        if s <? need then next ← ld (nnext n); cut_loop fuel next need
        else take_cut blk need
  end.

Definition cut_first_fit (need : Z) : M Z := h ← get; cut_loop (list_fuel h) (free_head h) need.

Definition mmap_alloc (size : Z) : M Z :=
  let need := size_to_need size in
  if need =? 0 then mret 0
  else
    let rounded := u64 (need + PAGE_SZ - 1) / PAGE_SZ * PAGE_SZ in
    base ← sys_mmap 0 rounded PROT_RW MAP_ANON_PRIVATE (-1) 0;
    if base =? MAP_FAILED then mret 0
    else
      st (hsize base) rounded;; st (hflags base) (Z.lor B_ALLOC B_MMAP);;
      mret (base + HEADER_SZ).

Definition heap_alloc (size : Z) : M Z :=
  let need := size_to_need size in
  if need =? 0 then mret 0
  else
    failed ← arena_init;
    if failed : bool then mret 0
    else
      p ← cut_first_fit need;
      if p =? 0 then
        failed ← arena_grow need;
        if failed : bool then mret 0 else cut_first_fit need
      else mret p.

(** The preceding block, when it is free, takes [blk]: the block to go on with. *)
Definition absorb_prev (blk : Z) : M Z :=
  f ← ld (hflags blk);
  if has f B_PREV then
    psz ← ld (blk - HEADER_SZ);
    let pb := blk - psz in
    p ← ld (hsize pb); s ← ld (hsize blk); st (hsize pb) (u64 (p + s));;
    fl_unlink (FN pb);; mret pb
  else mret blk.

Definition heap_free (v : Z) : M unit :=
  let blk := v - HEADER_SZ in
  f ← ld (hflags blk);
  if negb (has f B_ALLOC) then memerr DOUBLE_FREE
  else
    absorb_next blk;;
    blk ← absorb_prev blk;
    f ← ld (hflags blk); st (hflags blk) (Z.land f (SIZE_MAX - B_ALLOC));;
    fl_insert blk.

(** ** The public functions *)

Definition malloc (size : Z) : M Z :=
  if MALLOC_MMAP_THRESHOLD <=? size then mmap_alloc size else heap_alloc size.

Definition free (ptr : Z) : M unit :=
  if ptr =? 0 then skip
  else
    let blk := ptr - HEADER_SZ in
    f ← ld (hflags blk);
    if has f B_MMAP then s ← ld (hsize blk); sys_munmap blk s else heap_free ptr.

(** [memset] and [memcpy] of [mem.c], run on the process. *)
Definition mem_op (f : K -> option (Z * K)) : M unit := fun h =>
  match f (world h) with Some (_, k) => Val (tt, with_world h k) | None => Fault end.

Definition calloc (nmemb size : Z) : M Z :=
  let total := nmemb * size in
  if SIZE_MAX <? total then mret 0
  else
    p ← malloc total;
    (if negb (p =? 0) then mem_op (fun k => memset k p 0 total) else skip);;
    mret p.

(** The tail of [blk] is split off, in place. *)
Definition shrink_block (blk new_need tail : Z) : M unit :=
  let r := blk + new_need / 16 * 16 in
  st (hsize r) tail;; st (hflags r) 0;;
  insert_free r;;
  st (hsize blk) new_need;;
  mirror blk.

Definition realloc (ptr size : Z) : M Z :=
  if ptr =? 0 then malloc size
  else if size =? 0 then free ptr;; mret 0
  else
    let blk := ptr - HEADER_SZ in
    s ← ld (hsize blk);
    let old_size := u64 (s - HEADER_SZ) in
    let new_need := size_to_need size in
    if new_need =? 0 then mret 0
    else
      s ← ld (hsize blk);
      if new_need <=? s then
        let tail := s - new_need in
        f ← ld (hflags blk);
        if (MIN_BLOCK <=? tail) && negb (has f B_MMAP) then
          shrink_block blk new_need tail;;
          mret ptr
        else mret ptr
      else
        nv ← malloc size;
        if nv =? 0 then mret 0
        else
          mem_op (fun k => memcpy k nv ptr old_size);;
          free ptr;;
          mret nv.

(** ** The self-check *)

(** One free block: 0, or the diagnostic. *)
Definition check_block (blk : Z) : M Z :=
  h ← get;
  f ← ld (hflags blk); if has f B_ALLOC then mret (-2)
  else
  s ← ld (hsize blk); if s <? MIN_BLOCK then mret (-3)
  else if negb (Z.land s 15 =? 0) then mret (-4)
  else if (blk <? a_start h) || (a_end h <? blk + s) then mret (-5)
  else
  ft ← FOOT blk;
  fs ← ld (hsize ft); ff ← ld (hflags ft);
  if negb (fs =? s) || negb (ff =? f) then mret (-6)
  else
  adj ← (if has f B_PREV then
           psz ← ld (blk - HEADER_SZ);
           let pb := blk - psz in
           if a_start h <=? pb then g ← ld (hflags pb); mret (negb (has g B_ALLOC)) else mret false
         else mret false);
  if adj : bool then mret (-7)
  else
  let nx := blk + s in
  if nx <? a_end h then g ← ld (hflags nx); mret (if negb (has g B_ALLOC) then -8 else 0)
  else mret 0.

Fixpoint check_loop (fuel : nat) (f n : Z) : M Z :=
  match fuel with
  | O => spin
  | S fuel =>
      if f =? 0 then mret 0
      else
        let n := n + 1 in
        if 1000000 <? n then mret (-1)
        else
          r ← check_block (f - HEADER_SZ);
          if negb (r =? 0) then mret r
          else next ← ld (nnext f); check_loop fuel next n
  end.

(** The count of the source bounds the loop. *)
Definition malloc_selfcheck : M Z := h ← get; check_loop (Z.to_nat 1000002) (free_head h) 0.

End Malloc.
Arguments heap : clear implicits.
