(* ===== verification/MallocHeap.v ===== *)
(** * The arena of the C library's allocator

  The shape of the arena: a map of blocks ([bl_ok]), how it lies in memory
  ([rep]), and the free list ([seg]).  A block is [Used], [Free] (in the list,
  with a footer), [Raw] between the two, or [Stale]: in use with a size word that
  is about to be written.  The lemmas say what each step of [Malloc] does to them
  and that no byte of a payload in use changes ([quiet]). *)
From S2P Require Import Prelude PhysMem UserWorld LibcMem Malloc.

Lemma ld_val {K} {UB : UserBytes K} (h : heap K) a v : load64 (world h) a = Some v -> ld a h = Val (v, h).
Proof. unfold ld. by intros ->. Qed.

Ltac state_simpl :=
  cbv beta iota delta [with_world with_head with_end with_arena with_cache world a_start a_end free_head brk_cache] in *.

(** Run the load of the goal, whose value is known. *)
Ltac run_ld E :=
  match goal with |- context [ld ?a ?h] => rewrite (ld_val h a _ E) end; cbv beta iota.

Section Words.
Context {K : Type} {UB : UserBytes K} {rw : K -> Z -> Prop} {env : K -> K -> Prop} {UL : UserBytesLaws K rw env}.

(** Only bytes of [T] change. *)
Definition touch (k k' : K) (T : Z -> Prop) : Prop :=
  env k k' /\ forall x, ~ T x -> ubyte k' x = ubyte k x.

Lemma touch_refl k T : touch k k T.
Proof. split; [reflexivity|done]. Qed.

Lemma touch_trans k1 k2 k3 T : touch k1 k2 T -> touch k2 k3 T -> touch k1 k3 T.
Proof. intros [E1 H1] [E2 H2]. split; [by etrans|]. intros x Hx. by rewrite H2, H1. Qed.

Lemma touch_mono k k' (T U : Z -> Prop) : touch k k' T -> (forall x, T x -> U x) -> touch k k' U.
Proof. intros [E H] HTU. split; [done|]. intros x Hx. apply H. by intros ?%HTU. Qed.

Lemma load64_ext k k' a : (forall x, a <= x < a + 8 -> ubyte k' x = ubyte k x) -> load64 k' a = load64 k a.
Proof.
  intros H. unfold load64. f_equal. apply Forall_mapM_ext, Forall_forall. intros i Hi%elem_of_range. apply H. lia.
Qed.

Lemma load64_touch k k' T a : touch k k' T -> (forall x, a <= x < a + 8 -> ~ T x) -> load64 k' a = load64 k a.
Proof. intros [_ H] HT. apply load64_ext. intros x Hx. by apply H, HT. Qed.

Lemma load64_bytes k a l : bytes_at k a l -> length l = 8%nat -> load64 k a = Some (le_val l).
Proof.
  intros H Hl. unfold load64. apply fmap_Some. exists l. split; [|done].
  apply mapM_Some, Forall2_same_length_lookup. split; [unfold range; by rewrite length_seqZ, Hl|].
  intros i x b Hx Hb. apply lookup_seqZ in Hx as [-> _]. rewrite Z.add_0_l. by apply H.
Qed.

Lemma load64_readable k a : readable k a 8 -> exists v, load64 k a = Some v /\ 0 <= v < 2 ^ 64.
Proof.
  intros H. unfold load64.
  destruct (mapM (fun i => ubyte k (a + i)) (range 0 8)) as [l|] eqn:E.
  - exists (le_val l). split; [done|]. apply mapM_Some in E.
    pose proof (Forall2_length _ _ _ E) as Hl. unfold range in Hl. rewrite length_seqZ in Hl.
    replace 64 with (8 * Z.of_nat (length l)) by lia. apply le_val_bound.
    apply Forall_forall. intros b Hb. apply list_elem_of_lookup in Hb as [i Hi].
    destruct (Forall2_lookup_r _ _ _ _ _ E Hi) as (x & _ & Hx). by eapply byte_range.
  - apply mapM_None in E. apply Exists_exists in E as (i & Hi%elem_of_range & E).
    destruct (H (a + i) ltac:(lia)) as [b Hb]. congruence.
Qed.

Lemma load64_range k a v : load64 k a = Some v -> 0 <= v < 2 ^ 64.
Proof.
  intros E. destruct (load64_readable k a) as (w & E' & ?); [|by simplify_eq].
  intros x Hx. unfold load64 in E. apply fmap_Some in E as (l & E & _). apply mapM_Some in E.
  destruct (Forall2_lookup_l _ _ _ (Z.to_nat (x - a)) (x - a) E) as (b & _ & Hb).
  - unfold range. rewrite lookup_seqZ_lt by lia. f_equal. lia.
  - replace (a + (x - a)) with x in Hb by lia. by eexists.
Qed.

Lemma put_bytes_spec l : forall k a, Forall (fun b => 0 <= b < 256) l -> rw_range (rw := rw) k a (Z.of_nat (length l)) ->
  exists k', put_bytes k a l = Some k' /\
    written (env := env) k a (Z.of_nat (length l)) (fun x => l !! Z.to_nat (x - a)) k'.
Proof.
  induction l as [|b l IH]; intros k a Hl Hw; cbn [put_bytes].
  { exists k. split; [done|apply written_nil]. }
  apply Forall_cons in Hl as [Hb Hl].
  destruct (rw_put k a b ltac:(apply Hw; cbn [length]; lia) Hb) as (k1 & -> & E1 & H1). cbn [mbind option_bind].
  pose proof (written_put _ _ _ _ E1 H1) as W1.
  destruct (IH k1 (a + 1) Hl) as (k' & -> & W2).
  { apply (rw_range_env _ _ _ _ E1). intros x Hx. apply Hw. cbn [length]. lia. }
  exists k'. split; [done|]. eapply written_ext.
  - eapply (written_app (rw := rw) _ _ _ _ _ _ _ _ _ a (Z.of_nat (length (b :: l))) W1 W2); cbn [length]; lia.
  - intros x Hx. cbn beta. destruct (_ && _) eqn:C.
    + bool_to_prop. by replace (Z.to_nat (x - a)) with (S (Z.to_nat (x - (a + 1)))) by lia.
    + cbn [length] in Hx. assert (x = a) as ->; [|by rewrite Z.sub_diag].
      destruct (Z.leb_spec (a + 1) x), (Z.ltb_spec x (a + 1 + Z.of_nat (length l))); simpl in C; (done || lia).
Qed.

(** ** One store of a word *)

Lemma put_word k a v : rw_range (rw := rw) k a 8 -> 0 <= v < 2 ^ 64 ->
  exists k', put_bytes k a (le_bytes 8 v) = Some k' /\ touch k k' (fun x => a <= x < a + 8) /\ load64 k' a = Some v.
Proof.
  intros Hw Hv. destruct (put_bytes_spec (le_bytes 8 v) k a) as (k' & Ep & [E W]);
    [apply le_bytes_range|by rewrite length_le_bytes|].
  exists k'. split; [done|]. rewrite length_le_bytes in W. split_and!.
  - split; [done|]. intros x Hx. rewrite W. destruct (_ && _) eqn:C; [|done]. bool_to_prop. lia.
  - rewrite (load64_bytes _ _ (le_bytes 8 v)); [rewrite le_val_bytes; f_equal; by apply Z.mod_small| |apply length_le_bytes].
    intros i b Hi. pose proof (lookup_lt_Some _ _ _ Hi) as Hl. rewrite length_le_bytes in Hl.
    rewrite W, (proj2 (Z.leb_le _ _)), (proj2 (Z.ltb_lt _ _)) by lia. cbn [andb].
    by replace (Z.to_nat (a + Z.of_nat i - a)) with i by lia.
Qed.

Context {UK : UserKernel K}.

Lemma st_val (h : heap K) a v : rw_range (rw := rw) (world h) a 8 -> 0 <= v < 2 ^ 64 ->
  exists k', st a v h = Val (tt, with_world h k') /\ touch (world h) k' (fun x => a <= x < a + 8) /\
    load64 k' a = Some v.
Proof.
  intros Hw Hv. unfold st. destruct (put_word (world h) a v Hw Hv) as (k' & -> & H). by exists k'.
Qed.

Lemma load64_st_ne k k' a b : touch k k' (fun x => a <= x < a + 8) -> b + 8 <= a \/ a + 8 <= b ->
  load64 k' b = load64 k b.
Proof. intros T Hb. apply (load64_touch _ _ _ _ T). lia. Qed.

(** ** The free list *)

(** The nodes [L] from [cur] to [nxt], [prev] before the first. *)
Fixpoint seg (k : K) (prev cur : Z) (L : list Z) (nxt : Z) : Prop :=
  match L with
  | [] => cur = nxt
  | n :: L => cur = n /\ load64 k n = Some prev /\ exists c, load64 k (n + 8) = Some c /\ seg k n c L nxt
  end.

Definition last_or (d : Z) (L : list Z) : Z := default d (last L).

Lemma last_or_cons d n L : last_or d (n :: L) = last_or n L.
Proof. unfold last_or. rewrite last_cons. by destruct (last L). Qed.

Lemma seg_app k L1 : forall prev cur L2 nxt, seg k prev cur (L1 ++ L2) nxt <->
  exists m, seg k prev cur L1 m /\ seg k (last_or prev L1) m L2 nxt.
Proof.
  induction L1 as [|n L1 IH]; intros prev cur L2 nxt; cbn [app seg].
  { split; [intros H; by exists cur|]. by intros (m & -> & H). }
  split.
  - intros (-> & Hp & c & Hc & H). apply IH in H as (m & H1 & H2). exists m.
    rewrite last_or_cons. split_and!; [done|done|by exists c|done].
  - intros (m & (-> & Hp & c & Hc & H1) & H2). rewrite last_or_cons in H2. split_and!; [done..|].
    exists c. split; [done|]. apply IH. by exists m.
Qed.

Lemma last_or_snoc d n L : last_or d (L ++ [n]) = n.
Proof. unfold last_or. by rewrite last_snoc. Qed.

Definition spaced (L : list Z) : Prop := NoDup L /\ forall n, n ∈ L -> n mod 16 = 0 /\ 0 < n.

Lemma spaced_app L1 L2 : spaced (L1 ++ L2) <-> spaced L1 /\ spaced L2 /\ forall n, n ∈ L1 -> n ∉ L2.
Proof.
  unfold spaced. rewrite NoDup_app. setoid_rewrite elem_of_app. split.
  - intros [(Ha & Hb & Hc) Hn]. split_and!; auto.
  - intros ([Ha H1] & [Hb H2] & Hc). split_and!; auto. by intros n [?%H1|?%H2].
Qed.

Lemma spaced_apart L m n : spaced L -> m ∈ L -> n ∈ L -> m = n \/ m + 16 <= n \/ n + 16 <= m.
Proof. intros [_ H] Hm%H Hn%H. Z.div_mod_to_equations. lia. Qed.

Lemma seg_ext k k' L : forall prev cur nxt,
  (forall n, n ∈ L -> load64 k' n = load64 k n /\ load64 k' (n + 8) = load64 k (n + 8)) ->
  seg k prev cur L nxt -> seg k' prev cur L nxt.
Proof.
  induction L as [|n L IH]; intros prev cur nxt Hx; cbn [seg]; [done|].
  intros (-> & Hp & c & Hc & H). destruct (Hx n) as [-> E]; [by left|]. split_and!; [done..|].
  exists c. rewrite E. split; [done|]. apply IH; [|done]. intros m Hm. apply Hx. by right.
Qed.

(** A store to one link of node [m] is seen by no other node. *)
Lemma link_other k k' L m n o : spaced L -> m ∈ L -> n ∈ L -> n <> m -> o = 0 \/ o = 8 ->
  touch k k' (fun x => m + o <= x < m + o + 8) ->
  load64 k' n = load64 k n /\ load64 k' (n + 8) = load64 k (n + 8).
Proof.
  intros HL Hm Hn Hne Ho T. destruct (spaced_apart _ _ _ HL Hm Hn) as [->|Ha]; [done|].
  split; apply (load64_st_ne _ _ (m + o)); (done || lia).
Qed.

Lemma seg_set_next k k' L m prev cur x y : spaced (L ++ [m]) ->
  touch k k' (fun b => m + 8 <= b < m + 8 + 8) -> load64 k' (m + 8) = Some y ->
  seg k prev cur (L ++ [m]) x -> seg k' prev cur (L ++ [m]) y.
Proof.
  intros HL T Hy H. apply seg_app in H as (c & H1 & -> & Hp & c' & Hc' & <-). apply seg_app. exists m. split.
  - eapply seg_ext; [|exact H1]. intros n Hn.
    assert (n <> m) by (intros ->; apply spaced_app in HL as (_ & _ & HL); apply (HL m Hn); by left).
    apply (link_other k k' (L ++ [m]) m n 8); try done; [..|by right]; apply elem_of_app; [right; by left|by left].
  - split_and!; [done| |by exists y]. rewrite <- Hp. apply (load64_st_ne _ _ _ _ T). lia.
Qed.

Lemma seg_set_prev k k' L m prev prev' cur x : spaced (m :: L) ->
  touch k k' (fun b => m + 0 <= b < m + 0 + 8) -> load64 k' m = Some prev' ->
  seg k prev cur (m :: L) x -> seg k' prev' cur (m :: L) x.
Proof.
  intros HL T Hy (-> & Hp & c & Hc & H). split_and!; [done|done|]. exists c. split.
  - rewrite <- Hc. apply (load64_st_ne _ _ _ _ T). lia.
  - eapply seg_ext; [|exact H]. intros n Hn.
    assert (n <> m) by (intros ->; destruct HL as [[HL _]%NoDup_cons _]; done).
    apply (link_other k k' (m :: L) m n 0); try done; [by left|by right|by left].
Qed.

Definition node_bytes (L : list Z) (x : Z) : Prop := exists m, m ∈ L /\ m <= x < m + 16.

Lemma seg_touch k k' T L prev cur nxt : touch k k' T -> (forall x, node_bytes L x -> ~ T x) ->
  seg k prev cur L nxt -> seg k' prev cur L nxt.
Proof.
  intros HT Hd. apply seg_ext. intros n Hn.
  split; apply (load64_touch _ _ _ _ HT); intros x Hx; apply Hd; exists n; (split; [done|lia]).
Qed.

Lemma touch_rw k k' T a n : touch k k' T -> rw_range (rw := rw) k a n -> rw_range (rw := rw) k' a n.
Proof. intros [E _]. by apply rw_range_env. Qed.

Lemma node_bytes_app L1 L2 x : node_bytes (L1 ++ L2) x <-> node_bytes L1 x \/ node_bytes L2 x.
Proof.
  unfold node_bytes. setoid_rewrite elem_of_app. naive_solver.
Qed.

Lemma spaced_bytes L1 L2 x : spaced (L1 ++ L2) -> node_bytes L1 x -> ~ node_bytes L2 x.
Proof.
  intros HL (m & Hm & Hx) (n & Hn & Hy).
  destruct (spaced_apart _ m n HL) as [->|?]; [apply elem_of_app; by left|apply elem_of_app; by right| |lia].
  apply spaced_app in HL as (_ & _ & HL). by apply (HL n).
Qed.

(** [if (n->prev) n->prev->next = n->next; else free_head = n->next] *)
Lemma unlink_pred (h : heap K) L1 n q : spaced (L1 ++ [n]) -> load64 (world h) (n + 8) = Some q -> 0 <= q < 2 ^ 64 ->
  (forall m, m ∈ L1 -> rw_range (rw := rw) (world h) m 16) -> seg (world h) 0 (free_head h) L1 n ->
  exists hd k', (if negb (last_or 0 L1 =? 0) then M_bind _ _ (fun next => st (nnext (last_or 0 L1)) next) (ld (nnext n))
                 else M_bind _ _ (fun next => put (fun h => with_head h next)) (ld (nnext n))) h =
      Val (tt, with_world (with_head h hd) k') /\
    touch (world h) k' (node_bytes L1) /\ seg k' 0 hd L1 q.
Proof.
  intros HL Hq Hqr Hw H. destruct h as [s e hd bc k]. cbn [world free_head] in *.
  destruct L1 as [|m L1 _] using rev_ind.
  - cbn [last_or last default]. exists q, k. unfold M_bind, nnext. cbn [Z.eqb negb]. run_ld Hq.
    cbn. split_and!; [done|apply touch_refl|done].
  - rewrite last_or_snoc.
    assert (Hm : m ∈ L1 ++ [m]) by (apply elem_of_app; right; by left).
    apply spaced_app in HL as HL'. destruct HL' as (HL1 & _ & _).
    destruct HL1 as [? Hpos]. destruct (Hpos m Hm) as [_ Hm0].
    rewrite (proj2 (Z.eqb_neq m 0)) by lia. cbn [negb]. unfold M_bind, nnext.
    run_ld Hq.
    destruct (st_val (Heap s e hd bc k) (m + 8) q) as (k' & -> & T & L); [|done|].
    { intros x Hx. apply (Hw m Hm). lia. }
    exists hd, k'. cbn in *. split_and!; [done| |].
    + eapply touch_mono; [exact T|]. intros x Hx. cbn beta in Hx. exists m. split; [done|lia].
    + eapply seg_set_next; [by split|exact T|done|exact H].
Qed.

(** [if (n->next) n->next->prev = n->prev] *)
Lemma unlink_succ (h : heap K) p q n L2 : spaced (n :: L2) -> load64 (world h) n = Some p -> 0 <= p < 2 ^ 64 ->
  (forall m, m ∈ L2 -> rw_range (rw := rw) (world h) m 16) -> seg (world h) n q L2 0 ->
  exists k', (if negb (q =? 0) then M_bind _ _ (fun prev => st (nprev q) prev) (ld (nprev n)) else skip) h =
      Val (tt, with_world h k') /\
    touch (world h) k' (node_bytes L2) /\ seg k' p q L2 0.
Proof.
  intros HL Hp Hpr Hw H. destruct h as [s e hd bc k]. cbn [world] in *.
  destruct L2 as [|m L2].
  - cbn [seg] in H. subst q. exists k. cbn. split_and!; [done|apply touch_refl|done].
  - pose proof H as [-> _]. change (n :: m :: L2) with ([n] ++ (m :: L2)) in HL.
    apply spaced_app in HL as (_ & HL & _). pose proof HL as [_ Hpos]. destruct (Hpos m) as [_ Hm0]; [by left|].
    rewrite (proj2 (Z.eqb_neq m 0)) by lia. cbn [negb]. unfold M_bind, nprev.
    run_ld Hp.
    destruct (st_val (Heap s e hd bc k) m p) as (k' & -> & T & L); [|done|].
    { intros x Hx. apply (Hw m); [by left|lia]. }
    exists k'. cbn [with_world world] in *. split; [done|split].
    + eapply touch_mono; [exact T|]. intros x Hx. cbn beta in Hx. exists m. split; [by left|lia].
    + eapply seg_set_prev; [done| |done|exact H]. by rewrite Z.add_0_r.
Qed.

Lemma fl_unlink_spec (h : heap K) L1 n L2 : spaced (L1 ++ n :: L2) ->
  (forall m, m ∈ L1 ++ n :: L2 -> rw_range (rw := rw) (world h) m 16) ->
  seg (world h) 0 (free_head h) (L1 ++ n :: L2) 0 ->
  exists hd k', fl_unlink n h = Val (tt, with_world (with_head h hd) k') /\
    touch (world h) k' (node_bytes (L1 ++ n :: L2)) /\ seg k' 0 hd (L1 ++ L2) 0.
Proof.
  destruct h as [s e hd0 bc k0]. state_simpl.
  intros HL Hw H. pose proof H as (m & H1 & (-> & Hp & q & Hq & H2))%seg_app.
  assert (HLn : spaced (L1 ++ [n])).
  { change (n :: L2) with ([n] ++ L2) in HL. rewrite app_assoc in HL. by apply spaced_app in HL as [HL _]. }
  assert (HLm : spaced (n :: L2)) by (by apply spaced_app in HL as (_ & HL & _)).
  assert (HN : forall x, n <= x < n + 16 -> ~ node_bytes L1 x).
  { intros x Hx Hb. apply (spaced_bytes _ _ x HLn Hb). exists n. split; [by left|done]. }
  assert (HN2 : forall x, n <= x < n + 16 -> ~ node_bytes L2 x).
  { intros x Hx. apply (spaced_bytes [n] L2 x HLm). exists n. split; [by left|done]. }
  assert (H12 : forall x, node_bytes L1 x -> ~ node_bytes L2 x).
  { intros x Hx Hy. apply (spaced_bytes _ _ x HL Hx). change (n :: L2) with ([n] ++ L2).
    apply node_bytes_app. by right. }
  assert (HA : forall k k' L, (forall x, node_bytes L x -> node_bytes L1 x \/ node_bytes L2 x \/ n <= x < n + 16) ->
    touch k k' (node_bytes L) -> touch k k' (node_bytes (L1 ++ n :: L2))).
  { intros k k' L Hs T. eapply touch_mono; [exact T|]. intros x Hx. change (n :: L2) with ([n] ++ L2).
    rewrite !node_bytes_app. destruct (Hs x Hx) as [?|[?|?]]; [tauto..|]. right; left. exists n. split; [by left|done]. }
  unfold fl_unlink, mbind. unfold M_bind at 1. run_ld Hp.
  destruct (unlink_pred (Heap s e hd0 bc k0) L1 n q HLn Hq ltac:(by eapply load64_range)) as (hd & k1 & E1 & T1 & S1).
  { intros m Hm. apply Hw. apply elem_of_app. by left. }
  { done. }
  unfold M_bind at 1. rewrite E1. clear E1. cbv beta iota.
  assert (Hq1 : load64 k1 (n + 8) = Some q) by (rewrite <- Hq; apply (load64_touch _ _ _ _ T1); intros x Hx; apply HN; lia).
  assert (Hp1 : load64 k1 n = Some (last_or 0 L1)) by (rewrite <- Hp; apply (load64_touch _ _ _ _ T1); intros x Hx; apply HN; lia).
  unfold M_bind at 1. run_ld Hq1.
  destruct (unlink_succ (Heap s e hd bc k1) (last_or 0 L1) q n L2 HLm) as (k2 & E2 & T2 & S2).
  { done. }
  { by eapply load64_range. }
  { intros m Hm. eapply touch_rw; [exact T1|]. apply Hw. apply elem_of_app. right. by right. }
  { eapply (seg_touch k0); [exact T1| |exact H2]. intros x Hx Hy. by apply (H12 x). }
  state_simpl. unfold M_bind at 1. rewrite E2. clear E2. cbv beta iota. state_simpl.
  assert (Hwn : rw_range (rw := rw) k2 n 16).
  { eapply touch_rw; [exact T2|]. eapply touch_rw; [exact T1|]. apply Hw. apply elem_of_app. right. by left. }
  unfold M_bind at 1.
  destruct (st_val (Heap s e hd bc k2) (nnext n) 0) as (k3 & E3 & T3 & _);
    [intros x Hx; apply Hwn; unfold nnext in *; lia|lia|].
  rewrite E3. clear E3. cbv beta iota. state_simpl.
  destruct (st_val (Heap s e hd bc k3) (nprev n) 0) as (k4 & E4 & T4 & _);
    [|lia|]. { eapply touch_rw; [exact T3|]. intros x Hx; apply Hwn; unfold nprev in *; lia. }
  rewrite E4. clear E4. state_simpl.
  exists hd, k4. split; [done|].
  assert (TN : touch k2 k4 (node_bytes [n])).
  { eapply touch_trans; (eapply touch_mono; [eassumption|]); intros x Hx; cbn beta in Hx; unfold nprev, nnext in Hx; exists n; (split; [by left|lia]). }
  split.
  - eapply touch_trans; [|eapply touch_trans]; (eapply HA; [|eassumption]); intros x Hx; try tauto.
    destruct Hx as (m & ->%list_elem_of_singleton & Hx). tauto.
  - apply seg_app. exists q. split.
    + eapply (seg_touch k2); [exact TN| |eapply (seg_touch k1); [exact T2|exact H12|done]].
      intros x Hx (m & ->%list_elem_of_singleton & Hm). by apply (HN x).
    + eapply (seg_touch k2); [exact TN| |done].
      intros x Hx (m & ->%list_elem_of_singleton & Hm). by apply (HN2 x).
Qed.

End Words.

(** ** Blocks *)

Inductive kind := Used | Free | Raw | Stale.
#[export] Instance kind_eq_dec : EqDecision kind.
Proof. solve_decision. Defined.

Record block := Block { b_sz : Z; b_kd : kind; b_pf : bool }.

Definition busy (b : block) : bool := match b_kd b with Used | Stale => true | _ => false end.

(** What the block after one of kind [k] looks like. *)
Definition follows (k : kind) (b : block) : Prop :=
  match k with
  | Used | Stale => b_pf b = false
  | Free => b_pf b = true /\ b_kd b <> Free
  | Raw => True
  end.

Record bl_ok (s e : Z) (bl : gmap Z block) : Prop := {
  bo_arena : 0 < s <= e /\ e <= USER_TOP /\ s mod 16 = 0 /\ e mod 16 = 0;
  bo_range : forall a b, bl !! a = Some b ->
    s <= a /\ a + b_sz b <= e /\ 48 <= b_sz b /\ b_sz b mod 16 = 0 /\ a mod 16 = 0;
  bo_apart : forall a b a' b', bl !! a = Some b -> bl !! a' = Some b' -> a < a' -> a + b_sz b <= a';
  bo_next : forall a b, bl !! a = Some b ->
    a + b_sz b = e \/ exists b', bl !! (a + b_sz b) = Some b' /\ follows (b_kd b) b';
  bo_prev : forall a b, bl !! a = Some b -> b_pf b = true ->
    exists a' b', bl !! a' = Some b' /\ a' + b_sz b' = a
}.

(** Every block but [x] is in use or in the list. *)
Definition settled_but (x : Z) (bl : gmap Z block) : Prop :=
  forall a b, bl !! a = Some b -> a <> x -> b_kd b = Used \/ b_kd b = Free.

Definition settled (bl : gmap Z block) : Prop :=
  forall a b, bl !! a = Some b -> b_kd b = Used \/ b_kd b = Free.

(** A byte of a payload in use. *)
Definition payload (bl : gmap Z block) (x : Z) : Prop :=
  exists a b, bl !! a = Some b /\ busy b = true /\ a + 16 <= x < a + b_sz b.

(** The blocks in use, by address, with their size. *)
Definition in_use (bl : gmap Z block) (a n : Z) : Prop :=
  exists pf, bl !! a = Some (Block n Used pf).

(** ** Pure facts about the tiling *)
Section Tiling.
Context {s e : Z} {bl : gmap Z block} (OK : bl_ok s e bl).

Lemma bl_cases a b a' b' : bl !! a = Some b -> bl !! a' = Some b' ->
  a = a' /\ b = b' \/ a + b_sz b <= a' \/ a' + b_sz b' <= a.
Proof.
  intros H H'. destruct (Z.lt_trichotomy a a') as [?|[->|?]].
  - right; left. by eapply bo_apart.
  - left. by simplify_eq.
  - right; right. by eapply (bo_apart _ _ _ OK a' b' a b).
Qed.

Lemma bl_prev_unique a b a' b' : bl !! a = Some b -> bl !! a' = Some b' -> a + b_sz b = a' + b_sz b' -> a = a' /\ b = b'.
Proof.
  intros H H' E. destruct (bl_cases _ _ _ _ H H') as [?|[?|?]]; [done|..];
    pose proof (bo_range _ _ _ OK _ _ H); pose proof (bo_range _ _ _ OK _ _ H'); lia.
Qed.

(** The block before a block that is marked so is free, or raw. *)
Lemma bl_prev_free a b : bl !! a = Some b -> b_pf b = true -> b_kd b = Free ->
  exists a' b', bl !! a' = Some b' /\ a' + b_sz b' = a /\ b_kd b' = Raw.
Proof.
  intros H Hp Hk. destruct (bo_prev _ _ _ OK _ _ H Hp) as (a' & b' & H' & E). exists a', b'. split_and!; [done..|].
  destruct (bo_next _ _ _ OK _ _ H') as [E'|(c & Hc & Hf)].
  - pose proof (bo_range _ _ _ OK _ _ H). lia.
  - rewrite E in Hc. simplify_eq. destruct (b_kd b') eqn:Ek; cbn [follows] in Hf; try done.
    + congruence.
    + by destruct Hf.
    + congruence.
Qed.

Lemma payload_free a b x : bl !! a = Some b -> busy b = false -> a <= x < a + b_sz b -> ~ payload bl x.
Proof.
  intros H Hb Hx (a' & b' & H' & Hb' & Hx'). destruct (bl_cases _ _ _ _ H H') as [[-> ->]|?]; [congruence|lia].
Qed.

Lemma payload_header a b x : bl !! a = Some b -> a <= x < a + 16 -> ~ payload bl x.
Proof.
  intros H Hx (a' & b' & H' & Hb' & Hx').
  pose proof (bo_range _ _ _ OK _ _ H). pose proof (bo_range _ _ _ OK _ _ H').
  destruct (bl_cases _ _ _ _ H H') as [[-> ->]|?]; lia.
Qed.

Lemma payload_arena x : payload bl x -> s <= x < e.
Proof. intros (a & b & H & _ & Hx). pose proof (bo_range _ _ _ OK _ _ H). lia. Qed.

End Tiling.

(** ** Changing the tiling *)

Definition set_pf (a : Z) (p : bool) (bl : gmap Z block) : gmap Z block :=
  alter (fun b => Block (b_sz b) (b_kd b) p) a bl.

Lemma lookup_set_pf a p bl a' b' : set_pf a p bl !! a' = Some b' <->
  (a' = a /\ exists q, bl !! a = Some (Block (b_sz b') (b_kd b') q) /\ b_pf b' = p) \/ (a' <> a /\ bl !! a' = Some b').
Proof.
  unfold set_pf. destruct (decide (a' = a)) as [->|Hne].
  - rewrite lookup_alter_eq. split.
    + intros (b & H & ->)%fmap_Some. left. split; [done|]. exists (b_pf b). by destruct b.
    + intros [[_ (q & H & E)]|[? _]]; [|done]. rewrite H. cbn. rewrite <- E. by destruct b'.
  - rewrite lookup_alter_ne by done. naive_solver.
Qed.

(** Split a lookup in a changed map. *)
Ltac bl_in H :=
  repeat first
    [ apply lookup_insert_Some in H as [[<- <-]|[? H]]
    | apply lookup_delete_Some in H as [? H]
    | apply lookup_set_pf in H as [[-> (? & H & ?)]|[? H]] ];
  cbn [b_sz b_kd b_pf] in *.

Section Changes.
Context {s e : Z} {bl : gmap Z block} (OK : bl_ok s e bl).

Lemma bl_lookup_sub a b : bl !! a = Some b -> s <= a /\ a + b_sz b <= e /\ 48 <= b_sz b /\ b_sz b mod 16 = 0 /\ a mod 16 = 0.
Proof. apply OK. Qed.

(** The block [x] is of another kind that asks no more of its successor. *)
Lemma ok_rekind x n k k' p : bl !! x = Some (Block n k p) -> k' <> Free ->
  (forall b, follows k b -> follows k' b) -> bl_ok s e (<[x := Block n k' p]> bl).
Proof.
  intros Hx Hk' Hfo. pose proof (bl_lookup_sub _ _ Hx) as Rx. split; [apply OK|..].
  - intros a b H. bl_in H; [done|by apply OK].
  - intros a b a' b' H H' Hlt. bl_in H; bl_in H'; try lia.
    + by apply (bo_apart _ _ _ OK _ _ _ _ Hx H').
    + by apply (bo_apart _ _ _ OK _ _ _ _ H Hx).
    + by apply (bo_apart _ _ _ OK _ _ _ _ H H').
  - intros a b H. bl_in H.
    + destruct (bo_next _ _ _ OK _ _ Hx) as [?|(b' & Hb' & Hf)]; [by left|right]. cbn [b_sz b_kd] in *.
      exists b'. rewrite lookup_insert_ne by lia. auto.
    + destruct (bo_next _ _ _ OK _ _ H) as [?|(b' & Hb' & Hf)]; [by left|right].
      destruct (decide (a + b_sz b = x)) as [E|E].
      * rewrite E, lookup_insert_eq. eexists. split; [done|]. rewrite E, Hx in Hb'. injection Hb' as <-.
        destruct (b_kd b); cbn [follows b_pf b_kd] in *; try done. by destruct Hf.
      * exists b'. by rewrite lookup_insert_ne.
  - intros a b H Hp. assert (Hq : exists b0, bl !! a = Some b0 /\ b_pf b0 = true) by (bl_in H; eauto).
    destruct Hq as (b0 & H0 & Hp0). destruct (bo_prev _ _ _ OK _ _ H0 Hp0) as (a' & b' & H' & E).
    destruct (decide (a' = x)) as [->|Hne].
    + exists x, (Block n k' p). rewrite lookup_insert_eq. split; [done|]. rewrite Hx in H'. by injection H' as <-.
    + exists a', b'. by rewrite lookup_insert_ne.
Qed.

Lemma ok_to_raw x n k p : bl !! x = Some (Block n k p) -> bl_ok s e (<[x := Block n Raw p]> bl).
Proof. intros Hx. by apply (ok_rekind x n k). Qed.

Lemma ok_merge x n p m k q : bl !! x = Some (Block n Raw p) -> bl !! (x + n) = Some (Block m k q) ->
  bl_ok s e (<[x := Block (n + m) Raw p]> (delete (x + n) bl)).
Proof.
  intros Hx Hy. pose proof (bl_lookup_sub _ _ Hx) as Rx. pose proof (bl_lookup_sub _ _ Hy) as Ry. cbn [b_sz] in *.
  split; [apply OK|..].
  - intros a b H. bl_in H; [|by apply OK]. split_and!; try lia. rewrite Z.add_mod by lia.
    destruct Rx as (_ & _ & _ & -> & _), Ry as (_ & _ & _ & -> & _). done.
  - intros a b a' b' H H' Hlt. bl_in H; bl_in H'; try lia.
    + destruct (bl_cases OK _ _ _ _ Hy H') as [[? _]|?]; cbn [b_sz] in *; [done|].
      pose proof (bo_apart _ _ _ OK _ _ _ _ Hx H' Hlt). pose proof (bl_lookup_sub _ _ H'). cbn [b_sz] in *. lia.
    + by apply (bo_apart _ _ _ OK _ _ _ _ H Hx).
    + by apply (bo_apart _ _ _ OK _ _ _ _ H H').
  - intros a b H. bl_in H.
    + destruct (bo_next _ _ _ OK _ _ Hy) as [?|(b' & Hb' & _)]; cbn [b_sz] in *; [left; lia|right].
      rewrite Z.add_assoc. exists b'. rewrite lookup_insert_ne, lookup_delete_ne by lia. done.
    + destruct (bo_next _ _ _ OK _ _ H) as [?|(b' & Hb' & Hf)]; [by left|right].
      assert (a + b_sz b <> x + n).
      { intros E. destruct (bl_prev_unique OK _ _ _ _ H Hx E). congruence. }
      destruct (decide (a + b_sz b = x)) as [E|E].
      * rewrite E, lookup_insert_eq. eexists. split; [done|]. rewrite E, Hx in Hb'. injection Hb' as <-.
        destruct (b_kd b); cbn [follows b_pf b_kd] in *; done.
      * exists b'. by rewrite lookup_insert_ne, lookup_delete_ne.
  - intros a b H Hp. assert (Hq : exists b0, bl !! a = Some b0 /\ b_pf b0 = true /\ a <> x + n).
    { bl_in H; [exists (Block n Raw p); split_and!; [done..|lia]|exists b; done]. }
    destruct Hq as (b0 & H0 & Hp0 & Hne0). destruct (bo_prev _ _ _ OK _ _ H0 Hp0) as (a' & b' & H' & E).
    destruct (decide (a' = x + n)) as [->|Hne].
    + exists x, (Block (n + m) Raw p). rewrite lookup_insert_eq. split; [done|]. rewrite Hy in H'. injection H' as <-.
      cbn [b_sz] in *. lia.
    + assert (a' <> x) by (intros ->; rewrite Hx in H'; injection H' as <-; cbn [b_sz] in E; lia).
      exists a', b'. by rewrite lookup_insert_ne, lookup_delete_ne.
Qed.

Lemma ok_split x n k p c k1 : bl !! x = Some (Block n k p) -> 48 <= c -> c mod 16 = 0 -> c + 48 <= n ->
  (k1 = Used \/ k1 = Stale) ->
  bl_ok s e (<[x + c := Block (n - c) Raw false]> (<[x := Block c k1 p]> bl)).
Proof.
  intros Hx Hc Hc16 Hn Hk1. pose proof (bl_lookup_sub _ _ Hx) as Rx. cbn [b_sz] in *.
  assert (Hin : forall a b, bl !! a = Some b -> a <> x -> a + b_sz b <= x \/ x + n <= a).
  { intros a b H Hne. destruct (bl_cases OK _ _ _ _ Hx H) as [[? _]|?]; cbn [b_sz] in *; [done|lia]. }
  split; [apply OK|..].
  - intros a b H. bl_in H; [| |by apply OK].
    + split_and!; try lia; [by rewrite Zminus_mod, Hc16, Z.sub_0_r, Z.mod_mod by lia; apply Rx|].
      rewrite Z.add_mod, Hc16 by lia. destruct Rx as (_ & _ & _ & _ & ->). done.
    + split_and!; (done || lia).
  - intros a b a' b' H H' Hlt. bl_in H; bl_in H'; try lia.
    + pose proof (bl_lookup_sub _ _ H'). specialize (Hin _ _ H' ltac:(done)). lia.
    + pose proof (bl_lookup_sub _ _ H'). specialize (Hin _ _ H' ltac:(done)). lia.
    + specialize (Hin _ _ H ltac:(done)). lia.
    + by apply (bo_apart _ _ _ OK _ _ _ _ H Hx).
    + by apply (bo_apart _ _ _ OK _ _ _ _ H H').
  - intros a b H. bl_in H.
    + destruct (bo_next _ _ _ OK _ _ Hx) as [?|(b' & Hb' & _)]; cbn [b_sz] in *; [left; lia|right].
      exists b'. replace (x + c + (n - c)) with (x + n) by lia. rewrite !lookup_insert_ne by lia. done.
    + right. eexists. rewrite lookup_insert_eq. split; [done|]. by destruct Hk1 as [->| ->].
    + destruct (bo_next _ _ _ OK _ _ H) as [?|(b' & Hb' & Hf)]; [by left|right].
      pose proof (bl_lookup_sub _ _ H). pose proof (Hin _ _ H ltac:(done)).
      destruct (decide (a + b_sz b = x)) as [E|E].
      * rewrite E, lookup_insert_ne, lookup_insert_eq by lia. eexists. split; [done|].
        rewrite E, Hx in Hb'. injection Hb' as <-.
        destruct (b_kd b); cbn [follows b_pf b_kd] in *; try done. split; [by destruct Hf|]. by destruct Hk1 as [->| ->].
      * exists b'. rewrite !lookup_insert_ne; [done|congruence|lia].
  - intros a b H Hp. bl_in H; [done|..].
    + destruct (bo_prev _ _ _ OK _ _ Hx Hp) as (a' & b' & H' & E). pose proof (bl_lookup_sub _ _ H').
      exists a', b'. rewrite !lookup_insert_ne by lia. done.
    + destruct (bo_prev _ _ _ OK _ _ H Hp) as (a' & b' & H' & E).
      destruct (decide (a' = x)) as [->|Hne].
      * exists (x + c), (Block (n - c) Raw false). rewrite lookup_insert_eq. split; [done|].
        rewrite Hx in H'. injection H' as <-. cbn [b_sz] in *. lia.
      * exists a', b'. pose proof (bl_lookup_sub _ _ H'). pose proof (Hin _ _ H' Hne).
        rewrite !lookup_insert_ne by lia. done.
Qed.

(** The raw block [x] becomes free or used, and the next block is told. *)
Definition settle (x n : Z) (k : kind) (p : bool) : gmap Z block :=
  set_pf (x + n) (bool_decide (k = Free)) (<[x := Block n k p]> bl).

Definition settled_as (x n : Z) (k : kind) (a : Z) (b : block) : block :=
  Block (b_sz b) (if decide (a = x) then k else b_kd b)
    (if decide (a = x + n) then bool_decide (k = Free) else b_pf b).

Lemma lookup_settle x n p k a : 0 < n -> bl !! x = Some (Block n Raw p) ->
  settle x n k p !! a = settled_as x n k a <$> bl !! a.
Proof.
  intros Hn Hx. unfold settle, set_pf. destruct (decide (a = x + n)) as [->|Hne].
  - rewrite lookup_alter_eq, lookup_insert_ne by lia.
    destruct (bl !! (x + n)) as [[]|]; [|done]. cbn. unfold settled_as. by rewrite decide_False, decide_True by lia.
  - rewrite lookup_alter_ne by done. destruct (decide (a = x)) as [->|Hne2].
    + rewrite lookup_insert_eq, Hx. cbn. unfold settled_as. by rewrite decide_True, decide_False by done.
    + rewrite lookup_insert_ne by done. destruct (bl !! a) as [[]|]; [|done]. cbn. unfold settled_as.
      by rewrite !decide_False by done.
Qed.

Lemma ok_settle x n p k : bl !! x = Some (Block n Raw p) -> k = Used \/ k = Free /\ p = false ->
  (k = Free -> forall b, bl !! (x + n) = Some b -> b_kd b <> Free) ->
  bl_ok s e (settle x n k p).
Proof.
  intros Hx Hk Hnf. pose proof (bl_lookup_sub _ _ Hx) as Rx. cbn [b_sz] in Rx.
  pose proof (lookup_settle x n p k) as L. specialize (fun a => L a ltac:(lia) Hx) as L'. clear L.
  assert (HS : forall a b, settle x n k p !! a = Some b -> exists b0, bl !! a = Some b0 /\ b = settled_as x n k a b0).
  { intros a b H. rewrite L' in H. by apply fmap_Some in H. }
  split; [apply OK|..].
  - intros a b (b0 & H & ->)%HS. exact (bl_lookup_sub _ _ H).
  - intros a b a' b' (b0 & H & ->)%HS (b0' & H' & _)%HS. by apply (bo_apart _ _ _ OK _ _ _ _ H H').
  - intros a b (b0 & H & ->)%HS. cbn [settled_as b_sz b_kd].
    destruct (bo_next _ _ _ OK _ _ H) as [?|(c & Hc & Hf)]; [by left|right].
    rewrite L', Hc. eexists. split; [done|].
    destruct (decide (a = x)) as [->|Hax].
    + rewrite Hx in H. injection H as <-. cbn [b_sz] in *.
      destruct Hk as [->|[-> _]]; cbn [follows settled_as b_pf b_kd]; rewrite decide_True by done; [done|].
      split; [done|]. rewrite decide_False by lia. by apply Hnf.
    + assert (a + b_sz b0 <> x + n).
      { intros E. by destruct (bl_prev_unique OK _ _ _ _ H Hx E). }
      destruct (b_kd b0) eqn:Ekd; cbn [follows settled_as b_pf b_kd] in *; rewrite ?(decide_False (P := _ = x + n)) by done; try done.
      destruct Hf as [Hf1 Hf2]. split; [done|]. destruct (decide (a + b_sz b0 = x)) as [E|]; [|done].
      destruct Hk as [->|[-> ->]]; [done|]. rewrite E, Hx in Hc. injection Hc as <-. done.
  - intros a b (b0 & H & ->)%HS Hp. cbn [settled_as b_pf] in Hp.
    assert (Hw : exists a' b', bl !! a' = Some b' /\ a' + b_sz b' = a).
    { destruct (decide (a = x + n)) as [->|]; [by exists x, (Block n Raw p)|by apply (bo_prev _ _ _ OK _ _ H)]. }
    destruct Hw as (a' & b' & H' & E). exists a', (settled_as x n k a' b'). by rewrite L', H'.
Qed.

(** A new block above the arena. *)
Lemma ok_snoc c : 48 <= c -> c mod 16 = 0 -> e + c <= USER_TOP ->
  (forall a b, bl !! a = Some b -> a + b_sz b = e -> b_kd b <> Free) ->
  bl_ok s (e + c) (<[e := Block c Raw false]> bl).
Proof.
  intros Hc Hc16 Htop Hnf. destruct (bo_arena _ _ _ OK) as (? & ? & ? & He16). split.
  - split_and!; try lia. rewrite Z.add_mod, He16, Hc16 by lia. done.
  - intros a b H'. bl_in H'; [split_and!; (done || lia)|]. pose proof (bl_lookup_sub _ _ H'). split_and!; (tauto || lia).
  - intros a b a' b' Ha Ha' Hlt. bl_in Ha; bl_in Ha'; try lia.
    + pose proof (bl_lookup_sub _ _ Ha'). lia.
    + pose proof (bl_lookup_sub _ _ Ha). lia.
    + by apply (bo_apart _ _ _ OK _ _ _ _ Ha Ha').
  - intros a b Ha. bl_in Ha; [by left|right].
    destruct (bo_next _ _ _ OK _ _ Ha) as [Hae|(b' & Hb' & Hf)].
    + rewrite Hae, lookup_insert_eq. eexists. split; [done|]. specialize (Hnf _ _ Ha Hae).
      by destruct (b_kd b).
    + pose proof (bl_lookup_sub _ _ Hb'). exists b'. rewrite lookup_insert_ne by lia. done.
  - intros a b Ha Hp. bl_in Ha; [done|]. destruct (bo_prev _ _ _ OK _ _ Ha Hp) as (a' & b' & Ha' & E).
    pose proof (bl_lookup_sub _ _ Ha'). exists a', b'. rewrite lookup_insert_ne by lia. done.
Qed.

(** The top block grows. *)
Lemma ok_extend x n k p c : bl !! x = Some (Block n k p) -> x + n = e -> 0 <= c -> c mod 16 = 0 -> e + c <= USER_TOP ->
  bl_ok s (e + c) (<[x := Block (n + c) Raw p]> bl).
Proof.
  intros Hx He Hc Hc16 Htop. destruct (bo_arena _ _ _ OK) as (? & ? & ? & He16).
  pose proof (ok_to_raw _ _ _ _ Hx) as OK'. pose proof (bl_lookup_sub _ _ Hx) as Rx. cbn [b_sz] in Rx.
  assert (Hlast : forall a b, bl !! a = Some b -> a <> x -> a + b_sz b <= x).
  { intros a b H' Hne. pose proof (bl_lookup_sub _ _ H'). destruct (bl_cases OK _ _ _ _ Hx H') as [[? _]|?]; [done|].
    cbn [b_sz] in *. lia. }
  split.
  - split_and!; try lia. rewrite Z.add_mod, He16, Hc16 by lia. done.
  - intros a b Ha. bl_in Ha.
    + split_and!; try lia. rewrite Z.add_mod, Hc16 by lia. destruct Rx as (_ & _ & _ & -> & _). done.
    + pose proof (bl_lookup_sub _ _ Ha). split_and!; (tauto || lia).
  - intros a b a' b' Ha Ha' Hlt. bl_in Ha; bl_in Ha'; try lia.
    + pose proof (Hlast _ _ Ha' ltac:(done)). pose proof (bl_lookup_sub _ _ Ha'). lia.
    + by apply Hlast.
    + by apply (bo_apart _ _ _ OK _ _ _ _ Ha Ha').
  - intros a b Ha. bl_in Ha; [left; lia|right].
    pose proof (Hlast _ _ Ha ltac:(done)).
    destruct (bo_next _ _ _ OK' a b) as [Hae|(b' & Hb' & Hf)]; [by rewrite lookup_insert_ne|lia|].
    destruct (decide (a + b_sz b = x)) as [E|E].
    + rewrite E, lookup_insert_eq in *. eexists. split; [done|]. by injection Hb' as <-.
    + exists b'. rewrite lookup_insert_ne in * by done. done.
  - intros a b Ha Hp.
    assert (Hq : exists b0, bl !! a = Some b0 /\ b_pf b0 = true) by (bl_in Ha; eauto).
    destruct Hq as (b0 & Hb0 & Hp0). destruct (bo_prev _ _ _ OK _ _ Hb0 Hp0) as (a' & b' & Ha' & E).
    assert (a' <> x).
    { intros ->. pose proof (bl_lookup_sub _ _ Hb0). rewrite Hx in Ha'. injection Ha' as <-. cbn [b_sz] in E. lia. }
    exists a', b'. by rewrite lookup_insert_ne.
Qed.

End Changes.

(** ** Flag words *)

Definition flags_of (c : Z) (p : bool) : Z := c + 2 * Z.b2z p.

Ltac flag_cases Hc := intros Hc;
  match type of Hc with 0 <= ?c <= 1 => assert (c = 0 \/ c = 1) as [-> | ->] by lia end;
  match goal with p : bool |- _ => destruct p end; reflexivity.

Lemma flags_alloc c p : 0 <= c <= 1 -> has (flags_of c p) B_ALLOC = (c =? 1).
Proof. flag_cases Hc. Qed.
Lemma flags_prev c p : 0 <= c <= 1 -> has (flags_of c p) B_PREV = p.
Proof. flag_cases Hc. Qed.
Lemma flags_mmap c p : 0 <= c <= 1 -> has (flags_of c p) B_MMAP = false.
Proof. flag_cases Hc. Qed.
Lemma flags_set_prev c p : 0 <= c <= 1 -> Z.lor (flags_of c p) B_PREV = flags_of c true.
Proof. flag_cases Hc. Qed.
Lemma flags_clear_prev c p : 0 <= c <= 1 -> Z.land (flags_of c p) (SIZE_MAX - B_PREV) = flags_of c false.
Proof. flag_cases Hc. Qed.
Lemma flags_set_alloc c p : 0 <= c <= 1 -> Z.lor (flags_of c p) B_ALLOC = flags_of 1 p.
Proof. flag_cases Hc. Qed.
Lemma flags_clear_alloc c p : 0 <= c <= 1 -> Z.land (flags_of c p) (SIZE_MAX - B_ALLOC) = flags_of 0 p.
Proof. flag_cases Hc. Qed.
Lemma flags_cut c p : 0 <= c <= 1 ->
  Z.lor (Z.land (flags_of c p) (Z.lor B_PREV B_MMAP)) B_ALLOC = flags_of 1 p.
Proof. flag_cases Hc. Qed.
Lemma flags_range c p : 0 <= c <= 1 -> 0 <= flags_of c p < 2 ^ 64.
Proof. intros. unfold flags_of. destruct p; simpl Z.b2z; lia. Qed.

(** The busy blocks up to the flag of the block before. *)
Definition held (bl : gmap Z block) (a n : Z) (k : kind) : Prop := exists p, bl !! a = Some (Block n k p).

Definition same_busy (bl bl' : gmap Z block) : Prop :=
  forall a n k, k = Used \/ k = Stale -> held bl a n k <-> held bl' a n k.

Lemma same_busy_refl bl : same_busy bl bl.
Proof. by intros a n k _. Qed.

Lemma same_busy_trans bl1 bl2 bl3 : same_busy bl1 bl2 -> same_busy bl2 bl3 -> same_busy bl1 bl3.
Proof. intros H1 H2 a n k Hk. by rewrite (H1 a n k Hk), (H2 a n k Hk). Qed.

Lemma payload_held bl x : payload bl x <-> exists a n k, (k = Used \/ k = Stale) /\ held bl a n k /\ a + 16 <= x < a + n.
Proof.
  split.
  - intros (a & [n k p] & H & Hb & Hx). exists a, n, k. cbn [b_sz] in Hx. split_and!; [|by exists p|lia..].
    destruct k; try done; tauto.
  - intros (a & n & k & Hk & (p & H) & Hx). exists a, (Block n k p). split; [done|split; [|done]].
    by destruct Hk as [->| ->].
Qed.

Lemma same_busy_payload bl bl' x : same_busy bl bl' -> payload bl x <-> payload bl' x.
Proof.
  intros HS. rewrite !payload_held.
  split; intros (a & n & k & Hk & Hh & Hx); exists a, n, k; (split; [done|split; [by apply HS|done]]).
Qed.

(** Changing blocks that are not busy before or after. *)
Lemma same_busy_insert bl a b b' : bl !! a = Some b -> busy b = false -> busy b' = false ->
  same_busy bl (<[a := b']> bl).
Proof.
  intros Ha Hb Hb' x n k Hk. unfold held. destruct (decide (x = a)) as [->|Hne].
  - rewrite lookup_insert_eq, Ha. split; intros (p & [= ->]); exfalso; destruct Hk as [->| ->]; cbn in *; congruence.
  - by rewrite lookup_insert_ne.
Qed.

Lemma same_busy_delete bl a b : bl !! a = Some b -> busy b = false -> same_busy bl (delete a bl).
Proof.
  intros Ha Hb x n k Hk. unfold held. destruct (decide (x = a)) as [->|Hne].
  - rewrite lookup_delete_eq, Ha. split; [|by intros []]. intros (p & [= ->]). exfalso. destruct Hk as [->| ->]; cbn in *; congruence.
  - by rewrite lookup_delete_ne.
Qed.

Lemma same_busy_new bl a b : bl !! a = None -> busy b = false -> same_busy bl (<[a := b]> bl).
Proof.
  intros Ha Hb x n k Hk. unfold held. destruct (decide (x = a)) as [->|Hne].
  - rewrite lookup_insert_eq, Ha. split; [by intros []|]. intros (p & [= ->]). exfalso. destruct Hk as [->| ->]; cbn in *; congruence.
  - by rewrite lookup_insert_ne.
Qed.

Lemma same_busy_set_pf bl a p : same_busy bl (set_pf a p bl).
Proof.
  intros x n k _. unfold held, set_pf. destruct (decide (x = a)) as [->|Hne].
  - rewrite lookup_alter_eq. destruct (bl !! a) as [[n' k' p']|]; cbn; [|by split; intros []].
    split; intros (q & [= -> ->]); eauto.
  - by rewrite lookup_alter_ne.
Qed.

(** The free list has a node in every free block. *)
Definition is_free (bl : gmap Z block) (a : Z) : Prop := exists b, bl !! a = Some b /\ b_kd b = Free.

Definition link (bl : gmap Z block) (L : list Z) : Prop :=
  NoDup L /\ forall n, n ∈ L <-> is_free bl (n - 16).

Lemma link_same bl bl' L : link bl L -> (forall a, is_free bl' a <-> is_free bl a) -> link bl' L.
Proof. intros [Hnd Hl] H. split; [done|]. intros n. by rewrite Hl, H. Qed.

Lemma link_remove bl bl' L1 n L2 : link bl (L1 ++ n :: L2) ->
  (forall a, is_free bl' a <-> is_free bl a /\ a <> n - 16) -> link bl' (L1 ++ L2).
Proof.
  intros [Hnd Hl] H. apply NoDup_app in Hnd as (H1 & Hd1 & [Hd2 H2]%NoDup_cons). split.
  - apply NoDup_app. set_solver.
  - intros a. rewrite H, <- Hl. rewrite !elem_of_app, elem_of_cons. split.
    + intros [Ha|Ha]; (split; [tauto|]); intros E; replace a with n in Ha by lia; [by apply (Hd1 _ Ha); left|done].
    + intros [[?|[->|?]] Hne]; [tauto|lia|tauto].
Qed.

Lemma link_push bl bl' n L : link bl L -> ~ is_free bl (n - 16) ->
  (forall a, is_free bl' a <-> a = n - 16 \/ is_free bl a) -> link bl' (n :: L).
Proof.
  intros [Hnd Hl] Hn H. split.
  - apply NoDup_cons. split; [by rewrite Hl|done].
  - intros a. rewrite H, elem_of_cons, Hl. split; intros [?|?]; try tauto; left; lia.
Qed.

(** Blocks that are not free, before and after a change. *)
Lemma is_free_insert bl a b : (forall b', bl !! a = Some b' -> b_kd b' <> Free) -> b_kd b <> Free ->
  forall x, is_free (<[a := b]> bl) x <-> is_free bl x.
Proof.
  intros Ha Hb x. unfold is_free. destruct (decide (x = a)) as [->|Hne].
  - rewrite lookup_insert_eq. split; [intros (? & [= <-] & ?); done|]. intros (b' & Hb' & ?). by destruct (Ha b').
  - by rewrite lookup_insert_ne.
Qed.

(** The tiling in memory *)
Section Rep.
Context {K : Type} {UB : UserBytes K} {rw : K -> Z -> Prop} {env : K -> K -> Prop} {UL : UserBytesLaws K rw env}.
Context {UK : UserKernel K}.

Record brep (k : K) (a : Z) (b : block) : Prop := {
  br_size : b_kd b <> Stale -> load64 k a = Some (b_sz b);
  br_flags : exists c, load64 k (a + 8) = Some (flags_of c (b_pf b)) /\
    match b_kd b with Used | Stale => c = 1 | Free => c = 0 | Raw => 0 <= c <= 1 end;
  br_foot : b_kd b = Free ->
    load64 k (a + b_sz b - 16) = Some (b_sz b) /\ load64 k (a + b_sz b - 8) = load64 k (a + 8)
}.

Definition rep (k : K) (bl : gmap Z block) : Prop := forall a b, bl !! a = Some b -> brep k a b.

(** The bytes of a header, or of the footer of a free block. *)
Definition meta (a : Z) (b : block) (x : Z) : Prop :=
  a <= x < a + 16 \/ b_kd b = Free /\ a + b_sz b - 16 <= x < a + b_sz b.

Lemma brep_touch k k' T a b : touch (env := env) k k' T -> (forall x, meta a b x -> ~ T x) -> brep k a b -> brep k' a b.
Proof.
  intros HT Hm [H1 (c & H2 & H2') H3].
  assert (Hl : forall w, (forall x, w <= x < w + 8 -> meta a b x) -> load64 k' w = load64 k w).
  { intros w Hw. apply (load64_touch _ _ _ _ HT). intros x Hx. by apply Hm, Hw. }
  assert (E8 : load64 k' (a + 8) = load64 k (a + 8)) by (apply Hl; intros x Hx; left; lia).
  split.
  - intros Hk. rewrite <- (H1 Hk). apply Hl. intros x Hx. left. lia.
  - exists c. by rewrite E8.
  - intros Hk. rewrite E8. destruct (H3 Hk) as [<- <-]. split; apply Hl; intros x Hx; right; (split; [done|lia]).
Qed.

(** Bytes of the arena outside the payloads in use. *)
Definition quiet (s e : Z) (bl : gmap Z block) (k k' : K) : Prop :=
  touch (env := env) k k' (fun x => s <= x < e /\ ~ payload bl x).


(** Inside a block that is not in use. *)
Definition interior (bl : gmap Z block) (n : Z) : Prop :=
  exists a b, bl !! a = Some b /\ busy b = false /\ a + 16 <= n /\
    n + 16 <= a + b_sz b - (if decide (b_kd b = Free) then 16 else 0).

Record arena (s e hd : Z) (k : K) (bl : gmap Z block) (L : list Z) : Prop := {
  ar_tiles : bl_ok s e bl;
  ar_rw : rw_range (rw := rw) k s (e - s);
  ar_rep : rep k bl;
  ar_link : link bl L;
  ar_seg : seg k 0 hd L 0
}.

Lemma link_spaced s e bl L : bl_ok s e bl -> link bl L -> spaced L.
Proof.
  intros OK [Hnd Hl]. split; [done|]. intros n (b & Hb & _)%Hl.
  pose proof (bo_range _ _ _ OK _ _ Hb) as (? & _ & _ & _ & Hm). pose proof (bo_arena _ _ _ OK).
  split; [|lia]. Z.div_mod_to_equations. lia.
Qed.

Lemma free_interior s e bl n b : bl_ok s e bl -> bl !! (n - 16) = Some b -> b_kd b = Free -> interior bl n.
Proof.
  intros OK Hb Hk. pose proof (bo_range _ _ _ OK _ _ Hb). exists (n - 16), b. split_and!; [done| |lia|].
  - unfold busy. by rewrite Hk.
  - rewrite decide_True by done. lia.
Qed.

Lemma interior_range s e bl n : bl_ok s e bl -> interior bl n -> s <= n /\ n + 16 <= e.
Proof.
  intros OK (a & b & Hb & _ & ? & Hn). pose proof (bo_range _ _ _ OK _ _ Hb). destruct (decide _); lia.
Qed.

Lemma interior_payload s e bl n x : bl_ok s e bl -> interior bl n -> n <= x < n + 16 -> ~ payload bl x.
Proof.
  intros OK (a & b & Hb & Hf & ? & Hn) Hx. apply (payload_free OK a b); [done..|].
  destruct (decide _); lia.
Qed.

Lemma interior_meta s e bl n x a b : bl_ok s e bl -> interior bl n -> n <= x < n + 16 -> bl !! a = Some b -> ~ meta a b x.
Proof.
  intros OK (a' & b' & Hb' & _ & ? & Hn) Hx Hb Hm. pose proof (bo_range _ _ _ OK _ _ Hb).
  pose proof (bo_range _ _ _ OK _ _ Hb').
  assert (Hx' : a' + 16 <= x < a' + b_sz b') by (destruct (decide (b_kd b' = Free)); lia).
  destruct (bl_cases OK _ _ _ _ Hb Hb') as [[-> ->]|Hd].
  - destruct Hm as [?|[Hk ?]]; [lia|]. rewrite decide_True in Hn by done. lia.
  - destruct Hm as [?|[Hk ?]]; lia.
Qed.

(** [fl_unlink] in the arena. *)
Lemma unlink_arena (h : heap K) s e bl L1 n L2 : bl_ok s e bl -> rw_range (rw := rw) (world h) s (e - s) ->
  rep (world h) bl -> spaced (L1 ++ n :: L2) -> (forall m, m ∈ L1 ++ n :: L2 -> interior bl m) ->
  seg (world h) 0 (free_head h) (L1 ++ n :: L2) 0 ->
  exists hd k', fl_unlink n h = Val (tt, with_world (with_head h hd) k') /\
    touch (env := env) (world h) k' (node_bytes (L1 ++ n :: L2)) /\
    rep k' bl /\ quiet s e bl (world h) k' /\ rw_range (rw := rw) k' s (e - s) /\ seg k' 0 hd (L1 ++ L2) 0.
Proof.
  intros OK Hrw Hrep HL Hin Hseg.
  destruct (fl_unlink_spec (rw := rw) (env := env) h L1 n L2 HL) as (hd & k' & E & T & S'); [|done|].
  { intros m Hm x Hx. apply Hrw. pose proof (interior_range _ _ _ _ OK (Hin m Hm)). lia. }
  exists hd, k'. split; [done|]. split; [done|]. split; [|split; [|split; [|done]]].
  - intros a b Hb. eapply brep_touch; [exact T| |by apply Hrep]. intros x Hm (m & HmL & Hx).
    exact (interior_meta _ _ _ _ _ _ _ OK (Hin m HmL) Hx Hb Hm).
  - eapply touch_mono; [exact T|]. intros x (m & HmL & Hx). split.
    + pose proof (interior_range _ _ _ _ OK (Hin m HmL)). lia.
    + exact (interior_payload _ _ _ _ _ OK (Hin m HmL) Hx).
  - destruct T as [T _]. by apply (rw_range_env _ _ _ _ T).
Qed.

Lemma arena_quiet_trans s e bl bl' k1 k2 k3 : same_busy bl bl' ->
  quiet s e bl k1 k2 -> quiet s e bl' k2 k3 -> quiet s e bl k1 k3.
Proof.
  intros HS H1 H2. eapply touch_trans; [exact H1|]. eapply touch_mono; [exact H2|].
  intros x. cbn beta. by rewrite (same_busy_payload _ _ x HS).
Qed.

Lemma rep_lookup k bl a n kd p : rep k bl -> bl !! a = Some (Block n kd p) -> kd <> Stale ->
  load64 k a = Some n /\ exists c, 0 <= c <= 1 /\ load64 k (a + 8) = Some (flags_of c p) /\
    (kd = Free -> c = 0) /\ (kd = Used -> c = 1).
Proof.
  intros HR H Hk. destruct (HR _ _ H) as [H1 (c & H2 & Hc) _]. cbn [b_kd b_sz b_pf] in *.
  split; [by apply H1|]. exists c. split_and!; destruct kd; try done; lia.
Qed.

(** A block of the new map is as before, or new and represented. *)
Lemma rep_insert k k' T bl a b : rep k bl -> touch (env := env) k k' T ->
  (forall a' b', bl !! a' = Some b' -> a' <> a -> forall x, meta a' b' x -> ~ T x) ->
  brep k' a b -> rep k' (<[a := b]> bl).
Proof.
  intros HR HT HM Hb a' b' H. bl_in H; [done|]. eapply brep_touch; [exact HT| |by apply HR].
  intros x. by apply HM.
Qed.

Lemma rep_delete k bl a : rep k bl -> rep k (delete a bl).
Proof. intros HR a' b' H. bl_in H. by apply HR. Qed.

(** A store in the arena. *)
Lemma arena_st (h : heap K) s e a v : rw_range (rw := rw) (world h) s (e - s) -> s <= a -> a + 8 <= e -> 0 <= v < 2 ^ 64 ->
  exists k', st a v h = Val (tt, with_world h k') /\ touch (env := env) (world h) k' (fun x => a <= x < a + 8) /\
    load64 k' a = Some v /\ rw_range (rw := rw) k' s (e - s).
Proof.
  intros Hw Hs He Hv. destruct (st_val (rw := rw) (env := env) h a v) as (k' & E & T & L); [|done|].
  { intros x Hx. apply Hw. lia. }
  exists k'. split_and!; [done..|]. destruct T as [T _]. by apply (rw_range_env _ _ _ _ T).
Qed.

End Rep.
