(* ===== verification/MallocOps.v ===== *)
(** * What the parts of the allocator do to the arena

  One lemma per static function of [malloc.c]: it runs without a fault from a
  sound arena ([arena] of [MallocHeap]), leaves a sound arena, and changes no byte
  of a payload in use. *)
From S2P Require Import Prelude PhysMem UserWorld LibcMem Malloc MallocHeap.

Section Ops.
Context {K : Type} {UB : UserBytes K} {rw : K -> Z -> Prop} {env : K -> K -> Prop} {UL : UserBytesLaws K rw env}.
Context {UK : UserKernel K}.

Notation arena := (arena (rw := rw)).
Notation quiet := (quiet (env := env)).
Notation touch := (touch (env := env)).

(** The block [x] may absorb its successor. *)
Lemma absorb_next_spec s e hd bc k bl L s0 x n p : arena s e hd k bl L -> bl !! x = Some (Block n Raw p) ->
  (forall b, bl !! (x + n) = Some b -> b_kd b = Used \/ b_kd b = Free) ->
  exists hd' k' bl' L' n', absorb_next x (Heap s0 e hd bc k) = Val (tt, Heap s0 e hd' bc k') /\
    arena s e hd' k' bl' L' /\ quiet s e bl k k' /\ same_busy bl bl' /\
    bl' !! x = Some (Block n' Raw p) /\ n <= n' /\ load64 k' (x + 8) = load64 k (x + 8) /\
    (forall b, bl' !! (x + n') = Some b -> b_kd b <> Free) /\
    (forall a b, a <> x -> bl' !! a = Some b -> bl !! a = Some b).
Proof.
  intros [OK Hrw Hrep Hlink Hseg] Hx Hnext. pose proof (bo_range _ _ _ OK _ _ Hx) as Rx. cbn [b_sz] in Rx.
  pose proof (bo_arena _ _ _ OK) as RA. unfold USER_TOP in RA.
  destruct (rep_lookup _ _ _ _ _ _ Hrep Hx ltac:(done)) as (Hs & c & Hc & Hf & _).
  unfold absorb_next, mbind. unfold M_bind at 1. run_ld Hs. unfold M_bind at 1, get. cbv beta iota.
  cbn [a_end]. destruct (Z.ltb_spec (x + n) e) as [Hlt|Hge].
  2: { exists hd, k, bl, L, n. split; [done|]. split_and!; try done; try apply touch_refl.
       intros b Hb. pose proof (bo_range _ _ _ OK _ _ Hb). lia. }
  destruct (bo_next _ _ _ OK _ _ Hx) as [?|([m kd q] & Hy & _)]; cbn [b_sz] in *; [lia|].
  specialize (Hnext _ Hy) as Hk. cbn [b_kd] in Hk.
  destruct (rep_lookup _ _ _ _ _ _ Hrep Hy ltac:(by destruct Hk as [->| ->])) as (Ht & d & Hd & Hg & HdF & HdU).
  pose proof (bo_range _ _ _ OK _ _ Hy) as Ry. cbn [b_sz] in Ry.
  unfold M_bind at 1. run_ld Hg. rewrite flags_alloc by done.
  destruct Hk as [->| ->].
  { rewrite HdU by done. cbn. exists hd, k, bl, L, n. split; [done|]. split_and!; try done; try apply touch_refl.
    intros b Hb. rewrite Hy in Hb. by injection Hb as <-. }
  rewrite HdF by done. cbn [Z.eqb negb].
  unfold M_bind at 1. run_ld Hs. unfold M_bind at 1. run_ld Ht. rewrite u64_id by lia.
  unfold M_bind at 1.
  destruct (arena_st (rw := rw) (env := env) (Heap s0 e hd bc k) s e (hsize x) (n + m)) as (k1 & E1 & T1 & L1 & W1);
    [done|unfold hsize; lia..|]. rewrite E1. clear E1. state_simpl. unfold hsize in *.
  assert (OK' : bl_ok s e (<[x := Block (n + m) Raw p]> (delete (x + n) bl))) by by eapply ok_merge.
  assert (Hmeta : forall a b, bl !! a = Some b -> a <> x -> forall y, meta a b y -> ~ (x <= y < x + 8)).
  { intros a b Hb Hne y Hm Hy'. destruct (bl_cases OK _ _ _ _ Hx Hb) as [[? _]|Ha]; [done|]. cbn [b_sz] in Ha.
    pose proof (bo_range _ _ _ OK _ _ Hb). destruct Hm as [?|[_ ?]]; lia. }
  assert (Hf1 : load64 k1 (x + 8) = load64 k (x + 8)) by (apply (load64_st_ne _ _ _ _ T1); lia).
  assert (Hrep1 : rep k1 (<[x := Block (n + m) Raw p]> (delete (x + n) bl))).
  { eapply rep_insert; [by apply rep_delete|exact T1| |].
    - intros a b Hb Hne. bl_in Hb. by apply Hmeta.
    - split; cbn [b_kd b_sz b_pf]; [done| |done]. exists c. rewrite Hf1. done. }
  destruct Hlink as [Hnd Hl].
  assert (HyL : x + n + 16 ∈ L) by (apply Hl; rewrite Z.add_simpl_r; by eexists).
  apply list_elem_of_split in HyL as (La & Lb & ->).
  assert (HL : spaced (La ++ x + n + 16 :: Lb)) by (eapply link_spaced; [exact OK|by split]).
  assert (Hin : forall a, a ∈ La ++ x + n + 16 :: Lb -> interior (<[x := Block (n + m) Raw p]> (delete (x + n) bl)) a).
  { intros a (b & Hb & Hkb)%Hl. destruct (decide (a - 16 = x + n)) as [E|E].
    - rewrite E, Hy in Hb. injection Hb as <-. exists x, (Block (n + m) Raw p). rewrite lookup_insert_eq, decide_False by done. cbn [b_sz]. split_and!; (done || lia).
    - eapply (free_interior s e _ _ b); [done| |done].
      rewrite lookup_insert_ne, lookup_delete_ne by (intros ?; simplify_eq; congruence). done. }
  assert (Hseg1 : seg k1 0 hd (La ++ x + n + 16 :: Lb) 0).
  { eapply seg_touch; [exact T1| |exact Hseg]. intros y (a & Ha & Hya) Hyx.
    apply Hl in Ha as (b & Hb & Hkb). apply (interior_meta s e bl a y x (Block n Raw p) OK); try done; [|left; lia].
    by eapply free_interior. }
  destruct (unlink_arena (rw := rw) (env := env) (Heap s0 e hd bc k1) s e _ La (x + n + 16) Lb OK' W1 Hrep1 HL Hin Hseg1)
    as (hd' & k' & E2 & T2 & Hrep2 & Q2 & W2 & S2). unfold FN, HEADER_SZ. rewrite E2. clear E2. state_simpl.
  exists hd', k', (<[x := Block (n + m) Raw p]> (delete (x + n) bl)), (La ++ Lb), (n + m).
  assert (Hsb : same_busy bl (<[x := Block (n + m) Raw p]> (delete (x + n) bl))).
  { eapply same_busy_trans; [by eapply same_busy_delete|]. eapply (same_busy_insert _ x (Block n Raw p)); [|done..].
    by rewrite lookup_delete_ne by lia. }
  split; [done|]. split_and!.
  - split; [done|done|done| |done]. eapply link_remove; [by split|]. intros a. rewrite Z.add_simpl_r. split.
    + intros (b & Hb & Hkb). bl_in Hb; [done|]. split; [by exists b|done].
    + intros [(b & Hb & Hkb) Hne]. exists b. split; [|done].
      rewrite lookup_insert_ne, lookup_delete_ne; [done|done|]. intros <-. rewrite Hx in Hb. by injection Hb as <-.
  - eapply (arena_quiet_trans _ _ bl bl); [apply same_busy_refl| |].
    + eapply touch_mono; [exact T1|]. intros y Hy'. cbn beta in Hy'. split; [lia|]. apply (payload_header OK x _ y Hx). lia.
    + eapply touch_mono; [exact Q2|]. intros y. cbn beta. by rewrite (same_busy_payload _ _ y Hsb).
  - done.
  - by rewrite lookup_insert_eq.
  - lia.
  - rewrite <- Hf1. apply (load64_touch _ _ _ _ T2). intros y Hy' (a & Ha & Hya).
    eapply (interior_meta _ _ _ _ y x _ OK' (Hin _ Ha) Hya); [by rewrite lookup_insert_eq|left; lia].
  - intros b Hb. rewrite lookup_insert_ne, lookup_delete_ne in Hb by lia. rewrite Z.add_assoc in Hb.
    destruct (bo_next _ _ _ OK _ _ Hy) as [?|(b' & Hb' & Hfo)]; cbn [b_sz] in *.
    + pose proof (bo_range _ _ _ OK _ _ Hb). lia.
    + rewrite Hb' in Hb. injection Hb as <-. by destruct Hfo.
  - intros a b Ha Hb. by bl_in Hb.
Qed.

(** [mirror]: the footer of [x] becomes a copy of its header. *)
Lemma mirror_spec (h : heap K) s e x n f : rw_range (rw := rw) (world h) s (e - s) ->
  0 <= s <= x -> x + n <= e -> 48 <= n -> e <= USER_TOP ->
  load64 (world h) x = Some n -> load64 (world h) (x + 8) = Some f ->
  exists k', mirror x h = Val (tt, with_world h k') /\
    touch (world h) k' (fun y => x + n - 16 <= y < x + n) /\
    load64 k' (x + n - 16) = Some n /\ load64 k' (x + n - 8) = Some f /\ rw_range (rw := rw) k' s (e - s).
Proof.
  intros Hrw Hs He Hn Ht Hl Hf. destruct h as [s0 e0 hd bc k]. unfold mirror, FOOT, mbind. state_simpl.
  unfold M_bind at 1. unfold M_bind at 1. run_ld Hl. cbv [mret M_ret]. unfold M_bind at 1. run_ld Hl.
  unfold HEADER_SZ, hsize, hflags, USER_TOP in *.
  destruct (arena_st (rw := rw) (env := env) (Heap s0 e0 hd bc k) s e (x + n - 16) n) as (k1 & E1 & T1 & L1 & W1);
    [done|lia..|]. state_simpl. unfold M_bind at 1. rewrite E1. clear E1. state_simpl.
  assert (Hf1 : load64 k1 (x + 8) = Some f) by (rewrite <- Hf; apply (load64_st_ne _ _ _ _ T1); lia).
  unfold M_bind at 1. run_ld Hf1.
  destruct (arena_st (rw := rw) (env := env) (Heap s0 e0 hd bc k1) s e (x + n - 16 + 8) f) as (k2 & E2 & T2 & L2 & W2);
    [done|lia|lia|by eapply load64_range|]. state_simpl. rewrite E2. clear E2. state_simpl.
  exists k2. split_and!; [done| | | |done].
  - eapply touch_trans; (eapply touch_mono; [eassumption|]); intros y Hy; cbn beta in Hy; lia.
  - rewrite <- L1. apply (load64_st_ne _ _ _ _ T2). lia.
  - rewrite <- L2. f_equal. lia.
Qed.

(** The four stores that put a node in front of the list. *)
Lemma push_node (h : heap K) s e n L : rw_range (rw := rw) (world h) s (e - s) -> spaced (n :: L) ->
  (forall m, m ∈ n :: L -> s <= m /\ m + 16 <= e) -> e <= USER_TOP ->
  seg (world h) 0 (free_head h) L 0 ->
  exists k1 k2, st (nprev n) 0 h = Val (tt, with_world h k1) /\
    st (nnext n) (free_head h) (with_world h k1) = Val (tt, with_world h k2) /\
    exists k', (if negb (free_head h =? 0) then st (nprev (free_head h)) n else skip) (with_world h k2) =
      Val (tt, with_world h k') /\
    touch (world h) k' (node_bytes (n :: L)) /\ seg k' 0 n (n :: L) 0 /\ rw_range (rw := rw) k' s (e - s).
Proof.
  intros Hrw HL Hin Ht Hseg. destruct h as [s0 e0 hd bc k]. state_simpl. unfold nprev, nnext, USER_TOP in *.
  destruct (Hin n ltac:(by left)) as [Hn1 Hn2]. destruct (proj2 HL n ltac:(by left)) as [_ Hn0].
  assert (HL' : spaced L) by (change (n :: L) with ([n] ++ L) in HL; by apply spaced_app in HL as (_ & ? & _)).
  assert (Hhd : hd = 0 /\ L = [] \/ 0 < hd < 2 ^ 64 /\ hd <> n /\ hd ∈ L /\ s <= hd /\ hd + 16 <= e).
  { destruct L as [|m L']; [by left|right]. destruct Hseg as [-> _]. destruct (Hin m ltac:(right; by left)).
    destruct HL' as [_ Hp]. destruct (Hp m ltac:(by left)). split_and!; try lia; [|by left].
    intros ->. destruct HL as [[Hd _]%NoDup_cons _]. apply Hd. by left. }
  assert (H0 : 0 <= hd < 2 ^ 64) by (destruct Hhd as [[-> _]|?]; lia).
  destruct (arena_st (rw := rw) (env := env) (Heap s0 e0 hd bc k) s e n 0) as (k1 & E1 & T1 & L1 & W1); [done|lia..|].
  destruct (arena_st (rw := rw) (env := env) (Heap s0 e0 hd bc k1) s e (n + 8) hd) as (k2 & E2 & T2 & L2 & W2); [done|lia..|].
  state_simpl. exists k1, k2. split_and!; [done..|].
  assert (T12 : touch k k2 (fun y => n <= y < n + 16)).
  { eapply touch_trans; (eapply touch_mono; [eassumption|]); intros y Hy; cbn beta in Hy; lia. }
  assert (Hd : forall y, node_bytes L y -> ~ (n <= y < n + 16)).
  { intros y Hy Hn. apply (spaced_bytes [n] L y HL); [|done]. exists n. split; [by left|done]. }
  assert (S2 : seg k2 0 hd L 0) by (eapply seg_touch; [exact T12|exact Hd|done]).
  assert (L12 : load64 k2 n = Some 0) by (rewrite <- L1; apply (load64_st_ne _ _ _ _ T2); lia).
  assert (HT : touch k k2 (node_bytes (n :: L))).
  { eapply touch_mono; [exact T12|]. intros y Hy. exists n. split; [by left|done]. }
  destruct Hhd as [[-> ->]|(Hh & Hne & HhL & Hh1 & Hh2)].
  - exists k2. cbn [Z.eqb negb]. split; [done|]. split; [done|]. split; [|done].
    split_and!; [done..|]. by exists 0.
  - rewrite (proj2 (Z.eqb_neq hd 0)) by lia. cbn [negb].
    destruct (arena_st (rw := rw) (env := env) (Heap s0 e0 hd bc k2) s e hd n) as (k3 & E3 & T3 & L3 & W3); [done|lia..|].
    state_simpl. exists k3. split; [done|]. split; [|split; [|done]].
    + eapply touch_trans; [exact HT|]. eapply touch_mono; [exact T3|]. intros y Hy. cbn beta in Hy.
      exists hd. split; [by right|lia].
    + destruct (spaced_apart _ n hd HL) as [?|?]; [by left|by right|done|].
      split; [done|]. split; [rewrite <- L12; apply (load64_st_ne _ _ _ _ T3); lia|].
      exists hd. split; [rewrite <- L2; apply (load64_st_ne _ _ _ _ T3); lia|].
      destruct L as [|m L']; [by apply not_elem_of_nil in HhL|]. pose proof S2 as [<- _].
      eapply seg_set_prev; [done| |done|exact S2]. by rewrite Z.add_0_r.
Qed.

Lemma nodes_interior s e bl L m : bl_ok s e bl -> link bl L -> m ∈ L -> interior bl m.
Proof. intros OK [_ Hl] (b & Hb & Hk)%Hl. by eapply free_interior. Qed.

Lemma raw_interior s e bl x n p m : bl_ok s e bl -> bl !! x = Some (Block n Raw p) -> x + 16 <= m -> m + 16 <= x + n ->
  interior bl m.
Proof. intros OK Hx H1 H2. exists x, (Block n Raw p). rewrite decide_False by done. cbn [b_sz]. split_and!; (done || lia). Qed.

(** Stores inside blocks that are not in use keep what is represented. *)
Lemma rep_interior s e bl k k' T : bl_ok s e bl -> rep k bl -> touch k k' T ->
  (forall y, T y -> exists m, interior bl m /\ m <= y < m + 16) -> rep k' bl.
Proof.
  intros OK HR HT Hin a b Hb. eapply brep_touch; [exact HT| |by apply HR].
  intros y Hm (m & Him & Hy)%Hin. exact (interior_meta _ _ _ _ _ _ _ OK Him Hy Hb Hm).
Qed.

Lemma quiet_interior s e bl k k' T : bl_ok s e bl -> touch k k' T ->
  (forall y, T y -> exists m, interior bl m /\ m <= y < m + 16) -> quiet s e bl k k'.
Proof.
  intros OK HT Hin. eapply touch_mono; [exact HT|]. intros y (m & Him & Hy)%Hin.
  pose proof (interior_range _ _ _ _ OK Him). split; [lia|]. exact (interior_payload _ _ _ _ _ OK Him Hy).
Qed.

(** [if (nx < a_end) H(nx)->flags = g(H(nx)->flags)] after the block [x]. *)
Lemma tell_next s e hd bc k bl s0 x n kx px (g : Z -> Z) v :
  bl_ok s e bl -> rw_range (rw := rw) k s (e - s) -> rep k bl -> bl !! x = Some (Block n kx px) ->
  (forall b, bl !! (x + n) = Some b -> b_kd b = Free -> b_pf b = v) ->
  (forall c q, 0 <= c <= 1 -> g (flags_of c q) = flags_of c v) ->
  exists k', (if x + n <? e then M_bind _ _ (fun f => st (hflags (x + n)) (g f)) (ld (hflags (x + n))) else skip)
      (Heap s0 e hd bc k) = Val (tt, Heap s0 e hd bc k') /\
    rep k' (set_pf (x + n) v bl) /\ rw_range (rw := rw) k' s (e - s) /\
    touch k k' (fun y => x + n + 8 <= y < x + n + 16 /\ is_Some (bl !! (x + n))).
Proof.
  intros OK Hrw HR Hx Hfree Hg. pose proof (bo_range _ _ _ OK _ _ Hx) as Rx. cbn [b_sz] in Rx.
  destruct (Z.ltb_spec (x + n) e) as [Hlt|Hge].
  2: { exists k. split_and!; [done| |done|apply touch_refl]. intros a b Hb. apply lookup_set_pf in Hb as [[-> (q & Hb & _)]|[_ Hb]].
       - pose proof (bo_range _ _ _ OK _ _ Hb). lia.
       - by apply HR. }
  destruct (bo_next _ _ _ OK _ _ Hx) as [?|(b & Hb & _)]; cbn [b_sz] in *; [lia|].
  destruct (HR _ _ Hb) as [H1 (c & H2 & Hc) H3]. pose proof (bo_range _ _ _ OK _ _ Hb) as Rb.
  assert (Hc' : 0 <= c <= 1) by (destruct (b_kd b); lia).
  unfold M_bind. unfold hflags. run_ld H2. rewrite Hg by done.
  destruct (arena_st (rw := rw) (env := env) (Heap s0 e hd bc k) s e (x + n + 8) (flags_of c v)) as (k' & -> & T & L & W);
    [done|lia|lia|by apply flags_range|]. state_simpl. exists k'. split_and!; [done| |done|].
  - intros a b' Hb'. apply lookup_set_pf in Hb' as [[-> (q & Hq & Ev)]|[Hne Hb']].
    + rewrite Hb in Hq. injection Hq as ->. cbn [b_sz b_kd b_pf] in *. split.
      * intros Hk. rewrite <- (H1 Hk). apply (load64_st_ne _ _ _ _ T). lia.
      * exists c. rewrite Ev. by split.
      * intros Hk. destruct (H3 Hk) as [H4 H5]. specialize (Hfree _ Hb Hk). cbn [b_pf] in Hfree.
        rewrite (load64_st_ne _ _ _ (x + n + b_sz b' - 16) T), (load64_st_ne _ _ _ (x + n + b_sz b' - 8) T) by lia.
        rewrite L, H4, H5, H2, Hfree. done.
    + eapply brep_touch; [exact T| |by apply HR]. intros y Hm Hy. pose proof (bo_range _ _ _ OK _ _ Hb').
      destruct (bl_cases OK _ _ _ _ Hb Hb') as [[? _]|?]; [congruence|]. destruct Hm as [?|[_ ?]]; lia.
  - eapply touch_mono; [exact T|]. intros y Hy. cbn beta in Hy. split; [lia|by eexists].
Qed.

(** The map after [settle], from what is known of [x] and of its successor. *)
Lemma rep_settle bl k x n p kd : bl !! x = Some (Block n Raw p) -> 0 < n ->
  rep k (set_pf (x + n) (bool_decide (kd = Free)) bl) /\ brep k x (Block n kd p) ->
  rep k (settle (bl := bl) x n kd p).
Proof.
  intros Hx Hn [HR Hb] a b H. unfold settle in H. apply lookup_set_pf in H as [[-> (q & H & Ep)]|[Hne H]].
  - apply HR, lookup_set_pf. left. split; [done|]. exists q. by rewrite lookup_insert_ne in H by lia.
  - bl_in H; [done|]. apply HR, lookup_set_pf. by right.
Qed.

Lemma is_free_settle bl x n p a : 0 < n -> bl !! x = Some (Block n Raw p) ->
  is_free (settle (bl := bl) x n Free p) a <-> a = x \/ is_free bl a.
Proof.
  intros Hn Hx. unfold is_free. rewrite lookup_settle by done. split.
  - intros (b & (b0 & H & ->)%fmap_Some & Hk). cbn [settled_as b_kd] in Hk.
    destruct (decide (a = x)); [by left|right; by exists b0].
  - intros [->|(b & H & Hk)].
    + rewrite Hx. eexists. split; [done|]. cbn [settled_as b_kd]. by rewrite decide_True.
    + rewrite H. eexists. split; [done|]. cbn [settled_as b_kd]. by destruct (decide (a = x)).
Qed.

Lemma fl_insert_spec s e hd bc k bl L s0 x n : arena s e hd k bl L -> bl !! x = Some (Block n Raw false) ->
  load64 k (x + 8) = Some 0 -> (forall b, bl !! (x + n) = Some b -> b_kd b <> Free) ->
  exists k', fl_insert x (Heap s0 e hd bc k) = Val (tt, Heap s0 e (x + 16) bc k') /\
    arena s e (x + 16) k' (settle (bl := bl) x n Free false) (x + 16 :: L) /\
    quiet s e bl k k' /\ same_busy bl (settle (bl := bl) x n Free false).
Proof.
  intros [OK Hrw HR Hlink Hseg] Hx Hf0 Hnf. pose proof (bo_range _ _ _ OK _ _ Hx) as Rx. cbn [b_sz] in Rx.
  pose proof (bo_arena _ _ _ OK) as RA. unfold USER_TOP in RA.
  destruct (rep_lookup _ _ _ _ _ _ HR Hx ltac:(done)) as (Hs & _).
  assert (Hxf : ~ is_free bl (x + 16 - 16)).
  { rewrite Z.add_simpl_r. intros (b & Hb & Hk). rewrite Hx in Hb. by injection Hb as <-. }
  assert (HL : spaced (x + 16 :: L)).
  { pose proof (link_spaced _ _ _ _ OK Hlink) as [Hnd Hal]. split.
    - apply NoDup_cons. split; [|done]. destruct Hlink as [_ Hl]. by rewrite Hl.
    - intros m [->|Hm]%elem_of_cons; [|by apply Hal]. split; [|lia]. Z.div_mod_to_equations; lia. }
  assert (Hin : forall m, m ∈ x + 16 :: L -> interior bl m).
  { intros m [->|Hm]%elem_of_cons; [eapply raw_interior; [done..|lia|lia]|by eapply nodes_interior]. }
  destruct (push_node (Heap s0 e hd bc k) s e (x + 16) L Hrw HL) as (k1 & k2 & E1 & E2 & k3 & E3 & T3 & S3 & W3);
    [intros m Hm; exact (interior_range _ _ _ _ OK (Hin m Hm))|unfold USER_TOP; lia|done|]. state_simpl.
  assert (Hin3 : forall y, node_bytes (x + 16 :: L) y -> exists m, interior bl m /\ m <= y < m + 16).
  { intros y (m & Hm & Hy). exists m. auto. }
  pose proof (rep_interior _ _ _ _ _ _ OK HR T3 Hin3) as HR3.
  pose proof (quiet_interior _ _ _ _ _ _ OK T3 Hin3) as Q3.
  assert (Hm3 : forall y, meta x (Block n Raw false) y -> ~ node_bytes (x + 16 :: L) y).
  { intros y Hm (m & Hmi & Hy)%Hin3. exact (interior_meta _ _ _ _ _ _ _ OK Hmi Hy Hx Hm). }
  assert (Hs3 : load64 k3 x = Some n).
  { rewrite <- Hs. apply (load64_touch _ _ _ _ T3). intros y Hy. apply Hm3. left. lia. }
  assert (Hf3 : load64 k3 (x + 8) = Some 0).
  { rewrite <- Hf0. apply (load64_touch _ _ _ _ T3). intros y Hy. apply Hm3. left. lia. }
  destruct (mirror_spec (Heap s0 e (x + 16) bc k3) s e x n 0) as (k4 & E4 & T4 & L4 & L4' & W4);
    [done|lia|lia|lia|unfold USER_TOP; lia|done|done|]. state_simpl.
  assert (Hin4 : forall y, x + n - 16 <= y < x + n -> exists m, interior bl m /\ m <= y < m + 16).
  { intros y Hy. exists (x + n - 16). split; [eapply raw_interior; [done..|lia|lia]|lia]. }
  pose proof (rep_interior _ _ _ _ _ _ OK HR3 T4 Hin4) as HR4.
  pose proof (quiet_interior _ _ _ _ _ _ OK T4 Hin4) as Q4.
  destruct (tell_next s e (x + 16) bc k4 bl s0 x n Raw false (fun f => Z.lor f B_PREV) true OK W4 HR4 Hx)
    as (k5 & E5 & HR5 & W5 & T5).
  { intros b Hb Hk. by destruct (Hnf b Hb). }
  { intros c q Hc. by apply flags_set_prev. }
  assert (Hs4 : load64 k4 x = Some n) by (rewrite <- Hs3; apply (load64_touch _ _ _ _ T4); lia).
  assert (Hf4 : load64 k4 (x + 8) = Some 0) by (rewrite <- Hf3; apply (load64_touch _ _ _ _ T4); lia).
  exists k5. split; [|split; [|split]].
  - unfold fl_insert, mbind. unfold FN, HEADER_SZ. unfold M_bind at 1. rewrite E1. state_simpl.
    unfold M_bind at 1, get. unfold M_bind at 1. state_simpl. rewrite E2. unfold M_bind at 1. rewrite E3.
    unfold M_bind at 1, put. state_simpl. unfold M_bind at 1. rewrite E4. unfold M_bind at 1. run_ld Hs4.
    unfold M_bind at 1. exact E5.
  - assert (H5x : forall y, x <= y < x + n -> ~ (x + n + 8 <= y < x + n + 16 /\ is_Some (bl !! (x + n)))) by lia.
    split; [by apply ok_settle; try done; right|done| | |].
    + apply rep_settle; [done|lia|]. rewrite bool_decide_true by done. split; [done|]. split; cbn [b_kd b_sz b_pf].
      * intros _. rewrite <- Hs4. apply (load64_touch _ _ _ _ T5). intros y Hy. apply H5x. lia.
      * exists 0. split; [|done]. rewrite (load64_touch _ _ _ (x + 8) T5), Hf4; [done|]. intros y Hy. apply H5x. lia.
      * intros _. rewrite !(load64_touch _ _ _ _ T5), L4, L4', Hf4; try done; intros y Hy; apply H5x; lia.
    + eapply link_push; [done|done|]. intros a. rewrite Z.add_simpl_r. apply is_free_settle; [lia|done].
    + eapply seg_touch; [exact T5| |eapply seg_touch; [exact T4| |exact S3]].
      * intros y (m & Hmi & Hy)%Hin3 [Hy' [b Hb]]. apply (interior_meta _ _ _ _ y _ _ OK Hmi Hy Hb). left. lia.
      * intros y (m & Hm & Hy) Hy'. cbn beta in Hy'. apply elem_of_cons in Hm as [->|Hm]; [lia|].
        apply Hlink in Hm as (b & Hb & Hk). pose proof (bo_range _ _ _ OK _ _ Hb).
        destruct (bl_cases OK _ _ _ _ Hx Hb) as [[_ <-]|?]; [done|]. cbn [b_sz] in *. lia.
  - eapply touch_trans; [exact Q3|]. eapply touch_trans; [exact Q4|]. eapply touch_mono; [exact T5|].
    intros y [Hy [b Hb]]. pose proof (bo_range _ _ _ OK _ _ Hb). split; [lia|].
    apply (payload_header OK _ _ y Hb). lia.
  - eapply same_busy_trans; [|apply same_busy_set_pf]. by eapply same_busy_insert.
Qed.

(** Blocks other than [x] stay of their kind, or go. *)
Definition kinds_kept (x : Z) (bl bl' : gmap Z block) : Prop :=
  forall a b, bl' !! a = Some b -> a <> x -> exists b0, bl !! a = Some b0 /\ b_kd b = b_kd b0.

Lemma kinds_settle bl x n k p : 0 < n -> bl !! x = Some (Block n Raw p) ->
  kinds_kept x bl (settle (bl := bl) x n k p).
Proof.
  intros Hn Hx a b H Hne. rewrite lookup_settle in H by done. apply fmap_Some in H as (b0 & H & ->).
  exists b0. split; [done|]. cbn [settled_as b_kd]. by rewrite decide_False.
Qed.

Lemma settle_x bl x n k p : 0 < n -> bl !! x = Some (Block n Raw p) ->
  settle (bl := bl) x n k p !! x = Some (Block n k p).
Proof.
  intros Hn Hx. rewrite lookup_settle, Hx by done. cbn. unfold settled_as. cbn [b_sz b_pf].
  by rewrite decide_True, decide_False by lia.
Qed.

Lemma insert_free_spec s e hd bc k bl L s0 x n : arena s e hd k bl L -> bl !! x = Some (Block n Raw false) ->
  load64 k (x + 8) = Some 0 -> (forall b, bl !! (x + n) = Some b -> b_kd b = Used \/ b_kd b = Free) ->
  exists hd' k' bl' L' n', insert_free x (Heap s0 e hd bc k) = Val (tt, Heap s0 e hd' bc k') /\
    arena s e hd' k' bl' L' /\ quiet s e bl k k' /\ same_busy bl bl' /\ kinds_kept x bl bl' /\
    bl' !! x = Some (Block n' Free false) /\ n <= n'.
Proof.
  intros HA Hx Hf Hn. pose proof (bo_range _ _ _ (ar_tiles _ _ _ _ _ _ HA) _ _ Hx) as Rx. cbn [b_sz] in Rx.
  destruct (absorb_next_spec s e hd bc k bl L s0 x n false HA Hx Hn)
    as (hd1 & k1 & bl1 & L1 & n1 & E1 & HA1 & Q1 & B1 & Hx1 & Hn1 & Hf1 & Hnf & Hsub).
  destruct (fl_insert_spec s e hd1 bc k1 bl1 L1 s0 x n1 HA1 Hx1 ltac:(congruence) Hnf) as (k2 & E2 & HA2 & Q2 & B2).
  exists (x + 16), k2, (settle (bl := bl1) x n1 Free false), (x + 16 :: L1), n1. split_and!; [|done| | | | |done].
  - unfold insert_free, mbind, M_bind. by rewrite E1.
  - by eapply arena_quiet_trans.
  - by eapply same_busy_trans.
  - intros a b Hb Hne. destruct (kinds_settle bl1 x n1 Free false ltac:(lia) Hx1 a b Hb Hne) as (b0 & Hb0 & ->).
    exists b0. split; [by apply Hsub|done].
  - apply settle_x; [lia|done].
Qed.

(** ** Taking a block *)

Lemma settled_pf s e bl x b : bl_ok s e bl -> settled bl -> bl !! x = Some b -> b_kd b = Free -> b_pf b = false.
Proof.
  intros OK HS Hx Hk. destruct (b_pf b) eqn:Ep; [|done].
  destruct (bl_prev_free OK _ _ Hx Ep Hk) as (a & b' & Hb & _ & Hr). destruct (HS _ _ Hb); congruence.
Qed.

Lemma settled_raw bl x n kd p : settled bl -> bl !! x = Some (Block n kd p) -> settled_but x (<[x := Block n Raw p]> bl).
Proof. intros HS Hx a b Hb Hne. bl_in Hb; [done|]. by apply (HS a). Qed.

(** Stores inside the block [x], which is then described anew. *)
Lemma rep_update s e bl k k' T x b0 b : bl_ok s e bl -> rep k bl -> touch k k' T -> bl !! x = Some b0 ->
  (forall y, T y -> x <= y < x + b_sz b0) -> brep k' x b -> rep k' (<[x := b]> bl).
Proof.
  intros OK HR HT Hx Hin Hb. eapply rep_insert; [done|done| |done].
  intros a b' Hb' Hne y Hm Hy%Hin. pose proof (bo_range _ _ _ OK _ _ Hb').
  destruct (bl_cases OK _ _ _ _ Hx Hb') as [[? _]|?]; [congruence|]. destruct Hm as [?|[_ ?]]; lia.
Qed.

(** Forgetting what is known of the block [x]. *)
Lemma rep_raw s e k bl x n kd p : bl_ok s e bl -> rep k bl -> bl !! x = Some (Block n kd p) -> kd <> Stale ->
  rep k (<[x := Block n Raw p]> bl).
Proof.
  intros OK HR Hx Hk. destruct (rep_lookup _ _ _ _ _ _ HR Hx Hk) as (Hs & c & Hc & Hf & _).
  eapply (rep_update s e _ _ _ (fun _ => False)); [done|done|apply touch_refl|exact Hx|done|].
  split; cbn [b_kd b_sz b_pf]; [done|by exists c|done].
Qed.

Lemma inside_none s e bl x b r : bl_ok s e bl -> bl !! x = Some b -> x < r < x + b_sz b -> bl !! r = None.
Proof.
  intros OK Hx Hr. destruct (bl !! r) as [b'|] eqn:E; [|done]. exfalso. pose proof (bo_range _ _ _ OK _ _ E).
  destruct (bl_cases OK _ _ _ _ Hx E) as [[? _]|?]; lia.
Qed.

(** Nodes of free blocks other than [x] are not in [x]. *)
Lemma nodes_apart s e bl x n kd p m y : bl_ok s e bl -> bl !! x = Some (Block n kd p) -> kd <> Free ->
  is_free bl (m - 16) -> m <= y < m + 16 -> ~ (x <= y < x + n).
Proof.
  intros OK Hx Hk (b & Hb & Hkb) Hy Hyx. pose proof (bo_range _ _ _ OK _ _ Hb).
  destruct (bl_cases OK _ _ _ _ Hx Hb) as [[_ <-]|Ha]; [done|]. cbn [b_sz] in Ha. lia.
Qed.

(** The node of the free block [x] leaves the list; the block becomes raw. *)
Lemma unlink_block s e hd bc k bl L s0 x n p : bl_ok s e bl -> rw_range (rw := rw) k s (e - s) -> rep k bl ->
  bl !! x = Some (Block n Raw p) -> spaced L -> x + 16 ∈ L -> (forall m, m ∈ L -> m = x + 16 \/ is_free bl (m - 16)) ->
  seg k 0 hd L 0 ->
  exists hd' k' L1 L2, L = L1 ++ x + 16 :: L2 /\ fl_unlink (FN x) (Heap s0 e hd bc k) = Val (tt, Heap s0 e hd' bc k') /\
    rep k' bl /\ quiet s e bl k k' /\ rw_range (rw := rw) k' s (e - s) /\ seg k' 0 hd' (L1 ++ L2) 0 /\
    forall y, x <= y < x + 16 -> ubyte k' y = ubyte k y.
Proof.
  intros OK Hrw HR Hx HL HxL Hin Hseg. apply list_elem_of_split in HxL as (L1 & L2 & ->).
  pose proof (bo_range _ _ _ OK _ _ Hx) as Rx. cbn [b_sz] in Rx.
  assert (Hint : forall m, m ∈ L1 ++ x + 16 :: L2 -> interior bl m).
  { intros m [->|(b & Hb & Hk)]%Hin; [eapply raw_interior; [done..|lia|lia]|by eapply free_interior]. }
  destruct (unlink_arena (rw := rw) (env := env) (Heap s0 e hd bc k) s e bl L1 (x + 16) L2 OK Hrw HR HL Hint Hseg)
    as (hd' & k' & E & T & HR' & Q & W & S'). state_simpl.
  exists hd', k', L1, L2. split; [done|]. split_and!; try done.
  intros y Hy. apply T. intros (m & Hm & Hym).
  apply (interior_meta _ _ _ _ _ _ _ OK (Hint m Hm) Hym Hx). by left.
Qed.

(** What a successful cut leaves: [r] is the payload of a block that was free. *)
Definition took (s e bc s0 : Z) (k : K) (bl : gmap Z block) (need r : Z) (h' : heap K) : Prop :=
  exists hd' k' bl' L' x m, r = x + 16 /\ h' = Heap s0 e hd' bc k' /\ arena s e hd' k' bl' L' /\ settled bl' /\
    quiet s e bl k k' /\ need <= m /\ is_free bl x /\
    forall a c, in_use bl' a c <-> in_use bl a c \/ a = x /\ c = m.

Lemma in_use_held bl a n : in_use bl a n <-> held bl a n Used.
Proof. done. Qed.

Lemma held_settle bl x n kd p a m kd' : 0 < n -> bl !! x = Some (Block n Raw p) -> a <> x ->
  held (settle (bl := bl) x n kd p) a m kd' <-> held bl a m kd'.
Proof.
  intros Hn Hx Ha. unfold held. rewrite lookup_settle by done. destruct (bl !! a) as [[m' k' q]|]; cbn; [|by split; intros []].
  unfold settled_as. cbn [b_sz b_kd b_pf]. rewrite (decide_False (P := a = x)) by done.
  split; intros (q' & [= -> ->]); eauto.
Qed.

(** The block [x] is marked as in use, and the next one is told. *)
Lemma claim_block s e hd bc k bl s0 x n p : bl_ok s e bl -> rw_range (rw := rw) k s (e - s) -> rep k bl ->
  bl !! x = Some (Block n Free p) ->
  let blF := settle (bl := <[x := Block n Raw p]> bl) x n Used p in
  exists k2 k3, st (hflags x) (flags_of 1 p) (Heap s0 e hd bc k) = Val (tt, Heap s0 e hd bc k2) /\
    load64 k2 x = Some n /\
    (if x + n <? e then M_bind _ _ (fun f => st (hflags (x + n)) (Z.land f (SIZE_MAX - B_PREV))) (ld (hflags (x + n))) else skip)
      (Heap s0 e hd bc k2) = Val (tt, Heap s0 e hd bc k3) /\
    bl_ok s e blF /\ rep k3 blF /\ rw_range (rw := rw) k3 s (e - s) /\
    touch k k3 (fun y => exists a b, bl !! a = Some b /\ a <= y < a + 16).
Proof.
  intros OK Hrw HR Hx blF. pose proof (bo_range _ _ _ OK _ _ Hx) as Rx. cbn [b_sz] in Rx.
  destruct (rep_lookup _ _ _ _ _ _ HR Hx ltac:(done)) as (Hs & c & Hc & Hf & _).
  pose proof (ok_to_raw OK _ _ _ _ Hx) as OK1.
  assert (Hx1 : <[x := Block n Raw p]> bl !! x = Some (Block n Raw p)) by apply lookup_insert_eq.
  destruct (arena_st (rw := rw) (env := env) (Heap s0 e hd bc k) s e (x + 8) (flags_of 1 p))
    as (k2 & E2 & T2 & L2 & W2); [done|lia|lia|by apply flags_range|]. state_simpl.
  assert (Hs2 : load64 k2 x = Some n) by (rewrite <- Hs; apply (load64_st_ne _ _ _ _ T2); lia).
  assert (HR2 : rep k2 (<[x := Block n Raw p]> bl)).
  { eapply rep_update; [done|done|exact T2|exact Hx|cbn [b_sz]; lia|]. split; cbn [b_kd b_sz b_pf]; [done| |done].
    exists 1. split; [done|lia]. }
  destruct (tell_next s e hd bc k2 _ s0 x n Raw p (fun f => Z.land f (SIZE_MAX - B_PREV)) false OK1 W2 HR2 Hx1)
    as (k3 & E3 & HR3 & W3 & T3).
  { intros b Hb Hk. rewrite lookup_insert_ne in Hb by lia. exfalso. destruct (bo_next _ _ _ OK _ _ Hx) as [He|(b' & Hb' & _ & Hk')]; cbn [b_sz] in *.
    - pose proof (bo_range _ _ _ OK _ _ Hb). lia.
    - congruence. }
  { intros c' q Hc'. by apply flags_clear_prev. }
  exists k2, k3. split_and!; try done.
  - apply (ok_settle OK1 x n p Used Hx1); [by left|done].
  - apply rep_settle; [done|lia|]. split; [done|].
    assert (T3' : forall w, x <= w -> w + 8 <= x + n -> load64 k3 w = load64 k2 w).
    { intros w Hw1 Hw2. apply (load64_touch _ _ _ _ T3). intros y Hy [Hy' _]. lia. }
    split; cbn [b_kd b_sz b_pf]; [intros _; by rewrite T3' by lia| |done].
    exists 1. by rewrite T3' by lia.
  - eapply touch_trans; (eapply touch_mono; [eassumption|]); intros y Hy; cbn beta in Hy.
    + exists x, (Block n Free p). split; [done|lia].
    + destruct Hy as [Hy [b Hb]]. rewrite lookup_insert_ne in Hb by lia. exists (x + n), b. split; [done|lia].
Qed.

(** The free block is handed out whole. *)
Lemma cut_whole_spec s e hd bc k bl L s0 x n p need : arena s e hd k bl L -> settled bl ->
  bl !! x = Some (Block n Free p) -> need <= n ->
  exists r h', cut_whole x (Heap s0 e hd bc k) = Val (r, h') /\ took s e bc s0 k bl need r h'.
Proof.
  intros [OK Hrw HR Hlink Hseg] HS Hx Hneed. pose proof (bo_range _ _ _ OK _ _ Hx) as Rx. cbn [b_sz] in Rx.
  destruct (rep_lookup _ _ _ _ _ _ HR Hx ltac:(done)) as (Hs & c & Hc & Hf & _).
  destruct (claim_block s e hd bc k bl s0 x n p OK Hrw HR Hx) as (k2 & k3 & E2 & Hs2 & E3 & OKF & HRF & W3 & T3).
  assert (Hx1 : <[x := Block n Raw p]> bl !! x = Some (Block n Raw p)) by apply lookup_insert_eq.
  pose proof (settle_x _ x n Used p ltac:(lia) Hx1) as HxF.
  set (blF := settle (bl := <[x := Block n Raw p]> bl) x n Used p) in *.
  pose proof (ok_to_raw OKF _ _ _ _ HxF) as OKM.
  assert (HxM : <[x := Block n Raw p]> blF !! x = Some (Block n Raw p)) by apply lookup_insert_eq.
  assert (HRM : rep k3 (<[x := Block n Raw p]> blF)) by by eapply rep_raw.
  assert (Hfree : forall a, is_free blF a <-> is_free bl a /\ a <> x).
  { intros a. unfold is_free, blF. rewrite lookup_settle by (done || lia). destruct (decide (a = x)) as [->|Hne].
    - rewrite Hx1. split; [|tauto]. intros (b & [= <-] & Hk). cbn [settled_as b_kd] in Hk. by rewrite decide_True in Hk.
    - rewrite lookup_insert_ne by done. split.
      + intros (b & (b0 & Hb & ->)%fmap_Some & Hk). cbn [settled_as b_kd] in Hk. rewrite decide_False in Hk by done. eauto.
      + intros [(b & Hb & Hk) _]. rewrite Hb. eexists. split; [done|]. cbn [settled_as b_kd]. by rewrite decide_False. }
  assert (Hseg3 : seg k3 0 hd L 0).
  { eapply seg_touch; [exact T3| |exact Hseg]. intros y (m & Hm & Hy) (a & b & Hb & Hya).
    pose proof (nodes_interior _ _ _ _ _ OK Hlink Hm) as Hi. apply (interior_meta _ _ _ _ _ _ _ OK Hi Hy Hb). by left. }
  assert (HxL : x + 16 ∈ L) by (apply Hlink; rewrite Z.add_simpl_r; by eexists).
  destruct (unlink_block s e hd bc k3 _ L s0 x n p OKM W3 HRM HxM) as (hd' & k4 & L1 & L2 & -> & E4 & HR4 & Q4 & W4 & S4 & K4);
    [exact (link_spaced _ _ _ _ OK Hlink)|done| |done|].
  { intros m Hm. destruct (decide (m = x + 16)); [by left|right].
    assert (Hm' : is_free blF (m - 16)) by (apply Hfree; split; [by apply Hlink|lia]).
    destruct Hm' as (b & Hb & Hk). exists b. rewrite lookup_insert_ne by lia. done. }
  exists (x + 16), (Heap s0 e hd' bc k4). split.
  - unfold cut_whole, mbind. unfold M_bind at 1. run_ld Hf. rewrite flags_set_alloc by done.
    unfold M_bind at 1. rewrite E2. unfold M_bind at 1. run_ld Hs2. unfold M_bind at 1, get. state_simpl. unfold hsize.
    unfold M_bind at 1. rewrite E3. unfold M_bind at 1. rewrite E4. done.
  - assert (HxN : bl !! x <> None) by congruence.
    exists hd', k4, blF, (L1 ++ L2), x, n. split_and!; try done.
    + split; [done|done| | |done].
      * replace blF with (<[x := Block n Used p]> (<[x := Block n Raw p]> blF)) by (by rewrite insert_insert_eq, insert_id).
        eapply (rep_update s e _ _ _ (fun _ => False)); [done|done|apply touch_refl|exact HxM|done|].
        destruct (HRF _ _ HxF) as [F1 (d & F2 & F3) _]. cbn [b_kd b_sz b_pf] in *.
        split; cbn [b_kd b_sz b_pf]; [| |done].
        -- intros _. rewrite <- F1 by done. apply load64_ext. intros y Hy. apply K4. lia.
        -- exists d. split; [|done]. rewrite <- F2. apply load64_ext. intros y Hy. apply K4. lia.
      * eapply link_remove; [done|]. intros a. by rewrite Z.add_simpl_r.
    + intros a b Hb. destruct (decide (a = x)) as [->|Hne]; [left; rewrite HxF in Hb; by injection Hb as <-|].
      destruct (kinds_settle _ x n Used p ltac:(lia) Hx1 a b Hb Hne) as (b0 & Hb0 & ->).
      rewrite lookup_insert_ne in Hb0 by done. by apply (HS a).
    + eapply touch_trans.
      * eapply touch_mono; [exact T3|]. intros y (a & b & Hb & Hy). pose proof (bo_range _ _ _ OK _ _ Hb).
        split; [lia|]. by apply (payload_header OK a b).
      * eapply touch_mono; [exact Q4|]. intros y. cbn beta. rewrite <- (same_busy_payload bl _ y); [done|].
        intros a m kd Hk. destruct (decide (a = x)) as [->|Hne].
        -- unfold held. rewrite HxM, Hx. split; intros (q & Hq); injection Hq as _ <- _; by destruct Hk.
        -- unfold held at 2. rewrite lookup_insert_ne by done. fold (held blF a m kd). unfold blF.
           rewrite held_settle by (done || lia). unfold held. by rewrite lookup_insert_ne.
    + by exists (Block n Free p).
    + intros a m. destruct (decide (a = x)) as [->|Hne].
      * unfold in_use. rewrite HxF, Hx. split; [intros (q & [= ->]); by right|]. intros [(q & [= ])|[_ ->]]. by exists p.
      * rewrite !in_use_held. unfold blF. rewrite held_settle by (done || lia). unfold held. rewrite lookup_insert_ne by done.
        split; [by left|]. by intros [?|[? _]].
Qed.

(** The headers of the two parts of the raw block [x]. *)
Lemma split_headers s e hd bc k bl s0 x n p need : bl_ok s e bl -> rw_range (rw := rw) k s (e - s) -> rep k bl ->
  bl !! x = Some (Block n Raw p) -> 48 <= need -> need + 48 <= n ->
  exists k1 k2 k3 k4 f, st (hsize x) need (Heap s0 e hd bc k) = Val (tt, Heap s0 e hd bc k1) /\
    load64 k1 (hflags x) = Some f /\
    st (hflags x) (Z.lor (Z.land f (Z.lor B_PREV B_MMAP)) B_ALLOC) (Heap s0 e hd bc k1) = Val (tt, Heap s0 e hd bc k2) /\
    st (hsize (x + need)) (n - need) (Heap s0 e hd bc k2) = Val (tt, Heap s0 e hd bc k3) /\
    st (hflags (x + need)) 0 (Heap s0 e hd bc k3) = Val (tt, Heap s0 e hd bc k4) /\
    touch k k4 (fun y => x <= y < x + n) /\ rw_range (rw := rw) k4 s (e - s) /\
    load64 k4 (x + need + 8) = Some 0 /\
    rep k4 (<[x + need := Block (n - need) Raw false]> (<[x := Block need Used p]> bl)).
Proof.
  intros OK Hrw HR Hx Hn1 Hn2. pose proof (bo_range _ _ _ OK _ _ Hx) as Rx. cbn [b_sz] in Rx.
  pose proof (bo_arena _ _ _ OK) as RA. unfold USER_TOP in RA.
  destruct (rep_lookup _ _ _ _ _ _ HR Hx ltac:(done)) as (Hs & c & Hc & Hf & _). unfold hsize, hflags.
  destruct (arena_st (rw := rw) (env := env) (Heap s0 e hd bc k) s e x need) as (k1 & E1 & T1 & L1 & W1); [done|lia..|].
  destruct (arena_st (rw := rw) (env := env) (Heap s0 e hd bc k1) s e (x + 8) (flags_of 1 p)) as (k2 & E2 & T2 & L2 & W2);
    [done|lia|lia|by apply flags_range|].
  destruct (arena_st (rw := rw) (env := env) (Heap s0 e hd bc k2) s e (x + need) (n - need)) as (k3 & E3 & T3 & L3 & W3);
    [done|lia..|].
  destruct (arena_st (rw := rw) (env := env) (Heap s0 e hd bc k3) s e (x + need + 8) 0) as (k4 & E4 & T4 & L4 & W4);
    [done|lia..|]. state_simpl.
  assert (TT : touch k k4 (fun y => x <= y < x + n)).
  { eapply touch_trans; [|eapply touch_trans; [|eapply touch_trans]];
      (eapply touch_mono; [eassumption|]); intros y Hy; cbn beta in Hy; lia. }
  exists k1, k2, k3, k4, (flags_of c p). rewrite flags_cut by done. split_and!; try done.
  - rewrite <- Hf. apply (load64_st_ne _ _ _ _ T1). lia.
  - eapply (rep_insert _ _ (fun _ => False)); [|apply touch_refl|by intros ? ? ? ? ? ? []|].
    + eapply rep_update; [done|done|exact TT|exact Hx|done|]. split; cbn [b_kd b_sz b_pf]; [| |done].
      * intros _. rewrite (load64_st_ne _ _ _ _ T4), (load64_st_ne _ _ _ _ T3), (load64_st_ne _ _ _ _ T2) by lia. done.
      * exists 1. rewrite (load64_st_ne _ _ _ _ T4), (load64_st_ne _ _ _ _ T3) by lia. done.
    + split; cbn [b_kd b_sz b_pf]; [| |done].
      * intros _. rewrite (load64_st_ne _ _ _ _ T4) by lia. done.
      * exists 0. split; [done|lia].
Qed.

(** The first [need] bytes of the free block are handed out. *)
Lemma cut_split_spec s e hd bc k bl L s0 x n p need : arena s e hd k bl L -> settled bl ->
  bl !! x = Some (Block n Free p) -> 48 <= need -> need mod 16 = 0 -> need + 48 <= n ->
  exists r h', cut_split x need (Heap s0 e hd bc k) = Val (r, h') /\ took s e bc s0 k bl need r h'.
Proof.
  intros [OK Hrw HR Hlink Hseg] HS Hx Hn1 Hn16 Hn2. pose proof (bo_range _ _ _ OK _ _ Hx) as Rx. cbn [b_sz] in Rx.
  pose proof (bo_arena _ _ _ OK) as RA. unfold USER_TOP in RA.
  destruct (rep_lookup _ _ _ _ _ _ HR Hx ltac:(done)) as (Hs & _).
  pose proof (ok_to_raw OK _ _ _ _ Hx) as OK1. pose proof (rep_raw _ _ _ _ _ _ _ _ OK HR Hx ltac:(done)) as HR1.
  assert (Hx1 : <[x := Block n Raw p]> bl !! x = Some (Block n Raw p)) by apply lookup_insert_eq.
  assert (HB1 : same_busy bl (<[x := Block n Raw p]> bl)) by by eapply same_busy_insert.
  assert (HF1 : forall a, is_free (<[x := Block n Raw p]> bl) a <-> is_free bl a /\ a <> x).
  { intros a. unfold is_free. destruct (decide (a = x)) as [->|Hne].
    - rewrite Hx1. split; [intros (b & [= <-] & ?); done|tauto].
    - rewrite lookup_insert_ne by done. tauto. }
  assert (HxL : x + 16 ∈ L) by (apply Hlink; rewrite Z.add_simpl_r; by eexists).
  destruct (unlink_block s e hd bc k _ L s0 x n p OK1 Hrw HR1 Hx1) as (hd1 & k1 & L1 & L2 & -> & E1 & HR1' & Q1 & W1 & S1 & _);
    [exact (link_spaced _ _ _ _ OK Hlink)|done| |done|].
  { intros m Hm. destruct (decide (m = x + 16)); [by left|right]. apply HF1. split; [by apply Hlink|lia]. }
  assert (Hlink1 : link (<[x := Block n Raw p]> bl) (L1 ++ L2)).
  { eapply link_remove; [done|]. intros a. by rewrite Z.add_simpl_r. }
  clear HR HR1 Hseg HxL. set (bl1 := <[x := Block n Raw p]> bl) in *.
  destruct (split_headers s e hd1 bc k1 bl1 s0 x n p need OK1 W1 HR1' Hx1 Hn1 Hn2)
    as (k2 & k3 & k4 & k5 & f & E2 & Hf & E3 & E4 & E5 & T5 & W5 & Hf5 & HR5).
  pose proof (ok_split OK1 x n Raw p need Used Hx1 Hn1 Hn16 Hn2 ltac:(by left)) as OK2.
  assert (Hr1 : bl1 !! (x + need) = None) by (eapply inside_none; [exact OK1|exact Hx1|cbn [b_sz]; lia]).
  set (bl2 := <[x + need := Block (n - need) Raw false]> (<[x := Block need Used p]> bl1)) in *.
  assert (Hr2 : bl2 !! (x + need) = Some (Block (n - need) Raw false)) by apply lookup_insert_eq.
  assert (HA2 : arena s e hd1 k5 bl2 (L1 ++ L2)).
  { split; [done|done|done| |].
    - eapply link_same; [exact Hlink1|]. intros a. unfold bl2. rewrite !is_free_insert; [done|..]; try done.
      + intros b'. rewrite Hx1. by intros [= <-].
      + intros b'. rewrite lookup_insert_ne, Hr1 by lia. done.
    - eapply seg_touch; [exact T5| |exact S1]. intros y (m & Hm & Hy).
      eapply nodes_apart; [exact OK1|exact Hx1|done| |exact Hy]. by apply Hlink1. }
  destruct (insert_free_spec s e hd1 bc k5 bl2 _ s0 (x + need) (n - need) HA2 Hr2 Hf5)
    as (hd' & k' & bl' & L' & n' & E6 & HA' & Q6 & B6 & K6 & Hr' & _).
  { intros b Hb. unfold bl2 in Hb. rewrite !lookup_insert_ne in Hb by lia. unfold bl1 in Hb.
    rewrite lookup_insert_ne in Hb by lia. by apply (HS (x + need + (n - need))). }
  exists (x + 16), (Heap s0 e hd' bc k'). split.
  - unfold cut_split, mbind. unfold M_bind at 1. run_ld Hs. unfold M_bind at 1. rewrite E1.
    unfold M_bind at 1. rewrite E2. unfold M_bind at 1. run_ld Hf. unfold M_bind at 1. rewrite E3.
    assert (need / 16 * 16 = need) as -> by (Z.div_mod_to_equations; lia).
    rewrite u64_id by lia. unfold M_bind at 1. rewrite E4. unfold M_bind at 1. rewrite E5.
    unfold M_bind at 1. rewrite E6. done.
  - assert (HH : forall a m kd, kd = Used \/ kd = Stale ->
      held bl2 a m kd <-> held bl a m kd \/ a = x /\ m = need /\ kd = Used).
    { intros a m kd Hk. rewrite (HB1 a m kd Hk). unfold held, bl2. destruct (decide (a = x + need)) as [->|Ha].
      - rewrite lookup_insert_eq, Hr1. split; [intros (q & Hq); injection Hq as _ <- _; by destruct Hk|].
        intros [[q ?]|[? _]]; [done|lia].
      - rewrite lookup_insert_ne by done. destruct (decide (a = x)) as [->|Hne].
        + rewrite lookup_insert_eq, Hx1. split; [intros (q & [= -> -> ->]); by right|].
          intros [(q & Hq)|(_ & -> & ->)]; [injection Hq as _ <- _; by destruct Hk|by exists p].
        + rewrite lookup_insert_ne by done. split; [by left|]. by intros [?|[? _]]. }
    exists hd', k', bl', L', x, need. split_and!; try done.
    + intros a b Hb. destruct (decide (a = x + need)) as [->|Ha]; [right; rewrite Hr' in Hb; by injection Hb as <-|].
      destruct (K6 a b Hb Ha) as (b0 & Hb0 & ->). unfold bl2, bl1 in Hb0. rewrite lookup_insert_ne in Hb0 by done.
      bl_in Hb0; [by left|done|by apply (HS a)].
    + eapply touch_trans; [|eapply touch_trans].
      * eapply touch_mono; [exact Q1|]. intros y. cbn beta. by rewrite (same_busy_payload _ _ y HB1).
      * eapply touch_mono; [exact T5|]. intros y Hy. cbn beta in Hy. split; [lia|].
        eapply (payload_free OK); [exact Hx|done|cbn [b_sz]; lia].
      * eapply touch_mono; [exact Q6|]. intros y [Hy Hp]. split; [done|]. intros Hp'. apply Hp.
        apply payload_held in Hp' as (a & m & kd & Hk & Hh & Hya). apply payload_held. exists a, m, kd.
        split; [done|]. split; [|done]. apply HH; [done|]. by left.
    + by exists (Block n Free p).
    + intros a m. rewrite !in_use_held, <- (B6 a m Used) by by left. rewrite HH by by left. tauto.
Qed.

Lemma take_cut_spec s e hd bc k bl L s0 x n p need : arena s e hd k bl L -> settled bl ->
  bl !! x = Some (Block n Free p) -> 48 <= need <= n -> need mod 16 = 0 ->
  exists r h', take_cut x need (Heap s0 e hd bc k) = Val (r, h') /\ took s e bc s0 k bl need r h'.
Proof.
  intros HA HS Hx Hn Hn16. pose proof HA as [OK _ HR _ _].
  pose proof (bo_range _ _ _ OK _ _ Hx) as Rx. cbn [b_sz] in Rx. pose proof (bo_arena _ _ _ OK) as RA. unfold USER_TOP in RA.
  destruct (rep_lookup _ _ _ _ _ _ HR Hx ltac:(done)) as (Hs & _).
  unfold take_cut, mbind, M_bind. run_ld Hs. rewrite u64_id by lia. unfold MIN_BLOCK.
  destruct (Z.leb_spec 48 (n - need)).
  - eapply cut_split_spec; (done || lia).
  - eapply cut_whole_spec; (done || lia).
Qed.

(** The search: the first block of the list that is large enough is taken. *)
Lemma cut_loop_spec s e hd bc k bl L s0 need : arena s e hd k bl L -> settled bl -> 48 <= need -> need mod 16 = 0 ->
  forall L2 prev cur fuel, (forall n, n ∈ L2 -> n ∈ L) -> seg k prev cur L2 0 -> (length L2 < fuel)%nat ->
  exists r h', cut_loop fuel cur need (Heap s0 e hd bc k) = Val (r, h') /\
    (r = 0 /\ h' = Heap s0 e hd bc k /\ (forall n b, n ∈ L2 -> bl !! (n - 16) = Some b -> b_sz b < need) \/
     r <> 0 /\ took s e bc s0 k bl need r h').
Proof.
  intros HA HS Hn Hn16 L2. pose proof HA as [OK _ HR [_ Hl] _]. pose proof (bo_arena _ _ _ OK) as RA.
  induction L2 as [|n L2 IH]; intros prev cur [|fuel] Hsub Hseg Hfuel; cbn [length] in Hfuel; try lia; cbn [cut_loop].
  - cbn [seg] in Hseg. subst cur. exists 0, (Heap s0 e hd bc k). split; [done|]. left. split_and!; [done..|].
    intros n b Hb. by apply not_elem_of_nil in Hb.
  - destruct Hseg as (-> & _ & c & Hc & Hseg). destruct (proj1 (Hl n) (Hsub n ltac:(by left))) as ([m kd p] & Hb & Hk).
    cbn [b_kd] in Hk. subst kd. pose proof (bo_range _ _ _ OK _ _ Hb) as Rb. cbn [b_sz] in Rb.
    destruct (rep_lookup _ _ _ _ _ _ HR Hb ltac:(done)) as (Hs & _).
    rewrite (proj2 (Z.eqb_neq n 0)) by lia. unfold mbind. unfold M_bind at 1. unfold HEADER_SZ. run_ld Hs.
    destruct (Z.ltb_spec m need).
    + unfold M_bind. run_ld Hc. destruct (IH n c fuel) as (r & h' & E & Hr); [by intros a Ha; apply Hsub; right|done|lia|].
      exists r, h'. split; [exact E|]. destruct Hr as [(-> & -> & Hall)|Hr]; [left|by right].
      split_and!; [done..|]. intros a b [->|Ha]%elem_of_cons Hb'; [|by eapply Hall]. rewrite Hb in Hb'. by injection Hb' as <-.
    + destruct (take_cut_spec s e hd bc k bl L s0 (n - 16) m p need HA HS Hb ltac:(lia) Hn16) as (r & h' & E & T).
      exists r, h'. split; [done|right]. split; [|done].
      destruct T as (hd' & k' & bl' & L' & x & m' & -> & _ & _ & _ & _ & _ & (b & Hx & _) & _).
      pose proof (bo_range _ _ _ OK _ _ Hx). lia.
Qed.

Lemma list_length s e bl L : bl_ok s e bl -> link bl L -> Z.of_nat (length L) <= (e - s) / 16.
Proof.
  intros OK [Hnd Hl]. pose proof (bo_arena _ _ _ OK) as (? & _ & Hs16 & He16).
  assert (HS : L ⊆+ ((fun i => s + 16 * i + 16) <$> seqZ 0 ((e - s) / 16))).
  { apply NoDup_submseteq; [done|]. intros n (b & Hb & _)%Hl. pose proof (bo_range _ _ _ OK _ _ Hb).
    apply list_elem_of_fmap. exists ((n - 16 - s) / 16). rewrite elem_of_seqZ. Z.div_mod_to_equations. lia. }
  apply submseteq_length in HS. rewrite length_fmap, length_seqZ in HS.
  assert (0 <= (e - s) / 16) by (apply Z.div_pos; lia). lia.
Qed.

Lemma cut_first_fit_spec s e hd bc k bl L need : arena s e hd k bl L -> settled bl -> 48 <= need -> need mod 16 = 0 ->
  exists r h', cut_first_fit need (Heap s e hd bc k) = Val (r, h') /\
    (r = 0 /\ h' = Heap s e hd bc k /\ (forall a b, bl !! a = Some b -> b_kd b = Free -> b_sz b < need) \/
     r <> 0 /\ took s e bc s k bl need r h').
Proof.
  intros HA HS Hn Hn16. pose proof HA as [OK _ _ Hlink Hseg]. unfold cut_first_fit, mbind, M_bind, get.
  destruct (cut_loop_spec s e hd bc k bl L s need HA HS Hn Hn16 L 0 hd (list_fuel (Heap s e hd bc k))) as (r & h' & E & Hr);
    [done|done| |].
  { unfold list_fuel. cbn [a_end a_start]. pose proof (list_length _ _ _ _ OK Hlink). lia. }
  exists r, h'. split; [exact E|]. destruct Hr as [(-> & -> & Hall)|Hr]; [left|by right]. split_and!; [done..|].
  intros a b Hb Hk. apply (Hall (a + 16)); [|by rewrite Z.add_simpl_r]. apply Hlink. rewrite Z.add_simpl_r. by exists b.
Qed.

(** ** Giving a block back *)

(** A raw block marked as preceded by a free block is. *)
Lemma raw_prev s e bl x n : bl_ok s e bl -> settled_but x bl -> bl !! x = Some (Block n Raw true) ->
  exists y m, bl !! y = Some (Block m Free false) /\ y + m = x.
Proof.
  intros OK HS Hx. destruct (bo_prev _ _ _ OK _ _ Hx eq_refl) as (y & [m kd q] & Hy & E). cbn [b_sz] in E.
  pose proof (bo_range _ _ _ OK _ _ Hy) as Ry. cbn [b_sz] in Ry.
  assert (Hk : kd = Free).
  { destruct (bo_next _ _ _ OK _ _ Hy) as [He|(b & Hb & Hf)]; cbn [b_sz b_kd] in *.
    - pose proof (bo_range _ _ _ OK _ _ Hx). cbn [b_sz] in *. lia.
    - rewrite E, Hx in Hb. injection Hb as <-. destruct (HS _ _ Hy) as [Hk|Hk]; [lia|..]; cbn [b_kd] in Hk; subst kd; [|done].
      cbn [follows b_pf] in Hf. done. }
  subst kd. exists y, m. split; [|done]. destruct q; [|done]. exfalso.
  destruct (bl_prev_free OK _ _ Hy eq_refl eq_refl) as (z & b & Hz & Ez & Hkz).
  destruct (HS _ _ Hz) as [?|?]; [|congruence..]. intros ->. rewrite Hx in Hz. injection Hz as <-. cbn [b_sz] in *.
  pose proof (bo_range _ _ _ OK _ _ Hx). cbn [b_sz] in *. lia.
Qed.

Lemma absorb_prev_spec s e hd bc k bl L s0 x n p : arena s e hd k bl L -> settled_but x bl ->
  bl !! x = Some (Block n Raw p) ->
  exists hd' k' bl' L' y n', absorb_prev x (Heap s0 e hd bc k) = Val (y, Heap s0 e hd' bc k') /\
    arena s e hd' k' bl' L' /\ quiet s e bl k k' /\ same_busy bl bl' /\
    bl' !! y = Some (Block n' Raw false) /\ y + n' = x + n /\ settled_but y bl' /\
    (forall b, bl' !! (x + n) = Some b -> bl !! (x + n) = Some b) /\ (p = false -> y = x).
Proof.
  intros [OK Hrw HR Hlink Hseg] HS Hx. pose proof (bo_range _ _ _ OK _ _ Hx) as Rx. cbn [b_sz] in Rx.
  pose proof (bo_arena _ _ _ OK) as RA. unfold USER_TOP in RA.
  destruct (rep_lookup _ _ _ _ _ _ HR Hx ltac:(done)) as (Hs & c & Hc & Hf & _).
  unfold absorb_prev, mbind. unfold M_bind at 1. run_ld Hf. rewrite flags_prev by done.
  destruct p.
  2: { exists hd, k, bl, L, x, n. split; [done|]. split_and!; done. }
  destruct (raw_prev _ _ _ _ _ OK HS Hx) as (y & m & Hy & <-).
  pose proof (bo_range _ _ _ OK _ _ Hy) as Ry. cbn [b_sz] in Ry.
  destruct (HR _ _ Hy) as [Hys (d & Hyf & ->) Hfoot]. cbn [b_kd b_sz b_pf] in *.
  destruct (Hfoot eq_refl) as [Hft _]. specialize (Hys ltac:(done)).
  unfold HEADER_SZ. unfold M_bind at 1. run_ld Hft. replace (y + m - m) with y by lia.
  unfold M_bind at 1. run_ld Hys. unfold M_bind at 1. run_ld Hs. rewrite u64_id by lia.
  destruct (arena_st (rw := rw) (env := env) (Heap s0 e hd bc k) s e (hsize y) (m + n)) as (k1 & E1 & T1 & L1 & W1);
    [done|unfold hsize; lia..|]. state_simpl. unfold hsize in *. unfold M_bind at 1. rewrite E1. clear E1.
  pose proof (ok_to_raw OK _ _ _ _ Hy) as OKr. set (blr := <[y := Block m Raw false]> bl) in *.
  assert (Hyr : blr !! y = Some (Block m Raw false)) by apply lookup_insert_eq.
  assert (Hxr : blr !! (y + m) = Some (Block n Raw true)) by (unfold blr; rewrite lookup_insert_ne by lia; done).
  pose proof (ok_merge OKr _ _ _ _ _ _ Hyr Hxr) as OKm.
  set (blm := <[y := Block (m + n) Raw false]> (delete (y + m) blr)) in *.
  assert (Hym : blm !! y = Some (Block (m + n) Raw false)) by apply lookup_insert_eq.
  assert (Hsub : forall a b, a <> y -> blm !! a = Some b <-> bl !! a = Some b /\ a <> y + m).
  { intros a b Ha. unfold blm, blr. rewrite lookup_insert_ne by done. rewrite lookup_delete_Some, lookup_insert_ne by done. naive_solver. }
  assert (HRm : rep k1 blm).
  { eapply rep_insert; [apply rep_delete; eapply (rep_raw s e); [exact OK|exact HR|exact Hy|done]|exact T1| |].
    - intros a b Hb Hne z Hm Hz. cbn beta in Hz. apply lookup_delete_Some in Hb as [_ Hb]. pose proof (bo_range _ _ _ OKr _ _ Hb).
      destruct (bl_cases OKr _ _ _ _ Hyr Hb) as [[? _]|Ha]; [congruence|]. cbn [b_sz] in Ha. destruct Hm as [?|[_ ?]]; lia.
    - split; cbn [b_kd b_sz b_pf]; [done| |done]. exists 0. split; [|lia].
      rewrite <- Hyf. apply (load64_st_ne _ _ _ _ T1). lia. }
  assert (HF : forall a, is_free blm a <-> is_free bl a /\ a <> y).
  { intros a. unfold is_free. destruct (decide (a = y)) as [->|Hne].
    - rewrite Hym. split; [intros (b & [= <-] & ?); done|tauto].
    - split.
      + intros (b & Hb & Hk). apply Hsub in Hb as [Hb _]; [|done]. eauto.
      + intros [(b & Hb & Hk) _]. exists b. rewrite Hsub by done. split; [|done]. split; [done|]. intros ->.
        rewrite Hx in Hb. injection Hb as <-. done. }
  assert (HyL : y + 16 ∈ L) by (apply Hlink; rewrite Z.add_simpl_r; by eexists).
  assert (Hseg1 : seg k1 0 hd L 0).
  { eapply seg_touch; [exact T1| |exact Hseg]. intros z (q & Hq & Hz) Hzy. cbn beta in Hzy.
    apply (interior_meta _ _ _ _ z _ _ OK (nodes_interior _ _ _ _ _ OK Hlink Hq) Hz Hy). left. lia. }
  destruct (unlink_block s e hd bc k1 blm L s0 y (m + n) false OKm W1 HRm Hym)
    as (hd' & k' & L1' & L2' & -> & E2 & HR2 & Q2 & W2 & S2 & _); [exact (link_spaced _ _ _ _ OK Hlink)|done| |done|].
  { intros q Hq. destruct (decide (q = y + 16)); [by left|right]. apply HF. split; [by apply Hlink|lia]. }
  unfold M_bind at 1. rewrite E2. clear E2.
  assert (HB : same_busy bl blm).
  { eapply same_busy_trans; [apply (same_busy_insert bl y _ (Block m Raw false) Hy); done|].
    eapply same_busy_trans; [apply (same_busy_delete blr (y + m) _ Hxr); done|].
    eapply (same_busy_insert _ y (Block m Raw false)); [by rewrite lookup_delete_ne by lia|done..]. }
  exists hd', k', blm, (L1' ++ L2'), y, (m + n). split; [done|]. split_and!; try done.
  - split; [done..| |done]. eapply link_remove; [done|]. intros a. by rewrite Z.add_simpl_r.
  - eapply touch_trans.
    + eapply touch_mono; [exact T1|]. intros z Hz. cbn beta in Hz. split; [lia|]. apply (payload_header OK y _ z Hy). lia.
    + eapply touch_mono; [exact Q2|]. intros z. cbn beta. by rewrite (same_busy_payload _ _ z HB).
  - lia.
  - intros a b Hb Hne. apply Hsub in Hb as [Hb Hne']; [|done]. by apply (HS a).
  - intros b Hb. apply Hsub in Hb as [Hb _]; [done|lia].
Qed.

(** A store in the flags of a raw block. *)
Lemma raw_flags s e hd bc k bl L s0 x n p c : arena s e hd k bl L -> bl !! x = Some (Block n Raw p) -> 0 <= c <= 1 ->
  exists k', st (hflags x) (flags_of c p) (Heap s0 e hd bc k) = Val (tt, Heap s0 e hd bc k') /\
    arena s e hd k' bl L /\ quiet s e bl k k' /\ load64 k' (x + 8) = Some (flags_of c p).
Proof.
  intros [OK Hrw HR Hlink Hseg] Hx Hc. pose proof (bo_range _ _ _ OK _ _ Hx) as Rx. cbn [b_sz] in Rx.
  pose proof (bo_arena _ _ _ OK) as RA.
  destruct (arena_st (rw := rw) (env := env) (Heap s0 e hd bc k) s e (hflags x) (flags_of c p))
    as (k' & E & T & L' & W); [done|unfold hflags; lia|unfold hflags; lia|by apply flags_range|]. state_simpl. unfold hflags in *.
  destruct (rep_lookup _ _ _ _ _ _ HR Hx ltac:(done)) as (Hs & _).
  exists k'. split; [done|]. split_and!; [|eapply touch_mono; [exact T|]; intros y Hy; cbn beta in Hy; split; [lia|apply (payload_header OK x _ y Hx); lia]|done].
  split; try done.
  - replace bl with (<[x := Block n Raw p]> bl) by (by apply insert_id).
    eapply rep_update; [done|done|exact T|exact Hx|cbn [b_sz]; lia|]. split; cbn [b_kd b_sz b_pf]; [| |done].
    + intros _. rewrite <- Hs. apply (load64_st_ne _ _ _ _ T). lia.
    + exists c. by split.
  - eapply seg_touch; [exact T| |exact Hseg]. intros y (m & Hm & Hy) Hyx. cbn beta in Hyx.
    apply (interior_meta _ _ _ _ y _ _ OK (nodes_interior _ _ _ _ _ OK Hlink Hm) Hy Hx). left. lia.
Qed.

(** Making a block raw keeps the arena. *)
Lemma arena_raw s e hd k bl L x n p : arena s e hd k bl L -> bl !! x = Some (Block n Used p) ->
  arena s e hd k (<[x := Block n Raw p]> bl) L.
Proof.
  intros [OK Hrw HR Hlink Hseg] Hx. split; [by eapply ok_to_raw|done|by eapply rep_raw| |done].
  eapply link_same; [done|]. apply is_free_insert; [|done]. intros b. rewrite Hx. by intros [= <-].
Qed.

Lemma heap_free_spec s e hd bc k bl L s0 x n p : arena s e hd k bl L -> settled bl -> bl !! x = Some (Block n Used p) ->
  exists hd' k' bl' L', heap_free (x + 16) (Heap s0 e hd bc k) = Val (tt, Heap s0 e hd' bc k') /\
    arena s e hd' k' bl' L' /\ settled bl' /\ quiet s e (<[x := Block n Raw p]> bl) k k' /\
    (forall a m, in_use bl' a m <-> in_use bl a m /\ a <> x) /\ (p = false -> is_free bl' x).
Proof.
  intros HA HS Hx. pose proof (ar_rep _ _ _ _ _ _ HA) as HR. pose proof (bo_range _ _ _ (ar_tiles _ _ _ _ _ _ HA) _ _ Hx) as Rx.
  cbn [b_sz] in Rx. destruct (rep_lookup _ _ _ _ _ _ HR Hx ltac:(done)) as (_ & c & Hc & Hf & _ & Hc1).
  pose proof (arena_raw _ _ _ _ _ _ _ _ _ HA Hx) as HA0. pose proof (settled_raw _ _ _ _ _ HS Hx) as HS0.
  assert (Hx0 : <[x := Block n Raw p]> bl !! x = Some (Block n Raw p)) by apply lookup_insert_eq.
  assert (HU : forall a m, in_use (<[x := Block n Raw p]> bl) a m <-> in_use bl a m /\ a <> x).
  { intros a m. unfold in_use. destruct (decide (a = x)) as [->|Hne].
    - rewrite Hx0. split; [by intros [q [= ]]|tauto].
    - rewrite lookup_insert_ne by done. tauto. }
  set (bl0 := <[x := Block n Raw p]> bl) in *.
  destruct (absorb_next_spec s e hd bc k bl0 L s0 x n p HA0 Hx0)
    as (hd1 & k1 & bl1 & L1 & n1 & E1 & HA1 & Q1 & B1 & Hx1 & Hn1 & Hf1 & Hnf1 & Hsub).
  { intros b Hb. apply (HS0 _ _ Hb). lia. }
  assert (HS1 : settled_but x bl1) by (intros a b Hb Hne; apply (HS0 a b); [by apply Hsub|done]).
  destruct (absorb_prev_spec s e hd1 bc k1 bl1 L1 s0 x n1 p HA1 HS1 Hx1)
    as (hd2 & k2 & bl2 & L2 & y & n2 & E2 & HA2 & Q2 & B2 & Hy2 & Ey & HS2 & Hnext & Hyx).
  pose proof (bo_range _ _ _ (ar_tiles _ _ _ _ _ _ HA2) _ _ Hy2) as Ry. cbn [b_sz] in Ry.
  destruct (rep_lookup _ _ _ _ _ _ (ar_rep _ _ _ _ _ _ HA2) Hy2 ltac:(done)) as (_ & d & Hd & Hfy & _).
  destruct (raw_flags s e hd2 bc k2 bl2 L2 s0 y n2 false 0 HA2 Hy2 ltac:(lia)) as (k3 & E3 & HA3 & Q3 & Hf3).
  destruct (fl_insert_spec s e hd2 bc k3 bl2 L2 s0 y n2 HA3 Hy2 Hf3) as (k4 & E4 & HA4 & Q4 & B4).
  { intros b. rewrite Ey. intros Hb%Hnext. by apply Hnf1. }
  exists (y + 16), k4, (settle (bl := bl2) y n2 Free false), (y + 16 :: L2). split_and!; [|done| | | |].
  - unfold heap_free, HEADER_SZ. cbv zeta. rewrite Z.add_simpl_r. unfold mbind. unfold M_bind at 1. unfold hflags at 1. run_ld Hf.
    rewrite flags_alloc, Hc1 by done. change (negb (1 =? 1)) with false. cbv iota. unfold M_bind at 1. rewrite E1. unfold M_bind at 1. rewrite E2.
    unfold M_bind at 1. run_ld Hfy. rewrite flags_clear_alloc by done. unfold M_bind at 1. rewrite E3. exact E4.
  - intros a b Hb. destruct (decide (a = y)) as [->|Hne].
    + right. rewrite settle_x in Hb by (done || lia). by injection Hb as <-.
    + destruct (kinds_settle bl2 y n2 Free false ltac:(lia) Hy2 a b Hb Hne) as (b0 & Hb0 & ->). by apply (HS2 a).
  - eapply arena_quiet_trans; [exact B1|exact Q1|]. eapply arena_quiet_trans; [exact B2|exact Q2|].
    eapply arena_quiet_trans; [apply same_busy_refl|exact Q3|exact Q4].
  - intros a m. rewrite <- HU, !in_use_held. rewrite <- (B4 a m Used), <- (B2 a m Used), <- (B1 a m Used) by (by left). done.
  - intros Hp. rewrite <- (Hyx Hp). exists (Block n2 Free false). split; [apply settle_x; [lia|done]|done].
Qed.

(** A second [free] of a block that is still free stops the program. *)
Lemma heap_free_again s e hd bc k bl L s0 x n p : arena s e hd k bl L -> bl !! x = Some (Block n Free p) ->
  heap_free (x + 16) (Heap s0 e hd bc k) = Died DOUBLE_FREE.
Proof.
  intros HA Hx. destruct (rep_lookup _ _ _ _ _ _ (ar_rep _ _ _ _ _ _ HA) Hx ltac:(done)) as (_ & c & Hc & Hf & Hc0 & _).
  unfold heap_free, HEADER_SZ. cbv zeta. rewrite Z.add_simpl_r. unfold mbind, M_bind, hflags. run_ld Hf.
  by rewrite flags_alloc, Hc0.
Qed.

End Ops.
