(* ===== verification/MallocGrow.v ===== *)
(** * The allocator and the kernel: growing the arena, mappings, the invariant

  [heap_inv] is the state of the allocator between two calls: the arena ends at
  the break, the mapped blocks lie above it, the program itself moves neither.
  The lemmas say what [arena_init], [arena_grow] and the two ways to allocate do to
  it. *)
From S2P Require Import Prelude PhysMem UserWorld LibcMem Malloc MallocHeap MallocOps.

Section Grow.
Context {K : Type} {UB : UserBytes K} {rw : K -> Z -> Prop} {env : K -> K -> Prop} {UL : UserBytesLaws K rw env}.
Context {UK : UserKernel K} {kinv : K -> Prop} {brk_now : K -> Z} {KL : UserKernelLaws kinv brk_now}.

Notation arena := (arena (rw := rw)).
Notation quiet := (quiet (env := env)).
Notation touch := (touch (env := env)).
Notation keeps := (keeps rw).
Notation took := (took (rw := rw) (env := env)).

(** ** Calls of the kernel *)

Lemma load64_keeps k k' a : keeps k k' -> rw_range (rw := rw) k a 8 -> load64 k' a = load64 k a.
Proof. intros HK Hw. apply load64_ext. intros x Hx. apply HK, Hw, Hx. Qed.

Lemma rw_range_sub k a n b m : rw_range (rw := rw) k a n -> a <= b -> b + m <= a + n -> rw_range (rw := rw) k b m.
Proof. intros H Ha Hb x Hx. apply H. lia. Qed.

Lemma rep_keeps s e k k' bl : bl_ok s e bl -> rw_range (rw := rw) k s (e - s) -> keeps k k' -> rep k bl -> rep k' bl.
Proof.
  intros OK Hrw HK HR a b Hb. pose proof (bo_range _ _ _ OK _ _ Hb).
  assert (HE : forall w, a <= w -> w + 8 <= a + b_sz b -> load64 k' w = load64 k w).
  { intros w ??. apply load64_keeps; [done|]. apply (rw_range_sub _ s (e - s)); [done|lia..]. }
  destruct (HR _ _ Hb) as [H1 (c & H2 & H3) H4]. split.
  - intros Hk. rewrite HE by lia. auto.
  - exists c. rewrite HE by lia. done.
  - intros Hk. rewrite !HE by lia. auto.
Qed.

Lemma arena_keeps s e hd k k' bl L : arena s e hd k bl L -> keeps k k' -> arena s e hd k' bl L.
Proof.
  intros [OK Hrw HR Hlink Hseg] HK. split; [done| |by eapply rep_keeps|done|].
  - intros x Hx. apply HK, Hrw, Hx.
  - eapply seg_ext; [|exact Hseg]. intros n Hn. pose proof (interior_range _ _ _ _ OK (nodes_interior _ _ _ _ _ OK Hlink Hn)).
    split; (apply load64_keeps; [done|]; apply (rw_range_sub _ s (e - s)); [done|lia..]).
Qed.

Lemma payload_keeps s e hd k k' bl L y : arena s e hd k bl L -> keeps k k' -> payload bl y -> ubyte k' y = ubyte k y.
Proof.
  intros [OK Hrw _ _ _] HK Hp. apply HK, Hrw. pose proof (payload_arena OK _ Hp). lia.
Qed.

(** What moving the break by [c] from a true cache gives. *)
Definition sbrk_result (k : K) (c r bc' : Z) (k' : K) : Prop :=
  kinv k' /\ keeps k k' /\ (bc' = 0 \/ bc' = brk_now k') /\
  (r = brk_now k /\ brk_now k' = brk_now k + c /\
     (forall x, brk_now k <= x < brk_now k + c -> rw k' x /\ ~ rw k x) \/
   r = -1 /\ brk_now k' = brk_now k).

Lemma sbrk_cached_spec s e hd k c : kinv k -> 0 < c < 2 ^ 48 -> c mod 4096 = 0 ->
  exists r bc' k', sbrk_cached c (Heap s e hd (brk_now k) k) = Val (r, Heap s e hd bc' k') /\ sbrk_result k c r bc' k'.
Proof.
  intros Hk Hc Hc4. destruct (brk_range k Hk) as [Hb Hb4]. unfold USER_TOP in Hb.
  unfold sbrk_cached, mbind, M_bind, get. cbn [brk_cache]. rewrite i64_id by lia.
  rewrite (proj2 (Z.ltb_ge _ 0)) by lia. unfold sys_brk. cbn [world].
  assert (Hnb : brk_now k < brk_now k + c < 2 ^ 63) by lia.
  pose proof (brk_move k (brk_now k + c) Hk Hnb) as HM.
  destruct (k_brk k (brk_now k + c)) as [r k'].
  destruct HM as (Hk' & HK & [(-> & E & Hnew)|(Hr & E)]); [by rewrite Z.add_mod, Hb4, Hc4| |].
  - rewrite Z.eqb_refl. cbn [negb]. exists (brk_now k), (brk_now k + c), k'. split; [done|].
    split; [done|]. split; [done|]. split; [by right|]. by left.
  - rewrite (proj2 (Z.eqb_neq _ _)) by done. cbn [negb]. exists (-1), (brk_now k), k'. split; [done|].
    split; [done|]. split; [done|]. split; [by right|]. by right.
Qed.

(** [sys_sbrk] by a positive number of pages, from a cache that is empty or true. *)
Lemma sys_sbrk_spec s e hd bc k c : kinv k -> bc = 0 \/ bc = brk_now k -> 0 < c < 2 ^ 48 -> c mod 4096 = 0 ->
  exists r bc' k', sys_sbrk c (Heap s e hd bc k) = Val (r, Heap s e hd bc' k') /\ sbrk_result k c r bc' k'.
Proof.
  intros Hk Hbc Hc Hc4. destruct (brk_range k Hk) as [Hb Hb4].
  unfold sys_sbrk, mbind. rewrite (proj2 (Z.eqb_neq c 0)) by lia.
  unfold M_bind at 1, get at 1. cbn [brk_cache]. destruct Hbc as [->| ->].
  - cbn [Z.eqb]. unfold M_bind at 1. unfold sys_brk at 1. cbn [world]. rewrite brk_query by done.
    rewrite (proj2 (Z.leb_gt _ 0)) by lia. unfold M_bind at 1, put at 1. state_simpl. by apply sbrk_cached_spec.
  - rewrite (proj2 (Z.eqb_neq (brk_now k) 0)) by lia. by apply sbrk_cached_spec.
Qed.

(** ** Growing the arena *)

(** The free block that ends at the arena's end, or 0 when there is none. *)
Lemma top_free_loop_spec s e hd bc k bl L : arena s e hd k bl L ->
  forall L2 prev cur fuel, (forall n, n ∈ L2 -> n ∈ L) -> seg k prev cur L2 0 -> (length L2 < fuel)%nat ->
  exists r, top_free_loop fuel cur (Heap s e hd bc k) = Val (r, Heap s e hd bc k) /\
    (r = 0 /\ (forall n b, n ∈ L2 -> bl !! (n - 16) = Some b -> n - 16 + b_sz b <> e) \/
     exists n p, 0 < r /\ bl !! r = Some (Block n Free p) /\ r + n = e).
Proof.
  intros HA L2. pose proof HA as [OK _ HR [_ Hl] _]. pose proof (bo_arena _ _ _ OK) as RA.
  induction L2 as [|n L2 IH]; intros prev cur [|fuel] Hsub Hseg Hfuel; cbn [length] in Hfuel; try lia; cbn [top_free_loop].
  - cbn [seg] in Hseg. subst cur. exists 0. split; [done|]. left. split; [done|]. intros n b Hb. by apply not_elem_of_nil in Hb.
  - destruct Hseg as (-> & _ & c & Hc & Hseg). destruct (proj1 (Hl n) (Hsub n ltac:(by left))) as ([m kd p] & Hb & Hk).
    cbn [b_kd] in Hk. subst kd. pose proof (bo_range _ _ _ OK _ _ Hb) as Rb. cbn [b_sz] in Rb.
    destruct (rep_lookup _ _ _ _ _ _ HR Hb ltac:(done)) as (Hs & _).
    rewrite (proj2 (Z.eqb_neq n 0)) by lia. unfold mbind. unfold M_bind at 1. unfold HEADER_SZ. run_ld Hs.
    unfold M_bind at 1, get. cbn [a_end]. destruct (Z.eqb_spec (n - 16 + m) e) as [He|Hne].
    + exists (n - 16). split; [done|]. right. exists m, p. split_and!; [lia|done|done].
    + unfold M_bind. run_ld Hc. destruct (IH n c fuel) as (r & E & Hr); [by intros a Ha; apply Hsub; right|done|lia|].
      exists r. split; [exact E|]. destruct Hr as [(-> & Hall)|Hr]; [left|by right].
      split; [done|]. intros a b [->|Ha]%elem_of_cons Hb'; [|by eapply Hall]. rewrite Hb in Hb'. by injection Hb' as <-.
Qed.

Lemma top_free_block_spec s e hd bc k bl L : arena s e hd k bl L ->
  exists r, top_free_block (Heap s e hd bc k) = Val (r, Heap s e hd bc k) /\
    (r = 0 /\ (forall a b, bl !! a = Some b -> a + b_sz b = e -> b_kd b <> Free) \/
     exists n p, 0 < r /\ bl !! r = Some (Block n Free p) /\ r + n = e).
Proof.
  intros HA. pose proof HA as [OK _ _ Hlink Hseg]. unfold top_free_block, mbind, M_bind, get. cbn [free_head].
  destruct (top_free_loop_spec s e hd bc k bl L HA L 0 hd (list_fuel (Heap s e hd bc k))) as (r & E & Hr); [done|done| |].
  { unfold list_fuel. cbn [a_end a_start]. pose proof (list_length _ _ _ _ OK Hlink). lia. }
  exists r. split; [exact E|]. destruct Hr as [(-> & Hall)|Hr]; [left|by right]. split; [done|].
  intros a b Hb Hae Hk. apply (Hall (a + 16) b); [|by rewrite Z.add_simpl_r|lia]. apply Hlink. rewrite Z.add_simpl_r. by exists b.
Qed.

Lemma set_pf_none bl a p : bl !! a = None -> set_pf a p bl = bl.
Proof.
  intros H. unfold set_pf. apply map_eq. intros i. destruct (decide (i = a)) as [->|].
  - by rewrite lookup_alter_eq, H.
  - by rewrite lookup_alter_ne.
Qed.

(** The payloads in use and what is in use. *)
Definition busy_kept (bl bl' : gmap Z block) (k k' : K) : Prop :=
  same_busy bl bl' /\ forall y, payload bl y -> ubyte k' y = ubyte k y.

(** The extended arena after a call of [arena_grow]: a block of at least [c]
  bytes is free. *)
Definition grown (s e hd bc : Z) (k : K) (bl : gmap Z block) (c : Z) (h' : heap K) : Prop :=
  exists hd' k' bl' L', h' = Heap s (e + c) hd' bc k' /\ arena s (e + c) hd' k' bl' L' /\ settled bl' /\
    busy_kept bl bl' k k' /\ touch k k' (fun y => s <= y < e + c) /\
    exists x b, bl' !! x = Some b /\ b_kd b = Free /\ c <= b_sz b.

Lemma quiet_touch s e bl k k' (T : Z -> Prop) : quiet s e bl k k' -> (forall y, s <= y < e -> T y) -> touch k k' T.
Proof. intros Q HT. eapply touch_mono; [exact Q|]. intros y [Hy _]. by apply HT. Qed.

Lemma settled_settle bl x n p : 0 < n -> bl !! x = Some (Block n Raw p) -> settled_but x bl ->
  settled (settle (bl := bl) x n Free p).
Proof.
  intros Hn Hx HS a b Hb. destruct (decide (a = x)) as [->|Hne].
  - right. rewrite settle_x in Hb by done. by injection Hb as <-.
  - destruct (kinds_settle bl x n Free p Hn Hx a b Hb Hne) as (b0 & Hb0 & ->). by apply (HS a).
Qed.

(** A fresh block of [c] bytes above an arena whose last block is not free. *)
Lemma grow_new_spec s e hd bc k bl L c : arena s e hd k bl L -> settled bl ->
  48 <= c -> c mod 16 = 0 -> e + c <= USER_TOP -> rw_range (rw := rw) k e c ->
  (forall a b, bl !! a = Some b -> a + b_sz b = e -> b_kd b <> Free) ->
  exists h', grow_new c (Heap s e hd bc k) = Val (tt, h') /\ grown s e hd bc k bl c h'.
Proof.
  intros [OK Hrw HR Hlink Hseg] HS Hc Hc16 Htop Hnew Hlast. pose proof (bo_arena _ _ _ OK) as RA. unfold USER_TOP in *.
  assert (Hrw' : rw_range (rw := rw) k s (e + c - s)).
  { intros y Hy. destruct (Z.lt_ge_cases y e); [apply Hrw; lia|apply Hnew; lia]. }
  pose proof (ok_snoc OK c Hc Hc16 Htop Hlast) as OK'. set (bl1 := <[e := Block c Raw false]> bl) in *.
  assert (He : bl !! e = None).
  { destruct (bl !! e) as [b|] eqn:E; [|done]. pose proof (bo_range _ _ _ OK _ _ E). lia. }
  assert (He1 : bl1 !! e = Some (Block c Raw false)) by apply lookup_insert_eq.
  destruct (arena_st (rw := rw) (env := env) (Heap s e hd bc k) s (e + c) (hsize e) c) as (k1 & E1 & T1 & L1 & W1);
    [done|unfold hsize; lia..|]. state_simpl.
  destruct (arena_st (rw := rw) (env := env) (Heap s e hd bc k1) s (e + c) (hflags e) 0) as (k2 & E2 & T2 & L2 & W2);
    [done|unfold hflags; lia..|]. state_simpl. unfold hsize, hflags in *.
  assert (T12 : touch k k2 (fun y => e <= y < e + 16)).
  { eapply touch_trans; (eapply touch_mono; [eassumption|]); intros y Hy; cbn beta in Hy; lia. }
  assert (Hs2 : load64 k2 e = Some c) by (rewrite <- L1; apply (load64_st_ne _ _ _ _ T2); lia).
  assert (HR2 : rep k2 bl1).
  { eapply rep_insert; [exact HR|exact T12| |].
    - intros a b Hb _ y Hm Hy. pose proof (bo_range _ _ _ OK _ _ Hb). destruct Hm as [?|[_ ?]]; lia.
    - split; cbn [b_kd b_sz b_pf]; [done| |done]. exists 0. split; [done|lia]. }
  assert (Hin : forall y, e + c - 16 <= y < e + c -> exists m, interior bl1 m /\ m <= y < m + 16).
  { intros y Hy. exists (e + c - 16). split; [eapply raw_interior; [exact OK'|exact He1|lia..]|lia]. }
  destruct (arena_st (rw := rw) (env := env) (Heap s (e + c) hd bc k2) s (e + c) (e + c - 16) c) as (k3 & E3 & T3 & L3 & W3);
    [done|lia..|]. state_simpl.
  destruct (arena_st (rw := rw) (env := env) (Heap s (e + c) hd bc k3) s (e + c) (e + c - 16 + 8) 0) as (k4 & E4 & T4 & L4 & W4);
    [done|lia..|]. state_simpl.
  assert (T34 : touch k2 k4 (fun y => e + c - 16 <= y < e + c)).
  { eapply touch_trans; (eapply touch_mono; [eassumption|]); intros y Hy; cbn beta in Hy; lia. }
  pose proof (rep_interior _ _ _ _ _ _ OK' HR2 T34 Hin) as HR4.
  assert (TT : touch k k4 (fun y => e <= y < e + c)).
  { eapply touch_trans; (eapply touch_mono; [eassumption|]); intros y Hy; cbn beta in Hy; lia. }
  assert (HA4 : arena s (e + c) hd k4 bl1 L).
  { split; [done|done|done| |].
    - eapply link_same; [exact Hlink|]. apply is_free_insert; [by rewrite He|done].
    - eapply seg_touch; [exact TT| |exact Hseg]. intros y (m & Hm & Hy) Hye. cbn beta in Hye.
      pose proof (interior_range _ _ _ _ OK (nodes_interior _ _ _ _ _ OK Hlink Hm)). lia. }
  destruct (fl_insert_spec s (e + c) hd bc k4 bl1 L s e c HA4 He1) as (k5 & E5 & HA5 & Q5 & B5).
  { rewrite <- L2. apply (load64_touch _ _ _ _ T34). intros y Hy. lia. }
  { intros b Hb. pose proof (bo_range _ _ _ OK' _ _ Hb). lia. }
  assert (B1 : same_busy bl bl1) by (by apply same_busy_new).
  exists (Heap s (e + c) (e + 16) bc k5). split.
  - unfold grow_new, mbind, get. unfold M_bind at 1. cbn [a_end]. cbv zeta. unfold M_bind at 1. unfold hsize at 1. rewrite E1.
    unfold M_bind at 1. unfold hflags at 1. rewrite E2. unfold M_bind at 1, put. state_simpl.
    unfold insert_new, FOOT, mbind. unfold M_bind at 1. unfold M_bind at 1. run_ld Hs2. cbn [mret M_ret].
    unfold HEADER_SZ, hsize, hflags. unfold M_bind at 1. rewrite E3. unfold M_bind at 1. rewrite E4. exact E5.
  - exists (e + 16), k5, (settle (bl := bl1) e c Free false), (e + 16 :: L). split; [done|]. split; [done|].
    split; [|split; [|split]].
    + apply settled_settle; [lia|done|]. intros a b Hb Hne. unfold bl1 in Hb. rewrite lookup_insert_ne in Hb by done. by apply (HS a).
    + split; [by eapply same_busy_trans|]. intros y Hp. transitivity (ubyte k4 y).
      * apply Q5. intros [_ Hn]. apply Hn. by apply (same_busy_payload _ _ y B1).
      * apply TT. pose proof (payload_arena OK _ Hp). lia.
    + eapply touch_trans; [eapply touch_mono; [exact TT|]; intros y Hy; cbn beta in Hy; lia|].
      eapply quiet_touch; [exact Q5|]. lia.
    + exists e, (Block c Free false). split; [apply settle_x; [lia|done]|]. by cbn [b_kd b_sz].
Qed.

(** The free block at the end takes the new bytes. *)
Lemma grow_top_spec s e hd bc k bl L c x n p : arena s e hd k bl L -> settled bl ->
  48 <= c -> c mod 16 = 0 -> e + c <= USER_TOP -> rw_range (rw := rw) k e c ->
  bl !! x = Some (Block n Free p) -> x + n = e ->
  exists h', grow_top x c (Heap s e hd bc k) = Val (tt, h') /\ grown s e hd bc k bl c h'.
Proof.
  intros [OK Hrw HR Hlink Hseg] HS Hc Hc16 Htop Hnew Hx He. pose proof (bo_arena _ _ _ OK) as RA. unfold USER_TOP in *.
  pose proof (bo_range _ _ _ OK _ _ Hx) as Rx. cbn [b_sz] in Rx.
  assert (p = false) as -> by exact (settled_pf _ _ _ _ _ OK HS Hx eq_refl).
  assert (Hrw' : rw_range (rw := rw) k s (e + c - s)).
  { intros y Hy. destruct (Z.lt_ge_cases y e); [apply Hrw; lia|apply Hnew; lia]. }
  destruct (rep_lookup _ _ _ _ _ _ HR Hx ltac:(done)) as (Hs & d & Hd & Hf & Hd0 & _). rewrite Hd0 in Hf by done.
  change (flags_of 0 false) with 0 in Hf. pose proof (ok_extend OK x n Free false c Hx He ltac:(lia) Hc16 Htop) as OK1.
  set (bl1 := <[x := Block (n + c) Raw false]> bl) in *.
  assert (Hx1 : bl1 !! x = Some (Block (n + c) Raw false)) by apply lookup_insert_eq.
  destruct (arena_st (rw := rw) (env := env) (Heap s e hd bc k) s (e + c) (hsize x) (n + c)) as (k1 & E1 & T1 & L1 & W1);
    [done|unfold hsize; lia..|]. state_simpl. unfold hsize in *.
  assert (Hf1 : load64 k1 (x + 8) = Some 0) by (rewrite <- Hf; apply (load64_st_ne _ _ _ _ T1); lia).
  destruct (mirror_spec (Heap s e hd bc k1) s (e + c) x (n + c) 0) as (k2 & E2 & T2 & L2 & L2' & W2);
    [done|lia|lia|lia|unfold USER_TOP; lia|done|done|]. state_simpl.
  assert (Hs2 : load64 k2 x = Some (n + c)) by (rewrite <- L1; apply (load64_touch _ _ _ _ T2); lia).
  assert (Hf2 : load64 k2 (x + 8) = Some 0) by (rewrite <- Hf1; apply (load64_touch _ _ _ _ T2); lia).
  assert (TT : touch k k2 (fun y => x <= y < x + 8 \/ x + (n + c) - 16 <= y < x + (n + c))).
  { eapply touch_trans; (eapply touch_mono; [eassumption|]); intros y Hy; cbn beta in Hy; lia. }
  assert (HR2 : forall b, brep k2 x b -> rep k2 (<[x := b]> bl)).
  { intros b. eapply rep_insert; [exact HR|exact TT|].
    intros a' b' Hb' Hne y Hm Hy. cbn beta in Hy. pose proof (bo_range _ _ _ OK _ _ Hb').
    destruct (bl_cases OK _ _ _ _ Hx Hb') as [[? _]|Ha]; [congruence|]. cbn [b_sz] in Ha. destruct Hm as [?|[_ ?]]; lia. }
  assert (Hnone : <[x := Block (n + c) Free false]> bl1 !! (x + (n + c)) = None).
  { destruct (_ !! (x + (n + c))) as [b|] eqn:E; [|done]. rewrite lookup_insert_ne in E by lia.
    pose proof (bo_range _ _ _ OK1 _ _ E). lia. }
  assert (EF : settle (bl := bl1) x (n + c) Free false = <[x := Block (n + c) Free false]> bl).
  { unfold settle. rewrite set_pf_none by done. unfold bl1. by rewrite insert_insert_eq. }
  exists (Heap s (e + c) hd bc k2). split.
  - unfold grow_top, mbind. unfold M_bind at 1. unfold hsize at 1. run_ld Hs. rewrite u64_id by lia.
    unfold M_bind at 1. unfold hsize at 1. rewrite E1. unfold M_bind at 1. rewrite E2. done.
  - exists hd, k2, (settle (bl := bl1) x (n + c) Free false), L. split; [done|]. split; [|split; [|split; [|split]]].
    + split; [| | | |].
      * apply (ok_settle OK1 x (n + c) false Free Hx1); [by right|]. intros _ b Hb.
        pose proof (bo_range _ _ _ OK1 _ _ Hb). lia.
      * done.
      * rewrite EF. apply HR2. split; cbn [b_kd b_sz b_pf]; [done|by exists 0|].
        intros _. rewrite Hf2. done.
      * eapply link_same; [exact Hlink|]. intros a. rewrite is_free_settle by (done || lia). unfold bl1, is_free.
        destruct (decide (a = x)) as [->|Hne].
        -- split; [intros _; by eexists|by left].
        -- rewrite lookup_insert_ne by done. naive_solver.
      * eapply seg_touch; [exact TT| |exact Hseg]. intros y (m & Hm & Hy) Hyx. cbn beta in Hyx.
        destruct Hyx as [Hyx|Hyx].
        -- apply (interior_meta _ _ _ _ y _ _ OK (nodes_interior _ _ _ _ _ OK Hlink Hm) Hy Hx). left. lia.
        -- pose proof (interior_range _ _ _ _ OK (nodes_interior _ _ _ _ _ OK Hlink Hm)). lia.
    + apply settled_settle; [lia|done|]. intros a b Hb Hne. unfold bl1 in Hb. rewrite lookup_insert_ne in Hb by done. by apply (HS a).
    + split.
      * eapply same_busy_trans; [|apply same_busy_set_pf]. unfold bl1. rewrite insert_insert_eq.
        by eapply same_busy_insert.
      * intros y Hp. apply TT. intros Hy. eapply (payload_free OK x _ y); [exact Hx|done|cbn [b_sz]|exact Hp].
        pose proof (payload_arena OK _ Hp). lia.
    + eapply touch_mono; [exact TT|]. intros y Hy. cbn beta in Hy. lia.
    + exists x, (Block (n + c) Free false). split; [apply settle_x; [lia|done]|]. cbn [b_kd b_sz]. split; [done|lia].
Qed.

Lemma grow_chunk need : 0 < need < 2 ^ 47 ->
  let chunk := u64 (need + PAGE_SZ - 1) / PAGE_SZ * PAGE_SZ in
  let chunk := if chunk <? PAGE_SZ then PAGE_SZ else chunk in
  need <= chunk <= need + 4096 /\ chunk mod 4096 = 0 /\ 4096 <= chunk.
Proof.
  intros Hn. cbv zeta. unfold PAGE_SZ. rewrite u64_id by lia.
  destruct (Z.ltb_spec ((need + 4096 - 1) / 4096 * 4096) 4096); Z.div_mod_to_equations; lia.
Qed.

(** [arena_grow] from an arena that ends at the break: the kernel refused and
  nothing changed, or at least [need] more bytes are free. *)
Lemma arena_grow_spec s e hd bc k bl L need : arena s e hd k bl L -> settled bl -> kinv k -> e = brk_now k ->
  bc = 0 \/ bc = brk_now k -> 48 <= need < 2 ^ 40 ->
  exists r h', arena_grow need (Heap s e hd bc k) = Val (r, h') /\
    exists bc' k1 c, sbrk_result k c (if r then -1 else brk_now k) bc' k1 /\
    if (r : bool) then h' = Heap s e hd bc' k1 else need <= c /\ grown s e hd bc' k1 bl c h'.
Proof.
  intros HA HS Hk He Hbc Hn. destruct (grow_chunk need ltac:(lia)) as (Hc & Hc4 & Hc5). unfold arena_grow.
  set (c := if _ <? PAGE_SZ then _ else _) in *. clearbody c.
  destruct (sys_sbrk_spec s e hd bc k c Hk Hbc ltac:(lia) Hc4) as (r & bc' & k1 & E1 & HR).
  unfold mbind. unfold M_bind at 1. rewrite E1. pose proof (brk_range k Hk) as [Hb _].
  pose proof HR as (Hk1 & HK & Hbc' & [(Hr & Hb1 & Hnew)|(Hr & Hb1)]); subst r.
  2: { exists true, (Heap s e hd bc' k1). split; [done|]. exists bc', k1, c. done. }
  rewrite (proj2 (Z.eqb_neq (brk_now k) (-1))) by lia. unfold M_bind at 1, get. cbn [a_end]. rewrite He, Z.eqb_refl, <- He. cbn [negb].
  pose proof (arena_keeps _ _ _ _ _ _ _ HA HK) as HA1. pose proof (brk_range k1 Hk1) as [Hb1' _].
  assert (Hc16 : c mod 16 = 0) by (Z.div_mod_to_equations; lia).
  assert (Hrw : rw_range (rw := rw) k1 e c) by (intros y Hy; apply Hnew; lia).
  destruct (top_free_block_spec s e hd bc' k1 bl L HA1) as (tb & E2 & [(-> & Hlast)|(n & p & Hpos & Hx & Hxe)]);
    unfold M_bind at 1; rewrite E2.
  - cbn [Z.eqb negb]. destruct (grow_new_spec s e hd bc' k1 bl L c HA1 HS ltac:(lia) Hc16 ltac:(lia) Hrw Hlast) as (h' & E3 & HG).
    exists false, h'. split; [unfold M_bind at 1; by rewrite E3|]. exists bc', k1, c.
    cbv iota. rewrite <- He in HR. split; [exact HR|split; [lia|exact HG]].
  - rewrite (proj2 (Z.eqb_neq tb 0)) by lia. cbn [negb].
    destruct (grow_top_spec s e hd bc' k1 bl L c tb n p HA1 HS ltac:(lia) Hc16 ltac:(lia) Hrw Hx Hxe) as (h' & E3 & HG).
    exists false, h'. split; [unfold M_bind at 1; by rewrite E3|]. exists bc', k1, c.
    cbv iota. rewrite <- He in HR. split; [exact HR|split; [lia|exact HG]].
Qed.

(** ** The state between two calls *)

(** The mapped blocks, by base and size: above the break, apart, each with its
  header. *)
Record maps_ok (k : K) (mm : gmap Z Z) : Prop := {
  mo_range : forall b n, mm !! b = Some n ->
    brk_now k <= b /\ b mod 4096 = 0 /\ n mod 4096 = 0 /\ 0 < n /\ rw_range (rw := rw) k b n;
  mo_head : forall b n, mm !! b = Some n -> load64 k b = Some n /\ load64 k (b + 8) = Some 5;
  mo_apart : forall b n b' n', mm !! b = Some n -> mm !! b' = Some n' -> b < b' -> b + n <= b'
}.

Definition mapped_byte (mm : gmap Z Z) (y : Z) : Prop := exists b n, mm !! b = Some n /\ b <= y < b + n.

Record heap_inv (h : heap K) (bl : gmap Z block) (L : list Z) (mm : gmap Z Z) : Prop := {
  hi_kinv : kinv (world h);
  hi_cache : brk_cache h = 0 \/ brk_cache h = brk_now (world h);
  hi_settled : settled bl;
  hi_arena : (a_start h = 0 /\ a_end h = 0 /\ free_head h = 0 /\ bl = ∅ /\ L = []) \/
    (arena (a_start h) (a_end h) (free_head h) (world h) bl L /\ a_end h = brk_now (world h));
  hi_maps : maps_ok (world h) mm
}.

(** The bytes the program owns are as before. *)
Definition bytes_kept (bl : gmap Z block) (mm : gmap Z Z) (k k' : K) : Prop :=
  forall y, payload bl y \/ mapped_byte mm y -> ubyte k' y = ubyte k y.

Lemma bytes_kept_trans bl bl' mm k1 k2 k3 : same_busy bl bl' -> bytes_kept bl mm k1 k2 -> bytes_kept bl' mm k2 k3 ->
  bytes_kept bl mm k1 k3.
Proof.
  intros HB H1 H2 y Hy. rewrite H2, H1; [done|done|]. by rewrite <- (same_busy_payload _ _ y HB).
Qed.

Lemma maps_keep k k' mm : maps_ok k mm ->
  (forall y, mapped_byte mm y -> rw k' y /\ ubyte k' y = ubyte k y) ->
  (forall b n, mm !! b = Some n -> brk_now k' <= b) -> maps_ok k' mm.
Proof.
  intros [H1 H2 H3] HK Hb. split; [| |done].
  - intros b n Hm. destruct (H1 b n Hm) as (_ & ? & ? & ? & _). split; [by eapply Hb|]. split_and!; [done..|].
    intros y Hy. apply HK. exists b, n. split; [done|lia].
  - intros b n Hm. destruct (H1 b n Hm) as (_ & ? & ? & ? & _).
    assert (16 <= n) by (Z.div_mod_to_equations; lia).
    rewrite (load64_ext k k' b), (load64_ext k k' (b + 8)); [by apply H2|..];
      intros y Hy; apply HK; exists b, n; (split; [done|lia]).
Qed.

(** A change below the break keeps the mapped blocks. *)
Lemma maps_touch k k' mm (T : Z -> Prop) : maps_ok k mm -> touch k k' T -> (forall y, T y -> y < brk_now k) -> maps_ok k' mm.
Proof.
  intros HM [E HT] Hlow. pose proof HM as [H1 _ _].
  assert (Hy : forall y, mapped_byte mm y -> brk_now k <= y /\ rw k y).
  { intros y (b & n & Hb & Hy). destruct (H1 _ _ Hb) as (? & _ & _ & _ & Hw). split; [lia|by apply Hw]. }
  eapply maps_keep; [done| |].
  - intros y Hm. destruct (Hy y Hm) as [? ?]. split; [by apply (env_rw _ _ E)|]. apply HT. intros ?%Hlow. lia.
  - intros b n Hb. rewrite (env_brk _ _ E). by apply H1 in Hb as [? _].
Qed.

Lemma quiet_inv s e bl mm k k' : e = brk_now k -> kinv k -> maps_ok k mm -> quiet s e bl k k' ->
  kinv k' /\ brk_now k' = brk_now k /\ maps_ok k' mm /\ bytes_kept bl mm k k'.
Proof.
  intros He Hk HM Q. pose proof Q as [E HQ]. split; [by eapply env_kinv|]. split; [by apply env_brk|]. split.
  - eapply maps_touch; [done|exact Q|]. intros y [? _]. lia.
  - intros y [Hp|(b & n & Hb & Hy)]; apply HQ; intros [Hys Hn]; [done|].
    destruct (mo_range _ _ HM _ _ Hb) as [? _]. lia.
Qed.

Lemma sbrk_maps k c r bc' k' mm : kinv k -> sbrk_result k c r bc' k' -> maps_ok k mm -> maps_ok k' mm.
Proof.
  intros Hk (Hk' & HK & _ & HR) HM. pose proof HM as [H1 _ _]. eapply maps_keep; [done| |].
  - intros y (b & n & Hb & Hy). destruct (H1 _ _ Hb) as (_ & _ & _ & _ & Hw). by apply HK, Hw.
  - intros b n Hb. destruct (H1 _ _ Hb) as (? & _ & _ & ? & Hw). destruct HR as [(_ & -> & Hnew)|(_ & ->)]; [|done].
    destruct (Z.lt_ge_cases b (brk_now k + c)); [|done]. exfalso. apply (Hnew b ltac:(lia)). apply Hw. lia.
Qed.

(** ** [arena_init] and [heap_alloc] *)

Lemma empty_arena k : kinv k -> arena (brk_now k) (brk_now k) 0 k ∅ [].
Proof.
  intros Hk. destruct (brk_range k Hk) as [Hb Hb4]. split.
  - split; [|by intros ??..]. split_and!; try lia; Z.div_mod_to_equations; lia.
  - intros x Hx. lia.
  - by intros a b Hb'.
  - split; [constructor|]. intros n. split; [by intros ?%not_elem_of_nil|]. by intros (b & ? & _).
  - done.
Qed.

Lemma arena_init_spec h bl L mm : heap_inv h bl L mm ->
  exists h', arena_init h = Val (false, h') /\ world h' = world h /\
    heap_inv h' bl L mm /\ arena (a_start h') (a_end h') (free_head h') (world h') bl L.
Proof.
  destruct h as [s e hd bc k]. intros HI. pose proof HI as [Hk Hc HS HA HM]. state_simpl.
  unfold arena_init, mbind, M_bind, get. cbn [a_start].
  destruct HA as [(-> & -> & -> & -> & ->)|[HA He]].
  - cbn [Z.eqb]. unfold sys_sbrk. cbn [Z.eqb]. unfold sys_brk. cbn [world]. rewrite brk_query by done.
    destruct (brk_range k Hk) as [Hb _]. rewrite (proj2 (Z.eqb_neq (brk_now k) (-1))) by lia. unfold put.
    exists (Heap (brk_now k) (brk_now k) 0 bc k). split; [done|]. split; [done|]. state_simpl.
    pose proof (empty_arena k Hk) as HE. split; [|done]. split; state_simpl; try done. by right.
  - pose proof (bo_arena _ _ _ (ar_tiles _ _ _ _ _ _ HA)) as RA. rewrite (proj2 (Z.eqb_neq s 0)) by lia.
    exists (Heap s e hd bc k). split; [done|]. split; [done|]. state_simpl. done.
Qed.

Lemma size_to_need_spec size : 0 <= size < 2 ^ 64 ->
  size_to_need size = 0 /\ 2 ^ 64 - 32 < size \/
  48 <= size_to_need size < 2 ^ 64 /\ size_to_need size mod 16 = 0 /\
    size + 16 <= size_to_need size <= Z.max 48 (size + 31).
Proof.
  intros Hs. unfold size_to_need, SIZE_MAX, HEADER_SZ, MIN_BLOCK.
  destruct (Z.ltb_spec (2 ^ 64 - 1 - (16 + 15)) size); [left; split; [done|lia]|right].
  assert (HA : size <= align16 size < size + 16 /\ align16 size mod 16 = 0).
  { unfold align16. rewrite u64_id by lia. change (2 ^ 64 - 1 - 15) with (2 ^ 64 - 2 ^ 4).
    rewrite land_high_mask by lia. change (2 ^ 4) with 16. Z.div_mod_to_equations. lia. }
  rewrite u64_id by lia. destruct (Z.ltb_spec (16 + align16 size) 48); [split_and!; (done || lia)|].
  split_and!; try lia. Z.div_mod_to_equations. lia.
Qed.

(** The arena after an allocation: a new payload [r], or 0. *)
Definition allocated (bl bl' : gmap Z block) (r size : Z) : Prop :=
  r = 0 /\ (forall a c, in_use bl' a c <-> in_use bl a c) \/
  r mod 16 = 0 /\ 0 < r /\ (forall c, ~ in_use bl (r - 16) c) /\
  exists m, size + 16 <= m /\ forall a c, in_use bl' a c <-> in_use bl a c \/ a = r - 16 /\ c = m.

Lemma free_not_in_use bl x : is_free bl x -> forall c, ~ in_use bl x c.
Proof. intros (b & Hb & Hk) c [p Hp]. rewrite Hb in Hp. by injection Hp as ->. Qed.

(** A successful cut, seen from the invariant. *)
Lemma took_inv s e bc k bl L0 L mm need r h' hd : heap_inv (Heap s e hd bc k) bl L mm -> arena s e hd k bl L0 -> e = brk_now k ->
  16 <= need -> took s e bc s k bl need r h' ->
  exists bl' L', heap_inv h' bl' L' mm /\ bytes_kept bl mm k (world h') /\ allocated bl bl' r (need - 16).
Proof.
  intros [Hk Hc HS _ HM] HA0 He Hn (hd' & k' & bl' & L' & x & m & -> & -> & HA & HS' & Q & Hm & Hf & HU). state_simpl.
  destruct (quiet_inv s e bl mm k k' He Hk HM Q) as (Hk' & Eb & HM' & HB).
  exists bl', L'. split; [|split; [done|]].
  - split; state_simpl; try done; [by rewrite Eb|right; by rewrite Eb].
  - right. pose proof (proj1 (HU x m) ltac:(by apply HU; right)) as _. destruct Hf as (b & Hb & Hkb).
    pose proof (bo_range _ _ _ (ar_tiles _ _ _ _ _ _ HA0) _ _ Hb) as Rb. pose proof (bo_arena _ _ _ (ar_tiles _ _ _ _ _ _ HA0)).
    rewrite Z.add_simpl_r. split_and!; [Z.div_mod_to_equations; lia|lia| |].
    + apply free_not_in_use. by exists b.
    + exists m. split; [lia|done].
Qed.

Lemma same_busy_in_use bl bl' : same_busy bl bl' -> forall a c, in_use bl' a c <-> in_use bl a c.
Proof. intros HB a c. rewrite !in_use_held. symmetry. apply HB. by left. Qed.

Lemma heap_alloc_spec h bl L mm size : heap_inv h bl L mm -> 0 <= size < 2 ^ 32 ->
  exists r h' bl' L', heap_alloc size h = Val (r, h') /\ heap_inv h' bl' L' mm /\
    bytes_kept bl mm (world h) (world h') /\ allocated bl bl' r size.
Proof.
  intros HI Hs. unfold heap_alloc, mbind.
  destruct (size_to_need_spec size ltac:(lia)) as [[_ ?]|(Hn & Hn16 & Hns)]; [lia|].
  set (need := size_to_need size) in *. clearbody need. rewrite (proj2 (Z.eqb_neq need 0)) by lia.
  destruct (arena_init_spec h bl L mm HI) as ([s e hd bc k] & E1 & Ew & HI1 & HA1). state_simpl. rewrite <- Ew.
  unfold M_bind at 1. rewrite E1. clear E1 Ew HI h. pose proof HI1 as [Hk Hc HS HA He]. state_simpl.
  assert (Heb : e = brk_now k).
  { destruct HA as [(-> & _)|[_ ?]]; [|done]. pose proof (bo_arena _ _ _ (ar_tiles _ _ _ _ _ _ HA1)). lia. }
  destruct (cut_first_fit_spec s e hd bc k bl L need HA1 HS ltac:(lia) Hn16) as (r & h1 & E2 & [(-> & -> & Hall)|[Hr HT]]);
    unfold M_bind at 1; rewrite E2.
  2: { rewrite (proj2 (Z.eqb_neq r 0)) by done. destruct (took_inv _ _ _ _ _ _ _ mm need _ _ _ HI1 HA1 Heb ltac:(lia) HT) as (bl' & L' & HI' & HB & HAl).
       exists r, h1, bl', L'. split; [done|]. split; [done|]. split; [done|].
       destruct HAl as [?|(? & ? & ? & m & ? & ?)]; [by left|right]. split_and!; [done..|]. exists m. split; [lia|done]. }
  cbn [Z.eqb]. destruct (arena_grow_spec s e hd bc k bl L need HA1 HS Hk Heb Hc ltac:(lia)) as (f & h2 & E3 & bc' & k1 & c & HR & HG).
  unfold M_bind at 1. rewrite E3. pose proof HR as (Hk1 & HK & Hbc' & HR').
  pose proof (sbrk_maps _ _ _ _ _ _ Hk HR He) as HM1.
  assert (HB1 : bytes_kept bl mm k k1).
  { intros y [Hp|(b & n & Hb & Hy)]; [by eapply payload_keeps|]. apply HK. destruct (mo_range _ _ He _ _ Hb) as (_ & _ & _ & _ & Hw). by apply Hw. }
  destruct f.
  { subst h2. exists 0, (Heap s e hd bc' k1), bl, L. split; [done|]. split; [|split; [done|by left]].
    destruct HR' as [(? & _)|(_ & Eb)]; [pose proof (brk_range k Hk); lia|].
    split; state_simpl; try done. right. split; [by eapply arena_keeps|by rewrite Eb]. }
  destruct HG as (Hc' & hd2 & k2 & bl2 & L2 & -> & HA2 & HS2 & [HB2 HP2] & T2 & x & b & Hx & Hxk & Hxs).
  destruct HR' as [(_ & Eb & _)|(? & _)]; [|pose proof (brk_range k Hk); lia].
  pose proof T2 as [E2' T2'].
  assert (HM2 : maps_ok k2 mm) by (eapply maps_touch; [exact HM1|exact T2|]; intros y Hy; cbn beta in Hy; lia).
  assert (HBk : bytes_kept bl mm k1 k2).
  { intros y [Hp|(b' & n & Hb & Hy)]; [by apply HP2|]. apply T2'. intros Hy'.
    destruct (mo_range _ _ HM1 _ _ Hb) as [? _]. lia. }
  assert (Heb2 : e + c = brk_now k2) by (rewrite (env_brk (brk_now := brk_now) k1 k2 E2'); lia).
  assert (HI2 : heap_inv (Heap s (e + c) hd2 bc' k2) bl2 L2 mm).
  { split; state_simpl; try done; [by eapply env_kinv|by rewrite (env_brk (brk_now := brk_now) k1 k2 E2')|right]. split; [done|].
    rewrite (env_brk (brk_now := brk_now) k1 k2 E2'). lia. }
  destruct (cut_first_fit_spec s (e + c) hd2 bc' k2 bl2 L2 need HA2 HS2 ltac:(lia) Hn16) as (r & h1 & E4 & [(_ & _ & Hall2)|[Hr HT]]).
  { specialize (Hall2 _ _ Hx Hxk). lia. }
  destruct (took_inv _ _ _ _ _ _ _ mm need _ _ _ HI2 HA2 Heb2 ltac:(lia) HT) as (bl' & L' & HI' & HB & HAl).
  exists r, h1, bl', L'. split; [exact E4|]. split; [done|]. split.
  - eapply bytes_kept_trans; [apply same_busy_refl|exact HB1|]. eapply bytes_kept_trans; [apply same_busy_refl|exact HBk|].
    intros y Hy. apply HB. by rewrite <- (same_busy_payload _ _ y HB2).
  - destruct HAl as [[-> _]|(? & ? & Hnu & m & ? & HU)]; [done|right]. split_and!; [done|done| |].
    + intros c' Hu. apply (Hnu c'). by apply (same_busy_in_use _ _ HB2).
    + exists m. split; [lia|]. intros a c'. rewrite HU. by rewrite (same_busy_in_use _ _ HB2).
Qed.

End Grow.
