(* ===== verification/MallocSpec.v ===== *)
(** * The allocator's functions and its invariant

  The invariant [heap_inv] across a mapping, the two kinds of [free], a block that
  shrinks in place, and the program's own writes. *)
From S2P Require Import Prelude PhysMem UserWorld LibcMem Malloc MallocHeap MallocOps MallocGrow.

Section Calls.
Context {K : Type} {UB : UserBytes K} {rw : K -> Z -> Prop} {env : K -> K -> Prop} {UL : UserBytesLaws K rw env}.
Context {UK : UserKernel K} {kinv : K -> Prop} {brk_now : K -> Z} {KL : UserKernelLaws kinv brk_now}.

Notation arena := (arena (rw := rw)).
Notation quiet := (quiet (env := env)).
Notation touch := (touch (env := env)).
Notation keeps := (keeps rw).
Notation heap_inv := (heap_inv (rw := rw) (kinv := kinv) (brk_now := brk_now)).
Notation maps_ok := (maps_ok (rw := rw) (brk_now := brk_now)).

(** ** Mappings *)

(** A change outside the arena. *)
Lemma arena_out s e hd k k' bl L T : arena s e hd k bl L -> touch k k' T -> (forall y, T y -> ~ (s <= y < e)) ->
  arena s e hd k' bl L.
Proof.
  intros [OK Hrw HR Hlink Hseg] HT Hout. split; [done| | |done|].
  - destruct HT as [E _]. by apply (rw_range_env _ _ _ _ E).
  - intros a b Hb. eapply brep_touch; [exact HT| |by apply HR]. intros y Hm Hy. apply (Hout y Hy).
    pose proof (bo_range _ _ _ OK _ _ Hb). destruct Hm as [?|[_ ?]]; lia.
  - eapply seg_touch; [exact HT| |exact Hseg]. intros y (m & Hm & Hy) Hty. apply (Hout y Hty).
    pose proof (interior_range _ _ _ _ OK (nodes_interior _ _ _ _ _ OK Hlink Hm)). lia.
Qed.

(** The arena of the invariant after a change of the world. *)
Definition arena_or_fresh (h : heap K) (bl : gmap Z block) (L : list Z) : Prop :=
  (a_start h = 0 /\ a_end h = 0 /\ free_head h = 0 /\ bl = ∅ /\ L = []) \/
  (arena (a_start h) (a_end h) (free_head h) (world h) bl L /\ a_end h = brk_now (world h)).

Lemma st_fault (h : heap K) a v : kinv (world h) -> ~ 0 <= a < USER_TOP -> st a v h = Fault.
Proof. intros Hk Ha. unfold st. cbn [le_bytes put_bytes]. by rewrite put_fault. Qed.

Lemma mmap_rounded need : 48 <= need < 2 ^ 64 ->
  let n := u64 (need + PAGE_SZ - 1) / PAGE_SZ * PAGE_SZ in
  0 <= n < 2 ^ 64 /\ n mod 4096 = 0 /\ (0 < n -> need <= n).
Proof.
  intros Hn. cbv zeta. unfold PAGE_SZ. destruct (Z.lt_ge_cases (need + 4096 - 1) (2 ^ 64)).
  - rewrite u64_id by lia. split_and!; Z.div_mod_to_equations; lia.
  - rewrite u64_wrap by lia. split_and!; Z.div_mod_to_equations; lia.
Qed.

(** The kernel refuses the mapping for [size] bytes with an error other than -1. *)
Definition refused (k : K) (size : Z) : Prop :=
  size + 31 < 2 ^ 64 /\
  let r := (k_mmap k 0 (((size + 31) / 16 * 16 + 4095) mod 2 ^ 64 / 4096 * 4096) 3 0x22 (-1) 0).1 in
  - 2 ^ 63 <= r < 0 /\ r <> -1.

Lemma mmap_alloc_spec h bl L mm size : heap_inv h bl L mm -> 32 <= size < 2 ^ 64 ->
  mmap_alloc size h = Fault /\ refused (world h) size \/
  exists r h' mm', mmap_alloc size h = Val (r, h') /\ heap_inv h' bl L mm' /\
    bytes_kept bl mm (world h) (world h') /\
    (r = 0 /\ mm' = mm \/
     0 < r /\ r mod 16 = 0 /\ mm !! (r - 16) = None /\ exists n, size + 16 <= n /\ mm' = <[r - 16 := n]> mm).
Proof.
  destruct h as [s e hd bc k]. intros HI Hs. pose proof HI as [Hk Hc HS HA HM].
  cbn [world brk_cache a_start a_end free_head] in *. unfold mmap_alloc, mbind.
  destruct (size_to_need_spec size ltac:(lia)) as [[-> ?]|(Hn & Hn16 & Hns)].
  { right. exists 0, (Heap s e hd bc k), mm. split; [done|]. split; [done|]. split; [by intros y|by left]. }
  set (need := size_to_need size) in *. clearbody need. rewrite (proj2 (Z.eqb_neq need 0)) by lia.
  assert (Href : forall r k', k_mmap k 0 (u64 (need + PAGE_SZ - 1) / PAGE_SZ * PAGE_SZ) PROT_RW MAP_ANON_PRIVATE (-1) 0 = (r, k') ->
    - 2 ^ 63 <= r < 0 -> r <> -1 -> refused k size).
  { intros r k' E Hr Hne. split; [Z.div_mod_to_equations; lia|]. cbv zeta.
    replace ((size + 31) / 16 * 16 + 4095) with (need + PAGE_SZ - 1)
      by (unfold PAGE_SZ; Z.div_mod_to_equations; lia).
    change ((need + PAGE_SZ - 1) mod 2 ^ 64) with (u64 (need + PAGE_SZ - 1)). unfold PAGE_SZ, PROT_RW, MAP_ANON_PRIVATE in E.
    unfold PAGE_SZ. by rewrite E. }
  destruct (mmap_rounded need Hn) as (Hl & Hl4 & Hln). set (n := u64 (need + PAGE_SZ - 1) / PAGE_SZ * PAGE_SZ) in *. clearbody n.
  specialize (Href _ _ (surjective_pairing _)). pose proof (mmap_anon (brk_now := brk_now) k n Hk Hl Hl4) as HL.
  assert (E0 : sys_mmap 0 n PROT_RW MAP_ANON_PRIVATE (-1) 0 (Heap s e hd bc k) =
    let '(r, k') := k_mmap k 0 n PROT_RW MAP_ANON_PRIVATE (-1) 0 in
    Val (if r =? -1 then MAP_FAILED else u64 r, Heap s e hd bc k')) by done.
  destruct (k_mmap k 0 n PROT_RW MAP_ANON_PRIVATE (-1) 0) as [r k1]. cbn [fst] in Href. destruct HL as (Hk1 & HK & Eb & HR).
  assert (HM1 : maps_ok k1 mm).
  { eapply maps_keep; [exact HM| |].
    - intros y (b & m & Hb & Hy). apply HK. destruct (mo_range _ _ HM _ _ Hb) as (_ & _ & _ & _ & Hw). by apply Hw.
    - intros b m Hb. rewrite Eb. by destruct (mo_range _ _ HM _ _ Hb). }
  assert (HB1 : bytes_kept bl mm k k1).
  { intros y [Hp|(b & m & Hb & Hy)].
    - destruct HA as [(_ & _ & _ & -> & _)|[HA _]]; [by destruct Hp as (? & ? & ? & _)|]. by eapply payload_keeps.
    - apply HK. destruct (mo_range _ _ HM _ _ Hb) as (_ & _ & _ & _ & Hw). by apply Hw. }
  assert (HA1 : arena_or_fresh (Heap s e hd bc k1) bl L).
  { destruct HA as [HA|[HA He]]; [by left|right]. state_simpl. split; [by eapply arena_keeps|by rewrite Eb]. }
  destruct HR as [Hr|(Hpos & Hr1 & Hr4 & Hnew)].
  - destruct (Z.eqb_spec r (-1)) as [->|Hne].
    + right. exists 0, (Heap s e hd bc k1), mm. split; [unfold M_bind at 1; by rewrite E0|]. split; [|split; [done|by left]].
      split; state_simpl; try done. by rewrite Eb.
    + left. split; [|by apply Href]. unfold M_bind at 1. rewrite E0, u64_neg by lia. unfold MAP_FAILED. rewrite (proj2 (Z.eqb_neq (r + 2 ^ 64) (-1))) by lia.
      unfold M_bind at 1. rewrite st_fault; [done|done|unfold hsize, USER_TOP; lia].
  - assert (Hbr : 0 < brk_now k) by apply (brk_range k Hk).
    assert (Hw : rw_range (rw := rw) k1 r n) by (intros y Hy; by apply Hnew).
    assert (Htop : r + n <= USER_TOP).
    { pose proof (rw_user k1 (r + n - 1) Hk1 ltac:(apply Hw; lia)). lia. }
    unfold USER_TOP in Htop. rewrite (proj2 (Z.eqb_neq r (-1))), u64_id in E0 by lia. assert (4096 <= n) by (Z.div_mod_to_equations; lia).
    destruct (arena_st (rw := rw) (env := env) (Heap s e hd bc k1) r (r + n) (hsize r) n) as (k2 & E2 & T2 & L2 & W2);
      [by replace (r + n - r) with n by lia|unfold hsize; lia..|]. state_simpl.
    destruct (arena_st (rw := rw) (env := env) (Heap s e hd bc k2) r (r + n) (hflags r) 5) as (k3 & E3 & T3 & L3 & W3);
      [done|unfold hflags; lia..|]. state_simpl. unfold hsize, hflags in *.
    assert (TT : touch k1 k3 (fun y => r <= y < r + n)).
    { eapply touch_trans; (eapply touch_mono; [eassumption|]); intros y Hy; cbn beta in Hy; lia. }
    assert (Hdis : forall b m y, mm !! b = Some m -> b <= y < b + m -> ~ (r <= y < r + n)).
    { intros b m y Hb Hy Hyr. apply (proj2 (Hnew y Hyr)). destruct (mo_range _ _ HM _ _ Hb) as (_ & _ & _ & _ & Hw'). by apply Hw'. }
    assert (Hrn : mm !! r = None).
    { destruct (mm !! r) as [m|] eqn:E; [|done]. destruct (mo_range _ _ HM _ _ E) as (_ & _ & _ & ? & _).
      exfalso. apply (Hdis r m r E); lia. }
    pose proof TT as [E13 T13]. assert (Eb3 : brk_now k3 = brk_now k) by (rewrite (env_brk (brk_now := brk_now) _ _ E13); done).
    right. exists (r + 16), (Heap s e hd bc k3), (<[r := n]> mm). split.
    + unfold M_bind at 1. rewrite E0. unfold MAP_FAILED. rewrite (proj2 (Z.eqb_neq r (-1))) by lia.
      unfold M_bind at 1. rewrite E2. unfold M_bind at 1. change (Z.lor B_ALLOC B_MMAP) with 5. rewrite E3. done.
    + rewrite Z.add_simpl_r. split; [|split].
      * split; state_simpl; [by eapply env_kinv|by rewrite Eb3|done| |].
        -- destruct HA1 as [HA1|[HA1 He]]; [by left|right]. state_simpl. split; [|by rewrite Eb3, <- Eb].
           eapply arena_out; [exact HA1|exact TT|]. intros y Hy Hye. cbn beta in Hy. lia.
        -- assert (HM3 : maps_ok k3 mm).
           { eapply maps_keep; [exact HM1| |].
             - intros y (b & m & Hb & Hy). split.
               + apply (env_rw _ _ E13). destruct (mo_range _ _ HM1 _ _ Hb) as (_ & _ & _ & _ & Hw'). by apply Hw'.
               + apply T13. by eapply Hdis.
             - intros b m Hb. rewrite Eb3. by destruct (mo_range _ _ HM _ _ Hb). }
           split.
           ++ intros b m Hb. apply lookup_insert_Some in Hb as [[<- <-]|[? Hb]]; [|by apply HM3].
              rewrite Eb3. replace (r + n - r) with n in W3 by lia. split_and!; (done || lia).
           ++ intros b m Hb. apply lookup_insert_Some in Hb as [[<- <-]|[? Hb]]; [|by apply HM3].
              split; [rewrite <- L2; apply (load64_st_ne _ _ _ _ T3); lia|done].
           ++ intros b m b' m' Hb Hb' Hlt. apply lookup_insert_Some in Hb as [[<- <-]|[? Hb]];
                apply lookup_insert_Some in Hb' as [[<- <-]|[? Hb']]; try lia.
              ** destruct (Z.lt_ge_cases b' (r + n)); [|done]. exfalso. destruct (mo_range _ _ HM _ _ Hb') as (_ & _ & _ & ? & _).
                 apply (Hdis b' m' b' Hb'); lia.
              ** destruct (Z.lt_ge_cases r (b + m)); [|done]. exfalso. apply (Hdis b m r Hb); lia.
              ** by apply (mo_apart _ _ HM _ _ _ _ Hb Hb').
      * intros y Hy. rewrite <- HB1 by done. apply T13. intros Hyr. destruct Hy as [Hp|(b & m & Hb & Hy)].
        -- destruct HA as [(_ & _ & _ & -> & _)|[HA He]]; [by destruct Hp as (? & ? & ? & _)|].
           pose proof (payload_arena (ar_tiles _ _ _ _ _ _ HA) _ Hp). lia.
        -- by apply (Hdis b m y Hb).
      * right. split_and!; [lia|Z.div_mod_to_equations; lia|done|]. exists n. split; [|done]. specialize (Hln Hpos). lia.
Qed.

(** Giving a mapping back: it and, with this kernel, every mapping above it go. *)
Definition maps_below (a : Z) (mm : gmap Z Z) : gmap Z Z := filter (fun bn => bn.1 < a) mm.

Lemma lookup_maps_below a mm b n : maps_below a mm !! b = Some n <-> mm !! b = Some n /\ b < a.
Proof. unfold maps_below. rewrite map_lookup_filter_Some. done. Qed.

Lemma free_mapped_spec h bl L mm a n : heap_inv h bl L mm -> mm !! a = Some n ->
  exists h', free (a + 16) h = Val (tt, h') /\ heap_inv h' bl L (maps_below a mm) /\
    bytes_kept bl (maps_below a mm) (world h) (world h').
Proof.
  destruct h as [s e hd bc k]. intros HI Ha. pose proof HI as [Hk Hc HS HA HM].
  cbn [world brk_cache a_start a_end free_head] in *.
  destruct (mo_range _ _ HM _ _ Ha) as (Hba & Ha4 & Hn4 & Hn0 & Hw). destruct (mo_head _ _ HM _ _ Ha) as [Hs Hf].
  pose proof (brk_range (brk_now := brk_now) k Hk) as [Hb _].
  unfold free. rewrite (proj2 (Z.eqb_neq (a + 16) 0)) by lia. unfold HEADER_SZ. cbv zeta. rewrite Z.add_simpl_r.
  unfold mbind, hflags, hsize. unfold M_bind at 1. run_ld Hf. change (has 5 B_MMAP) with true. cbv iota.
  unfold M_bind. run_ld Hs. unfold sys_munmap. cbn [world].
  pose proof (rw_user (brk_now := brk_now) k a Hk (Hw a ltac:(lia))) as Hau.
  pose proof (munmap_below (brk_now := brk_now) k a n Hk ltac:(lia) Ha4 Hn0) as HL.
  destruct (k_munmap k a n) as [r k']. destruct HL as (Hk' & Eb & HK).
  assert (Hmb : forall y, mapped_byte (maps_below a mm) y -> y < a /\ rw k y).
  { intros y (b & m & Hbm & Hy). apply lookup_maps_below in Hbm as [Hbm Hlt].
    pose proof (mo_apart _ _ HM _ _ _ _ Hbm Ha Hlt). destruct (mo_range _ _ HM _ _ Hbm) as (_ & _ & _ & _ & Hw').
    split; [lia|by apply Hw']. }
  assert (HKs : forall y, s <= y < e -> arena s e hd k bl L -> e = brk_now k -> rw k' y /\ ubyte k' y = ubyte k y).
  { intros y Hy HA' He. apply HK; [lia|]. apply (ar_rw _ _ _ _ _ _ HA'). lia. }
  exists (Heap s e hd bc k'). split; [done|]. split.
  - split; cbn [world brk_cache a_start a_end free_head]; [done|by rewrite Eb|done| |].
    + destruct HA as [HA|[HA He]]; [by left|right]. split; [|by rewrite Eb].
      pose proof HA as [OK Hrw HR Hlink Hseg].
      assert (HE : forall w, s <= w -> w + 8 <= e -> load64 k' w = load64 k w).
      { intros w ??. apply load64_ext. intros y Hy. apply HKs; (done || lia). }
      split; [done| | |done|].
      * intros y Hy. apply HKs; (done || lia).
      * intros x b Hx. pose proof (bo_range _ _ _ OK _ _ Hx). destruct (HR _ _ Hx) as [H1 (c & H2 & H3) H4]. split.
        -- intros ?. rewrite HE by lia. auto.
        -- exists c. rewrite HE by lia. done.
        -- intros ?. rewrite !HE by lia. auto.
      * eapply seg_ext; [|exact Hseg]. intros m Hm. pose proof (interior_range _ _ _ _ OK (nodes_interior _ _ _ _ _ OK Hlink Hm)).
        split; apply HE; lia.
    + eapply maps_keep.
      * destruct HM as [M1 M2 M3]. split.
        -- intros b m [Hbm _]%lookup_maps_below. by apply M1.
        -- intros b m [Hbm _]%lookup_maps_below. by apply M2.
        -- intros b m b' m' [Hbm _]%lookup_maps_below [Hbm' _]%lookup_maps_below. by eapply M3.
      * intros y [? ?]%Hmb. by apply HK.
      * intros b m [Hbm _]%lookup_maps_below. rewrite Eb. by destruct (mo_range _ _ HM _ _ Hbm).
  - intros y [Hp|[? ?]%Hmb]; [|by apply HK].
    destruct HA as [(_ & _ & _ & -> & _)|[HA He]]; [by destruct Hp as (? & ? & ? & _)|].
    apply HKs; [|done..]. exact (payload_arena (ar_tiles _ _ _ _ _ _ HA) _ Hp).
Qed.

(** [free] of a block of the heap. *)
Lemma free_heap_spec h bl L mm x n : heap_inv h bl L mm -> in_use bl x n ->
  exists h' bl' L', free (x + 16) h = Val (tt, h') /\ heap_inv h' bl' L' mm /\
    (forall a m, in_use bl' a m <-> in_use bl a m /\ a <> x) /\
    (forall y, payload bl y \/ mapped_byte mm y -> ~ (x <= y < x + n) -> ubyte (world h') y = ubyte (world h) y) /\
    ((forall f, load64 (world h) (x + 8) = Some f -> has f B_PREV = false) -> is_free bl' x).
Proof.
  destruct h as [s e hd bc k]. intros HI [p Hx]. pose proof HI as [Hk Hc HS HA HM].
  cbn [world brk_cache a_start a_end free_head] in *.
  destruct HA as [(_ & _ & _ & -> & _)|[HA He]]; [done|].
  pose proof (ar_tiles _ _ _ _ _ _ HA) as OK. pose proof (bo_range _ _ _ OK _ _ Hx) as Rx. cbn [b_sz] in Rx.
  pose proof (bo_arena _ _ _ OK) as RA.
  destruct (rep_lookup _ _ _ _ _ _ (ar_rep _ _ _ _ _ _ HA) Hx ltac:(done)) as (_ & c & Hc' & Hf & _ & Hc1).
  destruct (heap_free_spec s e hd bc k bl L s x n p HA HS Hx) as (hd' & k' & bl' & L' & E & HA' & HS' & Q & HU & HF).
  pose proof (ok_to_raw OK _ _ _ _ Hx) as OKr.
  destruct (quiet_inv (kinv := kinv) (brk_now := brk_now) s e _ mm k k' He Hk HM Q) as (Hk' & Eb & HM' & HB).
  exists (Heap s e hd' bc k'), bl', L'. split; [|split; [|split; [done|split]]].
  - unfold free. rewrite (proj2 (Z.eqb_neq (x + 16) 0)) by lia. unfold HEADER_SZ. cbv zeta. rewrite Z.add_simpl_r.
    unfold mbind, M_bind, hflags. run_ld Hf. rewrite flags_mmap by done. exact E.
  - split; cbn [world brk_cache a_start a_end free_head]; [done|by rewrite Eb|done| |done]. right. by rewrite Eb.
  - cbn [world]. intros y Hy Hyx. apply HB. destruct Hy as [(a & b & Ha & Hba & Hya)|Hm]; [left|by right].
    destruct (decide (a = x)) as [->|Hne].
    + rewrite Hx in Ha. injection Ha as <-. cbn [b_sz] in Hya. lia.
    + exists a, b. by rewrite lookup_insert_ne.
  - intros Hnp. specialize (Hnp _ Hf). rewrite flags_prev in Hnp by done. auto.
Qed.

(** A second [free] of the same payload while its block is free. *)
Lemma free_again h bl L mm x b : heap_inv h bl L mm -> bl !! x = Some b -> b_kd b = Free ->
  free (x + 16) h = Died DOUBLE_FREE.
Proof.
  destruct h as [s e hd bc k]. intros HI Hx Hk. pose proof HI as [_ _ _ HA _]. cbn [world brk_cache a_start a_end free_head] in *.
  destruct b as [n kd p]. cbn [b_kd] in Hk. subst kd.
  destruct HA as [(_ & _ & _ & -> & _)|[HA He]]; [done|].
  pose proof (bo_range _ _ _ (ar_tiles _ _ _ _ _ _ HA) _ _ Hx) as Rx. cbn [b_sz] in Rx.
  pose proof (bo_arena _ _ _ (ar_tiles _ _ _ _ _ _ HA)) as RA.
  destruct (rep_lookup _ _ _ _ _ _ (ar_rep _ _ _ _ _ _ HA) Hx ltac:(done)) as (_ & c & Hc' & Hf & _ & Hc1).
  unfold free. rewrite (proj2 (Z.eqb_neq (x + 16) 0)) by lia. unfold HEADER_SZ. cbv zeta. rewrite Z.add_simpl_r.
  unfold mbind, M_bind, hflags. run_ld Hf. rewrite flags_mmap by done.
  exact (heap_free_again s e hd bc k bl L s x n p HA Hx).
Qed.

(** ** Shrinking in place *)

(** The headers written over the tail of a block in use. *)
Lemma shrink_headers s e hd bc k bl L s0 x n p need : arena s e hd k bl L -> settled bl -> bl !! x = Some (Block n Used p) ->
  48 <= need -> need mod 16 = 0 -> need + 48 <= n ->
  let bl1 := <[x + need := Block (n - need) Raw false]> (<[x := Block need Stale p]> bl) in
  exists k1 k2, st (hsize (x + need)) (n - need) (Heap s0 e hd bc k) = Val (tt, Heap s0 e hd bc k1) /\
    st (hflags (x + need)) 0 (Heap s0 e hd bc k1) = Val (tt, Heap s0 e hd bc k2) /\
    arena s e hd k2 bl1 L /\ touch k k2 (fun y => x + need <= y < x + need + 16) /\
    load64 k2 (x + need + 8) = Some 0 /\ bl !! (x + need) = None.
Proof.
  intros [OK Hrw HR Hlink Hseg] HS Hx Hn1 Hn16 Hn2 bl1. pose proof (bo_range _ _ _ OK _ _ Hx) as Rx. cbn [b_sz] in Rx.
  pose proof (bo_arena _ _ _ OK) as RA. unfold USER_TOP in RA.
  pose proof (ok_split OK x n Used p need Stale Hx Hn1 Hn16 Hn2 ltac:(by right)) as OK1. fold bl1 in OK1.
  assert (Hr : bl !! (x + need) = None) by (eapply inside_none; [exact OK|exact Hx|cbn [b_sz]; lia]).
  destruct (arena_st (rw := rw) (env := env) (Heap s0 e hd bc k) s e (x + need) (n - need)) as (k1 & E1 & T1 & L1 & W1);
    [done|lia..|].
  destruct (arena_st (rw := rw) (env := env) (Heap s0 e hd bc k1) s e (x + need + 8) 0) as (k2 & E2 & T2 & L2 & W2); [done|lia..|].
  state_simpl.
  assert (TT : touch k k2 (fun y => x + need <= y < x + need + 16)).
  { eapply touch_trans; (eapply touch_mono; [eassumption|]); intros y Hy; cbn beta in Hy; lia. }
  exists k1, k2. split; [done|]. split; [done|]. split; [|by split_and!].
  split; [done|done| | |].
  - eapply (rep_insert _ _ (fun _ => False)); [|apply touch_refl|by intros ? ? ? ? ? ? []|].
    + eapply rep_update; [done|done|exact TT|exact Hx|cbn [b_sz]; lia|].
      destruct (HR _ _ Hx) as [_ (c & H2 & H3) _]. cbn [b_kd b_sz b_pf] in *. split; cbn [b_kd b_sz b_pf]; [done| |done].
      exists c. split; [|done]. rewrite <- H2. apply (load64_touch _ _ _ _ TT). lia.
    + split; cbn [b_kd b_sz b_pf]; [| |done].
      * intros _. rewrite <- L1. apply (load64_st_ne _ _ _ _ T2). lia.
      * exists 0. split; [done|lia].
  - eapply link_same; [exact Hlink|]. intros a. unfold bl1. rewrite !is_free_insert; [done|..]; try done.
    + intros b'. rewrite Hx. by intros [= <-].
    + intros b'. rewrite lookup_insert_ne, Hr by lia. done.
  - eapply seg_touch; [exact TT| |exact Hseg]. intros y (m & Hm & Hy) Hyr. cbn beta in Hyr.
    apply Hlink in Hm. eapply (nodes_apart s e bl x n Used p m y OK Hx); [done|done|done|lia].
Qed.

(** A stale block whose size is written is in use again, with a stray footer. *)
Lemma unstale s e hd bc k bl L s0 x n p : arena s e hd k bl L -> bl !! x = Some (Block n Stale p) ->
  exists k1 k2 f, st (hsize x) n (Heap s0 e hd bc k) = Val (tt, Heap s0 e hd bc k1) /\
    mirror x (Heap s0 e hd bc k1) = Val (tt, Heap s0 e hd bc k2) /\
    arena s e hd k2 (<[x := Block n Used p]> bl) L /\
    touch k k2 (fun y => x <= y < x + 8 \/ x + n - 16 <= y < x + n) /\
    load64 k2 (x + n - 16) = Some n /\ load64 k2 (x + n - 8) = Some (flags_of 1 f).
Proof.
  intros [OK Hrw HR Hlink Hseg] Hx. pose proof (bo_range _ _ _ OK _ _ Hx) as Rx. cbn [b_sz] in Rx.
  pose proof (bo_arena _ _ _ OK) as RA. unfold USER_TOP in RA.
  destruct (HR _ _ Hx) as [_ (c & Hf & Hc) _]. cbn [b_kd b_sz b_pf] in *. subst c.
  destruct (arena_st (rw := rw) (env := env) (Heap s0 e hd bc k) s e (hsize x) n) as (k1 & E1 & T1 & L1 & W1);
    [done|unfold hsize; lia..|]. state_simpl. unfold hsize in *.
  assert (Hf1 : load64 k1 (x + 8) = Some (flags_of 1 p)) by (rewrite <- Hf; apply (load64_st_ne _ _ _ _ T1); lia).
  destruct (mirror_spec (Heap s0 e hd bc k1) s e x n (flags_of 1 p)) as (k2 & E2 & T2 & L2 & L2' & W2);
    [done|lia|lia|lia|unfold USER_TOP; lia|done|done|]. state_simpl.
  assert (TT : touch k k2 (fun y => x <= y < x + 8 \/ x + n - 16 <= y < x + n)).
  { eapply touch_trans; (eapply touch_mono; [eassumption|]); intros y Hy; cbn beta in Hy; lia. }
  exists k1, k2, p. split; [done|]. split; [done|]. split; [|by split_and!]. split; [|done| | |].
  - by apply (ok_rekind OK x n Stale).
  - eapply rep_update; [done|done|exact TT|exact Hx|cbn [b_sz]; lia|]. split; cbn [b_kd b_sz b_pf]; [| |done].
    + intros _. rewrite <- L1. apply (load64_touch _ _ _ _ T2). lia.
    + exists 1. split; [|done]. rewrite <- Hf1. apply (load64_touch _ _ _ _ T2). lia.
  - eapply link_same; [exact Hlink|]. apply is_free_insert; [|done]. intros b. rewrite Hx. by intros [= <-].
  - eapply seg_touch; [exact TT| |exact Hseg]. intros y (m & Hm & Hy) Hyx. cbn beta in Hyx. apply Hlink in Hm.
    eapply (nodes_apart s e bl x n Stale p m y OK Hx); [done|done|done|lia].
Qed.

Lemma shrink_spec h bl L mm x n need : heap_inv h bl L mm -> in_use bl x n ->
  48 <= need -> need mod 16 = 0 -> need + 48 <= n ->
  exists h' bl' L' f, shrink_block x need (n - need) h = Val (tt, h') /\ heap_inv h' bl' L' mm /\
    (forall a m, in_use bl' a m <-> in_use bl a m /\ a <> x \/ a = x /\ m = need) /\
    (forall y, payload bl y \/ mapped_byte mm y -> ~ (x + need - 16 <= y < x + n) -> ubyte (world h') y = ubyte (world h) y) /\
    load64 (world h') (x + need - 16) = Some need /\ load64 (world h') (x + need - 8) = Some (flags_of 1 f).
Proof.
  destruct h as [s e hd bc k]. intros HI [p Hx] Hn1 Hn16 Hn2. pose proof HI as [Hk Hc HS HA HM].
  cbn [world brk_cache a_start a_end free_head] in *.
  destruct HA as [(_ & _ & _ & -> & _)|[HA He]]; [done|].
  pose proof (ar_tiles _ _ _ _ _ _ HA) as OK. pose proof (bo_range _ _ _ OK _ _ Hx) as Rx. cbn [b_sz] in Rx.
  destruct (shrink_headers s e hd bc k bl L s x n p need HA HS Hx Hn1 Hn16 Hn2)
    as (k1 & k2 & E1 & E2 & HA2 & T2 & Hf2 & Hnone).
  set (bl1 := <[x + need := Block (n - need) Raw false]> (<[x := Block need Stale p]> bl)) in *.
  assert (Hr1 : bl1 !! (x + need) = Some (Block (n - need) Raw false)) by apply lookup_insert_eq.
  assert (Hx1 : bl1 !! x = Some (Block need Stale p)).
  { unfold bl1. by rewrite lookup_insert_ne, lookup_insert_eq by lia. }
  destruct (insert_free_spec s e hd bc k2 bl1 L s (x + need) (n - need) HA2 Hr1 Hf2)
    as (hd3 & k3 & bl3 & L3 & n3 & E3 & HA3 & Q3 & B3 & K3 & Hr3 & Hn3).
  { intros b Hb. unfold bl1 in Hb. rewrite !lookup_insert_ne in Hb by lia. by apply (HS (x + need + (n - need))). }
  destruct (proj1 (B3 x need Stale ltac:(by right)) (ex_intro _ p Hx1)) as [p3 Hx3].
  destruct (unstale s e hd3 bc k3 bl3 L3 s x need p3 HA3 Hx3) as (k4 & k5 & f & E4 & E5 & HA5 & T5 & L5 & L5').
  assert (Hbr : forall k' T, touch k k' T -> (forall y, T y -> s <= y < e) ->
    kinv k' /\ brk_now k' = brk_now k /\ maps_ok k' mm).
  { intros k' T HT Hin. pose proof HT as [E _]. split; [by eapply env_kinv|]. split; [by apply env_brk|].
    eapply maps_touch; [exact HM|exact HT|]. intros y ?%Hin. lia. }
  assert (TT : touch k k5 (fun y => s <= y < e)).
  { eapply touch_trans; [|eapply touch_trans]; (eapply touch_mono; [eassumption|]); intros y Hy; cbn beta in Hy; lia. }
  destruct (Hbr k5 _ TT ltac:(done)) as (Hk5 & Eb5 & HM5).
  exists (Heap s e hd3 bc k5), (<[x := Block need Used p3]> bl3), L3, f. split; [|split; [|split; [|split; [|done]]]].
  - unfold shrink_block. assert (need / 16 * 16 = need) as -> by (Z.div_mod_to_equations; lia). cbv zeta.
    unfold mbind. unfold M_bind at 1. rewrite E1. unfold M_bind at 1. rewrite E2. unfold M_bind at 1. rewrite E3.
    unfold M_bind at 1. rewrite E4. exact E5.
  - split; cbn [world brk_cache a_start a_end free_head]; [done|by rewrite Eb5| |right; by rewrite Eb5|done].
    intros a b Hb. destruct (decide (a = x)) as [->|Hne].
    { left. rewrite lookup_insert_eq in Hb. by injection Hb as <-. }
    rewrite lookup_insert_ne in Hb by done. destruct (decide (a = x + need)) as [->|Hne2].
    { right. rewrite Hr3 in Hb. by injection Hb as <-. }
    destruct (K3 a b Hb Hne2) as (b0 & Hb0 & ->). unfold bl1 in Hb0. rewrite !lookup_insert_ne in Hb0 by done. by apply (HS a).
  - intros a m. destruct (decide (a = x)) as [->|Hne].
    + unfold in_use. rewrite lookup_insert_eq. split; [intros [q [= -> ->]]; by right|]. intros [[_ ?]|[_ ->]]; [done|by exists p3].
    + transitivity (in_use bl3 a m); [unfold in_use; by rewrite lookup_insert_ne|].
      rewrite (same_busy_in_use _ _ B3). unfold in_use at 1, bl1. destruct (decide (a = x + need)) as [->|Hne2].
      * rewrite lookup_insert_eq. split; [by intros [q [= ]]|]. intros [[[q Hq] _]|[? _]]; [congruence|done].
      * rewrite !lookup_insert_ne by done. fold (in_use bl a m). tauto.
  - cbn [world]. intros y Hy Hyn. transitivity (ubyte k3 y); [|transitivity (ubyte k2 y)].
    + apply T5. intros Hy5. cbn beta in Hy5. assert (Hy8 : x <= y < x + 16) by lia. destruct Hy as [Hp|(b & m & Hb & Hy)].
      * exact (payload_header OK x _ y Hx Hy8 Hp).
      * destruct (mo_range _ _ HM _ _ Hb) as [? _]. lia.
    + apply Q3. intros [Hys Hnp]. destruct Hy as [(a & b & Ha & Hba & Hya)|(b & m & Hb & Hy)].
      * apply Hnp. destruct (decide (a = x)) as [->|Hne].
        -- rewrite Hx in Ha. injection Ha as <-. cbn [b_sz] in Hya. exists x, (Block need Stale p). split; [done|].
           split; [done|]. cbn [b_sz]. lia.
        -- exists a, b. split; [|done]. unfold bl1. rewrite !lookup_insert_ne; [done|done|]. intros <-. congruence.
      * destruct (mo_range _ _ HM _ _ Hb) as [? _]. lia.
    + apply T2. intros Hy2. cbn beta in Hy2. lia.
Qed.

(** ** The program writes in its objects *)

(** A byte the program may write: in a payload of the heap or of a mapping. *)
Definition user_byte (bl : gmap Z block) (mm : gmap Z Z) (y : Z) : Prop :=
  payload bl y \/ exists b n, mm !! b = Some n /\ b + 16 <= y < b + n.

Lemma user_byte_kept bl mm y : user_byte bl mm y -> payload bl y \/ mapped_byte mm y.
Proof. intros [?|(b & n & Hb & Hy)]; [by left|right]. exists b, n. split; [done|lia]. Qed.

Lemma user_write_inv s e hd bc k k' bl L mm T : heap_inv (Heap s e hd bc k) bl L mm -> touch k k' T ->
  (forall y, T y -> user_byte bl mm y) -> heap_inv (Heap s e hd bc k') bl L mm.
Proof.
  intros [Hk Hc HS HA HM] HT Hu. pose proof HT as [E HT']. cbn [world brk_cache a_start a_end free_head] in *.
  pose proof (env_brk (brk_now := brk_now) _ _ E) as Eb.
  split; cbn [world brk_cache a_start a_end free_head]; [by eapply env_kinv|by rewrite Eb|done| |].
  - destruct HA as [HA|[HA He]]; [by left|right]. split; [|by rewrite Eb]. pose proof HA as [OK Hrw HR Hlink Hseg].
    assert (Hcase : forall y, T y -> payload bl y \/ e <= y).
    { intros y [Hp|(b & n & Hb & Hy)]%Hu; [by left|right]. destruct (mo_range _ _ HM _ _ Hb). lia. }
    split; [done|by apply (rw_range_env _ _ _ _ E)| |done|].
    + intros a b Hb. eapply brep_touch; [exact HT| |by apply HR]. intros y Hm Hy. pose proof (bo_range _ _ _ OK _ _ Hb).
      destruct (Hcase y Hy) as [Hp|?]; [|destruct Hm as [?|[_ ?]]; lia]. destruct Hm as [Hm|[Hk' Hm]].
      * exact (payload_header OK a b y Hb Hm Hp).
      * apply (payload_free OK a b y Hb); [unfold busy; by rewrite Hk'|lia|done].
    + eapply seg_touch; [exact HT| |exact Hseg]. intros y (m & Hm & Hy) Hty.
      pose proof (nodes_interior _ _ _ _ _ OK Hlink Hm) as Hi. pose proof (interior_range _ _ _ _ OK Hi).
      destruct (Hcase y Hty) as [Hp|?]; [|lia]. exact (interior_payload _ _ _ _ _ OK Hi Hy Hp).
  - split; [| |apply HM].
    + intros b n Hb. rewrite Eb. destruct (mo_range _ _ HM _ _ Hb) as (? & ? & ? & ? & Hw). split_and!; [done..|].
      by apply (rw_range_env _ _ _ _ E).
    + intros b n Hb. destruct (mo_range _ _ HM _ _ Hb) as (Hb1 & Hb4 & Hn4 & Hn0 & _).
      assert (Hhd : forall y, b <= y < b + 16 -> ~ T y).
      { intros y Hy Hty. destruct (Hu y Hty) as [Hp|(b' & n' & Hb' & Hy')].
        - destruct HA as [(_ & _ & _ & -> & _)|[HA He]]; [by destruct Hp as (? & ? & ? & _)|].
          pose proof (payload_arena (ar_tiles _ _ _ _ _ _ HA) _ Hp). lia.
        - destruct (mo_range _ _ HM _ _ Hb') as (_ & Hb4' & Hn4' & Hn0' & _).
          destruct (Z.lt_trichotomy b b') as [Hlt|[->|Hlt]].
          + pose proof (mo_apart _ _ HM _ _ _ _ Hb Hb' Hlt). lia.
          + lia.
          + pose proof (mo_apart _ _ HM _ _ _ _ Hb' Hb Hlt). lia. }
      destruct (mo_head _ _ HM _ _ Hb) as [<- <-].
      split; apply (load64_touch _ _ _ _ HT); intros y Hy; apply Hhd; lia.
Qed.

Lemma user_byte_rw h bl L mm y : heap_inv h bl L mm -> user_byte bl mm y -> rw (world h) y.
Proof.
  intros HI [Hp|(b & n & Hb & Hy)].
  - destruct (hi_arena _ _ _ _ HI) as [(_ & _ & _ & -> & _)|[HA _]]; [by destruct Hp as (? & ? & ? & _)|].
    apply (ar_rw _ _ _ _ _ _ HA). pose proof (payload_arena (ar_tiles _ _ _ _ _ _ HA) _ Hp). lia.
  - destruct (mo_range _ _ (hi_maps _ _ _ _ HI) _ _ Hb) as (_ & _ & _ & _ & Hw). apply Hw. lia.
Qed.

(** The bytes found at a readable range. *)
Lemma read_bytes k a n : readable k a (Z.of_nat n) -> exists l, length l = n /\ bytes_at k a l.
Proof.
  revert a. induction n as [|n IH]; intros a Hr.
  - exists []. split; [done|]. intros i b Hi. by rewrite lookup_nil in Hi.
  - destruct (Hr a ltac:(lia)) as [b Hb]. destruct (IH (a + 1)) as (l & Hl & Hat).
    + intros x Hx. apply Hr. lia.
    + exists (b :: l). cbn [length]. split; [by rewrite Hl|]. by apply bytes_at_cons.
Qed.

End Calls.
