(* ===== verification/MallocStore.v ===== *)
(** * The allocator as an object store

  What a program relies on: [malloc], [calloc], [realloc] and [free] keep a set of
  disjoint objects whose bytes only the program changes.  [store_step] is the
  contract, [malloc_refines_store] the refinement by the code of [Malloc]; the
  shapes of the contract where the code falls short of its documentation (the
  bytes [realloc] overwrites, the mappings a [free] takes along) are spelled out
  in it. *)
From S2P Require Import Prelude PhysMem UserWorld LibcMem Malloc MallocHeap MallocOps MallocGrow MallocSpec.

(** ** The contract *)

(** An object: whether it has a mapping of its own, and its bytes, all the
  program may use. *)
Record obj := Obj { o_mapped : bool; o_bytes : list Z }.

Definition o_len (o : obj) : Z := Z.of_nat (length (o_bytes o)).

Inductive call :=
  | CMalloc (n : Z)
  | CCalloc (n m : Z)
  | CRealloc (p n : Z)
  | CFree (p : Z)
  | CWrite (p i v : Z).

(** What the program may ask: sizes are words, pointers are NULL or its own. *)
Definition call_ok (objs : gmap Z obj) (c : call) : Prop :=
  match c with
  | CMalloc n => 0 <= n < 2 ^ 64
  | CCalloc n m => 0 <= n < 2 ^ 64 /\ 0 <= m < 2 ^ 64
  | CRealloc p n => (p = 0 \/ is_Some (objs !! p)) /\ 0 <= n < 2 ^ 64
  | CFree p => p = 0 \/ is_Some (objs !! p)
  | CWrite p i v => 0 <= v < 256 /\ exists o, objs !! p = Some o /\ 0 <= i < o_len o
  end.

(** The size for which a call may need a new mapping. *)
Definition wanted (c : call) : Z :=
  match c with CMalloc n | CRealloc _ n => n | CCalloc n m => n * m | _ => 0 end.

(** A new object of at least [n] bytes. *)
Definition new_obj (objs : gmap Z obj) (p n : Z) (o : obj) : Prop :=
  0 < p /\ p mod 16 = 0 /\ objs !! p = None /\ n <= o_len o /\ o_mapped o = (MALLOC_MMAP_THRESHOLD <=? n).

(** Freeing a mapping takes every mapping above it along: that is the kernel's
  [munmap]. *)
Definition free_effect (objs : gmap Z obj) (p : Z) : gmap Z obj :=
  match objs !! p with
  | None => objs
  | Some o =>
      if o_mapped o then filter (fun qo => negb (o_mapped qo.2) || (qo.1 <? p) = true) objs
      else delete p objs
  end.

(** What [realloc] leaves of the bytes when it shrinks the block to [need]: the
  last 16 bytes are overwritten with a copy of the header. *)
Definition shrunk (l : list Z) (need f : Z) : list Z :=
  take (Z.to_nat (need - 32)) l ++ le_bytes 8 need ++ le_bytes 8 f.

Inductive store_step : gmap Z obj -> call -> Z -> gmap Z obj -> Prop :=
  | step_malloc_null objs n : store_step objs (CMalloc n) 0 objs
  | step_malloc objs n p o : new_obj objs p n o -> store_step objs (CMalloc n) p (<[p := o]> objs)
  | step_calloc_null objs n m : store_step objs (CCalloc n m) 0 objs
  | step_calloc objs n m p o : new_obj objs p (n * m) o ->
      take (Z.to_nat (n * m)) (o_bytes o) = replicate (Z.to_nat (n * m)) 0 ->
      store_step objs (CCalloc n m) p (<[p := o]> objs)
  | step_free objs p : store_step objs (CFree p) 0 (free_effect objs p)
  | step_write objs p o i v : objs !! p = Some o ->
      store_step objs (CWrite p i v) 0 (<[p := Obj (o_mapped o) (<[Z.to_nat i := v]> (o_bytes o))]> objs)
  | step_realloc_malloc objs n r objs' : store_step objs (CMalloc n) r objs' -> store_step objs (CRealloc 0 n) r objs'
  | step_realloc_free objs p : p <> 0 -> store_step objs (CRealloc p 0) 0 (free_effect objs p)
  | step_realloc_null objs p n : p <> 0 -> n <> 0 -> store_step objs (CRealloc p n) 0 objs
  | step_realloc_same objs p o n : n <> 0 -> objs !! p = Some o -> n <= o_len o -> store_step objs (CRealloc p n) p objs
  | step_realloc_shrink objs p l n f : n <> 0 -> objs !! p = Some (Obj false l) ->
      size_to_need n + 48 <= Z.of_nat (length l) + 16 ->
      store_step objs (CRealloc p n) p (<[p := Obj false (shrunk l (size_to_need n) f)]> objs)
  | step_realloc_move objs p o n q o' : n <> 0 -> objs !! p = Some o -> o_len o < n -> new_obj objs q n o' ->
      take (length (o_bytes o)) (o_bytes o') = o_bytes o ->
      store_step objs (CRealloc p n) q (free_effect (<[q := o']> objs) p).

(** What a call is about, and what the kernel's [munmap] takes along when a mapping
  is given back: the mappings above it. *)
Definition argument (c : call) : option Z :=
  match c with CRealloc p _ | CFree p | CWrite p _ _ => Some p | _ => None end.

Definition swept (objs : gmap Z obj) (c : call) (q : Z) : Prop :=
  exists p lp lq, (c = CFree p \/ exists n, c = CRealloc p n) /\
    objs !! p = Some (Obj true lp) /\ objs !! q = Some (Obj true lq) /\ p < q.

(** All other objects stay, with their bytes. *)
Definition others_kept (objs : gmap Z obj) (c : call) (objs' : gmap Z obj) : Prop :=
  forall q o, objs !! q = Some o -> argument c <> Some q -> ~ swept objs c q -> objs' !! q = Some o.

Lemma free_kept objs objs0 c p q o : (c = CFree p \/ exists n, c = CRealloc p n) -> objs0 !! p = objs !! p ->
  objs0 !! q = Some o -> objs !! q = Some o -> q <> p -> ~ swept objs c q -> free_effect objs0 p !! q = Some o.
Proof.
  intros Hc Hp Hq0 Hq Hne Hs. unfold free_effect. rewrite Hp. destruct (objs !! p) as [[m lp]|] eqn:Ep; [|done].
  cbn [o_mapped]. destruct m; [|by rewrite lookup_delete_ne]. apply map_lookup_filter_Some. split; [done|]. cbn [fst snd].
  destruct o as [m l]. destruct m; [|done]. cbn [o_mapped negb orb]. apply Z.ltb_lt.
  destruct (Z.lt_trichotomy q p) as [?|[?|?]]; [done|done|]. exfalso. apply Hs. by exists p, lp, l.
Qed.

Lemma step_others_kept objs c r objs' : store_step objs c r objs' -> others_kept objs c objs'.
Proof.
  assert (Hnew : forall p n o q x, new_obj objs p n o -> objs !! q = Some x -> <[p := o]> objs !! q = Some x).
  { intros p n o q x (_ & _ & Hp & _) Hq. rewrite lookup_insert_ne; [done|]. congruence. }
  assert (Hm : forall n r1 objs1, store_step objs (CMalloc n) r1 objs1 -> forall q x, objs !! q = Some x -> objs1 !! q = Some x).
  { intros n r1 objs1 H. inversion H; subst; [done|]. eauto. }
  intros H q x Hq Ha Hs. inversion H; subst; cbn [argument] in Ha; try done; try (by eauto).
  - eapply free_kept; [by left|done|done|done|congruence|done].
  - by rewrite lookup_insert_ne by congruence.
  - eapply free_kept; [by right; eexists|done|done|done|congruence|done].
  - by rewrite lookup_insert_ne by congruence.
  - match goal with Hn : new_obj objs _ _ _ |- _ => pose proof Hn as (_ & _ & Hnone & _) end.
    eapply (free_kept objs); [by right; eexists|by rewrite lookup_insert_ne by congruence|by eapply Hnew|done|congruence|done].
Qed.

(** ** The refinement *)
Section Store.
Context {K : Type} {UB : UserBytes K} {rw : K -> Z -> Prop} {env : K -> K -> Prop} {UL : UserBytesLaws K rw env}.
Context {UK : UserKernel K} {kinv : K -> Prop} {brk_now : K -> Z} {KL : UserKernelLaws kinv brk_now}.

Notation heap_inv := (heap_inv (rw := rw) (kinv := kinv) (brk_now := brk_now)).
Notation touch := (touch (env := env)).
#[local] Existing Instances M_bind M_ret.

(** The call, run by the code. *)
Definition exec (c : call) : M Z :=
  match c with
  | CMalloc n => malloc n
  | CCalloc n m => calloc n m
  | CRealloc p n => realloc p n
  | CFree p => free p;; mret 0
  | CWrite p i v => mem_op (fun k => k ← uput k (p + i) v; Some (p, k));; mret 0
  end.

(** The blocks in use and the mappings are the objects. *)
Record store_ok (k : K) (bl : gmap Z block) (mm : gmap Z Z) (objs : gmap Z obj) : Prop := {
  so_heap : forall a n, in_use bl a n <-> exists l, objs !! (a + 16) = Some (Obj false l) /\ n = Z.of_nat (length l) + 16;
  so_map : forall b n, mm !! b = Some n <-> exists l, objs !! (b + 16) = Some (Obj true l) /\ n = Z.of_nat (length l) + 16;
  so_bytes : forall p o, objs !! p = Some o -> bytes_at k p (o_bytes o)
}.

Definition heap_ok (h : heap K) (objs : gmap Z obj) : Prop :=
  exists bl L mm, heap_inv h bl L mm /\ store_ok (world h) bl mm objs.

(** No two objects share a byte. *)
Definition apart (objs : gmap Z obj) : Prop :=
  forall p o q o', objs !! p = Some o -> objs !! q = Some o' -> p < q -> p + o_len o <= q.

Lemma store_lookup k bl mm objs p o : store_ok k bl mm objs -> objs !! p = Some o ->
  if o_mapped o then mm !! (p - 16) = Some (o_len o + 16) else in_use bl (p - 16) (o_len o + 16).
Proof.
  intros [H1 H2 _] Hp. destruct o as [[] l]; cbn [o_mapped]; unfold o_len; cbn [o_bytes].
  - apply H2. exists l. by replace (p - 16 + 16) with p by lia.
  - apply H1. exists l. by replace (p - 16 + 16) with p by lia.
Qed.

Lemma obj_user_byte k bl mm objs p o y : store_ok k bl mm objs -> objs !! p = Some o -> p <= y < p + o_len o ->
  user_byte bl mm y.
Proof.
  intros HS Hp Hy. pose proof (store_lookup _ _ _ _ _ _ HS Hp) as H. destruct (o_mapped o).
  - right. exists (p - 16), (o_len o + 16). split; [done|lia].
  - left. destruct H as [pf H]. exists (p - 16), (Block (o_len o + 16) Used pf). split; [done|]. split; [done|]. cbn [b_sz]. lia.
Qed.

Lemma bytes_at_kept k k' a l : bytes_at k a l ->
  (forall y, a <= y < a + Z.of_nat (length l) -> ubyte k' y = ubyte k y) -> bytes_at k' a l.
Proof. intros H HK i b Hi. pose proof (lookup_lt_Some _ _ _ Hi). rewrite HK by lia. by apply H. Qed.

Lemma heap_apart h bl L mm objs : heap_inv h bl L mm -> store_ok (world h) bl mm objs -> apart objs.
Proof.
  intros HI HS p o q o' Hp Hq Hlt. pose proof (store_lookup _ _ _ _ _ _ HS Hp) as H.
  pose proof (store_lookup _ _ _ _ _ _ HS Hq) as H'. pose proof (hi_maps _ _ _ _ HI) as HM.
  assert (HA : forall a n, in_use bl a n -> a + n <= brk_now (world h) /\ 48 <= n /\
    forall a' n', in_use bl a' n' -> a < a' -> a + n <= a').
  { intros a n [pf Ha]. destruct (hi_arena _ _ _ _ HI) as [(_ & _ & _ & -> & _)|[HA He]]; [done|].
    pose proof (ar_tiles _ _ _ _ _ _ HA) as OK. pose proof (bo_range _ _ _ OK _ _ Ha) as Ra. cbn [b_sz] in Ra.
    split; [lia|]. split; [lia|]. intros a' n' [pf' Ha'] Hl. exact (bo_apart _ _ _ OK _ _ _ _ Ha Ha' Hl). }
  unfold o_len in *. destruct (o_mapped o), (o_mapped o').
  - pose proof (mo_apart _ _ HM _ _ _ _ H H' ltac:(lia)). lia.
  - destruct (mo_range _ _ HM _ _ H) as [? _]. destruct (HA _ _ H') as (? & ? & _). lia.
  - destruct (mo_range _ _ HM _ _ H') as [? _]. destruct (HA _ _ H) as (? & ? & _). lia.
  - destruct (HA _ _ H) as (_ & _ & HA'). specialize (HA' _ _ H' ltac:(lia)). lia.
Qed.

(** ** Allocation *)

Lemma in_use_readable h bl L mm a n : heap_inv h bl L mm -> in_use bl a n ->
  0 < a /\ 48 <= n /\ rw_range (rw := rw) (world h) (a + 16) (n - 16).
Proof.
  intros HI [pf Ha]. destruct (hi_arena _ _ _ _ HI) as [(_ & _ & _ & -> & _)|[HA He]]; [done|].
  pose proof (bo_range _ _ _ (ar_tiles _ _ _ _ _ _ HA) _ _ Ha) as Ra. cbn [b_sz] in Ra.
  pose proof (bo_arena _ _ _ (ar_tiles _ _ _ _ _ _ HA)). split; [lia|]. split; [lia|].
  intros y Hy. apply (ar_rw _ _ _ _ _ _ HA). lia.
Qed.

(** Objects keep their bytes when the bytes of the program are kept. *)
Lemma kept_bytes k k' bl mm objs p o : store_ok k bl mm objs -> bytes_kept bl mm k k' -> objs !! p = Some o ->
  bytes_at k' p (o_bytes o).
Proof.
  intros HS HB Hp. eapply bytes_at_kept; [by eapply so_bytes|]. intros y Hy.
  apply HB, user_byte_kept. by eapply obj_user_byte.
Qed.

Lemma store_same k k' bl bl' mm objs : store_ok k bl mm objs -> bytes_kept bl mm k k' ->
  (forall a c, in_use bl' a c <-> in_use bl a c) -> store_ok k' bl' mm objs.
Proof.
  intros HS HB HU. pose proof HS as [H1 H2 _]. split; [|done|].
  - intros a n. rewrite HU. apply H1.
  - intros p o Hp. by eapply kept_bytes.
Qed.

(** A new object, in the heap or in a mapping of its own. *)
Lemma store_new k k' bl bl' mm mm' objs p o : store_ok k bl mm objs -> bytes_kept bl mm k k' ->
  objs !! p = None -> bytes_at k' p (o_bytes o) ->
  (forall a c, in_use bl' a c <-> in_use bl a c \/ o_mapped o = false /\ a = p - 16 /\ c = o_len o + 16) ->
  (forall b c, mm' !! b = Some c <-> mm !! b = Some c \/ o_mapped o = true /\ b = p - 16 /\ c = o_len o + 16) ->
  store_ok k' bl' mm' (<[p := o]> objs).
Proof.
  intros HS HB Hp Hb HU HM. pose proof HS as [H1 H2 _]. unfold o_len in *. split.
  - intros a n. rewrite HU, H1. destruct (decide (a + 16 = p)) as [E|E].
    + rewrite E, Hp, lookup_insert_eq. split.
      * intros [(? & ? & _)|(Ho & _ & ->)]; [done|]. destruct o as [m l]. cbn in Ho |- *. subst m. by exists l.
      * intros (l & [= ->] & ->). right. cbn [o_mapped o_bytes]. split_and!; (done || lia).
    + rewrite lookup_insert_ne by done. split; [intros [?|(_ & ? & _)]; [done|lia]|by left].
  - intros a n. rewrite HM, H2. destruct (decide (a + 16 = p)) as [E|E].
    + rewrite E, Hp, lookup_insert_eq. split.
      * intros [(? & ? & _)|(Ho & _ & ->)]; [done|]. destruct o as [m l]. cbn in Ho |- *. subst m. by exists l.
      * intros (l & [= ->] & ->). right. cbn [o_mapped o_bytes]. split_and!; (done || lia).
    + rewrite lookup_insert_ne by done. split; [intros [?|(_ & ? & _)]; [done|lia]|by left].
  - intros q o' Hq. apply lookup_insert_Some in Hq as [[<- <-]|[_ Hq]]; [done|]. by eapply kept_bytes.
Qed.

(** [malloc]: it faults for a mapping the kernel refuses, or behaves. *)
Lemma malloc_spec h objs n : heap_ok h objs -> 0 <= n < 2 ^ 64 ->
  (malloc n h = Fault /\ MALLOC_MMAP_THRESHOLD <= n /\ refused (world h) n) \/
  exists r h', malloc n h = Val (r, h') /\
    (r = 0 /\ heap_ok h' objs \/ exists o, new_obj objs r n o /\ heap_ok h' (<[r := o]> objs)).
Proof.
  intros (bl & L & mm & HI & HS) Hn. unfold malloc. pose proof HS as [H1 H2 _].
  destruct (Z.leb_spec MALLOC_MMAP_THRESHOLD n) as [Hbig|Hsmall].
  - destruct (mmap_alloc_spec h bl L mm n HI) as [[E ?]|(r & h' & mm' & E & HI' & HB & HR)];
      [unfold MALLOC_MMAP_THRESHOLD in Hbig; lia|by left|right].
    exists r, h'. split; [done|]. destruct HR as [[-> ->]|(Hr & Hr16 & Hnone & m & Hm & ->)].
    + left. split; [done|]. exists bl, L, mm. split; [done|]. by eapply store_same.
    + right. assert (Hw : rw_range (rw := rw) (world h') (r - 16) m).
      { apply (mo_range _ _ (hi_maps _ _ _ _ HI')). apply lookup_insert_eq. }
      unfold MALLOC_MMAP_THRESHOLD in Hbig.
      destruct (read_bytes (world h') r (Z.to_nat (m - 16))) as (l & Hl & Hat).
      { intros y Hy. apply rw_byte, Hw. lia. }
      assert (Hlen : Z.of_nat (length l) = m - 16) by lia.
      assert (Hobj : objs !! r = None).
      { destruct (objs !! r) as [[[] l']|] eqn:Eo; [| |done].
        - exfalso. rewrite (proj2 (H2 (r - 16) (Z.of_nat (length l') + 16))) in Hnone; [done|].
          exists l'. by replace (r - 16 + 16) with r by lia.
        - exfalso. assert (Hu : in_use bl (r - 16) (Z.of_nat (length l') + 16)).
          { apply H1. exists l'. by replace (r - 16 + 16) with r by lia. }
          destruct (in_use_readable _ _ _ _ _ _ HI' Hu) as (_ & ? & _). destruct Hu as [pf Hu].
          destruct (hi_arena _ _ _ _ HI') as [(_ & _ & _ & -> & _)|[HA He]]; [done|].
          pose proof (bo_range _ _ _ (ar_tiles _ _ _ _ _ _ HA) _ _ Hu) as Ru. cbn [b_sz] in Ru.
          destruct (mo_range _ _ (hi_maps _ _ _ _ HI') (r - 16) m (lookup_insert_eq _ _ _)) as [? _]. lia. }
      exists (Obj true l). split.
      * unfold new_obj, o_len. cbn [o_bytes o_mapped]. split_and!; try done; [lia|].
        symmetry. by apply Z.leb_le.
      * exists bl, L, (<[r - 16 := m]> mm). split; [done|]. eapply store_new; [done|done|done|done| |].
        -- intros a c. cbn [o_mapped]. split; [by left|]. by intros [?|[? _]].
        -- intros b c. unfold o_len. cbn [o_bytes o_mapped]. rewrite lookup_insert_Some. split.
           ++ intros [[<- <-]|[_ ?]]; [right; split_and!; (done || lia)|by left].
           ++ intros [Hb|(_ & -> & ->)]; [right; split; [congruence|done]|left; split; [done|lia]].
  - right. unfold MALLOC_MMAP_THRESHOLD in Hsmall.
    destruct (heap_alloc_spec h bl L mm n HI ltac:(lia)) as (r & h' & bl' & L' & E & HI' & HB & HR).
    exists r, h'. split; [done|]. destruct HR as [[-> HU]|(Hr16 & Hr & Hnu & m & Hm & HU)].
    + left. split; [done|]. exists bl', L', mm. split; [done|]. by eapply store_same.
    + right. assert (Hu : in_use bl' (r - 16) m) by (apply HU; by right).
      destruct (in_use_readable _ _ _ _ _ _ HI' Hu) as (_ & Hm48 & Hw).
      destruct (read_bytes (world h') r (Z.to_nat (m - 16))) as (l & Hl & Hat).
      { intros y Hy. apply rw_byte, Hw. lia. }
      assert (Hlen : Z.of_nat (length l) = m - 16) by lia.
      assert (Hobj : objs !! r = None).
      { destruct (objs !! r) as [[[] l']|] eqn:Eo; [| |done].
        - exfalso. assert (Hb : mm !! (r - 16) = Some (Z.of_nat (length l') + 16)).
          { apply H2. exists l'. by replace (r - 16 + 16) with r by lia. }
          destruct (mo_range _ _ (hi_maps _ _ _ _ HI') _ _ Hb) as [? _]. destruct Hu as [pf Hu].
          destruct (hi_arena _ _ _ _ HI') as [(_ & _ & _ & -> & _)|[HA He]]; [done|].
          pose proof (bo_range _ _ _ (ar_tiles _ _ _ _ _ _ HA) _ _ Hu) as Ru. cbn [b_sz] in Ru. lia.
        - exfalso. apply (Hnu (Z.of_nat (length l') + 16)). apply H1. exists l'. by replace (r - 16 + 16) with r by lia. }
      exists (Obj false l). split.
      * unfold new_obj, o_len. cbn [o_bytes o_mapped]. split_and!; try done; [lia|].
        symmetry. apply Z.leb_gt. unfold MALLOC_MMAP_THRESHOLD. lia.
      * exists bl', L', mm. split; [done|]. eapply store_new; [done|done|done|done| |].
        -- intros a c. unfold o_len. cbn [o_bytes o_mapped]. rewrite HU. split.
           ++ intros [?|[-> ->]]; [by left|right; split_and!; (done || lia)].
           ++ intros [?|(_ & -> & ->)]; [by left|right; split; [done|lia]].
        -- intros b c. cbn [o_mapped]. split; [by left|]. by intros [?|[? _]].
Qed.

(** ** Release *)

Lemma free_spec h objs p : heap_ok h objs -> p = 0 \/ is_Some (objs !! p) ->
  exists h', free p h = Val (tt, h') /\ heap_ok h' (free_effect objs p).
Proof.
  intros (bl & L & mm & HI & HS) Hp. unfold free_effect. destruct (objs !! p) as [o|] eqn:Eo.
  2: { destruct Hp as [->|[]]; [|done]. exists h. split; [done|]. by exists bl, L, mm. }
  pose proof HS as [H1 H2 H3]. pose proof (store_lookup _ _ _ _ _ _ HS Eo) as Ho. destruct (o_mapped o) eqn:Em.
  - destruct (free_mapped_spec h bl L mm (p - 16) (o_len o + 16) HI Ho) as (h' & E & HI' & HB).
    replace (p - 16 + 16) with p in E by lia. exists h'. split; [done|]. exists bl, L, (maps_below (p - 16) mm). split; [done|].
    split.
    + intros a n. rewrite H1. split; intros (l & Hl & ->); exists l; (split; [|done]).
      * apply map_lookup_filter_Some. by split.
      * by apply map_lookup_filter_Some in Hl as [? _].
    + intros b n. rewrite lookup_maps_below, H2. split.
      * intros [(l & Hl & ->) Hlt]. exists l. split; [|done]. apply map_lookup_filter_Some. split; [done|].
        cbn [o_mapped fst snd negb orb]. apply Z.ltb_lt. lia.
      * intros (l & [Hl Hlt]%map_lookup_filter_Some & ->). cbn [o_mapped fst snd negb orb] in Hlt. apply Z.ltb_lt in Hlt.
        split; [by exists l|lia].
    + intros q o' Hq. apply map_lookup_filter_Some in Hq as [Hq Hc]. eapply bytes_at_kept; [by apply H3|].
      intros y Hy. apply HB. pose proof (store_lookup _ _ _ _ _ _ HS Hq) as Hq'. cbn [fst snd] in Hc. unfold o_len in *.
      destruct (o_mapped o').
      * right. exists (q - 16), (Z.of_nat (length (o_bytes o')) + 16). cbn [negb orb] in Hc. apply Z.ltb_lt in Hc.
        rewrite lookup_maps_below. split; [split; [done|lia]|lia].
      * left. destruct Hq' as [pf Hq']. eexists _, _. split; [exact Hq'|]. split; [done|]. cbn [b_sz]. lia.
  - destruct (free_heap_spec h bl L mm (p - 16) (o_len o + 16) HI Ho) as (h' & bl' & L' & E & HI' & HU & HB & _).
    replace (p - 16 + 16) with p in E by lia. exists h'. split; [done|]. exists bl', L', mm. split; [done|].
    split.
    + intros a n. rewrite HU, H1. split.
      * intros [(l & Hl & ->) Hne]. exists l. by rewrite lookup_delete_ne by lia.
      * intros (l & [Hne Hl]%lookup_delete_Some & ->). split; [by exists l|lia].
    + intros b n. rewrite H2. split.
      * intros (l & Hl & ->). exists l. rewrite lookup_delete_ne; [done|]. intros Epb. rewrite Epb, Hl in Eo. by injection Eo as <-.
      * intros (l & [Hne Hl]%lookup_delete_Some & ->). by exists l.
    + intros q o' [Hne Hq]%lookup_delete_Some. eapply bytes_at_kept; [by apply H3|]. intros y Hy.
      apply HB; [apply user_byte_kept; by eapply obj_user_byte|]. intros Hyp.
      pose proof (heap_apart _ _ _ _ _ HI HS) as HA. unfold o_len in *.
      destruct (Z.lt_trichotomy q p) as [Hlt|[->|Hlt]]; [|done|].
      * pose proof (HA _ _ _ _ Hq Eo Hlt). unfold o_len in *.
        (* the header of [p] is not in [q] *)
        pose proof (store_lookup _ _ _ _ _ _ HS Hq) as Hq'. unfold o_len in Hq'. destruct (o_mapped o').
        -- destruct (mo_range _ _ (hi_maps _ _ _ _ HI) _ _ Hq') as [? _]. destruct Ho as [pf Ho].
           destruct (hi_arena _ _ _ _ HI) as [(_ & _ & _ & -> & _)|[HA' He]]; [done|].
           pose proof (bo_range _ _ _ (ar_tiles _ _ _ _ _ _ HA') _ _ Ho) as Ru. cbn [b_sz] in Ru. lia.
        -- destruct Ho as [pf Ho], Hq' as [pf' Hq'].
           destruct (hi_arena _ _ _ _ HI) as [(_ & _ & _ & -> & _)|[HA' He]]; [done|].
           pose proof (bo_apart _ _ _ (ar_tiles _ _ _ _ _ _ HA') _ _ _ _ Hq' Ho ltac:(lia)) as Ru. cbn [b_sz] in Ru. lia.
      * pose proof (HA _ _ _ _ Eo Hq Hlt). unfold o_len in *. lia.
Qed.

(** ** Writes *)

Lemma heap_null h bl L mm objs : heap_inv h bl L mm -> store_ok (world h) bl mm objs -> objs !! 0 = None.
Proof.
  intros HI HS. destruct (objs !! 0) as [o|] eqn:Eo; [|done]. exfalso.
  pose proof (store_lookup _ _ _ _ _ _ HS Eo) as Ho. unfold o_len in Ho. destruct (o_mapped o).
  - destruct (mo_range _ _ (hi_maps _ _ _ _ HI) _ _ Ho) as [? _].
    pose proof (brk_range (brk_now := brk_now) _ (hi_kinv _ _ _ _ HI)). lia.
  - destruct (in_use_readable _ _ _ _ _ _ HI Ho). lia.
Qed.

(** The program, or a function it calls, writes [n] bytes of the object [p] from
  its byte [i] on. *)
Lemma write_obj h objs p o i n f k' l : heap_ok h objs -> objs !! p = Some o ->
  0 <= i -> 0 <= n -> i + n <= o_len o ->
  written (env := env) (world h) (p + i) n f k' ->
  length l = length (o_bytes o) -> bytes_at k' p l -> heap_ok (with_world h k') (<[p := Obj (o_mapped o) l]> objs).
Proof.
  intros (bl & L & mm & HI & HS) Hp Hi Hn Hin [E W] Hl Hat. destruct h as [s e hd bc k]. cbn [world with_world] in *.
  assert (HT : touch k k' (fun y => p + i <= y < p + i + n)).
  { split; [done|]. intros y Hy. rewrite W. destruct (_ && _) eqn:C; [|done]. bool_to_prop. lia. }
  assert (Hu : forall y, p + i <= y < p + i + n -> user_byte bl mm y).
  { intros y Hy. eapply obj_user_byte; [exact HS|exact Hp|lia]. }
  exists bl, L, mm. split; [eapply user_write_inv; [exact HI|exact HT|exact Hu]|].
  pose proof HS as [H1 H2 H3]. cbn [world]. split.
  - intros a c. rewrite H1. destruct (decide (a + 16 = p)) as [E'|E'].
    + rewrite E', Hp, lookup_insert_eq. destruct o as [m l0]. cbn [o_mapped o_bytes] in *.
      split; intros (l' & [= -> <-] & ->); eexists; (split; [reflexivity|by rewrite Hl]).
    + by rewrite lookup_insert_ne.
  - intros a c. rewrite H2. destruct (decide (a + 16 = p)) as [E'|E'].
    + rewrite E', Hp, lookup_insert_eq. destruct o as [m l0]. cbn [o_mapped o_bytes] in *.
      split; intros (l' & [= -> <-] & ->); eexists; (split; [reflexivity|by rewrite Hl]).
    + by rewrite lookup_insert_ne.
  - intros q o' Hq. apply lookup_insert_Some in Hq as [[<- <-]|[Hne Hq]]; [done|].
    eapply bytes_at_kept; [by apply H3|]. intros y Hy. apply HT. intros Hy'.
    pose proof (heap_apart _ _ _ _ _ HI HS) as HA. unfold o_len in *.
    destruct (Z.lt_trichotomy q p) as [Hlt|[->|Hlt]]; [|done|].
    + pose proof (HA _ _ _ _ Hq Hp Hlt). unfold o_len in *. lia.
    + pose proof (HA _ _ _ _ Hp Hq Hlt). unfold o_len in *. lia.
Qed.

Lemma obj_rw h objs p o : heap_ok h objs -> objs !! p = Some o -> rw_range (rw := rw) (world h) p (o_len o).
Proof.
  intros (bl & L & mm & HI & HS) Hp y Hy. eapply user_byte_rw; [exact HI|]. by eapply obj_user_byte.
Qed.

Lemma obj_bytes h objs p o : heap_ok h objs -> objs !! p = Some o -> bytes_at (world h) p (o_bytes o).
Proof. intros (bl & L & mm & HI & HS). by apply HS. Qed.

Lemma bytes_at_written k k' p l i n f vs : bytes_at k p l -> 0 <= i -> n = Z.of_nat (length vs) ->
  i + n <= Z.of_nat (length l) -> written (env := env) k (p + i) n f k' ->
  (forall j b, vs !! j = Some b -> f (p + i + Z.of_nat j) = Some b) ->
  bytes_at k' p (take (Z.to_nat i) l ++ vs ++ drop (Z.to_nat (i + n)) l).
Proof.
  intros Hl Hi Hn Hin W Hf j b Hj. rewrite lookup_app in Hj. rewrite length_take in Hj.
  destruct (take (Z.to_nat i) l !! j) as [b'|] eqn:E1.
  - injection Hj as <-. apply lookup_take_Some in E1 as [E1 ?]. rewrite (written_out _ _ _ _ _ _ W) by lia. by apply Hl.
  - apply lookup_take_None in E1 as [E1%lookup_ge_None|E1].
    { exfalso. rewrite lookup_app in Hj. destruct (vs !! (j - _)%nat) eqn:E2; [apply lookup_lt_Some in E2; lia|].
      apply lookup_drop_Some in Hj || rewrite lookup_drop in Hj. apply lookup_lt_Some in Hj. lia. }
    replace (Z.to_nat i `min` length l)%nat with (Z.to_nat i) in Hj by lia. rewrite lookup_app in Hj.
    destruct (vs !! (j - Z.to_nat i)%nat) as [b'|] eqn:E2.
    + injection Hj as <-. pose proof (lookup_lt_Some _ _ _ E2). rewrite (written_in _ _ _ _ _ _ W) by lia.
      rewrite <- (Hf _ _ E2). f_equal. lia.
    + apply lookup_ge_None in E2. rewrite lookup_drop in Hj. rewrite (written_out _ _ _ _ _ _ W) by lia.
      apply Hl. rewrite <- Hj. f_equal. lia.
Qed.

Lemma mem_op_val (h : heap K) f p k' : f (world h) = Some (p, k') -> mem_op f h = Val (tt, with_world h k').
Proof. unfold mem_op. by intros ->. Qed.

Lemma write_spec h objs p i v : heap_ok h objs -> call_ok objs (CWrite p i v) ->
  exists h' objs', exec (CWrite p i v) h = Val (0, h') /\ store_step objs (CWrite p i v) 0 objs' /\ heap_ok h' objs'.
Proof.
  intros HH (Hv & o & Ho & Hi). pose proof (obj_rw _ _ _ _ HH Ho) as Hw.
  destruct (rw_put (world h) (p + i) v ltac:(apply Hw; lia) Hv) as (k' & E & Ee & W).
  exists (with_world h k'), (<[p := Obj (o_mapped o) (<[Z.to_nat i := v]> (o_bytes o))]> objs).
  split; [|split; [by constructor|]].
  - cbn [exec]. unfold mbind, M_bind. rewrite (mem_op_val h _ p k'); [done|]. by rewrite E.
  - pose proof (written_put _ _ _ _ Ee W) as WW. unfold o_len in Hi.
    eapply (write_obj h objs p o i 1); [done|done|lia|lia|unfold o_len; lia|exact WW|by rewrite length_insert|].
    rewrite (insert_take_drop _ (Z.to_nat i)) by lia.
    pose proof (bytes_at_written (world h) k' p (o_bytes o) i 1 _ [v] (obj_bytes _ _ _ _ HH Ho) ltac:(lia) eq_refl ltac:(lia) WW) as HB.
    replace (Z.to_nat (i + 1)) with (S (Z.to_nat i)) in HB by lia. apply HB.
    intros [|j] b Hj; [by injection Hj as <-|done].
Qed.

Lemma calloc_spec h objs n m : heap_ok h objs -> 0 <= n < 2 ^ 64 -> 0 <= m < 2 ^ 64 ->
  (calloc n m h = Fault /\ MALLOC_MMAP_THRESHOLD <= n * m /\ refused (world h) (n * m)) \/
  exists r h' objs', calloc n m h = Val (r, h') /\ store_step objs (CCalloc n m) r objs' /\ heap_ok h' objs'.
Proof.
  intros HH Hn Hm. unfold calloc, SIZE_MAX. destruct (Z.ltb_spec (2 ^ 64 - 1) (n * m)).
  { right. exists 0, h, objs. split; [done|]. by split; [constructor|]. }
  unfold mbind. unfold M_bind at 1 3.
  destruct (malloc_spec h objs (n * m) HH ltac:(nia)) as [[-> ?]|(r & h1 & -> & HR)]; [by left|right].
  destruct HR as [[-> HH1]|(o & Ho & HH1)].
  { exists 0, h1, objs. split; [done|]. by split; [constructor|]. }
  pose proof Ho as (Hr & Hr16 & Hnone & Hlen & Hmap). unfold o_len in Hlen.
  assert (Hp : <[r := o]> objs !! r = Some o) by apply lookup_insert_eq.
  pose proof (obj_rw _ _ _ _ HH1 Hp) as Hw. unfold o_len in Hw.
  destruct (memset_spec (world h1) r 0 (n * m) ltac:(nia)) as (k' & E & W).
  { intros y Hy. apply Hw. lia. }
  assert (Hn0 : 0 <= n * m) by nia.
  assert (HB : bytes_at k' r (replicate (Z.to_nat (n * m)) 0 ++ drop (Z.to_nat (n * m)) (o_bytes o))).
  { apply (bytes_at_written (world h1) k' r (o_bytes o) 0 (n * m) (fun _ => Some (u8 0)) (replicate (Z.to_nat (n * m)) 0)).
    - by eapply obj_bytes.
    - lia.
    - rewrite length_replicate. lia.
    - lia.
    - by rewrite Z.add_0_r.
    - intros j b Hj. apply lookup_replicate in Hj as [-> _]. done. }
  exists r, (with_world h1 k'), (<[r := Obj (o_mapped o) (replicate (Z.to_nat (n * m)) 0 ++ drop (Z.to_nat (n * m)) (o_bytes o))]> objs).
  split; [|split].
  - rewrite (proj2 (Z.eqb_neq r 0)) by lia. cbn [negb]. unfold M_bind. by rewrite (mem_op_val _ _ _ _ E).
  - constructor.
    + unfold new_obj, o_len. cbn [o_bytes o_mapped]. split_and!; try done. rewrite length_app, length_replicate. lia.
    + cbn [o_bytes]. by rewrite take_app_length' by (by rewrite length_replicate).
  - rewrite <- (insert_insert_eq objs r _ o). eapply (write_obj h1 _ r o 0 (n * m)); [done|done|lia|lia|unfold o_len; lia| | |done].
    + rewrite Z.add_0_r. exact W.
    + rewrite length_app, length_replicate, length_drop. lia.
Qed.

(** ** [realloc] *)

(** The bytes under a known word. *)
Lemma le_bytes_val l : Forall (fun b => 0 <= b < 256) l -> le_bytes (length l) (le_val l) = l.
Proof.
  induction 1 as [|b l Hb _ IH]; cbn [length le_bytes le_val]; [done|].
  replace (b + 256 * le_val l) with (le_val l * 256 + b) by lia.
  rewrite Z.add_comm, Z.mod_add, Z.mod_small by lia. rewrite Z.div_add, Z.div_small, Z.add_0_l by lia. by rewrite IH.
Qed.

Lemma word_bytes k a v j b : load64 k a = Some v -> le_bytes 8 v !! j = Some b -> ubyte k (a + Z.of_nat j) = Some b.
Proof.
  unfold load64. intros (l & El & ->)%fmap_Some Hj. apply mapM_Some in El.
  pose proof (Forall2_length _ _ _ El) as Hl. unfold range in Hl. rewrite length_seqZ in Hl.
  assert (HF : Forall (fun c => 0 <= c < 256) l).
  { apply Forall_forall. intros c Hc. apply list_elem_of_lookup in Hc as [i Hi].
    destruct (Forall2_lookup_r _ _ _ _ _ El Hi) as (x & _ & Hx). by eapply byte_range. }
  replace 8%nat with (length l) in Hj by lia. rewrite le_bytes_val in Hj by done.
  destruct (Forall2_lookup_r _ _ _ _ _ El Hj) as (x & Hx & Hxb). unfold range in Hx.
  apply lookup_seqZ in Hx as [-> _]. exact Hxb.
Qed.

(** The header of an object. *)
Lemma obj_header h bl L mm objs p o : heap_inv h bl L mm -> store_ok (world h) bl mm objs -> objs !! p = Some o ->
  0 < p /\ 32 <= o_len o < 2 ^ 47 /\ o_len o mod 16 = 0 /\ load64 (world h) (p - 16) = Some (o_len o + 16) /\
  exists f, load64 (world h) (p - 16 + 8) = Some f /\ has f B_MMAP = o_mapped o.
Proof.
  intros HI HS Hp. pose proof (store_lookup _ _ _ _ _ _ HS Hp) as Ho. destruct (o_mapped o).
  - pose proof (hi_maps _ _ _ _ HI) as HM. destruct (mo_range _ _ HM _ _ Ho) as (Hb & Hb4 & Hn4 & Hn0 & Hw).
    destruct (mo_head _ _ HM _ _ Ho) as [Hs Hf].
    pose proof (brk_range (brk_now := brk_now) _ (hi_kinv _ _ _ _ HI)) as [Hbr _].
    pose proof (rw_user (brk_now := brk_now) _ (p - 16 + (o_len o + 16) - 1) (hi_kinv _ _ _ _ HI) ltac:(apply Hw; lia)) as Ht.
    unfold USER_TOP in Ht. split_and!; try lia; [Z.div_mod_to_equations; lia..|done|]. by exists 5.
  - destruct Ho as [pf Ho]. destruct (hi_arena _ _ _ _ HI) as [(_ & _ & _ & -> & _)|[HA He]]; [done|].
    pose proof (ar_tiles _ _ _ _ _ _ HA) as OK. pose proof (bo_range _ _ _ OK _ _ Ho) as Rx. cbn [b_sz] in Rx.
    pose proof (bo_arena _ _ _ OK) as RA. unfold USER_TOP in RA.
    destruct (rep_lookup _ _ _ _ _ _ (ar_rep _ _ _ _ _ _ HA) Ho ltac:(done)) as (Hs & c & Hc & Hf & _).
    split_and!; try lia; [Z.div_mod_to_equations; lia|done|]. exists (flags_of c pf). split; [done|]. by apply flags_mmap.
Qed.

Lemma shrink_obj h objs p l n : heap_ok h objs -> objs !! p = Some (Obj false l) -> 48 <= size_to_need n ->
  size_to_need n mod 16 = 0 -> size_to_need n + 48 <= Z.of_nat (length l) + 16 ->
  exists h' f, shrink_block (p - 16) (size_to_need n) (Z.of_nat (length l) + 16 - size_to_need n) h = Val (tt, h') /\
    heap_ok h' (<[p := Obj false (shrunk l (size_to_need n) f)]> objs).
Proof.
  intros (bl & L & mm & HI & HS) Hp Hn1 Hn16 Hn2. set (need := size_to_need n) in *. clearbody need.
  pose proof HS as [H1 H2 H3]. pose proof (store_lookup _ _ _ _ _ _ HS Hp) as Hu. cbn [o_mapped] in Hu. unfold o_len in Hu. cbn [o_bytes] in Hu.
  destruct (shrink_spec h bl L mm (p - 16) _ need HI Hu Hn1 Hn16 Hn2) as (h' & bl' & L' & f & E & HI' & HU & HB & L1 & L2).
  assert (Hf : 0 <= flags_of 1 f < 2 ^ 64) by (by apply flags_range).
  assert (Hlen : length (shrunk l need (flags_of 1 f)) = Z.to_nat (need - 16)).
  { unfold shrunk. rewrite !length_app, length_take, !length_le_bytes. lia. }
  exists h', (flags_of 1 f). split; [done|]. exists bl', L', mm. split; [done|]. split.
  - intros a c. rewrite HU, H1. destruct (decide (a + 16 = p)) as [Ea|Ea].
    + rewrite Ea, lookup_insert_eq. split.
      * intros [[_ ?]|[_ ->]]; [lia|]. eexists. split; [done|]. rewrite Hlen. lia.
      * intros (l' & [= <-] & ->). right. rewrite Hlen. lia.
    + rewrite lookup_insert_ne by done. split; [intros [[? _]|[? _]]; [done|lia]|]. intros ?. left. split; [done|lia].
  - intros a c. rewrite H2. destruct (decide (a + 16 = p)) as [Ea|Ea].
    + rewrite Ea, lookup_insert_eq, Hp. split; by intros (l' & [= ] & _).
    + by rewrite lookup_insert_ne.
  - intros q o Hq. apply lookup_insert_Some in Hq as [[<- <-]|[Hne Hq]].
    + cbn [o_bytes]. unfold shrunk. intros j b Hj. rewrite lookup_app in Hj.
      replace (p - 16 + need - 16) with (p + (need - 32)) in L1 by lia.
      replace (p - 16 + need - 8) with (p + (need - 32) + 8) in L2 by lia.
      destruct (take (Z.to_nat (need - 32)) l !! j) as [b'|] eqn:Ej.
      * injection Hj as <-. apply lookup_take_Some in Ej as [Ej ?]. pose proof (lookup_lt_Some _ _ _ Ej).
        rewrite HB; [by apply (H3 _ _ Hp)| |lia]. apply user_byte_kept. eapply (obj_user_byte _ _ _ _ p); [exact HS|exact Hp|].
        unfold o_len. cbn [o_bytes]. lia.
      * rewrite length_take in Hj. replace (Z.to_nat (need - 32) `min` length l)%nat with (Z.to_nat (need - 32)) in Hj by lia.
        apply lookup_take_None in Ej as [Ej%lookup_ge_None|Ej].
        { exfalso. apply lookup_lt_Some in Hj. rewrite length_app, !length_le_bytes in Hj. lia. }
        rewrite lookup_app in Hj. destruct (le_bytes 8 need !! (j - Z.to_nat (need - 32))%nat) as [b'|] eqn:E8.
        -- injection Hj as <-. rewrite <- (word_bytes _ _ _ _ _ L1 E8). f_equal. lia.
        -- apply lookup_ge_None in E8. rewrite length_le_bytes in *. rewrite <- (word_bytes _ _ _ _ _ L2 Hj). f_equal. lia.
    + eapply bytes_at_kept; [by apply H3|]. intros y Hy. apply HB; [apply user_byte_kept; by eapply obj_user_byte|].
      intros Hyp. pose proof (heap_apart _ _ _ _ _ HI HS) as HA. unfold o_len in *. cbn [o_bytes] in *.
      destruct (Z.lt_trichotomy q p) as [Hlt|[->|Hlt]]; [|done|].
      * pose proof (HA _ _ _ _ Hq Hp Hlt). unfold o_len in *. lia.
      * pose proof (HA _ _ _ _ Hp Hq Hlt). unfold o_len in *. cbn [o_bytes] in *. lia.
Qed.

(** The new object takes the bytes of the old one, which is freed. *)
Lemma move_obj h objs p o q n o' : heap_ok h (<[q := o']> objs) -> objs !! p = Some o -> new_obj objs q n o' ->
  o_len o < n -> exists k' h' o'', memcpy (world h) q p (o_len o) = Some (q, k') /\
    free p (with_world h k') = Val (tt, h') /\ new_obj objs q n o'' /\
    take (length (o_bytes o)) (o_bytes o'') = o_bytes o /\ heap_ok h' (free_effect (<[q := o'']> objs) p).
Proof.
  intros HH Hp Hnew Hlt. pose proof Hnew as (Hq0 & Hq16 & Hq & Hlen & Hmap).
  assert (Hne : p <> q) by congruence.
  assert (Hp' : <[q := o']> objs !! p = Some o) by (by rewrite lookup_insert_ne).
  assert (Hq' : <[q := o']> objs !! q = Some o') by apply lookup_insert_eq.
  pose proof (obj_rw _ _ _ _ HH Hp') as Hwp. pose proof (obj_rw _ _ _ _ HH Hq') as Hwq.
  destruct HH as (bl & L & mm & HI & HS). pose proof (heap_apart _ _ _ _ _ HI HS) as HA.
  assert (HH : heap_ok h (<[q := o']> objs)) by (by exists bl, L, mm).
  destruct (memcpy_spec (world h) q p (o_len o)) as (k' & E & W).
  { unfold o_len. lia. }
  { destruct (Z.lt_trichotomy p q) as [Hl|[?|Hl]]; [|done|left; lia]. right. exact (HA _ _ _ _ Hp' Hq' Hl). }
  { intros y Hy. apply Hwq. lia. }
  { by apply rw_readable. }
  unfold o_len in *. set (m := Z.of_nat (length (o_bytes o))) in *.
  set (l := o_bytes o ++ drop (Z.to_nat m) (o_bytes o')).
  assert (HB : bytes_at k' q l).
  { apply (bytes_at_written (world h) k' q (o_bytes o') 0 m (fun x => ubyte (world h) (x - q + p)) (o_bytes o)).
    - by eapply obj_bytes.
    - lia.
    - done.
    - lia.
    - by rewrite Z.add_0_r.
    - intros j b Hj. rewrite <- (obj_bytes _ _ _ _ HH Hp' j b Hj). f_equal. lia. }
  assert (Hll : length l = length (o_bytes o')) by (unfold l; rewrite length_app, length_drop; lia).
  assert (HH2 : heap_ok (with_world h k') (<[q := Obj (o_mapped o') l]> objs)).
  { rewrite <- (insert_insert_eq objs q _ o'). eapply (write_obj h _ q o' 0 m); [done|done|lia|lia|unfold o_len; lia| |done|done].
    rewrite Z.add_0_r. exact W. }
  destruct (free_spec _ _ p HH2) as (h' & Ef & HH3).
  { right. exists o. by rewrite lookup_insert_ne. }
  exists k', h', (Obj (o_mapped o') l). split; [done|]. split; [done|]. split; [|split; [|done]].
  - unfold new_obj, o_len. cbn [o_bytes o_mapped]. rewrite Hll. by split_and!.
  - cbn [o_bytes]. unfold l. by rewrite take_app_length.
Qed.

Lemma realloc_spec h objs p n : heap_ok h objs -> call_ok objs (CRealloc p n) ->
  (realloc p n h = Fault /\ MALLOC_MMAP_THRESHOLD <= n /\ refused (world h) n) \/
  exists r h' objs', realloc p n h = Val (r, h') /\ store_step objs (CRealloc p n) r objs' /\ heap_ok h' objs'.
Proof.
  intros HH [Hp Hn]. pattern (realloc p n h). match goal with |- ?P _ => set (Q := P) end.
  unfold realloc. destruct (Z.eqb_spec p 0) as [->|Hp0].
  { destruct (malloc_spec h objs n HH Hn) as [?|(r & h' & E & [[-> HH']|(o & Ho & HH')])]; [by left|right..].
    - exists 0, h', objs. split; [done|]. split; [|done]. do 2 constructor.
    - exists r, h', (<[r := o]> objs). split; [done|]. split; [|done]. by do 2 constructor. }
  destruct Hp as [?|[o Ho]]; [done|]. destruct (Z.eqb_spec n 0) as [->|Hn0].
  { right. destruct (free_spec h objs p HH ltac:(by right; exists o)) as (h' & E & HH').
    exists 0, h', (free_effect objs p). split; [unfold mbind, M_bind; by rewrite E|]. split; [by constructor|done]. }
  pose proof HH as (bl & L & mm & HI & HS).
  destruct (obj_header _ _ _ _ _ _ _ HI HS Ho) as (_ & Hlen & Hl16 & Hs & f & Hf & Hfm).
  unfold HEADER_SZ. cbv zeta. unfold mbind. unfold M_bind at 1. unfold hsize, hflags. run_ld Hs.
  destruct (size_to_need_spec n Hn) as [[E0 ?]|(Hnd & Hnd16 & Hnds)].
  { rewrite E0. right. exists 0, h, objs. split; [done|]. split; [by constructor|done]. }
  rewrite (proj2 (Z.eqb_neq (size_to_need n) 0)) by lia. unfold M_bind at 1. run_ld Hs.
  destruct (Z.leb_spec (size_to_need n) (o_len o + 16)) as [Hle|Hgt].
  - unfold M_bind at 1. run_ld Hf. rewrite Hfm. unfold MIN_BLOCK. right.
    destruct (Z.leb_spec 48 (o_len o + 16 - size_to_need n)) as [Htail|_], (o_mapped o) eqn:Em; cbn [andb negb].
    + exists p, h, objs. split; [done|]. split; [|done]. eapply step_realloc_same; [done|exact Ho|lia].
    + destruct o as [m l]. cbn [o_mapped] in Em. subst m. unfold o_len in *. cbn [o_bytes] in *.
      destruct (shrink_obj h objs p l n HH Ho ltac:(lia) Hnd16 ltac:(lia)) as (h' & g & E & HH').
      eexists p, h', _. split; [unfold M_bind; by rewrite E|]. split; [|exact HH']. apply step_realloc_shrink; (done || lia).
    + exists p, h, objs. split; [done|]. split; [|done]. eapply step_realloc_same; [done|exact Ho|lia].
    + exists p, h, objs. split; [done|]. split; [|done]. eapply step_realloc_same; [done|exact Ho|lia].
  - assert (Hlt : o_len o < n) by (Z.div_mod_to_equations; lia).
    destruct (malloc_spec h objs n HH Hn) as [[E ?]|(r & h1 & E & [[-> HH']|(o' & Ho' & HH')])];
      unfold M_bind at 1; rewrite E; [by left|right..].
    + exists 0, h1, objs. split; [done|]. split; [by constructor|done].
    + pose proof Ho' as (Hr0 & _). rewrite (proj2 (Z.eqb_neq r 0)) by lia.
      destruct (move_obj h1 objs p o r n o' HH' Ho Ho' Hlt) as (k' & h' & o'' & Em & Ef & Hn'' & Ht & HH'').
      rewrite u64_id by lia. replace (o_len o + 16 - 16) with (o_len o) by lia.
      eexists r, h', _. split; [|split; [|exact HH'']].
      * unfold M_bind. rewrite (mem_op_val _ _ _ _ Em), Ef. done.
      * by eapply step_realloc_move.
Qed.

(** Every call, in any reachable state. *)
Lemma exec_spec h objs c : heap_ok h objs -> call_ok objs c ->
  (exists r h' objs', exec c h = Val (r, h') /\ store_step objs c r objs' /\ heap_ok h' objs') \/
  exec c h = Fault /\ MALLOC_MMAP_THRESHOLD <= wanted c /\ refused (world h) (wanted c).
Proof.
  intros HH Hc. destruct c as [n|n m|p n|p|p i v]; cbn [exec wanted].
  - destruct (malloc_spec h objs n HH Hc) as [?|(r & h' & E & [[-> HH']|(o & Ho & HH')])]; [by right|left..].
    + exists 0, h', objs. split; [done|]. split; [constructor|done].
    + exists r, h', (<[r := o]> objs). split; [done|]. split; [by constructor|done].
  - destruct (calloc_spec h objs n m HH) as [?|?]; [apply Hc..|by right|by left].
  - destruct (realloc_spec h objs p n HH Hc) as [?|?]; [by right|by left].
  - left. destruct (free_spec h objs p HH Hc) as (h' & E & HH'). exists 0, h', (free_effect objs p).
    split; [unfold mbind, M_bind; by rewrite E|]. split; [constructor|done].
  - left. destruct (write_spec h objs p i v HH Hc) as (h' & objs' & E & HS' & HH'). by exists 0, h', objs'.
Qed.

(** The heap of a program that has not allocated yet. *)
Lemma heap_ok_init k : kinv k -> heap_ok (Heap 0 0 0 0 k) ∅.
Proof.
  intros Hk. exists ∅, [], ∅. split; [|by split; [intros a n; split; [by intros [? ?]|by intros (? & ? & _)]
    |intros a n; split; [done|by intros (? & ? & _)]|]].
  split; cbn [world brk_cache a_start a_end free_head]; [done|by left|by intros a b|by left|]. by split.
Qed.

(** C7.  The allocator implements the object store: it starts without objects in
  any sound process, and in every reachable state each call the program may make
  runs to its end (no fault, no exit, no loop without end), returns what the
  contract [store_step] allows, and leaves objects that are pairwise disjoint.  The
  objects the call does not name keep their bytes, but for those that the kernel's
  [munmap] sweeps away: the mappings above a mapping that is given back.  The one
  case in which the program faults is a request of 128 KiB or more, not so large
  that its rounding wraps, whose mapping the kernel refuses with an error other
  than -1. *)
Theorem malloc_refines_store : (forall k, kinv k -> heap_ok (Heap 0 0 0 0 k) ∅) /\
  forall h objs c, heap_ok h objs -> call_ok objs c ->
    apart objs /\ objs !! 0 = None /\
    ((exists r h' objs', exec c h = Val (r, h') /\ store_step objs c r objs' /\ others_kept objs c objs' /\
        heap_ok h' objs' /\ apart objs') \/
     exec c h = Fault /\ 128 * 1024 <= wanted c /\ refused (world h) (wanted c)).
Proof.
  split; [exact heap_ok_init|]. intros h objs c HH Hc. pose proof HH as (bl & L & mm & HI & HS).
  split; [by eapply heap_apart|]. split; [by eapply heap_null|].
  destruct (exec_spec h objs c HH Hc) as [(r & h' & objs' & E & S & HH')|?]; [left|by right]. exists r, h', objs'.
  split_and!; [done|done|by eapply step_others_kept|done|]. destruct HH' as (bl' & L' & mm' & HI' & HS'). by eapply heap_apart.
Qed.

(** ** Double release and the self-check *)

(** C36.  Freeing a heap object a second time stops the program with the message
  of the allocator when the block before it was in use at the first [free]. *)
Theorem double_free_detected h objs p l f : heap_ok h objs -> objs !! p = Some (Obj false l) ->
  load64 (world h) (p - 8) = Some f -> has f B_PREV = false ->
  exists h', free p h = Val (tt, h') /\ free p h' = Died DOUBLE_FREE.
Proof.
  intros (bl & L & mm & HI & HS) Hp Hf Hnp. pose proof (store_lookup _ _ _ _ _ _ HS Hp) as Hu. cbn [o_mapped] in Hu.
  destruct (free_heap_spec h bl L mm (p - 16) _ HI Hu) as (h' & bl' & L' & E & HI' & _ & _ & HF).
  replace (p - 16 + 16) with p in E by lia. exists h'. split; [done|].
  destruct HF as (b & Hb & Hk).
  { intros g. replace (p - 16 + 8) with (p - 8) by lia. rewrite Hf. by intros [= <-]. }
  replace p with (p - 16 + 16) by lia. by eapply free_again.
Qed.

Lemma land15 n : 0 <= n -> n mod 16 = 0 -> Z.land n 15 = 0.
Proof. intros ? Hn. change 15 with (Z.ones 4). by rewrite Z.land_ones. Qed.

Lemma check_block_zero h bl L mm x n : heap_inv h bl L mm -> bl !! x = Some (Block n Free false) -> check_block x h = Val (0, h).
Proof.
  destruct h as [s e hd bc k]. intros HI Hx. pose proof HI as [_ _ HS HA _]. cbn [world brk_cache a_start a_end free_head] in *.
  destruct HA as [(_ & _ & _ & -> & _)|[HA He]]; [done|]. pose proof HA as [OK _ HR _ _].
  pose proof (bo_range _ _ _ OK _ _ Hx) as Rx. cbn [b_sz] in Rx.
  destruct (HR _ _ Hx) as [Hs (c & Hf & ->) Hft]. cbn [b_kd b_sz b_pf] in *. specialize (Hs ltac:(done)).
  destruct (Hft eq_refl) as [F1 F2]. rewrite Hf in F2. change (flags_of 0 false) with 0 in *.
  unfold check_block, mbind. unfold M_bind at 1, get. unfold M_bind at 1. unfold hflags at 1, hsize at 1. run_ld Hf.
  change (has 0 B_ALLOC) with false. cbv iota. unfold M_bind at 1. run_ld Hs. unfold MIN_BLOCK.
  rewrite (proj2 (Z.ltb_ge n 48)) by lia. rewrite land15 by (tauto || lia). cbn [Z.eqb negb a_start a_end].
  rewrite (proj2 (Z.ltb_ge x s)), (proj2 (Z.ltb_ge e (x + n))) by lia. cbn [orb].
  unfold M_bind at 1, FOOT, mbind, hsize. unfold M_bind at 1. run_ld Hs. cbn [mret M_ret]. unfold HEADER_SZ.
  unfold M_bind at 1. run_ld F1. unfold M_bind at 1, hflags at 1.
  replace (x + n - 8) with (x + n - 16 + 8) in F2 by lia. run_ld F2. rewrite Z.eqb_refl. cbn [Z.eqb negb orb].
  unfold M_bind at 1. change (has 0 B_PREV) with false. cbv iota. cbn [mret M_ret].
  destruct (Z.ltb_spec (x + n) e) as [Hlt|]; [|done].
  destruct (bo_next _ _ _ OK _ _ Hx) as [?|([m kd q] & Hb & Hfo)]; cbn [b_sz] in *; [lia|].
  destruct Hfo as [_ Hnf]. cbn [b_kd] in Hnf. destruct (HS _ _ Hb) as [Hk|Hk]; cbn [b_kd] in Hk; [subst kd|done].
  destruct (rep_lookup _ _ _ _ _ _ HR Hb ltac:(done)) as (_ & c & Hc & Hg & _ & Hc1).
  unfold M_bind, hflags. run_ld Hg. rewrite flags_alloc, Hc1 by done. done.
Qed.

Lemma check_loop_zero h bl L mm : heap_inv h bl L mm ->
  forall L2 prev cur n fuel, (forall m, m ∈ L2 -> m ∈ L) -> seg (world h) prev cur L2 0 ->
    n + Z.of_nat (length L2) <= 1000000 -> (length L2 < fuel)%nat -> check_loop fuel cur n h = Val (0, h).
Proof.
  intros HI L2. induction L2 as [|a L2 IH]; intros prev cur n [|fuel] Hsub Hseg Hn Hfuel; cbn [length] in *; try lia; cbn [check_loop].
  - cbn [seg] in Hseg. by subst cur.
  - destruct Hseg as (-> & _ & c & Hc & Hseg).
    destruct (hi_arena _ _ _ _ HI) as [(_ & _ & _ & _ & ->)|[HA He]].
    { exfalso. specialize (Hsub a ltac:(by left)). by apply not_elem_of_nil in Hsub. }
    destruct (proj1 (proj2 (ar_link _ _ _ _ _ _ HA) a) (Hsub a ltac:(by left))) as ([m kd p] & Hb & Hk).
    cbn [b_kd] in Hk. subst kd. pose proof (ar_tiles _ _ _ _ _ _ HA) as OK. pose proof (bo_range _ _ _ OK _ _ Hb) as Rb.
    pose proof (bo_arena _ _ _ OK) as RA.
    assert (p = false) as -> by exact (settled_pf _ _ _ _ _ OK (hi_settled _ _ _ _ HI) Hb eq_refl).
    rewrite (proj2 (Z.eqb_neq a 0)), (proj2 (Z.ltb_ge 1000000 (n + 1))) by lia.
    unfold HEADER_SZ, mbind. unfold M_bind at 1. rewrite (check_block_zero h bl L mm _ _ HI Hb). cbn [Z.eqb negb].
    unfold M_bind, nnext. run_ld Hc. eapply IH; [|exact Hseg|lia|lia]. intros b Hb'. apply Hsub. by right.
Qed.

(** [malloc_selfcheck] finds nothing to report in any reachable state of the
  allocator whose arena is at most 16 MB: no cycle, no bad size or footer, no two
  adjacent free blocks; it changes nothing. *)
Theorem selfcheck_zero h objs : heap_ok h objs -> a_end h - a_start h <= 16000000 -> malloc_selfcheck h = Val (0, h).
Proof.
  intros (bl & L & mm & HI & _) Hsz. unfold malloc_selfcheck, mbind, M_bind, get.
  assert (HL : Z.of_nat (length L) <= 1000000 /\ seg (world h) 0 (free_head h) L 0).
  { destruct (hi_arena _ _ _ _ HI) as [(_ & _ & E & _ & ->)|[HA _]]; [by rewrite E|].
    pose proof (list_length _ _ _ _ (ar_tiles _ _ _ _ _ _ HA) (ar_link _ _ _ _ _ _ HA)). split; [|apply HA].
    Z.div_mod_to_equations. lia. }
  destruct HL as [HL Hseg]. eapply check_loop_zero; [exact HI|done|exact Hseg|lia|].
  apply Nat2Z.inj_lt. rewrite Z2Nat.id by lia. lia.
Qed.

Lemma malloc_small h n : heap_ok h ∅ -> 0 <= n -> n < MALLOC_MMAP_THRESHOLD ->
  exists r h', malloc n h = Val (r, h') /\ (r <> 0 -> exists l, heap_ok h' (<[r := Obj false l]> ∅)).
Proof.
  intros HH Hn Hs. destruct (malloc_spec h ∅ n HH ltac:(unfold MALLOC_MMAP_THRESHOLD in *; lia)) as [(_ & ? & _)|(r & h' & E & HR)]; [lia|].
  exists r, h'. split; [done|]. intros Hr. destruct HR as [[? _]|([m l] & (_ & _ & _ & _ & Em) & HH')]; [done|].
  cbn [o_mapped] in Em. exists l. rewrite (proj2 (Z.leb_gt _ _)) in Em by lia. by rewrite Em in HH'.
Qed.

End Store.

(** ** Demonstrations *)
Section Demo.
#[local] Existing Instances M_bind M_ret.

Definition demo_heap : heap flat := Heap 0 0 0 0 flat_init.

(** The result of a run, without the state. *)
Definition outcome {A} (r : out (A * heap flat)) : out A :=
  match r with Val (x, _) => Val x | Fault => Fault | Died m => Died m | Spin => Spin end.
Definition after {A} (r : out (A * heap flat)) : heap flat := match r with Val (_, h) => h | _ => demo_heap end.

Lemma demo_init : heap_ok (rw := flat_rw) (kinv := flat_ok) (brk_now := f_brk) demo_heap ∅.
Proof.
  exists ∅, [], ∅. split; [|by split; [intros a n; split; [by intros [? ?]|by intros (? & ? & _)]
    |intros a n; split; [done|by intros (? & ? & _)]|]].
  split; cbn [world brk_cache a_start a_end free_head demo_heap]; [apply flat_init_ok|by left|by intros a b|by left|]. by split.
Qed.

Lemma run_split {A} (R : out (A * heap flat)) x h v : R = Val (x, h) -> outcome R = Val v -> x = v /\ after R = h.
Proof. intros -> [= ->]. by split. Qed.

(** After one [malloc(100)]. *)
Definition demo_one : heap flat := after (malloc 100 demo_heap).

Lemma demo_malloc : outcome (malloc 100 demo_heap) = Val 0x400010.
Proof. vm_compute. reflexivity. Qed.

Lemma demo_realloc : outcome (exec (CRealloc 0 100) demo_heap) = Val 0x400010.
Proof. vm_compute. reflexivity. Qed.

Lemma demo_one_ok : exists l, heap_ok (rw := flat_rw) (kinv := flat_ok) (brk_now := f_brk) demo_one (<[0x400010 := Obj false l]> ∅).
Proof.
  destruct (malloc_small (rw := flat_rw) (env := flat_env) (kinv := flat_ok) (brk_now := f_brk) demo_heap 100 demo_init)
    as (r & h & E & HR); [lia|unfold MALLOC_MMAP_THRESHOLD; lia|].
  destruct (run_split _ _ _ _ E demo_malloc) as [-> Eh]. unfold demo_one. rewrite Eh. exact (HR ltac:(lia)).
Qed.

Lemma malloc_refines_store_witness : exists h' objs', exec (CRealloc 0 100) demo_heap = Val (0x400010, h') /\
  store_step ∅ (CRealloc 0 100) 0x400010 objs'.
Proof.
  destruct (malloc_refines_store (rw := flat_rw) (env := flat_env) (kinv := flat_ok) (brk_now := f_brk)) as [HI HS].
  destruct (HS demo_heap ∅ (CRealloc 0 100) (HI flat_init flat_init_ok)) as (_ & _ & [(r & h' & objs' & E & S & _)|(_ & H & _)]).
  - split; [by left|lia].
  - destruct (run_split _ _ _ _ E demo_realloc) as [-> _]. exact (ex_intro _ h' (ex_intro _ objs' (conj E S))).
  - exfalso. unfold wanted in H. lia.
Defined.

Lemma double_free_detected_witness : exists h', free 0x400010 demo_one = Val (tt, h') /\ free 0x400010 h' = Died DOUBLE_FREE.
Proof.
  destruct demo_one_ok as [l HH].
  apply (double_free_detected (rw := flat_rw) (kinv := flat_ok) (brk_now := f_brk) demo_one _ 0x400010 l 1 HH).
  - apply lookup_insert_eq.
  - vm_compute. reflexivity.
  - vm_compute. reflexivity.
Defined.

Lemma selfcheck_zero_witness : malloc_selfcheck demo_one = Val (0, demo_one).
Proof.
  destruct demo_one_ok as [l HH].
  apply (selfcheck_zero (rw := flat_rw) (kinv := flat_ok) (brk_now := f_brk) demo_one _ HH).
  apply Z.leb_le. vm_compute. reflexivity.
Defined.

(** Where the code falls short of its documentation. *)

(** [realloc(p, 100)] of a block of 200 bytes set to 0xAA: bytes 96 to 99 of the
  object, which the program still owns, are overwritten with a footer. *)
Example realloc_overwrites :
  outcome ((p ← malloc 200; mem_op (fun k => memset k p 0xAA 200);; q ← realloc p 100;
    h ← get; mret (bool_decide (p = q), ubyte (world h) (q + 95), ubyte (world h) (q + 96), ubyte (world h) (q + 99))) demo_heap)
  = Val (true, Some 0xAA, Some 128, Some 0).
Proof. vm_compute. reflexivity. Qed.

(** A second [free] of a block that merged into the one before it is not noticed:
  the allocator goes on, its self-check fails and it hands out memory that is in
  use. *)
Example double_free_missed :
  outcome ((p ← malloc 100; q ← malloc 100; r ← malloc 100; free p;; free q;; free q;;
    x ← malloc_selfcheck; a ← malloc 300; b ← malloc 10;
    mret (x, bool_decide (r <= b < r + 100))) demo_heap)
  = Val (-8, true).
Proof. vm_compute. reflexivity. Qed.

(** A mapping the kernel refuses is not noticed, since only -1 is taken for a
  failure: the header is written at the error number. *)
Example large_malloc_faults : outcome (malloc (2 ^ 40) demo_heap) = Fault.
Proof. vm_compute. reflexivity. Qed.

(** Freeing one large object unmaps the other. *)
Example free_unmaps_others :
  outcome ((p ← malloc 200000; q ← malloc 200000; free q;; h ← get; mret (ubyte (world h) p)) demo_heap) = Val None.
Proof. vm_compute. reflexivity. Qed.

End Demo.
