(* ===== verification/Vmm.v ===== *)
(** * Virtual memory manager ([kernel/mm/vmm.c])

  Four-level page tables live in physical memory ([PhysMem.mem]); table pages
  come from the frame allocator ([Pmm]).  A pointer to a table is its physical
  address (the direct-map offset cancels).  TLB invalidation has no effect on
  the stored tables and is not modelled. *)
From S2P Require Import Prelude Pmm PhysMem.

(** ** Constants *)
Definition VMM_PRESENT : Z := 2 ^ 0.
Definition VMM_WRITE : Z := 2 ^ 1.
Definition VMM_USER : Z := 2 ^ 2.
Definition VMM_PWT : Z := 2 ^ 3.
Definition VMM_PCD : Z := 2 ^ 4.
Definition VMM_HUGE : Z := 2 ^ 7.
Definition VMM_NX : Z := 2 ^ 63.
Definition VMM_KERN_RW : Z := Z.lor VMM_PRESENT VMM_WRITE.
Definition PHYS_MASK : Z := 0x000FFFFFFFFFF000.

Definition PML4_IDX (v : Z) : Z := Z.land (Z.shiftr v 39) 0x1FF.
Definition PDPT_IDX (v : Z) : Z := Z.land (Z.shiftr v 30) 0x1FF.
Definition PD_IDX (v : Z) : Z := Z.land (Z.shiftr v 21) 0x1FF.
Definition PT_IDX (v : Z) : Z := Z.land (Z.shiftr v 12) 0x1FF.

(** ** Machine state shared by the memory modules *)
Record mstate := MState { ms_pmm : pmm; ms_mem : mem }.

Definition with_mem (s : mstate) (m : mem) : mstate := MState (ms_pmm s) m.
Definition with_pmm (s : mstate) (p : pmm) : mstate := MState p (ms_mem s).

(** [table[index]] *)
Definition entry (m : mem) (table index : Z) : Z := rd64 m (table + 8 * index).
Definition set_entry (m : mem) (table index v : Z) : mem := wr64 m (table + 8 * index) v.

(** ** Operations *)
Definition alloc_table (s : mstate) : Z * mstate :=
  let '(frame, p) := pmm_alloc_frame (ms_pmm s) in
  if frame =? 0 then (0, with_pmm s p)
  else (frame, MState p (zero_frame (ms_mem s) frame)).

(** [None] is the NULL of the source. *)
Definition walk_or_create (s : mstate) (table index flags : Z) : option Z * mstate :=
  if negb (has (entry (ms_mem s) table index) VMM_PRESENT) then
    let '(new_frame, s1) := alloc_table s in
    if new_frame =? 0 then (None, s1)
    else
      let s2 := with_mem s1 (set_entry (ms_mem s1) table index (Z.lor new_frame flags)) in
      (Some (Z.land (entry (ms_mem s2) table index) PHYS_MASK), s2)
  else (Some (Z.land (entry (ms_mem s) table index) PHYS_MASK), s).

(** The flags of intermediate entries. *)
Definition tbl_flags (flags : Z) : Z :=
  let tbl_flags := Z.lor VMM_PRESENT VMM_WRITE in
  if has flags VMM_USER then Z.lor tbl_flags VMM_USER else tbl_flags.

Definition vmm_map_page (s : mstate) (pml4 virt phys flags : Z) : Z * mstate :=
  let tbl_flags := tbl_flags flags in
  match walk_or_create s pml4 (PML4_IDX virt) tbl_flags with
  | (None, s1) => (VOID_ERR_NOMEM, s1)
  | (Some pdpt, s1) =>
  match walk_or_create s1 pdpt (PDPT_IDX virt) tbl_flags with
  | (None, s2) => (VOID_ERR_NOMEM, s2)
  | (Some pd, s2) =>
  match walk_or_create s2 pd (PD_IDX virt) tbl_flags with
  | (None, s3) => (VOID_ERR_NOMEM, s3)
  | (Some pt, s3) =>
      (VOID_OK, with_mem s3 (set_entry (ms_mem s3) pt (PT_IDX virt)
                               (Z.lor (Z.land phys PHYS_MASK) flags)))
  end end end.

Definition vmm_unmap_page (s : mstate) (pml4 virt : Z) : Z * mstate :=
  let m := ms_mem s in
  let pml4e := entry m pml4 (PML4_IDX virt) in
  if negb (has pml4e VMM_PRESENT) then (0, s) else
  let pdpte := entry m (Z.land pml4e PHYS_MASK) (PDPT_IDX virt) in
  if negb (has pdpte VMM_PRESENT) then (0, s) else
  let pde := entry m (Z.land pdpte PHYS_MASK) (PD_IDX virt) in
  if negb (has pde VMM_PRESENT) then (0, s) else
  let pt := Z.land pde PHYS_MASK in
  let pte := entry m pt (PT_IDX virt) in
  if negb (has pte VMM_PRESENT) then (0, s) else
  (Z.land pte PHYS_MASK, with_mem s (set_entry m pt (PT_IDX virt) 0)).

Definition vmm_virt_to_phys (m : mem) (pml4 virt : Z) : Z :=
  let pml4e := entry m pml4 (PML4_IDX virt) in
  if negb (has pml4e VMM_PRESENT) then 0 else
  let pdpte := entry m (Z.land pml4e PHYS_MASK) (PDPT_IDX virt) in
  if negb (has pdpte VMM_PRESENT) then 0 else
  if has pdpte VMM_HUGE
  then Z.lor (Z.land pdpte 0xFFFFC0000000) (Z.land virt 0x3FFFFFFF) else
  let pde := entry m (Z.land pdpte PHYS_MASK) (PD_IDX virt) in
  if negb (has pde VMM_PRESENT) then 0 else
  if has pde VMM_HUGE
  then Z.lor (Z.land pde 0xFFFFFFE00000) (Z.land virt 0x1FFFFF) else
  let pte := entry m (Z.land pde PHYS_MASK) (PT_IDX virt) in
  if negb (has pte VMM_PRESENT) then 0 else
  Z.lor (Z.land pte PHYS_MASK) (Z.land virt 0xFFF).

Definition vmm_get_pte (m : mem) (pml4 virt : Z) : Z :=
  let pml4e := entry m pml4 (PML4_IDX virt) in
  if negb (has pml4e VMM_PRESENT) then 0 else
  let pdpte := entry m (Z.land pml4e PHYS_MASK) (PDPT_IDX virt) in
  if negb (has pdpte VMM_PRESENT) then 0 else
  if has pdpte VMM_HUGE then pdpte else
  let pde := entry m (Z.land pdpte PHYS_MASK) (PD_IDX virt) in
  if negb (has pde VMM_PRESENT) then 0 else
  if has pde VMM_HUGE then pde else
  entry m (Z.land pde PHYS_MASK) (PT_IDX virt).

(** ** Facts about indices and masks *)
Definition page_of (va : Z) : Z := va / PAGE_SIZE.

(** The user half: every virtual address with [PML4_IDX] below 256. *)
Definition user_half (va : Z) : Prop := 0 <= va < 2 ^ 47.

Lemma idx_spec v n : 0 <= n -> Z.land (Z.shiftr v n) 0x1FF = (v / 2 ^ n) mod 512.
Proof.
  intros. change 0x1FF with (Z.ones 9). rewrite Z.land_ones, Z.shiftr_div_pow2 by lia. done.
Qed.

Lemma idx_range v n : 0 <= n -> 0 <= Z.land (Z.shiftr v n) 0x1FF < 512.
Proof. intros. rewrite idx_spec by lia. apply Z.mod_pos_bound. lia. Qed.

(** The page number of a user address is its four indices. *)
Lemma page_of_idx v : user_half v ->
  page_of v = ((PML4_IDX v * 512 + PDPT_IDX v) * 512 + PD_IDX v) * 512 + PT_IDX v /\
  0 <= PML4_IDX v < 256.
Proof.
  intros Hv. unfold user_half, page_of, PML4_IDX, PDPT_IDX, PD_IDX, PT_IDX, PAGE_SIZE in *.
  rewrite !idx_spec by lia.
  change (2 ^ 39) with (2 ^ 30 * 512). change (2 ^ 30) with (2 ^ 21 * 512).
  change (2 ^ 21) with (2 ^ 12 * 512). change (2 ^ 12) with 4096.
  rewrite <- !Z.div_div by lia. set (x := v / 4096).
  assert (0 <= x < 2 ^ 35) by (split; [apply Z.div_pos; lia|apply Z.div_lt_upper_bound; lia]).
  pose proof (Z.div_mod x 512 ltac:(lia)). pose proof (Z.div_mod (x / 512) 512 ltac:(lia)).
  pose proof (Z.div_mod (x / 512 / 512) 512 ltac:(lia)).
  assert (0 <= x / 512 / 512 / 512 < 256).
  { split; [repeat apply Z.div_pos; lia|]. repeat (apply Z.div_lt_upper_bound; [lia|]). lia. }
  rewrite (Z.mod_small (x / 512 / 512 / 512)) by lia. lia.
Qed.

(** The lookup only depends on the page. *)
Lemma idx_page v v' n : 12 <= n -> page_of v = page_of v' -> Z.shiftr v n = Z.shiftr v' n.
Proof.
  intros Hn Hp. unfold page_of, PAGE_SIZE in Hp. rewrite !Z.shiftr_div_pow2 by lia.
  replace (2 ^ n) with (4096 * 2 ^ (n - 12)).
  - rewrite <- !Z.div_div by lia. by rewrite Hp.
  - change 4096 with (2 ^ 12). rewrite <- Z.pow_add_r by lia. f_equal. lia.
Qed.

Lemma get_pte_page m root v v' : page_of v = page_of v' ->
  vmm_get_pte m root v = vmm_get_pte m root v'.
Proof.
  intros Hp. unfold vmm_get_pte, PML4_IDX, PDPT_IDX, PD_IDX, PT_IDX.
  rewrite (idx_page v v' 39), (idx_page v v' 30), (idx_page v v' 21), (idx_page v v' 12) by done.
  done.
Qed.

Lemma phys_mask_spec : PHYS_MASK = Z.shiftl (Z.ones 40) 12.
Proof. reflexivity. Qed.

Lemma testbit_phys_mask k : 0 <= k -> Z.testbit PHYS_MASK k = (12 <=? k) && (k <? 52).
Proof.
  intros. rewrite phys_mask_spec, Z.shiftl_spec by lia.
  destruct (Z.leb_spec 12 k); simpl.
  - destruct (Z.ltb_spec k 52); [apply Z.ones_spec_low; lia|apply Z.ones_spec_high; lia].
  - rewrite Z.testbit_neg_r; [done|lia].
Qed.

(** A page-aligned physical address in the 52-bit range. *)
Definition frame_addr (f : Z) : Prop := 0 < f < 2 ^ 52 /\ f mod PAGE_SIZE = 0.

Lemma frame_addr_testbit f k : frame_addr f -> 0 <= k -> Z.testbit f k = true -> 12 <= k < 52.
Proof.
  intros [Hr Ha] Hk Hb. split.
  - destruct (decide (12 <= k)); [done|]. exfalso.
    rewrite <- (Z.mod_pow2_bits_low f 12 k) in Hb by lia. change (2 ^ 12) with PAGE_SIZE in Hb.
    rewrite Ha, Z.bits_0 in Hb. done.
  - destruct (decide (k < 52)); [done|]. rewrite (testbit_above f 52) in Hb by lia. done.
Qed.

Lemma frame_add_offset f r : frame_addr f -> 0 <= r < PAGE_SIZE -> f + r = Z.lor f r.
Proof.
  intros Hf Hr. assert (Hl : Z.land f r = 0).
  { apply Z.bits_inj'. intros k Hk. rewrite Z.land_spec, Z.bits_0.
    destruct (Z.testbit f k) eqn:Eb; [|done]. apply frame_addr_testbit in Eb; [|done..].
    apply (testbit_above r 12); [done|lia]. }
  by rewrite <- Z.lxor_lor, Z.add_nocarry_lxor.
Qed.

Lemma frame_mask f : frame_addr f -> Z.land f PHYS_MASK = f.
Proof.
  intros Hf. apply Z.bits_inj'. intros k Hk. rewrite Z.land_spec, testbit_phys_mask by lia.
  destruct (Z.testbit f k) eqn:E; [|done].
  apply frame_addr_testbit in E; [|done..].
  rewrite (proj2 (Z.leb_le 12 k)), (proj2 (Z.ltb_lt k 52)) by lia. done.
Qed.

(** Low flag bits do not disturb the address of an entry. *)
Lemma mask_lor f fl : Z.land f PHYS_MASK = f -> Z.land fl PHYS_MASK = 0 ->
  Z.land (Z.lor f fl) PHYS_MASK = f.
Proof. intros Hf Hfl. rewrite Z.land_lor_distr_l, Hf, Hfl. apply Z.lor_0_r. Qed.

Lemma has_lor x y n : 0 <= n -> has (Z.lor x y) (2 ^ n) = has x (2 ^ n) || has y (2 ^ n).
Proof. intros. rewrite !has_bit by lia. apply Z.lor_spec. Qed.

Lemma has_frame f n : frame_addr f -> 0 <= n -> n < 12 \/ 52 <= n -> has f (2 ^ n) = false.
Proof.
  intros Hf Hn Hr. rewrite has_bit by lia. destruct (Z.testbit f n) eqn:E; [|done].
  apply frame_addr_testbit in E; [|done..]. lia.
Qed.

(** ** Walks *)

(** The table reached from [t] along a list of indices. *)
Fixpoint walk (m : mem) (t : Z) (idx : list Z) : option Z :=
  match idx with
  | [] => Some t
  | i :: r => let e := entry m t i in
              if has e VMM_PRESENT then walk m (Z.land e PHYS_MASK) r else None
  end.

Definition va_path (va : Z) : list Z := [PML4_IDX va; PDPT_IDX va; PD_IDX va].

(** ** The page-table invariant

  [G] records, for every frame used as a table below [root], its depth and
  the indices leading to it (as the number [key]); since [G] is a function, no
  table is reachable along two paths, and every table of [G] is referenced.  Only the user half of the root is
  described: the kernel half is shared between address spaces. *)
Notation table_map := (gmap Z (Z * Z)).

Record pt_inv (s : mstate) (root : Z) (G : table_map) : Prop := {
  pt_root : G !! root = Some (0, 0);
  pt_frames : forall t k key, G !! t = Some (k, key) ->
    frame_addr t /\ 0 <= k <= 3 /\ t / PAGE_SIZE ∉ free_set (ms_pmm s);
  pt_entries : forall t k key i, G !! t = Some (k, key) -> k < 3 -> 0 <= i < 512 ->
    (k = 0 -> i < 256) -> has (entry (ms_mem s) t i) VMM_PRESENT = true ->
    G !! (Z.land (entry (ms_mem s) t i) PHYS_MASK) = Some (k + 1, key * 512 + i) /\
    has (entry (ms_mem s) t i) VMM_HUGE = false;
  pt_parent : forall t k key, G !! t = Some (k, key) -> t <> root ->
    exists t' k' key' i, G !! t' = Some (k', key') /\ k = k' + 1 /\ k' < 3 /\ 0 <= i < 512 /\
      (k' = 0 -> i < 256) /\ has (entry (ms_mem s) t' i) VMM_PRESENT = true /\
      Z.land (entry (ms_mem s) t' i) PHYS_MASK = t
}.

(** Indices valid from depth [k]. *)
Fixpoint path_ok (k : Z) (idx : list Z) : Prop :=
  match idx with
  | [] => True
  | i :: r => 0 <= i < 512 /\ (k = 0 -> i < 256) /\ k < 3 /\ path_ok (k + 1) r
  end.

Definition key_ext (key : Z) (idx : list Z) : Z := foldl (fun a i => a * 512 + i) key idx.

Lemma va_path_ok va : user_half va -> path_ok 0 (va_path va).
Proof.
  intros Hv. destruct (page_of_idx va Hv) as [_ ?].
  pose proof (idx_range va 30 ltac:(lia)). pose proof (idx_range va 21 ltac:(lia)).
  unfold va_path, PDPT_IDX, PD_IDX in *. simpl. lia.
Qed.

Lemma walk_inv s root G t k key idx t' : pt_inv s root G ->
  G !! t = Some (k, key) -> path_ok k idx -> walk (ms_mem s) t idx = Some t' ->
  G !! t' = Some (k + Z.of_nat (length idx), key_ext key idx).
Proof.
  intros Hi. revert t k key. induction idx as [|i r IH]; intros t k key Ht Hp Hw; simpl in *.
  { injection Hw as <-. by rewrite Z.add_0_r. }
  destruct (has (entry (ms_mem s) t i) VMM_PRESENT) eqn:E; [|done].
  destruct Hp as (? & ? & ? & Hp).
  destruct (pt_entries s root G Hi t k key i) as [Hn _]; [done..|].
  rewrite (IH _ _ _ Hn Hp Hw). do 2 f_equal. lia.
Qed.

(** Two user pages whose walks end in the same table and use the same slot of
  it are the same page. *)
Lemma walk_inj s root G va va' t : pt_inv s root G -> user_half va -> user_half va' ->
  walk (ms_mem s) root (va_path va) = Some t -> walk (ms_mem s) root (va_path va') = Some t ->
  PT_IDX va = PT_IDX va' -> page_of va = page_of va'.
Proof.
  intros Hi Hv Hv' Hw Hw' Hpt. pose proof (pt_root s root G Hi) as Hr.
  pose proof (walk_inv s root G root 0 0 _ t Hi Hr (va_path_ok va Hv) Hw) as H1.
  pose proof (walk_inv s root G root 0 0 _ t Hi Hr (va_path_ok va' Hv') Hw') as H2.
  rewrite H1 in H2. injection H2 as H2.
  destruct (page_of_idx va Hv) as [-> _]. destruct (page_of_idx va' Hv') as [-> _]. lia.
Qed.

(** In the user half, [vmm_get_pte] is the walk followed by the leaf read. *)
Lemma get_pte_walk s root G va : pt_inv s root G -> user_half va ->
  vmm_get_pte (ms_mem s) root va =
    match walk (ms_mem s) root (va_path va) with
    | Some pt => entry (ms_mem s) pt (PT_IDX va)
    | None => 0
    end.
Proof.
  intros Hi Hv. pose proof (va_path_ok va Hv) as (? & ? & _ & ? & _ & _ & ? & _).
  unfold vmm_get_pte, va_path. simpl.
  destruct (has (entry (ms_mem s) root (PML4_IDX va)) VMM_PRESENT) eqn:E1; simpl; [|done].
  destruct (pt_entries s root G Hi root 0 0 (PML4_IDX va) (pt_root s root G Hi)) as [G1 _]; [lia|done..|].
  destruct (has (entry (ms_mem s) _ (PDPT_IDX va)) VMM_PRESENT) eqn:E2; simpl; [|done].
  destruct (pt_entries s root G Hi _ _ _ (PDPT_IDX va) G1) as [G2 ->]; [lia|done|lia|done|].
  destruct (has (entry (ms_mem s) _ (PD_IDX va)) VMM_PRESENT) eqn:E3; simpl; [|done].
  destruct (pt_entries s root G Hi _ _ _ (PD_IDX va) G2) as [G3 ->]; [lia|done|lia|done|].
  done.
Qed.

(** ** Changing one entry *)

Lemma entry_set_eq m t i v : 0 <= v < 2 ^ 64 -> entry (set_entry m t i v) t i = v.
Proof. apply rd64_wr64_eq. Qed.

Lemma frames_disjoint t t' : frame_addr t -> frame_addr t' -> t <> t' ->
  t + PAGE_SIZE <= t' \/ t' + PAGE_SIZE <= t.
Proof.
  intros [_ H1] [_ H2] Hne. unfold PAGE_SIZE in *.
  pose proof (Z.div_mod t 4096 ltac:(lia)). pose proof (Z.div_mod t' 4096 ltac:(lia)). lia.
Qed.

Lemma entry_set_ne m t i v t' i' : frame_addr t -> frame_addr t' ->
  0 <= i < 512 -> 0 <= i' < 512 -> (t, i) <> (t', i') ->
  entry (set_entry m t i v) t' i' = entry m t' i'.
Proof.
  intros Ht Ht' Hi Hi' Hne. unfold entry, set_entry. apply rd64_wr64_ne.
  destruct (decide (t = t')) as [->|Hd].
  - assert (i <> i') by congruence. lia.
  - pose proof (frames_disjoint t t' Ht Ht' Hd). unfold PAGE_SIZE in *. lia.
Qed.

Lemma entry_zero_frame m f t i : frame_addr f -> frame_addr t -> 0 <= i < 512 ->
  entry (zero_frame m f) t i = if decide (t = f) then 0 else entry m t i.
Proof.
  intros Hf Ht Hi. unfold entry. case_decide as E.
  - subst. apply rd64_zero_frame; lia.
  - unfold zero_frame. apply rd64_write_out. rewrite length_zero_page.
    pose proof (frames_disjoint f t Hf Ht ltac:(congruence)). unfold PAGE_SIZE in *. lia.
Qed.

(** Writing a leaf slot changes no walk and keeps the invariant. *)
Lemma leaf_walk s root G t key i v idx t0 k0 key0 : pt_inv s root G ->
  G !! t = Some (3, key) -> 0 <= i < 512 -> G !! t0 = Some (k0, key0) -> path_ok k0 idx ->
  walk (set_entry (ms_mem s) t i v) t0 idx = walk (ms_mem s) t0 idx.
Proof.
  intros Hi Ht Hix. revert t0 k0 key0.
  induction idx as [|j r IH]; intros t0 k0 key0 H0 Hp; simpl; [done|].
  destruct Hp as (Hj & Hj0 & Hk & Hp).
  destruct (pt_frames s root G Hi _ _ _ Ht) as (Hft & _). destruct (pt_frames s root G Hi _ _ _ H0) as (Hf0 & _).
  rewrite entry_set_ne by (done || (intros [= -> ->]; rewrite Ht in H0; injection H0; lia)).
  destruct (has (entry (ms_mem s) t0 j) VMM_PRESENT) eqn:E; [|done].
  destruct (pt_entries s root G Hi t0 k0 key0 j) as [Hn _]; [done..|].
  by eapply IH.
Qed.

Lemma leaf_inv s root G t key i v : pt_inv s root G -> G !! t = Some (3, key) -> 0 <= i < 512 ->
  pt_inv (with_mem s (set_entry (ms_mem s) t i v)) root G.
Proof.
  intros Hi Ht Hix. destruct (pt_frames s root G Hi _ _ _ Ht) as (Hft & _).
  assert (Hsame : forall t' k' key' j, G !! t' = Some (k', key') -> k' < 3 -> 0 <= j < 512 ->
    entry (set_entry (ms_mem s) t i v) t' j = entry (ms_mem s) t' j).
  { intros t' k' key' j Ht' Hk Hj. destruct (pt_frames s root G Hi _ _ _ Ht') as (Hft' & _).
    apply entry_set_ne; try done. intros [= -> ->]. rewrite Ht in Ht'. injection Ht'. lia. }
  split; [by apply Hi|by apply Hi| |]; simpl.
  - intros t' k' key' j Ht' Hk Hj Hj0. rewrite (Hsame t' k' key') by done.
    by apply (pt_entries s root G Hi).
  - intros t' k' key' Ht' Hne.
    destruct (pt_parent s root G Hi _ _ _ Ht' Hne) as (t1 & k1 & key1 & j & H1 & Hrest).
    exists t1, k1, key1, j. rewrite (Hsame t1 k1 key1) by (done || lia). done.
Qed.

(** The effect of a leaf write on the lookup of every user page. *)
Lemma leaf_get_pte s root G va v : pt_inv s root G -> user_half va -> 0 <= v < 2 ^ 64 ->
  forall pt, walk (ms_mem s) root (va_path va) = Some pt ->
  let m' := set_entry (ms_mem s) pt (PT_IDX va) v in
  pt_inv (with_mem s m') root G /\
  vmm_get_pte m' root va = v /\
  forall va', user_half va' -> page_of va' <> page_of va ->
    vmm_get_pte m' root va' = vmm_get_pte (ms_mem s) root va'.
Proof.
  intros Hi Hv Hr pt Hw m'. pose proof (pt_root s root G Hi) as Hroot.
  pose proof (walk_inv s root G root 0 0 _ pt Hi Hroot (va_path_ok va Hv) Hw) as Hpt.
  change (0 + Z.of_nat (length (va_path va))) with 3 in Hpt.
  pose proof (idx_range va 12 ltac:(lia)) as Hix. change (0 <= PT_IDX va < 512) in Hix.
  pose proof (leaf_inv s root G pt _ _ v Hi Hpt Hix) as Hi'.
  assert (Hwalk : forall va', user_half va' ->
    walk m' root (va_path va') = walk (ms_mem s) root (va_path va')).
  { intros va' Hv'. eapply leaf_walk; [done..|by apply va_path_ok]. }
  split; [done|]. split.
  - change m' with (ms_mem (with_mem s m')). rewrite (get_pte_walk _ root G) by done. cbn [ms_mem with_mem].
    rewrite Hwalk, Hw by done. by apply entry_set_eq.
  - intros va' Hv' Hne. rewrite (get_pte_walk s root G) by done.
    change m' with (ms_mem (with_mem s m')). rewrite (get_pte_walk _ root G) by done. cbn [ms_mem with_mem].
    rewrite Hwalk by done. destruct (walk (ms_mem s) root (va_path va')) as [pt'|] eqn:Hw'; [|done].
    pose proof (walk_inv s root G root 0 0 _ pt' Hi Hroot (va_path_ok va' Hv') Hw') as Hpt'.
    destruct (pt_frames s root G Hi _ _ _ Hpt) as (? & _). destruct (pt_frames s root G Hi _ _ _ Hpt') as (? & _).
    pose proof (idx_range va' 12 ltac:(lia)) as Hix'. change (0 <= PT_IDX va' < 512) in Hix'.
    apply entry_set_ne; [done..|]. intros [= <- Hpt_eq]. apply Hne. symmetry.
    by apply (walk_inj s root G va va' pt).
Qed.

(** ** Installing a new table *)

(** The frame allocator is consistent, never hands out frame 0 and manages at
  most the 52 physical address bits a page-table entry can hold. *)
Record vm_ok (s : mstate) : Prop := {
  vm_pmm : pmm_inv (ms_pmm s);
  vm_zero : 0 ∉ free_set (ms_pmm s);
  vm_total : total_frames (ms_pmm s) <= 2 ^ 40
}.

(** How the memory state may evolve while tables are added below [root]:
  new tables come from frames that were free, and no byte outside the tables
  nor the kernel half of the root changes. *)
Record vm_ext (root : Z) (s : mstate) (G : table_map) (s' : mstate) (G' : table_map) : Prop := {
  ext_tables : G ⊆ G';
  ext_total : total_frames (ms_pmm s') = total_frames (ms_pmm s);
  ext_free : free_set (ms_pmm s') ⊆ free_set (ms_pmm s);
  ext_new : forall t x, G' !! t = Some x -> G !! t = None -> t / PAGE_SIZE ∈ free_set (ms_pmm s);
  ext_lost : forall f, f ∈ free_set (ms_pmm s) -> f ∉ free_set (ms_pmm s') ->
    exists t x, G' !! t = Some x /\ t / PAGE_SIZE = f;
  ext_mem : forall a, (forall t x, G' !! t = Some x -> ~ (t <= a < t + PAGE_SIZE)) ->
    mem_get (ms_mem s') a = mem_get (ms_mem s) a;
  ext_kernel : forall i, 256 <= i < 512 -> entry (ms_mem s') root i = entry (ms_mem s) root i
}.

Definition same_map (root : Z) (s s' : mstate) : Prop := forall va, user_half va ->
  vmm_get_pte (ms_mem s') root va = vmm_get_pte (ms_mem s) root va.

Lemma vm_ext_refl root s G : vm_ext root s G s G.
Proof. split; try done. intros t x H1 H2. congruence. Qed.

Lemma vm_ext_trans root s G s1 G1 s2 G2 :
  vm_ext root s G s1 G1 -> vm_ext root s1 G1 s2 G2 -> vm_ext root s G s2 G2.
Proof.
  intros H1 H2. split.
  - etrans; [apply H1|apply H2].
  - by rewrite (ext_total _ _ _ _ _ H2), (ext_total _ _ _ _ _ H1).
  - etrans; [apply H2|apply H1].
  - intros t x Ht Hn. destruct (G1 !! t) as [y|] eqn:E.
    + by apply (ext_new _ _ _ _ _ H1 t y).
    + apply (ext_free _ _ _ _ _ H1). by apply (ext_new _ _ _ _ _ H2 t x).
  - intros f Hf Hn. destruct (decide (f ∈ free_set (ms_pmm s1))) as [Hin|Hout].
    + by apply (ext_lost _ _ _ _ _ H2).
    + destruct (ext_lost _ _ _ _ _ H1 f Hf Hout) as (t & x & Ht & <-).
      exists t, x. split; [|done]. by apply (lookup_weaken G1 G2); [|apply H2].
  - intros a Ha. rewrite (ext_mem _ _ _ _ _ H2) by done. apply (ext_mem _ _ _ _ _ H1).
    intros t x Ht. apply (Ha t x). by apply (lookup_weaken G1 G2); [|apply H2].
  - intros i Hi. by rewrite (ext_kernel _ _ _ _ _ H2), (ext_kernel _ _ _ _ _ H1).
Qed.

Lemma alloc_table_cases s : vm_ok s ->
  (exists f p', alloc_table s = (f, MState p' (zero_frame (ms_mem s) f)) /\ f <> 0 /\
     frame_addr f /\ f / PAGE_SIZE ∈ free_set (ms_pmm s) /\
     free_set p' = free_set (ms_pmm s) ∖ {[f / PAGE_SIZE]} /\
     total_frames p' = total_frames (ms_pmm s) /\ pmm_inv p') \/
  (alloc_table s = (0, s) /\ free_set (ms_pmm s) = ∅).
Proof.
  intros [Hi Hz Ht]. unfold alloc_table. pose proof (alloc_frame_cases _ (inv_wf _ Hi)) as Hc.
  destruct (pmm_alloc_frame (ms_pmm s)) as [a p'] eqn:Ha.
  destruct Hc as [(f & [Hf _] & Hr & -> & ->)|(He & -> & ->)].
  - left. exists (f * PAGE_SIZE), (take_frame (ms_pmm s) f).
    assert (f <> 0) by (intros ->; done). unfold PAGE_SIZE in *.
    rewrite (proj2 (Z.eqb_neq _ _)) by lia. rewrite Z.div_mul by lia.
    split_and!; [done|lia| |done|by apply free_set_take_frame; [apply Hi|]|done|by apply take_frame_inv].
    split; [lia|]. unfold PAGE_SIZE. by rewrite Z.mod_mul.
  - right. simpl. by destruct s.
Qed.

(** Facts about the state after [table[index] = new_frame | flags]. *)
Section Install.
Context (s : mstate) (root : Z) (G : table_map) (t k key i f fl : Z) (p' : pmm).
Context (Hinv : pt_inv s root G) (Ht : G !! t = Some (k, key)) (Hk : k < 3).
Context (Hix : 0 <= i < 512) (Hi0 : k = 0 -> i < 256).
Context (Habsent : has (entry (ms_mem s) t i) VMM_PRESENT = false).
Context (Hf : frame_addr f) (Hfree : f / PAGE_SIZE ∈ free_set (ms_pmm s)).
Context (Hset : free_set p' = free_set (ms_pmm s) ∖ {[f / PAGE_SIZE]}).
Context (Htot : total_frames p' = total_frames (ms_pmm s)).
Context (Hfl : 0 <= fl < 2 ^ 64) (Hflm : Z.land fl PHYS_MASK = 0)
  (Hflp : has fl VMM_PRESENT = true) (Hflh : has fl VMM_HUGE = false).

Definition installed : mstate :=
  MState p' (set_entry (zero_frame (ms_mem s) f) t i (Z.lor f fl)).
Definition installed_map : table_map := <[f := (k + 1, key * 512 + i)]> G.

Lemma install_fresh : G !! f = None.
Proof.
  destruct (G !! f) as [[k' key']|] eqn:E; [|done].
  by destruct (pt_frames s root G Hinv _ _ _ E) as (_ & _ & []).
Qed.

Lemma install_t_ne_f : t <> f.
Proof. intros ->. rewrite install_fresh in Ht. done. Qed.

Lemma install_t_frame : frame_addr t.
Proof. by destruct (pt_frames s root G Hinv _ _ _ Ht). Qed.

Lemma install_entry_new : entry (ms_mem installed) t i = Z.lor f fl.
Proof. apply entry_set_eq, lor_bound; [lia| |done]. destruct Hf as [? _]. lia. Qed.

Lemma install_entry_f j : 0 <= j < 512 -> entry (ms_mem installed) f j = 0.
Proof.
  intros Hj. pose proof install_t_ne_f. simpl.
  rewrite entry_set_ne by (apply install_t_frame || done || congruence).
  rewrite entry_zero_frame by done. by case_decide.
Qed.

Lemma install_entry_old t' x j : G !! t' = Some x -> 0 <= j < 512 -> (t', j) <> (t, i) ->
  entry (ms_mem installed) t' j = entry (ms_mem s) t' j.
Proof.
  destruct x as [k' key']. intros Ht' Hj Hne.
  destruct (pt_frames s root G Hinv _ _ _ Ht') as (? & _). simpl.
  rewrite entry_set_ne by (apply install_t_frame || done || congruence).
  rewrite entry_zero_frame by done. case_decide as E; [|done].
  subst. rewrite install_fresh in Ht'. done.
Qed.

Lemma install_new_facts : Z.land (Z.lor f fl) PHYS_MASK = f /\
  has (Z.lor f fl) VMM_PRESENT = true /\ has (Z.lor f fl) VMM_HUGE = false.
Proof.
  split; [by apply mask_lor; [apply frame_mask|]|].
  unfold VMM_PRESENT, VMM_HUGE in *. rewrite !has_lor, Hflp, Hflh by lia.
  rewrite (has_frame f 7) by (done || lia). by rewrite orb_true_r.
Qed.

Lemma install_map_lookup t' x : installed_map !! t' = Some x <->
  (f = t' /\ (k + 1, key * 512 + i) = x) \/ (f <> t' /\ G !! t' = Some x).
Proof. apply lookup_insert_Some. Qed.

Lemma install_inv : pt_inv installed root installed_map.
Proof.
  destruct install_new_facts as (Hm & Hp & Hh).
  destruct (pt_frames s root G Hinv _ _ _ Ht) as (_ & Hk0 & _). split.
  - unfold installed_map. rewrite lookup_insert_ne; [by apply Hinv|].
    intros E. pose proof (pt_root s root G Hinv) as Hr. rewrite <- E, install_fresh in Hr. done.
  - intros t' k' key' [[<- [= <- <-]]|[? H']]%install_map_lookup; simpl; rewrite Hset.
    + split_and!; [done|lia|lia|set_solver +].
    + destruct (pt_frames s root G Hinv _ _ _ H') as (? & ? & ?). set_solver.
  - intros t' k' key' j [[<- [= <- <-]]|[? H']]%install_map_lookup Hk' Hj Hj0 Hpr.
    { rewrite install_entry_f in Hpr by done. done. }
    destruct (decide ((t', j) = (t, i))) as [[= -> ->]|Hne].
    + rewrite install_entry_new in *. rewrite Hm. split; [|done].
      rewrite Ht in H'. injection H' as <- <-. apply lookup_insert_eq.
    + rewrite (install_entry_old t' _ j H') in * by done.
      destruct (pt_entries s root G Hinv _ _ _ _ H' Hk' Hj Hj0 Hpr) as [Hn ->]. split; [|done].
      unfold installed_map. rewrite lookup_insert_ne; [done|].
      intros E. rewrite <- E, install_fresh in Hn. done.
  - intros t' k' key' [[<- [= <- <-]]|[? H']]%install_map_lookup Hne.
    + exists t, k, key, i. rewrite install_entry_new. split_and!; try done; try lia.
      unfold installed_map. rewrite lookup_insert_ne; [done|]. intros E. by apply install_t_ne_f.
    + destruct (pt_parent s root G Hinv _ _ _ H' Hne)
        as (t1 & k1 & key1 & j & H1 & ? & ? & ? & ? & Hpr & Hto).
      exists t1, k1, key1, j. rewrite (install_entry_old t1 _ j H1); [|lia|congruence].
      split_and!; try done; try lia. unfold installed_map. rewrite lookup_insert_ne; [done|].
      intros E. rewrite <- E, install_fresh in H1. done.
Qed.

Lemma install_ext : vm_ext root s G installed installed_map.
Proof.
  pose proof install_fresh. pose proof install_t_ne_f. pose proof (pt_root s root G Hinv) as Hr.
  split; simpl; [by apply insert_subseteq|done|rewrite Hset; set_solver +| | | |].
  - intros t' x [[<- _]|[_ ?]]%install_map_lookup ?; [done|congruence].
  - intros g Hg Hn. rewrite Hset in Hn. exists f, (k + 1, key * 512 + i).
    split; [apply lookup_insert_eq|]. destruct (decide (f / PAGE_SIZE = g)); [done|].
    destruct Hn. apply elem_of_difference. split; [done|]. by intros ->%elem_of_singleton.
  - intros a Ha. unfold set_entry, wr64. rewrite mem_get_write_out.
    + unfold zero_frame. apply mem_get_write_out. rewrite length_zero_page.
      pose proof (Ha f _ (lookup_insert_eq _ _ _)). unfold PAGE_SIZE in *. lia.
    + rewrite length_le_bytes. assert (G' : installed_map !! t = Some (k, key)).
      { unfold installed_map. by rewrite lookup_insert_ne by done. }
      pose proof (Ha t _ G'). unfold PAGE_SIZE in *. lia.
  - intros j Hj. change (set_entry _ t i _) with (ms_mem installed).
    apply (install_entry_old root (0, 0)); [done|lia|].
    intros [= -> ->]. rewrite Ht in Hr. injection Hr as -> ->. lia.
Qed.

(** A new empty table maps nothing: every leaf read is unchanged. *)
Lemma install_leaf idx t0 k0 key0 j : G !! t0 = Some (k0, key0) -> path_ok k0 idx ->
  k0 + Z.of_nat (length idx) = 3 -> 0 <= j < 512 ->
  match walk (ms_mem installed) t0 idx with
  | Some pt => entry (ms_mem installed) pt j | None => 0 end =
  match walk (ms_mem s) t0 idx with Some pt => entry (ms_mem s) pt j | None => 0 end.
Proof.
  intros H0 Hp Hlen Hj. revert t0 k0 key0 H0 Hp Hlen.
  induction idx as [|a r IH]; intros t0 k0 key0 H0 Hp Hlen.
  - cbn [walk length] in *. apply (install_entry_old t0 (k0, key0)); [done..|].
    intros [= -> ->]. rewrite Ht in H0. injection H0 as -> ->. lia.
  - cbn [walk length path_ok] in *. destruct Hp as (Ha & Ha0 & Hk0 & Hp).
    destruct (decide ((t0, a) = (t, i))) as [[= -> ->]|Hne].
    + destruct install_new_facts as (Hm & Hpr & _).
      rewrite install_entry_new, Habsent, Hpr, Hm.
      destruct r as [|b r]; cbn [walk]; [by apply install_entry_f|].
      destruct Hp as (? & _). by rewrite install_entry_f.
    + rewrite (install_entry_old t0 _ a H0) by done.
      destruct (has (entry (ms_mem s) t0 a) VMM_PRESENT) eqn:E; [|done].
      destruct (pt_entries s root G Hinv _ _ _ _ H0 Hk0 Ha Ha0 E) as [Hn _].
      apply (IH _ _ _ Hn Hp). lia.
Qed.

Lemma install_same_map : same_map root s installed.
Proof.
  intros va Hv. rewrite (get_pte_walk s root G) by done.
  rewrite (get_pte_walk _ root installed_map) by (done || apply install_inv).
  eapply install_leaf; [by apply Hinv|by apply va_path_ok|done|].
  apply (idx_range va 12). lia.
Qed.
End Install.

(** ** [walk_or_create] *)

(** Flags [vmm_map_page] puts in intermediate entries. *)
Definition tbl_flags_ok (fl : Z) : Prop :=
  0 <= fl < 2 ^ 64 /\ Z.land fl PHYS_MASK = 0 /\
  has fl VMM_PRESENT = true /\ has fl VMM_HUGE = false.

Lemma install_vm_ok s f p' m' : vm_ok s -> pmm_inv p' -> total_frames p' = total_frames (ms_pmm s) ->
  free_set p' = free_set (ms_pmm s) ∖ {[f]} -> vm_ok (MState p' m').
Proof.
  intros [_ Hz Ht] Hi Htot Hset. split; simpl; [done|rewrite Hset; set_solver|lia].
Qed.

Lemma walk_or_create_spec s root G t k key i fl r s' :
  vm_ok s -> pt_inv s root G -> G !! t = Some (k, key) -> k < 3 -> 0 <= i < 512 ->
  (k = 0 -> i < 256) -> tbl_flags_ok fl -> walk_or_create s t i fl = (r, s') ->
  exists G', vm_ok s' /\ pt_inv s' root G' /\ vm_ext root s G s' G' /\ same_map root s s' /\
    match r with
    | Some t' => G' !! t' = Some (k + 1, key * 512 + i) /\ walk (ms_mem s') t [i] = Some t' /\
        (forall t0 x j, G !! t0 = Some x -> 0 <= j < 512 -> (t0, j) <> (t, i) ->
           entry (ms_mem s') t0 j = entry (ms_mem s) t0 j)
    | None => free_set (ms_pmm s') = ∅
    end.
Proof.
  intros Hok Hi Ht Hk Hix Hi0 (Hfl & Hm & Hp & Hh). unfold walk_or_create.
  destruct (has (entry (ms_mem s) t i) VMM_PRESENT) eqn:E; cbn [negb].
  { intros [= <- <-]. exists G. split_and!; try done; [by apply vm_ext_refl| |].
    - by destruct (pt_entries s root G Hi _ _ _ _ Ht Hk Hix Hi0 E).
    - cbn [walk]. by rewrite E. }
  destruct (alloc_table_cases s Hok) as [(f & p' & -> & Hnz & Hf & Hfree & Hset & Htot & Hpi)|[-> He]].
  - rewrite (proj2 (Z.eqb_neq _ _) Hnz). cbn [with_mem ms_pmm ms_mem].
    pose proof (install_new_facts f fl Hf Hm Hp Hh) as (Hmask & Hpres & _).
    pose proof (install_entry_new s t i f fl p' Hf Hfl) as Hnew. cbn [installed ms_mem] in Hnew.
    rewrite Hnew, Hmask. intros [= <- <-]. exists (installed_map G k key i f).
    change (with_mem (MState p' _) _) with (installed s t i f fl p'). split_and!.
    + by eapply install_vm_ok.
    + by eapply install_inv.
    + by apply install_ext.
    + by eapply install_same_map.
    + apply lookup_insert_eq.
    + cbn [walk installed ms_mem]. by rewrite Hnew, Hpres, Hmask.
    + intros t0 x j. by eapply install_entry_old.
  - cbn [Z.eqb]. intros [= <- <-]. exists G. split_and!; try done. by apply vm_ext_refl.
Qed.

Lemma same_map_trans root s s1 s2 : same_map root s s1 -> same_map root s1 s2 -> same_map root s s2.
Proof. intros H1 H2 va Hv. by rewrite H2, H1. Qed.

Lemma tbl_flags_computed flags :
  tbl_flags_ok (tbl_flags flags).
Proof. unfold tbl_flags. destruct (has flags VMM_USER); by vm_compute. Qed.

(** One more level of a walk that ends in [t]. *)
Lemma walk_snoc m root idx t i : walk m root idx = Some t ->
  walk m root (idx ++ [i]) = walk m t [i].
Proof.
  revert root. induction idx as [|j r IH]; intros root; cbn [walk app]; [by intros [= ->]|].
  destruct (has _ _); [apply IH|done].
Qed.

(** A walk ending at [t] survives the change of an entry of [t] itself. *)
Lemma walk_stable s s' root G t0 idx t i k0 key0 : pt_inv s root G ->
  G !! t0 = Some (k0, key0) -> path_ok k0 idx -> walk (ms_mem s) t0 idx = Some t ->
  (forall t1 x j, G !! t1 = Some x -> 0 <= j < 512 -> (t1, j) <> (t, i) ->
     entry (ms_mem s') t1 j = entry (ms_mem s) t1 j) ->
  walk (ms_mem s') t0 idx = Some t.
Proof.
  intros Hi H0 Hp Hw Hsame. pose proof (walk_inv s root G t0 k0 key0 idx t Hi H0 Hp Hw) as Ht.
  revert t0 k0 key0 H0 Hp Hw Ht. induction idx as [|a r IH]; intros t0 k0 key0 H0 Hp Hw Ht; [done|].
  cbn [walk path_ok length] in *. destruct Hp as (Ha & Ha0 & Hk & Hp).
  rewrite (Hsame t0 _ a H0); [|done|].
  - destruct (has (entry (ms_mem s) t0 a) VMM_PRESENT) eqn:E; [|done].
    destruct (pt_entries s root G Hi _ _ _ _ H0 Hk Ha Ha0 E) as [Hn _].
    apply (IH _ _ _ Hn Hp Hw). rewrite Ht. do 2 f_equal. lia.
  - intros [= -> ->]. rewrite Ht in H0. injection H0. lia.
Qed.

(** ** [vmm_map_page] *)

Lemma leaf_ext root s G t k key i v : pt_inv s root G -> G !! t = Some (k, key) -> k = 3 ->
  0 <= i < 512 -> vm_ext root s G (with_mem s (set_entry (ms_mem s) t i v)) G.
Proof.
  intros Hi Ht -> Hix. destruct (pt_frames s root G Hi _ _ _ Ht) as (Hft & _).
  pose proof (pt_root s root G Hi) as Hr. destruct (pt_frames s root G Hi _ _ _ Hr) as (Hfr & _).
  split; simpl; try done; [congruence| |].
  - intros a Ha. unfold set_entry, wr64. apply mem_get_write_out. rewrite length_le_bytes.
    pose proof (Ha t _ Ht). unfold PAGE_SIZE in *. lia.
  - intros j Hj. apply entry_set_ne; [done..|lia|]. intros [= -> ->]. congruence.
Qed.

Definition other_pages (root va : Z) (s s' : mstate) : Prop :=
  forall va', user_half va' -> page_of va' <> page_of va ->
    vmm_get_pte (ms_mem s') root va' = vmm_get_pte (ms_mem s) root va'.

Lemma map_page_cases s root G va phys flags r s' :
  vm_ok s -> pt_inv s root G -> user_half va -> 0 <= phys < 2 ^ 64 -> 0 <= flags < 2 ^ 64 ->
  vmm_map_page s root va phys flags = (r, s') ->
  exists G', vm_ok s' /\ pt_inv s' root G' /\ vm_ext root s G s' G' /\
    ((r = VOID_OK /\ vmm_get_pte (ms_mem s') root va = Z.lor (Z.land phys PHYS_MASK) flags /\
        other_pages root va s s') \/
     (r = VOID_ERR_NOMEM /\ free_set (ms_pmm s') = ∅ /\ same_map root s s')).
Proof.
  intros Hok Hi Hv Hph Hfl. unfold vmm_map_page.
  pose proof (tbl_flags_computed flags) as Htf. set (fl := tbl_flags flags) in *. cbn zeta.
  destruct (va_path_ok va Hv) as (Hp1 & Hp1' & _ & Hp2 & _ & _ & Hp3 & _).
  pose proof (pt_root s root G Hi) as Hr.
  destruct (walk_or_create s root _ fl) as [[pdpt|] s1] eqn:E1;
    eapply walk_or_create_spec in E1 as (G1 & Hok1 & Hi1 & He1 & Hs1 & Hc1); try done; try lia.
  2: { intros [= <- <-]. exists G1. split_and!; try done. by right. }
  destruct Hc1 as (Hg1 & Hw1 & _).
  destruct (walk_or_create s1 pdpt _ fl) as [[pd|] s2] eqn:E2;
    eapply (walk_or_create_spec s1 root G1) in E2 as (G2 & Hok2 & Hi2 & He2 & Hs2 & Hc2); try done; try lia.
  2: { intros [= <- <-]. exists G2. split_and!; try done; [by eapply vm_ext_trans|].
       right. split_and!; try done. by eapply same_map_trans. }
  destruct Hc2 as (Hg2 & Hw2 & Hn2).
  destruct (walk_or_create s2 pd _ fl) as [[pt|] s3] eqn:E3;
    eapply (walk_or_create_spec s2 root G2) in E3 as (G3 & Hok3 & Hi3 & He3 & Hs3 & Hc3); try done; try lia.
  2: { intros [= <- <-]. exists G3. split_and!; try done; [eauto using vm_ext_trans|].
       right. split_and!; try done. eauto using same_map_trans. }
  destruct Hc3 as (Hg3 & Hw3 & Hn3). intros [= <- <-]. exists G3.
  pose proof (idx_range va 12 ltac:(lia)) as Hix. change (0 <= PT_IDX va < 512) in Hix.
  assert (Hwalk2 : walk (ms_mem s2) root [PML4_IDX va; PDPT_IDX va] = Some pd).
  { rewrite <- Hw2. apply (walk_snoc _ _ [PML4_IDX va]).
    eapply (walk_stable s1); [done|by apply Hi1|cbn [path_ok]; lia|done|done]. }
  assert (Hwalk3 : walk (ms_mem s3) root (va_path va) = Some pt).
  { rewrite <- Hw3. apply (walk_snoc _ _ [PML4_IDX va; PDPT_IDX va]).
    eapply (walk_stable s2); [done|by apply Hi2|cbn [path_ok]; lia|done|done]. }
  assert (Hval : 0 <= Z.lor (Z.land phys PHYS_MASK) flags < 2 ^ 64).
  { apply lor_bound; [lia| |done]. by apply land_bound. }
  destruct (leaf_get_pte s3 root G3 va _ Hi3 Hv Hval pt Hwalk3) as (Hi4 & Hpte & Hother).
  split_and!; [by destruct Hok3; split|done| |].
  - eapply vm_ext_trans, leaf_ext; [|done..]. eauto using vm_ext_trans.
  - left. split_and!; [done|done|]. intros va' Hv' Hne. simpl.
    rewrite Hother, Hs3, Hs2, Hs1 by done. done.
Qed.

(** ** [vmm_unmap_page], [vmm_virt_to_phys] *)

Lemma unmap_walk s root G va : pt_inv s root G -> user_half va ->
  vmm_unmap_page s root va =
    match walk (ms_mem s) root (va_path va) with
    | Some pt => let pte := entry (ms_mem s) pt (PT_IDX va) in
        if negb (has pte VMM_PRESENT) then (0, s)
        else (Z.land pte PHYS_MASK, with_mem s (set_entry (ms_mem s) pt (PT_IDX va) 0))
    | None => (0, s)
    end.
Proof.
  intros _ _. unfold vmm_unmap_page, va_path. cbn [walk].
  destruct (has (entry (ms_mem s) root (PML4_IDX va)) VMM_PRESENT); cbn [negb]; [|done].
  destruct (has (entry (ms_mem s) _ (PDPT_IDX va)) VMM_PRESENT); cbn [negb]; [|done].
  by destruct (has (entry (ms_mem s) _ (PD_IDX va)) VMM_PRESENT).
Qed.

Lemma unmap_cases s root G va : vm_ok s -> pt_inv s root G -> user_half va ->
  let pte := vmm_get_pte (ms_mem s) root va in
  let '(r, s') := vmm_unmap_page s root va in
  vm_ok s' /\ pt_inv s' root G /\ vm_ext root s G s' G /\ ms_pmm s' = ms_pmm s /\
  other_pages root va s s' /\
  (if has pte VMM_PRESENT
   then r = Z.land pte PHYS_MASK /\ vmm_get_pte (ms_mem s') root va = 0
   else r = 0 /\ s' = s).
Proof.
  intros Hok Hi Hv. cbn zeta. rewrite (get_pte_walk s root G), (unmap_walk s root G) by done.
  destruct (walk (ms_mem s) root (va_path va)) as [pt|] eqn:Hw.
  2: { cbn. split_and!; try done. by apply vm_ext_refl. }
  cbn zeta. destruct (has (entry (ms_mem s) pt (PT_IDX va)) VMM_PRESENT) eqn:E; cbn [negb].
  2: { split_and!; try done. by apply vm_ext_refl. }
  destruct (leaf_get_pte s root G va 0 Hi Hv ltac:(lia) pt Hw) as (Hi' & Hz & Hother).
  pose proof (walk_inv s root G root 0 0 _ pt Hi (pt_root s root G Hi) (va_path_ok va Hv) Hw) as Hpt.
  split_and!; try done.
  - by destruct Hok; split.
  - eapply leaf_ext; [done..|]. apply (idx_range va 12). lia.
Qed.

Lemma virt_to_phys_walk s root G va : pt_inv s root G -> user_half va ->
  vmm_virt_to_phys (ms_mem s) root va =
    let pte := vmm_get_pte (ms_mem s) root va in
    if has pte VMM_PRESENT then Z.lor (Z.land pte PHYS_MASK) (Z.land va 0xFFF) else 0.
Proof.
  intros Hi Hv. pose proof (va_path_ok va Hv) as (? & ? & _ & ? & _ & _ & ? & _).
  cbn zeta. unfold vmm_get_pte, vmm_virt_to_phys.
  destruct (has (entry (ms_mem s) root (PML4_IDX va)) VMM_PRESENT) eqn:E1; cbn [negb]; [|done].
  destruct (pt_entries s root G Hi root 0 0 (PML4_IDX va) (pt_root s root G Hi)) as [G1 _]; [lia|done..|].
  destruct (has (entry (ms_mem s) _ (PDPT_IDX va)) VMM_PRESENT) eqn:E2; cbn [negb]; [|done].
  destruct (pt_entries s root G Hi _ _ _ (PDPT_IDX va) G1) as [G2 ->]; [lia|done|lia|done|].
  destruct (has (entry (ms_mem s) _ (PD_IDX va)) VMM_PRESENT) eqn:E3; cbn [negb]; [|done].
  destruct (pt_entries s root G Hi _ _ _ (PD_IDX va) G2) as [G3 ->]; [lia|done|lia|done|].
  by destruct (has (entry (ms_mem s) _ (PT_IDX va)) VMM_PRESENT).
Qed.

(** ** Isolation between address spaces *)

(** The tables of [root] survive any change that leaves their entries alone
  and does not free their frames. *)
Lemma pt_inv_frame s s' root G : pt_inv s root G ->
  (forall t x i, G !! t = Some x -> 0 <= i < 512 ->
     entry (ms_mem s') t i = entry (ms_mem s) t i) ->
  (forall t x, G !! t = Some x -> t / PAGE_SIZE ∉ free_set (ms_pmm s')) ->
  pt_inv s' root G /\ same_map root s s'.
Proof.
  intros H2 Hent Hfr.
  assert (Hi2 : pt_inv s' root G).
  { split; [apply H2| | |].
    - intros t k key Ht. destruct (pt_frames _ _ _ H2 _ _ _ Ht) as (? & ? & ?).
      split_and!; try done; try lia. by eapply Hfr.
    - intros t k key i Ht Hk Hix Hi0. rewrite (Hent t _ i Ht) by done. by apply (pt_entries _ _ _ H2).
    - intros t k key Ht Hne.
      destruct (pt_parent _ _ _ H2 _ _ _ Ht Hne) as (t1 & k1 & key1 & j & H1 & ? & ? & ? & Hr).
      exists t1, k1, key1, j. rewrite (Hent t1 _ j H1) by lia. done. }
  split; [done|]. intros va Hv. rewrite !(get_pte_walk _ root G) by done.
  assert (Hwalk : forall idx t k key, G !! t = Some (k, key) -> path_ok k idx ->
    walk (ms_mem s') t idx = walk (ms_mem s) t idx).
  { induction idx as [|a r IH]; intros t k key Ht Hp; [done|]. cbn [walk path_ok] in *.
    destruct Hp as (Ha & Ha0 & Hk & Hp). rewrite (Hent t _ a Ht) by done.
    destruct (has (entry (ms_mem s) t a) VMM_PRESENT) eqn:E; [|done].
    destruct (pt_entries _ _ _ H2 _ _ _ _ Ht Hk Ha Ha0 E) as [Hn _]. by eapply IH. }
  pose proof (pt_root _ _ _ H2) as Hr.
  rewrite (Hwalk _ _ _ _ Hr (va_path_ok va Hv)).
  destruct (walk (ms_mem s) root (va_path va)) as [pt|] eqn:Hw; [|done].
  pose proof (walk_inv _ _ _ _ _ _ _ _ H2 Hr (va_path_ok va Hv) Hw) as Hpt.
  apply (Hent pt _ _ Hpt), (idx_range va 12). lia.
Qed.

Lemma frame_range_free t t' (p : pmm) : frame_addr t -> frame_addr t' ->
  t / PAGE_SIZE ∈ free_set p -> t' / PAGE_SIZE ∉ free_set p -> t <> t'.
Proof. by intros _ _ ? ? ->. Qed.

Lemma ext_disjoint root s G s' G' root2 G2 : vm_ext root s G s' G' -> pt_inv s root2 G2 ->
  G ##ₘ G2 -> G' ##ₘ G2.
Proof.
  intros He H2 Hd. apply map_disjoint_spec. intros t x [k2 key2] Hx Hy.
  destruct (G !! t) as [y|] eqn:E; [by eapply (map_disjoint_spec G G2)|].
  destruct (pt_frames s root2 G2 H2 _ _ _ Hy) as (_ & _ & []).
  by apply (ext_new _ _ _ _ _ He t x).
Qed.

Lemma ext_entry_other root s G s' G' root2 G2 t x i : vm_ext root s G s' G' ->
  pt_inv s' root G' -> pt_inv s root2 G2 -> G' ##ₘ G2 -> G2 !! t = Some x -> 0 <= i < 512 ->
  entry (ms_mem s') t i = entry (ms_mem s) t i.
Proof.
  intros He Hi H2 Hd Hx Hix. unfold entry, rd64. f_equal. apply mem_read_ext.
  intros a Ha. apply (ext_mem _ _ _ _ _ He). intros t' [k' key'] Ht' Hin. destruct x as [k2 key2].
  destruct (pt_frames _ _ _ Hi _ _ _ Ht') as (Hf' & _).
  destruct (pt_frames _ _ _ H2 _ _ _ Hx) as (Hf & _).
  assert (t <> t') as Hne by (intros ->; by eapply (map_disjoint_spec G' G2)).
  pose proof (frames_disjoint t t' Hf Hf' Hne). unfold PAGE_SIZE in *. lia.
Qed.

Lemma ext_isolated root s G s' G' root2 G2 : vm_ext root s G s' G' ->
  pt_inv s' root G' -> pt_inv s root2 G2 -> G ##ₘ G2 ->
  pt_inv s' root2 G2 /\ same_map root2 s s'.
Proof.
  intros He Hi H2 Hd. pose proof (ext_disjoint _ _ _ _ _ _ _ He H2 Hd) as Hd'.
  apply pt_inv_frame; [done| |].
  - intros t x i. by apply (ext_entry_other root s G s' G' root2 G2).
  - intros t [k key] Ht. destruct (pt_frames _ _ _ H2 _ _ _ Ht) as (_ & _ & Hn).
    pose proof (ext_free _ _ _ _ _ He). set_solver.
Qed.

(** ** A concrete machine for the witnesses *)

(** 64 frames; 0-15 in use, the rest free. *)
Definition demo_machine_pmm : pmm := Pmm [255; 255; 0; 0; 0; 0; 0; 0] 8 64 48.
Definition demo_state : mstate := MState demo_machine_pmm (fun _ => 0).
Definition demo_root : Z := 0x5000.
Definition demo_tables : table_map := {[ demo_root := (0, 0) ]}.
Definition demo_root2 : Z := 0x6000.
Definition demo_tables2 : table_map := {[ demo_root2 := (0, 0) ]}.

Lemma demo_vm_ok : vm_ok demo_state.
Proof.
  split; simpl.
  - by apply pmm_invb_ok.
  - vm_compute. intros H. discriminate.
  - lia.
Qed.

(** A root with no entry yet. *)
Lemma empty_pt_inv s root : frame_addr root -> root / PAGE_SIZE ∉ free_set (ms_pmm s) ->
  (forall i, 0 <= i < 512 -> entry (ms_mem s) root i = 0) -> pt_inv s root {[ root := (0, 0) ]}.
Proof.
  intros Hf Hn Hz. split.
  - apply lookup_singleton_eq.
  - intros t k key [<- [= <- <-]]%lookup_singleton_Some. split_and!; try done; lia.
  - intros t k key i [<- [= <- <-]]%lookup_singleton_Some _ Hi _. rewrite Hz by done. done.
  - intros t k key [<- _]%lookup_singleton_Some. done.
Qed.

Lemma demo_entry t i : entry (fun _ => 0) t i = 0.
Proof. unfold entry, rd64, mem_read. reflexivity. Qed.

Lemma demo_pt_inv : pt_inv demo_state demo_root demo_tables.
Proof.
  apply empty_pt_inv; [by split|vm_compute; intros; discriminate|intros; apply demo_entry].
Qed.

Lemma demo_pt_inv2 : pt_inv demo_state demo_root2 demo_tables2.
Proof.
  apply empty_pt_inv; [by split|vm_compute; intros; discriminate|intros; apply demo_entry].
Qed.

(** ** Properties *)

(** Mapping a page: on success the leaf entry of the page is exactly the
  masked frame and the flags asked for, and every other user page translates
  as before; the only failure is exhaustion of physical memory, and then no
  page changed.  Either way the tables stay well-formed, new tables come from
  frames that were free, and no byte outside the tables changes. *)
Theorem vmm_map_page_correct s root G va phys flags :
  vm_ok s -> pt_inv s root G -> user_half va -> 0 <= phys < 2 ^ 64 -> 0 <= flags < 2 ^ 64 ->
  let '(r, s') := vmm_map_page s root va phys flags in
  exists G', vm_ok s' /\ pt_inv s' root G' /\ vm_ext root s G s' G' /\
    ((r = VOID_OK /\ vmm_get_pte (ms_mem s') root va = Z.lor (Z.land phys PHYS_MASK) flags /\
        forall va', user_half va' -> page_of va' <> page_of va ->
          vmm_get_pte (ms_mem s') root va' = vmm_get_pte (ms_mem s) root va') \/
     (r = VOID_ERR_NOMEM /\ free_set (ms_pmm s') = ∅ /\
        forall va', user_half va' ->
          vmm_get_pte (ms_mem s') root va' = vmm_get_pte (ms_mem s) root va')).
Proof.
  intros. destruct (vmm_map_page s root va phys flags) as [r s'] eqn:E.
  by eapply map_page_cases.
Qed.

Lemma vmm_map_page_correct_witness :
  let '(r, s') := vmm_map_page demo_state demo_root 0x400123 0x3F000 7 in
  vm_ok s' /\ r = VOID_OK.
Proof.
  pose proof (vmm_map_page_correct demo_state demo_root demo_tables 0x400123 0x3F000 7
    demo_vm_ok demo_pt_inv ltac:(unfold user_half; lia) ltac:(lia) ltac:(lia)) as H.
  destruct (vmm_map_page _ _ _ _ _) as [r s'] eqn:E.
  assert (Hr : fst (vmm_map_page demo_state demo_root 0x400123 0x3F000 7) = VOID_OK)
    by (vm_compute; reflexivity).
  rewrite E in Hr. destruct H as (G' & Hok & _). by split.
Defined.

(** Unmapping a page: when the page was present its frame is returned
  and the page (and only it) becomes absent; otherwise 0 is returned and the
  state is unchanged.  No frame is freed. *)
Theorem vmm_unmap_page_correct s root G va : vm_ok s -> pt_inv s root G -> user_half va ->
  let pte := vmm_get_pte (ms_mem s) root va in
  let '(r, s') := vmm_unmap_page s root va in
  vm_ok s' /\ pt_inv s' root G /\ ms_pmm s' = ms_pmm s /\
  (forall va', user_half va' -> page_of va' <> page_of va ->
     vmm_get_pte (ms_mem s') root va' = vmm_get_pte (ms_mem s) root va') /\
  (if has pte VMM_PRESENT
   then r = Z.land pte PHYS_MASK /\ vmm_get_pte (ms_mem s') root va = 0
   else r = 0 /\ s' = s).
Proof.
  intros Hok Hi Hv pte. pose proof (unmap_cases s root G va Hok Hi Hv) as H.
  destruct (vmm_unmap_page s root va) as [r s']. destruct H as (? & ? & _ & ? & ? & ?). done.
Qed.

Lemma vmm_unmap_page_correct_witness : vmm_unmap_page demo_state demo_root 0x400000 = (0, demo_state).
Proof.
  pose proof (vmm_unmap_page_correct demo_state demo_root demo_tables 0x400000
    demo_vm_ok demo_pt_inv ltac:(unfold user_half; lia)) as H. cbn zeta in H.
  assert (Hp : has (vmm_get_pte (ms_mem demo_state) demo_root 0x400000) VMM_PRESENT = false)
    by (vm_compute; reflexivity).
  rewrite Hp in H. destruct (vmm_unmap_page _ _ _) as [r s'].
  destruct H as (_ & _ & _ & _ & -> & ->). reflexivity.
Defined.

(** C6.  Isolation: mapping and unmapping pages below one root leave the
  translation of every user page of an address space with disjoint tables
  unchanged, and its tables stay disjoint and well-formed. *)
Theorem vmm_isolation s root G root2 G2 va phys flags :
  vm_ok s -> pt_inv s root G -> pt_inv s root2 G2 -> G ##ₘ G2 -> user_half va ->
  0 <= phys < 2 ^ 64 -> 0 <= flags < 2 ^ 64 ->
  (let '(_, s') := vmm_map_page s root va phys flags in
   pt_inv s' root2 G2 /\ (exists G', pt_inv s' root G' /\ G' ##ₘ G2) /\
   forall va', user_half va' ->
     vmm_get_pte (ms_mem s') root2 va' = vmm_get_pte (ms_mem s) root2 va') /\
  (let '(_, s') := vmm_unmap_page s root va in
   pt_inv s' root2 G2 /\
   forall va', user_half va' ->
     vmm_get_pte (ms_mem s') root2 va' = vmm_get_pte (ms_mem s) root2 va').
Proof.
  intros Hok Hi Hi2 Hd Hv Hp Hf. split.
  - destruct (vmm_map_page s root va phys flags) as [r s'] eqn:E.
    apply (map_page_cases s root G) in E as (G' & _ & Hi' & He & _); [|done..].
    destruct (ext_isolated _ _ _ _ _ _ _ He Hi' Hi2 Hd). split_and!; try done.
    exists G'. split; [done|]. by eapply ext_disjoint.
  - pose proof (unmap_cases s root G va Hok Hi Hv) as H.
    destruct (vmm_unmap_page s root va) as [r s']. destruct H as (_ & Hi' & He & _).
    by apply (ext_isolated _ _ _ _ _ _ _ He Hi' Hi2 Hd).
Qed.

Lemma vmm_isolation_witness :
  let s' := (vmm_map_page demo_state demo_root 0x400000 0x3F000 7).2 in
  pt_inv s' demo_root2 demo_tables2.
Proof.
  assert (Hd : demo_tables ##ₘ demo_tables2).
  { unfold demo_tables, demo_tables2. by apply map_disjoint_singleton_l_2, lookup_singleton_ne. }
  pose proof (vmm_isolation demo_state demo_root demo_tables demo_root2 demo_tables2
    0x400000 0x3F000 7 demo_vm_ok demo_pt_inv demo_pt_inv2 Hd
    ltac:(unfold user_half; lia) ltac:(lia) ltac:(lia)) as [H _].
  destruct (vmm_map_page _ _ _ _ _) as [r s']. apply H.
Defined.

(** Address translation agrees with the leaf entry: a present page
  translates to its frame with the page offset of the address, an absent one
  to 0; and on a page just mapped the translation is the frame given. *)
Theorem vmm_translate s root G va phys flags : vm_ok s -> pt_inv s root G -> user_half va ->
  frame_addr phys -> 0 <= flags < 2 ^ 64 -> Z.land flags PHYS_MASK = 0 ->
  has flags VMM_PRESENT = true ->
  (vmm_virt_to_phys (ms_mem s) root va =
     let pte := vmm_get_pte (ms_mem s) root va in
     if has pte VMM_PRESENT then Z.lor (Z.land pte PHYS_MASK) (Z.land va 0xFFF) else 0) /\
  let '(r, s') := vmm_map_page s root va phys flags in
  r = VOID_OK -> vmm_virt_to_phys (ms_mem s') root va = phys + va mod PAGE_SIZE.
Proof.
  intros Hok Hi Hv Hp Hf Hfm Hfp. split; [by apply (virt_to_phys_walk s root G)|].
  destruct (vmm_map_page s root va phys flags) as [r s'] eqn:E. intros ->.
  apply (map_page_cases s root G) in E as (G' & _ & Hi' & _ & [(_ & Hpte & _)|(? & _)]);
    [|done..|destruct Hp; lia|done].
  rewrite (virt_to_phys_walk s' root G') by done. cbn zeta. rewrite Hpte, (frame_mask phys Hp).
  unfold VMM_PRESENT in *. rewrite has_lor, Hfp, orb_true_r by lia.
  rewrite mask_lor by (done || by apply frame_mask).
  change 0xFFF with (Z.ones 12). rewrite Z.land_ones by lia. change (2 ^ 12) with PAGE_SIZE.
  symmetry. apply frame_add_offset; [done|]. apply Z.mod_pos_bound. unfold PAGE_SIZE. lia.
Qed.

Lemma vmm_translate_witness :
  vmm_virt_to_phys (ms_mem (vmm_map_page demo_state demo_root 0x400123 0x3F000 7).2)
    demo_root 0x400123 = 0x3F123.
Proof.
  pose proof (vmm_translate demo_state demo_root demo_tables 0x400123 0x3F000 7
    demo_vm_ok demo_pt_inv ltac:(unfold user_half; lia) ltac:(by split) ltac:(lia)
    ltac:(reflexivity) ltac:(reflexivity)) as [_ H].
  destruct (vmm_map_page _ _ _ _ _) as [r s'] eqn:E. cbn [snd].
  assert (Hr : fst (vmm_map_page demo_state demo_root 0x400123 0x3F000 7) = VOID_OK)
    by (vm_compute; reflexivity).
  rewrite E in Hr. by rewrite H.
Defined.
