(* ===== verification/Kheap.v ===== *)
(** * The kernel heap ([mm/kheap.c])

  A first-fit free list over a range of kernel addresses that grows page by page.
  The state is the table of block headers, by address, with the four counters of
  the source; taking a frame and mapping it at the top of the heap is the
  interface [KernelPages], whose implementation is the frame allocator and
  [vmm_map_page].  [None] as a result means that the kernel stopped: it touched an
  address at or above the top of the heap, which is not mapped, or ran into
  [kpanic]. *)
From S2P Require Import Prelude Pmm PhysMem Vmm Interfaces.

Definition KHEAP_START : Z := 0xFFFFFFFF90000000.
Definition KHEAP_MAX : Z := 0xFFFFFFFFA0000000.

Record block_t := Block { b_size : Z; b_free : bool; b_next : Z }.

(** [sizeof(block_t)] is 24. *)
Definition HEADER_SIZE : Z := Z.land (24 + 15) (2 ^ 64 - 16).
Definition ALIGN_UP (x n : Z) : Z := align_up x n.

(** Taking a frame and mapping it as kernel memory at the address; the frame is
  given back when the mapping fails. *)
Class KernelPages (S : Type) := kmap_page : S -> Z -> bool * S.

Definition kernel_pages (kernel_pml4 : Z) : KernelPages mstate := fun s va =>
  let '(frame, pm) := pmm_alloc_frame (ms_pmm s) in
  let s := with_pmm s pm in
  if frame =? 0 then (false, s)
  else
    let '(r, s) := vmm_map_page s kernel_pml4 va frame VMM_KERN_RW in
    if negb (r =? VOID_OK) then (false, with_pmm s (pmm_free_frame (ms_pmm s) frame)) else (true, s).

Section Kheap.
Context {S : Type} `{KP : KernelPages S}.

(** What a header reads as before it is written. *)
Context (junk : Z -> block_t).

Record kheap := Kheap {
  headers : gmap Z block_t;
  head : Z;
  heap_top : Z;
  heap_mapped : Z;
  bytes_used : Z;
  pages : S
}.

Definition set_head (h : kheap) (x : Z) : kheap :=
  Kheap (headers h) x (heap_top h) (heap_mapped h) (bytes_used h) (pages h).
Definition set_used (h : kheap) (x : Z) : kheap :=
  Kheap (headers h) (head h) (heap_top h) (heap_mapped h) x (pages h).
Definition set_pages (h : kheap) (s : S) : kheap :=
  Kheap (headers h) (head h) (heap_top h) (heap_mapped h) (bytes_used h) s.
Definition set_mapped (h : kheap) (top mapped : Z) : kheap :=
  Kheap (headers h) (head h) top mapped (bytes_used h) (pages h).

(** ** Headers in memory *)

Definition mapped (h : kheap) (b : Z) : bool := (KHEAP_START <=? b) && (b + 24 <=? heap_top h).

Definition rd (h : kheap) (b : Z) : option block_t :=
  if mapped h b then Some (default (junk b) (headers h !! b)) else None.

Definition wr (h : kheap) (b : Z) (x : block_t) : option kheap :=
  if mapped h b then Some (Kheap (<[b := x]> (headers h)) (head h) (heap_top h) (heap_mapped h) (bytes_used h) (pages h))
  else None.

Definition set_next (h : kheap) (b n : Z) : option kheap :=
  x ← rd h b; wr h b (Block (b_size x) (b_free x) n).

(** [*scan = v]: a slot is the head, or the [next] field of a block. *)
Definition set_slot (h : kheap) (slot : option Z) (v : Z) : option kheap :=
  match slot with
  | None => Some (set_head h v)
  | Some b => set_next h b v
  end.

(** ** Growing *)

Fixpoint grow_loop (fuel : nat) (h : kheap) (target : Z) : bool * kheap :=
  match fuel with
  | O => (negb (heap_top h <? target), h)
  | Datatypes.S fuel =>
      if heap_top h <? target then
        let '(ok, s) := kmap_page (pages h) (heap_top h) in
        let h := set_pages h s in
        if negb ok then (false, h)
        else grow_loop fuel (set_mapped h (u64 (heap_top h + PAGE_SIZE)) (u64 (heap_mapped h + PAGE_SIZE))) target
      else (true, h)
  end.

Definition heap_grow (h : kheap) (need : Z) : bool * kheap :=
  let target := ALIGN_UP (u64 (heap_top h + need)) 12 in
  if KHEAP_MAX <? target then (false, h)
  else grow_loop (Z.to_nat ((target - heap_top h) / PAGE_SIZE + 1)) h target.

Definition kheap_init (s : S) : option kheap :=
  let '(ok, h) := heap_grow (Kheap ∅ 0 KHEAP_START 0 0 s) PAGE_SIZE in
  if negb ok then None
  else wr (set_head h KHEAP_START) KHEAP_START (Block (PAGE_SIZE - HEADER_SIZE) true 0).

(** ** kmalloc *)

(** The first block from [cur] on that is free and large enough, with the slot
  that points at it; the inner [None] when there is none. *)
Fixpoint first_fit (fuel : nat) (h : kheap) (slot : option Z) (cur sz : Z) : option (option (option Z * Z)) :=
  match fuel with
  | O => None
  | Datatypes.S fuel =>
      if cur =? 0 then Some None
      else
        x ← rd h cur;
        if b_free x && (sz <=? b_size x) then Some (Some (slot, cur)) else first_fit fuel h (Some cur) (b_next x) sz
  end.

(** [while ( *slot->next) slot = &( *slot)->next]: the slot of the last block and
  the block. *)
Fixpoint walk_tail (fuel : nat) (h : kheap) (slot : option Z) (cur : Z) : option (option Z * Z) :=
  match fuel with
  | O => None
  | Datatypes.S fuel => x ← rd h cur; if b_next x =? 0 then Some (slot, cur) else walk_tail fuel h (Some cur) (b_next x)
  end.

Definition list_fuel (h : kheap) : nat := Datatypes.S (Datatypes.S (size (headers h))).

(** The block [b] of [bsz] bytes at [slot] is split, or handed out whole when the
  rest is too small; [succ] is what follows it. *)
Definition split_block (h : kheap) (slot : option Z) (b bsz sz succ : Z) : option kheap :=
  let remaining := u64 (u64 (bsz - sz) - HEADER_SIZE) in
  if 16 <=? remaining then
    let rem := u64 (b + HEADER_SIZE + sz) in
    h ← wr h rem (Block remaining true succ);
    x ← rd h b;
    h ← wr h b (Block sz (b_free x) 0);
    set_slot h slot rem
  else
    x ← rd h b;
    h ← set_slot h slot (b_next x);
    set_next h b 0.

(** [b->free = false; bytes_used += b->size; return b + HEADER_SIZE] *)
Definition take_block (h : kheap) (b : Z) : option (Z * kheap) :=
  x ← rd h b;
  h ← wr h b (Block (b_size x) false (b_next x));
  Some (u64 (b + HEADER_SIZE), set_used h (u64 (bytes_used h + b_size x))).

Definition kmalloc_ (h : kheap) (n : Z) : option (Z * kheap) :=
  if n =? 0 then Some (0, h)
  else
    let sz := ALIGN_UP n 4 in
    fit ← first_fit (list_fuel h) h None (head h) sz;
    match fit with
    | Some (slot, cur) =>
        x ← rd h cur;
        h ← split_block h slot cur (b_size x) sz (b_next x);
        take_block h cur
    | None =>
        let old_top := heap_top h in
        let '(ok, h) := heap_grow h (u64 (HEADER_SIZE + sz)) in
        if negb ok then Some (0, h)
        else
          let bsz := u64 (u64 (heap_top h - old_top) - HEADER_SIZE) in
          if head h =? 0 then
            h ← split_block h None old_top bsz sz 0; take_block h old_top
          else
            t ← walk_tail (list_fuel h) h None (head h);
            let '(slot, tail) := t in
            x ← rd h tail;
            if b_free x && (u64 (tail + HEADER_SIZE + b_size x) =? old_top) then
              let bsz := u64 (b_size x + HEADER_SIZE + bsz) in
              h ← wr h tail (Block bsz (b_free x) (b_next x));
              h ← split_block h slot tail bsz sz 0; take_block h tail
            else
              h ← set_next h tail old_top;
              h ← split_block h (Some tail) old_top bsz sz 0; take_block h old_top
    end.

(** ** kfree *)

Fixpoint coalesce_loop (fuel : nat) (h : kheap) (cur guard : Z) : option kheap :=
  match fuel with
  | O => None
  | Datatypes.S fuel =>
      if cur =? 0 then Some h
      else
        x ← rd h cur;
        if b_next x =? 0 then Some h
        else if 1000000 <? guard + 1 then None
        else
          y ← rd h (b_next x);
          if b_free x && b_free y then
            h ← wr h cur (Block (u64 (b_size x + (HEADER_SIZE + b_size y))) (b_free x) (b_next y));
            coalesce_loop fuel h cur (guard + 1)
          else coalesce_loop fuel h (b_next x) (guard + 1)
  end.

Definition coalesce (h : kheap) : option kheap := coalesce_loop (list_fuel h) h (head h) 0.

Definition kfree_ (h : kheap) (ptr : Z) : option kheap :=
  if ptr =? 0 then Some h
  else
    let b := u64 (ptr - HEADER_SIZE) in
    x ← rd h b;
    if b_free x then Some h
    else
      h ← wr h b (Block (b_size x) true (b_next x));
      coalesce (set_used h (u64 (bytes_used h - b_size x))).

Definition kheap_used (h : kheap) : Z := bytes_used h.
End Kheap.

(** ** The invariant

  The list holds at most one block, which ends at the top of the heap; the live
  allocations [L] (address and size) lie below it and leave room for each
  other's headers. *)
Ltac klia := unfold KHEAP_START, KHEAP_MAX, PAGE_SIZE in *; lia.

Section Invariant.
Context {S : Type} `{KP : KernelPages S} (junk : Z -> block_t).
Notation kheap := (@kheap S).
Implicit Types (h : kheap) (L : gmap Z Z).

Definition frontier h : Z := if head h =? 0 then heap_top h else head h.

Definition top_ok h : Prop := KHEAP_START + PAGE_SIZE <= heap_top h <= KHEAP_MAX /\ heap_top h mod PAGE_SIZE = 0.

Record live_ok L h (f : Z) : Prop := {
  lo_live : forall a n, L !! a = Some n -> KHEAP_START + 32 <= a /\ a mod 16 = 0 /\ 0 < n /\ a + n <= f /\
    exists x, headers h !! (a - 32) = Some x /\ b_free x = false;
  lo_apart : forall a n a' n', L !! a = Some n -> L !! a' = Some n' -> a < a' -> a + n + 32 <= a'
}.

Record kheap_ok L h : Prop := {
  kh_top : top_ok h;
  kh_free : head h <> 0 -> KHEAP_START <= head h /\ head h mod 16 = 0 /\
    exists sz, headers h !! head h = Some (Block sz true 0) /\ 16 <= sz /\ head h + 32 + sz = heap_top h;
  kh_live : live_ok L h (frontier h);
  kh_dom : forall y, heap_top h <= y -> headers h !! y = None
}.

Lemma header_size : HEADER_SIZE = 32.
Proof. by vm_compute. Qed.

Lemma align16 n : 0 <= n < 2 ^ 30 -> ALIGN_UP n 4 mod 16 = 0 /\ n <= ALIGN_UP n 4 < n + 16.
Proof. intros Hn. apply (align_up_spec n 4); lia. Qed.

Lemma page_mod16 x : x mod PAGE_SIZE = 0 -> x mod 16 = 0.
Proof. unfold PAGE_SIZE. intros Hx. Z.div_mod_to_equations. lia. Qed.

(** ** Growing *)

Record grown h h' (target : Z) : Prop := {
  gr_headers : headers h' = headers h;
  gr_head : head h' = head h;
  gr_used : bytes_used h' = bytes_used h;
  gr_top : heap_top h <= heap_top h' <= Z.max (heap_top h) target /\ heap_top h' mod PAGE_SIZE = 0
}.

Lemma grow_loop_spec fuel : forall h target, 0 <= heap_top h -> heap_top h mod PAGE_SIZE = 0 ->
  target <= KHEAP_MAX -> target mod PAGE_SIZE = 0 -> target - heap_top h <= Z.of_nat fuel * PAGE_SIZE ->
  let '(ok, h') := grow_loop fuel h target in
  grown h h' target /\ (ok = true -> heap_top h' = Z.max (heap_top h) target).
Proof.
  induction fuel as [|fuel IH]; intros h target H0 Hm Ht Htm Hf; cbn [grow_loop].
  { destruct (Z.ltb_spec (heap_top h) target); [lia|]. split; [split; try done; lia|intros _; lia]. }
  destruct (Z.ltb_spec (heap_top h) target) as [Hlt|Hge]; [|split; [split; try done; lia|intros _; lia]].
  destruct (kmap_page (pages h) (heap_top h)) as [ok s]. destruct ok; cbn [negb].
  2: { split; [split; try done; cbn [heap_top set_pages]; lia|done]. }
  assert (Hp : heap_top h + PAGE_SIZE <= target /\ u64 (heap_top h + PAGE_SIZE) = heap_top h + PAGE_SIZE).
  { unfold PAGE_SIZE, KHEAP_MAX in *. split; [Z.div_mod_to_equations; lia|apply u64_id; lia]. }
  destruct Hp as [Hp Hu]. set (h1 := set_mapped _ _ _).
  assert (Ht1 : heap_top h1 = heap_top h + PAGE_SIZE) by exact Hu.
  specialize (IH h1 target). rewrite Ht1 in IH. unfold PAGE_SIZE in *.
  assert (Hm1 : (heap_top h + 4096) mod 4096 = 0) by (rewrite <- (Z.mul_1_l 4096) at 1; by rewrite Z_mod_plus_full).
  specialize (IH ltac:(lia) Hm1 Ht Htm ltac:(lia)).
  destruct (grow_loop fuel h1 target) as [ok h']. destruct IH as [[G1 G2 G3 G4] Hok]. rewrite Ht1 in G4. split.
  - split; [done..|]. unfold PAGE_SIZE in *. lia.
  - intros Ho. rewrite Hok by done. lia.
Qed.

Definition grow_target h (sz : Z) : Z := ALIGN_UP (heap_top h + HEADER_SIZE + sz) 12.

Lemma heap_grow_spec h sz : top_ok h -> 0 <= sz < 2 ^ 29 ->
  let '(ok, h') := heap_grow h (u64 (HEADER_SIZE + sz)) in
  grown h h' (grow_target h sz) /\ heap_top h + 32 + sz <= grow_target h sz /\
  grow_target h sz mod PAGE_SIZE = 0 /\ top_ok h' /\
  (ok = true -> heap_top h' = grow_target h sz).
Proof.
  intros [Ht Hm] Hsz. unfold heap_grow, grow_target. rewrite header_size, (u64_id (32 + sz)) by lia.
  rewrite (u64_id (heap_top h + (32 + sz))) by klia. rewrite Z.add_assoc.
  destruct (align_up_spec (heap_top h + 32 + sz) 12) as [Ha Hb]; [lia|klia|klia|].
  change (2 ^ 12) with PAGE_SIZE in *. unfold ALIGN_UP. set (target := align_up _ _) in *.
  destruct (Z.ltb_spec KHEAP_MAX target) as [|Hle].
  { split_and!; [split; try done; lia|lia|done|done|done]. }
  assert (Hd : target - heap_top h <= Z.of_nat (Z.to_nat ((target - heap_top h) / PAGE_SIZE + 1)) * PAGE_SIZE).
  { unfold PAGE_SIZE in *. rewrite Z2Nat.id by (apply Z.add_nonneg_nonneg; [apply Z.div_pos; lia|lia]).
    Z.div_mod_to_equations. lia. }
  pose proof (grow_loop_spec _ h target ltac:(klia) Hm Hle Ha Hd) as Hg.
  destruct (grow_loop _ h target) as [ok h']. destruct Hg as [Hg Hok].
  split_and!; [done|lia|done| |intros Ho; rewrite Hok by done; lia].
  destruct Hg as [_ _ _ [Hg1 Hg2]]. split; [klia|done].
Qed.

(** ** Handing out the block at the end *)

Lemma rd_mapped h b : KHEAP_START <= b -> b + 24 <= heap_top h -> rd junk h b = Some (default (junk b) (headers h !! b)).
Proof. intros H1 H2. unfold rd, mapped. by rewrite (proj2 (Z.leb_le _ _) H1), (proj2 (Z.leb_le _ _) H2). Qed.

Lemma wr_mapped h b x : KHEAP_START <= b -> b + 24 <= heap_top h ->
  wr h b x = Some (Kheap (<[b := x]> (headers h)) (head h) (heap_top h) (heap_mapped h) (bytes_used h) (pages h)).
Proof. intros H1 H2. unfold wr, mapped. by rewrite (proj2 (Z.leb_le _ _) H1), (proj2 (Z.leb_le _ _) H2). Qed.

Lemma wr_unmapped h b x : heap_top h < b + 24 -> wr h b x = None.
Proof. intros H1. unfold wr, mapped. by rewrite (proj2 (Z.leb_gt _ _) H1), andb_false_r. Qed.

Lemma live_insert L h f h' sz f' x : live_ok L h f -> (forall y, y < f -> headers h' !! y = headers h !! y) ->
  headers h' !! f = Some x -> b_free x = false -> f mod 16 = 0 -> KHEAP_START <= f -> 0 < sz -> f + 32 + sz <= f' ->
  live_ok (<[f + 32 := sz]> L) h' f'.
Proof.
  intros [H1 H2] Hsame Hx Hfree Hf Hs Hsz Hf'. split.
  - intros a n [[<- <-]|[_ Ha]]%lookup_insert_Some.
    + split_and!; [lia|Z.div_mod_to_equations; lia|done|done|]. exists x. by replace (f + 32 - 32) with f by lia.
    + destruct (H1 a n Ha) as (Hl & Hal & Hn & Hend & y & Hy & Hyf). split_and!; [done..|lia|].
      exists y. split; [|done]. rewrite Hsame by lia. done.
  - intros a n a' n' [[<- <-]|[Hne Ha]]%lookup_insert_Some [[<- <-]|[Hne' Ha']]%lookup_insert_Some Hlt; [lia|..].
    + destruct (H1 a' n' Ha'); lia.
    + destruct (H1 a n Ha); lia.
    + by apply (H2 a n a' n').
Qed.

(** The free space from [b] on. *)
Record free_end L h (b bsz : Z) : Prop := {
  fe_top : top_ok h;
  fe_start : KHEAP_START <= b /\ b mod 16 = 0;
  fe_end : b + 32 + bsz = heap_top h;
  fe_live : live_ok L h b;
  fe_dom : forall y, heap_top h <= y -> headers h !! y = None
}.

Definition alloc_at h (b bsz sz : Z) : option (Z * kheap) := h ← split_block junk h None b bsz sz 0; take_block junk h b.

(** A block that fills the space exactly takes its successor from its header,
  which is to end the list. *)
Lemma alloc_at_spec L h b bsz sz : free_end L h b bsz -> sz mod 16 = 0 -> 0 < sz <= bsz ->
  let next := b_next (default (junk b) (headers h !! b)) in
  match alloc_at h b bsz sz with
  | None => bsz - sz = 0 \/ bsz - sz = 16
  | Some (a, h') => a = b + 32 /\ 32 <= bsz - sz /\ heap_top h' = heap_top h /\
      (bsz - sz <> 32 \/ next = 0 -> kheap_ok (<[b + 32 := sz]> L) h') /\ (bsz - sz = 32 -> head h' = next)
  end.
Proof.
  intros [Ht [Hb Hb16] He Hl Hdom] Hs16 Hsz next. pose proof Ht as [Htop Hm]. apply page_mod16 in Hm.
  unfold alloc_at, split_block. rewrite header_size, (u64_id (bsz - sz)) by klia.
  assert (Hd : (bsz - sz) mod 16 = 0) by (rewrite <- He in Hm; Z.div_mod_to_equations; lia).
  assert (Hcase : bsz - sz = 0 \/ bsz - sz = 16 \/ bsz - sz = 32 \/ 48 <= bsz - sz) by (Z.div_mod_to_equations; lia).
  assert (Hrem : bsz - sz < 32 -> u64 (bsz - sz - 32) = bsz - sz - 32 + 2 ^ 64) by (intros; apply u64_neg; lia).
  destruct Hcase as [Hc|[Hc|[Hc|Hc]]].
  1, 2: rewrite Hrem, (proj2 (Z.leb_le _ _)) by lia; cbn zeta; rewrite u64_id by klia;
    rewrite wr_unmapped by lia; cbn; lia.
  - rewrite (u64_id (bsz - sz - 32)) by klia. rewrite (proj2 (Z.leb_gt _ _)) by lia. cbn zeta.
    rewrite rd_mapped by lia. cbn [mbind option_bind set_slot]. fold next. unfold set_next.
    rewrite rd_mapped by (cbn [heap_top set_head]; lia). cbn [mbind option_bind headers set_head].
    rewrite wr_mapped by (cbn [heap_top set_head]; lia). cbn [mbind option_bind headers set_head].
    unfold take_block. rewrite rd_mapped by (cbn [heap_top set_head]; lia). cbn [mbind option_bind headers].
    rewrite lookup_insert_eq. cbn [default from_option id]. rewrite wr_mapped by (cbn [heap_top set_head]; lia).
    cbn [mbind option_bind headers b_size b_next]. rewrite header_size, u64_id by klia.
    split_and!; [done|lia|done| |done]. intros [?|Hn]; [lia|]. rewrite Hn.
    split; [done|intros Hh; by destruct (Hh eq_refl)| |].
    2: { intros y Hy. cbn in Hy |- *. rewrite !lookup_insert_ne by lia. by apply Hdom. }
    eapply (live_insert L h); cbn [headers set_used frontier head heap_top]; [done| |apply lookup_insert_eq|done|done|done|lia|].
    + intros y Hy. by rewrite !lookup_insert_ne by lia.
    + change (b + 32 + sz <= heap_top h). lia.
  - rewrite (u64_id (bsz - sz - 32)) by klia. rewrite (proj2 (Z.leb_le _ _)) by lia. cbn zeta.
    rewrite (u64_id (b + 32 + sz)) by klia. rewrite wr_mapped by lia. cbn [mbind option_bind headers].
    rewrite rd_mapped by (cbn [heap_top set_head]; lia). cbn [mbind option_bind headers]. rewrite lookup_insert_ne by lia.
    rewrite wr_mapped by (cbn [heap_top set_head]; lia). cbn [mbind option_bind headers set_slot].
    unfold take_block. rewrite rd_mapped by (cbn [heap_top set_head]; lia). cbn [mbind option_bind headers set_head].
    rewrite lookup_insert_eq. cbn [default from_option id]. rewrite wr_mapped by (cbn [heap_top set_head]; lia).
    cbn [mbind option_bind headers b_size b_next]. rewrite header_size, u64_id by klia.
    split_and!; [done|lia|done| |lia]. intros _. split.
    + done.
    + cbn [head headers set_used set_head heap_top]. intros _. split_and!; [klia|Z.div_mod_to_equations; lia|].
      exists (bsz - sz - 32). rewrite !lookup_insert_ne by lia. rewrite lookup_insert_eq. split_and!; [done|lia|lia].
    + eapply (live_insert L h); cbn [headers set_used set_head]; [done| |apply lookup_insert_eq|done|done|done|lia|].
      * intros y Hy. by rewrite !lookup_insert_ne by lia.
      * unfold frontier. cbn [head set_used set_head]. destruct (Z.eqb_spec (b + 32 + sz) 0); klia.
    + intros y Hy. cbn [headers heap_top set_used set_head] in Hy |- *. rewrite !lookup_insert_ne by lia. by apply Hdom.
Qed.

(** ** kmalloc and kfree *)

(** The bytes an allocation of [sz] finds behind the frontier: up to the top when
  the free block is large enough, and up to the grown top otherwise. *)
Definition fits h (sz : Z) : bool := negb (head h =? 0) && (sz <=? heap_top h - head h - 32).
Definition room h (sz : Z) : Z := (if fits h sz then heap_top h else grow_target h sz) - frontier h - 32.

(** The request takes a fresh page whole off an empty list: the next pointer of
  the new block, which nobody wrote, becomes the list. *)
Definition stale h (sz : Z) : Prop := head h = 0 /\ room h sz = sz + 32 /\ b_next (junk (heap_top h)) <> 0.

#[export] Instance stale_dec h sz : Decision (stale h sz).
Proof. unfold stale. apply _. Defined.

(** Sizes for which this cannot happen. *)
Lemma clear_not_stale h n : top_ok h -> 0 < n < 2 ^ 28 -> clear_size n -> ~ stale h (ALIGN_UP n 4).
Proof.
  intros [Ht Hm] Hn Hc (Hh & Hr & _). apply Hc. destruct (align16 n) as [H16 Hsz]; [lia|]. set (sz := ALIGN_UP n 4) in *.
  unfold room, fits, frontier in Hr. rewrite Hh in Hr. cbn [Z.eqb negb andb] in Hr. unfold grow_target, ALIGN_UP in Hr.
  rewrite header_size in Hr. destruct (align_up_spec (heap_top h + 32 + sz) 12) as [Ha _]; [lia|klia|klia|].
  set (t := align_up _ 12) in *. assert (Ht' : t = heap_top h + sz + 64) by lia. rewrite Ht' in Ha. clear Hr Ht'.
  change (2 ^ 12) with 4096 in Ha. unfold PAGE_SIZE in Hm. clearbody sz. Z.div_mod_to_equations. lia.
Qed.

Lemma kmalloc_unfold h n : kmalloc_ junk h n =
  if n =? 0 then Some (0, h) else
    fit ← first_fit junk (list_fuel h) h None (head h) (ALIGN_UP n 4);
    match fit with
    | Some (slot, cur) =>
        x ← rd junk h cur; h ← split_block junk h slot cur (b_size x) (ALIGN_UP n 4) (b_next x); take_block junk h cur
    | None =>
        let '(ok, h') := heap_grow h (u64 (HEADER_SIZE + ALIGN_UP n 4)) in
        if negb ok then Some (0, h')
        else
          let bsz := u64 (u64 (heap_top h' - heap_top h) - HEADER_SIZE) in
          if head h' =? 0 then alloc_at h' (heap_top h) bsz (ALIGN_UP n 4)
          else
            t ← walk_tail junk (list_fuel h') h' None (head h');
            x ← rd junk h' t.2;
            if b_free x && (u64 (t.2 + HEADER_SIZE + b_size x) =? heap_top h) then
              h ← wr h' t.2 (Block (u64 (b_size x + HEADER_SIZE + bsz)) (b_free x) (b_next x));
              h ← split_block junk h t.1 t.2 (u64 (b_size x + HEADER_SIZE + bsz)) (ALIGN_UP n 4) 0;
              take_block junk h t.2
            else
              h2 ← set_next junk h' t.2 (heap_top h);
              h3 ← split_block junk h2 (Some t.2) (heap_top h) bsz (ALIGN_UP n 4) 0;
              take_block junk h3 (heap_top h)
    end.
Proof.
  unfold kmalloc_. destruct (n =? 0); [done|]. destruct (first_fit _ _ _ _ _ _) as [[[slot cur]|]|]; try done.
  cbn [mbind option_bind]. destruct (heap_grow _ _) as [ok h']. destruct ok; [|done]. cbn [negb]. cbn zeta.
  destruct (head h' =? 0); [done|]. by destruct (walk_tail _ _ _ _ _) as [[slot tail]|].
Qed.

Lemma free_block L h : kheap_ok L h -> head h <> 0 ->
  exists sz, rd junk h (head h) = Some (Block sz true 0) /\ 16 <= sz /\ head h + 32 + sz = heap_top h /\
    free_end L h (head h) sz.
Proof.
  intros [Ht Hf Hl Hd] Hh. destruct (Hf Hh) as (Hs & Hm & sz & He & Hsz & Hend).
  assert (Hr : rd junk h (head h) = Some (Block sz true 0)) by (rewrite rd_mapped by lia; by rewrite He).
  exists sz. split_and!; [done|done|done|]. split; [done|done|done| |done].
  unfold frontier in Hl. by rewrite (proj2 (Z.eqb_neq _ _) Hh) in Hl.
Qed.

Lemma live_ok_grown L h h' f t : grown h h' t -> live_ok L h f -> live_ok L h' f.
Proof. intros [G _ _ _] [H1 H2]. split; [|done]. by rewrite G. Qed.

Lemma kmalloc_spec L h n : kheap_ok L h -> 0 < n < 2 ^ 28 ->
  let sz := ALIGN_UP n 4 in
  match kmalloc_ junk h n with
  | None => room h sz - sz = 0 \/ room h sz - sz = 16
  | Some (a, h') =>
      (a = 0 /\ fits h sz = false /\ heap_grow h (u64 (HEADER_SIZE + sz)) = (false, h') /\
       heap_top h <= heap_top h' /\ (heap_top h' = heap_top h -> kheap_ok L h')) \/
      (a = frontier h + 32 /\ n <= sz /\ sz + 32 <= room h sz /\ heap_top h <= heap_top h' /\
       (~ stale h sz -> kheap_ok (<[a := sz]> L) h') /\ (stale h sz -> head h' = b_next (junk (heap_top h))))
  end.
Proof.
  intros Hok Hn. cbn zeta. rewrite kmalloc_unfold. rewrite (proj2 (Z.eqb_neq n 0)) by lia.
  destruct (align16 n) as [Hs16 Hsz]; [lia|]. set (sz := ALIGN_UP n 4) in *.
  pose proof (kh_top _ _ Hok) as Htop. unfold room.
  assert (Hfit : first_fit junk (list_fuel h) h None (head h) sz =
    Some (if fits h sz then Some (None, head h) else None)).
  { unfold list_fuel, fits. cbn [first_fit]. destruct (Z.eqb_spec (head h) 0) as [|Hh]; [done|]. cbn [negb andb].
    destruct (free_block L h Hok Hh) as (fsz & Hr & H16 & Hend & _). rewrite Hr. cbn [mbind option_bind b_free b_size b_next andb].
    replace (heap_top h - head h - 32) with fsz by lia. destruct (sz <=? fsz); [done|].
    by cbn [first_fit]. }
  rewrite Hfit. cbn [mbind option_bind]. destruct (fits h sz) eqn:Ef.
  - unfold fits in Ef. apply andb_true_iff in Ef as [Eh Ef]. apply negb_true_iff, Z.eqb_neq in Eh. apply Z.leb_le in Ef.
    destruct (free_block L h Hok Eh) as (fsz & Hr & H16 & Hend & Hfe). rewrite Hr. cbn [mbind option_bind b_size b_next].
    unfold frontier. rewrite (proj2 (Z.eqb_neq _ _) Eh).
    pose proof (alloc_at_spec L h (head h) fsz sz Hfe Hs16 ltac:(lia)) as Ha. cbn zeta in Ha. unfold alloc_at in Ha.
    cbn [mbind option_bind] in Ha. destruct (split_block junk h None (head h) fsz sz 0) as [h1|]; cbn [mbind option_bind] in Ha |- *; [|lia].
    destruct (take_block junk h1 (head h)) as [[a h']|]; [|lia]. destruct Ha as (-> & Hroom & Ht & Hok' & _).
    destruct (kh_free _ _ Hok Eh) as (_ & _ & x & Hx & _). rewrite Hx in Hok'.
    right. split_and!; [done|lia|lia|lia|by auto|by intros (? & _)].
  - pose proof (heap_grow_spec h sz Htop ltac:(lia)) as Hg. destruct (heap_grow h (u64 (HEADER_SIZE + sz))) as [ok h1].
    destruct Hg as (G & Hle & Hm & Htop1 & Hok1). pose proof G as [G1 G2 G3 [G4 _]].
    assert (Hold : heap_top h1 = heap_top h -> kheap_ok L h1).
    { intros Ht. destruct Hok as [K1 K2 K3 K4]. split; [done|by rewrite G1, G2, Ht| |by rewrite G1, Ht].
      apply (live_ok_grown L h h1 _ _ G). unfold frontier in *. by rewrite G2, Ht. }
    destruct ok; cbn [negb]; [|left; split_and!; [done|done|done|lia|done]]. specialize (Hok1 eq_refl).
    rewrite header_size. cbn zeta. destruct Htop as [Hr Hm0].
    rewrite (u64_id (heap_top h1 - heap_top h)), (u64_id (heap_top h1 - heap_top h - 32)) by (destruct Htop1; klia).
    unfold frontier. rewrite G2. destruct (Z.eqb_spec (head h) 0) as [Eh|Eh].
    + assert (Hfe : free_end L h1 (heap_top h) (heap_top h1 - heap_top h - 32)).
      { split; [done|split; [klia|by apply page_mod16]|lia| |].
        - apply (live_ok_grown L h h1 _ _ G). pose proof (kh_live _ _ Hok) as Hl. unfold frontier in Hl.
          by rewrite Eh in Hl.
        - intros y Hy. rewrite G1. apply (kh_dom _ _ Hok). lia. }
      pose proof (alloc_at_spec L h1 (heap_top h) _ sz Hfe Hs16 ltac:(lia)) as Ha. cbn zeta in Ha.
      rewrite G1, (kh_dom _ _ Hok) in Ha by lia. cbn [default from_option id] in Ha.
      destruct (alloc_at h1 _ _ sz) as [[a h']|]; [|lia]. destruct Ha as (-> & Hroom & Ht & Hok' & Hjunk).
      assert (Hrm : room h sz = heap_top h1 - heap_top h - 32) by (unfold room, frontier; rewrite Ef, Eh, Hok1; cbn; lia).
      right. split_and!; [done|lia|lia|lia| |].
      * intros Hst. apply Hok'. destruct (decide (b_next (junk (heap_top h)) = 0)); [by right|left]. intros Hr2.
        apply Hst. split_and!; [done|lia|done].
      * intros (_ & Hr2 & _). apply Hjunk. lia.
    + destruct (free_block L h Hok Eh) as (fsz & Hrd & H16 & Hend & Hfe).
      assert (Hrd1 : rd junk h1 (head h) = Some (Block fsz true 0)).
      { destruct Hfe as [_ [Hb _] _ _ _]. rewrite rd_mapped in Hrd |- * by lia. by rewrite G1. }
      unfold list_fuel. cbn [walk_tail]. rewrite Hrd1. cbn [mbind option_bind b_next Z.eqb fst snd]. rewrite Hrd1.
      cbn [mbind option_bind b_free b_size b_next andb]. destruct Hfe as [_ [Hb Hb16] _ Hl Hd].
      rewrite (u64_id (head h + 32 + fsz)) by klia. rewrite (proj2 (Z.eqb_eq _ _)) by lia.
      destruct Htop1 as [Htop1 Hm1]. rewrite wr_mapped by lia. cbn [mbind option_bind].
      rewrite u64_id by klia. set (bsz := fsz + 32 + (heap_top h1 - heap_top h - 32)).
      match goal with |- context [split_block junk ?hh None _ _ _ _] => set (h2 := hh) end.
      assert (Hfe2 : free_end L h2 (head h) bsz).
      { split; [by split|by split|cbn [h2 heap_top]; lia| |].
        - destruct Hl as [L1 L2]. split; [|done]. intros a n0 Ha. destruct (L1 a n0 Ha) as (? & ? & ? & ? & x & Hx & Hxf).
          split_and!; [done..|]. exists x. cbn [h2 headers]. rewrite lookup_insert_ne by lia. by rewrite G1.
        - intros y Hy. cbn [h2 headers heap_top] in Hy |- *. rewrite lookup_insert_ne by lia. rewrite G1. apply Hd. lia. }
      pose proof (alloc_at_spec L h2 (head h) bsz sz Hfe2 Hs16 ltac:(lia)) as Ha. cbn zeta in Ha.
      replace (headers h2 !! head h) with (Some (Block bsz true 0)) in Ha by (cbn [h2 headers]; by rewrite lookup_insert_eq).
      unfold alloc_at in Ha.
      cbn [mbind option_bind] in Ha. destruct (split_block junk h2 None (head h) bsz sz 0) as [h3|]; cbn [mbind option_bind] in Ha |- *; [|lia].
      destruct (take_block junk h3 (head h)) as [[a h']|]; [|lia]. destruct Ha as (-> & Hroom & Ht & Hok' & _).
      right. cbn [h2 heap_top] in Ht. split_and!; [done|lia|lia|lia|by auto|by intros (? & _)].
Qed.

Lemma kfree_live L h a n : kheap_ok L h -> L !! a = Some n ->
  kfree_ junk h a =
    x ← headers h !! (a - 32);
    Some (Kheap (<[a - 32 := Block (b_size x) true (b_next x)]> (headers h)) (head h) (heap_top h) (heap_mapped h)
            (u64 (bytes_used h - b_size x)) (pages h)).
Proof.
  intros [Ht Hf [L1 L2] Hd] Ha. destruct (L1 a n Ha) as (H1 & H2 & H3 & H4 & x & Hx & Hxf).
  assert (Hfr : frontier h <= heap_top h).
  { unfold frontier. destruct (Z.eqb_spec (head h) 0) as [|Hh]; [lia|]. destruct (Hf Hh) as (_ & _ & sz & _ & ? & ?). lia. }
  destruct Ht as [Ht Hm]. unfold kfree_. rewrite header_size, u64_id by klia. destruct (Z.eqb_spec a 0); [klia|].
  rewrite rd_mapped by lia. rewrite Hx. cbn [mbind option_bind default from_option id]. rewrite Hxf.
  rewrite wr_mapped by lia. cbn [mbind option_bind]. set (h1 := set_used _ _).
  unfold coalesce, list_fuel. cbn [coalesce_loop]. change (head h1) with (head h).
  destruct (Z.eqb_spec (head h) 0) as [|Hh]; [done|]. destruct (Hf Hh) as (Hs & _ & sz & He & ? & ?).
  unfold frontier in H4. rewrite (proj2 (Z.eqb_neq _ _) Hh) in H4.
  rewrite rd_mapped by (change (heap_top h1) with (heap_top h); lia). cbn [h1 headers set_used].
  rewrite lookup_insert_ne by lia. by rewrite He.
Qed.

Lemma kfree_spec L h a n : kheap_ok L h -> L !! a = Some n ->
  exists h', kfree_ junk h a = Some h' /\ kheap_ok (delete a L) h' /\ frontier h' = frontier h /\
    heap_top h' = heap_top h /\ pages h' = pages h.
Proof.
  intros Hok Ha. rewrite (kfree_live L h a n Hok Ha). destruct Hok as [Ht Hf [L1 L2] Hd].
  destruct (L1 a n Ha) as (H1 & H2 & H3 & H4 & x & Hx & Hxf).
  assert (Hfr : frontier h <= heap_top h).
  { unfold frontier. destruct (Z.eqb_spec (head h) 0) as [|Hh]; [lia|]. destruct (Hf Hh) as (_ & _ & sz & _ & ? & ?). lia. }
  rewrite Hx. cbn [mbind option_bind]. set (h1 := Kheap _ _ _ _ _ _).
  exists h1. split_and!; try done. split; [done| | |].
  - intros Hh. destruct (Hf Hh) as (? & ? & sz & He & ? & ?). split_and!; [done..|]. exists sz. split_and!; [|done|done].
    cbn [h1 headers head]. change (head h <> 0) in Hh. rewrite lookup_insert_ne; [done|]. unfold frontier in H4.
    rewrite (proj2 (Z.eqb_neq _ _) Hh) in H4. lia.
  - change (frontier h1) with (frontier h). split.
    + intros a' n' [Hne Ha']%lookup_delete_Some. destruct (L1 a' n' Ha') as (? & ? & ? & ? & y & Hy & Hyf).
      split_and!; [done..|]. exists y. cbn [h1 headers]. rewrite lookup_insert_ne by lia. done.
    + intros a1 n1 a2 n2 [_ E1]%lookup_delete_Some [_ E2]%lookup_delete_Some. exact (L2 a1 n1 a2 n2 E1 E2).
  - intros y Hy. change (heap_top h1) with (heap_top h) in Hy. cbn [h1 headers set_used]. rewrite lookup_insert_ne by lia. by apply Hd.
Qed.

(** The guard against double frees. *)
Lemma kfree_twice L h a n h' : kheap_ok L h -> L !! a = Some n -> kfree_ junk h a = Some h' -> kfree_ junk h' a = Some h'.
Proof.
  intros Hok Ha E. pose proof Hok as [[Ht Hm] Hf [L1 _] _]. destruct (L1 a n Ha) as (H1 & _ & H3 & H4 & x & Hx & Hxf).
  assert (Hfr : frontier h <= heap_top h).
  { unfold frontier. destruct (Z.eqb_spec (head h) 0) as [|Hh]; [lia|]. destruct (Hf Hh) as (_ & _ & sz & _ & ? & ?). lia. }
  assert (Hx' : headers h' !! (a - 32) = Some (Block (b_size x) true (b_next x)) /\ heap_top h' = heap_top h).
  { revert E. rewrite kfree_live with (L := L) (n := n) by done. rewrite Hx. by intros [= <-]; cbn; rewrite lookup_insert_eq. }
  destruct Hx' as [Hx' Ht']. unfold kfree_. rewrite header_size, u64_id by klia. destruct (Z.eqb_spec a 0); [done|].
  rewrite rd_mapped by lia. by rewrite Hx'.
Qed.

Lemma kheap_init_spec s h : kheap_init s = Some h -> kheap_ok ∅ h /\ frontier h = KHEAP_START.
Proof.
  unfold kheap_init. pose proof (align_up_id (KHEAP_START + PAGE_SIZE) 12 ltac:(lia) ltac:(done) ltac:(done) ltac:(done)) as Ht.
  unfold heap_grow. cbn [heap_top]. rewrite (u64_id (KHEAP_START + PAGE_SIZE)) by klia. unfold ALIGN_UP. rewrite Ht.
  destruct (Z.ltb_spec KHEAP_MAX (KHEAP_START + PAGE_SIZE)); [done|].
  set (h0 := Kheap ∅ 0 KHEAP_START 0 0 s).
  pose proof (grow_loop_spec (Z.to_nat ((KHEAP_START + PAGE_SIZE - KHEAP_START) / PAGE_SIZE + 1)) h0 (KHEAP_START + PAGE_SIZE)
    ltac:(done) ltac:(done) ltac:(klia) ltac:(done) ltac:(done)) as Hg.
  destruct (grow_loop _ h0 _) as [ok h1]. destruct Hg as [[G1 G2 G3 G4] Hok]. destruct ok; [|done]. cbn [negb].
  specialize (Hok eq_refl). cbn [h0 heap_top] in Hok.
  rewrite wr_mapped by (cbn [heap_top set_head]; klia). intros [= <-]. split; [|done]. split.
  - split; cbn [heap_top set_head]; rewrite Hok; done.
  - intros _. cbn [head headers set_head heap_top]. split_and!; [done|done|]. exists (PAGE_SIZE - HEADER_SIZE).
    rewrite lookup_insert_eq, header_size. split_and!; [done|done|klia].
  - split; [intros a n Ha|intros a n a' n' Ha]; by rewrite lookup_empty in Ha.
  - intros y Hy. cbn [heap_top set_head headers] in Hy |- *. rewrite lookup_insert_ne by klia. rewrite G1. apply lookup_empty.
Qed.

(** The states reachable when no growth is interrupted half-way and no fresh
  block leaves with a next pointer nobody wrote. *)
Inductive kheap_run : gmap Z Z -> kheap -> Prop :=
  | kr_init s h : kheap_init s = Some h -> kheap_run ∅ h
  | kr_alloc L h n a h' : kheap_run L h -> 0 < n < 2 ^ 28 -> ~ stale h (ALIGN_UP n 4) ->
      kmalloc_ junk h n = Some (a, h') -> a <> 0 -> kheap_run (<[a := ALIGN_UP n 4]> L) h'
  | kr_null L h n h' : kheap_run L h -> 0 < n < 2 ^ 28 -> kmalloc_ junk h n = Some (0, h') ->
      heap_top h' = heap_top h -> kheap_run L h'
  | kr_free L h a n h' : kheap_run L h -> L !! a = Some n -> kfree_ junk h a = Some h' -> kheap_run (delete a L) h'.

Lemma kheap_run_ok L h : kheap_run L h -> kheap_ok L h.
Proof.
  induction 1 as [s h Hi|L h n a h' _ IH Hn Hst E Ha|L h n h' _ IH Hn E Ht|L h a n h' _ IH Ha E].
  - by apply (kheap_init_spec s).
  - pose proof (kmalloc_spec L h n IH Hn) as Hs. cbn zeta in Hs. rewrite E in Hs. destruct Hs as [(-> & _)|(_ & _ & _ & _ & Hs & _)]; [done|by apply Hs].
  - pose proof (kmalloc_spec L h n IH Hn) as Hs. cbn zeta in Hs. rewrite E in Hs.
    destruct Hs as [(_ & _ & _ & _ & Hs)|(Hz & _)]; [by apply Hs|]. exfalso. revert Hz. unfold frontier.
    destruct IH as [[? _] Hf _ _]. destruct (Z.eqb_spec (head h) 0) as [|Hh]; [klia|]. destruct (Hf Hh); klia.
  - destruct (kfree_spec L h a n IH Ha) as (h2 & E2 & Hs & _). rewrite E in E2. injection E2 as <-. done.
Qed.
End Invariant.
