(* ===== verification/KheapSpec.v ===== *)
(** * The kernel heap as an implementation of the heap interface

  The page supply of the heap ([pmm_alloc_frame] and [vmm_map_page]) never fails
  while frames are left; with enough of them the heap of [Kheap] satisfies the
  laws of [KernelHeap] that the device layer and the file system rely on.  Nothing
  is assumed of what a fresh page holds: the case in which the heap follows a
  next pointer that nobody wrote is [Kheap.stale]. *)
From S2P Require Import Prelude Pmm PhysMem Vmm Interfaces Kheap.

(** ** The page supply *)

(** [plenty s k]: the next [k] pages can be mapped, wherever they are. *)
Class KernelPagesLaws (S : Type) `{KernelPages S} (plenty : S -> Z -> Prop) :=
  kmap_page_ok : forall s k va, 0 <= k -> plenty s (k + 1) ->
    exists s', kmap_page s va = (true, s') /\ plenty s' k.

Lemma alloc_frame_some p : pmm_inv p -> (0 < size (free_set p))%nat ->
  exists f p', pmm_alloc_frame p = (f, p') /\ pmm_inv p' /\ (f = 0 -> 0 ∈ free_set p) /\
    size (free_set p') = (size (free_set p) - 1)%nat /\ free_set p' ⊆ free_set p.
Proof.
  intros Hi Hs. pose proof (alloc_frame_cases p (inv_wf p Hi)) as Hc. pose proof (alloc_frame_inv p Hi) as Hi'.
  destruct (pmm_alloc_frame p) as [r p']. cbn [snd] in Hi'.
  destruct Hc as [(f & [Hf _] & Hr & -> & ->)|(He & _)]; [|rewrite He, size_empty in Hs; lia].
  exists (f * PAGE_SIZE), (take_frame p f). split_and!; [done|done| |..].
  - intros Hz. unfold PAGE_SIZE in Hz. assert (f = 0) by lia. by subst.
  - rewrite free_set_take_frame by (done || apply Hi). rewrite size_difference by set_solver. by rewrite size_singleton.
  - rewrite free_set_take_frame by (done || apply Hi). set_solver.
Qed.

(** Enough free frames, frame 0 not among them. *)
Definition frames_left (s : mstate) (k : Z) : Prop :=
  pmm_inv (ms_pmm s) /\ 0 ∉ free_set (ms_pmm s) /\ k <= Z.of_nat (size (free_set (ms_pmm s))).

Lemma walk_or_create_some s t i fl k : 0 <= k -> frames_left s (k + 1) ->
  exists a s', walk_or_create s t i fl = (Some a, s') /\ frames_left s' k.
Proof.
  intros Hk (Hi & H0 & Hl). unfold walk_or_create. destruct (has _ _); cbn [negb].
  { eexists _, _. split; [done|]. split_and!; [done|done|lia]. }
  destruct (alloc_frame_some _ Hi) as (f & p' & E & Hi' & Hf & Hs & Hsub); [lia|]. unfold alloc_table. rewrite E.
  destruct (Z.eqb_spec f 0) as [Hz|Hz]; [by destruct H0; auto|]. rewrite (proj2 (Z.eqb_neq f 0) Hz).
  eexists _, _. split; [done|]. unfold frames_left. cbn [ms_pmm with_mem]. split_and!; [done|set_solver|lia].
Qed.

Lemma kernel_pages_laws root : @KernelPagesLaws mstate (kernel_pages root) (fun s k => frames_left s (4 * k)).
Proof.
  intros s k va Hk (Hi & H0 & Hl). unfold kmap_page, kernel_pages.
  destruct (alloc_frame_some _ Hi) as (f & p' & E & Hi' & Hf & Hs & Hsub); [lia|]. rewrite E.
  destruct (Z.eqb_spec f 0) as [Hz|Hz]; [by destruct H0; auto|].
  assert (L0 : frames_left (with_pmm s p') (4 * k + 2 + 1)) by (split_and!; [done|set_solver|cbn [ms_pmm with_pmm]; lia]).
  unfold vmm_map_page.
  destruct (walk_or_create_some _ root (PML4_IDX va) (tbl_flags VMM_KERN_RW) (4 * k + 2) ltac:(lia) L0) as (a1 & s1 & -> & L1).
  destruct (walk_or_create_some s1 a1 (PDPT_IDX va) (tbl_flags VMM_KERN_RW) (4 * k + 1) ltac:(lia)) as (a2 & s2 & -> & L2).
  { by replace (4 * k + 1 + 1) with (4 * k + 2) by lia. }
  destruct (walk_or_create_some s2 a2 (PD_IDX va) (tbl_flags VMM_KERN_RW) (4 * k) ltac:(lia) L2) as (a3 & s3 & -> & L3).
  eexists. split; [done|]. exact L3.
Qed.

(** ** The heap over a plentiful supply *)
Section Laws.
Context {S : Type} `{KP : KernelPages S} {plenty : S -> Z -> Prop} `{KL : !KernelPagesLaws S plenty}.
Context (junk : Z -> block_t).
Notation kheap := (@kheap S).
Implicit Types h : kheap.

(** Pages between the top of the heap and its limit. *)
Definition pages_left h : Z := (KHEAP_MAX - heap_top h) / PAGE_SIZE.

Lemma grow_loop_plenty fuel : forall h target, 0 <= heap_top h -> heap_top h mod PAGE_SIZE = 0 ->
  target <= KHEAP_MAX -> target mod PAGE_SIZE = 0 -> target - heap_top h <= Z.of_nat fuel * PAGE_SIZE ->
  plenty (pages h) (pages_left h) ->
  let '(ok, h') := grow_loop fuel h target in ok = true /\ plenty (pages h') (pages_left h').
Proof.
  induction fuel as [|fuel IH]; intros h target H0 Hm Ht Htm Hf Hp; cbn [grow_loop].
  { destruct (Z.ltb_spec (heap_top h) target); [lia|]. done. }
  destruct (Z.ltb_spec (heap_top h) target) as [Hlt|Hge]; [|done].
  assert (Hu : heap_top h + PAGE_SIZE <= target /\ u64 (heap_top h + PAGE_SIZE) = heap_top h + PAGE_SIZE).
  { split; [unfold PAGE_SIZE in *; Z.div_mod_to_equations; lia|apply u64_id; klia]. }
  destruct Hu as [Hle Hu].
  destruct (kmap_page_ok (pages h) (pages_left h - 1) (heap_top h)) as (s' & E & Hp').
  { unfold pages_left, PAGE_SIZE in *. Z.div_mod_to_equations. klia. }
  { by replace (pages_left h - 1 + 1) with (pages_left h) by lia. }
  rewrite E. cbn [negb]. apply IH; cbn [heap_top set_mapped set_pages pages]; rewrite ?Hu; try done.
  - klia.
  - rewrite <- (Z.mul_1_l PAGE_SIZE) at 1. by rewrite Z_mod_plus_full.
  - klia.
  - unfold pages_left in Hp' |- *. cbn [heap_top set_mapped]. rewrite ?Hu.
    replace (KHEAP_MAX - (heap_top h + PAGE_SIZE)) with (KHEAP_MAX - heap_top h + (-1) * PAGE_SIZE) by lia.
    by rewrite Z.div_add.
Qed.

Lemma heap_grow_plenty h sz : top_ok h -> 0 <= sz < 2 ^ 29 -> plenty (pages h) (pages_left h) ->
  let '(ok, h') := heap_grow h (u64 (HEADER_SIZE + sz)) in
  plenty (pages h') (pages_left h') /\ (ok = false -> h' = h).
Proof.
  intros [Ht Hm] Hsz Hp. unfold heap_grow. rewrite header_size, (u64_id (32 + sz)), u64_id by klia.
  destruct (align_up_spec (heap_top h + (32 + sz)) 12) as [Ha Hb]; [lia|klia|klia|].
  change (2 ^ 12) with PAGE_SIZE in *. unfold ALIGN_UP. set (target := align_up _ _) in *.
  destruct (Z.ltb_spec KHEAP_MAX target) as [|Hle]; [done|].
  assert (Hd : target - heap_top h <= Z.of_nat (Z.to_nat ((target - heap_top h) / PAGE_SIZE + 1)) * PAGE_SIZE).
  { unfold PAGE_SIZE in *. rewrite Z2Nat.id by (apply Z.add_nonneg_nonneg; [apply Z.div_pos; lia|lia]).
    Z.div_mod_to_equations. lia. }
  pose proof (grow_loop_plenty _ h target ltac:(klia) Hm Hle Ha Hd Hp) as Hg.
  destruct (grow_loop _ h target) as [ok h']. destruct Hg as [-> Hg]. done.
Qed.

(** Headers are written without touching the supply. *)
Lemma wr_pages h b x h' : wr h b x = Some h' -> pages h' = pages h /\ heap_top h' = heap_top h.
Proof. unfold wr. case_if; [|done]. by intros [= <-]. Qed.

Lemma set_slot_pages h slot v h' : set_slot junk h slot v = Some h' -> pages h' = pages h /\ heap_top h' = heap_top h.
Proof.
  destruct slot as [b|]; cbn [set_slot]; [|by intros [= <-]]. unfold set_next.
  intros (x & _ & E)%bind_Some. by apply wr_pages in E.
Qed.

Lemma split_pages h slot b bsz sz succ h' : split_block junk h slot b bsz sz succ = Some h' ->
  pages h' = pages h /\ heap_top h' = heap_top h.
Proof.
  unfold split_block. case_if.
  - intros (h1 & [E1 T1]%wr_pages & (x & _ & (h2 & [E2 T2]%wr_pages & [E3 T3]%set_slot_pages)%bind_Some)%bind_Some)%bind_Some.
    split; congruence.
  - intros (x & _ & (h1 & [E1 T1]%set_slot_pages & (y & _ & [E2 T2]%wr_pages)%bind_Some)%bind_Some)%bind_Some. split; congruence.
Qed.

Lemma take_pages h b a h' : take_block junk h b = Some (a, h') -> pages h' = pages h /\ heap_top h' = heap_top h.
Proof. unfold take_block. intros (x & _ & (h1 & [E1 T1]%wr_pages & [= _ <-])%bind_Some)%bind_Some. done. Qed.

Lemma alloc_pages h slot b bsz sz succ a h' :
  (h ← split_block junk h slot b bsz sz succ; take_block junk h b) = Some (a, h') ->
  pages h' = pages h /\ heap_top h' = heap_top h.
Proof. intros (h1 & [E1 T1]%split_pages & [E2 T2]%take_pages)%bind_Some. split; congruence. Qed.

Lemma pages_left_same h h' : heap_top h' = heap_top h -> pages_left h' = pages_left h.
Proof. intros E. unfold pages_left. by rewrite E. Qed.

Lemma kmalloc_plenty L h n a h' : kheap_ok L h -> 0 < n < 2 ^ 28 -> plenty (pages h) (pages_left h) ->
  kmalloc_ junk h n = Some (a, h') -> plenty (pages h') (pages_left h').
Proof.
  intros Hok Hn Hp E. rewrite kmalloc_unfold in E. rewrite (proj2 (Z.eqb_neq n 0)) in E by lia.
  destruct (align16 n) as [_ Hsz]; [lia|].
  pose proof (heap_grow_plenty h (ALIGN_UP n 4) (kh_top _ _ Hok) ltac:(lia) Hp) as Hg.
  assert (Hd : forall b bsz slot succ h1, plenty (pages h1) (pages_left h1) ->
    (h2 ← split_block junk h1 slot b bsz (ALIGN_UP n 4) succ; take_block junk h2 b) = Some (a, h') ->
    plenty (pages h') (pages_left h')).
  { intros b bsz slot succ h1 Hp1 [E1 T1]%alloc_pages. by rewrite (pages_left_same h1 h'), E1. }
  apply bind_Some in E as (fit & _ & E). destruct fit as [[slot cur]|].
  { apply bind_Some in E as (x & _ & E). by apply Hd in E. }
  destruct (heap_grow h (u64 (HEADER_SIZE + ALIGN_UP n 4))) as [ok h1]. destruct Hg as [Hg _].
  destruct ok; cbn [negb] in E; [|by injection E as _ <-]. cbn zeta in E.
  destruct (head h1 =? 0); [unfold alloc_at in E; by apply Hd in E|].
  apply bind_Some in E as ([slot tail] & _ & E). apply bind_Some in E as (x & _ & E). cbn [fst snd] in E.
  destruct (b_free x && _).
  - apply bind_Some in E as (h2 & [E2 T2]%wr_pages & E). apply Hd in E; [done|]. by rewrite (pages_left_same h1 h2), E2.
  - apply bind_Some in E as (h2 & (y & _ & [E2 T2]%wr_pages)%bind_Some & E). apply Hd in E; [done|].
    by rewrite (pages_left_same h1 h2), E2.
Qed.

(** ** The heap interface

  A stopped kernel allocates nothing. *)
#[local] Instance kernel_heap : KernelHeap (option kheap) := {|
  kmalloc o n := match o ≫= (fun h => kmalloc_ junk h n) with Some (a, h) => (a, Some h) | None => (0, None) end;
  kfree o a := o ≫= (fun h => kfree_ junk h a)
|}.

Definition kernel_heap_inv (A : gset Z) (o : option kheap) : Prop :=
  match o with
  | None => True
  | Some h => exists L, dom L = A /\ kheap_ok L h /\ plenty (pages h) (pages_left h)
  end.

#[local] Instance kernel_heap_laws : KernelHeapLaws (option kheap) kernel_heap_inv.
Proof.
  split.
  - intros A [h|] n Hn Hcl Hi; [|done]. destruct Hi as (L & <- & Hok & Hp). cbn [kmalloc kernel_heap mbind option_bind].
    pose proof (kmalloc_spec junk L h n Hok Hn) as Hs. cbn zeta in Hs.
    pose proof (clear_not_stale junk h n (kh_top _ _ Hok) Hn Hcl) as Hst.
    destruct (kmalloc_ junk h n) as [[a h']|] eqn:E; [|done]. pose proof (kmalloc_plenty L h n a h' Hok Hn Hp E) as Hp'.
    destruct (align16 n) as [_ Hsz]; [lia|].
    assert (Hf : KHEAP_START <= frontier h).
    { unfold frontier. destruct (Z.eqb_spec (head h) 0) as [|Hh]; [destruct (kh_top _ _ Hok); klia|].
      by destruct (kh_free _ _ Hok Hh). }
    destruct Hs as [(-> & _ & Hg & _ & Hs)|(-> & _ & _ & _ & Hs & _)].
    + cbn [Z.eqb]. pose proof (heap_grow_plenty h (ALIGN_UP n 4) (kh_top _ _ Hok) ltac:(lia) Hp) as Hg'.
      rewrite Hg in Hg'. destruct Hg' as [_ Hg']. rewrite (Hg' eq_refl) in *. exists L. split_and!; [done|by apply Hs|done].
    + rewrite (proj2 (Z.eqb_neq _ _)) by klia. split.
      * intros [m Hm]%elem_of_dom. destruct (lo_live _ _ _ (kh_live _ _ Hok) _ _ Hm). lia.
      * exists (<[frontier h + 32 := ALIGN_UP n 4]> L). split_and!; [set_solver|by apply Hs|done].
  - intros A [h|] a Hi Ha; [|done]. destruct Hi as (L & <- & Hok & Hp). cbn [kfree kernel_heap mbind option_bind].
    apply elem_of_dom in Ha as [m Hm].
    destruct (kfree_spec junk L h a m Hok Hm) as (h' & -> & Hok' & _ & Ht & Hpg). exists (delete a L).
    split_and!; [set_solver|done|]. by rewrite (pages_left_same h h'), Hpg.
Qed.

Lemma kheap_init_plenty s h : plenty s ((KHEAP_MAX - KHEAP_START) / PAGE_SIZE) -> kheap_init s = Some h ->
  kernel_heap_inv ∅ (Some h).
Proof.
  intros Hp E. exists ∅. split; [apply dom_empty_L|]. split; [by apply (kheap_init_spec junk s)|]. revert E. unfold kheap_init.
  destruct (heap_grow _ PAGE_SIZE) as [ok h1] eqn:Eg. destruct ok; [|done]. cbn [negb]. intros [E T]%wr_pages.
  rewrite (pages_left_same (set_head h1 KHEAP_START) h), E by done. cbn [pages set_head].
  change (pages_left (set_head h1 KHEAP_START)) with (pages_left h1). unfold heap_grow in Eg. cbn [heap_top] in Eg.
  pose proof (grow_loop_plenty 2 (Kheap ∅ 0 KHEAP_START 0 0 s) (KHEAP_START + PAGE_SIZE) ltac:(done) ltac:(done)
    ltac:(done) ltac:(done) ltac:(done) Hp) as Hg.
  replace (ALIGN_UP (u64 (KHEAP_START + PAGE_SIZE)) 12) with (KHEAP_START + PAGE_SIZE) in Eg by (by vm_compute).
  rewrite (proj2 (Z.ltb_ge _ _)) in Eg by done.
  replace (Z.to_nat ((KHEAP_START + PAGE_SIZE - KHEAP_START) / PAGE_SIZE + 1)) with 2%nat in Eg by (by vm_compute).
  rewrite Eg in Hg. apply Hg.
Qed.
End Laws.

(** ** A demonstration supply: a number of pages *)
#[local] Instance counted_pages : KernelPages nat := fun n _ =>
  match n with O => (false, O) | Datatypes.S n => (true, n) end.

#[local] Instance counted_pages_laws : KernelPagesLaws nat (fun n k => k <= Z.of_nat n).
Proof. intros [|n] k va Hk Hn; [lia|]. exists n. split; [done|lia]. Qed.

(** ... and a scripted one. *)
Definition scripted_pages : KernelPages (list bool) := fun l _ =>
  match l with [] => (false, []) | b :: l => (b, l) end.

(** Pages that were used before. *)
Definition used_page (a : Z) : block_t := Block a true (a + 48).

(** ** Properties *)

(** C19.  Allocations never overlap.  In every state reachable by allocating and
  freeing, when no growth of the heap was interrupted half-way and no request took
  a fresh page whole off an empty list with a stray next pointer in its first
  bytes ([stale], which [next_of_a_fresh_page] shows), every live allocation is 16-byte aligned and lies in the mapped part of the heap, no two
  of them overlap, and none overlaps the header in front of another. *)
Theorem kheap_run_safe {S : Type} `{KP : KernelPages S} junk L (h : @kheap S) :
  kheap_run junk L h ->
  KHEAP_START <= heap_top h <= KHEAP_MAX /\
  (forall a n, L !! a = Some n -> a mod 16 = 0 /\ KHEAP_START <= a - HEADER_SIZE /\ 0 < n /\ a + n <= heap_top h) /\
  (forall a n a' n', L !! a = Some n -> L !! a' = Some n' -> a <> a' ->
     a + n <= a' - HEADER_SIZE \/ a' + n' <= a - HEADER_SIZE).
Proof.
  intros Hrun. pose proof (kheap_run_ok junk L h Hrun) as Hok. pose proof Hok as [[Ht Hm] Hf [L1 L2] _].
  rewrite header_size. split_and!; [klia|lia| |].
  - intros a n Ha. destruct (L1 a n Ha) as (? & ? & ? & Hend & _). split_and!; [done|lia|done|]. unfold frontier in Hend.
    destruct (Z.eqb_spec (head h) 0) as [|Hh]; [done|]. destruct (Hf Hh) as (_ & _ & sz & _ & ? & ?). lia.
  - intros a n a' n' Ha Ha' Hne. destruct (decide (a < a')) as [Hlt|Hge].
    + pose proof (L2 a n a' n' Ha Ha' Hlt). lia.
    + pose proof (L2 a' n' a n Ha' Ha ltac:(lia)). lia.
Qed.

Definition demo_two : option ((@kheap nat) * (Z * (@kheap nat)) * (Z * (@kheap nat))) :=
  h ← kheap_init 4%nat; r1 ← kmalloc_ used_page h 100; r2 ← kmalloc_ used_page (snd r1) 4000; Some (h, r1, r2).

Lemma demo_clear L (h : @kheap nat) n : kheap_run used_page L h -> 0 < n < 2 ^ 28 ->
  (4016 <? n mod 4096) && (n mod 4096 <=? 4032) = false -> ~ stale used_page h (ALIGN_UP n 4).
Proof.
  intros Hrun Hn Hc. apply clear_not_stale; [apply (kh_top L), (kheap_run_ok used_page), Hrun|done|].
  intros [H1 H2]. apply Z.ltb_lt in H1. apply Z.leb_le in H2. by rewrite H1, H2 in Hc.
Qed.

Lemma kheap_run_safe_witness :
  match demo_two with
  | Some (_, (a1, _), (a2, _)) => a1 + 112 <= a2 - HEADER_SIZE \/ a2 + 4000 <= a1 - HEADER_SIZE
  | None => False
  end.
Proof.
  assert (Hc : match demo_two with
    | Some (_, (a1, _), (a2, _)) => negb (a1 =? 0) && negb (a2 =? 0) && negb (a1 =? a2) | None => false end = true)
    by (vm_compute; reflexivity).
  destruct demo_two as [[[h [a1 h1]] [a2 h2]]|] eqn:E; [|discriminate Hc]. unfold demo_two in E.
  apply bind_Some in E as (h' & E0 & E). apply bind_Some in E as ([a1' h1'] & E1 & E).
  apply bind_Some in E as ([a2' h2'] & E2 & E). injection E as -> -> -> -> ->. cbn [snd] in E2.
  pose proof (kr_init used_page 4%nat h E0) as R0.
  pose proof (kr_alloc _ _ _ 100 _ _ R0 ltac:(lia) (demo_clear _ _ 100 R0 ltac:(lia) ltac:(by vm_compute)) E1 ltac:(lia)) as R1.
  pose proof (kr_alloc _ _ _ 4000 _ _ R1 ltac:(lia) (demo_clear _ _ 4000 R1 ltac:(lia) ltac:(by vm_compute)) E2 ltac:(lia)) as R2.
  destruct (kheap_run_safe used_page _ h2 R2) as (_ & _ & H).
  apply H; [|apply lookup_insert_eq|lia]. rewrite lookup_insert_ne by lia. apply lookup_insert_eq.
Defined.

(** C20.  The heap is a bump allocator.  A reachable heap answers a request in one
  of three ways: with the address right behind the frontier of the memory handed
  out so far, and then the frontier moves behind the new object, but for the
  stray next pointer of a fresh page taken whole off an empty list, which becomes
  the head of the list; with NULL, only when the free block is too small and growing
  failed; or by stopping the kernel, exactly when the space behind the frontier
  is the rounded size or 16 bytes more, so that the header of the remainder falls
  on or across the top of the heap.  Releasing a live allocation always succeeds,
  a second release of it changes nothing, and neither moves the frontier: released memory
  is never handed out again. *)
Theorem kheap_is_bump {S : Type} `{KP : KernelPages S} junk L (h : @kheap S) n :
  kheap_run junk L h -> 0 < n < 2 ^ 28 ->
  let sz := ALIGN_UP n 4 in
  n <= sz < n + 16 /\
  match kmalloc_ junk h n with
  | None => room h sz - sz = 0 \/ room h sz - sz = 16
  | Some (a, h') =>
      (a = 0 /\ fits h sz = false /\ heap_grow h (u64 (HEADER_SIZE + sz)) = (false, h')) \/
      (a = frontier h + HEADER_SIZE /\ sz + HEADER_SIZE <= room h sz /\
       if decide (stale junk h sz) then head h' = b_next (junk (heap_top h)) else a + sz <= frontier h')
  end /\
  forall a m, L !! a = Some m -> exists h', kfree_ junk h a = Some h' /\ frontier h' = frontier h /\
    kfree_ junk h' a = Some h'.
Proof.
  intros Hrun Hn. cbn zeta. pose proof (kheap_run_ok junk L h Hrun) as Hok.
  destruct (align16 n) as [_ Hsz]; [lia|]. split_and!; [lia|lia| |].
  - pose proof (kmalloc_spec junk L h n Hok Hn) as Hs. cbn zeta in Hs. rewrite header_size in *.
    destruct (kmalloc_ junk h n) as [[a h']|]; [|done].
    destruct Hs as [(-> & Hf & Hg & _)|(-> & _ & Hr & _ & Hok' & Hst)]; [left; by rewrite Hg|right].
    split_and!; [done|done|]. case_decide as Hd; [by apply Hst|]. specialize (Hok' Hd). by destruct (lo_live _ _ _ (kh_live _ _ Hok') _ _ (lookup_insert_eq _ _ _)) as (_ & _ & _ & ? & _).
  - intros a m Ha. destruct (kfree_spec junk L h a m Hok Ha) as (h' & E & _ & Hf & Ht & _). exists h'. split_and!; [done|done|].
    by apply (kfree_twice junk L h a m).
Qed.

Lemma kheap_is_bump_witness :
  match kheap_init 4%nat with Some h => kmalloc_ used_page h 4064 = None /\ room h 4064 - 4064 = 0 | None => False end.
Proof.
  assert (Hc : match kheap_init 4%nat with
    | Some h => (match kmalloc_ used_page h 4064 with None => true | _ => false end) && negb (room h 4064 - 4064 =? 16)
    | None => false end = true) by (vm_compute; reflexivity).
  destruct (kheap_init 4%nat) as [h|] eqn:E; [|discriminate Hc].
  destruct (kheap_is_bump used_page ∅ h 4064 (kr_init used_page 4%nat h E) ltac:(lia)) as (_ & H & _).
  destruct (kmalloc_ used_page h 4064); [discriminate Hc|]. change (ALIGN_UP 4064 4) with 4064 in H. split; [done|lia].
Defined.

(** C21.  The kernel heap keeps the promise its clients rely on.  Over a page
  supply that can map every page up to the limit of the heap, whatever the pages
  hold, the heap is sound after its initialisation and satisfies the laws of the
  heap interface: an allocation of a size that cannot fill a fresh page to 32
  bytes before its end ([clear_size]) fails or returns an object that was not
  live, and releasing a live object keeps the heap sound.  The device layer and
  the file system, whose objects have such sizes, are proved against these laws. *)
Theorem kernel_heap_implements {S : Type} `{KP : KernelPages S} {plenty : S -> Z -> Prop}
    `{KL : !KernelPagesLaws S plenty} junk s (h : @kheap S) :
  plenty s ((KHEAP_MAX - KHEAP_START) / PAGE_SIZE) -> kheap_init s = Some h ->
  kernel_heap_inv (plenty := plenty) ∅ (Some h) /\
  @KernelHeapLaws (option kheap) (kernel_heap junk) (kernel_heap_inv (plenty := plenty)).
Proof.
  intros Hp E. split; [by apply (kheap_init_plenty junk s)|by apply (kernel_heap_laws junk)].
Qed.

Lemma kernel_heap_implements_witness :
  match kheap_init 65536%nat with
  | Some h => kernel_heap_inv (plenty := fun n k => k <= Z.of_nat n) ∅ (Some h)
  | None => False
  end.
Proof.
  assert (Hc : (if kheap_init 65536%nat then true else false) = true) by (vm_compute; reflexivity).
  destruct (kheap_init 65536%nat) as [h|] eqn:E; [|discriminate Hc].
  apply (kernel_heap_implements used_page 65536%nat h); [|exact E].
  unfold KHEAP_MAX, KHEAP_START. apply Z.leb_le. vm_compute. reflexivity.
Defined.

(** A growth that is interrupted half-way leaves a gap below the new blocks;
  [coalesce] then merges blocks that are not adjacent, and the merged block
  reaches over a live allocation: two of the addresses below overlap. *)
#[local] Existing Instance scripted_pages.
Definition interrupted : option (Z * Z) :=
  h ← kheap_init [true; true; false; true; true; true; true];
  '(r, h) ← kmalloc_ used_page h 8000;
  '(a1, h) ← kmalloc_ used_page h 4080;
  '(a2, h) ← kmalloc_ used_page h 4096;
  '(a3, h) ← kmalloc_ used_page h 16;
  h ← kfree_ used_page h a3;
  '(a4, h) ← kmalloc_ used_page h 12000;
  Some (a1, a4).

Example interrupted_growth_overlaps :
  match interrupted with Some (a1, a4) => a4 < a1 < a4 + 12000 | None => False end.
Proof. vm_compute. by split. Qed.

(** A request of nearly 2^64 bytes is rounded to 0 and answered with an address. *)
Example huge_request : (fst <$> (kheap_init 1%nat ≫= fun h => kmalloc_ used_page h (2 ^ 64 - 1))) = Some (KHEAP_START + 32).
Proof. vm_compute. reflexivity. Qed.

Definition stray_page (a : Z) : block_t := Block 0 false 0x1234560.

(** Two requests of 4032 bytes: the second takes a fresh page whole but for the 32
  bytes of a remainder that is too small, and the list becomes the next pointer
  that the page happened to hold.  The third request follows it and stops the
  kernel, although pages are left. *)
#[local] Existing Instance counted_pages.
Definition after_fresh_page : option (Z * bool) :=
  h ← kheap_init 9%nat;
  '(_, h) ← kmalloc_ stray_page h 4032;
  '(a, h) ← kmalloc_ stray_page h 4032;
  Some (head h, if kmalloc_ stray_page h 16 then true else false).

Example next_of_a_fresh_page : after_fresh_page = Some (0x1234560, false).
Proof. vm_compute. reflexivity. Qed.
