(* ===== verification/ProcData.v ===== *)
(** * The process control block ([kernel/include/proc/process.h])

  The data every process-level component works on.  A handler of the source
  that takes [process_t *p] is a function from the record (and the machine
  state it touches) to the updated record; the process table that owns the
  records is modelled in [Process]. *)
From S2P Require Import Prelude.

(** ** Sizes and layout *)
Definition MAX_PROCESSES : Z := 64.
Definition MAX_FDS : Z := 16.
Definition UMAP_MAX : Z := 256.
Definition USER_STACK_TOP : Z := 0x0000700000000000.
Definition USER_STACK_SIZE : Z := 16 * 4096.
Definition USER_CODE_BASE : Z := 0x0000000000400000.
Definition USER_MMAP_TOP : Z := USER_STACK_TOP - USER_STACK_SIZE.
Definition USER_LIMIT : Z := 0x0000800000000000.

(** ** Process states and descriptors *)
Inductive proc_state_t :=
  PROC_UNUSED | PROC_EMBRYO | PROC_READY | PROC_RUNNING | PROC_BLOCKED | PROC_ZOMBIE.

#[export] Instance proc_state_eq_dec : EqDecision proc_state_t.
Proof. solve_decision. Defined.

Inductive fd_type_t := FD_NONE | FD_SERIAL | FD_TTY | FD_VFS.

#[export] Instance fd_type_eq_dec : EqDecision fd_type_t.
Proof. solve_decision. Defined.

(** [fd_object] is the address of the object, 0 for NULL. *)
Record fd_entry_t := FdEntry { fd_type : fd_type_t; fd_object : Z; fd_offset : Z }.

Definition fd_none : fd_entry_t := FdEntry FD_NONE 0 0.

(** One entry of an IPC handle table. *)
Record ipc_handle_entry_t := HandleEntry {
  target_pid : Z;
  target_endpoint_id : Z;
  h_flags : Z
}.

(** ** The process control block

  [umap] is the array prefix [umap[0 .. umap_count)]; [thread] is the index of
  the thread in the scheduler's table; [ipc_handles] is [None] when the
  pointer is NULL, and otherwise the address and the contents of the table, which
  no other pointer reaches. *)
Record process_t := Process {
  pid : Z;
  ppid : Z;
  state : proc_state_t;
  cr3 : Z;
  exit_status : Z;
  exited : bool;
  thread : option Z;
  fds : list fd_entry_t;
  cwd : list Z;
  umap : list (Z * Z);
  heap_start : Z;
  brk_current : Z;
  brk_perm : Z;
  ipc_handles : option (Z * list ipc_handle_entry_t)
}.

(** ** Field updates *)
Definition set_umap (p : process_t) (u : list (Z * Z)) : process_t :=
  Process (pid p) (ppid p) (state p) (cr3 p) (exit_status p) (exited p) (thread p) (fds p)
    (cwd p) u (heap_start p) (brk_current p) (brk_perm p) (ipc_handles p).
Definition set_cr3 (p : process_t) (c : Z) : process_t :=
  Process (pid p) (ppid p) (state p) c (exit_status p) (exited p) (thread p) (fds p)
    (cwd p) (umap p) (heap_start p) (brk_current p) (brk_perm p) (ipc_handles p).
Definition set_brk (p : process_t) (b : Z) : process_t :=
  Process (pid p) (ppid p) (state p) (cr3 p) (exit_status p) (exited p) (thread p) (fds p)
    (cwd p) (umap p) (heap_start p) b (brk_perm p) (ipc_handles p).
Definition set_heap (p : process_t) (h b perm : Z) : process_t :=
  Process (pid p) (ppid p) (state p) (cr3 p) (exit_status p) (exited p) (thread p) (fds p)
    (cwd p) (umap p) h b perm (ipc_handles p).
Definition set_state (p : process_t) (st : proc_state_t) : process_t :=
  Process (pid p) (ppid p) st (cr3 p) (exit_status p) (exited p) (thread p) (fds p)
    (cwd p) (umap p) (heap_start p) (brk_current p) (brk_perm p) (ipc_handles p).
Definition set_ids (p : process_t) (i pp : Z) : process_t :=
  Process i pp (state p) (cr3 p) (exit_status p) (exited p) (thread p) (fds p)
    (cwd p) (umap p) (heap_start p) (brk_current p) (brk_perm p) (ipc_handles p).
Definition set_exit (p : process_t) (st : Z) (e : bool) : process_t :=
  Process (pid p) (ppid p) (state p) (cr3 p) st e (thread p) (fds p)
    (cwd p) (umap p) (heap_start p) (brk_current p) (brk_perm p) (ipc_handles p).
Definition set_thread (p : process_t) (t : option Z) : process_t :=
  Process (pid p) (ppid p) (state p) (cr3 p) (exit_status p) (exited p) t (fds p)
    (cwd p) (umap p) (heap_start p) (brk_current p) (brk_perm p) (ipc_handles p).
Definition set_fds (p : process_t) (f : list fd_entry_t) : process_t :=
  Process (pid p) (ppid p) (state p) (cr3 p) (exit_status p) (exited p) (thread p) f
    (cwd p) (umap p) (heap_start p) (brk_current p) (brk_perm p) (ipc_handles p).
Definition set_cwd (p : process_t) (c : list Z) : process_t :=
  Process (pid p) (ppid p) (state p) (cr3 p) (exit_status p) (exited p) (thread p) (fds p)
    c (umap p) (heap_start p) (brk_current p) (brk_perm p) (ipc_handles p).
Definition set_handles (p : process_t) (h : option (Z * list ipc_handle_entry_t)) : process_t :=
  Process (pid p) (ppid p) (state p) (cr3 p) (exit_status p) (exited p) (thread p) (fds p)
    (cwd p) (umap p) (heap_start p) (brk_current p) (brk_perm p) h.

(** A zeroed control block, as [process_t scratch = {0}]. *)
Definition process_zero : process_t :=
  Process 0 0 PROC_UNUSED 0 0 false None (replicate 16 fd_none) [] [] 0 0 0 None.
