(* ===== verification/UserMem.v ===== *)
(** * User address spaces ([kernel/proc/process.c], [kernel/mm/user_mem.c],
  the memory system calls of [kernel/syscall/syscall.c])

  Address-space creation, page mapping with its ownership record [umap],
  teardown, the user heap ([brk]) and anonymous [mmap]. *)
From S2P Require Import Prelude Pmm PhysMem Vmm ProcData.

Definition PAGE_MASK : Z := 2 ^ 64 - PAGE_SIZE.

(** [(x + PAGE_SIZE - 1) & PAGE_MASK] on [uint64_t]. *)
Definition page_up (x : Z) : Z := Z.land (u64 (x + PAGE_SIZE - 1)) PAGE_MASK.

(** ** Creating an address space *)

(** The copy loop over the upper half of the root. *)
Definition copy_kernel_entry (kpml4 pml4 : Z) (m : mem) (i : Z) : mem :=
  set_entry m pml4 i (entry m kpml4 i).

Definition clear_entry (pml4 : Z) (m : mem) (i : Z) : mem := set_entry m pml4 i 0.

Definition address_space_create (s : mstate) (kpml4 : Z) : Z * mstate :=
  let '(pml4, p) := pmm_alloc_frame (ms_pmm s) in
  if pml4 =? 0 then (0, with_pmm s p)
  else
    let m1 := foldl (clear_entry pml4) (ms_mem s) (range 0 256) in
    let m2 := foldl (copy_kernel_entry kpml4 pml4) m1 (range 256 512) in
    (pml4, MState p m2).

(** ** Mapping pages into a process *)
Definition process_map_user (s : mstate) (p : process_t) (virt phys flags : Z)
    : Z * mstate * process_t :=
  if USER_LIMIT <=? virt then (VOID_ERR_NOMEM, s, p)
  else if UMAP_MAX <=? Z.of_nat (length (umap p)) then (VOID_ERR_NOMEM, s, p)
  else
    let '(st, s1) := vmm_map_page s (cr3 p) virt phys
                       (Z.lor (Z.lor flags VMM_PRESENT) VMM_USER) in
    if negb (st =? VOID_OK) then (st, s1, p)
    else (VOID_OK, s1, set_umap p (umap p ++ [(virt, phys)])).

Definition process_alloc_user_page (s : mstate) (p : process_t) (virt flags : Z)
    : Z * mstate * process_t :=
  let '(frame, pm) := pmm_alloc_frame (ms_pmm s) in
  if frame =? 0 then (VOID_ERR_NOMEM, with_pmm s pm, p)
  else
    let s1 := MState pm (zero_frame (ms_mem s) frame) in
    let '(st, s2, p2) := process_map_user s1 p virt frame flags in
    if negb (st =? VOID_OK)
    then (st, with_pmm s2 (pmm_free_frame (ms_pmm s2) frame), p2)
    else (st, s2, p2).

(** ** Releasing pages *)

(** [p->umap[i] = p->umap[p->umap_count - 1]; p->umap_count--;] *)
Definition umap_remove (l : list (Z * Z)) (i : Z) : list (Z * Z) :=
  let n := Z.of_nat (length l) in
  take (Z.to_nat (n - 1)) (zset l i (zget (0, 0) l (n - 1))).

(** [vmm_unmap_page(cr3, virt); pmm_free_frame(phys);] *)
Definition release_page (s : mstate) (root : Z) (e : Z * Z) : mstate :=
  let '(virt, phys) := e in
  let '(_, s1) := vmm_unmap_page s root virt in
  with_pmm s1 (pmm_free_frame (ms_pmm s1) phys).

Definition in_release_range (start virt : Z) : bool :=
  (start <=? virt) && (virt <? USER_MMAP_TOP).

(** The loop either removes an entry or advances: [umap_count - i] decreases. *)
Fixpoint release_loop (n : nat) (s : mstate) (p : process_t) (start i : Z) : mstate * process_t :=
  match n with
  | O => (s, p)
  | S n =>
      if i <? Z.of_nat (length (umap p)) then
        let e := zget (0, 0) (umap p) i in
        if in_release_range start e.1
        then release_loop n (release_page s (cr3 p) e) (set_umap p (umap_remove (umap p) i)) start i
        else release_loop n s p start (i + 1)
      else (s, p)
  end.

Definition um_release_from (s : mstate) (p : process_t) (start : Z) : mstate * process_t :=
  release_loop (length (umap p)) s p start 0.

(** ** Tearing an address space down *)

Definition free_user_pages (s : mstate) (p : process_t) : mstate :=
  foldl (fun s e => release_page s (cr3 p) e) s (umap p).

Definition free_frame_s (s : mstate) (a : Z) : mstate :=
  with_pmm s (pmm_free_frame (ms_pmm s) a).

Definition destroy_pt (pd : Z) (s : mstate) (k : Z) : mstate :=
  let e := entry (ms_mem s) pd k in
  if negb (has e VMM_PRESENT) then s else free_frame_s s (Z.land e PHYS_MASK).

Definition destroy_pd (pdpt : Z) (s : mstate) (j : Z) : mstate :=
  let e := entry (ms_mem s) pdpt j in
  if negb (has e VMM_PRESENT) then s else
  let pd_phys := Z.land e PHYS_MASK in
  free_frame_s (foldl (destroy_pt pd_phys) s (range 0 512)) pd_phys.

Definition destroy_pdpt (pml4 : Z) (s : mstate) (i : Z) : mstate :=
  let e := entry (ms_mem s) pml4 i in
  if negb (has e VMM_PRESENT) then s else
  let pdpt_phys := Z.land e PHYS_MASK in
  let s1 := free_frame_s (foldl (destroy_pd pdpt_phys) s (range 0 512)) pdpt_phys in
  with_mem s1 (set_entry (ms_mem s1) pml4 i 0).

Definition process_destroy_user_space (s : mstate) (p : process_t) : mstate * process_t :=
  let s1 := free_user_pages s p in
  let s2 := foldl (destroy_pdpt (cr3 p)) s1 (range 0 256) in
  (free_frame_s s2 (cr3 p), set_cr3 (set_umap p []) 0).

(** ** The user heap *)
Definition um_brk_contains (p : process_t) (addr : Z) : bool :=
  negb (heap_start p =? 0) && (heap_start p <=? addr) && (addr <? brk_current p).

(** The growth loop; [None] when the fuel runs out.  Every completed
  iteration adds a [umap] entry and [umap] holds 256, so 257 iterations are
  enough ([brk_grow_total] below). *)
Fixpoint brk_grow_loop (fuel : nat) (s : mstate) (p : process_t) (va new_brk : Z)
    : option (Z * mstate * process_t) :=
  match fuel with
  | O => None
  | S fuel =>
      if va <? new_brk then
        let '(st, s1, p1) := process_alloc_user_page s p va (brk_perm p) in
        if negb (st =? VOID_OK) then Some (- VE_NOMEM, s1, p1)
        else brk_grow_loop fuel s1 p1 (u64 (va + PAGE_SIZE)) new_brk
      else Some (0, s, p)
  end.

Definition page_fuel : nat := 257.

Definition um_brk_grow (s : mstate) (p : process_t) (new_brk : Z) : option (Z * mstate * process_t) :=
  brk_grow_loop page_fuel s p (brk_current p) new_brk.

Definition um_brk_set (s : mstate) (p : process_t) (new_brk : Z) : option (Z * mstate * process_t) :=
  if heap_start p =? 0 then Some (- VE_INVAL, s, p)
  else if new_brk <? heap_start p then Some (- VE_INVAL, s, p)
  else if brk_current p <? new_brk then
    match um_brk_grow s p new_brk with
    | None => None
    | Some (r, s1, p1) =>
        if negb (r =? 0) then Some (r, s1, p1) else Some (0, s1, set_brk p1 new_brk)
    end
  else if new_brk <? brk_current p then
    let '(s1, p1) := um_release_from s p (page_up new_brk) in
    Some (0, s1, set_brk p1 new_brk)
  else Some (0, s, p).

Definition sys_brk (s : mstate) (p : process_t) (addr : Z) : option (Z * mstate * process_t) :=
  if heap_start p =? 0 then Some (- VE_INVAL, s, p)
  else if addr =? 0 then Some (i64 (brk_current p), s, p)
  else if addr <? heap_start p then Some (i64 (brk_current p), s, p)
  else match um_brk_set s p addr with
       | None => None
       | Some (r, s1, p1) =>
           if negb (r =? 0) then Some (r, s1, p1) else Some (i64 (brk_current p1), s1, p1)
       end.

(** [brk_init]: [nx] is [elf_nx_enabled()]. *)
Definition brk_init (nx : bool) (p : process_t) (image_end : Z) : process_t :=
  let start := page_up image_end in
  set_heap p start (u64 (start + PAGE_SIZE)) (Z.lor VMM_WRITE (if nx then VMM_NX else 0)).

(** ** Anonymous mappings *)

(** The page addresses [base, base + PAGE_SIZE, ...] below [end]. *)
Definition pages_from (base end_ : Z) : list Z :=
  (fun k => base + k * PAGE_SIZE) <$> range 0 ((end_ - base + (PAGE_SIZE - 1)) / PAGE_SIZE).

Definition page_present (s : mstate) (p : process_t) (va : Z) : bool :=
  has (vmm_get_pte (ms_mem s) (cr3 p) va) VMM_PRESENT.

Definition um_range_clear (s : mstate) (p : process_t) (start end_ : Z) : bool :=
  if cr3 p =? 0 then false
  else if end_ <=? start then true
  else forallb (fun va => negb (page_present s p va)) (pages_from (Z.land start PAGE_MASK) end_).

(** The scan for the highest occupied page of the window. *)
Definition highest_occupied (s : mstate) (p : process_t) (base end_ : Z) : Z :=
  foldl (fun occ va => if page_present s p va then va else occ) base (pages_from base end_).

(** The carving loop; [None] when the fuel runs out.  Every retry is caused by
  another present page, and a process has at most 256 ([mmap_reserve_total]). *)
Fixpoint reserve_loop (fuel : nat) (s : mstate) (p : process_t) (n floor base : Z)
    : option (Z * Z) :=
  match fuel with
  | O => None
  | S fuel =>
      let end_ := u64 (base + n * PAGE_SIZE) in
      if um_range_clear s p base end_ then Some (0, base)
      else
        let occ := highest_occupied s p base end_ in
        let base' := Z.land (u64 (occ - n * PAGE_SIZE)) PAGE_MASK in
        if base' <? floor then Some (- VE_NOMEM, 0)
        else reserve_loop fuel s p n floor base'
  end.

(** [Some (r, out)]: [r] is the result, [out] the value of [*out] when [r = 0]. *)
Definition um_mmap_reserve (s : mstate) (p : process_t) (len : Z) : option (Z * Z) :=
  if (cr3 p =? 0) || (len =? 0) then Some (- VE_INVAL, 0)
  else if negb (Z.land len (PAGE_SIZE - 1) =? 0) then Some (- VE_INVAL, 0)
  else
    let n := len / PAGE_SIZE in
    let floor := page_up (brk_current p) in
    let floor := if floor <? USER_CODE_BASE then USER_CODE_BASE else floor in
    if USER_MMAP_TOP <? n * PAGE_SIZE then Some (- VE_NOMEM, 0)
    else if USER_MMAP_TOP - n * PAGE_SIZE <? floor then Some (- VE_NOMEM, 0)
    else reserve_loop page_fuel s p n floor (Z.land (USER_MMAP_TOP - n * PAGE_SIZE) PAGE_MASK).

Definition PROT_NONE : Z := 0.
Definition PROT_WRITE : Z := 2.
Definition PROT_EXEC : Z := 4.
Definition MAP_PRIVATE : Z := 0x02.
Definition MAP_ANONYMOUS : Z := 0x20.

Definition mmap_prot_flags (nx : bool) (prot : Z) : Z :=
  let f := if has prot PROT_WRITE then VMM_WRITE else 0 in
  if negb (has prot PROT_EXEC) && nx then Z.lor f VMM_NX else f.

Definition unmap_only (root : Z) (s : mstate) (va : Z) : mstate := (vmm_unmap_page s root va).2.

(** The eager allocation loop. *)
Fixpoint mmap_loop (fuel : nat) (s : mstate) (p : process_t) (base va end_ f : Z)
    : option (Z * mstate * process_t) :=
  match fuel with
  | O => None
  | S fuel =>
      if va <? end_ then
        let '(st, s1, p1) := process_alloc_user_page s p va f in
        if negb (st =? VOID_OK)
        then Some (- VE_NOMEM, foldl (unmap_only (cr3 p1)) s1 (pages_from base va), p1)
        else mmap_loop fuel s1 p1 base (u64 (va + PAGE_SIZE)) end_ f
      else Some (i64 base, s, p)
  end.

(** The choice of the base: [inl] an error, [inr] the base. *)
Definition mmap_base (s : mstate) (p : process_t) (addr n : Z) : option (Z + Z) :=
  if addr =? 0 then
    match um_mmap_reserve s p n with
    | None => None
    | Some (r, base) => Some (if negb (r =? 0) then inl r else inr base)
    end
  else if negb (Z.land addr (PAGE_SIZE - 1) =? 0) then Some (inl (- VE_INVAL))
  else if USER_MMAP_TOP <=? addr then Some (inl (- VE_INVAL))
  else if u64 (addr + n) <? addr then Some (inl (- VE_NOMEM))
  else if negb (um_range_clear s p addr (u64 (addr + n))) then Some (inl (- VE_INVAL))
  else Some (inr addr).

Definition sys_mmap (nx : bool) (s : mstate) (p : process_t) (addr len prot flags fd offset : Z)
    : option (Z * mstate * process_t) :=
  if cr3 p =? 0 then Some (- VE_PERM, s, p)
  else if len =? 0 then Some (- VE_INVAL, s, p)
  else if USER_MMAP_TOP <=? len then Some (- VE_NOMEM, s, p)
  else if negb (fd =? -1) || negb (offset =? 0) then Some (- VE_INVAL, s, p)
  else if negb (flags =? Z.lor MAP_PRIVATE MAP_ANONYMOUS) then Some (- VE_INVAL, s, p)
  else if prot =? PROT_NONE then Some (- VE_INVAL, s, p)
  else
    let n := page_up len in
    match mmap_base s p addr n with
    | None => None
    | Some (inl r) => Some (r, s, p)
    | Some (inr base) =>
        mmap_loop page_fuel s p base base (u64 (base + n)) (mmap_prot_flags nx prot)
    end.

Definition sys_munmap (s : mstate) (p : process_t) (addr len : Z) : Z * mstate * process_t :=
  if cr3 p =? 0 then (- VE_PERM, s, p)
  else if len =? 0 then (- VE_INVAL, s, p)
  else if negb (Z.land addr (PAGE_SIZE - 1) =? 0) then (- VE_INVAL, s, p)
  else
    let n := page_up len in
    if (u64 (addr + n) <? addr) || (USER_MMAP_TOP <? u64 (addr + n)) then (- VE_INVAL, s, p)
    else let '(s1, p1) := um_release_from s p addr in (0, s1, p1).
