(* ===== verification/AddrSpace.v ===== *)
(** * Correctness of user address spaces

  The invariant relates the page tables of a process, its ownership record
  [umap] and the frame allocator: every user page present in the tables is
  backed by a frame the process owns, owned frames are distinct, allocated and
  never page tables, and the frames of the process together with the free
  frames are exactly the frames that were free before it was created. *)
From S2P Require Import Prelude Pmm PhysMem Vmm ProcData UserMem.

(** ** The invariant *)

Definition frame_no (a : Z) : Z := a / PAGE_SIZE.

(** Frames a process owns: those recorded in [umap] and its page tables. *)
Definition umap_frames (u : list (Z * Z)) : gset Z := list_to_set ((fun e => frame_no e.2) <$> u).
Definition table_frames (G : table_map) : gset Z := set_map frame_no (dom G).
Definition owned (u : list (Z * Z)) (G : table_map) : gset Z := umap_frames u ∪ table_frames G.

(** A frame that backs a user page. *)
Definition user_frame (s : mstate) (G : table_map) (f : Z) : Prop :=
  frame_addr f /\ frame_no f < total_frames (ms_pmm s) /\
  frame_no f ∉ free_set (ms_pmm s) /\ G !! f = None.

Record um_inv (F : gset Z) (s : mstate) (p : process_t) (G : table_map) : Prop := {
  um_ok : vm_ok s;
  um_pt : pt_inv s (cr3 p) G;
  um_tables : forall t x, G !! t = Some x -> frame_no t < total_frames (ms_pmm s);
  um_len : Z.of_nat (length (umap p)) <= UMAP_MAX;
  um_frames : forall v f, (v, f) ∈ umap p -> user_half v /\ user_frame s G f;
  um_nodup : NoDup (umap p).*2;
  um_present : forall va, user_half va -> page_present s p va = true ->
    exists v, (v, Z.land (vmm_get_pte (ms_mem s) (cr3 p) va) PHYS_MASK) ∈ umap p /\
              page_of v = page_of va;
  um_account : free_set (ms_pmm s) ∪ owned (umap p) G = F
}.

Lemma elem_of_umap_frames u x : x ∈ umap_frames u <-> exists v f, (v, f) ∈ u /\ x = frame_no f.
Proof.
  unfold umap_frames. rewrite elem_of_list_to_set, list_elem_of_fmap. split.
  - intros ([v f] & -> & H). by exists v, f.
  - intros (v & f & H & ->). by exists (v, f).
Qed.

Lemma elem_of_table_frames G x : x ∈ table_frames G <-> exists t y, G !! t = Some y /\ x = frame_no t.
Proof.
  unfold table_frames. rewrite elem_of_map. split.
  - intros (t & -> & [y H]%elem_of_dom). by exists t, y.
  - intros (t & y & H & ->). exists t. split; [done|]. by eapply elem_of_dom_2.
Qed.

(** Distinct frame addresses have distinct frame numbers. *)
Lemma frame_no_inj f g : frame_addr f -> frame_addr g -> frame_no f = frame_no g -> f = g.
Proof.
  intros [_ H1] [_ H2] H. unfold frame_no, PAGE_SIZE in *.
  rewrite (Z.div_mod f 4096), (Z.div_mod g 4096) by lia. lia.
Qed.

Lemma umap_frames_cons v f u : umap_frames ((v, f) :: u) = {[frame_no f]} ∪ umap_frames u.
Proof. reflexivity. Qed.

Lemma umap_frames_perm u u' : u ≡ₚ u' -> umap_frames u = umap_frames u'.
Proof. intros H. unfold umap_frames. apply set_eq. intros x. by rewrite !elem_of_list_to_set, H. Qed.

Lemma um_inv_perm F s p G u : um_inv F s p G -> umap p ≡ₚ u -> um_inv F s (set_umap p u) G.
Proof.
  intros [] Hp. split; simpl; try done.
  - by rewrite <- Hp.
  - intros v f. rewrite <- Hp. apply um_frames0.
  - by rewrite <- Hp.
  - intros va Hv Hpr. destruct (um_present0 va Hv Hpr) as (v & Hin & Hpg). exists v.
    by rewrite <- Hp.
  - unfold owned. by rewrite <- (umap_frames_perm _ _ Hp).
Qed.

(** The frame behind a present user page, and that it identifies the page. *)
Lemma um_frame_of F s p G va : um_inv F s p G -> user_half va -> page_present s p va = true ->
  user_frame s G (Z.land (vmm_get_pte (ms_mem s) (cr3 p) va) PHYS_MASK).
Proof.
  intros Hum Hv Hp. destruct (um_present _ _ _ _ Hum va Hv Hp) as (v & Hin & _).
  by destruct (um_frames _ _ _ _ Hum _ _ Hin).
Qed.

Lemma um_frame_inj F s p G va va' : um_inv F s p G -> user_half va -> user_half va' ->
  page_present s p va = true -> page_present s p va' = true ->
  Z.land (vmm_get_pte (ms_mem s) (cr3 p) va) PHYS_MASK =
  Z.land (vmm_get_pte (ms_mem s) (cr3 p) va') PHYS_MASK -> page_of va = page_of va'.
Proof.
  intros Hum Hv Hv' Hp Hp' He. destruct (um_present _ _ _ _ Hum va Hv Hp) as (v & Hin & <-).
  destruct (um_present _ _ _ _ Hum va' Hv' Hp') as (v' & Hin' & <-). rewrite He in Hin.
  f_equal. by apply (NoDup_snd_inj _ _ _ _ (um_nodup _ _ _ _ Hum) Hin Hin').
Qed.

(** Fields of the control block other than [cr3] and [umap] do not matter. *)
Lemma um_inv_same F s p p' G : um_inv F s p G -> cr3 p' = cr3 p -> umap p' = umap p -> um_inv F s p' G.
Proof.
  intros [] Hc Hu. split; unfold page_present in *; rewrite ?Hc, ?Hu; try done.
Qed.

(** ** Changes to the frame allocator *)

Lemma set_give_back (A B C F : gset Z) x : A ∪ (B ∪ C) = F ∖ {[x]} -> x ∈ F ->
  A ∪ (B ∪ ({[x]} ∪ ∅) ∪ C) = F.
Proof.
  intros H Hx. apply set_eq. intros y. assert (Hy : y ∈ A ∪ (B ∪ C) <-> y ∈ F ∖ {[x]}) by (by rewrite H).
  rewrite elem_of_difference, elem_of_singleton in Hy.
  rewrite !elem_of_union, elem_of_singleton, elem_of_empty in *. destruct (decide (y = x)) as [->|]; tauto.
Qed.

Lemma vm_ok_free s f : vm_ok s -> frame_addr f -> vm_ok (free_frame_s s f).
Proof.
  intros [Hi Hz Ht] [Hf Ha]. unfold free_frame_s. split; simpl.
  - apply free_frame_inv; [done|lia].
  - rewrite free_frame_set by (apply Hi || lia). case_decide; [|done].
    rewrite elem_of_union, elem_of_singleton. intros [H0|?]; [|done].
    unfold PAGE_SIZE in *. pose proof (Z.div_mod f 4096 ltac:(lia)). lia.
  - destruct (free_frame_cases (ms_pmm s) f (inv_wf _ Hi) ltac:(lia)) as [[_ ->]|(_ & _ & ->)]; done.
Qed.

Lemma free_frame_total (q : pmm) f : total_frames (pmm_free_frame q f) = total_frames q.
Proof. unfold pmm_free_frame. repeat case_if; done. Qed.

Lemma free_frame_s_set s f : vm_ok s -> frame_addr f -> frame_no f < total_frames (ms_pmm s) ->
  free_set (ms_pmm (free_frame_s s f)) = {[frame_no f]} ∪ free_set (ms_pmm s).
Proof.
  intros Hok [Hf _] Ht. simpl. rewrite free_frame_set by (apply Hok || lia).
  by rewrite decide_True.
Qed.

(** Allocating and zeroing a frame for user data. *)
Lemma um_alloc F s p G f pm : um_inv F s p G -> pmm_alloc_frame (ms_pmm s) = (f, pm) -> f <> 0 ->
  let s1 := MState pm (zero_frame (ms_mem s) f) in
  vm_ok s1 /\ pt_inv s1 (cr3 p) G /\ same_map (cr3 p) s s1 /\ user_frame s1 G f /\
  total_frames pm = total_frames (ms_pmm s) /\ f ∉ (umap p).*2 /\
  free_set (ms_pmm s) = {[frame_no f]} ∪ free_set pm /\ free_set pm ⊆ free_set (ms_pmm s) /\
  frame_no f ∉ free_set pm.
Proof.
  intros Hum Ha Hnz. pose proof (um_ok _ _ _ _ Hum) as [Hi Hz Htot].
  pose proof (alloc_frame_cases _ (inv_wf _ Hi)) as Hc. rewrite Ha in Hc.
  destruct Hc as [(g & [Hg _] & Hr & -> & ->)|(_ & -> & _)]; [|done].
  assert (Hgz : g <> 0) by (by intros ->).
  assert (Hf : frame_addr (g * PAGE_SIZE)).
  { unfold PAGE_SIZE. split; [lia|]. by rewrite Z.mod_mul. }
  assert (Hno : frame_no (g * PAGE_SIZE) = g) by (apply Z.div_mul; done).
  assert (Hset : free_set (take_frame (ms_pmm s) g) = free_set (ms_pmm s) ∖ {[g]})
    by (apply free_set_take_frame; [apply Hi|done]).
  assert (Hfresh : G !! (g * PAGE_SIZE) = None).
  { destruct (G !! _) as [[k key]|] eqn:E; [|done].
    destruct (pt_frames _ _ _ (um_pt _ _ _ _ Hum) _ _ _ E) as (_ & _ & []).
    fold (frame_no (g * PAGE_SIZE)). by rewrite Hno. }
  assert (Hok1 : vm_ok (MState (take_frame (ms_pmm s) g) (zero_frame (ms_mem s) (g * PAGE_SIZE)))).
  { split; simpl; [by apply take_frame_inv|rewrite Hset; set_solver|done]. }
  destruct (pt_inv_frame s (MState (take_frame (ms_pmm s) g) (zero_frame (ms_mem s) (g * PAGE_SIZE)))
              (cr3 p) G (um_pt _ _ _ _ Hum)) as [Hpt Hsame]; simpl.
  - intros t [k key] i Ht Hix. destruct (pt_frames _ _ _ (um_pt _ _ _ _ Hum) _ _ _ Ht) as (? & _).
    rewrite entry_zero_frame by done. case_decide; [|done]. subst. congruence.
  - intros t [k key] Ht. destruct (pt_frames _ _ _ (um_pt _ _ _ _ Hum) _ _ _ Ht) as (_ & _ & Hn).
    rewrite Hset. clear -Hn. set_solver.
  - cbn zeta. rewrite Hset, Hno. split_and!; try done.
    + unfold user_frame. simpl. rewrite Hno, Hset. split_and!; [done|lia|set_solver +|done].
    + rewrite list_elem_of_fmap. intros ([v f] & Heq & Hin). simpl in Heq. subst f.
      destruct (um_frames _ _ _ _ Hum _ _ Hin) as (_ & _ & _ & Hn & _).
      rewrite Hno in Hn. done.
    + apply set_eq. intros x. destruct (decide (x = g)); set_solver.
    + set_solver +.
    + set_solver +.
Qed.

(** ** Mapping *)

Definition page_flags_ok (fl : Z) : Prop := 0 <= fl < 2 ^ 64 /\ Z.land fl PHYS_MASK = 0.

(** The leaf entry [process_map_user] installs. *)
Definition user_pte (phys flags : Z) : Z := Z.lor phys (Z.lor (Z.lor flags VMM_PRESENT) VMM_USER).

Lemma user_flags_ok fl : page_flags_ok fl ->
  0 <= Z.lor (Z.lor fl VMM_PRESENT) VMM_USER < 2 ^ 64 /\
  Z.land (Z.lor (Z.lor fl VMM_PRESENT) VMM_USER) PHYS_MASK = 0.
Proof.
  intros [Hr Hm]. split.
  - repeat apply lor_bound; unfold VMM_PRESENT, VMM_USER; lia.
  - by rewrite !Z.land_lor_distr_l, Hm.
Qed.

Lemma user_pte_facts f fl : frame_addr f -> page_flags_ok fl ->
  has (user_pte f fl) VMM_PRESENT = true /\ Z.land (user_pte f fl) PHYS_MASK = f.
Proof.
  intros Hf Hfl. destruct (user_flags_ok fl Hfl) as [_ Hm]. unfold user_pte, VMM_PRESENT, VMM_USER in *.
  split.
  - rewrite !has_lor by lia. change (has (2 ^ 0) (2 ^ 0)) with true. by rewrite !orb_true_r.
  - apply mask_lor; [by apply frame_mask|done].
Qed.

(** Facts common to both outcomes of growing the tables. *)
Lemma ext_tables_bound root s G s' G' : vm_ext root s G s' G' ->
  (forall t x, G !! t = Some x -> frame_no t < total_frames (ms_pmm s)) ->
  forall t x, G' !! t = Some x -> frame_no t < total_frames (ms_pmm s').
Proof.
  intros He Hb t x Ht. rewrite (ext_total _ _ _ _ _ He).
  destruct (G !! t) as [y|] eqn:E; [by eapply Hb|].
  pose proof (ext_new _ _ _ _ _ He t x Ht E) as [Hf _]%elem_of_free_set. unfold frame_no. lia.
Qed.

Lemma ext_user_frame root s G s' G' f : vm_ext root s G s' G' -> user_frame s G f ->
  user_frame s' G' f.
Proof.
  intros He (Hf & Ht & Hn & HG). split_and!; [done| | |].
  - by rewrite (ext_total _ _ _ _ _ He).
  - pose proof (ext_free _ _ _ _ _ He). set_solver.
  - destruct (G' !! f) as [x|] eqn:E; [|done]. destruct Hn. by apply (ext_new _ _ _ _ _ He f x).
Qed.

Lemma ext_account root s G s' G' u : vm_ext root s G s' G' ->
  free_set (ms_pmm s') ∪ owned u G' = free_set (ms_pmm s) ∪ owned u G.
Proof.
  intros He. unfold owned. apply set_eq. intros x. rewrite !elem_of_union, !elem_of_table_frames.
  pose proof (ext_free _ _ _ _ _ He) as Hsub. split.
  - intros [H|[H|(t & y & Ht & ->)]]; [left; by apply Hsub|by right; left|].
    destruct (G !! t) as [z|] eqn:E; [by right; right; exists t, z|].
    left. by apply (ext_new _ _ _ _ _ He t y).
  - intros [H|[H|(t & y & Ht & ->)]]; [|by right; left|].
    + destruct (decide (x ∈ free_set (ms_pmm s'))) as [|Hn]; [by left|].
      destruct (ext_lost _ _ _ _ _ He x H Hn) as (t & y & Ht & <-). right; right. by exists t, y.
    + right; right. exists t, y. split; [|done]. by apply (lookup_weaken G G'); [|apply He].
Qed.

(** A frame [f] has been taken from the allocator but not yet recorded. *)
Definition um_pend (F : gset Z) (s : mstate) (p : process_t) (G : table_map) (f : Z) : Prop :=
  um_inv (F ∖ {[frame_no f]}) s p G /\ frame_no f ∈ F /\ user_frame s G f /\ f ∉ (umap p).*2.

Lemma owned_not_free F s p G x : um_inv F s p G -> x ∈ owned (umap p) G ->
  x ∉ free_set (ms_pmm s) /\ x < total_frames (ms_pmm s).
Proof.
  intros Hum. unfold owned. rewrite elem_of_union, elem_of_umap_frames, elem_of_table_frames.
  intros [(v & f & Hin & ->)|(t & [k key] & Ht & ->)].
  - destruct (um_frames _ _ _ _ Hum _ _ Hin) as (_ & _ & ? & ? & _). done.
  - destruct (pt_frames _ _ _ (um_pt _ _ _ _ Hum) _ _ _ Ht) as (_ & _ & Hn). split; [done|].
    by apply (um_tables _ _ _ _ Hum t (k, key)).
Qed.

Lemma um_alloc_pend F s p G f pm : um_inv F s p G -> pmm_alloc_frame (ms_pmm s) = (f, pm) ->
  f <> 0 -> let s1 := MState pm (zero_frame (ms_mem s) f) in
  um_pend F s1 p G f /\ same_map (cr3 p) s s1.
Proof.
  intros Hum Ha Hnz. cbn zeta.
  destruct (um_alloc F s p G f pm Hum Ha Hnz) as (Hok & Hpt & Hsame & Hf & Htot & Hnin & Hset & Hsub & Hno).
  assert (Hacc : free_set pm ∪ owned (umap p) G = F ∖ {[frame_no f]}).
  { rewrite <- (um_account _ _ _ _ Hum), Hset. apply set_eq. intros x.
    rewrite !elem_of_difference, !elem_of_union, elem_of_singleton. split.
    - intros [Hx|Hx]; (split; [auto|]); intros ->; [done|].
      destruct (owned_not_free _ _ _ _ _ Hum Hx) as [[] _]. rewrite Hset. set_solver +.
    - intros [[[?|?]|?] ?]; [done|by left|by right]. }
  split; [|done]. split_and!; [|rewrite <- (um_account _ _ _ _ Hum), Hset; set_solver +|done|done].
  split; [done|done| | |intros v g Hin|apply Hum|intros va Hv Hpr|done].
  - intros t x Ht. simpl. rewrite Htot. by apply (um_tables _ _ _ _ Hum t x).
  - apply Hum.
  - destruct (um_frames _ _ _ _ Hum _ _ Hin) as (? & ? & ? & Hn & ?). split; [done|].
    unfold user_frame. simpl. rewrite Htot. split_and!; try done. intros Hx. by apply Hn, Hsub.
  - unfold page_present in Hpr. rewrite Hsame in Hpr by done.
    destruct (um_present _ _ _ _ Hum va Hv Hpr) as (v & Hin & Hpg). exists v.
    by rewrite Hsame.
Qed.

(** Giving the pending frame back. *)
Lemma pend_free F s p G f : um_pend F s p G f ->
  um_inv F (free_frame_s s f) p G /\ same_map (cr3 p) s (free_frame_s s f).
Proof.
  intros (Hum & HF & (Hf & Ht & Hn & HG) & Hu).
  pose proof (um_ok _ _ _ _ Hum) as Hok. pose proof (free_frame_s_set s f Hok Hf Ht) as Hset.
  destruct (pt_inv_frame s (free_frame_s s f) (cr3 p) G (um_pt _ _ _ _ Hum)) as [Hpt Hsame].
  { done. }
  { intros t [k key] H. destruct (pt_frames _ _ _ (um_pt _ _ _ _ Hum) _ _ _ H) as (Hft & _ & Hnt).
    rewrite Hset, elem_of_union, elem_of_singleton. fold (frame_no t). intros [He|?]; [|done].
    apply frame_no_inj in He; [|done..]. subst. congruence. }
  split; [|done]. split; [by apply vm_ok_free|done| |apply Hum| |apply Hum|apply Hum|].
  - simpl. rewrite free_frame_total. apply Hum.
  - intros v g Hin. destruct (um_frames _ _ _ _ Hum _ _ Hin) as (? & Hg & ? & Hgn & ?).
    split; [done|]. split_and!; [done| | |done].
    + simpl. by rewrite free_frame_total.
    + rewrite Hset, elem_of_union, elem_of_singleton. intros [He|?]; [|done].
      apply frame_no_inj in He; [|done..]. subst. apply Hu, list_elem_of_fmap. by exists (v, f).
  - rewrite Hset, <- (assoc_L (∪)), (um_account _ _ _ _ Hum). apply set_eq. intros x.
    destruct (decide (x = frame_no f)); set_solver.
Qed.

(** The bytes of every frame backing user pages are left alone. *)
Definition keeps_data (s : mstate) (G : table_map) (s' : mstate) : Prop :=
  forall g a, user_frame s G g -> g <= a < g + PAGE_SIZE ->
    mem_get (ms_mem s') a = mem_get (ms_mem s) a.

Lemma ext_keeps_data root s G s' G' : vm_ext root s G s' G' -> pt_inv s' root G' ->
  keeps_data s G s'.
Proof.
  intros He Hpt g a Hg Ha. apply (ext_mem _ _ _ _ _ He). intros t [k key] Ht Hin.
  destruct (ext_user_frame _ _ _ _ _ g He Hg) as (Hf & _ & _ & HG).
  destruct (pt_frames _ _ _ Hpt _ _ _ Ht) as (Hft & _).
  assert (g <> t) by (intros ->; congruence).
  pose proof (frames_disjoint g t Hf Hft ltac:(done)). lia.
Qed.

(** Recording the pending frame by mapping it. *)
Lemma pend_map F s p G virt f flags st s' p' :
  um_pend F s p G f -> 0 <= virt -> page_flags_ok flags ->
  process_map_user s p virt f flags = (st, s', p') ->
  (st = VOID_OK /\ (exists G', um_inv F s' p' G') /\ p' = set_umap p (umap p ++ [(virt, f)]) /\
   user_half virt /\
   vmm_get_pte (ms_mem s') (cr3 p) virt = user_pte f flags /\ other_pages (cr3 p) virt s s' /\
   keeps_data s G s') \/
  (st = VOID_ERR_NOMEM /\ (exists G', um_pend F s' p' G' f) /\ p' = p /\ same_map (cr3 p) s s' /\
   keeps_data s G s').
Proof.
  intros Hpend Hv0 Hfl. unfold process_map_user.
  destruct (Z.leb_spec USER_LIMIT virt); [intros [= <- <- <-]; right; split_and!; [done|by exists G|done|done|done]|].
  destruct (Z.leb_spec UMAP_MAX (Z.of_nat (length (umap p)))); [intros [= <- <- <-]; right; split_and!; [done|by exists G|done|done|done]|].
  assert (Hv : user_half virt) by (unfold user_half, USER_LIMIT in *; lia).
  destruct Hpend as (Hum & HF & Huf & Hu). pose proof Huf as (Hf & Hft & Hfn & HG).
  destruct (vmm_map_page s (cr3 p) virt f _) as [r s1] eqn:Emap.
  apply (map_page_cases s (cr3 p) G) in Emap as (G' & Hok & Hpt & He & Hcase); try done;
    [|apply Hum|apply Hum|destruct Hf; lia|by apply user_flags_ok].
  rewrite (frame_mask f Hf) in Hcase. fold (user_pte f flags) in Hcase.
  pose proof (ext_tables_bound _ _ _ _ _ He (um_tables _ _ _ _ Hum)) as Htb.
  pose proof (ext_account _ _ _ _ _ (umap p) He) as Hacc.
  pose proof (ext_user_frame _ _ _ _ _ f He Huf) as Huf'.
  assert (Hfr : forall v g, (v, g) ∈ umap p -> user_half v /\ user_frame s1 G' g).
  { intros v g Hin. destruct (um_frames _ _ _ _ Hum _ _ Hin). split; [done|].
    by eapply ext_user_frame. }
  pose proof (ext_keeps_data _ _ _ _ _ He Hpt) as Hdata.
  destruct Hcase as [(-> & Hpte & Hoth)|(-> & _ & Hsame)]; cbn [negb Z.eqb VOID_OK VOID_ERR_NOMEM].
  - intros [= <- <- <-]. left. split_and!; try done. exists G'.
    destruct (user_pte_facts f flags Hf Hfl) as [Hpres Hmask].
    split; simpl; [done|done|done| | | | |].
    + rewrite length_app. simpl. lia.
    + intros v g [Hin|[= -> ->]%list_elem_of_singleton]%elem_of_app; [by apply Hfr|].
      by split.
    + rewrite fmap_app. apply NoDup_app. split_and!; [apply Hum| |apply NoDup_singleton].
      intros x Hx ->%list_elem_of_singleton. done.
    + intros va Hva Hpr. destruct (decide (page_of va = page_of virt)) as [Heq|Hne].
      * exists virt. split; [|done]. simpl in *.
        rewrite (get_pte_page _ _ va virt Heq), Hpte, Hmask. apply elem_of_app. right.
        by apply list_elem_of_singleton.
      * unfold page_present in Hpr. simpl in *. rewrite Hoth in Hpr |- * by done.
        destruct (um_present _ _ _ _ Hum va Hva Hpr) as (v & Hin & ?). exists v.
        split; [|done]. apply elem_of_app. by left.
    + rewrite (um_account _ _ _ _ Hum) in Hacc. unfold owned, umap_frames in *.
      rewrite fmap_app, list_to_set_app_L. simpl. by apply set_give_back.
  - intros [= <- <- <-]. right. split_and!; try done. exists G'. split_and!; try done.
    split; try done; try apply Hum.
    + intros va Hva Hpr. unfold page_present in Hpr. rewrite Hsame in Hpr |- * by done.
      by apply (um_present _ _ _ _ Hum).
    + rewrite Hacc. apply Hum.
Qed.

(** The contents of the pages a process has are left alone. *)
Definition keeps_umap (s : mstate) (p : process_t) (s' : mstate) : Prop :=
  forall v g a, (v, g) ∈ umap p -> g <= a < g + PAGE_SIZE ->
    mem_get (ms_mem s') a = mem_get (ms_mem s) a.

Lemma keeps_umap_trans s p s1 p1 s2 : keeps_umap s p s1 -> umap p ⊆ umap p1 ->
  keeps_umap s1 p1 s2 -> keeps_umap s p s2.
Proof. intros H1 Hs H2 v g a Hin Ha. rewrite (H2 v g) by eauto. by apply (H1 v g). Qed.

Lemma zero_keeps_umap F s p G f pm : um_pend F (MState pm (zero_frame (ms_mem s) f)) p G f ->
  keeps_umap s p (MState pm (zero_frame (ms_mem s) f)).
Proof.
  intros (Hum & _ & (Hf & _) & Hu) v g a Hin Ha. simpl. unfold zero_frame.
  destruct (um_frames _ _ _ _ Hum v g Hin) as (_ & Hg & _).
  assert (f <> g).
  { intros ->. apply Hu, list_elem_of_fmap. by exists (v, g). }
  pose proof (frames_disjoint f g Hf Hg ltac:(done)).
  apply mem_get_write_out. rewrite length_zero_page. unfold PAGE_SIZE in *. lia.
Qed.

Lemma keeps_data_umap F s p G s' : um_inv F s p G -> keeps_data s G s' -> keeps_umap s p s'.
Proof.
  intros Hum Hd v g a Hin Ha. destruct (um_frames _ _ _ _ Hum v g Hin). by apply (Hd g).
Qed.

Definition zero_bytes (s : mstate) (f : Z) : Prop :=
  forall a, f <= a < f + PAGE_SIZE -> mem_get (ms_mem s) a = 0.

(** [process_alloc_user_page]: on success the page is backed by a fresh zeroed
  frame recorded in [umap]; on failure nothing is mapped or lost. *)
Lemma alloc_user_spec F s p G virt flags st s' p' :
  um_inv F s p G -> 0 <= virt -> page_flags_ok flags ->
  process_alloc_user_page s p virt flags = (st, s', p') ->
  (exists G', um_inv F s' p' G') /\ keeps_umap s p s' /\
  ((st = VOID_OK /\ user_half virt /\ other_pages (cr3 p) virt s s' /\
   exists f, p' = set_umap p (umap p ++ [(virt, f)]) /\
     vmm_get_pte (ms_mem s') (cr3 p) virt = user_pte f flags /\ frame_addr f /\
     frame_no f ∈ free_set (ms_pmm s) /\ zero_bytes s' f) \/
  (st = VOID_ERR_NOMEM /\ p' = p /\ same_map (cr3 p) s s')).
Proof.
  intros Hum Hv Hfl. unfold process_alloc_user_page.
  destruct (pmm_alloc_frame (ms_pmm s)) as [f pm] eqn:Ha.
  destruct (Z.eqb_spec f 0) as [->|Hnz].
  { pose proof (alloc_frame_cases _ (inv_wf _ (vm_pmm _ (um_ok _ _ _ _ Hum)))) as Hc.
    rewrite Ha in Hc. destruct Hc as [(g & [Hg _] & _ & Hr & _)|(_ & _ & ->)].
    { assert (g = 0) as -> by (unfold PAGE_SIZE in *; lia). by destruct (vm_zero _ (um_ok _ _ _ _ Hum)). }
    intros [= <- <- <-]. destruct s; split_and!; [by exists G|done|by right]. }
  destruct (um_alloc F s p G f pm Hum Ha Hnz) as (_ & _ & _ & _ & _ & _ & Hset & _).
  destruct (um_alloc_pend F s p G f pm Hum Ha Hnz) as [Hpend Hs1].
  pose proof (zero_keeps_umap F s p G f pm Hpend) as Hk1.
  set (s1 := MState pm (zero_frame (ms_mem s) f)) in *.
  destruct (process_map_user s1 p virt f flags) as [[r s2] p2] eqn:Em.
  pose proof (pend_map F s1 p G virt f flags r s2 p2 Hpend Hv Hfl Em) as Hm.
  assert (Hk2 : keeps_data s1 G s2) by (destruct Hm as [(_ & _ & _ & _ & _ & _ & H)|(_ & _ & _ & _ & H)]; done).
  pose proof (keeps_data_umap _ _ _ _ _ (proj1 Hpend) Hk2) as Hk3.
  pose proof (keeps_umap_trans _ _ _ _ _ Hk1 ltac:(done) Hk3) as Hk.
  destruct Hm as [(-> & Hi & -> & Hvh & Hpte & Hoth & Hdata)|(-> & (G' & Hp) & -> & Hsame & Hdata)];
    cbn [negb Z.eqb VOID_OK VOID_ERR_NOMEM]; intros [= <- <- <-].
  - split_and!; [done|done|]. left. split_and!; [done|done| |].
    + intros va Hva Hne. rewrite Hoth, Hs1 by done. done.
    + exists f. destruct Hpend as (_ & _ & Hf & _). split_and!; [done|done|by destruct Hf| |].
      * rewrite Hset. set_solver +.
      * intros a Hra. rewrite (Hdata f a Hf Hra). apply mem_get_zero_frame. unfold PAGE_SIZE in Hra. lia.
  - destruct (pend_free _ _ _ _ _ Hp) as [Hum' Hs2].
    split_and!; [by exists G'|done|]. right. split_and!; [done|done|].
    eapply same_map_trans, Hs2. by eapply same_map_trans.
Qed.

(** ** Releasing *)

Lemma release_account F s p G v f u : um_inv F s p G -> umap p = (v, f) :: u ->
  free_set (ms_pmm s) ∪ owned u G = F ∖ {[frame_no f]} /\ frame_no f ∈ F /\ f ∉ u.*2.
Proof.
  intros Hum Hu. pose proof (um_account _ _ _ _ Hum) as Hacc. pose proof (um_nodup _ _ _ _ Hum) as Hnd.
  pose proof (um_frames _ _ _ _ Hum) as Hfr. rewrite Hu in Hacc, Hnd, Hfr.
  destruct (Hfr v f) as (_ & Hf & _ & Hn & HG); [set_solver +|].
  rewrite fmap_cons in Hnd. apply NoDup_cons in Hnd as [Hnin _]. cbn [snd] in Hnin.
  unfold owned in *. rewrite umap_frames_cons in Hacc.
  assert (Hu' : frame_no f ∉ umap_frames u).
  { rewrite elem_of_umap_frames. intros (v' & f' & Hin & He).
    destruct (Hfr v' f') as (_ & Hf' & _); [set_solver|].
    apply frame_no_inj in He; [|done..]. subst. apply Hnin, list_elem_of_fmap. by exists (v', f'). }
  assert (Ht : frame_no f ∉ table_frames G).
  { rewrite elem_of_table_frames. intros (t & [k key] & Ht & He).
    destruct (pt_frames _ _ _ (um_pt _ _ _ _ Hum) _ _ _ Ht) as (Hft & _).
    apply frame_no_inj in He; [|done..]. subst. congruence. }
  clear - Hacc Hn Hu' Ht Hnin. split_and!; [|set_solver|done].
  rewrite <- Hacc. apply set_eq. intros x. destruct (decide (x = frame_no f)); set_solver.
Qed.

Lemma release_page_head F s p G v f u : um_inv F s p G -> umap p = (v, f) :: u ->
  let s' := release_page s (cr3 p) (v, f) in
  um_inv F s' (set_umap p u) G /\ other_pages (cr3 p) v s s' /\ page_present s' p v = false /\
  free_set (ms_pmm s') = {[frame_no f]} ∪ free_set (ms_pmm s).
Proof.
  intros Hum Hu. destruct (release_account _ _ _ _ _ _ _ Hum Hu) as (Hacc & HF & Hnin).
  pose proof (um_frames _ _ _ _ Hum) as Hfr. rewrite Hu in Hfr.
  destruct (Hfr v f) as (Hv & Huf); [set_solver +|].
  unfold release_page.
  pose proof (unmap_cases s (cr3 p) G v (um_ok _ _ _ _ Hum) (um_pt _ _ _ _ Hum) Hv) as Hc.
  destruct (vmm_unmap_page s (cr3 p) v) as [r s1]. destruct Hc as (Hok & Hpt & He & Hpm & Hoth & Hc).
  assert (Hnp : page_present s1 p v = false).
  { unfold page_present. destruct (has (vmm_get_pte (ms_mem s) (cr3 p) v) VMM_PRESENT) eqn:E.
    - by destruct Hc as [_ ->].
    - destruct Hc as [_ ->]. done. }
  assert (Hpend : um_pend F s1 (set_umap p u) G f).
  { split_and!; [|done| |done].
    2: { destruct Huf as (? & ? & ? & ?). split_and!; try done; by rewrite Hpm. }
    split; simpl; try rewrite Hpm; try done; try apply Hum.
    - pose proof (um_len _ _ _ _ Hum) as Hl. rewrite Hu in Hl. simpl in Hl. lia.
    - intros v' f' Hin. destruct (Hfr v' f') as (? & ?); [by right|].
      split; [done|]. unfold user_frame. by rewrite Hpm.
    - pose proof (um_nodup _ _ _ _ Hum) as Hnd. rewrite Hu in Hnd. by apply NoDup_cons in Hnd as [_ ?].
    - intros va Hva Hpr. destruct (decide (page_of va = page_of v)) as [Heq|Hne].
      { unfold page_present in *. simpl in Hpr. rewrite (get_pte_page _ _ va v Heq) in Hpr. congruence. }
      unfold page_present in Hpr. simpl in *. rewrite Hoth in Hpr |- * by done.
      destruct (um_present _ _ _ _ Hum va Hva Hpr) as (v2 & Hin & Hpg). exists v2. split; [|done].
      rewrite Hu in Hin. apply elem_of_cons in Hin as [[= -> _]|?]; done. }
  destruct (pend_free _ _ _ _ _ Hpend) as [Hum' Hsame].
  destruct Huf as (Hf & Ht & _). rewrite <- Hpm in Ht |- *. split_and!; [done| | |].
  - intros va Hva Hne. rewrite <- Hoth by done. by apply Hsame.
  - by rewrite <- Hnp.
  - by apply free_frame_s_set.
Qed.

Lemma umap_remove_perm l i : 0 <= i < Z.of_nat (length l) ->
  l ≡ₚ zget (0, 0) l i :: umap_remove l i.
Proof.
  intros Hi. unfold umap_remove.
  destruct (exists_last (l := l)) as (l0 & x & ->); [intros ->; simpl in Hi; lia|].
  rewrite length_app in *. simpl in *.
  replace (Z.to_nat (Z.of_nat (length l0 + 1) - 1)) with (length l0) by lia.
  assert (Hlast : zget (0, 0) (l0 ++ [x]) (Z.of_nat (length l0 + 1) - 1) = x).
  { rewrite zget_lookup. replace (Z.to_nat _) with (length l0) by lia. by rewrite list_lookup_middle. }
  rewrite Hlast. unfold zset.
  destruct (decide (Z.to_nat i < length l0)%nat) as [Hlt|Hge].
  - rewrite insert_app_l, take_app_length' by (rewrite ?length_insert; lia).
    rewrite zget_lookup, lookup_app_l by lia.
    destruct (lookup_lt_is_Some_2 l0 (Z.to_nat i) Hlt) as [y Hy]. rewrite Hy. simpl.
    rewrite insert_take_drop by done. rewrite <- (take_drop_middle l0 _ y Hy) at 1.
    rewrite <- Permutation_cons_append, <- !Permutation_middle. apply perm_swap.
  - assert (Z.to_nat i = length l0) as -> by lia.
    rewrite zget_lookup. replace (Z.to_nat i) with (length l0) by lia. rewrite list_lookup_middle by done.
    simpl. rewrite take_insert_ge by lia. rewrite take_app_length.
    by rewrite <- Permutation_cons_append.
Qed.

Lemma set_umap_id p : set_umap p (umap p) = p.
Proof. by destruct p. Qed.

Lemma release_page_at F s p G i : um_inv F s p G -> 0 <= i < Z.of_nat (length (umap p)) ->
  let e := zget (0, 0) (umap p) i in
  let s' := release_page s (cr3 p) e in
  um_inv F s' (set_umap p (umap_remove (umap p) i)) G /\
  other_pages (cr3 p) e.1 s s' /\ page_present s' p e.1 = false /\
  free_set (ms_pmm s') = {[frame_no e.2]} ∪ free_set (ms_pmm s).
Proof.
  intros Hum Hi. cbn zeta. pose proof (umap_remove_perm (umap p) i Hi) as Hp.
  destruct (zget (0, 0) (umap p) i) as [v f]. pose proof (um_inv_perm _ _ _ _ _ Hum Hp) as Hum'.
  by apply (release_page_head F s _ G v f _ Hum').
Qed.

Lemma release_absent root s s' va v : other_pages root v s s' ->
  has (vmm_get_pte (ms_mem s') root v) VMM_PRESENT = false -> user_half va ->
  has (vmm_get_pte (ms_mem s) root va) VMM_PRESENT = false ->
  has (vmm_get_pte (ms_mem s') root va) VMM_PRESENT = false.
Proof.
  intros Ho Hv Hva H. destruct (decide (page_of va = page_of v)) as [He|Hne].
  - by rewrite (get_pte_page _ _ va v He).
  - by rewrite Ho.
Qed.

(** What releasing the entries selected by [sel] achieves. *)
Record released (F : gset Z) (sel : Z -> bool) (s : mstate) (p : process_t) (G : table_map)
    (s' : mstate) (p' : process_t) : Prop := {
  rel_inv : um_inv F s' p' G;
  rel_proc : p' = set_umap p (umap p');
  rel_kept : umap p' ≡ₚ filter (fun e => sel e.1 = false) (umap p);
  rel_gone : forall v f, (v, f) ∈ umap p -> sel v = true -> page_present s' p v = false;
  rel_same : forall va, user_half va ->
    (forall v f, (v, f) ∈ umap p -> sel v = true -> page_of v <> page_of va) ->
    vmm_get_pte (ms_mem s') (cr3 p) va = vmm_get_pte (ms_mem s) (cr3 p) va;
  rel_absent : forall va, user_half va -> page_present s p va = false -> page_present s' p va = false;
  rel_free : free_set (ms_pmm s') =
    umap_frames (filter (fun e => sel e.1 = true) (umap p)) ∪ free_set (ms_pmm s)
}.

(** Selecting nothing changes nothing. *)
Lemma released_none F sel s p G : um_inv F s p G ->
  (forall v f, (v, f) ∈ umap p -> sel v = false) -> released F sel s p G s p.
Proof.
  intros Hum Hn. split; try done.
  - by rewrite set_umap_id.
  - rewrite filter_all; [done|]. intros [v f] H. simpl. eauto.
  - intros v f Hin Hs. by rewrite (Hn v f) in Hs.
  - rewrite filter_none; [set_solver +|]. intros [v f] H. simpl. by rewrite (Hn v f).
Qed.

(** Releasing one selected entry first. *)
Lemma released_step F sel s p G i s' p' : um_inv F s p G ->
  0 <= i < Z.of_nat (length (umap p)) -> let e := zget (0, 0) (umap p) i in
  sel e.1 = true ->
  released F sel (release_page s (cr3 p) e) (set_umap p (umap_remove (umap p) i)) G s' p' ->
  released F sel s p G s' p'.
Proof.
  intros Hum Hi e Hsel [R1 R2 R3 R4 R5 R6 R7].
  pose proof (release_page_at F s p G i Hum Hi) as (_ & Hoth & Hgone & Hfree).
  pose proof (umap_remove_perm (umap p) i Hi) as Hp. fold e in Hoth, Hgone, Hfree, Hp.
  cbn [set_umap umap cr3] in *. destruct e as [v0 f0]. cbn [fst snd] in *.
  set (u := umap_remove (umap p) i) in *. clearbody u.
  assert (Hv0 : user_half v0).
  { destruct (um_frames _ _ _ _ Hum v0 f0); [|done]. rewrite Hp. by left. }
  split; try done.
  - rewrite R3. rewrite Hp. rewrite filter_cons_False by (simpl; congruence). done.
  - intros v f Hin Hs. rewrite Hp in Hin. apply elem_of_cons in Hin as [[= -> ->]|Hin].
    + by apply R6.
    + by eapply R4.
  - intros va Hva Hne. rewrite R5; [|done|].
    + apply Hoth; [done|]. intros Heq. apply (Hne v0 f0); [rewrite Hp; by left|done|done].
    + intros v f Hin. apply (Hne v f). rewrite Hp. by right.
  - intros va Hva Ha. apply R6; [done|]. by apply (release_absent (cr3 p) s _ va v0).
  - rewrite R7, Hfree. rewrite (umap_frames_perm (filter _ (umap p)) ((v0, f0) :: filter (fun e => sel e.1 = true) u)).
    + rewrite umap_frames_cons. cbn [fst snd]. set_solver +.
    + rewrite Hp at 1. by rewrite filter_cons_True.
Qed.

Lemma umap_remove_length l i : 0 <= i < Z.of_nat (length l) ->
  Z.of_nat (length (umap_remove l i)) = Z.of_nat (length l) - 1.
Proof. intros H. pose proof (Permutation_length (umap_remove_perm l i H)) as Hl. simpl in Hl. lia. Qed.

Lemma umap_remove_before l i j : 0 <= j < i -> i < Z.of_nat (length l) ->
  zget (0, 0) (umap_remove l i) j = zget (0, 0) l j.
Proof.
  intros Hj Hi. unfold umap_remove. rewrite !zget_lookup, lookup_take_lt by lia.
  unfold zset. by rewrite list_lookup_insert_ne by lia.
Qed.

Lemma release_loop_spec F start n : forall s p G i,
  um_inv F s p G -> 0 <= i <= Z.of_nat (length (umap p)) ->
  Z.of_nat (length (umap p)) - i <= Z.of_nat n ->
  (forall j, 0 <= j < i -> in_release_range start (zget (0, 0) (umap p) j).1 = false) ->
  let '(s', p') := release_loop n s p start i in
  released F (in_release_range start) s p G s' p'.
Proof.
  assert (Hdone : forall s p G i, um_inv F s p G -> Z.of_nat (length (umap p)) <= i ->
    (forall j, 0 <= j < i -> in_release_range start (zget (0, 0) (umap p) j).1 = false) ->
    released F (in_release_range start) s p G s p).
  { intros s p G i Hum Hi Hbefore. apply released_none; [done|].
    intros v f [j Hj]%list_elem_of_lookup. specialize (Hbefore (Z.of_nat j)).
    rewrite zget_lookup, Nat2Z.id, Hj in Hbefore. apply Hbefore. apply lookup_lt_Some in Hj. lia. }
  induction n as [|n IH]; intros s p G i Hum Hi Hn Hbefore; cbn [release_loop].
  { apply (Hdone s p G i); [done|lia|done]. }
  destruct (Z.ltb_spec i (Z.of_nat (length (umap p)))) as [Hlt|]; [|by apply (Hdone s p G i)].
  destruct (in_release_range start (zget (0, 0) (umap p) i).1) eqn:Hsel.
  - specialize (IH (release_page s (cr3 p) (zget (0, 0) (umap p) i))
                  (set_umap p (umap_remove (umap p) i)) G i).
    cbn [set_umap umap] in IH. rewrite umap_remove_length in IH by lia.
    destruct (release_loop n _ _ start i) as [s' p']. apply (released_step F _ s p G i); [done|lia|done|].
    apply IH; [apply release_page_at; [done|lia]|lia|lia|].
    intros j Hj. rewrite umap_remove_before by lia. by apply Hbefore.
  - apply IH; [done|lia|lia|]. intros j Hj. destruct (decide (j = i)) as [->|]; [done|].
    apply Hbefore. lia.
Qed.

Lemma release_from_spec F s p G start : um_inv F s p G ->
  let '(s', p') := um_release_from s p start in
  released F (in_release_range start) s p G s' p'.
Proof.
  intros Hum. unfold um_release_from.
  pose proof (release_loop_spec F start (length (umap p)) s p G 0 Hum) as H.
  apply H; [lia..|intros; lia].
Qed.

(** ** The heap *)

Lemma page_of_next va : page_of (va + PAGE_SIZE) = page_of va + 1.
Proof. unfold page_of, PAGE_SIZE. replace (va + 4096) with (va + 1 * 4096) by lia. by rewrite Z.div_add. Qed.

(** The result of growing from [va] to [new_brk]: [added] are the new pages. *)
Record grown (F : gset Z) (s : mstate) (p : process_t) (va new_brk : Z)
    (r : Z) (s' : mstate) (p' : process_t) : Prop := {
  gr_inv : exists G', um_inv F s' p' G';
  gr_proc : p' = set_umap p (umap p');
  gr_umap : exists added, umap p' = umap p ++ added /\ Forall (fun e => va <= e.1 < new_brk) added;
  gr_data : keeps_umap s p s';
  gr_below : forall w, user_half w -> page_of w < page_of va ->
    vmm_get_pte (ms_mem s') (cr3 p) w = vmm_get_pte (ms_mem s) (cr3 p) w;
  gr_result : (r = 0 /\ (va < new_brk -> va mod PAGE_SIZE = 0 ->
                 forall w, va <= w < new_brk -> page_present s' p w = true)) \/
              (r = - VE_NOMEM /\ va < new_brk)
}.

Lemma grown_done F s p G va new_brk : um_inv F s p G -> new_brk <= va ->
  grown F s p va new_brk 0 s p.
Proof.
  intros Hum Hge. split; [by exists G|by rewrite set_umap_id| |done|done|].
  - exists []. by rewrite app_nil_r.
  - left. split; [done|lia].
Qed.

Lemma grown_step F s p va f s1 new_brk r s' p' : va < new_brk -> user_half va ->
  other_pages (cr3 p) va s s1 -> page_present s1 p va = true -> keeps_umap s p s1 ->
  grown F s1 (set_umap p (umap p ++ [(va, f)])) (va + PAGE_SIZE) new_brk r s' p' ->
  grown F s p va new_brk r s' p'.
Proof.
  intros Hlt Hvh Hoth Hpres Hk [Hi Hp (added & Ha & Hall) Hk' Hb Hr]. cbn [umap set_umap cr3] in *.
  assert (Hlow : forall w, user_half w -> page_of w <= page_of va ->
    vmm_get_pte (ms_mem s') (cr3 p) w = vmm_get_pte (ms_mem s1) (cr3 p) w).
  { intros w Hw Hle. apply Hb; [done|]. rewrite page_of_next. lia. }
  split; [done|by rewrite Hp| | | |].
  - exists ((va, f) :: added). rewrite Ha, <- app_assoc. split; [done|].
    constructor; [simpl; lia|]. eapply Forall_impl; [done|]. unfold PAGE_SIZE. simpl. intros; lia.
  - eapply keeps_umap_trans; [done| |done]. simpl. intros x Hx. apply elem_of_app. by left.
  - intros w Hw Hlt'. rewrite Hlow by (done || lia). apply Hoth; [done|lia].
  - destruct Hr as [[-> Hr]|[-> ?]]; [|right; by split]. left. split; [done|].
    intros _ Hal w Hw. destruct (decide (page_of w = page_of va)) as [He|Hne].
    + unfold page_present. rewrite (get_pte_page _ _ w va He), Hlow by (done || lia). apply Hpres.
    + assert (va + PAGE_SIZE <= w).
      { unfold page_of, PAGE_SIZE in *. pose proof (Z.div_mod va 4096 ltac:(lia)).
        pose proof (Z.div_mod w 4096 ltac:(lia)). pose proof (Z.mod_pos_bound w 4096 ltac:(lia)).
        assert (va / 4096 <= w / 4096) by (apply Z.div_le_mono; lia). lia. }
      apply Hr; [lia| |lia]. unfold PAGE_SIZE in *. by rewrite Z.add_mod, Hal.
Qed.

(** The growth loop ends: every turn adds a [umap] entry or stops. *)
Lemma brk_grow_loop_spec F fuel : forall s p G va new_brk,
  um_inv F s p G -> page_flags_ok (brk_perm p) -> 0 <= va < 2 ^ 64 ->
  (Z.of_nat fuel > UMAP_MAX - Z.of_nat (length (umap p))) ->
  exists r s' p', brk_grow_loop fuel s p va new_brk = Some (r, s', p') /\
    grown F s p va new_brk r s' p'.
Proof.
  induction fuel as [|fuel IH]; intros s p G va new_brk Hum Hfl Hva Hfuel.
  { pose proof (um_len _ _ _ _ Hum). lia. }
  cbn [brk_grow_loop]. destruct (Z.ltb_spec va new_brk) as [Hlt|Hge].
  2: { exists 0, s, p. split; [done|]. by eapply grown_done. }
  destruct (process_alloc_user_page s p va (brk_perm p)) as [[st s1] p1] eqn:Ea.
  apply (alloc_user_spec F s p G) in Ea; [|done|lia|done].
  destruct Ea as ([G1 Hum1] & Hk & [(-> & Hvh & Hoth & f & -> & Hpte & Hf & _)|(-> & -> & Hsame)]);
    cbn [negb Z.eqb VOID_OK VOID_ERR_NOMEM].
  2: { exists (- VE_NOMEM), s1, p. split; [done|]. split; [by exists G1|by rewrite set_umap_id| |done| |by right].
       - exists []. by rewrite app_nil_r.
       - intros. by apply Hsame. }
  assert (Hnext : u64 (va + PAGE_SIZE) = va + PAGE_SIZE).
  { unfold user_half in Hvh. apply u64_id. unfold PAGE_SIZE. lia. }
  rewrite Hnext. destruct (IH s1 (set_umap p (umap p ++ [(va, f)])) G1 (va + PAGE_SIZE) new_brk)
    as (r & s' & p' & -> & Hg); try done.
  { unfold user_half, PAGE_SIZE in *. lia. }
  { cbn [umap set_umap]. rewrite length_app. cbn [length]. lia. }
  exists r, s', p'. split; [done|]. apply (grown_step F s p va f s1); try done.
  unfold page_present. rewrite Hpte. by apply user_pte_facts.
Qed.

(** ** Page ranges *)

Definition aligned (a : Z) : Prop := a mod PAGE_SIZE = 0.

Lemma elem_of_pages_from base end_ x :
  x ∈ pages_from base end_ <-> exists k, 0 <= k /\ x = base + k * PAGE_SIZE /\ x < end_.
Proof.
  unfold pages_from. rewrite list_elem_of_fmap. setoid_rewrite elem_of_range. unfold PAGE_SIZE.
  pose proof (Z.div_mod (end_ - base + (4096 - 1)) 4096 ltac:(lia)).
  pose proof (Z.mod_pos_bound (end_ - base + (4096 - 1)) 4096 ltac:(lia)). split.
  - intros (k & -> & Hk). exists k. lia.
  - intros (k & Hk & -> & Hlt). exists k. lia.
Qed.

Lemma land_page_mask a : 0 <= a < 2 ^ 64 -> Z.land a PAGE_MASK = a - a mod PAGE_SIZE.
Proof.
  intros Ha. exact (land_high_mask a 12 ltac:(lia) Ha).
Qed.

Lemma land_page_low a : Z.land a (PAGE_SIZE - 1) = a mod PAGE_SIZE.
Proof. change (PAGE_SIZE - 1) with (Z.ones 12). by rewrite Z.land_ones. Qed.

Lemma land_page_mask_aligned a : 0 <= a < 2 ^ 64 -> aligned a -> Z.land a PAGE_MASK = a.
Proof. intros Ha Hal. rewrite land_page_mask by done. unfold aligned in Hal. lia. Qed.

(** [page_up] rounds up when it does not wrap. *)
Lemma page_up_spec x : 0 <= x -> x + PAGE_SIZE <= 2 ^ 64 ->
  aligned (page_up x) /\ x <= page_up x < x + PAGE_SIZE.
Proof.
  intros H0 H1. unfold page_up, aligned. unfold PAGE_SIZE in *. rewrite u64_id by lia.
  rewrite land_page_mask by lia. unfold PAGE_SIZE.
  pose proof (Z.div_mod (x + 4096 - 1) 4096 ltac:(lia)).
  pose proof (Z.mod_pos_bound (x + 4096 - 1) 4096 ltac:(lia)).
  split; [|lia]. replace (x + 4096 - 1 - _) with (((x + 4096 - 1) / 4096) * 4096) by lia.
  apply Z.mod_mul. lia.
Qed.

Lemma page_present_page s p v v' : page_of v = page_of v' -> page_present s p v = page_present s p v'.
Proof. intros H. unfold page_present. by rewrite (get_pte_page _ _ v v'). Qed.

Lemma aligned_add v k : aligned v -> aligned (v + k * PAGE_SIZE).
Proof. unfold aligned, PAGE_SIZE. intros. by rewrite Z.mod_add. Qed.

Lemma page_of_offset v r : aligned v -> 0 <= r < PAGE_SIZE -> page_of (v + r) = page_of v.
Proof.
  unfold aligned, page_of, PAGE_SIZE. intros Ha Hr. pose proof (Z.div_mod v 4096 ltac:(lia)).
  symmetry. apply (Z.div_unique_pos _ _ _ r); lia.
Qed.

(** [um_range_clear] decides that no page of an aligned-start range is present. *)
Lemma range_clear_true s p start end_ : cr3 p <> 0 -> 0 <= start < 2 ^ 64 -> aligned start ->
  um_range_clear s p start end_ = true <->
  (forall va, start <= va < end_ -> page_present s p va = false).
Proof.
  intros Hc Hs Hal. unfold um_range_clear. rewrite (proj2 (Z.eqb_neq _ _) Hc).
  destruct (Z.leb_spec end_ start); [split; [intros _ va ?; lia|done]|].
  rewrite land_page_mask_aligned by done. rewrite forallb_forall. split.
  - intros Hall va Hva. set (v := start + (va - start) / PAGE_SIZE * PAGE_SIZE).
    pose proof (Z.div_mod (va - start) PAGE_SIZE ltac:(unfold PAGE_SIZE; lia)) as Hdm.
    pose proof (Z.mod_pos_bound (va - start) PAGE_SIZE ltac:(unfold PAGE_SIZE; lia)) as Hmb.
    assert (0 <= (va - start) / PAGE_SIZE) by (apply Z.div_pos; unfold PAGE_SIZE; lia).
    assert (Hv : v ∈ pages_from start end_).
    { apply elem_of_pages_from. exists ((va - start) / PAGE_SIZE). unfold v. lia. }
    apply list_elem_of_In, Hall, negb_true_iff in Hv. rewrite <- Hv. apply page_present_page.
    replace va with (v + (va - start) mod PAGE_SIZE) by (unfold v; lia).
    apply page_of_offset; [by apply aligned_add|done].
  - intros Hall v Hv%list_elem_of_In. apply elem_of_pages_from in Hv as (k & Hk & -> & Hlt).
    rewrite Hall; [done|]. unfold PAGE_SIZE in *. lia.
Qed.

(** The scan returns the last present page of the window, or its base. *)
Lemma highest_fold s p base n : forall lo acc,
  let r := foldl (fun occ va => if page_present s p va then va else occ) acc
             ((fun k => base + k * PAGE_SIZE) <$> range lo (lo + Z.of_nat n)) in
  (r = acc /\ forall k, lo <= k < lo + Z.of_nat n -> page_present s p (base + k * PAGE_SIZE) = false) \/
  (exists k, lo <= k < lo + Z.of_nat n /\ r = base + k * PAGE_SIZE /\ page_present s p r = true /\
     forall j, k < j < lo + Z.of_nat n -> page_present s p (base + j * PAGE_SIZE) = false).
Proof.
  induction n as [|n IH]; intros lo acc.
  { rewrite range_nil by lia. left. split; [done|lia]. }
  rewrite range_cons by lia. rewrite fmap_cons. cbn [foldl].
  replace (lo + Z.of_nat (S n)) with (lo + 1 + Z.of_nat n) by lia.
  specialize (IH (lo + 1) (if page_present s p (base + lo * PAGE_SIZE) then base + lo * PAGE_SIZE else acc)).
  cbn zeta in *. destruct IH as [[Hr Hall]|(k & Hk & Hr & Hp & Hall)].
  - rewrite Hr. destruct (page_present s p (base + lo * PAGE_SIZE)) eqn:E.
    + right. exists lo. split_and!; [lia|lia|done|done|]. intros j Hj. apply Hall. lia.
    + left. split; [done|]. intros k Hk. destruct (decide (k = lo)) as [->|]; [done|]. apply Hall. lia.
  - right. exists k. split_and!; [lia|lia|done|done|]. intros j Hj. apply Hall. lia.
Qed.

Lemma highest_occupied_spec s p base n : cr3 p <> 0 -> 0 <= base < 2 ^ 64 -> aligned base -> 0 <= n ->
  um_range_clear s p base (base + n * PAGE_SIZE) = false ->
  let r := highest_occupied s p base (base + n * PAGE_SIZE) in
  base <= r < base + n * PAGE_SIZE /\ aligned r /\ page_present s p r = true.
Proof.
  intros Hc Hb Hal Hn Hnc. cbn zeta. unfold highest_occupied, pages_from.
  replace ((base + n * PAGE_SIZE - base + (PAGE_SIZE - 1)) / PAGE_SIZE) with n.
  2: { unfold PAGE_SIZE. apply (Z.div_unique_pos _ _ _ (4096 - 1)); lia. }
  pose proof (highest_fold s p base (Z.to_nat n) 0 base) as H.
  rewrite Z2Nat.id, Z.add_0_l in H by done. destruct H as [[_ Hall]|(k & Hk & Hr & Hp & _)].
  - exfalso. assert (Ht : um_range_clear s p base (base + n * PAGE_SIZE) = true); [|congruence].
    apply range_clear_true; [done..|]. intros va Hva. set (k := (va - base) / PAGE_SIZE).
    rewrite <- (Hall k).
    + apply page_present_page. replace va with (base + k * PAGE_SIZE + (va - base) mod PAGE_SIZE).
      * apply page_of_offset; [by apply aligned_add|]. apply Z.mod_pos_bound. unfold PAGE_SIZE; lia.
      * pose proof (Z.div_mod (va - base) PAGE_SIZE ltac:(unfold PAGE_SIZE; lia)). unfold k. lia.
    + unfold k. split; [apply Z.div_pos; unfold PAGE_SIZE; lia|].
      apply Z.div_lt_upper_bound; unfold PAGE_SIZE in *; lia.
  - set (r := foldl _ _ _) in *. clearbody r. subst r.
    split_and!; [unfold PAGE_SIZE; lia|unfold PAGE_SIZE; lia|by apply aligned_add|done].
Qed.

(** ** Reserving an anonymous mapping *)

(** Recorded pages below the top of the window: what is left to skip. *)
Definition pages_below (p : process_t) (top : Z) : nat :=
  length (filter (fun e => page_of e.1 < page_of top) (umap p)).

Definition window_clear (s : mstate) (p : process_t) (base n : Z) : Prop :=
  forall va, base <= va < base + n * PAGE_SIZE -> page_present s p va = false.

Lemma pages_below_lt F s p G occ top : um_inv F s p G -> user_half occ ->
  page_present s p occ = true -> page_of occ < page_of top ->
  (pages_below p occ < pages_below p top)%nat.
Proof.
  intros Hum Ho Hp Hlt. destruct (um_present _ _ _ _ Hum occ Ho Hp) as (v & Hin & Hpg).
  unfold pages_below. eapply (filter_length_lt _ _ _ (v, _)); [|done|simpl; lia|simpl; lia].
  intros e _ He. simpl in *. lia.
Qed.

Lemma pages_below_max F s p G top : um_inv F s p G -> Z.of_nat (pages_below p top) <= UMAP_MAX.
Proof.
  intros Hum. pose proof (um_len _ _ _ _ Hum). unfold pages_below.
  pose proof (length_filter (fun e => page_of e.1 < page_of top) (umap p)). lia.
Qed.

Lemma page_of_lt a b : aligned b -> a < b -> page_of a < page_of b.
Proof.
  unfold aligned, page_of, PAGE_SIZE. intros Hb Hlt.
  pose proof (Z.div_mod a 4096 ltac:(lia)). pose proof (Z.mod_pos_bound a 4096 ltac:(lia)).
  pose proof (Z.div_mod b 4096 ltac:(lia)). lia.
Qed.

(** The result of the carving loop started at [base]. *)
Definition reserve_good (s : mstate) (p : process_t) (n floor base r out : Z) : Prop :=
  (r = 0 /\ aligned out /\ floor <= out <= base /\ window_clear s p out n /\
     forall b, aligned b -> out < b <= base -> ~ window_clear s p b n) \/
  (r = - VE_NOMEM /\ forall b, aligned b -> floor <= b <= base -> ~ window_clear s p b n).

Lemma reserve_good_step s p n floor base occ r out :
  page_present s p occ = true -> base <= occ < base + n * PAGE_SIZE ->
  reserve_good s p n floor (occ - n * PAGE_SIZE) r out -> reserve_good s p n floor base r out.
Proof.
  intros Hp Hocc Hg.
  assert (Hskip : forall b, occ - n * PAGE_SIZE < b <= base -> ~ window_clear s p b n).
  { intros b Hb Hc. rewrite (Hc occ) in Hp by lia. done. }
  destruct Hg as [(-> & Ha & Hr & Hc & Hmax)|(-> & Hn)]; [left|right].
  - split_and!; try done; try lia. intros b Hb Hlt.
    destruct (decide (b <= occ - n * PAGE_SIZE)); [apply Hmax; [done|lia]|apply Hskip; lia].
  - split; [done|]. intros b Hb Hlt.
    destruct (decide (b <= occ - n * PAGE_SIZE)); [apply Hn; [done|lia]|apply Hskip; lia].
Qed.

Lemma reserve_loop_spec F s p G n floor fuel : um_inv F s p G -> cr3 p <> 0 -> 1 <= n ->
  0 <= floor -> n * PAGE_SIZE <= USER_MMAP_TOP -> forall base,
  0 <= base -> aligned base -> floor <= base -> base + n * PAGE_SIZE <= USER_MMAP_TOP ->
  (pages_below p (base + n * PAGE_SIZE) < fuel)%nat ->
  exists r out, reserve_loop fuel s p n floor base = Some (r, out) /\
    (n * PAGE_SIZE <= floor -> reserve_good s p n floor base r out).
Proof.
  intros Hum Hc Hn Hfl HnT. unfold USER_MMAP_TOP, USER_STACK_TOP, USER_STACK_SIZE in *.
  assert (Hpos : 0 < n * PAGE_SIZE) by (unfold PAGE_SIZE; lia).
  induction fuel as [|fuel IH]; intros base Hb Hal Hbf Htop Hfuel; [lia|]. cbn [reserve_loop].
  rewrite (u64_id (base + n * PAGE_SIZE)) by lia.
  destruct (um_range_clear s p base (base + n * PAGE_SIZE)) eqn:Ecl.
  { exists 0, base. split; [done|]. intros _. left.
    rewrite range_clear_true in Ecl by (done || lia). split_and!; try done; try lia. }
  destruct (highest_occupied_spec s p base n Hc ltac:(lia) Hal ltac:(lia) Ecl) as (Hocc & Hoal & Hop).
  set (occ := highest_occupied s p base (base + n * PAGE_SIZE)) in *.
  assert (Hlt : (pages_below p occ < pages_below p (base + n * PAGE_SIZE))%nat).
  { apply (pages_below_lt F s p G); [done|unfold user_half; lia|done|].
    apply page_of_lt; [by apply aligned_add|lia]. }
  destruct (decide (n * PAGE_SIZE <= occ)) as [Hnw|Hw].
  - assert (Hal' : aligned (occ - n * PAGE_SIZE)).
    { replace (occ - n * PAGE_SIZE) with (occ + (- n) * PAGE_SIZE) by lia. by apply aligned_add. }
    rewrite (u64_id (occ - n * PAGE_SIZE)), land_page_mask_aligned by (done || lia).
    destruct (Z.ltb_spec (occ - n * PAGE_SIZE) floor).
    + exists (- VE_NOMEM), 0. split; [done|]. intros _. apply (reserve_good_step _ _ _ _ _ occ); [done|done|].
      right. split; [done|]. intros b Hb' ?. lia.
    + destruct (IH (occ - n * PAGE_SIZE)) as (r & out & -> & Hg); try done; try lia.
      { replace (occ - n * PAGE_SIZE + n * PAGE_SIZE) with occ by lia. lia. }
      exists r, out. split; [done|]. intros Hnf. by apply (reserve_good_step _ _ _ _ _ occ), Hg.
  - rewrite u64_neg by lia.
    assert (Hal' : aligned (occ - n * PAGE_SIZE + 2 ^ 64)).
    { replace (occ - n * PAGE_SIZE + 2 ^ 64) with (occ + (2 ^ 52 - n) * PAGE_SIZE); [by apply aligned_add|].
      unfold PAGE_SIZE. lia. }
    rewrite land_page_mask_aligned by (done || lia).
    rewrite (proj2 (Z.ltb_ge _ _)) by lia.
    destruct fuel as [|fuel]; [lia|]. cbn [reserve_loop].
    replace (u64 (occ - n * PAGE_SIZE + 2 ^ 64 + n * PAGE_SIZE)) with occ.
    2: { rewrite u64_wrap by lia. lia. }
    assert (Hcl : um_range_clear s p (occ - n * PAGE_SIZE + 2 ^ 64) occ = true).
    { unfold um_range_clear. rewrite (proj2 (Z.eqb_neq _ _) Hc), (proj2 (Z.leb_le _ _)) by lia. done. }
    rewrite Hcl. eexists 0, _. split; [done|]. lia.
Qed.
