(* ===== verification/UserOps.v ===== *)
(** * Correctness of brk, mmap and munmap

  The memory system calls against the address-space invariant of [AddrSpace]:
  they are total, preserve the invariant, and do to the page tables what their
  contract says, on every branch. *)
From S2P Require Import Prelude Pmm PhysMem Vmm ProcData UserMem AddrSpace.

(** ** Unmapping without releasing (the failure path of mmap) *)

Lemma unmap_only_spec F s p G va : um_inv F s p G -> user_half va ->
  let s' := unmap_only (cr3 p) s va in
  um_inv F s' p G /\ other_pages (cr3 p) va s s' /\ page_present s' p va = false /\
  keeps_umap s p s'.
Proof.
  intros Hum Hv. unfold unmap_only.
  pose proof (unmap_cases s (cr3 p) G va (um_ok _ _ _ _ Hum) (um_pt _ _ _ _ Hum) Hv) as Hc.
  destruct (vmm_unmap_page s (cr3 p) va) as [r s1]. destruct Hc as (Hok & Hpt & He & Hpm & Hoth & Hc).
  cbn [snd].
  assert (Hnp : page_present s1 p va = false).
  { unfold page_present. destruct (has (vmm_get_pte (ms_mem s) (cr3 p) va) VMM_PRESENT) eqn:E.
    - by destruct Hc as [_ ->].
    - destruct Hc as [_ ->]. done. }
  split_and!; [|done|done|].
  - split; try rewrite Hpm; try done; try apply Hum.
    + intros v f Hin. destruct (um_frames _ _ _ _ Hum v f Hin). split; [done|].
      unfold user_frame. by rewrite Hpm.
    + intros w Hw Hpr. destruct (decide (page_of w = page_of va)) as [Heq|Hne].
      { rewrite (page_present_page _ _ w va Heq) in Hpr. congruence. }
      unfold page_present in Hpr. rewrite Hoth in Hpr |- * by done. by apply (um_present _ _ _ _ Hum).
  - eapply keeps_data_umap; [done|]. by eapply ext_keeps_data.
Qed.

Lemma keeps_umap_refl s p : keeps_umap s p s.
Proof. done. Qed.

Lemma unmap_list_spec F p G l : (forall v, v ∈ l -> user_half v) -> forall s, um_inv F s p G ->
  let s' := foldl (unmap_only (cr3 p)) s l in
  um_inv F s' p G /\ keeps_umap s p s' /\
  (forall w, user_half w -> (forall v, v ∈ l -> page_of v <> page_of w) ->
     vmm_get_pte (ms_mem s') (cr3 p) w = vmm_get_pte (ms_mem s) (cr3 p) w) /\
  (forall w, user_half w -> (page_present s p w = false \/ exists v, v ∈ l /\ page_of v = page_of w) ->
     page_present s' p w = false).
Proof.
  induction l as [|v l IH]; intros Hl s Hum; cbn [foldl].
  { split_and!; [done|done|done|]. intros w _ [?|(v & Hv & _)]; [done|]. by apply not_elem_of_nil in Hv. }
  assert (Hv : user_half v) by (apply Hl; by left).
  destruct (unmap_only_spec F s p G v Hum Hv) as (Hum1 & Hoth & Hgone & Hk1).
  destruct (IH ltac:(intros; apply Hl; by right) _ Hum1) as (Hum' & Hk & Hsame & Habs).
  split_and!; [done|by eapply keeps_umap_trans| |].
  - intros w Hw Hn. rewrite Hsame; [|done|intros x Hx; apply Hn; by right].
    apply Hoth; [done|]. intros E. apply (Hn v); [by left|done].
  - intros w Hw Hc. apply Habs; [done|].
    destruct (decide (page_of w = page_of v)) as [He|Hne].
    { left. by rewrite (page_present_page _ _ w v He). }
    destruct Hc as [Hc|(x & [->|Hx]%elem_of_cons & Hp)]; [| done |right; by exists x].
    left. unfold page_present. by rewrite Hoth.
Qed.

(** ** The eager allocation loop *)

Definition brk_same (p p' : process_t) : Prop := p' = set_umap p (umap p').

(** What [mmap_loop] reaches from [va]: the pages below [va] are mapped, those
  from [va] on are not looked at yet. *)
Record mapped (F : gset Z) (s : mstate) (p : process_t) (base va end_ f : Z)
    (r : Z) (s' : mstate) (p' : process_t) : Prop := {
  mp_inv : exists G', um_inv F s' p' G';
  mp_proc : brk_same p p';
  mp_data : keeps_umap s p s';
  mp_sub : umap p ⊆ umap p';
  mp_out : forall w, user_half w -> w < base \/ end_ <= w ->
    vmm_get_pte (ms_mem s') (cr3 p) w = vmm_get_pte (ms_mem s) (cr3 p) w;
  mp_result :
    (r = base /\ (forall w, base <= w < va ->
                    vmm_get_pte (ms_mem s') (cr3 p) w = vmm_get_pte (ms_mem s) (cr3 p) w) /\
     forall w, va <= w < end_ -> exists g, vmm_get_pte (ms_mem s') (cr3 p) w = user_pte g f /\
       frame_addr g /\ zero_bytes s' g) \/
    (r = - VE_NOMEM /\ va < end_ /\ ((forall w, va <= w < end_ -> page_present s p w = false) ->
       forall w, base <= w < end_ -> page_present s' p w = false))
}.

Lemma page_of_eq_range w va : aligned va -> page_of w = page_of va <-> va <= w < va + PAGE_SIZE.
Proof.
  unfold aligned, page_of, PAGE_SIZE. intros Ha. pose proof (Z.div_mod va 4096 ltac:(lia)).
  pose proof (Z.div_mod w 4096 ltac:(lia)). pose proof (Z.mod_pos_bound w 4096 ltac:(lia)). lia.
Qed.

Lemma mapped_done F s p G base va end_ f : um_inv F s p G -> end_ <= va ->
  mapped F s p base va end_ f base s p.
Proof.
  intros Hum Hge. split; [by exists G|by unfold brk_same; rewrite set_umap_id|done|done|done|].
  left. split_and!; [done|done|lia].
Qed.

Lemma mapped_fail F s p G base va end_ f s1 : um_inv F s1 p G -> keeps_umap s p s1 ->
  same_map (cr3 p) s s1 -> aligned base -> aligned va -> aligned end_ -> 0 <= base <= va ->
  va < end_ -> end_ <= 2 ^ 47 ->
  mapped F s p base va end_ f (- VE_NOMEM) (foldl (unmap_only (cr3 p)) s1 (pages_from base va)) p.
Proof.
  intros Hum Hk Hsame Hab Hav Hae Hb Hlt He.
  assert (Hl : forall v, v ∈ pages_from base va -> base <= v < va /\ aligned v).
  { intros v (k & ? & -> & ?)%elem_of_pages_from. split; [unfold PAGE_SIZE in *; lia|by apply aligned_add]. }
  destruct (unmap_list_spec F p G (pages_from base va)) with (s := s1) as (Hum' & Hk' & Hs & Ha); [|done|].
  { intros v Hv. destruct (Hl v Hv). unfold user_half. lia. }
  split; [by exists G|by unfold brk_same; rewrite set_umap_id|by eapply keeps_umap_trans|done| |].
  - intros w Hw Hout. rewrite Hs; [by apply Hsame|done|]. intros v Hv Heq. destruct (Hl v Hv) as [Hr Hav'].
    symmetry in Heq. apply page_of_eq_range in Heq; [|done]. destruct Hout; [lia|].
    assert (v + PAGE_SIZE <= end_); [|lia].
    unfold aligned, PAGE_SIZE in *. pose proof (Z.div_mod v 4096 ltac:(lia)).
    pose proof (Z.div_mod end_ 4096 ltac:(lia)). lia.
  - right. split_and!; [done|lia|]. intros Habs w Hw. apply Ha; [unfold user_half; lia|].
    destruct (decide (w < va)) as [Hwv|]; [right|left].
    + exists (base + (w - base) / PAGE_SIZE * PAGE_SIZE).
      pose proof (Z.div_mod (w - base) PAGE_SIZE ltac:(unfold PAGE_SIZE; lia)).
      pose proof (Z.mod_pos_bound (w - base) PAGE_SIZE ltac:(unfold PAGE_SIZE; lia)).
      split.
      * apply elem_of_pages_from. exists ((w - base) / PAGE_SIZE).
        split_and!; [apply Z.div_pos; unfold PAGE_SIZE; lia|done|lia].
      * symmetry. apply page_of_eq_range; [by apply aligned_add|lia].
    + unfold page_present. rewrite Hsame by (unfold user_half; lia). apply Habs. lia.
Qed.

Lemma mapped_step F s p base va end_ f s1 g r s' p' : other_pages (cr3 p) va s s1 ->
  keeps_umap s p s1 -> vmm_get_pte (ms_mem s1) (cr3 p) va = user_pte g f -> frame_addr g ->
  zero_bytes s1 g -> aligned base -> aligned va -> aligned end_ -> 0 <= base <= va ->
  va < end_ -> end_ <= 2 ^ 47 ->
  mapped F s1 (set_umap p (umap p ++ [(va, g)])) base (va + PAGE_SIZE) end_ f r s' p' ->
  mapped F s p base va end_ f r s' p'.
Proof.
  intros Hoth Hk Hpte Hg Hz Hab Hav Hae Hb Hlt He [Hi Hp Hk' Hsub Hout Hres].
  unfold brk_same in *. cbn [umap set_umap cr3] in *.
  assert (Hne : va + PAGE_SIZE <= end_).
  { unfold aligned, PAGE_SIZE in *. pose proof (Z.div_mod va 4096 ltac:(lia)).
    pose proof (Z.div_mod end_ 4096 ltac:(lia)). lia. }
  assert (Hoth' : forall w, user_half w -> ~ (va <= w < va + PAGE_SIZE) ->
    vmm_get_pte (ms_mem s1) (cr3 p) w = vmm_get_pte (ms_mem s) (cr3 p) w).
  { intros w Hw Hn. apply Hoth; [done|]. by rewrite page_of_eq_range. }
  split; [done|by unfold brk_same; rewrite Hp| | | |].
  - eapply keeps_umap_trans; [done| |done]. simpl. intros x Hx. apply elem_of_app. by left.
  - intros x Hx. apply Hsub, elem_of_app. by left.
  - intros w Hw Ho. rewrite Hout by done. apply Hoth'; [done|]. unfold PAGE_SIZE in *. lia.
  - destruct Hres as [(-> & Hlow & Hnew)|(-> & Hve & Habs)]; [left|right].
    + split_and!; [done| |].
      * intros w Hw. rewrite Hlow by (unfold PAGE_SIZE; lia). apply Hoth'; [unfold user_half; lia|lia].
      * intros w Hw. destruct (decide (w < va + PAGE_SIZE)) as [Hin|]; [|apply Hnew; lia].
        exists g. rewrite Hlow by lia. rewrite (get_pte_page _ _ w va) by (apply page_of_eq_range; [done|lia]).
        split_and!; [done|done|]. intros a Ha. rewrite (Hk' va g); [by apply Hz| |done].
        simpl. apply elem_of_app. right. by left.
    + split_and!; [done|done|]. intros Ha w Hw. apply Habs; [|done].
      intros x Hx. unfold page_present in *. simpl. rewrite Hoth' by (unfold user_half, PAGE_SIZE in *; lia).
      apply Ha. unfold PAGE_SIZE in *. lia.
Qed.

Lemma mmap_loop_spec F base end_ f fuel : page_flags_ok f -> aligned base -> aligned end_ ->
  0 <= base -> end_ <= 2 ^ 47 -> forall s p G va, um_inv F s p G -> aligned va -> base <= va ->
  va <= end_ ->
  Z.of_nat fuel > UMAP_MAX - Z.of_nat (length (umap p)) ->
  exists r s' p', mmap_loop fuel s p base va end_ f = Some (r, s', p') /\
    mapped F s p base va end_ f r s' p'.
Proof.
  intros Hfl Hab Hae Hb He. induction fuel as [|fuel IH]; intros s p G va Hum Hav Hbv Hve Hfuel.
  { pose proof (um_len _ _ _ _ Hum). lia. }
  cbn [mmap_loop]. destruct (Z.ltb_spec va end_) as [Hlt|Hge].
  2: { exists base, s, p. rewrite i64_id by lia. split; [done|]. by eapply mapped_done. }
  destruct (process_alloc_user_page s p va f) as [[st s1] p1] eqn:Ea.
  apply (alloc_user_spec F s p G) in Ea; [|done|lia|done].
  destruct Ea as ([G1 Hum1] & Hk & [(-> & Hvh & Hoth & g & -> & Hpte & Hg & _ & Hz)|(-> & -> & Hsame)]);
    cbn [negb Z.eqb VOID_OK VOID_ERR_NOMEM].
  2: { eexists _, _, _. split; [done|]. eapply mapped_fail; try done; lia. }
  assert (Hne : va + PAGE_SIZE <= end_).
  { unfold aligned, PAGE_SIZE in *. pose proof (Z.div_mod va 4096 ltac:(lia)).
    pose proof (Z.div_mod end_ 4096 ltac:(lia)). lia. }
  rewrite u64_id by (unfold PAGE_SIZE in *; lia).
  destruct (IH s1 (set_umap p (umap p ++ [(va, g)])) G1 (va + PAGE_SIZE) Hum1) as (r & s' & p' & -> & Hm).
  { replace (va + PAGE_SIZE) with (va + 1 * PAGE_SIZE) by lia. by apply aligned_add. }
  { unfold PAGE_SIZE; lia. }
  { done. }
  { cbn [umap set_umap]. rewrite length_app. cbn [length]. lia. }
  exists r, s', p'. split; [done|]. eapply mapped_step; try done; lia.
Qed.

(** ** Choosing the base *)

Definition mmap_floor (p : process_t) : Z :=
  let floor := page_up (brk_current p) in
  if floor <? USER_CODE_BASE then USER_CODE_BASE else floor.

Lemma mmap_floor_min p : USER_CODE_BASE <= mmap_floor p.
Proof. unfold mmap_floor. destruct (Z.ltb_spec (page_up (brk_current p)) USER_CODE_BASE); lia. Qed.

Lemma mmap_reserve_spec F s p G n : um_inv F s p G -> cr3 p <> 0 -> 0 < n -> aligned n ->
  n <= USER_CODE_BASE ->
  exists r out, um_mmap_reserve s p n = Some (r, out) /\
    let top := USER_MMAP_TOP - n in
    ((r = - VE_NOMEM /\ forall b, aligned b -> mmap_floor p <= b <= top ->
        ~ window_clear s p b (n / PAGE_SIZE)) \/
     (r = 0 /\ aligned out /\ mmap_floor p <= out <= top /\ window_clear s p out (n / PAGE_SIZE) /\
        forall b, aligned b -> out < b <= top -> ~ window_clear s p b (n / PAGE_SIZE))).
Proof.
  intros Hum Hc Hn Hal Hmax. cbn zeta. unfold um_mmap_reserve.
  rewrite (proj2 (Z.eqb_neq _ _) Hc), (proj2 (Z.eqb_neq n 0)) by lia. cbn [orb].
  rewrite land_page_low, Hal. cbn [Z.eqb negb]. fold (mmap_floor p).
  pose proof (mmap_floor_min p) as Hfl.
  assert (Hnp : n / PAGE_SIZE * PAGE_SIZE = n).
  { unfold aligned, PAGE_SIZE in *. pose proof (Z.div_mod n 4096 ltac:(lia)). lia. }
  rewrite Hnp. unfold USER_CODE_BASE in *.
  rewrite (proj2 (Z.ltb_ge USER_MMAP_TOP n)) by (unfold USER_MMAP_TOP, USER_STACK_TOP, USER_STACK_SIZE; lia).
  destruct (Z.ltb_spec (USER_MMAP_TOP - n) (mmap_floor p)).
  { exists (- VE_NOMEM), 0. split; [done|]. left. split; [done|]. intros b _ Hb. lia. }
  assert (Htop : aligned (USER_MMAP_TOP - n)).
  { unfold aligned, PAGE_SIZE in *. rewrite Zminus_mod, Hal. reflexivity. }
  rewrite land_page_mask_aligned by
    (done || (unfold USER_MMAP_TOP, USER_STACK_TOP, USER_STACK_SIZE in *; lia)).
  destruct (reserve_loop_spec F s p G (n / PAGE_SIZE) (mmap_floor p) page_fuel Hum Hc)
    with (base := USER_MMAP_TOP - n) as (r & out & -> & Hg).
  { unfold aligned, PAGE_SIZE in *. pose proof (Z.div_mod n 4096 ltac:(lia)). lia. }
  { lia. }
  { rewrite Hnp. unfold USER_MMAP_TOP, USER_STACK_TOP, USER_STACK_SIZE. lia. }
  { lia. }
  { done. }
  { done. }
  { lia. }
  { pose proof (pages_below_max F s p G (USER_MMAP_TOP - n + n / PAGE_SIZE * PAGE_SIZE) Hum).
    unfold UMAP_MAX, page_fuel in *. lia. }
  exists r, out. split; [done|]. rewrite Hnp in Hg.
  destruct Hg as [(-> & ? & ? & ? & ?)|(-> & ?)]; [lia|right; split_and!; (done || lia)|left; by split].
Qed.

Lemma mmap_prot_flags_ok nx prot : page_flags_ok (mmap_prot_flags nx prot).
Proof.
  unfold mmap_prot_flags. destruct (has prot PROT_WRITE), (negb (has prot PROT_EXEC) && nx); by vm_compute.
Qed.

Lemma page_up_len len : 0 < len <= USER_CODE_BASE ->
  aligned (page_up len) /\ len <= page_up len < len + PAGE_SIZE /\ 0 < page_up len <= USER_CODE_BASE.
Proof.
  intros Hl. unfold USER_CODE_BASE in *.
  destruct (page_up_spec len) as [Ha Hr]; [lia|unfold PAGE_SIZE; lia|].
  split_and!; try lia; try done. unfold aligned, PAGE_SIZE in *.
  pose proof (Z.div_mod (page_up len) 4096 ltac:(lia)). lia.
Qed.

(** The base is an error, or the start of a clear window. *)
Lemma mmap_base_spec F s p G addr n : um_inv F s p G -> cr3 p <> 0 -> 0 < n -> aligned n ->
  n <= USER_CODE_BASE -> 0 <= addr < 2 ^ 64 ->
  exists res, mmap_base s p addr n = Some res /\
    match res with
    | inl r => r < 0
    | inr base => aligned base /\ 0 <= base < USER_MMAP_TOP /\ window_clear s p base (n / PAGE_SIZE) /\
        (addr <> 0 -> base = addr) /\
        (addr = 0 -> mmap_floor p <= base /\ base + n <= USER_MMAP_TOP /\
           forall b, aligned b -> base < b <= USER_MMAP_TOP - n -> ~ window_clear s p b (n / PAGE_SIZE))
    end.
Proof.
  intros Hum Hc Hn Hal Hmax Ha. unfold mmap_base.
  pose proof (mmap_floor_min p) as Hfl. unfold USER_CODE_BASE in *.
  assert (HT : USER_MMAP_TOP = 123145302245376) by reflexivity.
  destruct (Z.eqb_spec addr 0) as [->|Hnz].
  - destruct (mmap_reserve_spec F s p G n Hum Hc Hn Hal Hmax) as (r & out & -> & Hres).
    destruct Hres as [(-> & _)|(-> & Hao & Hr & Hcl & Hmx)]; cbn [negb Z.eqb].
    + eexists. split; [reflexivity|]. by vm_compute.
    + eexists. split; [reflexivity|]. cbn iota. split_and!; try done; try lia. intros _. split_and!; try done; lia.
  - rewrite land_page_low. destruct (Z.eqb_spec (addr mod PAGE_SIZE) 0) as [Haa|]; cbn [negb].
    2: { eexists. split; [reflexivity|]. by vm_compute. }
    destruct (Z.leb_spec USER_MMAP_TOP addr). { eexists. split; [reflexivity|]. by vm_compute. }
    rewrite u64_id by lia. destruct (Z.ltb_spec (addr + n) addr); [lia|].
    destruct (um_range_clear s p addr (addr + n)) eqn:Ecl; cbn [negb].
    2: { eexists. split; [reflexivity|]. by vm_compute. }
    eexists. split; [reflexivity|]. cbn iota. split_and!; try done; try lia.
    rewrite range_clear_true in Ecl by (done || lia). intros va Hva. apply Ecl.
    unfold aligned, PAGE_SIZE in *. pose proof (Z.div_mod n 4096 ltac:(lia)). lia.
Qed.

(** ** The system calls *)

(** What a successful mmap of [n] bytes at [base] establishes. *)
Record mmap_success (s : mstate) (p : process_t) (addr n f base : Z) (s' : mstate) : Prop := {
  ms_aligned : aligned base;
  ms_was_clear : forall w, base <= w < base + n -> page_present s p w = false;
  ms_mapped : forall w, base <= w < base + n -> exists g,
    vmm_get_pte (ms_mem s') (cr3 p) w = user_pte g f /\ frame_addr g /\ zero_bytes s' g;
  ms_outside : forall w, user_half w -> w < base \/ base + n <= w ->
    vmm_get_pte (ms_mem s') (cr3 p) w = vmm_get_pte (ms_mem s) (cr3 p) w;
  ms_fixed : addr <> 0 -> base = addr;
  ms_topdown : addr = 0 -> mmap_floor p <= base /\ base + n <= USER_MMAP_TOP /\
    forall b, aligned b -> base < b <= USER_MMAP_TOP - n -> ~ window_clear s p b (n / PAGE_SIZE)
}.

(** A failed call leaves the user-visible mappings as they were. *)
Definition mappings_kept (s : mstate) (p : process_t) (s' : mstate) : Prop :=
  forall w, user_half w -> page_present s' p w = page_present s p w /\
    (page_present s p w = true ->
     vmm_get_pte (ms_mem s') (cr3 p) w = vmm_get_pte (ms_mem s) (cr3 p) w).

Lemma sys_mmap_cases F nx s p G addr len prot flags fd offset :
  um_inv F s p G -> cr3 p <> 0 -> 0 <= addr < 2 ^ 64 -> 0 <= len <= USER_CODE_BASE ->
  exists r s' p', sys_mmap nx s p addr len prot flags fd offset = Some (r, s', p') /\
    (exists G', um_inv F s' p' G') /\ p' = set_umap p (umap p') /\ keeps_umap s p s' /\
    ((r < 0 /\ mappings_kept s p s') \/
     (0 <= r /\ 0 < len /\ prot <> PROT_NONE /\
      mmap_success s p addr (page_up len) (mmap_prot_flags nx prot) r s')).
Proof.
  intros Hum Hc Ha Hl. unfold sys_mmap.
  assert (Herr : forall e, e < 0 -> exists r s' p', Some (e, s, p) = Some (r, s', p') /\
    (exists G', um_inv F s' p' G') /\ p' = set_umap p (umap p') /\ keeps_umap s p s' /\
    ((r < 0 /\ mappings_kept s p s') \/
     (0 <= r /\ 0 < len /\ prot <> PROT_NONE /\
      mmap_success s p addr (page_up len) (mmap_prot_flags nx prot) r s'))).
  { intros e He. exists e, s, p. split_and!; [done|by exists G|by rewrite set_umap_id|done|].
    left. by split. }
  rewrite (proj2 (Z.eqb_neq _ _) Hc).
  destruct (Z.eqb_spec len 0); [by apply Herr|].
  destruct (Z.leb_spec USER_MMAP_TOP len); [by apply Herr|].
  destruct (negb (fd =? -1) || negb (offset =? 0)); [by apply Herr|].
  destruct (negb (flags =? _)); [by apply Herr|].
  destruct (Z.eqb_spec prot PROT_NONE); [by apply Herr|].
  destruct (page_up_len len ltac:(lia)) as (Han & _ & Hn).
  destruct (mmap_base_spec F s p G addr (page_up len) Hum Hc ltac:(lia) Han ltac:(lia) Ha)
    as (res & -> & Hres). destruct res as [e|base]; [by apply Herr|].
  destruct Hres as (Hab & Hb & Hcl & Hfix & Htop).
  assert (HT : USER_MMAP_TOP = 123145302245376) by reflexivity. unfold USER_CODE_BASE in *.
  rewrite u64_id by lia.
  assert (Hae : aligned (base + page_up len)).
  { unfold aligned, PAGE_SIZE in *. by rewrite Z.add_mod, Hab, Han. }
  assert (Hcl' : forall w, base <= w < base + page_up len -> page_present s p w = false).
  { intros w Hw. apply Hcl. unfold aligned, PAGE_SIZE in *.
    pose proof (Z.div_mod (page_up len) 4096 ltac:(lia)). lia. }
  destruct (mmap_loop_spec F base (base + page_up len) (mmap_prot_flags nx prot) page_fuel
    (mmap_prot_flags_ok nx prot) Hab Hae ltac:(lia) ltac:(lia) s p G base Hum Hab ltac:(lia) ltac:(lia))
    as (r & s' & p' & -> & [Hi Hp Hk _ Hout Hr]).
  { unfold page_fuel, UMAP_MAX. lia. }
  exists r, s', p'. split_and!; [done..|].
  destruct Hr as [(-> & _ & Hnew)|(-> & _ & Habs)]; [right|left].
  - split_and!; [lia|lia|done|]. by split.
  - split; [by vm_compute|]. specialize (Habs Hcl'). intros w Hw.
    destruct (decide (base <= w < base + page_up len)) as [Hin|Hn'].
    + rewrite Habs, Hcl' by done. by split.
    + unfold page_present. rewrite Hout by (done || lia). by split.
Qed.

(** ** Every call is total and keeps the invariant *)

Lemma mmap_loop_inv F base end_ f fuel : page_flags_ok f -> forall s p G va, um_inv F s p G ->
  0 <= va < 2 ^ 64 -> (forall v, v ∈ pages_from base va -> user_half v) ->
  (va <> base -> base <= va - PAGE_SIZE) -> (va - base) mod PAGE_SIZE = 0 ->
  Z.of_nat fuel > UMAP_MAX - Z.of_nat (length (umap p)) ->
  exists r s' p', mmap_loop fuel s p base va end_ f = Some (r, s', p') /\
    (exists G', um_inv F s' p' G') /\ p' = set_umap p (umap p').
Proof.
  intros Hfl. induction fuel as [|fuel IH]; intros s p G va Hum Hva Hl Hb Hm Hfuel.
  { pose proof (um_len _ _ _ _ Hum). lia. }
  cbn [mmap_loop]. destruct (va <? end_); [|exists (i64 base), s, p; rewrite set_umap_id; eauto].
  destruct (process_alloc_user_page s p va f) as [[st s1] p1] eqn:Ea.
  apply (alloc_user_spec F s p G) in Ea; [|done|lia|done].
  destruct Ea as ([G1 Hum1] & _ & [(-> & Hvh & _ & g & -> & _)|(-> & -> & _)]);
    cbn [negb Z.eqb VOID_OK VOID_ERR_NOMEM].
  2: { destruct (unmap_list_spec F p G1 (pages_from base va) Hl s1 Hum1) as (Hum' & _).
       eexists _, _, p. split_and!; [done|by exists G1|by rewrite set_umap_id]. }
  unfold user_half in Hvh. rewrite u64_id by (unfold PAGE_SIZE; lia).
  destruct (IH s1 (set_umap p (umap p ++ [(va, g)])) G1 (va + PAGE_SIZE) Hum1)
    as (r & s' & p' & -> & HG & Hp).
  { unfold PAGE_SIZE; lia. }
  { intros v (k & Hk & -> & Hlt)%elem_of_pages_from.
    destruct (decide (base + k * PAGE_SIZE = va)) as [->|]; [done|]. apply Hl, elem_of_pages_from.
    exists k. split_and!; [done|done|]. unfold PAGE_SIZE in *.
    pose proof (Z.div_mod (va - base) 4096 ltac:(lia)). lia. }
  { intros _. destruct (decide (va = base)) as [->|Hne]; [lia|]. specialize (Hb Hne). unfold PAGE_SIZE in *; lia. }
  { unfold PAGE_SIZE in *. replace (va + 4096 - base) with (va - base + 1 * 4096) by lia. by rewrite Z.mod_add. }
  { cbn [umap set_umap]. rewrite length_app. cbn [length]. lia. }
  exists r, s', p'. cbn [umap set_umap] in *. split_and!; [done|done|by rewrite Hp].
Qed.

Lemma land_mask_range x : 0 <= x < 2 ^ 64 -> 0 <= Z.land x PAGE_MASK < 2 ^ 64.
Proof. intros. by apply land_bound. Qed.

Lemma reserve_loop_out s p n floor fuel : forall base r out, 0 <= base < 2 ^ 64 ->
  reserve_loop fuel s p n floor base = Some (r, out) -> 0 <= out < 2 ^ 64.
Proof.
  induction fuel as [|fuel IH]; intros base r out Hb; cbn [reserve_loop]; [done|].
  case_if; [by intros [= <- <-]|]. case_if; [intros [= <- <-]; lia|].
  apply IH, land_mask_range, u64_range.
Qed.

(** The base chosen is always a 64-bit value, whatever the length. *)
Lemma mmap_base_total F s p G addr n : um_inv F s p G -> cr3 p <> 0 -> 0 <= n < 2 ^ 64 ->
  0 <= addr < 2 ^ 64 ->
  exists res, mmap_base s p addr n = Some res /\
    match res with inl _ => True | inr base => 0 <= base < 2 ^ 64 end.
Proof.
  intros Hum Hc Hn Ha. unfold mmap_base.
  destruct (addr =? 0); [|by repeat case_if; eexists; (split; [reflexivity|])].
  unfold um_mmap_reserve. rewrite (proj2 (Z.eqb_neq _ _) Hc). cbn [orb].
  destruct (Z.eqb_spec n 0); [by eexists|]. rewrite land_page_low.
  destruct (Z.eqb_spec (n mod PAGE_SIZE) 0) as [Hal|]; cbn [negb]; [|by eexists].
  fold (mmap_floor p). pose proof (mmap_floor_min p) as Hfl.
  assert (Hnp : n / PAGE_SIZE * PAGE_SIZE = n).
  { unfold PAGE_SIZE in *. pose proof (Z.div_mod n 4096 ltac:(lia)). lia. }
  rewrite Hnp. destruct (Z.ltb_spec USER_MMAP_TOP n); [by eexists|].
  destruct (Z.ltb_spec (USER_MMAP_TOP - n) (mmap_floor p)); [by eexists|].
  assert (Htop : aligned (USER_MMAP_TOP - n)).
  { unfold aligned, PAGE_SIZE in *. rewrite Zminus_mod, Hal. reflexivity. }
  unfold USER_CODE_BASE in *.
  rewrite land_page_mask_aligned by
    (done || (unfold USER_MMAP_TOP, USER_STACK_TOP, USER_STACK_SIZE in *; lia)).
  destruct (reserve_loop_spec F s p G (n / PAGE_SIZE) (mmap_floor p) page_fuel Hum Hc)
    with (base := USER_MMAP_TOP - n) as (r & out & E & _); try done; try lia.
  { unfold PAGE_SIZE in *. pose proof (Z.div_mod n 4096 ltac:(lia)). lia. }
  { pose proof (pages_below_max F s p G (USER_MMAP_TOP - n + n / PAGE_SIZE * PAGE_SIZE) Hum).
    unfold UMAP_MAX, page_fuel in *. lia. }
  rewrite E. eexists. split; [reflexivity|]. destruct (negb (r =? 0)); [done|].
  apply reserve_loop_out in E; [done|]. unfold USER_MMAP_TOP, USER_STACK_TOP, USER_STACK_SIZE in *. lia.
Qed.

Lemma sys_mmap_inv F nx s p G addr len prot flags fd offset : um_inv F s p G ->
  0 <= addr < 2 ^ 64 -> 0 <= len < 2 ^ 64 ->
  exists r s' p', sys_mmap nx s p addr len prot flags fd offset = Some (r, s', p') /\
    (exists G', um_inv F s' p' G') /\ p' = set_umap p (umap p').
Proof.
  intros Hum Ha Hl. unfold sys_mmap.
  assert (Herr : forall e : Z, exists r s' p', Some (e, s, p) = Some (r, s', p') /\
    (exists G', um_inv F s' p' G') /\ p' = set_umap p (umap p')).
  { intros e. exists e, s, p. split_and!; [done|by exists G|by rewrite set_umap_id]. }
  destruct (Z.eqb_spec (cr3 p) 0) as [|Hc]; [by apply Herr|].
  repeat (case_if; [by apply Herr|]).
  destruct (mmap_base_total F s p G addr (page_up len) Hum Hc) as (res & -> & Hres); [|done|].
  { unfold page_up. apply land_mask_range, u64_range. }
  destruct res as [e|base]; [by apply Herr|].
  apply (mmap_loop_inv F _ _ _ _ (mmap_prot_flags_ok nx prot) s p G base); try done.
  - intros v (k & Hk & -> & Hlt)%elem_of_pages_from. unfold PAGE_SIZE in *. lia.
  - by rewrite Z.sub_diag.
  - unfold page_fuel, UMAP_MAX. lia.
Qed.

Lemma sys_munmap_cases F s p G addr len : um_inv F s p G -> 0 <= addr < 2 ^ 64 -> 0 <= len < 2 ^ 64 ->
  let '(r, s', p') := sys_munmap s p addr len in
  (r = 0 /\ released F (in_release_range addr) s p G s' p') \/
  (r < 0 /\ s' = s /\ p' = p).
Proof.
  intros Hum Ha Hl. unfold sys_munmap. repeat (case_if; [right; by split_and!|]).
  pose proof (release_from_spec F s p G addr Hum) as Hr.
  destruct (um_release_from s p addr) as [s1 p1]. by left.
Qed.

(** The heap fields a process must have for [brk]. *)
Record heap_ok (p : process_t) : Prop := {
  heap_set : heap_start p <> 0;
  heap_perm : page_flags_ok (brk_perm p);
  heap_brk : 0 <= brk_current p < 2 ^ 64
}.

Lemma um_inv_set_brk F s p G b : um_inv F s p G -> um_inv F s (set_brk p b) G.
Proof. intros H. by apply (um_inv_same F s p). Qed.

(** [um_brk_set] and [sys_brk], branch by branch. *)
Lemma sys_brk_cases F s p G addr : um_inv F s p G -> heap_ok p -> 0 <= addr < 2 ^ 64 ->
  exists r s' p', sys_brk s p addr = Some (r, s', p') /\ (exists G', um_inv F s' p' G') /\
    p' = set_brk (set_umap p (umap p')) (brk_current p') /\
    ((addr = 0 \/ addr < heap_start p) /\ r = i64 (brk_current p) /\ s' = s /\ p' = p \/
     (heap_start p <= addr /\ addr <> 0 /\
      ((brk_current p < addr /\ r = i64 addr /\ brk_current p' = addr /\
          grown F s p (brk_current p) addr 0 s' (set_umap p (umap p'))) \/
       (brk_current p < addr /\ r = - VE_NOMEM /\ brk_current p' = brk_current p /\
          grown F s p (brk_current p) addr r s' p') \/
       (addr <= brk_current p /\ r = i64 addr /\ brk_current p' = addr /\
          (addr < brk_current p ->
           released F (in_release_range (page_up addr)) s p G s' (set_umap p (umap p'))) /\
          (addr = brk_current p -> s' = s))))).
Proof.
  intros Hum [Hh Hperm Hb] Ha. unfold sys_brk, um_brk_set.
  rewrite (proj2 (Z.eqb_neq _ _) Hh).
  assert (Hid : p = set_brk (set_umap p (umap p)) (brk_current p)) by by destruct p.
  destruct (Z.eqb_spec addr 0) as [->|Hnz].
  { exists (i64 (brk_current p)), s, p. split_and!; [done|by exists G|done|]. left. tauto. }
  destruct (Z.ltb_spec addr (heap_start p)).
  { exists (i64 (brk_current p)), s, p. split_and!; [done|by exists G|done|]. left. tauto. }
  destruct (Z.ltb_spec (brk_current p) addr) as [Hlt|Hge].
  - unfold um_brk_grow.
    destruct (brk_grow_loop_spec F page_fuel s p G (brk_current p) addr Hum Hperm Hb)
      as (r & s' & p' & -> & Hg); [unfold page_fuel, UMAP_MAX; lia|].
    pose proof Hg as [[G' Hum'] Hp' _ _ _ [[-> _]|[-> _]]]; cbn [negb Z.eqb].
    + eexists _, s', (set_brk p' addr). cbn [set_brk brk_current umap].
      split_and!; [done|exists G'; by apply um_inv_set_brk|by rewrite Hp'|].
      right. split_and!; [done|done|]. left. split_and!; try done. by rewrite <- Hp'.
    + eexists _, s', p'. assert (Hbk : brk_current p' = brk_current p) by (by rewrite Hp').
      split_and!; [done|by exists G'|rewrite Hbk; rewrite Hp' at 1; by destruct p|].
      right. split_and!; [done|done|]. right; left. by split_and!.
  - destruct (Z.ltb_spec addr (brk_current p)) as [Hlt|Heq].
    + pose proof (release_from_spec F s p G (page_up addr) Hum) as Hr.
      destruct (um_release_from s p (page_up addr)) as [s1 p1]. pose proof Hr as [Hum1 Hp1 _ _ _ _ _].
      cbn [negb Z.eqb]. eexists _, s1, (set_brk p1 addr). cbn [set_brk brk_current umap].
      split_and!; [done|exists G; by apply um_inv_set_brk|by rewrite Hp1|].
      right. split_and!; [done|done|]. right; right. split_and!; try done; try lia.
      intros _. by rewrite <- Hp1.
    + assert (addr = brk_current p) as -> by lia. cbn [negb Z.eqb].
      eexists _, s, p. split_and!; [done|by exists G|done|].
      right. split_and!; [done|done|]. right; right. split_and!; try done; lia.
Qed.
