(* ===== verification/Teardown.v ===== *)
(** * Creation and teardown of address spaces

  [address_space_create] establishes the invariant of [AddrSpace] with the
  frames that were free at that moment as its account, and
  [process_destroy_user_space] gives every one of them back: user pages, page
  tables of every level and the root. *)
From S2P Require Import Prelude Pmm PhysMem Vmm ProcData UserMem AddrSpace UserOps.

(** ** Creation *)

Lemma set_entry_out m t i v a : 0 <= i < 512 -> ~ (t <= a < t + PAGE_SIZE) ->
  mem_get (set_entry m t i v) a = mem_get m a.
Proof.
  intros Hi Ha. unfold set_entry, wr64. apply mem_get_write_out. rewrite length_le_bytes.
  unfold PAGE_SIZE in Ha. lia.
Qed.

(** A loop storing [g m i] into entry [i] of [root] for every [i] of a list,
  where [g] does not depend on [root]'s own entries. *)
Lemma entry_fold root (g : mem -> Z -> Z) l : frame_addr root ->
  (forall m i, 0 <= g m i < 2 ^ 64) ->
  (forall m m' i, 0 <= i < 512 -> (forall a, ~ (root <= a < root + PAGE_SIZE) -> mem_get m' a = mem_get m a) ->
     g m' i = g m i) ->
  (forall i, i ∈ l -> 0 <= i < 512) -> forall m,
  let m' := foldl (fun m i => set_entry m root i (g m i)) m l in
  (forall i, i ∈ l -> entry m' root i = g m i) /\
  (forall i, 0 <= i < 512 -> i ∉ l -> entry m' root i = entry m root i) /\
  (forall a, ~ (root <= a < root + PAGE_SIZE) -> mem_get m' a = mem_get m a).
Proof.
  intros Hr Hg Hgm. induction l as [|j l IH]; intros Hl m; cbn [foldl].
  { split_and!; [|done|done]. intros i Hi. by apply not_elem_of_nil in Hi. }
  assert (Hj : 0 <= j < 512) by (apply Hl; by left).
  destruct (IH ltac:(intros; apply Hl; by right) (set_entry m root j (g m j))) as (H1 & H2 & H3).
  assert (Hgm' : forall i, 0 <= i < 512 -> g (set_entry m root j (g m j)) i = g m i).
  { intros i Hi. apply Hgm; [done|]. intros a Ha. by apply set_entry_out. }
  split_and!.
  - intros i Hi. destruct (decide (i ∈ l)) as [Hin|Hn].
    + rewrite H1 by done. apply Hgm', Hl. by right.
    + apply elem_of_cons in Hi as [->|]; [|done]. rewrite H2 by done. by apply entry_set_eq.
  - intros i Hi Hn. apply not_elem_of_cons in Hn as [Hne Hn]. rewrite H2 by done.
    apply entry_set_ne; try done. congruence.
  - intros a Ha. rewrite H3 by done. by apply set_entry_out.
Qed.

(** A process record of a fresh address space. *)
Definition fresh_space (p : process_t) (root : Z) : Prop := cr3 p = root /\ umap p = [].

Lemma fresh_um_inv F s p root : fresh_space p root -> vm_ok s -> frame_addr root ->
  frame_no root < total_frames (ms_pmm s) -> frame_no root ∉ free_set (ms_pmm s) ->
  (forall i, 0 <= i < 256 -> entry (ms_mem s) root i = 0) ->
  free_set (ms_pmm s) ∪ {[frame_no root]} = F ->
  um_inv F s p {[root := (0, 0)]}.
Proof.
  intros [Hc Hu] Hok Hf Ht Hn Hz HF.
  assert (Hpt : pt_inv s root {[root := (0, 0)]}).
  { split.
    - apply lookup_singleton_eq.
    - intros t k key [<- [= <- <-]]%lookup_singleton_Some. split_and!; try done; lia.
    - intros t k key i [<- [= <- <-]]%lookup_singleton_Some _ Hi Hi0. rewrite Hz by (specialize (Hi0 eq_refl); lia).
      done.
    - intros t k key [<- _]%lookup_singleton_Some. done. }
  split; rewrite ?Hc, ?Hu; try done.
  - intros t x [<- _]%lookup_singleton_Some. done.
  - intros v f Hin. by apply not_elem_of_nil in Hin.
  - constructor.
  - intros va Hva Hp. unfold page_present in Hp. rewrite Hc, (get_pte_walk s root _ va Hpt Hva) in Hp.
    destruct (page_of_idx va Hva) as [_ Hi]. unfold va_path in Hp. cbn [walk] in Hp.
    rewrite Hz in Hp by done. done.
  - unfold owned. rewrite <- HF. f_equal. unfold table_frames. rewrite dom_singleton_L, set_map_singleton_L.
    unfold umap_frames. simpl. set_solver +.
Qed.

Lemma set_take_back (A : gset Z) x : x ∈ A -> A ∖ {[x]} ∪ {[x]} = A.
Proof. intros H. apply set_eq. intros y. destruct (decide (y = x)); set_solver. Qed.

Lemma address_space_create_spec s kpml4 : vm_ok s -> frame_addr kpml4 ->
  frame_no kpml4 ∉ free_set (ms_pmm s) ->
  let '(r, s') := address_space_create s kpml4 in
  (r = 0 /\ s' = s /\ free_set (ms_pmm s) = ∅) \/
  (r <> 0 /\ (forall p, fresh_space p r -> um_inv (free_set (ms_pmm s)) s' p {[r := (0, 0)]}) /\
   (forall i, 256 <= i < 512 -> entry (ms_mem s') r i = entry (ms_mem s) kpml4 i) /\
   frame_no r ∈ free_set (ms_pmm s) /\
   (forall a, ~ (r <= a < r + PAGE_SIZE) -> mem_get (ms_mem s') a = mem_get (ms_mem s) a)).
Proof.
  intros [Hi Hz Htot] Hk Hkn. unfold address_space_create.
  pose proof (alloc_frame_cases _ (inv_wf _ Hi)) as Hc.
  destruct (pmm_alloc_frame (ms_pmm s)) as [a pm].
  destruct Hc as [(g & [Hg _] & Hr & -> & ->)|(He & -> & ->)].
  2: { cbn [Z.eqb]. left. by destruct s. }
  assert (Hgz : g <> 0) by (by intros ->).
  assert (Hf : frame_addr (g * PAGE_SIZE)).
  { unfold PAGE_SIZE. split; [lia|]. by rewrite Z.mod_mul. }
  assert (Hno : frame_no (g * PAGE_SIZE) = g) by (apply Z.div_mul; done).
  rewrite (proj2 (Z.eqb_neq _ _)) by (unfold PAGE_SIZE; lia). right.
  set (root := g * PAGE_SIZE) in *.
  assert (Hset : free_set (take_frame (ms_pmm s) g) = free_set (ms_pmm s) ∖ {[g]})
    by (apply free_set_take_frame; [apply Hi|done]).
  assert (Hkr : kpml4 <> root) by (intros ->; congruence).
  destruct (entry_fold root (fun _ _ => 0) (range 0 256) Hf) with (m := ms_mem s) as (C1 & C2 & C3).
  { intros; lia. } { done. } { intros i Hin%elem_of_range. lia. }
  change (fun m i => set_entry m root i 0) with (clear_entry root) in C1, C2, C3.
  set (m1 := foldl (clear_entry root) (ms_mem s) (range 0 256)) in *.
  destruct (entry_fold root (fun m i => entry m kpml4 i) (range 256 512) Hf) with (m := m1)
    as (K1 & K2 & K3).
  { intros; apply rd64_range. }
  { intros m m' i Hix Hm. unfold entry, rd64. f_equal. apply mem_read_ext. intros a Ha. apply Hm.
    pose proof (frames_disjoint kpml4 root Hk Hf Hkr). unfold PAGE_SIZE in *. lia. }
  { intros i Hin%elem_of_range. lia. }
  change (fun m i => set_entry m root i (entry m kpml4 i)) with (copy_kernel_entry kpml4 root) in K1, K2, K3.
  set (m2 := foldl (copy_kernel_entry kpml4 root) m1 (range 256 512)) in *.
  split_and!.
  - unfold root, PAGE_SIZE. lia.
  - intros p Hp. apply fresh_um_inv; try done; cbn [ms_pmm ms_mem].
    + split; simpl; [by apply take_frame_inv|rewrite Hset; by intros [? _]%elem_of_difference|done].
    + simpl. lia.
    + rewrite Hset, Hno, elem_of_difference, elem_of_singleton. by intros [_ []].
    + intros i Hin. rewrite K2; [apply C1; apply elem_of_range; lia|lia|rewrite elem_of_range; lia].
    + rewrite Hset, Hno. by apply set_take_back.
  - intros i Hin. cbn [ms_mem]. rewrite K1 by (apply elem_of_range; lia).
    unfold entry, rd64. f_equal. apply mem_read_ext. intros a Ha. apply C3.
    pose proof (frames_disjoint kpml4 root Hk Hf Hkr). unfold PAGE_SIZE in *. lia.
  - by rewrite Hno.
  - intros a Ha. cbn [ms_mem]. by rewrite K3, C3.
Qed.

(** ** Freeing the user pages *)

Lemma free_user_pages_spec F G u : forall s p, um_inv F s p G -> umap p = u ->
  let s' := foldl (fun s e => release_page s (cr3 p) e) s u in
  um_inv F s' (set_umap p []) G /\
  (forall va, user_half va -> page_present s' p va = false) /\
  free_set (ms_pmm s') = umap_frames u ∪ free_set (ms_pmm s).
Proof.
  induction u as [|[v f] u IH]; intros s p Hum Hu; cbn [foldl].
  - split_and!; [| |set_solver +].
    + rewrite <- Hu, set_umap_id. done.
    + intros va Hva. destruct (page_present s p va) eqn:E; [|done].
      destruct (um_present _ _ _ _ Hum va Hva E) as (v & Hin & _). rewrite Hu in Hin.
      by apply not_elem_of_nil in Hin.
  - destruct (release_page_head F s p G v f u Hum Hu) as (Hum1 & _ & _ & Hfree).
    destruct (IH _ (set_umap p u) Hum1 eq_refl) as (Hum' & Habs & Hfree'). cbn [set_umap cr3] in *.
    split_and!; [done|done|]. rewrite Hfree', Hfree, umap_frames_cons. set_solver +.
Qed.

(** ** Sweeping the page tables *)

(** [s'] results from [s] by freeing the frames satisfying [P] without touching
  memory. *)
Record swept (s s' : mstate) (P : Z -> Prop) : Prop := {
  sw_mem : ms_mem s' = ms_mem s;
  sw_ok : vm_ok s';
  sw_total : total_frames (ms_pmm s') = total_frames (ms_pmm s);
  sw_free : forall x, x ∈ free_set (ms_pmm s') <-> x ∈ free_set (ms_pmm s) \/ P x
}.

Lemma swept_refl s : vm_ok s -> swept s s (fun _ => False).
Proof. intros. split; [done..|]. intros x. tauto. Qed.

Lemma swept_free s f : vm_ok s -> frame_addr f -> frame_no f < total_frames (ms_pmm s) ->
  swept s (free_frame_s s f) (fun x => x = frame_no f).
Proof.
  intros Hok Hf Ht. split; [done|by apply vm_ok_free|by apply free_frame_total|].
  intros x. rewrite free_frame_s_set by done. rewrite elem_of_union, elem_of_singleton. tauto.
Qed.

Lemma swept_trans s s1 s2 P Q R : swept s s1 P -> swept s1 s2 Q ->
  (forall x, R x <-> P x \/ Q x) -> swept s s2 R.
Proof.
  intros [] [] HR. split; try congruence. intros x. rewrite sw_free1, sw_free0, HR. tauto.
Qed.

(** A loop of sweeping steps over a list of indices. *)
Lemma swept_fold (step : mstate -> Z -> mstate) (P : Z -> Z -> Prop) l m total :
  (forall s i, i ∈ l -> vm_ok s -> ms_mem s = m -> total_frames (ms_pmm s) = total ->
     swept s (step s i) (P i)) ->
  forall s, vm_ok s -> ms_mem s = m -> total_frames (ms_pmm s) = total ->
  swept s (foldl step s l) (fun x => exists i, i ∈ l /\ P i x).
Proof.
  induction l as [|j l IH]; intros Hstep s Hok Hm Ht; cbn [foldl].
  - split; try done. intros x. split; [by left|]. intros [?|(i & Hi & _)]; [done|].
    by apply not_elem_of_nil in Hi.
  - destruct (Hstep s j) as [M O T Fr]; [by left|done..|].
    eapply swept_trans; [by apply Hstep; [left|..]| |].
    + apply IH; [|done|congruence|congruence]. intros s1 i Hi. apply Hstep. by right.
    + intros x. setoid_rewrite elem_of_cons. naive_solver.
Qed.

(** The frame an entry refers to, when present. *)
Definition child (m : mem) (t i : Z) (c : Z) : Prop :=
  has (entry m t i) VMM_PRESENT = true /\ c = Z.land (entry m t i) PHYS_MASK.

Definition frees_pd (m : mem) (pdpt j x : Z) : Prop :=
  exists pd, child m pdpt j pd /\
    (x = frame_no pd \/ exists k, k ∈ range 0 512 /\ exists pt, child m pd k pt /\ x = frame_no pt).

Definition frees_pdpt (m : mem) (pml4 i x : Z) : Prop :=
  exists pdpt, child m pml4 i pdpt /\
    (x = frame_no pdpt \/ exists j, j ∈ range 0 512 /\ frees_pd m pdpt j x).

Section Sweep.
Context (s0 : mstate) (root : Z) (G : table_map) (total : Z) (m : mem).
Context (Hpt : pt_inv s0 root G).
Context (Hbound : forall t x, G !! t = Some x -> frame_no t < total).
Context (Hsame : forall t x j, G !! t = Some x -> t <> root -> 0 <= j < 512 ->
  entry m t j = entry (ms_mem s0) t j).

Lemma not_root t k key : G !! t = Some (k, key) -> 0 < k -> t <> root.
Proof. intros Ht Hk ->. rewrite (pt_root _ _ _ Hpt) in Ht. injection Ht. lia. Qed.

Lemma child_table t k key i c : G !! t = Some (k, key) -> k < 3 -> 0 <= i < 512 ->
  (k = 0 -> i < 256) -> child (ms_mem s0) t i c -> G !! c = Some (k + 1, key * 512 + i).
Proof. intros Ht Hk Hi Hi0 [Hp ->]. by apply (pt_entries _ _ _ Hpt). Qed.

Lemma table_freeable t x : G !! t = Some x -> frame_addr t /\ frame_no t < total.
Proof. destruct x as [k key]. intros H. split; [|by eapply Hbound]. by eapply (pt_frames _ _ _ Hpt). Qed.

Lemma destroy_pt_swept pd key s k : G !! pd = Some (2, key) -> 0 <= k < 512 -> vm_ok s ->
  ms_mem s = m -> total_frames (ms_pmm s) = total ->
  swept s (destroy_pt pd s k) (fun x => exists pt, child (ms_mem s0) pd k pt /\ x = frame_no pt).
Proof.
  intros Hg Hk Hok Hm Ht. unfold destroy_pt. rewrite Hm, (Hsame pd _ k Hg) by (done || by eapply not_root).
  destruct (has (entry (ms_mem s0) pd k) VMM_PRESENT) eqn:E; cbn [negb].
  - assert (Hc : child (ms_mem s0) pd k (Z.land (entry (ms_mem s0) pd k) PHYS_MASK)) by done.
    pose proof (child_table pd 2 key k _ Hg ltac:(lia) Hk ltac:(lia) Hc) as Hgc.
    destruct (table_freeable _ _ Hgc). split; try apply (swept_free s); try done; try lia.
    intros x. rewrite (sw_free _ _ _ (swept_free s _ Hok ltac:(done) ltac:(lia))).
    split; (intros [?|Hx]; [by left|right]); [by eexists|]. by destruct Hx as (pt & [_ ->] & ->).
  - split; try done. intros x. split; [by left|]. intros [?|(pt & [? _] & _)]; [done|congruence].
Qed.

Lemma destroy_pd_swept pdpt key s j : G !! pdpt = Some (1, key) -> 0 <= j < 512 -> vm_ok s ->
  ms_mem s = m -> total_frames (ms_pmm s) = total ->
  swept s (destroy_pd pdpt s j) (frees_pd (ms_mem s0) pdpt j).
Proof.
  intros Hg Hj Hok Hm Ht. unfold destroy_pd. rewrite Hm, (Hsame pdpt _ j Hg) by (done || by eapply not_root).
  destruct (has (entry (ms_mem s0) pdpt j) VMM_PRESENT) eqn:E; cbn [negb].
  - set (pd := Z.land (entry (ms_mem s0) pdpt j) PHYS_MASK).
    assert (Hc : child (ms_mem s0) pdpt j pd) by done.
    pose proof (child_table pdpt 1 key j _ Hg ltac:(lia) Hj ltac:(lia) Hc) as Hgc.
    destruct (table_freeable _ _ Hgc).
    pose proof (swept_fold (destroy_pt pd) (fun k x => exists pt, child (ms_mem s0) pd k pt /\ x = frame_no pt)
      (range 0 512) m total) as Hf.
    specialize (Hf ltac:(intros s1 i Hi%elem_of_range ? ? ?; by eapply destroy_pt_swept) s Hok Hm Ht).
    pose proof Hf as [M O T _].
    eapply swept_trans; [exact Hf|apply swept_free; [done|done|lia]|].
    intros x. unfold frees_pd. split.
    + intros (pd' & [_ ->] & Hx). fold pd in Hx. tauto.
    + intros Hx. exists pd. split; [done|]. tauto.
  - split; try done. intros x. split; [by left|]. intros [?|(pd & [? _] & _)]; [done|congruence].
Qed.

Lemma destroy_pd_all pdpt key s : G !! pdpt = Some (1, key) -> vm_ok s ->
  ms_mem s = m -> total_frames (ms_pmm s) = total ->
  swept s (foldl (destroy_pd pdpt) s (range 0 512))
    (fun x => exists j, j ∈ range 0 512 /\ frees_pd (ms_mem s0) pdpt j x).
Proof.
  intros Hg Hok Hm Ht. apply (swept_fold _ _ _ m total); [|done..].
  intros s1 i Hi%elem_of_range ? ? ?. by eapply destroy_pd_swept.
Qed.
End Sweep.

#[local] Opaque range.

(** The outer loop also clears the root entries it has dealt with. *)
Record swept_root (s0 : mstate) (root : Z) (i : Z) (s s' : mstate) (P : Z -> Prop) : Prop := {
  sr_ok : vm_ok s';
  sr_total : total_frames (ms_pmm s') = total_frames (ms_pmm s);
  sr_mem : forall a, ~ (root <= a < root + PAGE_SIZE) -> mem_get (ms_mem s') a = mem_get (ms_mem s0) a;
  sr_root : forall j, i <= j < 512 -> entry (ms_mem s') root j = entry (ms_mem s0) root j;
  sr_free : forall x, x ∈ free_set (ms_pmm s') <-> x ∈ free_set (ms_pmm s) \/ P x
}.

Lemma root_slot_cleared s0 root G i s s1 pdpt P : pt_inv s0 root G -> 0 <= i < 256 ->
  swept s s1 P -> frame_addr pdpt -> frame_no pdpt < total_frames (ms_pmm s) ->
  (forall a, ~ (root <= a < root + PAGE_SIZE) -> mem_get (ms_mem s) a = mem_get (ms_mem s0) a) ->
  (forall j, i <= j < 512 -> entry (ms_mem s) root j = entry (ms_mem s0) root j) ->
  let s2 := free_frame_s s1 pdpt in
  swept_root s0 root (i + 1) s (with_mem s2 (set_entry (ms_mem s2) root i 0))
    (fun x => P x \/ x = frame_no pdpt).
Proof.
  intros Hpt Hi [M1 O1 T1 F1] Hf Hft Hm Hr. pose proof (pt_root _ _ _ Hpt) as Hroot.
  destruct (pt_frames _ _ _ Hpt _ _ _ Hroot) as (Hfr & _).
  pose proof (swept_free s1 pdpt O1 Hf ltac:(lia)) as [M2 O2 T2 F2].
  split; cbn [with_mem ms_pmm ms_mem].
  - by destruct O2; split.
  - by rewrite T2, T1.
  - intros a Ha. rewrite set_entry_out by (done || lia). rewrite M2, M1. by apply Hm.
  - intros j Hj. rewrite entry_set_ne by (done || lia || congruence || (intros [= ?]; lia)).
    rewrite M2, M1. apply Hr. lia.
  - intros x. rewrite F2, F1. tauto.
Qed.

Lemma swept_root_iff s0 root i s s' P Q : swept_root s0 root i s s' P -> (forall x, P x <-> Q x) ->
  swept_root s0 root i s s' Q.
Proof. intros [] HPQ. split; try done. intros x. by rewrite sr_free0, HPQ. Qed.

Lemma outside_root_same s0 root G s : pt_inv s0 root G ->
  (forall a, ~ (root <= a < root + PAGE_SIZE) -> mem_get (ms_mem s) a = mem_get (ms_mem s0) a) ->
  forall t x j, G !! t = Some x -> t <> root -> 0 <= j < 512 ->
    entry (ms_mem s) t j = entry (ms_mem s0) t j.
Proof.
  intros Hpt Hm t [k key] j Hg Hne Hj. destruct (pt_frames _ _ _ Hpt _ _ _ Hg) as (Hft & _).
  destruct (pt_frames _ _ _ Hpt _ _ _ (pt_root _ _ _ Hpt)) as (Hfr & _).
  unfold entry, rd64. f_equal. apply mem_read_ext. intros a Ha. apply Hm.
  pose proof (frames_disjoint t root Hft Hfr Hne). unfold PAGE_SIZE in *. lia.
Qed.

Lemma destroy_pdpt_swept s0 root G total s i : pt_inv s0 root G ->
  (forall t x, G !! t = Some x -> frame_no t < total) -> 0 <= i < 256 -> vm_ok s ->
  total_frames (ms_pmm s) = total ->
  (forall a, ~ (root <= a < root + PAGE_SIZE) -> mem_get (ms_mem s) a = mem_get (ms_mem s0) a) ->
  (forall j, i <= j < 512 -> entry (ms_mem s) root j = entry (ms_mem s0) root j) ->
  swept_root s0 root (i + 1) s (destroy_pdpt root s i) (frees_pdpt (ms_mem s0) root i).
Proof.
  intros Hpt Hb Hi Hok Ht Hm Hr. pose proof (pt_root _ _ _ Hpt) as Hroot.
  pose proof (outside_root_same _ _ _ _ Hpt Hm) as Hsame.
  unfold destroy_pdpt. rewrite Hr by lia.
  destruct (has (entry (ms_mem s0) root i) VMM_PRESENT) eqn:E; cbn [negb].
  - destruct (pt_entries _ _ _ Hpt root 0 0 i Hroot) as [Hgc _]; [lia|lia|lia|done|].
    destruct (table_freeable s0 root G total Hpt Hb _ _ Hgc) as [Hf Hft]. rewrite <- Ht in Hft.
    eapply swept_root_iff.
    + eapply (root_slot_cleared s0 root G); [done|done| |done|done|done|done].
      by apply (destroy_pd_all s0 root G total (ms_mem s) Hpt Hb Hsame _ _ s Hgc).
    + intros x. unfold frees_pdpt, child. split.
      * intros Hx. eexists. split; [by split|tauto].
      * intros (c & [_ ->] & Hx). tauto.
  - split; try done; [intros j Hj; apply Hr; lia|]. intros x. split; [by left|].
    intros [?|(c & [? _] & _)]; [done|congruence].
Qed.

Lemma destroy_all s0 root G total n : pt_inv s0 root G ->
  (forall t x, G !! t = Some x -> frame_no t < total) -> forall i s, 0 <= i -> i + Z.of_nat n = 256 ->
  vm_ok s -> total_frames (ms_pmm s) = total ->
  (forall a, ~ (root <= a < root + PAGE_SIZE) -> mem_get (ms_mem s) a = mem_get (ms_mem s0) a) ->
  (forall j, i <= j < 512 -> entry (ms_mem s) root j = entry (ms_mem s0) root j) ->
  swept_root s0 root 256 s (foldl (destroy_pdpt root) s (range i 256))
    (fun x => exists j, i <= j < 256 /\ frees_pdpt (ms_mem s0) root j x).
Proof.
  intros Hpt Hb. induction n as [|n IH]; intros i s Hi Hn Hok Ht Hm Hr.
  - rewrite range_nil by lia. cbn [foldl]. split; try done; [intros j ?; apply Hr; lia|].
    intros x. split; [by left|]. intros [?|(j & ? & _)]; [done|lia].
  - rewrite range_cons by lia. cbn [foldl].
    destruct (destroy_pdpt_swept s0 root G total s i Hpt Hb ltac:(lia) Hok Ht Hm Hr) as [O T M R Fr].
    destruct (IH (i + 1) (destroy_pdpt root s i)) as [O' T' M' R' Fr']; try done; try lia.
    split; try done; [by rewrite T', T|]. intros x. rewrite Fr', Fr. split.
    + intros [[?|?]|(j & ? & ?)]; [by left|right; exists i; by split; [lia|]|right; exists j; by split; [lia|]].
    + intros [?|(j & ? & ?)]; [tauto|]. destruct (decide (j = i)) as [->|]; [tauto|].
      right. exists j. by split; [lia|].
Qed.

(** Every table but the root hangs below some entry of the user half. *)
Lemma tables_reached s root G t k key : pt_inv s root G -> G !! t = Some (k, key) -> t <> root ->
  exists i, 0 <= i < 256 /\ frees_pdpt (ms_mem s) root i (frame_no t).
Proof.
  intros Hpt Ht Hne.
  assert (Hstep : forall t k key, G !! t = Some (k, key) -> t <> root -> exists t' k' key' i,
    G !! t' = Some (k', key') /\ k = k' + 1 /\ 0 <= i < 512 /\ (k' = 0 -> i < 256) /\
    child (ms_mem s) t' i t /\ k' < 3 /\ (k' = 0 <-> t' = root)).
  { intros t1 k1 key1 H1 Hn1.
    destruct (pt_parent _ _ _ Hpt _ _ _ H1 Hn1) as (t' & k' & key' & i & Hg & -> & ? & ? & ? & Hp & Hm).
    exists t', k', key', i. split_and!; try done; try lia. split.
    - intros ->. destruct (decide (t' = root)) as [|Hr]; [done|].
      destruct (pt_parent _ _ _ Hpt _ _ _ Hg Hr) as (t2 & k2 & key2 & i2 & Hg2 & ? & _).
      destruct (pt_frames _ _ _ Hpt _ _ _ Hg2) as (_ & ? & _). lia.
    - intros ->. rewrite (pt_root _ _ _ Hpt) in Hg. by injection Hg. }
  destruct (Hstep t k key Ht Hne) as (t1 & k1 & key1 & i1 & Hg1 & -> & Hi1 & Hi1' & Hc1 & Hk1 & Hr1).
  destruct (decide (t1 = root)) as [->|Hn1].
  { exists i1. assert (k1 = 0) by tauto. split; [lia|]. exists t. split; [done|by left]. }
  destruct (Hstep t1 k1 key1 Hg1 Hn1) as (t2 & k2 & key2 & i2 & Hg2 & -> & Hi2 & Hi2' & Hc2 & Hk2 & Hr2).
  destruct (decide (t2 = root)) as [->|Hn2].
  { exists i2. assert (k2 = 0) by tauto. split; [lia|]. exists t1. split; [done|]. right.
    exists i1. split; [by apply elem_of_range|]. exists t. split; [done|by left]. }
  destruct (Hstep t2 k2 key2 Hg2 Hn2) as (t3 & k3 & key3 & i3 & Hg3 & -> & Hi3 & Hi3' & Hc3 & Hk3 & Hr3).
  destruct (pt_frames _ _ _ Hpt _ _ _ Hg3) as (_ & ? & _). assert (k3 = 0) by lia.
  assert (t3 = root) as -> by tauto. exists i3. split; [lia|]. exists t2. split; [done|]. right.
  exists i2. split; [by apply elem_of_range|]. exists t1. split; [done|]. right.
  exists i1. split; [by apply elem_of_range|]. by exists t.
Qed.

Lemma sweep_is_tables s root G x : pt_inv s root G ->
  x ∈ table_frames G <-> x = frame_no root \/ exists i, 0 <= i < 256 /\ frees_pdpt (ms_mem s) root i x.
Proof.
  intros Hpt. rewrite elem_of_table_frames. split.
  - intros (t & [k key] & Ht & ->). destruct (decide (t = root)) as [->|Hne]; [by left|right].
    by eapply tables_reached.
  - pose proof (pt_root _ _ _ Hpt) as Hr.
    assert (Hch : forall t k key i c, G !! t = Some (k, key) -> k < 3 -> 0 <= i < 512 ->
      (k = 0 -> i < 256) -> child (ms_mem s) t i c -> G !! c = Some (k + 1, key * 512 + i)).
    { intros t k key i c Ht Hk Hi Hi0 [Hp ->]. by apply (pt_entries _ _ _ Hpt). }
    intros [->|(i & Hi & pdpt & Hc1 & Hx)]; [by eexists _, _|].
    pose proof (Hch _ _ _ i _ Hr ltac:(lia) ltac:(lia) ltac:(lia) Hc1) as H1.
    destruct Hx as [->|(j & Hj%elem_of_range & pd & Hc2 & Hx)]; [by eexists _, _|].
    pose proof (Hch _ _ _ j _ H1 ltac:(lia) ltac:(lia) ltac:(lia) Hc2) as H2.
    destruct Hx as [->|(k & Hk%elem_of_range & pt & Hc3 & ->)]; [by eexists _, _|].
    pose proof (Hch _ _ _ k _ H2 ltac:(lia) ltac:(lia) ltac:(lia) Hc3) as H3. by eexists _, _.
Qed.

Lemma destroy_spec F s p G : um_inv F s p G ->
  let '(s', p') := process_destroy_user_space s p in
  vm_ok s' /\ free_set (ms_pmm s') = F /\ p' = set_cr3 (set_umap p []) 0.
Proof.
  intros Hum. unfold process_destroy_user_space, free_user_pages.
  destruct (free_user_pages_spec F G (umap p) s p Hum eq_refl) as (Hum1 & _ & _).
  set (s1 := foldl _ s (umap p)) in *. clearbody s1.
  pose proof (um_pt _ _ _ _ Hum1) as Hpt. cbn [set_umap cr3] in Hpt.
  destruct (destroy_all s1 (cr3 p) G (total_frames (ms_pmm s1)) 256 Hpt (um_tables _ _ _ _ Hum1) 0 s1
    ltac:(lia) ltac:(lia) (um_ok _ _ _ _ Hum1) eq_refl ltac:(reflexivity) ltac:(reflexivity))
    as [O T _ _ Fr].
  set (s2 := foldl (destroy_pdpt (cr3 p)) s1 (range 0 256)) in *. clearbody s2.
  pose proof (pt_root _ _ _ Hpt) as Hr. destruct (pt_frames _ _ _ Hpt _ _ _ Hr) as (Hf & _).
  pose proof (um_tables _ _ _ _ Hum1 _ _ Hr) as Hft. rewrite <- T in Hft.
  split_and!; [by apply vm_ok_free| |done].
  rewrite free_frame_s_set by done. rewrite <- (um_account _ _ _ _ Hum1). unfold owned.
  apply set_eq. intros x. rewrite !elem_of_union, elem_of_singleton, Fr, (sweep_is_tables _ _ _ x Hpt).
  cbn [set_umap umap]. unfold umap_frames. cbn [fmap list_fmap list_to_set].
  rewrite elem_of_empty. tauto.
Qed.

(** ** Whole runs of a process's memory *)

Section Runs.
Context (s0 : mstate) (kpml4 : Z) (nx : bool).

(** The states a process's memory goes through: creation, then any sequence
  of page allocations and memory system calls. *)
Inductive um_run : mstate -> process_t -> Prop :=
  | run_create p r s : address_space_create s0 kpml4 = (r, s) -> r <> 0 ->
      fresh_space p r -> heap_ok p -> um_run s p
  | run_page s p v fl st s' p' : um_run s p -> 0 <= v -> page_flags_ok fl ->
      process_alloc_user_page s p v fl = (st, s', p') -> um_run s' p'
  | run_brk s p addr r s' p' : um_run s p -> 0 <= addr < 2 ^ 64 ->
      sys_brk s p addr = Some (r, s', p') -> um_run s' p'
  | run_mmap s p addr len prot flags fd off r s' p' : um_run s p -> 0 <= addr < 2 ^ 64 ->
      0 <= len < 2 ^ 64 ->
      sys_mmap nx s p addr len prot flags fd off = Some (r, s', p') -> um_run s' p'
  | run_munmap s p addr len r s' p' : um_run s p -> 0 <= addr < 2 ^ 64 -> 0 <= len < 2 ^ 64 ->
      sys_munmap s p addr len = (r, s', p') -> um_run s' p'.

Lemma heap_ok_umap p u : heap_ok p -> heap_ok (set_umap p u).
Proof. intros []. by split. Qed.

Lemma um_run_inv s p : vm_ok s0 -> frame_addr kpml4 -> frame_no kpml4 ∉ free_set (ms_pmm s0) ->
  um_run s p -> heap_ok p /\ exists G, um_inv (free_set (ms_pmm s0)) s p G.
Proof.
  intros Hok Hk Hkn. induction 1 as
    [p r s Hc Hr Hp Hh|s p v fl st s' p' _ IH Hv Hfl Ha|s p addr r s' p' _ IH Ha Hb
    |s p addr len prot flags fd off r s' p' _ IH Ha Hl Hm|s p addr len r s' p' _ IH Ha Hl Hm].
  - split; [done|]. pose proof (address_space_create_spec s0 kpml4 Hok Hk Hkn) as Hs.
    rewrite Hc in Hs. destruct Hs as [(-> & _)|(_ & Hs & _)]; [done|]. eexists. by apply Hs.
  - destruct IH as [Hh [G Hum]]. apply (alloc_user_spec (free_set (ms_pmm s0)) s p G) in Ha; [|done..].
    destruct Ha as (HG & _ & [(_ & _ & _ & f & -> & _)|(_ & -> & _)]);
      (split; [|done]); [by apply heap_ok_umap|done].
  - destruct IH as [Hh [G Hum]].
    destruct (sys_brk_cases _ s p G addr Hum Hh Ha) as (r1 & s1 & p1 & E & HG & Hp & Hcase).
    rewrite Hb in E. injection E as -> -> ->. split; [|done]. destruct Hh as [H1 H2 H3].
    rewrite Hp. split; simpl; [done|done|].
    destruct Hcase as [(_ & _ & _ & ->)|(_ & _ & [(_ & _ & -> & _)|[(_ & _ & -> & _)|(_ & _ & -> & _)]])]; done.
  - destruct IH as [Hh [G Hum]].
    destruct (sys_mmap_inv _ nx s p G addr len prot flags fd off Hum Ha Hl) as (r1 & s1 & p1 & E & HG & Hp).
    rewrite Hm in E. injection E as -> -> ->. split; [|done]. rewrite Hp. by apply heap_ok_umap.
  - destruct IH as [Hh [G Hum]]. pose proof (sys_munmap_cases _ s p G addr len Hum Ha Hl) as Hs.
    rewrite Hm in Hs. destruct Hs as [(_ & [HG Hp _ _ _ _ _])|(_ & -> & ->)]; [|by eauto].
    split; [rewrite Hp; by apply heap_ok_umap|by eexists].
Qed.
End Runs.

(** ** A concrete process *)

Definition demo_proc : process_t := set_heap (set_cr3 process_zero demo_root) 0x500000 0x501000 VMM_WRITE.
Definition demo_account : gset Z := free_set (ms_pmm demo_state) ∪ {[frame_no demo_root]}.

Lemma demo_um_inv : um_inv demo_account demo_state demo_proc demo_tables.
Proof.
  apply fresh_um_inv; try done. apply demo_vm_ok.
Qed.

Lemma demo_heap_ok : heap_ok demo_proc.
Proof. split; [done|by vm_compute|simpl; lia]. Qed.

(** ** Properties *)

(** C1.  Over its whole life a process never shares or leaks memory: after any
  sequence of page allocations, [brk], [mmap] and [munmap] calls, every present
  user page is backed by an allocated frame that is not a page table and that
  backs no other page, and tearing the address space down makes exactly the
  frames free again that were free before it was created. *)
Theorem user_memory_sound s0 kpml4 nx s p : vm_ok s0 -> frame_addr kpml4 ->
  frame_no kpml4 ∉ free_set (ms_pmm s0) -> um_run s0 kpml4 nx s p ->
  exists G, pt_inv s (cr3 p) G /\
  (forall va, user_half va -> page_present s p va = true ->
     user_frame s G (Z.land (vmm_get_pte (ms_mem s) (cr3 p) va) PHYS_MASK)) /\
  (forall va va', user_half va -> user_half va' ->
     page_present s p va = true -> page_present s p va' = true ->
     Z.land (vmm_get_pte (ms_mem s) (cr3 p) va) PHYS_MASK =
     Z.land (vmm_get_pte (ms_mem s) (cr3 p) va') PHYS_MASK -> page_of va = page_of va') /\
  let '(s', p') := process_destroy_user_space s p in
  vm_ok s' /\ free_set (ms_pmm s') = free_set (ms_pmm s0) /\ umap p' = [] /\ cr3 p' = 0.
Proof.
  intros Hok Hk Hkn Hrun. destruct (um_run_inv s0 kpml4 nx s p Hok Hk Hkn Hrun) as [_ [G Hum]].
  exists G. split_and!; [apply Hum| | |].
  - intros va. by eapply um_frame_of.
  - intros va va'. by eapply um_frame_inj.
  - pose proof (destroy_spec _ s p G Hum) as Hd.
    destruct (process_destroy_user_space s p) as [s' p']. destruct Hd as (? & ? & ->). done.
Qed.

Definition demo_created : Z * mstate := address_space_create demo_state demo_root2.
Definition demo_new : process_t :=
  set_heap (set_cr3 process_zero (16 * 4096)) 0x500000 0x501000 VMM_WRITE.

Lemma user_memory_sound_witness :
  let '(st, s, p) := process_alloc_user_page demo_created.2 demo_new 0x400000 VMM_WRITE in
  st = VOID_OK /\
  free_set (ms_pmm (process_destroy_user_space s p).1) = free_set (ms_pmm demo_state).
Proof.
  assert (Hfr : frame_addr demo_root2) by (split; [unfold demo_root2; lia|reflexivity]).
  assert (Hnf : frame_no demo_root2 ∉ free_set (ms_pmm demo_state))
    by (vm_compute; intros; discriminate).
  assert (Hnew : um_run demo_state demo_root2 true demo_created.2 demo_new).
  { eapply run_create; [exact (surjective_pairing demo_created)|vm_compute; discriminate|by split|].
    split; [done|by vm_compute|simpl; lia]. }
  assert (Hst : (process_alloc_user_page demo_created.2 demo_new 0x400000 VMM_WRITE).1.1 = VOID_OK)
    by (vm_compute; reflexivity).
  generalize dependent demo_created. generalize demo_new. intros p0 c0 Hnew Hst.
  destruct (process_alloc_user_page c0.2 p0 0x400000 VMM_WRITE) as [[st s] p] eqn:E.
  split; [exact Hst|].
  assert (Hrun : um_run demo_state demo_root2 true s p).
  { apply (run_page _ _ _ c0.2 p0 0x400000 VMM_WRITE st); [exact Hnew|lia|by vm_compute|exact E]. }
  destruct (user_memory_sound demo_state demo_root2 true s p demo_vm_ok Hfr Hnf Hrun)
    as (G & _ & _ & _ & Hd).
  destruct (process_destroy_user_space s p) as [s' p']. destruct Hd as (_ & Hd & _). exact Hd.
Defined.



(** Anonymous [mmap] (for lengths up to 4 MiB; a process can hold 1 MiB of
  pages): the call always answers, keeps the invariant and the contents of every
  page the process already has, and either fails with a negative code leaving
  the user-visible mappings as they were, or maps exactly the pages of a range
  that was clear, zero-filled and with the permissions asked for, nothing else
  changing; a fixed address is honoured, and without one the range is the
  highest clear one between the heap and the stack. *)
Theorem sys_mmap_correct F nx s p G addr len prot flags fd offset :
  um_inv F s p G -> cr3 p <> 0 -> 0 <= addr < 2 ^ 64 -> 0 <= len <= USER_CODE_BASE ->
  exists r s' p', sys_mmap nx s p addr len prot flags fd offset = Some (r, s', p') /\
    (exists G', um_inv F s' p' G') /\ p' = set_umap p (umap p') /\ keeps_umap s p s' /\
    ((r < 0 /\ mappings_kept s p s') \/
     (0 <= r /\ 0 < len /\ prot <> PROT_NONE /\
      mmap_success s p addr (page_up len) (mmap_prot_flags nx prot) r s')).
Proof. apply sys_mmap_cases. Qed.

Lemma sys_mmap_correct_witness :
  exists s' p', sys_mmap true demo_state demo_proc 0 8000 2 0x22 (-1) 0 =
      Some (USER_MMAP_TOP - 0x2000, s', p') /\
    page_present s' demo_proc (USER_MMAP_TOP - 1) = true.
Proof.
  assert (H : (fun x => fst (fst x)) <$> sys_mmap true demo_state demo_proc 0 8000 2 0x22 (-1) 0
              = Some (USER_MMAP_TOP - 0x2000)) by (vm_compute; reflexivity).
  pose proof (sys_mmap_correct demo_account true demo_state demo_proc demo_tables 0 8000 2 0x22 (-1) 0
    demo_um_inv ltac:(cbn; unfold demo_root; lia) ltac:(lia) ltac:(unfold USER_CODE_BASE; lia)) as Hm.
  destruct Hm as (r & s' & p' & E & _ & _ & _ & Hr). rewrite E in H. injection H as ->.
  exists s', p'. split; [exact E|]. clear E. destruct Hr as [[Hn _]|(_ & _ & _ & Hok)]; [discriminate Hn|].
  destruct (ms_mapped _ _ _ _ _ _ _ Hok (USER_MMAP_TOP - 1)) as (g & Hg & Hf & _).
  { split; [vm_compute; discriminate|reflexivity]. }
  unfold page_present. rewrite Hg. apply user_pte_facts; [exact Hf|by vm_compute].
Defined.

(** [munmap] releases every recorded page from [addr] up to the stack:
  their frames become free, the pages absent, and every other page keeps its
  mapping.  The length is only checked: two calls with different valid lengths
  are the same call. *)
Theorem sys_munmap_correct F s p G addr len : um_inv F s p G -> 0 <= addr < 2 ^ 64 ->
  0 <= len < 2 ^ 64 ->
  (let '(r, s', p') := sys_munmap s p addr len in
   (r = 0 /\ released F (in_release_range addr) s p G s' p') \/ (r < 0 /\ s' = s /\ p' = p)) /\
  (forall len', 0 <= len' < 2 ^ 64 -> (sys_munmap s p addr len).1.1 = 0 ->
     (sys_munmap s p addr len').1.1 = 0 -> sys_munmap s p addr len' = sys_munmap s p addr len).
Proof.
  intros Hum Ha Hl. split; [by apply sys_munmap_cases|]. intros len' _.
  unfold sys_munmap. repeat (case_if; [done|]). by destruct (um_release_from s p addr).
Qed.

Lemma sys_munmap_correct_witness : (sys_munmap demo_state demo_proc 0x600000 4096).1.1 = 0.
Proof.
  assert (H : (sys_munmap demo_state demo_proc 0x600000 1).1.1 = 0) by (vm_compute; reflexivity).
  assert (H2 : (sys_munmap demo_state demo_proc 0x600000 4096).1.1 = 0) by (vm_compute; reflexivity).
  destruct (sys_munmap_correct demo_account demo_state demo_proc demo_tables 0x600000 1 demo_um_inv
    ltac:(lia) ltac:(lia)) as [_ Hs].
  rewrite (Hs 4096 ltac:(lia) H H2). exact H.
Defined.

Lemma page_fuel_SS : exists n, page_fuel = S (S n).
Proof. by eexists. Qed.

(** Two consequences of how the break moves.  Shrinking it also unmaps the
  anonymous mappings above it: every recorded page between the new break and
  the stack is gone afterwards.  Growing it from an unaligned break replaces
  the page the break stands in by a fresh zeroed frame. *)
Theorem brk_side_effects F s p G addr : um_inv F s p G -> heap_ok p -> 0 <= addr < 2 ^ 64 ->
  heap_start p <= addr -> addr <> 0 ->
  (forall v f, addr < brk_current p -> (v, f) ∈ umap p -> page_up addr <= v < USER_MMAP_TOP ->
     exists r s' p', sys_brk s p addr = Some (r, s', p') /\ page_present s' p v = false) /\
  (brk_current p < addr <= brk_current p + PAGE_SIZE -> brk_current p + PAGE_SIZE < 2 ^ 64 ->
     forall s' p', sys_brk s p addr = Some (i64 addr, s', p') -> 0 <= i64 addr ->
     exists g, vmm_get_pte (ms_mem s') (cr3 p) (brk_current p) = user_pte g (brk_perm p) /\
       frame_no g ∈ free_set (ms_pmm s) /\ zero_bytes s' g).
Proof.
  intros Hum Hh Ha Hs Hnz. split.
  - intros v f Hlt Hin Hv.
    destruct (sys_brk_cases F s p G addr Hum Hh Ha) as (r & s' & p' & E & _ & _ & Hc).
    exists r, s', p'. split; [done|].
    destruct Hc as [([?|?] & _)|(_ & _ & [(? & _)|[(? & _)|(_ & _ & _ & Hrel & _)]])]; try lia.
    apply (rel_gone _ _ _ _ _ _ _ (Hrel Hlt) v f Hin). unfold in_release_range.
    rewrite (proj2 (Z.leb_le _ _)), (proj2 (Z.ltb_lt _ _)) by lia. done.
  - intros Hr Hw s' p' E Hpos. destruct Hh as [Hh Hperm Hb].
    unfold sys_brk, um_brk_set, um_brk_grow in E.
    rewrite (proj2 (Z.eqb_neq _ _) Hh), (proj2 (Z.eqb_neq _ _) Hnz) in E.
    rewrite (proj2 (Z.ltb_ge _ _) Hs), (proj2 (Z.ltb_lt (brk_current p) addr)) in E by lia.
    destruct (page_fuel_SS) as [n Hn]. rewrite Hn in E. cbn [brk_grow_loop] in E.
    rewrite (proj2 (Z.ltb_lt (brk_current p) addr)) in E by lia.
    destruct (process_alloc_user_page s p (brk_current p) (brk_perm p)) as [[st s1] p1] eqn:Ea.
    apply (alloc_user_spec F s p G) in Ea; [|done|lia|done].
    destruct Ea as (_ & _ & [(-> & _ & _ & g & -> & Hpte & _ & Hg & Hz)|(-> & _)]);
      cbn [negb Z.eqb VOID_OK VOID_ERR_NOMEM] in E.
    + rewrite u64_id, (proj2 (Z.ltb_ge _ _)) in E by (unfold PAGE_SIZE in *; lia).
      cbn [negb Z.eqb] in E. injection E as <- <-. by exists g.
    + injection E as E _ _. rewrite <- E in Hpos. exfalso. by vm_compute in Hpos.
Qed.

(** A heap whose break was moved by 100 bytes. *)
Definition demo_grown : option (Z * mstate * process_t) := sys_brk demo_state demo_proc 0x501064.

Lemma brk_side_effects_witness : exists s p, (exists r, demo_grown = Some (r, s, p)) /\
  exists s' p' g, sys_brk s p 0x5010C8 = Some (0x5010C8, s', p') /\
    vmm_get_pte (ms_mem s') (cr3 p) 0x501064 = user_pte g VMM_WRITE /\
    frame_no g ∈ free_set (ms_pmm s).
Proof.
  assert (Hv : match demo_grown with
               | Some (r, s, p) => brk_current p = 0x501064 /\ heap_start p = 0x500000 /\
                   brk_perm p = VMM_WRITE /\
                   (fun x => fst (fst x)) <$> sys_brk s p 0x5010C8 = Some 0x5010C8
               | None => False end) by (vm_compute; by split_and!).
  destruct (sys_brk_cases demo_account demo_state demo_proc demo_tables 0x501064 demo_um_inv
    demo_heap_ok ltac:(lia)) as (r & s & p & E & (G & Hum) & _).
  fold demo_grown in E. rewrite E in Hv. exists s, p. split; [by exists r|]. clear E.
  destruct Hv as (Hb & Hst & Hpm & H2).
  assert (Hh : heap_ok p).
  { split; [rewrite Hst; lia|rewrite Hpm; by vm_compute|rewrite Hb; lia]. }
  destruct (brk_side_effects demo_account s p G 0x5010C8 Hum Hh ltac:(lia) ltac:(lia) ltac:(lia))
    as [_ H]. rewrite Hb, Hpm in H.
  destruct (sys_brk s p 0x5010C8) as [[[r' s'] p']|] eqn:E2; [|discriminate H2]. injection H2 as ->.
  destruct (H ltac:(unfold PAGE_SIZE; lia) ltac:(unfold PAGE_SIZE; lia) s' p' eq_refl
    ltac:(vm_compute; discriminate)) as (g & Hg & Hfr & _).
  exists s', p', g. by split_and!.
Defined.
