(* ===== verification/Uaccess.v ===== *)
(** * User pointers ([user_range_ok], [copy_from_user], [copy_to_user] of
  [kernel/syscall/syscall.c])

  Every pointer from Ring 3 is checked page by page against the caller's page
  tables before the kernel touches it through the direct map.  The components
  above (IPC, services, VFS) use only the interface [UserAccess] with its laws,
  which this file's implementation satisfies. *)
From S2P Require Import Prelude Pmm PhysMem Vmm ProcData UserMem AddrSpace UserOps Teardown.

(** ** The interface *)
Class UserAccess (M P : Type) := {
  ua_range_ok : M -> P -> Z -> Z -> bool -> bool;
  ua_copy_from : M -> P -> Z -> Z -> option (list Z);
  ua_copy_to : M -> P -> Z -> list Z -> bool * M
}.

(** ** The implementation *)

Definition user_page_ok (m : mem) (root : Z) (need_write : bool) (v : Z) : bool :=
  let pte := vmm_get_pte m root v in
  if negb (has pte VMM_PRESENT) then false
  else if negb (has pte VMM_USER) then false
  else if need_write && negb (has pte VMM_WRITE) then false
  else true.

Definition user_range_ok (m : mem) (p : process_t) (base len : Z) (need_write : bool) : bool :=
  if len =? 0 then false
  else if USER_LIMIT <=? base then false
  else if USER_LIMIT <? len then false
  else if u64 (base + len) <? base then false
  else if USER_LIMIT <? u64 (base + len) then false
  else
    let first := Z.land base PAGE_MASK in
    let last := Z.land (u64 (base + len - 1)) PAGE_MASK in
    forallb (user_page_ok m (cr3 p) need_write) (pages_from first (last + 1)).

(** The size of the piece starting [done] bytes into the copy. *)
Definition chunk_size (uaddr len done_ : Z) : Z :=
  let va := u64 (uaddr + done_) in
  let page := Z.land va PAGE_MASK in
  let offset := va - page in
  let chunk := PAGE_SIZE - offset in
  if len - done_ <? chunk then len - done_ else chunk.

(** [while (done < len)]; each turn finishes a page, so [len / PAGE_SIZE + 3]
  turns are enough. *)
Fixpoint copy_from_loop (fuel : nat) (m : mem) (p : process_t) (usrc len done_ : Z) (out : list Z)
    : option (list Z) :=
  match fuel with
  | O => None
  | S fuel =>
      if done_ <? len then
        let va := u64 (usrc + done_) in
        let chunk := chunk_size usrc len done_ in
        let phys := vmm_virt_to_phys m (cr3 p) va in
        if phys =? 0 then None
        else copy_from_loop fuel m p usrc len (done_ + chunk) (out ++ mem_read m phys chunk)
      else Some out
  end.

Definition copy_fuel (len : Z) : nat := Z.to_nat (len / PAGE_SIZE + 3).

(** [None] is the result [false]; [Some out] is [true] with the bytes stored at
  [dst]. *)
Definition copy_from_user (m : mem) (p : process_t) (usrc len : Z) : option (list Z) :=
  if negb (user_range_ok m p usrc len false) then None
  else copy_from_loop (copy_fuel len) m p usrc len 0 [].

Fixpoint copy_to_loop (fuel : nat) (m : mem) (p : process_t) (udst : Z) (src : list Z) (done_ : Z)
    : bool * mem :=
  match fuel with
  | O => (false, m)
  | S fuel =>
      let len := Z.of_nat (length src) in
      if done_ <? len then
        let va := u64 (udst + done_) in
        let chunk := chunk_size udst len done_ in
        let phys := vmm_virt_to_phys m (cr3 p) va in
        if phys =? 0 then (false, m)
        else copy_to_loop fuel
               (mem_write m phys (take (Z.to_nat chunk) (drop (Z.to_nat done_) src)))
               p udst src (done_ + chunk)
      else (true, m)
  end.

Definition copy_to_user (m : mem) (p : process_t) (udst : Z) (src : list Z) : bool * mem :=
  let len := Z.of_nat (length src) in
  if negb (user_range_ok m p udst len true) then (false, m)
  else copy_to_loop (copy_fuel len) m p udst src 0.

#[export] Instance kernel_user_access : UserAccess mem process_t := {|
  ua_range_ok := user_range_ok;
  ua_copy_from := copy_from_user;
  ua_copy_to := copy_to_user
|}.

(** ** What a range check means *)

Definition user_page (m : mem) (p : process_t) (need_write : bool) (va : Z) : Prop :=
  let pte := vmm_get_pte m (cr3 p) va in
  has pte VMM_PRESENT = true /\ has pte VMM_USER = true /\
  (need_write = true -> has pte VMM_WRITE = true).

Lemma user_page_ok_iff m p w va : user_page_ok m (cr3 p) w va = true <-> user_page m p w va.
Proof.
  unfold user_page_ok, user_page. destruct (has _ VMM_PRESENT), (has _ VMM_USER), w, (has _ VMM_WRITE);
    cbn; intuition congruence.
Qed.

Lemma page_start va : 0 <= va < 2 ^ 64 -> page_of (Z.land va PAGE_MASK) = page_of va /\
  aligned (Z.land va PAGE_MASK) /\ Z.land va PAGE_MASK <= va < Z.land va PAGE_MASK + PAGE_SIZE /\
  va - Z.land va PAGE_MASK = va mod PAGE_SIZE.
Proof.
  intros Hv. rewrite land_page_mask by done. unfold aligned, page_of, PAGE_SIZE.
  pose proof (Z.div_mod va 4096 ltac:(lia)). pose proof (Z.mod_pos_bound va 4096 ltac:(lia)).
  replace (va - va mod 4096) with (va / 4096 * 4096) by lia.
  rewrite Z.div_mul, Z.mod_mul by lia. lia.
Qed.

(** The check succeeds exactly when the range is a non-empty range of the user
  half all of whose bytes are on user pages. *)
Lemma user_range_ok_iff m p base len w : 0 <= base < 2 ^ 64 -> 0 <= len < 2 ^ 64 ->
  user_range_ok m p base len w = true <->
  0 < len /\ base + len <= USER_LIMIT /\ forall va, base <= va < base + len -> user_page m p w va.
Proof.
  intros Hb Hl. unfold user_range_ok, USER_LIMIT in *.
  destruct (Z.eqb_spec len 0); [split; [done|lia]|].
  destruct (Z.leb_spec 0x800000000000 base); [split; [done|lia]|].
  destruct (Z.ltb_spec 0x800000000000 len); [split; [done|lia]|].
  rewrite u64_id by lia. destruct (Z.ltb_spec (base + len) base); [lia|].
  destruct (Z.ltb_spec 0x800000000000 (base + len)); [split; [done|lia]|].
  rewrite u64_id by lia.
  destruct (page_start base) as (Hp1 & Ha1 & Hr1 & _); [lia|].
  destruct (page_start (base + len - 1)) as (Hp2 & Ha2 & Hr2 & _); [lia|].
  set (first := Z.land base PAGE_MASK) in *. set (last := Z.land (base + len - 1) PAGE_MASK) in *.
  rewrite forallb_forall. split.
  - intros Hall. split_and!; [lia|lia|]. intros va Hva.
    destruct (page_start va) as (Hpv & Hav & Hrv & _); [lia|]. set (v := Z.land va PAGE_MASK) in *.
    assert (Hin : v ∈ pages_from first (last + 1)).
    { apply elem_of_pages_from. exists (page_of va - page_of base).
      unfold aligned, page_of, PAGE_SIZE in *.
      pose proof (Z.div_mod v 4096 ltac:(lia)). pose proof (Z.div_mod first 4096 ltac:(lia)).
      pose proof (Z.div_mod last 4096 ltac:(lia)).
      assert (base / 4096 <= va / 4096) by (apply Z.div_le_mono; lia).
      assert (va / 4096 <= (base + len - 1) / 4096) by (apply Z.div_le_mono; lia). lia. }
    apply list_elem_of_In, Hall, user_page_ok_iff in Hin. unfold user_page in *.
    by rewrite (get_pte_page _ _ va v).
  - intros (_ & _ & Hall) v Hv%list_elem_of_In. apply elem_of_pages_from in Hv as (k & Hk & -> & Hlt).
    apply user_page_ok_iff. set (v := first + k * PAGE_SIZE) in *.
    destruct (decide (base <= v)) as [Hge|Hlt'].
    + apply Hall. unfold PAGE_SIZE in *. lia.
    + assert (k = 0) as -> by (unfold v, PAGE_SIZE in *; lia).
      assert (Hvb : page_of v = page_of base) by (unfold v; rewrite Z.add_0_r; done).
      specialize (Hall base ltac:(lia)). unfold user_page in *. by rewrite (get_pte_page _ _ v base).
Qed.

(** ** Bytes seen through the page tables *)

Definition user_byte (m : mem) (p : process_t) (va : Z) : Z :=
  mem_get m (vmm_virt_to_phys m (cr3 p) va).

Section UserBytes.
Context (F : gset Z) (s : mstate) (p : process_t) (G : table_map).
Context (Hum : um_inv F s p G).

Definition backing (va : Z) : Z := Z.land (vmm_get_pte (ms_mem s) (cr3 p) va) PHYS_MASK.

Lemma backing_frame va : user_half va -> page_present s p va = true -> user_frame s G (backing va).
Proof.
  intros Hv Hp. destruct (um_present _ _ _ _ Hum va Hv Hp) as (v & Hin & _).
  by destruct (um_frames _ _ _ _ Hum _ _ Hin).
Qed.

Lemma user_phys va : user_half va -> page_present s p va = true ->
  vmm_virt_to_phys (ms_mem s) (cr3 p) va = backing va + va mod PAGE_SIZE.
Proof.
  intros Hv Hp. rewrite (virt_to_phys_walk s (cr3 p) G) by (done || apply Hum). cbn zeta.
  unfold page_present in Hp. rewrite Hp. fold (backing va).
  destruct (backing_frame va Hv Hp) as (Hf & _).
  change 0xFFF with (Z.ones 12). rewrite Z.land_ones by lia. change (2 ^ 12) with PAGE_SIZE.
  symmetry. apply frame_add_offset; [done|]. apply Z.mod_pos_bound. unfold PAGE_SIZE. lia.
Qed.

(** Distinct user bytes are distinct physical bytes. *)
Lemma user_phys_inj va va' : user_half va -> user_half va' -> page_present s p va = true ->
  page_present s p va' = true ->
  vmm_virt_to_phys (ms_mem s) (cr3 p) va = vmm_virt_to_phys (ms_mem s) (cr3 p) va' -> va = va'.
Proof.
  intros Hv Hv' Hp Hp' He. rewrite !user_phys in He by done.
  destruct (backing_frame va Hv Hp) as (Hf & _). destruct (backing_frame va' Hv' Hp') as (Hf' & _).
  pose proof (Z.mod_pos_bound va PAGE_SIZE ltac:(unfold PAGE_SIZE; lia)).
  pose proof (Z.mod_pos_bound va' PAGE_SIZE ltac:(unfold PAGE_SIZE; lia)).
  assert (Hb : backing va = backing va').
  { destruct (decide (backing va = backing va')) as [|Hne]; [done|].
    pose proof (frames_disjoint _ _ Hf Hf' Hne). lia. }
  pose proof (um_frame_inj _ _ _ _ va va' Hum Hv Hv' Hp Hp' Hb) as Hpg.
  unfold page_of in *. unfold PAGE_SIZE in *.
  rewrite (Z.div_mod va 4096), (Z.div_mod va' 4096) by lia. lia.
Qed.

(** Writing inside one user frame keeps the address space intact. *)
Lemma write_user f a bs : user_frame s G f -> f <= a -> a + Z.of_nat (length bs) <= f + PAGE_SIZE ->
  let s' := with_mem s (mem_write (ms_mem s) a bs) in
  um_inv F s' p G /\ same_map (cr3 p) s s'.
Proof.
  intros (Hf & _ & _ & HG) Ha Hl. cbn zeta.
  destruct (pt_inv_frame s (with_mem s (mem_write (ms_mem s) a bs)) (cr3 p) G (um_pt _ _ _ _ Hum))
    as [Hpt Hsame].
  - intros t [k key] i Ht Hi. simpl. unfold entry. apply rd64_write_out.
    destruct (pt_frames _ _ _ (um_pt _ _ _ _ Hum) _ _ _ Ht) as (Hft & _).
    assert (f <> t) by (intros ->; congruence).
    pose proof (frames_disjoint f t Hf Hft ltac:(done)). unfold PAGE_SIZE in *. lia.
  - intros t [k key] Ht. by destruct (pt_frames _ _ _ (um_pt _ _ _ _ Hum) _ _ _ Ht) as (_ & _ & ?).
  - split; [|done]. split; try done; try apply Hum.
    + by destruct (um_ok _ _ _ _ Hum); split.
    + intros va Hva Hpr. unfold page_present in Hpr. rewrite Hsame in Hpr |- * by done.
      by apply (um_present _ _ _ _ Hum).
Qed.
End UserBytes.

(** ** The copy loops *)

(** Pages still to visit. *)
Definition pages_left (uaddr len done_ : Z) : Z :=
  if done_ <? len then page_of (uaddr + len - 1) - page_of (uaddr + done_) + 1 else 0.

Lemma chunk_facts uaddr len done_ : 0 <= uaddr -> 0 <= done_ < len -> uaddr + len <= USER_LIMIT ->
  let c := chunk_size uaddr len done_ in
  1 <= c <= len - done_ /\ (uaddr + done_) mod PAGE_SIZE + c <= PAGE_SIZE /\
  pages_left uaddr len (done_ + c) < pages_left uaddr len done_ /\ 0 <= pages_left uaddr len (done_ + c).
Proof.
  intros Hu Hd Hl. unfold USER_LIMIT in *. cbn zeta. unfold chunk_size. rewrite u64_id by lia.
  destruct (page_start (uaddr + done_) ltac:(lia)) as (_ & _ & _ & ->).
  unfold pages_left. rewrite (proj2 (Z.ltb_lt done_ len)) by lia. unfold page_of, PAGE_SIZE in *.
  pose proof (Z.div_mod (uaddr + done_) 4096 ltac:(lia)).
  pose proof (Z.mod_pos_bound (uaddr + done_) 4096 ltac:(lia)).
  assert ((uaddr + done_) / 4096 <= (uaddr + len - 1) / 4096) by (apply Z.div_le_mono; lia).
  destruct (Z.ltb_spec (len - done_) (4096 - (uaddr + done_) mod 4096)) as [Hlt|Hge].
  - replace (done_ + (len - done_)) with len by lia. rewrite Z.ltb_irrefl. lia.
  - split_and!; try lia.
    + destruct (Z.ltb_spec (done_ + (4096 - (uaddr + done_) mod 4096)) len); [|lia].
      replace (uaddr + (done_ + (4096 - (uaddr + done_) mod 4096)))
        with (((uaddr + done_) / 4096 + 1) * 4096) by lia.
      rewrite Z.div_mul by lia. lia.
    + destruct (Z.ltb_spec (done_ + (4096 - (uaddr + done_) mod 4096)) len); [|lia].
      assert ((uaddr + (done_ + (4096 - (uaddr + done_) mod 4096))) / 4096 <= (uaddr + len - 1) / 4096);
        [apply Z.div_le_mono; lia|lia].
Qed.

Lemma copy_fuel_enough uaddr len : 0 <= uaddr -> 0 < len ->
  pages_left uaddr len 0 < Z.of_nat (copy_fuel len).
Proof.
  intros Hu Hl. unfold pages_left, copy_fuel, page_of, PAGE_SIZE.
  rewrite (proj2 (Z.ltb_lt 0 len)), Z.add_0_r by lia.
  assert (0 <= len / 4096) by (apply Z.div_pos; lia).
  pose proof (Z.div_mod len 4096 ltac:(lia)). pose proof (Z.mod_pos_bound len 4096 ltac:(lia)).
  pose proof (Z.div_mod uaddr 4096 ltac:(lia)). pose proof (Z.mod_pos_bound uaddr 4096 ltac:(lia)).
  pose proof (Z.div_mod (uaddr + len - 1) 4096 ltac:(lia)).
  pose proof (Z.mod_pos_bound (uaddr + len - 1) 4096 ltac:(lia)). lia.
Qed.

(** The range [user_range_ok] accepted, as facts about pages. *)
Record user_range (s : mstate) (p : process_t) (base len : Z) (w : bool) : Prop := {
  ur_base : 0 <= base;
  ur_len : 0 < len;
  ur_limit : base + len <= USER_LIMIT;
  ur_pages : forall va, base <= va < base + len -> user_page (ms_mem s) p w va
}.

Lemma user_range_intro s p base len w : 0 <= base < 2 ^ 64 -> 0 <= len < 2 ^ 64 ->
  user_range_ok (ms_mem s) p base len w = true -> user_range s p base len w.
Proof. intros Hb Hl H. apply user_range_ok_iff in H as (? & ? & ?); [|done..]. split; (done || lia). Qed.

Lemma user_range_va s p base len w va : user_range s p base len w -> base <= va < base + len ->
  user_half va /\ page_present s p va = true.
Proof.
  intros [Hb Hl Hlim Hp] Hva. unfold user_half, USER_LIMIT in *. split; [lia|]. by apply Hp.
Qed.

(** A range of user addresses that are mapped, with whatever permissions. *)
Record mapped_range (s : mstate) (p : process_t) (base len : Z) : Prop := {
  mr_base : 0 <= base;
  mr_len : 0 < len;
  mr_limit : base + len <= USER_LIMIT;
  mr_pages : forall va, base <= va < base + len -> page_present s p va = true
}.

Lemma user_range_mapped s p base len w : user_range s p base len w -> mapped_range s p base len.
Proof. intros [Hb Hl Hlim Hp]. split; try done. intros va Hva. by apply Hp. Qed.

Lemma mapped_range_va s p base len va : mapped_range s p base len -> base <= va < base + len ->
  user_half va /\ page_present s p va = true.
Proof. intros [Hb Hl Hlim Hp] Hva. unfold user_half, USER_LIMIT in *. split; [lia|]. by apply Hp. Qed.

Section Copies.
Context (F : gset Z) (p : process_t) (G : table_map).

(** Consecutive bytes of one page are consecutive in memory. *)
Lemma phys_in_page s va i : um_inv F s p G -> user_half va -> user_half (va + i) ->
  page_present s p va = true -> 0 <= i -> va mod PAGE_SIZE + i < PAGE_SIZE ->
  vmm_virt_to_phys (ms_mem s) (cr3 p) (va + i) = vmm_virt_to_phys (ms_mem s) (cr3 p) va + i.
Proof.
  intros Hum Hv Hv' Hp Hi Hlt.
  assert (Hpg : page_of (va + i) = page_of va).
  { unfold page_of, PAGE_SIZE in *. pose proof (Z.div_mod va 4096 ltac:(lia)).
    pose proof (Z.mod_pos_bound va 4096 ltac:(lia)).
    symmetry. apply (Z.div_unique_pos _ _ _ (va mod 4096 + i)); lia. }
  assert (Hp' : page_present s p (va + i) = true) by (by rewrite (page_present_page _ _ _ va Hpg)).
  rewrite !(user_phys F s p G) by done. unfold backing. rewrite (get_pte_page _ _ _ va Hpg).
  unfold page_of, PAGE_SIZE in *. pose proof (Z.div_mod va 4096 ltac:(lia)).
  pose proof (Z.div_mod (va + i) 4096 ltac:(lia)). lia.
Qed.

Lemma phys_nonzero s va : um_inv F s p G -> user_half va -> page_present s p va = true ->
  vmm_virt_to_phys (ms_mem s) (cr3 p) va <> 0.
Proof.
  intros Hum Hv Hp. rewrite (user_phys F s p G) by done.
  destruct (backing_frame F s p G Hum va Hv Hp) as ([? _] & _).
  pose proof (Z.mod_pos_bound va PAGE_SIZE ltac:(unfold PAGE_SIZE; lia)). lia.
Qed.

Lemma read_chunk s va n : um_inv F s p G -> 0 <= n -> va mod PAGE_SIZE + n <= PAGE_SIZE ->
  (forall i, 0 <= i < n -> user_half (va + i) /\ page_present s p (va + i) = true) ->
  mem_read (ms_mem s) (vmm_virt_to_phys (ms_mem s) (cr3 p) va) n =
  (fun i => user_byte (ms_mem s) p (va + i)) <$> range 0 n.
Proof.
  intros Hum Hn Hlt Hr. unfold mem_read. apply list_fmap_ext. intros k i Hi.
  apply list_elem_of_lookup_2, elem_of_range in Hi. unfold user_byte. f_equal.
  destruct (Hr 0 ltac:(lia)) as [H0 H0']. rewrite Z.add_0_r in H0, H0'.
  destruct (Hr i Hi) as [H1 H1']. symmetry. apply phys_in_page; try done; lia.
Qed.

Lemma copy_from_loop_spec s usrc len fuel : um_inv F s p G -> user_range s p usrc len false ->
  forall done_, 0 <= done_ <= len -> pages_left usrc len done_ < Z.of_nat fuel ->
  copy_from_loop fuel (ms_mem s) p usrc len done_
    ((fun i => user_byte (ms_mem s) p (usrc + i)) <$> range 0 done_) =
  Some ((fun i => user_byte (ms_mem s) p (usrc + i)) <$> range 0 len).
Proof.
  intros Hum Hur. pose proof Hur as [Hb Hl Hlim _]. induction fuel as [|fuel IH]; intros done_ Hd Hf.
  { unfold pages_left in Hf. destruct (Z.ltb_spec done_ len); [|lia].
    assert (page_of (usrc + done_) <= page_of (usrc + len - 1)); [|lia].
    apply Z.div_le_mono; unfold PAGE_SIZE; lia. }
  cbn [copy_from_loop]. destruct (Z.ltb_spec done_ len) as [Hlt|].
  2: { by replace done_ with len by lia. }
  rewrite u64_id by (unfold USER_LIMIT in *; lia).
  destruct (chunk_facts usrc len done_ Hb ltac:(lia) Hlim) as (Hc & Hpg & Hpl & _).
  set (c := chunk_size usrc len done_) in *.
  destruct (user_range_va _ _ _ _ _ (usrc + done_) Hur ltac:(lia)) as [Hv Hp].
  rewrite (proj2 (Z.eqb_neq _ _)) by by apply phys_nonzero.
  rewrite (read_chunk s (usrc + done_) c); [|done|lia|done|].
  2: { intros i Hi. apply (user_range_va _ _ _ _ _ _ Hur). lia. }
  rewrite <- (IH (done_ + c)) by lia. f_equal. rewrite (range_app 0 done_ (done_ + c)) by lia.
  rewrite fmap_app. f_equal. rewrite range_shift, <- list_fmap_compose.
  apply list_fmap_ext. intros k i _. simpl. f_equal. lia.
Qed.

(** [copy_from_user] accepts exactly the valid ranges and returns the bytes
  the process sees at them. *)
Lemma copy_from_user_spec s usrc len : um_inv F s p G -> 0 <= usrc < 2 ^ 64 -> 0 <= len < 2 ^ 64 ->
  copy_from_user (ms_mem s) p usrc len =
    if user_range_ok (ms_mem s) p usrc len false
    then Some ((fun i => user_byte (ms_mem s) p (usrc + i)) <$> range 0 len) else None.
Proof.
  intros Hum Hu Hl. unfold copy_from_user.
  destruct (user_range_ok (ms_mem s) p usrc len false) eqn:E; cbn [negb]; [|done].
  apply user_range_intro in E; [|done..]. destruct E as [Hb Hlen Hlim Hp] eqn:Er.
  replace (@nil Z) with ((fun i => user_byte (ms_mem s) p (usrc + i)) <$> range 0 0) at 1
    by (by rewrite range_nil).
  apply copy_from_loop_spec; [done|done|lia|]. by apply copy_fuel_enough.
Qed.

(** Equal mappings translate addresses equally. *)
Lemma same_map_phys s s' va : um_inv F s p G -> um_inv F s' p G -> same_map (cr3 p) s s' ->
  user_half va -> vmm_virt_to_phys (ms_mem s') (cr3 p) va = vmm_virt_to_phys (ms_mem s) (cr3 p) va.
Proof.
  intros Hum Hum' Hs Hv. rewrite !(virt_to_phys_walk _ (cr3 p) G) by (done || apply Hum || apply Hum').
  cbn zeta. by rewrite Hs.
Qed.

Lemma same_map_range s s' base len w : same_map (cr3 p) s s' -> user_range s p base len w ->
  user_range s' p base len w.
Proof.
  intros Hs Hur. pose proof Hur as [Hb Hl Hlim Hp]. split; try done. intros va Hva.
  destruct (user_range_va _ _ _ _ _ va Hur Hva). unfold user_page in *. rewrite Hs by done. by apply Hp.
Qed.

(** The effect of a copy of [src] to [udst] from offset [lo] on. *)
Record copied (s : mstate) (udst : Z) (src : list Z) (lo : Z) (s' : mstate) : Prop := {
  cp_mem : s' = with_mem s (ms_mem s');
  cp_inv : um_inv F s' p G;
  cp_map : same_map (cr3 p) s s';
  cp_bytes : forall i, lo <= i < Z.of_nat (length src) ->
    user_byte (ms_mem s') p (udst + i) = nth (Z.to_nat i) src 0;
  cp_rest : forall a, (forall i, lo <= i < Z.of_nat (length src) ->
      a <> vmm_virt_to_phys (ms_mem s) (cr3 p) (udst + i)) ->
    mem_get (ms_mem s') a = mem_get (ms_mem s) a
}.

Lemma nth_piece (src : list Z) lo c j : 0 <= lo -> 0 <= j < c ->
  nth (Z.to_nat j) (take (Z.to_nat c) (drop (Z.to_nat lo) src)) 0 = nth (Z.to_nat (lo + j)) src 0.
Proof.
  intros Hlo Hj. rewrite !nth_lookup, lookup_take_lt, lookup_drop by lia. do 2 f_equal. lia.
Qed.

Lemma copy_to_step s udst src lo : um_inv F s p G ->
  mapped_range s p udst (Z.of_nat (length src)) -> Forall (fun b => 0 <= b < 256) src ->
  0 <= lo < Z.of_nat (length src) ->
  let c := chunk_size udst (Z.of_nat (length src)) lo in
  let s1 := with_mem s (mem_write (ms_mem s) (vmm_virt_to_phys (ms_mem s) (cr3 p) (udst + lo))
                          (take (Z.to_nat c) (drop (Z.to_nat lo) src))) in
  um_inv F s1 p G /\ same_map (cr3 p) s s1 /\
  forall s', copied s1 udst src (lo + c) s' -> copied s udst src lo s'.
Proof.
  intros Hum Hur Hby Hlo. cbn zeta. pose proof Hur as [Hb Hl Hlim _].
  set (len := Z.of_nat (length src)) in *.
  destruct (chunk_facts udst len lo Hb Hlo Hlim) as (Hc & Hpg & _ & _).
  set (c := chunk_size udst len lo) in *.
  destruct (mapped_range_va _ _ _ _ (udst + lo) Hur ltac:(lia)) as [Hv Hp].
  set (phys := vmm_virt_to_phys (ms_mem s) (cr3 p) (udst + lo)).
  set (piece := take (Z.to_nat c) (drop (Z.to_nat lo) src)).
  assert (Hplen : Z.of_nat (length piece) = c).
  { unfold piece. rewrite length_take, length_drop. lia. }
  assert (Hphys : phys = backing s p (udst + lo) + (udst + lo) mod PAGE_SIZE) by by apply (user_phys F s p G).
  pose proof (Z.mod_pos_bound (udst + lo) PAGE_SIZE ltac:(unfold PAGE_SIZE; lia)) as Hmb.
  destruct (write_user F s p G Hum (backing s p (udst + lo)) phys piece) as [Hum1 Hs1];
    [by eapply backing_frame|lia|lia|].
  split_and!; [done|done|]. intros s' [M I S B R]. cbn [with_mem ms_mem] in *.
  assert (Hin : forall j, 0 <= j < c ->
    vmm_virt_to_phys (ms_mem s) (cr3 p) (udst + (lo + j)) = phys + j).
  { intros j Hj. rewrite Z.add_assoc. unfold phys. apply phys_in_page; try done; try lia.
    apply (mapped_range_va _ _ _ _ (udst + lo + j) Hur). lia. }
  assert (Hsp : forall i, 0 <= i < len -> vmm_virt_to_phys (mem_write (ms_mem s) phys piece) (cr3 p) (udst + i)
                          = vmm_virt_to_phys (ms_mem s) (cr3 p) (udst + i)).
  { intros i Hi. apply (same_map_phys s _ (udst + i) Hum Hum1 Hs1).
    apply (mapped_range_va _ _ _ _ (udst + i) Hur). lia. }
  split; try done.
  - by eapply same_map_trans.
  - intros i Hi. destruct (decide (lo + c <= i)) as [|Hlt]; [apply B; lia|].
    unfold user_byte. rewrite (same_map_phys s s'); [|done|done|by eapply same_map_trans|].
    2: { apply (mapped_range_va _ _ _ _ (udst + i) Hur). lia. }
    rewrite R.
    + replace (udst + i) with (udst + (lo + (i - lo))) by lia. rewrite Hin by lia.
      rewrite mem_get_write_in; [|lia|by apply Forall_take, Forall_drop].
      unfold piece. rewrite nth_piece by lia. do 2 f_equal. lia.
    + intros j Hj. rewrite Hsp by lia. intros E.
      destruct (mapped_range_va _ _ _ _ (udst + i) Hur ltac:(lia)).
      destruct (mapped_range_va _ _ _ _ (udst + j) Hur ltac:(lia)).
      apply (user_phys_inj F s p G) in E; try done. lia.
  - intros a Ha. rewrite R.
    + apply mem_get_write_out. destruct (decide (phys <= a < phys + c)) as [Hin'|]; [|lia].
      destruct (Ha (lo + (a - phys)) ltac:(lia)). rewrite Hin by lia. lia.
    + intros i Hi. rewrite Hsp by lia. apply Ha. lia.
Qed.

Lemma copied_none s udst src : um_inv F s p G -> copied s udst src (Z.of_nat (length src)) s.
Proof. intros Hum. split; try done; [by destruct s|lia]. Qed.

Lemma copy_to_loop_spec udst src fuel : Forall (fun b => 0 <= b < 256) src -> forall s lo,
  um_inv F s p G -> user_range s p udst (Z.of_nat (length src)) true ->
  0 <= lo <= Z.of_nat (length src) ->
  pages_left udst (Z.of_nat (length src)) lo < Z.of_nat fuel ->
  exists s', copy_to_loop fuel (ms_mem s) p udst src lo = (true, ms_mem s') /\
    copied s udst src lo s'.
Proof.
  intros Hby. induction fuel as [|fuel IH]; intros s lo Hum Hur Hlo Hf.
  { pose proof Hur as [Hb Hl Hlim _]. unfold pages_left in Hf.
    destruct (Z.ltb_spec lo (Z.of_nat (length src))); [|lia].
    assert (page_of (udst + lo) <= page_of (udst + Z.of_nat (length src) - 1)); [|lia].
    apply Z.div_le_mono; unfold PAGE_SIZE; lia. }
  pose proof Hur as [Hb Hl Hlim _].
  cbn [copy_to_loop]. destruct (Z.ltb_spec lo (Z.of_nat (length src))) as [Hlt|].
  2: { exists s. split; [done|]. replace lo with (Z.of_nat (length src)) by lia. by apply copied_none. }
  rewrite u64_id by (unfold USER_LIMIT in *; lia).
  destruct (user_range_va _ _ _ _ _ (udst + lo) Hur ltac:(lia)) as [Hv Hp].
  rewrite (proj2 (Z.eqb_neq _ _)) by by apply (phys_nonzero s).
  destruct (chunk_facts udst (Z.of_nat (length src)) lo Hb ltac:(lia) Hlim) as (Hc & _ & Hpl & _).
  destruct (copy_to_step s udst src lo Hum (user_range_mapped _ _ _ _ _ Hur) Hby ltac:(lia)) as (Hum1 & Hs1 & Hstep).
  set (c := chunk_size udst (Z.of_nat (length src)) lo) in *.
  set (s1 := with_mem s _) in *.
  destruct (IH s1 (lo + c) Hum1) as (s' & E & Hcp); [by eapply same_map_range|lia|lia|].
  exists s'. split; [exact E|]. by apply Hstep.
Qed.

(** [copy_to_user] refuses an invalid range without writing anything and
  otherwise stores exactly the bytes given. *)
Lemma copy_to_user_spec s udst src : um_inv F s p G -> 0 <= udst < 2 ^ 64 ->
  Z.of_nat (length src) < 2 ^ 64 -> Forall (fun b => 0 <= b < 256) src ->
  if user_range_ok (ms_mem s) p udst (Z.of_nat (length src)) true
  then exists s', copy_to_user (ms_mem s) p udst src = (true, ms_mem s') /\ copied s udst src 0 s'
  else copy_to_user (ms_mem s) p udst src = (false, ms_mem s).
Proof.
  intros Hum Hu Hl Hby. unfold copy_to_user.
  destruct (user_range_ok _ _ _ _ _) eqn:E; cbn [negb]; [|done].
  apply user_range_intro in E; [|done|lia]. apply copy_to_loop_spec; try done; try lia.
  apply copy_fuel_enough; [apply E|apply E].
Qed.
End Copies.

(** ** The laws of the interface *)

Definition byte_list (l : list Z) : Prop := Forall (fun b => 0 <= b < 256) l.

(** What the callers rely on, for user addresses and lengths that are 64-bit
  values. *)
Class UserAccessLaws (M P : Type) `{UserAccess M P} (inv : M -> P -> Prop) := {
  ua_from_bytes : forall m p a n bs, inv m p -> 0 <= a < 2 ^ 64 -> 0 <= n < 2 ^ 64 ->
    ua_copy_from m p a n = Some bs -> Z.of_nat (length bs) = n /\ byte_list bs;
  ua_from_ok : forall m p a n, inv m p -> 0 <= a < 2 ^ 64 -> 0 <= n < 2 ^ 64 ->
    is_Some (ua_copy_from m p a n) <-> ua_range_ok m p a n false = true;
  ua_to_inv : forall m p a bs, inv m p -> 0 <= a < 2 ^ 64 -> Z.of_nat (length bs) < 2 ^ 64 ->
    byte_list bs -> inv (ua_copy_to m p a bs).2 p;
  ua_to_ok : forall m p a bs, inv m p -> 0 <= a < 2 ^ 64 -> Z.of_nat (length bs) < 2 ^ 64 ->
    byte_list bs -> (ua_copy_to m p a bs).1 = ua_range_ok m p a (Z.of_nat (length bs)) true;
  ua_to_refused : forall m p a bs, inv m p -> 0 <= a < 2 ^ 64 -> Z.of_nat (length bs) < 2 ^ 64 ->
    byte_list bs -> (ua_copy_to m p a bs).1 = false -> (ua_copy_to m p a bs).2 = m;
  ua_round_trip : forall m p a bs, inv m p -> 0 <= a < 2 ^ 64 -> Z.of_nat (length bs) < 2 ^ 64 ->
    byte_list bs -> (ua_copy_to m p a bs).1 = true ->
    ua_copy_from (ua_copy_to m p a bs).2 p a (Z.of_nat (length bs)) = Some bs;
  ua_to_range : forall m p a bs b n w, inv m p -> 0 <= a < 2 ^ 64 -> Z.of_nat (length bs) < 2 ^ 64 ->
    byte_list bs -> 0 <= b < 2 ^ 64 -> 0 <= n < 2 ^ 64 ->
    ua_range_ok (ua_copy_to m p a bs).2 p b n w = ua_range_ok m p b n w;
  ua_to_apart : forall m p a bs b n, inv m p -> 0 <= a < 2 ^ 64 -> Z.of_nat (length bs) < 2 ^ 64 ->
    byte_list bs -> 0 <= b < 2 ^ 64 -> 0 <= n < 2 ^ 64 -> b + n <= a \/ a + Z.of_nat (length bs) <= b ->
    ua_copy_from (ua_copy_to m p a bs).2 p b n = ua_copy_from m p b n
}.

(** The memories in which [p]'s address space is sound. *)
Definition user_mem_inv (m : mem) (p : process_t) : Prop :=
  exists F s G, ms_mem s = m /\ um_inv F s p G.

Lemma user_byte_range m p va : 0 <= user_byte m p va < 256.
Proof. apply mem_get_range. Qed.

Lemma write_implies_read m p base len : 0 <= base < 2 ^ 64 -> 0 <= len < 2 ^ 64 ->
  user_range_ok m p base len true = true -> user_range_ok m p base len false = true.
Proof.
  intros Hb Hl. rewrite !user_range_ok_iff by done. intros (? & ? & Hp). split_and!; try done.
  intros va Hva. destruct (Hp va Hva) as (? & ? & _). by split_and!.
Qed.

Lemma same_map_range_ok s s' p base len w : 0 <= base < 2 ^ 64 -> 0 <= len < 2 ^ 64 ->
  same_map (cr3 p) s s' -> user_range_ok (ms_mem s) p base len w = true ->
  user_range_ok (ms_mem s') p base len w = true.
Proof.
  intros Hb Hl Hs Hok. apply user_range_intro in Hok; [|done..].
  pose proof (same_map_range p s s' base len w Hs Hok) as [? ? ? ?]. by apply user_range_ok_iff.
Qed.

Lemma copy_round_trip F s p G udst src s' : um_inv F s p G -> 0 <= udst < 2 ^ 64 ->
  Z.of_nat (length src) < 2 ^ 64 ->
  user_range_ok (ms_mem s) p udst (Z.of_nat (length src)) true = true ->
  copied F p G s udst src 0 s' ->
  copy_from_user (ms_mem s') p udst (Z.of_nat (length src)) = Some src.
Proof.
  intros Hum Hu Hl Hok [M I S B R].
  rewrite (copy_from_user_spec F p G) by (done || lia).
  rewrite (same_map_range_ok s s' p _ _ false) by (done || lia || (apply write_implies_read; (done || lia))).
  f_equal. apply list_eq. intros k. rewrite list_lookup_fmap.
  destruct (decide (k < length src)%nat) as [Hk|Hk].
  - unfold range. rewrite lookup_seqZ_lt by lia. cbn [fmap option_fmap option_map].
    rewrite B by lia. destruct (lookup_lt_is_Some_2 src k Hk) as [y Hy].
    rewrite Hy, nth_lookup. replace (Z.to_nat (0 + Z.of_nat k)) with k by lia. by rewrite Hy.
  - unfold range. rewrite lookup_seqZ_ge by lia. rewrite lookup_ge_None_2 by lia. done.
Qed.

Lemma same_map_range_eq s s' p base len w : 0 <= base < 2 ^ 64 -> 0 <= len < 2 ^ 64 ->
  same_map (cr3 p) s s' -> user_range_ok (ms_mem s') p base len w = user_range_ok (ms_mem s) p base len w.
Proof.
  intros Hb Hl Hs. apply eq_true_iff_eq. split; (apply same_map_range_ok; [done|done|]); [|done].
  intros va Hva. symmetry. by apply Hs.
Qed.

(** A copy leaves every other byte as the process sees it. *)
Lemma copied_other F s p G udst src s' va : um_inv F s p G -> copied F p G s udst src 0 s' ->
  mapped_range s p udst (Z.of_nat (length src)) -> user_half va -> page_present s p va = true ->
  ~ (udst <= va < udst + Z.of_nat (length src)) -> user_byte (ms_mem s') p va = user_byte (ms_mem s) p va.
Proof.
  intros Hum [M I S B R] Hm Hv Hp Hout. unfold user_byte.
  rewrite (same_map_phys F p G s s') by done. apply R. intros i Hi E.
  destruct (mapped_range_va _ _ _ _ (udst + i) Hm ltac:(lia)).
  apply (user_phys_inj F s p G) in E; try done. lia.
Qed.

#[export] Instance kernel_user_access_laws : UserAccessLaws mem process_t user_mem_inv.
Proof.
  split; cbn [ua_copy_from ua_copy_to ua_range_ok kernel_user_access].
  - intros m p a n bs (F & s & G & <- & Hum) Ha Hn H.
    rewrite (copy_from_user_spec F p G) in H by done. case_if_in H; [|done]. injection H as <-.
    rewrite length_fmap. unfold range, byte_list. rewrite length_seqZ. split; [lia|].
    apply Forall_fmap, Forall_true. intros i. unfold compose. apply user_byte_range.
  - intros m p a n (F & s & G & <- & Hum) Ha Hn. rewrite (copy_from_user_spec F p G) by done.
    case_if; split; intros H; try done; by destruct H.
  - intros m p a bs (F & s & G & <- & Hum) Ha Hl Hb.
    pose proof (copy_to_user_spec F p G s a bs Hum Ha Hl Hb) as H.
    case_if_in H; [destruct H as (s' & -> & [])|rewrite H]; by eexists _, _, _.
  - intros m p a bs (F & s & G & <- & Hum) Ha Hl Hb.
    pose proof (copy_to_user_spec F p G s a bs Hum Ha Hl Hb) as H.
    case_if_in H; [destruct H as (s' & -> & [])|rewrite H]; done.
  - intros m p a bs (F & s & G & <- & Hum) Ha Hl Hb.
    pose proof (copy_to_user_spec F p G s a bs Hum Ha Hl Hb) as H.
    case_if_in H; [destruct H as (s' & -> & [])|rewrite H]; done.
  - intros m p a bs (F & s & G & <- & Hum) Ha Hl Hb.
    pose proof (copy_to_user_spec F p G s a bs Hum Ha Hl Hb) as H.
    case_if_in H; [destruct H as (s' & -> & Hc)|rewrite H; done]. cbn [fst snd]. intros _.
    by eapply (copy_round_trip F s).
  - intros m p a bs b n w (F & s & G & <- & Hum) Ha Hl Hb Hb' Hn.
    pose proof (copy_to_user_spec F p G s a bs Hum Ha Hl Hb) as H.
    case_if_in H; [destruct H as (s' & -> & [])|by rewrite H]. by apply same_map_range_eq.
  - intros m p a bs b n (F & s & G & <- & Hum) Ha Hl Hb Hb' Hn Hd.
    pose proof (copy_to_user_spec F p G s a bs Hum Ha Hl Hb) as H.
    destruct (user_range_ok (ms_mem s) p a (Z.of_nat (length bs)) true) eqn:Ok; [destruct H as (s' & -> & Hc)|by rewrite H].
    pose proof Hc as [M I S _ _]. cbn [snd]. rewrite !(copy_from_user_spec F p G) by done.
    rewrite (same_map_range_eq s) by done. destruct (user_range_ok (ms_mem s) p b n false) eqn:Ob; [|done].
    apply user_range_intro in Ob, Ok; try lia. f_equal. apply list_fmap_ext. intros k i Hi.
    apply list_elem_of_lookup_2, elem_of_range in Hi. destruct (user_range_va _ _ _ _ _ (b + i) Ob ltac:(lia)).
    eapply (copied_other F s p G a bs); try done; [by eapply user_range_mapped|lia].
Qed.

(** ** Properties *)

(** C13.  User pointers.  A copy to user space happens only when every byte of
  the range lies in the user half on a present, USER, WRITE page, and then it
  is exact: the same range read back gives the bytes, every other byte the
  process sees is unchanged, and so is every physical byte outside the frames
  backing the range; a refused copy writes nothing.  A copy from user space
  returns exactly the bytes the process sees, or is refused when some page is
  not present or not USER. *)
Theorem user_copy_correct F s p G a src : um_inv F s p G -> 0 <= a < 2 ^ 64 ->
  Z.of_nat (length src) < 2 ^ 64 -> byte_list src ->
  let len := Z.of_nat (length src) in
  (copy_from_user (ms_mem s) p a len =
     if user_range_ok (ms_mem s) p a len false
     then Some ((fun i => user_byte (ms_mem s) p (a + i)) <$> range 0 len) else None) /\
  (forall w, user_range_ok (ms_mem s) p a len w = true <->
     0 < len /\ a + len <= USER_LIMIT /\ forall va, a <= va < a + len -> user_page (ms_mem s) p w va) /\
  let '(ok, m') := copy_to_user (ms_mem s) p a src in
  if user_range_ok (ms_mem s) p a len true
  then ok = true /\ um_inv F (with_mem s m') p G /\ copy_from_user m' p a len = Some src /\
    (forall va, user_half va -> page_present s p va = true -> ~ (a <= va < a + len) ->
       user_byte m' p va = user_byte (ms_mem s) p va) /\
    (forall x, (forall i, 0 <= i < len -> x <> vmm_virt_to_phys (ms_mem s) (cr3 p) (a + i)) ->
       mem_get m' x = mem_get (ms_mem s) x)
  else ok = false /\ m' = ms_mem s.
Proof.
  intros Hum Ha Hl Hb len. split; [apply (copy_from_user_spec F p G); (done || lia)|].
  split; [intros w; apply user_range_ok_iff; (done || lia)|].
  pose proof (copy_to_user_spec F p G s a src Hum Ha Hl Hb) as H. fold len in H.
  destruct (user_range_ok (ms_mem s) p a len true) eqn:Ok; [|by rewrite H].
  destruct H as (s' & -> & Hc). pose proof Hc as [M I S B R].
  split_and!; [done|by rewrite <- M|by eapply (copy_round_trip F s)| |].
  - intros va Hv Hp Hout. eapply (copied_other F s p G a src); try done.
    eapply user_range_mapped, user_range_intro; [..|exact Ok]; lia.
  - intros x Hx. apply R. intros i Hi. by apply Hx.
Qed.

(** The demonstration process with one writable page. *)
Definition demo_page : Z * mstate * process_t :=
  process_alloc_user_page demo_state demo_proc 0x400000 VMM_WRITE.

Lemma demo_page_inv : exists G, um_inv demo_account demo_page.1.2 demo_page.2 G.
Proof.
  pose proof (alloc_user_spec demo_account demo_state demo_proc demo_tables 0x400000 VMM_WRITE
    demo_page.1.1 demo_page.1.2 demo_page.2 demo_um_inv ltac:(lia) ltac:(by vm_compute)) as H.
  apply H. rewrite <- !surjective_pairing. reflexivity.
Qed.

Lemma user_copy_correct_witness :
  copy_from_user (copy_to_user (ms_mem demo_page.1.2) demo_page.2 0x400FFD [1; 2; 3]).2
    demo_page.2 0x400FFD 3 = Some [1; 2; 3].
Proof.
  destruct demo_page_inv as [G Hum].
  assert (Hok : user_range_ok (ms_mem demo_page.1.2) demo_page.2 0x400FFD 3 true = true)
    by (vm_compute; reflexivity).
  generalize dependent demo_page. intros [[st s] p] Hum Hok. cbn [fst snd] in *.
  pose proof (user_copy_correct demo_account s p G 0x400FFD [1; 2; 3] Hum ltac:(lia) ltac:(cbn; lia)
    ltac:(repeat constructor; lia)) as (_ & _ & H).
  change (Z.of_nat (length [1; 2; 3])) with 3 in H. cbn zeta in H.
  destruct (copy_to_user (ms_mem s) p 0x400FFD [1; 2; 3]) as [ok m'].
  rewrite Hok in H. destruct H as (_ & _ & H & _). exact H.
Defined.
