(* ===== verification/Isolation.v ===== *)
(** * Isolation of address spaces

  The memory operations of one process change physical memory only inside the frames
  that were free or its own ([confined]).  Together with the ownership invariant of
  [AddrSpace] this separates the processes of a machine: whatever one of them does,
  the others keep their translations and their bytes. *)
From S2P Require Import Prelude Pmm PhysMem Vmm ProcData UserMem AddrSpace UserOps Teardown Uaccess.

(** ** What an operation may touch *)

Record confined (F : gset Z) (s s' : mstate) : Prop := {
  cf_mem : forall a, frame_no a ∉ F -> mem_get (ms_mem s') a = mem_get (ms_mem s) a;
  cf_total : total_frames (ms_pmm s') = total_frames (ms_pmm s)
}.

#[export] Instance confined_refl F : Reflexive (confined F).
Proof. by split. Qed.

#[export] Instance confined_trans F : Transitive (confined F).
Proof. intros s1 s2 s3 [M1 T1] [M2 T2]. split; [|congruence]. intros a Ha. by rewrite M2, M1. Qed.

Lemma confined_mono F F' s s' : F ⊆ F' -> confined F s s' -> confined F' s s'.
Proof. intros HF [M T]. split; [|done]. intros a Ha. apply M. set_solver. Qed.

Lemma confined_pmm F s q : total_frames q = total_frames (ms_pmm s) -> confined F s (with_pmm s q).
Proof. by split. Qed.

(** Addresses inside a frame have its number. *)
Lemma frame_no_in t a : frame_addr t -> t <= a < t + PAGE_SIZE -> frame_no a = frame_no t.
Proof. intros [? Hm] Ha. unfold frame_no, PAGE_SIZE in *. Z.div_mod_to_equations. lia. Qed.

Lemma elem_of_owned u G x : x ∈ owned u G <->
  (exists v f, (v, f) ∈ u /\ x = frame_no f) \/ exists t y, G !! t = Some y /\ x = frame_no t.
Proof. unfold owned. by rewrite elem_of_union, elem_of_umap_frames, elem_of_table_frames. Qed.

Section Ops.
Context (F : gset Z) (p : process_t) (G : table_map) (s : mstate) (Hum : um_inv F s p G).

Lemma owned_account x : x ∈ owned (umap p) G -> x ∈ F.
Proof. intros Hx. rewrite <- (um_account _ _ _ _ Hum). set_solver. Qed.

(** Growing the tables writes to tables only, and they come from the account. *)
Lemma ext_confined s' G' : vm_ext (cr3 p) s G s' G' -> pt_inv s' (cr3 p) G' -> confined F s s'.
Proof using Hum.
  intros He Hpt. split; [|apply He]. intros a Ha. apply (ext_mem _ _ _ _ _ He). intros t [k key] Ht Hin. apply Ha.
  destruct (pt_frames _ _ _ Hpt _ _ _ Ht) as (Hf & _). rewrite (frame_no_in t) by done.
  rewrite <- (um_account _ _ _ _ Hum), <- (ext_account _ _ _ _ _ (umap p) He). unfold owned.
  rewrite !elem_of_union, elem_of_table_frames. right; right. by exists t, (k, key).
Qed.

Lemma unmap_confined va : user_half va -> confined F s (vmm_unmap_page s (cr3 p) va).2.
Proof using Hum.
  intros Hv. pose proof (unmap_cases s (cr3 p) G va (um_ok _ _ _ _ Hum) (um_pt _ _ _ _ Hum) Hv) as Hc.
  destruct (vmm_unmap_page s (cr3 p) va) as [r s1]. destruct Hc as (_ & Hpt & He & _). by eapply ext_confined.
Qed.

Lemma map_confined virt phys flags : 0 <= virt -> frame_addr phys -> phys < 2 ^ 64 -> page_flags_ok flags ->
  confined F s (process_map_user s p virt phys flags).1.2.
Proof using Hum.
  intros Hv [Hf _] Hf2 Hfl. unfold process_map_user. destruct (Z.leb_spec USER_LIMIT virt); [done|]. destruct (_ <=? _); [done|].
  destruct (vmm_map_page s (cr3 p) virt phys _) as [r s1] eqn:Em.
  apply (map_page_cases s (cr3 p) G) in Em as (G' & _ & Hpt & He & _); [|apply Hum|apply Hum| |lia|by apply user_flags_ok].
  - apply ext_confined in He; [|done]. by destruct (negb _).
  - unfold user_half, USER_LIMIT in *. lia.
Qed.
End Ops.

Lemma alloc_confined F p G s virt flags : um_inv F s p G -> 0 <= virt -> page_flags_ok flags ->
  confined F s (process_alloc_user_page s p virt flags).1.2.
Proof.
  intros Hum Hv Hfl. unfold process_alloc_user_page. destruct (pmm_alloc_frame (ms_pmm s)) as [f pm] eqn:Ha.
  destruct (Z.eqb_spec f 0) as [->|Hnz].
  { apply confined_pmm. pose proof (alloc_frame_cases _ (inv_wf _ (vm_pmm _ (um_ok _ _ _ _ Hum)))) as Hc. rewrite Ha in Hc.
    by destruct Hc as [(g & _ & _ & _ & ->)|(_ & _ & ->)]. }
  destruct (um_alloc F s p G f pm Hum Ha Hnz) as (_ & _ & _ & Huf & Htot & _).
  destruct (um_alloc_pend F s p G f pm Hum Ha Hnz) as [(Hum1 & HF & _) _].
  set (s1 := MState pm (zero_frame (ms_mem s) f)) in *. destruct Huf as (Hf & Hft & _).
  assert (H1 : confined F s s1).
  { split; [|done]. intros a Hn. unfold zero_frame. apply mem_get_write_out. rewrite length_zero_page.
    destruct (decide (f <= a < f + 4096)) as [Hin|]; [|lia]. destruct Hn. by rewrite (frame_no_in f). }
  pose proof (map_confined _ _ _ s1 Hum1 virt f flags Hv Hf ltac:(destruct Hf; lia) Hfl) as H2.
  apply (confined_mono _ F) in H2; [|set_solver +].
  destruct (process_map_user s1 p virt f flags) as [[r s2] p2]. cbn [fst snd] in H2.
  destruct (negb (r =? VOID_OK)); cbn [fst snd]; [|by etransitivity].
  etransitivity; [exact H1|]. etransitivity; [exact H2|]. apply confined_pmm. apply free_frame_total.
Qed.

Lemma release_confined F p G s v f : um_inv F s p G -> (v, f) ∈ umap p -> confined F s (release_page s (cr3 p) (v, f)).
Proof.
  intros Hum Hin. destruct (um_frames _ _ _ _ Hum v f Hin) as [Hv _]. unfold release_page.
  pose proof (unmap_confined F p G s Hum v Hv) as Hc. destruct (vmm_unmap_page s (cr3 p) v) as [r s1]. cbn [snd] in Hc.
  etransitivity; [exact Hc|]. apply confined_pmm. apply free_frame_total.
Qed.

Lemma release_loop_confined F start n : forall s p G i, um_inv F s p G -> 0 <= i -> confined F s (release_loop n s p start i).1.
Proof.
  induction n as [|n IH]; intros s p G i Hum Hi; cbn [release_loop]; [done|].
  destruct (Z.ltb_spec i (Z.of_nat (length (umap p)))) as [Hlt|]; [|done].
  destruct (in_release_range start _); [|by eapply IH; [|lia]].
  destruct (release_page_at F s p G i Hum ltac:(lia)) as [Hum1 _]. specialize (IH _ _ _ i Hum1 Hi). cbn [set_umap cr3] in IH.
  etransitivity; [|exact IH]. destruct (zget (0, 0) (umap p) i) as [v f] eqn:E. apply (release_confined F p G); [done|].
  rewrite zget_lookup in E. destruct (lookup_lt_is_Some_2 (umap p) (Z.to_nat i)) as [e He]; [lia|].
  rewrite He in E. cbn in E. subst e. by eapply list_elem_of_lookup_2.
Qed.

Lemma brk_grow_confined F fuel : forall s p G va nb r s' p', um_inv F s p G -> page_flags_ok (brk_perm p) -> 0 <= va ->
  brk_grow_loop fuel s p va nb = Some (r, s', p') -> confined F s s'.
Proof.
  induction fuel as [|fuel IH]; intros s p G va nb r s' p' Hum Hfl Hva; cbn [brk_grow_loop]; [done|].
  destruct (va <? nb); [|by intros [= _ <- _]].
  pose proof (alloc_confined F p G s va (brk_perm p) Hum Hva Hfl) as Hc.
  destruct (process_alloc_user_page s p va (brk_perm p)) as [[st s1] p1] eqn:Ea. cbn [fst snd] in Hc.
  apply (alloc_user_spec F s p G) in Ea as ([G1 Hum1] & _ & Hp); [|done..].
  destruct (negb (st =? VOID_OK)); [by intros [= _ <- _]|]. intros E. etransitivity; [exact Hc|].
  eapply (IH s1 p1 G1); [done| |apply u64_range|exact E]. destruct Hp as [(_ & _ & _ & f & -> & _)|(_ & -> & _)]; done.
Qed.

Lemma unmap_list_confined F p G l : (forall v, v ∈ l -> user_half v) -> forall s, um_inv F s p G ->
  confined F s (foldl (unmap_only (cr3 p)) s l).
Proof.
  induction l as [|v l IH]; intros Hl s Hum; cbn [foldl]; [done|]. assert (Hv : user_half v) by (apply Hl; by left).
  destruct (unmap_only_spec F s p G v Hum Hv) as [Hum1 _]. etransitivity; [by apply (unmap_confined F p G)|].
  apply IH; [|done]. intros x Hx. apply Hl. by right.
Qed.

Lemma pages_from_next base va v : (va - base) mod PAGE_SIZE = 0 -> v ∈ pages_from base (va + PAGE_SIZE) ->
  v = va \/ v ∈ pages_from base va.
Proof.
  intros Hm (k & Hk & -> & Hlt)%elem_of_pages_from. destruct (decide (base + k * PAGE_SIZE = va)) as [|Hne]; [by left|right].
  apply elem_of_pages_from. exists k. split_and!; [done|done|]. unfold PAGE_SIZE in *. Z.div_mod_to_equations. lia.
Qed.

Lemma mmap_loop_confined F base end_ f fuel : page_flags_ok f -> forall s p G va r s' p', um_inv F s p G -> 0 <= va ->
  (forall v, v ∈ pages_from base va -> user_half v) -> (va - base) mod PAGE_SIZE = 0 ->
  mmap_loop fuel s p base va end_ f = Some (r, s', p') -> confined F s s'.
Proof.
  intros Hfl. induction fuel as [|fuel IH]; intros s p G va r s' p' Hum Hva Hl Hm; cbn [mmap_loop]; [done|].
  destruct (va <? end_); [|by intros [= _ <- _]].
  pose proof (alloc_confined F p G s va f Hum Hva Hfl) as Hc.
  destruct (process_alloc_user_page s p va f) as [[st s1] p1] eqn:Ea. cbn [fst snd] in Hc.
  apply (alloc_user_spec F s p G) in Ea as ([G1 Hum1] & _ & [(-> & Hvh & _ & g & -> & _)|(-> & -> & _)]); [..|done|done|done];
    cbn [negb Z.eqb VOID_OK VOID_ERR_NOMEM]; intros E; etransitivity; try exact Hc.
  - unfold user_half in Hvh. rewrite u64_id in E by (unfold PAGE_SIZE; lia). apply (IH _ _ _ _ _ _ _ Hum1) in E; [done|unfold PAGE_SIZE; lia| |].
    + intros v [->|Hv]%pages_from_next; [done|by apply Hl|done].
    + unfold PAGE_SIZE in *. replace (va + 4096 - base) with (va - base + 1 * 4096) by lia. by rewrite Z.mod_add.
  - injection E as _ <- _. by apply (unmap_list_confined F p G1).
Qed.

Lemma sys_brk_confined F s p G addr r s' p' : um_inv F s p G -> heap_ok p -> sys_brk s p addr = Some (r, s', p') -> confined F s s'.
Proof.
  intros Hum [Hh Hperm Hb]. unfold sys_brk, um_brk_set. repeat (case_if; [by intros [= _ <- _]|]).
  assert (Hrel : confined F s (um_release_from s p (page_up addr)).1) by (by eapply release_loop_confined).
  destruct (brk_current p <? addr).
  - unfold um_brk_grow. destruct (brk_grow_loop _ _ _ _ _) as [[[r1 s1] p1]|] eqn:E; [|done].
    apply (brk_grow_confined F _ _ _ G) in E; [|done|done|lia]. by destruct (negb (r1 =? 0)) eqn:Er; rewrite ?Er; intros [= _ <- _].
  - destruct (addr <? brk_current p); [|by intros [= _ <- _]].
    destruct (um_release_from s p (page_up addr)) as [s1 p1]. by intros [= _ <- _].
Qed.

Lemma sys_mmap_confined F nx s p G addr len prot flags fd off r s' p' : um_inv F s p G -> 0 <= addr < 2 ^ 64 -> 0 <= len < 2 ^ 64 ->
  sys_mmap nx s p addr len prot flags fd off = Some (r, s', p') -> confined F s s'.
Proof.
  intros Hum Ha Hl. unfold sys_mmap. destruct (Z.eqb_spec (cr3 p) 0) as [|Hc]; [by intros [= _ <- _]|].
  repeat (case_if; [by intros [= _ <- _]|]).
  destruct (mmap_base_total F s p G addr (page_up len) Hum Hc) as (res & -> & Hres); [unfold page_up; apply land_mask_range, u64_range|done|].
  destruct res as [e|base]; [by intros [= _ <- _]|].
  apply (mmap_loop_confined F _ _ _ _ (mmap_prot_flags_ok nx prot) s p G base); [done|lia| |by rewrite Z.sub_diag].
  intros v (k & Hk & -> & Hlt)%elem_of_pages_from. unfold PAGE_SIZE in *. lia.
Qed.

Lemma sys_munmap_confined F s p G addr len : um_inv F s p G -> confined F s (sys_munmap s p addr len).1.2.
Proof.
  intros Hum. unfold sys_munmap. repeat (case_if; [done|]).
  pose proof (release_loop_confined F addr (length (umap p)) s p G 0 Hum ltac:(lia)) as H.
  unfold um_release_from. by destruct (release_loop _ _ _ _ _).
Qed.

Lemma create_confined s kpml4 : vm_ok s -> frame_addr kpml4 -> frame_no kpml4 ∉ free_set (ms_pmm s) ->
  confined (free_set (ms_pmm s)) s (address_space_create s kpml4).2.
Proof.
  intros Hok Hk Hkn. pose proof (address_space_create_spec s kpml4 Hok Hk Hkn) as Hs.
  assert (Ht : total_frames (ms_pmm (address_space_create s kpml4).2) = total_frames (ms_pmm s)).
  { unfold address_space_create. pose proof (alloc_frame_cases _ (inv_wf _ (vm_pmm _ Hok))) as Hc.
    destruct (pmm_alloc_frame (ms_pmm s)) as [a pm]. assert (E : total_frames pm = total_frames (ms_pmm s)).
    { by destruct Hc as [(g & _ & _ & _ & ->)|(_ & _ & ->)]. }
    by destruct (a =? 0). }
  destruct (address_space_create s kpml4) as [r s']. cbn [snd] in Ht |- *.
  destruct Hs as [(_ & -> & _)|(Hr & Hum & _ & Hin & Hm)]; [done|]. split; [|done]. intros a Ha. apply Hm. intros Hra. apply Ha.
  specialize (Hum (set_cr3 process_zero r) ltac:(by split)). destruct (pt_frames _ _ _ (um_pt _ _ _ _ Hum) r 0 0) as [Hf _].
  { apply lookup_singleton_eq. }
  by rewrite (frame_no_in r).
Qed.

Lemma free_pages_confined F G u : forall s p, um_inv F s p G -> umap p = u ->
  confined F s (foldl (fun s e => release_page s (cr3 p) e) s u).
Proof.
  induction u as [|[v f] u IH]; intros s p Hum Hu; cbn [foldl]; [done|].
  destruct (release_page_head F s p G v f u Hum Hu) as (Hum1 & _). specialize (IH _ (set_umap p u) Hum1 eq_refl).
  etransitivity; [|exact IH]. apply (release_confined F p G); [done|]. rewrite Hu. by left.
Qed.

Lemma destroy_confined F s p G : um_inv F s p G -> let '(s', _) := process_destroy_user_space s p in confined F s s'.
Proof.
  intros Hum. unfold process_destroy_user_space, free_user_pages.
  pose proof (free_pages_confined F G (umap p) s p Hum eq_refl) as H1.
  destruct (free_user_pages_spec F G (umap p) s p Hum eq_refl) as (Hum1 & _ & _).
  set (s1 := foldl _ s (umap p)) in *. clearbody s1. pose proof (um_pt _ _ _ _ Hum1) as Hpt. cbn [set_umap cr3] in Hpt.
  destruct (destroy_all s1 (cr3 p) G (total_frames (ms_pmm s1)) 256 Hpt (um_tables _ _ _ _ Hum1) 0 s1
    ltac:(lia) ltac:(lia) (um_ok _ _ _ _ Hum1) eq_refl ltac:(reflexivity) ltac:(reflexivity)) as [_ T M _ _].
  set (s2 := foldl (destroy_pdpt (cr3 p)) s1 (range 0 256)) in *. clearbody s2.
  transitivity s1; [exact H1|]. split; [|cbn [ms_pmm free_frame_s with_pmm]; by rewrite free_frame_total].
  intros a Ha. change (mem_get (ms_mem s2) a = mem_get (ms_mem s1) a). rewrite M; [done|]. intros Hin. apply Ha.
  pose proof (pt_root _ _ _ Hpt) as Hr. destruct (pt_frames _ _ _ Hpt _ _ _ Hr) as (Hf & _). rewrite (frame_no_in (cr3 p)) by done.
  apply (owned_account F (set_umap p []) G s1 Hum1). apply elem_of_owned. right. by exists (cr3 p), (0, 0).
Qed.

Lemma write_confined F p G s a bs : um_inv F s p G -> 0 <= a < 2 ^ 64 -> Z.of_nat (length bs) < 2 ^ 64 -> byte_list bs ->
  confined F s (with_mem s (copy_to_user (ms_mem s) p a bs).2) /\ um_inv F (with_mem s (copy_to_user (ms_mem s) p a bs).2) p G.
Proof.
  intros Hum Ha Hl Hb. pose proof (copy_to_user_spec F p G s a bs Hum Ha Hl Hb) as H.
  destruct (user_range_ok _ _ _ _ _) eqn:Ok; [|rewrite H; by destruct s].
  destruct H as (s' & E & [M I S _ R]). rewrite E. cbn [snd]. rewrite <- M. split; [|done]. split; [|by rewrite M].
  intros x Hx. apply R. intros i Hi ->. apply Hx. apply user_range_intro in Ok; [|done|lia].
  destruct (user_range_va _ _ _ _ _ (a + i) Ok ltac:(lia)) as [Hv Hp].
  rewrite (user_phys F s p G) by done. pose proof (backing_frame F s p G Hum (a + i) Hv Hp) as (Hf & _).
  rewrite (frame_no_in (backing s p (a + i))); [|done|pose proof (Z.mod_pos_bound (a + i) PAGE_SIZE ltac:(unfold PAGE_SIZE; lia)); lia].
  apply (owned_account F p G s Hum). destruct (um_present _ _ _ _ Hum (a + i) Hv Hp) as (v & Hin & _).
  apply elem_of_owned. left. by eexists _, _.
Qed.

(** ** The other processes *)

(** What an operation confined to frames a process does not own leaves of it. *)
Record untouched (s : mstate) (q : process_t) (s' : mstate) : Prop := {
  un_map : same_map (cr3 q) s s';
  un_bytes : forall va, user_half va -> page_present s q va = true ->
    user_byte (ms_mem s') q va = user_byte (ms_mem s) q va
}.

Lemma bystander A F s q G s' : um_inv F s q G -> vm_ok s' -> confined A s s' -> A ## owned (umap q) G ->
  free_set (ms_pmm s') ⊆ A -> um_inv (free_set (ms_pmm s') ∪ owned (umap q) G) s' q G /\ untouched s q s'.
Proof.
  intros Hum Hok [M T] Hd Hfr.
  assert (Ho : forall t, t ∈ owned (umap q) G -> t ∉ A) by (clear -Hd; set_solver).
  assert (Ht : forall t x, G !! t = Some x -> frame_no t ∉ A).
  { intros t x Hx. apply Ho, elem_of_owned. right. by exists t, x. }
  destruct (pt_inv_frame s s' (cr3 q) G (um_pt _ _ _ _ Hum)) as [Hpt Hsame].
  { intros t [k key] i Hx Hi. destruct (pt_frames _ _ _ (um_pt _ _ _ _ Hum) _ _ _ Hx) as (Hf & _).
    unfold entry, rd64. f_equal. apply mem_read_ext. intros a Ha. apply M.
    rewrite (frame_no_in t); [by eapply Ht|done|unfold PAGE_SIZE; lia]. }
  { intros t x Hx Hin. by apply (Ht t x Hx), Hfr. }
  assert (Hum' : um_inv (free_set (ms_pmm s') ∪ owned (umap q) G) s' q G).
  { split; try done; try apply Hum.
    - intros t x Hx. rewrite T. by eapply um_tables.
    - intros v f Hin. destruct (um_frames _ _ _ _ Hum v f Hin) as (Hv & Hf & Hft & Hn & HG). split; [done|]. split_and!; [done|by rewrite T| |done].
        intros Hx. apply Hfr in Hx. revert Hx. apply Ho, elem_of_owned. left. by exists v, f.
    - intros va Hv Hp. unfold page_present in Hp. rewrite Hsame in Hp |- * by done. by apply (um_present _ _ _ _ Hum). }
  split; [done|]. split; [done|]. intros va Hv Hp. unfold user_byte.
  assert (Hb : backing s' q va = backing s q va) by (unfold backing; by rewrite Hsame).
  rewrite (user_phys _ _ _ _ Hum' va), (user_phys _ _ _ _ Hum va), Hb; [|done..|unfold page_present; by rewrite Hsame].
  apply M. destruct (backing_frame _ _ _ _ Hum va Hv Hp) as (Hf & _).
  rewrite (frame_no_in (backing s q va)); [|done|pose proof (Z.mod_pos_bound va PAGE_SIZE ltac:(unfold PAGE_SIZE; lia)); lia].
  apply Ho, elem_of_owned. left. destruct (um_present _ _ _ _ Hum va Hv Hp) as (v & Hin & _). by eexists _, _.
Qed.

(** ** The calls of one process *)

(** What a process can have done to its memory: a page mapped into it, the three memory
  system calls, and a system call that stores into its buffer. *)
Inductive mem_call :=
  | CPage (v fl : Z)
  | CBrk (addr : Z)
  | CMmap (addr len prot flags fd off : Z)
  | CMunmap (addr len : Z)
  | CStore (addr : Z) (bs : list Z).

(** The arguments are machine words. *)
Definition call_ok (c : mem_call) : Prop :=
  match c with
  | CPage v fl => 0 <= v /\ page_flags_ok fl
  | CBrk a => is_u64 a
  | CMmap a len _ _ _ _ | CMunmap a len => is_u64 a /\ is_u64 len
  | CStore a bs => is_u64 a /\ Z.of_nat (length bs) < 2 ^ 64 /\ byte_list bs
  end.

Definition run_call (nx : bool) (c : mem_call) (s : mstate) (p : process_t) : option (mstate * process_t) :=
  match c with
  | CPage v fl => let '(_, s, p) := process_alloc_user_page s p v fl in Some (s, p)
  | CBrk a => (fun x => (x.1.2, x.2)) <$> sys_brk s p a
  | CMmap a len prot flags fd off => (fun x => (x.1.2, x.2)) <$> sys_mmap nx s p a len prot flags fd off
  | CMunmap a len => let '(_, s, p) := sys_munmap s p a len in Some (s, p)
  | CStore a bs => Some (with_mem s (copy_to_user (ms_mem s) p a bs).2, p)
  end.

Lemma run_call_spec F nx c s p G : um_inv F s p G -> heap_ok p -> call_ok c ->
  exists s' p', run_call nx c s p = Some (s', p') /\ (exists G', um_inv F s' p' G') /\ heap_ok p' /\ confined F s s'.
Proof.
  intros Hum Hh Hc. destruct c as [v fl|a|a len prot flags fd off|a len|a bs]; cbn [call_ok run_call] in *.
  - destruct Hc as [Hv Hfl]. pose proof (alloc_confined F p G s v fl Hum Hv Hfl) as Hcf.
    destruct (process_alloc_user_page s p v fl) as [[st s1] p1] eqn:E. exists s1, p1.
    apply (alloc_user_spec F s p G) in E as (HG & _ & Hp); [|done..]. split_and!; try done.
    destruct Hp as [(_ & _ & _ & f & -> & _)|(_ & -> & _)]; [by apply heap_ok_umap|done].
  - destruct (sys_brk_cases F s p G a Hum Hh Hc) as (r & s1 & p1 & E & HG & Hp & Hcase). exists s1, p1. rewrite E.
    apply (sys_brk_confined F s p G) in E; [|done..]. split_and!; try done. destruct Hh as [H1 H2 H3]. rewrite Hp. split; cbn; [done|done|].
    destruct Hcase as [(_ & _ & _ & ->)|(_ & _ & [(_ & _ & -> & _)|[(_ & _ & -> & _)|(_ & _ & -> & _)]])]; done.
  - destruct Hc as [Ha Hl]. destruct (sys_mmap_inv F nx s p G a len prot flags fd off Hum Ha Hl) as (r & s1 & p1 & E & HG & Hp).
    exists s1, p1. rewrite E. apply (sys_mmap_confined F nx s p G) in E; [|done..]. split_and!; try done. rewrite Hp. by apply heap_ok_umap.
  - destruct Hc as [Ha Hl]. pose proof (sys_munmap_cases F s p G a len Hum Ha Hl) as Hs.
    pose proof (sys_munmap_confined F s p G a len Hum) as Hcf. destruct (sys_munmap s p a len) as [[r s1] p1]. exists s1, p1.
    destruct Hs as [(_ & [HG Hp _ _ _ _ _])|(_ & -> & ->)]; [|by eauto]. split_and!; [done|by exists G|rewrite Hp; by apply heap_ok_umap|done].
  - destruct Hc as (Ha & Hl & Hb). destruct (write_confined F p G s a bs Hum Ha Hl Hb) as [Hcf HG]. by eauto 10.
Qed.

(** ** A machine with several processes *)

Record world := World { wmem : mstate; procs : gmap Z process_t }.

Section World.
Context (s0 : mstate) (kpml4 : Z) (nx : bool).
Context (Hok0 : vm_ok s0) (Hk : frame_addr kpml4) (Hkn : frame_no kpml4 ∉ free_set (ms_pmm s0)).
Implicit Types (w : world) (T : gmap Z table_map).

(** What process [i] does: it is created, calls, or gives its address space up. *)
Inductive wstep w (i : Z) : world -> Prop :=
  | ws_create p r s' : procs w !! i = None -> address_space_create (wmem w) kpml4 = (r, s') -> r <> 0 ->
      fresh_space p r -> heap_ok p -> wstep w i (World s' (<[i := p]> (procs w)))
  | ws_call p c s' p' : procs w !! i = Some p -> call_ok c -> run_call nx c (wmem w) p = Some (s', p') ->
      wstep w i (World s' (<[i := p']> (procs w)))
  | ws_exit p s' p' : procs w !! i = Some p -> process_destroy_user_space (wmem w) p = (s', p') ->
      wstep w i (World s' (delete i (procs w))).

Inductive wrun : world -> Prop :=
  | wr_boot : wrun (World s0 ∅)
  | wr_step w i w' : wrun w -> wstep w i w' -> wrun w'.

(** [T]: the page tables of every process. *)
Record world_ok w T : Prop := {
  wo_vm : vm_ok (wmem w);
  wo_proc : forall i p, procs w !! i = Some p -> exists G, T !! i = Some G /\
    um_inv (free_set (ms_pmm (wmem w)) ∪ owned (umap p) G) (wmem w) p G /\ heap_ok p;
  wo_apart : forall i j p q G H, i <> j -> procs w !! i = Some p -> procs w !! j = Some q -> T !! i = Some G -> T !! j = Some H ->
    owned (umap p) G ## owned (umap q) H;
  wo_sum : forall x, x ∈ free_set (ms_pmm s0) <-> x ∈ free_set (ms_pmm (wmem w)) \/
    exists i p G, procs w !! i = Some p /\ T !! i = Some G /\ x ∈ owned (umap p) G
}.

(** What process [i] owns: nothing before it is created. *)
Definition holds w T (i : Z) (O : gset Z) : Prop :=
  (procs w !! i = None /\ O = ∅) \/ exists p G, procs w !! i = Some p /\ T !! i = Some G /\ O = owned (umap p) G.

Lemma holds_apart w T i O j q H : world_ok w T -> holds w T i O -> j <> i -> procs w !! j = Some q -> T !! j = Some H ->
  O ## owned (umap q) H.
Proof. intros HW [[_ ->]|(p & G & Hp & HG & ->)] Hj Hq HH; [set_solver +|]. by apply (wo_apart _ _ HW i j p q G H). Qed.

Lemma holds_sum w T i O x : world_ok w T -> holds w T i O -> x ∈ free_set (ms_pmm s0) <->
  x ∈ free_set (ms_pmm (wmem w)) ∪ O \/ exists j q H, j <> i /\ procs w !! j = Some q /\ T !! j = Some H /\ x ∈ owned (umap q) H.
Proof.
  intros HW HO. rewrite (wo_sum _ _ HW), elem_of_union. split.
  - intros [?|(j & q & H & Hq & HH & Hx)]; [by left; left|]. destruct (decide (j = i)) as [->|Hne]; [|right; by exists j, q, H].
    left; right. destruct HO as [[Hn _]|(p & G & Hp & HG & ->)]; congruence.
  - intros [[?|Hx]|(j & q & H & _ & ?)]; [by left| |right; by exists j, q, H].
    right. destruct HO as [[_ ->]|(p & G & Hp & HG & ->)]; [by apply not_elem_of_empty in Hx|by exists i, p, G].
Qed.

(** A step of [i] that stays in the free frames and its own. *)
Lemma others_ok w T i O s' : world_ok w T -> holds w T i O -> vm_ok s' -> confined (free_set (ms_pmm (wmem w)) ∪ O) (wmem w) s' ->
  free_set (ms_pmm s') ⊆ free_set (ms_pmm (wmem w)) ∪ O ->
  forall j q, j <> i -> procs w !! j = Some q -> untouched (wmem w) q s' /\ exists G, T !! j = Some G /\
    um_inv (free_set (ms_pmm s') ∪ owned (umap q) G) s' q G /\ heap_ok q.
Proof.
  intros HW HO Hok Hc Hf j q Hj Hq. destruct (wo_proc _ _ HW j q Hq) as (G & HG & Hum & Hh).
  destruct (bystander (free_set (ms_pmm (wmem w)) ∪ O) _ _ _ _ _ Hum Hok Hc) as [Hum' Hun]; [|done|].
  - pose proof (holds_apart w T i O j q G HW HO Hj Hq HG) as Hd. intros x [Hx|Hx]%elem_of_union; [|by apply Hd].
    intros Ho. by destruct (owned_not_free _ _ _ _ _ Hum Ho).
  - split; [done|]. by exists G.
Qed.

(** [i] ends the step with the address space of [p']. *)
Lemma put_ok w T i O s' p' G' : world_ok w T -> holds w T i O -> um_inv (free_set (ms_pmm (wmem w)) ∪ O) s' p' G' -> heap_ok p' ->
  confined (free_set (ms_pmm (wmem w)) ∪ O) (wmem w) s' -> world_ok (World s' (<[i := p']> (procs w))) (<[i := G']> T) /\
  forall j q, j <> i -> procs w !! j = Some q -> untouched (wmem w) q s'.
Proof.
  intros HW HO Hum Hh Hc. pose proof (um_account _ _ _ _ Hum) as Hacc. pose proof (um_ok _ _ _ _ Hum) as Hok.
  assert (Hoth := others_ok w T i O s' HW HO Hok Hc ltac:(rewrite <- Hacc; set_solver +)).
  assert (Hap : forall j q H, j <> i -> procs w !! j = Some q -> T !! j = Some H -> owned (umap p') G' ## owned (umap q) H).
  { intros j q H Hj Hq HH x Hx Hxq. destruct (Hoth j q Hj Hq) as (_ & H' & HT & Hq' & _). rewrite HT in HH. injection HH as ->.
    destruct (owned_not_free _ _ _ _ _ Hq' Hxq) as [Hnf _].
    assert (Hin : x ∈ free_set (ms_pmm (wmem w)) ∪ O) by (rewrite <- Hacc; set_solver).
    apply elem_of_union in Hin as [Hin|Hin]; [|by apply (holds_apart w T i O j q H HW HO Hj Hq HT x)].
    destruct (wo_proc _ _ HW j q Hq) as (G & HG & Huq & _). rewrite HT in HG. injection HG as <-.
    by destruct (owned_not_free _ _ _ _ _ Huq Hxq). }
  split; [|intros j q Hj Hq; by apply (Hoth j q)]. split; cbn [wmem procs].
  - done.
  - intros j q Hq. destruct (decide (j = i)) as [->|Hj].
    + rewrite lookup_insert_eq in Hq. injection Hq as <-. exists G'. rewrite lookup_insert_eq. split; [done|]. by rewrite Hacc.
    + rewrite lookup_insert_ne in Hq by done. destruct (Hoth j q Hj Hq) as (_ & G & HG & HH). exists G. by rewrite lookup_insert_ne.
  - intros a b q r G H Hab Hq Hr HG HH.
    destruct (decide (a = i)) as [->|Ha]; [|destruct (decide (b = i)) as [->|Hb]].
    + rewrite lookup_insert_eq in Hq. rewrite lookup_insert_eq in HG. rewrite lookup_insert_ne in Hr by done. rewrite lookup_insert_ne in HH by done. injection Hq as <-. injection HG as <-.
      apply (Hap b); congruence.
    + rewrite lookup_insert_eq in Hr. rewrite lookup_insert_eq in HH. rewrite lookup_insert_ne in Hq by done. rewrite lookup_insert_ne in HG by done. injection Hr as <-. injection HH as <-.
      symmetry. by apply (Hap a).
    + rewrite lookup_insert_ne in Hq by done. rewrite lookup_insert_ne in HG by done. rewrite lookup_insert_ne in Hr by done. rewrite lookup_insert_ne in HH by done. by apply (wo_apart _ _ HW a b).
  - intros x. rewrite (holds_sum w T i O x HW HO), <- Hacc, elem_of_union. split.
    + intros [[?|?]|(j & q & H & Hj & Hq & HH & ?)]; [by left|right; exists i, p', G'; by rewrite !lookup_insert_eq|].
      right. exists j, q, H. by rewrite !lookup_insert_ne.
    + intros [?|(j & q & H & Hq & HH & Hx)]; [by left; left|]. destruct (decide (j = i)) as [->|Hj].
      * rewrite lookup_insert_eq in Hq. rewrite lookup_insert_eq in HH. injection Hq as ->. injection HH as ->. by left; right.
      * rewrite lookup_insert_ne in Hq by done. rewrite lookup_insert_ne in HH by done. right. by exists j, q, H.
Qed.

Lemma wstep_ok w T i w' : world_ok w T -> frame_no kpml4 ∉ free_set (ms_pmm (wmem w)) -> wstep w i w' -> exists T', world_ok w' T' /\
  (forall j q, j <> i -> procs w !! j = Some q -> procs w' !! j = Some q /\ untouched (wmem w) q (wmem w')).
Proof.
  intros HW Hkf. destruct 1 as [p r s' Hi Hcr Hr Hp Hh|p c s' p' Hi Hc E|p s' p' Hi E].
  - pose proof (address_space_create_spec (wmem w) kpml4 (wo_vm _ _ HW) Hk Hkf) as Hs.
    pose proof (create_confined (wmem w) kpml4 (wo_vm _ _ HW) Hk Hkf) as Hcf. rewrite Hcr in Hs, Hcf.
    destruct Hs as [(? & _)|(_ & Hum & _)]; [done|]. specialize (Hum p Hp).
    destruct (put_ok w T i ∅ s' p _ HW ltac:(by left) ltac:(by rewrite (right_id_L ∅ (∪))) Hh ltac:(by rewrite (right_id_L ∅ (∪)))) as [HW' Hun].
    eexists. split; [exact HW'|]. intros j q Hj Hq. cbn [procs wmem]. by rewrite lookup_insert_ne; [split; [|eapply Hun]|].
  - destruct (wo_proc _ _ HW i p Hi) as (G & HG & Hum & Hh).
    destruct (run_call_spec _ nx c _ p G Hum Hh Hc) as (s1 & p1 & E1 & [G' Hum'] & Hh' & Hcf). rewrite E in E1. injection E1 as <- <-.
    destruct (put_ok w T i _ s' p' G' HW ltac:(right; by exists p, G) Hum' Hh' Hcf) as [HW' Hun].
    eexists. split; [exact HW'|]. intros j q Hj Hq. cbn [procs wmem]. by rewrite lookup_insert_ne; [split; [|eapply Hun]|].
  - destruct (wo_proc _ _ HW i p Hi) as (G & HG & Hum & Hh). assert (HO : holds w T i (owned (umap p) G)) by (right; by exists p, G).
    pose proof (destroy_spec _ _ _ _ Hum) as Hd. pose proof (destroy_confined _ _ _ _ Hum) as Hcf. rewrite E in Hd, Hcf.
    destruct Hd as (Hok & Hfree & _).
    pose proof (others_ok w T i _ s' HW HO Hok Hcf ltac:(by rewrite Hfree)) as Hoth.
    exists T. split; [|intros j q Hj Hq; cbn [procs wmem]; rewrite lookup_delete_ne by done; split; [done|by eapply Hoth]].
    split; cbn [wmem procs]; [done| | |].
    + intros j q [Hj Hq]%lookup_delete_Some. by apply (Hoth j q).
    + intros a b q r H1 H2 Hab [_ Hq]%lookup_delete_Some [_ Hr]%lookup_delete_Some. by apply (wo_apart _ _ HW).
    + intros x. rewrite (holds_sum w T i _ x HW HO), Hfree. split.
      * intros [?|(j & q & H & Hj & Hq & HH & ?)]; [by left|right; exists j, q, H]. by rewrite lookup_delete_ne.
      * intros [?|(j & q & H & [Hj Hq]%lookup_delete_Some & HH & ?)]; [by left|right; by exists j, q, H].
Qed.

Lemma wrun_ok w : wrun w -> exists T, world_ok w T.
Proof using Hok0 Hk Hkn.
  induction 1 as [|w i w' _ [T HW] Hs].
  - exists ∅. split; cbn [wmem procs]; [done|intros i p Hp|intros i j p q G H _ Hp|intros x; split; [by left|intros [?|(i & p & G & Hp & _)]; [done|]]];
      by rewrite lookup_empty in Hp.
  - assert (Hkf : frame_no kpml4 ∉ free_set (ms_pmm (wmem w))) by (intros Hx; apply Hkn, (wo_sum _ _ HW); by left).
    destruct (wstep_ok w T i w' HW Hkf Hs) as (T' & HW' & _). by exists T'.
Qed.

(** C2.  Processes are isolated.  In every run of a machine whose processes are created,
  map pages, move their breaks, map and unmap memory, have system calls store into their
  buffers and exit, in any order: a step of one process changes neither a translation
  nor a byte of any other; no page of one process is backed by a frame that backs a page
  of another; and when all are gone the free frames are those of the beginning. *)
Theorem process_isolation w i w' : wrun w -> wstep w i w' ->
  (forall j q, j <> i -> procs w !! j = Some q -> procs w' !! j = Some q /\ untouched (wmem w) q (wmem w')) /\
  (forall j k q r va va', j <> k -> procs w' !! j = Some q -> procs w' !! k = Some r -> user_half va -> user_half va' ->
     page_present (wmem w') q va = true -> page_present (wmem w') r va' = true -> backing (wmem w') q va <> backing (wmem w') r va') /\
  (procs w' = ∅ -> free_set (ms_pmm (wmem w')) = free_set (ms_pmm s0)).
Proof.
  intros [T HW]%wrun_ok Hs.
  assert (Hkf : frame_no kpml4 ∉ free_set (ms_pmm (wmem w))) by (intros Hx; apply Hkn, (wo_sum _ _ HW); by left).
  destruct (wstep_ok w T i w' HW Hkf Hs) as (T' & HW' & Hoth). split; [exact Hoth|]. split.
  - intros j k q r va va' Hjk Hq Hr Hv Hv' Hp Hp' He.
    destruct (wo_proc _ _ HW' j q Hq) as (G & HG & Hum & _). destruct (wo_proc _ _ HW' k r Hr) as (H & HH & Hum' & _).
    destruct (um_present _ _ _ _ Hum va Hv Hp) as (v & Hin & _). destruct (um_present _ _ _ _ Hum' va' Hv' Hp') as (v' & Hin' & _).
    fold (backing (wmem w') q va) in Hin. fold (backing (wmem w') r va') in Hin'. rewrite He in Hin.
    apply (wo_apart _ _ HW' j k q r G H Hjk Hq Hr HG HH (frame_no (backing (wmem w') r va'))); apply elem_of_owned; left; by eexists _, _.
  - intros He. apply set_eq. intros x. rewrite (wo_sum _ _ HW'). split; [by left|].
    intros [?|(j & q & G & Hq & _)]; [done|]. by rewrite He, lookup_empty in Hq.
Qed.
End World.

(** ** Two processes *)
Section Demo.
Definition proc_at (r : Z) : process_t := set_heap (set_cr3 process_zero r) 0x500000 0x501000 VMM_WRITE.

(** One page table root, a second one, and then a page for the first process. *)
Definition demo_first : Z * mstate := address_space_create demo_state demo_root2.
Definition demo_second : Z * mstate := address_space_create demo_first.2 demo_root2.

Lemma proc_at_ok r : fresh_space (proc_at r) r /\ heap_ok (proc_at r).
Proof. split; [by split|]. split; [done|by vm_compute|cbn; lia]. Qed.

Lemma demo_roots : demo_first.1 <> 0 /\ demo_second.1 <> 0.
Proof. split; apply Z.eqb_neq; vm_compute; reflexivity. Qed.

Lemma demo_two_run kpml4 nx s0 r1 s1 r2 s2 : address_space_create s0 kpml4 = (r1, s1) -> address_space_create s1 kpml4 = (r2, s2) ->
  r1 <> 0 -> r2 <> 0 -> wrun s0 kpml4 nx (World s2 (<[1 := proc_at r2]> (<[0 := proc_at r1]> ∅))).
Proof.
  intros E1 E2 H1 H2. destruct (proc_at_ok r1) as [F1 K1]. destruct (proc_at_ok r2) as [F2 K2].
  pose proof (ws_create kpml4 nx (World s0 ∅) 0 (proc_at r1) r1 s1 (lookup_empty 0) E1 H1 F1 K1) as W1.
  cbn [procs] in W1. set (P1 := <[0 := proc_at r1]> ∅) in *.
  assert (HP : P1 !! 1 = None) by (unfold P1; by rewrite lookup_insert_ne).
  pose proof (ws_create kpml4 nx (World s1 P1) 1 (proc_at r2) r2 s2 HP E2 H2 F2 K2) as W2.
  eapply wr_step; [|exact W2]. eapply wr_step; [apply wr_boot|exact W1].
Qed.

Lemma process_isolation_witness : exists s' p', run_call true (CPage 0x400000 VMM_WRITE) demo_second.2 (proc_at demo_first.1) = Some (s', p') /\
  untouched demo_second.2 (proc_at demo_second.1) s'.
Proof.
  assert (Hf : frame_addr demo_root2) by (split; [unfold demo_root2; lia|reflexivity]).
  assert (Hn : frame_no demo_root2 ∉ free_set (ms_pmm demo_state)) by (vm_compute; intros; discriminate).
  pose proof demo_roots as [H1 H2].
  pose proof (demo_two_run demo_root2 true demo_state _ _ _ _ (surjective_pairing demo_first) (surjective_pairing demo_second) H1 H2) as Hrun.
  generalize dependent demo_second. generalize dependent demo_first. intros c1 H1 c2 H2 Hrun.
  destruct (process_alloc_user_page c2.2 (proc_at c1.1) 0x400000 VMM_WRITE) as [[st s'] p'] eqn:E. exists s', p'.
  assert (Ec : run_call true (CPage 0x400000 VMM_WRITE) c2.2 (proc_at c1.1) = Some (s', p')) by (cbn [run_call]; by rewrite E).
  split; [exact Ec|]. set (w := World c2.2 _) in *.
  assert (Hs : wstep demo_root2 true w 0 (World s' (<[0 := p']> (procs w)))).
  { apply (ws_call demo_root2 true w 0 (proc_at c1.1) (CPage 0x400000 VMM_WRITE)); [|split; [lia|by vm_compute]|exact Ec].
    cbn [procs w]. by rewrite lookup_insert_ne, lookup_insert_eq. }
  destruct (process_isolation demo_state demo_root2 true demo_vm_ok Hf Hn w 0 _ Hrun Hs) as (H & _).
  apply (H 1 (proc_at c2.1)); [lia|]. cbn [procs w]. by rewrite lookup_insert_eq.
Defined.
End Demo.
