(* ===== verification/Arch.v ===== *)
(** * Descriptor tables and interrupt frames ([kernel/arch/x86_64/gdt.c],
  [kernel/arch/x86_64/idt.c])

  The byte-level encodings the CPU reads: segment descriptors, the TSS and its
  descriptor, interrupt gates; and the decision part of the interrupt
  dispatcher.  Loading the tables ([lgdt], [lidt], [ltr]) is not modelled. *)
From S2P Require Import Prelude PhysMem.

(** ** Selectors *)
Definition GDT_SEL_KCODE : Z := 0x08.
Definition GDT_SEL_KDATA : Z := 0x10.
Definition GDT_SEL_UDATA : Z := 0x18.
Definition GDT_SEL_UCODE : Z := 0x20.
Definition GDT_SEL_TSS : Z := 0x28.
Definition GDT_SEL_UDATA3 : Z := Z.lor GDT_SEL_UDATA 3.
Definition GDT_SEL_UCODE3 : Z := Z.lor GDT_SEL_UCODE 3.

(** ** Segment descriptors *)
Record gdt_entry_t := GdtEntry {
  limit_lo : Z;
  base_lo : Z;
  base_mid : Z;
  access : Z;
  flags_limit_hi : Z;
  base_hi : Z
}.

Definition gdt_null : gdt_entry_t := GdtEntry 0 0 0 0 0 0.

Definition gdt_set_entry (g : list gdt_entry_t) (idx acc flags : Z) : list gdt_entry_t :=
  zset g idx (GdtEntry 0xFFFF 0 0 acc (u8 (Z.lor (Z.shiftl flags 4) 0x0F)) 0).

(** The eight bytes of an entry, seen as a 64-bit word. *)
Definition gdt_bytes (v : Z) : gdt_entry_t :=
  GdtEntry (Z.land v 0xFFFF) (Z.land (Z.shiftr v 16) 0xFFFF) (Z.land (Z.shiftr v 32) 0xFF)
    (Z.land (Z.shiftr v 40) 0xFF) (Z.land (Z.shiftr v 48) 0xFF) (Z.land (Z.shiftr v 56) 0xFF).

Definition gdt_set_tss (g : list gdt_entry_t) (idx base limit : Z) : list gdt_entry_t :=
  let g1 := zset g idx (GdtEntry (u16 (Z.land limit 0xFFFF)) (u16 (Z.land base 0xFFFF))
              (u8 (Z.land (Z.shiftr base 16) 0xFF)) 0x89
              (u8 (Z.land (Z.shiftr limit 16) 0x0F)) (u8 (Z.land (Z.shiftr base 24) 0xFF))) in
  zset g1 (idx + 1) (gdt_bytes (u32 (Z.shiftr base 32))).

(** ** The task state segment

  [tss_t] is packed: its bytes are its fields one after the other, each
  little-endian.  [rsp] has three elements, [ist] seven. *)
Record tss_t := Tss {
  tss_reserved0 : Z;
  tss_rsp : list Z;
  tss_ist : list Z;
  tss_reserved1 : Z;
  tss_reserved2 : Z;
  tss_reserved3 : Z;
  iopb_offset : Z
}.

Definition tss_zero : tss_t := Tss 0 (replicate 3 0) (replicate 7 0) 0 0 0 0.

Definition tss_bytes (t : tss_t) : list Z :=
  le_bytes 4 (tss_reserved0 t) ++ mjoin (le_bytes 8 <$> tss_rsp t) ++ mjoin (le_bytes 8 <$> tss_ist t) ++
  le_bytes 4 (tss_reserved1 t) ++ le_bytes 4 (tss_reserved2 t) ++
  le_bytes 2 (tss_reserved3 t) ++ le_bytes 2 (iopb_offset t).

(** [sizeof(tss_t)]. *)
Definition TSS_SIZE : Z := 4 + 3 * 8 + 7 * 8 + 4 + 4 + 2 + 2.

Definition set_iopb_offset (t : tss_t) (v : Z) : tss_t :=
  Tss (tss_reserved0 t) (tss_rsp t) (tss_ist t) (tss_reserved1 t) (tss_reserved2 t) (tss_reserved3 t) v.

Definition gdt_set_kernel_stack (t : tss_t) (rsp0 : Z) : tss_t :=
  Tss (tss_reserved0 t) (zset (tss_rsp t) 0 rsp0) (tss_ist t)
    (tss_reserved1 t) (tss_reserved2 t) (tss_reserved3 t) (iopb_offset t).

(** The tables [gdt_init] leaves: [g_gdt] and [g_tss], whose address is
  [tss]; both start zeroed. *)
Definition gdt_segments : list gdt_entry_t :=
  let g := replicate 7 gdt_null in
  let g := gdt_set_entry g 1 0x9A 0xA in
  let g := gdt_set_entry g 2 0x92 0x2 in
  let g := gdt_set_entry g 3 0xF2 0x2 in
  gdt_set_entry g 4 0xFA 0xA.

Definition gdt_init (tss : Z) : list gdt_entry_t * tss_t :=
  let g_tss := set_iopb_offset tss_zero 0xFFFF in
  (gdt_set_tss gdt_segments 5 tss (TSS_SIZE - 1), g_tss).

(** ** Interrupt gates *)
Record idt_gate_t := IdtGate {
  offset_lo : Z;
  selector : Z;
  ist : Z;
  type_attr : Z;
  offset_mid : Z;
  offset_hi : Z
}.

Definition gate_zero : idt_gate_t := IdtGate 0 0 0 0 0 0.

Definition idt_set_gate (g : list idt_gate_t) (vector handler ist : Z) : list idt_gate_t :=
  zset g vector
    (IdtGate (u16 (Z.land handler 0xFFFF)) GDT_SEL_KCODE ist 0x8E
       (u16 (Z.land (Z.shiftr handler 16) 0xFFFF)) (u32 (Z.land (Z.shiftr handler 32) 0xFFFFFFFF))).

Definition set_stub (stubs : Z -> Z) (g : list idt_gate_t) (i : Z) : list idt_gate_t :=
  idt_set_gate g i (stubs i) 0.

(** [stubs] is [isr_stub_table], [spurious] the stub of vector 255. *)
Definition idt_init (stubs : Z -> Z) (spurious : Z) : list idt_gate_t :=
  idt_set_gate (foldl (set_stub stubs) (replicate 256 gate_zero) (range 0 48)) 255 spurious 0.

(** ** Interrupt frames *)
Record isr_frame_t := IsrFrame {
  f_r15 : Z; f_r14 : Z; f_r13 : Z; f_r12 : Z; f_r11 : Z; f_r10 : Z; f_r9 : Z; f_r8 : Z;
  f_rbp : Z; f_rdi : Z; f_rsi : Z; f_rdx : Z; f_rcx : Z; f_rbx : Z; f_rax : Z;
  f_vector : Z; f_error_code : Z;
  f_rip : Z; f_cs : Z; f_rflags : Z; f_rsp : Z; f_ss : Z
}.

Definition FRAME_SIZE : Z := 22 * 8.

Definition frame_zero : isr_frame_t :=
  IsrFrame 0 0 0 0 0 0 0 0 0 0 0 0 0 0 0 0 0 0 0 0 0 0.

Definition set_rax (f : isr_frame_t) (v : Z) : isr_frame_t :=
  IsrFrame (f_r15 f) (f_r14 f) (f_r13 f) (f_r12 f) (f_r11 f) (f_r10 f) (f_r9 f) (f_r8 f)
    (f_rbp f) (f_rdi f) (f_rsi f) (f_rdx f) (f_rcx f) (f_rbx f) v
    (f_vector f) (f_error_code f) (f_rip f) (f_cs f) (f_rflags f) (f_rsp f) (f_ss f).

(** What [isr_dispatch] does with a frame: run the handler of a hardware
  interrupt (and acknowledge it), ignore it, kill the current process with a
  status, or halt the machine. *)
Inductive isr_action :=
  | RunIrq (irq : Z)
  | IgnoreVector
  | KillProcess (status : Z)
  | HaltKernel.

Definition isr_dispatch (f : isr_frame_t) : isr_action :=
  let vec := f_vector f in
  if (32 <=? vec) && (vec <? 48) then RunIrq (u8 (vec - 32))
  else if vec =? 255 then IgnoreVector
  else if Z.land (f_cs f) 3 =? 3 then KillProcess (if vec =? 14 then 11 else 7)
  else HaltKernel.

(** ** What the CPU reads back *)

(** The address of a gate and of a TSS descriptor, as the CPU assembles them. *)
Definition gate_offset (g : idt_gate_t) : Z :=
  offset_lo g + 2 ^ 16 * offset_mid g + 2 ^ 32 * offset_hi g.

Definition entry_word (e : gdt_entry_t) : Z :=
  limit_lo e + 2 ^ 16 * base_lo e + 2 ^ 32 * base_mid e + 2 ^ 40 * access e +
  2 ^ 48 * flags_limit_hi e + 2 ^ 56 * base_hi e.

Definition tss_base (lo hi : gdt_entry_t) : Z :=
  base_lo lo + 2 ^ 16 * base_mid lo + 2 ^ 24 * base_hi lo + 2 ^ 32 * (entry_word hi mod 2 ^ 32).

Definition tss_limit (lo : gdt_entry_t) : Z :=
  limit_lo lo + 2 ^ 16 * (flags_limit_hi lo mod 16).

(** Descriptor bits: present, privilege level, code, long mode, granularity. *)
Definition d_present (e : gdt_entry_t) : bool := Z.testbit (access e) 7.
Definition d_dpl (e : gdt_entry_t) : Z := Z.land (Z.shiftr (access e) 5) 3.
Definition d_code (e : gdt_entry_t) : bool := Z.testbit (access e) 3.
Definition d_long (e : gdt_entry_t) : bool := Z.testbit (flags_limit_hi e) 5.
Definition d_granularity (e : gdt_entry_t) : bool := Z.testbit (flags_limit_hi e) 7.

(** A value cut into its [n] low bits and the rest. *)
Lemma land_ones_mod x n : 0 <= n -> Z.land x (Z.ones n) = x mod 2 ^ n.
Proof. apply Z.land_ones. Qed.

Lemma split_bits x n : 0 <= n -> x = x mod 2 ^ n + 2 ^ n * Z.shiftr x n.
Proof. intros. rewrite Z.shiftr_div_pow2 by done. pose proof (Z.div_mod x (2 ^ n)). lia. Qed.

Lemma mod_twice x n : 0 <= n -> (x mod 2 ^ n) mod 2 ^ n = x mod 2 ^ n.
Proof. intros. apply Z.mod_mod. lia. Qed.

Lemma gate_offset_set handler i : 0 <= handler < 2 ^ 64 ->
  gate_offset (IdtGate (u16 (Z.land handler 0xFFFF)) GDT_SEL_KCODE i 0x8E
       (u16 (Z.land (Z.shiftr handler 16) 0xFFFF)) (u32 (Z.land (Z.shiftr handler 32) 0xFFFFFFFF)))
  = handler.
Proof.
  intros Hh. unfold gate_offset, u16, u32. cbn [offset_lo offset_mid offset_hi].
  change 0xFFFF with (Z.ones 16). change 0xFFFFFFFF with (Z.ones 32).
  rewrite !Z.land_ones, !mod_twice, !Z.shiftr_div_pow2 by lia.
  change (2 ^ 16) with 65536. change (2 ^ 32) with 4294967296.
  assert (handler / 4294967296 < 4294967296) by (apply Z.div_lt_upper_bound; lia).
  rewrite (Z.mod_small (handler / 4294967296)) by (split; [apply Z.div_pos; lia|lia]).
  pose proof (Z.div_mod handler 65536 ltac:(lia)). pose proof (Z.div_mod (handler / 65536) 65536 ltac:(lia)) as H2.
  rewrite Z.div_div in H2 by lia. change (65536 * 65536) with 4294967296 in H2. lia.
Qed.

Lemma tss_base_set base limit g i : 0 <= base < 2 ^ 64 -> 0 <= limit < 2 ^ 20 ->
  0 <= i -> i + 1 < Z.of_nat (length g) ->
  let g' := gdt_set_tss g i base limit in
  tss_base (zget gdt_null g' i) (zget gdt_null g' (i + 1)) = base /\
  tss_limit (zget gdt_null g' i) = limit /\
  (forall j, 0 <= j -> j <> i -> j <> i + 1 -> zget gdt_null g' j = zget gdt_null g j).
Proof.
  intros Hb Hl Hi Hn. cbn zeta. unfold gdt_set_tss. split_and!.
  - rewrite zget_zset_ne, zget_zset_eq, zget_zset_eq by (rewrite ?length_zset; lia).
    unfold tss_base, entry_word, gdt_bytes, u16, u8, u32.
    cbn [base_lo base_mid base_hi limit_lo access flags_limit_hi].
    change 0xFFFF with (Z.ones 16). change 0xFF with (Z.ones 8).
    rewrite !Z.land_ones, !mod_twice, !Z.shiftr_div_pow2 by lia.
    change (2 ^ 8) with 256. change (2 ^ 16) with 65536. change (2 ^ 24) with 16777216.
    change (2 ^ 32) with 4294967296. change (2 ^ 40) with 1099511627776.
    change (2 ^ 48) with 281474976710656. change (2 ^ 56) with 72057594037927936.
    assert (base / 4294967296 < 4294967296) by (apply Z.div_lt_upper_bound; lia).
    assert (0 <= base / 4294967296) by (apply Z.div_pos; lia).
    rewrite (Z.mod_small (base / 4294967296)) by lia. set (h := base / 4294967296) in *.
    rewrite (Z.div_small h 4294967296), (Z.div_small h 1099511627776), (Z.div_small h 281474976710656),
      (Z.div_small h 72057594037927936), !Z.mod_0_l by lia.
    assert (Hh : h mod 65536 + 65536 * ((h / 65536) mod 65536) = h).
    { pose proof (Z.div_mod h 65536 ltac:(lia)). rewrite (Z.mod_small (h / 65536)); [lia|].
      split; [apply Z.div_pos; lia|apply Z.div_lt_upper_bound; lia]. }
    rewrite !Z.mul_0_r, !Z.add_0_r, Hh, (Z.mod_small h) by lia.
    pose proof (Z.div_mod base 65536 ltac:(lia)). pose proof (Z.div_mod (base / 65536) 256 ltac:(lia)) as H2.
    rewrite Z.div_div in H2 by lia. change (65536 * 256) with 16777216 in H2.
    pose proof (Z.div_mod (base / 16777216) 256 ltac:(lia)) as H3.
    rewrite Z.div_div in H3 by lia. change (16777216 * 256) with 4294967296 in H3. fold h in H3. lia.
  - rewrite zget_zset_ne, zget_zset_eq by (rewrite ?length_zset; lia).
    unfold tss_limit, u16, u8. cbn [limit_lo flags_limit_hi].
    change 0xFFFF with (Z.ones 16). change 0x0F with (Z.ones 4).
    rewrite !Z.land_ones, !mod_twice, !Z.shiftr_div_pow2 by lia.
    change (2 ^ 4) with 16. change (2 ^ 8) with 256. change (2 ^ 16) with 65536.
    assert (limit / 65536 < 16) by (apply Z.div_lt_upper_bound; lia).
    assert (0 <= limit / 65536) by (apply Z.div_pos; lia).
    rewrite (Z.mod_small (limit / 65536) 16), (Z.mod_small (limit / 65536) 256), (Z.mod_small (limit / 65536) 16) by lia.
    pose proof (Z.div_mod limit 65536 ltac:(lia)). lia.
  - intros j Hj H1 H2. by rewrite !zget_zset_ne by lia.
Qed.

Lemma idt_fold stubs l : forall g, (forall i, i ∈ l -> 0 <= i < Z.of_nat (length g)) -> NoDup l ->
  let g' := foldl (set_stub stubs) g l in
  length g' = length g /\
  (forall i, i ∈ l -> zget gate_zero g' i =
     IdtGate (u16 (Z.land (stubs i) 0xFFFF)) GDT_SEL_KCODE 0 0x8E
       (u16 (Z.land (Z.shiftr (stubs i) 16) 0xFFFF)) (u32 (Z.land (Z.shiftr (stubs i) 32) 0xFFFFFFFF))) /\
  (forall i, 0 <= i -> i ∉ l -> zget gate_zero g' i = zget gate_zero g i).
Proof.
  induction l as [|j l IH]; intros g Hl Hn; cbn [foldl].
  { split_and!; [done| |done]. intros i Hi. by apply not_elem_of_nil in Hi. }
  apply NoDup_cons in Hn as [Hj Hn].
  assert (Hjr : 0 <= j < Z.of_nat (length g)) by (apply Hl; by left).
  destruct (IH (set_stub stubs g j)) as (Hlen & H1 & H2); [|done|].
  { intros i Hi. unfold set_stub, idt_set_gate. rewrite length_zset. apply Hl. by right. }
  unfold set_stub, idt_set_gate in *. rewrite length_zset in Hlen. split_and!; [done| |].
  - intros i [->|Hi]%elem_of_cons; [|by apply H1]. rewrite H2 by (done || lia). by rewrite zget_zset_eq.
  - intros i Hi Hn'. apply not_elem_of_cons in Hn' as [? ?]. rewrite H2 by done. by rewrite zget_zset_ne by lia.
Qed.

(** Every gate of the table [idt_init] builds. *)
Lemma idt_gates stubs spurious : (forall i, 0 <= stubs i < 2 ^ 64) -> 0 <= spurious < 2 ^ 64 ->
  let idt := idt_init stubs spurious in
  forall i, 0 <= i < 256 ->
     gate_offset (zget gate_zero idt i) =
       (if decide (i < 48) then stubs i else if decide (i = 255) then spurious else 0) /\
     Z.testbit (type_attr (zget gate_zero idt i)) 7 = (i <? 48) || (i =? 255) /\
     (i < 48 \/ i = 255 -> selector (zget gate_zero idt i) = 8 /\ ist (zget gate_zero idt i) = 0).
Proof.
  intros Hst Hsp idt i Hi. subst idt. unfold idt_init.
  destruct (idt_fold stubs (range 0 48) (replicate 256 gate_zero)) as (Hlen & H1 & H2).
  { intros j Hj%elem_of_range. rewrite length_replicate. lia. }
  { apply NoDup_range. }
  rewrite length_replicate in Hlen. set (g := foldl _ _ _) in *. clearbody g.
  unfold idt_set_gate. destruct (decide (i = 255)) as [->|Hne].
  - rewrite zget_zset_eq by lia. rewrite gate_offset_set by done. by rewrite decide_False by lia.
  - rewrite zget_zset_ne by lia. case_decide.
    + rewrite H1 by (apply elem_of_range; lia). rewrite gate_offset_set by apply Hst.
      by rewrite (proj2 (Z.ltb_lt i 48)) by lia.
    + rewrite H2 by (rewrite ?elem_of_range; lia).
      rewrite (proj2 (Z.ltb_ge i 48)), (proj2 (Z.eqb_neq i 255)) by lia.
      rewrite zget_lookup, lookup_replicate_2 by lia. split_and!; [done..|]. intros [?| ->]; lia.
Qed.

(** The bytes of a TSS: its size, the word at offset 4, the last two bytes. *)
Lemma tss_bytes_fields t rsp0 : 0 <= rsp0 < 2 ^ 64 ->
  length (tss_rsp t) = 3%nat -> length (tss_ist t) = 7%nat ->
  let bytes := tss_bytes (gdt_set_kernel_stack t rsp0) in
  Z.of_nat (length bytes) = TSS_SIZE /\ le_val (take 8 (drop 4 bytes)) = rsp0 /\
  le_val (take 2 (drop 94 bytes)) = u16 (iopb_offset t).
Proof.
  intros Hr H1 H2. unfold gdt_set_kernel_stack, tss_bytes.
  destruct (tss_rsp t) as [|r0 [|r1 [|r2 [|]]]]; try discriminate H1.
  destruct (tss_ist t) as [|i1 [|i2 [|i3 [|i4 [|i5 [|i6 [|i7 [|]]]]]]]]; try discriminate H2.
  cbn [tss_reserved0 tss_rsp tss_ist tss_reserved1 tss_reserved2 tss_reserved3 iopb_offset].
  change (zset [r0; r1; r2] 0 rsp0) with [rsp0; r1; r2].
  split_and!; [reflexivity| |].
  - transitivity (le_val (le_bytes 8 rsp0)); [reflexivity|]. rewrite le_val_bytes. by apply Z.mod_small.
  - transitivity (le_val (le_bytes 2 (iopb_offset t))); [reflexivity|]. apply le_val_bytes.
Qed.

(** ** Properties *)



(** A fault in user code never stops the kernel: [isr_dispatch] halts only
  for a vector that is neither a hardware interrupt nor the spurious one and
  that was raised in the kernel; the same vector raised at privilege level 3
  terminates the process with 11 for a page fault and 7 otherwise; every
  hardware vector is routed to its own handler slot. *)
Theorem isr_dispatch_correct f : 0 <= f_vector f < 256 ->
  (isr_dispatch f = HaltKernel <->
     (f_vector f < 32 \/ 48 <= f_vector f) /\ f_vector f <> 255 /\ Z.land (f_cs f) 3 <> 3) /\
  (forall st, isr_dispatch f = KillProcess st <->
     (f_vector f < 32 \/ 48 <= f_vector f) /\ f_vector f <> 255 /\ Z.land (f_cs f) 3 = 3 /\
     st = (if f_vector f =? 14 then 11 else 7)) /\
  (forall n, isr_dispatch f = RunIrq n <-> 0 <= n < 16 /\ f_vector f = 32 + n).
Proof.
  intros Hv. unfold isr_dispatch.
  destruct (Z.leb_spec 32 (f_vector f)) as [H1|H1], (Z.ltb_spec (f_vector f) 48) as [H2|H2]; cbn [andb];
    rewrite ?u8_id by lia;
    destruct (Z.eqb_spec (f_vector f) 255) as [H3|H3];
    destruct (Z.eqb_spec (Z.land (f_cs f) 3) 3) as [H4|H4];
    (split; [|split; intros x]; split; intros Ha);
    try discriminate Ha; try (injection Ha as <-); try tauto; try lia; try (f_equal; lia);
    try (destruct Ha as (? & ? & ? & ->); done).
Qed.

Lemma isr_dispatch_correct_witness :
  isr_dispatch (IsrFrame 0 0 0 0 0 0 0 0 0 0 0 0 0 0 0 14 4 0x401000 0x23 0x202 0x6FFFFFFFF000 0x1B)
    = KillProcess 11.
Proof.
  set (f := IsrFrame 0 0 0 0 0 0 0 0 0 0 0 0 0 0 0 14 4 0x401000 0x23 0x202 0x6FFFFFFFF000 0x1B).
  destruct (isr_dispatch_correct f ltac:(cbn; lia)) as (_ & H & _).
  apply H. by repeat split; vm_compute; auto.
Defined.
