(* ===== verification/Sched.v ===== *)
(** * The scheduler ([kernel/sched/sched.c])

  A fixed table of thread control blocks linked into a circular list by
  [next]; pointers to TCBs are table indices.  A tick saves the interrupted
  frame, picks the first READY thread after the current one and returns its
  saved frame.  The stack frames themselves live at kernel virtual addresses
  and are kept as a map from address to frame. *)
From S2P Require Import Prelude Pmm PhysMem Vmm Arch.

Definition MAX_THREADS : Z := 64.
Definition KTHREAD_STACK_SIZE : Z := 16 * 4096.

Inductive thread_state_t := THREAD_READY | THREAD_RUNNING | THREAD_BLOCKED | THREAD_EXITED.

#[export] Instance thread_state_eq_dec : EqDecision thread_state_t.
Proof. solve_decision. Defined.

(** [t_proc] is the index of the owning process, [None] for NULL; [next] is the
  index of the next TCB. *)
Record thread_t := Thread {
  t_rsp : Z;
  t_cr3 : Z;
  stack_base : Z;
  stack_size : Z;
  tid : Z;
  t_state : thread_state_t;
  t_proc : option Z;
  next : Z
}.

Definition thread_zero : thread_t := Thread 0 0 0 0 0 THREAD_EXITED None 0.

Definition t_set_state (t : thread_t) (st : thread_state_t) : thread_t :=
  Thread (t_rsp t) (t_cr3 t) (stack_base t) (stack_size t) (tid t) st (t_proc t) (next t).
Definition t_set_rsp (t : thread_t) (r : Z) : thread_t :=
  Thread r (t_cr3 t) (stack_base t) (stack_size t) (tid t) (t_state t) (t_proc t) (next t).
Definition t_set_next (t : thread_t) (n : Z) : thread_t :=
  Thread (t_rsp t) (t_cr3 t) (stack_base t) (stack_size t) (tid t) (t_state t) (t_proc t) n.

(** The module's variables, with the CPU state a tick updates: the loaded CR3,
  [TSS.RSP0] and the SYSCALL stack. *)
Record sched := Sched {
  threads : list thread_t;
  next_tid : Z;
  current : Z;
  idle_thread : Z;
  scheduler_active : bool;
  next_stack_vaddr : Z;
  hw_cr3 : Z;
  tss_rsp0 : Z;
  syscall_kernel_rsp : Z
}.

Definition get_t (s : sched) (i : Z) : thread_t := zget thread_zero (threads s) i.

Definition set_threads (s : sched) (ts : list thread_t) : sched :=
  Sched ts (next_tid s) (current s) (idle_thread s) (scheduler_active s) (next_stack_vaddr s)
    (hw_cr3 s) (tss_rsp0 s) (syscall_kernel_rsp s).
Definition set_t (s : sched) (i : Z) (t : thread_t) : sched :=
  set_threads s (zset (threads s) i t).
Definition set_next_tid (s : sched) (n : Z) : sched :=
  Sched (threads s) n (current s) (idle_thread s) (scheduler_active s) (next_stack_vaddr s)
    (hw_cr3 s) (tss_rsp0 s) (syscall_kernel_rsp s).
Definition set_current (s : sched) (c : Z) : sched :=
  Sched (threads s) (next_tid s) c (idle_thread s) (scheduler_active s) (next_stack_vaddr s)
    (hw_cr3 s) (tss_rsp0 s) (syscall_kernel_rsp s).
Definition set_idle (s : sched) (i : Z) : sched :=
  Sched (threads s) (next_tid s) (current s) i (scheduler_active s) (next_stack_vaddr s)
    (hw_cr3 s) (tss_rsp0 s) (syscall_kernel_rsp s).
Definition set_vaddr (s : sched) (v : Z) : sched :=
  Sched (threads s) (next_tid s) (current s) (idle_thread s) (scheduler_active s) v
    (hw_cr3 s) (tss_rsp0 s) (syscall_kernel_rsp s).
Definition set_hw (s : sched) (cr3 rsp0 sys : Z) : sched :=
  Sched (threads s) (next_tid s) (current s) (idle_thread s) (scheduler_active s) (next_stack_vaddr s)
    cr3 rsp0 sys.

(** ** Kernel stacks *)

(** The mapping loop of [alloc_kstack]; the result of [vmm_map_page] is not
  looked at, as in the source. *)
Fixpoint map_stack (m : mstate) (kcr3 base : Z) (offs : list Z) : bool * mstate :=
  match offs with
  | [] => (true, m)
  | off :: offs =>
      let '(frame, pm) := pmm_alloc_frame (ms_pmm m) in
      if frame =? 0 then (false, with_pmm m pm)
      else
        let '(_, m1) := vmm_map_page (with_pmm m pm) kcr3 (u64 (base + off)) frame VMM_KERN_RW in
        map_stack m1 kcr3 base offs
  end.

Definition stack_offsets : list Z := (fun k => k * PAGE_SIZE) <$> range 0 (KTHREAD_STACK_SIZE / PAGE_SIZE).

(** Returns the stack top (0 for NULL), the base and the new states. *)
Definition alloc_kstack (s : sched) (m : mstate) (kcr3 : Z) : Z * Z * sched * mstate :=
  let base := next_stack_vaddr s in
  let s1 := set_vaddr s (u64 (base + (KTHREAD_STACK_SIZE + PAGE_SIZE))) in
  let '(ok, m1) := map_stack m kcr3 base stack_offsets in
  if ok then (u64 (base + KTHREAD_STACK_SIZE), base, s1, m1) else (0, 0, s1, m1).

Definition sched_alloc_kstack := alloc_kstack.

(** ** Creating threads *)

(** [t->next = current->next; current->next = t;] *)
Definition ring_insert (s : sched) (i : Z) : sched :=
  let s1 := set_t s i (t_set_next (get_t s i) (next (get_t s (current s)))) in
  set_t s1 (current s1) (t_set_next (get_t s1 (current s1)) i).

Definition kthread_frame (stack_top entry func arg : Z) : isr_frame_t :=
  IsrFrame 0 0 arg func 0 0 0 0 0 0 0 0 0 0 0 0 0 entry GDT_SEL_KCODE 0x202 stack_top GDT_SEL_KDATA.

(** [entry] is the address of [thread_entry_trampoline]; the frame built is the
  last component.  The slot is marked READY before the stack is allocated, and
  stays so when the allocation fails. *)
Definition sched_create_kthread (s : sched) (m : mstate) (kcr3 entry func arg : Z)
    : Z * sched * mstate * option isr_frame_t :=
  if MAX_THREADS <=? next_tid s then (0, s, m, None)
  else
    let i := next_tid s in
    let t := get_t s i in
    let s1 := set_next_tid s (u32 (i + 1)) in
    let s1 := set_t s1 i (Thread (t_rsp t) kcr3 (stack_base t) (stack_size t) i THREAD_READY (t_proc t) (next t)) in
    let '(top, base, s2, m2) := alloc_kstack s1 m kcr3 in
    if top =? 0 then (0, s2, m2, None)
    else
      let t2 := get_t s2 i in
      let s3 := set_t s2 i (Thread (u64 (top - FRAME_SIZE)) (t_cr3 t2) base KTHREAD_STACK_SIZE (tid t2)
                              (t_state t2) (t_proc t2) (next t2)) in
      (i, ring_insert s3 i, m2, Some (kthread_frame top entry func arg)).

Definition sched_adopt_thread (s : sched) (rsp cr3 : Z) (proc : option Z) (kbase ksize : Z)
    : option Z * sched :=
  if MAX_THREADS <=? next_tid s then (None, s)
  else
    let i := next_tid s in
    let t := get_t s i in
    let s1 := set_next_tid s (u32 (i + 1)) in
    let s1 := set_t s1 i (Thread rsp cr3 kbase ksize i THREAD_READY proc (next t)) in
    (Some i, ring_insert s1 i).

(** [sched_init]: thread 0 is the boot context; then the idle thread. *)
Definition sched_init (m : mstate) (kcr3 entry idle_func : Z) : sched * mstate :=
  let t0 := Thread 0 kcr3 0 0 0 THREAD_RUNNING None 0 in
  let s0 := Sched (zset (replicate 64 thread_zero) 0 t0) 1 0 0 false 0xFFFFFFFF91000000 kcr3 0 0 in
  let '(idle, s1, m1, _) := sched_create_kthread s0 m kcr3 entry idle_func 0 in
  (set_idle s1 idle, m1).

Definition sched_start (s : sched) : sched :=
  Sched (threads s) (next_tid s) (current s) (idle_thread s) true (next_stack_vaddr s)
    (hw_cr3 s) (tss_rsp0 s) (syscall_kernel_rsp s).

(** ** Choosing the next thread *)

Definition ready (s : sched) (i : Z) : bool :=
  if decide (t_state (get_t s i) = THREAD_READY) then true else false.

(** The do-while loop; the ring has at most [MAX_THREADS] members, so that many
  turns are enough ([pick_next_spec]). *)
Fixpoint pick_loop (fuel : nat) (s : sched) (t start : Z) : Z :=
  match fuel with
  | O => idle_thread s
  | S fuel =>
      if ready s t then t
      else
        let t' := next (get_t s t) in
        if t' =? start then idle_thread s else pick_loop fuel s t' start
  end.

Definition pick_next (s : sched) : Z :=
  let t := next (get_t s (current s)) in pick_loop 64 s t t.

(** [process_on_switch]: point the TSS and the SYSCALL stack at the thread's
  own kernel stack. *)
Definition process_on_switch (s : sched) (i : Z) : sched :=
  let t := get_t s i in
  if stack_base t =? 0 then s
  else
    let ktop := u64 (stack_base t + stack_size t) in
    set_hw s (hw_cr3 s) ktop ktop.

(** [sched_tick]: [frame] and the result are frame addresses. *)
Definition sched_tick (s : sched) (frame : Z) : Z * sched :=
  if negb (scheduler_active s) then (frame, s)
  else
    let c := current s in
    let s1 := set_t s c (t_set_rsp (get_t s c) frame) in
    let s2 := if decide (t_state (get_t s1 c) = THREAD_RUNNING)
              then set_t s1 c (t_set_state (get_t s1 c) THREAD_READY) else s1 in
    let n := pick_next s2 in
    let s3 := set_t s2 n (t_set_state (get_t s2 n) THREAD_RUNNING) in
    let s4 := if t_cr3 (get_t s3 n) =? t_cr3 (get_t s3 c) then s3
              else set_hw s3 (t_cr3 (get_t s3 n)) (tss_rsp0 s3) (syscall_kernel_rsp s3) in
    let s5 := process_on_switch s4 n in
    (t_rsp (get_t s5 n), set_current s5 n).

(** [sched_exit] up to the yield that never returns. *)
Definition sched_exit (s : sched) : sched :=
  set_t s (current s) (t_set_state (get_t s (current s)) THREAD_EXITED).

(** ** The ring *)

Definition nx (s : sched) (i : Z) : Z := next (get_t s i).

(** From [a], the links lead through [l] to [b]. *)
Fixpoint chain (nxt : Z -> Z) (a : Z) (l : list Z) (b : Z) : Prop :=
  match l with
  | [] => nxt a = b
  | x :: l => nxt a = x /\ chain nxt x l b
  end.

(** [l] lists the other members of the ring in order, starting after [current]. *)
Record sched_inv (s : sched) (l : list Z) : Prop := {
  si_chain : chain (nx s) (current s) l (current s);
  si_nodup : NoDup (current s :: l);
  si_range : Forall (fun i => 0 <= i < next_tid s) (current s :: l);
  si_max : next_tid s <= MAX_THREADS;
  si_len : length (threads s) = 64%nat;
  si_idle : idle_thread s ∈ current s :: l
}.

Lemma chain_app nxt a l1 x l2 b :
  chain nxt a (l1 ++ x :: l2) b <-> chain nxt a l1 x /\ chain nxt x l2 b.
Proof.
  revert a. induction l1 as [|y l1 IH]; intros a; simpl; [tauto|]. rewrite IH. tauto.
Qed.

Lemma chain_ext nxt nxt' a l b : (forall i, i ∈ a :: l -> nxt' i = nxt i) ->
  chain nxt a l b -> chain nxt' a l b.
Proof.
  revert a. induction l as [|x l IH]; intros a He Hc; simpl in *.
  - rewrite He by (by left). done.
  - destruct Hc as [Hx Hc]. split; [by rewrite He by (by left)|].
    apply IH; [|done]. intros i Hi. apply He. by right.
Qed.

(** A ring seen from another member. *)
Lemma chain_rotate nxt c l pre n post : c :: l = pre ++ n :: post -> chain nxt c l c ->
  chain nxt n (post ++ pre) n.
Proof.
  destruct pre as [|c' pre]; simpl; intros [= -> ->] Hc; [by rewrite app_nil_r|].
  apply chain_app in Hc as [H1 H2]. apply chain_app. done.
Qed.

Lemma ring_length s l : sched_inv s l -> Z.of_nat (length l) < next_tid s.
Proof.
  intros Hi. pose proof (si_nodup _ _ Hi) as Hn. pose proof (si_range _ _ Hi) as Hr.
  assert (Hs : current s :: l ⊆ range 0 (next_tid s)).
  { intros x Hx. rewrite Forall_forall in Hr. apply elem_of_range. by apply Hr. }
  pose proof (submseteq_length _ _ (NoDup_submseteq _ _ Hn Hs)) as Hl.
  unfold range in Hl. rewrite length_seqZ in Hl. simpl in Hl. lia.
Qed.

(** ** [pick_next] is the first READY thread after the current one *)

Definition first_ready (s : sched) (l : list Z) : option Z :=
  head (filter (fun i => ready s i = true) l).

Lemma pick_loop_spec s start fuel : forall t post, chain (nx s) t post start -> start ∉ post ->
  (length post < fuel)%nat ->
  pick_loop fuel s t start = default (idle_thread s) (first_ready s (t :: post)).
Proof.
  induction fuel as [|fuel IH]; intros t post Hc Hn Hf; [lia|]. cbn [pick_loop].
  unfold first_ready. destruct (ready s t) eqn:Er; [by rewrite filter_cons_True|].
  rewrite filter_cons_False by congruence. fold (nx s t).
  destruct post as [|x post]; cbn [chain length] in *.
  - rewrite Hc, Z.eqb_refl. done.
  - destruct Hc as [Hx Hc]. rewrite Hx. destruct (Z.eqb_spec x start) as [->|Hne].
    + destruct Hn. by left.
    + rewrite (IH x post); [done|done| |lia]. intros Hin. apply Hn. by right.
Qed.

Lemma pick_next_spec s l : sched_inv s l ->
  pick_next s = default (idle_thread s) (first_ready s (l ++ [current s])).
Proof.
  intros Hi. pose proof (ring_length s l Hi) as Hlen. pose proof (si_max _ _ Hi) as Hmax.
  unfold MAX_THREADS in Hmax. pose proof (si_chain _ _ Hi) as Hc. pose proof (si_nodup _ _ Hi) as Hn.
  unfold pick_next. fold (nx s (current s)). destruct l as [|x l]; cbn [chain app] in *.
  - rewrite Hc. apply (pick_loop_spec s (current s) 64 (current s) []); [done|set_solver +|simpl; lia].
  - destruct Hc as [-> Hc]. apply NoDup_cons in Hn as [Hcn Hn]. apply NoDup_cons in Hn as [Hx Hn].
    apply pick_loop_spec.
    + apply (chain_app _ x l (current s) [] x). split; [done|]. simpl. apply (si_chain _ _ Hi).
    + rewrite elem_of_app, list_elem_of_singleton. intros [?| ->]; [done|]. by destruct Hcn; left.
    + rewrite length_app. simpl in *. lia.
Qed.

Lemma first_ready_in s l i : first_ready s l = Some i -> i ∈ l /\ ready s i = true.
Proof.
  unfold first_ready. intros H. destruct (filter _ l) as [|y r] eqn:E; simplify_eq/=.
  assert (Hin : i ∈ filter (fun i => ready s i = true) l) by (rewrite E; by left).
  apply list_elem_of_filter in Hin. tauto.
Qed.

Lemma pick_next_in s l : sched_inv s l -> pick_next s ∈ current s :: l.
Proof.
  intros Hi. rewrite (pick_next_spec s l Hi).
  destruct (first_ready s (l ++ [current s])) as [i|] eqn:E; simpl; [|apply Hi].
  apply first_ready_in in E as [Hin _]. apply elem_of_app in Hin as [?| ->%list_elem_of_singleton]; [by right|by left].
Qed.

(** ** Updates of the thread table *)

Lemma get_set_eq s i t : length (threads s) = 64%nat -> 0 <= i < 64 -> get_t (set_t s i t) i = t.
Proof. intros Hl Hi. unfold get_t, set_t. simpl. apply zget_zset_eq. lia. Qed.

Lemma get_set_ne s i j t : 0 <= i -> 0 <= j -> i <> j -> get_t (set_t s i t) j = get_t s j.
Proof. intros. unfold get_t, set_t. simpl. by apply zget_zset_ne. Qed.

(** Changing a thread's saved frame or state leaves the ring alone. *)
Lemma set_t_inv s l i t : sched_inv s l -> 0 <= i < 64 -> next t = nx s i -> sched_inv (set_t s i t) l.
Proof.
  intros [C N R M L I] Hi Hn. split; try done.
  - eapply chain_ext; [|exact C]. intros j Hj. simpl.
    rewrite Forall_forall in R. specialize (R j Hj). unfold nx.
    destruct (decide (i = j)) as [->|Hne]; [by rewrite get_set_eq|].
    rewrite get_set_ne by lia. done.
  - simpl. rewrite length_zset. done.
Qed.

Lemma si_member s l i : sched_inv s l -> i ∈ current s :: l -> 0 <= i < 64.
Proof.
  intros Hi Hin. pose proof (si_range _ _ Hi) as R. rewrite Forall_forall in R. specialize (R i Hin).
  pose proof (si_max _ _ Hi). unfold MAX_THREADS in *. lia.
Qed.

(** Making another member current rotates the ring. *)
Lemma set_current_inv s l pre n post : sched_inv s l -> current s :: l = pre ++ n :: post ->
  sched_inv (set_current s n) (post ++ pre).
Proof.
  intros [C N R M L I] He. rewrite He in N, R, I.
  assert (Hp : pre ++ n :: post ≡ₚ n :: post ++ pre) by solve_Permutation.
  split; simpl; try done.
  - by apply (chain_rotate _ (current s) l).
  - by rewrite <- Hp.
  - by rewrite <- Hp.
  - by rewrite <- Hp.
Qed.

(** ** The effect of a tick *)

(** The first half of a tick: save the frame and give up the CPU. *)
Definition park (s : sched) (frame : Z) : sched :=
  let c := current s in
  let s1 := set_t s c (t_set_rsp (get_t s c) frame) in
  if decide (t_state (get_t s1 c) = THREAD_RUNNING)
  then set_t s1 c (t_set_state (get_t s1 c) THREAD_READY) else s1.

(** The state of the interrupted thread after parking. *)
Definition parked_state (st : thread_state_t) : thread_state_t :=
  if decide (st = THREAD_RUNNING) then THREAD_READY else st.

Definition parked (t : thread_t) (frame : Z) : thread_t :=
  t_set_state (t_set_rsp t frame) (parked_state (t_state t)).

Lemma park_spec s l frame : sched_inv s l ->
  sched_inv (park s frame) l /\ get_t (park s frame) (current s) = parked (get_t s (current s)) frame /\
  (forall i, 0 <= i -> i <> current s -> get_t (park s frame) i = get_t s i) /\
  current (park s frame) = current s /\ idle_thread (park s frame) = idle_thread s /\
  next_tid (park s frame) = next_tid s /\ hw_cr3 (park s frame) = hw_cr3 s /\
  tss_rsp0 (park s frame) = tss_rsp0 s /\ syscall_kernel_rsp (park s frame) = syscall_kernel_rsp s /\
  scheduler_active (park s frame) = scheduler_active s.
Proof.
  intros Hi. assert (Hc : 0 <= current s < 64) by (eapply si_member; [done|by left]).
  pose proof (si_len _ _ Hi) as Hl. unfold park.
  assert (Hi1 : sched_inv (set_t s (current s) (t_set_rsp (get_t s (current s)) frame)) l)
    by by apply set_t_inv.
  rewrite !get_set_eq by done. cbn [t_state t_set_rsp]. unfold parked, parked_state.
  case_decide as Hst; split_and!; try done.
  - apply set_t_inv; [done|done|]. unfold nx. by rewrite get_set_eq.
  - rewrite get_set_eq; [done|by simpl; rewrite length_zset|done].
  - intros i H0 Hne. by rewrite !get_set_ne by lia.
  - rewrite get_set_eq by done. unfold t_set_state, t_set_rsp. simpl. done.
  - intros i H0 Hne. by rewrite get_set_ne by lia.
Qed.

(** The second half: run [n]. *)
Definition dispatch (s : sched) (n : Z) : sched :=
  let s3 := set_t s n (t_set_state (get_t s n) THREAD_RUNNING) in
  let s4 := if t_cr3 (get_t s3 n) =? t_cr3 (get_t s3 (current s)) then s3
            else set_hw s3 (t_cr3 (get_t s3 n)) (tss_rsp0 s3) (syscall_kernel_rsp s3) in
  set_current (process_on_switch s4 n) n.

Lemma sched_tick_unfold s frame : scheduler_active s = true -> 
  sched_tick s frame =
    let s2 := park s frame in let n := pick_next s2 in
    let s' := dispatch s2 n in (t_rsp (get_t s' n), s').
Proof.
  intros Ha. unfold sched_tick. rewrite Ha. cbn [negb]. cbn zeta. fold (park s frame).
  unfold dispatch. cbn zeta. assert (Hc : current (park s frame) = current s).
  { unfold park. cbn zeta. by case_decide. }
  by rewrite Hc.
Qed.

Lemma dispatch_spec s l n : sched_inv s l -> n ∈ current s :: l ->
  let s' := dispatch s n in
  get_t s' n = t_set_state (get_t s n) THREAD_RUNNING /\
  (forall i, 0 <= i -> i <> n -> get_t s' i = get_t s i) /\
  current s' = n /\ idle_thread s' = idle_thread s /\ next_tid s' = next_tid s /\
  scheduler_active s' = scheduler_active s /\
  (hw_cr3 s = t_cr3 (get_t s (current s)) -> hw_cr3 s' = t_cr3 (get_t s' n)) /\
  (if stack_base (get_t s n) =? 0 then tss_rsp0 s' = tss_rsp0 s /\ syscall_kernel_rsp s' = syscall_kernel_rsp s
   else tss_rsp0 s' = u64 (stack_base (get_t s n) + stack_size (get_t s n)) /\
        syscall_kernel_rsp s' = tss_rsp0 s') /\
  forall pre post, current s :: l = pre ++ n :: post -> sched_inv s' (post ++ pre).
Proof.
  intros Hi Hin. pose proof (si_member s l n Hi Hin) as Hn.
  assert (Hc : 0 <= current s < 64) by (eapply si_member; [done|by left]).
  pose proof (si_len _ _ Hi) as Hl. cbn zeta. unfold dispatch, process_on_switch.
  set (s3 := set_t s n (t_set_state (get_t s n) THREAD_RUNNING)).
  assert (Hi3 : sched_inv s3 l) by by apply set_t_inv.
  assert (E3 : get_t s3 n = t_set_state (get_t s n) THREAD_RUNNING) by by apply get_set_eq.
  assert (O3 : forall i, 0 <= i -> i <> n -> get_t s3 i = get_t s i) by (intros; apply get_set_ne; lia).
  assert (Ec : t_cr3 (get_t s3 (current s)) = t_cr3 (get_t s (current s))).
  { destruct (decide (current s = n)) as [->|]; [by rewrite E3|by rewrite O3 by (done || lia)]. }
  set (s4 := if t_cr3 (get_t s3 n) =? t_cr3 (get_t s3 (current s)) then s3 else _).
  assert (G4 : forall i, get_t s4 i = get_t s3 i) by (intros; unfold s4; by case_if).
  assert (H4 : hw_cr3 s = t_cr3 (get_t s (current s)) -> hw_cr3 s4 = t_cr3 (get_t s3 n)).
  { intros Hh. unfold s4. case_if; [|done]. bool_to_prop. simpl. congruence. }
  assert (I4 : forall pre post, current s :: l = pre ++ n :: post -> sched_inv (set_current s4 n) (post ++ pre)).
  { intros pre post He. assert (Hi4 : sched_inv s4 l) by (unfold s4; case_if; [done|destruct Hi3; by split]).
    apply (set_current_inv s4 l); [done|]. unfold s4. by case_if. }
  assert (F4 : idle_thread s4 = idle_thread s /\ next_tid s4 = next_tid s /\
    scheduler_active s4 = scheduler_active s /\ tss_rsp0 s4 = tss_rsp0 s /\
    syscall_kernel_rsp s4 = syscall_kernel_rsp s) by (unfold s4; by case_if).
  destruct F4 as (? & ? & ? & ? & ?). rewrite G4, E3. cbn [stack_base stack_size t_set_state].
  destruct (stack_base (get_t s n) =? 0); unfold get_t in *; cbn [set_hw set_current threads current
    idle_thread next_tid scheduler_active hw_cr3 tss_rsp0 syscall_kernel_rsp]; split_and!; try done.
  - by rewrite G4.
  - intros i ? ?. by rewrite G4, O3.
  - intros Hh. rewrite G4. by apply H4.
  - by rewrite G4.
  - intros i ? ?. by rewrite G4, O3.
  - intros Hh. rewrite G4. by apply H4.
  - intros pre post He. destruct (I4 pre post He). by split.
Qed.

(** Nobody but the current thread is RUNNING. *)
Definition one_running (s : sched) : Prop :=
  forall i, 0 <= i < 64 -> t_state (get_t s i) = THREAD_RUNNING -> i = current s.

(** What the CPU has loaded belongs to the current thread. *)
Definition hw_matches (s : sched) : Prop := hw_cr3 s = t_cr3 (get_t s (current s)).

(** The thread a tick chooses. *)
Definition chosen (s : sched) (l : list Z) (frame : Z) : Z :=
  default (idle_thread s) (first_ready (park s frame) (l ++ [current s])).

Lemma tick_spec s l frame : sched_inv s l -> scheduler_active s = true ->
  let n := chosen s l frame in
  let '(r, s') := sched_tick s frame in
  n ∈ current s :: l /\ r = t_rsp (get_t (park s frame) n) /\
  current s' = n /\
  get_t s' n = t_set_state (get_t (park s frame) n) THREAD_RUNNING /\
  (forall i, 0 <= i -> i <> n -> get_t s' i = get_t (park s frame) i) /\
  next_tid s' = next_tid s /\ idle_thread s' = idle_thread s /\ scheduler_active s' = true /\
  (hw_matches s -> hw_matches s') /\
  (stack_base (get_t s n) <> 0 -> tss_rsp0 s' = u64 (stack_base (get_t s n) + stack_size (get_t s n)) /\
     syscall_kernel_rsp s' = tss_rsp0 s') /\
  forall pre post, current s :: l = pre ++ n :: post -> sched_inv s' (post ++ pre).
Proof.
  intros Hi Ha. cbn zeta. rewrite sched_tick_unfold by done. cbn zeta.
  destruct (park_spec s l frame Hi) as (Hi2 & Ec & Eo & Hc & Hid & Hnt & Hhw & _ & _ & Hac).
  assert (En : pick_next (park s frame) = chosen s l frame).
  { rewrite (pick_next_spec _ l Hi2), Hc, Hid. done. }
  pose proof (pick_next_in _ l Hi2) as Hin. rewrite En in *. set (n := chosen s l frame) in *.
  destruct (dispatch_spec (park s frame) l n Hi2 Hin) as (D1 & D2 & D3 & D4 & D5 & D6 & D7 & D8 & D9).
  rewrite Hc in Hin. pose proof (si_member s l n Hi Hin) as Hn.
  assert (Hst : stack_base (get_t (park s frame) n) = stack_base (get_t s n) /\
                stack_size (get_t (park s frame) n) = stack_size (get_t s n)).
  { destruct (decide (n = current s)) as [->|]; [by rewrite Ec|by rewrite Eo by lia]. }
  assert (Hcr : t_cr3 (get_t (park s frame) (current s)) = t_cr3 (get_t s (current s))) by by rewrite Ec.
  split_and!; try congruence; try done.
  - by rewrite D1.
  - unfold hw_matches. intros Hh. rewrite D3, D7; [done|]. by rewrite Hhw, Hc, Hcr.
  - intros Hb. destruct Hst as [-> ->] in D8. by rewrite (proj2 (Z.eqb_neq _ _) Hb) in D8.
  - rewrite <- Hc. done.
Qed.

(** ** Adding threads *)

Lemma bump_inv s l t : sched_inv s l -> next_tid s < MAX_THREADS ->
  sched_inv (set_t (set_next_tid s (u32 (next_tid s + 1))) (next_tid s) t) l.
Proof.
  intros Hi Hlt. pose proof Hi as [C N R M L I]. unfold MAX_THREADS in *.
  pose proof R as Rf. rewrite Forall_forall in Rf.
  assert (0 <= next_tid s) by (specialize (Rf (current s) ltac:(by left)); lia).
  assert (Hu : u32 (next_tid s + 1) = next_tid s + 1) by (apply u32_id; lia).
  split; cbn [set_t set_threads set_next_tid threads next_tid current idle_thread].
  - eapply chain_ext; [|exact C]. intros j Hj. specialize (Rf j Hj). unfold nx, get_t. simpl.
    by rewrite zget_zset_ne by lia.
  - done.
  - rewrite Hu. eapply Forall_impl; [exact R|]. simpl. lia.
  - rewrite Hu. unfold MAX_THREADS. lia.
  - by rewrite length_zset.
  - done.
Qed.

Lemma ring_insert_spec s l i : sched_inv s l -> 0 <= i < next_tid s -> i ∉ current s :: l ->
  let s' := ring_insert s i in
  sched_inv s' (i :: l) /\ current s' = current s /\ next_tid s' = next_tid s /\
  idle_thread s' = idle_thread s /\ scheduler_active s' = scheduler_active s /\ hw_cr3 s' = hw_cr3 s /\
  forall j, 0 <= j < 64 -> t_state (get_t s' j) = t_state (get_t s j) /\ t_rsp (get_t s' j) = t_rsp (get_t s j) /\
    t_cr3 (get_t s' j) = t_cr3 (get_t s j) /\ t_proc (get_t s' j) = t_proc (get_t s j) /\
    tid (get_t s' j) = tid (get_t s j).
Proof.
  intros Hi Hr Hn. pose proof Hi as [C N R M L I].
  assert (Hc : 0 <= current s < 64) by (eapply si_member; [done|by left]).
  unfold MAX_THREADS in *. assert (Hne : i <> current s) by (intros ->; apply Hn; by left).
  cbn zeta. unfold ring_insert.
  set (s1 := set_t s i (t_set_next (get_t s i) (next (get_t s (current s))))).
  assert (L1 : length (threads s1) = 64%nat) by (simpl; by rewrite length_zset).
  assert (E1 : get_t s1 i = t_set_next (get_t s i) (next (get_t s (current s)))) by (apply get_set_eq; [done|lia]).
  assert (O1 : forall j, 0 <= j -> j <> i -> get_t s1 j = get_t s j) by (intros; apply get_set_ne; lia).
  change (current s1) with (current s).
  set (s2 := set_t s1 (current s) (t_set_next (get_t s1 (current s)) i)).
  assert (E2 : get_t s2 (current s) = t_set_next (get_t s (current s)) i).
  { unfold s2. rewrite get_set_eq by done. by rewrite O1 by (done || lia). }
  assert (O2 : forall j, 0 <= j -> j <> current s -> get_t s2 j = get_t s1 j) by (intros; apply get_set_ne; lia).
  assert (Hnx : nx s2 i = nx s (current s)).
  { unfold nx. rewrite O2, E1 by (done || lia). done. }
  assert (Hold : forall j, j ∈ l -> nx s2 j = nx s j).
  { intros j Hj. apply NoDup_cons in N as [Ncl _]. unfold nx.
    assert (0 <= j < 64) by (eapply si_member; [done|by right]).
    rewrite O2, O1; [done|lia|intros ->; apply Hn; by right|lia|by intros ->]. }
  split_and!; try done.
  - split; try done.
    + change (current s2) with (current s). cbn [chain]. split; [unfold nx; by rewrite E2|].
      destruct l as [|x l]; cbn [chain] in *; [by rewrite Hnx|]. destruct C as [Cx C].
      split; [by rewrite Hnx|]. eapply chain_ext; [|exact C]. exact Hold.
    + change (current s2) with (current s). apply NoDup_cons in N as [Ncl Nl].
      apply not_elem_of_cons in Hn as [_ Hn]. apply NoDup_cons; split; [|by apply NoDup_cons].
      apply not_elem_of_cons. by split.
    + change (current s2) with (current s). change (next_tid s2) with (next_tid s).
      apply Forall_cons in R as [Rc Rl]. repeat constructor; try done; lia.
    + simpl. by rewrite !length_zset.
    + change (current s2) with (current s). change (idle_thread s2) with (idle_thread s).
      apply elem_of_cons in I as [->|?]; [by left|right; by right].
  - intros j Hj. destruct (decide (j = current s)) as [->|H1]; [by rewrite E2|]. rewrite O2 by (done || lia).
    destruct (decide (j = i)) as [->|H2]; [by rewrite E1|]. by rewrite O1 by lia.
Qed.

(** What creating a thread keeps for the others. *)
Record grows (s : sched) (l : list Z) (s' : sched) (l' : list Z) : Prop := {
  gw_inv : sched_inv s' l';
  gw_ring : l' = l \/ (l' = next_tid s :: l);
  gw_tid : next_tid s < next_tid s' \/ s' = s;
  gw_current : current s' = current s;
  gw_active : scheduler_active s' = scheduler_active s;
  gw_ready : forall j, j ∈ current s :: l -> t_state (get_t s' j) = t_state (get_t s j)
}.

Lemma tid_not_in_ring s l : sched_inv s l -> next_tid s ∉ current s :: l.
Proof.
  intros Hi Hin. pose proof (si_range _ _ Hi) as R. rewrite Forall_forall in R.
  specialize (R _ Hin). simpl in R. lia.
Qed.

Lemma adopt_spec s l rsp cr3 proc kbase ksize : sched_inv s l ->
  let '(r, s') := sched_adopt_thread s rsp cr3 proc kbase ksize in
  (r = None /\ MAX_THREADS <= next_tid s /\ s' = s) \/
  (r = Some (next_tid s) /\ next_tid s < MAX_THREADS /\ next_tid s' = next_tid s + 1 /\
   grows s l s' (next_tid s :: l) /\
   let t := get_t s' (next_tid s) in
   t_rsp t = rsp /\ t_cr3 t = cr3 /\ t_proc t = proc /\ t_state t = THREAD_READY).
Proof.
  intros Hi. unfold sched_adopt_thread. destruct (Z.leb_spec MAX_THREADS (next_tid s)) as [|Hlt]; [by left|].
  right. pose proof (si_range _ _ Hi) as R. apply Forall_cons in R as [Rc _].
  set (t := Thread _ _ _ _ _ _ _ _). pose proof (bump_inv s l t Hi Hlt) as H1.
  assert (Hu : u32 (next_tid s + 1) = next_tid s + 1) by (apply u32_id; unfold MAX_THREADS in *; lia).
  set (s1 := set_t (set_next_tid s (u32 (next_tid s + 1))) (next_tid s) t) in *.
  assert (Hnt : next_tid s1 = next_tid s + 1) by done.
  destruct (ring_insert_spec s1 l (next_tid s) H1) as (I & Hc & Hn & Hid & Hac & _ & Hk).
  { rewrite Hnt. lia. } { by apply (tid_not_in_ring s l Hi). }
  assert (Et : get_t s1 (next_tid s) = t).
  { unfold s1, get_t. simpl. apply zget_zset_eq. rewrite (si_len _ _ Hi). unfold MAX_THREADS in *. lia. }
  split; [done|]. split; [done|]. split; [by rewrite Hn, Hnt|]. split; [|split_and!].
  - split; try done; [by right|left; rewrite Hn, Hnt; lia|]. intros j Hj.
    pose proof (si_member s l j Hi Hj) as Hjr. destruct (Hk j Hjr) as (-> & _).
    unfold s1, get_t. simpl. rewrite zget_zset_ne; [done|lia|lia|].
    intros <-. by apply (tid_not_in_ring s l Hi).
  - destruct (Hk (next_tid s)) as (_ & -> & _); [unfold MAX_THREADS in *; lia|]. by rewrite Et.
  - destruct (Hk (next_tid s)) as (_ & _ & -> & _); [unfold MAX_THREADS in *; lia|]. by rewrite Et.
  - destruct (Hk (next_tid s)) as (_ & _ & _ & -> & _); [unfold MAX_THREADS in *; lia|]. by rewrite Et.
  - destruct (Hk (next_tid s)) as (-> & _); [unfold MAX_THREADS in *; lia|]. by rewrite Et.
Qed.

Lemma set_vaddr_inv s l v : sched_inv s l -> sched_inv (set_vaddr s v) l.
Proof. intros []. by split. Qed.

Lemma alloc_kstack_sched s m kcr3 top base s' m' : alloc_kstack s m kcr3 = (top, base, s', m') ->
  exists v, s' = set_vaddr s v.
Proof.
  unfold alloc_kstack. destruct (map_stack _ _ _ _) as [ok m1]. destruct ok; intros [= _ _ <- _]; by eexists.
Qed.

Lemma create_spec s l m kcr3 entry func arg r s' m' fr : sched_inv s l ->
  sched_create_kthread s m kcr3 entry func arg = (r, s', m', fr) ->
  exists l', grows s l s' l' /\ (r = 0 \/ r ∈ l').
Proof.
  intros Hi. unfold sched_create_kthread.
  destruct (Z.leb_spec MAX_THREADS (next_tid s)) as [|Hlt].
  { intros [= <- <- _ _]. exists l. split; [|by left]. split; try done; [by left|by right]. }
  set (t := Thread _ _ _ _ _ _ _ _). pose proof (bump_inv s l t Hi Hlt) as H1.
  pose proof (si_range _ _ Hi) as R. apply Forall_cons in R as [Rc _].
  assert (Hu : u32 (next_tid s + 1) = next_tid s + 1) by (apply u32_id; unfold MAX_THREADS in *; lia).
  set (s1 := set_t (set_next_tid s (u32 (next_tid s + 1))) (next_tid s) t) in *.
  assert (Hold : forall j, j ∈ current s :: l -> get_t s1 j = get_t s j).
  { intros j Hj. pose proof (si_member s l j Hi Hj) as Hjr. unfold s1, get_t. simpl.
    rewrite zget_zset_ne; [done|lia|lia|]. intros <-. by apply (tid_not_in_ring s l Hi). }
  destruct (alloc_kstack s1 m kcr3) as [[[top base] s2] m2] eqn:Ea.
  apply alloc_kstack_sched in Ea as [v ->]. pose proof (set_vaddr_inv _ _ v H1) as H2.
  destruct (top =? 0).
  { intros [= <- <- _ _]. exists l. split; [|by left]. split; try done; [by left|left|].
    - cbn [set_vaddr next_tid s1 set_t set_threads set_next_tid]. rewrite Hu. lia.
    - intros j Hj. change (get_t (set_vaddr s1 v) j) with (get_t s1 j). by rewrite Hold. }
  set (t3 := Thread _ _ _ _ _ _ _ _). intros [= <- <- _ _].
  assert (Hnt : 0 <= next_tid s < 64) by (unfold MAX_THREADS in *; lia).
  pose proof (set_t_inv (set_vaddr s1 v) l (next_tid s) t3 H2 Hnt eq_refl) as H3.
  set (s3 := set_t (set_vaddr s1 v) (next_tid s) t3) in *.
  assert (Hn3 : next_tid s3 = next_tid s + 1) by exact Hu.
  destruct (ring_insert_spec s3 l (next_tid s) H3) as (I & Hc & Hn & _ & Hac & _ & Hk).
  { rewrite Hn3. lia. } { by apply (tid_not_in_ring s l Hi). }
  exists (next_tid s :: l). split; [|right; by left]. split; [done|by right|left; rewrite Hn, Hn3; lia|done|done|].
  intros j Hj. pose proof (si_member s l j Hi Hj) as Hjr. destruct (Hk j Hjr) as (-> & _).
  unfold s3. rewrite get_set_ne; [|lia|lia|intros <-; by apply (tid_not_in_ring s l Hi)].
  change (get_t (set_vaddr s1 v) j) with (get_t s1 j). by rewrite Hold.
Qed.

(** ** No starvation *)

(** What can happen to the scheduler between two ticks, other than to [t]:
  threads are created, and threads (the running one included) block, exit or
  are woken. *)
Inductive other_step (t : Z) (s : sched) : sched -> Prop :=
  | os_adopt rsp cr3 proc kbase ksize r s' :
      sched_adopt_thread s rsp cr3 proc kbase ksize = (r, s') -> other_step t s s'
  | os_create m kcr3 entry func arg r s' m' fr :
      sched_create_kthread s m kcr3 entry func arg = (r, s', m', fr) -> other_step t s s'
  | os_state i st : 0 <= i < 64 -> i <> t ->
      other_step t s (set_t s i (t_set_state (get_t s i) st)).

(** [n] ticks that all chose another thread than [t]. *)
Inductive passed_over (t : Z) (s : sched) : nat -> sched -> Prop :=
  | po_none : passed_over t s 0 s
  | po_other n s1 s2 : passed_over t s n s1 -> other_step t s1 s2 -> passed_over t s n s2
  | po_tick n s1 frame r s2 : passed_over t s n s1 -> sched_tick s1 frame = (r, s2) ->
      current s2 <> t -> passed_over t s (S n) s2.

(** [t] waits at distance [d] behind the current thread. *)
Definition waits (s : sched) (t : Z) (d : nat) : Prop :=
  exists pre post, sched_inv s (pre ++ t :: post) /\ length pre = d /\
    scheduler_active s = true /\ t_state (get_t s t) = THREAD_READY.

(** Distance plus free slots: what bounds the waiting time. *)
Definition patience (s : sched) (d : nat) : Z := Z.of_nat d + (MAX_THREADS - next_tid s).

Lemma grows_waits s t pre post s' l' : sched_inv s (pre ++ t :: post) -> scheduler_active s = true ->
  t_state (get_t s t) = THREAD_READY -> grows s (pre ++ t :: post) s' l' ->
  exists d, waits s' t d /\ patience s' d <= patience s (length pre).
Proof.
  intros Hi Ha Ht [I Rg Tg Cg Ag Rd].
  assert (Hin : t ∈ current s :: pre ++ t :: post) by set_solver +.
  assert (Hrd : t_state (get_t s' t) = THREAD_READY) by (by rewrite Rd).
  unfold patience. destruct Rg as [->| ->].
  - exists (length pre). split; [|destruct Tg as [| ->]; lia]. exists pre, post. split_and!; [done|done|congruence|done].
  - destruct Tg as [Tg|Tg].
    + exists (S (length pre)). split; [|lia]. exists (next_tid s :: pre), post.
      split_and!; [done|done|congruence|done].
    + exfalso. subst s'. pose proof (si_range _ _ I) as R. apply Forall_cons in R as [_ R].
      apply Forall_cons in R as [R _]. lia.
Qed.

Lemma other_step_waits t s s' d : waits s t d -> other_step t s s' ->
  exists d', waits s' t d' /\ patience s' d' <= patience s d.
Proof.
  intros (pre & post & Hi & <- & Ha & Ht). intros [rsp cr3 proc kb ks r s1 E|m kcr3 en fu ar r s1 m' fr E|i st Hir Hne].
  - pose proof (adopt_spec s _ rsp cr3 proc kb ks Hi) as H. rewrite E in H.
    destruct H as [(_ & _ & ->)|(_ & _ & _ & Hg & _)].
    + exists (length pre). split; [|done]. by exists pre, post.
    + by eapply grows_waits.
  - destruct (create_spec s _ _ _ _ _ _ _ _ _ _ Hi E) as [l' [Hg _]]. by eapply grows_waits.
  - exists (length pre). split; [|done]. exists pre, post. split_and!; [by apply set_t_inv|done|done|].
    assert (0 <= t < 64) by (apply (si_member s _ t Hi); set_solver +).
    by rewrite get_set_ne by (lia || done).
Qed.

Lemma first_ready_app s l1 l2 : first_ready s (l1 ++ l2) =
  match first_ready s l1 with Some i => Some i | None => first_ready s l2 end.
Proof. unfold first_ready. rewrite filter_app. by destruct (filter _ l1). Qed.

(** A tick that does not choose [t] brings it closer. *)
Lemma tick_waits t s frame r s' d : waits s t d -> sched_tick s frame = (r, s') -> current s' <> t ->
  exists d', waits s' t d' /\ patience s' d' < patience s d.
Proof.
  intros (pre & post & Hi & <- & Ha & Ht) E Hne.
  pose proof (tick_spec s _ frame Hi Ha) as H. rewrite E in H.
  destruct H as (_ & _ & Hcur & _ & Hoth & Hnt & _ & Hac & _ & _ & Hrot).
  rewrite Hcur in Hne. pose proof (si_nodup _ _ Hi) as Hnd. apply NoDup_cons in Hnd as [Hcn Hnd].
  assert (Htc : t <> current s) by (intros ->; apply Hcn; set_solver +).
  assert (Htr : 0 <= t < 64) by (apply (si_member s _ t Hi); set_solver +).
  destruct (park_spec s _ frame Hi) as (_ & _ & Eo & _).
  assert (Hrt : ready (park s frame) t = true).
  { unfold ready. rewrite Eo by (done || lia). by rewrite decide_True. }
  assert (Hch : exists p1 p2, pre = p1 ++ chosen s (pre ++ t :: post) frame :: p2).
  { unfold chosen in *. rewrite <- app_assoc in *. rewrite first_ready_app in *.
    destruct (first_ready (park s frame) pre) as [i|] eqn:Ef; simpl in *.
    - apply first_ready_in in Ef as [Hin _]. by apply list_elem_of_split in Hin.
    - unfold first_ready in Hne. rewrite filter_cons_True in Hne by done. done. }
  destruct Hch as (p1 & p2 & Hpre). set (n := chosen s (pre ++ t :: post) frame) in *.
  specialize (Hrot (current s :: p1) (p2 ++ t :: post)).
  exists (length p2). unfold patience. rewrite Hnt, Hpre, length_app. cbn [length]. split; [|lia].
  exists p2, (post ++ current s :: p1). split_and!; [|done|done|].
  - replace (p2 ++ t :: post ++ current s :: p1) with ((p2 ++ t :: post) ++ current s :: p1)
      by by rewrite <- app_assoc.
    apply Hrot. rewrite Hpre. simpl. by rewrite <- app_assoc.
  - rewrite Hoth by (done || lia). by rewrite Eo by (done || lia).
Qed.

Lemma passed_over_bound t s d n s' : waits s t d -> passed_over t s n s' ->
  exists d', waits s' t d' /\ patience s' d' + Z.of_nat n <= patience s d.
Proof.
  intros Hw. induction 1 as [|n s1 s2 _ IH Ho|n s1 frame r s2 _ IH Et Hne].
  - exists d. split; [done|lia].
  - destruct IH as (d1 & Hw1 & Hp). destruct (other_step_waits t s1 s2 d1 Hw1 Ho) as (d2 & ? & ?).
    exists d2. split; [done|lia].
  - destruct IH as (d1 & Hw1 & Hp). destruct (tick_waits t s1 frame r s2 d1 Hw1 Et Hne) as (d2 & ? & ?).
    exists d2. split; [done|lia].
Qed.

(** ** Runs from initialisation *)

Section Runs.
Context (m0 : mstate) (kcr3 entry idle_func : Z).

Inductive sched_run : sched -> Prop :=
  | sr_init : sched_run (sched_init m0 kcr3 entry idle_func).1
  | sr_start s : sched_run s -> sched_run (sched_start s)
  | sr_tick s frame r s' : sched_run s -> sched_tick s frame = (r, s') -> sched_run s'
  | sr_adopt s rsp cr3 proc kb ks r s' : sched_run s ->
      sched_adopt_thread s rsp cr3 proc kb ks = (r, s') -> sched_run s'
  | sr_create s m func arg r s' m' fr : sched_run s ->
      sched_create_kthread s m kcr3 entry func arg = (r, s', m', fr) -> sched_run s'
  | sr_state s i st : sched_run s -> 0 <= i < 64 -> st <> THREAD_RUNNING \/ i = current s ->
      sched_run (set_t s i (t_set_state (get_t s i) st)).

Definition boot_sched : sched :=
  Sched (zset (replicate 64 thread_zero) 0 (Thread 0 kcr3 0 0 0 THREAD_RUNNING None 0)) 1 0 0 false
    0xFFFFFFFF91000000 kcr3 0 0.

Lemma boot_inv : sched_inv boot_sched [] /\ one_running boot_sched /\ hw_matches boot_sched.
Proof.
  split_and!; [|intros i Hi|done].
  - split; try done; [apply NoDup_singleton|repeat constructor; simpl; lia|by left].
  - unfold get_t, boot_sched. cbn [threads]. destruct (decide (i = 0)) as [->|Hne]; [done|].
    rewrite zget_zset_ne by lia. rewrite zget_lookup, lookup_replicate_2 by lia. done.
Qed.

(** [park] never makes a thread RUNNING. *)
Lemma park_running s l frame i : sched_inv s l -> one_running s -> 0 <= i < 64 ->
  t_state (get_t (park s frame) i) <> THREAD_RUNNING.
Proof.
  intros Hi Ho Hr. destruct (park_spec s l frame Hi) as (_ & Ec & Eo & _).
  destruct (decide (i = current s)) as [->|Hne].
  - rewrite Ec. unfold parked, parked_state. simpl. by case_decide.
  - rewrite Eo by (done || lia). intros H. by apply Hne, Ho.
Qed.

Lemma tick_inv s l frame r s' : sched_inv s l -> one_running s -> hw_matches s ->
  sched_tick s frame = (r, s') -> (exists l', sched_inv s' l') /\ one_running s' /\ hw_matches s'.
Proof.
  intros Hi Ho Hh E. destruct (scheduler_active s) eqn:Ha.
  2: { unfold sched_tick in E. rewrite Ha in E. injection E as _ <-. split_and!; try done. by exists l. }
  pose proof (tick_spec s l frame Hi Ha) as H. rewrite E in H.
  destruct H as (Hin & _ & Hc & En & Eo & _ & _ & _ & Hhw & _ & Hrot). split_and!; [| |by apply Hhw].
  - apply list_elem_of_split in Hin as (pre & post & He). eexists. by eapply Hrot.
  - intros i Hir Hst. rewrite Hc. destruct (decide (i = chosen s l frame)) as [|Hne]; [done|].
    rewrite Eo in Hst by (done || lia). by apply (park_running s l) in Hst.
Qed.

(** Adding threads makes nobody RUNNING and changes no member's CR3. *)
Record quiet (s s' : sched) : Prop := {
  q_current : current s' = current s;
  q_hw : hw_cr3 s' = hw_cr3 s;
  q_running : forall i, 0 <= i < 64 -> t_state (get_t s' i) = THREAD_RUNNING ->
    t_state (get_t s i) = THREAD_RUNNING;
  q_cr3 : t_cr3 (get_t s' (current s)) = t_cr3 (get_t s (current s))
}.

Lemma quiet_refl s : quiet s s.
Proof. by split. Qed.

Lemma quiet_trans s s1 s2 : quiet s s1 -> quiet s1 s2 -> quiet s s2.
Proof. intros [] []. split; try congruence. intros i Hi Hr. by apply q_running0, q_running1. Qed.

Lemma quiet_slot s l n t : sched_inv s l -> t_state t <> THREAD_RUNNING ->
  next_tid s < MAX_THREADS -> quiet s (set_t (set_next_tid s n) (next_tid s) t).
Proof.
  intros Hi Ht Hlt. pose proof (si_range _ _ Hi) as R. apply Forall_cons in R as [Rc _].
  unfold MAX_THREADS in *. pose proof (si_len _ _ Hi) as L. split; try done.
  - intros i Hir. destruct (decide (i = next_tid s)) as [->|Hne].
    + rewrite get_set_eq by (done || lia). done.
    + by rewrite get_set_ne by lia.
  - by rewrite get_set_ne by lia.
Qed.

Lemma quiet_insert s l i : sched_inv s l -> 0 <= i < next_tid s -> i ∉ current s :: l ->
  quiet s (ring_insert s i).
Proof.
  intros Hi Hr Hn. destruct (ring_insert_spec s l i Hi Hr Hn) as (_ & Hc & _ & _ & _ & Hhw & Hk).
  assert (0 <= current s < 64) by (eapply si_member; [done|by left]).
  split; try done.
  - intros j Hj. by destruct (Hk j Hj) as (-> & _).
  - by destruct (Hk (current s)) as (_ & _ & -> & _).
Qed.

Lemma adopt_quiet s l rsp cr3 proc kb ks r s' : sched_inv s l ->
  sched_adopt_thread s rsp cr3 proc kb ks = (r, s') -> quiet s s'.
Proof.
  intros Hi. unfold sched_adopt_thread. destruct (Z.leb_spec MAX_THREADS (next_tid s)) as [|Hlt].
  { intros [= _ <-]. apply quiet_refl. }
  set (t := Thread _ _ _ _ _ _ _ _). pose proof (bump_inv s l t Hi Hlt) as H1. intros [= _ <-].
  pose proof (si_range _ _ Hi) as R. apply Forall_cons in R as [Rc _].
  eapply quiet_trans; [by apply (quiet_slot s l (u32 (next_tid s + 1)) t)|].
  apply (quiet_insert _ l); [done| |by apply (tid_not_in_ring s l Hi)].
  cbn [set_t set_threads set_next_tid next_tid]. rewrite u32_id; unfold MAX_THREADS in *; lia.
Qed.

Lemma create_quiet s l m func arg r s' m' fr : sched_inv s l ->
  sched_create_kthread s m kcr3 entry func arg = (r, s', m', fr) -> quiet s s'.
Proof.
  intros Hi. unfold sched_create_kthread. destruct (Z.leb_spec MAX_THREADS (next_tid s)) as [|Hlt].
  { intros [= _ <- _ _]. apply quiet_refl. }
  set (t := Thread _ _ _ _ _ _ _ _). pose proof (bump_inv s l t Hi Hlt) as H1.
  assert (Hq1 : quiet s (set_t (set_next_tid s (u32 (next_tid s + 1))) (next_tid s) t))
    by by apply (quiet_slot s l).
  set (s1 := set_t (set_next_tid s _) (next_tid s) t) in *.
  pose proof (si_range _ _ Hi) as R. apply Forall_cons in R as [Rc _].
  destruct (alloc_kstack s1 m kcr3) as [[[top base] s2] m2] eqn:Ea.
  apply alloc_kstack_sched in Ea as [v ->]. pose proof (set_vaddr_inv _ _ v H1) as H2.
  assert (Hq2 : quiet s (set_vaddr s1 v)) by (destruct Hq1; by split).
  destruct (top =? 0); [by intros [= _ <- _ _]|].
  set (t3 := Thread _ _ _ _ _ _ _ _). intros [= _ <- _ _].
  assert (Hnt : 0 <= next_tid s < 64) by (unfold MAX_THREADS in *; lia).
  assert (Est : t_state t3 = THREAD_READY).
  { unfold t3, get_t, s1. simpl. rewrite zget_zset_eq; [done|]. rewrite (si_len _ _ Hi). lia. }
  pose proof (set_t_inv (set_vaddr s1 v) l (next_tid s) t3 H2 Hnt eq_refl) as H3.
  assert (Hq3 : quiet s (set_t (set_vaddr s1 v) (next_tid s) t3)).
  { eapply quiet_trans; [exact Hq2|]. split; try done.
    - intros i Hir. destruct (decide (i = next_tid s)) as [->|Hne].
      + rewrite get_set_eq by (done || apply (si_len _ _ H2)). congruence.
      + by rewrite get_set_ne by lia.
    - change (current (set_vaddr s1 v)) with (current s). by rewrite get_set_ne by lia. }
  eapply quiet_trans; [exact Hq3|]. apply (quiet_insert _ l); [done| |by apply (tid_not_in_ring s l Hi)].
  cbn [set_t set_threads set_vaddr next_tid s1 set_next_tid]. rewrite u32_id; unfold MAX_THREADS in *; lia.
Qed.

Lemma quiet_keeps s s' : quiet s s' -> one_running s -> hw_matches s -> one_running s' /\ hw_matches s'.
Proof.
  intros [] Ho Hh. split.
  - intros i Hi Hst. rewrite q_current0. by apply Ho, q_running0.
  - unfold hw_matches in *. by rewrite q_hw0, q_current0, q_cr4.
Qed.

Lemma sched_run_inv s : sched_run s -> (exists l, sched_inv s l) /\ one_running s /\ hw_matches s.
Proof.
  induction 1 as [|s _ IH|s frame r s' _ IH E|s rsp cr3 proc kb ks r s' _ IH E
    |s m func arg r s' m' fr _ IH E|s i st _ IH Hi Hst].
  - unfold sched_init. fold boot_sched. destruct boot_inv as (Hi & Ho & Hh).
    destruct (sched_create_kthread boot_sched m0 kcr3 entry idle_func 0) as [[[idle s1] m1] fr] eqn:E.
    destruct (create_spec boot_sched [] _ _ _ _ _ _ _ _ _ Hi E) as [l' [[I _ _ Hc _ _] Hidle]].
    destruct (quiet_keeps _ _ (create_quiet _ _ _ _ _ _ _ _ _ Hi E) Ho Hh) as [Ho1 Hh1].
    split_and!; [|done|done]. exists l'. destruct I as [C N R M L I]. split; try done. simpl.
    rewrite Hc. destruct Hidle as [->|?]; [by left|by right].
  - destruct IH as [[l Hi] [Ho Hh]]. split_and!; [|done|done]. exists l. destruct Hi. by split.
  - destruct IH as [[l Hi] [Ho Hh]]. by apply (tick_inv s l frame r).
  - destruct IH as [[l Hi] [Ho Hh]].
    destruct (quiet_keeps _ _ (adopt_quiet _ _ _ _ _ _ _ _ _ Hi E) Ho Hh). split_and!; [|done|done].
    pose proof (adopt_spec s l rsp cr3 proc kb ks Hi) as Ha. rewrite E in Ha.
    destruct Ha as [(_ & _ & ->)|(_ & _ & _ & [I _ _ _ _ _] & _)]; by eexists.
  - destruct IH as [[l Hi] [Ho Hh]].
    destruct (quiet_keeps _ _ (create_quiet _ _ _ _ _ _ _ _ _ Hi E) Ho Hh). split_and!; [|done|done].
    destruct (create_spec s l _ _ _ _ _ _ _ _ _ Hi E) as [l' [[I _ _ _ _ _] _]]. by eexists.
  - destruct IH as [[l IHi] [Ho Hh]]. pose proof (si_len _ _ IHi) as L.
    assert (Hc : 0 <= current s < 64) by (eapply si_member; [done|by left]).
    split_and!; [exists l; by apply set_t_inv| |].
    + intros j Hj Hjs. destruct (decide (j = i)) as [->|Hne].
      * rewrite get_set_eq in Hjs by done. simpl in Hjs. by destruct Hst.
      * rewrite get_set_ne in Hjs by lia. by apply Ho.
    + unfold hw_matches in *. simpl. destruct (decide (i = current s)) as [->|Hne].
      * by rewrite get_set_eq.
      * by rewrite get_set_ne by lia.
Qed.

End Runs.

(** ** Properties *)

(** C15.  A tick is one step of round robin and leaves the machine consistent:
  over any run from initialisation, the chosen thread is the first READY one
  after the current thread in ring order (the idle thread when there is none),
  the frame returned is the one saved for it and the interrupted frame is saved,
  the interrupted thread gives up RUNNING, no thread outside these two changes,
  the loaded CR3 is the chosen thread's, both kernel stack pointers are the top
  of its stack, and only the current thread is RUNNING. *)
Theorem sched_tick_correct m0 kcr3 entry idle_func s frame :
  sched_run m0 kcr3 entry idle_func s -> scheduler_active s = true ->
  exists l, chain (nx s) (current s) l (current s) /\ NoDup (current s :: l) /\
  let c := current s in
  let n := default (idle_thread s) (first_ready (park s frame) (l ++ [c])) in
  let '(r, s') := sched_tick s frame in
  current s' = n /\ n ∈ c :: l /\
  (n <> c -> r = t_rsp (get_t s n) /\ get_t s' c = parked (get_t s c) frame) /\
  (n = c -> r = frame) /\
  (forall i, 0 <= i -> i <> n -> i <> c -> get_t s' i = get_t s i) /\
  (stack_base (get_t s n) <> 0 ->
     tss_rsp0 s' = u64 (stack_base (get_t s n) + stack_size (get_t s n)) /\
     syscall_kernel_rsp s' = tss_rsp0 s') /\
  hw_cr3 s' = t_cr3 (get_t s' n) /\ one_running s' /\ t_state (get_t s' n) = THREAD_RUNNING.
Proof.
  intros Hrun Ha. destruct (sched_run_inv _ _ _ _ s Hrun) as ((l & Hi) & Ho & Hh).
  exists l. split; [apply Hi|]. split; [apply Hi|]. cbn zeta. fold (chosen s l frame).
  pose proof (tick_spec s l frame Hi Ha) as H. destruct (sched_tick s frame) as [r s'] eqn:E.
  destruct (tick_inv s l frame r s' Hi Ho Hh E) as (_ & Ho' & Hh').
  destruct (park_spec s l frame Hi) as (_ & Ec & Eo & _).
  destruct H as (Hin & Hr & Hc & En & Eoth & _ & _ & _ & _ & Hst & _).
  assert (Hnr : 0 <= chosen s l frame < 64) by by eapply si_member.
  assert (Hcr : 0 <= current s < 64) by (eapply si_member; [done|by left]).
  unfold hw_matches in Hh'. rewrite Hc in Hh'. split_and!; try done.
  - intros Hnc. split; [rewrite Hr, Eo; [done|lia|done]|].
    rewrite Eoth, Ec; [done|lia|auto].
  - intros Hnc. rewrite Hr, Hnc, Ec. done.
  - intros i Hi0 H1 H2. by rewrite Eoth, Eo by done.
  - by rewrite En.
Qed.

(** A machine with the idle thread and two more, started. *)
Definition demo_sched : sched :=
  let '(s, _) := sched_init demo_state demo_root 0xFFFFFFFF80001000 0xFFFFFFFF80002000 in
  let '(_, s) := sched_adopt_thread s 0x9000 0x6000 (Some 1) 0xFFFFFFFF92000000 KTHREAD_STACK_SIZE in
  let '(_, s) := sched_adopt_thread s 0xA000 0x7000 (Some 2) 0xFFFFFFFF93000000 KTHREAD_STACK_SIZE in
  sched_start s.

Lemma demo_sched_run : sched_run demo_state demo_root 0xFFFFFFFF80001000 0xFFFFFFFF80002000 demo_sched.
Proof.
  unfold demo_sched. pose proof (sr_init demo_state demo_root 0xFFFFFFFF80001000 0xFFFFFFFF80002000) as H0.
  destruct (sched_init _ _ _ _) as [s0 m]. cbn [fst] in H0.
  destruct (sched_adopt_thread s0 _ _ _ _ _) as [r1 s1] eqn:E1. apply (sr_adopt _ _ _ _ _ _ _ _ _ _ _ _ H0) in E1.
  destruct (sched_adopt_thread s1 _ _ _ _ _) as [r2 s2] eqn:E2. apply (sr_adopt _ _ _ _ _ _ _ _ _ _ _ _ E1) in E2.
  by apply sr_start.
Qed.

Lemma sched_tick_correct_witness :
  current (sched_tick demo_sched 0x8000).2 = 3 /\ hw_cr3 (sched_tick demo_sched 0x8000).2 = 0x7000.
Proof.
  assert (Ha : scheduler_active demo_sched = true) by (vm_compute; reflexivity).
  assert (Hc : current (sched_tick demo_sched 0x8000).2 = 3) by (vm_compute; reflexivity).
  assert (Hcr : t_cr3 (get_t (sched_tick demo_sched 0x8000).2 3) = 0x7000) by (vm_compute; reflexivity).
  pose proof demo_sched_run as Hrun. generalize dependent demo_sched. intros s Ha Hc Hcr Hrun.
  destruct (sched_tick_correct _ _ _ _ s 0x8000 Hrun Ha) as (l & _ & _ & H).
  cbn zeta in H. destruct (sched_tick s 0x8000) as [r s']. cbn [snd] in *.
  destruct H as (Hn & _ & _ & _ & _ & _ & Hh & _). rewrite <- Hn, Hc in Hh. split; [exact Hc|].
  rewrite Hh. exact Hcr.
Defined.

(** C16.  No starvation: a READY thread of the ring is chosen after at most 62
  ticks, whatever happens in between: threads being created, and any other
  thread, the running one included, blocking, exiting or being woken. *)
Theorem sched_no_starvation s l t n s' : sched_inv s l -> scheduler_active s = true -> t ∈ l ->
  t_state (get_t s t) = THREAD_READY -> passed_over t s n s' -> (n <= 62)%nat.
Proof.
  intros Hi Ha Hin Ht Hp. apply list_elem_of_split in Hin as (pre & post & ->).
  assert (Hw : waits s t (length pre)) by by exists pre, post.
  destruct (passed_over_bound t s _ n s' Hw Hp) as (d & (pre' & post' & Hi' & _) & Hb).
  pose proof (ring_length s _ Hi) as Hl. rewrite length_app in Hl. cbn [length] in Hl.
  pose proof (si_max _ _ Hi'). unfold patience, MAX_THREADS in *. lia.
Qed.

Lemma sched_no_starvation_witness :
  passed_over 2 demo_sched 1 (sched_tick demo_sched 0x8000).2 /\ (1 <= 62)%nat.
Proof.
  assert (Ha : scheduler_active demo_sched = true) by (vm_compute; reflexivity).
  assert (Hc : current (sched_tick demo_sched 0x8000).2 = 3) by (vm_compute; reflexivity).
  assert (Hr : t_state (get_t demo_sched 2) = THREAD_READY) by (vm_compute; reflexivity).
  assert (Hi : sched_inv demo_sched [3; 2; 1]).
  { split; [vm_compute; auto| | | | |].
    - apply (bool_decide_unpack _). vm_compute. exact I.
    - apply (bool_decide_unpack _). vm_compute. exact I.
    - vm_compute. discriminate.
    - vm_compute. reflexivity.
    - apply (bool_decide_unpack _). vm_compute. exact I. }
  generalize dependent demo_sched. intros s Ha Hc Hr Hi.
  assert (Hp : passed_over 2 s 1 (sched_tick s 0x8000).2).
  { eapply po_tick; [apply po_none|apply surjective_pairing|]. rewrite Hc. lia. }
  split; [exact Hp|]. apply (sched_no_starvation s [3; 2; 1] 2 1 (sched_tick s 0x8000).2 Hi Ha); [|exact Hr|exact Hp].
  right. left.
Defined.
