(* ===== verification/Ipc.v ===== *)
(** * Message passing ([kernel/ipc/ipc.c], [ipc.h], [ipc_internal.h])

  Endpoints are message queues owned by a process; a process names them through
  its handle table, whose entries hold the pair (owner pid, endpoint id); the
  global registry maps that pair to the endpoint.

  An endpoint object is reached only through its registry slot, so the model
  keeps the object (its address and its contents) in the slot, and the pointer
  that [ipc_endpoint_lookup] returns is the slot's index.  The registry array is
  the list of its first [ipc_endpoint_registry_count] slots; the others are
  never read.  The kernel heap, user memory and the service registry's close
  hook are interfaces ([KernelHeap], [UserAccess], [CloseHook]). *)
From S2P Require Import Prelude Pmm PhysMem Vmm ProcData UserMem AddrSpace UserOps Teardown Uaccess Interfaces.

(** ** Data *)
Definition IPC_MAX_HANDLES : Z := 64.
Definition IPC_MAX_MESSAGE_SIZE : Z := 512.
Definition IPC_MAX_QUEUE_DEPTH : Z := 16.
Definition IPC_MAX_TOTAL_ENDPOINTS : Z := 1024.
Definition IPC_ENDPOINT_CLOSED : Z := 0x01.
Definition IPC_HANDLE_ALLOCATED : Z := 0x01.

(** [data] holds the [data_len] bytes that were copied in; the rest of the
  512-byte structure is never read. *)
Record ipc_message_t := IpcMessage { sender_pid : Z; tag : Z; data_len : Z; data : list Z }.

Definition message_zero : ipc_message_t := IpcMessage 0 0 0 [].

Record ipc_endpoint_t := IpcEndpoint {
  owner_pid : Z;
  endpoint_id : Z;
  flags : Z;
  queue : list ipc_message_t;
  queue_head : Z;
  queue_tail : Z;
  queue_count : Z
}.

Definition set_queue (ep : ipc_endpoint_t) (q : list ipc_message_t) (h t c : Z) : ipc_endpoint_t :=
  IpcEndpoint (owner_pid ep) (endpoint_id ep) (flags ep) q h t c.
Definition set_flags (ep : ipc_endpoint_t) (f : Z) : ipc_endpoint_t :=
  IpcEndpoint (owner_pid ep) (endpoint_id ep) f (queue ep) (queue_head ep) (queue_tail ep) (queue_count ep).

(** A slot of the registry: [endpoint] is [None] for NULL, otherwise the address
  and the object there. *)
Record ipc_endpoint_registry_entry_t := RegEntry {
  endpoint : option (Z * ipc_endpoint_t);
  r_owner_pid : Z;
  r_endpoint_id : Z
}.

Notation registry := (list ipc_endpoint_registry_entry_t).

(** ** Registry operations *)

Definition slot_matches (owner id : Z) (e : ipc_endpoint_registry_entry_t) : bool :=
  match endpoint e with
  | Some _ => (r_owner_pid e =? owner) && (r_endpoint_id e =? id)
  | None => false
  end.

Definition ipc_endpoint_lookup (r : registry) (owner id : Z) : option nat :=
  first_index (slot_matches owner id) r.

Definition slot_free (e : ipc_endpoint_registry_entry_t) : bool :=
  match endpoint e with Some _ => false | None => true end.

Definition ipc_endpoint_register (r : registry) (ep : Z * ipc_endpoint_t) (owner id : Z) : Z * registry :=
  let e := RegEntry (Some ep) owner id in
  match first_index slot_free r with
  | Some i => (0, <[i := e]> r)
  | None =>
      if IPC_MAX_TOTAL_ENDPOINTS <=? Z.of_nat (length r) then (- VE_NOMEM, r) else (0, r ++ [e])
  end.

(** The object a slot points to, and a store through the pointer. *)
Definition deref (r : registry) (i : nat) : option ipc_endpoint_t :=
  match r !! i with Some e => snd <$> endpoint e | None => None end.

Definition store_ep (r : registry) (i : nat) (ep : ipc_endpoint_t) : registry :=
  match r !! i with
  | Some e =>
      match endpoint e with
      | Some (a, _) => <[i := RegEntry (Some (a, ep)) (r_owner_pid e) (r_endpoint_id e)]> r
      | None => r
      end
  | None => r
  end.

(** ** Queues *)

Definition ipc_queue_enqueue (ep : ipc_endpoint_t) (msg : ipc_message_t) : Z * ipc_endpoint_t :=
  if IPC_MAX_QUEUE_DEPTH <=? queue_count ep then (- VE_NOMEM, ep)
  else if has (flags ep) IPC_ENDPOINT_CLOSED then (- VE_BADF, ep)
  else (0, set_queue ep (zset (queue ep) (queue_tail ep) msg) (queue_head ep)
             ((queue_tail ep + 1) mod IPC_MAX_QUEUE_DEPTH) (queue_count ep + 1)).

Definition ipc_queue_dequeue (ep : ipc_endpoint_t) : option ipc_message_t * ipc_endpoint_t :=
  if queue_count ep =? 0 then (None, ep)
  else (Some (zget message_zero (queue ep) (queue_head ep)),
        set_queue ep (queue ep) ((queue_head ep + 1) mod IPC_MAX_QUEUE_DEPTH) (queue_tail ep)
          (queue_count ep - 1)).

(** ** Handle tables *)

(** [sizeof(ipc_handle_table_t)] and [sizeof(ipc_endpoint_t)]. *)
Definition HANDLE_TABLE_SIZE : Z := 64 * 12.
Definition ENDPOINT_SIZE : Z := 12 + 16 * 512 + 12.

Definition handle_zero : ipc_handle_entry_t := HandleEntry 0 0 0.

Definition handle_allocated (e : ipc_handle_entry_t) : bool := has (h_flags e) IPC_HANDLE_ALLOCATED.

(** The first free handle; -1 is [None]. *)
Definition find_free_handle (t : list ipc_handle_entry_t) : option nat :=
  first_index (fun e => negb (handle_allocated e)) t.

Section Ipc.
Context {M : Type} `{UA : UserAccess M process_t} {H : Type} `{KH : KernelHeap H} {S : Type} `{CH : CloseHook S}.

(** The state the operations share. *)
Record ipc := Ipc { ip_reg : registry; ip_heap : H; ip_svc : S }.

Definition with_reg (g : ipc) (r : registry) : ipc := Ipc r (ip_heap g) (ip_svc g).
Definition with_heap (g : ipc) (h : H) : ipc := Ipc (ip_reg g) h (ip_svc g).
Definition with_svc (g : ipc) (s : S) : ipc := Ipc (ip_reg g) (ip_heap g) s.

(** [endpoint_release] for every live slot of the owner. *)
Definition release_owner (owner : Z) (g : ipc) (i : nat) : ipc :=
  match ip_reg g !! i with
  | Some e =>
      match endpoint e with
      | Some (a, _) =>
          if r_owner_pid e =? owner
          then Ipc (<[i := RegEntry None (r_owner_pid e) (r_endpoint_id e)]> (ip_reg g))
                 (kfree (ip_heap g) a) (ip_svc g)
          else g
      | None => g
      end
  | None => g
  end.

Definition ipc_endpoint_unregister_by_owner (g : ipc) (owner : Z) : ipc :=
  foldl (release_owner owner) g (seq 0 (length (ip_reg g))).

Definition ipc_handle_table_create (h : H) : option (Z * list ipc_handle_entry_t) * H :=
  let '(a, h) := kmalloc h HANDLE_TABLE_SIZE in
  if a =? 0 then (None, h) else (Some (a, replicate 64 handle_zero), h).

Definition ipc_handle_table_destroy (h : H) (table : option (Z * list ipc_handle_entry_t)) : H :=
  match table with Some (a, _) => kfree h a | None => h end.

(** [if (!p->ipc_handles) { ... }]: the table of [p], allocated when it is
  missing. *)
Definition ensure_table (g : ipc) (p : process_t)
    : option (Z * list ipc_handle_entry_t) * ipc * process_t :=
  match ipc_handles p with
  | Some t => (Some t, g, p)
  | None =>
      let '(t, h) := ipc_handle_table_create (ip_heap g) in
      (t, with_heap g h, set_handles p t)
  end.

(** ** System calls

  The caller is [process_current()], which is not NULL in a system call. *)

Definition sys_ipc_endpoint_create (g : ipc) (p : process_t) : Z * ipc * process_t :=
  let '(t, g, p) := ensure_table g p in
  match t with
  | None => (- VE_NOMEM, g, p)
  | Some (ta, hs) =>
      match find_free_handle hs with
      | None => (- VE_NOMEM, g, p)
      | Some handle =>
          let '(a, h) := kmalloc (ip_heap g) ENDPOINT_SIZE in
          let g := with_heap g h in
          if a =? 0 then (- VE_NOMEM, g, p)
          else
            let id := Z.of_nat handle in
            let ep := IpcEndpoint (pid p) id 0 (replicate 16 message_zero) 0 0 0 in
            let '(st, r) := ipc_endpoint_register (ip_reg g) (a, ep) (owner_pid ep) (endpoint_id ep) in
            let g := with_reg g r in
            if st <? 0 then (- VE_NOMEM, with_heap g (kfree (ip_heap g) a), p)
            else (id, g, set_handles p (Some (ta,
                    <[handle := HandleEntry (owner_pid ep) (endpoint_id ep) IPC_HANDLE_ALLOCATED]> hs)))
      end
  end.

(** The entry of a handle, when it is in range and allocated. *)
Definition handle_entry (hs : list ipc_handle_entry_t) (handle : Z) : option ipc_handle_entry_t :=
  if (handle <? 0) || (IPC_MAX_HANDLES <=? handle) then None
  else
    let e := zget handle_zero hs handle in
    if handle_allocated e then Some e else None.

Definition sys_ipc_send (m : M) (g : ipc) (p : process_t) (dest_handle tag dat data_len : Z)
    : Z * ipc * process_t :=
  let '(t, g, p) := ensure_table g p in
  match t with
  | None => (- VE_NOMEM, g, p)
  | Some (_, hs) =>
      if (dest_handle <? 0) || (IPC_MAX_HANDLES <=? dest_handle) then (- VE_BADF, g, p)
      else if IPC_MAX_MESSAGE_SIZE - 4 * 4 <? data_len then (- VE_INVAL, g, p)
      else
        let e := zget handle_zero hs dest_handle in
        if negb (handle_allocated e) then (- VE_BADF, g, p)
        else
          match ipc_endpoint_lookup (ip_reg g) (target_pid e) (target_endpoint_id e) with
          | None => (- VE_BADF, g, p)
          | Some i =>
              let copied :=
                if 0 <? data_len then
                  if negb (ua_range_ok m p dat data_len false) then None
                  else ua_copy_from m p dat data_len
                else Some [] in
              match copied with
              | None => (- VE_FAULT, g, p)
              | Some bytes =>
                  match deref (ip_reg g) i with
                  | None => (- VE_BADF, g, p)
                  | Some ep =>
                      let '(r, ep) :=
                        ipc_queue_enqueue ep (IpcMessage (u32 (pid p)) tag data_len bytes) in
                      (r, with_reg g (store_ep (ip_reg g) i ep), p)
                  end
              end
          end
  end.

(** One output buffer of [sys_ipc_recv]: [None] is -EFAULT. *)
Definition recv_copy (m : M) (p : process_t) (dst : Z) (bytes : list Z) : option M * M :=
  if negb (ua_range_ok m p dst (Z.of_nat (length bytes)) true) then (None, m)
  else
    let '(ok, m) := ua_copy_to m p dst bytes in
    if ok then (Some m, m) else (None, m).

(** A NULL [tag_out] or [data_out] is 0. *)
Definition sys_ipc_recv (m : M) (g : ipc) (p : process_t) (handle tag_out data_out max_len : Z)
    : Z * M * ipc * process_t :=
  let '(t, g, p) := ensure_table g p in
  match t with
  | None => (- VE_NOMEM, m, g, p)
  | Some (_, hs) =>
      match handle_entry hs handle with
      | None => (- VE_BADF, m, g, p)
      | Some e =>
          match ipc_endpoint_lookup (ip_reg g) (target_pid e) (target_endpoint_id e) with
          | None => (- VE_BADF, m, g, p)
          | Some i =>
              match deref (ip_reg g) i with
              | None => (- VE_BADF, m, g, p)
              | Some ep =>
                  let '(msg, ep) := ipc_queue_dequeue ep in
                  match msg with
                  | None => (0, m, g, p)
                  | Some msg =>
                      let g := with_reg g (store_ep (ip_reg g) i ep) in
                      let '(tagged, m) :=
                        if tag_out =? 0 then (Some m, m) else recv_copy m p tag_out (le_bytes 4 (tag msg)) in
                      match tagged with
                      | None => (- VE_FAULT, m, g, p)
                      | Some _ =>
                          let copy_len := if max_len <? data_len msg then max_len else data_len msg in
                          if (0 <? copy_len) && negb (data_out =? 0) then
                            let '(done_, m) := recv_copy m p data_out (take (Z.to_nat copy_len) (data msg)) in
                            match done_ with
                            | None => (- VE_FAULT, m, g, p)
                            | Some _ => (copy_len, m, g, p)
                            end
                          else (copy_len, m, g, p)
                      end
                  end
              end
          end
      end
  end.

Definition sys_ipc_connect (g : ipc) (p : process_t) (tpid serv_endpoint_id : Z) : Z * ipc * process_t :=
  let live :=
    match ipc_endpoint_lookup (ip_reg g) tpid serv_endpoint_id with
    | Some i => match deref (ip_reg g) i with
                | Some ep => negb (has (flags ep) IPC_ENDPOINT_CLOSED)
                | None => false
                end
    | None => false
    end in
  if negb live then (- VE_BADF, g, p)
  else
    let '(t, g, p) := ensure_table g p in
    match t with
    | None => (- VE_NOMEM, g, p)
    | Some (ta, hs) =>
        match find_free_handle hs with
        | None => (- VE_NOMEM, g, p)
        | Some handle =>
            (Z.of_nat handle, g, set_handles p (Some (ta,
               <[handle := HandleEntry tpid serv_endpoint_id IPC_HANDLE_ALLOCATED]> hs)))
        end
    end.

Definition sys_ipc_close (g : ipc) (p : process_t) (handle : Z) : Z * ipc * process_t :=
  let '(t, g, p) := ensure_table g p in
  match t with
  | None => (- VE_NOMEM, g, p)
  | Some (ta, hs) =>
      match handle_entry hs handle with
      | None => (- VE_BADF, g, p)
      | Some e =>
          let g :=
            match ipc_endpoint_lookup (ip_reg g) (target_pid e) (target_endpoint_id e) with
            | Some i =>
                match deref (ip_reg g) i with
                | Some ep =>
                    if owner_pid ep =? pid p then
                      let ep := set_flags ep (Z.lor (flags ep) IPC_ENDPOINT_CLOSED) in
                      with_svc (with_reg g (store_ep (ip_reg g) i ep))
                        (svc_on_endpoint_close (ip_svc g) (pid p) (target_endpoint_id e))
                    else g
                | None => g
                end
            | None => g
            end in
          (0, g, set_handles p (Some (ta,
             zset hs handle (HandleEntry (target_pid e) (target_endpoint_id e) 0))))
      end
  end.
End Ipc.

(** ** The queue is a FIFO *)

Record ep_ok (ep : ipc_endpoint_t) : Prop := {
  eo_len : length (queue ep) = 16%nat;
  eo_head : 0 <= queue_head ep < 16;
  eo_count : 0 <= queue_count ep <= 16;
  eo_tail : queue_tail ep = (queue_head ep + queue_count ep) mod 16
}.

(** The messages waiting, oldest first. *)
Definition contents (ep : ipc_endpoint_t) : list ipc_message_t :=
  (fun k => zget message_zero (queue ep) ((queue_head ep + k) mod 16)) <$> range 0 (queue_count ep).

Definition closed (ep : ipc_endpoint_t) : bool := has (flags ep) IPC_ENDPOINT_CLOSED.

Lemma length_contents ep : ep_ok ep -> Z.of_nat (length (contents ep)) = queue_count ep.
Proof. intros Ho. pose proof (eo_count _ Ho). unfold contents, range. rewrite length_fmap, length_seqZ. lia. Qed.

Lemma ring_slot_inj h j k : 0 <= j < 16 -> 0 <= k < 16 -> (h + j) mod 16 = (h + k) mod 16 -> j = k.
Proof.
  intros Hj Hk E. pose proof (Z.div_mod (h + j) 16 ltac:(lia)).
  pose proof (Z.div_mod (h + k) 16 ltac:(lia)). lia.
Qed.

Lemma enqueue_spec ep msg : ep_ok ep ->
  let '(r, ep') := ipc_queue_enqueue ep msg in
  ep_ok ep' /\ owner_pid ep' = owner_pid ep /\ endpoint_id ep' = endpoint_id ep /\ flags ep' = flags ep /\
  if 16 <=? Z.of_nat (length (contents ep)) then r = - VE_NOMEM /\ ep' = ep
  else if closed ep then r = - VE_BADF /\ ep' = ep
  else r = 0 /\ contents ep' = contents ep ++ [msg].
Proof.
  intros Ho. rewrite (length_contents ep Ho). pose proof Ho as [L Hh Hc Ht].
  unfold ipc_queue_enqueue, IPC_MAX_QUEUE_DEPTH. fold (closed ep).
  destruct (Z.leb_spec 16 (queue_count ep)); [done|]. destruct (closed ep); [done|].
  cbn [set_queue owner_pid endpoint_id flags]. split_and!; try done.
  - split; cbn [set_queue queue queue_head queue_count queue_tail]; [by rewrite length_zset|done|lia|].
    rewrite Ht, Z.add_mod_idemp_l by lia. f_equal. lia.
  - unfold contents. cbn [set_queue queue queue_head queue_count].
    rewrite (range_app 0 (queue_count ep)), fmap_app by lia. f_equal.
    + apply list_fmap_ext. intros k i Hi%list_elem_of_lookup_2. apply elem_of_range in Hi.
      pose proof (Z.mod_pos_bound (queue_head ep + i) 16 ltac:(lia)).
      pose proof (Z.mod_pos_bound (queue_head ep + queue_count ep) 16 ltac:(lia)).
      rewrite zget_zset_ne; [done|lia|lia|]. rewrite Ht. intros E. apply ring_slot_inj in E; lia.
    + rewrite range_cons, range_nil by lia. cbn [fmap list_fmap]. f_equal.
      rewrite <- Ht. apply zget_zset_eq. rewrite L, Ht.
      pose proof (Z.mod_pos_bound (queue_head ep + queue_count ep) 16 ltac:(lia)). lia.
Qed.

Lemma dequeue_spec ep : ep_ok ep ->
  let '(r, ep') := ipc_queue_dequeue ep in
  ep_ok ep' /\ owner_pid ep' = owner_pid ep /\ endpoint_id ep' = endpoint_id ep /\ flags ep' = flags ep /\
  r = head (contents ep) /\ contents ep' = tail (contents ep) /\ (r = None -> ep' = ep).
Proof.
  intros Ho. pose proof Ho as [L Hh Hc Ht]. unfold ipc_queue_dequeue, contents.
  destruct (Z.eqb_spec (queue_count ep) 0) as [E|E].
  { rewrite E, range_nil by lia. done. }
  cbn [set_queue owner_pid endpoint_id flags queue queue_head queue_count]. unfold IPC_MAX_QUEUE_DEPTH.
  split_and!; try done.
  - pose proof (Z.mod_pos_bound (queue_head ep + 1) 16 ltac:(lia)).
    split; cbn [set_queue queue queue_head queue_count queue_tail]; try (done || lia).
    rewrite Ht, Z.add_mod_idemp_l by lia. f_equal. lia.
  - rewrite (range_cons 0 (queue_count ep)) by lia. cbn [fmap list_fmap head].
    by rewrite Z.add_0_r, Z.mod_small by lia.
  - rewrite (range_cons 0 (queue_count ep)) by lia. cbn [fmap list_fmap tail].
    replace (queue_count ep) with (1 + (queue_count ep - 1)) at 2 by lia.
    rewrite (range_shift 1), <- list_fmap_compose. apply list_fmap_ext. intros k i Hi. unfold compose.
    rewrite Z.add_mod_idemp_l by lia. do 2 f_equal. lia.
Qed.

(** A sequence of queue operations with what was accepted and what came out. *)
Inductive queue_run : ipc_endpoint_t -> list ipc_message_t -> list ipc_message_t -> Prop :=
  | qr_fresh owner id : queue_run (IpcEndpoint owner id 0 (replicate 16 message_zero) 0 0 0) [] []
  | qr_send ep acc out msg ep' : queue_run ep acc out -> ipc_queue_enqueue ep msg = (0, ep') ->
      queue_run ep' (acc ++ [msg]) out
  | qr_refused ep acc out msg r ep' : queue_run ep acc out -> ipc_queue_enqueue ep msg = (r, ep') -> r <> 0 ->
      queue_run ep' acc out
  | qr_recv ep acc out msg ep' : queue_run ep acc out -> ipc_queue_dequeue ep = (Some msg, ep') ->
      queue_run ep' acc (out ++ [msg])
  | qr_close ep acc out : queue_run ep acc out ->
      queue_run (set_flags ep (Z.lor (flags ep) IPC_ENDPOINT_CLOSED)) acc out.

Lemma fresh_ep_ok owner id : ep_ok (IpcEndpoint owner id 0 (replicate 16 message_zero) 0 0 0).
Proof. split; cbn; (done || lia). Qed.

Lemma set_flags_ok ep f : ep_ok ep -> ep_ok (set_flags ep f).
Proof. intros [? ? ? ?]. by split. Qed.

(** Message queues.  Whatever sequence of sends, receives and closes an
  endpoint goes through, the messages accepted so far are exactly the messages
  delivered so far followed by those still queued, in order: nothing is lost,
  duplicated or reordered; at most 16 are queued; a send is refused exactly when
  16 are queued (-ENOMEM) or the endpoint is closed (-EBADF), and a receive finds
  nothing exactly when none is queued. *)
Theorem ipc_queue_fifo ep acc out : queue_run ep acc out ->
  acc = out ++ contents ep /\ (length (contents ep) <= 16)%nat /\
  (forall msg, (ipc_queue_enqueue ep msg).1 =
     if 16 <=? Z.of_nat (length (contents ep)) then - VE_NOMEM else if closed ep then - VE_BADF else 0) /\
  ((ipc_queue_dequeue ep).1 = None <-> contents ep = []).
Proof.
  intros Hr. assert (Hi : ep_ok ep /\ acc = out ++ contents ep).
  { induction Hr as [owner id|ep acc out msg ep' _ [IH IHc] E|ep acc out msg r ep' _ [IH IHc] E Hne|
                     ep acc out msg ep' _ [IH IHc] E|ep acc out _ [IH IHc]].
    - split; [apply fresh_ep_ok|done].
    - pose proof (enqueue_spec ep msg IH) as Hs. rewrite E in Hs. destruct Hs as (Ho & _ & _ & _ & Hs).
      split; [done|]. repeat case_if_in Hs; [by destruct Hs..|]. destruct Hs as [_ ->]. by rewrite IHc, app_assoc.
    - pose proof (enqueue_spec ep msg IH) as Hs. rewrite E in Hs. destruct Hs as (Ho & _ & _ & _ & Hs).
      split; [done|]. repeat case_if_in Hs; by destruct Hs as [? ->].
    - pose proof (dequeue_spec ep IH) as Hs. rewrite E in Hs. destruct Hs as (Ho & _ & _ & _ & Hh & Ht & _).
      split; [done|]. rewrite IHc, Ht. destruct (contents ep); [done|]. injection Hh as <-. by rewrite <- app_assoc.
    - split; [by apply set_flags_ok|done]. }
  destruct Hi as [Ho Hc]. pose proof (length_contents ep Ho). pose proof (eo_count _ Ho).
  split_and!; [done|lia| |].
  - intros msg. pose proof (enqueue_spec ep msg Ho) as Hs.
    destruct (ipc_queue_enqueue ep msg). destruct Hs as (_ & _ & _ & _ & Hs).
    destruct (16 <=? _); [by destruct Hs|]. destruct (closed ep); by destruct Hs.
  - pose proof (dequeue_spec ep Ho) as Hs. destruct (ipc_queue_dequeue ep). cbn [fst].
    destruct Hs as (_ & _ & _ & _ & -> & _). by destruct (contents ep).
Qed.

Definition demo_ep : ipc_endpoint_t :=
  (ipc_queue_enqueue (IpcEndpoint 3 0 0 (replicate 16 message_zero) 0 0 0) (IpcMessage 4 7 0 [])).2.

Lemma ipc_queue_fifo_witness : [IpcMessage 4 7 0 []] = [] ++ contents demo_ep.
Proof.
  apply (ipc_queue_fifo demo_ep). eapply (qr_send _ [] [] (IpcMessage 4 7 0 [])); [apply (qr_fresh 3 0)|].
  vm_compute. reflexivity.
Defined.

(** ** The registry as a map from names to channels *)

(** A queued message carries what its sender gave. *)
Record msg_ok (msg : ipc_message_t) : Prop := {
  mo_len : Z.of_nat (length (data msg)) = data_len msg;
  mo_max : data_len msg <= 496;
  mo_bytes : byte_list (data msg);
  mo_tag : 0 <= tag msg < 2 ^ 32
}.

Record reg_ok (r : registry) : Prop := {
  ro_len : Z.of_nat (length r) <= IPC_MAX_TOTAL_ENDPOINTS;
  ro_ep : forall i e a ep, r !! i = Some e -> endpoint e = Some (a, ep) ->
    ep_ok ep /\ owner_pid ep = r_owner_pid e /\ endpoint_id ep = r_endpoint_id e /\ Forall msg_ok (contents ep)
}.

(** What the pair (owner, id) denotes: whether the endpoint is closed, and the
  messages waiting. *)
Definition chan (r : registry) (o id : Z) : option (bool * list ipc_message_t) :=
  match ipc_endpoint_lookup r o id with
  | Some i => (fun ep => (closed ep, contents ep)) <$> deref r i
  | None => None
  end.

Lemma slot_matches_true o id e : slot_matches o id e = true <->
  (exists a ep, endpoint e = Some (a, ep)) /\ r_owner_pid e = o /\ r_endpoint_id e = id.
Proof.
  unfold slot_matches. destruct (endpoint e) as [[a ep]|].
  - rewrite andb_true_iff, !Z.eqb_eq. naive_solver.
  - naive_solver.
Qed.

Lemma lookup_live r o id i : reg_ok r -> ipc_endpoint_lookup r o id = Some i ->
  exists e a ep, r !! i = Some e /\ endpoint e = Some (a, ep) /\ r_owner_pid e = o /\ r_endpoint_id e = id /\
    deref r i = Some ep /\ ep_ok ep /\ owner_pid ep = o /\ endpoint_id ep = id /\ Forall msg_ok (contents ep).
Proof.
  intros Hr (e & He & Hm & _)%first_index_Some.
  apply slot_matches_true in Hm as ((a & ep & Hep) & Ho & Hid).
  destruct (ro_ep _ Hr i e a ep He Hep) as (Hok & H1 & H2 & Hms).
  exists e, a, ep. unfold deref. rewrite He, Hep. split_and!; (done || congruence).
Qed.

Lemma chan_lookup r o id c q : reg_ok r -> chan r o id = Some (c, q) <->
  exists i ep, ipc_endpoint_lookup r o id = Some i /\ deref r i = Some ep /\ closed ep = c /\ contents ep = q.
Proof.
  intros Hr. unfold chan. destruct (ipc_endpoint_lookup r o id) as [i|] eqn:E.
  - destruct (lookup_live r o id i Hr E) as (e & a & ep & _ & _ & _ & _ & Hd & _). rewrite Hd. simpl. naive_solver.
  - naive_solver.
Qed.

Lemma chan_None r o id : reg_ok r -> chan r o id = None <-> ipc_endpoint_lookup r o id = None.
Proof.
  intros Hr. unfold chan. destruct (ipc_endpoint_lookup r o id) as [i|] eqn:E; [|done].
  destruct (lookup_live r o id i Hr E) as (e & a & ep & _ & _ & _ & _ & Hd & _). by rewrite Hd.
Qed.

Lemma deref_insert_ne r i j e : i <> j -> deref (<[i := e]> r) j = deref r j.
Proof. intros. unfold deref. by rewrite list_lookup_insert_ne. Qed.

(** Storing through a pointer changes exactly the channel it points to. *)
Lemma store_spec r o id i ep ep' : reg_ok r -> ipc_endpoint_lookup r o id = Some i -> deref r i = Some ep ->
  ep_ok ep' -> owner_pid ep' = owner_pid ep -> endpoint_id ep' = endpoint_id ep -> Forall msg_ok (contents ep') ->
  let r' := store_ep r i ep' in
  reg_ok r' /\ length r' = length r /\ chan r' o id = Some (closed ep', contents ep') /\
  forall o' id', (o', id') <> (o, id) -> chan r' o' id' = chan r o' id'.
Proof.
  intros Hr Hl Hd Hok Ho Hid Hms. cbn zeta.
  destruct (lookup_live r o id i Hr Hl) as (e & a & ep0 & He & Hep & Heo & Hei & Hd0 & _ & Ho0 & Hi0 & _).
  assert (ep0 = ep) as -> by congruence. unfold store_ep. rewrite He, Hep.
  set (e' := RegEntry (Some (a, ep')) (r_owner_pid e) (r_endpoint_id e)).
  assert (Hlt : (i < length r)%nat) by (by eapply lookup_lt_Some).
  assert (Hsame : forall o' id', slot_matches o' id' e' = slot_matches o' id' e).
  { intros. unfold slot_matches. by rewrite Hep. }
  assert (Hlk : forall o' id', ipc_endpoint_lookup (<[i := e']> r) o' id' = ipc_endpoint_lookup r o' id').
  { intros o' id'. unfold ipc_endpoint_lookup. by eapply first_index_insert_same. }
  split_and!.
  - split; [rewrite length_insert; apply Hr|]. intros j e1 a1 ep1 He1 Hep1.
    destruct (decide (i = j)) as [<-|Hne].
    + rewrite list_lookup_insert_eq in He1 by done. injection He1 as <-. injection Hep1 as <- <-. simpl.
      split_and!; (done || congruence).
    + rewrite list_lookup_insert_ne in He1 by done. by eapply (ro_ep _ Hr).
  - by rewrite length_insert.
  - unfold chan. rewrite Hlk, Hl. unfold deref. by rewrite list_lookup_insert_eq.
  - intros o' id' Hne. unfold chan. rewrite Hlk. destruct (ipc_endpoint_lookup r o' id') as [j|] eqn:E; [|done].
    destruct (lookup_live r o' id' j Hr E) as (e1 & a1 & ep1 & He1 & _ & H1 & H2 & _).
    rewrite deref_insert_ne; [done|]. intros ->. apply Hne. f_equal; congruence.
Qed.

Lemma register_spec r a ep owner id : reg_ok r -> ep_ok ep -> owner_pid ep = owner -> endpoint_id ep = id ->
  Forall msg_ok (contents ep) ->
  let '(st, r') := ipc_endpoint_register r (a, ep) owner id in
  reg_ok r' /\
  ((st = - VE_NOMEM /\ r' = r /\ Z.of_nat (length r) = 1024 /\ Forall (fun e => is_Some (endpoint e)) r) \/
   (st = 0 /\ (chan r owner id = None -> chan r' owner id = Some (closed ep, contents ep)) /\
    chan r' owner id <> None /\
    forall o' id', (o', id') <> (owner, id) -> chan r' o' id' = chan r o' id')).
Proof.
  intros Hr Hok Ho Hid Hms. unfold ipc_endpoint_register, IPC_MAX_TOTAL_ENDPOINTS.
  set (e' := RegEntry (Some (a, ep)) owner id).
  assert (Hm : forall o' id', slot_matches o' id' e' = true <-> (o', id') = (owner, id)).
  { intros. rewrite slot_matches_true. simpl. naive_solver. }
  pose proof (ro_len _ Hr) as Hlen. unfold IPC_MAX_TOTAL_ENDPOINTS in Hlen.
  destruct (first_index slot_free r) as [i|] eqn:Ei.
  - apply first_index_Some in Ei as (e & He & Hf & _).
    assert (Hn : forall o' id', slot_matches o' id' e = false).
    { intros. unfold slot_matches. unfold slot_free in Hf. by destruct (endpoint e). }
    assert (Hlt : (i < length r)%nat) by (by eapply lookup_lt_Some).
    assert (Hr' : reg_ok (<[i := e']> r)); [|split; [done|]].
    { split; [by rewrite length_insert|]. intros j e1 a1 ep1 He1 Hep1.
      destruct (decide (i = j)) as [<-|Hne].
      * rewrite list_lookup_insert_eq in He1 by done. injection He1 as <-. injection Hep1 as <- <-. done.
      * rewrite list_lookup_insert_ne in He1 by done. by eapply (ro_ep _ Hr). }
    right. split_and!; [done| | |].
    + intros Hc. rewrite chan_None in Hc by done. unfold chan, ipc_endpoint_lookup in *.
      rewrite (first_index_insert_new _ _ _ e) by (done || by apply Hm). rewrite Hc.
      unfold deref. by rewrite list_lookup_insert_eq.
    + rewrite chan_None by done. unfold ipc_endpoint_lookup.
      by rewrite (first_index_insert_new _ _ _ e) by (done || by apply Hm).
    + intros o' id' Hne. unfold chan, ipc_endpoint_lookup.
        assert (He' : slot_matches o' id' e' = false).
        { destruct (slot_matches o' id' e') eqn:E; [|done]. apply Hm in E. by destruct Hne. }
        rewrite (first_index_insert_same _ _ _ e) by (done || congruence).
        destruct (first_index (slot_matches o' id') r) as [j|] eqn:E; [|done].
        rewrite deref_insert_ne; [done|]. intros ->.
        apply first_index_Some in E as (e1 & He1 & Hf1 & _). assert (e1 = e) as -> by congruence.
        by rewrite Hn in Hf1.
  - destruct (Z.leb_spec 1024 (Z.of_nat (length r))) as [Hge|Hlt].
    { split; [done|]. left. split_and!; [done|done|lia|]. rewrite first_index_None in Ei.
      apply Forall_forall. intros e He. specialize (Ei e He). unfold slot_free in Ei. by destruct (endpoint e). }
    assert (Hr' : reg_ok (r ++ [e'])); [|split; [done|]].
    { split; [rewrite length_app; simpl; unfold IPC_MAX_TOTAL_ENDPOINTS; lia|].
      intros j e1 a1 ep1 He1 Hep1. apply lookup_app_Some in He1 as [He1|[_ He1]].
      * by eapply (ro_ep _ Hr).
      * apply list_lookup_singleton_Some in He1 as [_ <-]. injection Hep1 as <- <-. done. }
    right. split_and!; [done| | |].
    + intros Hc. rewrite chan_None in Hc by done. unfold chan, ipc_endpoint_lookup in *.
      rewrite first_index_snoc, Hc. rewrite (proj2 (Hm owner id) eq_refl).
      unfold deref. by rewrite list_lookup_middle.
    + rewrite chan_None by done. unfold ipc_endpoint_lookup. rewrite first_index_snoc.
      destruct (first_index (slot_matches owner id) r); [done|]. by rewrite (proj2 (Hm owner id) eq_refl).
    + intros o' id' Hne. unfold chan, ipc_endpoint_lookup. rewrite first_index_snoc.
        destruct (first_index (slot_matches o' id') r) as [j|] eqn:E.
        -- unfold deref. rewrite lookup_app_l; [done|]. by eapply first_index_lt.
        -- destruct (slot_matches o' id' e') eqn:E'; [|done]. apply Hm in E'. by destruct Hne.
Qed.

Lemma first_index_fmap {A B} (f : B -> bool) (g : A -> B) l :
  first_index f (g <$> l) = first_index (fun x => f (g x)) l.
Proof. induction l as [|x l IH]; cbn; [done|]. destruct (f (g x)); [done|]. f_equal. apply IH. Qed.

(** ** The system calls *)
Section IpcSpec.
Context {M : Type} `{UA : UserAccess M process_t} {inv : M -> process_t -> Prop}.
Context `{UL : !UserAccessLaws M process_t inv}.
Context {H : Type} `{KH : KernelHeap H} {S : Type} `{CH : CloseHook S}.
Implicit Types (g : @ipc H S) (p : process_t).

(** The handle table as the calls see it: a missing table has no allocated
  handle. *)
Definition handles_of (p : process_t) : list ipc_handle_entry_t :=
  match ipc_handles p with Some (_, hs) => hs | None => replicate 64 handle_zero end.

Lemma handle_entry_zero h : handle_entry (replicate 64 handle_zero) h = None.
Proof.
  unfold handle_entry. destruct (_ || _) eqn:E; [done|]. unfold zget.
  rewrite nth_lookup. destruct (replicate 64 handle_zero !! Z.to_nat h) eqn:El; [|done].
  apply lookup_replicate in El as [-> _]. done.
Qed.

Lemma ensure_table_spec g p : let '(t, g', p') := ensure_table g p in
  ip_reg g' = ip_reg g /\ ip_svc g' = ip_svc g /\
  match t with
  | Some (ta, hs) => handles_of p = hs /\ ipc_handles p' = Some (ta, hs) /\ pid p' = pid p /\
      (ipc_handles p <> None -> p' = p /\ g' = g)
  | None => ipc_handles p = None /\ ipc_handles p' = None /\ (kmalloc (ip_heap g) HANDLE_TABLE_SIZE).1 = 0
  end.
Proof.
  unfold ensure_table, handles_of, ipc_handle_table_create. destruct (ipc_handles p) as [[ta hs]|] eqn:E; [done|].
  destruct (kmalloc (ip_heap g) HANDLE_TABLE_SIZE) as [a h]. cbn [fst]. destruct (Z.eqb_spec a 0); [done|].
  split_and!; try done; naive_solver.
Qed.

Lemma handle_entry_Some hs h e : handle_entry hs h = Some e ->
  0 <= h < 64 /\ e = zget handle_zero hs h /\ handle_allocated e = true.
Proof.
  unfold handle_entry, IPC_MAX_HANDLES. destruct (_ || _) eqn:E; [done|]. bool_to_prop.
  destruct (handle_allocated _) eqn:Ea; [|done]. intros [= <-]. split_and!; (done || lia).
Qed.

(** The bytes a send takes from the sender. *)
Definition send_bytes (m : M) (p : process_t) (dat len : Z) : option (list Z) :=
  if 0 <? len then if negb (ua_range_ok m p dat len false) then None else ua_copy_from m p dat len else Some [].

Lemma send_bytes_ok m p dat len bs : inv m p -> 0 <= dat < 2 ^ 64 -> 0 <= len < 2 ^ 32 ->
  send_bytes m p dat len = Some bs -> Z.of_nat (length bs) = len /\ byte_list bs.
Proof.
  intros Hi Hd Hl. unfold send_bytes. destruct (Z.ltb_spec 0 len).
  - case_if; [done|]. intros Hc. eapply ua_from_bytes in Hc; [done|done|lia|lia].
  - intros [= <-]. split; [simpl; lia|constructor].
Qed.

(** What must hold for a send to be accepted. *)
Record sendable (m : M) g p (h dat len : Z) (e : ipc_handle_entry_t) (bs : list Z)
    (q : list ipc_message_t) : Prop := {
  sd_entry : handle_entry (handles_of p) h = Some e;
  sd_len : len <= 496;
  sd_bytes : send_bytes m p dat len = Some bs;
  sd_chan : chan (ip_reg g) (target_pid e) (target_endpoint_id e) = Some (false, q);
  sd_room : (length q < 16)%nat
}.

Lemma sys_ipc_send_cases m g p h tg dat len :
  reg_ok (ip_reg g) -> inv m p -> 0 <= dat < 2 ^ 64 -> 0 <= len < 2 ^ 32 -> 0 <= tg < 2 ^ 32 ->
  let '(r, g', p') := sys_ipc_send m g p h tg dat len in
  reg_ok (ip_reg g') /\ ip_svc g' = ip_svc g /\
  ((r <> 0 /\ (forall e bs q, ~ sendable m g p h dat len e bs q) /\
    (forall o id, chan (ip_reg g') o id = chan (ip_reg g) o id)) \/
   (exists e bs q, r = 0 /\ sendable m g p h dat len e bs q /\
     chan (ip_reg g') (target_pid e) (target_endpoint_id e) =
       Some (false, q ++ [IpcMessage (u32 (pid p)) tg len bs]) /\
     forall o id, (o, id) <> (target_pid e, target_endpoint_id e) ->
       chan (ip_reg g') o id = chan (ip_reg g) o id)).
Proof.
  intros Hr Hinv Hdat Hlen Htag. unfold sys_ipc_send.
  pose proof (ensure_table_spec g p) as Ht. destruct (ensure_table g p) as [[t g1] p1].
  destruct Ht as (Hreg & Hsvc & Ht). rewrite <- Hsvc. rewrite <- Hreg in Hr.
  assert (Hno : forall r, r <> 0 -> (forall e bs q, ~ sendable m g p h dat len e bs q) ->
    reg_ok (ip_reg g1) /\ ip_svc g1 = ip_svc g1 /\
    ((r <> 0 /\ (forall e bs q, ~ sendable m g p h dat len e bs q) /\
       (forall o id, chan (ip_reg g1) o id = chan (ip_reg g) o id)) \/
     (exists e bs q, r = 0 /\ sendable m g p h dat len e bs q /\
      chan (ip_reg g1) (target_pid e) (target_endpoint_id e) = Some (false, q ++ [IpcMessage (u32 (pid p)) tg len bs]) /\
      forall o id, (o, id) <> (target_pid e, target_endpoint_id e) ->
       chan (ip_reg g1) o id = chan (ip_reg g) o id))).
  { intros r Hne Hs. split_and!; [done|done|]. left. split_and!; [done..|]. intros. by rewrite Hreg. }
  destruct t as [[ta hs]|].
  2: { destruct Ht as (Hn & _ & _). apply Hno; [done|]. intros e bs q [Hh _ _ _ _].
       unfold handles_of in Hh. rewrite Hn, handle_entry_zero in Hh. done. }
  destruct Ht as (Hhs & _ & Hpid & Hsame).
  destruct ((h <? 0) || (IPC_MAX_HANDLES <=? h)) eqn:Erng.
  { apply Hno; [done|]. intros e bs q [Hh _ _ _ _]. unfold handle_entry in Hh. by rewrite Erng in Hh. }
  change (IPC_MAX_MESSAGE_SIZE - 4 * 4) with 496. destruct (Z.ltb_spec 496 len).
  { apply Hno; [done|]. intros e bs q [_ ? _ _ _]. lia. }
  assert (Hent : handle_entry (handles_of p) h =
    if handle_allocated (zget handle_zero hs h) then Some (zget handle_zero hs h) else None).
  { unfold handle_entry. by rewrite Erng, Hhs. }
  set (e := zget handle_zero hs h) in *. destruct (handle_allocated e) eqn:Ea; cbn [negb].
  2: { apply Hno; [done|]. intros e' bs q [Hh _ _ _ _]. by rewrite Hent in Hh. }
  destruct (ipc_endpoint_lookup (ip_reg g1) (target_pid e) (target_endpoint_id e)) as [i|] eqn:El.
  2: { apply Hno; [done|]. intros e' bs q [Hh _ _ Hc _]. rewrite Hent in Hh. injection Hh as <-.
       rewrite <- Hreg in Hc. apply chan_lookup in Hc as (i & ep & Hc & _); [|done]. congruence. }
  assert (Hp1 : p1 = p).
  { apply Hsame. intros Hn. unfold handles_of in Hent. rewrite Hn, handle_entry_zero in Hent. done. }
  rewrite Hp1. fold (send_bytes m p dat len). destruct (send_bytes m p dat len) as [bs|] eqn:Eb.
  2: { apply Hno; [done|]. intros e' bs q [_ _ Hb _ _]. congruence. }
  destruct (lookup_live _ _ _ _ Hr El) as (e0 & a & ep & _ & _ & _ & _ & Hd & Hok & _ & _ & Hms). rewrite Hd.
  assert (Hch : chan (ip_reg g1) (target_pid e) (target_endpoint_id e) = Some (closed ep, contents ep)).
  { apply chan_lookup; [done|]. by exists i, ep. }
  set (msg := IpcMessage (u32 (pid p)) tg len bs).
  pose proof (enqueue_spec ep msg Hok) as Hq. destruct (ipc_queue_enqueue ep msg) as [r ep'] eqn:Eq.
  destruct Hq as (Hok' & Ho' & Hi' & Hf' & Hq).
  destruct (send_bytes_ok m p dat len bs Hinv Hdat Hlen Eb) as [Hbl Hby].
  assert (Hmsg : msg_ok msg) by (by split).
  destruct (Z.leb_spec 16 (Z.of_nat (length (contents ep)))) as [Hfull|Hroom]; [|destruct (closed ep) eqn:Ecl].
  1, 2: destruct Hq as [-> ->];
    destruct (store_spec _ _ _ _ _ _ Hr El Hd Hok eq_refl eq_refl Hms) as (Hr' & _ & Hc1 & Hc2);
    (split; [done|]); (split; [done|]); left; (split; [done|]); split.
  - intros e' bs' q [Hh _ _ Hc Hlt]. rewrite Hent in Hh. injection Hh as <-. rewrite <- Hreg, Hch in Hc.
    injection Hc as _ <-. lia.
  - intros o id. cbn [with_reg ip_reg]. rewrite <- Hreg.
    destruct (decide ((o, id) = (target_pid e, target_endpoint_id e))) as [[= -> ->]|]; [congruence|by apply Hc2].
  - intros e' bs' q [Hh _ _ Hc _]. rewrite Hent in Hh. injection Hh as <-. rewrite <- Hreg, Hch in Hc. done.
  - intros o id. cbn [with_reg ip_reg]. rewrite <- Hreg.
    destruct (decide ((o, id) = (target_pid e, target_endpoint_id e))) as [[= -> ->]|]; [congruence|by apply Hc2].
  - destruct Hq as [-> Hcont].
    destruct (store_spec _ _ _ _ _ ep' Hr El Hd Hok' Ho' Hi') as (Hr' & _ & Hc1 & Hc2).
    { rewrite Hcont. apply Forall_app. split; [done|]. by constructor. }
    split; [done|]. split; [done|]. right. exists e, bs, (contents ep). split_and!; [done| | |].
    + split; [done|done|done| |lia]. by rewrite <- Hreg, Hch.
    + cbn [with_reg ip_reg]. rewrite Hc1, Hcont. unfold closed in *. by rewrite Hf', Ecl.
    + intros o id Hne. cbn [with_reg ip_reg]. rewrite Hc2 by done. by rewrite Hreg.
Qed.

(** The status of a send on an allocated handle. *)
Lemma send_code m g p ta hs h tg dat len e : reg_ok (ip_reg g) -> ipc_handles p = Some (ta, hs) ->
  handle_entry hs h = Some e -> len <= 496 ->
  (sys_ipc_send m g p h tg dat len).1.1 =
    match chan (ip_reg g) (target_pid e) (target_endpoint_id e), send_bytes m p dat len with
    | None, _ => - VE_BADF
    | Some _, None => - VE_FAULT
    | Some (c, q), Some _ =>
        if 16 <=? Z.of_nat (length q) then - VE_NOMEM else if c then - VE_BADF else 0
    end.
Proof.
  intros Hr Ht He Hl. unfold sys_ipc_send, ensure_table. rewrite Ht.
  unfold handle_entry in He. destruct ((h <? 0) || (IPC_MAX_HANDLES <=? h)); [done|].
  change (IPC_MAX_MESSAGE_SIZE - 4 * 4) with 496. destruct (Z.ltb_spec 496 len); [lia|].
  destruct (handle_allocated (zget handle_zero hs h)); [|done]. injection He as ->. cbn [negb].
  fold (send_bytes m p dat len).
  destruct (ipc_endpoint_lookup _ _ _) as [i|] eqn:El.
  2: { apply chan_None in El; [|done]. by rewrite El. }
  destruct (lookup_live _ _ _ _ Hr El) as (e0 & a & ep & _ & _ & _ & _ & Hd & Hok & _).
  assert (Hch : chan (ip_reg g) (target_pid e) (target_endpoint_id e) = Some (closed ep, contents ep)).
  { apply chan_lookup; [done|]. by exists i, ep. }
  rewrite Hch, Hd. destruct (send_bytes m p dat len) as [bs|]; [|done].
  pose proof (enqueue_spec ep (IpcMessage (u32 (pid p)) tg len bs) Hok) as Hq.
  destruct (ipc_queue_enqueue ep _) as [r ep']. destruct Hq as (_ & _ & _ & _ & Hq). cbn [fst].
  destruct (16 <=? _); [by destruct Hq|]. destruct (closed ep); by destruct Hq.
Qed.

(** What [sys_ipc_recv] does with the message it took: the tag, then the data,
  each to its buffer when there is one. *)
Definition deliver (m : M) (p : process_t) (msg : ipc_message_t) (tag_out data_out max_len : Z) : Z * M :=
  let '(ok, m) := if tag_out =? 0 then (Some m, m) else recv_copy m p tag_out (le_bytes 4 (tag msg)) in
  match ok with
  | None => (- VE_FAULT, m)
  | Some _ =>
      let n := Z.min max_len (data_len msg) in
      if (0 <? n) && negb (data_out =? 0) then
        let '(ok, m) := recv_copy m p data_out (take (Z.to_nat n) (data msg)) in
        match ok with None => (- VE_FAULT, m) | Some _ => (n, m) end
      else (n, m)
  end.

Lemma sys_ipc_recv_cases m g p h tag_out data_out max_len : reg_ok (ip_reg g) ->
  let '(r, m', g', p') := sys_ipc_recv m g p h tag_out data_out max_len in
  let target e := chan (ip_reg g) (target_pid e) (target_endpoint_id e) in
  reg_ok (ip_reg g') /\ ip_svc g' = ip_svc g /\
  ((r < 0 /\ m' = m /\ (forall e, handle_entry (handles_of p) h = Some e -> target e = None) /\
    forall o id, chan (ip_reg g') o id = chan (ip_reg g) o id) \/
   (exists e c, handle_entry (handles_of p) h = Some e /\ target e = Some (c, []) /\ r = 0 /\ m' = m /\
    forall o id, chan (ip_reg g') o id = chan (ip_reg g) o id) \/
   (exists e c msg q, handle_entry (handles_of p) h = Some e /\ target e = Some (c, msg :: q) /\ msg_ok msg /\
     (r, m') = deliver m p msg tag_out data_out max_len /\
     chan (ip_reg g') (target_pid e) (target_endpoint_id e) = Some (c, q) /\
     forall o id, (o, id) <> (target_pid e, target_endpoint_id e) ->
       chan (ip_reg g') o id = chan (ip_reg g) o id)).
Proof.
  intros Hr. unfold sys_ipc_recv.
  pose proof (ensure_table_spec g p) as Ht. destruct (ensure_table g p) as [[t g1] p1].
  destruct Ht as (Hreg & Hsvc & Ht). cbn zeta. rewrite <- Hreg in *.
  destruct t as [[ta hs]|].
  2: { destruct Ht as (Hn & _ & _). split_and!; [done|done|]. left. split_and!; [done|done| |done].
       intros e He. unfold handles_of in He. rewrite Hn, handle_entry_zero in He. done. }
  destruct Ht as (Hhs & _ & _ & Hsame). rewrite Hhs. destruct (handle_entry hs h) as [e|] eqn:He.
  2: { split_and!; [done|done|]. by left. }
  destruct (ipc_endpoint_lookup (ip_reg g1) (target_pid e) (target_endpoint_id e)) as [i|] eqn:El.
  2: { split_and!; [done|done|]. left. split_and!; [done|done| |done]. intros e' [= <-]. by apply chan_None. }
  assert (p1 = p) as ->.
  { apply Hsame. intros Hn. unfold handles_of in Hhs. rewrite Hn in Hhs. subst hs.
    by rewrite handle_entry_zero in He. }
  destruct (lookup_live _ _ _ _ Hr El) as (e0 & a & ep & _ & _ & _ & _ & Hd & Hok & _ & _ & Hms). rewrite Hd.
  assert (Hch : chan (ip_reg g1) (target_pid e) (target_endpoint_id e) = Some (closed ep, contents ep)).
  { apply chan_lookup; [done|]. by exists i, ep. }
  pose proof (dequeue_spec ep Hok) as Hq. destruct (ipc_queue_dequeue ep) as [om ep'].
  destruct Hq as (Hok' & Ho' & Hi' & Hf' & Hh & Htl & _).
  destruct (contents ep) as [|msg q] eqn:Ec; cbn [head tail] in *; subst om.
  { split_and!; [done|done|]. right. left. exists e, (closed ep). by split_and!. }
  apply Forall_cons in Hms as [Hmsg Hms].
  destruct (store_spec _ _ _ _ _ ep' Hr El Hd Hok' Ho' Hi') as (Hr' & _ & Hc1 & Hc2); [by rewrite Htl|].
  assert (Hcl : closed ep' = closed ep) by (unfold closed; by rewrite Hf').
  rewrite Hcl, Htl in Hc1.
  assert (Hmin : (if max_len <? data_len msg then max_len else data_len msg) = Z.min max_len (data_len msg)).
  { destruct (Z.ltb_spec max_len (data_len msg)); lia. }
  rewrite Hmin. clear Hmin.
  match goal with |- match ?X with _ => _ end => assert (Hout : X =
    let '(r, m') := deliver m p msg tag_out data_out max_len in
    (r, m', with_reg g1 (store_ep (ip_reg g1) i ep'), p)) end.
  { unfold deliver. destruct (if tag_out =? 0 then _ else _) as [[]  m1]; [|done]. destruct (_ && _); [|done].
    by destruct (recv_copy m1 p data_out _) as [[] m2]. }
  rewrite Hout. destruct (deliver _ _ _ _ _ _) as [r m'] eqn:Edel.
  split_and!; [done|done|]. right. right. exists e, (closed ep), msg, q. by rewrite Edel.
Qed.

(** The process can be given [n] bytes at [a]: nothing is written for a NULL
  pointer or an empty piece. *)
Definition accepts (m : M) (p : process_t) (a n : Z) : Prop := a = 0 \/ n = 0 \/ ua_range_ok m p a n true = true.

#[export] Instance accepts_dec m p a n : Decision (accepts m p a n).
Proof. unfold accepts. apply _. Defined.

(** The bytes [b .. b + k - 1] do not meet what is written at [a]. *)
Definition clear_of (a n b k : Z) : Prop := a = 0 \/ n = 0 \/ b + k <= a \/ a + n <= b.

(** What the receiver's memory holds after the delivery of [n] bytes. *)
Record delivered (m m' : M) (p : process_t) (msg : ipc_message_t) (tag_out data_out n : Z) : Prop := {
  dl_data : data_out <> 0 -> 0 < n -> ua_copy_from m' p data_out n = Some (take (Z.to_nat n) (data msg));
  dl_tag : tag_out <> 0 -> clear_of data_out n tag_out 4 -> ua_copy_from m' p tag_out 4 = Some (le_bytes 4 (tag msg));
  dl_rest : forall b k, 0 <= b < 2 ^ 64 -> 0 <= k < 2 ^ 64 -> clear_of tag_out 4 b k -> clear_of data_out n b k ->
    ua_copy_from m' p b k = ua_copy_from m p b k
}.

(** One buffer: the piece is written, or nothing is. *)
Lemma recv_copy_spec m p a bs : inv m p -> 0 <= a < 2 ^ 64 -> 0 < Z.of_nat (length bs) < 2 ^ 64 -> byte_list bs -> a <> 0 ->
  let '(ok, m1) := recv_copy m p a bs in
  inv m1 p /\
  (forall b n w, 0 <= b < 2 ^ 64 -> 0 <= n < 2 ^ 64 -> ua_range_ok m1 p b n w = ua_range_ok m p b n w) /\
  (forall b n, 0 <= b < 2 ^ 64 -> 0 <= n < 2 ^ 64 -> clear_of a (Z.of_nat (length bs)) b n -> ua_copy_from m1 p b n = ua_copy_from m p b n) /\
  if decide (accepts m p a (Z.of_nat (length bs))) then ok <> None /\ ua_copy_from m1 p a (Z.of_nat (length bs)) = Some bs
  else ok = None /\ m1 = m.
Proof.
  intros Hi Ha Hl Hb Hnz. unfold recv_copy.
  pose proof (ua_to_inv m p a bs Hi Ha ltac:(lia) Hb) as Hi1. pose proof (ua_to_ok m p a bs Hi Ha ltac:(lia) Hb) as Hok.
  pose proof (ua_round_trip m p a bs Hi Ha ltac:(lia) Hb) as Hrt.
  pose proof (fun b n w => ua_to_range m p a bs b n w Hi Ha ltac:(lia) Hb) as Hr.
  pose proof (fun b n => ua_to_apart m p a bs b n Hi Ha ltac:(lia) Hb) as Hap.
  destruct (ua_range_ok m p a (Z.of_nat (length bs)) true) eqn:E; cbn [negb].
  - destruct (ua_copy_to m p a bs) as [ok m1]. cbn [fst snd] in *. subst ok. rewrite decide_True by (by right; right).
    split_and!; [done|done| |done|by apply Hrt]. intros b n H1 H2 [?|[?|?]]; [lia|lia|by apply Hap].
  - rewrite decide_False; [done|]. intros [?|[?|?]]; [lia|lia|congruence].
Qed.

(** A delivery in full: the result, and the memory. *)
Lemma deliver_spec m p msg tag_out data_out max_len : inv m p -> msg_ok msg ->
  0 <= tag_out < 2 ^ 64 -> 0 <= data_out < 2 ^ 64 -> 0 <= max_len < 2 ^ 32 ->
  let n := Z.min max_len (data_len msg) in
  let '(r, m') := deliver m p msg tag_out data_out max_len in
  inv m' p /\
  if decide (accepts m p tag_out 4) then
    if decide (accepts m p data_out n) then r = n /\ delivered m m' p msg tag_out data_out n
    else r = - VE_FAULT /\ delivered m m' p msg tag_out 0 0
  else r = - VE_FAULT /\ m' = m.
Proof.
  intros Hi [Hl Hmax Hby Htg] Ht Hd Hm n. unfold deliver. fold n.
  assert (Hn : 0 <= n <= data_len msg) by (unfold n; lia).
  assert (H1 : let '(ok, m1) := if tag_out =? 0 then (Some m, m) else recv_copy m p tag_out (le_bytes 4 (tag msg)) in
    inv m1 p /\ (forall b k w, 0 <= b < 2 ^ 64 -> 0 <= k < 2 ^ 64 -> ua_range_ok m1 p b k w = ua_range_ok m p b k w) /\
    if decide (accepts m p tag_out 4) then ok <> None /\ delivered m m1 p msg tag_out 0 0 else ok = None /\ m1 = m).
  { destruct (Z.eqb_spec tag_out 0) as [->|Hnz].
    { cbv beta iota zeta. rewrite decide_True by (by left). split_and!; [done..|]. by split. }
    pose proof (recv_copy_spec m p tag_out (le_bytes 4 (tag msg)) Hi Ht ltac:(rewrite length_le_bytes; lia) (le_bytes_range _ _) Hnz) as Hc.
    rewrite length_le_bytes in Hc. change (Z.of_nat 4) with 4 in Hc. destruct (recv_copy m p tag_out _) as [ok m1].
    destruct Hc as (I1 & R1 & A1 & C1). split_and!; [done..|]. case_decide; [|done]. destruct C1 as [Hok Hc]. split; [done|]. by split; intros; auto. }
  destruct (if tag_out =? 0 then _ else _) as [ok m1]. destruct H1 as (I1 & R1 & H1).
  case_decide as Hta; [|destruct H1 as [-> ->]; done]. destruct H1 as [Hok D1]. destruct ok as [x|]; [clear Hok|done].
  destruct ((0 <? n) && negb (data_out =? 0)) eqn:E.
  - bool_to_prop. assert (Hlt : Z.of_nat (length (take (Z.to_nat n) (data msg))) = n) by (rewrite length_take; lia).
    pose proof (recv_copy_spec m1 p data_out (take (Z.to_nat n) (data msg)) I1 Hd ltac:(lia) ltac:(by apply Forall_take) ltac:(done)) as Hc.
    rewrite Hlt in Hc. destruct (recv_copy m1 p data_out _) as [ok2 m2]. destruct Hc as (I2 & R2 & A2 & C2).
    assert (Hacc : accepts m1 p data_out n <-> accepts m p data_out n) by (unfold accepts; by rewrite R1 by lia).
    destruct (decide (accepts m p data_out n)) as [Hda|Hda].
    + rewrite decide_True in C2 by by apply Hacc. destruct C2 as [Hok2 C2]. destruct ok2 as [y|]; [|done]. split; [done|]. split; [done|].
      destruct D1 as [_ D2 D3]. split; [done| |].
      * intros Hnz Hcl. rewrite A2 by (done || lia). apply D2; [done|by right; left].
      * intros b k Hb Hk Hc1 Hc2. rewrite A2 by done. apply D3; [done..|by left].
    + rewrite decide_False in C2 by by rewrite Hacc. destruct C2 as [-> ->]. by split.
  - assert (Hz : data_out = 0 \/ n = 0).
    { apply andb_false_iff in E as [E|E]; bool_to_prop; [right; lia|by left]. }
    rewrite decide_True by (unfold accepts; tauto). split; [done|]. split; [done|]. destruct D1 as [_ D2 D3]. split.
    + intros; lia.
    + intros Hnz _. apply D2; [done|by left].
    + intros b k Hb Hk Hc1 _. apply D3; [done..|by left].
Qed.

Lemma free_handle_Some hs i : length hs = 64%nat -> find_free_handle hs = Some i ->
  (i < 64)%nat /\ exists e, hs !! i = Some e /\ handle_allocated e = false.
Proof.
  intros Hl Hf. pose proof (first_index_lt _ _ _ Hf) as Hlt. rewrite Hl in Hlt.
  apply first_index_Some in Hf as (e & He & Hn & _). bool_to_prop. by split; [|exists e].
Qed.

(** Creating an endpoint: on failure nothing changes; on success the lowest
  free handle names a new, empty endpoint. *)
Lemma endpoint_create_cases g p : reg_ok (ip_reg g) ->
  let '(r, g', p') := sys_ipc_endpoint_create g p in
  reg_ok (ip_reg g') /\ ip_svc g' = ip_svc g /\ pid p' = pid p /\
  ((r = - VE_NOMEM /\ handles_of p' = handles_of p /\ ip_reg g' = ip_reg g) \/
   (exists i, r = Z.of_nat i /\ find_free_handle (handles_of p) = Some i /\
     handles_of p' = <[i := HandleEntry (pid p) r IPC_HANDLE_ALLOCATED]> (handles_of p) /\
     (chan (ip_reg g) (pid p) r = None -> chan (ip_reg g') (pid p) r = Some (false, [])) /\
     chan (ip_reg g') (pid p) r <> None /\
     forall o id, (o, id) <> (pid p, r) -> chan (ip_reg g') o id = chan (ip_reg g) o id)).
Proof.
  intros Hr. unfold sys_ipc_endpoint_create.
  pose proof (ensure_table_spec g p) as Ht. destruct (ensure_table g p) as [[t g1] p1] eqn:Eens.
  destruct Ht as (Hreg & Hsvc & Ht). rewrite <- Hreg in *. rewrite <- Hsvc in *.
  assert (Hpid : pid p1 = pid p).
  { unfold ensure_table, ipc_handle_table_create in Eens. destruct (ipc_handles p); [congruence|].
    destruct (kmalloc (ip_heap g) HANDLE_TABLE_SIZE) as [a h]. destruct (a =? 0); by injection Eens as _ _ <-. }
  destruct t as [[ta hs]|].
  2: { destruct Ht as (Hn & Hn1 & _). split_and!; [done..|]. left. unfold handles_of. by rewrite Hn, Hn1. }
  destruct Ht as (Hhs & Ht1 & _ & _).
  assert (Hh1 : handles_of p1 = handles_of p) by (unfold handles_of at 1; by rewrite Ht1).
  destruct (find_free_handle hs) as [i|] eqn:Ef; [|by split_and!; [..|left]].
  destruct (kmalloc (ip_heap g1) ENDPOINT_SIZE) as [a h]. destruct (a =? 0); [by split_and!; [..|left]|].
  rewrite Hpid. cbn [owner_pid endpoint_id with_heap ip_reg].
  set (ep := IpcEndpoint (pid p) (Z.of_nat i) 0 (replicate 16 message_zero) 0 0 0).
  pose proof (register_spec (ip_reg g1) a ep (pid p) (Z.of_nat i) Hr (fresh_ep_ok _ _) eq_refl eq_refl
    ltac:(by constructor)) as Hs.
  destruct (ipc_endpoint_register (ip_reg g1) (a, ep) (pid p) (Z.of_nat i)) as [st r].
  destruct Hs as (Hr' & [(-> & -> & _)|(-> & Hnew & Hlive & Hoth)]).
  - split_and!; [done..|]. left. by split_and!.
  - split_and!; [done..|]. right. exists i. unfold handles_of at 2. cbn [ipc_handles set_handles].
    rewrite Hhs. split_and!; try done.
Qed.

(** Closing and connecting. *)
Lemma endpoint_close_cases g p h : reg_ok (ip_reg g) -> length (handles_of p) = 64%nat ->
  let '(r, g', p') := sys_ipc_close g p h in
  reg_ok (ip_reg g') /\ pid p' = pid p /\
  ((r < 0 /\ handle_entry (handles_of p) h = None /\ handles_of p' = handles_of p /\ ip_reg g' = ip_reg g /\
    ip_svc g' = ip_svc g) \/
   (exists e, r = 0 /\ handle_entry (handles_of p) h = Some e /\ handle_entry (handles_of p') h = None /\
     (forall h', h' <> h -> handle_entry (handles_of p') h' = handle_entry (handles_of p) h') /\
     (forall o id, chan (ip_reg g') o id =
        if decide ((o, id) = (target_pid e, target_endpoint_id e) /\ o = pid p)
        then (fun ch => (true, snd ch)) <$> chan (ip_reg g) o id else chan (ip_reg g) o id) /\
     ip_svc g' = if decide (target_pid e = pid p /\ chan (ip_reg g) (pid p) (target_endpoint_id e) <> None)
                 then svc_on_endpoint_close (ip_svc g) (pid p) (target_endpoint_id e) else ip_svc g)).
Proof.
  intros Hr Hlen. unfold sys_ipc_close.
  pose proof (ensure_table_spec g p) as Ht. destruct (ensure_table g p) as [[t g1] p1] eqn:Eens.
  destruct Ht as (Hreg & Hsvc & Ht). rewrite <- Hreg in *. rewrite <- Hsvc in *.
  assert (Hpid : pid p1 = pid p).
  { unfold ensure_table, ipc_handle_table_create in Eens. destruct (ipc_handles p); [congruence|].
    destruct (kmalloc (ip_heap g) HANDLE_TABLE_SIZE) as [a h']. destruct (a =? 0); by injection Eens as _ _ <-. }
  destruct t as [[ta hs]|].
  2: { destruct Ht as (Hn & Hn1 & _). split_and!; [done..|]. left. unfold handles_of. rewrite Hn, Hn1.
       split_and!; try done. apply handle_entry_zero. }
  destruct Ht as (Hhs & Ht1 & _ & _).
  assert (Hh1 : handles_of p1 = hs) by (unfold handles_of; by rewrite Ht1).
  rewrite Hhs. destruct (handle_entry hs h) as [e|] eqn:He.
  2: { split_and!; [done..|]. left. by split_and!. }
  destruct (handle_entry_Some _ _ _ He) as (Hrng & _ & _). rewrite Hpid.
  assert (Htbl : let hs' := zset hs h (HandleEntry (target_pid e) (target_endpoint_id e) 0) in
    handle_entry hs' h = None /\ forall h', h' <> h -> handle_entry hs' h' = handle_entry hs h').
  { cbn zeta. unfold handle_entry. split.
    - destruct (_ || _); [done|]. rewrite zget_zset_eq by (rewrite Hhs in Hlen; lia). done.
    - intros h' Hne. destruct (_ || _) eqn:E; [done|]. bool_to_prop. by rewrite zget_zset_ne by lia. }
  destruct Htbl as [Htbl1 Htbl2].
  destruct (ipc_endpoint_lookup (ip_reg g1) (target_pid e) (target_endpoint_id e)) as [i|] eqn:El.
  2: { split_and!; [done..|]. right. exists e. split_and!; try done; rewrite ?Ht1; cbn; try done.
       - intros o id. case_decide as Hd; [|done]. destruct Hd as [[= -> ->] _].
         apply chan_None in El; [|done]. by rewrite El.
       - case_decide as Hd; [|done]. destruct Hd as [Ho Hc]. apply chan_None in El; [|done]. congruence. }
  destruct (lookup_live _ _ _ _ Hr El) as (e0 & a & ep & _ & _ & _ & _ & Hd & Hok & Ho & Hi & Hms). rewrite Hd, Ho.
  assert (Hch : chan (ip_reg g1) (target_pid e) (target_endpoint_id e) = Some (closed ep, contents ep)).
  { apply chan_lookup; [done|]. by exists i, ep. }
  destruct (Z.eqb_spec (target_pid e) (pid p)) as [Hown|Hown].
  - set (ep' := set_flags ep (Z.lor (flags ep) IPC_ENDPOINT_CLOSED)).
    destruct (store_spec _ _ _ _ _ ep' Hr El Hd (set_flags_ok _ _ Hok) eq_refl eq_refl Hms) as (Hr' & _ & Hc1 & Hc2).
    assert (Hcl : closed ep' = true).
    { unfold closed, ep', IPC_ENDPOINT_CLOSED. change 0x01 with (2 ^ 0). cbn [flags set_flags].
      rewrite has_bit, Z.lor_spec by lia. by rewrite orb_true_r. }
    split_and!; [done..|]. right. exists e. split_and!; try done.
    + intros o id. case_decide as Hx.
      * destruct Hx as [[= -> ->] _]. cbn [ip_reg with_svc with_reg]. by rewrite Hc1, Hch, Hcl.
      * cbn [ip_reg with_svc with_reg]. apply Hc2. intros [= -> ->]. by destruct Hx.
    + rewrite decide_True; [done|]. split; [done|]. by rewrite <- Hown, Hch.
  - split_and!; [done..|]. right. exists e. split_and!; try done.
    + intros o id. case_decide as Hx; [|done]. destruct Hx as [[= -> ->] ?]. done.
    + rewrite decide_False; [done|]. by intros [? _].
Qed.

Lemma connect_cases g p tp id : reg_ok (ip_reg g) ->
  let '(r, g', p') := sys_ipc_connect g p tp id in
  ip_reg g' = ip_reg g /\ ip_svc g' = ip_svc g /\ pid p' = pid p /\
  ((r < 0 /\ handles_of p' = handles_of p) \/
   (exists i q, r = Z.of_nat i /\ chan (ip_reg g) tp id = Some (false, q) /\
     find_free_handle (handles_of p) = Some i /\
     handles_of p' = <[i := HandleEntry tp id IPC_HANDLE_ALLOCATED]> (handles_of p))) /\
  (r = - VE_BADF <-> forall q, chan (ip_reg g) tp id <> Some (false, q)).
Proof.
  intros Hr. unfold sys_ipc_connect.
  set (live := match ipc_endpoint_lookup (ip_reg g) tp id with Some i => _ | None => false end).
  assert (Hlive : live = true <-> exists q, chan (ip_reg g) tp id = Some (false, q)).
  { unfold live, chan. destruct (ipc_endpoint_lookup (ip_reg g) tp id) as [i|]; [|naive_solver].
    destruct (deref (ip_reg g) i) as [ep|]; simpl; [|naive_solver].
    rewrite negb_true_iff. fold (closed ep). split.
    - intros ->. by exists (contents ep).
    - by intros [q [= -> _]]. }
  destruct live; cbn [negb].
  2: { split_and!; [done|done|done|by left|]. split; [|done]. intros _ q Hq.
       assert (false = true) by (apply Hlive; by exists q). done. }
  destruct (proj1 Hlive eq_refl) as [q Hq].
  assert (Hnb : forall r, r <> - VE_BADF -> r = - VE_BADF <-> forall q, chan (ip_reg g) tp id <> Some (false, q)).
  { intros r Hne. split; [done|]. intros Hx. by destruct (Hx q). }
  pose proof (ensure_table_spec g p) as Ht. destruct (ensure_table g p) as [[t g1] p1] eqn:Eens.
  destruct Ht as (Hreg & Hsvc & Ht).
  assert (Hpid : pid p1 = pid p).
  { unfold ensure_table, ipc_handle_table_create in Eens. destruct (ipc_handles p); [congruence|].
    destruct (kmalloc (ip_heap g) HANDLE_TABLE_SIZE) as [a h']. destruct (a =? 0); by injection Eens as _ _ <-. }
  destruct t as [[ta hs]|].
  2: { destruct Ht as (Hn & Hn1 & _). split; [done|]. split; [done|]. split; [done|]. split; [|by apply Hnb]. left. unfold handles_of. by rewrite Hn, Hn1. }
  destruct Ht as (Hhs & Ht1 & _ & _).
  assert (Hh1 : handles_of p1 = handles_of p) by (unfold handles_of at 1; by rewrite Ht1).
  destruct (find_free_handle hs) as [i|] eqn:Ef; [|by (split; [done|]; split; [done|]; split; [done|]; split; [left|apply Hnb])].
  split; [done|]. split; [done|]. split; [done|]. split; [|apply Hnb; unfold VE_BADF; lia]. right. exists i, q. rewrite Hhs. by split_and!.
Qed.

(** What [ipc_endpoint_unregister_by_owner] does to a slot. *)
Definition drop_owned (o : Z) (e : ipc_endpoint_registry_entry_t) : ipc_endpoint_registry_entry_t :=
  if negb (slot_free e) && (r_owner_pid e =? o) then RegEntry None (r_owner_pid e) (r_endpoint_id e) else e.

(** The addresses of the live endpoints of an owner. *)
Definition owned_addrs (o : Z) (r : registry) : list Z :=
  omap (fun e => match endpoint e with
                 | Some (a, _) => if r_owner_pid e =? o then Some a else None
                 | None => None
                 end) r.

Lemma release_owner_fold o g n : (n <= length (ip_reg g))%nat ->
  foldl (release_owner o) g (seq 0 n) =
    Ipc ((drop_owned o <$> take n (ip_reg g)) ++ drop n (ip_reg g))
        (foldl kfree (ip_heap g) (owned_addrs o (take n (ip_reg g)))) (ip_svc g).
Proof.
  induction n as [|n IH]; intros Hn; [by destruct g|].
  rewrite seq_S, foldl_app, IH by lia. cbn [foldl Nat.add].
  destruct (lookup_lt_is_Some_2 (ip_reg g) n) as [e He]; [lia|].
  assert (Hfl : length (drop_owned o <$> take n (ip_reg g)) = n) by (rewrite length_fmap, length_take; lia).
  unfold release_owner. cbn [ip_reg ip_heap ip_svc].
  rewrite (take_S_r _ _ e), (drop_S _ e n) by done.
  rewrite (list_lookup_middle _ _ _ n) by done.
  rewrite fmap_app. unfold owned_addrs. rewrite omap_app, foldl_app. cbn [fmap list_fmap omap list_omap].
  assert (Hdrop : drop_owned o e = match endpoint e with
      | Some _ => if r_owner_pid e =? o then RegEntry None (r_owner_pid e) (r_endpoint_id e) else e
      | None => e end) by (unfold drop_owned, slot_free; by destruct (endpoint e)).
  rewrite Hdrop. destruct (endpoint e) as [[a ep]|]; cbn [foldl]; [|by rewrite <- app_assoc].
  destruct (r_owner_pid e =? o); cbn [foldl]; [|by rewrite <- app_assoc].
  f_equal. rewrite insert_app_r_alt, Hfl, Nat.sub_diag by lia. by rewrite <- app_assoc.
Qed.

Lemma unregister_spec g o : reg_ok (ip_reg g) ->
  let g' := ipc_endpoint_unregister_by_owner g o in
  reg_ok (ip_reg g') /\ ip_svc g' = ip_svc g /\
  ip_heap g' = foldl kfree (ip_heap g) (owned_addrs o (ip_reg g)) /\
  forall o' id, chan (ip_reg g') o' id = if decide (o' = o) then None else chan (ip_reg g) o' id.
Proof.
  intros Hr. cbn zeta. unfold ipc_endpoint_unregister_by_owner. rewrite release_owner_fold by done.
  rewrite firstn_all, drop_all, app_nil_r. cbn [ip_reg ip_svc ip_heap].
  assert (Hep : forall e a ep, endpoint (drop_owned o e) = Some (a, ep) -> drop_owned o e = e).
  { intros e a ep. unfold drop_owned. by destruct (negb (slot_free e) && (r_owner_pid e =? o)). }
  split_and!; [|done|done|].
  - split; [rewrite length_fmap; apply Hr|]. intros i e a ep He Hee.
    rewrite list_lookup_fmap in He. destruct (ip_reg g !! i) as [e0|] eqn:E; [|done]. injection He as <-.
    pose proof (Hep _ _ _ Hee) as Hx. rewrite Hx in Hee |- *. by eapply (ro_ep _ Hr).
  - intros o' id. unfold chan, ipc_endpoint_lookup. rewrite first_index_fmap. case_decide as Ho.
    + subst o'. rewrite (proj2 (first_index_None _ _)); [done|]. intros e _.
      unfold drop_owned, slot_matches, slot_free. destruct (endpoint e) as [[a ep]|] eqn:Ee; cbn [negb andb].
      * destruct (r_owner_pid e =? o) eqn:E; [done|]. by rewrite Ee, E.
      * by rewrite Ee.
    + rewrite (first_index_ext _ (slot_matches o' id)).
      * destruct (first_index (slot_matches o' id) (ip_reg g)) as [i|] eqn:E; [|done].
        apply first_index_Some in E as (e & He & Hm & _). unfold deref. rewrite list_lookup_fmap, He. cbn.
        apply slot_matches_true in Hm as (_ & Hm & _). unfold drop_owned.
        destruct (Z.eqb_spec (r_owner_pid e) o); [congruence|]. by rewrite andb_false_r.
      * intros e _. unfold drop_owned. destruct (negb (slot_free e)) eqn:E1; cbn [andb]; [|done].
        destruct (Z.eqb_spec (r_owner_pid e) o) as [Hoo|]; [|done]. unfold slot_matches. cbn [endpoint].
        destruct (endpoint e); [|done]. destruct (Z.eqb_spec (r_owner_pid e) o'); [congruence|done].
Qed.
End IpcSpec.

(** ** A demonstration instance: a heap that never runs out, no services, and a
  process with one page of user memory. *)
#[local] Existing Instance bump_heap.
#[local] Instance demo_hook : CloseHook unit := {| svc_on_endpoint_close s _ _ := s |}.

Definition demo_ipc : Z * @ipc Z unit * process_t := sys_ipc_endpoint_create (Ipc [] 0x1000 tt) demo_page.2.
Definition demo_sent : Z * @ipc Z unit * process_t :=
  sys_ipc_send (ms_mem demo_page.1.2) demo_ipc.1.2 demo_ipc.2 0 7 0x400FFD 3.

Lemma um_inv_handles F s p G t : um_inv F s p G -> um_inv F s (set_handles p t) G.
Proof. intros []. by split. Qed.

Lemma demo_ipc_inv : user_mem_inv (ms_mem demo_page.1.2) demo_ipc.2.
Proof.
  destruct demo_page_inv as [G Hum]. exists demo_account, demo_page.1.2, G. split; [done|].
  assert (Hp : demo_ipc.2 = set_handles demo_page.2 (ipc_handles demo_ipc.2)) by (vm_compute; reflexivity).
  rewrite Hp. by apply um_inv_handles.
Qed.

Lemma empty_reg_ok : reg_ok [].
Proof. by split. Qed.

Lemma demo_reg_ok : reg_ok (ip_reg demo_ipc.1.2).
Proof.
  pose proof (endpoint_create_cases (Ipc [] 0x1000 tt) demo_page.2 empty_reg_ok) as Hc.
  fold demo_ipc in Hc. destruct demo_ipc as [[r g] p]. apply Hc.
Qed.

(** A message of three bytes is sent and received again. *)
Definition demo_mem : mem := (copy_to_user (ms_mem demo_page.1.2) demo_ipc.2 0x400FFD [1; 2; 3]).2.
Definition demo_posted := sys_ipc_send demo_mem demo_ipc.1.2 demo_ipc.2 0 7 0x400FFD 3.
Definition demo_received := sys_ipc_recv demo_mem demo_posted.1.2 demo_posted.2 0 0x400200 0x400100 16.

Lemma demo_mem_inv : user_mem_inv demo_mem demo_ipc.2.
Proof.
  apply (ua_to_inv (UserAccessLaws := kernel_user_access_laws) (ms_mem demo_page.1.2) demo_ipc.2 0x400FFD [1; 2; 3] demo_ipc_inv);
    [lia|cbn; lia|repeat constructor; lia].
Qed.

Lemma demo_posted_ok : reg_ok (ip_reg demo_posted.1.2).
Proof.
  pose proof (sys_ipc_send_cases demo_mem demo_ipc.1.2 demo_ipc.2 0 7 0x400FFD 3 demo_reg_ok demo_mem_inv
    ltac:(lia) ltac:(lia) ltac:(lia)) as Hs.
  fold demo_posted in Hs. destruct demo_posted as [[r g'] p']. apply Hs.
Qed.

Lemma demo_posted_inv : user_mem_inv demo_mem demo_posted.2.
Proof. replace demo_posted.2 with demo_ipc.2 by (vm_compute; reflexivity). apply demo_mem_inv. Qed.

(** ** Properties *)

(** C28.  Sending.  A send is accepted (result 0) exactly when the handle is
  allocated, the data fits into a message and can be read from the sender's
  memory, and the handle names an endpoint that is open and has fewer than 16
  messages waiting.  Then exactly one message is appended to that endpoint,
  with the sender's own pid, the tag and the bytes the sender had in memory; no
  other endpoint changes.  A refused send changes no endpoint, and the status
  tells why. *)
Theorem sys_ipc_send_correct {M : Type} `{UA : UserAccess M process_t} `{UL : !UserAccessLaws M process_t inv}
    `{KH : KernelHeap Hp} `{CH : CloseHook Sv} (m : M) (g : @ipc Hp Sv) p h tg dat len :
  reg_ok (ip_reg g) -> inv m p -> 0 <= dat < 2 ^ 64 -> 0 <= len < 2 ^ 32 -> 0 <= tg < 2 ^ 32 ->
  let '(r, g', p') := sys_ipc_send m g p h tg dat len in
  reg_ok (ip_reg g') /\ ip_svc g' = ip_svc g /\
  (r = 0 <-> exists e bs q, sendable m g p h dat len e bs q) /\
  (forall e bs q, sendable m g p h dat len e bs q -> forall o id,
     chan (ip_reg g') o id =
       if decide ((o, id) = (target_pid e, target_endpoint_id e))
       then Some (false, q ++ [IpcMessage (u32 (pid p)) tg len bs]) else chan (ip_reg g) o id) /\
  (r <> 0 -> forall o id, chan (ip_reg g') o id = chan (ip_reg g) o id) /\
  (forall ta hs e, ipc_handles p = Some (ta, hs) -> handle_entry hs h = Some e -> len <= 496 ->
     r = match chan (ip_reg g) (target_pid e) (target_endpoint_id e), send_bytes m p dat len with
         | None, _ => - VE_BADF
         | Some _, None => - VE_FAULT
         | Some (c, q), Some _ =>
             if 16 <=? Z.of_nat (length q) then - VE_NOMEM else if c then - VE_BADF else 0
         end).
Proof.
  intros Hr Hi Hd Hl Ht. pose proof (sys_ipc_send_cases m g p h tg dat len Hr Hi Hd Hl Ht) as Hs.
  pose proof (fun ta hs => send_code m g p ta hs h tg dat len) as Hcode.
  destruct (sys_ipc_send m g p h tg dat len) as [[r g'] p']. cbn [fst] in Hcode.
  destruct Hs as (Hr' & Hsvc & [(Hne & Hno & Hsame)|(e & bs & q & -> & Hok & Hc & Hoth)]).
  - split_and!; [done|done| | |done|].
    + split; [done|]. intros (e & bs & q & He). by destruct (Hno e bs q).
    + intros e bs q He. by destruct (Hno e bs q).
    + intros ta hs e Hta He Hle. by eapply Hcode.
  - split_and!; [done|done| | |done|].
    + split; [|done]. intros _. by exists e, bs, q.
    + intros e' bs' q' [H1 H2 H3 H4 H5] o id. destruct Hok as [K1 K2 K3 K4 K5].
      assert (e' = e) as -> by congruence. assert (bs' = bs) as -> by congruence.
      assert (q' = q) as -> by congruence. case_decide as Hx; [by injection Hx as -> ->|by apply Hoth].
    + intros ta hs e' Hta He Hle. by eapply Hcode.
Qed.

Lemma sys_ipc_send_correct_witness : demo_sent.1.1 = 0.
Proof.
  pose proof (sys_ipc_send_correct (ms_mem demo_page.1.2) demo_ipc.1.2 demo_ipc.2 0 7 0x400FFD 3 demo_reg_ok
    demo_ipc_inv ltac:(lia) ltac:(lia) ltac:(lia)) as Hs.
  assert (Hb : send_bytes (ms_mem demo_page.1.2) demo_ipc.2 0x400FFD 3 = Some [0; 0; 0]) by (vm_compute; reflexivity).
  assert (Hc : chan (ip_reg demo_ipc.1.2) (pid demo_page.2) 0 = Some (false, [])) by (vm_compute; reflexivity).
  assert (He : handle_entry (handles_of demo_ipc.2) 0 = Some (HandleEntry (pid demo_page.2) 0 1))
    by (vm_compute; reflexivity).
  fold demo_sent in Hs. destruct demo_sent as [[r g'] p']. destruct Hs as (_ & _ & Hs & _).
  apply Hs. exists (HandleEntry (pid demo_page.2) 0 1), [0; 0; 0], [].
  split; [exact He|lia|exact Hb|exact Hc|cbn; lia].
Defined.

(** C29.  Receiving.  A receive takes the oldest message of the endpoint its
  handle names: the message leaves the queue whether or not it can be delivered,
  and no other endpoint changes.  The result is decided by the receiver's memory
  alone: when both buffers accept their piece (NULL, nothing to write, or every
  page writable), it is the number of bytes, the message's length cut to the
  buffer, and the memory holds exactly these bytes of the message at [data_out]
  and the tag at [tag_out] (unless the data was written over it); it is -EFAULT
  exactly when one of them does not, with the tag delivered when only the data
  buffer is refused, and no change when the tag buffer is.  No other byte the
  process sees changes.  With an empty queue the result is 0, without an endpoint
  it is an error, and nothing changes. *)
Theorem sys_ipc_recv_correct {M : Type} `{UA : UserAccess M process_t} `{UL : !UserAccessLaws M process_t inv}
    `{KH : KernelHeap Hp} `{CH : CloseHook Sv} (m : M) (g : @ipc Hp Sv) p h tag_out data_out max_len :
  reg_ok (ip_reg g) -> inv m p -> 0 <= tag_out < 2 ^ 64 -> 0 <= data_out < 2 ^ 64 -> 0 <= max_len < 2 ^ 32 ->
  let '(r, m', g', p') := sys_ipc_recv m g p h tag_out data_out max_len in
  let target e := chan (ip_reg g) (target_pid e) (target_endpoint_id e) in
  reg_ok (ip_reg g') /\ inv m' p /\ ip_svc g' = ip_svc g /\
  match handle_entry (handles_of p) h with
  | Some e =>
      match target e with
      | Some (c, msg :: q) =>
          let n := Z.min max_len (data_len msg) in
          (forall o id, chan (ip_reg g') o id =
             if decide ((o, id) = (target_pid e, target_endpoint_id e)) then Some (c, q)
             else chan (ip_reg g) o id) /\
          if decide (accepts m p tag_out 4) then
            if decide (accepts m p data_out n) then r = n /\ delivered m m' p msg tag_out data_out n
            else r = -14 /\ delivered m m' p msg tag_out 0 0
          else r = -14 /\ m' = m
      | Some (c, []) => r = 0 /\ m' = m /\ forall o id, chan (ip_reg g') o id = chan (ip_reg g) o id
      | None => r < 0 /\ m' = m /\ forall o id, chan (ip_reg g') o id = chan (ip_reg g) o id
      end
  | None => r < 0 /\ m' = m /\ forall o id, chan (ip_reg g') o id = chan (ip_reg g) o id
  end.
Proof.
  intros Hr Hi Ht Hd Hm. pose proof (sys_ipc_recv_cases m g p h tag_out data_out max_len Hr) as Hs.
  destruct (sys_ipc_recv m g p h tag_out data_out max_len) as [[[r m'] g'] p']. cbn zeta in *.
  destruct Hs as (Hr' & Hsvc & [(Hneg & -> & Hnone & Hsame)|[(e & c & He & Hc & -> & -> & Hsame)|
    (e & c & msg & q & He & Hc & Hok & Hdel & Hq & Hoth)]]).
  - split_and!; [done..|]. destruct (handle_entry _ _) as [e|]; [|done]. by rewrite Hnone.
  - split_and!; [done..|]. by rewrite He, Hc.
  - pose proof (deliver_spec m p msg tag_out data_out max_len Hi Hok Ht Hd Hm) as Hdd. cbn zeta in Hdd.
    rewrite <- Hdel in Hdd. destruct Hdd as [Hi' Hdd]. split_and!; [done..|]. rewrite He, Hc. split; [|exact Hdd].
    clear Hdd. intros o id. case_decide as Hx; [by injection Hx as -> ->|by apply Hoth].
Qed.

Lemma sys_ipc_recv_correct_witness : let '(r, m', g', p') := demo_received in
  r = 3 /\ copy_from_user m' demo_ipc.2 0x400100 3 = Some [1; 2; 3] /\ copy_from_user m' demo_ipc.2 0x400200 4 = Some [7; 0; 0; 0] /\
  chan (ip_reg g') (pid demo_page.2) 0 = Some (false, []).
Proof.
  pose proof (sys_ipc_recv_correct demo_mem demo_posted.1.2 demo_posted.2 0 0x400200 0x400100 16 demo_posted_ok
    demo_posted_inv ltac:(lia) ltac:(lia) ltac:(lia)) as Hs.
  assert (Hc : chan (ip_reg demo_posted.1.2) (pid demo_page.2) 0 =
    Some (false, [IpcMessage (u32 (pid demo_ipc.2)) 7 3 [1; 2; 3]])) by (vm_compute; reflexivity).
  assert (He : handle_entry (handles_of demo_posted.2) 0 = Some (HandleEntry (pid demo_page.2) 0 1))
    by (vm_compute; reflexivity).
  assert (Ht : accepts demo_mem demo_posted.2 0x400200 4) by (right; right; vm_compute; reflexivity).
  assert (Hd : accepts demo_mem demo_posted.2 0x400100 3) by (right; right; vm_compute; reflexivity).
  assert (Hp : demo_posted.2 = demo_ipc.2) by (vm_compute; reflexivity).
  fold demo_received in Hs. destruct demo_received as [[[r m'] g'] p']. cbn zeta in Hs.
  destruct Hs as (_ & _ & _ & Hs). rewrite He in Hs. cbn [target_pid target_endpoint_id] in Hs.
  rewrite Hc in Hs. cbn [data_len tag data] in Hs. change (Z.min 16 3) with 3 in Hs.
  rewrite (decide_True _ _ Ht), (decide_True _ _ Hd), Hp in Hs. destruct Hs as (Hq & -> & [D1 D2 _]).
  split; [reflexivity|]. split; [apply D1; lia|]. split; [apply D2; [lia|right; right; right; lia]|].
  rewrite Hq. by rewrite decide_True.
Defined.

(** The life of an endpoint.  Creation fails without effect or takes the
  lowest free handle and opens an empty endpoint named (caller, handle);
  connecting succeeds only to an open endpoint and changes none; closing frees
  the handle and closes the endpoint exactly when the caller owns it; when a
  process ends, none of its endpoints is reachable any more, every other
  endpoint is untouched and exactly its endpoint objects are freed. *)
Theorem ipc_endpoint_lifecycle `{KH : KernelHeap Hp}
    `{CH : CloseHook Sv} (g : @ipc Hp Sv) p h tp id :
  reg_ok (ip_reg g) -> length (handles_of p) = 64%nat ->
  (let '(r, g', p') := sys_ipc_endpoint_create g p in
   reg_ok (ip_reg g') /\
   ((r = - VE_NOMEM /\ handles_of p' = handles_of p /\ ip_reg g' = ip_reg g) \/
    (exists i, r = Z.of_nat i /\ find_free_handle (handles_of p) = Some i /\
      handles_of p' = <[i := HandleEntry (pid p) r IPC_HANDLE_ALLOCATED]> (handles_of p) /\
      (chan (ip_reg g) (pid p) r = None -> chan (ip_reg g') (pid p) r = Some (false, [])) /\
      forall o id, (o, id) <> (pid p, r) -> chan (ip_reg g') o id = chan (ip_reg g) o id))) /\
  (let '(r, g', p') := sys_ipc_connect g p tp id in
   ip_reg g' = ip_reg g /\
   ((r < 0 /\ handles_of p' = handles_of p) \/
    (exists i q, r = Z.of_nat i /\ chan (ip_reg g) tp id = Some (false, q) /\
      find_free_handle (handles_of p) = Some i /\
      handles_of p' = <[i := HandleEntry tp id IPC_HANDLE_ALLOCATED]> (handles_of p)))) /\
  (let '(r, g', p') := sys_ipc_close g p h in
   reg_ok (ip_reg g') /\
   match handle_entry (handles_of p) h with
   | None => r < 0 /\ handles_of p' = handles_of p /\ ip_reg g' = ip_reg g
   | Some e => r = 0 /\ handle_entry (handles_of p') h = None /\
      (forall h', h' <> h -> handle_entry (handles_of p') h' = handle_entry (handles_of p) h') /\
      (forall o id, chan (ip_reg g') o id =
         if decide ((o, id) = (target_pid e, target_endpoint_id e) /\ o = pid p)
         then (fun ch => (true, snd ch)) <$> chan (ip_reg g) o id else chan (ip_reg g) o id)
   end) /\
  (let g' := ipc_endpoint_unregister_by_owner g tp in
   reg_ok (ip_reg g') /\ ip_heap g' = foldl kfree (ip_heap g) (owned_addrs tp (ip_reg g)) /\
   forall o id, chan (ip_reg g') o id = if decide (o = tp) then None else chan (ip_reg g) o id).
Proof.
  intros Hr Hl. split_and!.
  - pose proof (endpoint_create_cases g p Hr) as Hc.
    destruct (sys_ipc_endpoint_create g p) as [[r g'] p'].
    destruct Hc as (? & _ & _ & [?|(i & ? & ? & ? & ? & _ & ?)]); (split; [done|]); [by left|right; by exists i].
  - pose proof (connect_cases g p tp id Hr) as Hc.
    destruct (sys_ipc_connect g p tp id) as [[r g'] p']. by destruct Hc as (? & _ & _ & ? & _).
  - pose proof (endpoint_close_cases g p h Hr Hl) as Hc.
    destruct (sys_ipc_close g p h) as [[r g'] p'].
    destruct Hc as (? & _ & [(? & -> & ? & ? & _)|(e & -> & -> & ? & ? & ? & _)]); done.
  - destruct (unregister_spec g tp Hr) as (? & _ & ? & ?). done.
Qed.

Lemma ipc_endpoint_lifecycle_witness :
  chan (ip_reg (ipc_endpoint_unregister_by_owner demo_ipc.1.2 (pid demo_page.2))) (pid demo_page.2) 0 = None.
Proof.
  assert (Hl : length (handles_of demo_ipc.2) = 64%nat) by (vm_compute; reflexivity).
  destruct (ipc_endpoint_lifecycle demo_ipc.1.2 demo_ipc.2 0 (pid demo_page.2) 0 demo_reg_ok Hl)
    as (_ & _ & _ & H). cbn zeta in H. destruct H as (_ & _ & H). rewrite H. by rewrite decide_True.
Defined.

(** A closed endpoint keeps its name: when its handle number is used again, the
  name still leads to the closed endpoint, and the new one cannot be reached. *)
Example closed_name_reused :
  let '(_, g, p) := sys_ipc_close demo_ipc.1.2 demo_ipc.2 0 in
  let '(h, g, p) := sys_ipc_endpoint_create g p in
  h = 0 /\ (sys_ipc_send (ms_mem demo_page.1.2) g p 0 7 0 0).1.1 = - VE_BADF.
Proof. vm_compute. by split. Qed.
