(* ===== verification/Svc.v ===== *)
(** * The service registry ([kernel/svc/svc.c], [svc.h], [svc_internal.h])

  A directory from names to endpoints (owner pid, endpoint id).  The array is
  the list of its first [svc_count] entries; a name is its 32 bytes.  A name
  argument is [None] for NULL and otherwise the 32 bytes that the code would read
  at the user pointer: the source reads them directly, without a range check, so
  the model covers the calls in which those reads do not fault. *)
From S2P Require Import Prelude Pmm PhysMem Vmm ProcData UserMem AddrSpace UserOps Teardown Uaccess Interfaces Ipc.

Definition SVC_NAME_LEN : Z := 32.
Definition SVC_MAX_SERVICES : Z := 64.
Definition SVC_E_FAULT : Z := -14.
Definition SVC_E_NAMELEN : Z := -22.
Definition SVC_E_NAME : Z := -2.
Definition SVC_E_CONFLICT : Z := -1.
Definition SVC_E_FULL : Z := -12.
Definition SVC_E_BADF : Z := -9.
Definition SVC_E_NOMEM : Z := -12.

Record svc_entry_t := SvcEntry { name : list Z; s_owner_pid : Z; s_endpoint_id : Z }.

Definition set_name (e : svc_entry_t) (n : list Z) : svc_entry_t :=
  SvcEntry n (s_owner_pid e) (s_endpoint_id e).

Notation svc := (list svc_entry_t).

(** ** Helpers *)

(** [while (len < n && name[len]) len++;] *)
Fixpoint name_len (n : nat) (nm : list Z) : Z :=
  match n with
  | O => 0
  | S n => if hd 0 nm =? 0 then 0 else 1 + name_len n (tl nm)
  end.

Definition svc_validate_name (nm : option (list Z)) : Z :=
  match nm with
  | None => SVC_E_FAULT
  | Some nm =>
      let len := name_len 32 nm in
      if len =? 0 then SVC_E_NAMELEN
      else if SVC_NAME_LEN <=? len then SVC_E_NAMELEN
      else len
  end.

Definition entry_free (e : svc_entry_t) : bool := zget 0 (name e) 0 =? 0.

(** The comparison loop of [svc_find_name]. *)
Fixpoint name_eq (n : nat) (a b : list Z) : bool :=
  match n with
  | O => true
  | S n =>
      if negb (hd 0 a =? hd 0 b) then false
      else if hd 0 b =? 0 then true
      else name_eq n (tl a) (tl b)
  end.

Definition svc_find_name (r : svc) (nm : list Z) : option nat :=
  first_index (fun e => if entry_free e then false else name_eq 32 (name e) nm) r.

Definition svc_entry_zero : svc_entry_t := SvcEntry (replicate 32 0) 0 0.

(** The slot found and the registry after a possible increment of [svc_count]. *)
Definition svc_free_slot (r : svc) : option nat * svc :=
  match first_index entry_free r with
  | Some i => (Some i, r)
  | None =>
      if SVC_MAX_SERVICES <=? Z.of_nat (length r) then (None, r)
      else (Some (length r), r ++ [svc_entry_zero])
  end.

(** The copy loop of [sys_sr_register]: bytes after the terminator stay. *)
Fixpoint copy_name (n : nat) (old new : list Z) : list Z :=
  match n with
  | O => old
  | S n => hd 0 new :: (if hd 0 new =? 0 then tl old else copy_name n (tl old) (tl new))
  end.

(** [e->name[0] = '\0'] *)
Definition clear_name (r : svc) (i : nat) : svc :=
  alter (fun e => set_name e (zset (name e) 0 0)) i r.

(** ** Hooks called by IPC and by process exit *)

Definition names_endpoint (o id : Z) (e : svc_entry_t) : bool :=
  if entry_free e then false else (s_owner_pid e =? o) && (s_endpoint_id e =? id).

(** [svc_on_endpoint_close]: only the first name of the endpoint is dropped. *)
Definition drop_closed (r : svc) (o id : Z) : svc :=
  match first_index (names_endpoint o id) r with
  | Some i => clear_name r i
  | None => r
  end.

#[export] Instance svc_close_hook : CloseHook svc := {| svc_on_endpoint_close := drop_closed |}.

Definition svc_cleanup_owner (r : svc) (o : Z) : svc :=
  foldl (fun r i => match r !! i with
                    | Some e => if s_owner_pid e =? o then clear_name r i else r
                    | None => r
                    end) r (seq 0 (length r)).

(** ** System calls *)

Definition svc_check_endpoint (reg : registry) (p : process_t) (handle : Z) : bool :=
  if (handle <? 0) || (IPC_MAX_HANDLES <=? handle) then false
  else
    match ipc_handles p with
    | None => false
    | Some (_, hs) =>
        let he := zget handle_zero hs handle in
        if negb (handle_allocated he) then false
        else if negb (target_pid he =? pid p) then false
        else
          match ipc_endpoint_lookup reg (pid p) (target_endpoint_id he) with
          | Some i => match deref reg i with Some ep => owner_pid ep =? pid p | None => false end
          | None => false
          end
    end.

(** [p->ipc_handles->handles[handle].target_endpoint_id] *)
Definition handle_endpoint_id (p : process_t) (handle : Z) : Z :=
  match ipc_handles p with
  | Some (_, hs) => target_endpoint_id (zget handle_zero hs handle)
  | None => 0
  end.

Definition sys_sr_register (reg : registry) (r : svc) (p : process_t) (nm : option (list Z)) (handle : Z)
    : Z * svc :=
  let nlen := svc_validate_name nm in
  let nm := default [] nm in
  if nlen <? 0 then (nlen, r)
  else if negb (svc_check_endpoint reg p handle) then (SVC_E_BADF, r)
  else if svc_find_name r nm then (SVC_E_CONFLICT, r)
  else
    let '(slot, r) := svc_free_slot r in
    match slot with
    | None => (SVC_E_FULL, r)
    | Some i =>
        (0, alter (fun e => SvcEntry (copy_name 32 (name e) nm) (pid p) (handle_endpoint_id p handle)) i r)
    end.

Definition sys_sr_unregister (reg : registry) (r : svc) (p : process_t) (nm : option (list Z)) (handle : Z)
    : Z * svc :=
  let nlen := svc_validate_name nm in
  let nm := default [] nm in
  if nlen <? 0 then (nlen, r)
  else if negb (svc_check_endpoint reg p handle) then (SVC_E_BADF, r)
  else
    match svc_find_name r nm with
    | None => (SVC_E_NAME, r)
    | Some i =>
        match r !! i with
        | None => (SVC_E_NAME, r)
        | Some e => if negb (s_owner_pid e =? pid p) then (SVC_E_CONFLICT, r) else (0, clear_name r i)
        end
    end.

Section Lookup.
Context {H : Type} `{KH : KernelHeap H}.

Definition sys_sr_lookup (g : @ipc H svc) (p : process_t) (nm : option (list Z))
    : Z * @ipc H svc * process_t :=
  let nlen := svc_validate_name nm in
  let nm := default [] nm in
  if nlen <? 0 then (nlen, g, p)
  else
    match svc_find_name (ip_svc g) nm with
    | None => (SVC_E_NAME, g, p)
    | Some i =>
        match ip_svc g !! i with
        | None => (SVC_E_NAME, g, p)
        | Some e =>
            let '(t, g, p) := ensure_table g p in
            match t with
            | None => (SVC_E_NOMEM, g, p)
            | Some (ta, hs) =>
                match find_free_handle hs with
                | None => (SVC_E_NOMEM, g, p)
                | Some handle =>
                    (Z.of_nat handle, g, set_handles p (Some (ta,
                       <[handle := HandleEntry (s_owner_pid e) (s_endpoint_id e) IPC_HANDLE_ALLOCATED]> hs)))
                end
            end
        end
    end.
End Lookup.

(** ** The registry as a directory *)

(** The C string of a buffer of at most [n] bytes. *)
Fixpoint cstr (n : nat) (l : list Z) : list Z :=
  match n with
  | O => []
  | S n => if hd 0 l =? 0 then [] else hd 0 l :: cstr n (tl l)
  end.

Lemma name_len_cstr n l : name_len n l = Z.of_nat (length (cstr n l)).
Proof.
  revert l. induction n as [|n IH]; intros l; cbn [name_len cstr]; [done|].
  case_if; [done|]. rewrite IH. cbn [length]. lia.
Qed.

Lemma cstr_length n l : (length (cstr n l) <= n)%nat.
Proof.
  revert l. induction n as [|n IH]; intros l; cbn [cstr]; [done|]. case_if; cbn [length]; [lia|].
  specialize (IH (tl l)). lia.
Qed.

(** Comparison is equality of the strings, when the second one is terminated. *)
Lemma name_eq_cstr n a b : name_eq n a b = true <-> cstr n a = cstr n b.
Proof.
  revert a b. induction n as [|n IH]; intros a b; cbn [name_eq cstr]; [done|].
  destruct (Z.eqb_spec (hd 0 a) (hd 0 b)) as [E|E]; cbn [negb].
  - rewrite E. destruct (Z.eqb_spec (hd 0 b) 0); [done|]. rewrite IH. split; congruence.
  - split; [done|]. destruct (Z.eqb_spec (hd 0 a) 0), (Z.eqb_spec (hd 0 b) 0); congruence.
Qed.

Lemma copy_name_cstr n old new : cstr n (copy_name n old new) = cstr n new.
Proof.
  revert old new. induction n as [|n IH]; intros old new; cbn [copy_name cstr]; [done|]. cbn [hd tl].
  case_if; [done|]. by rewrite IH.
Qed.

Lemma length_copy_name n : forall old new, length old = n -> length (copy_name n old new) = n.
Proof.
  induction n as [|n IH]; intros old new Hl; [done|]. cbn [copy_name length]. destruct old as [|o old]; [done|].
  injection Hl as Hl. case_if; cbn [tl]; [by rewrite Hl|]. by rewrite IH.
Qed.

Definition entry_str (e : svc_entry_t) : list Z := cstr 32 (name e).
#[global] Arguments entry_str : simpl never.

Lemma entry_free_str e : entry_free e = true <-> entry_str e = [].
Proof.
  unfold entry_free, entry_str. cbn [cstr]. replace (hd 0 (name e)) with (zget 0 (name e) 0) by by destruct (name e).
  by destruct (zget 0 (name e) 0 =? 0).
Qed.

(** The string of a name argument, when it is usable: 1 to 31 bytes. *)
Definition good_name (nm : option (list Z)) : option (list Z) :=
  match nm with
  | Some l => let s := cstr 32 l in
              if (1 <=? Z.of_nat (length s)) && (Z.of_nat (length s) <=? 31) then Some s else None
  | None => None
  end.

Lemma validate_name_spec nm : match good_name nm with
  | Some s => 0 <= svc_validate_name nm /\ cstr 32 (default [] nm) = s /\ s <> []
  | None => svc_validate_name nm < 0
  end.
Proof.
  unfold svc_validate_name, good_name. destruct nm as [l|]; cbn [default from_option id]; [|done].
  rewrite name_len_cstr. unfold SVC_E_NAMELEN, SVC_NAME_LEN. destruct (_ && _) eqn:E.
  - bool_to_prop. case_if; bool_to_prop; [lia|]. case_if; bool_to_prop; [lia|]. split_and!; [lia|done|].
    intros He. rewrite He in *. cbn in *. lia.
  - case_if; [done|]. case_if; [done|]. bool_to_prop. apply andb_false_iff in E as [E|E]; bool_to_prop; lia.
Qed.

Record svc_ok (r : svc) : Prop := {
  so_len : Z.of_nat (length r) <= SVC_MAX_SERVICES;
  so_name : forall e, e ∈ r -> length (name e) = 32%nat;
  so_unique : forall i j e e', r !! i = Some e -> r !! j = Some e' -> entry_str e = entry_str e' ->
    entry_str e <> [] -> i = j
}.

(** The endpoint a name denotes. *)
Definition dir (r : svc) (s : list Z) : option (Z * Z) :=
  match first_index (fun e => bool_decide (entry_str e = s)) r with
  | Some i => (fun e => (s_owner_pid e, s_endpoint_id e)) <$> r !! i
  | None => None
  end.

Lemma dir_Some r s x : svc_ok r -> s <> [] ->
  dir r s = Some x <-> exists i e, r !! i = Some e /\ entry_str e = s /\ x = (s_owner_pid e, s_endpoint_id e).
Proof.
  intros Ho Hs. unfold dir. destruct (first_index _ r) as [i|] eqn:E.
  - apply first_index_Some in E as (e & He & Hm & _). apply bool_decide_eq_true in Hm. rewrite He. cbn. split.
    + intros [= <-]. by exists i, e.
    + intros (j & e' & He' & Hm' & ->). assert (i = j) as <-; [|by simplify_eq].
      eapply (so_unique _ Ho); [done..|congruence|congruence].
  - split; [done|]. intros (i & e & He & Hm & _). rewrite first_index_None in E.
    specialize (E e ltac:(by eapply list_elem_of_lookup_2)). by apply bool_decide_eq_false in E.
Qed.

Lemma dir_None r s : dir r s = None <-> forall e, e ∈ r -> entry_str e <> s.
Proof.
  unfold dir. destruct (first_index _ r) as [i|] eqn:E.
  - apply first_index_Some in E as (e & He & Hm & _). apply bool_decide_eq_true in Hm. rewrite He.
    split; [done|]. intros H. destruct (H e); [by eapply list_elem_of_lookup_2|done].
  - rewrite first_index_None in E. split; [|done]. intros _ e He.
    specialize (E e He). by apply bool_decide_eq_false in E.
Qed.

Lemma find_name_dir r nm : cstr 32 nm <> [] ->
  svc_find_name r nm = first_index (fun e => bool_decide (entry_str e = cstr 32 nm)) r.
Proof.
  intros Hs. apply first_index_ext. intros e _. destruct (entry_free e) eqn:Ef.
  - apply entry_free_str in Ef. rewrite Ef. by rewrite bool_decide_eq_false_2.
  - destruct (name_eq 32 (name e) nm) eqn:E; [apply name_eq_cstr in E; by rewrite bool_decide_eq_true_2|].
    rewrite bool_decide_eq_false_2; [done|]. intros He. apply name_eq_cstr in He. congruence.
Qed.

Lemma find_name_Some r nm i : svc_ok r -> cstr 32 nm <> [] -> svc_find_name r nm = Some i ->
  exists e, r !! i = Some e /\ entry_str e = cstr 32 nm /\
    dir r (cstr 32 nm) = Some (s_owner_pid e, s_endpoint_id e).
Proof.
  intros Ho Hs Hf. rewrite find_name_dir in Hf by done. unfold dir. rewrite Hf.
  apply first_index_Some in Hf as (e & He & Hm & _). apply bool_decide_eq_true in Hm. exists e. by rewrite He.
Qed.

Lemma find_name_None r nm : cstr 32 nm <> [] -> svc_find_name r nm = None <-> dir r (cstr 32 nm) = None.
Proof. intros Hs. rewrite find_name_dir, dir_None, first_index_None by done. setoid_rewrite bool_decide_eq_false. done. Qed.

(** Changing one entry. *)
Lemma dir_alter r i e f : svc_ok r -> r !! i = Some e -> length (name (f e)) = 32%nat ->
  (entry_str (f e) = [] \/ dir r (entry_str (f e)) = None) ->
  svc_ok (alter f i r) /\
  forall s, s <> [] -> dir (alter f i r) s =
    if decide (s = entry_str (f e)) then Some (s_owner_pid (f e), s_endpoint_id (f e))
    else if decide (s = entry_str e) then None else dir r s.
Proof.
  intros Ho He Hl Hnew.
  assert (Hlk : forall j e1, alter f i r !! j = Some e1 <-> (j = i /\ e1 = f e) \/ (j <> i /\ r !! j = Some e1)).
  { intros j e1. destruct (decide (i = j)) as [<-|Hne].
    - rewrite list_lookup_alter_eq, He. cbn. naive_solver.
    - rewrite list_lookup_alter_ne by done. naive_solver. }
  assert (Hfresh : forall j e1, r !! j = Some e1 -> entry_str e1 = entry_str (f e) -> entry_str e1 = []).
  { intros j e1 He1 Heq. destruct Hnew as [Hn|Hn]; [congruence|]. rewrite dir_None in Hn.
    by destruct (Hn e1); [eapply list_elem_of_lookup_2|]. }
  assert (Ho' : svc_ok (alter f i r)).
  { split.
    - rewrite length_alter. apply Ho.
    - intros e1 [j Hj]%list_elem_of_lookup. apply Hlk in Hj as [[_ ->]|[_ Hj]]; [done|].
      by apply (so_name _ Ho), list_elem_of_lookup_2 with j.
    - intros j k e1 e2 Hj Hk Heq Hne. apply Hlk in Hj as [[-> ->]|[Hji Hj]]; apply Hlk in Hk as [[-> ->]|[Hki Hk]];
        [done| | |by eapply (so_unique _ Ho)].
      + specialize (Hfresh k e2 Hk ltac:(congruence)). congruence.
      + specialize (Hfresh j e1 Hj ltac:(congruence)). congruence. }
  split; [done|]. intros s Hs. apply option_eq. intros x. rewrite dir_Some by done. setoid_rewrite Hlk.
  case_decide as H1; [|case_decide as H2].
  - split.
    + intros (j & e1 & [[-> ->]|[Hj He1]] & Hstr & ->); [done|]. specialize (Hfresh j e1 He1 ltac:(congruence)). congruence.
    + intros [= <-]. exists i, (f e). split_and!; [by left|done|done].
  - split; [|done]. intros (j & e1 & [[-> ->]|[Hj He1]] & Hstr & ->); [congruence|].
    destruct Hj. eapply (so_unique _ Ho); [done..|congruence|congruence].
  - rewrite dir_Some by done. split.
    + intros (j & e1 & [[-> ->]|[Hj He1]] & Hstr & ->); [congruence|]. by exists j, e1.
    + intros (j & e1 & He1 & Hstr & ->). exists j, e1. split_and!; [|done|done]. right. split; [|done].
      intros ->. congruence.
Qed.

Lemma cleared_str e : length (name e) = 32%nat -> entry_str (set_name e (zset (name e) 0 0)) = [].
Proof. intros Hl. unfold entry_str. cbn [name set_name]. destruct (name e) as [|b l]; [done|]. done. Qed.

Lemma clear_name_spec r i e : svc_ok r -> r !! i = Some e ->
  svc_ok (clear_name r i) /\
  forall s, s <> [] -> dir (clear_name r i) s = if decide (s = entry_str e) then None else dir r s.
Proof.
  intros Ho He. assert (Hl : length (name e) = 32%nat) by (apply (so_name _ Ho); by eapply list_elem_of_lookup_2).
  destruct (dir_alter r i e (fun e => set_name e (zset (name e) 0 0)) Ho He) as [Ho' Hd].
  - cbn [name set_name]. by rewrite length_zset.
  - left. by apply cleared_str.
  - split; [done|]. intros s Hs. unfold clear_name. rewrite Hd, cleared_str by done. by rewrite decide_False.
Qed.

Lemma zero_str : entry_str svc_entry_zero = [].
Proof. done. Qed.

Lemma free_slot_spec r : svc_ok r ->
  let '(slot, r') := svc_free_slot r in
  svc_ok r' /\ (forall s, s <> [] -> dir r' s = dir r s) /\
  match slot with
  | Some i => exists e, r' !! i = Some e /\ entry_str e = []
  | None => r' = r /\ length r = 64%nat /\ Forall (fun e => entry_str e <> []) r
  end.
Proof.
  intros Ho. unfold svc_free_slot. destruct (first_index entry_free r) as [i|] eqn:E.
  { apply first_index_Some in E as (e & He & Hf & _). split_and!; [done|done|]. exists e.
    by rewrite <- entry_free_str. }
  rewrite first_index_None in E. pose proof (so_len _ Ho). unfold SVC_MAX_SERVICES in *.
  destruct (Z.leb_spec 64 (Z.of_nat (length r))).
  { split_and!; [done|done|done|lia|]. apply Forall_forall. intros e He Hs. apply entry_free_str in Hs.
    by rewrite E in Hs. }
  assert (Hne : forall e j, (r ++ [svc_entry_zero]) !! j = Some e -> entry_str e <> [] -> r !! j = Some e).
  { intros e j [Hj|[_ Hj]]%lookup_app_Some Hs; [done|]. by apply list_lookup_singleton_Some in Hj as [_ <-]. }
  assert (Ho' : svc_ok (r ++ [svc_entry_zero])).
  { split.
    - rewrite length_app. cbn. unfold SVC_MAX_SERVICES. lia.
    - intros e [He| ->%list_elem_of_singleton]%elem_of_app; [by apply Ho|done].
    - intros i j e e' Hi Hj Heq Hs. eapply (so_unique _ Ho); [by apply Hne|apply Hne; [done|congruence]|done|done]. }
  split_and!; [done| |].
  - intros s Hs. apply option_eq. intros x. rewrite !dir_Some by done. split.
    + intros (j & e & Hj & Hstr & ->). exists j, e. split_and!; [|done|done]. apply Hne; [done|congruence].
    + intros (j & e & Hj & Hstr & ->). exists j, e. split_and!; [|done|done]. by apply lookup_app_l_Some.
  - exists svc_entry_zero. split; [by apply list_lookup_middle|done].
Qed.

(** ** The operations on the directory *)

Lemma check_endpoint_spec reg p h : reg_ok reg ->
  svc_check_endpoint reg p h = true <->
  exists e, handle_entry (handles_of p) h = Some e /\ target_pid e = pid p /\
    handle_endpoint_id p h = target_endpoint_id e /\ chan reg (pid p) (target_endpoint_id e) <> None.
Proof.
  intros Hr. unfold svc_check_endpoint, handles_of, handle_endpoint_id. destruct (ipc_handles p) as [[ta hs]|].
  2: { rewrite handle_entry_zero. split; [by case_if|]. by intros (e & ? & _). }
  unfold handle_entry. destruct (_ || _); [split; [done|by intros (e & ? & _)]|].
  set (he := zget handle_zero hs h). destruct (handle_allocated he); cbn [negb]; [|split; [done|by intros (e & ? & _)]].
  destruct (Z.eqb_spec (target_pid he) (pid p)) as [Hp|Hp]; cbn [negb].
  2: { split; [done|]. intros (e & [= <-] & ? & _). done. }
  destruct (ipc_endpoint_lookup reg (pid p) (target_endpoint_id he)) as [i|] eqn:El.
  - destruct (lookup_live _ _ _ _ Hr El) as (e0 & a & ep & _ & _ & _ & _ & Hd & _ & Ho & _).
    rewrite Hd, Ho, Z.eqb_refl. split; [|done]. intros _. exists he. split_and!; try done.
    rewrite chan_None by done. congruence.
  - split; [done|]. intros (e & [= <-] & _ & _ & Hc). destruct Hc. by apply chan_None.
Qed.

Lemma register_cases reg r p nm h : svc_ok r ->
  let '(st, r') := sys_sr_register reg r p nm h in
  svc_ok r' /\
  match good_name nm with
  | None => st < 0 /\ r' = r
  | Some s =>
      if negb (svc_check_endpoint reg p h) then st = SVC_E_BADF /\ r' = r
      else match dir r s with
           | Some _ => st = SVC_E_CONFLICT /\ r' = r
           | None =>
               (st = SVC_E_FULL /\ r' = r /\ length r = 64%nat /\ Forall (fun e => entry_str e <> []) r) \/
               (st = 0 /\ forall s', s' <> [] -> dir r' s' =
                  if decide (s' = s) then Some (pid p, handle_endpoint_id p h) else dir r s')
           end
  end.
Proof.
  intros Ho. unfold sys_sr_register. pose proof (validate_name_spec nm) as Hv.
  destruct (good_name nm) as [s|]; [|by rewrite (proj2 (Z.ltb_lt _ _) Hv)].
  destruct Hv as (Hv & Hc & Hs). rewrite (proj2 (Z.ltb_ge _ _) Hv).
  destruct (negb (svc_check_endpoint reg p h)); [done|]. set (l := default [] nm) in *.
  destruct (svc_find_name r l) as [i|] eqn:Ef.
  { rewrite <- Hc in Hs. apply find_name_Some in Ef as (e & _ & _ & Hd); [|done..]. by rewrite <- Hc, Hd. }
  rewrite find_name_None, Hc in Ef by (by rewrite Hc). rewrite Ef.
  pose proof (free_slot_spec r Ho) as Hf. destruct (svc_free_slot r) as [slot r1].
  destruct Hf as (Ho1 & Hd1 & Hf). destruct slot as [i|].
  2: { destruct Hf as (-> & ? & ?). split; [done|]. by left. }
  destruct Hf as (e & He & Hfree).
  assert (Hl : length (name e) = 32%nat) by (apply (so_name _ Ho1); by eapply list_elem_of_lookup_2).
  set (f := fun e => SvcEntry (copy_name 32 (name e) l) (pid p) (handle_endpoint_id p h)).
  assert (Hstr : entry_str (f e) = s) by (unfold entry_str, f; cbn [name]; by rewrite copy_name_cstr).
  destruct (dir_alter r1 i e f Ho1 He) as [Ho2 Hd2].
  - by apply length_copy_name.
  - right. rewrite Hstr, Hd1 by done. done.
  - split; [done|]. right. split; [done|]. intros s' Hs'. rewrite Hd2, Hstr, Hfree, Hd1 by done.
    case_decide; [done|]. by rewrite decide_False.
Qed.

Lemma unregister_cases reg r p nm h : svc_ok r ->
  let '(st, r') := sys_sr_unregister reg r p nm h in
  svc_ok r' /\
  match good_name nm with
  | None => st < 0 /\ r' = r
  | Some s =>
      if negb (svc_check_endpoint reg p h) then st = SVC_E_BADF /\ r' = r
      else match dir r s with
           | None => st = SVC_E_NAME /\ r' = r
           | Some (o, _) =>
               if o =? pid p
               then st = 0 /\ forall s', s' <> [] -> dir r' s' = if decide (s' = s) then None else dir r s'
               else st = SVC_E_CONFLICT /\ r' = r
           end
  end.
Proof.
  intros Ho. unfold sys_sr_unregister. pose proof (validate_name_spec nm) as Hv.
  destruct (good_name nm) as [s|]; [|by rewrite (proj2 (Z.ltb_lt _ _) Hv)].
  destruct Hv as (Hv & Hc & Hs). rewrite (proj2 (Z.ltb_ge _ _) Hv).
  destruct (negb (svc_check_endpoint reg p h)); [done|]. set (l := default [] nm) in *.
  destruct (svc_find_name r l) as [i|] eqn:Ef.
  2: { rewrite find_name_None, Hc in Ef by (by rewrite Hc). by rewrite Ef. }
  rewrite <- Hc in Hs. apply find_name_Some in Ef as (e & He & Hstr & Hd); [|done..].
  rewrite <- Hc, Hd, He. destruct (s_owner_pid e =? pid p); cbn [negb]; [|done].
  destruct (clear_name_spec r i e Ho He) as [Ho' Hd']. split; [done|]. split; [done|].
  intros s' Hs'. by rewrite Hd', Hstr.
Qed.

Lemma close_hook_spec r o id : svc_ok r ->
  let r' := svc_on_endpoint_close r o id in
  svc_ok r' /\
  ((forall s, s <> [] -> dir r s <> Some (o, id)) /\ r' = r \/
   exists s0, s0 <> [] /\ dir r s0 = Some (o, id) /\
     forall s, s <> [] -> dir r' s = if decide (s = s0) then None else dir r s).
Proof.
  intros Ho. cbn zeta. cbn [svc_on_endpoint_close svc_close_hook]. unfold drop_closed.
  destruct (first_index (names_endpoint o id) r) as [i|] eqn:E.
  - apply first_index_Some in E as (e & He & Hm & _). unfold names_endpoint in Hm.
    destruct (entry_free e) eqn:Ef; [done|]. bool_to_prop. subst o id.
    assert (Hs : entry_str e <> []) by (intros Hs; apply entry_free_str in Hs; congruence).
    destruct (clear_name_spec r i e Ho He) as [Ho' Hd']. split; [done|]. right. exists (entry_str e).
    split_and!; [done| |done]. apply dir_Some; [done..|]. by exists i, e.
  - split; [done|]. left. split; [|done]. intros s Hs Hd. apply dir_Some in Hd as (i & e & He & Hstr & [= -> ->]); [|done..].
    rewrite first_index_None in E. specialize (E e ltac:(by eapply list_elem_of_lookup_2)).
    unfold names_endpoint in E. rewrite !Z.eqb_refl in E. destruct (entry_free e) eqn:Ef; [|done].
    apply entry_free_str in Ef. congruence.
Qed.

Definition clear_owned (o : Z) (e : svc_entry_t) : svc_entry_t :=
  if s_owner_pid e =? o then set_name e (zset (name e) 0 0) else e.

Lemma cleanup_fmap r o : svc_cleanup_owner r o = clear_owned o <$> r.
Proof.
  unfold svc_cleanup_owner.
  assert (Hn : forall n, (n <= length r)%nat ->
    foldl (fun r i => match r !! i with
                      | Some e => if s_owner_pid e =? o then clear_name r i else r
                      | None => r
                      end) r (seq 0 n) = (clear_owned o <$> take n r) ++ drop n r).
  { induction n as [|n IH]; intros Hl; [done|]. rewrite seq_S, foldl_app, IH by lia. cbn [foldl Nat.add].
    destruct (lookup_lt_is_Some_2 r n) as [e He]; [lia|].
    assert (Hfl : length (clear_owned o <$> take n r) = n) by (rewrite length_fmap, length_take; lia).
    rewrite (take_S_r _ _ e), (drop_S _ e n) by done. rewrite (list_lookup_middle _ _ _ n) by done.
    rewrite fmap_app, <- app_assoc. cbn [fmap list_fmap app].
    assert (Hc : clear_owned o e = if s_owner_pid e =? o then set_name e (zset (name e) 0 0) else e) by done.
    rewrite Hc. destruct (s_owner_pid e =? o); [|done]. unfold clear_name.
    rewrite alter_app_r_alt, Hfl, Nat.sub_diag by lia. done. }
  rewrite Hn by done. by rewrite firstn_all, drop_all, app_nil_r.
Qed.

Lemma clear_owned_str o e : length (name e) = 32%nat ->
  entry_str (clear_owned o e) = if decide (s_owner_pid e = o) then [] else entry_str e.
Proof.
  intros Hl. unfold clear_owned. destruct (Z.eqb_spec (s_owner_pid e) o); [|by rewrite decide_False].
  rewrite decide_True by done. by apply cleared_str.
Qed.

Lemma cleanup_spec r o : svc_ok r ->
  let r' := svc_cleanup_owner r o in
  svc_ok r' /\
  forall s, s <> [] -> dir r' s =
    match dir r s with Some (o', id) => if decide (o' = o) then None else Some (o', id) | None => None end.
Proof.
  intros Ho. cbn zeta. rewrite cleanup_fmap.
  assert (Hlk : forall i e', (clear_owned o <$> r) !! i = Some e' -> entry_str e' <> [] -> r !! i = Some e' /\ s_owner_pid e' <> o).
  { intros i e' He' Hs. rewrite list_lookup_fmap in He'. destruct (r !! i) as [e|] eqn:E; [|done]. injection He' as <-.
    rewrite clear_owned_str in Hs by (apply (so_name _ Ho); by eapply list_elem_of_lookup_2).
    case_decide as Hd; [done|]. unfold clear_owned. rewrite (proj2 (Z.eqb_neq _ _) Hd). done. }
  assert (Ho' : svc_ok (clear_owned o <$> r)).
  { split.
    - rewrite length_fmap. apply Ho.
    - intros e (e0 & -> & He)%list_elem_of_fmap. unfold clear_owned. case_if; [|by apply Ho].
      cbn [name set_name]. rewrite length_zset. by apply Ho.
    - intros i j e e' Hi Hj Heq Hs. destruct (Hlk i e Hi Hs), (Hlk j e' Hj ltac:(congruence)).
      by eapply (so_unique _ Ho). }
  split; [done|]. intros s Hs. apply option_eq. intros x. rewrite dir_Some by done. split.
  - intros (i & e & He & Hstr & ->). destruct (Hlk i e He ltac:(congruence)) as [He' Hne].
    assert (Hd : dir r s = Some (s_owner_pid e, s_endpoint_id e)) by (apply dir_Some; [done..|]; by exists i, e).
    rewrite Hd. by rewrite decide_False.
  - destruct (dir r s) as [[o' id]|] eqn:Hd; [|done]. case_decide as Hne; [done|]. intros [= <-].
    apply dir_Some in Hd as (i & e & He & Hstr & [= -> ->]); [|done..]. exists i, e. split_and!; [|done|done].
    rewrite list_lookup_fmap, He. cbn. unfold clear_owned. by rewrite (proj2 (Z.eqb_neq _ _) Hne).
Qed.

(** ** The two registries together *)
Section World.
Context {M : Type} `{UA : UserAccess M process_t} {inv : M -> process_t -> Prop}.
Context `{UL : !UserAccessLaws M process_t inv} {H : Type} `{KH : KernelHeap H}.
Implicit Types (g : @ipc H svc) (p : process_t).

Lemma lookup_cases g p nm : svc_ok (ip_svc g) ->
  let '(r, g', p') := sys_sr_lookup g p nm in
  ip_reg g' = ip_reg g /\ ip_svc g' = ip_svc g /\
  match good_name nm with
  | None => r < 0 /\ handles_of p' = handles_of p
  | Some s =>
      match dir (ip_svc g) s with
      | None => r = SVC_E_NAME /\ handles_of p' = handles_of p
      | Some (o, id) =>
          (r = SVC_E_NOMEM /\ handles_of p' = handles_of p) \/
          (exists i, r = Z.of_nat i /\ find_free_handle (handles_of p) = Some i /\
             handles_of p' = <[i := HandleEntry o id IPC_HANDLE_ALLOCATED]> (handles_of p))
      end
  end.
Proof.
  intros Ho. unfold sys_sr_lookup. pose proof (validate_name_spec nm) as Hv.
  destruct (good_name nm) as [s|]; [|by rewrite (proj2 (Z.ltb_lt _ _) Hv)].
  destruct Hv as (Hv & Hc & Hs). rewrite (proj2 (Z.ltb_ge _ _) Hv). set (l := default [] nm) in *.
  destruct (svc_find_name (ip_svc g) l) as [i|] eqn:Ef.
  2: { rewrite find_name_None, Hc in Ef by (by rewrite Hc). by rewrite Ef. }
  rewrite <- Hc in Hs. apply find_name_Some in Ef as (e & He & Hstr & Hd); [|done..].
  rewrite <- Hc, Hd, He. pose proof (ensure_table_spec g p) as Ht.
  destruct (ensure_table g p) as [[t g1] p1]. destruct Ht as (Hreg & Hsvc & Ht).
  destruct t as [[ta hs]|].
  2: { destruct Ht as (Hn & Hn1 & _). split_and!; [done|done|]. left. unfold handles_of. by rewrite Hn, Hn1. }
  destruct Ht as (Hhs & Ht1 & _ & _).
  assert (Hh1 : handles_of p1 = handles_of p) by (unfold handles_of at 1; by rewrite Ht1).
  destruct (find_free_handle hs) as [j|] eqn:Ej; (split_and!; [done|done|]); [|by left].
  right. exists j. rewrite Hhs. by split_and!.
Qed.

(** What a process's end does to the two registries. *)
Definition owner_gone (g : @ipc H svc) (o : Z) : @ipc H svc :=
  let g := ipc_endpoint_unregister_by_owner g o in with_svc g (svc_cleanup_owner (ip_svc g) o).

(** Every state the two components can reach, whoever calls. *)
Inductive world_run : @ipc H svc -> Prop :=
  | wr_boot h : world_run (Ipc [] h [])
  | wr_create g p : world_run g -> world_run (sys_ipc_endpoint_create g p).1.2
  | wr_connect g p tp id : world_run g -> world_run (sys_ipc_connect g p tp id).1.2
  | wr_close g p h : world_run g -> length (handles_of p) = 64%nat -> world_run (sys_ipc_close g p h).1.2
  | wr_send g m p h tg dat len : world_run g -> inv m p -> 0 <= dat < 2 ^ 64 -> 0 <= len < 2 ^ 32 ->
      0 <= tg < 2 ^ 32 -> world_run (sys_ipc_send m g p h tg dat len).1.2
  | wr_recv g m p h t d n : world_run g -> world_run (sys_ipc_recv m g p h t d n).1.2
  | wr_register g p nm h : world_run g -> world_run (with_svc g (sys_sr_register (ip_reg g) (ip_svc g) p nm h).2)
  | wr_unregister g p nm h : world_run g ->
      world_run (with_svc g (sys_sr_unregister (ip_reg g) (ip_svc g) p nm h).2)
  | wr_lookup g p nm : world_run g -> world_run (sys_sr_lookup g p nm).1.2
  | wr_exit g o : world_run g -> world_run (owner_gone g o).

(** Names lead to endpoints that exist. *)
Definition names_live g : Prop :=
  forall s o id, s <> [] -> dir (ip_svc g) s = Some (o, id) -> chan (ip_reg g) o id <> None.

Definition world_ok g : Prop := reg_ok (ip_reg g) /\ svc_ok (ip_svc g) /\ names_live g.

Lemma names_live_ext g g' :
  (forall o id, chan (ip_reg g) o id <> None -> chan (ip_reg g') o id <> None) ->
  (forall s x, s <> [] -> dir (ip_svc g') s = Some x -> dir (ip_svc g) s = Some x) ->
  names_live g -> names_live g'.
Proof. intros Hc Hd Hl s o id Hs Hx. by eapply Hc, Hl, Hd. Qed.

Lemma world_create g p : world_ok g -> world_ok (sys_ipc_endpoint_create g p).1.2.
Proof.
  intros (Hr & Hs & Hl). pose proof (endpoint_create_cases g p Hr) as Hc.
  destruct (sys_ipc_endpoint_create g p) as [[r g'] p']. cbn [fst snd].
  destruct Hc as (Hr' & Hsv & _ & Hc). split; [done|]. split; [by rewrite Hsv|].
  eapply names_live_ext; [| |done]; [|intros s x _; by rewrite Hsv]. intros o id Ho.
  destruct Hc as [(_ & _ & ->)|(i & -> & _ & _ & _ & Hn & Hoth)]; [done|].
  destruct (decide ((o, id) = (pid p, Z.of_nat i))) as [[= -> ->]|Hne]; [done|by rewrite Hoth].
Qed.

Lemma world_close g p h : world_ok g -> length (handles_of p) = 64%nat -> world_ok (sys_ipc_close g p h).1.2.
Proof.
  intros (Hr & Hs & Hl) Hlen. pose proof (endpoint_close_cases g p h Hr Hlen) as Hc.
  destruct (sys_ipc_close g p h) as [[r g'] p']. cbn [fst snd].
  destruct Hc as (Hr' & _ & [(_ & _ & _ & Hreg & Hsv)|(e & _ & _ & _ & _ & Hch & Hsv)]).
  { unfold world_ok, names_live. by rewrite Hreg, Hsv. }
  assert (Hkeep : forall o id, chan (ip_reg g) o id <> None -> chan (ip_reg g') o id <> None).
  { intros o id Ho. rewrite Hch. destruct (decide (_ /\ o = _)); [|done]. by destruct (chan (ip_reg g) o id). }
  clear Hch. case_decide as Hd.
  - destruct (close_hook_spec (ip_svc g) (pid p) (target_endpoint_id e) Hs) as [Ho' Hcase]. rewrite <- Hsv in *.
    split; [done|]. split; [done|]. eapply names_live_ext; [done| |done]. intros s x Hs0 Hx.
    destruct Hcase as [[_ Hsame]|(s0 & _ & _ & Hd0)]; [by rewrite Hsame in Hx|].
    rewrite Hd0 in Hx by done. by case_decide.
  - split; [done|]. split; [by rewrite Hsv|]. eapply names_live_ext; [done| |done]. intros s x _. by rewrite Hsv.
Qed.

Lemma world_send g m p h tg dat len : world_ok g -> inv m p -> 0 <= dat < 2 ^ 64 -> 0 <= len < 2 ^ 32 ->
  0 <= tg < 2 ^ 32 -> world_ok (sys_ipc_send m g p h tg dat len).1.2.
Proof.
  intros (Hr & Hs & Hl) Hi Hd Hlen Ht. pose proof (sys_ipc_send_cases m g p h tg dat len Hr Hi Hd Hlen Ht) as Hc.
  destruct (sys_ipc_send m g p h tg dat len) as [[r g'] p']. cbn [fst snd].
  destruct Hc as (Hr' & Hsv & Hc). split; [done|]. split; [by rewrite Hsv|].
  eapply names_live_ext; [| |done]; [|intros s x _; by rewrite Hsv]. intros o id Ho.
  destruct Hc as [(_ & _ & ->)|(e & bs & q & _ & _ & Hc & Hoth)]; [done|].
  destruct (decide ((o, id) = (target_pid e, target_endpoint_id e))) as [[= -> ->]|Hne]; [congruence|by rewrite Hoth].
Qed.

Lemma world_recv g m p h t d n : world_ok g -> world_ok (sys_ipc_recv m g p h t d n).1.2.
Proof.
  intros (Hr & Hs & Hl). pose proof (sys_ipc_recv_cases m g p h t d n Hr) as Hc.
  destruct (sys_ipc_recv m g p h t d n) as [[[r m'] g'] p']. cbn [fst snd]. cbn zeta in Hc.
  destruct Hc as (Hr' & Hsv & Hc). split; [done|]. split; [by rewrite Hsv|].
  eapply names_live_ext; [| |done]; [|intros s x _; by rewrite Hsv]. intros o id Ho.
  destruct Hc as [(_ & _ & _ & ->)|[(e & c & _ & _ & _ & _ & ->)|(e & c & msg & q & _ & _ & _ & _ & Hc & Hoth)]];
    [done|done|].
  destruct (decide ((o, id) = (target_pid e, target_endpoint_id e))) as [[= -> ->]|Hne]; [congruence|by rewrite Hoth].
Qed.

Lemma world_register g p nm h : world_ok g ->
  world_ok (with_svc g (sys_sr_register (ip_reg g) (ip_svc g) p nm h).2).
Proof.
  intros (Hr & Hs & Hl). pose proof (register_cases (ip_reg g) (ip_svc g) p nm h Hs) as Hc.
  destruct (sys_sr_register _ _ _ _ _) as [st r']. destruct Hc as (Ho' & Hc). split; [done|]. split; [done|].
  cbn [snd]. intros s o id Hs0. cbn [ip_reg ip_svc with_svc] in *. specialize (Hl s o id Hs0).
  destruct (good_name nm) as [s1|]; [|by destruct Hc as [_ ->]].
  destruct (svc_check_endpoint (ip_reg g) p h) eqn:Ec; cbn [negb] in Hc; [|by destruct Hc as [_ ->]].
  apply check_endpoint_spec in Ec as (e & _ & _ & Hid & Hch); [|done].
  destruct (dir (ip_svc g) s1) as [y|]; [by destruct Hc as [_ ->]|].
  destruct Hc as [(_ & -> & _)|(_ & Hd)]; [done|]. rewrite Hd by done. case_decide; [|done].
  intros [= <- <-]. by rewrite Hid.
Qed.

Lemma world_unregister g p nm h : world_ok g ->
  world_ok (with_svc g (sys_sr_unregister (ip_reg g) (ip_svc g) p nm h).2).
Proof.
  intros (Hr & Hs & Hl). pose proof (unregister_cases (ip_reg g) (ip_svc g) p nm h Hs) as Hc.
  destruct (sys_sr_unregister _ _ _ _ _) as [st r']. destruct Hc as (Ho' & Hc). split; [done|]. split; [done|].
  cbn [snd]. intros s o id Hs0. cbn [ip_reg ip_svc with_svc] in *. specialize (Hl s o id Hs0).
  destruct (good_name nm) as [s1|]; [|by destruct Hc as [_ ->]].
  destruct (negb _); [by destruct Hc as [_ ->]|].
  destruct (dir (ip_svc g) s1) as [[o1 i1]|]; [|by destruct Hc as [_ ->]].
  destruct (o1 =? pid p); [|by destruct Hc as [_ ->]]. destruct Hc as [_ Hd]. rewrite Hd by done. by case_decide.
Qed.

Lemma owner_gone_spec g o : world_ok g ->
  let g' := owner_gone g o in
  world_ok g' /\
  (forall o' id, chan (ip_reg g') o' id = if decide (o' = o) then None else chan (ip_reg g) o' id) /\
  (forall s, s <> [] -> dir (ip_svc g') s =
     match dir (ip_svc g) s with Some (o', id) => if decide (o' = o) then None else Some (o', id) | None => None end).
Proof.
  intros (Hr & Hs & Hl). cbn zeta. unfold owner_gone.
  destruct (unregister_spec g o Hr) as (Hr' & Hsv & _ & Hch). cbn zeta. rewrite Hsv.
  destruct (cleanup_spec (ip_svc g) o Hs) as [Hs' Hd]. split; [split; [done|split; [done|]]|by split].
  cbn [ip_reg ip_svc with_svc]. intros s o' id Hs0 Hx. cbn [ip_reg ip_svc with_svc] in *.
  rewrite Hch. rewrite Hd in Hx by done. destruct (dir (ip_svc g) s) as [[o1 i1]|] eqn:E; [|done].
  case_decide; [done|]. injection Hx as <- <-. rewrite decide_False by done. by apply (Hl s).
Qed.

Lemma world_run_ok g : world_run g -> world_ok g.
Proof.
  induction 1 as [h|g p _ IH|g p tp id _ IH|g p h _ IH Hl|g m p h tg dat len _ IH Hi Hd Hl Ht|g m p h t d n _ IH|
    g p nm h _ IH|g p nm h _ IH|g p nm _ IH|g o _ IH].
  - split; [apply empty_reg_ok|]. split; [|done]. by split; [..|intros e He%not_elem_of_nil|].
  - by apply world_create.
  - destruct IH as (Hr & Hs & Hl). pose proof (connect_cases g p tp id Hr) as Hc.
    destruct (sys_ipc_connect g p tp id) as [[r g'] p']. destruct Hc as (Hreg & Hsv & _).
    unfold world_ok, names_live. cbn [fst snd]. by rewrite Hreg, Hsv.
  - by apply world_close.
  - by apply world_send.
  - by apply world_recv.
  - by apply world_register.
  - by apply world_unregister.
  - destruct IH as (Hr & Hs & Hl). pose proof (lookup_cases g p nm Hs) as Hc.
    destruct (sys_sr_lookup g p nm) as [[r g'] p']. destruct Hc as (Hreg & Hsv & _).
    unfold world_ok, names_live. cbn [fst snd]. by rewrite Hreg, Hsv.
  - by apply owner_gone_spec.
Qed.
End World.

(** ** Properties *)

(** C31.  The service directory.  Registering succeeds exactly for a name of 1 to
  31 bytes that is not taken, given by a process for a live endpoint it owns,
  while there is room; it then binds exactly this name to exactly that endpoint.
  Unregistering succeeds exactly for the process that registered the name, and
  unbinds only it.  A lookup hands out a fresh handle to the endpoint the name is
  bound to, and to no other. *)
Theorem svc_directory_correct `{KH : KernelHeap Hp} (g : @ipc Hp svc) p nm h :
  reg_ok (ip_reg g) -> svc_ok (ip_svc g) ->
  let r := ip_svc g in
  (svc_check_endpoint (ip_reg g) p h = true <->
     exists e, handle_entry (handles_of p) h = Some e /\ target_pid e = pid p /\
       handle_endpoint_id p h = target_endpoint_id e /\ chan (ip_reg g) (pid p) (target_endpoint_id e) <> None) /\
  (let '(st, r') := sys_sr_register (ip_reg g) r p nm h in
   svc_ok r' /\
   match good_name nm with
   | None => st < 0 /\ r' = r
   | Some s =>
       if negb (svc_check_endpoint (ip_reg g) p h) then st = SVC_E_BADF /\ r' = r
       else match dir r s with
            | Some _ => st = SVC_E_CONFLICT /\ r' = r
            | None =>
                (st = SVC_E_FULL /\ r' = r /\ length r = 64%nat /\ Forall (fun e => entry_str e <> []) r) \/
                (st = 0 /\ forall s', s' <> [] -> dir r' s' =
                   if decide (s' = s) then Some (pid p, handle_endpoint_id p h) else dir r s')
            end
   end) /\
  (let '(st, r') := sys_sr_unregister (ip_reg g) r p nm h in
   svc_ok r' /\
   match good_name nm with
   | None => st < 0 /\ r' = r
   | Some s =>
       if negb (svc_check_endpoint (ip_reg g) p h) then st = SVC_E_BADF /\ r' = r
       else match dir r s with
            | None => st = SVC_E_NAME /\ r' = r
            | Some (o, _) =>
                if o =? pid p
                then st = 0 /\ forall s', s' <> [] -> dir r' s' = if decide (s' = s) then None else dir r s'
                else st = SVC_E_CONFLICT /\ r' = r
            end
   end) /\
  (let '(st, g', p') := sys_sr_lookup g p nm in
   ip_reg g' = ip_reg g /\ ip_svc g' = r /\
   match good_name nm with
   | None => st < 0 /\ handles_of p' = handles_of p
   | Some s =>
       match dir r s with
       | None => st = SVC_E_NAME /\ handles_of p' = handles_of p
       | Some (o, id) =>
           (st = SVC_E_NOMEM /\ handles_of p' = handles_of p) \/
           (exists i, st = Z.of_nat i /\ find_free_handle (handles_of p) = Some i /\
              handles_of p' = <[i := HandleEntry o id IPC_HANDLE_ALLOCATED]> (handles_of p))
       end
   end).
Proof.
  intros Hr Hs. cbn zeta. split; [by apply check_endpoint_spec|]. split; [by apply register_cases|].
  split; [by apply unregister_cases|by apply lookup_cases].
Qed.

Definition cname (s : list Z) : option (list Z) := Some (take 32 (s ++ replicate 32 0)).

(** The demonstration process owns the endpoint 0 and registers it as "calc". *)
Definition demo_world : @ipc Z svc := Ipc [] 0x1000 [].
#[local] Existing Instance bump_heap.
Definition svc_demo : Z * @ipc Z svc * process_t := sys_ipc_endpoint_create demo_world demo_page.2.
Definition calc : option (list Z) := cname [99; 97; 108; 99].

Lemma demo_world_run : world_run (M := mem) (inv := user_mem_inv) svc_demo.1.2.
Proof. apply wr_create, wr_boot. Qed.

Lemma svc_directory_correct_witness :
  (sys_sr_register (ip_reg svc_demo.1.2) (ip_svc svc_demo.1.2) svc_demo.2 calc 0).1 = 0.
Proof.
  destruct (world_run_ok _ demo_world_run) as (Hr & Hs & _).
  pose proof (svc_directory_correct svc_demo.1.2 svc_demo.2 calc 0 Hr Hs) as H.
  assert (Hc : svc_check_endpoint (ip_reg svc_demo.1.2) svc_demo.2 0 = true) by (vm_compute; reflexivity).
  assert (Hl : ip_svc svc_demo.1.2 = []) by (vm_compute; reflexivity).
  assert (Hg : good_name calc = Some [99; 97; 108; 99]) by (vm_compute; reflexivity).
  cbn zeta in H. destruct H as (_ & H & _). rewrite Hc, Hl, Hg in H. rewrite Hl.
  destruct (sys_sr_register _ _ _ _ _) as [st r']. cbn [negb] in H. destruct H as (_ & H).
  change (dir [] [99; 97; 108; 99]) with (@None (Z * Z)) in H.
  destruct H as [(_ & _ & H & _)|(H & _)]; [discriminate H|exact H].
Defined.

(** C18.  No name leads to an endpoint that has been freed.  In every state that
  message passing and the service registry can reach, whatever processes call
  and end, every registered name is bound to an existing endpoint, no name is
  bound twice, and when a process ends every name it owned is gone while all
  others stay. *)
Theorem svc_names_safe {M : Type} `{UA : UserAccess M process_t} `{UL : !UserAccessLaws M process_t inv}
    `{KH : KernelHeap Hp} (g : @ipc Hp svc) o : world_run (inv := inv) g ->
  (forall s o' id, s <> [] -> dir (ip_svc g) s = Some (o', id) -> chan (ip_reg g) o' id <> None) /\
  (forall i j e e', ip_svc g !! i = Some e -> ip_svc g !! j = Some e' -> entry_str e = entry_str e' ->
     entry_str e <> [] -> i = j) /\
  let g' := owner_gone g o in
  (forall o' id, chan (ip_reg g') o' id = if decide (o' = o) then None else chan (ip_reg g) o' id) /\
  (forall s, s <> [] -> dir (ip_svc g') s =
     match dir (ip_svc g) s with Some (o', id) => if decide (o' = o) then None else Some (o', id) | None => None end).
Proof.
  intros Hrun. pose proof (world_run_ok g Hrun) as Hok. destruct (owner_gone_spec g o Hok) as (_ & H1 & H2).
  destruct Hok as (Hr & Hs & Hl). split; [done|]. split; [apply (so_unique _ Hs)|]. by split.
Qed.

Lemma svc_names_safe_witness :
  let g := with_svc svc_demo.1.2
             (sys_sr_register (ip_reg svc_demo.1.2) (ip_svc svc_demo.1.2) svc_demo.2 calc 0).2 in
  chan (ip_reg g) (pid demo_page.2) 0 <> None /\ dir (ip_svc (owner_gone g (pid demo_page.2))) [99; 97; 108; 99] = None.
Proof.
  cbn zeta. pose proof (wr_register svc_demo.1.2 svc_demo.2 calc 0 demo_world_run) as Hrun.
  set (g := with_svc _ _) in *.
  assert (Hd : dir (ip_svc g) [99; 97; 108; 99] = Some (pid demo_page.2, 0)) by (vm_compute; reflexivity).
  destruct (svc_names_safe g (pid demo_page.2) Hrun) as (H1 & _ & _ & H2). split.
  - eapply H1; [|exact Hd]. discriminate.
  - rewrite H2 by discriminate. rewrite Hd. by rewrite decide_True.
Defined.

(** An endpoint registered under two names stays discoverable after its owner
  closes it: the close hook drops only the first name. *)
Example stale_service_name :
  let g0 := svc_demo.1.2 in
  let p := svc_demo.2 in
  let r1 := (sys_sr_register (ip_reg g0) (ip_svc g0) p (cname [97]) 0).2 in
  let '(st, r2) := sys_sr_register (ip_reg g0) r1 p (cname [98]) 0 in
  let '(_, g, p) := sys_ipc_close (with_svc g0 r2) p 0 in
  st = 0 /\ dir (ip_svc g) [97] = None /\ dir (ip_svc g) [98] = Some (pid p, 0) /\
  (fst <$> chan (ip_reg g) (pid p) 0) = Some true /\ (sys_sr_lookup g p (cname [98])).1.1 = 0.
Proof. vm_compute. by split_and!. Qed.

(** A closed endpoint can still be registered, through a second handle to it. *)
Example closed_endpoint_registered :
  let '(h, g, p) := sys_ipc_connect svc_demo.1.2 svc_demo.2 (pid svc_demo.2) 0 in
  let '(_, g, p) := sys_ipc_close g p 0 in
  h = 1 /\ (fst <$> chan (ip_reg g) (pid p) 0) = Some true /\
  (sys_sr_register (ip_reg g) (ip_svc g) p calc h).1 = 0.
Proof. vm_compute. by split_and!. Qed.
