(* ===== verification/Vfs.v ===== *)
(** * The file system ([kernel/vfs/voidfs.c], [voidfs.h])

  A read-only tree of nodes linked by parent, first-child and sibling pointers,
  and open-file objects shared by descriptors.  Both live in the kernel heap: the
  model keeps them in maps from addresses, with 0 as NULL.  A C string is the
  list of its bytes before the terminator. *)
From S2P Require Import Prelude Pmm PhysMem Vmm ProcData UserMem AddrSpace UserOps Teardown Uaccess Interfaces.

Definition VFS_PATH_MAX : Z := 512.
Definition VFS_NAME_MAX : Z := 96.
Definition VFS_ROOT_FDS : Z := 3.
Definition VFS_TREE_DEPTH : Z := 16.
Definition O_RDONLY : Z := 0.
Definition O_ACC_MODE : Z := 3.

Definition SLASH : Z := 47.
Definition DOT : Z := 46.

(** ** Data *)
Inductive vfs_kind_t := VFS_REG | VFS_DIR.

#[export] Instance vfs_kind_eq_dec : EqDecision vfs_kind_t.
Proof. solve_decision. Defined.

Record vfs_node_t := VfsNode {
  kind : vfs_kind_t;
  nname : list Z;
  parent : Z;
  child : Z;
  sibling : Z;
  vdata : list Z;
  vsize : Z
}.

Record vfs_file_t := VfsFile { fnode : Z; fpos : Z; fid : Z; refcount : Z }.

Notation tree := (gmap Z vfs_node_t).

Definition node_zero : vfs_node_t := VfsNode VFS_REG [] 0 0 0 [] 0.

(** [*a] for a node pointer. *)
Definition at_node (ns : tree) (a : Z) : vfs_node_t := default node_zero (ns !! a).

Definition set_parent (n : vfs_node_t) (x : Z) : vfs_node_t :=
  VfsNode (kind n) (nname n) x (child n) (sibling n) (vdata n) (vsize n).
Definition set_child (n : vfs_node_t) (x : Z) : vfs_node_t :=
  VfsNode (kind n) (nname n) (parent n) x (sibling n) (vdata n) (vsize n).
Definition set_sibling (n : vfs_node_t) (x : Z) : vfs_node_t :=
  VfsNode (kind n) (nname n) (parent n) (child n) x (vdata n) (vsize n).

(** ** String helpers *)
Definition kstrlen (s : list Z) : Z := Z.of_nat (length s).

Fixpoint kstreq (a b : list Z) : bool :=
  match a, b with
  | x :: a, y :: b => if x =? y then kstreq a b else false
  | [], [] => true
  | _, _ => false
  end.

(** ** The tree *)

(** [while (s->sibling) s = s->sibling;]: the walk passes each node once. *)
Fixpoint last_sibling (fuel : nat) (ns : tree) (s : Z) : Z :=
  match fuel with
  | O => s
  | S fuel => if sibling (at_node ns s) =? 0 then s else last_sibling fuel ns (sibling (at_node ns s))
  end.

Definition tree_add_child (ns : tree) (dir c : Z) : Z * tree :=
  if (dir =? 0) || (c =? 0) then (0, ns)
  else
    let ns := <[c := set_parent (at_node ns c) dir]> ns in
    if child (at_node ns dir) =? 0 then (c, <[dir := set_child (at_node ns dir) c]> ns)
    else
      let s := last_sibling (size ns) ns (child (at_node ns dir)) in
      (c, <[s := set_sibling (at_node ns s) c]> ns).

(** The loop of [tree_find_child] from the child [c] on. *)
Fixpoint find_from (fuel : nat) (ns : tree) (c : Z) (nm : list Z) : Z :=
  match fuel with
  | O => 0
  | S fuel =>
      if c =? 0 then 0
      else if kstreq (nname (at_node ns c)) nm then c
      else find_from fuel ns (sibling (at_node ns c)) nm
  end.

Definition tree_find_child (ns : tree) (dir : Z) (nm : list Z) : Z :=
  find_from (S (size ns)) ns (child (at_node ns dir)) nm.

(** ** Path resolution *)

Fixpoint skip_slashes (p : list Z) : list Z :=
  match p with
  | c :: p' => if c =? SLASH then skip_slashes p' else p
  | [] => []
  end.

(** The component at the front and what follows it. *)
Fixpoint split_comp (p : list Z) : list Z * list Z :=
  match p with
  | c :: p' => if c =? SLASH then ([], p) else let '(comp, rest) := split_comp p' in (c :: comp, rest)
  | [] => ([], [])
  end.

(** One component: an error, or the next node. *)
Definition walk_comp (ns : tree) (cur : Z) (comp : list Z) : Z + Z :=
  let clen := Z.of_nat (length comp) in
  if (clen =? 1) && (zget 0 comp 0 =? DOT) then inr cur
  else if (clen =? 2) && (zget 0 comp 0 =? DOT) && (zget 0 comp 1 =? DOT) then
    inr (if negb (parent (at_node ns cur) =? 0) then parent (at_node ns cur) else cur)
  else if negb (bool_decide (kind (at_node ns cur) = VFS_DIR)) then inl (- VE_NOTDIR)
  else if VFS_NAME_MAX <=? clen then inl (- VE_NAMETOOLONG)
  else
    let n := tree_find_child ns cur comp in
    if n =? 0 then inl (- VE_NOENT) else inr n.

(** The loop of [vfs_resolve_abs]; every turn consumes a byte. *)
Fixpoint resolve_loop (fuel : nat) (ns : tree) (cur : Z) (p : list Z) : Z + Z :=
  match fuel with
  | O => inl (- VE_NOENT)
  | S fuel =>
      match p with
      | [] => inr cur
      | _ =>
          match skip_slashes p with
          | [] => inr cur
          | p' =>
              let '(comp, rest) := split_comp p' in
              match walk_comp ns cur comp with
              | inl e => inl e
              | inr n => resolve_loop fuel ns n rest
              end
          end
      end
  end.

(** [inl] is NULL with the error stored, [inr] the node. *)
Definition vfs_resolve_abs (ns : tree) (root : Z) (path : list Z) : Z + Z :=
  match path with
  | c :: p =>
      if c =? SLASH then
        match resolve_loop (S (length p)) ns root p with
        | inl e => inl e
        | inr cur =>
            if bool_decide (last path = Some SLASH) && negb (bool_decide (kind (at_node ns cur) = VFS_DIR))
            then inl (- VE_NOTDIR) else inr cur
        end
      else inl (- VE_INVAL)
  | [] => inl (- VE_INVAL)
  end.

Definition vfs_absolutize (p : process_t) (path : list Z) (cap : Z) : option (list Z) :=
  let plen := kstrlen path in
  if bool_decide (head path = Some SLASH) then
    if cap <=? plen then None else Some path
  else
    let cw := kstrlen (cwd p) in
    let total := cw + (if 1 <? cw then 1 else 0) + plen in
    if cap <=? total then None
    else Some (cwd p ++ (if 1 <? cw then [SLASH] else []) ++ path).

(** ** The state and the system calls *)
Section Vfs.
Context {M : Type} `{UA : UserAccess M process_t} {H : Type} `{KH : KernelHeap H}.

Record vfs := Vfs { nodes : tree; g_root : Z; files : gmap Z vfs_file_t; v_heap : H }.

Definition with_nodes (v : vfs) (ns : tree) : vfs := Vfs ns (g_root v) (files v) (v_heap v).
Definition with_files (v : vfs) (fs : gmap Z vfs_file_t) : vfs := Vfs (nodes v) (g_root v) fs (v_heap v).
Definition with_vheap (v : vfs) (h : H) : vfs := Vfs (nodes v) (g_root v) (files v) h.

(** [sizeof(vfs_node_t)] and [sizeof(vfs_file_t)]. *)
Definition NODE_SIZE : Z := 144.
Definition FILE_SIZE : Z := 32.

Definition new_node (v : vfs) (k : vfs_kind_t) (nm dat : list Z) (sz : Z) : Z * vfs :=
  let '(a, h) := kmalloc (v_heap v) NODE_SIZE in
  let v := with_vheap v h in
  if a =? 0 then (0, v)
  else (a, with_nodes v (<[a := VfsNode k (take 95 nm) 0 0 0 dat sz]> (nodes v))).

Definition add_child (v : vfs) (dir c : Z) : vfs := with_nodes v (tree_add_child (nodes v) dir c).2.

Definition hello_data : list Z := str "Hello, VoidOS!" ++ [10].
Definition test_data : list Z := str "This is a test file." ++ [10].
Definition version_data : list Z := str "Phase 10" ++ [10].

(** A file or directory of the embedded tree, linked when its node and its
  directory could be allocated. *)
Definition build_entry (v : vfs) (dir : Z) (k : vfs_kind_t) (nm dat : list Z) : Z * vfs :=
  let '(a, v) := new_node v k nm dat (Z.of_nat (length dat)) in
  if negb (a =? 0) && negb (dir =? 0) then (a, add_child v dir a) else (a, v).

Definition vfs_build_tree (v : vfs) : vfs :=
  let '(root, v) := new_node v VFS_DIR [] [] 0 in
  if root =? 0 then v
  else
    let v := Vfs (nodes v) root (files v) (v_heap v) in
    let '(_, v) := build_entry v root VFS_REG (str "hello.txt") hello_data in
    let '(_, v) := build_entry v root VFS_REG (str "test.txt") test_data in
    let '(etc, v) := build_entry v root VFS_DIR (str "etc") [] in
    let '(_, v) := build_entry v etc VFS_REG (str "version.txt") version_data in
    v.

Definition voidfs_init (h : H) : vfs := vfs_build_tree (Vfs ∅ 0 ∅ h).

(** [inl] is the errno; [inr] the string copied. *)
Fixpoint copy_path_loop (fuel : nat) (m : M) (p : process_t) (upath i : Z) (out : list Z) : Z + list Z :=
  match fuel with
  | O => inl VE_NAMETOOLONG
  | S fuel =>
      if negb (ua_range_ok m p (u64 (upath + i)) 1 false) then inl VE_FAULT
      else
        match ua_copy_from m p (u64 (upath + i)) 1 with
        | None => inl VE_FAULT
        | Some c =>
            let c := hd 0 c in
            if c =? 0 then inr out else copy_path_loop fuel m p upath (i + 1) (out ++ [c])
        end
  end.

Definition vfs_copy_user_path (m : M) (p : process_t) (upath cap : Z) : Z + list Z :=
  copy_path_loop (Z.to_nat (cap - 1)) m p upath 0 [].

(** The steps [sys_vfs_open] and [sys_vfs_chdir] share. *)
Definition resolve_user (m : M) (v : vfs) (p : process_t) (upath : Z) : Z + Z :=
  match vfs_copy_user_path m p upath VFS_PATH_MAX with
  | inl e => inl (- e)
  | inr path =>
      match vfs_absolutize p path VFS_PATH_MAX with
      | None => inl (- VE_FAULT)
      | Some abs => vfs_resolve_abs (nodes v) (g_root v) abs
      end
  end.

(** The first free descriptor from 3 on. *)
Definition find_free_fd (p : process_t) : option nat :=
  Nat.add 3 <$> first_index (fun e => bool_decide (fd_type e = FD_NONE)) (drop 3 (fds p)).

Definition set_fd (p : process_t) (fd : nat) (e : fd_entry_t) : process_t := set_fds p (<[fd := e]> (fds p)).

Definition sys_vfs_open (m : M) (v : vfs) (p : process_t) (upath flags : Z) : Z * vfs * process_t :=
  match resolve_user m v p upath with
  | inl e => (e, v, p)
  | inr n =>
      if negb (Z.land flags O_ACC_MODE =? O_RDONLY) then (- VE_ACCES, v, p)
      else
        let '(a, h) := kmalloc (v_heap v) FILE_SIZE in
        let v := with_vheap v h in
        if a =? 0 then (- VE_NOMEM, v, p)
        else
          match find_free_fd p with
          | Some fd => (Z.of_nat fd, with_files v (<[a := VfsFile n 0 a 1]> (files v)), set_fd p fd (FdEntry FD_VFS a 0))
          | None => (- VE_NOMEM, with_vheap v (kfree (v_heap v) a), p)
          end
  end.

(** The open file of a descriptor, [None] for the -EBADF cases. *)
Definition vfs_fd (v : vfs) (p : process_t) (fd : Z) : option (Z * vfs_file_t) :=
  if (fd <? 0) || (MAX_FDS <=? fd) then None
  else
    let e := zget fd_none (fds p) fd in
    if negb (bool_decide (fd_type e = FD_VFS)) then None
    else (fun f => (fd_object e, f)) <$> files v !! fd_object e.

Definition set_pos (f : vfs_file_t) (x : Z) : vfs_file_t := VfsFile (fnode f) x (fid f) (refcount f).
Definition set_refcount (f : vfs_file_t) (x : Z) : vfs_file_t := VfsFile (fnode f) (fpos f) (fid f) x.

Definition sys_vfs_read (m : M) (v : vfs) (p : process_t) (fd ubuf count : Z) : Z * M * vfs :=
  match vfs_fd v p fd with
  | None => (- VE_BADF, m, v)
  | Some (a, f) =>
      let n := at_node (nodes v) (fnode f) in
      if negb (bool_decide (kind n = VFS_REG)) then (- VE_ISDIR, m, v)
      else if vsize n <=? fpos f then (0, m, v)
      else
        let avail := vsize n - fpos f in
        let count := if avail <? count then avail else count in
        let '(ok, m) := ua_copy_to m p ubuf (take (Z.to_nat count) (drop (Z.to_nat (fpos f)) (vdata n))) in
        if negb ok then (- VE_FAULT, m, v)
        else (count, m, with_files v (<[a := set_pos f (fpos f + count)]> (files v)))
  end.

Definition sys_vfs_write (v : vfs) (p : process_t) (fd : Z) : Z :=
  match vfs_fd v p fd with None => - VE_BADF | Some _ => - VE_ACCES end.

(** [f->refcount--; if (f->refcount <= 0) kfree(f);] *)
Definition drop_ref (v : vfs) (a : Z) : vfs :=
  match files v !! a with
  | None => v
  | Some f =>
      let f := set_refcount f (refcount f - 1) in
      if refcount f <=? 0 then with_vheap (with_files v (delete a (files v))) (kfree (v_heap v) a)
      else with_files v (<[a := f]> (files v))
  end.

Definition sys_vfs_close (v : vfs) (p : process_t) (fd : Z) : Z * vfs * process_t :=
  match vfs_fd v p fd with
  | None => (- VE_BADF, v, p)
  | Some (a, _) => (0, drop_ref v a, set_fd p (Z.to_nat fd) fd_none)
  end.

(** [offset] and the sums are [int64_t]. *)
Definition sys_vfs_lseek (v : vfs) (p : process_t) (fd offset whence : Z) : Z * vfs :=
  match vfs_fd v p fd with
  | None => (- VE_BADF, v)
  | Some (a, f) =>
      let n := at_node (nodes v) (fnode f) in
      if negb (bool_decide (kind n = VFS_REG)) then (- VE_ISDIR, v)
      else
        let npos := if whence =? 0 then Some offset
                    else if whence =? 1 then Some (i64 (i64 (fpos f) + offset))
                    else if whence =? 2 then Some (i64 (i64 (vsize n) + offset))
                    else None in
        match npos with
        | None => (- VE_INVAL, v)
        | Some npos =>
            if npos <? 0 then (- VE_INVAL, v) else (npos, with_files v (<[a := set_pos f npos]> (files v)))
        end
  end.

(** The names from [n] up to the root, the node's own first. *)
Fixpoint comps_up (fuel : nat) (ns : tree) (n : Z) : option (list (list Z)) :=
  if (n =? 0) || (parent (at_node ns n) =? 0) then Some []
  else
    match fuel with
    | O => None
    | S fuel => cons (nname (at_node ns n)) <$> comps_up fuel ns (parent (at_node ns n))
    end.

(** The names appended root-down, separated by slashes. *)
Fixpoint join_comps (tmp : list Z) (comps : list (list Z)) : option (list Z) :=
  match comps with
  | [] => Some tmp
  | nm :: rest =>
      let sep := match rest with [] => 0 | _ => 1 end in
      if VFS_PATH_MAX <=? Z.of_nat (length tmp) + kstrlen nm + sep then None
      else join_comps (tmp ++ nm ++ (match rest with [] => [] | _ => [SLASH] end)) rest
  end.

Definition sys_vfs_chdir (m : M) (v : vfs) (p : process_t) (upath : Z) : Z * process_t :=
  match resolve_user m v p upath with
  | inl e => (e, p)
  | inr n =>
      if negb (bool_decide (kind (at_node (nodes v) n) = VFS_DIR)) then (- VE_NOTDIR, p)
      else
        match comps_up (Z.to_nat VFS_TREE_DEPTH) (nodes v) n with
        | None => (- VE_NAMETOOLONG, p)
        | Some comps =>
            match join_comps [SLASH] (rev comps) with
            | None => (- VE_NAMETOOLONG, p)
            | Some tmp => (0, set_cwd p tmp)
            end
        end
  end.

Definition sys_vfs_getcwd (m : M) (p : process_t) (ubuf sz : Z) : Z * M :=
  let len := kstrlen (cwd p) in
  if sz <? len + 1 then (- VE_NAMETOOLONG, m)
  else if negb (ua_range_ok m p ubuf (len + 1) true) then (- VE_FAULT, m)
  else
    let '(ok, m) := ua_copy_to m p ubuf (cwd p ++ [0]) in
    if negb ok then (- VE_FAULT, m) else (len, m).

(** [while (c && idx < f->pos) { c = c->sibling; idx++; }] *)
Fixpoint nth_child (fuel : nat) (ns : tree) (c idx target : Z) : Z :=
  match fuel with
  | O => 0
  | S fuel =>
      if negb (c =? 0) && (idx <? target) then nth_child fuel ns (sibling (at_node ns c)) (idx + 1) target else c
  end.

Definition sys_vfs_readdir (m : M) (v : vfs) (p : process_t) (fd ubuf : Z) : Z * M * vfs :=
  match vfs_fd v p fd with
  | None => (- VE_BADF, m, v)
  | Some (a, f) =>
      let d := at_node (nodes v) (fnode f) in
      if negb (bool_decide (kind d = VFS_DIR)) then (- VE_NOTDIR, m, v)
      else
        let c := nth_child (S (S (size (nodes v)))) (nodes v) (child d) 0 (fpos f) in
        if c =? 0 then (0, m, v)
        else
          let nm := nname (at_node (nodes v) c) in
          let nlen := kstrlen nm in
          if negb (ua_range_ok m p ubuf (nlen + 1) true) then (- VE_FAULT, m, v)
          else
            let '(ok, m) := ua_copy_to m p ubuf (nm ++ [0]) in
            if negb ok then (- VE_FAULT, m, v)
            else (nlen, m, with_files v (<[a := set_pos f (u64 (fpos f + 1))]> (files v)))
  end.

(** ** Sharing and teardown *)

Definition vfs_file_ref_inc (v : vfs) (a : Z) : vfs :=
  match files v !! a with
  | None => v
  | Some f => with_files v (<[a := set_refcount f (refcount f + 1)]> (files v))
  end.

Definition close_slot (vp : vfs * process_t) (fd : nat) : vfs * process_t :=
  let '(v, p) := vp in
  match fds p !! fd with
  | Some e => if bool_decide (fd_type e = FD_VFS) then (drop_ref v (fd_object e), set_fd p fd fd_none) else (v, p)
  | None => (v, p)
  end.

Definition vfs_close_process_fds (v : vfs) (p : process_t) : vfs * process_t :=
  foldl close_slot (v, p) (seq 0 (length (fds p))).
End Vfs.
