(* ===== verification/VfsTree.v ===== *)
(** * The file system's tree and its paths

  Resolution as the walk along the components of a path, well-formed trees and
  their construction, and the working directory.  The definitions are those of
  [Vfs]. *)
From S2P Require Import Prelude Pmm PhysMem Vmm ProcData UserMem AddrSpace UserOps Teardown Uaccess Interfaces Vfs.

(** ** Paths as component lists *)

(** The non-empty pieces between slashes; [cur] is the piece being read. *)
Fixpoint comps_acc (cur p : list Z) : list (list Z) :=
  match p with
  | [] => match cur with [] => [] | _ => [cur] end
  | c :: p => if c =? SLASH then (match cur with [] => [] | _ => [cur] end) ++ comps_acc [] p
              else comps_acc (cur ++ [c]) p
  end.

Definition path_comps (p : list Z) : list (list Z) := comps_acc [] p.

(** Following components from a node. *)
Fixpoint walk_path (ns : tree) (cur : Z) (comps : list (list Z)) : Z + Z :=
  match comps with
  | [] => inr cur
  | c :: cs => match walk_comp ns cur c with inl e => inl e | inr n => walk_path ns n cs end
  end.

Definition flush (cur : list Z) : list (list Z) := match cur with [] => [] | _ => [cur] end.

Lemma comps_acc_split p : forall cur comp rest, split_comp p = (comp, rest) ->
  comps_acc cur p = flush (cur ++ comp) ++ path_comps rest.
Proof.
  induction p as [|c p IH]; intros cur comp rest; cbn [split_comp comps_acc].
  { intros [= <- <-]. by rewrite !app_nil_r. }
  destruct (Z.eqb_spec c SLASH) as [->|].
  - intros [= <- <-]. rewrite app_nil_r. unfold path_comps. cbn [comps_acc]. by rewrite Z.eqb_refl.
  - destruct (split_comp p) as [comp' rest'] eqn:E. intros [= <- <-].
    rewrite (IH (cur ++ [c]) comp' rest' eq_refl). by rewrite <- app_assoc.
Qed.

Lemma split_comp_length p comp rest : split_comp p = (comp, rest) ->
  (length p = length comp + length rest)%nat.
Proof.
  revert comp rest. induction p as [|c p IH]; intros comp rest; cbn [split_comp]; [by intros [= <- <-]|].
  case_if; [by intros [= <- <-]|]. destruct (split_comp p) as [comp' rest']. intros [= <- <-].
  cbn [length]. rewrite (IH comp' rest') by done. lia.
Qed.

Lemma skip_slashes_comps p : path_comps (skip_slashes p) = path_comps p.
Proof.
  induction p as [|c p IH]; [done|]. cbn [skip_slashes]. destruct (Z.eqb_spec c SLASH) as [->|]; [|done].
  rewrite IH. unfold path_comps at 2. cbn [comps_acc]. by rewrite Z.eqb_refl.
Qed.

Lemma skip_slashes_length p : (length (skip_slashes p) <= length p)%nat.
Proof. induction p as [|c p IH]; cbn [skip_slashes]; [done|]. case_if; cbn [length]; lia. Qed.

Lemma skip_slashes_head p c p' : skip_slashes p = c :: p' -> c <> SLASH.
Proof.
  induction p as [|x p IH]; cbn [skip_slashes]; [done|]. destruct (Z.eqb_spec x SLASH); [done|].
  by intros [= -> _].
Qed.

Lemma resolve_loop_walk ns fuel : forall cur p, (length p < fuel)%nat ->
  resolve_loop fuel ns cur p = walk_path ns cur (path_comps p).
Proof.
  induction fuel as [|fuel IH]; intros cur p Hf; [lia|]. cbn [resolve_loop].
  destruct p as [|c p]; [done|]. rewrite <- skip_slashes_comps.
  pose proof (skip_slashes_length (c :: p)) as Hl.
  destruct (skip_slashes (c :: p)) as [|x q] eqn:Es; [done|].
  pose proof (skip_slashes_head _ _ _ Es) as Hx.
  destruct (split_comp (x :: q)) as [comp rest] eqn:Ep. unfold path_comps.
  rewrite (comps_acc_split _ [] comp rest Ep). pose proof (split_comp_length _ _ _ Ep) as Hlen.
  assert (Hne : comp <> []).
  { intros ->. cbn [split_comp] in Ep. destruct (Z.eqb_spec x SLASH); [done|]. by destruct (split_comp q). }
  destruct comp as [|y comp]; [done|]. cbn [app flush walk_path].
  destruct (walk_comp ns cur (y :: comp)) as [e|n]; [done|]. apply IH. cbn [length] in *. lia.
Qed.

Lemma comps_acc_app p : forall cur q, comps_acc cur (p ++ SLASH :: q) = comps_acc cur p ++ path_comps q.
Proof.
  induction p as [|c p IH]; intros cur q; cbn [app comps_acc].
  - by rewrite Z.eqb_refl.
  - case_if; [|apply IH]. by rewrite IH, app_assoc.
Qed.

Lemma path_comps_app p q : path_comps (p ++ SLASH :: q) = path_comps p ++ path_comps q.
Proof. apply comps_acc_app. Qed.

Lemma path_comps_slash q : path_comps (SLASH :: q) = path_comps q.
Proof. apply (path_comps_app [] q). Qed.

Lemma walk_path_app ns cur a b : walk_path ns cur (a ++ b) =
  match walk_path ns cur a with inl e => inl e | inr n => walk_path ns n b end.
Proof.
  revert cur. induction a as [|c a IH]; intros cur; [done|]. cbn [app walk_path].
  destruct (walk_comp ns cur c); [done|apply IH].
Qed.

(** Resolution of an absolute path: follow its components from the root; a
  trailing slash asks for a directory. *)
Lemma resolve_abs_walk ns root path : head path = Some SLASH ->
  vfs_resolve_abs ns root path =
    match walk_path ns root (path_comps path) with
    | inl e => inl e
    | inr n => if bool_decide (last path = Some SLASH) && negb (bool_decide (kind (at_node ns n) = VFS_DIR))
               then inl (- VE_NOTDIR) else inr n
    end.
Proof.
  intros Hh. destruct path as [|c p]; [done|]. injection Hh as ->. unfold vfs_resolve_abs.
  rewrite Z.eqb_refl, resolve_loop_walk, path_comps_slash by lia. done.
Qed.

(** ** Well-formed trees *)

Definition valid_name (nm : list Z) : Prop :=
  nm <> [] /\ SLASH ∉ nm /\ Z.of_nat (length nm) < VFS_NAME_MAX /\ nm <> [DOT] /\ nm <> [DOT; DOT].

(** Contents: bytes, and few enough for [int64_t] positions. *)
Definition file_data (dat : list Z) : Prop := Z.of_nat (length dat) < 2 ^ 62 /\ byte_list dat.

(** The siblings from [c] on. *)
Fixpoint siblings (ns : tree) (c : Z) (l : list Z) : Prop :=
  match l with
  | [] => c = 0
  | x :: l => c = x /\ x <> 0 /\ siblings ns (sibling (at_node ns x)) l
  end.

Record kids_ok (ns : tree) (root d : Z) (l : list Z) : Prop := {
  ko_sib : siblings ns (child (at_node ns d)) l;
  ko_nodup : NoDup l;
  ko_iff : forall x, x ∈ l <-> is_Some (ns !! x) /\ x <> root /\ parent (at_node ns x) = d;
  ko_names : NoDup ((fun x => nname (at_node ns x)) <$> l)
}.

Record tree_ok (ns : tree) (root : Z) : Prop := {
  to_null : ns !! 0 = None;
  to_root : is_Some (ns !! root) /\ kind (at_node ns root) = VFS_DIR /\ parent (at_node ns root) = 0;
  to_node : forall a n, ns !! a = Some n -> a <> root ->
    valid_name (nname n) /\ is_Some (ns !! parent n) /\ kind (at_node ns (parent n)) = VFS_DIR;
  to_size : forall a n, ns !! a = Some n -> vsize n = Z.of_nat (length (vdata n)) /\ file_data (vdata n);
  to_kids : forall d, is_Some (ns !! d) -> exists l, kids_ok ns root d l
}.

Lemma kstreq_eq a b : kstreq a b = true <-> a = b.
Proof.
  revert b. induction a as [|x a IH]; intros [|y b]; cbn [kstreq]; try done.
  destruct (Z.eqb_spec x y) as [->|]; [|split; [done|congruence]]. rewrite IH. split; congruence.
Qed.

(** The first child with the name. *)
Definition named (ns : tree) (l : list Z) (nm : list Z) : option nat :=
  first_index (fun x => bool_decide (nname (at_node ns x) = nm)) l.

Lemma find_from_spec ns nm l : forall fuel c, siblings ns c l -> (length l < fuel)%nat ->
  find_from fuel ns c nm = match named ns l nm with Some i => nth i l 0 | None => 0 end.
Proof.
  induction l as [|x l IH]; intros fuel c Hs Hf; (destruct fuel as [|fuel]; [simpl in Hf; lia|]); cbn [find_from].
  - cbn in Hs. by rewrite Hs.
  - destruct Hs as (-> & Hx & Hs). rewrite (proj2 (Z.eqb_neq _ _) Hx). unfold named. cbn [first_index].
    destruct (kstreq (nname (at_node ns x)) nm) eqn:E.
    + apply kstreq_eq in E. by rewrite bool_decide_eq_true_2.
    + rewrite bool_decide_eq_false_2 by (intros E'; apply kstreq_eq in E'; congruence).
      cbn [length] in Hf. rewrite (IH fuel _ Hs) by lia. fold (named ns l nm). by destruct (named ns l nm).
Qed.

Lemma kids_length ns root d l : kids_ok ns root d l -> (length l <= size ns)%nat.
Proof.
  intros [_ Hn Hi _]. rewrite <- size_dom.
  assert (Hsub : list_to_set (C := gset Z) l ⊆ dom ns).
  { intros x Hx. apply elem_of_list_to_set, Hi in Hx as [? _]. by apply elem_of_dom. }
  apply subseteq_size in Hsub. by rewrite size_list_to_set in Hsub.
Qed.

Lemma find_child_spec ns root d nm : tree_ok ns root -> is_Some (ns !! d) ->
  let c := tree_find_child ns d nm in
  (c <> 0 -> is_Some (ns !! c) /\ c <> root /\ parent (at_node ns c) = d /\ nname (at_node ns c) = nm) /\
  (forall x, is_Some (ns !! x) -> x <> root -> parent (at_node ns x) = d -> nname (at_node ns x) = nm -> c = x).
Proof.
  intros Ht Hd. destruct (to_kids _ _ Ht d Hd) as [l Hk]. cbn zeta. unfold tree_find_child.
  rewrite (find_from_spec ns nm l) by (apply Hk || (pose proof (kids_length _ _ _ _ Hk); lia)).
  destruct Hk as [_ Hnd Hi Hnm]. split.
  - destruct (named ns l nm) as [i|] eqn:E; [|done]. intros _. apply first_index_Some in E as (x & Hx & Hm & _).
    rewrite nth_lookup, Hx. cbn. apply bool_decide_eq_true in Hm.
    apply list_elem_of_lookup_2, Hi in Hx as (? & ? & ?). by split_and!.
  - intros x Hx Hr Hp Hn. assert (Hin : x ∈ l) by (by apply Hi).
    destruct (named ns l nm) as [i|] eqn:E.
    + apply first_index_Some in E as (y & Hy & Hm & _). rewrite nth_lookup, Hy. cbn.
      apply bool_decide_eq_true in Hm. apply list_elem_of_lookup in Hin as [j Hj].
      assert (i = j) as ->; [|congruence].
      eapply (NoDup_lookup _ i j nm Hnm); rewrite list_lookup_fmap, ?Hy, ?Hj; cbn; congruence.
    + unfold named in E. rewrite first_index_None in E. specialize (E x Hin). by apply bool_decide_eq_false in E.
Qed.

Lemma at_node_Some ns a n : ns !! a = Some n -> at_node ns a = n.
Proof. unfold at_node. by intros ->. Qed.

Lemma walk_comp_in ns root cur comp n : tree_ok ns root -> is_Some (ns !! cur) ->
  walk_comp ns cur comp = inr n -> is_Some (ns !! n).
Proof.
  intros Ht Hc. unfold walk_comp. case_if; [by intros [= <-]|]. case_if.
  { intros [= <-]. destruct (Z.eqb_spec (parent (at_node ns cur)) 0) as [|Hp]; cbn [negb]; [done|].
    destruct Hc as [nd Hc]. rewrite (at_node_Some _ _ _ Hc) in *.
    apply (to_node _ _ Ht cur nd Hc). intros ->. destruct (to_root _ _ Ht) as (_ & _ & Hr).
    by rewrite (at_node_Some _ _ _ Hc) in Hr. }
  case_if; [done|]. case_if; [done|].
  destruct (Z.eqb_spec (tree_find_child ns cur comp) 0) as [|Hn]; [done|]. intros [= <-].
  by apply (proj1 (find_child_spec ns root cur comp Ht Hc)).
Qed.

Lemma walk_path_in ns root comps : tree_ok ns root -> forall cur n, is_Some (ns !! cur) ->
  walk_path ns cur comps = inr n -> is_Some (ns !! n).
Proof.
  intros Ht. induction comps as [|c cs IH]; intros cur n Hc; cbn [walk_path]; [by intros [= <-]|].
  destruct (walk_comp ns cur c) as [e|n'] eqn:E; [done|]. apply IH. by eapply walk_comp_in.
Qed.

(** A node is reached from its parent by its name. *)
Lemma walk_to_child ns root a : tree_ok ns root -> is_Some (ns !! a) -> a <> root ->
  walk_comp ns (parent (at_node ns a)) (nname (at_node ns a)) = inr a.
Proof.
  intros Ht [nd Ha] Hr. rewrite (at_node_Some _ _ _ Ha).
  destruct (to_node _ _ Ht a nd Ha Hr) as ((Hne & _ & Hlen & Hd1 & Hd2) & Hp & Hk). unfold walk_comp.
  assert (H1 : (Z.of_nat (length (nname nd)) =? 1) && (zget 0 (nname nd) 0 =? DOT) = false).
  { apply not_true_is_false. intros E. bool_to_prop.
    destruct (nname nd) as [|c [|c' l]]; cbn [length] in *; [done| |lia].
    change (zget 0 [c] 0) with c in *. congruence. }
  assert (H2 : (Z.of_nat (length (nname nd)) =? 2) && (zget 0 (nname nd) 0 =? DOT) && (zget 0 (nname nd) 1 =? DOT) = false).
  { apply not_true_is_false. intros E. bool_to_prop.
    destruct (nname nd) as [|c [|c' [|c'' l]]]; cbn [length] in *; [done|lia| |lia].
    change (zget 0 [c; c'] 0) with c in *. change (zget 0 [c; c'] 1) with c' in *. congruence. }
  rewrite H1, H2, bool_decide_eq_true_2 by done. cbn [negb]. rewrite (proj2 (Z.leb_gt _ _) Hlen).
  assert (Hf : tree_find_child ns (parent nd) (nname nd) = a).
  { apply (proj2 (find_child_spec ns root (parent nd) (nname nd) Ht Hp)); [by exists nd|done|..];
      by rewrite (at_node_Some _ _ _ Ha). }
  rewrite Hf. destruct (Z.eqb_spec a 0) as [->|]; [|done]. by rewrite (to_null _ _ Ht) in Ha.
Qed.

Lemma parent_zero_root ns root a : tree_ok ns root -> is_Some (ns !! a) -> parent (at_node ns a) = 0 -> a = root.
Proof.
  intros Ht [nd Ha] Hp. destruct (decide (a = root)) as [|Hne]; [done|]. rewrite (at_node_Some _ _ _ Ha) in Hp.
  destruct (to_node _ _ Ht a nd Ha Hne) as (_ & [x Hx] & _). by rewrite Hp, (to_null _ _ Ht) in Hx.
Qed.

(** What one component of a path means. *)
Lemma walk_comp_spec ns root cur comp n : tree_ok ns root -> is_Some (ns !! cur) ->
  walk_comp ns cur comp = inr n <->
    (comp = [DOT] /\ n = cur) \/
    (comp = [DOT; DOT] /\ n = if decide (cur = root) then root else parent (at_node ns cur)) \/
    (is_Some (ns !! n) /\ n <> root /\ parent (at_node ns n) = cur /\ nname (at_node ns n) = comp).
Proof.
  intros Ht Hc.
  assert (Hup : (if negb (parent (at_node ns cur) =? 0) then parent (at_node ns cur) else cur) =
                (if decide (cur = root) then root else parent (at_node ns cur))).
  { case_decide as Hr; [subst; by rewrite (proj2 (proj2 (to_root _ _ Ht)))|].
    destruct (Z.eqb_spec (parent (at_node ns cur)) 0) as [Hp|]; [|done]. by apply (parent_zero_root ns root) in Hp. }
  split.
  - unfold walk_comp. destruct ((_ =? 1) && _) eqn:E1.
    { intros [= <-]. left. bool_to_prop. destruct comp as [|c [|c' l]]; cbn [length] in *; [lia| |lia].
      change (zget 0 [c] 0) with c in *. by subst. }
    destruct ((_ =? 2) && _ && _) eqn:E2.
    { intros [= <-]. right. left. bool_to_prop. destruct comp as [|c [|c' [|c'' l]]]; cbn [length] in *; [lia|lia| |lia].
      change (zget 0 [c; c'] 0) with c in *. change (zget 0 [c; c'] 1) with c' in *. subst. by rewrite <- Hup. }
    case_if; [done|]. case_if; [done|]. destruct (Z.eqb_spec (tree_find_child ns cur comp) 0) as [|Hn]; [done|].
    intros [= <-]. right. right. by apply (find_child_spec ns root cur comp Ht Hc).
  - intros [(-> & ->)|[(-> & ->)|(Hn & Hr & <- & <-)]]; [done|by rewrite <- Hup|by eapply walk_to_child].
Qed.

(** The names collected on the way up lead back down. *)
Lemma comps_up_walk ns root fuel : tree_ok ns root -> forall n l, is_Some (ns !! n) ->
  comps_up fuel ns n = Some l -> walk_path ns root (rev l) = inr n /\ Forall valid_name l.
Proof.
  intros Ht. induction fuel as [|fuel IH]; intros n l Hn; cbn [comps_up].
  all: destruct (Z.eqb_spec n 0) as [->|Hn0]; [destruct Hn as [x Hx]; by rewrite (to_null _ _ Ht) in Hx|].
  all: destruct (Z.eqb_spec (parent (at_node ns n)) 0) as [Hp|Hp]; cbn [orb]; try done.
  1, 2: intros [= <-]; apply (parent_zero_root ns root) in Hp; [|done..]; by subst.
  destruct (comps_up fuel ns (parent (at_node ns n))) as [l'|] eqn:E; [|done]. intros [= <-].
  assert (Hr : n <> root) by (intros ->; by destruct (to_root _ _ Ht) as (_ & _ & ?)).
  pose proof Hn as [nd Hnd]. destruct (to_node _ _ Ht n nd Hnd Hr) as (Hv & Hpn & _).
  rewrite <- (at_node_Some _ _ _ Hnd) in Hv, Hpn. destruct (IH _ _ Hpn E) as [IHw IHv]. split; [|by constructor].
  cbn [rev]. rewrite walk_path_app, IHw. cbn [walk_path]. by rewrite walk_to_child with (root := root).
Qed.

Lemma comps_acc_valid cur nm : SLASH ∉ nm -> comps_acc cur nm = flush (cur ++ nm).
Proof.
  revert cur. induction nm as [|c nm IH]; intros cur Hs; cbn [comps_acc]; [by rewrite app_nil_r|].
  apply not_elem_of_cons in Hs as [Hc Hs]. destruct (Z.eqb_spec c SLASH); [congruence|].
  rewrite IH by done. by rewrite <- app_assoc.
Qed.

Lemma path_comps_name nm : valid_name nm -> path_comps nm = [nm].
Proof. intros (Hn & Hs & _). unfold path_comps. rewrite comps_acc_valid by done. by destruct nm. Qed.

Lemma path_comps_trailing p : path_comps (p ++ [SLASH]) = path_comps p.
Proof. rewrite path_comps_app. by rewrite app_nil_r. Qed.

(** The rebuilt path names the collected components. *)
Lemma join_comps_spec comps : Forall valid_name comps -> forall t out,
  Z.of_nat (length t) < VFS_PATH_MAX - 1 ->
  join_comps (t ++ [SLASH]) comps = Some out ->
  path_comps out = path_comps t ++ comps /\ Z.of_nat (length out) < VFS_PATH_MAX /\ head out = head (t ++ [SLASH]) /\
  (comps <> [] -> last out <> Some SLASH).
Proof.
  unfold VFS_PATH_MAX. intros Hv. induction Hv as [|nm rest Hnm Hrest IH]; intros t out Hl; cbn [join_comps].
  { intros [= <-]. rewrite path_comps_trailing, app_nil_r, length_app. cbn [length]. split_and!; [done|lia|done|done]. }
  unfold VFS_PATH_MAX, kstrlen. destruct (Z.leb_spec 512 (Z.of_nat (length (t ++ [SLASH])) + Z.of_nat (length nm) +
    match rest with [] => 0 | _ => 1 end)) as [|Hlen]; [done|].
  rewrite length_app in Hlen. cbn [length] in Hlen. destruct rest as [|nm2 rest].
  - cbn [join_comps]. intros [= <-]. rewrite app_nil_r. rewrite <- app_assoc. cbn [app].
    rewrite path_comps_app, (path_comps_name nm) by done. split_and!; [done| | |].
    + rewrite !length_app. cbn [length]. lia.
    + by destruct t.
    + intros _ Hlast. destruct Hnm as (Hne & Hs & _). rewrite cons_middle, app_assoc in Hlast.
      destruct nm as [|c nm _] using rev_ind; [done|].
      rewrite app_assoc, last_snoc in Hlast. injection Hlast as ->. apply Hs. set_solver +.
  - rewrite !app_assoc. intros Hj. apply IH in Hj as (Hp & Ho & Hh & Hlast).
    + split_and!; [|done| |intros _; by apply Hlast].
      * rewrite Hp, <- (app_assoc t [SLASH] nm). cbn [app]. rewrite path_comps_app, (path_comps_name nm) by done.
        by rewrite <- app_assoc.
      * rewrite Hh. by destruct t.
    + rewrite !length_app. cbn [length]. lia.
Qed.

(** ** The working directory *)

(** A process's working directory names the directory [d]. *)
Record cwd_ok (ns : tree) (root : Z) (p : process_t) (d : Z) : Prop := {
  cw_slash : head (cwd p) = Some SLASH;
  cw_len : Z.of_nat (length (cwd p)) < VFS_PATH_MAX;
  cw_walk : walk_path ns root (path_comps (cwd p)) = inr d;
  cw_dir : kind (at_node ns d) = VFS_DIR
}.

Lemma cwd_resolves ns root p d : cwd_ok ns root p d -> vfs_resolve_abs ns root (cwd p) = inr d.
Proof.
  intros [Hh _ Hw Hd]. rewrite resolve_abs_walk, Hw by done. rewrite (bool_decide_eq_true_2 (kind _ = _)) by done.
  by rewrite andb_false_r.
Qed.

(** A user path from the working directory [d]: absolute paths start at the
  root, the others at [d]. *)
Definition path_from (root d : Z) (path : list Z) : Z :=
  if bool_decide (head path = Some SLASH) then root else d.

Lemma last_app_slash (a path : list Z) : path <> [] -> last (a ++ path) = last path.
Proof. intros Hne. destruct path as [|c path _] using rev_ind; [done|]. by rewrite app_assoc, !last_snoc. Qed.

Lemma absolutize_resolve ns root p d path abs : cwd_ok ns root p d ->
  vfs_absolutize p path VFS_PATH_MAX = Some abs ->
  vfs_resolve_abs ns root abs =
    match walk_path ns (path_from root d path) (path_comps path) with
    | inl e => inl e
    | inr n => if bool_decide (last path = Some SLASH) && negb (bool_decide (kind (at_node ns n) = VFS_DIR))
               then inl (- VE_NOTDIR) else inr n
    end.
Proof.
  intros [Hh Hl Hw Hd] Ha. unfold vfs_absolutize, path_from in *.
  destruct (bool_decide (head path = Some SLASH)) eqn:Eh.
  { case_if_in Ha; [done|]. injection Ha as <-. apply bool_decide_eq_true in Eh. by apply resolve_abs_walk. }
  case_if_in Ha; [done|]. injection Ha as <-.
  rewrite resolve_abs_walk by (by destruct (cwd p)). unfold kstrlen.
  assert (Hc : path_comps (cwd p ++ (if 1 <? Z.of_nat (length (cwd p)) then [SLASH] else []) ++ path) =
               path_comps (cwd p) ++ path_comps path).
  { destruct (Z.ltb_spec 1 (Z.of_nat (length (cwd p)))); [apply path_comps_app|].
    destruct (cwd p) as [|c [|c' l]]; [done| |cbn [length] in *; lia]. injection Hh as ->. cbn [app].
    by rewrite path_comps_slash. }
  rewrite Hc, walk_path_app, Hw.
  destruct (decide (path = [])) as [->|Hne].
  - cbn [path_comps comps_acc walk_path last]. rewrite Hd, andb_false_r. by rewrite andb_false_r.
  - destruct (walk_path ns d (path_comps path)) as [e|n]; [done|].
    rewrite app_assoc, last_app_slash by done. done.
Qed.

(** ** Building the tree *)

Lemma siblings_ext ns ns' l : (forall x, x ∈ l -> sibling (at_node ns' x) = sibling (at_node ns x)) ->
  forall c, siblings ns c l -> siblings ns' c l.
Proof.
  induction l as [|x l IH]; intros He c Hs; [done|]. destruct Hs as (-> & Hx & Hs). cbn [siblings].
  split_and!; [done|done|]. rewrite He by (by left). apply IH; [|done]. intros y Hy. apply He. by right.
Qed.

Lemma last_sibling_spec ns x l : forall fuel c, siblings ns c (l ++ [x]) -> (length l < fuel)%nat ->
  last_sibling fuel ns c = x.
Proof.
  induction l as [|y l IH]; intros fuel c Hs Hf; (destruct fuel as [|fuel]; [cbn in Hf; lia|]); cbn [last_sibling].
  - destruct Hs as (-> & _ & Hs). cbn in Hs. by rewrite Hs.
  - destruct Hs as (-> & _ & Hs). cbn [length] in Hf.
    destruct (Z.eqb_spec (sibling (at_node ns y)) 0) as [E|].
    + rewrite E in Hs. destruct l; destruct Hs as (<- & ? & _); done.
    + apply IH; [done|lia].
Qed.

Lemma siblings_snoc ns ns' a x l : (forall y, y ∈ l -> sibling (at_node ns' y) = sibling (at_node ns y)) ->
  sibling (at_node ns' x) = a -> sibling (at_node ns' a) = 0 -> a <> 0 ->
  forall c, siblings ns c (l ++ [x]) -> siblings ns' c ((l ++ [x]) ++ [a]).
Proof.
  intros He Hx Ha Ha0. induction l as [|y l IH]; intros c Hs.
  - destruct Hs as (-> & Hx0 & _). cbn [app siblings]. by rewrite Hx.
  - destruct Hs as (-> & Hy & Hs). cbn [app siblings]. split_and!; [done|done|]. rewrite He by (by left).
    apply IH; [|done]. intros z Hz. apply He. by right.
Qed.

(** Nodes that differ at most in the child and sibling pointers. *)
Record same_node (n m : vfs_node_t) : Prop := {
  sn_kind : kind m = kind n;
  sn_name : nname m = nname n;
  sn_parent : parent m = parent n;
  sn_data : vdata m = vdata n /\ vsize m = vsize n
}.

Lemma same_node_refl n : same_node n n.
Proof. by split. Qed.

Lemma at_node_insert ns a n x : at_node (<[a := n]> ns) x = if decide (a = x) then n else at_node ns x.
Proof.
  unfold at_node. case_decide as Hd; [subst; by rewrite lookup_insert_eq|by rewrite lookup_insert_ne].
Qed.

Lemma insert_is_Some (ns : tree) a n x : is_Some (<[a := n]> ns !! x) <-> x = a \/ is_Some (ns !! x).
Proof.
  destruct (decide (a = x)) as [->|Hne].
  - rewrite lookup_insert_eq. split; [by left|done].
  - rewrite lookup_insert_ne by done. split; [by right|]. by intros [->|?].
Qed.

Lemma graft_spec ns root dir a k nm dat l : tree_ok ns root -> kids_ok ns root dir l ->
  is_Some (ns !! dir) -> ns !! a = None -> a <> 0 ->
  let leaf := VfsNode k nm 0 0 0 dat (Z.of_nat (length dat)) in
  let ns' := (tree_add_child (<[a := leaf]> ns) dir a).2 in
  (forall x, is_Some (ns' !! x) <-> x = a \/ is_Some (ns !! x)) /\
  (same_node (set_parent leaf dir) (at_node ns' a) /\ child (at_node ns' a) = 0) /\
  (forall x, x <> a -> same_node (at_node ns x) (at_node ns' x)) /\
  siblings ns' (child (at_node ns' dir)) (l ++ [a]) /\
  (forall d l', d <> a -> d <> dir -> siblings ns (child (at_node ns d)) l' ->
     (forall x, x ∈ l' -> x <> a /\ x ∉ l) -> siblings ns' (child (at_node ns' d)) l').
Proof.
  intros Ht Hk Hdir Ha Ha0. cbn zeta. set (leaf := VfsNode k nm 0 0 0 dat _).
  assert (Hda : dir <> a) by (intros ->; rewrite Ha in Hdir; by destruct Hdir).
  assert (Had : a <> dir) by congruence.
  assert (Hd0 : dir <> 0) by (intros ->; rewrite (to_null _ _ Ht) in Hdir; by destruct Hdir).
  pose proof Hk as [Hs Hnd Hi _]. unfold tree_add_child.
  rewrite (proj2 (Z.eqb_neq dir 0) Hd0), (proj2 (Z.eqb_neq a 0) Ha0). cbn [orb].
  set (ns2 := <[a := _]> (<[a := leaf]> ns)).
  assert (Hn2 : forall x, at_node ns2 x = if decide (a = x) then set_parent leaf dir else at_node ns x).
  { intros x. unfold ns2. rewrite !at_node_insert. rewrite (decide_True (P := a = a)) by done. by repeat case_decide. }
  assert (Hdom2 : forall x, is_Some (ns2 !! x) <-> x = a \/ is_Some (ns !! x)).
  { intros x. unfold ns2. rewrite !insert_is_Some. tauto. }
  assert (Hinl : forall x, x ∈ l -> x <> a /\ is_Some (ns !! x)).
  { intros x Hx. apply Hi in Hx as (Hx & _ & _). split; [|done]. intros ->. rewrite Ha in Hx. by destruct Hx. }
  rewrite Hn2, decide_False by done.
  destruct l as [|y l] using rev_ind; [|clear IHl].
  - cbn in Hs. rewrite Hs, Z.eqb_refl. cbn [snd].
    assert (Hn' : forall x, at_node (<[dir := set_child (at_node ns dir) a]> ns2) x =
      if decide (dir = x) then set_child (at_node ns dir) a else if decide (a = x) then set_parent leaf dir else at_node ns x).
    { intros x. by rewrite at_node_insert, Hn2. }
    split_and!.
    + intros x. rewrite insert_is_Some, Hdom2. split; [intros [->|?]; [by right|done]|by right].
    + rewrite Hn', decide_False, decide_True by done. apply same_node_refl.
    + rewrite Hn', decide_False, decide_True by done. done.
    + intros x Hx. rewrite Hn'. case_decide as E; [subst; by split|]. rewrite decide_False by done. apply same_node_refl.
    + rewrite Hn', decide_True by done. cbn [app siblings child set_child]. split_and!; [done|done|].
      rewrite Hn', decide_False, decide_True by done. done.
    + intros d l' Hda' Hdd Hsd Hl'. rewrite Hn', !decide_False by done. eapply siblings_ext; [|exact Hsd].
      intros x Hx. rewrite Hn'. case_decide; [subst; done|]. rewrite decide_False; [done|].
      intros ->. by destruct (Hl' x Hx).
  - assert (Hne : child (at_node ns dir) <> 0).
    { destruct l; destruct Hs as (-> & ? & _); done. }
    rewrite (proj2 (Z.eqb_neq _ _) Hne). cbn [snd].
    assert (Hs2 : siblings ns2 (child (at_node ns dir)) (l ++ [y])).
    { eapply siblings_ext; [|exact Hs]. intros x Hx. rewrite Hn2, decide_False; [done|].
      intros <-. by destruct (Hinl a Hx). }
    assert (Hlen : (length l < size ns2)%nat).
    { pose proof (kids_length _ _ _ _ Hk) as Hl. rewrite length_app in Hl. cbn [length] in Hl.
      unfold ns2. rewrite map_size_insert_Some by (rewrite lookup_insert_eq; eauto).
      rewrite map_size_insert_None by done. lia. }
    rewrite (last_sibling_spec ns2 y l _ _ Hs2 Hlen).
    destruct (Hinl y ltac:(set_solver +)) as [Hya Hyin].
    assert (Hay : a <> y) by congruence.
    assert (Hn' : forall x, at_node (<[y := set_sibling (at_node ns2 y) a]> ns2) x =
      if decide (y = x) then set_sibling (at_node ns y) a else if decide (a = x) then set_parent leaf dir else at_node ns x).
    { intros x. rewrite at_node_insert, !Hn2. by rewrite (decide_False (P := a = y)). }
    assert (Hch : forall x, x <> a -> child (at_node (<[y := set_sibling (at_node ns2 y) a]> ns2) x) = child (at_node ns x)).
    { intros x Hx. rewrite Hn'. case_decide as E; [by subst|]. by rewrite decide_False. }
    split_and!.
    + intros x. rewrite insert_is_Some, Hdom2. split; [intros [->|?]; [by right|done]|by right].
    + rewrite Hn', decide_False, decide_True by done. apply same_node_refl.
    + rewrite Hn', decide_False, decide_True by done. done.
    + intros x Hx. rewrite Hn'. case_decide as E; [subst; by split|]. rewrite decide_False by done. apply same_node_refl.
    + rewrite Hch by done. eapply siblings_snoc; [| | |done|exact Hs].
      * intros x Hx. rewrite Hn', !decide_False; [done| |].
        -- intros <-. by destruct (Hinl a ltac:(set_solver)).
        -- intros <-. apply NoDup_app in Hnd as (_ & Hnd & _). by apply (Hnd y); [|left].
      * by rewrite Hn', decide_True.
      * by rewrite Hn', decide_False, decide_True.
    + intros d l' Hda' Hdd Hsd Hl'. rewrite Hch by done. eapply siblings_ext; [|exact Hsd].
      intros x Hx. destruct (Hl' x Hx) as [Hxa Hxl]. rewrite Hn', !decide_False; [done|congruence|].
      intros <-. apply Hxl. set_solver +.
Qed.

(** The names below a directory are among [U]. *)
Definition names_below (ns : tree) (root d : Z) (U : list (list Z)) : Prop :=
  forall x, is_Some (ns !! x) -> x <> root -> parent (at_node ns x) = d -> nname (at_node ns x) ∈ U.

Lemma graft_ok ns root dir a k nm dat U : tree_ok ns root -> is_Some (ns !! dir) ->
  kind (at_node ns dir) = VFS_DIR -> ns !! a = None -> a <> 0 -> valid_name nm ->
  file_data dat -> names_below ns root dir U -> nm ∉ U ->
  let leaf := VfsNode k nm 0 0 0 dat (Z.of_nat (length dat)) in
  let ns' := (tree_add_child (<[a := leaf]> ns) dir a).2 in
  tree_ok ns' root /\ is_Some (ns' !! a) /\ kind (at_node ns' a) = k /\
  (forall x, is_Some (ns !! x) -> is_Some (ns' !! x) /\ kind (at_node ns' x) = kind (at_node ns x)) /\
  names_below ns' root dir (nm :: U) /\ names_below ns' root a [] /\
  (forall d V, d <> dir -> d <> a -> names_below ns root d V -> names_below ns' root d V).
Proof.
  intros Ht Hdir Hkd Ha Ha0 Hv Hsz HU HnU. cbn zeta.
  destruct (to_kids _ _ Ht dir Hdir) as [l Hk].
  destruct (graft_spec ns root dir a k nm dat l Ht Hk Hdir Ha Ha0) as (G1 & (G2 & G2c) & G3 & G4 & G5).
  set (leaf := VfsNode k nm 0 0 0 dat _) in *. set (ns' := (tree_add_child _ _ _).2) in *.
  destruct (to_root _ _ Ht) as (R1 & R2 & R3).
  assert (Har : a <> root) by (intros ->; rewrite Ha in R1; by destruct R1).
  assert (Hda : dir <> a) by (intros ->; rewrite Ha in Hdir; by destruct Hdir).
  assert (Hin : forall x, is_Some (ns !! x) -> x <> a) by (intros x Hx ->; rewrite Ha in Hx; by destruct Hx).
  destruct G2 as [La Lb Lc Ld]. cbn [kind nname parent vdata vsize set_parent leaf] in La, Lb, Lc, Ld.
  assert (Hpar : forall x, is_Some (ns !! x) -> x <> root -> parent (at_node ns x) <> a).
  { intros x [nd Hx] Hxr He. rewrite (at_node_Some _ _ _ Hx) in He.
    destruct (to_node _ _ Ht x nd Hx Hxr) as (_ & Hp & _). rewrite He in Hp. by apply Hin in Hp. }
  assert (Hbelow : forall d V, d <> dir -> d <> a -> names_below ns root d V -> names_below ns' root d V).
  { intros d V Hd1 Hd2 HV x Hx Hxr Hp. apply G1 in Hx as [->|Hx]; [congruence|].
    destruct (G3 x (Hin x Hx)) as [_ E2 E3 _]. rewrite E2. apply HV; [done|done|congruence]. }
  split_and!.
  - split.
    + destruct (ns' !! 0) as [nd|] eqn:E; [|done]. assert (H0 : is_Some (ns' !! 0)) by eauto.
      apply G1 in H0 as [?|H0]; [congruence|]. rewrite (to_null _ _ Ht) in H0. by destruct H0.
    + destruct (G3 root) as [E1 _ E3 _]; [congruence|]. split_and!; [apply G1; by right|congruence|congruence].
    + intros x nd Hx Hxr. rewrite <- (at_node_Some _ _ _ Hx).
      assert (Hs : is_Some (ns' !! x)) by eauto. apply G1 in Hs as [->|[nd0 Hx0]].
      * rewrite Lb, Lc. split_and!; [done|apply G1; by right|]. destruct (G3 dir Hda) as [E1 _ _ _]. congruence.
      * destruct (G3 x (Hin x (ex_intro _ nd0 Hx0))) as [_ E2 E3 _]. rewrite E2, E3, (at_node_Some _ _ _ Hx0).
        destruct (to_node _ _ Ht x nd0 Hx0 Hxr) as (Hvx & Hpx & Hkx). split_and!; [done|apply G1; by right|].
        destruct (G3 _ (Hin _ Hpx)) as [E1 _ _ _]. congruence.
    + intros x nd Hx. rewrite <- (at_node_Some _ _ _ Hx).
      assert (Hs : is_Some (ns' !! x)) by eauto. apply G1 in Hs as [->|[nd0 Hx0]].
      * destruct Ld as [-> ->]. done.
      * destruct (G3 x (Hin x (ex_intro _ nd0 Hx0))) as [_ _ _ [-> ->]]. rewrite (at_node_Some _ _ _ Hx0).
        by apply (to_size _ _ Ht x).
    + intros d Hd. apply G1 in Hd as [->|Hd].
      * exists []. split; [done|constructor| |constructor]. intros x. split; [by intros ?%not_elem_of_nil|].
        intros (Hx & Hxr & Hp). exfalso. apply G1 in Hx as [->|Hx]; [congruence|].
        destruct (G3 x (Hin x Hx)) as [_ _ E3 _]. apply (Hpar x Hx Hxr). congruence.
      * destruct (decide (d = dir)) as [->|Hne].
        -- exists (l ++ [a]). destruct Hk as [K1 K2 K3 K4]. split; [done| | |].
           ++ apply NoDup_app. split_and!; [done| |apply NoDup_singleton].
              intros x Hx ->%list_elem_of_singleton. apply K3 in Hx as (Hx & _). by apply Hin in Hx.
           ++ intros x. rewrite elem_of_app, list_elem_of_singleton, K3. split.
              ** intros [(Hx & Hxr & Hp)| ->]; [|split_and!; [apply G1; by left|done|done]].
                 destruct (G3 x (Hin x Hx)) as [_ _ E3 _]. split_and!; [apply G1; by right|done|congruence].
              ** intros (Hx & Hxr & Hp). apply G1 in Hx as [->|Hx]; [by right|]. left.
                 destruct (G3 x (Hin x Hx)) as [_ _ E3 _]. split_and!; [done|done|congruence].
           ++ rewrite fmap_app. cbn [fmap list_fmap]. rewrite Lb.
              assert (Hsame : (fun x => nname (at_node ns' x)) <$> l = (fun x => nname (at_node ns x)) <$> l).
              { apply list_fmap_ext. intros i x Hx%list_elem_of_lookup_2. apply K3 in Hx as (Hx & _).
                by destruct (G3 x (Hin x Hx)). }
              rewrite Hsame. apply NoDup_app. split_and!; [done| |apply NoDup_singleton].
              intros n (x & -> & Hx)%list_elem_of_fmap Hn%list_elem_of_singleton. apply K3 in Hx as (Hx & Hxr & Hp).
              apply HnU. rewrite <- Hn. by apply HU.
        -- destruct (to_kids _ _ Ht d Hd) as [l' [K1 K2 K3 K4]]. exists l'. split.
           ++ apply G5; [by apply Hin|done|done|]. intros x Hx. apply K3 in Hx as (Hx & Hxr & Hp).
              split; [by apply Hin|]. intros Hxl. apply (ko_iff _ _ _ _ Hk) in Hxl as (_ & _ & Hp'). congruence.
           ++ done.
           ++ intros x. rewrite K3. split.
              ** intros (Hx & Hxr & Hp). destruct (G3 x (Hin x Hx)) as [_ _ E3 _].
                 split_and!; [apply G1; by right|done|congruence].
              ** intros (Hx & Hxr & Hp). apply G1 in Hx as [->|Hx]; [congruence|].
                 destruct (G3 x (Hin x Hx)) as [_ _ E3 _]. split_and!; [done|done|congruence].
           ++ erewrite list_fmap_ext; [exact K4|]. intros i x Hx%list_elem_of_lookup_2. apply K3 in Hx as (Hx & _).
              by destruct (G3 x (Hin x Hx)).
  - apply G1. by left.
  - done.
  - intros x Hx. split; [apply G1; by right|]. by destruct (G3 x (Hin x Hx)).
  - intros x Hx Hxr Hp. apply G1 in Hx as [->|Hx]; [rewrite Lb; by left|]. right.
    destruct (G3 x (Hin x Hx)) as [_ E2 E3 _]. rewrite E2. apply HU; [done|done|congruence].
  - intros x Hx Hxr Hp. exfalso. apply G1 in Hx as [->|Hx]; [congruence|].
    destruct (G3 x (Hin x Hx)) as [_ _ E3 _]. apply (Hpar x Hx Hxr). congruence.
  - done.
Qed.

Section Build.
Context {H : Type} `{KH : KernelHeap H} {inv : gset Z -> H -> Prop} `{KL : !KernelHeapLaws H inv}.
Implicit Types v : @vfs H.

Lemma kmalloc_cases L h n : 0 < n < 2 ^ 28 -> clear_size n -> inv L h ->
  let '(a, h') := kmalloc h n in
  (a = 0 /\ inv L h') \/ (a <> 0 /\ a ∉ L /\ inv ({[a]} ∪ L) h').
Proof.
  intros Hn Hc Hi. pose proof (kmalloc_fresh L h n Hn Hc Hi) as Hk. destruct (kmalloc h n) as [a h'].
  destruct (Z.eqb_spec a 0); [by left|right]. by destruct Hk.
Qed.

(** The heap holds the tree's nodes and other live objects. *)
Definition heap_holds v (L : gset Z) : Prop := inv L (v_heap v) /\ forall a, is_Some (nodes v !! a) -> a ∈ L.

Lemma new_node_spec v L k nm dat sz : heap_holds v L -> (length nm <= 95)%nat ->
  let '(a, v') := new_node v k nm dat sz in
  g_root v' = g_root v /\ files v' = files v /\
  ((a = 0 /\ nodes v' = nodes v /\ heap_holds v' L) \/
   (a <> 0 /\ nodes v !! a = None /\ nodes v' = <[a := VfsNode k nm 0 0 0 dat sz]> (nodes v) /\
    heap_holds v' ({[a]} ∪ L))).
Proof.
  intros [Hi Hn] Hl. unfold new_node. pose proof (kmalloc_cases L (v_heap v) NODE_SIZE ltac:(done) ltac:(by intros []) Hi) as Hk.
  destruct (kmalloc (v_heap v) NODE_SIZE) as [a h]. destruct Hk as [[-> Hk]|(Ha & HaL & Hk)].
  - split_and!; [done|done|]. left. by split_and!.
  - rewrite (proj2 (Z.eqb_neq a 0) Ha), take_ge by done. split_and!; [done|done|]. right.
    split_and!; [done| |done|split; [done|]].
    + destruct (nodes v !! a) eqn:E; [|done]. destruct HaL. apply Hn. eauto.
    + cbn [nodes with_nodes with_vheap]. intros x Hx. apply insert_is_Some in Hx as [->|Hx]; [set_solver +|].
      apply elem_of_union. right. by apply Hn.
Qed.

(** The state while the tree is being built: [d] is a directory with names among
  [U] below it. *)
Record building v (L : gset Z) (root : Z) : Prop := {
  bu_heap : heap_holds v L;
  bu_root : g_root v = root;
  bu_tree : tree_ok (nodes v) root;
  bu_files : files v = ∅
}.

Lemma build_entry_spec v L root d k nm dat U : building v L root -> is_Some (nodes v !! d) ->
  kind (at_node (nodes v) d) = VFS_DIR -> valid_name nm -> file_data dat ->
  names_below (nodes v) root d U -> nm ∉ U ->
  let '(a, v') := build_entry v d k nm dat in
  exists L', building v' L' root /\
  (forall x, is_Some (nodes v !! x) -> is_Some (nodes v' !! x) /\ kind (at_node (nodes v') x) = kind (at_node (nodes v) x)) /\
  names_below (nodes v') root d (nm :: U) /\
  (a <> 0 -> is_Some (nodes v' !! a) /\ kind (at_node (nodes v') a) = k /\ names_below (nodes v') root a []) /\
  size (nodes v') = if a =? 0 then size (nodes v) else S (size (nodes v)).
Proof.
  intros [Hh Hr Ht Hf] Hd Hk Hv Hsz HU Hn. unfold build_entry.
  assert (Hd0 : d <> 0) by (intros ->; rewrite (to_null _ _ Ht) in Hd; by destruct Hd).
  assert (Hl95 : (length nm <= 95)%nat) by (destruct Hv as (_ & _ & Hl & _); unfold VFS_NAME_MAX in Hl; lia).
  pose proof (new_node_spec v L k nm dat (Z.of_nat (length dat)) Hh Hl95) as Hs.
  destruct (new_node v k nm dat _) as [a v1]. destruct Hs as (Hr1 & Hf1 & [(-> & Hn1 & Hh1)|(Ha & Hfresh & Hn1 & Hh1)]).
  - exists L. cbn [negb andb Z.eqb]. split_and!; [split; congruence| | |done|by rewrite Hn1].
    + by rewrite Hn1.
    + rewrite Hn1. intros x Hx Hxr Hp. right. by apply HU.
  - rewrite (proj2 (Z.eqb_neq a 0) Ha), (proj2 (Z.eqb_neq d 0) Hd0). cbn [negb andb].
    destruct (graft_ok (nodes v) root d a k nm dat U Ht Hd Hk Hfresh Ha Hv Hsz HU Hn) as (T & A1 & A2 & Hold & B1 & B2 & _).
    unfold add_child. rewrite Hn1. cbn [nodes with_nodes]. exists ({[a]} ∪ L). split_and!.
    + split; cbn [nodes with_nodes g_root files v_heap]; [|congruence|done|congruence]. split; [apply Hh1|].
      cbn [nodes with_nodes]. intros x Hx. destruct Hh as [_ Hh].
      destruct (to_kids _ _ Ht d Hd) as [l Hkl].
      destruct (graft_spec (nodes v) root d a k nm dat l Ht Hkl Hd Hfresh Ha) as (G1 & _).
      apply G1 in Hx as [->|Hx]; [set_solver +|]. apply elem_of_union. right. by apply Hh.
    + exact Hold.
    + exact B1.
    + by intros _.
    + destruct (to_kids _ _ Ht d Hd) as [l Hkl].
      destruct (graft_spec (nodes v) root d a k nm dat l Ht Hkl Hd Hfresh Ha) as (G1 & _).
      rewrite <- !size_dom. erewrite (leibniz_equiv (dom _)).
      2: { instantiate (1 := {[a]} ∪ dom (nodes v)). intros x. rewrite elem_of_union, elem_of_singleton, !elem_of_dom.
           apply G1. }
      rewrite size_union, size_singleton; [by rewrite (proj2 (Z.eqb_neq a 0) Ha)|]. intros x ->%elem_of_singleton Hx. apply elem_of_dom in Hx.
      rewrite Hfresh in Hx. by destruct Hx.
Qed.

Lemma new_node_size v k nm dat sz : (size (nodes (new_node v k nm dat sz).2) <= S (size (nodes v)))%nat.
Proof.
  unfold new_node. destruct (kmalloc (v_heap v) NODE_SIZE) as [a h]. case_if; cbn [snd nodes with_nodes with_vheap]; [lia|].
  destruct (nodes v !! a) eqn:E; [rewrite map_size_insert_Some by eauto; lia|rewrite map_size_insert_None by done; lia].
Qed.

Lemma root_tree a : a <> 0 -> tree_ok {[a := VfsNode VFS_DIR [] 0 0 0 [] 0]} a.
Proof.
  intros Ha. assert (Hl : forall x n, ({[a := VfsNode VFS_DIR [] 0 0 0 [] 0]} : tree) !! x = Some n ->
    x = a /\ n = VfsNode VFS_DIR [] 0 0 0 [] 0).
  { intros x n Hx. apply lookup_singleton_Some in Hx as [-> <-]. done. }
  assert (Hat : at_node {[a := VfsNode VFS_DIR [] 0 0 0 [] 0]} a = VfsNode VFS_DIR [] 0 0 0 [] 0).
  { apply at_node_Some. by rewrite lookup_singleton_eq. }
  split.
  - by rewrite lookup_singleton_ne.
  - rewrite Hat. split_and!; [|done|done]. by rewrite lookup_singleton_eq.
  - intros x n Hx. apply Hl in Hx as [-> _]. done.
  - intros x n Hx. apply Hl in Hx as [_ ->]. split; [done|split; [done|constructor]].
  - intros d [n Hd]. apply Hl in Hd as [-> _]. exists []. split; [by rewrite Hat|constructor| |constructor].
    intros x. split; [by intros ?%not_elem_of_nil|]. intros ([n' Hx] & Hx' & _). by apply Hl in Hx as [-> _].
Qed.

Ltac data_ok := split; [done|repeat constructor; done].
Ltac name_ok := split_and!; [done|by intros Hin; repeat (apply elem_of_cons in Hin as [?|Hin]; [done|]); apply not_elem_of_nil in Hin|done..].

(** The tree built at boot is well formed, when the heap had room for its five
  nodes. *)
Lemma voidfs_init_ok L h : inv L h -> size (nodes (voidfs_init h)) = 5%nat ->
  tree_ok (nodes (voidfs_init h)) (g_root (voidfs_init h)) /\ files (voidfs_init h) = ∅ /\
  exists L', heap_holds (voidfs_init h) L'.
Proof.
  intros Hi. unfold voidfs_init, vfs_build_tree.
  assert (Hh0 : heap_holds (Vfs ∅ 0 ∅ h) L).
  { split; [done|]. intros a Ha. cbn in Ha. rewrite lookup_empty in Ha. by destruct Ha. }
  pose proof (new_node_spec _ L VFS_DIR [] [] 0 Hh0 ltac:(cbn; lia)) as Hs.
  destruct (new_node (Vfs ∅ 0 ∅ h) VFS_DIR [] [] 0) as [root v0].
  destruct Hs as (_ & Hf0 & [(-> & Hn0 & _)|(Hr & _ & Hn0 & Hh1)]).
  { cbn [Z.eqb]. rewrite Hn0. cbn [nodes]. intros Hsz. by rewrite map_size_empty in Hsz. }
  rewrite (proj2 (Z.eqb_neq root 0) Hr).
  set (v1 := Vfs (nodes v0) root (files v0) (v_heap v0)).
  assert (Hn1 : nodes v1 = {[root := VfsNode VFS_DIR [] 0 0 0 [] 0]}) by (cbn; by rewrite Hn0).
  assert (B1 : building v1 ({[root]} ∪ L) root).
  { split; [done|done| |done]. rewrite Hn1. by apply root_tree. }
  assert (S1 : size (nodes v1) = 1%nat) by (rewrite Hn1; apply map_size_singleton).
  assert (D1 : is_Some (nodes v1 !! root) /\ kind (at_node (nodes v1) root) = VFS_DIR) by (by split; apply (bu_tree _ _ _ B1)).
  assert (N1 : names_below (nodes v1) root root []).
  { rewrite Hn1. intros x [n Hx] Hxr. apply lookup_singleton_Some in Hx as [-> _]. done. }
  clearbody v1. destruct D1 as [D1 K1].
  pose proof (build_entry_spec v1 _ root root VFS_REG (str "hello.txt") hello_data [] B1 D1 K1
    ltac:(by vm_compute; name_ok) ltac:(data_ok) N1 ltac:(apply not_elem_of_nil)) as Hs.
  destruct (build_entry v1 root VFS_REG _ _) as [hello v2]. destruct Hs as (L2 & B2 & Hold2 & N2 & _ & S2).
  destruct (Hold2 root D1) as [D2 K2]. rewrite K1 in K2.
  pose proof (build_entry_spec v2 _ root root VFS_REG (str "test.txt") test_data _ B2 D2 K2
    ltac:(by vm_compute; name_ok) ltac:(data_ok) N2 ltac:(by apply (bool_decide_unpack _); vm_compute)) as Hs.
  destruct (build_entry v2 root VFS_REG _ _) as [test v3]. destruct Hs as (L3 & B3 & Hold3 & N3 & _ & S3).
  destruct (Hold3 root D2) as [D3 K3]. rewrite K2 in K3.
  pose proof (build_entry_spec v3 _ root root VFS_DIR (str "etc") [] _ B3 D3 K3
    ltac:(by vm_compute; name_ok) ltac:(data_ok) N3 ltac:(by apply (bool_decide_unpack _); vm_compute)) as Hs.
  destruct (build_entry v3 root VFS_DIR _ _) as [etc v4]. destruct Hs as (L4 & B4 & Hold4 & N4 & Hetc & S4).
  destruct (Z.eqb_spec etc 0) as [->|He].
  - intros Hsz. exfalso. unfold build_entry in Hsz.
    pose proof (new_node_size v4 VFS_REG (str "version.txt") version_data (Z.of_nat (length version_data))) as Hn.
    destruct (new_node v4 _ _ _ _) as [a v5]. cbn [Z.eqb negb] in Hsz. rewrite andb_false_r in Hsz. cbn [snd] in Hn.
    rewrite Hsz in Hn. destruct (hello =? 0), (test =? 0); lia.
  - destruct (Hetc He) as (D4 & K4 & N4').
    pose proof (build_entry_spec v4 _ root etc VFS_REG (str "version.txt") version_data [] B4 D4 K4
      ltac:(by vm_compute; name_ok) ltac:(data_ok) N4' ltac:(apply not_elem_of_nil)) as Hs.
    destruct (build_entry v4 etc VFS_REG _ _) as [a v5]. destruct Hs as (L5 & B5 & _). intros _.
    destruct B5 as [Hh -> Ht Hf]. split_and!; [done|done|by exists L5].
Qed.
End Build.
