(* ===== verification/VfsFiles.v ===== *)
(** * Open files: descriptors, reference counts, reading and the system calls

  The properties of the file system.  The definitions are those of [Vfs]; the
  tree and its paths are treated in [VfsTree]. *)
From S2P Require Import Prelude Pmm PhysMem Vmm ProcData UserMem AddrSpace UserOps Teardown Uaccess Interfaces.
From S2P Require Import Vfs VfsTree.

(** ** Counting references *)

Lemma sum_insert {A} (f : A -> nat) (l : list A) i x y : l !! i = Some x ->
  (sum_list (f <$> <[i := y]> l) + f x = sum_list (f <$> l) + f y)%nat.
Proof.
  revert i. induction l as [|z l IH]; intros [|i] Hi; try done.
  - injection Hi as ->. cbn [sum_list fmap list_fmap]. change (<[0%nat := y]> (x :: l)) with (y :: l). cbn. lia.
  - change (<[S i := y]> (z :: l)) with (z :: <[i := y]> l). cbn [sum_list fmap list_fmap foldr].
    specialize (IH i Hi). unfold sum_list in *. cbn in *. lia.
Qed.

Lemma sum_le {A} (f : A -> nat) (l : list A) x : x ∈ l -> (f x <= sum_list (f <$> l))%nat.
Proof.
  intros Hx. induction Hx as [x l|x y l _ IH]; cbn; unfold sum_list in *; cbn in *; lia.
Qed.

(** [1] for a descriptor of the object [a]. *)
Definition fd_points (a : Z) (e : fd_entry_t) : nat :=
  if bool_decide (fd_type e = FD_VFS /\ fd_object e = a) then 1 else 0.

Definition count_refs (es : list fd_entry_t) (a : Z) : nat := sum_list (fd_points a <$> es).
Definition fd_refs (p : process_t) (a : Z) : nat := count_refs (fds p) a.
Definition refs (ps : list process_t) (a : Z) : nat := sum_list ((fun p => fd_refs p a) <$> ps).

Lemma count_refs_cons e es a : count_refs (e :: es) a = (fd_points a e + count_refs es a)%nat.
Proof. done. Qed.

Lemma fd_refs_set p fd e e' a : fds p !! fd = Some e ->
  (fd_refs (set_fd p fd e') a + fd_points a e = fd_refs p a + fd_points a e')%nat.
Proof. intros He. unfold fd_refs, set_fd, count_refs. cbn [fds set_fds]. by apply sum_insert. Qed.

Lemma refs_set ps i p p' a : ps !! i = Some p ->
  (refs (<[i := p']> ps) a + fd_refs p a = refs ps a + fd_refs p' a)%nat.
Proof. intros Hp. unfold refs. by apply (sum_insert (fun p => fd_refs p a)). Qed.

Lemma fd_points_none a : fd_points a fd_none = 0%nat.
Proof. unfold fd_points. rewrite bool_decide_eq_false_2; [done|]. by intros [? _]. Qed.

Lemma fd_points_vfs a b off : fd_points a (FdEntry FD_VFS b off) = if bool_decide (b = a) then 1%nat else 0%nat.
Proof. unfold fd_points. cbn. repeat case_bool_decide; naive_solver. Qed.

(** The copy of the descriptor table that [process_fork_current] makes: every
  open file gets one more reference. *)
Section Files.
Context {M : Type} `{UA : UserAccess M process_t}.
Context {H : Type} `{KH : KernelHeap H} {inv : gset Z -> H -> Prop} `{KL : !KernelHeapLaws H inv}.
Implicit Types v : @vfs H.

Definition dup_fd v (e : fd_entry_t) : @vfs H :=
  if bool_decide (fd_type e = FD_VFS) && negb (fd_object e =? 0) then vfs_file_ref_inc v (fd_object e) else v.

Definition fork_fds v (p c : process_t) : @vfs H * process_t := (foldl dup_fd v (fds p), set_fds c (fds p)).

(** Every object's count is [C], and objects without references are gone. *)
Definition counted v (C : Z -> nat) : Prop :=
  forall a, match files v !! a with
            | Some f => refcount f = Z.of_nat (C a) /\ (0 < C a)%nat
            | None => C a = 0%nat
            end.

(** The heap's live objects include the open files and the nodes, which are
  distinct. *)
Record held v : Prop := {
  hd_heap : exists L, inv L (v_heap v) /\ (forall a, is_Some (files v !! a) -> a ∈ L) /\
    (forall a, is_Some (nodes v !! a) -> a ∈ L);
  hd_apart : forall a, is_Some (files v !! a) -> nodes v !! a = None
}.

Lemma counted_ext v C C' : (forall a, C a = C' a) -> counted v C -> counted v C'.
Proof. intros He Hc a. specialize (Hc a). by rewrite <- He. Qed.

Lemma counted_live v C a : counted v C -> (0 < C a)%nat <-> is_Some (files v !! a).
Proof. intros Hc. specialize (Hc a). destruct (files v !! a); split; intros; try (done || lia). Qed.

Lemma insert_file v a f (x : Z) : is_Some (files v !! a) ->
  is_Some (<[a := f]> (files v) !! x) <-> is_Some (files v !! x).
Proof.
  intros Ha. destruct (decide (a = x)) as [->|]; [by rewrite lookup_insert_eq|by rewrite lookup_insert_ne].
Qed.

Lemma held_update v a f : held v -> is_Some (files v !! a) -> held (with_files v (<[a := f]> (files v))).
Proof.
  intros [(L & Hi & Hf & Hn) Ha] Hx. split; cbn [files nodes v_heap with_files].
  - exists L. split_and!; [done| |done]. intros b Hb. apply Hf. by apply (insert_file v a f b Hx).
  - intros b Hb. apply Ha. by apply (insert_file v a f b Hx).
Qed.

Lemma drop_ref_spec v C a : counted v C -> held v -> (0 < C a)%nat ->
  counted (drop_ref v a) (fun x => if decide (x = a) then C a - 1 else C x)%nat /\ held (drop_ref v a) /\
  nodes (drop_ref v a) = nodes v /\ g_root (drop_ref v a) = g_root v.
Proof.
  intros Hc Hh Ha. unfold drop_ref. pose proof (Hc a) as Hca.
  destruct (files v !! a) as [f|] eqn:Ef; [|lia]. destruct Hca as [Hr _]. cbn [refcount set_refcount].
  destruct (Z.leb_spec (refcount f - 1) 0) as [Hz|Hz].
  - split_and!; [| |done|done].
    + intros x. cbn [files with_vheap with_files]. case_decide as Hx.
      * subst. rewrite lookup_delete_eq. lia.
      * rewrite lookup_delete_ne by done. apply Hc.
    + destruct Hh as [(L & Hi & Hf & Hn) Hap].
      assert (HaL : a ∈ L) by (apply Hf; eauto).
      split; cbn [files nodes v_heap with_vheap with_files].
      * exists (L ∖ {[a]}). split_and!; [by apply kfree_inv| |].
        -- intros x Hx. destruct (decide (x = a)) as [->|Hne]; [rewrite lookup_delete_eq in Hx; by destruct Hx|].
           rewrite lookup_delete_ne in Hx by done. apply Hf in Hx. set_solver.
        -- intros x Hx. apply elem_of_difference. split; [by apply Hn|]. intros ->%elem_of_singleton.
           rewrite Hap in Hx by eauto. by destruct Hx.
      * intros x Hx. apply Hap. destruct (decide (x = a)) as [->|Hne]; [eauto|]. by rewrite lookup_delete_ne in Hx.
  - split_and!; [|apply held_update; [done|eauto]|done|done].
    intros x. cbn [files with_files]. case_decide as Hx.
    + subst. rewrite lookup_insert_eq. cbn [refcount set_refcount]. lia.
    + rewrite lookup_insert_ne by done. apply Hc.
Qed.

Lemma ref_inc_spec v C a : counted v C -> held v -> (0 < C a)%nat ->
  counted (vfs_file_ref_inc v a) (fun x => if decide (x = a) then S (C a) else C x) /\ held (vfs_file_ref_inc v a) /\
  nodes (vfs_file_ref_inc v a) = nodes v /\ g_root (vfs_file_ref_inc v a) = g_root v.
Proof.
  intros Hc Hh Ha. unfold vfs_file_ref_inc. pose proof (Hc a) as Hca.
  destruct (files v !! a) as [f|] eqn:Ef; [|lia]. destruct Hca as [Hr _].
  split_and!; [|apply held_update; [done|eauto]|done|done].
  intros x. cbn [files with_files]. case_decide as Hx.
  - subst. rewrite lookup_insert_eq. cbn [refcount set_refcount]. lia.
  - rewrite lookup_insert_ne by done. apply Hc.
Qed.

(** Closing one slot, with [B] references held elsewhere. *)
Lemma close_slot_spec v p B fd : counted v (fun a => B a + fd_refs p a)%nat -> held v ->
  let '(v', p') := close_slot (v, p) fd in
  counted v' (fun a => B a + fd_refs p' a)%nat /\ held v' /\ nodes v' = nodes v /\ g_root v' = g_root v /\
  fds p' = match fds p !! fd with
           | Some e => if bool_decide (fd_type e = FD_VFS) then <[fd := fd_none]> (fds p) else fds p
           | None => fds p
           end /\ cwd p' = cwd p.
Proof.
  intros Hc Hh. unfold close_slot. destruct (fds p !! fd) as [e|] eqn:Ee; [|done].
  case_bool_decide as Ht; [|done].
  assert (Hle : (1 <= fd_refs p (fd_object e))%nat).
  { unfold fd_refs, count_refs. etrans; [|apply (sum_le _ _ e); by eapply list_elem_of_lookup_2].
    unfold fd_points. by rewrite bool_decide_eq_true_2. }
  destruct (drop_ref_spec v _ (fd_object e) Hc Hh ltac:(cbn; lia)) as (Hc' & Hh' & Hn & Hr). split_and!; try done.
  eapply counted_ext; [|exact Hc']. intros a. cbn beta.
  pose proof (fd_refs_set p fd e fd_none a Ee) as Hs. rewrite fd_points_none in Hs. unfold fd_points in Hs.
  destruct (decide (a = fd_object e)) as [->|Hx]; [ rewrite bool_decide_eq_true_2 in Hs by done; lia|].
  rewrite bool_decide_eq_false_2 in Hs by (intros [_ ?]; congruence). lia.
Qed.

Lemma close_slots_spec B l : forall v p, counted v (fun a => B a + fd_refs p a)%nat -> held v ->
  let '(v', p') := foldl close_slot (v, p) l in
  counted v' (fun a => B a + fd_refs p' a)%nat /\ held v' /\ nodes v' = nodes v /\ g_root v' = g_root v /\
  length (fds p') = length (fds p) /\
  (forall fd e, fds p' !! fd = Some e -> fd_type e = FD_VFS -> fd ∉ l /\ fds p !! fd = Some e) /\ cwd p' = cwd p.
Proof.
  induction l as [|fd l IH]; intros v p Hc Hh; cbn [foldl].
  { split_and!; try done. intros fd e He _. split; [apply not_elem_of_nil|done]. }
  pose proof (close_slot_spec v p B fd Hc Hh) as Hs. destruct (close_slot (v, p) fd) as [v1 p1].
  destruct Hs as (Hc1 & Hh1 & Hn1 & Hr1 & Hf1 & Hcw1). specialize (IH v1 p1 Hc1 Hh1).
  destruct (foldl close_slot (v1, p1) l) as [v2 p2]. destruct IH as (Hc2 & Hh2 & Hn2 & Hr2 & Hl2 & Hf2 & Hcw2).
  assert (Hl1 : length (fds p1) = length (fds p)).
  { rewrite Hf1. destruct (fds p !! fd) as [e|]; [|done]. case_bool_decide; [|done]. apply length_insert. }
  split_and!; try congruence; [done..|].
  intros fd' e He Ht. destruct (Hf2 fd' e He Ht) as [Hnin He1]. rewrite Hf1 in He1.
  assert (Hne : fd' <> fd /\ fds p !! fd' = Some e).
  { destruct (fds p !! fd) as [e0|] eqn:E0.
    - case_bool_decide as Ht0.
      + destruct (decide (fd = fd')) as [<-|Hne].
        * rewrite list_lookup_insert_eq in He1 by (by eapply lookup_lt_Some). by injection He1 as <-.
        * rewrite list_lookup_insert_ne in He1 by done. split; [congruence|done].
      + split; [|done]. intros ->. congruence.
    - split; [|done]. intros ->. congruence. }
  split; [|apply Hne]. apply not_elem_of_cons. by split; [apply Hne|].
Qed.

Lemma no_vfs_refs p : (forall fd e, fds p !! fd = Some e -> fd_type e <> FD_VFS) -> forall a, fd_refs p a = 0%nat.
Proof.
  intros Hn a. unfold fd_refs, count_refs. revert Hn. induction (fds p) as [|e es IH]; intros Hn; [done|].
  cbn [fmap list_fmap]. unfold sum_list in *. cbn [foldr].
  rewrite IH by (intros fd e' He'; by apply (Hn (S fd) e')).
  unfold fd_points. rewrite bool_decide_eq_false_2; [done|]. intros [Ht _]. by apply (Hn 0%nat e).
Qed.

Lemma close_process_spec v p B : counted v (fun a => B a + fd_refs p a)%nat -> held v ->
  let '(v', p') := vfs_close_process_fds v p in
  counted v' B /\ held v' /\ nodes v' = nodes v /\ g_root v' = g_root v /\
  length (fds p') = length (fds p) /\ (forall a, fd_refs p' a = 0%nat) /\ cwd p' = cwd p.
Proof.
  intros Hc Hh. unfold vfs_close_process_fds.
  pose proof (close_slots_spec B (seq 0 (length (fds p))) v p Hc Hh) as Hs.
  destruct (foldl close_slot (v, p) _) as [v' p']. destruct Hs as (Hc' & Hh' & Hn & Hr & Hl & Hf & Hcw).
  assert (H0 : forall a, fd_refs p' a = 0%nat).
  { apply no_vfs_refs. intros fd e He Ht. destruct (Hf fd e He Ht) as [Hnin _]. apply Hnin.
    rewrite elem_of_seq. apply lookup_lt_Some in He. lia. }
  split_and!; try done. eapply counted_ext; [|exact Hc']. intros a. cbn beta. rewrite H0. lia.
Qed.

Lemma dup_spec es : forall v C, counted v C -> held v ->
  (forall e, e ∈ es -> fd_type e = FD_VFS -> (0 < C (fd_object e))%nat /\ fd_object e <> 0) ->
  let v' := foldl dup_fd v es in
  counted v' (fun a => C a + count_refs es a)%nat /\ held v' /\ nodes v' = nodes v /\ g_root v' = g_root v.
Proof.
  induction es as [|e es IH]; intros v C Hc Hh Hes; cbn [foldl].
  { split_and!; [|done..]. eapply counted_ext; [|exact Hc]. intros a. unfold count_refs. cbn. lia. }
  assert (Hd : dup_fd v e = if bool_decide (fd_type e = FD_VFS) then vfs_file_ref_inc v (fd_object e) else v).
  { unfold dup_fd. case_bool_decide as Ht; [|done]. destruct (Hes e ltac:(by left) Ht) as [_ Hne].
    by rewrite (proj2 (Z.eqb_neq _ _) Hne). }
  rewrite Hd. case_bool_decide as Ht.
  - destruct (Hes e ltac:(by left) Ht) as [Hpos _].
    destruct (ref_inc_spec v C _ Hc Hh Hpos) as (Hc1 & Hh1 & Hn1 & Hr1).
    destruct (IH _ _ Hc1 Hh1) as (Hc2 & Hh2 & Hn2 & Hr2).
    { intros e' He' Ht'. destruct (Hes e' ltac:(by right) Ht') as [Hp' Hz']. split; [|done]. case_decide; [lia|done]. }
    split_and!; [|done|congruence|congruence]. eapply counted_ext; [|exact Hc2]. intros a. cbn beta.
    rewrite count_refs_cons. unfold fd_points.
    destruct (decide (a = fd_object e)) as [->|Hx]; [ rewrite bool_decide_eq_true_2 by done; lia|].
    rewrite bool_decide_eq_false_2 by (intros [_ ?]; congruence). lia.
  - destruct (IH _ _ Hc Hh) as (Hc2 & Hh2 & Hn2 & Hr2).
    { intros e' He' Ht'. apply Hes; [by right|done]. }
    split_and!; [|done..]. eapply counted_ext; [|exact Hc2]. intros a. cbn beta.
    rewrite count_refs_cons. unfold fd_points. rewrite bool_decide_eq_false_2; [lia|].
    by intros [? _].
Qed.

(** ** Resolving user paths *)

Lemma walk_path_neg ns comps : forall cur e, walk_path ns cur comps = inl e -> e < 0.
Proof.
  induction comps as [|c cs IH]; intros cur e; cbn [walk_path]; [done|].
  destruct (walk_comp ns cur c) as [e'|n] eqn:E; [|apply IH]. intros [= <-]. revert E. unfold walk_comp.
  unfold VE_NOTDIR, VE_NAMETOOLONG, VE_NOENT. repeat (case_if; [try done; intros [= <-]; lia|]). done.
Qed.

Lemma resolve_abs_neg ns root path e : vfs_resolve_abs ns root path = inl e -> e < 0.
Proof.
  destruct path as [|c p]; [by intros [= <-]|]. destruct (Z.eqb_spec c SLASH) as [->|Hc].
  - rewrite resolve_abs_walk by done. destruct (walk_path _ _ _) eqn:E; [intros [= <-]; by eapply walk_path_neg|].
    case_if; by intros [= <-].
  - cbn [vfs_resolve_abs]. rewrite (proj2 (Z.eqb_neq _ _) Hc). by intros [= <-].
Qed.

Lemma copy_path_errno fuel m p u : forall i out e, copy_path_loop fuel m p u i out = inl e -> 0 < e.
Proof.
  induction fuel as [|fuel IH]; intros i out e; cbn [copy_path_loop]; [by intros [= <-]|].
  case_if; [by intros [= <-]|]. destruct (ua_copy_from m p _ 1) as [c|]; [|by intros [= <-]].
  case_if; [done|]. apply IH.
Qed.

Lemma resolve_user_neg m v p u e : resolve_user m v p u = inl e -> e < 0.
Proof.
  unfold resolve_user, vfs_copy_user_path. destruct (copy_path_loop _ m p u 0 []) as [e'|path] eqn:E.
  - apply copy_path_errno in E. intros [= <-]. lia.
  - destruct (vfs_absolutize p path VFS_PATH_MAX) as [abs|]; [apply resolve_abs_neg|by intros [= <-]].
Qed.

Lemma resolve_user_in m v p u n d : tree_ok (nodes v) (g_root v) -> cwd_ok (nodes v) (g_root v) p d ->
  resolve_user m v p u = inr n -> is_Some (nodes v !! n).
Proof.
  intros Ht Hc. unfold resolve_user. destruct (vfs_copy_user_path m p u VFS_PATH_MAX) as [|path]; [done|].
  destruct (vfs_absolutize p path VFS_PATH_MAX) as [abs|] eqn:Ea; [|done].
  rewrite (absolutize_resolve _ _ p d path abs Hc Ea).
  destruct (walk_path _ _ _) as [|n'] eqn:Ew; [done|]. case_if; [done|]. intros [= <-].
  eapply walk_path_in; [done| |exact Ew]. unfold path_from. destruct (bool_decide (head path = Some SLASH)); [apply (to_root _ _ Ht)|].
  destruct Hc as [_ _ Hw _]. eapply walk_path_in; [done| |exact Hw]. apply (to_root _ _ Ht).
Qed.

Lemma chdir_cases m v p u d : tree_ok (nodes v) (g_root v) -> cwd_ok (nodes v) (g_root v) p d ->
  let '(r, p') := sys_vfs_chdir m v p u in
  (r < 0 /\ p' = p /\ (forall n, resolve_user m v p u = inr n -> kind (at_node (nodes v) n) <> VFS_DIR \/ r = - VE_NAMETOOLONG)) \/
  (r = 0 /\ p' = set_cwd p (cwd p') /\ (cwd p' = [SLASH] \/ last (cwd p') <> Some SLASH) /\
   Forall valid_name (path_comps (cwd p')) /\
   exists n, resolve_user m v p u = inr n /\ cwd_ok (nodes v) (g_root v) p' n).
Proof.
  intros Ht Hc. unfold sys_vfs_chdir. destruct (resolve_user m v p u) as [e|n] eqn:Er.
  { left. split_and!; [by eapply resolve_user_neg|done|done]. }
  pose proof (resolve_user_in m v p u n d Ht Hc Er) as Hn.
  case_bool_decide as Hk; cbn [negb]; [|left; split_and!; [done|done|]; intros ? [= <-]; by left].
  destruct (comps_up _ (nodes v) n) as [l|] eqn:Eu; [|left; split_and!; [done|done|]; by right].
  destruct (comps_up_walk _ _ _ Ht n l Hn Eu) as [Hw Hv].
  destruct (join_comps [SLASH] (rev l)) as [tmp|] eqn:Ej; [|left; split_and!; [done|done|]; by right].
  assert (Hvr : Forall valid_name (rev l)) by (by apply Forall_rev).
  destruct (join_comps_spec (rev l) Hvr [] tmp ltac:(done) Ej) as (Hp & Hl & Hh & Hlast).
  right. cbn [cwd set_cwd]. split_and!; [done|done| |by rewrite Hp|].
  - destruct (decide (rev l = [])) as [E|Hne]; [|right; by apply Hlast]. left. rewrite E in Ej. by injection Ej as <-.
  - exists n. split; [done|]. split; cbn [cwd set_cwd]; [done|done| |done]. by rewrite Hp.
Qed.

(** ** Every state the file system can reach *)

Definition fresh_process (p : process_t) : Prop :=
  length (fds p) = 16%nat /\ cwd p = [SLASH] /\ forall fd e, fds p !! fd = Some e -> fd_type e <> FD_VFS.

Inductive vfs_run : @vfs H -> list process_t -> Prop :=
  | vr_boot L h : inv L h -> size (nodes (voidfs_init h)) = 5%nat -> vfs_run (voidfs_init h) []
  | vr_spawn v ps p : vfs_run v ps -> fresh_process p -> vfs_run v (ps ++ [p])
  | vr_fork v ps i p c : vfs_run v ps -> ps !! i = Some p -> fresh_process c ->
      vfs_run (fork_fds v p c).1 (ps ++ [(fork_fds v p c).2])
  | vr_exit v ps i p : vfs_run v ps -> ps !! i = Some p ->
      vfs_run (vfs_close_process_fds v p).1 (<[i := (vfs_close_process_fds v p).2]> ps)
  | vr_open v ps i p m u fl : vfs_run v ps -> ps !! i = Some p ->
      vfs_run (sys_vfs_open m v p u fl).1.2 (<[i := (sys_vfs_open m v p u fl).2]> ps)
  | vr_close v ps i p fd : vfs_run v ps -> ps !! i = Some p ->
      vfs_run (sys_vfs_close v p fd).1.2 (<[i := (sys_vfs_close v p fd).2]> ps)
  | vr_read v ps i p m fd b n : vfs_run v ps -> ps !! i = Some p -> 0 <= n -> vfs_run (sys_vfs_read m v p fd b n).2 ps
  | vr_readdir v ps i p m fd b : vfs_run v ps -> ps !! i = Some p -> vfs_run (sys_vfs_readdir m v p fd b).2 ps
  | vr_lseek v ps i p fd o w : vfs_run v ps -> ps !! i = Some p -> vfs_run (sys_vfs_lseek v p fd o w).2 ps
  | vr_chdir v ps i p m u : vfs_run v ps -> ps !! i = Some p ->
      vfs_run v (<[i := (sys_vfs_chdir m v p u).2]> ps).

Record process_ok v (p : process_t) : Prop := {
  po_fds : length (fds p) = 16%nat;
  po_cwd : exists d, cwd_ok (nodes v) (g_root v) p d;
  po_obj : forall fd e, fds p !! fd = Some e -> fd_type e = FD_VFS -> fd_object e <> 0
}.

(** A property of the node and the position of every open file. *)
Definition all_files (Q : Z -> Z -> Prop) v : Prop := forall x f, files v !! x = Some f -> Q (fnode f) (fpos f).

Definition pos_ok (ns : tree) (n x : Z) : Prop := is_Some (ns !! n) /\ 0 <= x.

Record vfs_ok v (ps : list process_t) : Prop := {
  vo_tree : tree_ok (nodes v) (g_root v);
  vo_held : held v;
  vo_count : counted v (refs ps);
  vo_node : all_files (pos_ok (nodes v)) v;
  vo_procs : Forall (process_ok v) ps
}.

Lemma process_ok_tree v v' p : nodes v' = nodes v -> g_root v' = g_root v -> process_ok v p -> process_ok v' p.
Proof. intros Hn Hr [? ? ?]. split; [done| |done]. by rewrite Hn, Hr. Qed.

Lemma procs_tree v v' ps : nodes v' = nodes v -> g_root v' = g_root v -> Forall (process_ok v) ps ->
  Forall (process_ok v') ps.
Proof. intros Hn Hr HP. eapply Forall_impl; [exact HP|]. intros p. by apply process_ok_tree. Qed.

Lemma drop_ref_node Q v a : all_files Q v -> all_files Q (drop_ref v a).
Proof.
  intros Hn x f. unfold drop_ref. destruct (files v !! a) as [f0|] eqn:E; [|apply Hn].
  case_if; cbn [files nodes with_vheap with_files].
  - intros [_ Hx]%lookup_delete_Some. by eapply Hn.
  - intros [[<- <-]|[_ Hx]]%lookup_insert_Some; [exact (Hn _ f0 E)|by eapply Hn].
Qed.

Lemma ref_inc_node Q v a : all_files Q v -> all_files Q (vfs_file_ref_inc v a).
Proof.
  intros Hn x f. unfold vfs_file_ref_inc. destruct (files v !! a) as [f0|] eqn:E; [|apply Hn].
  cbn [files nodes with_files]. intros [[<- <-]|[_ Hx]]%lookup_insert_Some; [exact (Hn _ f0 E)|by eapply Hn].
Qed.

Lemma close_slots_node Q l : forall v p, all_files Q v -> all_files Q (foldl close_slot (v, p) l).1.
Proof.
  induction l as [|fd l IH]; intros v p Hn; [done|]. cbn [foldl].
  destruct (close_slot (v, p) fd) as [v1 p1] eqn:E. apply IH. unfold close_slot in E.
  destruct (fds p !! fd) as [e|]; [|by injection E as <- _]. case_if_in E; injection E as <- _; [|done].
  by apply drop_ref_node.
Qed.

Lemma dup_node Q es : forall v, all_files Q v -> all_files Q (foldl dup_fd v es).
Proof.
  induction es as [|e es IH]; intros v Hn; [done|]. cbn [foldl]. apply IH. unfold dup_fd.
  case_if; [|done]. by apply ref_inc_node.
Qed.

Lemma set_pos_node (Q : Z -> Z -> Prop) v a f x : all_files Q v -> Q (fnode f) x ->
  all_files Q (with_files v (<[a := set_pos f x]> (files v))).
Proof.
  intros Hn Hq y g. cbn [files with_files]. intros [[<- <-]|[_ Hy]]%lookup_insert_Some; [done|by eapply Hn].
Qed.

(** Changing positions only. *)
Lemma set_pos_ok v ps a f x : vfs_ok v ps -> files v !! a = Some f -> 0 <= x ->
  vfs_ok (with_files v (<[a := set_pos f x]> (files v))) ps.
Proof.
  intros [T Hh C N P] Hf Hx. split; [done|apply held_update; eauto| | |by apply (procs_tree v)].
  - intros b. cbn [files with_files]. specialize (C b). destruct (decide (a = b)) as [<-|Hne].
    + rewrite lookup_insert_eq. rewrite Hf in C. done.
    + by rewrite lookup_insert_ne.
  - apply set_pos_node; [exact N|]. split; [apply (N _ f Hf)|done].
Qed.

Lemma vfs_fd_Some v p fd a f : vfs_fd v p fd = Some (a, f) ->
  0 <= fd < 16 /\ fd_type (zget fd_none (fds p) fd) = FD_VFS /\ a = fd_object (zget fd_none (fds p) fd) /\
  files v !! a = Some f.
Proof.
  unfold vfs_fd, MAX_FDS. destruct (_ || _) eqn:E; [done|]. bool_to_prop. case_bool_decide as Ht; [|done].
  cbn [negb]. rewrite fmap_Some. intros (f' & Hf & [= -> ->]). split_and!; (done || lia).
Qed.

Lemma refs_snoc ps p a : refs (ps ++ [p]) a = (refs ps a + fd_refs p a)%nat.
Proof. unfold refs. rewrite fmap_app. induction ps as [|q ps IH]; cbn in *; lia. Qed.

(** The references held by the other processes. *)
Lemma refs_split ps i p : ps !! i = Some p -> exists B, (forall a, refs ps a = B a + fd_refs p a)%nat /\
  forall p' a, refs (<[i := p']> ps) a = (B a + fd_refs p' a)%nat.
Proof.
  intros Hp. exists (fun a => refs ps a - fd_refs p a)%nat.
  assert (Hle : forall a, (fd_refs p a <= refs ps a)%nat).
  { intros a. apply (sum_le (fun p => fd_refs p a)). by eapply list_elem_of_lookup_2. }
  split; [intros a; specialize (Hle a); lia|]. intros p' a. pose proof (refs_set ps i p p' a Hp). specialize (Hle a). lia.
Qed.

Lemma find_free_fd_spec p fd : length (fds p) = 16%nat -> find_free_fd p = Some fd ->
  (3 <= fd < 16)%nat /\ exists e, fds p !! fd = Some e /\ fd_type e = FD_NONE.
Proof.
  intros Hl. unfold find_free_fd. rewrite fmap_Some. intros (k & Hk & ->).
  apply first_index_Some in Hk as (e & He & Hm & _). rewrite lookup_drop in He. apply bool_decide_eq_true in Hm.
  pose proof (lookup_lt_Some _ _ _ He). split; [lia|]. by exists e.
Qed.

Lemma open_ok m v ps i p u fl : vfs_ok v ps -> ps !! i = Some p ->
  vfs_ok (sys_vfs_open m v p u fl).1.2 (<[i := (sys_vfs_open m v p u fl).2]> ps).
Proof.
  intros Hok Hp. pose proof Hok as [T Hh C N P].
  assert (Hpo : process_ok v p) by (eapply Forall_lookup_1; done). destruct Hpo as [Hl [d Hd] Ho].
  assert (Hsame : forall h, (exists L, inv L h /\ (forall a, is_Some (files v !! a) -> a ∈ L) /\
      (forall a, is_Some (nodes v !! a) -> a ∈ L)) -> vfs_ok (with_vheap v h) (<[i := p]> ps)).
  { intros h HL. rewrite list_insert_id by done. split; [done| |done|done|by apply (procs_tree v)].
    split; [done|apply Hh]. }
  unfold sys_vfs_open. destruct (resolve_user m v p u) as [e|n] eqn:Er; [cbn; by rewrite list_insert_id|].
  destruct (negb _); [cbn; by rewrite list_insert_id|].
  destruct Hh as [(L & Hi & HfL & HnL) Hap]. pose proof (kmalloc_cases L (v_heap v) FILE_SIZE ltac:(done) ltac:(by intros []) Hi) as Hk.
  destruct (kmalloc (v_heap v) FILE_SIZE) as [a h]. destruct Hk as [[-> Hk]|(Ha & HaL & Hk)].
  { cbn [Z.eqb fst snd]. apply Hsame. by exists L. }
  rewrite (proj2 (Z.eqb_neq a 0) Ha).
  assert (Hfa : files v !! a = None) by (destruct (files v !! a) eqn:E; [destruct HaL; apply HfL; eauto|done]).
  destruct (find_free_fd p) as [fd|] eqn:Ef; cbn [fst snd].
  2: { apply Hsame. cbn [v_heap with_vheap]. exists (({[a]} ∪ L) ∖ {[a]}). split_and!.
       - apply kfree_inv; [done|set_solver +].
       - intros x Hx. specialize (HfL x Hx). set_solver.
       - intros x Hx. specialize (HnL x Hx). set_solver. }
  destruct (find_free_fd_spec p fd Hl Ef) as (Hfd & e & He & Het).
  pose proof (resolve_user_in m v p u n d T Hd Er) as Hn.
  set (p' := set_fd p fd (FdEntry FD_VFS a 0)). destruct (refs_split ps i p Hp) as (B & HB & HB').
  assert (Hrefs : forall x, fd_refs p' x = (fd_refs p x + if bool_decide (a = x) then 1 else 0)%nat).
  { intros x. pose proof (fd_refs_set p fd e (FdEntry FD_VFS a 0) x He) as Hs. rewrite fd_points_vfs in Hs.
    unfold fd_points in Hs. rewrite bool_decide_eq_false_2 in Hs by (intros [? _]; congruence). unfold p'. lia. }
  split; cbn [nodes g_root files v_heap with_files with_vheap].
  - done.
  - split; cbn [nodes files v_heap with_files with_vheap].
    + exists ({[a]} ∪ L). split_and!; [done| |].
      * intros x Hx. destruct (decide (a = x)) as [->|Hne]; [set_solver +|]. rewrite lookup_insert_ne in Hx by done.
        apply elem_of_union. right. by apply HfL.
      * intros x Hx. apply elem_of_union. right. by apply HnL.
    + intros x Hx. destruct (decide (a = x)) as [->|Hne].
      * destruct (nodes v !! x) eqn:E; [|done]. destruct HaL. apply HnL. eauto.
      * rewrite lookup_insert_ne in Hx by done. by apply Hap.
  - intros x. cbn [files with_files with_vheap]. rewrite HB', Hrefs, Nat.add_assoc, <- HB. specialize (C x).
    destruct (decide (a = x)) as [<-|Hne].
    + rewrite lookup_insert_eq. rewrite Hfa in C. rewrite bool_decide_eq_true_2 by done. cbn [refcount]. lia.
    + rewrite lookup_insert_ne by done. rewrite bool_decide_eq_false_2 by done. by rewrite Nat.add_0_r.
  - intros x f. cbn [files with_files].
    intros [[<- <-]|[_ Hx]]%lookup_insert_Some; [by split|by eapply N].
  - apply Forall_insert; [eapply Forall_impl; [exact P|]; intros q; by apply process_ok_tree|].
    split; cbn [nodes g_root with_files with_vheap].
    + unfold p', set_fd. cbn [fds set_fds]. by rewrite length_insert.
    + exists d. by destruct Hd.
    + intros fd' e'. unfold p', set_fd. cbn [fds set_fds].
      intros [(-> & <- & _)|[_ He']]%list_lookup_insert_Some; [done|by eapply Ho].
Qed.

Lemma process_update v v' ps i p p' : nodes v' = nodes v -> g_root v' = g_root v -> Forall (process_ok v) ps ->
  ps !! i = Some p -> length (fds p') = length (fds p) -> cwd p' = cwd p ->
  (forall fd e, fds p' !! fd = Some e -> fd_type e = FD_VFS -> fds p !! fd = Some e) ->
  Forall (process_ok v') (<[i := p']> ps).
Proof.
  intros Hn Hr HP Hp Hl Hcw Hfd. apply Forall_insert; [by apply (procs_tree v)|].
  assert (Hpo : process_ok v p) by (eapply Forall_lookup_1; done). destruct Hpo as [Hl' [d [? ? ? ?]] Ho].
  split; [congruence| |].
  - exists d. split; rewrite ?Hn, ?Hr, ?Hcw; done.
  - intros fd e He Ht. by eapply Ho; [apply Hfd|].
Qed.

Lemma close_ok v ps i p fd : vfs_ok v ps -> ps !! i = Some p ->
  vfs_ok (sys_vfs_close v p fd).1.2 (<[i := (sys_vfs_close v p fd).2]> ps).
Proof.
  intros Hok Hp. pose proof Hok as [T Hh C N P]. unfold sys_vfs_close.
  destruct (vfs_fd v p fd) as [[a f]|] eqn:E; cbn [fst snd]; [|by rewrite list_insert_id].
  apply vfs_fd_Some in E as (Hr & Ht & -> & Hf).
  assert (Hpo : process_ok v p) by (eapply Forall_lookup_1; done). destruct Hpo as [Hl _ Ho].
  destruct (lookup_lt_is_Some_2 (fds p) (Z.to_nat fd)) as [e He]; [lia|].
  rewrite zget_lookup, He in Ht, Hf |- *. cbn [default from_option id] in Ht, Hf |- *.
  destruct (refs_split ps i p Hp) as (B & HB & HB').
  assert (Hc : counted v (fun a => B a + fd_refs p a)%nat) by by eapply counted_ext.
  pose proof (close_slot_spec v p B (Z.to_nat fd) Hc Hh) as Hs. unfold close_slot in Hs. rewrite He in Hs.
  rewrite bool_decide_eq_true_2 in Hs by done. destruct Hs as (Hc' & Hh' & Hn' & Hr' & Hf' & Hcw).
  split; [by rewrite Hn', Hr'|done| |rewrite Hn'; by apply drop_ref_node|].
  - eapply counted_ext; [|exact Hc']. intros x. cbn beta. by rewrite HB'.
  - eapply process_update; [done|done|done|done| |done|].
    + unfold set_fd. cbn [fds set_fds]. by rewrite length_insert.
    + intros fd' e'. unfold set_fd. cbn [fds set_fds].
      intros [(<- & <- & _)|[_ He']]%list_lookup_insert_Some; [by intros Hx|done].
Qed.

Lemma fork_ok v ps i p c : vfs_ok v ps -> ps !! i = Some p -> fresh_process c ->
  vfs_ok (fork_fds v p c).1 (ps ++ [(fork_fds v p c).2]).
Proof.
  intros [T Hh C N P] Hp (_ & Hcw & _). assert (Hpo : process_ok v p) by (eapply Forall_lookup_1; done).
  destruct Hpo as [Hl _ Ho]. unfold fork_fds. cbn [fst snd].
  destruct (dup_spec (fds p) v (refs ps) C Hh) as (Hc & Hh' & Hn & Hr).
  { intros e [fd He]%list_elem_of_lookup Ht. split; [|by eapply Ho].
    assert (1 <= refs ps (fd_object e))%nat; [|lia].
    etrans; [|apply (sum_le (fun p => fd_refs p (fd_object e)) ps p); by eapply list_elem_of_lookup_2].
    unfold fd_refs, count_refs. etrans; [|apply (sum_le _ _ e); by eapply list_elem_of_lookup_2].
    unfold fd_points. by rewrite bool_decide_eq_true_2. }
  split; [by rewrite Hn, Hr|done| |rewrite Hn; by apply dup_node|].
  - eapply counted_ext; [|exact Hc]. intros a. cbn beta. by rewrite refs_snoc.
  - apply Forall_app. split; [by apply (procs_tree v)|]. constructor; [|done]. split; [done| |done].
    destruct (to_root _ _ T) as (_ & Hk & _). exists (g_root v). split; rewrite ?Hn, ?Hr; cbn [cwd set_fds]; by rewrite ?Hcw.
Qed.

Lemma exit_ok v ps i p : vfs_ok v ps -> ps !! i = Some p ->
  vfs_ok (vfs_close_process_fds v p).1 (<[i := (vfs_close_process_fds v p).2]> ps).
Proof.
  intros [T Hh C N P] Hp. destruct (refs_split ps i p Hp) as (B & HB & HB').
  assert (Hc : counted v (fun a => B a + fd_refs p a)%nat) by by eapply counted_ext.
  pose proof (close_slots_node (pos_ok (nodes v)) (seq 0 (length (fds p))) v p N) as Hnode.
  pose proof (close_slots_spec B (seq 0 (length (fds p))) v p Hc Hh) as Hs.
  fold (vfs_close_process_fds v p) in Hnode, Hs.
  destruct (vfs_close_process_fds v p) as [v' p']. cbn [fst snd] in *.
  destruct Hs as (Hc' & Hh' & Hn & Hr & Hl & Hf & Hcw).
  split; [by rewrite Hn, Hr|done| |by rewrite Hn|].
  - eapply counted_ext; [|exact Hc']. intros x. cbn beta. by rewrite HB'.
  - eapply process_update; [done..|]. intros fd e He Ht. by apply (Hf fd e).
Qed.

Lemma chdir_ok m v ps i p u : vfs_ok v ps -> ps !! i = Some p ->
  vfs_ok v (<[i := (sys_vfs_chdir m v p u).2]> ps).
Proof.
  intros Hok Hp. pose proof Hok as [T Hh C N P].
  assert (Hpo : process_ok v p) by (eapply Forall_lookup_1; done). destruct Hpo as [Hl [d Hd] Ho].
  pose proof (chdir_cases m v p u d T Hd) as Hs. destruct (sys_vfs_chdir m v p u) as [r p']. cbn [snd].
  destruct Hs as [(_ & -> & _)|(_ & Hp' & _ & _ & n & _ & Hn)]; [by rewrite list_insert_id|].
  assert (Hfd : fds p' = fds p) by (rewrite Hp'; done).
  destruct (refs_split ps i p Hp) as (B & HB & HB'). split; [done|done| |done|].
  - eapply counted_ext; [|exact C]. intros a. rewrite HB', HB. unfold fd_refs. by rewrite Hfd.
  - apply Forall_insert; [done|]. split; [by rewrite Hfd|by exists n|by rewrite Hfd].
Qed.

Lemma spawn_ok v ps p : vfs_ok v ps -> fresh_process p -> vfs_ok v (ps ++ [p]).
Proof.
  intros [T Hh C N P] (Hl & Hcw & Hno). pose proof (no_vfs_refs p Hno) as H0.
  split; [done|done| |done|].
  - eapply counted_ext; [|exact C]. intros a. rewrite refs_snoc, H0. lia.
  - apply Forall_app. split; [done|]. constructor; [|done]. destruct (to_root _ _ T) as (_ & Hk & _). split; [done| |].
    + exists (g_root v). split; rewrite ?Hcw; done.
    + intros fd e He Ht. by destruct (Hno fd e He).
Qed.

Lemma vfs_run_ok v ps : vfs_run v ps -> vfs_ok v ps.
Proof.
  induction 1 as [L h Hi Hsz|v ps p _ IH Hp|v ps i p c _ IH Hp Hcw|v ps i p _ IH Hp|v ps i p m u fl _ IH Hp|
    v ps i p fd _ IH Hp|v ps i p m fd b n _ IH Hp Hn|v ps i p m fd b _ IH Hp|v ps i p fd o w _ IH Hp|v ps i p m u _ IH Hp].
  - destruct (voidfs_init_ok L h Hi Hsz) as (Ht & Hf & L' & Hh & Hn). split; [done| | | |done].
    + assert (He : forall a, is_Some (files (voidfs_init h) !! a) -> False).
      { intros a [x Hx]. by rewrite Hf, lookup_empty in Hx. }
      split; [|intros a Ha; by destruct (He a)]. exists L'. split_and!; [done| |done]. intros a Ha. by destruct (He a).
    + intros a. by rewrite Hf, lookup_empty.
    + intros a f Hx. by rewrite Hf, lookup_empty in Hx.
  - by apply spawn_ok.
  - by apply (fork_ok v ps i).
  - by apply exit_ok.
  - by apply open_ok.
  - by apply close_ok.
  - unfold sys_vfs_read. destruct (vfs_fd v p fd) as [[a f]|] eqn:E; [|done]. apply vfs_fd_Some in E as (_ & _ & _ & Hf).
    pose proof (proj2 (vo_node _ _ IH a f Hf)) as Hpos. case_if; [done|].
    destruct (Z.leb_spec (vsize (at_node (nodes v) (fnode f))) (fpos f)); [done|].
    destruct (ua_copy_to _ _ _ _) as [ok m']. case_if; [done|]. apply set_pos_ok; [done|done|]. cbn zeta.
    destruct (Z.ltb_spec (vsize (at_node (nodes v) (fnode f)) - fpos f) n); lia.
  - unfold sys_vfs_readdir. destruct (vfs_fd v p fd) as [[a f]|] eqn:E; [|done]. apply vfs_fd_Some in E as (_ & _ & _ & Hf).
    case_if; [done|]. case_if; [done|]. case_if; [done|]. destruct (ua_copy_to _ _ _ _) as [ok m']. case_if; [done|].
    apply set_pos_ok; [done|done|]. pose proof (u64_range (fpos f + 1)). lia.
  - unfold sys_vfs_lseek. destruct (vfs_fd v p fd) as [[a f]|] eqn:E; [|done]. apply vfs_fd_Some in E as (_ & _ & _ & Hf).
    case_if; [done|]. match goal with |- context [match ?x with Some _ => _ | None => _ end] => destruct x as [np|] end; [|done].
    destruct (Z.ltb_spec np 0); [done|]. by apply set_pos_ok.
  - by apply chdir_ok.
Qed.

(** ** Reading *)

Context {uinv : M -> process_t -> Prop} `{UL : !UserAccessLaws M process_t uinv}.

Lemma vfs_read_spec m v ps i p fd ub n a f : vfs_ok v ps -> ps !! i = Some p -> uinv m p ->
  0 <= ub < 2 ^ 64 -> 0 <= n < 2 ^ 64 -> vfs_fd v p fd = Some (a, f) -> kind (at_node (nodes v) (fnode f)) = VFS_REG ->
  let want := take (Z.to_nat n) (drop (Z.to_nat (fpos f)) (vdata (at_node (nodes v) (fnode f)))) in
  let len := Z.of_nat (length want) in
  let '(r, m', v') := sys_vfs_read m v p fd ub n in
  (vsize (at_node (nodes v) (fnode f)) <= fpos f /\ r = 0 /\ m' = m /\ v' = v) \/
  (fpos f < vsize (at_node (nodes v) (fnode f)) /\ ua_range_ok m p ub len true = false /\ r = - VE_FAULT /\ m' = m /\ v' = v) \/
  (fpos f < vsize (at_node (nodes v) (fnode f)) /\ ua_range_ok m p ub len true = true /\ r = len /\
   uinv m' p /\ ua_copy_from m' p ub len = Some want /\
   v' = with_files v (<[a := set_pos f (fpos f + len)]> (files v))).
Proof.
  intros Hok Hp Hi Hub Hn Hfd Hk. cbn zeta. unfold sys_vfs_read. rewrite Hfd, Hk.
  rewrite bool_decide_eq_true_2 by done. cbn [negb]. set (nd := at_node (nodes v) (fnode f)).
  destruct (Z.leb_spec (vsize nd) (fpos f)) as [|Hlt]; [left; by split_and!|].
  apply vfs_fd_Some in Hfd as (_ & _ & _ & Hf). destruct (vo_node _ _ Hok a f Hf) as [[nd' Hnd] Hpos].
  assert (Hsz : vsize nd = Z.of_nat (length (vdata nd)) /\ file_data (vdata nd)).
  { unfold nd. rewrite (at_node_Some _ _ _ Hnd). by eapply to_size; [apply Hok|]. }
  destruct Hsz as (Hsz & Hlen & Hbytes).
  set (cnt := if vsize nd - fpos f <? n then vsize nd - fpos f else n).
  assert (Hw : take (Z.to_nat cnt) (drop (Z.to_nat (fpos f)) (vdata nd)) = take (Z.to_nat n) (drop (Z.to_nat (fpos f)) (vdata nd)) /\
    cnt = Z.of_nat (length (take (Z.to_nat n) (drop (Z.to_nat (fpos f)) (vdata nd))))).
  { unfold cnt. destruct (Z.ltb_spec (vsize nd - fpos f) n) as [Hc|Hc].
    - rewrite !take_ge by (rewrite length_drop; lia). rewrite length_drop. split; [done|lia].
    - split; [done|]. rewrite length_take, length_drop. lia. }
  destruct Hw as [-> Hcl]. set (want := take (Z.to_nat n) _) in *.
  assert (Hwl : Z.of_nat (length want) < 2 ^ 64) by (unfold want; rewrite length_take; lia).
  assert (Hwb : byte_list want) by (by apply Forall_take, Forall_drop).
  pose proof (ua_to_ok m p ub want Hi Hub Hwl Hwb) as E1.
  pose proof (ua_to_inv m p ub want Hi Hub Hwl Hwb) as E2.
  pose proof (ua_to_refused m p ub want Hi Hub Hwl Hwb) as E3.
  pose proof (ua_round_trip m p ub want Hi Hub Hwl Hwb) as E4.
  rewrite Hcl. destruct (ua_copy_to m p ub want) as [ok m']. cbn [fst snd] in *. destruct ok; cbn [negb].
  - right. right. split_and!; [done..|by apply E4|done].
  - right. left. by split_and!; [..|apply E3|].
Qed.

Lemma getcwd_spec m p ub sz : uinv m p -> 0 <= ub < 2 ^ 64 -> kstrlen (cwd p) < 2 ^ 62 -> byte_list (cwd p) ->
  let '(r, m') := sys_vfs_getcwd m p ub sz in
  (r < 0 /\ m' = m) \/
  (r = kstrlen (cwd p) /\ r < sz /\ ua_copy_from m' p ub (r + 1) = Some (cwd p ++ [0])).
Proof.
  intros Hi Hub Hl Hb. unfold sys_vfs_getcwd, kstrlen in *. destruct (Z.ltb_spec sz (Z.of_nat (length (cwd p)) + 1)); [by left|].
  destruct (ua_range_ok m p ub _ true) eqn:E; cbn [negb]; [|by left].
  assert (Hwl : Z.of_nat (length (cwd p ++ [0])) < 2 ^ 64) by (rewrite length_app; cbn [length]; lia).
  assert (Hwb : byte_list (cwd p ++ [0])) by (apply Forall_app; split; [done|by repeat constructor]).
  pose proof (ua_to_refused m p ub _ Hi Hub Hwl Hwb) as E3.
  pose proof (ua_round_trip m p ub _ Hi Hub Hwl Hwb) as E4.
  destruct (ua_copy_to m p ub _) as [ok m']. cbn [fst snd] in *. destruct ok; cbn [negb]; [right|left; by rewrite E3].
  split_and!; [done|lia|]. rewrite <- E4 by done. f_equal. rewrite length_app. cbn [length]. lia.
Qed.
End Files.

(** ** The properties *)

(** C27.  Path resolution means what a path means.  In every reachable state of
  the file system a path that could be copied from the caller and fits is
  resolved by following its components from the root (when it starts with a
  slash) or from the caller's working directory; a component stands for the
  directory itself ([.]), for the parent ([..], which stays in the root at the
  root), or for the one entry of the directory with that name, and a trailing
  slash is accepted only for directories. *)
Theorem vfs_resolve_correct {M : Type} `{UA : UserAccess M process_t}
    `{KH : KernelHeap H} `{KL : !KernelHeapLaws H inv} (v : @vfs H) ps i p (m : M) u path abs :
  vfs_run (inv := inv) v ps -> ps !! i = Some p ->
  vfs_copy_user_path m p u VFS_PATH_MAX = inr path -> vfs_absolutize p path VFS_PATH_MAX = Some abs ->
  exists d, vfs_resolve_abs (nodes v) (g_root v) (cwd p) = inr d /\ kind (at_node (nodes v) d) = VFS_DIR /\
  resolve_user m v p u =
    match walk_path (nodes v) (if bool_decide (head path = Some SLASH) then g_root v else d) (path_comps path) with
    | inl e => inl e
    | inr n => if bool_decide (last path = Some SLASH) && negb (bool_decide (kind (at_node (nodes v) n) = VFS_DIR))
               then inl (- VE_NOTDIR) else inr n
    end /\
  (forall cur comp n, is_Some (nodes v !! cur) -> walk_comp (nodes v) cur comp = inr n <->
     (comp = [DOT] /\ n = cur) \/
     (comp = [DOT; DOT] /\ n = if decide (cur = g_root v) then g_root v else parent (at_node (nodes v) cur)) \/
     (is_Some (nodes v !! n) /\ n <> g_root v /\ parent (at_node (nodes v) n) = cur /\ nname (at_node (nodes v) n) = comp)).
Proof.
  intros Hrun Hp Hc Ha. pose proof (vfs_run_ok v ps Hrun) as [T _ _ _ P].
  assert (Hpo : process_ok v p) by (eapply Forall_lookup_1; done). destruct Hpo as [_ [d Hd] _].
  exists d. split_and!; [by apply (cwd_resolves _ _ p)|apply Hd| |].
  - unfold resolve_user. rewrite Hc, Ha. by apply (absolutize_resolve _ _ p d path abs).
  - intros cur comp n Hcur. by apply walk_comp_spec.
Qed.

(** Changing directory and asking where one is agree.  [sys_vfs_chdir]
  either fails and leaves the process alone, which for a path of a directory
  happens only when its name does not fit, or stores the canonical path of the
  directory found: a path without [.], [..] and trailing slash whose resolution
  is that directory.  [sys_vfs_getcwd] hands out exactly this path. *)
Theorem vfs_chdir_correct {M : Type} `{UA : UserAccess M process_t} `{UL : !UserAccessLaws M process_t uinv}
    `{KH : KernelHeap H} `{KL : !KernelHeapLaws H inv} (v : @vfs H) ps i p (m : M) u ub sz :
  vfs_run (inv := inv) v ps -> ps !! i = Some p -> uinv m p -> 0 <= ub < 2 ^ 64 ->
  (let '(r, p') := sys_vfs_chdir m v p u in
   (r < 0 /\ p' = p /\
    (forall n, resolve_user m v p u = inr n -> kind (at_node (nodes v) n) <> VFS_DIR \/ r = - VE_NAMETOOLONG)) \/
   (r = 0 /\ p' = set_cwd p (cwd p') /\
    (cwd p' = [SLASH] \/ last (cwd p') <> Some SLASH) /\ Forall valid_name (path_comps (cwd p')) /\
    exists n, resolve_user m v p u = inr n /\ kind (at_node (nodes v) n) = VFS_DIR /\
      vfs_resolve_abs (nodes v) (g_root v) (cwd p') = inr n)) /\
  (byte_list (cwd p) ->
   let '(r, m') := sys_vfs_getcwd m p ub sz in
   (r < 0 /\ m' = m) \/ (r = kstrlen (cwd p) /\ r < sz /\ ua_copy_from m' p ub (r + 1) = Some (cwd p ++ [0]))).
Proof.
  intros Hrun Hp Hi Hub. pose proof (vfs_run_ok v ps Hrun) as [T _ _ _ P].
  assert (Hpo : process_ok v p) by (eapply Forall_lookup_1; done). destruct Hpo as [_ [d Hd] _]. split.
  - pose proof (chdir_cases m v p u d T Hd) as Hc. destruct (sys_vfs_chdir m v p u) as [r p'].
    destruct Hc as [Hc|(Hr & Hc & Hl & Hv & n & Hn & Hok)]; [by left|right]. split_and!; [done..|].
    exists n. split_and!; [done|apply Hok|by apply (cwd_resolves _ _ p')].
  - intros Hb. apply getcwd_spec; try done. unfold kstrlen. destruct Hd as [_ Hl _ _]. unfold VFS_PATH_MAX in Hl. lia.
Qed.

(** C30.  Reading a file yields its contents.  A read of an open regular file
  delivers the bytes from the position on, at most the count and at most up to
  the end; it returns their number, the caller finds them in its buffer and the
  position moves behind them.  At the end it returns 0, and a buffer that is not
  writable changes nothing.  Seeking puts the position at the offset from the
  start, the position or the end, and refuses to move before the start. *)
Theorem vfs_read_seek_correct {M : Type} `{UA : UserAccess M process_t} `{UL : !UserAccessLaws M process_t uinv}
    `{KH : KernelHeap H} `{KL : !KernelHeapLaws H inv} (v : @vfs H) ps i p (m : M) fd a f ub n off :
  vfs_run (inv := inv) v ps -> ps !! i = Some p -> uinv m p ->
  0 <= ub < 2 ^ 64 -> 0 <= n < 2 ^ 64 -> vfs_fd v p fd = Some (a, f) ->
  kind (at_node (nodes v) (fnode f)) = VFS_REG ->
  let data := vdata (at_node (nodes v) (fnode f)) in
  let size := Z.of_nat (length data) in
  let want := take (Z.to_nat n) (drop (Z.to_nat (fpos f)) data) in
  let len := Z.of_nat (length want) in
  (let '(r, m', v') := sys_vfs_read m v p fd ub n in
   (size <= fpos f /\ r = 0 /\ m' = m /\ v' = v) \/
   (fpos f < size /\ ua_range_ok m p ub len true = false /\ r = - VE_FAULT /\ m' = m /\ v' = v) \/
   (fpos f < size /\ ua_range_ok m p ub len true = true /\ r = len /\ uinv m' p /\
    ua_copy_from m' p ub len = Some want /\ v' = with_files v (<[a := set_pos f (fpos f + len)]> (files v)))) /\
  (fpos f < 2 ^ 63 -> forall whence base, (whence, base) ∈ [(0, 0); (1, fpos f); (2, size)] ->
   - 2 ^ 63 <= base + off < 2 ^ 63 ->
   sys_vfs_lseek v p fd off whence =
     if base + off <? 0 then (- VE_INVAL, v)
     else (base + off, with_files v (<[a := set_pos f (base + off)]> (files v)))).
Proof.
  intros Hrun Hp Hi Hub Hn Hfd Hk. cbn zeta. pose proof (vfs_run_ok v ps Hrun) as Hok.
  assert (Hf : files v !! a = Some f) by (by apply vfs_fd_Some in Hfd as (_ & _ & _ & ?)).
  destruct (vo_node _ _ Hok a f Hf) as [[nd Hnd] Hpos].
  destruct (to_size _ _ (vo_tree _ _ Hok) _ _ Hnd) as (Hsz & Hlen & _). split.
  - pose proof (vfs_read_spec m v ps i p fd ub n a f Hok Hp Hi Hub Hn Hfd Hk) as Hr. cbn zeta in Hr.
    rewrite (at_node_Some _ _ _ Hnd) in Hr |- *. by rewrite Hsz in Hr.
  - intros Hp63 whence base Hw Hr. unfold sys_vfs_lseek. rewrite Hfd, Hk. rewrite bool_decide_eq_true_2 by done.
    cbn [negb]. rewrite (at_node_Some _ _ _ Hnd) in Hw |- *. rewrite Hsz.
    repeat (apply elem_of_cons in Hw as [[= -> ->]|Hw]); [..|by apply not_elem_of_nil in Hw]; cbn [Z.eqb Pos.eqb].
    + done.
    + by rewrite (i64_id (fpos f)), i64_id by lia.
    + by rewrite (i64_id (Z.of_nat _)), i64_id by lia.
Qed.

(** C22.  No descriptor dangles.  In every state reachable by opening, closing,
  reading, seeking, forking and ending processes, each file descriptor names a
  live open file, the count of an open file is the number of descriptors that
  name it over all processes, and the object is released exactly when the last
  of them is gone; open files never share memory with the tree. *)
Theorem vfs_refcount_sound {M : Type} `{UA : UserAccess M process_t}
    `{KH : KernelHeap H} `{KL : !KernelHeapLaws H inv} (v : @vfs H) ps : vfs_run (M := M) (inv := inv) v ps ->
  (forall i p fd e, ps !! i = Some p -> fds p !! fd = Some e -> fd_type e = FD_VFS ->
     exists f, files v !! fd_object e = Some f /\ is_Some (nodes v !! fnode f)) /\
  (forall a f, files v !! a = Some f -> refcount f = Z.of_nat (refs ps a) /\ 0 < refcount f) /\
  (forall a, files v !! a = None <-> refs ps a = 0%nat) /\
  (forall a, is_Some (files v !! a) -> nodes v !! a = None) /\
  exists L, inv L (v_heap v) /\ forall a, is_Some (files v !! a) \/ is_Some (nodes v !! a) -> a ∈ L.
Proof.
  intros Hrun. pose proof (vfs_run_ok v ps Hrun) as [T [(L & HL & HfL & HnL) Hap] C N P]. split_and!.
  - intros i p fd e Hp He Ht. assert (Hpos : (0 < refs ps (fd_object e))%nat).
    { eapply Nat.lt_le_trans; [|apply (sum_le (fun p => fd_refs p (fd_object e)) ps p); by eapply list_elem_of_lookup_2].
      unfold fd_refs, count_refs. eapply Nat.lt_le_trans; [|apply (sum_le _ _ e); by eapply list_elem_of_lookup_2].
      unfold fd_points. rewrite bool_decide_eq_true_2 by done. lia. }
    apply (counted_live v _ _ C) in Hpos as [f Hf]. exists f. split; [done|apply (N _ f Hf)].
  - intros a f Hf. specialize (C a). rewrite Hf in C. lia.
  - intros a. specialize (C a). destruct (files v !! a); split; intros; try (done || lia).
  - done.
  - exists L. split; [done|]. intros a [Ha|Ha]; [by apply HfL|by apply HnL].
Qed.

(** ** A demonstration: the tree of the boot, one process with a page of user
  memory that holds a path, and its first open file *)
#[local] Existing Instance bump_heap.
#[local] Existing Instance bump_heap_laws.
Definition bump_inv (L : gset Z) (h : Z) : Prop := 0 < h /\ forall a, a ∈ L -> a < h.
Definition demo_fs : @vfs Z := voidfs_init 0x1000.
Definition demo_user : process_t := set_cwd demo_page.2 [SLASH].
Definition demo_path : list Z := str "/etc/../hello.txt".
Definition demo_fs_mem : mem := (copy_to_user (ms_mem demo_page.1.2) demo_user 0x400000 (demo_path ++ [0])).2.
Definition demo_open : Z * @vfs Z * process_t := sys_vfs_open demo_fs_mem demo_fs demo_user 0x400000 O_RDONLY.
Definition demo_etc : mem := (copy_to_user (ms_mem demo_page.1.2) demo_user 0x400000 (str "etc/" ++ [0])).2.

Lemma demo_vfs_boot : vfs_run (M := mem) (inv := bump_inv) demo_fs [].
Proof. apply (vr_boot ∅). { split; [done|set_solver]. } vm_compute. reflexivity. Qed.

Lemma demo_vfs_run : vfs_run (M := mem) (inv := bump_inv) demo_fs [demo_user].
Proof.
  apply (vr_spawn _ [] demo_user demo_vfs_boot).
  assert (Hf : fds demo_user = replicate 16 fd_none) by (vm_compute; reflexivity).
  split; [by rewrite Hf|]. split; [done|]. intros fd e. rewrite Hf. by intros [-> _]%lookup_replicate.
Qed.

Lemma demo_vfs_opened : vfs_run (M := mem) (inv := bump_inv) demo_open.1.2 [demo_open.2].
Proof. exact (vr_open _ _ 0 demo_user demo_fs_mem 0x400000 O_RDONLY demo_vfs_run eq_refl). Qed.

Lemma um_inv_proc F s p G q : um_inv F s p G -> cr3 q = cr3 p -> umap q = umap p -> um_inv F s q G.
Proof.
  intros [? ? ? ? ? ? Hp ?] Hc Hu. split; rewrite ?Hc, ?Hu; try done. unfold page_present in *. by rewrite ?Hc.
Qed.

Lemma user_mem_inv_proc m p q : user_mem_inv m p -> cr3 q = cr3 p -> umap q = umap p -> user_mem_inv m q.
Proof. intros (F & s & G & Hm & Hi) Hc Hu. exists F, s, G. split; [exact Hm|]. exact (um_inv_proc F s p G q Hi Hc Hu). Qed.

Lemma copy_mem_inv m p0 p bs : user_mem_inv m p0 -> cr3 p = cr3 p0 -> umap p = umap p0 ->
  byte_list bs -> Z.of_nat (length bs) < 2 ^ 64 ->
  user_mem_inv (copy_to_user m (set_cwd p0 [SLASH]) 0x400000 bs).2 p.
Proof.
  intros Hi Hc Hu Hb Hl. apply (user_mem_inv_proc _ (set_cwd p0 [SLASH])); [|done..].
  apply (ua_to_inv (UserAccessLaws := kernel_user_access_laws)); [|lia|done..].
  by apply (user_mem_inv_proc _ p0).
Qed.

Lemma demo_page_mem_inv : user_mem_inv (ms_mem demo_page.1.2) demo_page.2.
Proof. destruct demo_page_inv as [G Hum]. exists demo_account, demo_page.1.2, G. exact (conj eq_refl Hum). Qed.

Lemma demo_user_inv p bs : cr3 p = cr3 demo_page.2 -> umap p = umap demo_page.2 -> byte_list bs ->
  Z.of_nat (length bs) < 2 ^ 64 -> user_mem_inv (copy_to_user (ms_mem demo_page.1.2) demo_user 0x400000 bs).2 p.
Proof. unfold demo_user. apply copy_mem_inv, demo_page_mem_inv. Qed.

Lemma demo_bytes : byte_list (demo_path ++ [0]) /\ byte_list (str "etc/" ++ [0]).
Proof. split; vm_compute; repeat constructor; done. Qed.

Lemma vfs_resolve_correct_witness :
  exists n, resolve_user demo_fs_mem demo_fs demo_user 0x400000 = inr n /\
    nname (at_node (nodes demo_fs) n) = str "hello.txt".
Proof.
  assert (Hc : vfs_copy_user_path demo_fs_mem demo_user 0x400000 VFS_PATH_MAX = inr demo_path) by (vm_compute; reflexivity).
  assert (Ha : vfs_absolutize demo_user demo_path VFS_PATH_MAX = Some demo_path) by (vm_compute; reflexivity).
  destruct (vfs_resolve_correct demo_fs [demo_user] 0 demo_user demo_fs_mem 0x400000 demo_path demo_path
    demo_vfs_run eq_refl Hc Ha) as (d & _ & _ & Hr & _).
  exists 0x1090. rewrite Hr. clear. split; vm_compute; reflexivity.
Defined.

Lemma vfs_chdir_correct_witness :
  cwd (sys_vfs_chdir demo_etc demo_fs demo_user 0x400000).2 = str "/etc" /\
  vfs_resolve_abs (nodes demo_fs) (g_root demo_fs) (str "/etc") =
    resolve_user demo_etc demo_fs demo_user 0x400000.
Proof.
  assert (Hi : user_mem_inv demo_etc demo_user).
  { apply demo_user_inv; [done|done|apply demo_bytes|done]. }
  destruct (vfs_chdir_correct demo_fs [demo_user] 0 demo_user demo_etc 0x400000 0x400800 100 demo_vfs_run eq_refl Hi
    ltac:(lia)) as [H _].
  assert (E : sys_vfs_chdir demo_etc demo_fs demo_user 0x400000 = (0, set_cwd demo_user (str "/etc")))
    by (vm_compute; reflexivity).
  rewrite E in H |- *. clear E Hi. cbn [cwd set_cwd snd] in *. split; [reflexivity|].
  destruct H as [(H & _)|(_ & _ & _ & _ & n & Hn & _ & Hc)]; [by apply Z.lt_irrefl in H|by rewrite Hn, Hc].
Defined.

Lemma vfs_read_seek_correct_witness :
  ua_copy_from (sys_vfs_read demo_fs_mem demo_open.1.2 demo_open.2 3 0x400100 5).1.2 demo_open.2 0x400100 5 =
    Some (str "Hello").
Proof.
  assert (Hi : user_mem_inv demo_fs_mem demo_open.2).
  { apply demo_user_inv; [vm_compute; reflexivity|vm_compute; reflexivity|apply demo_bytes|done]. }
  assert (Hfd : vfs_fd demo_open.1.2 demo_open.2 3 = Some (0x12d0, VfsFile 0x1090 0 0x12d0 1)) by (vm_compute; reflexivity).
  destruct (vfs_read_seek_correct demo_open.1.2 [demo_open.2] 0 demo_open.2 demo_fs_mem 3 0x12d0
    (VfsFile 0x1090 0 0x12d0 1) 0x400100 5 0 demo_vfs_opened eq_refl Hi ltac:(lia) ltac:(lia) Hfd
    ltac:(vm_compute; reflexivity)) as [H _].
  assert (Hr : ua_range_ok demo_fs_mem demo_open.2 0x400100 5 true = true) by (vm_compute; reflexivity).
  assert (Hw : take (Z.to_nat 5) (drop (Z.to_nat 0) (vdata (at_node (nodes demo_open.1.2) 0x1090))) = str "Hello")
    by (vm_compute; reflexivity).
  assert (Hl : Z.of_nat (length (vdata (at_node (nodes demo_open.1.2) 0x1090))) = 15) by (vm_compute; reflexivity).
  cbn [fpos fnode] in H. rewrite Hw, Hl in H. change (Z.of_nat (length (str "Hello"))) with 5 in H. rewrite Hr in H.
  clear Hi Hfd Hr Hw Hl. generalize dependent demo_open. intros [[r0 v0] p0]. cbn [fst snd].
  destruct (sys_vfs_read _ _ _ _ _ _) as [[r m'] v']. cbn [fst snd].
  intros [(H & _)|[(_ & H & _)|(_ & _ & _ & _ & H & _)]]; [by apply Z.leb_le in H|discriminate H|exact H].
Defined.

Lemma vfs_refcount_sound_witness :
  match files demo_open.1.2 !! 0x12d0 with
  | Some f => refcount f = Z.of_nat (refs [demo_open.2] 0x12d0)
  | None => False
  end.
Proof.
  assert (Hs : (if files demo_open.1.2 !! 0x12d0 then true else false) = true) by (vm_compute; reflexivity).
  destruct (files demo_open.1.2 !! 0x12d0) as [f|] eqn:Hf; [|discriminate Hs].
  by apply (vfs_refcount_sound demo_open.1.2 [demo_open.2] demo_vfs_opened).
Defined.
