(* ===== verification/Serial.v ===== *)
(** * The serial port ([dev/serial.c])

  The polled UART driver over the processor's port instructions, which are a
  parameter ([PortIO]); a ghost view of the wire ([uart_laws]) says what the chip
  does.  The components above use the interface [SerialPort], which the driver
  implements.  [kprintf] and its conversions are in [Console]. *)
From S2P Require Import Prelude.

(** ** The interface *)

(** [serial_getchar] returns -1 when no byte is there. *)
Class SerialPort (W : Type) := { serial_putchar : W -> Z -> W; serial_getchar : W -> Z * W }.

(** [tx w]: the bytes sent so far; [rx w]: the bytes that are still to be received.  A
  byte on its way may not be there yet. *)
Class SerialPortLaws (W : Type) `{SerialPort W} (tx rx : W -> list Z) := {
  putchar_law w c : tx (serial_putchar w c) = tx w ++ [u8 c] /\ rx (serial_putchar w c) = rx w;
  getchar_law w : let '(c, w') := serial_getchar w in tx w' = tx w /\
    ((c = -1 /\ rx w' = rx w) \/ (0 <= c < 256 /\ rx w = c :: rx w'))
}.

(** ** The driver *)

(** The port instructions. *)
Class PortIO (W : Type) := { inb : W -> Z -> Z * W; outb : W -> Z -> Z -> W }.

Definition COM1 : Z := 0x3F8.
Definition UART_THR : Z := 0.
Definition UART_RBR : Z := 0.
Definition UART_IER : Z := 1.
Definition UART_FCR : Z := 2.
Definition UART_LCR : Z := 3.
Definition UART_MCR : Z := 4.
Definition UART_LSR : Z := 5.
Definition UART_DLL : Z := 0.
Definition UART_DLH : Z := 1.
Definition UART_LSR_TX_EMPTY : Z := 0x20.
Definition UART_LSR_RX_READY : Z := 0x01.

Section Driver.
Context {W : Type} `{IO : PortIO W}.

(** How often the status is polled before the model gives up; [uart_laws] says that
  this does not happen. *)
Context (spins : nat).

Definition serial_init (w : W) : W :=
  foldl (fun w rv => outb w (COM1 + rv.1) rv.2) w
    [(UART_IER, 0x00); (UART_LCR, 0x80); (UART_DLL, 0x01); (UART_DLH, 0x00); (UART_LCR, 0x03); (UART_FCR, 0xC7);
     (UART_MCR, 0x0B); (UART_IER, 0x00)].

(** [while (!(inb(COM1 + UART_LSR) & UART_LSR_TX_EMPTY)) pause;] *)
Fixpoint wait_thr (fuel : nat) (w : W) : option W :=
  match fuel with
  | O => None
  | S fuel =>
      let '(lsr, w) := inb w (COM1 + UART_LSR) in
      if negb (has lsr UART_LSR_TX_EMPTY) then wait_thr fuel w else Some w
  end.

Definition uart_putchar (w : W) (c : Z) : option W :=
  match wait_thr spins w with
  | None => None
  | Some w => Some (outb w (COM1 + UART_THR) (u8 c))
  end.

Definition uart_getchar (w : W) : Z * W :=
  let '(lsr, w) := inb w (COM1 + UART_LSR) in
  if negb (has lsr UART_LSR_RX_READY) then (-1, w) else inb w (COM1 + UART_RBR).

(** [serial_puts]: up to the NUL. *)
Fixpoint uart_puts (w : W) (s : list Z) : option W :=
  match s with
  | [] => Some w
  | c :: s => if c =? 0 then Some w
              else match uart_putchar w c with None => None | Some w => uart_puts w s end
  end.

(** What the chip does: polling the status moves no byte, a ready byte is the next one
  of the wire, a byte written to an empty transmitter is sent, and the transmitter is
  empty again after a bounded number of polls. *)
Record uart_laws (tx rx : W -> list Z) : Prop := {
  ul_status w : let '(l, w') := inb w (COM1 + UART_LSR) in tx w' = tx w /\ rx w' = rx w /\
    (has l UART_LSR_RX_READY = true ->
       let '(b, w'') := inb w' (COM1 + UART_RBR) in tx w'' = tx w /\ 0 <= b < 256 /\ rx w = b :: rx w'') /\
    (has l UART_LSR_TX_EMPTY = true -> forall b, 0 <= b < 256 ->
       tx (outb w' (COM1 + UART_THR) b) = tx w ++ [b] /\ rx (outb w' (COM1 + UART_THR) b) = rx w);
  ul_ready w : is_Some (wait_thr spins w)
}.

Definition uart_port : SerialPort W := {|
  serial_putchar w c := default w (uart_putchar w c);
  serial_getchar := uart_getchar
|}.

Lemma wait_thr_spec tx rx fuel : uart_laws tx rx -> forall w w', wait_thr fuel w = Some w' -> tx w' = tx w /\ rx w' = rx w /\
  forall b, 0 <= b < 256 -> tx (outb w' (COM1 + UART_THR) b) = tx w' ++ [b] /\ rx (outb w' (COM1 + UART_THR) b) = rx w'.
Proof.
  intros L. induction fuel as [|fuel IH]; intros w w'; cbn [wait_thr]; [done|]. pose proof (ul_status _ _ L w) as Hs.
  destruct (inb w (COM1 + UART_LSR)) as [l w1]. destruct Hs as (Ht & Hr & _ & He).
  destruct (has l UART_LSR_TX_EMPTY); cbn [negb].
  - intros [= <-]. split_and!; [done..|]. rewrite Ht, Hr. by apply He.
  - intros (Ht' & Hr' & Hb)%IH. rewrite <- Ht, <- Hr. done.
Qed.

(** The driver implements the interface: the wait for the transmitter ends, what is put
  is sent, in order, and what is received is what the wire delivers, in order. *)
Lemma serial_port_implements tx rx : uart_laws tx rx ->
  (forall w c, is_Some (uart_putchar w c)) /\ @SerialPortLaws W uart_port tx rx.
Proof.
  intros L. assert (Hp : forall w c, exists w1, uart_putchar w c = Some (outb w1 (COM1 + UART_THR) (u8 c)) /\
    wait_thr spins w = Some w1).
  { intros w c. unfold uart_putchar. destruct (ul_ready _ _ L w) as [w1 ->]. by exists w1. }
  split; [intros w c; destruct (Hp w c) as (w1 & -> & _); by eexists|]. split.
  - intros w c. destruct (Hp w c) as (w1 & E & Ew). cbn [serial_putchar uart_port]. rewrite E. cbn [default].
    apply (wait_thr_spec _ _ _ L) in Ew as (Ht & Hr & Hb). unfold id. rewrite <- Ht, <- Hr. apply Hb.
    unfold u8. pose proof (Z.mod_pos_bound c (2 ^ 8) ltac:(lia)). lia.
  - intros w. cbn [serial_getchar uart_port]. unfold uart_getchar. pose proof (ul_status _ _ L w) as Hs.
    destruct (inb w (COM1 + UART_LSR)) as [l w1]. destruct Hs as (Ht & Hr & Hx & _).
    destruct (has l UART_LSR_RX_READY); cbn [negb]; [|split; [done|by left]]. specialize (Hx eq_refl).
    destruct (inb w1 (COM1 + UART_RBR)) as [b w2]. destruct Hx as (Ht2 & Hb & Hr2). split; [done|by right].
Qed.
End Driver.

(** ** A UART for demonstrations *)

(** The bytes to come, each with the number of polls until it is there, the bytes sent,
  and the number of polls until the transmitter is empty (at most 3). *)
Record demo_uart := DemoUart { du_rx : list (nat * Z); du_tx : list Z; du_busy : nat }.

Definition demo_poll (u : demo_uart) : Z * demo_uart :=
  let '(rxb, rx) := match du_rx u with
                    | [] => (0, [])
                    | (O, b) :: l => (UART_LSR_RX_READY, (O, b) :: l)
                    | (S n, b) :: l => (0, (n, b) :: l)
                    end in
  match du_busy u `min` 3 with
  | O => (Z.lor rxb UART_LSR_TX_EMPTY, DemoUart rx (du_tx u) 0)
  | S n => (rxb, DemoUart rx (du_tx u) n)
  end%nat.

#[export] Instance demo_ports : PortIO demo_uart := {|
  inb u p :=
    if p =? COM1 + UART_LSR then demo_poll u
    else match du_rx u with
         | (_, b) :: l => if p =? COM1 + UART_RBR then (u8 b, DemoUart l (du_tx u) (du_busy u)) else (0, u)
         | [] => (0, u)
         end;
  outb u p v := if p =? COM1 + UART_THR then DemoUart (du_rx u) (du_tx u ++ [v]) 3 else u
|}.

Definition demo_tx (u : demo_uart) : list Z := du_tx u.
Definition demo_rx (u : demo_uart) : list Z := (fun nb => u8 nb.2) <$> du_rx u.

Lemma demo_uart_laws : uart_laws 4 demo_tx demo_rx.
Proof.
  split.
  - intros [rx tx b]. cbn [inb demo_ports]. rewrite Z.eqb_refl. unfold demo_poll. cbn [du_rx du_tx du_busy].
    destruct rx as [|[[|n] x] rx]; destruct b as [|[|[|[|b]]]]; cbn [Nat.min];
      (split_and!; [done|done|intros H; (discriminate H || idtac)|intros _ v _; done]);
      cbn; split_and!; try done; unfold u8; pose proof (Z.mod_pos_bound x (2 ^ 8) ltac:(lia)); lia.
  - intros [rx tx b].
    destruct rx as [|[[|[|[|[|n]]]] x] rx]; destruct b as [|[|[|[|b]]]]; by eexists.
Qed.
