(* ===== verification/Framebuf.v ===== *)
(** * Text on the framebuffer ([dev/console.c], [lib/kpanic.c], [lib/font8x8.inc])

  The kernel draws text in two places: the console backend and the panic screen.
  Both keep a cursor and write 8x8 glyphs into the pixel buffer the boot loader gave;
  the buffer is memory ([PhysMem]) at virtual addresses.  A screen that does not exist
  is [None]. *)
From S2P Require Import Prelude PhysMem.

(** ** The font: characters 0x20 to 0x7E, a byte per scanline *)
Definition font8x8 : list Z := concat [
  [0x00; 0x00; 0x00; 0x00; 0x00; 0x00; 0x00; 0x00];
  [0x18; 0x18; 0x18; 0x18; 0x18; 0x00; 0x18; 0x00];
  [0x6C; 0x6C; 0x00; 0x00; 0x00; 0x00; 0x00; 0x00];
  [0x6C; 0x6C; 0xFE; 0x6C; 0xFE; 0x6C; 0x6C; 0x00];
  [0x18; 0x3E; 0x60; 0x3C; 0x06; 0x7C; 0x18; 0x00];
  [0x00; 0xC6; 0xCC; 0x18; 0x30; 0x66; 0xC6; 0x00];
  [0x38; 0x6C; 0x38; 0x76; 0xDC; 0xCC; 0x76; 0x00];
  [0x18; 0x18; 0x30; 0x00; 0x00; 0x00; 0x00; 0x00];
  [0x0C; 0x18; 0x30; 0x30; 0x30; 0x18; 0x0C; 0x00];
  [0x30; 0x18; 0x0C; 0x0C; 0x0C; 0x18; 0x30; 0x00];
  [0x00; 0x66; 0x3C; 0xFF; 0x3C; 0x66; 0x00; 0x00];
  [0x00; 0x18; 0x18; 0x7E; 0x18; 0x18; 0x00; 0x00];
  [0x00; 0x00; 0x00; 0x00; 0x00; 0x18; 0x18; 0x30];
  [0x00; 0x00; 0x00; 0x7E; 0x00; 0x00; 0x00; 0x00];
  [0x00; 0x00; 0x00; 0x00; 0x00; 0x18; 0x18; 0x00];
  [0x06; 0x0C; 0x18; 0x30; 0x60; 0xC0; 0x80; 0x00];
  [0x7C; 0xC6; 0xCE; 0xD6; 0xE6; 0xC6; 0x7C; 0x00];
  [0x18; 0x38; 0x78; 0x18; 0x18; 0x18; 0x7E; 0x00];
  [0x7C; 0xC6; 0x06; 0x1C; 0x30; 0x60; 0xFE; 0x00];
  [0x7C; 0xC6; 0x06; 0x3C; 0x06; 0xC6; 0x7C; 0x00];
  [0x1C; 0x3C; 0x6C; 0xCC; 0xFE; 0x0C; 0x0C; 0x00];
  [0xFE; 0xC0; 0xFC; 0x06; 0x06; 0xC6; 0x7C; 0x00];
  [0x3C; 0x60; 0xC0; 0xFC; 0xC6; 0xC6; 0x7C; 0x00];
  [0xFE; 0xC6; 0x0C; 0x18; 0x30; 0x30; 0x30; 0x00];
  [0x7C; 0xC6; 0xC6; 0x7C; 0xC6; 0xC6; 0x7C; 0x00];
  [0x7C; 0xC6; 0xC6; 0x7E; 0x06; 0x0C; 0x78; 0x00];
  [0x00; 0x18; 0x18; 0x00; 0x00; 0x18; 0x18; 0x00];
  [0x00; 0x18; 0x18; 0x00; 0x00; 0x18; 0x18; 0x30];
  [0x0C; 0x18; 0x30; 0x60; 0x30; 0x18; 0x0C; 0x00];
  [0x00; 0x00; 0x7E; 0x00; 0x7E; 0x00; 0x00; 0x00];
  [0x60; 0x30; 0x18; 0x0C; 0x18; 0x30; 0x60; 0x00];
  [0x7C; 0xC6; 0x0C; 0x18; 0x18; 0x00; 0x18; 0x00];
  [0x7C; 0xC6; 0xDE; 0xD6; 0xDE; 0xC0; 0x7C; 0x00];
  [0x38; 0x6C; 0xC6; 0xFE; 0xC6; 0xC6; 0xC6; 0x00];
  [0xFC; 0xC6; 0xC6; 0xFC; 0xC6; 0xC6; 0xFC; 0x00];
  [0x7C; 0xC6; 0xC0; 0xC0; 0xC0; 0xC6; 0x7C; 0x00];
  [0xF8; 0xCC; 0xC6; 0xC6; 0xC6; 0xCC; 0xF8; 0x00];
  [0xFE; 0xC0; 0xC0; 0xF8; 0xC0; 0xC0; 0xFE; 0x00];
  [0xFE; 0xC0; 0xC0; 0xF8; 0xC0; 0xC0; 0xC0; 0x00];
  [0x7C; 0xC6; 0xC0; 0xCE; 0xC6; 0xC6; 0x7E; 0x00];
  [0xC6; 0xC6; 0xC6; 0xFE; 0xC6; 0xC6; 0xC6; 0x00];
  [0x7E; 0x18; 0x18; 0x18; 0x18; 0x18; 0x7E; 0x00];
  [0x06; 0x06; 0x06; 0x06; 0xC6; 0xC6; 0x7C; 0x00];
  [0xC6; 0xCC; 0xD8; 0xF0; 0xD8; 0xCC; 0xC6; 0x00];
  [0xC0; 0xC0; 0xC0; 0xC0; 0xC0; 0xC0; 0xFE; 0x00];
  [0xC6; 0xEE; 0xFE; 0xD6; 0xC6; 0xC6; 0xC6; 0x00];
  [0xC6; 0xE6; 0xF6; 0xDE; 0xCE; 0xC6; 0xC6; 0x00];
  [0x7C; 0xC6; 0xC6; 0xC6; 0xC6; 0xC6; 0x7C; 0x00];
  [0xFC; 0xC6; 0xC6; 0xFC; 0xC0; 0xC0; 0xC0; 0x00];
  [0x7C; 0xC6; 0xC6; 0xC6; 0xD6; 0xDE; 0x7C; 0x06];
  [0xFC; 0xC6; 0xC6; 0xFC; 0xD8; 0xCC; 0xC6; 0x00];
  [0x7C; 0xC6; 0xC0; 0x7C; 0x06; 0xC6; 0x7C; 0x00];
  [0xFE; 0x18; 0x18; 0x18; 0x18; 0x18; 0x18; 0x00];
  [0xC6; 0xC6; 0xC6; 0xC6; 0xC6; 0xC6; 0x7C; 0x00];
  [0xC6; 0xC6; 0xC6; 0xC6; 0xC6; 0x6C; 0x38; 0x00];
  [0xC6; 0xC6; 0xC6; 0xD6; 0xFE; 0xEE; 0xC6; 0x00];
  [0xC6; 0xC6; 0x6C; 0x38; 0x6C; 0xC6; 0xC6; 0x00];
  [0xC6; 0xC6; 0x6C; 0x38; 0x18; 0x18; 0x18; 0x00];
  [0xFE; 0x06; 0x0C; 0x18; 0x30; 0x60; 0xFE; 0x00];
  [0x3C; 0x30; 0x30; 0x30; 0x30; 0x30; 0x3C; 0x00];
  [0xC0; 0x60; 0x30; 0x18; 0x0C; 0x06; 0x02; 0x00];
  [0x3C; 0x0C; 0x0C; 0x0C; 0x0C; 0x0C; 0x3C; 0x00];
  [0x00; 0x44; 0xEE; 0x7C; 0x38; 0x00; 0x00; 0x00];
  [0x00; 0x00; 0x00; 0x00; 0x00; 0x00; 0xFE; 0x00];
  [0x30; 0x18; 0x0C; 0x00; 0x00; 0x00; 0x00; 0x00];
  [0x00; 0x00; 0x7C; 0x06; 0x7E; 0xC6; 0x7E; 0x00];
  [0xC0; 0xC0; 0xFC; 0xC6; 0xC6; 0xC6; 0xFC; 0x00];
  [0x00; 0x00; 0x7C; 0xC6; 0xC0; 0xC6; 0x7C; 0x00];
  [0x06; 0x06; 0x7E; 0xC6; 0xC6; 0xC6; 0x7E; 0x00];
  [0x00; 0x00; 0x7C; 0xC6; 0xFE; 0xC0; 0x7C; 0x00];
  [0x1C; 0x36; 0x30; 0xFC; 0x30; 0x30; 0x30; 0x00];
  [0x00; 0x00; 0x7E; 0xC6; 0xC6; 0x7E; 0x06; 0x7C];
  [0xC0; 0xC0; 0xFC; 0xC6; 0xC6; 0xC6; 0xC6; 0x00];
  [0x18; 0x00; 0x38; 0x18; 0x18; 0x18; 0x3C; 0x00];
  [0x06; 0x00; 0x0E; 0x06; 0x06; 0xC6; 0xC6; 0x7C];
  [0xC0; 0xC0; 0xCC; 0xD8; 0xF0; 0xD8; 0xCC; 0x00];
  [0x38; 0x18; 0x18; 0x18; 0x18; 0x18; 0x3C; 0x00];
  [0x00; 0x00; 0xEC; 0xFE; 0xD6; 0xC6; 0xC6; 0x00];
  [0x00; 0x00; 0xFC; 0xC6; 0xC6; 0xC6; 0xC6; 0x00];
  [0x00; 0x00; 0x7C; 0xC6; 0xC6; 0xC6; 0x7C; 0x00];
  [0x00; 0x00; 0xFC; 0xC6; 0xC6; 0xFC; 0xC0; 0xC0];
  [0x00; 0x00; 0x7E; 0xC6; 0xC6; 0x7E; 0x06; 0x06];
  [0x00; 0x00; 0xFC; 0xC6; 0xC0; 0xC0; 0xC0; 0x00];
  [0x00; 0x00; 0x7E; 0xC0; 0x7C; 0x06; 0xFC; 0x00];
  [0x30; 0x30; 0xFC; 0x30; 0x30; 0x36; 0x1C; 0x00];
  [0x00; 0x00; 0xC6; 0xC6; 0xC6; 0xC6; 0x7E; 0x00];
  [0x00; 0x00; 0xC6; 0xC6; 0xC6; 0x6C; 0x38; 0x00];
  [0x00; 0x00; 0xC6; 0xC6; 0xD6; 0xFE; 0x6C; 0x00];
  [0x00; 0x00; 0xC6; 0x6C; 0x38; 0x6C; 0xC6; 0x00];
  [0x00; 0x00; 0xC6; 0xC6; 0xC6; 0x7E; 0x06; 0x7C];
  [0x00; 0x00; 0xFE; 0x0C; 0x18; 0x30; 0xFE; 0x00];
  [0x0E; 0x18; 0x18; 0x70; 0x18; 0x18; 0x0E; 0x00];
  [0x18; 0x18; 0x18; 0x18; 0x18; 0x18; 0x18; 0x00];
  [0x70; 0x18; 0x18; 0x0E; 0x18; 0x18; 0x70; 0x00];
  [0x76; 0xDC; 0x00; 0x00; 0x00; 0x00; 0x00; 0x00]
].

Definition FONT_CHARS : Z := Z.of_nat (length font8x8) / 8.

Record boot_fb_t := Fb { fb_base : Z; fb_width : Z; fb_height : Z; fb_pitch : Z; fb_bpp : Z }.

(** The pixel buffer and the cursor. *)
Record fb_state := FbState { fb_mem : mem; cursor_x : Z; cursor_y : Z }.

Definition NEWLINE : Z := 10.
Definition RETURN : Z := 13.
Definition QUESTION : Z := 63.

(** ** Scrolling, the same loops in both places *)

(** [pixels[k] = pixels[k + scroll]] for the bytes of rows [0 .. height - 9]. *)
Definition scroll_copy (fb : boot_fb_t) (m : mem) : mem :=
  foldl (fun m y => foldl (fun m x =>
    mem_write m (fb_base fb + (y * fb_pitch fb + x)) [mem_get m (fb_base fb + (y * fb_pitch fb + x + 8 * fb_pitch fb))])
    m (range 0 (fb_pitch fb))) m (range 0 (u64 (fb_height fb - 8))).

(** Filling the pixels [(x, y)] with [y] in [rows]; [bytes] per pixel. *)
Definition fill_rows (fb : boot_fb_t) (bytes color : Z) (rows : list Z) (m : mem) : mem :=
  foldl (fun m y => foldl (fun m x => wr32 m (fb_base fb + y * fb_pitch fb + x * bytes) color)
    m (range 0 (fb_width fb))) m rows.

Definition scroll_up (fb : boot_fb_t) (color : Z) (m : mem) : mem :=
  fill_rows fb 4 color (range (u64 (fb_height fb - 8)) (fb_height fb)) (scroll_copy fb m).

(** ** The console ([console_fb_putchar]); the cursor is 32 bits wide *)

Definition console_fb_fg_color : Z := 0xFFFFFF.
Definition console_fb_bg_color : Z := 0x000000.

Definition console_newline (fb : boot_fb_t) (s : fb_state) : fb_state :=
  let y := u32 (cursor_y s + 8) in
  if fb_height fb <? u32 (y + 8)
  then FbState (scroll_up fb console_fb_bg_color (fb_mem s)) 0 (u32 (u64 (fb_height fb - 8)))
  else FbState (fb_mem s) 0 y.

Definition console_glyph (c : Z) : Z := let ascii := u8 c in if FONT_CHARS <=? ascii then QUESTION else ascii.

Definition console_draw (fb : boot_fb_t) (ascii : Z) (s : fb_state) : mem :=
  foldl (fun m row => foldl (fun m col =>
    let color := if has (zget 0 font8x8 (ascii * 8 + row)) (Z.shiftl 1 col) then console_fb_fg_color else console_fb_bg_color in
    let px_x := u32 (cursor_x s + col) in
    let px_y := u32 (cursor_y s + row) in
    if (px_x <? fb_width fb) && (px_y <? fb_height fb)
    then wr32 m (fb_base fb + px_y * fb_pitch fb + px_x * 4) color else m)
    m (range 0 8)) (fb_mem s) (range 0 8).

Definition console_fb_putchar (fb : option boot_fb_t) (s : fb_state) (c : Z) : fb_state :=
  match fb with
  | None => s
  | Some fb =>
      if c =? NEWLINE then console_newline fb s
      else if c =? RETURN then FbState (fb_mem s) 0 (cursor_y s)
      else
        let s := if fb_width fb <? u32 (cursor_x s + 8) then console_newline fb s else s in
        FbState (console_draw fb (console_glyph c) s) (u32 (cursor_x s + 8)) (cursor_y s)
  end.

(** ** The panic screen ([fb_putchar]); the cursor is 64 bits wide *)

Definition fb_fg_color : Z := 0xFFFFFF.
Definition fb_bg_color : Z := 0xFF0000.

Definition fb_newline (fb : boot_fb_t) (s : fb_state) : fb_state :=
  let y := u64 (cursor_y s + 8) in
  if fb_height fb <? u64 (y + 8)
  then FbState (scroll_up fb fb_bg_color (fb_mem s)) 0 (u64 (fb_height fb - 8))
  else FbState (fb_mem s) 0 y.

Definition panic_glyph (c : Z) : Z := let uc := u8 c in if (uc <? 0x20) || (0x7E <? uc) then QUESTION else uc.

Definition fb_draw (fb : boot_fb_t) (uc : Z) (s : fb_state) : mem :=
  foldl (fun m row => foldl (fun m col =>
    let px := u64 (cursor_x s + col) in
    let py := u64 (cursor_y s + row) in
    if (fb_width fb <=? px) || (fb_height fb <=? py) then m
    else wr32 m (fb_base fb + py * fb_pitch fb + px * (fb_bpp fb / 8))
           (if has (zget 0 font8x8 ((uc - 0x20) * 8 + row)) (Z.shiftr 0x80 col) then fb_fg_color else fb_bg_color))
    m (range 0 8)) (fb_mem s) (range 0 8).

Definition fb_putchar (fb : option boot_fb_t) (s : fb_state) (c : Z) : fb_state :=
  match fb with
  | None => s
  | Some fb =>
      if c =? NEWLINE then fb_newline fb s
      else if c =? RETURN then FbState (fb_mem s) 0 (cursor_y s)
      else
        let m := fb_draw fb (panic_glyph c) s in
        let x := u64 (cursor_x s + 8) in
        if fb_width fb <? u64 (x + 8) then FbState m 0 (u64 (cursor_y s + 8)) else FbState m x (cursor_y s)
  end.

(** [fb_puts] of a string without its terminator. *)
Definition fb_puts (fb : option boot_fb_t) (s : fb_state) (l : list Z) : fb_state := foldl (fb_putchar fb) s l.

Definition fb_clear (fb : option boot_fb_t) (s : fb_state) : fb_state :=
  match fb with
  | None => s
  | Some fb => FbState (fill_rows fb (fb_bpp fb / 8) fb_bg_color (range 0 (fb_height fb)) (fb_mem s)) 0 0
  end.

(** ** Nested loops *)

Definition cells (rows cols : list Z) : list (Z * Z) := r ← rows; (fun c => (r, c)) <$> cols.

Lemma foldl_cells {T} (f : T -> Z * Z -> T) rows cols s :
  foldl (fun s r => foldl (fun s c => f s (r, c)) s cols) s rows = foldl f s (cells rows cols).
Proof.
  revert s. induction rows as [|r rows IH]; intros s; [done|]. unfold cells. cbn [foldl mbind list_bind]. rewrite foldl_app, IH. f_equal.
  clear. revert s. induction cols as [|c cols IH]; intros s; [done|]. cbn [foldl fmap list_fmap]. apply IH.
Qed.

Lemma foldl_ext {A B} (f g : A -> B -> A) l : (forall a x, f a x = g a x) -> forall a, foldl f a l = foldl g a l.
Proof. intros H. induction l as [|x l IH]; intros a; [done|]. cbn [foldl]. by rewrite H. Qed.

Lemma elem_of_cells rows cols r c : (r, c) ∈ cells rows cols <-> r ∈ rows /\ c ∈ cols.
Proof.
  unfold cells. rewrite list_elem_of_bind. split.
  - intros (x & (y & [= -> ->] & Hy)%list_elem_of_fmap & Hx). done.
  - intros [Hr Hc]. exists r. split; [|done]. apply list_elem_of_fmap. by exists c.
Qed.

(** Row by row over a rectangle is one loop over its bytes. *)
Lemma foldl_rows {T} (f : T -> Z -> T) w n s : 0 <= w ->
  foldl (fun s y => foldl (fun s x => f s (y * w + x)) s (range 0 w)) s (range 0 (Z.of_nat n)) = foldl f s (range 0 (Z.of_nat n * w)).
Proof.
  intros Hw. revert s. induction n as [|n IH]; intros s; [done|].
  replace (Z.of_nat (S n)) with (Z.of_nat n + 1) by lia. rewrite (range_app 0 (Z.of_nat n) (Z.of_nat n + 1)), foldl_app, IH by lia.
  rewrite (range_cons (Z.of_nat n)), (range_nil (Z.of_nat n + 1)) by lia. cbn [foldl].
  rewrite (range_app 0 (Z.of_nat n * w) ((Z.of_nat n + 1) * w)) by lia. rewrite foldl_app.
  replace ((Z.of_nat n + 1) * w) with (Z.of_nat n * w + w) by lia. rewrite range_shift.
  generalize (foldl f s (range 0 (Z.of_nat n * w))). clear. intros s. generalize (range 0 w). intros l. revert s.
  induction l as [|x l IH]; intros s; [done|]. cbn [foldl fmap list_fmap]. apply IH.
Qed.

(** ** Words of 32 bits *)

Lemma rd32_wr32_eq m a v : 0 <= v < 2 ^ 32 -> rd32 (wr32 m a v) a = v.
Proof.
  intros Hv. unfold rd32, wr32. replace 4 with (Z.of_nat (length (le_bytes 4 v))) at 1 by (by rewrite length_le_bytes).
  rewrite mem_read_write_eq, le_val_bytes by apply le_bytes_range. by apply Z.mod_small.
Qed.

Lemma mem_get_wr32_out m a v x : x < a \/ a + 4 <= x -> mem_get (wr32 m a v) x = mem_get m x.
Proof. intros H. apply mem_get_write_out. by rewrite length_le_bytes. Qed.

Lemma rd32_ext m m' a : (forall x, a <= x < a + 4 -> mem_get m' x = mem_get m x) -> rd32 m' a = rd32 m a.
Proof. intros H. unfold rd32. f_equal. apply mem_read_ext. intros x Hx. by apply H. Qed.

(** Painting: a loop of guarded stores at words that do not overlap. *)
Section Paint.
Context {I : Type} (P : I -> bool) (A C : I -> Z).

Definition paint (m : mem) (i : I) : mem := if P i then wr32 m (A i) (C i) else m.

Lemma paint_out l m x : (forall i, i ∈ l -> P i = true -> x < A i \/ A i + 4 <= x) -> mem_get (foldl paint m l) x = mem_get m x.
Proof.
  revert m. induction l as [|i l IH]; intros m H; [done|]. cbn [foldl]. rewrite IH by (intros j Hj; apply H; by right).
  unfold paint. destruct (P i) eqn:E; [|done]. apply mem_get_wr32_out, H; [by left|done].
Qed.

Lemma paint_in l m i : NoDup l -> i ∈ l -> P i = true -> 0 <= C i < 2 ^ 32 ->
  (forall j, j ∈ l -> j <> i -> P j = true -> A j + 4 <= A i \/ A i + 4 <= A j) -> rd32 (foldl paint m l) (A i) = C i.
Proof.
  revert m. induction l as [|j l IH]; intros m Hnd Hi HP HC Hap; [by apply not_elem_of_nil in Hi|].
  apply NoDup_cons in Hnd as [Hj Hnd]. cbn [foldl]. apply elem_of_cons in Hi as [<-|Hi].
  - rewrite (rd32_ext (paint m i)).
    + unfold paint. rewrite HP. by apply rd32_wr32_eq.
    + intros x Hx. apply paint_out. intros j Hjl HPj.
      assert (j <> i) by (intros ->; done). specialize (Hap j ltac:(by right) ltac:(done) HPj). lia.
  - apply IH; try done. intros k Hk. apply Hap. by right.
Qed.
End Paint.

(** Copying bytes downwards, lowest first. *)
Lemma copy_down_loop base d n m : 0 < d ->
  let m' := foldl (fun m k => mem_write m (base + k) [mem_get m (base + (k + d))]) m (range 0 (Z.of_nat n)) in
  (forall k, 0 <= k < Z.of_nat n -> mem_get m' (base + k) = mem_get m (base + (k + d))) /\
  (forall x, x < base \/ base + Z.of_nat n <= x -> mem_get m' x = mem_get m x).
Proof.
  intros Hd. induction n as [|n IH]; [split; [lia|done]|].
  replace (Z.of_nat (S n)) with (Z.of_nat n + 1) by lia. rewrite (range_app 0 (Z.of_nat n) (Z.of_nat n + 1)), foldl_app by lia.
  rewrite (range_cons (Z.of_nat n)), (range_nil (Z.of_nat n + 1)) by lia. cbn [foldl]. cbv zeta in IH.
  set (m1 := foldl _ m (range 0 (Z.of_nat n))) in *. destruct IH as [I1 I2]. clearbody m1. cbv zeta. split.
  - intros k Hk. destruct (decide (k = Z.of_nat n)) as [->|].
    + replace (base + Z.of_nat n) with (base + Z.of_nat n + 0) at 2 by lia.
      rewrite mem_get_write_in; [|cbn; lia|constructor; [apply mem_get_range|constructor]]. cbn [Z.to_nat nth]. apply I2. lia.
    + rewrite mem_get_write_out by (cbn [length]; lia). apply I1. lia.
  - intros x Hx. rewrite mem_get_write_out by (cbn [length]; lia). apply I2. lia.
Qed.

(** ** The screen *)

(** A 32-bit screen at least one character large. *)
Record fb_ok (fb : boot_fb_t) : Prop := {
  fo_width : 8 <= fb_width fb < 2 ^ 31;
  fo_height : 8 <= fb_height fb < 2 ^ 31;
  fo_pitch : 4 * fb_width fb <= fb_pitch fb;
  fo_bpp : fb_bpp fb = 32
}.

Definition pixel (fb : boot_fb_t) (m : mem) (x y : Z) : Z := rd32 m (fb_base fb + y * fb_pitch fb + x * 4).

Definition on_screen (fb : boot_fb_t) (x y : Z) : Prop := 0 <= x < fb_width fb /\ 0 <= y < fb_height fb.

(** Nothing outside the pixel buffer changes. *)
Definition in_buffer (fb : boot_fb_t) (m m' : mem) : Prop :=
  forall a, a < fb_base fb \/ fb_base fb + fb_height fb * fb_pitch fb <= a -> mem_get m' a = mem_get m a.

Section Screen.
Context (fb : boot_fb_t) (OK : fb_ok fb).

Let addr (x y : Z) : Z := fb_base fb + y * fb_pitch fb + x * 4.

Lemma addr_in x y : on_screen fb x y -> fb_base fb <= addr x y /\ addr x y + 4 <= fb_base fb + fb_height fb * fb_pitch fb.
Proof using OK. destruct OK. intros [Hx Hy]. unfold addr. nia. Qed.

Lemma addr_apart x y x' y' : on_screen fb x y -> on_screen fb x' y' -> (x, y) <> (x', y') ->
  addr x y + 4 <= addr x' y' \/ addr x' y' + 4 <= addr x y.
Proof using OK.
  destruct OK. intros [Hx Hy] [Hx' Hy'] Hne. unfold addr.
  destruct (Z.lt_trichotomy y y') as [H|[->|H]]; [left; nia| |right; nia].
  destruct (Z.lt_trichotomy x x') as [H|[->|H]]; [left; nia|done|right; nia].
Qed.

(** Loops that paint pixels: the colour of each, and the rest. *)
Section Cells.
Context {I : Type} (P : I -> bool) (X Y C : I -> Z) (l : list I).
Context (HP : forall i, i ∈ l -> P i = true -> on_screen fb (X i) (Y i)) (HC : forall i, 0 <= C i < 2 ^ 32).
Context (Hnd : NoDup l) (Hinj : forall i j, i ∈ l -> j ∈ l -> P i = true -> P j = true -> X i = X j -> Y i = Y j -> i = j).

Lemma paint_pixels m : let m' := foldl (paint P (fun i => addr (X i) (Y i)) C) m l in
  in_buffer fb m m' /\ (forall i, i ∈ l -> P i = true -> pixel fb m' (X i) (Y i) = C i) /\
  forall x y, on_screen fb x y -> (forall i, i ∈ l -> P i = true -> (X i, Y i) <> (x, y)) -> pixel fb m' x y = pixel fb m x y.
Proof using OK HP HC Hnd Hinj.
  cbv zeta. split_and!.
  - intros a Ha. apply paint_out. intros i Hi Hp. pose proof (addr_in _ _ (HP i Hi Hp)). lia.
  - intros i Hi Hp. apply (paint_in P (fun i => addr (X i) (Y i)) C l m i); try done.
    intros j Hj Hne Hpj. apply addr_apart; [by apply HP..|]. intros [= E1 E2]. apply Hne. by apply Hinj.
  - intros x y Hxy Hn. apply rd32_ext. intros a Ha. apply paint_out. intros i Hi Hp.
    destruct (addr_apart _ _ _ _ (HP i Hi Hp) Hxy (Hn i Hi Hp)); unfold addr in *; lia.
Qed.
End Cells.

Lemma NoDup_cells rows cols : NoDup rows -> NoDup cols -> NoDup (cells rows cols).
Proof using Type.
  intros Hr Hc. induction Hr as [|r rows Hn _ IH]; [constructor|]. unfold cells. cbn [mbind list_bind]. apply NoDup_app. split_and!; [|intros [y x]|apply IH].
  - apply NoDup_fmap_2; [|done]. by intros ? ? [= ->].
  - intros (c & [= -> ->] & _)%list_elem_of_fmap Hx. fold (cells rows cols) in Hx. apply elem_of_cells in Hx as [? _]. done.
Qed.

Lemma fill_rows_spec color lo hi m : 0 <= lo -> hi <= fb_height fb -> 0 <= color < 2 ^ 32 ->
  let m' := fill_rows fb 4 color (range lo hi) m in
  in_buffer fb m m' /\ forall x y, on_screen fb x y -> pixel fb m' x y = if (lo <=? y) && (y <? hi) then color else pixel fb m x y.
Proof using OK.
  intros Hlo Hhi Hc. unfold fill_rows. rewrite (foldl_cells (fun m rc => wr32 m (fb_base fb + rc.1 * fb_pitch fb + rc.2 * 4) color)).
  destruct (paint_pixels (fun _ => true) snd fst (fun _ => color) (cells (range lo hi) (range 0 (fb_width fb)))) with (m := m) as (B & H1 & H2).
  - intros [y x] [Hy%elem_of_range Hx%elem_of_range]%elem_of_cells _. split; cbn; lia.
  - done.
  - apply NoDup_cells; apply NoDup_range.
  - intros [y x] [y' x'] _ _ _ _ E1 E2. cbn in E1, E2. by subst.
  - split; [exact B|]. intros x y Hxy. destruct ((lo <=? y) && (y <? hi)) eqn:E; bool_to_prop.
    + apply (H1 (y, x)); [|done]. destruct Hxy. apply elem_of_cells. rewrite !elem_of_range. lia.
    + apply H2; [done|]. intros [y' x'] [Hy%elem_of_range _]%elem_of_cells _ [= -> ->].
      apply andb_false_iff in E as [E%Z.leb_gt|E%Z.ltb_ge]; lia.
Qed.

Lemma scroll_copy_flat m : scroll_copy fb m =
  foldl (fun m k => mem_write m (fb_base fb + k) [mem_get m (fb_base fb + (k + 8 * fb_pitch fb))]) m
    (range 0 (Z.of_nat (Z.to_nat ((fb_height fb - 8) * fb_pitch fb)))).
Proof using OK.
  pose proof OK as [Hw Hh Hp _]. unfold scroll_copy. rewrite u64_id, Z2Nat.id by nia.
  pose proof (foldl_rows (fun m k => mem_write m (fb_base fb + k) [mem_get m (fb_base fb + (k + 8 * fb_pitch fb))]) (fb_pitch fb)
    (Z.to_nat (fb_height fb - 8)) m ltac:(lia)) as E. by rewrite Z2Nat.id in E by lia.
Qed.

Lemma scroll_copy_spec m : in_buffer fb m (scroll_copy fb m) /\
  forall x y, on_screen fb x y -> y < fb_height fb - 8 -> pixel fb (scroll_copy fb m) x y = pixel fb m x (y + 8).
Proof using OK.
  pose proof OK as [Hw Hh Hp _]. rewrite scroll_copy_flat.
  destruct (copy_down_loop (fb_base fb) (8 * fb_pitch fb) (Z.to_nat ((fb_height fb - 8) * fb_pitch fb)) m ltac:(lia)) as [H1 H2].
  rewrite Z2Nat.id in * by nia. split.
  - intros a Ha. apply H2. nia.
  - intros x y [Hx Hy] Hlt. unfold pixel, rd32. f_equal. unfold mem_read. apply list_fmap_ext. intros i k Hk.
    apply list_elem_of_lookup_2, elem_of_range in Hk.
    replace (fb_base fb + y * fb_pitch fb + x * 4 + k) with (fb_base fb + (y * fb_pitch fb + x * 4 + k)) by lia.
    rewrite H1 by nia. f_equal. lia.
Qed.

Lemma in_buffer_trans m1 m2 m3 : in_buffer fb m1 m2 -> in_buffer fb m2 m3 -> in_buffer fb m1 m3.
Proof using Type. intros H1 H2 a Ha. by rewrite H2, H1. Qed.

(** The screen moved up by a line, the last line blank. *)
Lemma scroll_up_spec color m : 0 <= color < 2 ^ 32 -> in_buffer fb m (scroll_up fb color m) /\
  forall x y, on_screen fb x y -> pixel fb (scroll_up fb color m) x y = if fb_height fb - 8 <=? y then color else pixel fb m x (y + 8).
Proof using OK.
  intros Hc. pose proof OK as [Hw Hh Hp _]. unfold scroll_up. rewrite u64_id by lia. destruct (scroll_copy_spec m) as [B1 H1].
  destruct (fill_rows_spec color (fb_height fb - 8) (fb_height fb) (scroll_copy fb m)) as [B2 H2]; [lia|lia|done|].
  split; [by eapply in_buffer_trans|]. intros x y Hxy. rewrite H2 by done. destruct (Z.leb_spec (fb_height fb - 8) y); cbn [andb].
  - rewrite (proj2 (Z.ltb_lt _ _)); [done|]. unfold on_screen in Hxy. lia.
  - apply H1; [done|lia].
Qed.

(** Drawing a glyph with [bit row col] at [(x0, y0)], clipped to the screen. *)
Definition cell (x0 y0 x y : Z) : Prop := x0 <= x < x0 + 8 /\ y0 <= y < y0 + 8.

Lemma glyph_spec (color : Z -> Z -> Z) (xs ys : Z -> Z) m : (forall r c, 0 <= color r c < 2 ^ 32) ->
  (forall i j, 0 <= i < 8 -> 0 <= j < 8 -> xs i = xs j -> i = j) -> (forall i j, 0 <= i < 8 -> 0 <= j < 8 -> ys i = ys j -> i = j) ->
  (forall i, 0 <= i < 8 -> 0 <= xs i /\ 0 <= ys i) ->
  let draw rc := (xs rc.2 <? fb_width fb) && (ys rc.1 <? fb_height fb) in
  let m' := foldl (paint draw (fun rc => addr (xs rc.2) (ys rc.1)) (fun rc => color rc.1 rc.2)) m (cells (range 0 8) (range 0 8)) in
  in_buffer fb m m' /\
  (forall r c, 0 <= r < 8 -> 0 <= c < 8 -> on_screen fb (xs c) (ys r) -> pixel fb m' (xs c) (ys r) = color r c) /\
  forall x y, on_screen fb x y -> (forall r c, 0 <= r < 8 -> 0 <= c < 8 -> (xs c, ys r) <> (x, y)) -> pixel fb m' x y = pixel fb m x y.
Proof using OK.
  intros Hc Hx Hy H0. cbv zeta.
  assert (Hrc : forall rc, rc ∈ cells (range 0 8) (range 0 8) -> 0 <= rc.1 < 8 /\ 0 <= rc.2 < 8).
  { intros [r c] [Hr%elem_of_range Hcc%elem_of_range]%elem_of_cells. done. }
  destruct (paint_pixels (fun rc => (xs rc.2 <? fb_width fb) && (ys rc.1 <? fb_height fb)) (fun rc => xs rc.2) (fun rc => ys rc.1)
    (fun rc => color rc.1 rc.2) (cells (range 0 8) (range 0 8))) with (m := m) as (B & H1 & H2).
  - intros rc Hin E. bool_to_prop. destruct (Hrc rc Hin) as [Hr1 Hr2]. pose proof (H0 _ Hr1). pose proof (H0 _ Hr2). split; cbn beta; lia.
  - intros rc. apply Hc.
  - apply NoDup_cells; apply NoDup_range.
  - intros [r c] [r' c'] Hin Hin' _ _ E1 E2. cbn [fst snd] in *. destruct (Hrc _ Hin), (Hrc _ Hin'). cbn [fst snd] in *.
    f_equal; [by apply Hy|by apply Hx].
  - split; [exact B|]. split.
    + intros r c Hr Hcc [Hsx Hsy]. apply (H1 (r, c)); [apply elem_of_cells; rewrite !elem_of_range; lia|]. cbn [fst snd].
      rewrite (proj2 (Z.ltb_lt _ _)), (proj2 (Z.ltb_lt _ _)) by lia. done.
    + intros x y Hxy Hn. apply H2; [done|]. intros [r c] Hin _. destruct (Hrc _ Hin). by apply Hn.
Qed.
End Screen.

(** ** The text screen

  What the console means to show: a grid of pixels and a cursor.  A newline moves
  down a line and scrolls at the bottom; any other character wraps at the right
  edge and paints its cell. *)
Record screen := Screen { sc_pixel : Z -> Z -> Z; sc_x : Z; sc_y : Z }.

Definition screen_of (fb : boot_fb_t) (s : fb_state) : screen := Screen (pixel fb (fb_mem s)) (cursor_x s) (cursor_y s).

Definition screen_eq (fb : boot_fb_t) (t t' : screen) : Prop :=
  sc_x t' = sc_x t /\ sc_y t' = sc_y t /\ forall x y, on_screen fb x y -> sc_pixel t' x y = sc_pixel t x y.

Definition screen_newline (fb : boot_fb_t) (bg : Z) (t : screen) : screen :=
  if fb_height fb <? sc_y t + 16
  then Screen (fun x y => if fb_height fb - 8 <=? y then bg else sc_pixel t x (y + 8)) 0 (fb_height fb - 8)
  else Screen (sc_pixel t) 0 (sc_y t + 8).

Definition screen_draw (color : Z -> Z -> Z) (t : screen) : screen :=
  Screen (fun x y => if (sc_x t <=? x) && (x <? sc_x t + 8) && (sc_y t <=? y) && (y <? sc_y t + 8)
                     then color (y - sc_y t) (x - sc_x t) else sc_pixel t x y) (sc_x t + 8) (sc_y t).

(** The font has a glyph of eight rows for every character from 32 to 126; the
  highest bit of a row is its left pixel. *)
Definition glyph_bit (a row col : Z) : bool := Z.testbit (nth (Z.to_nat ((a - 32) * 8 + row)) font8x8 0) (7 - col).

(** What the console paints for [c]: the glyph of the character 32 places further
  on, or of the underscore for a code from 95 on, mirrored. *)
Definition console_shown (c : Z) : Z := if decide (c mod 256 < 95) then c mod 256 + 32 else 95.
Definition console_color (c row col : Z) : Z := if glyph_bit (console_shown c) row (7 - col) then 0xFFFFFF else 0.

(** What the panic screen paints: the character's own glyph, a question mark for
  one without. *)
Definition panic_shown (c : Z) : Z := if decide (32 <= c mod 256 <= 126) then c mod 256 else 63.
Definition panic_color (c row col : Z) : Z := if glyph_bit (panic_shown c) row col then 0xFFFFFF else 0xFF0000.

Definition screen_putchar (fb : boot_fb_t) (t : screen) (c : Z) : screen :=
  if c =? 10 then screen_newline fb 0 t
  else if c =? 13 then Screen (sc_pixel t) 0 (sc_y t)
  else screen_draw (console_color c) (if fb_width fb <? sc_x t + 8 then screen_newline fb 0 t else t).

Definition cursor_ok (fb : boot_fb_t) (s : fb_state) : Prop :=
  0 <= cursor_x s <= fb_width fb /\ 0 <= cursor_y s /\ cursor_y s + 8 <= fb_height fb.

Section Drivers.
Context (fb : boot_fb_t) (OK : fb_ok fb).

Lemma console_color_eq c row col : 0 <= row < 8 -> 0 <= col < 8 ->
  (if has (zget 0 font8x8 (console_glyph c * 8 + row)) (Z.shiftl 1 col) then console_fb_fg_color else console_fb_bg_color) =
  console_color c row col.
Proof using Type.
  intros Hr Hc. unfold console_color, glyph_bit, console_shown, console_glyph, u8, zget. change FONT_CHARS with 95. change (2 ^ 8) with 256.
  rewrite Z.shiftl_1_l, has_bit by lia. replace (7 - (7 - col)) with col by lia.
  destruct (Z.leb_spec 95 (c mod 256)); [rewrite decide_False by lia; reflexivity|rewrite decide_True by lia].
  by replace (c mod 256 + 32 - 32) with (c mod 256) by lia.
Qed.

Lemma panic_color_eq c row col : 0 <= row < 8 -> 0 <= col < 8 ->
  (if has (zget 0 font8x8 ((panic_glyph c - 0x20) * 8 + row)) (Z.shiftr 0x80 col) then fb_fg_color else fb_bg_color) =
  panic_color c row col.
Proof using Type.
  intros Hr Hc. unfold panic_color, glyph_bit, panic_shown, panic_glyph, u8, zget. change (2 ^ 8) with 256.
  replace (Z.shiftr 0x80 col) with (2 ^ (7 - col)).
  2:{ rewrite Z.shiftr_div_pow2 by lia. change 0x80 with (2 ^ 7). by rewrite Z.pow_sub_r by lia. }
  rewrite has_bit by lia.
  destruct (Z.ltb_spec (c mod 256) 0x20), (Z.ltb_spec 0x7E (c mod 256)); cbn [orb];
    first [rewrite decide_True by lia; reflexivity|rewrite decide_False by lia; reflexivity|lia].
Qed.

Lemma u32_off_inj a i j : 0 <= i < 8 -> 0 <= j < 8 -> u32 (a + i) = u32 (a + j) -> i = j.
Proof using Type. unfold u32. intros ? ? ?. Z.div_mod_to_equations. lia. Qed.

Lemma u64_off_inj a i j : 0 <= i < 8 -> 0 <= j < 8 -> u64 (a + i) = u64 (a + j) -> i = j.
Proof using Type. unfold u64. intros ? ? ?. Z.div_mod_to_equations. lia. Qed.

Lemma console_color_range c row col : 0 <= console_color c row col < 2 ^ 32.
Proof using Type. unfold console_color. by destruct (glyph_bit _ _ _). Qed.

Lemma console_draw_spec c s : let m' := console_draw fb (console_glyph c) s in
  in_buffer fb (fb_mem s) m' /\
  (forall row col, 0 <= row < 8 -> 0 <= col < 8 -> on_screen fb (u32 (cursor_x s + col)) (u32 (cursor_y s + row)) ->
     pixel fb m' (u32 (cursor_x s + col)) (u32 (cursor_y s + row)) = console_color c row col) /\
  forall x y, on_screen fb x y ->
    (forall row col, 0 <= row < 8 -> 0 <= col < 8 -> (u32 (cursor_x s + col), u32 (cursor_y s + row)) <> (x, y)) ->
    pixel fb m' x y = pixel fb (fb_mem s) x y.
Proof using OK.
  set (color row col := if has (zget 0 font8x8 (console_glyph c * 8 + row)) (Z.shiftl 1 col) then console_fb_fg_color else console_fb_bg_color).
  pose proof (glyph_spec fb OK color (fun col => u32 (cursor_x s + col)) (fun row => u32 (cursor_y s + row)) (fb_mem s)) as H.
  cbv zeta in H. rewrite <- (foldl_cells _ (range 0 8) (range 0 8)) in H. destruct H as (H1 & H2 & H3).
  - intros r k. unfold color. by destruct (has _ _).
  - intros i j. apply u32_off_inj.
  - intros i j. apply u32_off_inj.
  - intros. split; apply u32_range.
  - split; [exact H1|]. split; [|exact H3]. intros row col Hr Hc Hon. rewrite <- console_color_eq by done. by apply H2.
Qed.

Lemma panic_paint uc s m r c :
  (if (fb_width fb <=? u64 (cursor_x s + c)) || (fb_height fb <=? u64 (cursor_y s + r)) then m
   else wr32 m (fb_base fb + u64 (cursor_y s + r) * fb_pitch fb + u64 (cursor_x s + c) * (fb_bpp fb / 8))
          (if has (zget 0 font8x8 ((uc - 0x20) * 8 + r)) (Z.shiftr 0x80 c) then fb_fg_color else fb_bg_color)) =
  paint (fun rc => (u64 (cursor_x s + rc.2) <? fb_width fb) && (u64 (cursor_y s + rc.1) <? fb_height fb))
    (fun rc => fb_base fb + u64 (cursor_y s + rc.1) * fb_pitch fb + u64 (cursor_x s + rc.2) * 4)
    (fun rc => if has (zget 0 font8x8 ((uc - 0x20) * 8 + rc.1)) (Z.shiftr 0x80 rc.2) then fb_fg_color else fb_bg_color) m (r, c).
Proof using OK.
  unfold paint. cbn [fst snd]. rewrite (fo_bpp _ OK). change (32 / 8) with 4.
  destruct (Z.leb_spec (fb_width fb) (u64 (cursor_x s + c))), (Z.leb_spec (fb_height fb) (u64 (cursor_y s + r)));
    cbn [orb]; destruct (Z.ltb_spec (u64 (cursor_x s + c)) (fb_width fb)), (Z.ltb_spec (u64 (cursor_y s + r)) (fb_height fb));
    cbn [andb]; (done || lia).
Qed.

Lemma panic_draw_spec c s : let m' := fb_draw fb (panic_glyph c) s in
  in_buffer fb (fb_mem s) m' /\
  (forall row col, 0 <= row < 8 -> 0 <= col < 8 -> on_screen fb (u64 (cursor_x s + col)) (u64 (cursor_y s + row)) ->
     pixel fb m' (u64 (cursor_x s + col)) (u64 (cursor_y s + row)) = panic_color c row col) /\
  forall x y, on_screen fb x y ->
    (forall row col, 0 <= row < 8 -> 0 <= col < 8 -> (u64 (cursor_x s + col), u64 (cursor_y s + row)) <> (x, y)) ->
    pixel fb m' x y = pixel fb (fb_mem s) x y.
Proof using OK.
  set (color row col := if has (zget 0 font8x8 ((panic_glyph c - 0x20) * 8 + row)) (Z.shiftr 0x80 col) then fb_fg_color else fb_bg_color).
  pose proof (glyph_spec fb OK color (fun col => u64 (cursor_x s + col)) (fun row => u64 (cursor_y s + row)) (fb_mem s)) as H.
  cbv zeta in H. rewrite <- (foldl_cells _ (range 0 8) (range 0 8)) in H. unfold fb_draw.
  rewrite (foldl_ext _ _ (range 0 8) (fun m r => foldl_ext _ _ (range 0 8) (fun m k => panic_paint (panic_glyph c) s m r k) m)).
  destruct H as (H1 & H2 & H3).
  - intros r k. unfold color. by destruct (has _ _).
  - intros i j. apply u64_off_inj.
  - intros i j. apply u64_off_inj.
  - intros. split; apply u64_range.
  - split; [exact H1|]. split; [|exact H3]. intros row col Hr Hc Hon. rewrite <- panic_color_eq by done. by apply H2.
Qed.

Lemma console_newline_spec s : cursor_ok fb s -> let s' := console_newline fb s in
  in_buffer fb (fb_mem s) (fb_mem s') /\ screen_eq fb (screen_newline fb console_fb_bg_color (screen_of fb s)) (screen_of fb s') /\
  cursor_ok fb s' /\ cursor_x s' = 0.
Proof using OK.
  pose proof OK as [Hw Hh _ _]. intros (Hx & Hy0 & Hy). cbv zeta. unfold console_newline, screen_newline, screen_of, screen_eq, cursor_ok.
  cbn [sc_x sc_y sc_pixel]. rewrite (u32_id (cursor_y s + 8)), (u32_id (cursor_y s + 8 + 8)), u64_id, (u32_id (fb_height fb - 8)) by lia.
  replace (cursor_y s + 8 + 8) with (cursor_y s + 16) by lia.
  destruct (scroll_up_spec fb OK console_fb_bg_color (fb_mem s) ltac:(by unfold console_fb_bg_color)) as [B H].
  destruct (Z.ltb_spec (fb_height fb) (cursor_y s + 16)); cbn [sc_x sc_y sc_pixel cursor_x cursor_y fb_mem];
    (split; [done|]); split_and!; (done || lia || by intros; rewrite ?H).
Qed.

Lemma newline_in s : in_buffer fb (fb_mem s) (fb_mem (console_newline fb s)) /\ in_buffer fb (fb_mem s) (fb_mem (fb_newline fb s)).
Proof using OK.
  unfold console_newline, fb_newline. split; destruct (_ <? _); try (by intros a Ha);
    apply (scroll_up_spec fb OK); by unfold console_fb_bg_color, fb_bg_color.
Qed.

(** Whatever the cursor, drawing stays in the buffer. *)
Lemma console_putchar_in s c : in_buffer fb (fb_mem s) (fb_mem (console_fb_putchar (Some fb) s c)).
Proof using OK.
  unfold console_fb_putchar. destruct (_ =? _); [apply newline_in|]. destruct (_ =? _); [by intros a Ha|]. cbn [fb_mem].
  eapply in_buffer_trans; [|apply console_draw_spec]. destruct (_ <? _); [apply newline_in|by intros a Ha].
Qed.

Lemma panic_putchar_in s c : in_buffer fb (fb_mem s) (fb_mem (fb_putchar (Some fb) s c)).
Proof using OK.
  unfold fb_putchar. destruct (_ =? _); [apply newline_in|]. destruct (_ =? _); [by intros a Ha|].
  destruct (_ <? _); cbn [fb_mem]; apply panic_draw_spec.
Qed.

(** A character of the panic screen, from a cursor on the screen. *)
Lemma panic_cell_spec c s : cursor_ok fb s -> cursor_x s + 8 <= fb_width fb -> c <> 10 -> c <> 13 ->
  let s' := fb_putchar (Some fb) s c in
  (forall row col, 0 <= row < 8 -> 0 <= col < 8 ->
     pixel fb (fb_mem s') (cursor_x s + col) (cursor_y s + row) = panic_color c row col) /\
  (forall x y, on_screen fb x y -> ~ cell (cursor_x s) (cursor_y s) x y -> pixel fb (fb_mem s') x y = pixel fb (fb_mem s) x y) /\
  (cursor_x s', cursor_y s') =
    (if decide (fb_width fb < cursor_x s + 16) then (0, cursor_y s + 8) else (cursor_x s + 8, cursor_y s)).
Proof using OK.
  pose proof OK as [Hw Hh _ _]. intros (Hx & Hy0 & Hy) Hx8 Hn Hr. cbv zeta.
  destruct (panic_draw_spec c s) as (_ & H1 & H2). unfold fb_putchar, NEWLINE, RETURN.
  rewrite (proj2 (Z.eqb_neq c 10) Hn), (proj2 (Z.eqb_neq c 13) Hr). cbv zeta.
  rewrite (u64_id (cursor_x s + 8)), (u64_id (cursor_x s + 8 + 8)), (u64_id (cursor_y s + 8)) by lia.
  set (m := fb_draw fb _ s) in *. clearbody m.
  assert (H1' : forall row col, 0 <= row < 8 -> 0 <= col < 8 ->
    pixel fb m (cursor_x s + col) (cursor_y s + row) = panic_color c row col).
  { intros row col Hro Hco. specialize (H1 row col Hro Hco). rewrite !u64_id in H1 by lia. apply H1. split; lia. }
  assert (H2' : forall x y, on_screen fb x y -> ~ cell (cursor_x s) (cursor_y s) x y -> pixel fb m x y = pixel fb (fb_mem s) x y).
  { intros x y Hxy Hc. apply H2; [done|]. intros row col Hro Hco [= <- <-]. apply Hc. rewrite !u64_id by lia. unfold cell. lia. }
  destruct (Z.ltb_spec (fb_width fb) (cursor_x s + 8 + 8)); cbn [fb_mem cursor_x cursor_y];
    (split; [exact H1'|]; split; [exact H2'|]); [rewrite decide_True by lia|rewrite decide_False by lia]; done.
Qed.

Lemma panic_newline_spec s : cursor_ok fb s ->
  screen_eq fb (screen_newline fb 0xFF0000 (screen_of fb s)) (screen_of fb (fb_newline fb s)).
Proof using OK.
  pose proof OK as [Hw Hh _ _]. intros (Hx & Hy0 & Hy). unfold fb_newline, screen_newline, screen_of, screen_eq.
  cbn [sc_x sc_y sc_pixel]. rewrite (u64_id (cursor_y s + 8)), (u64_id (cursor_y s + 8 + 8)), (u64_id (fb_height fb - 8)) by lia.
  replace (cursor_y s + 8 + 8) with (cursor_y s + 16) by lia.
  destruct (scroll_up_spec fb OK fb_bg_color (fb_mem s) ltac:(by unfold fb_bg_color)) as [B H].
  destruct (Z.ltb_spec (fb_height fb) (cursor_y s + 16)); cbn [sc_x sc_y sc_pixel cursor_x cursor_y fb_mem]; split_and!; try done.
Qed.

Lemma clear_spec s : in_buffer fb (fb_mem s) (fb_mem (fb_clear (Some fb) s)) /\
  forall x y, on_screen fb x y -> pixel fb (fb_mem (fb_clear (Some fb) s)) x y = fb_bg_color.
Proof using OK.
  pose proof OK as [_ _ _ Hb]. unfold fb_clear. cbn [fb_mem]. rewrite Hb. change (32 / 8) with 4.
  destruct (fill_rows_spec fb OK fb_bg_color 0 (fb_height fb) (fb_mem s)) as [B H]; [lia|lia|by unfold fb_bg_color|].
  split; [done|]. intros x y Hxy. rewrite H by done. unfold on_screen in Hxy. by rewrite (proj2 (Z.leb_le _ _)), (proj2 (Z.ltb_lt _ _)) by lia.
Qed.

Lemma console_cell_spec c s : cursor_ok fb s -> cursor_x s + 8 <= fb_width fb ->
  let s' := FbState (console_draw fb (console_glyph c) s) (u32 (cursor_x s + 8)) (cursor_y s) in
  screen_eq fb (screen_draw (console_color c) (screen_of fb s)) (screen_of fb s') /\ cursor_ok fb s'.
Proof using OK.
  pose proof OK as [Hw Hh _ _]. intros (Hx & Hy0 & Hy) Hx8. destruct (console_draw_spec c s) as (_ & H1 & H2). cbv zeta.
  unfold screen_draw, screen_of, screen_eq, cursor_ok. cbn [sc_x sc_y sc_pixel cursor_x cursor_y fb_mem]. rewrite u32_id by lia.
  split; [|lia]. split_and!; [done|done|]. intros x y [Hxs Hys].
  destruct ((cursor_x s <=? x) && (x <? cursor_x s + 8) && (cursor_y s <=? y) && (y <? cursor_y s + 8)) eqn:E; bool_to_prop.
  - specialize (H1 (y - cursor_y s) (x - cursor_x s) ltac:(lia) ltac:(lia)).
    replace (cursor_x s + (x - cursor_x s)) with x in H1 by lia. replace (cursor_y s + (y - cursor_y s)) with y in H1 by lia.
    rewrite !u32_id in H1 by lia. apply H1. by split.
  - apply H2; [by split|]. intros row col Hr Hc [= E1 E2]. rewrite u32_id in E1, E2 by lia.
    rewrite !andb_false_iff, !Z.leb_gt, !Z.ltb_ge in E. lia.
Qed.
(** The console follows the text screen. *)
Lemma console_screen_spec s c : cursor_ok fb s -> let s' := console_fb_putchar (Some fb) s c in
  cursor_ok fb s' /\ screen_eq fb (screen_putchar fb (screen_of fb s) c) (screen_of fb s').
Proof using OK.
  intros Hc. cbv zeta. unfold console_fb_putchar, screen_putchar. change NEWLINE with 10. change RETURN with 13.
  destruct (c =? 10); [destruct (console_newline_spec s Hc) as (_ & ? & ? & _); done|].
  pose proof (fo_width _ OK) as Hw. destruct (c =? 13); [split; [|done]; destruct Hc as (? & ? & ?); split; cbn; lia|]. cbn [screen_of sc_x].
  rewrite u32_id by (destruct Hc; lia). destruct (Z.ltb_spec (fb_width fb) (cursor_x s + 8)).
  - destruct (console_newline_spec s Hc) as (_ & Hn & Hc' & Hx0). change console_fb_bg_color with 0 in Hn.
    destruct (console_cell_spec c (console_newline fb s) Hc' ltac:(lia)) as [He Hc2]. split; [done|].
    destruct He as (E1 & E2 & E3), Hn as (N1 & N2 & N3). unfold screen_draw, screen_of in *. cbn [sc_x sc_y sc_pixel] in *.
    split_and!; cbn [sc_x sc_y sc_pixel]; [congruence|congruence|]. intros x y Hxy. rewrite E3, N1, N2 by done. by rewrite N3.
  - destruct (console_cell_spec c s Hc ltac:(lia)) as [He Hc2]. by split.
Qed.
End Drivers.

(** C38.  Text on the framebuffer, for a screen of 32 bits per pixel and at least 8
  by 8 pixels ([fb_ok]; on a lower screen the scroll loop runs away).  Whatever the
  cursor, no character and no clear writes outside the pixel buffer, neither from the
  console nor from the panic screen, scrolling included.  A clear leaves every pixel
  red.  From a cursor on the screen the console behaves as the text screen
  [screen_putchar]: wrap at the right edge, scroll by a line at the bottom, every
  pixel outside the character's cell kept, the cursor on the screen again; the glyph
  painted is that of the character 32 places further on, mirrored ([console_color]).
  The panic screen paints the character's own glyph in white on red, keeps every
  other pixel, moves the cursor on and, on a newline, scrolls like the text screen. *)
Theorem framebuffer_text fb s c : fb_ok fb ->
  in_buffer fb (fb_mem s) (fb_mem (console_fb_putchar (Some fb) s c)) /\
  in_buffer fb (fb_mem s) (fb_mem (fb_putchar (Some fb) s c)) /\
  in_buffer fb (fb_mem s) (fb_mem (fb_clear (Some fb) s)) /\
  (forall x y, on_screen fb x y -> pixel fb (fb_mem (fb_clear (Some fb) s)) x y = 0xFF0000) /\
  (cursor_ok fb s -> let s' := console_fb_putchar (Some fb) s c in
     cursor_ok fb s' /\ screen_eq fb (screen_putchar fb (screen_of fb s) c) (screen_of fb s')) /\
  (cursor_ok fb s -> cursor_x s + 8 <= fb_width fb -> c <> 10 -> c <> 13 -> let s' := fb_putchar (Some fb) s c in
     (forall row col, 0 <= row < 8 -> 0 <= col < 8 ->
        pixel fb (fb_mem s') (cursor_x s + col) (cursor_y s + row) = panic_color c row col) /\
     (forall x y, on_screen fb x y -> ~ cell (cursor_x s) (cursor_y s) x y -> pixel fb (fb_mem s') x y = pixel fb (fb_mem s) x y) /\
     (cursor_x s', cursor_y s') =
       (if decide (fb_width fb < cursor_x s + 16) then (0, cursor_y s + 8) else (cursor_x s + 8, cursor_y s))) /\
  (cursor_ok fb s -> screen_eq fb (screen_newline fb 0xFF0000 (screen_of fb s)) (screen_of fb (fb_putchar (Some fb) s 10))).
Proof.
  intros OK. split; [by apply console_putchar_in|]. split; [by apply panic_putchar_in|].
  split; [by apply clear_spec|]. split; [by apply clear_spec|].
  split; [by apply console_screen_spec|]. split; [intros; by apply panic_cell_spec|]. by apply panic_newline_spec.
Qed.

(** A screen of 24 by 16 pixels. *)
Definition demo_fb : boot_fb_t := Fb 0x1000 24 16 96 32.
Definition demo_screen : fb_state := FbState (fun _ => 7) 16 8.

Lemma framebuffer_text_witness :
  screen_eq demo_fb (screen_putchar demo_fb (screen_of demo_fb demo_screen) 65) (screen_of demo_fb (console_fb_putchar (Some demo_fb) demo_screen 65)).
Proof.
  destruct (framebuffer_text demo_fb demo_screen 65) as (_ & _ & _ & _ & H & _).
  - split; cbn; lia.
  - destruct H as [_ H]; [|exact H]. repeat split; cbn; lia.
Defined.

(** The two drivers disagree on the font: the console takes the table to start at
  character 0 and the lowest bit to be leftmost, the panic screen at 0x20 with the
  highest bit leftmost. *)
Lemma console_glyph_shifted : zget 0 font8x8 (console_glyph 65 * 8 + 1) <> zget 0 font8x8 ((panic_glyph 65 - 0x20) * 8 + 1) /\
  forall row, 0 <= row < 8 -> zget 0 font8x8 (console_glyph 65 * 8 + row) = zget 0 font8x8 ((panic_glyph 97 - 0x20) * 8 + row).
Proof. split; [by vm_compute|]. intros row _. f_equal. Qed.
