(* ===== verification/Console.v ===== *)
(** * Formatted output ([dev/console.c])

  [kprintf] and its helpers, over an output function for one character, and the
  choice of the backend.  A format is the bytes of a C string without its
  terminator.  [None] is undefined behaviour: a store past [buf], a read past the
  terminator, a missing argument. *)
From S2P Require Import Prelude Digits PhysMem Serial Framebuf.

Definition CH_ZERO : Z := 48.
Definition CH_SPACE : Z := 32.
Definition CH_PERCENT : Z := 37.
Definition CH_MINUS : Z := 45.

Definition BUF_SIZE : nat := 64.

(** [buf[pos++] = c] *)
Definition push (buf : list Z) (c : Z) : option (list Z) :=
  if (length buf <? BUF_SIZE)%nat then Some (buf ++ [c]) else None.

Definition digit_char (d : Z) : Z := zget 0 (str "0123456789abcdef") d.

(** [while (val)]; a 64-bit value has at most 64 digits. *)
Fixpoint val_loop (fuel : nat) (base val : Z) (buf : list Z) : option (list Z) :=
  match fuel with
  | O => None
  | S fuel =>
      if val =? 0 then Some buf
      else buf ← push buf (digit_char (val mod base)); val_loop fuel base (val / base) buf
  end.

(** [while (pos < width)] *)
Fixpoint pad_loop (fuel : nat) (width c : Z) (buf : list Z) : option (list Z) :=
  match fuel with
  | O => None
  | S fuel => if Z.of_nat (length buf) <? width then buf ← push buf c; pad_loop fuel width c buf else Some buf
  end.

(** An argument in its 64-bit slot, or a string ([None] is NULL). *)
Inductive karg := KInt (v : Z) | KStr (s : option (list Z)).

Section Output.
Context {W : Type} (out : W -> Z -> W).

Definition put_ulong (w : W) (val base width : Z) (zero_pad : bool) : option W :=
  buf ← (if val =? 0 then push [] CH_ZERO else val_loop 65 base val []);
  buf ← pad_loop 65 width (if zero_pad then CH_ZERO else CH_SPACE) buf;
  Some (foldl out w (reverse buf)).

(** The negation of the least value overflows, which C leaves undefined. *)
Definition put_long (w : W) (val : Z) : option W :=
  if val <? 0 then if val =? - 2 ^ 63 then None else put_ulong (out w CH_MINUS) (u64 (- val)) 10 0 false
  else put_ulong w (u64 val) 10 0 false.

Definition puts_generic (w : W) (s : option (list Z)) : W := foldl out w (default (str "(null)") s).

(** [while ( *fmt >= '0' && *fmt <= '9')] *)
Fixpoint width_loop (width : Z) (fmt : list Z) : Z * list Z :=
  match fmt with
  | c :: fmt' => if (48 <=? c) && (c <=? 57) then width_loop (i32 (width * 10 + (c - 48))) fmt' else (width, fmt)
  | [] => (width, [])
  end.

(** [if ( *fmt == '0')] *)
Definition zero_flag (fmt : list Z) : bool * list Z :=
  match fmt with
  | c :: fmt' => if c =? CH_ZERO then (true, fmt') else (false, fmt)
  | [] => (false, [])
  end.

(** The [switch] on the conversion. *)
Definition conversion (w : W) (c width : Z) (zero_pad : bool) (args : list karg) : option (W * list karg) :=
  if (c =? 100) || (c =? 105) then
    match args with KInt v :: args => w ← put_long w (i64 v); Some (w, args) | _ => None end
  else if c =? 117 then
    match args with KInt v :: args => w ← put_ulong w (u64 v) 10 width zero_pad; Some (w, args) | _ => None end
  else if c =? 120 then
    match args with KInt v :: args => w ← put_ulong w (u64 v) 16 width zero_pad; Some (w, args) | _ => None end
  else if c =? 112 then
    match args with KInt v :: args => w ← put_ulong (puts_generic w (Some (str "0x"))) (u64 v) 16 16 true; Some (w, args) | _ => None end
  else if c =? 115 then
    match args with KStr s :: args => Some (puts_generic w s, args) | _ => None end
  else if c =? 99 then
    match args with KInt v :: args => Some (out w (u8 v), args) | _ => None end
  else if c =? CH_PERCENT then Some (out w CH_PERCENT, args)
  else Some (out (out w CH_PERCENT) c, args).

Fixpoint kprintf_loop (fuel : nat) (w : W) (fmt : list Z) (args : list karg) : option W :=
  match fuel with
  | O => None
  | S fuel =>
      match fmt with
      | [] => Some w
      | c :: fmt =>
          if negb (c =? CH_PERCENT) then kprintf_loop fuel (out w c) fmt args
          else
            let '(zero_pad, fmt) := zero_flag fmt in
            let '(width, fmt) := width_loop 0 fmt in
            match fmt with
            | [] => None
            | c :: fmt =>
                match conversion w c width zero_pad args with
                | None => None
                | Some (w, args) => kprintf_loop fuel w fmt args
                end
            end
      end
  end.

(** Every turn takes a character of the format. *)
Definition kprintf_out (w : W) (fmt : list Z) (args : list karg) : option W := kprintf_loop (S (length fmt)) w fmt args.
End Output.

(** ** The backends *)

Inductive kout_backend_t := KOUT_SERIAL | KOUT_VGA.

Section Routing.
Context {P : Type} `{SerialPort P}.

(** The serial port, the screen and the module state of the console. *)
Record console := Con { con_port : P; con_fb : option boot_fb_t; con_screen : fb_state; kout_backend : kout_backend_t }.

Definition console_init (k : console) : console := Con (con_port k) (con_fb k) (con_screen k) KOUT_SERIAL.
Definition console_get_backend (k : console) : kout_backend_t := kout_backend k.
Definition console_set_backend (k : console) (b : kout_backend_t) : console := Con (con_port k) (con_fb k) (con_screen k) b.

Definition out_serial (k : console) (c : Z) : console :=
  Con (serial_putchar (con_port k) c) (con_fb k) (con_screen k) (kout_backend k).
Definition out_vga (k : console) (c : Z) : console :=
  Con (con_port k) (con_fb k) (console_fb_putchar (con_fb k) (con_screen k) c) (kout_backend k).

Definition kprintf (k : console) (fmt : list Z) (args : list karg) : option console :=
  kprintf_out (match kout_backend k with KOUT_VGA => out_vga | KOUT_SERIAL => out_serial end) k fmt args.
End Routing.

(** ** What a format prints *)

(** A format as the items it is made of. *)
Inductive item :=
  | Lit (c : Z)
  | Percent
  | Dec
  | Udec (zero : bool) (width : Z)
  | Hex (zero : bool) (width : Z)
  | Ptr
  | Str
  | Chr.

Definition width_text (w : Z) : list Z :=
  if w =? 0 then [] else if w <? 10 then [48 + w] else [48 + w / 10; 48 + w mod 10].

Definition item_text (i : item) : list Z :=
  match i with
  | Lit c => [c]
  | Percent => [CH_PERCENT; CH_PERCENT]
  | Dec => [CH_PERCENT; 100]
  | Udec z w => CH_PERCENT :: (if z then [CH_ZERO] else []) ++ width_text w ++ [117]
  | Hex z w => CH_PERCENT :: (if z then [CH_ZERO] else []) ++ width_text w ++ [120]
  | Ptr => [CH_PERCENT; 112]
  | Str => [CH_PERCENT; 115]
  | Chr => [CH_PERCENT; 99]
  end.

Definition item_ok (i : item) : Prop :=
  match i with Lit c => c <> CH_PERCENT | Udec _ w | Hex _ w => 0 <= w <= 64 | _ => True end.

(** The text [l] is the number [v]: its digits, highest first, without a zero in
  front of others. *)
Definition is_numeral (base v : Z) (l : list Z) : Prop :=
  exists ds, l = digit_char <$> reverse ds /\ ds <> [] /\ Forall (fun d => 0 <= d < base) ds /\ numeral base ds = v /\
    (last ds = Some 0 -> ds = [0]).

(** Padding on the left. *)
Definition padded (zero : bool) (width : Z) (l : list Z) : list Z :=
  replicate (Z.to_nat width - length l) (if zero then CH_ZERO else CH_SPACE) ++ l.

(** [prints items args text] *)
Inductive prints : list item -> list karg -> list Z -> Prop :=
  | pr_nil args : prints [] args []
  | pr_lit c items args t : prints items args t -> prints (Lit c :: items) args (c :: t)
  | pr_percent items args t : prints items args t -> prints (Percent :: items) args (CH_PERCENT :: t)
  | pr_dec v l items args t : - 2 ^ 63 < v < 2 ^ 63 -> is_numeral 10 (Z.abs v) l -> prints items args t ->
      prints (Dec :: items) (KInt v :: args) ((if v <? 0 then [CH_MINUS] else []) ++ l ++ t)
  | pr_udec z w v l items args t : is_u64 v -> is_numeral 10 v l -> prints items args t ->
      prints (Udec z w :: items) (KInt v :: args) (padded z w l ++ t)
  | pr_hex z w v l items args t : is_u64 v -> is_numeral 16 v l -> prints items args t ->
      prints (Hex z w :: items) (KInt v :: args) (padded z w l ++ t)
  | pr_ptr v l items args t : is_u64 v -> is_numeral 16 v l -> prints items args t ->
      prints (Ptr :: items) (KInt v :: args) (str "0x" ++ padded true 16 l ++ t)
  | pr_str s items args t : prints items args t -> prints (Str :: items) (KStr s :: args) (default (str "(null)") s ++ t)
  | pr_chr v items args t : 0 <= v < 256 -> prints items args t -> prints (Chr :: items) (KInt v :: args) (v :: t).

(** ** Typed formats *)

(** The arguments have the types and ranges the items want. *)
Fixpoint typed (items : list item) (args : list karg) : Prop :=
  match items, args with
  | [], _ => True
  | (Lit _ | Percent) :: items, _ => typed items args
  | Dec :: items, KInt v :: args => - 2 ^ 63 < v < 2 ^ 63 /\ typed items args
  | (Udec _ _ | Hex _ _ | Ptr) :: items, KInt v :: args => is_u64 v /\ typed items args
  | Str :: items, KStr _ :: args => typed items args
  | Chr :: items, KInt v :: args => 0 <= v < 256 /\ typed items args
  | _, _ => False
  end.

Lemma is_numeral_exists base v : 2 <= base -> is_u64 v -> exists l, is_numeral base v l.
Proof.
  intros Hb Hv. assert (Hp : 0 <= v < base ^ Z.of_nat 64).
  { change (Z.of_nat 64) with 64. unfold is_u64 in Hv. pose proof (Z.pow_le_mono_l 2 base 64). lia. }
  destruct (decide (v = 0)) as [->|Hnz].
  - exists [CH_ZERO], [0]. split_and!; try done; [repeat constructor; lia|unfold numeral; cbn; lia].
  - exists (digit_char <$> reverse (digits 64 base v)), (digits 64 base v). split_and!; [done| | | |].
    + intros E. pose proof (numeral_digits base Hb 64 v Hp) as Hn. rewrite E in Hn. cbn in Hn. lia.
    + by apply digits_range.
    + by apply numeral_digits.
    + intros E. by destruct (Hnz (digits_last base Hb 64 v 0 Hp E eq_refl)).
Qed.

(** A typed format has a text, so [kprintf] prints it. *)
Lemma typed_prints items : forall args, typed items args -> exists t, prints items args t.
Proof.
  induction items as [|i items IH]; intros args H; [eexists; constructor|].
  destruct i; cbn [typed] in H; try (destruct args as [|[] args]; [done|..]; try done);
    try (destruct H as [Hv H]); destruct (IH _ H) as [t Ht]; try (by eexists; constructor).
  - destruct (is_numeral_exists 10 (Z.abs v)) as [l Hl]; [lia|unfold is_u64; lia|]. eexists. by econstructor.
  - destruct (is_numeral_exists 10 v) as [l Hl]; [lia|done|]. eexists. by econstructor.
  - destruct (is_numeral_exists 16 v) as [l Hl]; [lia|done|]. eexists. by econstructor.
  - destruct (is_numeral_exists 16 v) as [l Hl]; [lia|done|]. eexists. by econstructor.
Qed.

Definition lits (s : list Z) : list item := Lit <$> s.

(** A call of [kprintf] whose format matches its arguments. *)
Definition call_ok (fmt : list Z) (args : list karg) : Prop :=
  exists items, fmt = concat (item_text <$> items) /\ Forall item_ok items /\ typed items args.

(** ** The conversions print numerals *)

Section Correct.
Context {W : Type} (out : W -> Z -> W).

Lemma numeral_text base v l : 2 <= base -> 0 <= v < 2 ^ 64 -> is_numeral base v l ->
  l = digit_char <$> reverse (digits 64 base v) /\ 0 <= v < base ^ 64.
Proof.
  intros Hb Hv (ds & -> & Hne & Hr & Hn & Hl).
  assert (Hp : 0 <= v < base ^ Z.of_nat 64) by (change (Z.of_nat 64) with 64; pose proof (Z.pow_le_mono_l 2 base 64); lia).
  split; [|done]. rewrite <- (digits_fuel base Hb 64 (64 + length ds) v Hp) by lia.
  by rewrite (digits_unique base Hb ds) by (done || lia).
Qed.

Lemma push_ok buf c : (length buf < 64)%nat -> push buf c = Some (buf ++ [c]).
Proof. intros H. unfold push, BUF_SIZE. by rewrite (proj2 (Nat.ltb_lt _ _) H). Qed.

Lemma val_loop_spec base n : 2 <= base -> forall v buf, 0 < v < base ^ Z.of_nat n -> (length buf + n <= 64)%nat ->
  val_loop (S n) base v buf = Some (buf ++ (digit_char <$> digits n base v)).
Proof.
  intros Hb. induction n as [|n IH]; intros v buf Hv Hl; [cbn in Hv; lia|].
  remember (S n) as n1 eqn:En. cbn [val_loop]. rewrite (proj2 (Z.eqb_neq v 0)) by lia. rewrite push_ok by lia. cbn [mbind option_bind].
  subst n1. cbn [digits]. rewrite fmap_cons. rewrite Nat2Z.inj_succ, Z.pow_succ_r in Hv by lia.
  destruct (Z.eqb_spec (v / base) 0) as [E|E]; [cbn [val_loop]; by rewrite E|].
  rewrite IH; [by rewrite <- app_assoc| |rewrite length_app; cbn; lia].
  pose proof (Z.div_pos v base ltac:(lia) ltac:(lia)). split; [lia|]. apply Z.div_lt_upper_bound; lia.
Qed.

Lemma pad_loop_spec fuel width c : forall buf, width <= 64 -> (Z.to_nat width - length buf < fuel)%nat ->
  pad_loop fuel width c buf = Some (buf ++ replicate (Z.to_nat width - length buf) c).
Proof.
  induction fuel as [|fuel IH]; intros buf Hw Hf; [lia|]. cbn [pad_loop].
  destruct (Z.ltb_spec (Z.of_nat (length buf)) width).
  - rewrite push_ok by lia. cbn [mbind option_bind]. rewrite IH by (rewrite ?length_app; cbn; lia). rewrite length_app. cbn [length].
    rewrite <- app_assoc. cbn [app]. replace (Z.to_nat width - length buf)%nat with (S (Z.to_nat width - (length buf + 1))) by lia. done.
  - replace (Z.to_nat width - length buf)%nat with 0%nat by lia. by rewrite app_nil_r.
Qed.

(** The digits and the padding, in the right order, and no store past [buf]. *)
Lemma put_ulong_spec w v base width z l : 2 <= base -> 0 <= v < 2 ^ 64 -> width <= 64 -> is_numeral base v l ->
  put_ulong out w v base width z = Some (foldl out w (padded z width l)).
Proof.
  intros Hb Hv Hw Hl. destruct (numeral_text base v l Hb Hv Hl) as [-> Hp]. unfold put_ulong.
  assert (E : (if v =? 0 then push [] CH_ZERO else val_loop 65 base v []) = Some (digit_char <$> digits 64 base v)).
  { destruct (Z.eqb_spec v 0) as [->|]; [|by apply (val_loop_spec base 64 Hb v []); [lia|cbn; lia]].
    cbn [digits]. rewrite Z.div_0_l by lia. cbn [Z.eqb]. rewrite Z.mod_0_l by lia. done. }
  rewrite E. cbn [mbind option_bind].
  assert (Hl64 : (length (digits 64 base v) <= 64)%nat) by apply digits_length.
  rewrite pad_loop_spec by (rewrite ?length_fmap; lia). cbn [mbind option_bind].
  do 2 f_equal. unfold padded. rewrite reverse_app, reverse_replicate, !length_fmap, length_reverse. f_equal. by rewrite fmap_reverse.
Qed.

Lemma put_long_spec w v l : - 2 ^ 63 < v < 2 ^ 63 -> is_numeral 10 (Z.abs v) l ->
  put_long out w v = Some (foldl out w ((if v <? 0 then [CH_MINUS] else []) ++ l)).
Proof.
  intros Hv Hl. unfold put_long. destruct (Z.ltb_spec v 0).
  - rewrite (proj2 (Z.eqb_neq v (- 2 ^ 63))) by lia. rewrite u64_id by lia. replace (- v) with (Z.abs v) by lia. by rewrite (put_ulong_spec _ _ _ _ _ l) by (done || lia).
  - rewrite u64_id by lia. rewrite Z.abs_eq in Hl by lia. by rewrite (put_ulong_spec _ _ _ _ _ l) by (done || lia).
Qed.

Lemma width_loop_spec w c rest : 0 <= w <= 64 -> ~ 48 <= c <= 57 -> width_loop 0 (width_text w ++ c :: rest) = (w, c :: rest).
Proof.
  intros Hw Hc. assert (Hstop : forall n, width_loop n (c :: rest) = (n, c :: rest)).
  { intros n. cbn [width_loop]. destruct (Z.leb_spec 48 c), (Z.leb_spec c 57); cbn [andb]; (done || lia). }
  assert (Hstep : forall n d l, 0 <= n < 10 -> 0 <= d < 10 -> width_loop n (48 + d :: l) = width_loop (n * 10 + d) l).
  { intros n d l Hn Hd. cbn [width_loop]. rewrite (proj2 (Z.leb_le _ _)), (proj2 (Z.leb_le _ _)) by lia. cbn [andb].
    rewrite i32_id by lia. f_equal. lia. }
  unfold width_text. destruct (Z.eqb_spec w 0) as [->|]; [apply Hstop|]. destruct (Z.ltb_spec w 10); cbn [app].
  - rewrite Hstep by lia. apply Hstop.
  - rewrite !Hstep by (Z.div_mod_to_equations; lia). rewrite Hstop. f_equal. Z.div_mod_to_equations. lia.
Qed.

Lemma zero_flag_spec (z : bool) w c rest : 0 <= w <= 64 -> ~ 48 <= c <= 57 ->
  zero_flag ((if z then [CH_ZERO] else []) ++ width_text w ++ c :: rest) = (z, width_text w ++ c :: rest).
Proof.
  intros Hw Hc. destruct z; [done|]. unfold width_text, CH_ZERO. cbn [app]. destruct (Z.eqb_spec w 0); cbn [app zero_flag].
  - unfold CH_ZERO. by rewrite (proj2 (Z.eqb_neq _ _)) by lia.
  - destruct (Z.ltb_spec w 10); cbn [app zero_flag]; unfold CH_ZERO; by rewrite (proj2 (Z.eqb_neq _ _)) by (Z.div_mod_to_equations; lia).
Qed.

(** A conversion with its flags, read back from its text. *)
Lemma directive_spec fuel w (z : bool) width c rest args : 0 <= width <= 64 -> ~ 48 <= c <= 57 ->
  kprintf_loop out (S fuel) w (CH_PERCENT :: (if z then [CH_ZERO] else []) ++ width_text width ++ c :: rest) args =
  match conversion out w c width z args with None => None | Some (w, args) => kprintf_loop out fuel w rest args end.
Proof.
  intros Hw Hc. cbn [kprintf_loop]. rewrite Z.eqb_refl. cbn [negb]. rewrite zero_flag_spec by done. by rewrite width_loop_spec.
Qed.

Lemma kprintf_loop_spec items args t : prints items args t -> Forall item_ok items -> forall fuel w,
  (length (concat (item_text <$> items)) < fuel)%nat ->
  kprintf_loop out fuel w (concat (item_text <$> items)) args = Some (foldl out w t).
Proof.
  assert (HD : forall fuel w c rest args, ~ 48 <= c <= 57 -> kprintf_loop out (S fuel) w (CH_PERCENT :: c :: rest) args =
    match conversion out w c 0 false args with None => None | Some (w, args) => kprintf_loop out fuel w rest args end).
  { intros fuel w c rest args0 Hc. apply (directive_spec fuel w false 0 c rest args0); [lia|done]. }
  induction 1 as [args|c items args t Hp IH|items args t Hp IH|v l items args t Hv Hn Hp IH|z wd v l items args t Hv Hn Hp IH
    |z wd v l items args t Hv Hn Hp IH|v l items args t Hv Hn Hp IH|s items args t Hp IH|v items args t Hv Hp IH];
    intros Hok fuel w Hf; (destruct fuel as [|fuel]; [lia|]); [done|apply Forall_cons in Hok as [Hi Hok]..]; cbn [fmap list_fmap concat] in *;
    rewrite length_app in Hf.
  - cbn [item_text app kprintf_loop]. cbn [item_ok] in Hi. rewrite (proj2 (Z.eqb_neq _ _) Hi). cbn [negb foldl]. apply IH; [done|cbn in Hf; lia].
  - cbn [item_text app foldl]. rewrite HD by (unfold CH_PERCENT; lia). cbn -[kprintf_loop]. apply IH; [done|cbn in Hf; lia].
  - cbn [item_text app]. rewrite HD by lia. unfold conversion. cbn [Z.eqb Pos.eqb orb]. rewrite i64_id by lia.
    rewrite (put_long_spec w v l Hv Hn). cbn [mbind option_bind]. rewrite !foldl_app. apply IH; [done|cbn in Hf; lia].
  - cbn [item_text item_ok] in *. cbn [app]. rewrite <- !app_assoc. cbn [app]. rewrite directive_spec by (done || lia).
    unfold conversion. cbn [Z.eqb Pos.eqb orb]. unfold is_u64 in Hv. rewrite u64_id by done.
    rewrite (put_ulong_spec w v 10 wd z l) by (done || lia). cbn [mbind option_bind]. rewrite foldl_app. apply IH; [done|cbn in Hf; lia].
  - cbn [item_text item_ok] in *. cbn [app]. rewrite <- !app_assoc. cbn [app]. rewrite directive_spec by (done || lia).
    unfold conversion. cbn [Z.eqb Pos.eqb orb]. unfold is_u64 in Hv. rewrite u64_id by done.
    rewrite (put_ulong_spec w v 16 wd z l) by (done || lia). cbn [mbind option_bind]. rewrite foldl_app. apply IH; [done|cbn in Hf; lia].
  - cbn [item_text app]. rewrite HD by lia. unfold conversion. cbn [Z.eqb Pos.eqb orb]. unfold is_u64 in Hv. rewrite u64_id by done.
    rewrite (put_ulong_spec _ v 16 16 true l) by (done || lia). cbn [mbind option_bind]. unfold puts_generic. cbn [default].
    rewrite !foldl_app. unfold id. apply IH; [done|cbn in Hf; lia].
  - cbn [item_text app]. rewrite HD by lia. unfold conversion. cbn [Z.eqb Pos.eqb orb]. rewrite foldl_app. apply IH; [done|cbn in Hf; lia].
  - cbn [item_text app foldl]. rewrite HD by lia. unfold conversion. cbn [Z.eqb Pos.eqb orb]. rewrite u8_id by done. apply IH; [done|cbn in Hf; lia].
Qed.
End Correct.

(** ** Properties *)

Lemma out_serial_fold {P} `{HP : SerialPort P} (tx rx : P -> list Z) `{!SerialPortLaws P tx rx} t : forall k : console,
  let k' := foldl out_serial k t in
  tx (con_port k') = tx (con_port k) ++ (u8 <$> t) /\ rx (con_port k') = rx (con_port k) /\
  con_screen k' = con_screen k /\ kout_backend k' = kout_backend k /\ con_fb k' = con_fb k.
Proof.
  induction t as [|c t IH]; intros k; cbv zeta; cbn [foldl fmap list_fmap]; [by rewrite app_nil_r|].
  destruct (IH (out_serial k c)) as (H1 & H2 & H3 & H4 & H5). cbn [out_serial con_port con_screen kout_backend con_fb] in *.
  destruct (putchar_law (con_port k) c) as [E1 E2]. rewrite H1, H2, E1, E2, <- app_assoc. done.
Qed.

Lemma out_vga_fold {P} `{HP : SerialPort P} t : forall k : console (P := P),
  foldl out_vga k t = Con (con_port k) (con_fb k) (foldl (console_fb_putchar (con_fb k)) (con_screen k) t) (kout_backend k).
Proof. induction t as [|c t IH]; intros k; cbn [foldl]; [by destruct k|]. by rewrite IH. Qed.

(** C37.  [kprintf] prints what the format says.  A format whose conversions match
  the arguments, with widths up to the 64 bytes of the buffer and no %d argument of
  -2^63, never goes wrong (no store past the buffer, no read past the format or the
  arguments, no overflow) and sends exactly
  the literal text with each number as its numeral, highest digit first, padded on
  the left, each string and character as it is; to the serial port, or to the screen
  when that is the backend, and nowhere else. *)
Theorem kprintf_prints {P} `{HP : SerialPort P} (tx rx : P -> list Z) `{!SerialPortLaws P tx rx} (k : console) items args t :
  prints items args t -> Forall item_ok items -> exists k', kprintf k (concat (item_text <$> items)) args = Some k' /\
    match kout_backend k with
    | KOUT_SERIAL => tx (con_port k') = tx (con_port k) ++ (u8 <$> t) /\ con_screen k' = con_screen k
    | KOUT_VGA => con_screen k' = foldl (console_fb_putchar (con_fb k)) (con_screen k) t /\ con_port k' = con_port k
    end.
Proof.
  intros Hp Hok. eexists. split; [unfold kprintf, kprintf_out; apply (kprintf_loop_spec _ items args t Hp Hok); lia|].
  destruct (kout_backend k).
  - destruct (out_serial_fold tx rx t k) as (H1 & _ & H3 & _). done.
  - by rewrite out_vga_fold.
Qed.

Definition demo_console : console (P := demo_uart) := Con (DemoUart [] [] 0) None (FbState (fun _ => 0) 0 0) KOUT_SERIAL.

(** ["[%5u]=0x%x\n"] *)
Definition demo_items : list item := [Lit 91; Udec false 5; Lit 93; Lit 61; Lit 48; Lit 120; Hex false 0; Lit 10].

Lemma kprintf_prints_witness : exists k', kprintf (H := uart_port 4) demo_console (concat (item_text <$> demo_items)) [KInt 208; KInt 0xBEEF] = Some k' /\
  demo_tx (con_port k') = str "[  208]=0xbeef" ++ [10].
Proof.
  destruct (kprintf_prints (HP := uart_port 4) demo_tx demo_rx (SerialPortLaws0 := proj2 (serial_port_implements 4 demo_tx demo_rx demo_uart_laws))
    demo_console demo_items [KInt 208; KInt 0xBEEF] (str "[  208]=0xbeef" ++ [10])) as (k' & E & [H _]).
  - apply pr_lit. apply (pr_udec false 5 208 (str "208")); [by unfold is_u64|by exists [8; 0; 2]; repeat split; repeat constructor|].
    do 4 apply pr_lit. apply (pr_hex false 0 0xBEEF (str "beef")); [by unfold is_u64|by exists [15; 14; 14; 11]; repeat split; repeat constructor|].
    apply pr_lit, pr_nil.
  - repeat constructor; cbn; (done || lia).
  - exists k'. split; [exact E|exact H].
Defined.

(** A width beyond the buffer overruns it. *)
Lemma width_overruns {W} (out : W -> Z -> W) w : put_ulong out w 1 10 65 true = None.
Proof. reflexivity. Qed.

(** The one value that [%d] cannot print. *)
Lemma least_value_overflows {W} (out : W -> Z -> W) w : kprintf_out out w (str "%d") [KInt (2 ^ 63)] = None.
Proof. reflexivity. Qed.

(** A format that ends in a percent sign is read past its terminator. *)
Lemma trailing_percent {W} (out : W -> Z -> W) w args : kprintf_out out w [CH_PERCENT] args = None.
Proof. reflexivity. Qed.
