(* ===== verification/Panic.v ===== *)
(** * The panic screen ([lib/kpanic.c])

  [kpanic] and [kpanic_regs] write the message, the registers and a stack trace to the
  console and, with the drawing functions of [Framebuf], to the screen.  Both text
  cursors draw into the same pixels.  The registers [capture_regs] finds are a parameter,
  and so is a load from kernel memory ([load64], [None] for a page fault). *)
From S2P Require Import Prelude Digits PhysMem Serial Framebuf Console.

Record panic_regs_t := Regs {
  rax : Z; rbx : Z; rcx : Z; rdx : Z; rsi : Z; rdi : Z; rbp : Z; rsp : Z;
  r8 : Z; r9 : Z; r10 : Z; r11 : Z; r12 : Z; r13 : Z; r14 : Z; r15 : Z;
  rip : Z; rflags : Z; cr2 : Z; cr3 : Z }.

Definition names : list (list Z) := str <$>
  ["RAX"; "RBX"; "RCX"; "RDX"; "RSI"; "RDI"; "RBP"; "RSP"; "R8"; "R9"; "R10"; "R11"; "R12"; "R13"; "R14"; "R15";
   "RIP"; "RFLAGS"; "CR2"; "CR3"]%string.

Definition vals (r : panic_regs_t) : list Z :=
  [rax r; rbx r; rcx r; rdx r; rsi r; rdi r; rbp r; rsp r; r8 r; r9 r; r10 r; r11 r; r12 r; r13 r; r14 r; r15 r;
   rip r; rflags r; cr2 r; cr3 r].

(** [for (j = 15; j >= 0; j--)]: the low nibble goes to [hex[j]]. *)
Definition hex_char (nib : Z) : Z := if nib <? 10 then 48 + nib else 97 + nib - 10.
Fixpoint hex_loop (j : nat) (v : Z) (hex : list Z) : list Z :=
  match j with O => hex | S j => hex_loop j (Z.shiftr v 4) (hex_char (Z.land v 0xF) :: hex) end.
Definition hex16 (v : Z) : list Z := hex_loop 16 v [].

Section Panic.
Context {P : Type} `{SerialPort P} (load64 : Z -> option Z).

(** The console, the cursor of the panic screen, the interrupt flag, and whether the
  processor stopped. *)
Record panic := Pan { p_con : console (P := P); fb_cursor_x : Z; fb_cursor_y : Z; interrupts : bool; halted : bool }.

Definition kprint (s : panic) (fmt : list Z) (args : list karg) : option panic :=
  k ← kprintf (p_con s) fmt args; Some (Pan k (fb_cursor_x s) (fb_cursor_y s) (interrupts s) (halted s)).

(** A drawing function on the pixels the console draws on, with the panic cursor. *)
Definition on_fb (f : option boot_fb_t -> fb_state -> fb_state) (s : panic) : panic :=
  let k := p_con s in
  let t := f (con_fb k) (FbState (fb_mem (con_screen k)) (fb_cursor_x s) (fb_cursor_y s)) in
  Pan (Con (con_port k) (con_fb k) (FbState (fb_mem t) (cursor_x (con_screen k)) (cursor_y (con_screen k))) (kout_backend k))
    (cursor_x t) (cursor_y t) (interrupts s) (halted s).

Definition draws (s : panic) (l : list Z) : panic := on_fb (fun fb t => fb_puts fb t l) s.
Definition interrupts_disable (s : panic) : panic := Pan (p_con s) (fb_cursor_x s) (fb_cursor_y s) false (halted s).
Definition stop (s : panic) : panic := Pan (p_con s) (fb_cursor_x s) (fb_cursor_y s) (interrupts s) true.

(** A register; the 32-bit argument is in a 64-bit slot whose upper half is zero. *)
Definition dump_reg (s : panic) (i : Z) (name : list Z) (val : Z) : option panic :=
  s ← kprint s (str "  %s=0x%016x  ") [KStr (Some name); KInt (u32 val)];
  let s := draws s [CH_SPACE] in
  let s := draws s [CH_SPACE] in
  let s := draws s name in
  let s := draws s (str "=0x") in
  let s := draws s (hex16 val) in
  let s := draws s [NEWLINE] in
  if (i + 1) mod 2 =? 0 then kprint s [10; 13] [] else Some s.

Fixpoint dump_loop (s : panic) (i : Z) (l : list (list Z * Z)) : option panic :=
  match l with
  | [] => Some s
  | (name, val) :: l => s ← dump_reg s i name val; dump_loop s (i + 1) l
  end.

Definition dump_regs (s : panic) (r : panic_regs_t) : option panic := dump_loop s 0 (zip names (vals r)).

(** [for (i = 0; i < 16; i++)]; [fuel] turns are left.  [None] is a fault or undefined
  behaviour. *)
Fixpoint trace_loop (fuel : nat) (s : panic) (i rbp : Z) : option panic :=
  match fuel with
  | O => Some s
  | S fuel =>
      if rbp =? 0 then Some s else
      rip ← load64 (u64 (rbp + 8));
      s ← kprint s (str "  [%d] 0x%016x" ++ [10; 13]) [KInt i; KInt (u32 rip)];
      let s := draws s (str "  [") in
      let s := draws s [u8 (48 + i)] in
      let s := draws s (str "] 0x") in
      let s := draws s (hex16 rip) in
      let s := draws s [NEWLINE] in
      rbp ← load64 rbp;
      trace_loop fuel s (i + 1) rbp
  end.

Definition dump_stack_trace (s : panic) (rbp : Z) : option panic :=
  s ← kprint s ([10; 13] ++ str "Stack trace:" ++ [10; 13]) [];
  let s := draws s ([10] ++ str "Stack trace:" ++ [10]) in
  trace_loop 16 s 0 rbp.

(** What both functions do first; [fmt] is printed as it is. *)
Definition announce (s : panic) (fmt : list Z) : option panic :=
  s ← kprint s ([10; 13] ++ str "!!! KERNEL PANIC !!!" ++ [10; 13]) [];
  s ← kprint s (str "%s") [KStr (Some fmt)];
  s ← kprint s [10; 13] [];
  let s := on_fb fb_clear s in
  let s := draws s (str "!!! KERNEL PANIC !!!" ++ [10; 10]) in
  let s := draws s fmt in
  Some (draws s [10; 10]).

(** [regs] is what [capture_regs] returns. *)
Definition kpanic (regs : panic_regs_t) (s : panic) (fmt : list Z) : option panic :=
  let s := interrupts_disable s in
  s ← announce s fmt;
  s ← kprint s (str "Register dump:" ++ [10; 13]) [];
  let s := draws s (str "Register dump:" ++ [10]) in
  s ← dump_regs s regs;
  s ← dump_stack_trace s (rbp regs);
  Some (stop s).

Definition kpanic_regs (regs : panic_regs_t) (s : panic) (fmt : list Z) : option panic :=
  let s := interrupts_disable s in
  s ← announce s fmt;
  s ← dump_regs s regs;
  s ← dump_stack_trace s (rbp regs);
  Some (stop s).

End Panic.

(** ** Hexadecimal *)

Fixpoint nibbles (n : nat) (v : Z) : list Z := match n with O => [] | S n => v mod 16 :: nibbles n (v / 16) end.

Lemma nibbles_zero n : nibbles n 0 = replicate n 0.
Proof. induction n as [|n IH]; cbn [nibbles replicate]; [done|]. change (0 mod 16) with 0. change (0 / 16) with 0. by rewrite IH. Qed.

Lemma nibbles_digits n : forall v, 0 <= v < 16 ^ Z.of_nat (S n) ->
  nibbles (S n) v = digits (S n) 16 v ++ replicate (S n - length (digits (S n) 16 v)) 0.
Proof.
  induction n as [|n IH]; intros v Hv.
  - cbn [nibbles digits]. rewrite Z.div_small by (change (16 ^ Z.of_nat 1) with 16 in Hv; lia). done.
  - change (nibbles (S (S n)) v) with (v mod 16 :: nibbles (S n) (v / 16)).
    change (digits (S (S n)) 16 v) with (v mod 16 :: (if v / 16 =? 0 then [] else digits (S n) 16 (v / 16))).
    destruct (Z.eqb_spec (v / 16) 0) as [E|E].
    + rewrite E, nibbles_zero. done.
    + rewrite IH; [done|]. rewrite Nat2Z.inj_succ, Z.pow_succ_r in Hv by lia.
      split; [apply Z.div_pos; lia|apply Z.div_lt_upper_bound; lia].
Qed.

Lemma hex_char_digit v : hex_char (Z.land v 0xF) = digit_char (v mod 16).
Proof.
  change 0xF with (Z.ones 4). rewrite Z.land_ones by lia. change (2 ^ 4) with 16.
  pose proof (Z.mod_pos_bound v 16 ltac:(lia)) as H. set (d := v mod 16) in *. clearbody d.
  assert (d ∈ range 0 16) as Hd by (apply elem_of_range; lia).
  change (range 0 16) with [0; 1; 2; 3; 4; 5; 6; 7; 8; 9; 10; 11; 12; 13; 14; 15] in Hd.
  repeat (apply elem_of_cons in Hd as [->|Hd]; [reflexivity|]). by apply not_elem_of_nil in Hd.
Qed.

Lemma hex_loop_spec j : forall v hex, hex_loop j v hex = (digit_char <$> reverse (nibbles j v)) ++ hex.
Proof.
  induction j as [|j IH]; intros v hex; cbn [hex_loop nibbles]; [done|].
  rewrite IH, reverse_cons, fmap_app, <- app_assoc, hex_char_digit, Z.shiftr_div_pow2 by lia. done.
Qed.

(** The sixteen digits are the number: its numeral, padded with zeros. *)
Lemma hex16_numeral v : is_u64 v -> exists l, is_numeral 16 v l /\ hex16 v = padded true 16 l.
Proof.
  intros Hv. assert (Hr : 0 <= v < 16 ^ Z.of_nat 16) by exact Hv.
  assert (Hds : digits 64 16 v = digits 16 16 v) by (apply digits_fuel; [lia|done|lia]).
  unfold hex16. rewrite hex_loop_spec, app_nil_r, nibbles_digits by done.
  destruct (is_numeral_exists 16 v ltac:(lia) Hv) as [l Hl]. exists l. split; [done|].
  destruct (numeral_text 16 v l ltac:(lia) ltac:(exact Hv) Hl) as [-> _]. rewrite Hds. unfold padded.
  rewrite reverse_app, fmap_app, reverse_replicate, fmap_replicate, length_fmap, length_reverse. done.
Qed.

(** ** The report *)

(** The twenty registers of the report, by name, in order. *)
Definition registers (r : panic_regs_t) : list (list Z * Z) :=
  [(str "RAX", rax r); (str "RBX", rbx r); (str "RCX", rcx r); (str "RDX", rdx r);
   (str "RSI", rsi r); (str "RDI", rdi r); (str "RBP", rbp r); (str "RSP", rsp r);
   (str "R8", r8 r); (str "R9", r9 r); (str "R10", r10 r); (str "R11", r11 r);
   (str "R12", r12 r); (str "R13", r13 r); (str "R14", r14 r); (str "R15", r15 r);
   (str "RIP", rip r); (str "RFLAGS", rflags r); (str "CR2", cr2 r); (str "CR3", cr3 r)].

Lemma names_vals r : zip names (vals r) = registers r.
Proof. reflexivity. Qed.

(** A number as its sixteen hexadecimal digits, the most significant first. *)
Definition sixteen (v : Z) : list Z :=
  (fun i => digit_char (v / 16 ^ i mod 16)) <$> [15; 14; 13; 12; 11; 10; 9; 8; 7; 6; 5; 4; 3; 2; 1; 0].

Lemma hex16_sixteen v : hex16 v = sixteen v.
Proof.
  unfold hex16. rewrite hex_loop_spec, app_nil_r. cbn [nibbles]. rewrite !Z.div_div by lia.
  unfold sixteen. rewrite <- (Z.div_1_r v) at 1. reflexivity.
Qed.

Definition decimal (i : Z) : list Z := if i <? 10 then [48 + i] else [49; 48 + (i - 10)].

(** What is sent for register [i], and what is drawn. *)
Definition reg_sent (i : Z) (name : list Z) (v : Z) : list Z :=
  str "  " ++ name ++ str "=0x" ++ sixteen (v mod 2 ^ 32) ++ str "  " ++ (if (i + 1) mod 2 =? 0 then [10; 13] else []).
Definition reg_drawn (name : list Z) (v : Z) : list Z := str "  " ++ name ++ str "=0x" ++ sixteen v ++ [10].

Fixpoint regs_sent (i : Z) (l : list (list Z * Z)) : list Z :=
  match l with [] => [] | (name, v) :: l => reg_sent i name v ++ regs_sent (i + 1) l end.
Definition regs_drawn (l : list (list Z * Z)) : list Z := concat ((fun nv => reg_drawn nv.1 nv.2) <$> l).

(** The return addresses of the frame chain from [rbp], at most [n]; [None] if a load faults. *)
Fixpoint frames (load64 : Z -> option Z) (n : nat) (rbp : Z) : option (list Z) :=
  match n with
  | O => Some []
  | S n =>
      if rbp =? 0 then Some [] else
      rip ← load64 (u64 (rbp + 8)); next ← load64 rbp; l ← frames load64 n next; Some (rip :: l)
  end.

Fixpoint frames_sent (i : Z) (l : list Z) : list Z :=
  match l with [] => [] | rip :: l => str "  [" ++ decimal i ++ str "] 0x" ++ sixteen (rip mod 2 ^ 32) ++ [10; 13] ++ frames_sent (i + 1) l end.
Fixpoint frames_drawn (i : Z) (l : list Z) : list Z :=
  match l with [] => [] | rip :: l => str "  [" ++ [48 + i] ++ str "] 0x" ++ sixteen rip ++ [10] ++ frames_drawn (i + 1) l end.

Definition trace_sent (l : list Z) : list Z := [10; 13] ++ str "Stack trace:" ++ [10; 13] ++ frames_sent 0 l.
Definition trace_drawn (l : list Z) : list Z := [10] ++ str "Stack trace:" ++ [10] ++ frames_drawn 0 l.

Lemma digit_char_decimal d : 0 <= d < 10 -> digit_char d = 48 + d.
Proof.
  intros H. assert (Hd : d ∈ range 0 10) by by apply elem_of_range. change (range 0 10) with [0; 1; 2; 3; 4; 5; 6; 7; 8; 9] in Hd.
  repeat (apply elem_of_cons in Hd as [->|Hd]; [reflexivity|]). by apply not_elem_of_nil in Hd.
Qed.

Lemma decimal_numeral i : 0 <= i < 16 -> is_numeral 10 i (decimal i).
Proof.
  intros Hi. unfold decimal. destruct (Z.ltb_spec i 10).
  - exists [i]. split_and!; [|done|repeat constructor; lia|cbn; lia|by intros [= ->]].
    change (reverse [i]) with [i]. cbn [fmap list_fmap]. by rewrite digit_char_decimal by lia.
  - exists [i - 10; 1]. split_and!; [|done|repeat constructor; lia|cbn; lia|done].
    change (reverse [i - 10; 1]) with [1; i - 10]. cbn [fmap list_fmap]. rewrite !digit_char_decimal by lia. done.
Qed.

Section Report.
Context {P : Type} `{HP : SerialPort P} (tx rx : P -> list Z) `{!SerialPortLaws P tx rx} (load64 : Z -> option Z).

Local Notation pstate := (panic (P := P)).

(** The screen as the panic cursor sees it. *)
Definition panic_screen (s : pstate) : fb_state := FbState (fb_mem (con_screen (p_con s))) (fb_cursor_x s) (fb_cursor_y s).

(** [ser] was sent and the screen became [f] of what it was. *)
Record wrote (ser : list Z) (f : option boot_fb_t -> fb_state -> fb_state) (s s' : pstate) : Prop := {
  wr_tx : tx (con_port (p_con s')) = tx (con_port (p_con s)) ++ (u8 <$> ser);
  wr_screen : panic_screen s' = f (con_fb (p_con s)) (panic_screen s);
  wr_fb : con_fb (p_con s') = con_fb (p_con s);
  wr_backend : kout_backend (p_con s') = kout_backend (p_con s);
  wr_flags : interrupts s' = interrupts s /\ halted s' = halted s
}.

Definition text (l : list Z) : option boot_fb_t -> fb_state -> fb_state := fun fb t => fb_puts fb t l.

Lemma wrote_trans a b f g s s1 s2 : wrote a f s s1 -> wrote b g s1 s2 -> wrote (a ++ b) (fun fb t => g fb (f fb t)) s s2.
Proof.
  intros [H1 H2 H3 H4 [H5 H6]] [K1 K2 K3 K4 [K5 K6]]. split; try congruence; [|split; congruence].
  by rewrite K1, H1, fmap_app, app_assoc.
Qed.

Lemma wrote_text a b k l s s1 s2 : wrote a (text k) s s1 -> wrote b (text l) s1 s2 -> wrote (a ++ b) (text (k ++ l)) s s2.
Proof.
  intros H1 H2. destruct (wrote_trans _ _ _ _ _ _ _ H1 H2) as [K1 K2 K3 K4 K5]. split; try done.
  rewrite K2. unfold text, fb_puts. by rewrite foldl_app.
Qed.

Lemma wrote_refl (s : pstate) : wrote [] (text []) s s.
Proof. split; try done. by rewrite app_nil_r. Qed.

Lemma kprint_wrote (s : pstate) fmt items args t : kout_backend (p_con s) = KOUT_SERIAL -> fmt = concat (item_text <$> items) ->
  Forall item_ok items -> prints items args t -> exists s', kprint s fmt args = Some s' /\ wrote t (text []) s s'.
Proof.
  intros Hb -> Hok Hp. unfold kprint, kprintf, kprintf_out. rewrite Hb.
  rewrite (kprintf_loop_spec out_serial items args t Hp Hok) by lia.
  destruct (out_serial_fold tx rx t (p_con s)) as (H1 & _ & H3 & H4 & H5). eexists. split; [done|].
  split; cbn; try done. unfold panic_screen. cbn. by rewrite H3.
Qed.

Lemma on_fb_wrote (s : pstate) f : wrote [] f s (on_fb f s).
Proof. split; try done; cbn; [by rewrite app_nil_r|]. unfold panic_screen. cbn. by destruct (f _ _). Qed.

Lemma draws_wrote (s : pstate) l : wrote [] (text l) s (draws s l).
Proof. apply on_fb_wrote. Qed.

(** A drawing step after some output. *)
Lemma wrote_draws a k s s1 l : wrote a (text k) s s1 -> wrote a (text (k ++ l)) s (draws s1 l).
Proof. intros H. pose proof (wrote_text _ _ _ _ _ _ _ H (draws_wrote s1 l)) as K. by rewrite app_nil_r in K. Qed.

Lemma wrote_serial a k s s1 b s2 : wrote a (text k) s s1 -> wrote b (text []) s1 s2 -> wrote (a ++ b) (text k) s s2.
Proof. intros H1 H2. pose proof (wrote_text _ _ _ _ _ _ _ H1 H2) as K. by rewrite app_nil_r in K. Qed.

Lemma backend_after a f s s' : wrote a f s s' -> kout_backend (p_con s) = KOUT_SERIAL -> kout_backend (p_con s') = KOUT_SERIAL.
Proof. intros H. by rewrite (wr_backend _ _ _ _ H). Qed.

Lemma prints_lits l items args t : prints items args t -> prints (lits l ++ items) args (l ++ t).
Proof. intros H. induction l as [|c l IH]; [done|]. by apply pr_lit. Qed.

(** A constant message. *)
Lemma kprint_const (s : pstate) l : kout_backend (p_con s) = KOUT_SERIAL -> forallb (fun c => negb (c =? CH_PERCENT)) l = true ->
  exists s', kprint s l [] = Some s' /\ wrote l (text []) s s'.
Proof.
  intros Hb Hl. apply (kprint_wrote s l (lits l) [] l Hb).
  - clear. induction l as [|c l IH]; cbn; [done|by f_equal].
  - apply Forall_fmap, Forall_forall. intros c Hc. rewrite forallb_forall in Hl.
    specialize (Hl c (proj1 (list_elem_of_In _ _) Hc)). cbn in *. by destruct (Z.eqb_spec c CH_PERCENT).
  - pose proof (prints_lits l [] [] [] (pr_nil [])) as Hp. by rewrite !app_nil_r in Hp.
Qed.

Lemma dump_reg_wrote (s : pstate) i name v : kout_backend (p_con s) = KOUT_SERIAL -> is_u64 v ->
  exists s', dump_reg s i name v = Some s' /\ wrote (reg_sent i name v) (text (reg_drawn name v)) s s'.
Proof.
  intros Hb Hv. pose proof (u32_range v) as Hr. destruct (hex16_numeral (u32 v) ltac:(unfold is_u64; lia)) as (h & Hh & Eh). rewrite hex16_sixteen in Eh.
  change (v mod 2 ^ 32) with (u32 v).
  destruct (kprint_wrote s (str "  %s=0x%016x  ") (lits (str "  ") ++ Str :: lits (str "=0x") ++ Hex true 16 :: lits (str "  "))
    [KStr (Some name); KInt (u32 v)] (str "  " ++ name ++ str "=0x" ++ sixteen (u32 v) ++ str "  ") Hb eq_refl)
    as (s1 & E1 & H1).
  { repeat constructor; cbn; (done || lia). }
  { apply prints_lits, (pr_str (Some name)). apply (prints_lits (str "=0x")). rewrite Eh.
    apply pr_hex; [unfold is_u64; lia|done|]. apply (prints_lits (str "  ") [] [] []). constructor. }
  unfold dump_reg. rewrite E1, hex16_sixteen. cbn [mbind option_bind].
  pose proof (wrote_draws _ _ _ _ [NEWLINE] (wrote_draws _ _ _ _ (sixteen v) (wrote_draws _ _ _ _ (str "=0x")
    (wrote_draws _ _ _ _ name (wrote_draws _ _ _ _ [CH_SPACE] (wrote_draws _ _ _ _ [CH_SPACE] H1)))))) as H2.
  set (s2 := draws _ [NEWLINE]) in *. rewrite <- !app_assoc in H2. unfold reg_sent, reg_drawn. change (v mod 2 ^ 32) with (u32 v).
  destruct (_ =? 0); [|rewrite app_nil_r; by eexists].
  destruct (kprint_const s2 [10; 13] (backend_after _ _ _ _ H2 Hb) eq_refl) as (s3 & E3 & H3). exists s3. split; [done|].
  pose proof (wrote_serial _ _ _ _ _ _ H2 H3) as H4. by rewrite <- !app_assoc in H4.
Qed.

Lemma dump_loop_wrote l : forall (s : pstate) i, kout_backend (p_con s) = KOUT_SERIAL -> Forall (fun nv => is_u64 nv.2) l ->
  exists s', dump_loop s i l = Some s' /\ wrote (regs_sent i l) (text (regs_drawn l)) s s'.
Proof.
  induction l as [|[name v] l IH]; intros s i Hb Hv; cbn [dump_loop regs_sent]; [exists s; split; [done|apply wrote_refl]|].
  apply Forall_cons in Hv as [Hv Hvs]. destruct (dump_reg_wrote s i name v Hb Hv) as (s1 & -> & H1). cbn [mbind option_bind].
  destruct (IH s1 (i + 1) (backend_after _ _ _ _ H1 Hb) Hvs) as (s2 & -> & H2). exists s2. split; [done|].
  by eapply wrote_text.
Qed.

Lemma frame_wrote (s : pstate) i rip : kout_backend (p_con s) = KOUT_SERIAL -> 0 <= i < 16 ->
  exists s', kprint s (str "  [%d] 0x%016x" ++ [10; 13]) [KInt i; KInt (u32 rip)] = Some s' /\
    wrote (str "  [" ++ decimal i ++ str "] 0x" ++ sixteen (u32 rip) ++ [10; 13]) (text []) s s'.
Proof.
  intros Hb Hi. pose proof (u32_range rip) as Hr. destruct (hex16_numeral (u32 rip) ltac:(unfold is_u64; lia)) as (h & Hh & Eh). rewrite hex16_sixteen in Eh.
  apply (kprint_wrote s _ (lits (str "  [") ++ Dec :: lits (str "] 0x") ++ Hex true 16 :: lits [10; 13])); [done|done|repeat constructor; cbn; (done || lia)|].
  change (rip mod 2 ^ 32) with (u32 rip).
  apply prints_lits. pose proof (pr_dec i (decimal i) (lits (str "] 0x") ++ Hex true 16 :: lits [10; 13]) [KInt (u32 rip)]
    (str "] 0x" ++ sixteen (u32 rip) ++ [10; 13])) as Hd. rewrite Z.abs_eq in Hd by lia.
  rewrite (proj2 (Z.ltb_ge i 0)) in Hd by lia. apply Hd; [lia|by apply decimal_numeral|].
  apply prints_lits. rewrite Eh. apply pr_hex; [unfold is_u64; lia|done|]. apply (prints_lits [10; 13] [] [] []). constructor.
Qed.

Lemma trace_wrote n : forall (s : pstate) i rbp, kout_backend (p_con s) = KOUT_SERIAL -> 0 <= i -> i + Z.of_nat n <= 16 ->
  match frames load64 n rbp with
  | Some l => exists s', trace_loop load64 n s i rbp = Some s' /\ wrote (frames_sent i l) (text (frames_drawn i l)) s s'
  | None => trace_loop load64 n s i rbp = None
  end.
Proof.
  induction n as [|n IH]; intros s i rbp Hb Hi Hn; cbn [frames trace_loop]; [exists s; split; [done|apply wrote_refl]|].
  destruct (rbp =? 0); [exists s; split; [done|apply wrote_refl]|].
  destruct (load64 (u64 (rbp + 8))) as [rip|]; cbn [mbind option_bind]; [|done].
  destruct (frame_wrote s i rip Hb ltac:(lia)) as (s1 & E1 & H1). rewrite E1, hex16_sixteen.
  pose proof (wrote_draws _ _ _ _ [NEWLINE] (wrote_draws _ _ _ _ (sixteen rip) (wrote_draws _ _ _ _ (str "] 0x")
    (wrote_draws _ _ _ _ [u8 (48 + i)] (wrote_draws _ _ _ _ (str "  [") H1))))) as H2.
  set (s2 := draws _ [NEWLINE]) in *. destruct (load64 rbp) as [next|]; cbn [mbind option_bind]; [|done].
  specialize (IH s2 (i + 1) next (backend_after _ _ _ _ H2 Hb) ltac:(lia) ltac:(lia)).
  destruct (frames load64 n next) as [l|]; cbn [mbind option_bind]; [|exact IH]. destruct IH as (s3 & E3 & H3). exists s3. split; [exact E3|].
  cbn [frames_sent frames_drawn]. change (rip mod 2 ^ 32) with (u32 rip). pose proof (wrote_text _ _ _ _ _ _ _ H2 H3) as H4.
  rewrite <- !app_assoc in H4. rewrite (u8_id (48 + i)) in H4 by lia. exact H4.
Qed.

Lemma stack_trace_wrote (s : pstate) rbp : kout_backend (p_con s) = KOUT_SERIAL ->
  match frames load64 16 rbp with
  | Some l => exists s', dump_stack_trace load64 s rbp = Some s' /\ wrote (trace_sent l) (text (trace_drawn l)) s s'
  | None => dump_stack_trace load64 s rbp = None
  end.
Proof.
  intros Hb. unfold dump_stack_trace.
  destruct (kprint_const s ([10; 13] ++ str "Stack trace:" ++ [10; 13]) Hb eq_refl) as (s1 & -> & H1). cbn [mbind option_bind].
  pose proof (wrote_draws _ _ _ _ ([10] ++ str "Stack trace:" ++ [10]) H1) as H2. set (s2 := draws s1 _) in *.
  pose proof (trace_wrote 16 s2 0 rbp (backend_after _ _ _ _ H2 Hb) ltac:(lia) ltac:(lia)) as H3.
  destruct (frames load64 16 rbp) as [l|]; [|exact H3]. destruct H3 as (s3 & E3 & H3). exists s3. split; [exact E3|].
  exact (wrote_text _ _ _ _ _ _ _ H2 H3).
Qed.

(** ** The whole panic *)

Definition panic_sent (fmt : list Z) : list Z := [10; 13] ++ str "!!! KERNEL PANIC !!!" ++ [10; 13] ++ fmt ++ [10; 13].
Definition panic_drawn (fmt : list Z) : list Z := str "!!! KERNEL PANIC !!!" ++ [10; 10] ++ fmt ++ [10; 10].

(** The screen is cleared before anything is drawn. *)
Definition cleared (l : list Z) : option boot_fb_t -> fb_state -> fb_state := fun fb t => fb_puts fb (fb_clear fb t) l.

Lemma cleared_text a b k l s s1 s2 : wrote a (cleared k) s s1 -> wrote b (text l) s1 s2 -> wrote (a ++ b) (cleared (k ++ l)) s s2.
Proof.
  intros H1 H2. destruct (wrote_trans _ _ _ _ _ _ _ H1 H2) as [K1 K2 K3 K4 K5]. split; try done.
  rewrite K2. unfold cleared, text, fb_puts. by rewrite foldl_app.
Qed.

Lemma announce_wrote (s : pstate) fmt : kout_backend (p_con s) = KOUT_SERIAL ->
  exists s', announce s fmt = Some s' /\ wrote (panic_sent fmt) (cleared (panic_drawn fmt)) s s'.
Proof.
  intros Hb. unfold announce.
  destruct (kprint_const s ([10; 13] ++ str "!!! KERNEL PANIC !!!" ++ [10; 13]) Hb eq_refl) as (s1 & -> & H1). cbn [mbind option_bind].
  pose proof (backend_after _ _ _ _ H1 Hb) as Hb1.
  destruct (kprint_wrote s1 (str "%s") [Str] [KStr (Some fmt)] fmt Hb1 eq_refl) as (s2 & E2 & H2); [by repeat constructor| |].
  { pose proof (pr_str (Some fmt) [] [] [] (pr_nil [])) as Hp. cbn [default from_option id] in Hp. by rewrite app_nil_r in Hp. }
  rewrite E2. cbn [mbind option_bind]. pose proof (backend_after _ _ _ _ H2 Hb1) as Hb2.
  destruct (kprint_const s2 [10; 13] Hb2 eq_refl) as (s3 & -> & H3). cbn [mbind option_bind].
  eexists. split; [done|]. pose proof (wrote_serial _ _ _ _ _ _ (wrote_serial _ _ _ _ _ _ H1 H2) H3) as H4.
  pose proof (wrote_trans _ _ _ _ _ _ _ H4 (on_fb_wrote s3 fb_clear)) as H5.
  assert (H6 : wrote (panic_sent fmt) (cleared []) s (on_fb fb_clear s3)).
  { destruct H5 as [K1 K2 K3 K4 K5]. split; try done. rewrite K1. unfold panic_sent. by rewrite app_nil_r, <- !app_assoc. }
  pose proof (cleared_text _ _ _ _ _ _ _ (cleared_text _ _ _ _ _ _ _ (cleared_text _ _ _ _ _ _ _ H6
    (draws_wrote _ (str "!!! KERNEL PANIC !!!" ++ [10; 10]))) (draws_wrote _ fmt)) (draws_wrote _ [10; 10])) as H7.
  rewrite !app_nil_r, <- !app_assoc in H7. exact H7.
Qed.

(** The end of both functions: the registers and the trace, then the processor stops. *)
Lemma finish_wrote a k (s s0 : pstate) regs : wrote a (cleared k) s s0 -> kout_backend (p_con s) = KOUT_SERIAL ->
  Forall is_u64 (snd <$> registers regs) ->
  let r := s0 ← dump_regs s0 regs; s0 ← dump_stack_trace load64 s0 (rbp regs); Some (stop s0) in
  match frames load64 16 (rbp regs) with
  | Some l => exists s1 s', r = Some (stop s1) /\ s' = stop s1 /\
      wrote (a ++ regs_sent 0 (registers regs) ++ trace_sent l) (cleared (k ++ regs_drawn (registers regs) ++ trace_drawn l)) s s1
  | None => r = None
  end.
Proof.
  intros H Hb Hv. cbn zeta. unfold dump_regs. rewrite names_vals. pose proof (backend_after _ _ _ _ H Hb) as Hb0.
  destruct (dump_loop_wrote (registers regs) s0 0 Hb0) as (s1 & -> & H1).
  { exact (proj1 (Forall_fmap _ _ _) Hv). }
  cbn [mbind option_bind]. pose proof (cleared_text _ _ _ _ _ _ _ H H1) as H2.
  pose proof (stack_trace_wrote s1 (rbp regs) (backend_after _ _ _ _ H2 Hb)) as H3.
  destruct (frames load64 16 (rbp regs)) as [l|]; [|by rewrite H3]. destruct H3 as (s2 & -> & H3). exists s2, (stop s2).
  split_and!; [done|done|]. pose proof (cleared_text _ _ _ _ _ _ _ H2 H3) as H4. by rewrite <- !app_assoc in H4.
Qed.
End Report.

(** C40.  A panic reports the processor's state, then stops the processor with
  interrupts off.  With the serial port as the back end of the console and a frame
  chain whose loads do not fault, [kpanic_regs] and [kpanic] send the message, then
  the lines of the twenty registers that [registers] lists, each with its name and
  the lower 32 bits of its value, then the lower 32 bits of the first 16 return
  addresses, all as sixteen hexadecimal digits; they clear the screen and draw the
  same with all 64 bits; and nothing else is sent or drawn.  If a load of the
  frame chain faults, the panic itself takes the fault. *)
Theorem panic_report {P} `{HP : SerialPort P} (tx rx : P -> list Z) `{!SerialPortLaws P tx rx} load64 (s : panic (P := P)) regs fmt :
  kout_backend (p_con s) = KOUT_SERIAL -> Forall is_u64 (snd <$> registers regs) ->
  let lines := registers regs in
  match frames load64 16 (rbp regs) with
  | None => kpanic_regs load64 regs s fmt = None /\ kpanic load64 regs s fmt = None
  | Some l =>
      (exists s', kpanic_regs load64 regs s fmt = Some s' /\ halted s' = true /\ interrupts s' = false /\
        tx (con_port (p_con s')) = tx (con_port (p_con s)) ++ (u8 <$> panic_sent fmt ++ regs_sent 0 lines ++ trace_sent l) /\
        panic_screen s' = fb_puts (con_fb (p_con s)) (fb_clear (con_fb (p_con s)) (panic_screen s))
          (panic_drawn fmt ++ regs_drawn lines ++ trace_drawn l)) /\
      (exists s', kpanic load64 regs s fmt = Some s' /\ halted s' = true /\ interrupts s' = false /\
        tx (con_port (p_con s')) = tx (con_port (p_con s)) ++
          (u8 <$> (panic_sent fmt ++ str "Register dump:" ++ [10; 13]) ++ regs_sent 0 lines ++ trace_sent l) /\
        panic_screen s' = fb_puts (con_fb (p_con s)) (fb_clear (con_fb (p_con s)) (panic_screen s))
          ((panic_drawn fmt ++ str "Register dump:" ++ [10]) ++ regs_drawn lines ++ trace_drawn l))
  end.
Proof.
  intros Hb Hv lines. unfold kpanic_regs, kpanic. set (s0 := interrupts_disable s).
  destruct (announce_wrote tx rx s0 fmt Hb) as (s1 & -> & H1). cbn [mbind option_bind].
  pose proof (backend_after _ _ _ _ _ H1 Hb) as Hb1.
  destruct (kprint_const tx rx s1 (str "Register dump:" ++ [10; 13]) Hb1 eq_refl) as (s2 & -> & H2). cbn [mbind option_bind].
  pose proof (cleared_text _ _ _ _ _ _ _ _ H1 (wrote_draws _ _ _ _ _ (str "Register dump:" ++ [10]) H2)) as H3.
  pose proof (finish_wrote tx rx load64 _ _ _ _ regs H1 Hb Hv) as F1. pose proof (finish_wrote tx rx load64 _ _ _ _ regs H3 Hb Hv) as F2.
  cbn zeta in F1, F2. destruct (frames load64 16 (rbp regs)) as [l|]; [|done].
  destruct F1 as (a & ? & Ea & -> & [A1 A2 _ _ [A3 A4]]). destruct F2 as (b & ? & Eb & -> & [B1 B2 _ _ [B3 B4]]).
  split; [exists (stop a)|exists (stop b)]; done.
Qed.

(** Two frames: the second one has no caller. *)
Definition demo_load (a : Z) : option Z :=
  if a =? 0x1000 then Some 0x2000 else if a =? 0x1008 then Some 0xffffffff80001234 else
  if a =? 0x2000 then Some 0 else if a =? 0x2008 then Some 0x42 else None.
Definition demo_regs : panic_regs_t := Regs 1 2 3 4 5 6 0x1000 8 9 10 11 12 13 14 15 16 17 18 19 20.
Definition demo_panic : panic (P := demo_uart) := Pan demo_console 0 0 true false.

Lemma panic_report_witness : exists s', kpanic_regs (H := uart_port 4) demo_load demo_regs demo_panic (str "oops") = Some s' /\ halted s' = true /\
  demo_tx (con_port (p_con s')) = u8 <$> panic_sent (str "oops") ++ regs_sent 0 (registers demo_regs) ++
    trace_sent [0xffffffff80001234; 0x42].
Proof.
  assert (Hv : Forall is_u64 (snd <$> registers demo_regs)) by (repeat constructor; by vm_compute).
  destruct (panic_report (HP := uart_port 4) demo_tx demo_rx (SerialPortLaws0 := proj2 (serial_port_implements 4 demo_tx demo_rx demo_uart_laws))
    demo_load demo_panic demo_regs (str "oops") eq_refl Hv) as [(s' & H1 & H2 & _ & H3 & _) _].
  exists s'. split; [exact H1|]. split; [exact H2|exact H3].
Defined.

(** The serial report shows the lower half of a register or an address only. *)
Lemma report_truncates v : is_u64 v -> reg_sent 0 [] v = reg_sent 0 [] (v mod 2 ^ 32).
Proof. intros _. unfold reg_sent, u32. by rewrite Zmod_mod. Qed.

(** The screen numbers frame 10 with a colon. *)
Lemma frame_ten rip l : exists k, frames_drawn 10 (rip :: l) = str "  [:] 0x" ++ k.
Proof. by eexists. Qed.
