(* ===== verification/Boot.v ===== *)
(** * Boot context ([boot/boot.c])

  [boot_init] copies what the Limine boot loader answered ([boot/limine.h]) into
  [g_boot], which the rest of the kernel reads.  A response is [None] when the loader
  gave none; an array with its count is a list, since the protocol promises that the
  array has that many elements. *)
From S2P Require Import Prelude Pmm PhysMem Framebuf Console.

(** ** What the boot loader answers *)

Record limine_framebuffer := LFb { lfb_address : Z; lfb_width : Z; lfb_height : Z; lfb_pitch : Z; lfb_bpp : Z }.
Record limine_memmap_entry := LMem { le_base : Z; le_length : Z; le_type : Z }.
Record limine_file := LFile { lf_address : Z; lf_size : Z; lf_cmdline : Z }.

Record limine_responses := Limine {
  hhdm_response : option Z;
  framebuffer_response : option (list limine_framebuffer);
  memmap_response : option (list limine_memmap_entry);
  rsdp_response : option Z;
  module_response : option (list limine_file) }.

Definition LIMINE_MEMMAP_USABLE : Z := 0.
Definition LIMINE_MEMMAP_RESERVED : Z := 1.
Definition LIMINE_MEMMAP_ACPI_RECLAIMABLE : Z := 2.
Definition LIMINE_MEMMAP_ACPI_NVS : Z := 3.
Definition LIMINE_MEMMAP_BAD_MEMORY : Z := 4.
Definition LIMINE_MEMMAP_BOOTLOADER_RECLAIMABLE : Z := 5.
Definition LIMINE_MEMMAP_KERNEL_AND_MODULES : Z := 6.

(** ** The boot context *)

Record boot_module_t := BootModule { mod_base : Z; mod_length : Z; mod_cmdline : Z }.

Record boot_info_t := BootInfo {
  hhdm_offset : Z; bi_fb : option boot_fb_t; bi_mmap : list boot_mmap_entry_t; bi_modules : list boot_module_t;
  bi_rsdp : Z; total_usable_memory : Z }.

Definition convert_memmap_type (limine_type : Z) : boot_mem_type_t :=
  if limine_type =? LIMINE_MEMMAP_USABLE then BOOT_MEM_USABLE
  else if limine_type =? LIMINE_MEMMAP_RESERVED then BOOT_MEM_RESERVED
  else if limine_type =? LIMINE_MEMMAP_ACPI_RECLAIMABLE then BOOT_MEM_ACPI_RECLAIMABLE
  else if limine_type =? LIMINE_MEMMAP_ACPI_NVS then BOOT_MEM_ACPI_NVS
  else if limine_type =? LIMINE_MEMMAP_BAD_MEMORY then BOOT_MEM_BAD
  else if limine_type =? LIMINE_MEMMAP_BOOTLOADER_RECLAIMABLE then BOOT_MEM_BOOTLOADER_RECLAIMABLE
  else if limine_type =? LIMINE_MEMMAP_KERNEL_AND_MODULES then BOOT_MEM_KERNEL_AND_MODULES
  else BOOT_MEM_RESERVED.

Definition STATIC_MMAP_MAX : nat := 256.
Definition STATIC_MOD_MAX : nat := 32.

Definition boot_fb (resp : option (list limine_framebuffer)) : option boot_fb_t :=
  match resp with
  | Some (lfb :: _) => Some (Fb (lfb_address lfb) (lfb_width lfb) (lfb_height lfb) (lfb_pitch lfb) (lfb_bpp lfb))
  | _ => None
  end.

(** An entry of the loop: appended to [mmap_buf], and counted when it is usable. *)
Definition boot_entry (acc : list boot_mmap_entry_t * Z) (e : limine_memmap_entry) : list boot_mmap_entry_t * Z :=
  let t := convert_memmap_type (le_type e) in
  (acc.1 ++ [MmapEntry (le_base e) (le_length e) t], if bool_decide (t = BOOT_MEM_USABLE) then u64 (acc.2 + le_length e) else acc.2).

Definition boot_module (f : limine_file) : boot_module_t := BootModule (lf_address f) (lf_size f) (lf_cmdline f).

(** The context, or a halt; with the calls of [kprintf]. *)
Definition boot_init (r : limine_responses) : option boot_info_t * list (list Z * list karg) :=
  match hhdm_response r with
  | None => (None, [(str "[boot] FATAL: HHDM response is NULL!" ++ [10; 13], [])])
  | Some offset =>
      match memmap_response r with
      | None | Some [] => (None, [(str "[boot] FATAL: Memory map response is NULL/empty!" ++ [10; 13], [])])
      | Some entries =>
          let '(mmap, total) := foldl boot_entry ([], 0) (take STATIC_MMAP_MAX entries) in
          let '(rsdp, msg) :=
            match rsdp_response r with
            | Some a => if negb (a =? 0) then (a, (str "[boot] ACPI RSDP @ 0x%016x" ++ [10; 13], [KInt a]))
                        else (0, (str "[boot] No ACPI RSDP (platform not ACPI-compliant)" ++ [10; 13], []))
            | None => (0, (str "[boot] No ACPI RSDP (platform not ACPI-compliant)" ++ [10; 13], []))
            end in
          let modules := boot_module <$> take STATIC_MOD_MAX (default [] (module_response r)) in
          (Some (BootInfo offset (boot_fb (framebuffer_response r)) mmap modules rsdp total), [msg])
      end
  end.

(** ** The memory map *)

Definition boot_region (e : limine_memmap_entry) : boot_mmap_entry_t :=
  MmapEntry (le_base e) (le_length e) (convert_memmap_type (le_type e)).

Definition usable (e : limine_memmap_entry) : bool := le_type e =? LIMINE_MEMMAP_USABLE.

Definition usable_bytes (l : list limine_memmap_entry) : Z := foldr Z.add 0 (le_length <$> filter (fun e => usable e = true) l).

(** The whole frames of the usable entries. *)
Definition usable_frames (l : list limine_memmap_entry) : gset Z :=
  ⋃ ((fun e => list_to_set (range (le_base e / PAGE_SIZE) ((le_base e + le_length e) / PAGE_SIZE))) <$> filter (fun e => usable e = true) l).

(** What the boot protocol promises: entries do not wrap; usable ones are page-aligned and
  do not overlap. *)
Record limine_map_ok (l : list limine_memmap_entry) : Prop := {
  lm_range : forall e, e ∈ l -> 0 <= le_base e /\ 0 <= le_length e /\ le_base e + le_length e <= 2 ^ 63;
  lm_aligned : forall e, e ∈ l -> usable e = true -> le_base e mod PAGE_SIZE = 0 /\ le_length e mod PAGE_SIZE = 0;
  lm_apart : forall i j e1 e2, l !! i = Some e1 -> l !! j = Some e2 -> i <> j -> usable e1 = true -> usable e2 = true ->
    le_base e1 + le_length e1 <= le_base e2 \/ le_base e2 + le_length e2 <= le_base e1
}.

Lemma convert_usable e : convert_memmap_type (le_type e) = BOOT_MEM_USABLE <-> usable e = true.
Proof.
  unfold convert_memmap_type, usable. destruct (le_type e =? LIMINE_MEMMAP_USABLE); [done|].
  split; [|done]. repeat case_match; done.
Qed.

Lemma usable_bytes_cons e l : usable_bytes (e :: l) = (if usable e then le_length e else 0) + usable_bytes l.
Proof. unfold usable_bytes. rewrite filter_cons. by destruct (usable e). Qed.

Lemma usable_bytes_nonneg l : (forall e, e ∈ l -> 0 <= le_length e) -> 0 <= usable_bytes l.
Proof.
  induction l as [|e l IH]; intros H; [done|]. rewrite usable_bytes_cons. pose proof (H e ltac:(left)).
  pose proof (IH ltac:(intros; apply H; by right)). destruct (usable e); lia.
Qed.

Lemma boot_entries_spec l : forall mm t, (forall e, e ∈ l -> 0 <= le_length e) -> 0 <= t -> t + usable_bytes l < 2 ^ 64 ->
  foldl boot_entry (mm, t) l = (mm ++ (boot_region <$> l), t + usable_bytes l).
Proof.
  induction l as [|e l IH]; intros mm t Hl Ht Hs; cbn [foldl fmap list_fmap]; [by rewrite app_nil_r, Z.add_0_r|].
  rewrite usable_bytes_cons in *. pose proof (Hl e ltac:(left)). unfold boot_entry at 2. cbn [fst snd].
  pose proof (usable_bytes_nonneg l ltac:(intros; apply Hl; by right)).
  pose proof (convert_usable e) as Hc. destruct (usable e).
  - rewrite bool_decide_eq_true_2 by by apply Hc. rewrite u64_id by lia.
    rewrite IH by (try lia; intros; apply Hl; by right). rewrite <- app_assoc. f_equal. lia.
  - rewrite bool_decide_eq_false_2 by by rewrite Hc. rewrite IH by (try lia; intros; apply Hl; by right).
    rewrite <- app_assoc. done.
Qed.

(** The frames of a usable region of [g_boot] are those of the entry. *)
Lemma region_frames_entry e : 0 <= le_base e -> 0 <= le_length e -> le_base e + le_length e <= 2 ^ 63 ->
  (usable e = true -> le_base e mod PAGE_SIZE = 0) ->
  region_frames (boot_region e) = if usable e then list_to_set (range (le_base e / PAGE_SIZE) ((le_base e + le_length e) / PAGE_SIZE)) else ∅.
Proof.
  intros H1 H2 H3 H4. unfold region_frames. cbn [boot_region mm_type]. pose proof (convert_usable e) as Hc. destruct (usable e).
  - rewrite bool_decide_eq_true_2 by by apply Hc. unfold region_start, region_end. cbn [boot_region mm_base mm_length].
    rewrite div_round_up, u64_id by lia. specialize (H4 eq_refl). do 2 f_equal. unfold PAGE_SIZE in *.
    rewrite (Z.div_mod (le_base e) 4096) at 1 by lia. rewrite H4, Z.add_0_r.
    rewrite Z.mul_comm, Z.div_add_l by lia. change ((4096 - 1) / 4096) with 0. lia.
  - rewrite bool_decide_eq_false_2 by by rewrite Hc. done.
Qed.

Lemma boot_mmap_ok l : limine_map_ok l -> mmap_ok (boot_region <$> l).
Proof.
  intros [Hr Ha Hd]. split.
  - intros x (e & -> & He)%list_elem_of_fmap. by apply Hr.
  - intros x (e & -> & He)%list_elem_of_fmap Hu. apply Ha; [done|]. by apply convert_usable.
  - intros i j e1 e2 H1 H2 Hne. rewrite list_lookup_fmap in H1, H2.
    destruct (l !! i) as [x|] eqn:Ex; [|done]. destruct (l !! j) as [y|] eqn:Ey; [|done].
    injection H1 as <-. injection H2 as <-.
    pose proof (list_elem_of_lookup_2 _ _ _ Ex) as Hx. pose proof (list_elem_of_lookup_2 _ _ _ Ey) as Hy.
    destruct (Hr x Hx) as (? & ? & ?). destruct (Hr y Hy) as (? & ? & ?).
    rewrite !region_frames_entry by (done || (intros; by apply Ha)).
    destruct (usable x) eqn:Ux; [|set_solver]. destruct (usable y) eqn:Uy; [|set_solver].
    intros f. rewrite !elem_of_list_to_set, !elem_of_range. intros Hf Hg.
    destruct (Ha x Hx Ux) as [A1 A2]. destruct (Ha y Hy Uy) as [B1 B2]. unfold PAGE_SIZE in *.
    destruct (Hd i j x y Ex Ey Hne Ux Uy) as [Hlt|Hlt]; apply (Z.div_le_mono _ _ 4096) in Hlt; lia.
Qed.

Lemma usable_frames_regions l : limine_map_ok l -> ⋃ (region_frames <$> (boot_region <$> l)) = usable_frames l.
Proof.
  intros [Hr Ha _]. unfold usable_frames. induction l as [|e l IH]; [done|].
  rewrite !fmap_cons, union_list_cons. destruct (Hr e ltac:(left)) as (? & ? & ?).
  rewrite region_frames_entry by (done || (intros; by apply Ha; [left|])). rewrite filter_cons.
  rewrite IH by (intros; first [apply Hr; by right|apply Ha; [by right|done]]).
  destruct (usable e); [by rewrite decide_True, fmap_cons, union_list_cons by done|].
  rewrite decide_False by done. by rewrite (left_id_L ∅ (∪)).
Qed.

(** The boot needs the direct map and a memory map, nothing else. *)
Lemma boot_halts r : (boot_init r).1 = None <-> hhdm_response r = None \/ memmap_response r = None \/ memmap_response r = Some [].
Proof.
  unfold boot_init. destruct (hhdm_response r); [|tauto]. destruct (memmap_response r) as [[|e l]|]; [tauto| |tauto].
  destruct (foldl _ _ _). destruct (rsdp_response r) as [a|]; [destruct (negb _)|]; cbn; split; intros H; try done; by destruct H as [?|[?|?]].
Qed.

Lemma rsdp_message_ok a : is_u64 a -> call_ok (str "[boot] ACPI RSDP @ 0x%016x" ++ [10; 13]) [KInt a].
Proof.
  intros Ha. exists (lits (str "[boot] ACPI RSDP @ 0x") ++ Hex true 16 :: lits [10; 13]).
  split_and!; [done|by repeat constructor|]. cbn. done.
Qed.

Lemma no_rsdp_message_ok : call_ok (str "[boot] No ACPI RSDP (platform not ACPI-compliant)" ++ [10; 13]) [].
Proof.
  exists (lits (str "[boot] No ACPI RSDP (platform not ACPI-compliant)" ++ [10; 13])).
  split_and!; [done|by repeat constructor|done].
Qed.

(** C32.  From the boot loader's answers to the frame allocator.  With the direct map's
  offset and a memory map (of whose entries the first 256 count), [boot_init] fills the
  boot context: the screen is the loader's first framebuffer, the modules are its first
  32, and the total of usable memory is the sum of the usable entries.  The allocator
  [pmm_init] builds from it is sound, and its free frames are exactly the frames of the
  usable entries, without those of its bitmap and without frame 0. *)
Theorem boot_memory r offset l : hhdm_response r = Some offset -> memmap_response r = Some l -> l <> [] ->
  limine_map_ok (take STATIC_MMAP_MAX l) -> usable_bytes (take STATIC_MMAP_MAX l) < 2 ^ 64 ->
  (forall a, rsdp_response r = Some a -> is_u64 a) ->
  exists b msgs, boot_init r = (Some b, msgs) /\ Forall (fun m => call_ok m.1 m.2) msgs /\
    hhdm_offset b = offset /\ bi_fb b = boot_fb (framebuffer_response r) /\ bi_rsdp b = default 0 (rsdp_response r) /\
    bi_modules b = boot_module <$> take STATIC_MOD_MAX (default [] (module_response r)) /\
    total_usable_memory b = usable_bytes (take STATIC_MMAP_MAX l) /\
    forall p, pmm_init (bi_mmap b) = Some p -> pmm_inv p /\
      free_set p = usable_frames (take STATIC_MMAP_MAX l) ∖ bitmap_frames (bi_mmap b) ∖ {[0]}.
Proof.
  intros Hh Hm Hne Hok Hsum Hrsdp. unfold boot_init. rewrite Hh, Hm. destruct l as [|e l]; [done|].
  set (k := take STATIC_MMAP_MAX (e :: l)) in *.
  rewrite (boot_entries_spec k [] 0) by (done || lia || (intros x Hx; by apply (lm_range _ Hok))).
  assert (Hpmm : forall p, pmm_init (boot_region <$> k) = Some p -> pmm_inv p /\
    free_set p = usable_frames k ∖ bitmap_frames (boot_region <$> k) ∖ {[0]}).
  { intros p Hp. destruct (pmm_init_cases _ p (boot_mmap_ok k Hok) Hp) as (H1 & _ & H2).
    split; [done|]. by rewrite H2, usable_frames_regions. }
  destruct (rsdp_response r) as [a|] eqn:Er.
  - destruct (Z.eqb_spec a 0) as [->|Hnz]; cbn [negb]; eexists _, _; (split; [done|]); split_and!; try done.
    + repeat constructor. exact no_rsdp_message_ok.
    + repeat constructor. apply rsdp_message_ok. by apply Hrsdp.
  - eexists _, _. split; [done|]. split_and!; try done. repeat constructor. exact no_rsdp_message_ok.
Qed.

(** A loader that reports two usable regions, one screen and one module. *)
Definition demo_limine : limine_responses := Limine (Some 0xffff800000000000)
  (Some [LFb 0x1000 640 480 2560 32]) (Some [LMem 0 4096 1; LMem 4096 12288 0; LMem 16384 5000 4; LMem 24576 16384 0])
  None (Some [LFile 0x100000 4096 0]).

Lemma demo_limine_ok : limine_map_ok [LMem 0 4096 1; LMem 4096 12288 0; LMem 16384 5000 4; LMem 24576 16384 0].
Proof.
  split.
  - intros e He. repeat (apply elem_of_cons in He as [->|He]; [cbn; lia|]). by apply not_elem_of_nil in He.
  - intros e He Hu. repeat (apply elem_of_cons in He as [->|He]; [done|]). by apply not_elem_of_nil in He.
  - intros i j e1 e2 H1 H2 Hne U1 U2. destruct i as [|[|[|[|i]]]]; destruct j as [|[|[|[|j]]]]; cbn in H1, H2;
      try discriminate H1; try discriminate H2; injection H1 as <-; injection H2 as <-; try discriminate U1; try discriminate U2;
      first [by destruct Hne|cbn; lia].
Qed.

Lemma boot_memory_witness : exists b msgs, boot_init demo_limine = (Some b, msgs) /\ total_usable_memory b = 28672 /\
  length (bi_modules b) = 1%nat.
Proof.
  destruct (boot_memory demo_limine 0xffff800000000000 _ eq_refl eq_refl ltac:(discriminate) demo_limine_ok ltac:(vm_compute; reflexivity)
    ltac:(discriminate)) as (b & msgs & E & _ & _ & _ & _ & Hm & Ht & _).
  exists b, msgs. split; [exact E|]. split; [rewrite Ht; vm_compute; reflexivity|rewrite Hm; reflexivity].
Defined.

(** Entries after the 256th are lost. *)
Lemma map_truncated r b msgs l : memmap_response r = Some l -> boot_init r = (Some b, msgs) -> (length (bi_mmap b) <= 256)%nat.
Proof.
  intros Hm. unfold boot_init. rewrite Hm. destruct (hhdm_response r); [|done]. destruct l as [|e l]; [done|].
  assert (Hlen : forall k acc, length (foldl boot_entry acc k).1 = (length acc.1 + length k)%nat).
  { induction k as [|x k IH]; intros acc; cbn [foldl length]; [lia|]. rewrite IH. cbn. rewrite length_app. cbn. lia. }
  specialize (Hlen (take STATIC_MMAP_MAX (e :: l)) ([], 0)). destruct (foldl _ _ _) as [mm t].
  destruct (rsdp_response r) as [a|]; [destruct (negb _)|]; intros [= <- _]; cbn in *; rewrite Hlen, length_take; lia.
Qed.
