(* ===== verification/KernelMap.v ===== *)
(** * Mapping pages of the kernel half

  [Vmm] describes the user half of an address space, where every table belongs to one
  process.  A driver of the kernel maps device or firmware pages above it: this file
  follows a single path of the page tables, whatever half it is in. *)
From S2P Require Import Prelude Pmm PhysMem Vmm.

(** The tables on the path [idx] from [t], as far as they exist. *)
Fixpoint tables (m : mem) (t : Z) (idx : list Z) : list Z :=
  t :: match idx with
       | [] => []
       | i :: r => let e := entry m t i in if has e VMM_PRESENT then tables m (Z.land e PHYS_MASK) r else []
       end.

(** No entry on the path maps a huge page. *)
Fixpoint no_huge (m : mem) (t : Z) (idx : list Z) : Prop :=
  match idx with
  | [] => True
  | i :: r => let e := entry m t i in
      has e VMM_PRESENT = true -> has e VMM_HUGE = false /\ no_huge m (Z.land e PHYS_MASK) r
  end.

Definition index_ok (i : Z) : Prop := 0 <= i < 512.
Definition in_table (t x : Z) : Prop := t <= x < t + PAGE_SIZE.

(** A frame that is in use as a table. *)
Definition table_ok (s : mstate) (t : Z) : Prop := frame_addr t /\ t / PAGE_SIZE ∉ free_set (ms_pmm s).

Lemma tables_head m t idx : exists l, tables m t idx = t :: l.
Proof. destruct idx; cbn [tables]; eauto. Qed.

Lemma entry_outside m m' t i : index_ok i -> (forall x, in_table t x -> mem_get m' x = mem_get m x) ->
  entry m' t i = entry m t i.
Proof.
  intros Hi He. unfold entry, rd64. f_equal. apply mem_read_ext. intros x Hx. apply He.
  unfold in_table, index_ok, PAGE_SIZE in *. lia.
Qed.

Lemma table_apart t u x : frame_addr t -> frame_addr u -> t <> u -> in_table t x -> ~ in_table u x.
Proof. intros Ht Hu Hne Hx Hy. pose proof (frames_disjoint t u Ht Hu Hne). unfold in_table in *. lia. Qed.

Lemma va_path_index va : Forall index_ok (va_path va).
Proof. repeat constructor; apply idx_range; lia. Qed.

Section Walk.
Context (fl : Z) (Hfl : tbl_flags_ok fl).

(** The chain of [walk_or_create] calls in [vmm_map_page]. *)
Fixpoint walk_create (s : mstate) (t : Z) (idx : list Z) : option Z * mstate :=
  match idx with
  | [] => (Some t, s)
  | i :: r => match walk_or_create s t i fl with (None, s) => (None, s) | (Some t', s) => walk_create s t' r end
  end.

(** The memory after some tables were added at the end of a path; [pre] are the
  tables before it. *)
Record grown (pre : list Z) (t : Z) (idx : list Z) (s s' : mstate) : Prop := {
  gr_ok : vm_ok s';
  gr_free : free_set (ms_pmm s') ⊆ free_set (ms_pmm s);
  gr_new : forall u, u ∈ tables (ms_mem s') t idx -> u ∈ tables (ms_mem s) t idx \/ u / PAGE_SIZE ∈ free_set (ms_pmm s);
  gr_mem : forall x, (forall u, u ∈ tables (ms_mem s') t idx -> ~ in_table u x) -> mem_get (ms_mem s') x = mem_get (ms_mem s) x;
  gr_nodup : NoDup (pre ++ tables (ms_mem s') t idx);
  gr_tables : Forall (table_ok s') (pre ++ tables (ms_mem s') t idx);
  gr_huge : no_huge (ms_mem s) t idx -> no_huge (ms_mem s') t idx
}.

Lemma table_ok_mono s s' l : free_set (ms_pmm s') ⊆ free_set (ms_pmm s) -> Forall (table_ok s) l -> Forall (table_ok s') l.
Proof. intros Hf Hl. eapply Forall_impl; [exact Hl|]. intros t [? ?]. split; [done|set_solver]. Qed.

(** The head of the path keeps its entry while the rest grows. *)
Lemma grown_head pre t i r t' s s' : index_ok i -> has (entry (ms_mem s) t i) VMM_PRESENT = true ->
  Z.land (entry (ms_mem s) t i) PHYS_MASK = t' -> grown (pre ++ [t]) t' r s s' ->
  entry (ms_mem s') t i = entry (ms_mem s) t i /\ tables (ms_mem s') t (i :: r) = t :: tables (ms_mem s') t' r.
Proof.
  intros Hi Hp Ht' Hg.
  assert (He : entry (ms_mem s') t i = entry (ms_mem s) t i).
  { apply entry_outside; [done|]. intros x Hx. apply (gr_mem _ _ _ _ _ Hg). intros u Hu.
    pose proof (gr_nodup _ _ _ _ _ Hg) as Hnd. pose proof (gr_tables _ _ _ _ _ Hg) as Hft.
    rewrite Forall_forall in Hft. rewrite <- app_assoc in Hnd. apply NoDup_app in Hnd as (_ & _ & Hnd).
    cbn in Hnd. apply NoDup_cons in Hnd as [Hni _].
    apply (table_apart t u); [| |by intros ->|done]; [eapply (Hft t)|eapply (Hft u)]; set_solver. }
  split; [done|]. cbn [tables]. by rewrite He, Hp, Ht'.
Qed.

Lemma grown_cons pre t i r t' s0 s s' : index_ok i -> has (entry (ms_mem s) t i) VMM_PRESENT = true ->
  Z.land (entry (ms_mem s) t i) PHYS_MASK = t' -> grown (pre ++ [t]) t' r s s' ->
  free_set (ms_pmm s) ⊆ free_set (ms_pmm s0) ->
  (forall u, u ∈ tables (ms_mem s) t' r -> u ∈ tables (ms_mem s0) t (i :: r) \/ u / PAGE_SIZE ∈ free_set (ms_pmm s0)) ->
  (forall x, ~ in_table t x -> ~ in_table t' x -> mem_get (ms_mem s) x = mem_get (ms_mem s0) x) ->
  (no_huge (ms_mem s0) t (i :: r) -> has (entry (ms_mem s) t i) VMM_HUGE = false /\ no_huge (ms_mem s) t' r) ->
  grown pre t (i :: r) s0 s'.
Proof.
  intros Hi Hp Ht' Hg Hfree Hnew Hmem Hhuge.
  destruct (grown_head _ _ _ _ _ _ _ Hi Hp Ht' Hg) as [He Htab]. destruct Hg as [Hok Hf Hn Hm Hnd Hft Hh].
  rewrite <- app_assoc in Hnd, Hft. cbn [app] in Hnd, Hft. split; rewrite ?Htab; try done.
  - etrans; done.
  - intros u [->|Hu]%elem_of_cons; [left; cbn [tables]; set_solver|]. destruct (Hn u Hu) as [?|?]; [eauto|set_solver].
  - intros x Hx. rewrite Hm by set_solver. apply Hmem; apply Hx; [set_solver|].
    destruct (tables_head (ms_mem s') t' r) as [l ->]. set_solver.
  - intros H0. destruct (Hhuge H0) as [H1 H2]. cbn [no_huge]. rewrite He, Ht'. split; [done|]. by apply Hh.
Qed.

Lemma grown_refl pre t idx s : vm_ok s -> NoDup (pre ++ tables (ms_mem s) t idx) ->
  Forall (table_ok s) (pre ++ tables (ms_mem s) t idx) -> grown pre t idx s s.
Proof. intros. split; auto. Qed.

(** A new table holds nothing. *)
Lemma new_table s t i f : frame_addr f -> table_ok s t -> f / PAGE_SIZE ∈ free_set (ms_pmm s) -> index_ok i ->
  let m' := set_entry (zero_frame (ms_mem s) f) t i (Z.lor f fl) in
  entry m' t i = Z.lor f fl /\ (forall j, index_ok j -> entry m' f j = 0) /\
  (forall x, ~ in_table t x -> ~ in_table f x -> mem_get m' x = mem_get (ms_mem s) x).
Proof.
  intros Hf [Ht Hnf] Hfree Hi m'. assert (t <> f) by (intros ->; done). destruct Hfl as (Hflr & _). split_and!.
  - apply entry_set_eq. apply lor_bound; [lia| |done]. destruct Hf. lia.
  - intros j Hj. unfold m'. rewrite entry_set_ne by (done || congruence). rewrite entry_zero_frame by done.
    by rewrite decide_True.
  - intros x H1 H2. unfold m', set_entry, wr64, zero_frame, in_table, PAGE_SIZE, index_ok in *.
    rewrite !mem_get_write_out; [done| |].
    + rewrite length_zero_page. lia.
    + rewrite length_le_bytes. lia.
Qed.

Lemma walk_create_spec idx : Forall index_ok idx -> forall pre s t r s', vm_ok s ->
  NoDup (pre ++ tables (ms_mem s) t idx) -> Forall (table_ok s) (pre ++ tables (ms_mem s) t idx) ->
  walk_create s t idx = (r, s') ->
  grown pre t idx s s' /\
  match r with
  | Some pt => exists l, tables (ms_mem s') t idx = l ++ [pt] /\ length l = length idx
  | None => free_set (ms_pmm s') = ∅
  end.
Proof.
  induction 1 as [|i rs Hi Hrs IH]; intros pre s t r s' Hok Hnd Hft.
  { intros [= <- <-]. split; [by apply grown_refl|]. by exists []. }
  cbn [walk_create]. unfold walk_or_create.
  destruct (has (entry (ms_mem s) t i) VMM_PRESENT) eqn:E; cbn [negb].
  - intros Hw. pose proof Hnd as Hnd'. pose proof Hft as Hft'. cbn [tables] in Hnd', Hft'. rewrite E in Hnd', Hft'.
    change (t :: ?l) with ([t] ++ l) in Hnd', Hft'. rewrite app_assoc in Hnd', Hft'.
    destruct (IH _ _ _ _ _ Hok Hnd' Hft' Hw) as [Hg Hr]. split.
    + eapply (grown_cons _ _ _ _ _ s s); eauto.
      intros u Hu. left. cbn [tables]. rewrite E. set_solver.
    + destruct r; [|done]. destruct (grown_head _ _ _ _ _ _ _ Hi E eq_refl Hg) as [_ ->].
      destruct Hr as (l & -> & Hl). exists (t :: l). cbn. by rewrite Hl.
  - pose proof Hnd as Hnd'. pose proof Hft as Hft'. cbn [tables] in Hnd', Hft'. rewrite E in Hnd', Hft'.
    destruct (alloc_table_cases s Hok) as [(f & p' & -> & Hnz & Hf & Hfree & Hset & Htot & Hpi)|[-> He]].
    + rewrite (proj2 (Z.eqb_neq _ _) Hnz). cbn [with_mem ms_pmm ms_mem].
      assert (Htok : table_ok s t) by (rewrite Forall_forall in Hft'; apply Hft'; set_solver).
      destruct Hfl as (_ & Hm & Hp & Hh). destruct (install_new_facts f fl Hf Hm Hp Hh) as (Hmask & Hpres & Hhg).
      destruct (new_table s t i f Hf Htok Hfree Hi) as (H1 & H2 & H3).
      set (m2 := set_entry _ _ _ _) in *. rewrite H1, Hmask. intros Hw.
      assert (Htf : tables m2 f rs = [f] /\ no_huge m2 f rs).
      { destruct Hrs as [|j rs Hj Hrs]; [done|]. cbn [tables no_huge]. rewrite H2 by done. done. }
      destruct Htf as [Htf Hhuge].
      assert (Hnew : Forall (table_ok (MState p' m2)) ((pre ++ [t]) ++ [f])).
      { apply Forall_app. split.
        - apply (table_ok_mono s); [cbn; rewrite Hset; set_solver|done].
        - constructor; [|done]. split; [done|]. cbn. rewrite Hset. set_solver. }
      assert (Hnd2 : NoDup ((pre ++ [t]) ++ [f])).
      { apply NoDup_app. split_and!; [done| |apply NoDup_singleton].
        intros u Hu ->%list_elem_of_singleton. rewrite Forall_forall in Hft'. by destruct (Hft' f Hu). }
      destruct (IH (pre ++ [t]) _ _ _ _ (install_vm_ok s _ p' m2 Hok Hpi Htot Hset) ltac:(cbn; by rewrite Htf) ltac:(cbn; by rewrite Htf) Hw)
        as [Hg Hr]. rewrite <- H1 in Hpres, Hhg. split.
      * eapply (grown_cons _ _ _ _ f s (MState p' m2)); cbn; eauto.
        -- by rewrite H1.
        -- rewrite Hset. set_solver.
        -- rewrite Htf. intros u ->%list_elem_of_singleton. by right.
      * destruct r; [|done].
        destruct (grown_head _ _ _ _ f (MState p' m2) _ Hi Hpres ltac:(cbn; by rewrite H1) Hg) as [_ ->].
        destruct Hr as (l & -> & Hl). exists (t :: l). cbn. by rewrite Hl.
    + cbn [Z.eqb]. intros [= <- <-]. split; [by apply grown_refl|done].
Qed.

(** A complete path stays as it is. *)
Lemma walk_create_complete idx : forall s t l pt, tables (ms_mem s) t idx = l ++ [pt] -> length l = length idx ->
  walk_create s t idx = (Some pt, s).
Proof.
  induction idx as [|i r IH]; intros s t l pt; cbn [tables walk_create].
  - destruct l; [|done]. by intros [= ->].
  - destruct l as [|t' l]; [done|]. cbn [app length]. intros [= <- Ht] [= Hl]. unfold walk_or_create.
    destruct (has _ VMM_PRESENT) eqn:E; cbn [negb]; [eauto|by destruct l].
Qed.
End Walk.

(** ** [vmm_map_page] *)

Lemma vmm_map_walk s pml4 va phys flags : vmm_map_page s pml4 va phys flags =
  match walk_create (tbl_flags flags) s pml4 (va_path va) with
  | (None, s) => (VOID_ERR_NOMEM, s)
  | (Some pt, s) => (VOID_OK, with_mem s (set_entry (ms_mem s) pt (PT_IDX va) (Z.lor (Z.land phys PHYS_MASK) flags)))
  end.
Proof.
  unfold vmm_map_page. cbn [walk_create va_path].
  repeat (destruct (walk_or_create _ _ _ _) as [[?|] ?]; [|done]). done.
Qed.

(** A lookup along a complete path reads the entry of its last table. *)
Lemma get_pte_tables m root va l pt : tables m root (va_path va) = l ++ [pt] -> length l = 3%nat -> no_huge m root (va_path va) ->
  vmm_get_pte m root va = entry m pt (PT_IDX va) /\
  (has (entry m pt (PT_IDX va)) VMM_PRESENT = true ->
   vmm_virt_to_phys m root va = Z.lor (Z.land (entry m pt (PT_IDX va)) PHYS_MASK) (Z.land va 0xFFF)).
Proof.
  unfold va_path. cbn [tables no_huge]. intros Ht Hl Hh. unfold vmm_get_pte, vmm_virt_to_phys.
  destruct (has (entry m root _) VMM_PRESENT) eqn:E1; [|by destruct l as [|? [|]]].
  destruct (Hh eq_refl) as [_ Hh1]. cbn [negb].
  destruct (has (entry m _ (PDPT_IDX va)) VMM_PRESENT) eqn:E2; [|by destruct l as [|? [|? [|]]]].
  destruct (Hh1 eq_refl) as [Hg2 Hh2]. rewrite Hg2. cbn [negb].
  destruct (has (entry m _ (PD_IDX va)) VMM_PRESENT) eqn:E3; [|by destruct l as [|? [|? [|? [|]]]]].
  destruct (Hh2 eq_refl) as [Hg3 _]. rewrite Hg3. cbn [negb].
  destruct l as [|a [|b [|c [|]]]]; try done. injection Ht as <- <- <- <-. split; [done|]. intros Hp. by rewrite Hp.
Qed.

(** If nothing is mapped there, no huge page is in the way. *)
Lemma unmapped_no_huge m root va : vmm_get_pte m root va = 0 -> has (entry m root (PML4_IDX va)) VMM_HUGE = false ->
  no_huge m root (va_path va).
Proof.
  intros Hg Hh. unfold va_path, vmm_get_pte in *. cbn [no_huge].
  destruct (has (entry m root _) VMM_PRESENT) eqn:E1; [|done]. split; [done|]. cbn [negb] in Hg.
  destruct (has (entry m _ (PDPT_IDX va)) VMM_PRESENT) eqn:E2; [|done]. intros _. cbn [negb] in Hg.
  destruct (has (entry m _ (PDPT_IDX va)) VMM_HUGE) eqn:E2h; [by rewrite Hg in E2|]. split; [done|].
  destruct (has (entry m _ (PD_IDX va)) VMM_PRESENT) eqn:E3; [|done]. intros _. cbn [negb] in Hg.
  destruct (has (entry m _ (PD_IDX va)) VMM_HUGE) eqn:E3h; [by rewrite Hg in E3|]. done.
Qed.

(** The path to [va] in a consistent state. *)
Record path_inv (s : mstate) (root va : Z) : Prop := {
  path_vm : vm_ok s;
  path_nodup : NoDup (tables (ms_mem s) root (va_path va));
  path_tables : Forall (table_ok s) (tables (ms_mem s) root (va_path va));
  path_huge : no_huge (ms_mem s) root (va_path va)
}.

(** The path after a leaf entry was written. *)
Lemma leaf_tables m root idx : Forall index_ok idx -> forall l pt i v, tables m root idx = l ++ [pt] -> length l = length idx ->
  NoDup (l ++ [pt]) -> Forall frame_addr (l ++ [pt]) -> index_ok i ->
  tables (set_entry m pt i v) root idx = l ++ [pt] /\ (no_huge m root idx -> no_huge (set_entry m pt i v) root idx).
Proof.
  intros Hidx. revert root. induction Hidx as [|j r Hj _ IH]; intros root l pt i v Ht Hl Hnd Hft Hi; [by destruct l|].
  destruct l as [|t l]; [done|]. cbn [tables no_huge] in *. cbn [app] in *. injection Ht as <- Ht. injection Hl as Hl.
  apply NoDup_cons in Hnd as [Hni Hnd]. apply Forall_cons in Hft as [Hf Hft].
  assert (Hpt : frame_addr pt) by (rewrite Forall_forall in Hft; apply Hft; set_solver).
  rewrite !entry_set_ne by (done || (intros [= -> ?]; apply Hni; set_solver)).
  destruct (has _ VMM_PRESENT) eqn:E; [|by destruct l].
  destruct (IH _ l pt i v Ht Hl Hnd Hft Hi) as [-> Hh]. split; [done|]. intros H0 _. destruct (H0 eq_refl). eauto.
Qed.

(** Mapping a page: the tables of the path are added as needed, the entry is written, and
  no byte outside the tables changes; or memory runs out. *)
Lemma map_page_path s root va phys flags r s' : path_inv s root va -> vmm_map_page s root va phys flags = (r, s') ->
  0 <= Z.lor (Z.land phys PHYS_MASK) flags < 2 ^ 64 ->
  path_inv s' root va /\ free_set (ms_pmm s') ⊆ free_set (ms_pmm s) /\
  (forall u, u ∈ tables (ms_mem s') root (va_path va) ->
     u ∈ tables (ms_mem s) root (va_path va) \/ u / PAGE_SIZE ∈ free_set (ms_pmm s)) /\
  (forall x, (forall u, u ∈ tables (ms_mem s') root (va_path va) -> ~ in_table u x) ->
     mem_get (ms_mem s') x = mem_get (ms_mem s) x) /\
  ((r = VOID_OK /\ exists l pt, length l = 3%nat /\ tables (ms_mem s') root (va_path va) = l ++ [pt] /\
      entry (ms_mem s') pt (PT_IDX va) = Z.lor (Z.land phys PHYS_MASK) flags /\
      (length (tables (ms_mem s) root (va_path va)) = 4%nat ->
         tables (ms_mem s) root (va_path va) = l ++ [pt] /\
         forall j, index_ok j -> j <> PT_IDX va -> entry (ms_mem s') pt j = entry (ms_mem s) pt j)) \/
   (r = VOID_ERR_NOMEM /\ free_set (ms_pmm s') = ∅ /\ length (tables (ms_mem s) root (va_path va)) <> 4%nat)).
Proof.
  intros [Hok Hnd Hft Hh] Hmap Hv. rewrite vmm_map_walk in Hmap.
  destruct (walk_create _ s root (va_path va)) as [w s1] eqn:Hw.
  pose proof (walk_create_spec _ (tbl_flags_computed flags) (va_path va) (va_path_index va) [] s root w s1 Hok Hnd Hft Hw) as [Hg Hr].
  destruct Hg as [Hok1 Hf1 Hn1 Hm1 Hnd1 Hft1 Hh1]. cbn [app] in *.
  assert (Hcomplete : length (tables (ms_mem s) root (va_path va)) = 4%nat -> exists l pt,
            tables (ms_mem s) root (va_path va) = l ++ [pt] /\ length l = 3%nat /\ w = Some pt /\ s1 = s).
  { intros Hl. destruct (tables (ms_mem s) root (va_path va)) as [|a [|b [|c [|d [|]]]]] eqn:Ht; try done.
    rewrite (walk_create_complete _ (va_path va) s root [a; b; c] d Ht eq_refl) in Hw. injection Hw as <- <-.
    by exists [a; b; c], d. }
  destruct w as [pt|]; injection Hmap as <- <-.
  - destruct Hr as (l & Ht & Hl). assert (Hix : index_ok (PT_IDX va)) by (apply idx_range; lia).
    rewrite Ht in Hnd1, Hft1.
    assert (Hfr : Forall frame_addr (l ++ [pt])) by (eapply Forall_impl; [exact Hft1|by intros ? [? _]]).
    assert (Hpt : frame_addr pt) by (rewrite Forall_forall in Hfr; apply Hfr; set_solver).
    destruct (leaf_tables _ _ _ (va_path_index va) l pt _ (Z.lor (Z.land phys PHYS_MASK) flags) Ht Hl Hnd1 Hfr Hix) as [Ht2 Hh2].
    cbn [with_mem ms_mem ms_pmm]. rewrite Ht2. split_and!; try done.
    + split; cbn [with_mem ms_mem ms_pmm]; rewrite ?Ht2; try done; [by destruct Hok1|]. auto.
    + by rewrite <- Ht.
    + intros x Hx. rewrite <- Hm1 by (by rewrite Ht). unfold set_entry, wr64. apply mem_get_write_out.
      rewrite length_le_bytes. specialize (Hx pt ltac:(set_solver)). unfold in_table, index_ok, PAGE_SIZE in *. lia.
    + left. split; [done|]. exists l, pt. split_and!; try done; [by apply entry_set_eq|]. intros H4.
      destruct (Hcomplete H4) as (l2 & pt2 & E & Hl2 & [= <-] & ->). split; [done|].
      intros j Hj Hne. apply entry_set_ne; try done. congruence.
  - split_and!; try done; [split; auto|]. right. split_and!; try done. intros H4.
    by destruct (Hcomplete H4) as (? & ? & _ & _ & ? & _).
Qed.
