(* ===== verification/Acpi.v ===== *)
(** * ACPI tables ([acpi/acpi.c])

  The parser of the firmware tables: it maps every physical page it touches into a
  window of 16 pages of the kernel half ([acpi_ensure], with the real [vmm_map_page]),
  reads the bytes through the kernel's page tables, checks the checksums and keeps a
  registry of the tables.  [kernel_pml4] is the value of [vmm_kernel_pml4()].

  An operation returns ([Ret]), stops the machine with [cpu_halt] after its message
  ([Halt]), or dereferences an address that is not mapped ([Fault], a page fault in the
  kernel).  The messages and the output of the self test are recorded in [a_out].  Where
  C leaves the order of reads open they are made from left to right. *)
From S2P Require Import Prelude Pmm PhysMem Vmm Console.

(** ** Data *)

Record acpi_sdt_header_t := Sdt {
  signature : list Z; sdt_length : Z; sdt_revision : Z; sdt_checksum : Z;
  oem : list Z; oem_table : list Z; oem_revision : Z; creator_id : Z; creator_revision : Z }.

Definition ACPI_MAX_TABLES : Z := 64.
Definition ACPI_MAP_WIN : Z := 0xffffffffe0000000.
Definition ACPI_MAP_PAGES : Z := 16.

(** [kprintf] with its arguments, or a string the self test sends to the serial port. *)
Inductive output := Kprintf (fmt : list Z) (args : list karg) | Puts (s : list Z).

(** The module state, the memory and page tables it works on, and its output. *)
Record acpi := Acpi {
  g_rsdp_phys : Z; g_tables : list Z; g_table_count : Z; g_acpi_version : Z;
  win_phys : list Z; a_ms : mstate; a_out : list output }.

Definition set_win (s : acpi) (w : list Z) (ms : mstate) : acpi :=
  Acpi (g_rsdp_phys s) (g_tables s) (g_table_count s) (g_acpi_version s) w ms (a_out s).
Definition set_rsdp (s : acpi) (x : Z) : acpi :=
  Acpi x (g_tables s) (g_table_count s) (g_acpi_version s) (win_phys s) (a_ms s) (a_out s).
Definition set_tables (s : acpi) (l : list Z) : acpi :=
  Acpi (g_rsdp_phys s) l (g_table_count s) (g_acpi_version s) (win_phys s) (a_ms s) (a_out s).
Definition set_count (s : acpi) (n : Z) : acpi :=
  Acpi (g_rsdp_phys s) (g_tables s) n (g_acpi_version s) (win_phys s) (a_ms s) (a_out s).
Definition set_version (s : acpi) (v : Z) : acpi :=
  Acpi (g_rsdp_phys s) (g_tables s) (g_table_count s) v (win_phys s) (a_ms s) (a_out s).
Definition set_out (s : acpi) (o : list output) : acpi :=
  Acpi (g_rsdp_phys s) (g_tables s) (g_table_count s) (g_acpi_version s) (win_phys s) (a_ms s) o.

(** ** Computations *)

Inductive result (A : Type) := Ret (a : A) (s : acpi) | Halt (s : acpi) | Fault (s : acpi).
Arguments Ret {A}. Arguments Halt {A}. Arguments Fault {A}.

Definition acpiM (A : Type) : Type := acpi -> result A.

#[export] Instance acpi_ret : MRet acpiM := fun A a s => Ret a s.
#[export] Instance acpi_bind : MBind acpiM := fun A B k m s =>
  match m s with Ret a s => k a s | Halt s => Halt s | Fault s => Fault s end.

Definition get : acpiM acpi := fun s => Ret s s.
Definition modify (f : acpi -> acpi) : acpiM unit := fun s => Ret tt (f s).
Definition emit (o : output) : acpiM unit := modify (fun s => set_out s (a_out s ++ [o])).
Definition cpu_halt {A} : acpiM A := fun s => Halt s.

(** [for (i : l) a = f(a, i);] *)
Fixpoint for_each {A} (l : list Z) (f : A -> Z -> acpiM A) (a : A) : acpiM A :=
  match l with
  | [] => mret a
  | i :: l => a ← f a i; for_each l f a
  end.

Section Parser.
Context (kernel_pml4 : Z).

(** ** The mapping window *)

Definition page_base (addr : Z) : Z := Z.land addr (2 ^ 64 - 2 ^ 12).
Definition slot_addr (i : Z) : Z := u64 (ACPI_MAP_WIN + i * 0x1000).

Definition acpi_ensure (addr : Z) : acpiM bool := fun s =>
  let page := page_base addr in
  match first_index (Z.eqb page) (win_phys s) with
  | Some _ => Ret true s
  | None =>
      match first_index (Z.eqb 0) (win_phys s) with
      | None => Ret false s
      | Some i =>
          let '(r, ms) := vmm_map_page (a_ms s) kernel_pml4 (slot_addr (Z.of_nat i)) page VMM_KERN_RW in
          if negb (r =? VOID_OK) then Ret false (set_win s (win_phys s) ms)
          else Ret true (set_win s (<[i := page]> (win_phys s)) ms)
      end
  end.

Definition acpi_map_field (addr : Z) : acpiM (option Z) :=
  ok ← acpi_ensure addr;
  if negb ok then mret None else
  s ← get;
  mret (match first_index (Z.eqb (page_base addr)) (win_phys s) with
        | Some i => Some (u64 (slot_addr (Z.of_nat i) + Z.land addr 0xfff))
        | None => None
        end).

(** A byte load at a virtual address: the processor walks the kernel's tables. *)
Definition load8 (va : Z) : acpiM Z := fun s =>
  let m := ms_mem (a_ms s) in
  if has (vmm_get_pte m kernel_pml4 va) VMM_PRESENT
  then Ret (mem_get m (vmm_virt_to_phys m kernel_pml4 va)) s
  else Fault s.

(** ** Reading *)

Definition acpi_rdb (phys off : Z) : acpiM Z :=
  p ← acpi_map_field (u64 (phys + off));
  match p with
  | None =>
      emit (Kprintf (str "[ACPI] mapping failure @ phys 0x%016x+%u" ++ [10; 13]) [KInt phys; KInt off]);;
      cpu_halt
  | Some p => load8 p
  end.

Definition acpi_rd32 (phys off : Z) : acpiM Z :=
  b0 ← acpi_rdb phys off;
  b1 ← acpi_rdb phys (u32 (off + 1));
  b2 ← acpi_rdb phys (u32 (off + 2));
  b3 ← acpi_rdb phys (u32 (off + 3));
  mret (Z.lor (Z.lor (Z.lor b0 (u32 (Z.shiftl b1 8))) (u32 (Z.shiftl b2 16))) (u32 (Z.shiftl b3 24))).

Definition acpi_rd64 (phys off : Z) : acpiM Z :=
  lo ← acpi_rd32 phys off;
  hi ← acpi_rd32 phys (u32 (off + 4));
  mret (Z.lor lo (u64 (Z.shiftl hi 32))).

Definition acpi_checksum_at (phys len : Z) : acpiM bool :=
  sum ← for_each (range 0 len) (fun sum i => b ← acpi_rdb phys i; mret (u8 (sum + b))) 0;
  mret (sum =? 0).

(** [for (i = 0; i < n; i++) dst[i] = acpi_rdb(phys, off + i);] *)
Definition read_field (phys off n : Z) : acpiM (list Z) :=
  for_each (range 0 n) (fun l i => b ← acpi_rdb phys (off + i); mret (l ++ [b])) [].

Definition acpi_read_sdt (phys : Z) : acpiM acpi_sdt_header_t :=
  or2 ← acpi_rd32 phys 24;
  cr ← acpi_rd32 phys 28;
  crrev ← acpi_rd32 phys 32;
  sig ← read_field phys 0 4;
  len ← acpi_rd32 phys 4;
  rev ← acpi_rdb phys 8;
  sum ← acpi_rdb phys 9;
  oem ← read_field phys 10 6;
  oemt ← read_field phys 16 8;
  mret (Sdt sig len rev sum oem oemt or2 cr crrev).

(** ** Finding a table *)

Definition acpi_table_ptr (phys : Z) : acpiM (option Z) := acpi_map_field phys.

Definition acpi_get_rsdp : acpiM Z := s ← get; mret (g_rsdp_phys s).

(** [s[0] == sig[0] && ...], each byte only after the one before it. *)
Fixpoint sig_match (va : Z) (sig : list Z) : acpiM bool :=
  match sig with
  | [] => mret true
  | c :: sig => b ← load8 va; if b =? c then sig_match (u64 (va + 1)) sig else mret false
  end.

Definition has_signature (p : option Z) (sig : list Z) : acpiM bool :=
  match p with None => mret false | Some va => sig_match va (take 4 sig) end.

(** The loop from entry [i]; [c] tables with the signature were seen. *)
Fixpoint find_loop (idx : list Z) (sig : list Z) (index c : Z) : acpiM (option Z) :=
  match idx with
  | [] => mret None
  | i :: idx =>
      st ← get;
      s ← acpi_table_ptr (zget 0 (g_tables st) i);
      m ← has_signature s sig;
      if m : bool then (if c =? index then mret s else find_loop idx sig index (c + 1)) else find_loop idx sig index c
  end.

Definition acpi_find_table (sig : list Z) (index : Z) : acpiM (option Z) :=
  st ← get; find_loop (range 0 (g_table_count st)) sig index 0.

(** ** The MADT *)

Definition ACPI_MADT_LAPIC : Z := 0.
Definition ACPI_MADT_IOAPIC : Z := 1.
Definition ACPI_MADT_INT_OVERRIDE : Z := 2.

Record acpi_madt_entry_t := Madt { madt_type : Z; madt_length : Z; madt_data : option Z }.

(** The callback ([None] is NULL) works on the object [arg] points to. *)
Section Madt.
Context {T : Type} (cb : option (acpi_madt_entry_t -> T -> T)).

(** [while (off + 2 <= madt_len)]; [None]: the fuel is used up. *)
Fixpoint madt_loop (fuel : nat) (phys len : Z) (off n : Z) (arg : T) : acpiM (option (Z * T)) :=
  match fuel with
  | O => mret None
  | S fuel =>
      if negb (u32 (off + 2) <=? len) then mret (Some (n, arg)) else
      type ← acpi_rdb phys off;
      elen ← acpi_rdb phys (u32 (off + 1));
      if (elen <? 2) || (len <? u32 (off + elen)) then mret (Some (n, arg)) else
      if (type =? ACPI_MADT_LAPIC) || (type =? ACPI_MADT_IOAPIC) || (type =? ACPI_MADT_INT_OVERRIDE) then
        data ← acpi_table_ptr (u64 (phys + off));
        let arg := match cb with Some f => f (Madt type elen data) arg | None => arg end in
        madt_loop fuel phys len (u32 (off + elen)) (if type =? ACPI_MADT_INT_OVERRIDE then n + 1 else n) arg
      else madt_loop fuel phys len (u32 (off + elen)) n arg
  end.

(** [overrides]: the variable the last argument points to, [None] for NULL. *)
Definition acpi_walk_madt (phys len : Z) (arg : T) (overrides : option Z) : acpiM (option (option Z * T)) :=
  r ← madt_loop (Z.to_nat len) phys len 8 0 arg;
  mret (match r with
        | None => None
        | Some (n, arg) => Some (match overrides with Some _ => Some n | None => None end, arg)
        end).

(** The first table with the signature APIC, 0 for none. *)
Fixpoint madt_find (idx : list Z) : acpiM Z :=
  match idx with
  | [] => mret 0
  | i :: idx =>
      st ← get;
      s ← acpi_table_ptr (zget 0 (g_tables st) i);
      m ← has_signature s (str "APIC");
      if m : bool then mret (zget 0 (g_tables st) i) else madt_find idx
  end.

Definition acpi_get_madt (arg : T) (overrides : option Z) : acpiM (option (Z * option Z * T)) :=
  st ← get;
  madt ← madt_find (range 0 (g_table_count st));
  if madt =? 0 then mret (Some (-1, overrides, arg)) else
  len ← acpi_rd32 madt 4;
  if len <? 44 then mret (Some (-1, overrides, arg)) else
  r ← acpi_walk_madt madt len arg overrides;
  mret (match r with None => None | Some (over, arg) => Some (0, over, arg) end).
End Madt.

(** ** Initialisation *)

(** The slots must not be mapped: [None], or the first slot that is. *)
Fixpoint window_guard (idx : list Z) : acpiM (option Z) :=
  match idx with
  | [] => mret None
  | i :: idx =>
      st ← get;
      if negb (vmm_get_pte (ms_mem (a_ms st)) kernel_pml4 (slot_addr i) =? 0)
      then mret (Some (slot_addr i)) else window_guard idx
  end.

(** One entry of the table list; [n] tables are registered. *)
Definition register_entry (list_phys entry_sz : Z) (n i : Z) : acpiM Z :=
  tphys ← (if entry_sz =? 8 then acpi_rd64 list_phys (u32 (36 + u32 (i * 8)))
           else acpi_rd32 list_phys (u32 (36 + u32 (i * 4))));
  if tphys =? 0 then mret n else
  hdr ← acpi_read_sdt tphys;
  if sdt_length hdr <? 36 then mret n else
  ok ← acpi_checksum_at tphys (sdt_length hdr);
  if negb ok then
    emit (Kprintf (str "[ACPI] table '%c%c%c%c' checksum FAILED" ++ [10; 13]) (KInt <$> signature hdr));;
    mret n
  else
    modify (fun s => set_tables s (zset (g_tables s) n tphys));;
    mret (n + 1).

Definition entry_count (length entry_sz : Z) : Z :=
  let count := u32 (length - 36) / entry_sz in
  let count := if ACPI_MAX_TABLES <? count then ACPI_MAX_TABLES else count in
  if count <? 0 then 0 else count.

(** The list of tables: [entry_sz] is 8 for the XSDT and 4 for the RSDT. *)
Definition scan_list (list_phys entry_sz : Z) : acpiM Z :=
  hdr ← acpi_read_sdt list_phys;
  ok ← acpi_checksum_at list_phys (sdt_length hdr);
  if negb ok then
    emit (Kprintf (str "[ACPI] %c%c%c%c checksum FAILED" ++ [10; 13]) (KInt <$> signature hdr));;
    mret (-1)
  else
  n ← for_each (range 0 (entry_count (sdt_length hdr) entry_sz)) (register_entry list_phys entry_sz) 0;
  modify (fun s => set_count s n);;
  fadt ← acpi_find_table (str "FACP") 0;
  version ← (match fadt with
             | Some p => load8 (u64 (p + 8))
             | None => mret (if entry_sz =? 8 then 2 else 1)
             end);
  modify (fun s => set_version s version);;
  st ← get;
  emit (Kprintf (str "[ACPI] revision %d, %d table(s) validated" ++ [10; 13])
          [KInt (g_acpi_version st); KInt (g_table_count st)]);;
  mret 0.

Definition acpi_init (boot_rsdp : Z) : acpiM Z :=
  modify (fun s => set_version (set_count (set_rsdp s boot_rsdp) 0) 0);;
  taken ← window_guard (range 0 ACPI_MAP_PAGES);
  match taken with
  | Some slot =>
      emit (Kprintf (str "[ACPI] FATAL: map window slot 0x%016x already mapped" ++ [10; 13]) [KInt slot]);;
      mret (-1)
  | None =>
  st ← get;
  let rsdp := g_rsdp_phys st in
  if rsdp =? 0 then
    emit (Kprintf (str "[ACPI] no RSDP " ++ [0xE2; 0x80; 0x94] ++ str " not ACPI-compliant, ACPI disabled" ++ [10; 13]) []);;
    mret (-1)
  else
  rev ← acpi_rdb rsdp 15;
  rsdt ← acpi_rd32 rsdp 16;
  len ← acpi_rd32 rsdp 20;
  xsdt ← acpi_rd64 rsdp 24;
  ok ← acpi_checksum_at rsdp (if 2 <=? rev then 36 else 20);
  if negb ok then
    emit (Kprintf (str "[ACPI] RSDP checksum FAILED" ++ [10; 13]) []);;
    mret (-1)
  else
  let '(list_phys, entry_sz) :=
    if (2 <=? rev) && negb (xsdt =? 0) then (xsdt, 8) else if negb (rsdt =? 0) then (rsdt, 4) else (0, 0) in
  if list_phys =? 0 then
    emit (Kprintf (str "[ACPI] neither RSDT nor XSDT present" ++ [10; 13]) []);;
    mret (-1)
  else
  scan_list list_phys entry_sz
  end.

(** ** The self test *)

Definition acpi_puts (s : list Z) : acpiM unit := emit (Puts s).

Definition acpi_result (label : list Z) (pass : bool) : acpiM unit :=
  acpi_puts (str "[ACPI] ");; acpi_puts label;; acpi_puts (str ": ");;
  acpi_puts (str (if pass then "PASS" else "FAIL"));; acpi_puts [10; 13].

(** [None]: the walk of the MADT does not end. *)
Definition acpi_selftest : acpiM (option unit) :=
  st ← get;
  acpi_result (str "rsdp present") (negb (g_rsdp_phys st =? 0));;
  acpi_result (str "tables registered") (0 <? g_table_count st);;
  fadt ← acpi_find_table (str "FACP") 0;
  acpi_result (str "find FACP") (bool_decide (is_Some fadt));;
  missing ← acpi_find_table (str "ZZZZ") 0;
  acpi_result (str "find missing") (bool_decide (missing = None));;
  r ← acpi_get_madt (T := unit) None tt (Some (-1));
  match r with
  | None => mret None
  | Some (rc, over, _) =>
      acpi_result (str "madt walk") ((rc =? 0) || (rc =? -1));;
      acpi_result (str "madt overrides") (0 <=? default (-1) over);;
      acpi_puts (str "[ACPI] selftest done" ++ [10; 13]);;
      mret (Some tt)
  end.
End Parser.
