(* ===== verification/AcpiSpec.v ===== *)
(** * The ACPI parser reads the tables of the firmware

  Reads through the mapping window give the bytes of physical memory: [reads] lifts this
  from a byte to every read operation of [Acpi].  The registry and the MADT walk are then
  compared with their definition over the physical bytes. *)
From S2P Require Import Prelude Digits Pmm PhysMem Vmm KernelMap Framebuf Serial Console Acpi.

(** [lia] with division and remainder by constants. *)
Local Ltac zdiv := unfold PAGE_SIZE in *; Z.to_euclidean_division_equations; lia.

(** ** Outcomes *)

(** Memory for tables or the window is used up. *)
Definition stuck (s : acpi) : Prop :=
  (forall i p, win_phys s !! i = Some p -> p <> 0) \/ free_set (ms_pmm (a_ms s)) = ∅.

(** The messages so far are well formed calls of [kprintf]. *)
Definition output_ok (o : output) : Prop := match o with Kprintf fmt args => call_ok fmt args | Puts _ => True end.
Definition outputs_ok (s : acpi) : Prop := Forall output_ok (a_out s).

(** A run that returns satisfies [Q]; it halts only when it is stuck, and never faults. *)
Definition runs {A} (r : result A) (Q : A -> acpi -> Prop) : Prop :=
  match r with Ret a s => Q a s | Halt s => stuck s /\ outputs_ok s | Fault _ => False end.

Lemma runs_bind {A B} (m : acpiM A) (k : A -> acpiM B) s (Q : A -> acpi -> Prop) R :
  runs (m s) Q -> (forall a s', Q a s' -> runs (k a s') R) -> runs (mbind k m s) R.
Proof. unfold mbind, acpi_bind. destruct (m s); cbn; auto. Qed.

Lemma runs_weaken {A} (r : result A) (Q R : A -> acpi -> Prop) : runs r Q -> (forall a s, Q a s -> R a s) -> runs r R.
Proof. destruct r; cbn; auto. Qed.

(** ** Addresses *)

Lemma page_base_spec a : 0 <= a < 2 ^ 64 -> page_base a = a - a mod PAGE_SIZE.
Proof. intros. unfold page_base. by rewrite land_high_mask by lia. Qed.

Lemma land_fff a : Z.land a 0xfff = a mod PAGE_SIZE.
Proof. change 0xfff with (Z.ones 12). by rewrite Z.land_ones by lia. Qed.

(** The slots of the window share their path and differ in the last index. *)
Lemma slot_va i r : 0 <= i < 16 -> 0 <= r < 4096 ->
  va_path (u64 (slot_addr i + r)) = va_path ACPI_MAP_WIN /\ PT_IDX (u64 (slot_addr i + r)) = i /\
  Z.land (u64 (slot_addr i + r)) 0xfff = r.
Proof.
  intros Hi Hr. unfold slot_addr, ACPI_MAP_WIN. rewrite (u64_id (0xffffffffe0000000 + _)) by lia. rewrite u64_id by lia.
  rewrite land_fff. unfold va_path, PML4_IDX, PDPT_IDX, PD_IDX, PT_IDX, PAGE_SIZE. rewrite !idx_spec by lia.
  set (x := 0xffffffffe0000000 + i * 4096 + r).
  assert (Hx : x / 2 ^ 12 = 0xffffffffe0000 + i) by (symmetry; apply (Z.div_unique _ _ _ r); subst x; lia).
  assert (Hd : forall n, 0 <= n -> x / 2 ^ (12 + n) = (0xffffffffe0000 + i) / 2 ^ n).
  { intros n Hn. by rewrite Z.pow_add_r, <- Z.div_div, Hx by lia. }
  pose proof (Hd 9 ltac:(lia)) as H1. pose proof (Hd 18 ltac:(lia)) as H2. pose proof (Hd 27 ltac:(lia)) as H3.
  change (12 + 9) with 21 in H1. change (12 + 18) with 30 in H2. change (12 + 27) with 39 in H3. rewrite Hx, H1, H2, H3. split_and!.
  - assert (0xffffffffe0000 / 2 ^ 9 = 0x7ffffffff00) as Hc by done.
    assert (((0xffffffffe0000 + i) / 2 ^ 9 = 0x7ffffffff00)) as H9 by (symmetry; apply (Z.div_unique _ _ _ i); lia).
    assert (Hr2 : forall n, 0 <= n -> (0xffffffffe0000 + i) / 2 ^ (9 + n) = 0x7ffffffff00 / 2 ^ n).
    { intros n Hn. by rewrite Z.pow_add_r, <- Z.div_div, H9 by lia. }
    pose proof (Hr2 9 ltac:(lia)) as R1. pose proof (Hr2 18 ltac:(lia)) as R2.
    change (9 + 9) with 18 in R1. change (9 + 18) with 27 in R2. by rewrite H9, R1, R2.
  - change 0xffffffffe0000 with (8796093021952 * 512). rewrite Z.add_comm, Z.mod_add by lia. by apply Z.mod_small; lia.
  - subst x. change 0xffffffffe0000000 with (4503599627239424 * 4096).
    rewrite <- Z.mul_add_distr_r, Z.add_comm, Z.mod_add by lia. by apply Z.mod_small.
Qed.

(** ** What the bytes say *)

Lemma lor_shiftl x y n : 0 <= n -> 0 <= x < 2 ^ n -> Z.lor x (Z.shiftl y n) = x + y * 2 ^ n.
Proof.
  intros Hn Hx. rewrite <- Z.shiftl_mul_pow2 by done. assert (Hl : Z.land x (Z.shiftl y n) = 0).
  { apply Z.bits_inj'. intros k Hk. rewrite Z.land_spec, Z.bits_0. destruct (decide (k < n)).
    - rewrite Z.shiftl_spec_low by done. apply andb_false_r.
    - rewrite (testbit_above x n) by lia. done. }
  by rewrite <- Z.lxor_lor, Z.add_nocarry_lxor.
Qed.

Lemma rd32_bytes m a : rd32 m a = Z.lor (Z.lor (Z.lor (mem_get m a) (u32 (Z.shiftl (mem_get m (a + 1)) 8)))
  (u32 (Z.shiftl (mem_get m (a + 2)) 16))) (u32 (Z.shiftl (mem_get m (a + 3)) 24)).
Proof.
  change (rd32 m a) with (le_val [mem_get m (a + 0); mem_get m (a + 1); mem_get m (a + 2); mem_get m (a + 3)]).
  rewrite Z.add_0_r. pose proof (mem_get_range m a). pose proof (mem_get_range m (a + 1)).
  pose proof (mem_get_range m (a + 2)). pose proof (mem_get_range m (a + 3)).
  rewrite !u32_id by (rewrite Z.shiftl_mul_pow2 by lia; lia). rewrite (lor_shiftl (mem_get m a)) by lia.
  rewrite (lor_shiftl (mem_get m a + _)) by lia. rewrite (lor_shiftl (_ + _ + _)) by lia.
  cbn [le_val]. lia.
Qed.

Lemma rd32_range m a : 0 <= rd32 m a < 2 ^ 32.
Proof. pose proof (le_val_bound _ (mem_read_range m a 4)) as H. by rewrite length_mem_read in H. Qed.

Lemma rd64_words m a : rd64 m a = Z.lor (rd32 m a) (u64 (Z.shiftl (rd32 m (a + 4)) 32)).
Proof.
  pose proof (rd32_range m a). pose proof (rd32_range m (a + 4)).
  rewrite u64_id by (rewrite Z.shiftl_mul_pow2 by lia; lia). rewrite lor_shiftl by lia.
  unfold rd64, rd32, mem_read. rewrite (range_app 0 4 8) by lia. rewrite (range_shift 4 4 : range 4 8 = _).
  rewrite fmap_app, <- list_fmap_compose. cbn [fmap list_fmap range seqZ]. 
  change (range 0 4) with [0; 1; 2; 3]. cbn [fmap list_fmap compose app le_val]. rewrite !Z.add_0_r. rewrite !Z.add_assoc. lia.
Qed.

(** The bytes add up to 0 modulo 256. *)
Definition sum_ok (m : mem) (a len : Z) : bool := foldr Z.add 0 (mem_read m a len) mod 256 =? 0.

(** The running sum of bytes; [u8 0] is 0. *)
Lemma foldl_sum (f : Z -> Z) l s : foldl (fun s i => u8 (s + f i)) (u8 s) l = u8 (s + foldr Z.add 0 (f <$> l)).
Proof.
  revert s. induction l as [|i l IH]; intros s; cbn [foldl fmap list_fmap foldr]; [f_equal; lia|].
  replace (u8 (u8 s + f i)) with (u8 (s + f i)) by (unfold u8; by rewrite Z.add_mod_idemp_l by lia).
  rewrite IH. f_equal. lia.
Qed.

Lemma foldl_snoc {A} (f : Z -> A) l k : foldl (fun l i => l ++ [f i]) k l = k ++ (f <$> l).
Proof. revert k. induction l as [|i l IH]; intros k; cbn; [by rewrite app_nil_r|]. by rewrite IH, <- app_assoc. Qed.

(** The header of a table. *)
Definition sdt_at (m : mem) (a : Z) : acpi_sdt_header_t :=
  Sdt (mem_read m a 4) (rd32 m (a + 4)) (mem_get m (a + 8)) (mem_get m (a + 9)) (mem_read m (a + 10) 6)
    (mem_read m (a + 16) 8) (rd32 m (a + 24)) (rd32 m (a + 28)) (rd32 m (a + 32)).

Section Window.
Context (kernel_pml4 : Z) (m0 : mem) (D : Z -> Prop).
Context (HD : forall x, D x -> PAGE_SIZE <= x < 2 ^ 52).

Local Notation path s := (tables (ms_mem (a_ms s)) kernel_pml4 (va_path ACPI_MAP_WIN)).

(** [D]: the bytes of the firmware's tables, which lie in frames the kernel neither
  hands out nor uses as page tables; they hold what they held at first. *)
Record win_ok (s : acpi) : Prop := {
  w_len : length (win_phys s) = 16%nat;
  w_path : path_inv (a_ms s) kernel_pml4 ACPI_MAP_WIN;
  w_data : forall x, D x -> mem_get (ms_mem (a_ms s)) x = mem_get m0 x /\
    x / PAGE_SIZE ∉ free_set (ms_pmm (a_ms s)) /\ forall u, u ∈ path s -> ~ in_table u x;
  w_slot : forall i p, win_phys s !! i = Some p -> p <> 0 -> frame_addr p /\
    exists l pt, length l = 3%nat /\ path s = l ++ [pt] /\
      entry (ms_mem (a_ms s)) pt (Z.of_nat i) = Z.lor p VMM_KERN_RW;
  w_out : outputs_ok s
}.

(** A read changes only the window and the memory behind it; mapped pages stay. *)
Definition keeps (s s' : acpi) : Prop :=
  win_ok s' /\ s' = set_win s (win_phys s') (a_ms s') /\
  forall i p, win_phys s !! i = Some p -> p <> 0 -> win_phys s' !! i = Some p.

Lemma keeps_refl s : win_ok s -> keeps s s.
Proof. intros H. split_and!; [done|by destruct s|done]. Qed.

Lemma keeps_trans s1 s2 s3 : keeps s1 s2 -> keeps s2 s3 -> keeps s1 s3.
Proof. intros (H1 & E1 & M1) (H2 & E2 & M2). split_and!; [done|rewrite E2, E1; done|auto]. Qed.

(** [va] is the window's address of the physical address [a]. *)
Definition points (s : acpi) (va a : Z) : Prop :=
  exists i, win_phys s !! i = Some (page_base a) /\ page_base a <> 0 /\ va = u64 (slot_addr (Z.of_nat i) + Z.land a 0xfff).

Lemma points_keeps s s' va a : points s va a -> keeps s s' -> points s' va a.
Proof. intros (i & H1 & H2 & H3) (_ & _ & Hm). exists i. auto. Qed.

Lemma page_base_frame a : D a -> frame_addr (page_base a) /\ page_base a = a - a mod PAGE_SIZE /\ page_base a <> 0.
Proof.
  intros Ha%HD. rewrite page_base_spec by (unfold PAGE_SIZE in *; lia).
  unfold frame_addr. split_and!; zdiv.
Qed.

Lemma leaf_value p : frame_addr p -> Z.land (Z.lor p VMM_KERN_RW) PHYS_MASK = p /\ has (Z.lor p VMM_KERN_RW) VMM_PRESENT = true /\
  Z.lor (Z.land p PHYS_MASK) VMM_KERN_RW = Z.lor p VMM_KERN_RW /\ 0 <= Z.lor p VMM_KERN_RW < 2 ^ 64.
Proof.
  intros Hp. split; [|split; [|split]].
  - apply mask_lor; [by apply frame_mask|done].
  - unfold VMM_PRESENT. rewrite has_lor by lia. apply orb_true_r.
  - by rewrite frame_mask.
  - apply lor_bound; [lia| |done]. destruct Hp. lia.
Qed.

(** ** A byte *)

(** The state after page [p] was mapped in the free slot [i]. *)
Lemma map_slot_ok s i p r ms : win_ok s -> win_phys s !! i = Some 0 -> frame_addr p ->
  vmm_map_page (a_ms s) kernel_pml4 (slot_addr (Z.of_nat i)) p VMM_KERN_RW = (r, ms) ->
  (r = VOID_OK /\ keeps s (set_win s (<[i := p]> (win_phys s)) ms)) \/
  (r <> VOID_OK /\ keeps s (set_win s (win_phys s) ms) /\ free_set (ms_pmm ms) = ∅).
Proof.
  intros [Hlen Hpath Hdata Hslot Hout] Hi Hp Hmap. pose proof (lookup_lt_Some _ _ _ Hi) as Hlt. rewrite Hlen in Hlt.
  destruct (slot_va (Z.of_nat i) 0 ltac:(lia) ltac:(lia)) as (Hva & Hix & _). rewrite Z.add_0_r in Hva, Hix.
  assert (u64 (slot_addr (Z.of_nat i)) = slot_addr (Z.of_nat i)) as Hu by (apply u64_id, u64_range).
  rewrite Hu in Hva, Hix. destruct (leaf_value p Hp) as (_ & _ & Hv & Hvr).
  destruct (map_page_path _ _ _ _ _ _ _ ltac:(destruct Hpath; split; rewrite ?Hva; done) Hmap ltac:(by rewrite Hv))
    as (Hpath' & Hfree & Hnew & Hmem & Hcase). rewrite Hva, Hix, Hv in *.
  assert (Hpi : path_inv ms kernel_pml4 ACPI_MAP_WIN) by (destruct Hpath'; split; rewrite <- ?Hva; done).
  assert (Hd : forall x, D x -> mem_get (ms_mem ms) x = mem_get m0 x /\ x / PAGE_SIZE ∉ free_set (ms_pmm ms) /\
            forall u, u ∈ tables (ms_mem ms) kernel_pml4 (va_path ACPI_MAP_WIN) -> ~ in_table u x).
  { intros x Hx. destruct (Hdata x Hx) as (H1 & H2 & H3).
    assert (H4 : forall u, u ∈ tables (ms_mem ms) kernel_pml4 (va_path ACPI_MAP_WIN) -> ~ in_table u x).
    { intros u Hu'. destruct (Hnew u Hu') as [?|Hf]; [by apply H3|]. intros Hin. apply H2.
      replace (x / PAGE_SIZE) with (u / PAGE_SIZE); [done|].
      pose proof (path_tables _ _ _ Hpi) as Ht. rewrite Forall_forall in Ht. destruct (Ht u Hu') as [[_ ?] _].
      unfold in_table in *. zdiv. }
    split_and!; [rewrite Hmem; done|set_solver|done]. }
  destruct Hcase as [(-> & l & pt & Hl & Htab & He & Hkeep)|(-> & He & Hno)].
  - left. split; [done|]. split_and!; [|done|].
    + split; cbn [set_win win_phys a_ms]; [by rewrite length_insert|done|done| |done].
      intros j q Hj Hq. destruct (decide (j = i)) as [->|Hne].
      * rewrite list_lookup_insert_eq in Hj by lia. injection Hj as <-. eauto 10.
      * rewrite list_lookup_insert_ne in Hj by done. destruct (Hslot j q Hj Hq) as (Hq' & l2 & pt2 & Hl2 & Ht2 & He2).
        split; [done|]. exists l, pt. split_and!; try done.
        destruct Hkeep as [Hsame Hoth]; [by rewrite Ht2, length_app, Hl2|]. rewrite Ht2 in Hsame.
        apply app_inj_tail in Hsame as [-> ->]. rewrite Hoth; [done| |lia].
        pose proof (lookup_lt_Some _ _ _ Hj). unfold index_ok. lia.
    + intros j q Hj Hq. cbn. rewrite list_lookup_insert_ne; [done|]. intros ->. congruence.
  - right. split_and!; [done| |done]. split_and!; [|done|done].
    split; cbn [set_win win_phys a_ms]; [done|done|done| |done]. intros j q Hj Hq. exfalso.
    destruct (Hslot j q Hj Hq) as (_ & l & pt & Hl & Ht & _). apply Hno. by rewrite Ht, length_app, Hl.
Qed.

Lemma ensure_spec s a : win_ok s -> D a -> exists b s', acpi_ensure kernel_pml4 a s = Ret b s' /\ keeps s s' /\
  if b : bool then is_Some (first_index (Z.eqb (page_base a)) (win_phys s')) else stuck s'.
Proof.
  intros Hw Ha. destruct (page_base_frame a Ha) as (Hf & _ & Hnz). unfold acpi_ensure.
  destruct (first_index (Z.eqb (page_base a)) (win_phys s)) eqn:E1.
  { exists true, s. split_and!; [done|by apply keeps_refl|by rewrite E1]. }
  destruct (first_index (Z.eqb 0) (win_phys s)) as [i|] eqn:E2.
  - apply first_index_Some in E2 as (q & Hq & <-%Z.eqb_eq & _).
    destruct (vmm_map_page _ _ _ _ _) as [r ms] eqn:Hm.
    destruct (map_slot_ok s i _ r ms Hw Hq Hf Hm) as [[-> Hk]|(Hr & Hk & He)].
    + cbn [Z.eqb VOID_OK negb]. eexists true, _. split_and!; [done|done|]. cbn [set_win win_phys].
      eapply (first_index_is_Some _ _ (page_base a)); [|by apply Z.eqb_refl].
      eapply list_elem_of_lookup_2, list_lookup_insert_eq. by eapply lookup_lt_Some.
    + rewrite (proj2 (Z.eqb_neq r VOID_OK) Hr). cbn [negb]. eexists false, _. split_and!; [done|done|by right].
  - exists false, s. split_and!; [done|by apply keeps_refl|]. left. intros i p Hi ->.
    rewrite first_index_None in E2. by specialize (E2 0 (list_elem_of_lookup_2 _ _ _ Hi)).
Qed.

Lemma map_field_spec s a : win_ok s -> D a -> exists p s', acpi_map_field kernel_pml4 a s = Ret p s' /\ keeps s s' /\
  match p with Some va => points s' va a | None => stuck s' end.
Proof.
  intros Hw Ha. destruct (ensure_spec s a Hw Ha) as (b & s' & He & Hk & Hb).
  unfold acpi_map_field, mbind, acpi_bind. rewrite He. destruct b; cbn [negb].
  - destruct Hb as [i Hi]. unfold get. rewrite Hi. eexists _, s'. split_and!; [done|done|].
    apply first_index_Some in Hi as (q & Hq & <-%Z.eqb_eq & _). exists i. split_and!; [done| |done].
    by destruct (page_base_frame a Ha) as (_ & _ & ?).
  - eexists None, s'. by split_and!.
Qed.

(** A load through the window gives the physical byte, up to the end of the page. *)
Lemma load8_spec s va a k : win_ok s -> points s va a -> D a -> D (a + k) -> 0 <= k -> a mod PAGE_SIZE + k < PAGE_SIZE ->
  load8 kernel_pml4 (u64 (va + k)) s = Ret (mem_get m0 (a + k)) s.
Proof.
  intros Hw (i & Hi & Hnz & ->) Ha Hak Hk Hr. destruct (w_slot _ Hw _ _ Hi Hnz) as (Hf & l & pt & Hl & Ht & He).
  pose proof (lookup_lt_Some _ _ _ Hi) as Hlt. rewrite (w_len _ Hw) in Hlt. rewrite land_fff.
  destruct (page_base_frame a Ha) as (_ & Hb & _). pose proof (HD _ Ha).
  replace (u64 (u64 _ + k)) with (u64 (slot_addr (Z.of_nat i) + (a mod PAGE_SIZE + k)))
    by (unfold u64; rewrite Z.add_mod_idemp_l by lia; f_equal; lia).
  destruct (slot_va (Z.of_nat i) (a mod PAGE_SIZE + k) ltac:(lia) ltac:(zdiv)) as (Hva & Hix & Hoff).
  unfold load8. destruct (leaf_value _ Hf) as (Hm & Hp & _).
  destruct (get_pte_tables (ms_mem (a_ms s)) kernel_pml4 (u64 (slot_addr (Z.of_nat i) + (a mod PAGE_SIZE + k))) l pt)
    as [Hg Hv]; rewrite ?Hva; [done|done|by apply (path_huge _ _ _ (w_path _ Hw))|].
  rewrite Hix, He in Hg, Hv. rewrite Hg, Hp, (Hv Hp), Hoff, Hm. rewrite <- frame_add_offset by (done || zdiv).
  f_equal. rewrite Hb. replace (a - _ + _) with (a + k) by lia. by apply (w_data _ Hw).
Qed.

(** ** Reads *)

(** The computation yields [v] and changes nothing but the window. *)
Definition reads {A} (m : acpiM A) (v : A) : Prop := forall s, win_ok s -> runs (m s) (fun a s' => a = v /\ keeps s s').

Lemma reads_ret {A} (v : A) : reads (mret v) v.
Proof. intros s Hs. split; [done|by apply keeps_refl]. Qed.

Lemma reads_bind {A B} (m : acpiM A) (k : A -> acpiM B) v w : reads m v -> reads (k v) w -> reads (mbind k m) w.
Proof.
  intros Hm Hk s Hs. eapply runs_bind; [by apply Hm|]. intros a s' [-> H1].
  eapply runs_weaken; [apply Hk; apply H1|]. intros b s2 [-> H2]. split; [done|]. by eapply keeps_trans.
Qed.

Lemma reads_for_each {A} (l : list Z) (f : A -> Z -> acpiM A) (g : A -> Z -> A) a :
  (forall a i, i ∈ l -> reads (f a i) (g a i)) -> reads (for_each l f a) (foldl g a l).
Proof.
  revert a. induction l as [|i l IH]; intros a H; cbn [for_each foldl]; [apply reads_ret|].
  eapply reads_bind; [apply H; set_solver|]. apply IH. set_solver.
Qed.

(** [n] bytes at [a] belong to the tables. *)
Definition covers (a n : Z) : Prop := forall i, 0 <= i < n -> D (a + i).

Lemma rdb_reads a off : D (a + off) -> 0 <= a -> 0 <= off -> reads (acpi_rdb kernel_pml4 a off) (mem_get m0 (a + off)).
Proof.
  intros Ha H1 H2 s Hs. pose proof (HD _ Ha). unfold acpi_rdb. rewrite u64_id by (unfold PAGE_SIZE in *; lia).
  destruct (map_field_spec s _ Hs Ha) as (p & s' & Hm & Hk & Hp). unfold mbind at 1, acpi_bind at 1. rewrite Hm.
  destruct p as [va|].
  - pose proof (load8_spec s' va (a + off) 0 (proj1 Hk) Hp Ha) as Hl. rewrite !Z.add_0_r in Hl.
    replace (u64 va) with va in Hl by (destruct Hp as (? & _ & _ & ->); by rewrite (u64_id (u64 _)) by apply u64_range).
    rewrite Hl; [split; done|done|lia|zdiv].
  - cbn. split; [exact Hp|]. apply Forall_app. split; [apply Hk|]. repeat constructor.
    exists (lits (str "[ACPI] mapping failure @ phys 0x") ++ Hex true 16 :: lits (str "+") ++ Udec false 0 :: lits [10; 13]).
    split_and!; [done|by repeat constructor|]. cbn. unfold is_u64, PAGE_SIZE in *. lia.
Qed.

Lemma rdb_covered a n off : covers a n -> 0 <= off < n -> reads (acpi_rdb kernel_pml4 a off) (mem_get m0 (a + off)).
Proof.
  intros H Ho. pose proof (HD _ (H 0 ltac:(lia))). apply rdb_reads; [by apply H| |]; unfold PAGE_SIZE in *; lia.
Qed.

Lemma rd32_reads a n off : covers a n -> 0 <= off -> off + 4 <= n -> n <= 2 ^ 32 ->
  reads (acpi_rd32 kernel_pml4 a off) (rd32 m0 (a + off)).
Proof.
  intros Hc H0 Hn Hm. rewrite rd32_bytes, <- !Z.add_assoc. unfold acpi_rd32. rewrite !u32_id by lia.
  repeat (eapply reads_bind; [by apply (rdb_covered a n); [done|lia]|]). apply reads_ret.
Qed.

Lemma rd64_reads a n off : covers a n -> 0 <= off -> off + 8 <= n -> n <= 2 ^ 32 ->
  reads (acpi_rd64 kernel_pml4 a off) (rd64 m0 (a + off)).
Proof.
  intros Hc H0 Hn Hm. rewrite rd64_words, <- Z.add_assoc. unfold acpi_rd64. rewrite u32_id by lia.
  repeat (eapply reads_bind; [by apply (rd32_reads a n); [done|lia..]|]). apply reads_ret.
Qed.

Lemma checksum_reads a len : covers a len -> reads (acpi_checksum_at kernel_pml4 a len) (sum_ok m0 a len).
Proof.
  intros Hc. unfold acpi_checksum_at. eapply reads_bind.
  - apply (reads_for_each _ _ (fun s i => u8 (s + mem_get m0 (a + i)))). intros s i Hi%elem_of_range.
    eapply reads_bind; [by apply (rdb_covered a len)|apply reads_ret].
  - rewrite (foldl_sum _ _ 0). apply reads_ret.
Qed.

Lemma field_reads a k off n : covers a k -> 0 <= off -> off + n <= k ->
  reads (read_field kernel_pml4 a off n) (mem_read m0 (a + off) n).
Proof.
  intros Hc H0 Hn. unfold read_field, mem_read.
  rewrite <- (app_nil_l (_ <$> _)), <- foldl_snoc. apply reads_for_each. intros l i Hi%elem_of_range.
  rewrite <- Z.add_assoc. eapply reads_bind; [by apply (rdb_covered a k); [done|lia]|apply reads_ret].
Qed.

Lemma sdt_reads a : covers a 36 -> reads (acpi_read_sdt kernel_pml4 a) (sdt_at m0 a).
Proof.
  intros Hc. unfold acpi_read_sdt.
  repeat (eapply reads_bind; [first [by apply (rd32_reads a 36); [done|lia..]|by apply (rdb_covered a 36); [done|lia]
    |by apply (field_reads a 36); [done|lia..]]|]).
  rewrite Z.add_0_r. apply reads_ret.
Qed.

(** ** Pages that are mapped already *)

Definition mapped (s : acpi) (a : Z) : Prop := page_base a ∈ win_phys s.

Lemma mapped_keeps s s' a : D a -> mapped s a -> keeps s s' -> mapped s' a.
Proof.
  intros Ha (i & Hi)%list_elem_of_lookup (_ & _ & Hm). destruct (page_base_frame a Ha) as (_ & _ & ?).
  eapply list_elem_of_lookup_2. by apply Hm.
Qed.

(** A mapped page is found without a change. *)
Lemma map_field_mapped s a : D a -> mapped s a -> exists va, acpi_map_field kernel_pml4 a s = Ret (Some va) s /\ points s va a.
Proof.
  intros Ha Hm. destruct (page_base_frame a Ha) as (_ & _ & Hnz).
  destruct (first_index_is_Some (Z.eqb (page_base a)) (win_phys s) (page_base a) Hm (Z.eqb_refl _)) as [i Hi].
  unfold acpi_map_field, acpi_ensure, mbind, acpi_bind, get. rewrite Hi. cbn [negb]. rewrite Hi.
  eexists. split; [done|]. apply first_index_Some in Hi as (q & Hq & <-%Z.eqb_eq & _). by exists i.
Qed.

Lemma points_mapped s va a : points s va a -> mapped s a.
Proof. intros (i & Hi & _). by eapply list_elem_of_lookup_2. Qed.

(** A computation that reads the byte at [a], among others. *)
Definition reads_touch {A} (m : acpiM A) (v : A) (a : Z) : Prop :=
  forall s, win_ok s -> runs (m s) (fun x s' => x = v /\ keeps s s' /\ mapped s' a).

Lemma touch_bind {A B} (m : acpiM A) (k : A -> acpiM B) v w a : D a -> reads_touch m v a -> reads (k v) w ->
  reads_touch (mbind k m) w a.
Proof.
  intros Ha Hm Hk s Hs. eapply runs_bind; [by apply Hm|]. intros x s' (-> & H1 & H2).
  eapply runs_weaken; [apply Hk; apply H1|]. intros y s2 [-> H3]. split_and!; [done|by eapply keeps_trans|by eapply mapped_keeps].
Qed.

Lemma rdb_touch a off : D (a + off) -> 0 <= a -> 0 <= off ->
  reads_touch (acpi_rdb kernel_pml4 a off) (mem_get m0 (a + off)) (a + off).
Proof.
  intros Ha H1 H2 s Hs. pose proof (rdb_reads a off Ha H1 H2 s Hs) as Hr. pose proof (HD _ Ha). unfold acpi_rdb in *.
  rewrite u64_id in * by (unfold PAGE_SIZE in *; lia).
  destruct (map_field_spec s _ Hs Ha) as (p & s' & Hm & Hk & Hp). unfold mbind at 1, acpi_bind at 1 in Hr.
  unfold mbind at 1, acpi_bind at 1. rewrite Hm in *. destruct p as [va|]; [|done].
  unfold load8 in *. destruct (has _ _); [|done]. cbn in *. destruct Hr. split_and!; [done..|]. by eapply points_mapped.
Qed.

Lemma checksum_touch a len : covers a len -> 0 < len -> reads_touch (acpi_checksum_at kernel_pml4 a len) (sum_ok m0 a len) a.
Proof.
  intros Hc Hl. pose proof (Hc 0 ltac:(lia)) as H0. rewrite Z.add_0_r in H0. pose proof (HD _ H0).
  assert (Hg : forall s i, 0 <= i < len -> reads (b ← acpi_rdb kernel_pml4 a i; mret (u8 (s + b))) (u8 (s + mem_get m0 (a + i)))).
  { intros s i Hi. eapply reads_bind; [by apply (rdb_covered a len)|apply reads_ret]. }
  unfold acpi_checksum_at. eapply touch_bind; [done| |].
  - rewrite range_cons by lia. cbn [for_each]. eapply touch_bind; [done| |].
    + eapply touch_bind; [done| |apply reads_ret]. pose proof (rdb_touch a 0) as Ht. rewrite !Z.add_0_r in Ht.
      apply Ht; unfold PAGE_SIZE in *; [done|lia|lia].
    + apply (reads_for_each _ _ (fun s i => u8 (s + mem_get m0 (a + i)))). intros s i Hi%elem_of_range. apply Hg. lia.
  - unfold sum_ok, mem_read. rewrite (range_cons 0) by lia. cbn [fmap list_fmap foldr]. rewrite foldl_sum, Z.add_0_r. apply reads_ret.
Qed.

(** ** Signatures *)

Definition in_page (t : Z) : Prop := t mod PAGE_SIZE + 12 <= PAGE_SIZE.

Lemma mem_read_cons m a n : 0 < n -> mem_read m a n = mem_get m a :: mem_read m (a + 1) (n - 1).
Proof.
  intros Hn. unfold mem_read. rewrite range_cons by lia. cbn [fmap list_fmap]. rewrite Z.add_0_r. f_equal.
  change (0 + 1) with 1. replace n with (1 + (n - 1)) at 1 by lia. rewrite (range_shift 1 (n - 1)), <- list_fmap_compose.
  apply list_fmap_ext. intros _ x _. unfold compose. f_equal. lia.
Qed.

Lemma sig_match_spec s va t sig : win_ok s -> points s va t -> covers t 36 -> in_page t -> forall k, 0 <= k ->
  k + Z.of_nat (length sig) <= 12 ->
  sig_match kernel_pml4 (u64 (va + k)) sig s = Ret (bool_decide (mem_read m0 (t + k) (Z.of_nat (length sig)) = sig)) s.
Proof.
  intros Hw Hp Hc Hi. induction sig as [|c sig IH]; intros k Hk Hl; cbn [sig_match length]; [done|].
  cbn [length] in Hl. unfold mbind, acpi_bind. pose proof (Hc 0 ltac:(lia)) as H0. rewrite Z.add_0_r in H0.
  rewrite (load8_spec s va t k Hw Hp H0 (Hc k ltac:(lia))) by (unfold in_page in *; lia).
  rewrite mem_read_cons by lia. replace (Z.of_nat (S (length sig)) - 1) with (Z.of_nat (length sig)) by lia.
  destruct (Z.eqb_spec (mem_get m0 (t + k)) c) as [<-|Hne].
  - replace (u64 (u64 (va + k) + 1)) with (u64 (va + (k + 1))) by (unfold u64; rewrite Z.add_mod_idemp_l by lia; f_equal; lia).
    rewrite IH by lia. rewrite Z.add_assoc. f_equal. apply bool_decide_ext. split; [by intros ->|by intros [= ->]].
  - f_equal. rewrite bool_decide_eq_false_2; [done|]. by intros [= ? ?].
Qed.

Lemma has_signature_spec s va t sig : win_ok s -> points s va t -> covers t 36 -> in_page t -> length sig = 4%nat ->
  has_signature kernel_pml4 (Some va) sig s = Ret (bool_decide (mem_read m0 t 4 = sig)) s.
Proof.
  intros Hw Hp Hc Hi Hl. unfold has_signature. rewrite firstn_all2 by lia.
  pose proof (sig_match_spec s va t sig Hw Hp Hc Hi 0 ltac:(lia) ltac:(lia)) as H. rewrite !Z.add_0_r, Hl in H.
  replace (u64 va) with va in H by (destruct Hp as (? & _ & _ & ->); by rewrite (u64_id (u64 _)) by apply u64_range). done.
Qed.
End Window.
