(* ===== verification/AcpiTables.v ===== *)
(** * The registry and the MADT

  [acpi_init] registers the tables the physical bytes define, [acpi_find_table] finds
  them, and [acpi_get_madt] visits the entries of the MADT ([AcpiSpec] for the reads). *)
From S2P Require Import Prelude Pmm PhysMem Vmm KernelMap Console Acpi AcpiSpec.

(** ** The tables of the firmware *)

Definition table_valid (m : mem) (t : Z) : bool :=
  negb (t =? 0) && (36 <=? rd32 m (t + 4)) && sum_ok m t (rd32 m (t + 4)).

Definition list_entry (m : mem) (lst sz i : Z) : Z :=
  if sz =? 8 then rd64 m (lst + (36 + i * 8)) else rd32 m (lst + (36 + i * 4)).

(** The entries a list of [len] bytes with entries of [sz] bytes is taken to have:
  those behind its 36-byte header, at most 64.  The subtraction is one of 32-bit
  numbers: a list shorter than its header counts as 64 entries. *)
Definition listed (len sz : Z) : Z := Z.min 64 ((len - 36) mod 2 ^ 32 / sz).

Definition list_entries (m : mem) (lst sz : Z) : list Z := list_entry m lst sz <$> range 0 (listed (rd32 m (lst + 4)) sz).

(** The list the root pointer names, and the size of its entries; 0 for none. *)
Definition root_list (m : mem) (rsdp : Z) : Z * Z :=
  if (2 <=? mem_get m (rsdp + 15)) && negb (rd64 m (rsdp + 24) =? 0) then (rd64 m (rsdp + 24), 8)
  else if negb (rd32 m (rsdp + 16) =? 0) then (rd32 m (rsdp + 16), 4) else (0, 0).

(** The registry, [None] when there is no ACPI. *)
Definition registry (m : mem) (rsdp : Z) : option (list Z) :=
  if (rsdp =? 0) || negb (sum_ok m rsdp (if 2 <=? mem_get m (rsdp + 15) then 36 else 20)) then None else
  let '(lst, sz) := root_list m rsdp in
  if (lst =? 0) || negb (sum_ok m lst (rd32 m (lst + 4))) then None
  else Some (filter (fun t => table_valid m t = true) (list_entries m lst sz)).

Definition with_signature (m : mem) (sig : list Z) (l : list Z) : list Z := filter (fun t => mem_read m t 4 = sig) l.

Definition revision (m : mem) (rsdp : Z) (l : list Z) : Z :=
  match with_signature m (str "FACP") l with
  | t :: _ => mem_get m (t + 8)
  | [] => if (root_list m rsdp).2 =? 8 then 2 else 1
  end.

(** The entries of the MADT that are reported: type, length and offset. *)
Fixpoint madt_entries (fuel : nat) (m : mem) (t len off : Z) : list (Z * Z * Z) :=
  match fuel with
  | O => []
  | S fuel =>
      let type := mem_get m (t + off) in
      let elen := mem_get m (t + (off + 1)) in
      if (off + 2 <=? len) && (2 <=? elen) && (off + elen <=? len)
      then (if type <=? 2 then [(type, elen, off)] else []) ++ madt_entries fuel m t len (off + elen)
      else []
  end.

Section Tables.
Context (kernel_pml4 : Z) (m0 : mem) (D : Z -> Prop).
Context (HD : forall x, D x -> PAGE_SIZE <= x < 2 ^ 52).

Local Notation win_ok := (win_ok kernel_pml4 m0 D).
Local Notation keeps := (keeps kernel_pml4 m0 D).
Local Notation reads := (reads kernel_pml4 m0 D).

(** Where the firmware put a table: within [D], its header's first fields in one page. *)
Record placed (t : Z) : Prop := {
  pl_header : covers D t 36;
  pl_body : 36 <= rd32 m0 (t + 4) -> covers D t (rd32 m0 (t + 4));
  pl_page : in_page t
}.

(** Where it put everything [acpi_init] looks at. *)
Record firmware (rsdp : Z) : Prop := {
  fw_rsdp : rsdp <> 0 -> covers D rsdp 36;
  fw_header : (root_list m0 rsdp).1 <> 0 -> covers D (root_list m0 rsdp).1 36;
  fw_list : (root_list m0 rsdp).1 <> 0 -> covers D (root_list m0 rsdp).1 (rd32 m0 ((root_list m0 rsdp).1 + 4));
  fw_entries : (root_list m0 rsdp).1 <> 0 ->
    covers D (root_list m0 rsdp).1 (36 + 8 * listed (rd32 m0 ((root_list m0 rsdp).1 + 4)) (root_list m0 rsdp).2);
  fw_tables : forall t, t ∈ list_entries m0 (root_list m0 rsdp).1 (root_list m0 rsdp).2 -> t <> 0 -> placed t
}.

(** The registry holds [l] in a state reached from [s0]. *)
Record holds (s0 s : acpi) (l : list Z) : Prop := {
  h_win : win_ok s;
  h_len : length (g_tables s) = 64%nat;
  h_take : take (length l) (g_tables s) = l;
  h_mapped : Forall (fun t => t <> 0 /\ placed t /\ 36 <= rd32 m0 (t + 4) /\ mapped s t) l;
  h_rsdp : g_rsdp_phys s = g_rsdp_phys s0
}.

Lemma runs_reads {A B} (m : acpiM A) (k : A -> acpiM B) v s R : reads m v -> win_ok s ->
  (forall s', keeps s s' -> runs (k v s') R) -> runs (mbind k m s) R.
Proof. intros Hm Hs Hk. eapply runs_bind; [by apply Hm|]. intros a s' [-> H]. by apply Hk. Qed.

Lemma win_ok_ext s s' : win_phys s' = win_phys s -> a_ms s' = a_ms s -> outputs_ok s' -> win_ok s -> win_ok s'.
Proof. intros H1 H2 H3 [? ? ? ? _]. split; rewrite ?H1, ?H2; done. Qed.

Lemma emit_ok s o : output_ok o -> outputs_ok s -> outputs_ok (set_out s (a_out s ++ [o])).
Proof. intros Ho Hs. apply Forall_app. split; [done|by constructor]. Qed.

Lemma emit_holds s0 s l o : output_ok o -> holds s0 s l -> holds s0 (set_out s (a_out s ++ [o])) l.
Proof.
  intros Ho [Hw ? ? ? ?]. split; try done. apply (win_ok_ext s); [done|done| |done]. apply emit_ok; [done|apply Hw].
Qed.

Lemma keeps_fields s s' : keeps s s' -> g_tables s' = g_tables s /\ g_rsdp_phys s' = g_rsdp_phys s /\ g_table_count s' = g_table_count s.
Proof. intros (_ & -> & _). done. Qed.

Lemma keeps_holds s0 s s' l : keeps s s' -> holds s0 s l -> holds s0 s' l.
Proof.
  intros Hk [Hw H1 H2 H3 H4]. destruct (keeps_fields _ _ Hk) as (E1 & E2 & _). split; rewrite ?E1, ?E2; try done; [apply Hk|].
  eapply Forall_impl; [exact H3|]. intros t (? & Hp & ? & ?). split_and!; try done. eapply (mapped_keeps _ _ D HD); try done.
  pose proof (pl_header _ Hp 0 ltac:(lia)). by rewrite Z.add_0_r in *.
Qed.

Lemma typed_lits pre items args : typed (lits pre ++ items) args <-> typed items args.
Proof. induction pre as [|c pre IH]; [done|]. cbn. destruct args; exact IH. Qed.

Lemma text_lits l : concat (item_text <$> lits l) = l.
Proof. induction l as [|c l IH]; cbn; [done|by f_equal]. Qed.

(** A message with a header's signature, printed by four [%c]. *)
Lemma signature_call_ok pre post m t : forallb (fun c => negb (c =? CH_PERCENT)) (pre ++ post) = true ->
  call_ok (pre ++ str "%c%c%c%c" ++ post) (KInt <$> mem_read m t 4).
Proof.
  intros H. assert (Hlit : forall l, forallb (fun c => negb (c =? CH_PERCENT)) l = true -> Forall item_ok (lits l)).
  { intros l Hl. apply Forall_fmap, Forall_forall. intros c Hc. rewrite forallb_forall in Hl.
    specialize (Hl c (proj1 (list_elem_of_In _ _) Hc)). cbn in *. by destruct (Z.eqb_spec c CH_PERCENT). }
  rewrite forallb_app in H. apply andb_true_iff in H as [H1 H2].
  exists (lits pre ++ [Chr; Chr; Chr; Chr] ++ lits post). split_and!.
  - rewrite !fmap_app, !concat_app, !text_lits. done.
  - apply Forall_app. split; [by apply Hlit|]. apply Forall_app. split; [by repeat constructor|by apply Hlit].
  - apply typed_lits. rewrite <- (app_nil_r (lits post)).
    change (KInt <$> mem_read m t 4) with [KInt (mem_get m (t + 0)); KInt (mem_get m (t + 1)); KInt (mem_get m (t + 2)); KInt (mem_get m (t + 3))].
    cbn [app typed].
    repeat (split; [apply mem_get_range|]). by apply typed_lits.
Qed.

(** ** Registering a table *)

Lemma list_entry_reads lst sz i : sz = 8 \/ sz = 4 -> 0 <= i -> i < 64 -> covers D lst (36 + 8 * (i + 1)) ->
  reads (if sz =? 8 then acpi_rd64 kernel_pml4 lst (u32 (36 + u32 (i * 8))) else acpi_rd32 kernel_pml4 lst (u32 (36 + u32 (i * 4))))
    (list_entry m0 lst sz i).
Proof.
  intros Hsz H0 Hi Hc. unfold list_entry. rewrite !(u32_id (i * _)), !u32_id by lia.
  destruct Hsz as [-> | ->]; cbn [Z.eqb Pos.eqb].
  - apply (rd64_reads _ _ _ HD _ _ _ Hc); lia.
  - apply (rd32_reads _ _ _ HD _ _ _ Hc); lia.
Qed.

Lemma register_entry_spec s0 s l lst sz i : holds s0 s l -> (length l < 64)%nat -> sz = 8 \/ sz = 4 -> 0 <= i < 64 ->
  covers D lst (36 + 8 * (i + 1)) -> (list_entry m0 lst sz i <> 0 -> placed (list_entry m0 lst sz i)) ->
  runs (register_entry kernel_pml4 lst sz (Z.of_nat (length l)) i s) (fun n s' =>
    let t := list_entry m0 lst sz i in
    let l' := if table_valid m0 t then l ++ [t] else l in n = Z.of_nat (length l') /\ holds s0 s' l').
Proof.
  intros Hh Hlen Hsz Hi Hc Hpl. unfold register_entry. set (t := list_entry m0 lst sz i) in *.
  eapply runs_reads; [apply list_entry_reads; try done; lia|apply Hh|]. intros s1 Hk1. fold t.
  pose proof (keeps_holds _ _ _ _ Hk1 Hh) as Hh1. unfold table_valid.
  destruct (Z.eqb_spec t 0) as [->|Hnz]; cbn [negb andb]; [by split|]. destruct (Hpl Hnz) as [Hc36 Hbody Hpage].
  eapply runs_reads; [by apply (sdt_reads _ _ _ HD)|apply Hh1|]. intros s2 Hk2. pose proof (keeps_holds _ _ _ _ Hk2 Hh1) as Hh2.
  cbn [sdt_length sdt_at]. destruct (Z.ltb_spec (rd32 m0 (t + 4)) 36) as [Hs|Hl].
  { rewrite (proj2 (Z.leb_gt 36 _) Hs). by split. }
  rewrite (proj2 (Z.leb_le 36 _) Hl). cbn [andb].
  eapply runs_bind; [apply (checksum_touch kernel_pml4 m0 D HD t (rd32 m0 (t + 4))); [by apply Hbody|lia|apply Hh2]|]. intros ok s3 (-> & Hk3 & Hm3).
  pose proof (keeps_holds _ _ _ _ Hk3 Hh2) as Hh3. destruct (sum_ok m0 t _); cbn [negb].
  - cbn [runs]. destruct Hh3 as [Hw3 H1 H2 H3 H4]. rewrite length_app. cbn [length]. split; [lia|].
    split; cbn [set_tables g_tables g_rsdp_phys]; [by apply (win_ok_ext s3); [..|apply Hw3|]|by rewrite length_zset| | |done].
    + rewrite length_app. cbn [length]. unfold zset. rewrite Nat2Z.id. rewrite Nat.add_1_r.
      erewrite take_S_r by (apply list_lookup_insert_eq; lia). rewrite take_insert_ge by lia. by rewrite H2.
    + apply Forall_app. split; [done|]. repeat constructor; done.
  - cbn [runs]. split; [done|]. apply emit_holds; [|done]. cbn [signature sdt_at].
    by apply (signature_call_ok (str "[ACPI] table '") (str "' checksum FAILED" ++ [10; 13])).
Qed.

Lemma register_all s0 lst sz : sz = 8 \/ sz = 4 -> forall n lo s l, 0 <= lo -> (length l <= Z.to_nat lo)%nat -> lo + Z.of_nat n <= 64 ->
  covers D lst (36 + 8 * (lo + Z.of_nat n)) ->
  (forall i, lo <= i < lo + Z.of_nat n -> list_entry m0 lst sz i <> 0 -> placed (list_entry m0 lst sz i)) -> holds s0 s l ->
  runs (for_each (range lo (lo + Z.of_nat n)) (register_entry kernel_pml4 lst sz) (Z.of_nat (length l)) s) (fun k s' =>
    let l' := l ++ filter (fun t => table_valid m0 t = true) (list_entry m0 lst sz <$> range lo (lo + Z.of_nat n)) in
    k = Z.of_nat (length l') /\ holds s0 s' l').
Proof.
  intros Hsz. induction n as [|n IH]; intros lo s l H0 Hl Hn Hc Hp Hh.
  { rewrite range_nil by lia. cbn. by rewrite app_nil_r. }
  rewrite range_cons by lia. cbn [for_each fmap list_fmap]. set (t := list_entry m0 lst sz lo).
  eapply runs_bind; [apply (register_entry_spec s0 s l lst sz lo); try done; try lia|].
  { intros i Hi. apply Hc. lia. }
  { apply Hp. lia. }
  fold t. cbn zeta. intros k s1 [-> Hh1]. replace (lo + Z.of_nat (S n)) with (lo + 1 + Z.of_nat n) in * by lia.
  eapply runs_weaken; [apply (IH (lo + 1) s1 (if table_valid m0 t then l ++ [t] else l)); try done; try lia|].
  - case_match; rewrite ?length_app; cbn [length]; lia.
  - intros i Hi. apply Hp. lia.
  - cbn zeta. intros k s2 [-> Hh2]. rewrite filter_cons. destruct (table_valid m0 t).
    + rewrite decide_True by done. rewrite <- app_assoc in *. done.
    + by rewrite decide_False by done.
Qed.

(** ** Finding tables *)

Definition found (s : acpi) (p : option Z) (o : option Z) : Prop :=
  match o with Some t => exists va, p = Some va /\ points s va t | None => p = None end.

Lemma holds_lookup s0 s l i t : holds s0 s l -> l !! i = Some t -> zget 0 (g_tables s) (Z.of_nat i) = t.
Proof.
  intros Hh Hi. rewrite zget_lookup, Nat2Z.id. rewrite <- (h_take _ _ _ Hh) in Hi.
  apply lookup_take_Some in Hi as [-> _]. done.
Qed.

(** The table with its signature test, in a registry. *)
Lemma visit_spec s0 s l i t sig : holds s0 s l -> l !! i = Some t -> length sig = 4%nat ->
  exists va, acpi_table_ptr kernel_pml4 (zget 0 (g_tables s) (Z.of_nat i)) s = Ret (Some va) s /\ points s va t /\
    has_signature kernel_pml4 (Some va) sig s = Ret (bool_decide (mem_read m0 t 4 = sig)) s.
Proof.
  intros Hh Hi Hl. rewrite (holds_lookup _ _ _ _ _ Hh Hi). pose proof (h_mapped _ _ _ Hh) as Hm. rewrite Forall_forall in Hm.
  destruct (Hm t) as (_ & [Hc _ Hp] & _ & Hmap); [by eapply list_elem_of_lookup_2|].
  pose proof (Hc 0 ltac:(lia)) as H0. rewrite Z.add_0_r in H0.
  destruct (map_field_mapped kernel_pml4 D HD s t H0 Hmap) as (va & E & Hv). exists va. split_and!; [done|done|].
  by apply (has_signature_spec kernel_pml4 m0 D HD); [apply Hh|..].
Qed.

Lemma find_spec s0 s l sig index : holds s0 s l -> length sig = 4%nat -> forall k i c, l = take i l ++ k -> length (take i l) = i -> c <= index ->
  exists p, find_loop kernel_pml4 (range (Z.of_nat i) (Z.of_nat (length l))) sig index c s = Ret p s /\
    found s p (with_signature m0 sig k !! Z.to_nat (index - c)).
Proof.
  intros Hh Hl. induction k as [|t k IH]; intros i c Hk Hi Hc.
  { apply (f_equal length) in Hk. rewrite length_app, Hi in Hk. cbn in Hk. rewrite range_nil by lia. by exists None. }
  assert (Hlt : l !! i = Some t) by (rewrite Hk, lookup_app_r, Hi, Nat.sub_diag by lia; done).
  pose proof (lookup_lt_Some _ _ _ Hlt). rewrite range_cons by lia. cbn [find_loop]. unfold mbind, acpi_bind, get.
  destruct (visit_spec s0 s l i t sig Hh Hlt Hl) as (va & -> & Hp & ->).
  replace (Z.of_nat i + 1) with (Z.of_nat (S i)) by lia.
  assert (Hk' : l = take (S i) l ++ k).
  { rewrite (take_S_r _ _ _ Hlt), <- app_assoc. done. }
  assert (Hi' : length (take (S i) l) = S i) by (rewrite length_take; lia).
  unfold with_signature. rewrite filter_cons. case_bool_decide as E; case_decide; try done.
  - destruct (Z.eqb_spec c index) as [->|Hne].
    + rewrite Z.sub_diag. exists (Some va). split; [done|]. by exists va.
    + destruct (IH (S i) (c + 1) Hk' Hi' ltac:(lia)) as (p & Hf & Hr). exists p. split; [done|].
      replace (Z.to_nat (index - c)) with (S (Z.to_nat (index - (c + 1)))) by lia. done.
  - exact (IH (S i) c Hk' Hi' Hc).
Qed.

Lemma find_table_spec s0 s l sig index : holds s0 s l -> g_table_count s = Z.of_nat (length l) -> length sig = 4%nat -> 0 <= index ->
  exists p, acpi_find_table kernel_pml4 sig index s = Ret p s /\ found s p (with_signature m0 sig l !! Z.to_nat index).
Proof.
  intros Hh Hn Hl Hi. unfold acpi_find_table, mbind, acpi_bind, get. rewrite Hn.
  destruct (find_spec s0 s l sig index Hh Hl l 0 0 eq_refl eq_refl Hi) as (p & H1 & H2). exists p. by rewrite Z.sub_0_r in H2.
Qed.

(** The address shows the first bytes of table [t]. *)
Definition shows (s : acpi) (va t : Z) : Prop :=
  forall k, 0 <= k < 12 -> load8 kernel_pml4 (u64 (va + k)) s = Ret (mem_get m0 (t + k)) s.

Lemma points_shows s va t : win_ok s -> placed t -> points s va t -> shows s va t.
Proof.
  intros Hw [Hc _ Hp] Hv k Hk. pose proof (Hc 0 ltac:(lia)) as H0. rewrite Z.add_0_r in H0. unfold in_page in Hp.
  apply (load8_spec _ _ _ HD); [done|done|done|apply Hc; lia|lia..].
Qed.

(** ** Initialisation *)

(** The state at boot: the window is empty; no slot of it shares a huge page. *)
Record boot_ok (s : acpi) : Prop := {
  b_win : win_phys s = replicate 16 0;
  b_vm : vm_ok (a_ms s);
  b_nodup : NoDup (tables (ms_mem (a_ms s)) kernel_pml4 (va_path ACPI_MAP_WIN));
  b_frames : Forall (table_ok (a_ms s)) (tables (ms_mem (a_ms s)) kernel_pml4 (va_path ACPI_MAP_WIN));
  b_root : has (entry (ms_mem (a_ms s)) kernel_pml4 (PML4_IDX ACPI_MAP_WIN)) VMM_HUGE = false;
  b_data : forall x, D x -> mem_get (ms_mem (a_ms s)) x = mem_get m0 x /\ x / PAGE_SIZE ∉ free_set (ms_pmm (a_ms s)) /\
    forall u, u ∈ tables (ms_mem (a_ms s)) kernel_pml4 (va_path ACPI_MAP_WIN) -> ~ in_table u x;
  b_tables : length (g_tables s) = 64%nat;
  b_out : outputs_ok s
}.

(** No page of the window is mapped. *)
Definition window_free (s : acpi) : bool :=
  forallb (fun i => vmm_get_pte (ms_mem (a_ms s)) kernel_pml4 (slot_addr i) =? 0) (range 0 ACPI_MAP_PAGES).

Lemma guard_spec s idx : exists o, window_guard kernel_pml4 idx s = Ret o s /\
  match o with
  | None => forallb (fun i => vmm_get_pte (ms_mem (a_ms s)) kernel_pml4 (slot_addr i) =? 0) idx = true
  | Some v => (exists i, v = slot_addr i) /\ forallb (fun i => vmm_get_pte (ms_mem (a_ms s)) kernel_pml4 (slot_addr i) =? 0) idx = false
  end.
Proof.
  induction idx as [|i idx (o & E & H)]; cbn [window_guard forallb]; [by exists None|]. unfold mbind, acpi_bind, get.
  destruct (_ =? 0); cbn [negb andb]; [by exists o|]. exists (Some (slot_addr i)). eauto.
Qed.

Lemma boot_win s : boot_ok s -> window_free s = true -> win_ok s.
Proof.
  intros Hb Hf. unfold window_free in Hf. rewrite forallb_forall in Hf.
  specialize (Hf 0 ltac:(apply list_elem_of_In, elem_of_range; unfold ACPI_MAP_PAGES; lia)). apply Z.eqb_eq in Hf.
  split; [by rewrite (b_win _ Hb)| |apply Hb| |apply Hb].
  - split; [apply Hb..|]. by apply unmapped_no_huge; [|apply Hb].
  - intros i p Hi Hp. rewrite (b_win _ Hb) in Hi. by apply lookup_replicate in Hi as [-> _].
Qed.

Lemma entry_count_listed len sz : sz = 8 \/ sz = 4 -> entry_count len sz = listed len sz /\ 0 <= listed len sz <= 64.
Proof.
  intros Hsz. unfold entry_count, listed, ACPI_MAX_TABLES. fold (u32 (len - 36)). pose proof (u32_range (len - 36)).
  assert (0 <= u32 (len - 36) / sz) by (apply Z.div_pos; lia). repeat case_match; bool_to_prop; lia.
Qed.

Lemma message_ok fmt items args : fmt = concat (item_text <$> items) -> Forall item_ok items -> typed items args ->
  output_ok (Kprintf fmt args).
Proof. intros. by exists items. Qed.

(** Where the root pointer leads, as the code reads it. *)
Lemma list_choice m rsdp : (if (2 <=? mem_get m (rsdp + 15)) && negb (rd64 m (rsdp + 24) =? 0) then (rd64 m (rsdp + 24), 8)
    else if negb (rd32 m (rsdp + 16) =? 0) then (rd32 m (rsdp + 16), 4) else (0, 0)) = root_list m rsdp /\
  ((root_list m rsdp).1 <> 0 -> (root_list m rsdp).2 = 8 \/ (root_list m rsdp).2 = 4).
Proof. split; [done|]. unfold root_list. repeat case_match; cbn; tauto. Qed.

(** What an initialisation that found the registry [o] leaves. *)
Definition outcome (rsdp : Z) (o : option (list Z)) (r : Z) (s : acpi) : Prop :=
  g_rsdp_phys s = rsdp /\ outputs_ok s /\
  match o with
  | None => r = -1 /\ g_table_count s = 0
  | Some l => r = 0 /\ g_table_count s = Z.of_nat (length l) /\ g_acpi_version s = revision m0 rsdp l /\ holds s s l
  end.

(** The registry only depends on the list, the window and the memory. *)
Lemma holds_ext s0 s s' l : holds s0 s l -> win_phys s' = win_phys s -> a_ms s' = a_ms s -> g_tables s' = g_tables s ->
  outputs_ok s' -> holds s' s' l.
Proof.
  intros [Hw H1 H2 H3 H4] E1 E2 E4 E3. split; rewrite ?E4; try done.
  - by apply (win_ok_ext s).
  - eapply Forall_impl; [exact H3|]. unfold mapped. by rewrite E1.
Qed.

Lemma fail_outcome rsdp s fmt items args : win_ok s -> g_rsdp_phys s = rsdp -> g_table_count s = 0 ->
  fmt = concat (item_text <$> items) -> Forall item_ok items -> typed items args ->
  runs ((emit (Kprintf fmt args);; mret (-1)) s) (outcome rsdp None).
Proof.
  intros Hw Hr Hn H1 H2 H3. cbn. split_and!; try done. apply emit_ok; [by eapply message_ok|apply Hw].
Qed.

Lemma version_spec s rsdp l : holds s s l -> g_table_count s = Z.of_nat (length l) ->
  exists p, acpi_find_table kernel_pml4 (str "FACP") 0 s = Ret p s /\
    (match p with Some p => load8 kernel_pml4 (u64 (p + 8)) | None => mret (if (root_list m0 rsdp).2 =? 8 then 2 else 1) end) s
      = Ret (revision m0 rsdp l) s /\ 0 <= revision m0 rsdp l < 256.
Proof.
  intros Hh Hn. destruct (find_table_spec s s l (str "FACP") 0 Hh Hn eq_refl ltac:(lia)) as (p & E & Hf). exists p.
  split; [done|]. unfold revision. destruct (with_signature m0 (str "FACP") l) as [|t k] eqn:Ew; unfold found in Hf; simpl in Hf.
  - subst p. split; [done|]. case_match; lia.
  - destruct Hf as (va & -> & Hv). pose proof (h_mapped _ _ _ Hh) as Hm. rewrite Forall_forall in Hm.
    destruct (Hm t) as (_ & Hp & _).
    { assert (Ht : t ∈ with_signature m0 (str "FACP") l) by (rewrite Ew; left). by apply list_elem_of_filter in Ht as [_ ?]. }
    split; [by apply (points_shows s va t (h_win _ _ _ Hh) Hp Hv); lia|apply mem_get_range].
Qed.

Lemma scan_spec rsdp s : firmware rsdp -> win_ok s -> length (g_tables s) = 64%nat -> g_rsdp_phys s = rsdp -> g_table_count s = 0 ->
  let '(lst, sz) := root_list m0 rsdp in lst <> 0 ->
  runs (scan_list kernel_pml4 lst sz s) (outcome rsdp (if sum_ok m0 lst (rd32 m0 (lst + 4))
    then Some (filter (fun t => table_valid m0 t = true) (list_entries m0 lst sz)) else None)).
Proof.
  intros [_ Hc36 Hclen Hcent Hpl] Hw Hlen Hr Hn. destruct (list_choice m0 rsdp) as [_ Hsz].
  destruct (root_list m0 rsdp) as [lst sz] eqn:Eroot. cbn [fst snd] in *. intros Hnz. specialize (Hsz Hnz). unfold scan_list.
  eapply runs_reads; [by apply (sdt_reads _ _ _ HD), Hc36|done|]. intros s1 Hk1. cbn [sdt_length sdt_at].
  eapply runs_reads; [by apply (checksum_reads _ _ _ HD), Hclen|apply Hk1|]. intros s2 Hk2.
  assert (Hk : keeps s s2) by by eapply keeps_trans. destruct (keeps_fields _ _ Hk) as (E1 & E2 & E3).
  destruct (sum_ok m0 lst _); cbn [negb].
  2:{ pose proof (signature_call_ok (str "[ACPI] ") (str " checksum FAILED" ++ [10; 13]) m0 lst eq_refl) as (items & H1 & H2 & H3).
      eapply fail_outcome; [apply Hk2|congruence|congruence|exact H1|exact H2|exact H3]. }
  destruct (entry_count_listed (rd32 m0 (lst + 4)) sz Hsz) as [-> Hcount]. unfold list_entries in *.
  set (cnt := listed _ _) in *.
  assert (Hh2 : holds s2 s2 []).
  { split; [apply Hk2|by rewrite E1|done|done|done]. }
  eapply runs_bind.
  { pose proof (register_all s2 lst sz Hsz (Z.to_nat cnt) 0 s2 [] ltac:(lia) ltac:(cbn; lia) ltac:(lia)) as Hall.
    rewrite Z2Nat.id in Hall by lia. apply Hall; [by apply Hcent| |done].
    intros i Hi. apply Hpl. apply list_elem_of_fmap. exists i. split; [done|]. apply elem_of_range. lia. }
  cbn zeta. intros n s3 [-> Hh3]. rewrite app_nil_l in *. set (l := filter _ _) in *.
  set (s4 := set_count s3 (Z.of_nat (length l))).
  assert (Hh4 : holds s4 s4 l) by (eapply holds_ext; [exact Hh3|done|done|done|apply Hh3]).
  eapply (runs_bind _ _ _ (fun _ s => s = s4)); [done|]. intros [] ? ->.
  destruct (version_spec s4 rsdp l Hh4 eq_refl) as (p & Hp & Hv & Hvr). rewrite Eroot in Hv.
  eapply (runs_bind _ _ _ (fun x s => x = p /\ s = s4)); [by rewrite Hp|]. intros ? ? [-> ->].
  eapply (runs_bind _ _ _ (fun x s => x = revision m0 rsdp l /\ s = s4)).
  { destruct p; cbn [snd] in Hv; by rewrite Hv. }
  intros ? ? [-> ->]. cbn [runs]. unfold modify, get, emit, modify, mbind, acpi_bind. cbn [runs set_version set_out].
  pose proof (h_rsdp _ _ _ Hh3) as H5. assert (Hb : (length l <= 64)%nat).
  { pose proof (f_equal length (h_take _ _ _ Hh3)) as Ht. rewrite length_take, (h_len _ _ _ Hh3) in Ht. lia. }
  assert (Ho : outputs_ok (set_out s4 (a_out s4 ++ [Kprintf (str "[ACPI] revision %d, %d table(s) validated" ++ [10; 13])
    [KInt (revision m0 rsdp l); KInt (Z.of_nat (length l))]]))).
  { apply (emit_ok s4); [|apply Hh4]. eapply (message_ok _ (lits (str "[ACPI] revision ") ++ Dec :: lits (str ", ") ++ Dec ::
      lits (str " table(s) validated" ++ [10; 13]))); [done|by repeat constructor|]. apply typed_lits. cbn. lia. }
  split; [cbn; congruence|]. split; [exact Ho|]. do 3 (split; [done|]). by eapply holds_ext.
Qed.

Definition reset (s : acpi) (rsdp : Z) : acpi := set_version (set_count (set_rsdp s rsdp) 0) 0.

Lemma boot_reset s rsdp : boot_ok s -> boot_ok (reset s rsdp).
Proof. by intros [? ? ? ? ? ? ? ?]. Qed.

(** A part of the tables is read only when they are there. *)
Lemma root_reads s rsdp : win_ok s -> covers D rsdp 36 -> forall R,
  (forall s', keeps s s' -> runs ((
     if negb (sum_ok m0 rsdp (if 2 <=? mem_get m0 (rsdp + 15) then 36 else 20)) then
       emit (Kprintf (str "[ACPI] RSDP checksum FAILED" ++ [10; 13]) []);; mret (-1)
     else let '(list_phys, entry_sz) := root_list m0 rsdp in
       if list_phys =? 0 then emit (Kprintf (str "[ACPI] neither RSDT nor XSDT present" ++ [10; 13]) []);; mret (-1)
       else scan_list kernel_pml4 list_phys entry_sz) s') R) ->
  runs ((rev ← acpi_rdb kernel_pml4 rsdp 15;
    rsdt ← acpi_rd32 kernel_pml4 rsdp 16;
    len ← acpi_rd32 kernel_pml4 rsdp 20;
    xsdt ← acpi_rd64 kernel_pml4 rsdp 24;
    ok ← acpi_checksum_at kernel_pml4 rsdp (if 2 <=? rev then 36 else 20);
    if negb ok then
      emit (Kprintf (str "[ACPI] RSDP checksum FAILED" ++ [10; 13]) []);; mret (-1)
    else
    let '(list_phys, entry_sz) :=
      if (2 <=? rev) && negb (xsdt =? 0) then (xsdt, 8) else if negb (rsdt =? 0) then (rsdt, 4) else (0, 0) in
    if list_phys =? 0 then
      emit (Kprintf (str "[ACPI] neither RSDT nor XSDT present" ++ [10; 13]) []);; mret (-1)
    else scan_list kernel_pml4 list_phys entry_sz) s) R.
Proof.
  intros Hw Hc R Hk.
  eapply runs_reads; [by apply (rdb_covered _ _ _ HD _ _ _ Hc); lia|done|]. intros s1 H1.
  eapply runs_reads; [by apply (rd32_reads _ _ _ HD _ _ _ Hc); lia|apply H1|]. intros s2 H2.
  eapply runs_reads; [by apply (rd32_reads _ _ _ HD _ _ _ Hc); lia|apply H2|]. intros s3 H3.
  eapply runs_reads; [by apply (rd64_reads _ _ _ HD _ _ _ Hc); lia|apply H3|]. intros s4 H4.
  eapply runs_reads; [apply (checksum_reads _ _ _ HD); intros i Hi; apply Hc; case_match; lia|apply H4|]. intros s5 H5.
  apply Hk. repeat (eapply keeps_trans; [done|]). by apply keeps_refl, H5.
Qed.

Lemma init_spec s rsdp : boot_ok s -> firmware rsdp ->
  runs (acpi_init kernel_pml4 rsdp s) (outcome rsdp (if window_free s then registry m0 rsdp else None)).
Proof.
  intros Hb Hfw. unfold acpi_init. pose proof (boot_reset s rsdp Hb) as Hb1. set (s1 := reset s rsdp) in *.
  eapply (runs_bind _ _ _ (fun _ s => s = s1)); [done|]. intros [] ? ->.
  destruct (guard_spec s1 (range 0 ACPI_MAP_PAGES)) as (o & E & Ho).
  eapply (runs_bind _ _ _ (fun x s => x = o /\ s = s1)); [by rewrite E|]. intros ? ? [-> ->].
  change (window_free s) with (window_free s1). unfold window_free. destruct o as [v|].
  { destruct Ho as [[i ->] ->]. cbn. split_and!; try done. apply (emit_ok s1); [|apply Hb1].
    apply (message_ok _ (lits (str "[ACPI] FATAL: map window slot 0x") ++ Hex true 16 :: lits (str " already mapped" ++ [10; 13])));
      [done|by repeat constructor|]. apply typed_lits. cbn. split; [apply u64_range|done]. }
  rewrite Ho. pose proof (boot_win s1 Hb1 Ho) as Hw. unfold registry.
  eapply (runs_bind _ _ _ (fun x s => x = s1 /\ s = s1)); [done|]. intros ? ? [-> ->]. change (g_rsdp_phys s1) with rsdp.
  destruct (Z.eqb_spec rsdp 0) as [Hz|Hnz]; cbn [orb].
  { eapply (fail_outcome _ _ _ (lits _)); [done|done|done|by rewrite text_lits|by repeat constructor|done]. }
  apply root_reads; [done|by apply Hfw|]. intros s2 Hk. destruct (keeps_fields _ _ Hk) as (E1 & E2 & E3).
  assert (Hr2 : g_rsdp_phys s2 = rsdp) by done. assert (Hn2 : g_table_count s2 = 0) by done.
  destruct (sum_ok m0 rsdp _); cbn [negb].
  2:{ eapply (fail_outcome _ _ _ (lits _)); [apply Hk|done|done|by rewrite text_lits|by repeat constructor|done]. }
  pose proof (scan_spec rsdp s2 Hfw (proj1 Hk) ltac:(rewrite E1; apply Hb1) Hr2 Hn2) as Hs.
  destruct (root_list m0 rsdp) as [lst sz]. destruct (Z.eqb_spec lst 0) as [->|Hl]; cbn [orb].
  - eapply (fail_outcome _ _ _ (lits _)); [apply Hk|done|done|by rewrite text_lits|by repeat constructor|done].
  - specialize (Hs Hl). by destruct (sum_ok m0 lst _).
Qed.

(** ** The MADT *)

Section MadtWalk.
Context {T : Type} (cb : option (acpi_madt_entry_t -> T -> T)).

Definition call (arg : T) (e : acpi_madt_entry_t) : T := match cb with Some f => f e arg | None => arg end.

(** The entry [e] the callback gets for the bytes at offset [o] of table [t]. *)
Definition delivered (s : acpi) (t : Z) (e : acpi_madt_entry_t) (x : Z * Z * Z) : Prop :=
  let '(ty, el, o) := x in madt_type e = ty /\ madt_length e = el /\ exists va, madt_data e = Some va /\ points s va (t + o).

Definition overrides_of (l : list (Z * Z * Z)) : Z := Z.of_nat (length (filter (fun x => x.1.1 = ACPI_MADT_INT_OVERRIDE) l)).

Lemma delivered_keeps s s' t es l : keeps s s' -> Forall2 (delivered s t) es l -> Forall2 (delivered s' t) es l.
Proof.
  intros Hk Hl. eapply Forall2_impl; [exact Hl|]. intros e [[ty el] o] (H1 & H2 & va & H3 & H4). split_and!; [done..|].
  exists va. split; [done|]. by eapply points_keeps.
Qed.

(** The callback's three types. *)
Lemma reported_type ty : 0 <= ty ->
  (ty =? ACPI_MADT_LAPIC) || (ty =? ACPI_MADT_IOAPIC) || (ty =? ACPI_MADT_INT_OVERRIDE) = (ty <=? 2).
Proof.
  intros. unfold ACPI_MADT_LAPIC, ACPI_MADT_IOAPIC, ACPI_MADT_INT_OVERRIDE.
  destruct (Z.eqb_spec ty 0), (Z.eqb_spec ty 1), (Z.eqb_spec ty 2), (Z.leb_spec ty 2); cbn; lia.
Qed.

Lemma madt_loop_spec t len : covers D t len -> len <= 2 ^ 32 - 256 -> forall fuel off n arg s, win_ok s -> 0 <= off <= len ->
  len - off < Z.of_nat fuel ->
  runs (madt_loop kernel_pml4 cb fuel t len off n arg s) (fun r s' => keeps s s' /\ let l := madt_entries fuel m0 t len off in
    exists es, r = Some (n + overrides_of l, foldl call arg es) /\ Forall2 (delivered s' t) es l).
Proof.
  intros Hc Hlen. induction fuel as [|fuel IH]; intros off n arg s Hw Hoff Hf; [lia|]. cbn [madt_loop madt_entries].
  rewrite (u32_id (off + 2)) by lia.
  assert (Hend : forall s' : acpi, keeps s s' -> runs ((mret (Some (n, arg)) : acpiM _) s') (fun r s' => keeps s s' /\
            exists es, r = Some (n + overrides_of [], foldl call arg es) /\ Forall2 (delivered s' t) es [])).
  { intros s' Hk. split; [done|]. exists []. split; [|constructor]. cbn. do 2 f_equal. unfold overrides_of. cbn. lia. }
  destruct (Z.leb_spec (off + 2) len) as [Hle|Hgt]; cbn [negb andb]; [|by apply Hend, keeps_refl].
  rewrite u32_id by lia. pose proof (Hc off ltac:(lia)) as Hd. pose proof (HD _ Hd).
  assert (Ht : 0 <= t) by (pose proof (HD _ (Hc 0 ltac:(lia))); unfold PAGE_SIZE in *; lia).
  eapply runs_bind; [by apply (rdb_touch kernel_pml4 m0 D HD t off Hd); [|lia|]|].
  intros ty s1 (-> & Hk1 & Hm1).
  eapply runs_reads; [by apply (rdb_covered _ _ _ HD _ _ _ Hc); lia|apply Hk1|]. intros s2 Hk2.
  assert (Hk : keeps s s2) by by eapply keeps_trans.
  set (ty := mem_get m0 (t + off)). set (el := mem_get m0 (t + (off + 1))).
  assert (0 <= ty < 256 /\ 0 <= el < 256) as [Hty Hel] by (split; apply mem_get_range).
  rewrite u32_id by lia. rewrite reported_type by lia.
  destruct (Z.ltb_spec el 2) as [Hs|Hge]; [rewrite (proj2 (Z.leb_gt 2 el)) by lia; by apply Hend|].
  rewrite (proj2 (Z.leb_le 2 el)) by lia. cbn [orb andb].
  destruct (Z.ltb_spec len (off + el)) as [Hs|Hin]; [rewrite (proj2 (Z.leb_gt (off + el) len)) by lia; by apply Hend|].
  rewrite (proj2 (Z.leb_le (off + el) len)) by lia. destruct (ty <=? 2) eqn:Erep.
  - rewrite u64_id by (unfold PAGE_SIZE in *; lia).
    destruct (map_field_mapped kernel_pml4 D HD s2 (t + off) Hd) as (va & Hp & Hv); [by eapply (mapped_keeps _ _ D HD)|].
    eapply (runs_bind _ _ _ (fun x s => x = Some va /\ s = s2)); [unfold acpi_table_ptr; by rewrite Hp|]. intros ? ? [-> ->].
    eapply runs_weaken; [apply IH; [apply Hk2|lia|lia]|]. cbn zeta. intros r s3 [Hk3 (es & -> & Hes)].
    split; [by eapply keeps_trans|]. exists (Madt ty el (Some va) :: es). split.
    + cbn [foldl]. f_equal. f_equal. unfold overrides_of. rewrite filter_app, length_app.
      destruct (Z.eqb_spec ty ACPI_MADT_INT_OVERRIDE) as [E|E].
      * rewrite filter_cons_True by (by rewrite E). cbn [length filter]. rewrite filter_nil. cbn [length]. lia.
      * rewrite filter_cons_False by done. rewrite filter_nil. cbn [length]. lia.
    + cbn [app]. constructor; [|done]. split_and!; [done..|]. exists va. split; [done|]. by eapply points_keeps.
  - eapply runs_weaken; [apply IH; [apply Hk2|lia|lia]|]. cbn zeta. intros r s3 [Hk3 (es & -> & Hes)].
    split; [by eapply keeps_trans|]. exists es. done.
Qed.

Lemma madt_find_spec s0 s l : holds s0 s l -> forall k i, l = take i l ++ k -> length (take i l) = i ->
  madt_find kernel_pml4 (range (Z.of_nat i) (Z.of_nat (length l))) s =
    Ret (default 0 (head (with_signature m0 (str "APIC") k))) s.
Proof.
  intros Hh. induction k as [|t k IH]; intros i Hk Hi.
  { apply (f_equal length) in Hk. rewrite length_app, Hi in Hk. cbn in Hk. by rewrite range_nil by lia. }
  assert (Hlt : l !! i = Some t) by (rewrite Hk, lookup_app_r, Hi, Nat.sub_diag by lia; done).
  pose proof (lookup_lt_Some _ _ _ Hlt). rewrite range_cons by lia. cbn [madt_find]. unfold mbind, acpi_bind, get.
  destruct (visit_spec s0 s l i t (str "APIC") Hh Hlt eq_refl) as (va & -> & Hp & ->).
  unfold with_signature. rewrite filter_cons. case_bool_decide as E; case_decide; try done.
  - by rewrite (holds_lookup _ _ _ _ _ Hh Hlt).
  - replace (Z.of_nat i + 1) with (Z.of_nat (S i)) by lia. apply IH; [|rewrite length_take; lia].
    rewrite (take_S_r _ _ _ Hlt), <- app_assoc. done.
Qed.

(** What [acpi_get_madt] answers, given the MADT. *)
Definition madt_answer (s s' : acpi) (over : option Z) (arg : T) (madt : option Z) (r : option (Z * option Z * T)) : Prop :=
  match madt with
  | None => r = Some (-1, over, arg) /\ s' = s
  | Some t =>
      let len := rd32 m0 (t + 4) in
      if len <? 44 then r = Some (-1, over, arg)
      else let es := madt_entries (Z.to_nat len) m0 t len 8 in
        exists calls, r = Some (0, (fun _ => overrides_of es) <$> over, foldl call arg calls) /\ Forall2 (delivered s' t) calls es
  end.

Lemma get_madt_spec s l over arg : holds s s l -> g_table_count s = Z.of_nat (length l) ->
  (forall t, t ∈ l -> rd32 m0 (t + 4) <= 2 ^ 32 - 256) ->
  runs (acpi_get_madt kernel_pml4 cb arg over s) (fun r s' => keeps s s' /\
    madt_answer s s' over arg (head (with_signature m0 (str "APIC") l)) r).
Proof.
  intros Hh Hn Hmax. unfold acpi_get_madt.
  eapply (runs_bind _ _ _ (fun x s' => x = s /\ s' = s)); [done|]. intros ? ? [-> ->]. rewrite Hn.
  eapply (runs_bind _ _ _ (fun x s' => x = default 0 (head (with_signature m0 (str "APIC") l)) /\ s' = s)).
  { pose proof (madt_find_spec s s l Hh l 0 eq_refl eq_refl) as E. change (Z.of_nat 0) with 0 in E. by rewrite E. }
  intros ? ? [-> ->]. destruct (with_signature m0 (str "APIC") l) as [|t k] eqn:Ew; cbn [head default from_option id].
  { split; [by apply keeps_refl, Hh|done]. }
  assert (Ht : t ∈ l).
  { assert (Ht : t ∈ with_signature m0 (str "APIC") l) by (rewrite Ew; left). by apply list_elem_of_filter in Ht as [_ ?]. }
  pose proof (h_mapped _ _ _ Hh) as Hm. rewrite Forall_forall in Hm. destruct (Hm t Ht) as (Hnz & [Hc Hbody _] & Hl & _).
  rewrite (proj2 (Z.eqb_neq t 0) Hnz).
  eapply runs_reads; [by apply (rd32_reads _ _ _ HD _ _ _ Hc); lia|apply Hh|]. intros s1 Hk1.
  unfold madt_answer. destruct (rd32 m0 (t + 4) <? 44); [by split|].
  eapply runs_bind.
  { unfold acpi_walk_madt. eapply runs_bind; [apply (madt_loop_spec t _ (Hbody Hl) (Hmax t Ht)); [apply Hk1|lia|lia]|].
    cbn zeta. intros r s2 [Hk2 (es & -> & Hes)]. instantiate (1 := fun r s2 => keeps s1 s2 /\ exists es,
      r = Some ((fun _ => overrides_of (madt_entries (Z.to_nat (rd32 m0 (t + 4))) m0 t (rd32 m0 (t + 4)) 8)) <$> over, foldl call arg es) /\
      Forall2 (delivered s2 t) es (madt_entries (Z.to_nat (rd32 m0 (t + 4))) m0 t (rd32 m0 (t + 4)) 8)).
    split; [done|]. exists es. split; [|done]. by destruct over. }
  cbn beta. intros r s2 [Hk2 (es & -> & Hes)]. split; [by eapply keeps_trans|]. by exists es.
Qed.
End MadtWalk.
End Tables.

Lemma madt_entries_inside fuel m t len : forall off, 0 <= off -> Forall (fun '(ty, el, o) =>
  off <= o /\ 2 <= el /\ o + el <= len /\ 0 <= ty <= 2) (madt_entries fuel m t len off).
Proof.
  induction fuel as [|fuel IH]; intros off Hoff; cbn [madt_entries]; [constructor|].
  destruct (_ && _) eqn:E; [|constructor]. bool_to_prop. apply Forall_app. split.
  - case_match; [|constructor]. bool_to_prop. constructor; [|constructor]. pose proof (mem_get_range m (t + off)). lia.
  - pose proof (mem_get_range m (t + (off + 1))). eapply Forall_impl; [apply IH; lia|]. intros [[ty el] o]. lia.
Qed.

(** ** A machine for the witnesses *)

(** A table: the header with a correct checksum, and its body. *)
Definition demo_table (sig : list Z) (rev : Z) (body : list Z) : list Z :=
  let len := 36 + Z.of_nat (length body) in
  let bytes sum := sig ++ le_bytes 4 len ++ [rev; sum] ++ replicate 26 0 ++ body in
  bytes ((- foldr Z.add 0 (bytes 0)) mod 256).

(** An RSDT at 0x3000 with a FADT, a MADT, an empty slot and a table whose checksum is wrong. *)
Definition demo_bytes : mem :=
  foldl (fun m ab => mem_write m ab.1 ab.2) (fun _ => 0)
    [(0x2000, let b sum := str "RSD PTR " ++ [sum] ++ str "VOIDOS" ++ [0] ++ le_bytes 4 0x3000 in b ((- foldr Z.add 0 (b 0)) mod 256));
     (0x3000, demo_table (str "RSDT") 1 (concat (le_bytes 4 <$> [0x3100; 0x3200; 0; 0x3300])));
     (0x3100, demo_table (str "FACP") 6 []);
     (0x3200, demo_table (str "APIC") 1 ([105; 0; 0; 0; 0; 0; 0; 0] ++ [0; 8; 0; 0; 1; 0; 0; 0] ++ [2; 10; 0; 0; 2; 0; 0; 0; 0; 0]));
     (0x3300, str "SSDT" ++ le_bytes 4 36 ++ [1])].

Definition demo_firmware (x : Z) : Prop := 0x2000 <= x < 0x4000.
Definition demo_acpi : acpi := Acpi 0 (replicate 64 0) 0 0 (replicate 16 0) (MState demo_machine_pmm demo_bytes) [].

Example demo_registry : registry demo_bytes 0x2000 = Some [0x3100; 0x3200].
Proof. vm_compute. reflexivity. Qed.

Lemma demo_entry_zero i : 0 <= i < 512 -> entry demo_bytes demo_root i = 0.
Proof.
  intros Hi. unfold demo_bytes. cbn [foldl fst snd]. unfold entry.
  repeat (rewrite rd64_write_out by (right; match goal with |- ?a + ?n <= _ =>
    let v := eval vm_compute in (a + n) in change (v <= demo_root + 8 * i) end; unfold demo_root; lia)).
  reflexivity.
Qed.

Lemma demo_tables_path : tables demo_bytes demo_root (va_path ACPI_MAP_WIN) = [demo_root].
Proof. unfold va_path. cbn [tables]. rewrite demo_entry_zero by (vm_compute; split; congruence). reflexivity. Qed.

Lemma demo_window : window_free demo_root demo_acpi = true.
Proof.
  unfold window_free. apply forallb_forall. intros i Hi. unfold vmm_get_pte. cbn [demo_acpi a_ms ms_mem].
  rewrite demo_entry_zero by (apply idx_range; lia). reflexivity.
Qed.

Lemma demo_boot : boot_ok demo_root demo_bytes demo_firmware demo_acpi.
Proof.
  split; cbn [demo_acpi a_ms win_phys g_tables ms_mem ms_pmm]; rewrite ?demo_tables_path; try done.
  - split; cbn; [by apply pmm_invb_ok|vm_compute; discriminate|lia].
  - apply NoDup_singleton.
  - constructor; [|done]. split; [by split|vm_compute; discriminate].
  - intros x Hx. unfold demo_firmware in Hx. split_and!; [done| |].
    + cbn [ms_pmm]. assert (2 <= x / PAGE_SIZE < 4) by (unfold PAGE_SIZE; split; [apply Z.div_le_lower_bound|apply Z.div_lt_upper_bound]; lia).
      assert (x / PAGE_SIZE = 2 \/ x / PAGE_SIZE = 3) as [-> | ->] by lia; vm_compute; discriminate.
    + intros u ->%list_elem_of_singleton. unfold in_table, demo_root, PAGE_SIZE. lia.
  - by constructor.
Qed.

Lemma demo_placed : firmware demo_bytes demo_firmware 0x2000.
Proof.
  assert (Hroot : root_list demo_bytes 0x2000 = (0x3000, 4)) by (vm_compute; reflexivity).
  assert (Hlen : rd32 demo_bytes (0x3000 + 4) = 52) by (vm_compute; reflexivity).
  assert (Hent : list_entries demo_bytes 0x3000 4 = [0x3100; 0x3200; 0; 0x3300]) by (vm_compute; reflexivity).
  assert (Hp : forall t, 0x3000 <= t <= 0x3f00 -> rd32 demo_bytes (t + 4) <= 64 -> placed demo_bytes demo_firmware t).
  { intros t Ht Hl. assert (t / 4096 = 3) by (symmetry; apply (Z.div_unique _ _ _ (t - 3 * 4096)); lia).
    pose proof (Z.div_mod t 4096 ltac:(lia)).
    split; unfold covers, demo_firmware, in_page, PAGE_SIZE; [lia..|]. lia. }
  split; rewrite ?Hroot; cbn [fst snd]; rewrite ?Hlen, ?Hent; unfold covers, demo_firmware; try (intros; lia).
  - change (listed 52 4) with 4. intros; lia.
  - intros t Ht Hnz. assert (t = 0x3100 \/ t = 0x3200 \/ t = 0x3300) as [-> | [-> | ->]].
    { rewrite !elem_of_cons in Ht. destruct Ht as [?|[?|[?|[?|H]]]]; [lia..|by apply not_elem_of_nil in H]. }
    all: apply Hp; [lia|vm_compute; discriminate].
Qed.

Lemma demo_range x : demo_firmware x -> PAGE_SIZE <= x < 2 ^ 52.
Proof. unfold demo_firmware, PAGE_SIZE. lia. Qed.

(** ** The parser *)

(** C39.  [acpi_init] registers exactly the tables of the firmware.  The firmware's
  bytes ([D]) lie above page 0 and below 2^52, outside the page tables and the free
  frames, and the first 12 bytes of every table it lists lie in one page; the code
  needs both ([page_zero_not_mapped], and the pointers it keeps into one slot of its
  window).  Started with an empty window and page tables in order, it never touches
  an unmapped address; it stops the machine only when the 16 pages of the window or
  the free frames are used up.  When it returns 0, the registry holds, in the order
  of the XSDT or RSDT, the entries that are not zero, have a length of at least 36
  and a correct checksum, as the physical bytes say, among the first
  min(64, (length - 36) mod 2^32 / size) entries of 8 or 4 bytes ([listed]); the
  revision is the one of the FADT; no byte of the firmware changed; and
  [acpi_find_table] finds in it the [index]-th table of a signature, at an address
  that shows the table's header, or NULL.  It returns -1 with an empty registry when
  the window is taken, there is no root pointer, a checksum is wrong or there is no
  list.  Every message is a well-formed call of [kprintf]. *)
Theorem acpi_init_registry kernel_pml4 m0 D s rsdp : (forall x, D x -> PAGE_SIZE <= x < 2 ^ 52) ->
  boot_ok kernel_pml4 m0 D s -> firmware m0 D rsdp ->
  runs (acpi_init kernel_pml4 rsdp s) (fun r s' => g_rsdp_phys s' = rsdp /\ outputs_ok s' /\
    match (if window_free kernel_pml4 s then registry m0 rsdp else None) with
    | None => r = -1 /\ g_table_count s' = 0
    | Some l => r = 0 /\ g_table_count s' = Z.of_nat (length l) /\ (length l <= 64)%nat /\ take (length l) (g_tables s') = l /\
        g_acpi_version s' = revision m0 rsdp l /\ (forall x, D x -> mem_get (ms_mem (a_ms s')) x = mem_get m0 x) /\
        forall sig index, length sig = 4%nat -> 0 <= index -> exists p, acpi_find_table kernel_pml4 sig index s' = Ret p s' /\
          match with_signature m0 sig l !! Z.to_nat index with
          | Some t => exists va, p = Some va /\ shows kernel_pml4 m0 s' va t
          | None => p = None
          end
    end).
Proof.
  intros HD Hb Hf. eapply runs_weaken; [by apply (init_spec kernel_pml4 m0 D HD)|]. intros r s' (H1 & H2 & H3). split_and!; try done.
  destruct (if window_free _ _ then _ else _) as [l|]; [|done]. destruct H3 as (H3 & H4 & H5 & Hh). split_and!; try done.
  - pose proof (f_equal length (h_take _ _ _ _ _ _ Hh)) as Ht. rewrite length_take, (h_len _ _ _ _ _ _ Hh) in Ht. lia.
  - by apply (h_take _ _ _ _ _ _ Hh).
  - intros x Hx. by apply (w_data _ _ _ _ (h_win _ _ _ _ _ _ Hh)).
  - intros sig index Hs Hi. destruct (find_table_spec kernel_pml4 m0 D HD s' s' l sig index Hh H4 Hs Hi) as (p & E & Hp).
    exists p. split; [done|]. unfold found in Hp. destruct (with_signature m0 sig l !! _) as [t|] eqn:Et; [|done].
    destruct Hp as (va & -> & Hv). exists va. split; [done|].
    apply list_elem_of_lookup_2, list_elem_of_filter in Et as [_ Ht].
    pose proof (h_mapped _ _ _ _ _ _ Hh) as Hm. rewrite Forall_forall in Hm.
    apply (points_shows kernel_pml4 m0 D HD); [apply Hh|by apply Hm|done].
Qed.

Lemma acpi_init_registry_witness : runs (acpi_init demo_root 0x2000 demo_acpi) (fun r s' =>
  r = 0 /\ g_table_count s' = 2 /\ take 2 (g_tables s') = [0x3100; 0x3200] /\ g_acpi_version s' = 6).
Proof.
  eapply runs_weaken; [exact (acpi_init_registry demo_root demo_bytes demo_firmware demo_acpi 0x2000 demo_range demo_boot demo_placed)|].
  intros r s' (_ & _ & H). rewrite demo_window, demo_registry in H. destruct H as (H1 & H2 & _ & H3 & H4 & _).
  split; [exact H1|]. split; [exact H2|]. split; [exact H3|]. rewrite H4. vm_compute. reflexivity.
Defined.

(** The walk of the MADT always ends, and stays inside the table.  With the
  registry [l] in place, [acpi_get_madt] answers -1 when no table is a MADT or the first
  one is shorter than 44 bytes; otherwise it answers 0, calls the callback once for every
  LAPIC, IO-APIC and override entry the walk meets, in order, with its type, length and
  address, and counts the overrides.  Every entry reported lies between byte 8 and the
  end of the table.  (The walk starts at byte 8, inside the header: [madt_header_reported].) *)
Theorem acpi_madt_walk kernel_pml4 m0 D {T} (cb : option (acpi_madt_entry_t -> T -> T)) s l over arg :
  (forall x, D x -> PAGE_SIZE <= x < 2 ^ 52) -> holds kernel_pml4 m0 D s s l -> g_table_count s = Z.of_nat (length l) ->
  (forall t, t ∈ l -> rd32 m0 (t + 4) <= 2 ^ 32 - 256) ->
  runs (acpi_get_madt kernel_pml4 cb arg over s) (fun r s' => g_tables s' = g_tables s /\
    madt_answer m0 cb s s' over arg (head (with_signature m0 (str "APIC") l)) r /\
    forall t, head (with_signature m0 (str "APIC") l) = Some t ->
      Forall (fun '(ty, el, o) => 8 <= o /\ 2 <= el /\ o + el <= rd32 m0 (t + 4) /\ 0 <= ty <= 2)
        (madt_entries (Z.to_nat (rd32 m0 (t + 4))) m0 t (rd32 m0 (t + 4)) 8)).
Proof.
  intros HD Hh Hn Hmax. eapply runs_weaken; [by apply (get_madt_spec kernel_pml4 m0 D HD)|]. intros r s' [Hk Ha].
  split_and!; [by apply (keeps_fields _ _ _ _ _ Hk)|done|]. intros t _. by apply madt_entries_inside.
Qed.

Lemma acpi_madt_walk_witness : runs ((acpi_init demo_root 0x2000;; acpi_get_madt demo_root (Some (fun _ n => n + 1)) 0 (Some (-1))) demo_acpi)
  (fun r _ => r = Some (0, Some 1, 3)).
Proof.
  eapply runs_bind; [exact (init_spec demo_root demo_bytes demo_firmware demo_range demo_acpi 0x2000 demo_boot demo_placed)|].
  intros r s H. rewrite demo_window, demo_registry in H. destruct H as (_ & _ & _ & H2 & _ & Hh).
  assert (Hmax : forall t, t ∈ [0x3100; 0x3200] -> rd32 demo_bytes (t + 4) <= 2 ^ 32 - 256).
  { intros t Ht. rewrite !elem_of_cons in Ht. destruct Ht as [->|[->|H]]; [vm_compute; discriminate..|by apply not_elem_of_nil in H]. }
  eapply runs_weaken; [exact (acpi_madt_walk demo_root demo_bytes demo_firmware (Some (fun _ n => n + 1)) s [0x3100; 0x3200] (Some (-1)) 0
    demo_range Hh H2 Hmax)|].
  intros r' s' (_ & Ha & _).
  assert (Hs : with_signature demo_bytes (str "APIC") [0x3100; 0x3200] = [0x3200]) by (vm_compute; reflexivity).
  assert (He : madt_entries 62 demo_bytes 0x3200 62 8 = [(1, 36, 8); (0, 8, 44); (2, 10, 52)]) by (vm_compute; reflexivity).
  assert (Hl : rd32 demo_bytes (0x3200 + 4) = 62) by (vm_compute; reflexivity).
  rewrite Hs in Ha. unfold madt_answer in Ha. cbn [head] in Ha. rewrite Hl in Ha. cbn [Z.ltb Z.compare] in Ha.
  change (Z.to_nat 62) with 62%nat in Ha. rewrite He in Ha. destruct Ha as (calls & -> & Hc). cbn in Hc.
  apply Forall2_length in Hc. destruct calls as [|? [|? [|? [|]]]]; cbn in Hc; try discriminate Hc. reflexivity.
Defined.

(** The MADT's entries start at byte 44; the walk takes bytes 8 and 9 of the header, the
  revision and the checksum, for the type and length of an entry. *)
Lemma madt_header_reported m t len : 44 <= len -> mem_get m (t + 8) <= 2 -> 2 <= mem_get m (t + 9) -> 8 + mem_get m (t + 9) <= len ->
  exists es, madt_entries (Z.to_nat len) m t len 8 = (mem_get m (t + 8), mem_get m (t + 9), 8) :: es.
Proof.
  intros Hl Hr Hc Hin. destruct (Z.to_nat len) as [|f] eqn:E; [lia|]. cbn [madt_entries]. change (8 + 1) with 9.
  rewrite (proj2 (Z.leb_le (8 + 2) len)), (proj2 (Z.leb_le 2 _)), (proj2 (Z.leb_le _ len)), (proj2 (Z.leb_le _ 2)) by lia. by eexists.
Qed.

(** A free slot holds 0: an address in page 0 counts as mapped there, and no page is mapped. *)
Lemma page_zero_not_mapped pml4 s a i : 0 <= a < 4096 -> first_index (Z.eqb 0) (win_phys s) = Some i ->
  acpi_map_field pml4 a s = Ret (Some (u64 (slot_addr (Z.of_nat i) + Z.land a 0xfff))) s.
Proof.
  intros Ha Hi. assert (Hb : page_base a = 0) by (rewrite page_base_spec by lia; unfold PAGE_SIZE; rewrite Z.mod_small; lia).
  unfold acpi_map_field, acpi_ensure, mbind, acpi_bind, get. rewrite Hb, Hi. cbn [negb]. by rewrite Hi.
Qed.

(** A list shorter than its header has 64 entries: [length - 36] wraps. *)
Lemma short_list_count len : 0 <= len < 36 -> entry_count len 4 = 64 /\ entry_count len 8 = 64.
Proof.
  intros Hl. unfold entry_count. assert (Hw : u32 (len - 36) = len - 36 + 2 ^ 32).
  { unfold u32. rewrite <- (Z.mod_add _ 1) by lia. apply Z.mod_small. lia. }
  rewrite Hw. unfold ACPI_MAX_TABLES. split; rewrite (proj2 (Z.ltb_lt 64 _)); try done; (apply Z.div_le_lower_bound; lia) || apply Z.lt_le_trans with (2 ^ 28); try lia; apply Z.div_le_lower_bound; lia.
Qed.
