(* ===== verification/Lapic.v ===== *)
(** * The interrupt controller and the timer ([dev/lapic.c], [dev/lapic.h])

  The driver silences the legacy controllers, maps the registers of the local APIC and
  sets up the periodic timer that drives the scheduler, calibrated against the PIT.  The
  registers are reached through the kernel's page tables: [access] is the walk of the
  processor.  Ports, the model-specific registers and the bus behind the tables are the
  hardware ([PortIO], [ApicBus]).  [None] is a page fault in the kernel, a division by
  zero, or a wait that does not end. *)
From S2P Require Import Prelude Pmm PhysMem Vmm KernelMap Serial Console AcpiSpec.

(** The model-specific registers, and 32-bit accesses to the physical address space. *)
Class ApicBus (W : Type) := {
  rdmsr : W -> Z -> Z;
  wrmsr : W -> Z -> Z -> W;
  bus_read : W -> Z -> Z * W;
  bus_write : W -> Z -> Z -> W
}.

Definition IA32_APIC_BASE_MSR : Z := 0x1B.
Definition LAPIC_ID : Z := 0x020.
Definition LAPIC_VERSION : Z := 0x030.
Definition LAPIC_TPR : Z := 0x080.
Definition LAPIC_EOI : Z := 0x0B0.
Definition LAPIC_SPURIOUS : Z := 0x0F0.
Definition LAPIC_TIMER_LVT : Z := 0x320.
Definition LAPIC_TIMER_INIT : Z := 0x380.
Definition LAPIC_TIMER_CUR : Z := 0x390.
Definition LAPIC_TIMER_DIV : Z := 0x3E0.
Definition LAPIC_TIMER_PERIODIC : Z := Z.shiftl 1 17.
Definition LAPIC_TIMER_MASKED : Z := Z.shiftl 1 16.
Definition IRQ_VECTOR_TIMER : Z := 32.
Definition IRQ_VECTOR_SPURIOUS : Z := 255.
Definition PIT_HZ : Z := 1193182.
Definition PIT_10MS : Z := PIT_HZ / 100.

(** The legacy controllers: moved away from the exception vectors, then masked. *)
Definition pic_writes : list (Z * Z) :=
  [(0x20, 0x11); (0xA0, 0x11); (0x21, 0x20); (0xA1, 0x28); (0x21, 0x04); (0xA1, 0x02); (0x21, 0x01); (0xA1, 0x01);
   (0x21, 0xFF); (0xA1, 0xFF)].

Section Lapic.
Context {W : Type} `{IO : PortIO W} `{BUS : ApicBus W}.

(** The kernel's root table, the offset of the direct map, and how often the PIT is
  polled before the model gives up. *)
Context (kernel_pml4 hhdm_offset : Z) (spins : nat).

(** The hardware, the memory, and the driver's pointer. *)
Record lapic := Lapic { l_hw : W; l_ms : mstate; lapic_base : Z }.
Definition set_hw (s : lapic) (w : W) : lapic := Lapic w (l_ms s) (lapic_base s).

(** The physical address of a register. *)
Definition access (s : lapic) (reg : Z) : option Z :=
  let va := u64 (lapic_base s + reg) in
  if has (vmm_get_pte (ms_mem (l_ms s)) kernel_pml4 va) VMM_PRESENT
  then Some (vmm_virt_to_phys (ms_mem (l_ms s)) kernel_pml4 va) else None.

Definition lapic_read (s : lapic) (reg : Z) : option (Z * lapic) :=
  p ← access s reg; let '(v, w) := bus_read (l_hw s) p in Some (v, set_hw s w).

Definition lapic_write (s : lapic) (reg val : Z) : option lapic :=
  p ← access s reg; Some (set_hw s (bus_write (l_hw s) p val)).

Definition lapic_eoi (s : lapic) : option lapic := lapic_write s LAPIC_EOI 0.

Definition pic_disable (w : W) : W := foldl (fun w pv => outb w pv.1 pv.2) w pic_writes.

(** [while (!(inb(0x61) & 0x20)) pause;] *)
Fixpoint pit_out (fuel : nat) (w : W) : option W :=
  match fuel with
  | O => None
  | S fuel => let '(v, w) := inb w 0x61 in if negb (has v 0x20) then pit_out fuel w else Some w
  end.

Definition pit_wait_10ms (w : W) : option W :=
  let w := outb w 0x43 0xB0 in
  let w := outb w 0x42 (u8 (Z.land PIT_10MS 0xFF)) in
  let w := outb w 0x42 (u8 (Z.shiftr PIT_10MS 8)) in
  let '(gate, w) := inb w 0x61 in
  let w := outb w 0x61 (Z.lor (Z.land gate 0xFC) 0x01) in
  pit_out spins w.

Definition apic_page : Z := 0xFFFFFFFFF000.

(** [lapic_init] once the registers are mapped: the new state and the calls of [kprintf]. *)
Definition start_timer (s : lapic) (apic_phys hz : Z) : option (lapic * list (list Z * list karg)) :=
  s ← lapic_write s LAPIC_SPURIOUS (Z.lor IRQ_VECTOR_SPURIOUS 0x100);
  s ← lapic_write s LAPIC_TPR 0;
  '(id, s) ← lapic_read s LAPIC_ID;
  '(version, s) ← lapic_read s LAPIC_VERSION;
  s ← lapic_write s LAPIC_TIMER_DIV 0x03;
  s ← lapic_write s LAPIC_TIMER_LVT LAPIC_TIMER_MASKED;
  s ← lapic_write s LAPIC_TIMER_INIT 0xFFFFFFFF;
  w ← pit_wait_10ms (l_hw s);
  let s := set_hw s w in
  '(cur, s) ← lapic_read s LAPIC_TIMER_CUR;
  let elapsed := u32 (0xFFFFFFFF - cur) in
  s ← lapic_write s LAPIC_TIMER_LVT LAPIC_TIMER_MASKED;
  let ticks_per_sec := u32 (elapsed * 100) in
  if hz =? 0 then None else
  let ticks_per_tick := ticks_per_sec / hz in
  s ← lapic_write s LAPIC_TIMER_DIV 0x03;
  s ← lapic_write s LAPIC_TIMER_LVT (Z.lor IRQ_VECTOR_TIMER LAPIC_TIMER_PERIODIC);
  s ← lapic_write s LAPIC_TIMER_INIT ticks_per_tick;
  Some (s,
    [(str "[LAPIC] Base: phys 0x%016x, MMIO @ %p" ++ [10; 13], [KInt apic_phys; KInt (lapic_base s)]);
     (str "[LAPIC] ID: %u, Version: 0x%x" ++ [10; 13], [KInt (Z.shiftr id 24); KInt (Z.land version 0xFF)]);
     (str "[LAPIC] Calibration: %u ticks/10ms, %u ticks/s" ++ [10; 13], [KInt elapsed; KInt ticks_per_sec]);
     (str "[LAPIC] Timer: %u Hz, initial count = %u" ++ [10; 13], [KInt hz; KInt ticks_per_tick])]).

Definition lapic_init (s : lapic) (hz : Z) : option (lapic * list (list Z * list karg)) :=
  let s := set_hw s (pic_disable (l_hw s)) in
  let apic_msr := rdmsr (l_hw s) IA32_APIC_BASE_MSR in
  let apic_phys := Z.land apic_msr apic_page in
  let s := set_hw s (wrmsr (l_hw s) IA32_APIC_BASE_MSR (Z.lor apic_msr (Z.shiftl 1 11))) in
  let lapic_virt := u64 (apic_phys + hhdm_offset) in
  let ms := (vmm_map_page (l_ms s) kernel_pml4 lapic_virt apic_phys
               (Z.lor (Z.lor (Z.lor VMM_PRESENT VMM_WRITE) VMM_PWT) VMM_PCD)).2 in
  start_timer (Lapic (l_hw s) ms lapic_virt) apic_phys hz.

(** ** The hardware

  [regs w] is what the registers of the bus were last set to, [ports w] the bytes written
  to the ports so far.  [ticks] is the number of timer ticks in the PIT's ten
  milliseconds, after the division by 16: counting down from 0xFFFFFFFF through a wait,
  the timer reads that much less. *)
Record lapic_laws (apic : Z) (ticks : Z) (regs : W -> Z -> Z) (ports : W -> list (Z * Z)) : Prop := {
  ll_write w p v : ports (bus_write w p v) = ports w /\ (forall n, rdmsr (bus_write w p v) n = rdmsr w n) /\
    forall q, regs (bus_write w p v) q = if q =? p then v else regs w q;
  ll_read w p : let '(v, w') := bus_read w p in 0 <= v < 2 ^ 32 /\ ports w' = ports w /\ (forall n, rdmsr w' n = rdmsr w n) /\
    forall q, regs w' q = regs w q;
  ll_msr w n v : ports (wrmsr w n v) = ports w /\ (forall k, rdmsr (wrmsr w n v) k = if k =? n then v else rdmsr w k) /\
    forall q, regs (wrmsr w n v) q = regs w q;
  ll_out w p v : ports (outb w p v) = ports w ++ [(p, v)] /\ (forall n, rdmsr (outb w p v) n = rdmsr w n) /\
    forall q, regs (outb w p v) q = regs w q;
  ll_in w p : let '(_, w') := inb w p in ports w' = ports w /\ (forall n, rdmsr w' n = rdmsr w n) /\ forall q, regs w' q = regs w q;
  ll_wait w : is_Some (pit_wait_10ms w);
  ll_ticks : 0 <= ticks < 2 ^ 32;
  ll_timer w w' : regs w (apic + LAPIC_TIMER_DIV) = 0x03 -> regs w (apic + LAPIC_TIMER_INIT) = 0xFFFFFFFF ->
    pit_wait_10ms w = Some w' -> (bus_read w' (apic + LAPIC_TIMER_CUR)).1 = 0xFFFFFFFF - ticks
}.

(** ** The mapped registers *)

(** An address within the page of [va]. *)
Lemma within_page va r : 0 <= va -> va mod PAGE_SIZE = 0 -> 0 <= r < PAGE_SIZE -> va + r < 2 ^ 64 ->
  va_path (u64 (va + r)) = va_path va /\ PT_IDX (u64 (va + r)) = PT_IDX va /\ Z.land (u64 (va + r)) 0xFFF = r.
Proof.
  unfold PAGE_SIZE. intros Hv Ha Hr Hb. rewrite u64_id by lia. rewrite land_fff. unfold va_path, PML4_IDX, PDPT_IDX, PD_IDX, PT_IDX.
  rewrite !idx_spec by lia.
  assert (Hd : forall n, 0 <= n -> (va + r) / 2 ^ (12 + n) = va / 2 ^ (12 + n)).
  { intros n Hn. rewrite !Z.pow_add_r, <- !Z.div_div by lia. f_equal. change (2 ^ 12) with 4096. Z.to_euclidean_division_equations. lia. }
  pose proof (Hd 0 ltac:(lia)) as H0. pose proof (Hd 9 ltac:(lia)) as H1. pose proof (Hd 18 ltac:(lia)) as H2. pose proof (Hd 27 ltac:(lia)) as H3.
  change (12 + 0) with 12 in H0. change (12 + 9) with 21 in H1. change (12 + 18) with 30 in H2. change (12 + 27) with 39 in H3.
  rewrite H0, H1, H2, H3. split_and!; [done|done|]. unfold PAGE_SIZE. Z.to_euclidean_division_equations. lia.
Qed.

Definition REG_FLAGS : Z := Z.lor (Z.lor (Z.lor VMM_PRESENT VMM_WRITE) VMM_PWT) VMM_PCD.

Lemma reg_leaf p : frame_addr p -> Z.land (Z.lor p REG_FLAGS) PHYS_MASK = p /\ has (Z.lor p REG_FLAGS) VMM_PRESENT = true /\
  0 <= Z.lor p REG_FLAGS < 2 ^ 64.
Proof.
  intros Hp. split; [|split].
  - apply mask_lor; [by apply frame_mask|reflexivity].
  - unfold VMM_PRESENT. rewrite has_lor by lia. apply orb_true_r.
  - apply lor_bound; [lia| |done]. destruct Hp. lia.
Qed.

(** The page of the registers is mapped: every register is reached. *)
Definition mapped (s : lapic) (apic : Z) : Prop := forall reg, 0 <= reg < PAGE_SIZE -> access s reg = Some (apic + reg).

Lemma map_registers ms apic va r ms' w : path_inv ms kernel_pml4 va -> frame_addr apic -> 0 <= va -> va + PAGE_SIZE <= 2 ^ 64 -> va mod PAGE_SIZE = 0 ->
  vmm_map_page ms kernel_pml4 va apic REG_FLAGS = (r, ms') ->
  (r = VOID_OK /\ mapped (Lapic w ms' va) apic) \/ (r = VOID_ERR_NOMEM /\ free_set (ms_pmm ms') = ∅).
Proof.
  intros Hi Hp Hv Hb Ha Hm. destruct (reg_leaf apic Hp) as (E1 & E2 & E3).
  destruct (map_page_path _ _ _ _ _ _ _ Hi Hm ltac:(by rewrite frame_mask)) as (Hi' & _ & _ & _ & [(-> & l & pt & Hl & Ht & He & _)|(-> & Hf & _)]); [left|by right].
  split; [done|]. intros reg Hr. rewrite frame_mask in He by done. unfold access. cbn [lapic_base l_ms].
  destruct (within_page va reg Hv Ha Hr ltac:(unfold PAGE_SIZE in *; lia)) as (P1 & P2 & P3).
  rewrite <- P1 in Ht. pose proof (path_huge _ _ _ Hi') as Hh. rewrite <- P1 in Hh.
  destruct (get_pte_tables _ _ _ _ _ Ht Hl Hh) as [G1 G2]. rewrite P2 in G1, G2. rewrite He in G1, G2.
  rewrite G1, E2, (G2 E2), P3, E1. f_equal. symmetry. by apply frame_add_offset.
Qed.

Lemma add_eqb a b c : (a + b =? a + c) = (b =? c).
Proof. destruct (Z.eqb_spec b c) as [->|]; [apply Z.eqb_refl|apply Z.eqb_neq; lia]. Qed.

Lemma apic_frame msr : is_u64 msr -> Z.land msr apic_page <> 0 -> frame_addr (Z.land msr apic_page).
Proof.
  intros Hm Hz. assert (E : Z.land msr apic_page = Z.land (Z.land msr (2 ^ 64 - 2 ^ 12)) (Z.ones 48)).
  { rewrite <- Z.land_assoc. reflexivity. }
  rewrite E in *. rewrite land_high_mask, Z.land_ones in * by (lia || done). pose proof (Z.mod_pos_bound (msr - msr mod 2 ^ 12) (2 ^ 48) ltac:(lia)).
  split; [lia|]. unfold PAGE_SIZE. change (2 ^ 12) with 4096 in *. change (2 ^ 48) with (4096 * 68719476736) in *. Z.to_euclidean_division_equations. lia.
Qed.

(** The calls of [kprintf]. *)
Lemma init_messages a v id ver e t h c : is_u64 a -> is_u64 v -> 0 <= id < 2 ^ 32 -> 0 <= ver < 2 ^ 32 -> is_u64 e -> is_u64 t -> is_u64 h -> is_u64 c ->
  Forall (fun m : list Z * list karg => call_ok m.1 m.2)
    [(str "[LAPIC] Base: phys 0x%016x, MMIO @ %p" ++ [10; 13], [KInt a; KInt v]);
     (str "[LAPIC] ID: %u, Version: 0x%x" ++ [10; 13], [KInt (Z.shiftr id 24); KInt (Z.land ver 0xFF)]);
     (str "[LAPIC] Calibration: %u ticks/10ms, %u ticks/s" ++ [10; 13], [KInt e; KInt t]);
     (str "[LAPIC] Timer: %u Hz, initial count = %u" ++ [10; 13], [KInt h; KInt c])].
Proof.
  intros. assert (is_u64 (Z.shiftr id 24)) by (unfold is_u64; rewrite Z.shiftr_div_pow2 by lia; Z.to_euclidean_division_equations; lia).
  assert (is_u64 (Z.land ver 0xFF)).
  { unfold is_u64. change 0xFF with (Z.ones 8). rewrite Z.land_ones by lia. pose proof (Z.mod_pos_bound ver (2 ^ 8) ltac:(lia)). lia. }
  repeat constructor.
  - exists (lits (str "[LAPIC] Base: phys 0x") ++ Hex true 16 :: lits (str ", MMIO @ ") ++ Ptr :: lits [10; 13]). split_and!; [done|by repeat constructor|by cbn].
  - exists (lits (str "[LAPIC] ID: ") ++ Udec false 0 :: lits (str ", Version: 0x") ++ Hex false 0 :: lits [10; 13]). split_and!; [done|by repeat constructor|by cbn].
  - exists (lits (str "[LAPIC] Calibration: ") ++ Udec false 0 :: lits (str " ticks/10ms, ") ++ Udec false 0 :: lits (str " ticks/s" ++ [10; 13])). split_and!; [done|by repeat constructor|by cbn].
  - exists (lits (str "[LAPIC] Timer: ") ++ Udec false 0 :: lits (str " Hz, initial count = ") ++ Udec false 0 :: lits [10; 13]). split_and!; [done|by repeat constructor|by cbn].
Qed.

(** The registers after [lapic_init], by their offsets. *)
Definition timer_regs (count : Z) : list (Z * Z) :=
  [(LAPIC_SPURIOUS, 0x1FF); (LAPIC_TPR, 0); (LAPIC_TIMER_DIV, 3); (LAPIC_TIMER_LVT, Z.lor IRQ_VECTOR_TIMER LAPIC_TIMER_PERIODIC);
   (LAPIC_TIMER_INIT, count)].

(** *** The accesses *)
Section Registers.
Context (apic ticks : Z) (regs : W -> Z -> Z) (ports : W -> list (Z * Z)) (LAWS : lapic_laws apic ticks regs ports).

(** The view of the hardware: the ports written, the APIC's base register, the registers. *)
Definition view (s : lapic) (ps : list (Z * Z)) (msr : Z) (f : Z -> Z) : Prop :=
  (mapped s apic /\ is_u64 (lapic_base s)) /\ ports (l_hw s) = ps /\ rdmsr (l_hw s) IA32_APIC_BASE_MSR = msr /\ forall q, regs (l_hw s) q = f q.

Lemma write_view s ps msr f reg v : view s ps msr f -> 0 <= reg < PAGE_SIZE ->
  exists s', lapic_write s reg v = Some s' /\ view s' ps msr (fun q => if q =? apic + reg then v else f q).
Proof.
  intros (Hm & Hp & Hr & Hf) Hreg. unfold lapic_write. rewrite (proj1 Hm) by done. cbn [mbind option_bind]. eexists. split; [done|].
  destruct (ll_write _ _ _ _ LAWS (l_hw s) (apic + reg) v) as (E1 & E2 & E3). split; [exact Hm|]. split_and!; cbn [set_hw l_hw].
  - by rewrite E1. - by rewrite E2. - intros q. by rewrite E3, Hf.
Qed.

Lemma read_view s ps msr f reg : view s ps msr f -> 0 <= reg < PAGE_SIZE ->
  exists s', lapic_read s reg = Some ((bus_read (l_hw s) (apic + reg)).1, s') /\ 0 <= (bus_read (l_hw s) (apic + reg)).1 < 2 ^ 32 /\ view s' ps msr f.
Proof.
  intros (Hm & Hp & Hr & Hf) Hreg. unfold lapic_read. rewrite (proj1 Hm) by done. cbn [mbind option_bind].
  pose proof (ll_read _ _ _ _ LAWS (l_hw s) (apic + reg)) as Hl. destruct (bus_read (l_hw s) (apic + reg)) as [v w].
  destruct Hl as (Hv & E1 & E2 & E3). eexists. split; [done|]. split; [done|]. split; [exact Hm|]. split_and!; cbn [set_hw l_hw].
  - by rewrite E1. - by rewrite E2. - intros q. by rewrite E3, Hf.
Qed.

(** Ports leave the registers alone. *)
Definition undisturbed (w w' : W) : Prop := (forall n, rdmsr w' n = rdmsr w n) /\ forall q, regs w' q = regs w q.

Lemma undisturbed_trans w1 w2 w3 : undisturbed w1 w2 -> undisturbed w2 w3 -> undisturbed w1 w3.
Proof. intros [H1 H2] [H3 H4]. split; intros; congruence. Qed.

Lemma out_quiet w p v : undisturbed w (outb w p v).
Proof. by destruct (ll_out _ _ _ _ LAWS w p v) as (_ & ? & ?). Qed.

Lemma in_quiet w p : undisturbed w (inb w p).2.
Proof. pose proof (ll_in _ _ _ _ LAWS w p) as H. destruct (inb w p). by destruct H as (_ & ? & ?). Qed.

Lemma outs_spec l : forall w, let w' := foldl (fun w pv => outb w pv.1 pv.2) w l in undisturbed w w' /\ ports w' = ports w ++ l.
Proof.
  induction l as [|[p v] l IH]; intros w; cbn [foldl fst snd]; [by rewrite app_nil_r|]. destruct (IH (outb w p v)) as [H1 H2]. cbn zeta.
  split; [eapply undisturbed_trans; [apply out_quiet|exact H1]|]. rewrite H2. destruct (ll_out _ _ _ _ LAWS w p v) as (-> & _). by rewrite <- app_assoc.
Qed.

Lemma pit_quiet fuel : forall w w', pit_out fuel w = Some w' -> undisturbed w w' /\ ports w' = ports w.
Proof.
  induction fuel as [|fuel IH]; intros w w'; cbn [pit_out]; [done|]. pose proof (ll_in _ _ _ _ LAWS w 0x61) as H. pose proof (in_quiet w 0x61) as Hq.
  destruct (inb w 0x61) as [v w1]. cbn [snd] in Hq. destruct H as (Hp & _ & _). destruct (negb _).
  - intros [H1 H2]%IH. split; [by eapply undisturbed_trans|]. by rewrite H2.
  - by intros [= <-].
Qed.

(** The ports of the wait: a one-shot of channel 2, ten milliseconds long. *)
Definition pit_writes (gate : Z) : list (Z * Z) := [(0x43, 0xB0); (0x42, 0x9B); (0x42, 0x2E); (0x61, Z.lor (Z.land gate 0xFC) 0x01)].

Lemma wait_view s ps msr f : view s ps msr f -> exists w gate, pit_wait_10ms (l_hw s) = Some w /\ view (set_hw s w) (ps ++ pit_writes gate) msr f.
Proof.
  intros (Hm & Hp & Hr & Hf). destruct (ll_wait _ _ _ _ LAWS (l_hw s)) as [w Hw]. pose proof Hw as Hw'. unfold pit_wait_10ms in Hw'. cbn zeta in Hw'.
  change (u8 (Z.land PIT_10MS 0xFF)) with 0x9B in Hw'. change (u8 (Z.shiftr PIT_10MS 8)) with 0x2E in Hw'.
  destruct (outs_spec [(0x43, 0xB0); (0x42, 0x9B); (0x42, 0x2E)] (l_hw s)) as [Q1 P1]. cbn [foldl fst snd] in Q1, P1.
  set (w1 := outb (outb (outb (l_hw s) _ _) _ _) _ _) in *. pose proof (ll_in _ _ _ _ LAWS w1 0x61) as Hi. pose proof (in_quiet w1 0x61) as Q2.
  destruct (inb w1 0x61) as [gate w2]. cbn [snd] in Q2. destruct Hi as (P2 & _ & _). apply pit_quiet in Hw' as [Q4 P4].
  destruct (ll_out _ _ _ _ LAWS w2 0x61 (Z.lor (Z.land gate 0xFC) 0x01)) as (P3 & _). pose proof (out_quiet w2 0x61 (Z.lor (Z.land gate 0xFC) 0x01)) as Q3.
  exists w, gate. split; [done|]. destruct (undisturbed_trans _ _ _ (undisturbed_trans _ _ _ Q1 Q2) (undisturbed_trans _ _ _ Q3 Q4)) as [Qm Qr].
  split; [exact Hm|]. split_and!; cbn [set_hw l_hw].
  - rewrite P4, P3, P2, P1, Hp. by rewrite <- app_assoc. - by rewrite Qm. - intros q. by rewrite Qr, Hf.
Qed.

Ltac put H := lazymatch goal with |- context [lapic_write ?s ?reg ?v] =>
  let E := fresh in let H' := fresh in
  destruct (write_view s _ _ _ reg v H) as (? & E & H'); [done|]; rewrite E; cbn [mbind option_bind]; clear E H; rename H' into H end.
Ltac get H := lazymatch goal with |- context [lapic_read ?s ?reg] =>
  let E := fresh in let H' := fresh in
  destruct (read_view s _ _ _ reg H) as (? & E & ? & H'); [done|]; rewrite E; cbn [mbind option_bind]; clear E H; rename H' into H end.

Lemma start_timer_spec s ps msr f hz : view s ps msr f -> 0 < hz < 2 ^ 32 -> is_u64 apic ->
  exists s' msgs gate count, start_timer s apic hz = Some (s', msgs) /\ Forall (fun m => call_ok m.1 m.2) msgs /\
    (exists g, view s' (ps ++ pit_writes gate) msr g /\ Forall (fun rv => g (apic + rv.1) = rv.2) (timer_regs count)) /\
    (ticks * 100 < 2 ^ 32 -> count * hz <= ticks * 100 < (count + 1) * hz).
Proof.
  intros H Hhz Hap. unfold start_timer. put H. put H. get H. get H. put H. put H. put H.
  lazymatch type of H with view ?s _ _ _ => destruct (wait_view s _ _ _ H) as (w & gate & E & Hw); pose proof (proj2 (proj2 (proj2 H))) as Hreg;
    pose proof (ll_timer _ _ _ _ LAWS (l_hw s) w) as Ht end.
  rewrite !Hreg, !add_eqb in Ht. specialize (Ht eq_refl eq_refl E). rewrite E. cbn [mbind option_bind]. clear H Hreg E.
  get Hw. cbn [set_hw l_hw] in *. rewrite Ht in *. pose proof (ll_ticks _ _ _ _ LAWS) as Htk.
  replace (4294967295 - (4294967295 - ticks)) with ticks by lia. rewrite (u32_id ticks) by lia. put Hw.
  rewrite (proj2 (Z.eqb_neq hz 0)) by lia. put Hw. put Hw. put Hw. pose proof (u32_range (ticks * 100)) as Hc.
  pose proof (Z.div_pos (u32 (ticks * 100)) hz ltac:(lia) ltac:(lia)). pose proof (Z.div_le_upper_bound (u32 (ticks * 100)) hz (2 ^ 32) ltac:(lia) ltac:(nia)).
  eexists _, _, gate, (u32 (ticks * 100) / hz). split; [reflexivity|]. split.
  - apply init_messages; try done; try (unfold is_u64; lia). apply Hw.
  - split; [eexists; split; [exact Hw|]|].
    + unfold timer_regs. repeat constructor; cbn [fst snd]; rewrite !add_eqb; reflexivity.
    + intros Hlt. rewrite u32_id by lia. pose proof (Z.mul_div_le (ticks * 100) hz ltac:(lia)).
      pose proof (Z.mul_succ_div_gt (ticks * 100) hz ltac:(lia)). set (q := ticks * 100 / hz) in *. nia.
Qed.

End Registers.
End Lapic.

Arguments lapic : clear implicits.

(** C17.  The timer that drives the scheduler.  Unless memory for page tables runs out,
  [lapic_init] returns with the page of the registers mapped, so that every later access
  ([lapic_eoi] of each interrupt) reaches the APIC; the legacy controllers are masked,
  the APIC is enabled for every priority, the timer counts down periodically and
  interrupts with the vector the dispatcher routes to the scheduler.  Its period is as
  many ticks as fit between two of the [hz] interrupts per second, exactly, as long as
  a second has less than 2^32 ticks; and what is printed is well formed. *)
Theorem lapic_init_correct {W : Type} `{IO : PortIO W} `{BUS : ApicBus W} kernel_pml4 hhdm spins ticks regs ports (s : lapic W) hz :
  let msr := rdmsr (l_hw s) IA32_APIC_BASE_MSR in let apic := Z.land msr apic_page in let va := apic + hhdm in
  lapic_laws spins apic ticks regs ports ->
  is_u64 msr -> apic <> 0 -> 0 <= hhdm -> hhdm mod PAGE_SIZE = 0 -> va + PAGE_SIZE <= 2 ^ 64 ->
  path_inv (l_ms s) kernel_pml4 va -> 0 < hz < 2 ^ 32 ->
  free_set (ms_pmm (vmm_map_page (l_ms s) kernel_pml4 va apic REG_FLAGS).2) = ∅ \/
  exists s' msgs gate count, lapic_init kernel_pml4 hhdm spins s hz = Some (s', msgs) /\ Forall (fun m => call_ok m.1 m.2) msgs /\
    mapped kernel_pml4 s' apic /\ rdmsr (l_hw s') IA32_APIC_BASE_MSR = Z.lor msr 0x800 /\
    ports (l_hw s') = ports (l_hw s) ++ pic_writes ++ pit_writes gate /\
    Forall (fun rv => regs (l_hw s') (apic + rv.1) = rv.2) (timer_regs count) /\
    (ticks * 100 < 2 ^ 32 -> count * hz <= ticks * 100 < (count + 1) * hz).
Proof.
  intros msr apic va LAWS Hmsr Hz Hh Ha Hv Hp Hhz. pose proof (apic_frame msr Hmsr Hz) as Hf. fold apic in Hf.
  assert (Hva : va mod PAGE_SIZE = 0) by (destruct Hf as [_ Hf]; unfold va; by rewrite Z.add_mod, Hf, Ha by done).
  destruct (vmm_map_page (l_ms s) kernel_pml4 va apic REG_FLAGS) as [r ms] eqn:Em. cbn [snd].
  unfold lapic_init. cbn zeta. destruct (outs_spec _ _ _ _ _ LAWS pic_writes (l_hw s)) as [[Q1 Q2] P0].
  fold (pic_disable (l_hw s)) in Q1, Q2, P0. cbn [set_hw l_hw l_ms lapic_base]. rewrite Q1. fold msr. fold apic. fold REG_FLAGS.
  assert (Eva : u64 (apic + hhdm) = va) by (apply u64_id; unfold va, PAGE_SIZE in *; destruct Hf; lia). rewrite Eva, Em. cbn [snd].
  set (w1 := wrmsr _ _ _). destruct (ll_msr _ _ _ _ _ LAWS (pic_disable (l_hw s)) IA32_APIC_BASE_MSR (Z.lor msr (Z.shiftl 1 11))) as (P1 & M1 & R1).
  fold w1 in P1, M1, R1. assert (Hva0 : 0 <= va) by (unfold va; destruct Hf; lia).
  destruct (map_registers kernel_pml4 (l_ms s) apic va r ms w1 Hp Hf Hva0 Hv Hva Em) as [[_ Hmap]|[_ Hno]]; [right|by left].
  destruct (start_timer_spec kernel_pml4 spins apic ticks regs ports LAWS (Lapic w1 ms va) (ports (l_hw s) ++ pic_writes) (Z.lor msr 0x800) (regs w1) hz)
    as (s' & msgs & gate & count & E & Hm & (g & ((Hmp & _) & Hps & Hmr & Hg) & Hregs) & Hcount); [|done|unfold is_u64; destruct Hf; lia|].
  - split; [split; [exact Hmap|unfold is_u64, PAGE_SIZE in *; cbn; lia]|]. cbn [l_hw]. rewrite P1, P0, M1, Z.eqb_refl. done.
  - exists s', msgs, gate, count. rewrite <- app_assoc in Hps. split_and!; try done. eapply Forall_impl; [exact Hregs|]. intros rv <-. apply Hg.
Qed.

(** ** A machine for the witness

  The APIC at its usual address, with a timer of 62.5 MHz after the division, and a PIT
  whose output is high at once. *)
Record demo_hw := DemoHw { dh_regs : list (Z * Z); dh_ports : list (Z * Z); dh_msrs : list (Z * Z) }.

Fixpoint assoc (l : list (Z * Z)) (k : Z) : Z :=
  match l with
  | [] => 0
  | (x, v) :: l => if k =? x then v else assoc l k
  end.

Definition demo_apic : Z := 0xFEE00000.

#[export] Instance demo_hw_ports : PortIO demo_hw := {|
  inb w p := (0x20, w);
  outb w p v := DemoHw (dh_regs w) (dh_ports w ++ [(p, v)]) (dh_msrs w)
|}.

#[export] Instance demo_hw_bus : ApicBus demo_hw := {|
  rdmsr w n := assoc (dh_msrs w) n;
  wrmsr w n v := DemoHw (dh_regs w) (dh_ports w) ((n, v) :: dh_msrs w);
  bus_read w p := (if p =? demo_apic + LAPIC_TIMER_CUR then 0xFFFFFFFF - 625000 else u32 (assoc (dh_regs w) p), w);
  bus_write w p v := DemoHw ((p, v) :: dh_regs w) (dh_ports w) (dh_msrs w)
|}.

Lemma demo_hw_laws : lapic_laws 1 demo_apic 625000 (fun w q => assoc (dh_regs w) q) dh_ports.
Proof.
  split; try done.
  - intros w p. cbn [bus_read demo_hw_bus]. split; [|done]. destruct (_ =? _); [lia|apply u32_range].
Qed.

Definition demo_hhdm : Z := 0xFFFF800000000000.
Definition demo_before : lapic demo_hw := Lapic (DemoHw [] [] [(IA32_APIC_BASE_MSR, 0xFEE00100)]) demo_state 0.

Lemma demo_path va : path_inv demo_state demo_root va.
Proof.
  assert (Ht : tables (ms_mem demo_state) demo_root (va_path va) = [demo_root]).
  { unfold va_path. cbn [tables demo_state ms_mem]. by rewrite demo_entry. }
  split; rewrite ?Ht.
  - exact demo_vm_ok.
  - apply NoDup_singleton.
  - constructor; [|done]. split; [by split|vm_compute; discriminate].
  - unfold va_path. cbn [no_huge demo_state ms_mem]. by rewrite demo_entry.
Qed.

(** At 100 interrupts a second the timer starts from 625000 ticks. *)
Lemma lapic_init_correct_witness : exists s' msgs count, lapic_init demo_root demo_hhdm 1 demo_before 100 = Some (s', msgs) /\
  count * 100 <= 62500000 < (count + 1) * 100 /\ assoc (dh_regs (l_hw s')) (demo_apic + LAPIC_TIMER_INIT) = count.
Proof.
  destruct (lapic_init_correct demo_root demo_hhdm 1 625000 (fun w q => assoc (dh_regs w) q) dh_ports demo_before 100) as [He|H].
  - exact demo_hw_laws.
  - by vm_compute.
  - by vm_compute.
  - by vm_compute.
  - by vm_compute.
  - by vm_compute.
  - apply demo_path.
  - lia.
  - exfalso. apply (f_equal (fun X : gset Z => bool_decide (X = ∅))) in He. vm_compute in He. discriminate He.
  - destruct H as (s' & msgs & gate & count & E & _ & _ & _ & _ & Hr & Hc). exists s', msgs, count. split; [exact E|]. split; [by apply Hc|].
    unfold timer_regs in Hr. rewrite !Forall_cons in Hr. destruct Hr as (_ & _ & _ & _ & Hr & _). exact Hr.
Defined.
