(* ===== verification/Device.v ===== *)
(** * The device layer ([dev/device.c], [void/device.h]) and the serial driver
  ([dev/serial_drv.c])

  A static registry of named devices and the instances [dev_open] mints on the kernel
  heap.  Drivers are their operations over the world [W]; names are strings that no one
  changes.  [instances] is the memory at the addresses of instances; freeing an instance
  does not clear it, as in the kernel heap.  The console messages are not
  modelled; the self-test is in [SelfTest]. *)
From S2P Require Import Prelude Interfaces Serial.

Definition DEV_CHAR : Z := 0x01.
Definition DEV_MAX_DEVICES : Z := 32.
Definition DEV_NAME_MAX : Z := 63.
Definition DEV_INSTANCE_MAGIC : Z := 0x0871.
Definition DEV_INSTANCE_SIZE : Z := 16.

Section Device.
Context {W : Type} {H : Type} `{KH : KernelHeap H}.

(** The operations of a driver, [None] for NULL; [op_read] gives the bytes it stored. *)
Record void_device_ops_t := DevOps {
  op_open : option (Z -> W -> Z * W);
  op_close : option (Z -> W -> Z * W);
  op_read : option (Z -> Z -> W -> Z * list Z * W);
  op_write : option (Z -> list Z -> W -> Z * W);
  op_ioctl : option (Z -> Z -> Z -> W -> Z * W)
}.

(** [d_name] is [None] for NULL. *)
Record void_device_t := VoidDevice {
  d_name : option (list Z);
  d_data : Z;
  d_ops : void_device_ops_t;
  d_type : Z;
  d_magic : Z;
  d_ref : Z;
  d_inuse : bool
}.

Record dev_instance_t := DevInstance { i_magic : Z; i_idx : Z; i_birth : Z; i_priv : Z }.

(** The registry and the instances by address, those that were freed included. *)
Record devs := Devs { devices : list void_device_t; instances : gmap Z dev_instance_t }.

Definition ops_none : void_device_ops_t := DevOps None None None None None.
Definition device_zero : void_device_t := VoidDevice None 0 ops_none 0 0 0 false.
Definition devs_zero : devs := Devs (replicate 32 device_zero) ∅.

Definition set_ref (d : void_device_t) (r : Z) : void_device_t :=
  VoidDevice (d_name d) (d_data d) (d_ops d) (d_type d) (d_magic d) r (d_inuse d).
Definition set_slot (g : devs) (i : nat) (d : void_device_t) : devs := Devs (<[i := d]> (devices g)) (instances g).

(** [dev_noread], the read of a device without one. *)
Definition dev_noread : Z -> Z -> W -> Z * list Z * W := fun _ _ w => (- VE_INVAL, [], w).

Definition is_some {A} (o : option A) : bool := match o with Some _ => true | None => false end.

Definition dev_entry_live (d : void_device_t) : bool := d_inuse d && is_some (d_name d) && is_some (op_open (d_ops d)).

(** The slot of an instance, by [i->idx]. *)
Definition slot_of (g : devs) (i : dev_instance_t) : void_device_t := zget device_zero (devices g) (i_idx i).

Definition dev_inst_valid (g : devs) (inst : Z) : bool :=
  match instances g !! inst with
  | None => false
  | Some i =>
      if negb (i_magic i =? DEV_INSTANCE_MAGIC) then false
      else if DEV_MAX_DEVICES <=? i_idx i then false
      else
        let d := slot_of g i in
        dev_entry_live d && negb (d_ref d =? 0) && (i_birth i =? d_magic d)
  end.

Definition dev_init (g : devs) : devs :=
  Devs (imap (fun i d => VoidDevice (d_name d) (d_data d) (d_ops d) (d_type d) (u16 (Z.of_nat i + 0x100)) (d_ref d) (d_inuse d))
          (devices g)) (instances g).

(** ** The registry *)

(** [while (a[i] && b[i] && a[i] == b[i]) i++], and both names end there. *)
Fixpoint dev_name_eq (a b : list Z) : bool :=
  match a, b with
  | [], [] => true
  | x :: a, y :: b => (x =? y) && dev_name_eq a b
  | _, _ => false
  end.

Definition slot_named (nm : list Z) (d : void_device_t) : bool :=
  d_inuse d && match d_name d with Some b => dev_name_eq nm b | None => false end.

(** The loop that measures the name stops at 62 characters. *)
Definition dev_register (g : devs) (dev : void_device_t) : Z * devs :=
  match d_name dev, op_open (d_ops dev) with
  | Some nm, Some _ =>
      let nlen := Z.of_nat (length nm) in
      if DEV_NAME_MAX - 1 <? nlen then (- VE_NAMETOOLONG, g)
      else if nlen =? 0 then (- VE_INVAL, g)
      else if existsb (slot_named nm) (devices g) then (- VE_EXIST, g)
      else
        match first_index (fun d => negb (d_inuse d)) (devices g) with
        | None => (- VE_NOMEM, g)
        | Some k =>
            let ops := d_ops dev in
            let ops := match op_read ops with
                       | Some _ => ops
                       | None => DevOps (op_open ops) (op_close ops) (Some dev_noread) (op_write ops) (op_ioctl ops)
                       end in
            let slot := nth k (devices g) device_zero in
            (0, set_slot g k (VoidDevice (Some nm) (d_data dev) ops (d_type dev) (d_magic slot) 0 true))
        end
  | _, _ => (- VE_INVAL, g)
  end.

Definition dev_find (g : devs) (nm : list Z) : option nat := first_index (slot_named nm) (devices g).

(** The argument is [None] for NULL. *)
Definition dev_unregister (g : devs) (nm : option (list Z)) : Z * devs :=
  match nm with
  | None | Some [] => (- VE_INVAL, g)
  | Some nm =>
      match dev_find g nm with
      | None => (- VE_NOENT, g)
      | Some k =>
          let slot := nth k (devices g) device_zero in
          if negb (d_ref slot =? 0) then (- VE_BUSY, g)
          else (0, set_slot g k (VoidDevice None 0 (d_ops slot) (d_type slot) (d_magic slot) 0 false))
      end
  end.

Definition dev_lookup (g : devs) (nm : option (list Z)) : option nat :=
  match nm with
  | None | Some [] => None
  | Some nm => dev_find g nm
  end.

(** ** Instances *)

(** [if (slot->ops.close) slot->ops.close(priv);] *)
Definition call_close (d : void_device_t) (priv : Z) (w : W) : W :=
  match op_close (d_ops d) with Some f => (f priv w).2 | None => w end.

(** The address of the instance, 0 for NULL. *)
Definition dev_open (g : devs) (h : H) (w : W) (nm : option (list Z)) : Z * devs * H * W :=
  match dev_lookup g nm with
  | None => (0, g, h, w)
  | Some k =>
      let slot := nth k (devices g) device_zero in
      match op_open (d_ops slot) with
      | None => (0, g, h, w)
      | Some open =>
          let '(priv, w) := open (d_data slot) w in
          if priv =? 0 then (0, g, h, w)
          else
            let '(a, h) := kmalloc h DEV_INSTANCE_SIZE in
            if a =? 0 then (0, g, h, call_close slot priv w)
            else
              let g := set_slot g k (set_ref slot (u8 (d_ref slot + 1))) in
              let i := DevInstance DEV_INSTANCE_MAGIC (u8 (Z.of_nat k)) (d_magic slot) priv in
              (a, Devs (devices g) (<[a := i]> (instances g)), h, w)
      end
  end.

Definition dev_close (g : devs) (h : H) (w : W) (inst : Z) : Z * devs * H * W :=
  match instances g !! inst with
  | None => (- VE_INVAL, g, h, w)
  | Some i =>
      if negb (i_magic i =? DEV_INSTANCE_MAGIC) then (- VE_INVAL, g, h, w)
      else if DEV_MAX_DEVICES <=? i_idx i then (- VE_BADF, g, h, w)
      else
        let slot := slot_of g i in
        if negb (dev_entry_live slot) || negb (i_birth i =? d_magic slot) || (d_ref slot =? 0) then (- VE_BADF, g, h, w)
        else
          let w := call_close slot (i_priv i) w in
          let g := set_slot g (Z.to_nat (i_idx i)) (set_ref slot (u8 (d_ref slot - 1))) in
          (0, g, kfree h inst, w)
  end.

(** ** Dispatch *)

Definition dev_inst_slot (g : devs) (inst : Z) : option (void_device_t * Z) :=
  if dev_inst_valid g inst then
    match instances g !! inst with
    | Some i => Some (slot_of g i, i_priv i)
    | None => None
    end
  else None.

Definition dev_read (g : devs) (w : W) (inst n : Z) : Z * list Z * W :=
  match dev_inst_slot g inst with
  | None => (- VE_BADF, [], w)
  | Some (slot, priv) =>
      match op_read (d_ops slot) with None => (- VE_BADF, [], w) | Some f => f priv n w end
  end.

Definition dev_write (g : devs) (w : W) (inst : Z) (buf : list Z) : Z * W :=
  match dev_inst_slot g inst with
  | None => (- VE_BADF, w)
  | Some (slot, priv) =>
      match op_write (d_ops slot) with None => (- VE_BADF, w) | Some f => f priv buf w end
  end.

Definition dev_ioctl (g : devs) (w : W) (inst req arg : Z) : Z * W :=
  match dev_inst_slot g inst with
  | None => (- VE_BADF, w)
  | Some (slot, priv) =>
      match op_ioctl (d_ops slot) with None => (- VE_BADF, w) | Some f => f priv req arg w end
  end.

Definition dev_probe (g : devs) (types : Z) : Z :=
  u32 (Z.of_nat (length (filter (fun d => d_inuse d && has (d_type d) types = true) (devices g)))).

(** ** The serial driver *)
Context `{SP : SerialPort W}.

(** [token]: the address that stands for the port. *)
Context (token : Z).

Definition serial_open : Z -> W -> Z * W := fun _ w => (token, w).
Definition serial_close : Z -> W -> Z * W := fun _ w => (0, w).

(** Gathers what is there, at most [n] bytes, and stops after a newline. *)
Fixpoint gather (n : nat) (w : W) : list Z * W :=
  match n with
  | O => ([], w)
  | S n =>
      let '(ch, w) := serial_getchar w in
      if ch =? -1 then ([], w)
      else if ch =? 10 then ([ch], w)
      else let '(l, w) := gather n w in (ch :: l, w)
  end.

Definition serial_read : Z -> Z -> W -> Z * list Z * W := fun _ n w =>
  let '(l, w) := gather (Z.to_nat n) w in (i32 (Z.of_nat (length l)), l, w).

Definition serial_write : Z -> list Z -> W -> Z * W := fun _ buf w =>
  (i32 (Z.of_nat (length buf)), foldl serial_putchar w buf).

Definition serial_ioctl : Z -> Z -> Z -> W -> Z * W := fun _ _ _ w => (- VE_INVAL, w).

Definition serial_name : list Z := [115; 101; 114; 105; 97; 108].

Definition serial_ops : void_device_ops_t :=
  DevOps (Some serial_open) (Some serial_close) (Some serial_read) (Some serial_write) (Some serial_ioctl).

(** The new registry and the console instance, 0 for NULL. *)
Definition serial_drv_register (g : devs) (h : H) (w : W) : Z * devs * H * W :=
  let '(r, g) := dev_register g (VoidDevice (Some serial_name) 0 serial_ops DEV_CHAR 0 0 false) in
  if negb (r =? 0) then (0, g, h, w) else dev_open g h w (Some serial_name).
End Device.

Arguments void_device_ops_t : clear implicits.
Arguments void_device_t : clear implicits.
Arguments devs : clear implicits.

(** ** What the registry guarantees *)

Lemma dev_name_eq_iff a b : dev_name_eq a b = true <-> a = b.
Proof.
  revert b. induction a as [|x a IH]; intros [|y b]; cbn [dev_name_eq]; try done.
  rewrite andb_true_iff, Z.eqb_eq, IH. naive_solver.
Qed.

Section Registry.
Context {W : Type} {H : Type} `{KH : KernelHeap H} {inv : gset Z -> H -> Prop} `{KL : !KernelHeapLaws H inv}.
Notation devs := (devs W).
Implicit Types (g : devs) (O : gmap Z dev_instance_t).

(** The open instances of slot [k]. *)
Definition of_slot (k : nat) (p : Z * dev_instance_t) : Prop := i_idx p.2 = Z.of_nat k.

#[local] Instance of_slot_dec k p : Decision (of_slot k p).
Proof. unfold of_slot. apply _. Defined.

Definition refs_of (k : nat) O : nat := size (filter (of_slot k) O).

(** [O]: the instances that are open. *)
Record dev_ok g O (h : H) : Prop := {
  dk_len : length (devices g) = 32%nat;
  dk_live : forall k d, devices g !! k = Some d -> d_inuse d = true -> dev_entry_live d = true /\ d_name d <> Some [];
  dk_names : forall j k d e nm, devices g !! j = Some d -> devices g !! k = Some e ->
    slot_named nm d = true -> slot_named nm e = true -> j = k;
  dk_ref : forall k d, devices g !! k = Some d -> d_ref d = Z.of_nat (refs_of k O) /\ d_ref d < 256 /\ (d_inuse d = false -> d_ref d = 0);
  dk_open : forall a i, O !! a = Some i -> a <> 0 /\ instances g !! a = Some i /\ i_magic i = DEV_INSTANCE_MAGIC /\ 0 <= i_idx i < 32 /\
    i_birth i = d_magic (slot_of g i);
  dk_heap : exists L, inv L h /\ dom O ⊆ L
}.

(** Programs open and close devices; what was closed is not used again.  No device is
  opened when it is open 255 times. *)
Inductive dev_run : devs -> gmap Z dev_instance_t -> H -> W -> Prop :=
  | dr_init L h w : inv L h -> dev_run (dev_init devs_zero) ∅ h w
  | dr_register g O h w dev : dev_run g O h w -> dev_run (dev_register g dev).2 O h w
  | dr_unregister g O h w nm : dev_run g O h w -> dev_run (dev_unregister g nm).2 O h w
  | dr_open g O h w nm a g' h' w' : dev_run g O h w ->
      (forall k d, dev_lookup g nm = Some k -> devices g !! k = Some d -> d_ref d < 255) ->
      dev_open g h w nm = (a, g', h', w') ->
      dev_run g' (if a =? 0 then O else match instances g' !! a with Some i => <[a := i]> O | None => O end) h' w'
  | dr_close g O h w a r g' h' w' : dev_run g O h w -> is_Some (O !! a) -> dev_close g h w a = (r, g', h', w') ->
      dev_run g' (delete a O) h' w'
  | dr_other g O h w h' w' L : dev_run g O h w -> inv L h' -> dom O ⊆ L -> dev_run g O h' w'.

Lemma refs_insert k a i O : O !! a = None ->
  refs_of k (<[a := i]> O) = (refs_of k O + if decide (i_idx i = Z.of_nat k) then 1 else 0)%nat.
Proof.
  intros Ha. unfold refs_of. case_decide as Hk.
  - rewrite map_filter_insert_True by done. rewrite map_size_insert_None; [lia|]. by rewrite map_lookup_filter_None; left.
  - rewrite map_filter_insert_not'; [lia|done|]. by rewrite Ha.
Qed.

Lemma refs_delete k a i O : O !! a = Some i ->
  refs_of k O = (refs_of k (delete a O) + if decide (i_idx i = Z.of_nat k) then 1 else 0)%nat.
Proof. intros Ha. rewrite <- (insert_delete_id O a i Ha) at 1. apply refs_insert. by rewrite lookup_delete_eq. Qed.

Lemma refs_pos k a i O : O !! a = Some i -> i_idx i = Z.of_nat k -> (1 <= refs_of k O)%nat.
Proof. intros Ha Hk. rewrite (refs_delete k a i O Ha), decide_True by done. lia. Qed.

Lemma refs_zero k O : refs_of k O = 0%nat -> forall a i, O !! a = Some i -> i_idx i <> Z.of_nat k.
Proof. intros Hz a i Ha Hk. pose proof (refs_pos k a i O Ha Hk). lia. Qed.

(** A slot that changes, but not its magic. *)
Lemma slot_of_set g k d i : d_magic d = d_magic (nth k (devices g) device_zero) ->
  d_magic (slot_of (set_slot g k d) i) = d_magic (slot_of g i).
Proof.
  intros Hm. unfold slot_of, set_slot, zget. cbn [devices].
  destruct (decide (k = Z.to_nat (i_idx i))) as [->|Hne]; [|by rewrite !nth_lookup, list_lookup_insert_ne].
  destruct (decide (Z.to_nat (i_idx i) < length (devices g))%nat) as [Hlt|Hge].
  - rewrite nth_lookup, list_lookup_insert_eq by done. exact Hm.
  - by rewrite list_insert_ge by lia.
Qed.

Definition open_ok g (a : Z) (i : dev_instance_t) : Prop :=
  a <> 0 /\ instances g !! a = Some i /\ i_magic i = DEV_INSTANCE_MAGIC /\ 0 <= i_idx i < 32 /\ i_birth i = d_magic (slot_of g i).

Lemma set_slot_ok g O O' h h' k d d' : dev_ok g O h -> devices g !! k = Some d -> d_magic d' = d_magic d ->
  (d_inuse d' = true -> dev_entry_live d' = true /\ d_name d' <> Some []) ->
  (forall nm j e, slot_named nm d' = true -> devices g !! j = Some e -> slot_named nm e = true -> j = k) ->
  (d_ref d' = Z.of_nat (refs_of k O') /\ d_ref d' < 256 /\ (d_inuse d' = false -> d_ref d' = 0)) ->
  (forall j, j <> k -> refs_of j O' = refs_of j O) ->
  (forall a i, O' !! a = Some i -> open_ok g a i) -> (exists L, inv L h' /\ dom O' ⊆ L) ->
  dev_ok (set_slot g k d') O' h'.
Proof.
  intros [L V N R P Hh] Ek Hm Hv Hn Hr Hj Hop Hh'. assert (Hk : (k < length (devices g))%nat) by by eapply lookup_lt_Some.
  assert (Hnth : nth k (devices g) device_zero = d) by (by rewrite nth_lookup, Ek). split.
  - cbn. by rewrite length_insert.
  - intros j x [(<- & <- & _)|[_ Hx]]%list_lookup_insert_Some Hu; [by apply Hv|by apply (V j)].
  - intros j j' x y nm [(<- & <- & _)|[Hne Hx]]%list_lookup_insert_Some [(<- & <- & _)|[Hne' Hy]]%list_lookup_insert_Some Hnx Hny.
    + done. + symmetry. by apply (Hn nm j' y). + by apply (Hn nm j x). + by apply (N j j' x y nm).
  - intros j x [(<- & <- & _)|[Hne Hx]]%list_lookup_insert_Some; [done|]. rewrite Hj by done. by apply R.
  - intros a i (Ha & Hi & Hmg & Hx & Hb)%Hop. split_and!; [done|done|done|lia|lia|]. rewrite slot_of_set; [done|]. by rewrite Hnth.
  - done.
Qed.

Lemma init_ok L h : inv L h -> dev_ok (dev_init (@devs_zero W)) ∅ h.
Proof.
  intros Hi. assert (Hd : forall k d, devices (dev_init (@devs_zero W)) !! k = Some d ->
      d_inuse d = false /\ d_ref d = 0).
  { intros k d. cbn [dev_init devices devs_zero]. rewrite list_lookup_imap. intros (x & Hx & ->)%fmap_Some.
    by apply lookup_replicate in Hx as [-> _]. }
  split; try done.
  - intros k d Hk Hu. destruct (Hd k d Hk). congruence.
  - intros j k d e nm Hj _ Hn _. destruct (Hd j d Hj) as [Hu _]. unfold slot_named in Hn. by rewrite Hu in Hn.
  - intros k d Hk. by destruct (Hd k d Hk) as [_ ->].
  - exists L. split; [done|]. rewrite dom_empty_L. set_solver.
Qed.

Lemma find_some g nm k : dev_find g nm = Some k -> exists d, devices g !! k = Some d /\ slot_named nm d = true.
Proof. intros (d & Hk & Hd & _)%first_index_Some. by exists d. Qed.

Lemma named_eq nm nm' (d : void_device_t W) : slot_named nm d = true -> slot_named nm' d = true -> nm = nm'.
Proof.
  unfold slot_named. destruct (d_name d); [|by rewrite andb_false_r].
  intros [_ ->%dev_name_eq_iff]%andb_prop [_ ->%dev_name_eq_iff]%andb_prop. done.
Qed.

Lemma register_ok g O h dev : dev_ok g O h -> dev_ok (dev_register g dev).2 O h.
Proof.
  intros Ho. unfold dev_register. destruct (d_name dev) as [nm|]; [|done]. destruct (op_open (d_ops dev)) as [op|] eqn:Eo; [|done].
  cbn zeta. destruct (_ <? _); [done|]. destruct (Z.eqb_spec (Z.of_nat (length nm)) 0) as [|Hnz]; [done|].
  destruct (existsb (slot_named nm) (devices g)) eqn:Ex; [done|].
  destruct (first_index _ (devices g)) as [k|] eqn:Ek; [|done]. apply first_index_Some in Ek as (d & Hk & Hu%negb_true_iff & _).
  rewrite (nth_lookup_Some _ _ _ d Hk). cbn [snd]. apply (set_slot_ok g O O h h k d); try done.
  - intros _. unfold dev_entry_live. cbn [d_inuse d_name d_ops is_some andb].
    split; [destruct (op_read (d_ops dev)); cbn [op_open]; by rewrite ?Eo|]. intros [= ->]. done.
  - intros nm' j e Hn Hj He. exfalso. unfold slot_named in Hn. cbn [d_inuse d_name andb] in Hn. apply dev_name_eq_iff in Hn as ->.
    apply not_true_iff_false in Ex. apply Ex, existsb_exists. exists e. split; [|done].
    apply list_elem_of_In. by eapply list_elem_of_lookup_2.
  - cbn. destruct (dk_ref _ _ _ Ho k d Hk) as (Hr & _ & H0). specialize (H0 Hu). split_and!; [lia|lia|done].
  - intros a i Ha. by apply (dk_open _ _ _ Ho).
  - by apply (dk_heap _ _ _ Ho).
Qed.

Lemma unregister_ok g O h nm : dev_ok g O h -> dev_ok (dev_unregister g nm).2 O h.
Proof.
  intros Ho. unfold dev_unregister. destruct nm as [[|c nm]|]; [done| |done]. destruct (dev_find g (c :: nm)) as [k|] eqn:Ek; [|done].
  apply find_some in Ek as (d & Hk & Hn). rewrite (nth_lookup_Some _ _ _ d Hk).
  destruct (Z.eqb_spec (d_ref d) 0) as [H0|]; [|done]. cbn [negb snd]. apply (set_slot_ok g O O h h k d); try done.
  - destruct (dk_ref _ _ _ Ho k d Hk) as (Hr & _). cbn. split_and!; [lia|lia|done].
  - intros a i Ha. by apply (dk_open _ _ _ Ho).
  - by apply (dk_heap _ _ _ Ho).
Qed.

Lemma heap_ok g O h h' : dev_ok g O h -> (exists L, inv L h' /\ dom O ⊆ L) -> dev_ok g O h'.
Proof. intros [] ?. by split. Qed.

Lemma named_ref nm (d : void_device_t W) r : slot_named nm (set_ref d r) = slot_named nm d.
Proof. done. Qed.

Lemma open_spec g O h w nm a g' h' w' : dev_ok g O h ->
  (forall k d, dev_lookup g nm = Some k -> devices g !! k = Some d -> d_ref d < 255) ->
  dev_open g h w nm = (a, g', h', w') ->
  dev_ok g' (if a =? 0 then O else match instances g' !! a with Some i => <[a := i]> O | None => O end) h' /\
  (a <> 0 -> O !! a = None /\ exists i k, instances g' !! a = Some i /\ dev_lookup g nm = Some k /\ i_idx i = Z.of_nat k).
Proof.
  intros Ho Hlt. unfold dev_open. destruct (dev_lookup g nm) as [k|] eqn:El; [|intros [= <- <- <- <-]; done].
  assert (Hk : exists d n, devices g !! k = Some d /\ slot_named n d = true).
  { unfold dev_lookup in El. destruct nm as [[|c nm]|]; [done| |done]. apply find_some in El as (d & ? & ?). eauto. }
  destruct Hk as (d & n & Hk & Hn). rewrite (nth_lookup_Some _ _ _ d Hk). cbn zeta.
  specialize (Hlt k d eq_refl Hk). destruct (op_open (d_ops d)) as [op|]; [|intros [= <- <- <- <-]; done].
  destruct (op (d_data d) w) as [priv w1]. destruct (priv =? 0); [intros [= <- <- <- <-]; done|].
  destruct (dk_heap _ _ _ Ho) as (L & Hi & HL). pose proof (kmalloc_fresh L h DEV_INSTANCE_SIZE ltac:(done) ltac:(by intros []) Hi) as Hf.
  destruct (kmalloc h DEV_INSTANCE_SIZE) as [b h1]. destruct (Z.eqb_spec b 0) as [->|Hb].
  { intros [= <- <- <- <-]. split; [|done]. apply (heap_ok g O h); [done|]. by exists L. }
  destruct Hf as [Hfr Hi1]. set (i := DevInstance _ _ _ _). intros [= <- <- <- <-]. rewrite (proj2 (Z.eqb_neq b 0)) by done.
  cbn [instances set_slot devices]. rewrite lookup_insert_eq.
  assert (Hnew : O !! b = None). { apply not_elem_of_dom. intros Hin. by apply Hfr, HL. }
  assert (Hk32 : (k < 32)%nat) by (rewrite <- (dk_len _ _ _ Ho); by eapply lookup_lt_Some).
  assert (Eidx : i_idx i = Z.of_nat k) by (apply u8_id; lia). split; [|intros _; split; [done|by exists i, k]].
  set (g1 := Devs (devices g) (<[b := i]> (instances g))).
  assert (Ho1 : dev_ok g1 O h).
  { destruct Ho as [L0 V N R P Hh]. split; try done. intros x y Hx. destruct (P x y Hx) as (? & ? & ? & ? & ?). split_and!; try (done || lia).
    cbn. rewrite lookup_insert_ne; [done|]. intros ->. congruence. }
  change (Devs _ _) with (set_slot g1 k (set_ref d (u8 (d_ref d + 1)))).
  destruct (dk_ref _ _ _ Ho k d Hk) as (Hr & _ & _).
  assert (Hrf : forall j, refs_of j (<[b := i]> O) = (refs_of j O + if decide (i_idx i = Z.of_nat j) then 1 else 0)%nat)
    by (intros j; by apply refs_insert).
  apply (set_slot_ok g1 O _ h h1 k d); try done.
  - intros Hu. exact (dk_live _ _ _ Ho k d Hk Hu).
  - intros nm' j e Hn' Hj He. by apply (dk_names _ _ _ Ho j k e d nm').
  - cbn [d_ref set_ref d_inuse]. rewrite Hrf, decide_True by done. rewrite u8_id by lia. split_and!; [lia|lia|].
    intros Hu. exfalso. unfold slot_named in Hn. by rewrite Hu in Hn.
  - intros j Hj. rewrite Hrf, decide_False by (rewrite Eidx; lia). lia.
  - intros x y [[<- <-]|[Hne Hx]]%lookup_insert_Some.
    + split_and!; [done|apply lookup_insert_eq|done|lia|lia|]. unfold slot_of, zget. rewrite Eidx, Nat2Z.id. cbn [devices g1].
      by rewrite (nth_lookup_Some _ _ _ d Hk).
    + by apply (dk_open _ _ _ Ho1).
  - exists ({[b]} ∪ L). split; [done|]. rewrite dom_insert_L. set_solver.
Qed.

(** An open instance passes every check. *)
Lemma open_valid g O h a i : dev_ok g O h -> O !! a = Some i ->
  dev_inst_valid g a = true /\ exists d, devices g !! Z.to_nat (i_idx i) = Some d /\ slot_of g i = d /\ dev_entry_live d = true /\
    d_magic d = i_birth i /\ 0 < d_ref d.
Proof.
  intros Ho Hi. destruct (dk_open _ _ _ Ho a i Hi) as (_ & Hin & Hm & Hx & Hb).
  destruct (lookup_lt_is_Some_2 (devices g) (Z.to_nat (i_idx i))) as [d Hd]; [rewrite (dk_len _ _ _ Ho); lia|].
  assert (Es : slot_of g i = d) by (unfold slot_of, zget; by apply nth_lookup_Some). rewrite Es in Hb.
  destruct (dk_ref _ _ _ Ho _ d Hd) as (Hr & _ & Hu).
  pose proof (refs_pos (Z.to_nat (i_idx i)) a i O Hi ltac:(lia)) as Hpos.
  assert (Hl : dev_entry_live d = true).
  { apply (dk_live _ _ _ Ho _ d Hd). destruct (d_inuse d); [done|]. specialize (Hu eq_refl). lia. }
  split; [|exists d; split_and!; try done; lia]. unfold dev_inst_valid. rewrite Hin, Hm, Z.eqb_refl. cbn [negb].
  rewrite (proj2 (Z.leb_gt _ _)) by (unfold DEV_MAX_DEVICES; lia). cbn zeta. rewrite Es, Hl, Hb, Z.eqb_refl.
  by rewrite (proj2 (Z.eqb_neq _ _)) by lia.
Qed.

Lemma close_spec g O h w a i r g' h' w' : dev_ok g O h -> O !! a = Some i -> dev_close g h w a = (r, g', h', w') ->
  dev_ok g' (delete a O) h' /\ r = 0.
Proof.
  intros Ho Hi. destruct (open_valid g O h a i Ho Hi) as (_ & d & Hd & Es & Hl & Hmag & Hpos).
  destruct (dk_open _ _ _ Ho a i Hi) as (Ha & Hin & Hm & Hx & Hb). unfold dev_close. rewrite Hin, Hm, Z.eqb_refl. cbn [negb].
  rewrite (proj2 (Z.leb_gt _ _)) by (unfold DEV_MAX_DEVICES; lia). cbn zeta. rewrite Es, Hl, Hmag, Z.eqb_refl.
  rewrite (proj2 (Z.eqb_neq (d_ref d) 0)) by lia. cbn [negb orb]. intros [= <- <- <- <-]. split; [|done].
  set (k := Z.to_nat (i_idx i)) in *. assert (Ek : i_idx i = Z.of_nat k) by lia.
  destruct (dk_ref _ _ _ Ho k d Hd) as (Hr & Hlt & Hu).
  assert (Hrf : forall j, refs_of j O = (refs_of j (delete a O) + if decide (i_idx i = Z.of_nat j) then 1 else 0)%nat)
    by (intros j; by apply refs_delete).
  apply (set_slot_ok g O (delete a O) h _ k d); try done.
  - intros Hx'. exact (dk_live _ _ _ Ho k d Hd Hx').
  - intros nm' j e Hn' Hj He. by apply (dk_names _ _ _ Ho j k e d nm').
  - cbn [d_ref set_ref d_inuse]. rewrite Hrf, decide_True in Hr by done. rewrite u8_id by lia. split_and!; [lia|lia|].
    intros Hx'. specialize (Hu Hx'). lia.
  - intros j Hj. rewrite (Hrf j), decide_False by (rewrite Ek; lia). lia.
  - intros x y [_ Hx']%lookup_delete_Some. by apply (dk_open _ _ _ Ho).
  - destruct (dk_heap _ _ _ Ho) as (L & Hi' & HL). exists (L ∖ {[a]}). split.
    + apply kfree_inv; [done|]. apply HL, elem_of_dom. by eexists.
    + rewrite dom_delete_L. set_solver.
Qed.

Lemma dev_run_ok g O h w : dev_run g O h w -> dev_ok g O h.
Proof.
  induction 1 as [L h w Hi|g O h w dev _ IH|g O h w nm _ IH|g O h w nm a g' h' w' _ IH Hlt E|g O h w a r g' h' w' _ IH [i Hi] E
    |g O h w h' w' L _ IH Hi HL].
  - by apply (init_ok L).
  - by apply register_ok.
  - by apply unregister_ok.
  - by destruct (open_spec g O h w nm a g' h' w' IH Hlt E).
  - by destruct (close_spec g O h w a i r g' h' w' IH Hi E).
  - apply (heap_ok g O h); [done|]. by exists L.
Qed.

(** What is registered: slot [k] is in use under the name [nm]. *)
Definition device_at g (nm : list Z) (k : nat) (d : void_device_t W) : Prop :=
  devices g !! k = Some d /\ d_inuse d = true /\ d_name d = Some nm.

Lemma slot_named_iff nm (d : void_device_t W) : slot_named nm d = true <-> d_inuse d = true /\ d_name d = Some nm.
Proof.
  unfold slot_named. rewrite andb_true_iff. destruct (d_name d) as [b|]; [|naive_solver].
  rewrite dev_name_eq_iff. naive_solver.
Qed.

Lemma find_at g O h nm k : dev_ok g O h -> dev_find g nm = Some k <-> exists d, device_at g nm k d.
Proof.
  intros Ho. split.
  - intros (d & Hk & Hd%slot_named_iff)%find_some. by exists d.
  - intros (d & Hk & Hd). apply (first_index_unique _ _ k d); [done|by apply slot_named_iff|].
    intros j y Hj Hy. apply (dk_names _ _ _ Ho j k y d nm); [done..|by apply slot_named_iff].
Qed.

Lemma find_none g nm : dev_find g nm = None <-> forall k d, ~ device_at g nm k d.
Proof.
  unfold dev_find. rewrite first_index_None. split.
  - intros Hf k d (Hk & Hd). apply list_elem_of_lookup_2, Hf in Hk. apply slot_named_iff in Hd. congruence.
  - intros Hf d [k Hk]%list_elem_of_lookup. apply not_true_is_false. intros Hd%slot_named_iff. by apply (Hf k d).
Qed.

(** Writing slot [k]: every other slot keeps its device. *)
Lemma at_set_ne g k d' nm j d : j <> k -> device_at (set_slot g k d') nm j d <-> device_at g nm j d.
Proof. intros Hj. unfold device_at, set_slot. cbn [devices]. by rewrite list_lookup_insert_ne. Qed.

(** [g'] is [g] but for the device of one name. *)
Definition others_kept g g' (nm : list Z) : Prop :=
  instances g' = instances g /\ forall nm' j d, nm' <> nm -> device_at g' nm' j d <-> device_at g nm' j d.

Lemma others_set g k d0 d' nm : devices g !! k = Some d0 -> (d_inuse d0 = true -> d_name d0 = Some nm) ->
  (d_inuse d' = true -> d_name d' = Some nm) -> others_kept g (set_slot g k d') nm.
Proof.
  intros Hk H0 H1. split; [done|]. intros nm' j d Hne. destruct (decide (j = k)) as [->|]; [|by apply at_set_ne].
  unfold device_at, set_slot. cbn [devices]. rewrite list_lookup_insert_eq by by eapply lookup_lt_Some. rewrite Hk.
  split; intros ([= <-] & Hu & Hn); exfalso; apply Hne; [specialize (H1 Hu)|specialize (H0 Hu)]; congruence.
Qed.

(** Unregistering a name: refused while it is in use, and otherwise it is gone. *)
Lemma dev_unregister_spec g O h nm : dev_ok g O h -> nm <> [] ->
  let '(r, g') := dev_unregister g (Some nm) in
  ((forall k d, ~ device_at g nm k d) /\ r = - VE_NOENT /\ g' = g) \/
  (exists k d, device_at g nm k d /\ (0 < refs_of k O)%nat /\ r = - VE_BUSY /\ g' = g) \/
  (exists k d, device_at g nm k d /\ refs_of k O = 0%nat /\ r = 0 /\
     (forall j e, ~ device_at g' nm j e) /\ others_kept g g' nm).
Proof.
  intros Ho Hnm. unfold dev_unregister. destruct nm as [|c nm]; [done|]. set (name := c :: nm) in *.
  destruct (dev_find g name) as [k|] eqn:Ek; [|left; split; [by apply find_none|done]].
  apply (find_at g O h name k Ho) in Ek as (d & Hat). pose proof Hat as (Hk & Hu & Hn). rewrite (nth_lookup_Some _ _ _ d Hk).
  destruct (dk_ref _ _ _ Ho k d Hk) as (Hr & _). destruct (Z.eqb_spec (d_ref d) 0) as [Hz|Hz]; cbn [negb]; right; [right|left]; exists k, d.
  - split_and!; [done|lia|done| |by eapply others_set]. intros j e He. destruct (decide (j = k)) as [->|Hne].
    + destruct He as (He & Hue & _). unfold set_slot in He. cbn [devices] in He.
      rewrite list_lookup_insert_eq in He by by eapply lookup_lt_Some. injection He as <-. done.
    + apply at_set_ne in He as (He & Hue & Hnm'); [|done]. apply Hne.
      apply (dk_names _ _ _ Ho j k e d name); [done|done|by apply slot_named_iff..].
  - split_and!; [done|lia|done|done].
Qed.

(** Registering a device. *)
Lemma dev_register_spec g O h dev nm : dev_ok g O h -> d_name dev = Some nm -> op_open (d_ops dev) <> None ->
  (0 < length nm <= 62)%nat ->
  let '(r, g') := dev_register g dev in
  ((exists k d, device_at g nm k d) /\ r = - VE_EXIST /\ g' = g) \/
  ((forall d, d ∈ devices g -> d_inuse d = true) /\ r = - VE_NOMEM /\ g' = g) \/
  (r = 0 /\ (forall k d, ~ device_at g nm k d) /\ others_kept g g' nm /\ exists k d, device_at g' nm k d /\
     d_data d = d_data dev /\ d_type d = d_type dev /\ d_ref d = 0 /\ op_open (d_ops d) = op_open (d_ops dev) /\
     op_close (d_ops d) = op_close (d_ops dev) /\ op_write (d_ops d) = op_write (d_ops dev) /\ op_ioctl (d_ops d) = op_ioctl (d_ops dev) /\
     op_read (d_ops d) = Some (default dev_noread (op_read (d_ops dev)))).
Proof.
  intros Ho En Eo Hl. unfold dev_register. rewrite En. destruct (op_open (d_ops dev)) as [op|] eqn:Eop; [|done]. cbn zeta.
  rewrite (proj2 (Z.ltb_ge (DEV_NAME_MAX - 1) _)) by (unfold DEV_NAME_MAX; lia). rewrite (proj2 (Z.eqb_neq _ 0)) by lia.
  destruct (existsb (slot_named nm) (devices g)) eqn:Ex.
  { left. apply existsb_exists in Ex as (d & [k Hk]%list_elem_of_In%list_elem_of_lookup & Hd%slot_named_iff). split; [|done]. by exists k, d. }
  assert (Hno : forall k d, ~ device_at g nm k d).
  { intros k d (Hk & Hd). apply not_true_iff_false in Ex. apply Ex, existsb_exists. exists d.
    split; [apply list_elem_of_In; by eapply list_elem_of_lookup_2|by apply slot_named_iff]. }
  destruct (first_index _ (devices g)) as [k|] eqn:Ek.
  2:{ right. left. split; [|done]. intros d Hd. rewrite first_index_None in Ek. specialize (Ek d Hd). by apply negb_false_iff in Ek. }
  right. right. apply first_index_Some in Ek as (d0 & Hk & Hu%negb_true_iff & _). rewrite (nth_lookup_Some _ _ _ d0 Hk).
  split_and!; [done|done|eapply others_set; [done|by rewrite Hu|done]|]. exists k. eexists. split.
  { split; [cbn [devices set_slot]; apply list_lookup_insert_eq; by eapply lookup_lt_Some|done]. }
  cbn [d_data d_type d_ref d_ops]. destruct (op_read (d_ops dev)) as [rd|] eqn:Er; cbn [op_open op_close op_write op_ioctl op_read default]; by split_and!.
Qed.

(** C26.  The device registry keeps its promise to its users.  After any run of
  registering, unregistering, opening and closing in which no device is open more than
  255 times at once and no instance is closed twice ([device_ref_wraps] and
  [device_double_close] show what happens otherwise): a name stands for at most one
  device, and [dev_lookup] finds it.  Registering a new name adds exactly that device, with
  its operations; a name in use and a full table are refused.  Unregistering a name
  removes exactly its device when no instance of it is open, so that it is found no
  more, and is refused, without effect, when one is or there is no such device.  Every
  open instance stays valid: its writes reach the driver of its device and closing it
  succeeds.  Opening fails or gives a new instance of the device of that name. *)
Theorem device_registry_sound g O h w : dev_run g O h w ->
  (forall nm k, nm <> [] -> dev_lookup g (Some nm) = Some k <-> exists d, device_at g nm k d) /\
  (forall nm j k d e, device_at g nm j d -> device_at g nm k e -> j = k) /\
  (forall dev nm, d_name dev = Some nm -> op_open (d_ops dev) <> None -> (0 < length nm <= 62)%nat ->
     let '(r, g') := dev_register g dev in
     ((exists k d, device_at g nm k d) /\ r = - VE_EXIST /\ g' = g) \/
     ((forall d, d ∈ devices g -> d_inuse d = true) /\ r = - VE_NOMEM /\ g' = g) \/
     (r = 0 /\ (forall k d, ~ device_at g nm k d) /\ others_kept g g' nm /\ exists k d, device_at g' nm k d /\
        d_data d = d_data dev /\ d_type d = d_type dev /\ d_ref d = 0 /\ op_open (d_ops d) = op_open (d_ops dev) /\
        op_close (d_ops d) = op_close (d_ops dev) /\ op_write (d_ops d) = op_write (d_ops dev) /\
        op_ioctl (d_ops d) = op_ioctl (d_ops dev) /\ op_read (d_ops d) = Some (default dev_noread (op_read (d_ops dev))))) /\
  (forall nm, nm <> [] -> let '(r, g') := dev_unregister g (Some nm) in
     ((forall k d, ~ device_at g nm k d) /\ r = - VE_NOENT /\ g' = g) \/
     (exists k d, device_at g nm k d /\ (0 < refs_of k O)%nat /\ r = - VE_BUSY /\ g' = g) \/
     (exists k d, device_at g nm k d /\ refs_of k O = 0%nat /\ r = 0 /\
        (forall j e, ~ device_at g' nm j e) /\ others_kept g g' nm)) /\
  (forall a i buf, O !! a = Some i -> exists d, devices g !! Z.to_nat (i_idx i) = Some d /\ dev_inst_valid g a = true /\
     (dev_close g h w a).1.1.1 = 0 /\
     dev_write g w a buf = match op_write (d_ops d) with Some f => f (i_priv i) buf w | None => (- VE_BADF, w) end) /\
  (forall nm a g' h' w', (forall k d, dev_lookup g nm = Some k -> devices g !! k = Some d -> d_ref d < 255) ->
     dev_open g h w nm = (a, g', h', w') -> a = 0 \/ (O !! a = None /\ exists i k, instances g' !! a = Some i /\
       dev_lookup g nm = Some k /\ i_idx i = Z.of_nat k)).
Proof.
  intros Ho%dev_run_ok. split; [|split; [|split; [|split; [|split]]]].
  - intros nm k Hnm. destruct nm as [|c nm]; [done|]. by apply (find_at g O h).
  - intros nm j k d e (Hj & Hd) (Hk & He). apply (dk_names _ _ _ Ho j k d e nm); [done|done|by apply slot_named_iff..].
  - intros dev nm. by apply (dev_register_spec g O h).
  - intros nm. by apply (dev_unregister_spec g O h).
  - intros a i buf Hi. destruct (open_valid g O h a i Ho Hi) as (Hv & d & Hd & Es & Hl & _). exists d. split_and!; [done|done| |].
    + destruct (dev_close g h w a) as [[[r g'] h'] w'] eqn:E. by destruct (close_spec g O h w a i r g' h' w' Ho Hi E).
    + unfold dev_write, dev_inst_slot. rewrite Hv. destruct (dk_open _ _ _ Ho a i Hi) as (_ & -> & _). by rewrite Es.
  - intros nm a g' h' w' Hlt E. destruct (open_spec g O h w nm a g' h' w' Ho Hlt E) as [_ Hn].
    destruct (decide (a = 0)) as [|Ha]; [by left|right; by apply Hn].
Qed.

(** An instance of the serial driver. *)
Definition console_ok `{SP : SerialPort W} g (inst : Z) : Prop :=
  exists priv, (forall w buf, dev_write g w inst buf = serial_write priv buf w) /\
    (forall w n, dev_read g w inst n = serial_read priv n w).

(** Registering the serial driver gives the console when the registry has room, the
  name is free and there is memory for the instance. *)
Lemma serial_drv_spec `{SP : SerialPort W} token g O h w inst g' h' w' : dev_ok g O h -> token <> 0 ->
  serial_drv_register token g h w = (inst, g', h', w') -> inst <> 0 -> console_ok g' inst /\ w' = w.
Proof.
  intros Ho Ht. unfold serial_drv_register. set (dev := VoidDevice _ _ _ _ _ _ _).
  pose proof (register_ok g O h dev Ho) as Ho1. unfold dev_register in *.
  change (d_name dev) with (Some serial_name) in *. change (op_open (d_ops dev)) with (Some (serial_open (W := W) token)) in *.
  cbn zeta iota in *. change (DEV_NAME_MAX - 1 <? Z.of_nat (length serial_name)) with false in *.
  change (Z.of_nat (length serial_name) =? 0) with false in *. cbn iota in *.
  destruct (existsb (slot_named serial_name) (devices g)) eqn:Ex; [cbn; by intros [= <- _ _ _]|].
  destruct (first_index _ (devices g)) as [k|] eqn:Ek; [|cbn; by intros [= <- _ _ _]].
  apply first_index_Some in Ek as (d0 & Hk & Hu & _). pose proof (lookup_lt_Some _ _ _ Hk) as Hlt.
  change (match op_read (d_ops dev) with Some _ => d_ops dev | None => _ end) with (serial_ops (W := W) token) in *.
  match goal with |- context [set_slot g k ?d] => set (d1 := d) in * end. set (g1 := set_slot g k d1) in *. cbn [Z.eqb negb fst snd] in *.
  assert (Hk1 : devices g1 !! k = Some d1) by by apply list_lookup_insert_eq.
  unfold dev_open, dev_lookup, serial_name at 1. fold serial_name.
  assert (Ef : dev_find g1 serial_name = Some k).
  { apply (first_index_unique _ _ k d1); [done|reflexivity|]. intros j y Hj Hn.
    by apply (dk_names _ _ _ Ho1 j k y d1 serial_name). }
  rewrite Ef, (nth_lookup_Some _ _ _ d1 Hk1). cbn [d_ops d1 serial_ops op_open serial_open d_data].
  rewrite (proj2 (Z.eqb_neq token 0)) by done. destruct (kmalloc h DEV_INSTANCE_SIZE) as [b h1].
  destruct (Z.eqb_spec b 0) as [->|Hb]; [by intros [= <- _ _ _]|]. intros [= <- <- _ <-] _. split; [|done]. exists token.
  assert (Hk32 : (k < 32)%nat) by (rewrite <- (dk_len _ _ _ Ho); done).
  set (i := DevInstance _ _ _ _). set (g2 := Devs _ _).
  assert (Ei : instances g2 !! b = Some i) by apply lookup_insert_eq.
  assert (Ex' : i_idx i = Z.of_nat k) by (apply u8_id; lia).
  assert (Es : slot_of g2 i = set_ref d1 1).
  { unfold slot_of, zget. rewrite Ex', Nat2Z.id. apply nth_lookup_Some. cbn [devices g2 set_slot].
    rewrite list_lookup_insert_eq; [done|]. by apply lookup_lt_Some in Hk1. }
  assert (Ev : dev_inst_slot g2 b = Some (set_ref d1 1, token)).
  { unfold dev_inst_slot, dev_inst_valid. rewrite Ei, Es. cbn [i_magic i]. rewrite Z.eqb_refl. cbn [negb].
    rewrite (proj2 (Z.leb_gt _ _)) by (rewrite Ex'; unfold DEV_MAX_DEVICES; lia). cbn zeta. cbn [i_birth i d_magic set_ref].
    rewrite Z.eqb_refl. done. }
  split; [intros w1 buf|intros w1 n]; [unfold dev_write|unfold dev_read]; rewrite Ev; done.
Qed.
End Registry.

(** ** Demonstrations *)
Section Demo.
#[local] Existing Instance bump_heap.
#[local] Existing Instance bump_heap_laws.

Definition null_device : void_device_t unit :=
  VoidDevice (Some [110; 117; 108; 108]) 0
    (DevOps (Some (fun _ w => (7, w))) None None (Some (fun _ b w => (Z.of_nat (length b), w))) None) DEV_CHAR 0 0 false.

Definition demo_devs : devs unit := (dev_register (dev_init devs_zero) null_device).2.
Definition demo_opened : Z * devs unit * Z * unit := dev_open demo_devs 0x1000 tt (Some [110; 117; 108; 108]).

Lemma demo_heap_inv (a : Z) : 0 < a -> 0 < a /\ forall x, x ∈ (∅ : gset Z) -> x < a.
Proof. set_solver. Qed.

Definition null_name : list Z := [110; 117; 108; 108].

(** Unregistered while it is not open, and refused while it is. *)
Lemma device_registry_sound_witness :
  ((dev_unregister demo_devs (Some null_name)).1 = 0 /\
   forall k d, ~ device_at (dev_unregister demo_devs (Some null_name)).2 null_name k d) /\
  (dev_unregister demo_opened.1.1.2 (Some null_name)).1 = - VE_BUSY.
Proof.
  pose proof (dr_init (W := unit) (inv := fun L h => 0 < h /\ forall a, a ∈ L -> a < h) ∅ 0x1000 tt (demo_heap_inv 0x1000 ltac:(lia))) as R.
  apply (dr_register _ _ _ _ null_device) in R. fold demo_devs in R.
  assert (Hat : exists d, device_at demo_devs null_name 0 d) by (eexists; split; [vm_compute; reflexivity|by split]).
  destruct Hat as [d0 Hat]. split.
  - destruct (device_registry_sound _ _ _ _ R) as (_ & _ & _ & Hun & _). specialize (Hun null_name ltac:(discriminate)).
    destruct (dev_unregister demo_devs (Some null_name)) as [r g']. cbn [fst snd].
    destruct Hun as [(Hno & _)|[(k & d & _ & Hr & _)|(k & d & _ & _ & Hr & Hno & _)]].
    + destruct (Hno _ _ Hat).
    + exfalso. unfold refs_of in Hr. rewrite map_filter_empty, map_size_empty in Hr. lia.
    + split; [exact Hr|exact Hno].
  - assert (Hz : dev_lookup demo_devs (Some null_name) = Some 0%nat) by (vm_compute; reflexivity).
    assert (Hlt : forall k d, dev_lookup demo_devs (Some null_name) = Some k -> devices demo_devs !! k = Some d -> d_ref d < 255).
    { intros k d Hk Hd. rewrite Hz in Hk. injection Hk as <-. injection Hd as <-. reflexivity. }
    assert (Ef : (exists d, device_at demo_opened.1.1.2 null_name 0 d) /\ demo_opened.1.1.1 = 0x1000 /\
      instances demo_opened.1.1.2 !! 0x1000 = Some (DevInstance DEV_INSTANCE_MAGIC 0 0x100 7)).
    { split; [eexists; split; [vm_compute; reflexivity|by split]|by split; vm_compute]. }
    destruct demo_opened as [[[a g] h] w] eqn:E. apply (dr_open _ _ _ _ _ _ _ _ _ R Hlt) in E as R'. cbn [fst snd] in *.
    destruct (device_registry_sound _ _ _ _ R') as (_ & Hu & _ & Hun & _). specialize (Hun null_name ltac:(discriminate)).
    destruct Ef as ([d Hd] & -> & Hi). rewrite Hi in Hun. cbn [Z.eqb] in Hun.
    destruct (dev_unregister g (Some null_name)) as [r g']. cbn [fst].
    destruct Hun as [(Hno & _)|[(k & e & _ & _ & Hr & _)|(k & e & Hk & Hr & _)]].
    + destruct (Hno _ _ Hd).
    + exact Hr.
    + exfalso. rewrite (Hu _ _ _ _ _ Hk Hd) in Hr. vm_compute in Hr. discriminate Hr.
Defined.

(** The reference count has eight bits: after 256 openings the device counts as unused,
  and its open instances are refused. *)
Definition opened_often (n : nat) : devs unit * Z :=
  Nat.iter n (fun gh => let '(_, g, h, _) := dev_open gh.1 gh.2 tt (Some [110; 117; 108; 108]) in (g, h)) (demo_devs, 0x1000).

Lemma device_ref_wraps :
  (dev_write (opened_often 255).1 tt 0x1000 [1]).1 = 1 /\
  (dev_write (opened_often 256).1 tt 0x1000 [1]).1 = - VE_BADF /\
  (dev_unregister (opened_often 256).1 (Some [110; 117; 108; 108])).1 = 0.
Proof. vm_compute. split_and!; reflexivity. Qed.

(** Closing an instance twice takes the reference of another one. *)
Definition closed_twice : devs unit :=
  let '(g, h) := opened_often 2 in
  let '(_, g, h, _) := dev_close g h tt 0x1000 in
  let '(_, g, h, _) := dev_close g h tt 0x1000 in g.

Lemma device_double_close :
  (dev_write closed_twice tt (0x1000 + 16) [1]).1 = - VE_BADF.
Proof. vm_compute. reflexivity. Qed.
End Demo.
