(* ===== verification/Tty.v ===== *)
(** * The terminal ([dev/tty.c])

  The line discipline between the system calls and the console device: staging,
  erasing, echo and the non-blocking read.  [tty_line] is the staged prefix of the
  buffer; characters are bytes.  Output goes through the console instance of the device
  layer, input comes from the serial port.  The self-test is in [SelfTest]. *)
From S2P Require Import Prelude Interfaces Serial Device.

Definition TTY_LINE_MAX : Z := 256.
Definition TTY_ECHO_DEFAULT : Z := 1.
Definition VOID_TTY_ECHO_ON : Z := 0x545401.
Definition VOID_TTY_ECHO_OFF : Z := 0x545402.

Definition BS : Z := 8.
Definition LF : Z := 10.
Definition CR : Z := 13.
Definition DEL : Z := 0x7f.
Definition CTRL_D : Z := 0x04.

Record tty := Tty { tty_line : list Z; tty_echo : Z }.

Definition tty_line_len (t : tty) : Z := Z.of_nat (length (tty_line t)).
Definition set_line (t : tty) (l : list Z) : tty := Tty l (tty_echo t).

Definition tty_init (t : tty) : tty := Tty [] TTY_ECHO_DEFAULT.

Definition tty_ioctl (t : tty) (req : Z) : Z * tty :=
  if req =? VOID_TTY_ECHO_ON then (0, Tty (tty_line t) 1)
  else if req =? VOID_TTY_ECHO_OFF then (0, Tty (tty_line t) 0)
  else (- VE_INVAL, t).

Section Tty.
Context {W : Type} `{SP : SerialPort W}.

(** The device registry and the console instance, 0 for NULL. *)
Context (g : devs W) (inst : Z).

Definition tty_outc (w : W) (c : Z) : W := if inst =? 0 then w else (dev_write g w inst [c]).2.

Definition tty_echo_byte (t : tty) (w : W) (c : Z) : W :=
  if tty_echo t =? 0 then w
  else if (c =? BS) || (c =? DEL) then tty_outc (tty_outc (tty_outc w BS) 32) BS
  else if (c =? LF) || (c =? CR) then tty_outc (tty_outc w CR) LF
  else tty_outc w c.

(** [if (tty_line_len < TTY_LINE_MAX - 1) tty_line[tty_line_len++] = c;] *)
Definition stage (t : tty) (c : Z) : tty :=
  if tty_line_len t <? TTY_LINE_MAX - 1 then set_line t (tty_line t ++ [c]) else t.

Definition tty_feed (t : tty) (w : W) (raw : Z) : tty * W :=
  if raw <? 0 then (t, w)
  else
    let c := u8 raw in
    if (c =? LF) || (c =? CR) then (stage t LF, tty_echo_byte t w LF)
    else if (c =? BS) || (c =? DEL) then
      if 0 <? tty_line_len t then (set_line t (removelast (tty_line t)), tty_echo_byte t w BS) else (t, w)
    else if c =? CTRL_D then (set_line t [], w)
    else if (32 <=? c) && (c <? DEL) then
      if tty_line_len t <? TTY_LINE_MAX - 1 then (set_line t (tty_line t ++ [c]), tty_echo_byte t w c) else (t, w)
    else (stage t c, w).

(** The loop over the bytes that are there, 128 at most. *)
Fixpoint pump (n : nat) (t : tty) (w : W) : tty * W :=
  match n with
  | O => (t, w)
  | S n =>
      let '(raw, w) := serial_getchar w in
      if raw <? 0 then (t, w)
      else let '(t, w) := tty_feed t w raw in pump n t w
  end.

(** The count, the bytes stored, and the new states. *)
Definition tty_read (t : tty) (w : W) (n : Z) : Z * list Z * tty * W :=
  let '(t, w) := pump 128 t w in
  let out := take (Z.to_nat n) (tty_line t) in
  (i32 (Z.of_nat (length out)), out, set_line t (drop (length out) (tty_line t)), w).

Definition tty_write (w : W) (buf : list Z) : Z * W :=
  if inst =? 0 then (- VE_IO, w)
  else
    let '(r, w) := dev_write g w inst buf in
    (if r <? 0 then r else i32 (Z.of_nat (length buf)), w).
End Tty.

(** ** The line that is staged *)

(** What a byte does to the line. *)
Definition edit (l : list Z) (c : Z) : list Z :=
  let push x := if Z.of_nat (length l) <? TTY_LINE_MAX - 1 then l ++ [x] else l in
  if (c =? LF) || (c =? CR) then push LF
  else if (c =? BS) || (c =? DEL) then removelast l
  else if c =? CTRL_D then [] else push c.

Section Line.
Context {W : Type} `{SP : SerialPort W} (g : devs W) (inst : Z).

Lemma feed_line t w c : 0 <= c < 256 -> tty_line (tty_feed g inst t w c).1 = edit (tty_line t) c /\ tty_echo (tty_feed g inst t w c).1 = tty_echo t.
Proof.
  intros Hc. unfold tty_feed, edit, stage, tty_line_len. rewrite (proj2 (Z.ltb_ge c 0)), u8_id by lia. cbn zeta.
  destruct ((c =? LF) || (c =? CR)); [by case_match|].
  destruct ((c =? BS) || (c =? DEL)).
  { destruct t as [[|x l] e]; cbn [tty_line length]; [done|]. by rewrite (proj2 (Z.ltb_lt 0 _)) by lia. }
  destruct (c =? CTRL_D); [done|]. destruct ((32 <=? c) && (c <? DEL)); by case_match.
Qed.

Lemma length_edit l c : (length l <= 255)%nat -> (length (edit l c) <= 255)%nat.
Proof.
  intros Hl. unfold edit, TTY_LINE_MAX. cbn zeta.
  assert (Hp : forall x, (length (if (Z.of_nat (length l) <? 256 - 1)%Z then l ++ [x] else l) <= 255)%nat).
  { intros x. destruct (Z.ltb_spec (Z.of_nat (length l)) (256 - 1)); [rewrite length_app; cbn; lia|done]. }
  destruct ((c =? LF) || (c =? CR)); [apply Hp|].
  destruct ((c =? BS) || (c =? DEL)); [|destruct (c =? CTRL_D); [cbn; lia|apply Hp]].
  destruct l as [|x l _] using rev_ind; [done|]. rewrite removelast_last. rewrite length_app in Hl. cbn in Hl. lia.
Qed.

(** *** Reading *)

(** Characters that are neither erase nor end of file. *)
Definition plain (c : Z) : Prop := c <> BS /\ c <> DEL /\ c <> CTRL_D.

Definition crlf (c : Z) : Z := if c =? CR then LF else c.

Lemma edit_plain l c : plain c -> (length l < 255)%nat -> edit l c = l ++ [crlf c].
Proof.
  intros (H1 & H2 & H3) Hl. unfold edit, crlf, TTY_LINE_MAX. rewrite (proj2 (Z.ltb_lt _ _)) by lia.
  rewrite (proj2 (Z.eqb_neq c BS)), (proj2 (Z.eqb_neq c DEL)), (proj2 (Z.eqb_neq c CTRL_D)) by done. cbn [orb].
  destruct (Z.eqb_spec c CR) as [->|]; [done|]. rewrite orb_false_r. by destruct (Z.eqb_spec c LF) as [->|].
Qed.

Context (tx rx : W -> list Z) `{SL : !SerialPortLaws W tx rx}.
Context (Hcon : console_ok g inst).

Lemma outc_wire w c : inst <> 0 -> tx (tty_outc g inst w c) = tx w ++ [u8 c] /\ rx (tty_outc g inst w c) = rx w.
Proof.
  intros Hi. destruct Hcon as (priv & Hw & _). unfold tty_outc. rewrite (proj2 (Z.eqb_neq inst 0)), Hw by done. cbn [foldl snd serial_write].
  apply (putchar_law (tx := tx) (rx := rx)).
Qed.

Lemma outc_rx w c : rx (tty_outc g inst w c) = rx w.
Proof.
  destruct (decide (inst = 0)) as [Hi|Hi]; [unfold tty_outc; by rewrite Hi|]. apply (outc_wire w c Hi).
Qed.

Lemma echo_rx t w c : rx (tty_echo_byte g inst t w c) = rx w.
Proof. unfold tty_echo_byte. repeat case_match; by rewrite ?outc_rx. Qed.

Lemma feed_rx t w c : rx (tty_feed g inst t w c).2 = rx w.
Proof. unfold tty_feed. repeat case_match; cbn [snd]; by rewrite ?echo_rx. Qed.

(** The pump takes bytes from the wire in order and edits the line with each. *)
Lemma pump_spec n t w : let '(t', w') := pump g inst n t w in
  exists bs, rx w = bs ++ rx w' /\ (length bs <= n)%nat /\ Forall (fun c => 0 <= c < 256) bs /\
    tty_line t' = foldl edit (tty_line t) bs /\ tty_echo t' = tty_echo t.
Proof.
  revert t w. induction n as [|n IH]; intros t w; cbn [pump]; [by exists []|].
  pose proof (getchar_law (tx := tx) (rx := rx) w) as Hg. destruct (serial_getchar w) as [c w1]. destruct Hg as [_ [[-> Hr]|[Hc Hr]]].
  { change (-1 <? 0) with true. cbn iota. exists []. rewrite Hr. split_and!; try done. cbn. lia. }
  rewrite (proj2 (Z.ltb_ge c 0)) by lia. pose proof (feed_line t w1 c Hc) as [Hl He]. pose proof (feed_rx t w1 c) as Hr1.
  destruct (tty_feed g inst t w1 c) as [t1 w2]. cbn [fst snd] in *. specialize (IH t1 w2). destruct (pump g inst n t1 w2) as [t' w'].
  destruct IH as (bs & Hrx & Hlen & Hbs & Hline & Hecho). exists (c :: bs).
  split; [by rewrite Hr, <- Hr1, Hrx|]. split; [cbn; lia|]. split; [by constructor|]. cbn [foldl]. split; congruence.
Qed.

Lemma edits_plain bs : forall l, Forall plain bs -> (length l + length bs <= 255)%nat -> foldl edit l bs = l ++ (crlf <$> bs).
Proof.
  induction bs as [|b bs IH]; intros l Hp Hl; cbn [foldl fmap list_fmap]; [by rewrite app_nil_r|].
  apply Forall_cons in Hp as [Hb Hp]. cbn [length] in Hl. rewrite edit_plain by (done || lia).
  rewrite IH by (rewrite ?length_app; cbn; (done || lia)). by rewrite <- app_assoc.
Qed.

(** Successive reads: what each delivered, and the states after the last. *)
Fixpoint reads (t : tty) (w : W) (ns : list Z) : list (list Z) * tty * W :=
  match ns with
  | [] => ([], t, w)
  | n :: ns =>
      let '(_, out, t, w) := tty_read g inst t w n in
      let '(outs, t, w) := reads t w ns in (out :: outs, t, w)
  end.

(** C23.  No input is lost, repeated or reordered.  A program that reads at least 128 bytes
  at a time, however often it polls and however the bytes arrive in between, receives
  exactly the bytes typed, with carriage returns as newlines: what it received and what
  is still staged, together, are the bytes taken from the wire. *)
Theorem tty_input_lossless t w ns : (length (tty_line t) <= 127)%nat -> Forall plain (rx w) -> Forall (fun n => 128 <= n) ns ->
  let '(outs, t', w') := reads t w ns in
  exists typed, rx w = typed ++ rx w' /\ concat outs ++ tty_line t' = tty_line t ++ (crlf <$> typed) /\
    (length (tty_line t') <= 127)%nat.
Proof.
  revert t w. induction ns as [|n ns IH]; intros t w Hl Hp Hn; cbn [reads].
  { exists []. by rewrite app_nil_r. }
  apply Forall_cons in Hn as [Hn Hns]. unfold tty_read. pose proof (pump_spec 128 t w) as Hs.
  destruct (pump g inst 128 t w) as [t1 w1]. destruct Hs as (bs & Hrx & Hb & _ & Hline & _). rewrite Hrx in Hp.
  apply Forall_app in Hp as [Hpb Hp]. rewrite edits_plain in Hline by (done || lia).
  set (out := take (Z.to_nat n) (tty_line t1)). set (t2 := set_line t1 _).
  assert (Hsplit : out ++ tty_line t2 = tty_line t1).
  { unfold t2. cbn [tty_line set_line]. unfold out. rewrite length_take.
    destruct (decide (Z.to_nat n <= length (tty_line t1))%nat); [rewrite Nat.min_l by done; apply take_drop|].
    rewrite Nat.min_r, drop_all, app_nil_r by lia. apply take_ge. lia. }
  assert (Hl2 : (length (tty_line t2) <= 127)%nat).
  { unfold t2. cbn [tty_line set_line]. unfold out. rewrite length_drop, length_take, Hline, length_app, length_fmap. lia. }
  specialize (IH t2 w1 Hl2 Hp Hns). destruct (reads t2 w1 ns) as [[outs t'] w']. destruct IH as (typed & Hr & Hc & Hl').
  exists (bs ++ typed). rewrite <- app_assoc, <- Hr. split_and!; [done| |done]. cbn [concat]. rewrite <- app_assoc, Hc, app_assoc, Hsplit, Hline.
  by rewrite fmap_app, app_assoc.
Qed.

(** *** Echo *)

(** The line of a terminal: its cells and the cursor's column. *)
Definition screen (s : list Z * nat) (b : Z) : list Z * nat :=
  let '(cells, cur) := s in
  if b =? BS then (cells, pred cur)
  else if b =? CR then (cells, O)
  else if b =? LF then ([], cur)
  else (take cur cells ++ b :: drop (S cur) cells, S cur).

(** The line [l] is shown, with blanks behind the cursor. *)
Definition shows (l : list Z) (s : list Z * nat) : Prop :=
  s.2 = length l /\ exists k, s.1 = l ++ replicate k 32.

Fixpoint feeds (t : tty) (w : W) (bs : list Z) : tty * W :=
  match bs with
  | [] => (t, w)
  | b :: bs => let '(t, w) := tty_feed g inst t w b in feeds t w bs
  end.

Lemma screen_put l s c : shows l s -> 32 <= c -> shows (l ++ [c]) (screen s c).
Proof.
  intros [Hc (k & Hk)] Hp. destruct s as [cells cur]. cbn [fst snd] in *. subst. unfold screen, BS, CR, LF.
  rewrite (proj2 (Z.eqb_neq c 8)), (proj2 (Z.eqb_neq c 13)), (proj2 (Z.eqb_neq c 10)) by lia.
  split; cbn [fst snd]; [rewrite length_app; cbn; lia|]. exists (pred k). rewrite take_app_length, <- app_assoc. cbn. do 2 f_equal.
  rewrite drop_app_ge by lia. replace (S (length l) - length l)%nat with 1%nat by lia. by destruct k.
Qed.

(** Backspace, blank, backspace. *)
Lemma screen_erase l s : shows l s -> l <> [] -> shows (removelast l) (foldl screen s [BS; 32; BS]).
Proof.
  intros Hs Hl. destruct l as [|c l _] using rev_ind; [done|]. rewrite removelast_last. destruct Hs as [Hc (k & Hk)].
  destruct s as [cells cur]. cbn [fst snd] in *. subst. rewrite length_app. cbn [length]. cbn [foldl].
  replace (length l + 1)%nat with (S (length l)) by lia.
  change (screen (_, S (length l)) BS) with ((l ++ [c]) ++ replicate k 32, length l).
  change (screen ((l ++ [c]) ++ replicate k 32, length l) 32)
    with (take (length l) ((l ++ [c]) ++ replicate k 32) ++ 32 :: drop (S (length l)) ((l ++ [c]) ++ replicate k 32), S (length l)).
  split; [done|]. cbn [fst screen]. exists (S k). rewrite <- app_assoc, take_app_length. f_equal. cbn [app replicate]. f_equal.
  rewrite drop_app_ge by lia. replace (S (length l) - length l)%nat with 1%nat by lia. done.
Qed.

(** The bytes of a line being typed. *)
Definition typing (c : Z) : Prop := 32 <= c < 127 \/ c = BS \/ c = DEL.

Lemma feed_echo t w c : inst <> 0 -> tty_echo t <> 0 -> typing c ->
  exists out, tx (tty_feed g inst t w c).2 = tx w ++ out /\
    forall s, shows (tty_line t) s -> shows (tty_line (tty_feed g inst t w c).1) (foldl screen s out).
Proof.
  intros Hi He Hc. assert (Ho : forall w c, 0 <= c < 256 -> tx (tty_outc g inst w c) = tx w ++ [c]).
  { intros w' c' Hc'. rewrite (proj1 (outc_wire w' c' Hi)), u8_id by lia. done. }
  assert (Hcr : (c =? LF) || (c =? CR) = false /\ 0 <= c < 256).
  { unfold typing, LF, CR, BS, DEL in *. split; [apply orb_false_iff; split; apply Z.eqb_neq|]; lia. }
  destruct Hcr as [Hcr Hb]. unfold tty_feed. rewrite (proj2 (Z.ltb_ge c 0)), u8_id by lia. cbn zeta. rewrite Hcr.
  destruct ((c =? BS) || (c =? DEL)) eqn:Ebs.
  { unfold tty_line_len. destruct (Z.ltb_spec 0 (Z.of_nat (length (tty_line t)))) as [Hl|Hl]; cbn [fst snd].
    - exists [BS; 32; BS]. unfold tty_echo_byte. rewrite (proj2 (Z.eqb_neq (tty_echo t) 0)) by done. cbn [Z.eqb orb Pos.eqb BS].
      rewrite !Ho by (unfold BS; lia). rewrite <- !app_assoc. split; [done|]. intros s Hs. apply screen_erase; [done|]. by intros E; rewrite E in Hl.
    - exists []. by rewrite app_nil_r. }
  assert (Hp : 32 <= c < 127).
  { apply orb_false_iff in Ebs as [H1%Z.eqb_neq H2%Z.eqb_neq]. by destruct Hc as [?|[?|?]]. }
  rewrite (proj2 (Z.eqb_neq c CTRL_D)) by (unfold CTRL_D; lia).
  rewrite (proj2 (Z.leb_le 32 c)), (proj2 (Z.ltb_lt c DEL)) by (unfold DEL; lia). cbn [andb].
  destruct (tty_line_len t <? TTY_LINE_MAX - 1); cbn [fst snd]; [|by exists []; rewrite app_nil_r]. exists [c].
  unfold tty_echo_byte. rewrite (proj2 (Z.eqb_neq (tty_echo t) 0)) by done. rewrite Ebs, Hcr, Ho by done. split; [done|].
  intros s Hs. by apply screen_put; [|lia].
Qed.

(** C25.  What the user sees is what the program will read.  While a line is typed, with
  any corrections by backspace or delete and however long it gets, the echo keeps the
  terminal's line, up to the cursor, equal to the line staged for the program, and blank
  behind it; and the staged line never exceeds its buffer. *)
Theorem tty_echo_faithful t w bs : inst <> 0 -> tty_echo t <> 0 -> tty_line t = [] -> Forall typing bs ->
  let '(t', w') := feeds t w bs in
  exists out, tx w' = tx w ++ out /\ shows (tty_line t') (foldl screen ([], O) out) /\ (length (tty_line t') <= 255)%nat.
Proof.
  intros Hi He Hl Hb. assert (Hs : shows (tty_line t) ([], O)) by (rewrite Hl; by split; [|exists O]).
  assert (Hlen : (length (tty_line t) <= 255)%nat) by (rewrite Hl; cbn; lia). clear Hl. revert t w He Hs Hlen.
  generalize (([], O) : list Z * nat). induction bs as [|b bs IH]; intros s t w He Hs Hlen; cbn [feeds].
  { exists []. by rewrite app_nil_r. }
  apply Forall_cons in Hb as [Hb Hbs]. destruct (feed_echo t w b Hi He Hb) as (o1 & Ht1 & Hs1). specialize (Hs1 s Hs).
  assert (Hb' : 0 <= b < 256) by (unfold typing, BS, DEL in *; lia). destruct (feed_line t w b Hb') as [El Ee].
  destruct (tty_feed g inst t w b) as [t1 w1]. cbn [fst snd] in *.
  specialize (IH Hbs (foldl screen s o1) t1 w1 ltac:(congruence) Hs1 ltac:(rewrite El; by apply length_edit)).
  destruct (feeds t1 w1 bs) as [t' w']. destruct IH as (o2 & Ht2 & Hs2 & Hl2). exists (o1 ++ o2).
  rewrite foldl_app, Ht2, Ht1, app_assoc. done.
Qed.
End Line.

(** ** A console on the demonstration UART *)
Section Demo.
#[local] Existing Instance bump_heap.
#[local] Existing Instance bump_heap_laws.
#[local] Instance demo_port : SerialPort demo_uart := uart_port 4.
#[local] Instance demo_port_laws : SerialPortLaws demo_uart demo_tx demo_rx.
Proof. exact (proj2 (serial_port_implements 4 demo_tx demo_rx demo_uart_laws)). Qed.

(** "ab" arrives, then a wrong "x", which is erased, and a newline. *)
Definition demo_wire : demo_uart := DemoUart [(0%nat, 97); (2%nat, 98); (1%nat, 120); (0%nat, 127); (5%nat, 13)] [] 0.
Definition plain_wire : demo_uart := DemoUart [(0%nat, 97); (2%nat, 98); (0%nat, 13)] [] 0.

Definition demo_console : Z * devs demo_uart * Z * demo_uart :=
  serial_drv_register (H := Z) 7 (dev_init devs_zero) 0x1000 plain_wire.

Lemma demo_console_ok : console_ok demo_console.1.1.2 0x1000.
Proof.
  assert (Hi : (fun L h => 0 < h /\ forall a, a ∈ L -> a < h) (∅ : gset Z) 0x1000) by (split; [lia|set_solver]).
  pose proof (init_ok (W := demo_uart) ∅ 0x1000 Hi) as Ho.
  assert (E : demo_console.1.1.1 = 0x1000) by (vm_compute; reflexivity). destruct demo_console as [[[i g] h] w] eqn:Ec. cbn [fst snd] in *.
  subst i. by destruct (serial_drv_spec 7 _ _ _ _ _ _ _ _ Ho ltac:(lia) Ec ltac:(lia)).
Qed.

Lemma tty_input_lossless_witness :
  exists outs t' w', reads demo_console.1.1.2 0x1000 (Tty [] 1) plain_wire [128; 128; 128] = (outs, t', w') /\
    concat outs = [97; 98; 10].
Proof.
  assert (Hp : Forall plain (demo_rx plain_wire)) by (repeat constructor; discriminate).
  pose proof (tty_input_lossless demo_console.1.1.2 0x1000 demo_tx demo_rx demo_console_ok (Tty [] 1) plain_wire [128; 128; 128]
    ltac:(cbn; lia) Hp ltac:(repeat constructor; lia)) as H.
  assert (E : (fun x => (x.1.1, tty_line x.1.2, demo_rx x.2)) (reads demo_console.1.1.2 0x1000 (Tty [] 1) plain_wire [128; 128; 128]) =
    ([[97]; [98; 10]; []], [], [])) by (vm_compute; reflexivity).
  destruct (reads _ _ _ _ _) as [[outs t'] w']. injection E as E1 E2 E3. exists outs, t', w'. split; [reflexivity|].
  destruct H as (typed & Hr & Hc & _). rewrite E2, app_nil_r in Hc. rewrite Hc. rewrite E3, app_nil_r in Hr. rewrite <- Hr. reflexivity.
Defined.

Lemma tty_echo_faithful_witness :
  exists t' w' out, feeds demo_console.1.1.2 0x1000 (Tty [] 1) demo_wire [97; 98; 120; 127] = (t', w') /\
    demo_tx w' = out /\ tty_line t' = [97; 98] /\ shows [97; 98] (foldl screen ([], O) out).
Proof.
  assert (Hp : Forall typing [97; 98; 120; 127]) by (repeat constructor; unfold typing, BS, DEL; lia).
  pose proof (tty_echo_faithful demo_console.1.1.2 0x1000 demo_tx demo_rx demo_console_ok (Tty [] 1) demo_wire [97; 98; 120; 127]
    ltac:(lia) ltac:(cbn; lia) eq_refl Hp) as H.
  assert (E : tty_line (feeds demo_console.1.1.2 0x1000 (Tty [] 1) demo_wire [97; 98; 120; 127]).1 = [97; 98]) by (vm_compute; reflexivity).
  destruct (feeds _ _ _ _ _) as [t' w']. cbn [fst] in E. destruct H as (out & Ho & Hs & _).
  exists t', w', out. rewrite E in Hs. change (demo_tx demo_wire) with (@nil Z) in Ho. split_and!; [reflexivity|exact Ho|exact E|exact Hs].
Defined.
End Demo.
