(* ===== verification/SelfTest.v ===== *)
(** * The self-tests of the device layer and of the terminal ([dev/device.c],
  [dev/tty.c])

  [kernel_main] runs both at boot, before the scheduler exists.  Each prints a line per
  check to the serial port; the theorems say that on a sound kernel every line passes,
  and under which conditions. *)
From S2P Require Import Prelude Interfaces Serial Device Tty.

(** ** The device self-test *)
Section DevTest.
Context {W H : Type} `{KH : KernelHeap H} `{SP : SerialPort W}.

(** [&priv], the handle every opening of a test device returns; [blob], their data. *)
Context (t_priv blob : Z).

Definition t_open : Z -> W -> Z * W := fun _ w => (t_priv, w).
Definition t_close : Z -> W -> Z * W := fun _ w => (0, w).
Definition t_write : Z -> list Z -> W -> Z * W := fun _ buf w => (i32 (Z.of_nat (length buf)), w).

(** It reports bytes it does not store. *)
Definition t_read : Z -> Z -> W -> Z * list Z * W := fun _ n w => (if n <? 4 then i32 n else 4, [], w).

Definition t_char_name : list Z := str "devc".
Definition t_blk_name : list Z := str "devb".
Definition DEV_BLOCK : Z := 0x08.
Definition t_ops : void_device_ops_t W := DevOps (Some t_open) (Some t_close) (Some t_read) (Some t_write) None.
Definition t_char : void_device_t W := VoidDevice (Some t_char_name) blob t_ops DEV_CHAR 0 0 false.
Definition t_blk : void_device_t W := VoidDevice (Some t_blk_name) blob t_ops DEV_BLOCK 0 0 false.

Definition t_puts (w : W) (s : list Z) : W := foldl serial_putchar w s.
Definition t_line (tag label : list Z) (pass : bool) : list Z :=
  tag ++ label ++ str ": " ++ str (if pass then "PASS" else "FAIL") ++ [10; 13].
Definition t_result (w : W) (label : string) (pass : bool) : W :=
  t_puts (t_puts (t_puts (t_puts (t_puts w (str "[DEV] ")) (str label)) (str ": ")) (str (if pass then "PASS" else "FAIL"))) [10; 13].

(** [p && dev_close(p) == VOID_OK], which closes only an instance that is there. *)
Definition close_if (g : devs W) (h : H) (w : W) (o : Z) : bool * devs W * H * W :=
  if o =? 0 then (false, g, h, w) else let '(r, g, h, w) := dev_close g h w o in (r =? VOID_OK, g, h, w).

Definition dev_self_test (g : devs W) (h : H) (w : W) : devs W * H * W :=
  let w := t_puts w (str "[DEV] selftest start" ++ [10; 13]) in
  let '(r, g) := dev_register g t_char in
  let w := t_result w "register device" (r =? VOID_OK) in
  let '(r, g) := dev_register g t_blk in
  let w := t_result w "register device" (r =? VOID_OK) in
  let w := t_result w "lookup device"
    match dev_lookup g (Some (str "devc")) with
    | Some k => bool_decide (d_name (nth k (devices g) device_zero) = Some t_char_name)
    | None => false
    end in
  let '(o, g, h, w) := dev_open g h w (Some (str "devc")) in
  let w := t_result w "open device" (negb (o =? 0)) in
  let '(closed, g, h, w) := close_if g h w o in
  let w := t_result w "close device" closed in
  let '(x, g, h, w) := dev_open g h w (Some (str "no_such")) in
  let w := t_result w "invalid device" (x =? 0) in
  let '(r, g) := dev_register g t_char in
  let w := t_result w "duplicate registration" (r =? - VE_EXIST) in
  let '(r, g) := dev_unregister g (Some (str "devb")) in
  let w := t_result w "unregister device" (r =? VOID_OK) in
  let '(x, g, h, w) := dev_open g h w (Some (str "devb")) in
  let w := t_result w "stale device rejected" (x =? 0) in
  let '(r, g) := dev_register g t_blk in
  let w := t_result w "re-register device" (r =? VOID_OK) in
  let '(o2, g, h, w) := dev_open g h w (Some (str "devb")) in
  let w := t_result w "open re-registered" (negb (o2 =? 0)) in
  let '(_, g, h, w) := close_if g h w o2 in
  let '(held, g, h, w) := dev_open g h w (Some (str "devc")) in
  let '(busy, g) := if held =? 0 then (false, g) else let '(r, g) := dev_unregister g (Some (str "devc")) in (r =? - VE_BUSY, g) in
  let w := t_result w "unregister with active ref" busy in
  let '(nw, w) := if held =? 0 then (-1, w) else dev_write g w held (str "x") in
  let w := t_result w "device usable after refused unregister" (nw =? 1) in
  let '(_, g, h, w) := close_if g h w held in
  (g, h, t_puts w (str "[DEV] selftest done" ++ [10; 13])).

(** *** Its output *)
Context (tx rx : W -> list Z) `{SL : !SerialPortLaws W tx rx}.

Definition bytes8 (s : list Z) : Prop := Forall (fun c => 0 <= c < 256) s.

Lemma puts_tx s : forall w, bytes8 s -> tx (t_puts w s) = tx w ++ s /\ rx (t_puts w s) = rx w.
Proof.
  induction s as [|c s IH]; intros w Hs; cbn [t_puts foldl]; [by rewrite app_nil_r|].
  apply Forall_cons in Hs as [Hc Hs]. destruct (putchar_law (tx := tx) (rx := rx) w c) as [E1 E2].
  change (foldl serial_putchar (serial_putchar w c) s) with (t_puts (serial_putchar w c) s).
  destruct (IH (serial_putchar w c) Hs) as [-> ->]. by rewrite E1, E2, u8_id, <- app_assoc by lia.
Qed.

Lemma str_bytes s : bytes8 (str s).
Proof.
  unfold str. apply Forall_fmap, Forall_true. intros c. cbn. pose proof (Ascii.nat_ascii_bounded c). lia.
Qed.

Lemma puts_str s w : tx (t_puts w (str s)) = tx w ++ str s.
Proof. apply puts_tx, str_bytes. Qed.

Lemma puts_end w : tx (t_puts w [10; 13]) = tx w ++ [10; 13].
Proof. apply puts_tx. repeat constructor; lia. Qed.

Lemma result_tx w label pass : tx (t_result w label pass) = tx w ++ t_line (str "[DEV] ") (str label) pass.
Proof. unfold t_result, t_line. by rewrite puts_end, !puts_str, <- !app_assoc. Qed.

(** A line without a verdict. *)
Lemma puts_line s w : tx (t_puts w (str s ++ [10; 13])) = tx w ++ str s ++ [10; 13] /\ rx (t_puts w (str s ++ [10; 13])) = rx w.
Proof. apply puts_tx. unfold bytes8. rewrite Forall_app. split; [apply str_bytes|repeat constructor; lia]. Qed.

Lemma result_rx w label pass : rx (t_result w label pass) = rx w.
Proof.
  unfold t_result. rewrite (proj2 (puts_tx [10; 13] _ ltac:(repeat constructor; lia))).
  by rewrite !(fun s w => proj2 (puts_tx (str s) w (str_bytes s))).
Qed.

(** *** One step at a time *)

(** Opening and closing a test device, whose operations do not touch the world. *)
Lemma open_step ds m h w nm k d a h' : nm <> [] -> first_index (slot_named nm) ds = Some k -> nth k ds device_zero = d -> d_ops d = t_ops ->
  t_priv <> 0 -> kmalloc h DEV_INSTANCE_SIZE = (a, h') -> a <> 0 ->
  dev_open (Devs ds m) h w (Some nm) =
    (a, Devs (<[k := set_ref d (u8 (d_ref d + 1))]> ds) (<[a := DevInstance DEV_INSTANCE_MAGIC (u8 (Z.of_nat k)) (d_magic d) t_priv]> m), h', w).
Proof.
  intros Hn Hk Hd Ho Hp Hm Ha. unfold dev_open, dev_lookup, dev_find. destruct nm as [|c nm]; [done|]. cbn [devices]. rewrite Hk, Hd, Ho.
  cbn [op_open t_ops t_open]. rewrite (proj2 (Z.eqb_neq t_priv 0)), Hm, (proj2 (Z.eqb_neq a 0)) by done. done.
Qed.

Lemma close_step ds m h w a k d i : i_idx i = Z.of_nat k -> Z.of_nat k < 32 -> i_magic i = DEV_INSTANCE_MAGIC -> nth k ds device_zero = d ->
  d_ops d = t_ops -> d_inuse d = true -> is_some (d_name d) = true -> i_birth i = d_magic d -> d_ref d <> 0 ->
  dev_close (Devs ds (<[a := i]> m)) h w a = (0, Devs (<[k := set_ref d (u8 (d_ref d - 1))]> ds) (<[a := i]> m), kfree h a, w).
Proof.
  intros Hi Hk Hm Hd Ho Hu Hn Hb Hr. unfold dev_close, slot_of, zget. cbn [instances devices]. rewrite lookup_insert_eq, Hm, Z.eqb_refl. cbn [negb].
  rewrite Hi, (proj2 (Z.leb_gt _ _)) by (unfold DEV_MAX_DEVICES; lia). cbn zeta. rewrite Nat2Z.id, Hd. unfold dev_entry_live, call_close.
  rewrite Hu, Hn, Ho, Hb, Z.eqb_refl, (proj2 (Z.eqb_neq (d_ref d) 0)) by done. done.
Qed.

(** *** The registry at boot *)
Context (token : Z).

Definition empty_slot (k : Z) : void_device_t W := VoidDevice None 0 ops_none 0 (u16 (k + 0x100)) 0 false.
Definition serial_slot (ref : Z) : void_device_t W := VoidDevice (Some serial_name) 0 (serial_ops token) DEV_CHAR 0x100 ref true.
Definition char_slot (ref : Z) : void_device_t W := VoidDevice (Some t_char_name) blob t_ops DEV_CHAR 0x101 ref true.
Definition blk_slot (ref : Z) : void_device_t W := VoidDevice (Some t_blk_name) blob t_ops DEV_BLOCK 0x102 ref true.
Definition blk_gone : void_device_t W := VoidDevice None 0 t_ops DEV_BLOCK 0x102 0 false.
Definition table (s1 s2 s3 : void_device_t W) : list (void_device_t W) := s1 :: s2 :: s3 :: (empty_slot <$> range 3 32).

Lemma boot_devs (h : H) (w : W) : token <> 0 -> let '(a, h') := kmalloc h DEV_INSTANCE_SIZE in a <> 0 ->
  serial_drv_register token (dev_init devs_zero) h w =
    (a, Devs (table (serial_slot 1) (empty_slot 1) (empty_slot 2)) {[ a := DevInstance DEV_INSTANCE_MAGIC 0 0x100 token ]}, h', w).
Proof.
  intros Ht. destruct (kmalloc h DEV_INSTANCE_SIZE) as [a h'] eqn:E. intros Ha. unfold serial_drv_register.
  change (dev_register (dev_init devs_zero) _) with (0, Devs (table (serial_slot 0) (empty_slot 1) (empty_slot 2)) ∅).
  cbn [negb Z.eqb]. unfold dev_open.
  change (dev_lookup _ _) with (Some 0%nat). cbn iota. cbn [devices table nth serial_slot d_ops serial_ops op_open serial_open].
  rewrite (proj2 (Z.eqb_neq token 0)), E, (proj2 (Z.eqb_neq a 0)) by done. done.
Qed.

(** The registry during the test. *)
Notation reg c b m := (Devs (table (serial_slot 1) c b) m).

Lemma register_char m : dev_register (reg (empty_slot 1) (empty_slot 2) m) t_char = (0, reg (char_slot 0) (empty_slot 2) m).
Proof. reflexivity. Qed.
Lemma register_blk m : dev_register (reg (char_slot 0) (empty_slot 2) m) t_blk = (0, reg (char_slot 0) (blk_slot 0) m).
Proof. reflexivity. Qed.
Lemma register_twice m : dev_register (reg (char_slot 0) (blk_slot 0) m) t_char = (- VE_EXIST, reg (char_slot 0) (blk_slot 0) m).
Proof. reflexivity. Qed.
Lemma register_again m : dev_register (reg (char_slot 0) blk_gone m) t_blk = (0, reg (char_slot 0) (blk_slot 0) m).
Proof. reflexivity. Qed.
Lemma unregister_blk m : dev_unregister (reg (char_slot 0) (blk_slot 0) m) (Some (str "devb")) = (0, reg (char_slot 0) blk_gone m).
Proof. reflexivity. Qed.
Lemma unregister_busy m : dev_unregister (reg (char_slot 1) (blk_slot 0) m) (Some (str "devc")) = (- VE_BUSY, reg (char_slot 1) (blk_slot 0) m).
Proof. reflexivity. Qed.

Section Instances.
Context (Hp : t_priv <> 0) (a : Z) (Ha : a <> 0).
Notation inst magic k := (DevInstance DEV_INSTANCE_MAGIC k magic t_priv).

Lemma open_char m (h h' : H) (w : W) : kmalloc h DEV_INSTANCE_SIZE = (a, h') ->
  dev_open (reg (char_slot 0) (blk_slot 0) m) h w (Some (str "devc")) = (a, reg (char_slot 1) (blk_slot 0) (<[a := inst 0x101 1]> m), h', w).
Proof. intros E. by rewrite (open_step _ m h w (str "devc") 1 (char_slot 0) a h'). Qed.

Lemma open_blk m (h h' : H) (w : W) : kmalloc h DEV_INSTANCE_SIZE = (a, h') ->
  dev_open (reg (char_slot 0) (blk_slot 0) m) h w (Some (str "devb")) = (a, reg (char_slot 0) (blk_slot 1) (<[a := inst 0x102 2]> m), h', w).
Proof. intros E. by rewrite (open_step _ m h w (str "devb") 2 (blk_slot 0) a h'). Qed.

Lemma open_none c b m (h : H) (w : W) nm : first_index (slot_named nm) (table (serial_slot 1) c b) = None ->
  dev_open (reg c b m) h w (Some nm) = (0, reg c b m, h, w).
Proof. intros E. unfold dev_open, dev_lookup, dev_find. destruct nm; [done|]. cbn [devices]. by rewrite E. Qed.

Lemma close_char m (h : H) (w : W) : close_if (reg (char_slot 1) (blk_slot 0) (<[a := inst 0x101 1]> m)) h w a =
  (true, reg (char_slot 0) (blk_slot 0) (<[a := inst 0x101 1]> m), kfree h a, w).
Proof. unfold close_if. rewrite (proj2 (Z.eqb_neq a 0)) by done. by rewrite (close_step _ m h w a 1 (char_slot 1) (inst 0x101 1)). Qed.

Lemma close_blk m (h : H) (w : W) : close_if (reg (char_slot 0) (blk_slot 1) (<[a := inst 0x102 2]> m)) h w a =
  (true, reg (char_slot 0) (blk_slot 0) (<[a := inst 0x102 2]> m), kfree h a, w).
Proof. unfold close_if. rewrite (proj2 (Z.eqb_neq a 0)) by done. by rewrite (close_step _ m h w a 2 (blk_slot 1) (inst 0x102 2)). Qed.

Lemma write_char m (w : W) : dev_write (reg (char_slot 1) (blk_slot 0) (<[a := inst 0x101 1]> m)) w a (str "x") = (1, w).
Proof. unfold dev_write, dev_inst_slot, dev_inst_valid. cbn [instances]. by rewrite lookup_insert_eq. Qed.
End Instances.

Definition dev_labels : list string := [
  "register device"; "register device"; "lookup device"; "open device"; "close device"; "invalid device";
  "duplicate registration"; "unregister device"; "stale device rejected"; "re-register device"; "open re-registered";
  "unregister with active ref"; "device usable after refused unregister"]%string.

Definition pass_lines (tag : string) (labels : list string) : list Z :=
  concat ((fun l => t_line (str tag) (str l) true) <$> labels).

(** An instance is allocated, and given back. *)
Lemma instance_alloc (inv : gset Z -> H -> Prop) `{HL : !KernelHeapLaws H inv} L h : inv L h -> (forall L h, inv L h -> (kmalloc h DEV_INSTANCE_SIZE).1 <> 0) ->
  exists a h', kmalloc h DEV_INSTANCE_SIZE = (a, h') /\ a <> 0 /\ inv ({[a]} ∪ L) h' /\ inv L (kfree h' a).
Proof.
  intros Hi Hne. pose proof (Hne L h Hi) as Ha. pose proof (kmalloc_fresh L h DEV_INSTANCE_SIZE ltac:(done) ltac:(by intros []) Hi) as F.
  destruct (kmalloc h DEV_INSTANCE_SIZE) as [a h'] eqn:K. cbn [fst] in Ha. rewrite (proj2 (Z.eqb_neq a 0)) in F by done.
  destruct F as [Hfr I]. exists a, h'. split_and!; [done|done|done|].
  pose proof (kfree_inv ({[a]} ∪ L) h' a I ltac:(set_solver)) as I'. by replace (({[a]} ∪ L) ∖ {[a]}) with L in I' by set_solver.
Qed.

(** The device self-test passes at boot.  Run on the registry that holds the serial
  console, over any sound kernel heap that does not run out, it sends exactly its 15
  lines, each of its 13 checks with PASS, takes nothing from the wire, gives back every
  instance it opened, and leaves its two devices registered behind the console. *)
Theorem dev_self_test_passes (inv : gset Z -> H -> Prop) `{HL : !KernelHeapLaws H inv} L h w :
  token <> 0 -> t_priv <> 0 -> inv L h -> (forall L h, inv L h -> (kmalloc h DEV_INSTANCE_SIZE).1 <> 0) ->
  let '(console, g, h1, w1) := serial_drv_register token (dev_init devs_zero) h w in
  let '(g2, h2, w2) := dev_self_test g h1 w1 in
  tx w2 = tx w ++ str "[DEV] selftest start" ++ [10; 13] ++ pass_lines "[DEV] " dev_labels ++ str "[DEV] selftest done" ++ [10; 13] /\
  rx w2 = rx w /\ console <> 0 /\ inv ({[console]} ∪ L) h2 /\ devices g2 = table (serial_slot 1) (char_slot 0) (blk_slot 0).
Proof.
  intros Ht Hp Hi Hne. destruct (instance_alloc inv L h Hi Hne) as (a & h1 & K0 & Ha & I0 & _).
  pose proof (boot_devs h w Ht) as E0. rewrite K0 in E0. rewrite (E0 Ha). clear E0 Hi.
  destruct (instance_alloc inv _ h1 I0 Hne) as (b & h2 & K1 & Hb & _ & I1). destruct (instance_alloc inv _ _ I1 Hne) as (c & h3 & K2 & Hc & _ & I2).
  destruct (instance_alloc inv _ _ I2 Hne) as (d & h4 & K3 & Hd & _ & I3).
  unfold dev_self_test. rewrite register_char, register_blk, (open_char Hp b Hb _ _ _ _ K1), (close_char b Hb).
  rewrite open_none by done. rewrite register_twice, unregister_blk, open_none by done.
  rewrite register_again, (open_blk Hp c Hc _ _ _ _ K2), (close_blk c Hc), (open_char Hp d Hd _ _ _ _ K3).
  rewrite (proj2 (Z.eqb_neq b 0)), (proj2 (Z.eqb_neq c 0)), (proj2 (Z.eqb_neq d 0)) by done.
  rewrite unregister_busy, write_char, (close_char d Hd) by done.
  split_and!; [|by rewrite (proj2 (puts_line _ _)), !result_rx, (proj2 (puts_line _ _))|done|done|done].
  rewrite (proj1 (puts_line _ _)), !result_tx, (proj1 (puts_line _ _)). unfold pass_lines. cbn [dev_labels fmap list_fmap concat].
  rewrite <- !app_assoc. reflexivity.
Qed.
End DevTest.

(** ** The terminal self-test *)
Section TtyTest.
Context {W : Type} `{SP : SerialPort W} (g : devs W) (inst : Z).

Definition tty_puts (w : W) (s : list Z) : W := foldl serial_putchar w s.
Definition tty_result (w : W) (label : string) (pass : bool) : W :=
  tty_puts (tty_puts (tty_puts (tty_puts (tty_puts w (str "[TTY] ")) (str label)) (str ": ")) (str (if pass then "PASS" else "FAIL"))) [10; 13].

(** The state of the test: the terminal, the world and [fails]. *)
Definition test_state : Type := tty * W * Z.

(** [CHK(lbl, cond)] *)
Definition CHK (lbl : string) (p : bool) (s : test_state) : test_state :=
  let '(t, w, fails) := s in (t, tty_result w lbl p, if p then fails else fails + 1).

Definition feed (c : Z) (s : test_state) : test_state :=
  let '(t, w, fails) := s in let '(t, w) := tty_feed g inst t w c in (t, w, fails).

(** [for (int i = 0; i < n; i++) tty_feed(c);] *)
Fixpoint feed_loop (n : nat) (c : Z) (s : test_state) : test_state :=
  match n with
  | O => s
  | S n => feed_loop n c (feed c s)
  end.

(** The staged byte at [i]; what lies behind the staged line is not looked at. *)
Definition staged (s : test_state) (i : Z) : Z := zget 0 (tty_line s.1.1) i.
Definition staged_len (s : test_state) : Z := tty_line_len s.1.1.

(** [char buf[n] = {0}; int r = tty_read(buf, n);] *)
Definition read_buf (n : Z) (s : test_state) : Z * list Z * test_state :=
  let '(t, w, fails) := s in let '(r, out, t, w) := tty_read g inst t w n in (r, out ++ replicate (Z.to_nat n - length out) 0, (t, w, fails)).

Definition reinit (s : test_state) : test_state := let '(t, w, fails) := s in (tty_init t, w, fails).

Definition ioctl (req : Z) (s : test_state) : Z * test_state :=
  let '(t, w, fails) := s in let '(r, t) := tty_ioctl t req in (r, (t, w, fails)).

Definition tty_selftest (t : tty) (w : W) : test_state :=
  let s := reinit (t, w, 0) in
  let s := feed 98 (feed 97 s) in
  let s := CHK "feed stages chars" ((staged_len s =? 2) && (staged s 0 =? 97) && (staged s 1 =? 98)) s in
  let s := feed BS s in
  let s := CHK "backspace pops one" ((staged_len s =? 1) && (staged s 0 =? 97)) s in
  let s := feed LF s in
  let s := CHK "newline completes line" ((staged_len s =? 2) && (staged s 0 =? 97) && (staged s 1 =? LF)) s in
  let '(r, buf, s) := read_buf 8 s in
  let s := CHK "read drains staged line" ((r =? 2) && (zget 0 buf 0 =? 97) && (zget 0 buf 1 =? LF)) s in
  let s := CHK "read leaves empty discipline" (staged_len s =? 0) s in
  let s := feed CTRL_D (feed 121 (feed 120 s)) in
  let '(r, _, s) := read_buf 8 s in
  let s := CHK "eof flushes line" ((r =? 0) && (staged_len s =? 0)) s in
  let s := feed_loop (Z.to_nat (TTY_LINE_MAX + 5)) 122 (reinit s) in
  let s := CHK "buffer never overflows" (staged_len s <=? TTY_LINE_MAX - 1) s in
  let '(r, _, s) := read_buf 512 s in
  let s := CHK "overflow drains to cap" (r =? TTY_LINE_MAX - 1) s in
  let s := reinit s in
  let '(r, s) := ioctl VOID_TTY_ECHO_OFF s in
  let s := CHK "echo off" (r =? 0) s in
  let '(r, s) := ioctl VOID_TTY_ECHO_ON s in
  let s := CHK "echo on" (r =? 0) s in
  let '(r, s) := ioctl 0xdead s in
  let s := CHK "unknown ioctl -EINVAL" (r =? - VE_INVAL) s in
  let '(t, w, fails) := s in (t, tty_puts w (str "[TTY] selftest done" ++ [10; 13]), fails).

Context (tx rx : W -> list Z) `{SL : !SerialPortLaws W tx rx} (Hcon : console_ok g inst).

(** What the checks look at: the line, the echo flag, the input that is left, the failures. *)
Definition looks (s : test_state) (l : list Z) (e : Z) (i : list Z) (n : Z) : Prop :=
  tty_line s.1.1 = l /\ tty_echo s.1.1 = e /\ rx s.1.2 = i /\ s.2 = n.

Lemma putchars_rx s : forall w, rx (tty_puts w s) = rx w.
Proof.
  induction s as [|c s IH]; intros w; cbn [tty_puts foldl]; [done|]. change (foldl serial_putchar ?x s) with (tty_puts x s).
  rewrite IH. apply (putchar_law (tx := tx) (rx := rx)).
Qed.

Lemma feed_looks s c l e i n : 0 <= c < 256 -> looks s l e i n -> looks (feed c s) (edit l c) e i n.
Proof.
  destruct s as [[t w] f]. intros Hc (H1 & H2 & H3 & H4). cbn [fst snd] in *. subst. unfold feed, looks.
  pose proof (feed_line g inst t w c Hc) as [E1 E2]. pose proof (feed_rx g inst tx rx Hcon t w c) as E3.
  destruct (tty_feed g inst t w c). done.
Qed.

Lemma CHK_looks s lbl p l e i n : looks s l e i n -> looks (CHK lbl p s) l e i (if p then n else n + 1).
Proof.
  destruct s as [[t w] f]. intros (H1 & H2 & H3 & H4). cbn [fst snd] in *. subst. unfold looks, CHK, tty_result. cbn [fst snd].
  by rewrite !putchars_rx.
Qed.

Lemma reinit_looks s l e i n : looks s l e i n -> looks (reinit s) [] 1 i n.
Proof. destruct s as [[t w] f]. intros (_ & _ & H3 & H4). done. Qed.

(** A read with nothing on the wire takes from the staged line. *)
Lemma read_looks s l e n m : looks s l e [] n -> Z.of_nat (length l) < 2 ^ 31 ->
  let '(r, buf, s') := read_buf m s in let out := take (Z.to_nat m) l in
  r = Z.of_nat (length out) /\ buf = out ++ replicate (Z.to_nat m - length out) 0 /\ looks s' (drop (length out) l) e [] n.
Proof.
  destruct s as [[t w] f]. intros (H1 & H2 & H3 & H4) Hl. cbn [fst snd] in *. unfold read_buf, tty_read.
  pose proof (pump_spec g inst tx rx Hcon 128 t w) as Hp. destruct (pump g inst 128 t w) as [t1 w1].
  destruct Hp as (bs & Hrx & _ & _ & Hline & Hecho). rewrite H3 in Hrx. symmetry in Hrx. apply app_nil in Hrx as [-> Hrx].
  cbn [foldl] in Hline. rewrite Hline, H1. cbn zeta. split_and!; [apply i32_id|done|].
  - rewrite length_take. lia.
  - unfold looks. cbn [fst snd set_line tty_line tty_echo]. rewrite Hecho. done.
Qed.
Lemma loop_looks k : forall s c l e i n, 0 <= c < 256 -> looks s l e i n ->
  looks (feed_loop k c s) (foldl edit l (replicate k c)) e i n.
Proof. induction k as [|k IH]; intros s c l e i n Hc Hs; cbn [feed_loop replicate foldl]; [done|]. by apply IH, feed_looks. Qed.

Lemma ioctl_looks s l e i n req : looks s l e i n -> let '(r, s') := ioctl req s in
  let '(r', e') := if req =? VOID_TTY_ECHO_ON then (0, 1) else if req =? VOID_TTY_ECHO_OFF then (0, 0) else (- VE_INVAL, e) in
  r = r' /\ looks s' l e' i n.
Proof.
  destruct s as [[t w] f]. intros (H1 & H2 & H3 & H4). cbn [fst snd] in *. unfold ioctl, tty_ioctl.
  destruct (req =? VOID_TTY_ECHO_ON); [done|]. by destruct (req =? VOID_TTY_ECHO_OFF).
Qed.

Ltac looks_norm H :=
  lazymatch type of H with looks ?s ?l ?e ?i ?n =>
    let l' := eval vm_compute in l in let n' := eval vm_compute in n in
    let H' := fresh in assert (H' : looks s l' e i n') by exact H; clear H; rename H' into H
  end.

(** Goes past the next state of the test, about which [H] is known. *)
Ltac past H :=
  looks_norm H;
  lazymatch type of H with looks ?x _ _ _ _ =>
    lazymatch goal with |- looks (let s := x in @?B s) ?l ?e ?i ?n =>
      change (looks (B x) l e i n); let s := fresh "s" in revert H; generalize x; intros s H; cbv beta
    end
  end.

Ltac check H :=
  lazymatch goal with |- looks (let s := CHK ?lbl ?p ?s in _) _ _ _ _ =>
    let C := fresh in assert (C : p = true) by (unfold staged_len, staged, tty_line_len; rewrite ?(proj1 H); reflexivity);
    rewrite C; apply (CHK_looks s lbl true) in H; past H
  end.

Ltac drain H n :=
  lazymatch type of H with looks ?s _ _ _ _ =>
    let E1 := fresh in let E2 := fresh in
    apply (read_looks s) with (m := n) in H; [|done]; destruct (read_buf n s) as [[? ?] ?]; destruct H as (E1 & E2 & H);
    rewrite E1, ?E2; clear E1 E2; looks_norm H
  end.

Lemma selftest_looks t w : rx w = [] -> looks (tty_selftest t w) [] 1 [] 0.
Proof.
  intros Hw. assert (H : looks (reinit (t, w, 0)) [] 1 [] 0) by done. cbv beta delta [tty_selftest]. past H.
  apply (feed_looks _ 97) in H; [|lia]. apply (feed_looks _ 98) in H; [|lia]. past H.
  check H. apply (feed_looks _ BS) in H; [|done]. past H. check H. apply (feed_looks _ LF) in H; [|done]. past H. check H.
  drain H 8. check H. check H.
  apply (feed_looks _ 120) in H; [|lia]. apply (feed_looks _ 121) in H; [|lia]. apply (feed_looks _ CTRL_D) in H; [|done]. past H.
  drain H 8. check H.
  apply reinit_looks in H. apply (loop_looks (Z.to_nat (TTY_LINE_MAX + 5)) _ 122) in H; [|lia]. past H. check H.
  drain H 512. check H. apply reinit_looks in H. past H.
  apply (ioctl_looks _ _ _ _ _ VOID_TTY_ECHO_OFF) in H. destruct (ioctl VOID_TTY_ECHO_OFF _) as [r1 u1]. destruct H as [-> H]. check H.
  apply (ioctl_looks _ _ _ _ _ VOID_TTY_ECHO_ON) in H. destruct (ioctl VOID_TTY_ECHO_ON _) as [r2 u2]. destruct H as [-> H]. check H.
  apply (ioctl_looks _ _ _ _ _ 0xdead) in H. destruct (ioctl 0xdead _) as [r3 u3]. destruct H as [-> H]. check H.
  lazymatch type of H with looks ?s _ _ _ _ => destruct s as [[t' w'] f] end. destruct H as (R1 & R2 & R3 & R4). unfold looks. cbn [fst snd]. by rewrite putchars_rx.
Qed.

(** The terminal's self-test passes on a quiet line.  When no byte waits on the wire,
  none of the eleven checks fails, whatever was staged before and whether or not there is
  a console to echo to, and the terminal is left empty with its echo on. *)
Theorem tty_selftest_passes t w : rx w = [] -> let '(t', w', fails) := tty_selftest t w in
  fails = 0 /\ tty_line t' = [] /\ tty_echo t' = 1 /\ rx w' = [].
Proof.
  intros Hw. pose proof (selftest_looks t w Hw) as H. destruct (tty_selftest t w) as [[t' w'] f].
  destruct H as (H1 & H2 & H3 & H4). done.
Qed.
End TtyTest.

(** ** The tests on the demonstration UART *)
Section Demo.
#[local] Existing Instance bump_heap.
#[local] Existing Instance bump_heap_laws.
#[local] Existing Instance demo_port.
#[local] Existing Instance demo_port_laws.

Definition quiet_wire : demo_uart := DemoUart [] [] 0.

Lemma dev_self_test_passes_witness :
  let '(_, g, h, w) := serial_drv_register (H := Z) 7 (dev_init devs_zero) 0x1000 quiet_wire in
  let '(_, _, w) := dev_self_test 9 0x2000 g h w in
  demo_tx w = str "[DEV] selftest start" ++ [10; 13] ++ pass_lines "[DEV] " dev_labels ++ str "[DEV] selftest done" ++ [10; 13].
Proof.
  assert (Hi : (fun L h => 0 < h /\ forall a, a ∈ L -> a < h) (∅ : gset Z) 0x1000) by (split; [lia|set_solver]).
  assert (Hne : forall (L : gset Z) (h : Z), 0 < h /\ (forall a, a ∈ L -> a < h) -> (kmalloc h DEV_INSTANCE_SIZE).1 <> 0) by (intros L h [Hh _]; cbn; lia).
  pose proof (dev_self_test_passes 9 0x2000 demo_tx demo_rx 7 _ ∅ 0x1000 quiet_wire ltac:(lia) ltac:(lia) Hi Hne) as H.
  destruct (serial_drv_register _ _ _ _) as [[[c g] h] w]. destruct (dev_self_test _ _ _ _ _) as [[g' h'] w']. exact (proj1 H).
Defined.

Lemma tty_selftest_passes_witness :
  let '(t, _, fails) := tty_selftest demo_console.1.1.2 0x1000 (Tty [1; 2; 3] 0) quiet_wire in fails = 0 /\ tty_line t = [].
Proof.
  pose proof (tty_selftest_passes demo_console.1.1.2 0x1000 demo_tx demo_rx demo_console_ok (Tty [1; 2; 3] 0) quiet_wire eq_refl) as H.
  destruct (tty_selftest _ _ _ _) as [[t w] f]. destruct H as (H1 & H2 & _). exact (conj H1 H2).
Defined.

(** A key pressed during the test is read with the line the test staged, and a check fails. *)
Definition busy_wire : demo_uart := DemoUart [(0%nat, 97)] [] 0.

Lemma tty_selftest_disturbed : (tty_selftest demo_console.1.1.2 0x1000 (Tty [] 1) busy_wire).2 = 1.
Proof. vm_compute. reflexivity. Qed.
End Demo.
