(* ===== verification/Elf.v ===== *)
(** * The ELF loader ([elf/elf.c])

  Validation of an executable image, a list of bytes, and loading it into an
  address space.  [nx_ok], the result of probing the processor, and the embedded
  images, which the build produces, are parameters. *)
From S2P Require Import Prelude Pmm PhysMem Vmm ProcData UserMem.
From S2P Require Import Vfs.

(** ** Data *)
Record Elf64_Ehdr := Ehdr {
  e_ident : list Z; e_type : Z; e_machine : Z; e_version : Z; e_entry : Z; e_phoff : Z; e_shoff : Z; e_flags : Z;
  e_ehsize : Z; e_phentsize : Z; e_phnum : Z; e_shentsize : Z; e_shnum : Z; e_shstrndx : Z
}.

#[export] Instance Ehdr_eq_dec : EqDecision Elf64_Ehdr.
Proof. solve_decision. Defined.

Record Elf64_Phdr := Phdr {
  p_type : Z; p_flags : Z; p_offset : Z; p_vaddr : Z; p_paddr : Z; p_filesz : Z; p_memsz : Z; p_align : Z
}.

Definition EHDR_SIZE : Z := 64.
Definition PHDR_SIZE : Z := 56.

Definition ELFMAG : list Z := [0x7F; 69; 76; 70].
Definition EI_CLASS : Z := 4.
Definition EI_DATA : Z := 5.
Definition EI_VERSION : Z := 6.
Definition ELFCLASS64 : Z := 2.
Definition ELFDATA2LSB : Z := 1.
Definition EV_CURRENT : Z := 1.
Definition ET_EXEC : Z := 2.
Definition ET_DYN : Z := 3.
Definition EM_X86_64 : Z := 62.
Definition PT_LOAD : Z := 1.
Definition PT_DYNAMIC : Z := 2.
Definition PT_INTERP : Z := 3.
Definition PF_X : Z := 1.
Definition PF_W : Z := 2.
Definition PF_R : Z := 4.

Definition ELF_OK : Z := 0.
Definition ELF_ERR_NOMEM : Z := -12.
Definition ELF_ERR_FAULT : Z := -14.
Definition ELF_ERR_NOEXEC : Z := -8.
Definition ELF_ERR_INVAL : Z := -22.

Definition ELF_DYN_BASE : Z := 0x40000000.
Definition ELF_MAX_PHNUM : Z := 64.
Definition ELF_MAX_LOADS : Z := 16.
Definition USER_MIN_VADDR : Z := 0x10000.
Definition USER_MAX_VADDR : Z := 0x0000800000000000.

(** The interpreter is [Some] of its C string when [has_interp]. *)
Record elf_loader_t := ElfLoader {
  image : list Z; ehdr : Elf64_Ehdr; entry_ : Z; base_ : Z; interp : option (list Z); phdr_va : Z
}.

(** ** Reading the image *)

(** The [n]-byte little-endian field at [off]. *)
Definition field (img : list Z) (off n : Z) : Z := le_val (take (Z.to_nat n) (drop (Z.to_nat off) img)).

Definition read_ehdr (img : list Z) : Elf64_Ehdr :=
  Ehdr (take 16 img) (field img 16 2) (field img 18 2) (field img 20 4) (field img 24 8) (field img 32 8) (field img 40 8)
    (field img 48 4) (field img 52 2) (field img 54 2) (field img 56 2) (field img 58 2) (field img 60 2) (field img 62 2).

Definition read_phdr (img : list Z) (off : Z) : Elf64_Phdr :=
  Phdr (field img off 4) (field img (off + 4) 4) (field img (off + 8) 8) (field img (off + 16) 8) (field img (off + 24) 8)
    (field img (off + 32) 8) (field img (off + 40) 8) (field img (off + 48) 8).

Definition phdr_at (img : list Z) (eh : Elf64_Ehdr) (i : Z) : Elf64_Phdr :=
  read_phdr img (u64 (e_phoff eh + i * PHDR_SIZE)).

Definition phdrs (img : list Z) (eh : Elf64_Ehdr) : list Elf64_Phdr := phdr_at img eh <$> range 0 (e_phnum eh).

Definition is_load (ph : Elf64_Phdr) : bool := (p_type ph =? PT_LOAD) && negb (p_memsz ph =? 0).

Definition elf_load_end (ctx : elf_loader_t) : Z :=
  foldl (fun end_ ph =>
           if negb (is_load ph) then end_
           else let e := u64 (u64 (p_vaddr ph + base_ ctx) + p_memsz ph) in if end_ <? e then e else end_)
    0 (phdrs (image ctx) (ehdr ctx)).

(** ** Validation *)

(** The state of the loop over the program headers. *)
Record scan := Scan { seen : list (Z * Z); entry_ok : bool; interp_off : Z; interp_len : Z }.

Definition overlaps (vaddr vend : Z) (s : Z * Z) : bool := (vaddr <? s.2) && (s.1 <? vend).

(** [None] is [return ELF_ERR_NOEXEC]. *)
Definition check_phdr (size base e_entry : Z) (st : scan) (ph : Elf64_Phdr) : option scan :=
  if p_type ph =? PT_INTERP then
    if (p_filesz ph =? 0) || (size <=? p_offset ph) then None
    else if 64 <=? p_filesz ph then None
    else if size <? u64 (p_offset ph + p_filesz ph) then None
    else Some (Scan (seen st) (entry_ok st) (p_offset ph) (p_filesz ph))
  else if p_type ph =? PT_DYNAMIC then Some st
  else if negb (p_type ph =? PT_LOAD) then Some st
  else if p_memsz ph =? 0 then Some st
  else if ELF_MAX_LOADS <=? Z.of_nat (length (seen st)) then None
  else if p_memsz ph <? p_filesz ph then None
  else if size <? p_offset ph then None
  else if size - p_offset ph <? p_filesz ph then None
  else
    let vaddr := u64 (p_vaddr ph + base) in
    if vaddr <? p_vaddr ph then None
    else if u64 (p_vaddr ph + p_memsz ph) <? p_vaddr ph then None
    else
      let vend := u64 (vaddr + p_memsz ph) in
      if vaddr <? USER_MIN_VADDR then None
      else if USER_MAX_VADDR <? vend then None
      else if negb (has (p_flags ph) PF_R) then None
      else if has (p_flags ph) PF_W && has (p_flags ph) PF_X then None
      else if (1 <? p_align ph) && (negb (Z.land (p_align ph) (p_align ph - 1) =? 0) ||
                negb (Z.land (p_vaddr ph) (p_align ph - 1) =? Z.land (p_offset ph) (p_align ph - 1))) then None
      else if (vaddr <? USER_STACK_TOP) && (USER_STACK_TOP - USER_STACK_SIZE <? vend) then None
      else if existsb (overlaps vaddr vend) (seen st) then None
      else
        Some (Scan (seen st ++ [(vaddr, vend)])
                (entry_ok st || (has (p_flags ph) PF_X && (p_vaddr ph <=? e_entry) &&
                                 (e_entry <? u64 (p_vaddr ph + p_memsz ph))))
                (interp_off st) (interp_len st)).

Fixpoint check_phdrs (size base e_entry : Z) (st : scan) (l : list Elf64_Phdr) : option scan :=
  match l with
  | [] => Some st
  | ph :: l => match check_phdr size base e_entry st ph with
               | None => None
               | Some st => check_phdrs size base e_entry st l
               end
  end.

Definition ehdr_ok (size : Z) (eh : Elf64_Ehdr) : bool :=
  bool_decide (take 4 (e_ident eh) = ELFMAG) &&
  (zget 0 (e_ident eh) EI_CLASS =? ELFCLASS64) && (zget 0 (e_ident eh) EI_DATA =? ELFDATA2LSB) &&
  (zget 0 (e_ident eh) EI_VERSION =? EV_CURRENT) &&
  ((e_type eh =? ET_EXEC) || (e_type eh =? ET_DYN)) && (e_machine eh =? EM_X86_64) && (e_version eh =? EV_CURRENT) &&
  (e_ehsize eh =? EHDR_SIZE) && (e_phentsize eh =? PHDR_SIZE) &&
  negb (e_phnum eh =? 0) && (e_phnum eh <=? ELF_MAX_PHNUM) &&
  (e_phoff eh <=? size) && (e_phnum eh * PHDR_SIZE <=? size - e_phoff eh).

(** The bytes of a C string: up to the first NUL. *)
Fixpoint c_string (l : list Z) : list Z :=
  match l with
  | [] => []
  | c :: l => if c =? 0 then [] else c :: c_string l
  end.

Definition elf_validate (img : list Z) : Z + elf_loader_t :=
  let size := Z.of_nat (length img) in
  if size <? EHDR_SIZE then inl ELF_ERR_NOEXEC
  else
    let eh := read_ehdr img in
    if negb (ehdr_ok size eh) then inl ELF_ERR_NOEXEC
    else
      let base := if e_type eh =? ET_DYN then ELF_DYN_BASE else 0 in
      match check_phdrs size base (e_entry eh) (Scan [] false 0 0) (phdrs img eh) with
      | None => inl ELF_ERR_NOEXEC
      | Some st =>
          if Z.of_nat (length (seen st)) =? 0 then inl ELF_ERR_NOEXEC
          else if negb (entry_ok st) then inl ELF_ERR_NOEXEC
          else
            let path := if interp_len st =? 0 then None
                        else Some (c_string (take (Z.to_nat (interp_len st)) (drop (Z.to_nat (interp_off st)) img))) in
            inr (ElfLoader img eh (e_entry eh) base path (u64 (e_phoff eh + base)))
      end.

(** ** Embedded images *)

(** The comparison loop: it stops at the first difference and at the end of
  either name. *)
Fixpoint names_match (a b : list Z) : bool :=
  match a, b with
  | [], [] => true
  | x :: a, y :: b => (x =? y) && match a, b with [], _ | _, [] => true | _, _ => names_match a b end
  | _, _ => false
  end.

Definition blob_names : list (list Z) :=
  str <$> ["init"; "elf_test"; "ipc_test"; "fork_test"; "calc"; "srv_test"; "lifecycle"; "vfs_test"; "mm_test";
           "malloc_test"; "ld-void.so"; "dynamic_test"]%string.

(** [blobs] are the images, in the order of the table. *)
Definition elf_find_embedded (blobs : list (list Z)) (name : list Z) : Z + list Z :=
  match first_index (names_match name) blob_names with
  | Some i => inr (nth i blobs [])
  | None => inl ELF_ERR_NOEXEC
  end.

(** ** Loading *)

Definition seg_page_flags (nx_ok : bool) (fl : Z) : Z :=
  let f := if has fl PF_W then VMM_WRITE else 0 in
  if negb (has fl PF_X) && nx_ok then Z.lor f VMM_NX else f.

(** [pte & ~(VMM_WRITE | VMM_NX)] with the union of the permissions. *)
Definition merge_flags (pte flags : Z) : Z :=
  let merged := Z.land pte (2 ^ 64 - 1 - Z.lor VMM_WRITE VMM_NX) in
  let merged := if has pte VMM_WRITE || has flags VMM_WRITE then Z.lor merged VMM_WRITE else merged in
  if has pte VMM_NX && has flags VMM_NX then Z.lor merged VMM_NX else merged.

(** The page loops of one segment; [None] when the fuel runs out.  A segment
  touches distinct pages and a process owns at most 256, so 257 turns are enough
  ([ElfLoad.map_pages_spec]). *)
Fixpoint map_pages (fuel : nat) (nx_ok : bool) (s : mstate) (p : process_t) (flags va last : Z)
    : option (Z * mstate * process_t) :=
  match fuel with
  | O => None
  | S fuel =>
      if va <=? last then
        let pte := vmm_get_pte (ms_mem s) (cr3 p) va in
        if negb (has pte VMM_PRESENT) then
          let '(st, s, p) := process_alloc_user_page s p va flags in
          if negb (st =? VOID_OK) then Some (ELF_ERR_NOMEM, s, p)
          else map_pages fuel nx_ok s p flags (u64 (va + PAGE_SIZE)) last
        else
          let merged := merge_flags pte flags in
          if nx_ok && has merged VMM_WRITE && negb (has merged VMM_NX) then Some (ELF_ERR_NOEXEC, s, p)
          else
            let '(st, s) := vmm_map_page s (cr3 p) va (Z.land pte PHYS_MASK)
                              (Z.lor (Z.lor merged VMM_PRESENT) VMM_USER) in
            if negb (st =? VOID_OK) then Some (ELF_ERR_NOMEM, s, p)
            else map_pages fuel nx_ok s p flags (u64 (va + PAGE_SIZE)) last
      else Some (ELF_OK, s, p)
  end.

Definition map_segment_pages (nx_ok : bool) (s : mstate) (p : process_t) (ph : Elf64_Phdr) (base : Z)
    : option (Z * mstate * process_t) :=
  let first := Z.land (u64 (p_vaddr ph + base)) PAGE_MASK in
  let last := Z.land (u64 (u64 (p_vaddr ph + base) + p_memsz ph - 1)) PAGE_MASK in
  map_pages page_fuel nx_ok s p (seg_page_flags nx_ok (p_flags ph)) first last.

Fixpoint copy_pages (fuel : nat) (s : mstate) (p : process_t) (img : list Z) (va0 offset filesz done_ : Z)
    : option (Z * mstate) :=
  match fuel with
  | O => None
  | S fuel =>
      if done_ <? filesz then
        let va := u64 (va0 + done_) in
        let chunk := PAGE_SIZE - Z.land va (PAGE_SIZE - 1) in
        let chunk := if filesz - done_ <? chunk then filesz - done_ else chunk in
        let phys := vmm_virt_to_phys (ms_mem s) (cr3 p) va in
        if phys =? 0 then Some (ELF_ERR_NOMEM, s)
        else
          let bytes := take (Z.to_nat chunk) (drop (Z.to_nat (offset + done_)) img) in
          copy_pages fuel (with_mem s (mem_write (ms_mem s) phys bytes)) p img va0 offset filesz (done_ + chunk)
      else Some (ELF_OK, s)
  end.

Definition copy_segment_data (s : mstate) (p : process_t) (img : list Z) (ph : Elf64_Phdr) (base : Z)
    : option (Z * mstate) :=
  copy_pages page_fuel s p img (u64 (p_vaddr ph + base)) (p_offset ph) (p_filesz ph) 0.

(** The two passes of [elf_load_segments_only]. *)
Fixpoint map_segments (nx_ok : bool) (s : mstate) (p : process_t) (base : Z) (l : list Elf64_Phdr)
    : option (Z * mstate * process_t) :=
  match l with
  | [] => Some (ELF_OK, s, p)
  | ph :: l =>
      if negb (is_load ph) then map_segments nx_ok s p base l
      else
        match map_segment_pages nx_ok s p ph base with
        | None => None
        | Some (r, s, p) => if negb (r =? ELF_OK) then Some (r, s, p) else map_segments nx_ok s p base l
        end
  end.

Fixpoint copy_segments (s : mstate) (p : process_t) (img : list Z) (base : Z) (l : list Elf64_Phdr)
    : option (Z * mstate) :=
  match l with
  | [] => Some (ELF_OK, s)
  | ph :: l =>
      if negb (is_load ph) then copy_segments s p img base l
      else
        match copy_segment_data s p img ph base with
        | None => None
        | Some (r, s) => if negb (r =? ELF_OK) then Some (r, s) else copy_segments s p img base l
        end
  end.

Definition elf_load_segments_only (nx_ok : bool) (ctx : elf_loader_t) (s : mstate) (p : process_t)
    : option (Z * mstate * process_t) :=
  let l := phdrs (image ctx) (ehdr ctx) in
  match map_segments nx_ok s p (base_ ctx) l with
  | None => None
  | Some (r, s, p) =>
      if negb (r =? ELF_OK) then Some (r, s, p)
      else match copy_segments s p (image ctx) (base_ ctx) l with
           | None => None
           | Some (r, s) => Some (r, s, p)
           end
  end.

(** ** The initial stack *)
Fixpoint stack_pages (l : list Z) (s : mstate) (p : process_t) (flags : Z) : Z * mstate * process_t :=
  match l with
  | [] => (ELF_OK, s, p)
  | va :: l =>
      let '(st, s, p) := process_alloc_user_page s p va flags in
      if negb (st =? VOID_OK) then (ELF_ERR_NOMEM, s, p) else stack_pages l s p flags
  end.

Definition AT_NULL : Z := 0.
Definition AT_PHDR : Z := 3.
Definition AT_PHENT : Z := 4.
Definition AT_PHNUM : Z := 5.
Definition AT_PAGESZ : Z := 6.
Definition AT_BASE : Z := 7.
Definition AT_ENTRY : Z := 9.

Definition argv0 : list Z := str "program" ++ [0].
Definition stack_rsp : Z := Z.land (USER_STACK_TOP - (4 + 2 * 7) * 8) (2 ^ 64 - 16).
Definition stack_str : Z := Z.land (stack_rsp - Z.of_nat (length argv0)) (2 ^ 64 - 16).

Definition stack_words (ctx : elf_loader_t) : list Z :=
  [1; stack_str; 0; 0; AT_PHDR; phdr_va ctx; AT_PHENT; PHDR_SIZE; AT_PHNUM; e_phnum (ehdr ctx);
   AT_ENTRY; u64 (entry_ ctx + base_ ctx); AT_BASE; base_ ctx; AT_PAGESZ; PAGE_SIZE; AT_NULL; 0].

Definition setup_user_stack (nx_ok : bool) (s : mstate) (p : process_t) (ctx : elf_loader_t) : Z * Z * mstate * process_t :=
  let flags := Z.lor VMM_WRITE (if nx_ok then VMM_NX else 0) in
  let '(r, s, p) := stack_pages (pages_from (USER_STACK_TOP - USER_STACK_SIZE) USER_STACK_TOP) s p flags in
  if negb (r =? ELF_OK) then (r, 0, s, p)
  else
    let str_phys := vmm_virt_to_phys (ms_mem s) (cr3 p) stack_str in
    if str_phys =? 0 then (ELF_ERR_NOMEM, 0, s, p)
    else
      let s := with_mem s (mem_write (ms_mem s) str_phys argv0) in
      let phys := vmm_virt_to_phys (ms_mem s) (cr3 p) stack_rsp in
      if phys =? 0 then (ELF_ERR_NOMEM, 0, s, p)
      else
        let s := with_mem s (mem_write (ms_mem s) phys (concat (le_bytes 8 <$> stack_words ctx))) in
        (ELF_OK, stack_rsp, s, p).

(** [(status, entry, rsp, ...)]. *)
Definition elf_load_into_process (nx_ok : bool) (ctx : elf_loader_t) (s : mstate) (p : process_t)
    : option (Z * Z * Z * mstate * process_t) :=
  match elf_load_segments_only nx_ok ctx s p with
  | None => None
  | Some (r, s, p) =>
      if negb (r =? ELF_OK) then Some (r, 0, 0, s, p)
      else
        let '(r, rsp, s, p) := setup_user_stack nx_ok s p ctx in
        if negb (r =? ELF_OK) then Some (r, 0, 0, s, p)
        else Some (ELF_OK, u64 (entry_ ctx + base_ ctx), rsp, s, p)
  end.

(** The part behind the last slash. *)
Fixpoint basename (cur path : list Z) : list Z :=
  match path with
  | [] => cur
  | c :: path => basename (if c =? SLASH then path else cur) path
  end.

Definition elf_load_interp (nx_ok : bool) (blobs : list (list Z)) (ctx : elf_loader_t) (s : mstate) (p : process_t)
    : option (Z * Z * mstate * process_t) :=
  match interp ctx with
  | None => Some (ELF_ERR_INVAL, 0, s, p)
  | Some path =>
      match elf_find_embedded blobs (basename path path) with
      | inl e => Some (e, 0, s, p)
      | inr blob =>
          match elf_validate blob with
          | inl e => Some (e, 0, s, p)
          | inr ic =>
              match interp ic with
              | Some _ => Some (ELF_ERR_NOEXEC, 0, s, p)
              | None =>
                  match elf_load_segments_only nx_ok ic s p with
                  | None => None
                  | Some (r, s, p) =>
                      if negb (r =? ELF_OK) then Some (r, 0, s, p)
                      else Some (ELF_OK, u64 (entry_ ic + base_ ic), s, p)
                  end
              end
          end
      end
  end.

(** ** What a valid image is

  In unbounded arithmetic.  The end of a position-independent segment is computed
  modulo 2^64, so a segment may extend past the top of the address space. *)
Definition vbase (eh : Elf64_Ehdr) : Z := if e_type eh =? ET_DYN then ELF_DYN_BASE else 0.
Definition vstart (base : Z) (ph : Elf64_Phdr) : Z := p_vaddr ph + base.
Definition vstop (base : Z) (ph : Elf64_Phdr) : Z := p_vaddr ph + base + p_memsz ph.

Record segment_ok (size base : Z) (ph : Elf64_Phdr) : Prop := {
  so_file : p_filesz ph <= p_memsz ph /\ p_offset ph + p_filesz ph <= size;
  so_start : USER_MIN_VADDR <= vstart base ph < 2 ^ 64;
  so_nowrap : p_vaddr ph + p_memsz ph < 2 ^ 64;
  so_stop : vstop base ph < 2 ^ 64 -> vstop base ph <= USER_MAX_VADDR /\
    (USER_STACK_TOP <= vstart base ph \/ vstop base ph <= USER_STACK_TOP - USER_STACK_SIZE);
  so_flags : has (p_flags ph) PF_R = true /\ has (p_flags ph) PF_W && has (p_flags ph) PF_X = false;
  so_align : 1 < p_align ph -> exists k, 0 <= k /\ p_align ph = 2 ^ k /\ p_vaddr ph mod 2 ^ k = p_offset ph mod 2 ^ k
}.

Definition apart (base : Z) (ph ph' : Elf64_Phdr) : Prop :=
  2 ^ 64 <= vstop base ph \/ 2 ^ 64 <= vstop base ph' \/
  vstop base ph <= vstart base ph' \/ vstop base ph' <= vstart base ph.

Definition is_interp (ph : Elf64_Phdr) : bool := p_type ph =? PT_INTERP.
Definition interp_ok (size : Z) (ph : Elf64_Phdr) : Prop := 0 < p_filesz ph < 64 /\ p_offset ph + p_filesz ph <= size.
Definition entry_in (entry : Z) (ph : Elf64_Phdr) : Prop :=
  has (p_flags ph) PF_X = true /\ p_vaddr ph <= entry < p_vaddr ph + p_memsz ph.

Definition loads (l : list Elf64_Phdr) : list Elf64_Phdr := filter (fun ph => is_load ph = true) l.
Definition interps (l : list Elf64_Phdr) : list Elf64_Phdr := filter (fun ph => is_interp ph = true) l.

Record valid_phdrs (size base entry : Z) (l : list Elf64_Phdr) : Prop := {
  vp_interp : Forall (interp_ok size) (interps l);
  vp_count : Z.of_nat (length (loads l)) <= ELF_MAX_LOADS;
  vp_segments : Forall (segment_ok size base) (loads l);
  vp_apart : ForallOrdPairs (apart base) (loads l);
  vp_entry : Exists (entry_in entry) (loads l)
}.

Definition valid_image (img : list Z) : Prop :=
  let eh := read_ehdr img in
  EHDR_SIZE <= Z.of_nat (length img) /\ ehdr_ok (Z.of_nat (length img)) eh = true /\
  e_phoff eh + e_phnum eh * PHDR_SIZE <= Z.of_nat (length img) /\
  valid_phdrs (Z.of_nat (length img)) (vbase eh) (e_entry eh) (phdrs img eh).

(** The path of the last PT_INTERP header. *)
Definition interp_path (img : list Z) (eh : Elf64_Ehdr) : option (list Z) :=
  (fun ph => c_string (take (Z.to_nat (p_filesz ph)) (drop (Z.to_nat (p_offset ph)) img))) <$>
  last (interps (phdrs img eh)).

(** ** Header fields *)
Definition u64_phdr (ph : Elf64_Phdr) : Prop :=
  0 <= p_offset ph < 2 ^ 64 /\ 0 <= p_vaddr ph < 2 ^ 64 /\ 0 <= p_filesz ph < 2 ^ 64 /\
  0 <= p_memsz ph < 2 ^ 64 /\ 0 <= p_align ph < 2 ^ 64.

Lemma field_bound img off n : Forall (fun b => 0 <= b < 256) img -> 0 <= n -> 0 <= field img off n < 2 ^ (8 * n).
Proof.
  intros Hb Hn. unfold field. set (l := take _ _).
  assert (Hl : Forall (fun b => 0 <= b < 256) l) by by apply Forall_take, Forall_drop.
  pose proof (le_val_bound l Hl) as H. assert (Z.of_nat (length l) <= n).
  { unfold l. rewrite length_take. lia. }
  split; [lia|]. eapply Z.lt_le_trans; [apply H|]. apply Z.pow_le_mono_r; lia.
Qed.

(** A test for lists of bytes. *)
Definition bytesb (l : list Z) : bool := forallb (fun b => (0 <=? b) && (b <? 256)) l.

Lemma bytesb_ok l : bytesb l = true -> Forall (fun b => 0 <= b < 256) l.
Proof.
  unfold bytesb. rewrite forallb_forall, Forall_forall. intros H b Hb. apply list_elem_of_In, H, andb_true_iff in Hb. lia.
Qed.

Lemma phdr_u64 img eh i : Forall (fun b => 0 <= b < 256) img -> u64_phdr (phdr_at img eh i).
Proof. intros Hb. unfold u64_phdr. cbn. split_and!; by apply (field_bound _ _ 8). Qed.

Lemma pow2_mask a : 1 < a -> Z.land a (a - 1) = 0 -> exists k, 0 <= k /\ a = 2 ^ k.
Proof.
  intros Ha Hl. exists (Z.log2 a). split; [apply Z.log2_nonneg|].
  destruct (Z.log2_spec a ltac:(lia)) as [H1 H2]. pose proof (Z.log2_nonneg a) as H0.
  rewrite Z.pow_succ_r in H2 by done.
  destruct (decide (a = 2 ^ Z.log2 a)) as [|Hne]; [done|].
  assert (Ht : Z.testbit (Z.land a (a - 1)) (Z.log2 a) = true).
  { rewrite Z.land_spec, Z.bit_log2 by lia. cbn [andb].
    assert (E : Z.log2 (a - 1) = Z.log2 a) by (apply Z.log2_unique; [done|rewrite Z.pow_succ_r by done; lia]).
    rewrite <- E. apply Z.bit_log2. lia. }
  rewrite Hl, Z.bits_0 in Ht. done.
Qed.

Lemma land_pow2_pred x k : 0 <= k -> Z.land x (2 ^ k - 1) = x mod 2 ^ k.
Proof. intros Hk. rewrite <- Z.land_ones by done. f_equal. rewrite Z.ones_equiv. lia. Qed.

Lemma align_check a v o : 1 < a ->
  negb (Z.land a (a - 1) =? 0) || negb (Z.land v (a - 1) =? Z.land o (a - 1)) = false <->
  exists k, 0 <= k /\ a = 2 ^ k /\ v mod 2 ^ k = o mod 2 ^ k.
Proof.
  intros Ha. rewrite orb_false_iff, !negb_false_iff, !Z.eqb_eq. split.
  - intros [Hp Hv]. destruct (pow2_mask a Ha Hp) as (k & Hk & ->). exists k. split_and!; [done|done|].
    by rewrite <- !land_pow2_pred.
  - intros (k & Hk & -> & Hm). by rewrite !land_pow2_pred, Z_mod_same_full.
Qed.

(** ** One program header *)
Definition load_range (base : Z) (ph : Elf64_Phdr) : Z * Z :=
  (u64 (p_vaddr ph + base), u64 (u64 (p_vaddr ph + base) + p_memsz ph)).

Definition is_entry (entry : Z) (ph : Elf64_Phdr) : bool :=
  has (p_flags ph) PF_X && (p_vaddr ph <=? entry) && (entry <? u64 (p_vaddr ph + p_memsz ph)).

Definition fresh_range (base : Z) (seen : list (Z * Z)) (ph : Elf64_Phdr) : Prop :=
  existsb (overlaps (load_range base ph).1 (load_range base ph).2) seen = false.

Ltac elia := unfold u64_phdr, vstart, vstop, USER_MIN_VADDR, USER_MAX_VADDR, USER_STACK_TOP, USER_STACK_SIZE, ELF_DYN_BASE,
  ELF_MAX_LOADS in *; cbn [fst snd] in *; lia.

Lemma u64_sum x y : 0 <= x < 2 ^ 64 -> 0 <= y < 2 ^ 64 ->
  (x + y < 2 ^ 64 /\ u64 (x + y) = x + y) \/ (2 ^ 64 <= x + y /\ u64 (x + y) = x + y - 2 ^ 64).
Proof.
  intros Hx Hy. destruct (Z.ltb_spec (x + y) (2 ^ 64)); [left|right]; (split; [done|]);
    [apply u64_id; lia|apply u64_wrap; lia].
Qed.

Lemma load_range_spec size base ph : u64_phdr ph -> 0 <= base <= ELF_DYN_BASE -> segment_ok size base ph ->
  (load_range base ph).1 = vstart base ph /\
  ((vstop base ph < 2 ^ 64 /\ (load_range base ph).2 = vstop base ph) \/
   (2 ^ 64 <= vstop base ph /\ (load_range base ph).2 = vstop base ph - 2 ^ 64 /\ (load_range base ph).2 < base)).
Proof.
  intros Hu Hb [_ Hs Hn _ _ _]. unfold load_range. cbn [fst snd]. rewrite (u64_id (p_vaddr ph + base)) by elia.
  split; [done|]. destruct (u64_sum (p_vaddr ph + base) (p_memsz ph)) as [[? ->]|[? ->]]; elia.
Qed.

Lemma overlaps_apart size base ph ph' : u64_phdr ph -> u64_phdr ph' -> 0 <= base <= ELF_DYN_BASE ->
  segment_ok size base ph -> segment_ok size base ph' ->
  overlaps (load_range base ph').1 (load_range base ph').2 (load_range base ph) = false <-> apart base ph ph'.
Proof.
  intros Hu Hu' Hb Ho Ho'. destruct (load_range_spec _ _ _ Hu Hb Ho) as [E1 E2].
  destruct (load_range_spec _ _ _ Hu' Hb Ho') as [E1' E2']. unfold overlaps, apart. rewrite E1, E1', andb_false_iff, !Z.ltb_ge.
  destruct Hu as (_ & ? & _ & ? & _), Hu' as (_ & ? & _ & ? & _). elia.
Qed.

Lemma check_load size base entry st ph st' : is_load ph = true -> u64_phdr ph -> 0 <= size < 2 ^ 63 ->
  0 <= base <= ELF_DYN_BASE ->
  check_phdr size base entry st ph = Some st' <->
  Z.of_nat (length (seen st)) < ELF_MAX_LOADS /\ segment_ok size base ph /\ fresh_range base (seen st) ph /\
  st' = Scan (seen st ++ [load_range base ph]) (entry_ok st || is_entry entry ph) (interp_off st) (interp_len st).
Proof.
  intros [Ht%Z.eqb_eq Hm%negb_true_iff]%andb_true_iff Hu Hs Hb. pose proof Hu as (Ho & Hv & Hf & Hz & Ha).
  apply Z.eqb_neq in Hm as Hm'. unfold check_phdr. rewrite Ht, Hm. cbn [Z.eqb Pos.eqb PT_LOAD PT_INTERP PT_DYNAMIC negb].
  destruct (Z.leb_spec ELF_MAX_LOADS (Z.of_nat (length (seen st)))); [split; [done|lia]|].
  destruct (Z.ltb_spec (p_memsz ph) (p_filesz ph)); [split; [done|intros (_ & [] & _); lia]|].
  destruct (Z.ltb_spec size (p_offset ph)); [split; [done|intros (_ & [] & _); lia]|].
  destruct (Z.ltb_spec (size - p_offset ph) (p_filesz ph)); [split; [done|intros (_ & [] & _); lia]|]. cbn zeta.
  destruct (Z.ltb_spec (u64 (p_vaddr ph + base)) (p_vaddr ph)) as [Hw|Hw];
    (destruct (u64_sum (p_vaddr ph) base Hv ltac:(elia)) as [[Hvb Evb]|[Hvb Evb]]; try elia);
    [split; [done|intros (_ & [] & _); elia]|].
  destruct (Z.ltb_spec (u64 (p_vaddr ph + p_memsz ph)) (p_vaddr ph)) as [Hw'|Hw'];
    (destruct (u64_sum (p_vaddr ph) (p_memsz ph) Hv Hz) as [[Hvm Evm]|[Hvm Evm]]; try elia);
    [split; [done|intros (_ & [] & _); elia]|].
  unfold load_range, fresh_range, load_range, is_entry. cbn [fst snd]. rewrite Evb, Evm.
  destruct (Z.ltb_spec (p_vaddr ph + base) USER_MIN_VADDR); [split; [done|intros (_ & [] & _); elia]|].
  pose proof (u64_sum (p_vaddr ph + base) (p_memsz ph) ltac:(lia) Hz) as Hend. set (vend := u64 (p_vaddr ph + base + p_memsz ph)) in *.
  destruct (Z.ltb_spec USER_MAX_VADDR vend); [split; [done|intros (_ & [] & _); elia]|].
  destruct (has (p_flags ph) PF_R) eqn:ER; cbn [negb]; [|split; [done|intros (_ & [? ? ? ? [] ?] & _); congruence]].
  destruct (has (p_flags ph) PF_W && has (p_flags ph) PF_X) eqn:EW;
    [split; [done|intros (_ & [? ? ? ? [] ?] & _); congruence]|].
  assert (Hal : (1 <? p_align ph) && (negb (Z.land (p_align ph) (p_align ph - 1) =? 0)
      || negb (Z.land (p_vaddr ph) (p_align ph - 1) =? Z.land (p_offset ph) (p_align ph - 1))) = false <->
    (1 < p_align ph -> exists k, 0 <= k /\ p_align ph = 2 ^ k /\ p_vaddr ph mod 2 ^ k = p_offset ph mod 2 ^ k)).
  { destruct (Z.ltb_spec 1 (p_align ph)) as [Ha1|Ha1]; cbn [andb]; [|split; [lia|done]].
    rewrite align_check by done. split; [done|intros Hx; by apply Hx]. }
  destruct (_ && _) in Hal |- *; [split; [done|intros (_ & [] & _); exfalso; by assert (true = false) by (by apply Hal)]|].
  assert (Hal' := proj1 Hal eq_refl). clear Hal.
  destruct ((p_vaddr ph + base <? USER_STACK_TOP) && (USER_STACK_TOP - USER_STACK_SIZE <? vend)) eqn:ES.
  { apply andb_true_iff in ES as [ES1%Z.ltb_lt ES2%Z.ltb_lt]. split; [done|intros (_ & [] & _); elia]. }
  apply andb_false_iff in ES. rewrite !Z.ltb_ge in ES.
  destruct (existsb _ (seen st)) eqn:EO; [split; [done|by intros (_ & _ & ? & _)]|].
  split; [intros [= <-]|intros (_ & _ & _ & ->); done].
  split_and!; [done| |done|done]. split; try done; elia.
Qed.

Lemma check_interp size base entry st ph st' : is_interp ph = true -> u64_phdr ph -> 0 <= size < 2 ^ 63 ->
  check_phdr size base entry st ph = Some st' <->
  interp_ok size ph /\ st' = Scan (seen st) (entry_ok st) (p_offset ph) (p_filesz ph).
Proof.
  intros Ht (Ho & _ & Hf & _) Hs. unfold check_phdr. unfold is_interp in Ht. rewrite Ht. unfold interp_ok.
  destruct (Z.eqb_spec (p_filesz ph) 0); cbn [orb]; [split; [done|lia]|].
  destruct (Z.leb_spec size (p_offset ph)); [split; [done|lia]|].
  destruct (Z.leb_spec 64 (p_filesz ph)); [split; [done|lia]|].
  rewrite u64_id by lia. destruct (Z.ltb_spec size (p_offset ph + p_filesz ph)); [split; [done|lia]|].
  split; [intros [= <-]; split; [lia|done]|by intros [_ ->]].
Qed.

Lemma check_other size base entry st ph : is_interp ph = false -> is_load ph = false ->
  check_phdr size base entry st ph = Some st.
Proof.
  unfold is_interp, is_load, check_phdr. intros ->. intros Hl. destruct (p_type ph =? PT_DYNAMIC); [done|].
  destruct (p_type ph =? PT_LOAD); cbn [negb andb] in *; [|done]. by destruct (p_memsz ph =? 0).
Qed.

Lemma interp_not_load ph : is_interp ph = true -> is_load ph = false.
Proof. unfold is_interp, is_load. by intros ->%Z.eqb_eq. Qed.

(** Every range is clear of the ranges before it. *)
Fixpoint all_fresh (base : Z) (seen : list (Z * Z)) (l : list Elf64_Phdr) : Prop :=
  match l with
  | [] => True
  | ph :: l => fresh_range base seen ph /\ all_fresh base (seen ++ [load_range base ph]) l
  end.

Definition scan_end (base entry : Z) (st : scan) (l : list Elf64_Phdr) : scan :=
  let i := match last (interps l) with Some ph => (p_offset ph, p_filesz ph) | None => (interp_off st, interp_len st) end in
  Scan (seen st ++ (load_range base <$> loads l)) (entry_ok st || existsb (is_entry entry) (loads l)) i.1 i.2.

Lemma loads_cons ph l : loads (ph :: l) = if is_load ph then ph :: loads l else loads l.
Proof. unfold loads. rewrite filter_cons. by destruct (is_load ph). Qed.
Lemma interps_cons ph l : interps (ph :: l) = if is_interp ph then ph :: interps l else interps l.
Proof. unfold interps. rewrite filter_cons. by destruct (is_interp ph). Qed.

Lemma check_phdrs_spec size base entry l : 0 <= size < 2 ^ 63 -> 0 <= base <= ELF_DYN_BASE -> Forall u64_phdr l ->
  forall st st', Z.of_nat (length (seen st)) <= ELF_MAX_LOADS ->
  check_phdrs size base entry st l = Some st' <->
  Forall (interp_ok size) (interps l) /\ Z.of_nat (length (seen st) + length (loads l)) <= ELF_MAX_LOADS /\
  Forall (segment_ok size base) (loads l) /\ all_fresh base (seen st) (loads l) /\ st' = scan_end base entry st l.
Proof.
  intros Hs Hb. induction 1 as [|ph l Hu Hl IH]; intros st st' Hn; cbn [check_phdrs].
  { unfold scan_end. cbn. rewrite app_nil_r, orb_false_r, Nat.add_0_r. destruct st. cbn in *.
    split; [intros [= <-]; split_and!; done|by intros (_ & _ & _ & _ & ->)]. }
  rewrite loads_cons, interps_cons. unfold scan_end. rewrite loads_cons, interps_cons.
  destruct (is_interp ph) eqn:Ei.
  { rewrite (interp_not_load ph Ei). pose proof (check_interp size base entry st ph) as Hc.
    destruct (check_phdr size base entry st ph) as [st1|] eqn:E.
    - destruct (proj1 (Hc st1 Ei Hu Hs) eq_refl) as [Hi ->]. rewrite IH by done. unfold scan_end. cbn [seen entry_ok interp_off interp_len].
      rewrite last_cons, Forall_cons. destruct (last (interps l)); naive_solver.
    - split; [done|]. intros ([Hi _]%Forall_cons & _). by pose proof (proj2 (Hc _ Ei Hu Hs) (conj Hi eq_refl)). }
  destruct (is_load ph) eqn:El.
  - pose proof (check_load size base entry st ph) as Hc. destruct (check_phdr size base entry st ph) as [st1|] eqn:E.
    + destruct (proj1 (Hc st1 El Hu Hs Hb) eq_refl) as (Hlt & Hok & Hfr & ->).
      rewrite IH by (cbn [seen]; rewrite length_app; cbn; lia). unfold scan_end. cbn [seen entry_ok interp_off interp_len].
      rewrite length_app, Forall_cons, fmap_cons, <- app_assoc. cbn [length all_fresh existsb app]. rewrite orb_assoc.
      replace (length (seen st) + 1 + length (loads l))%nat with (length (seen st) + S (length (loads l)))%nat by lia.
      naive_solver.
    + split; [done|]. intros (_ & Hlen & [Hok _]%Forall_cons & [Hfr _] & _). cbn [length] in Hlen.
      assert (Hlt : Z.of_nat (length (seen st)) < ELF_MAX_LOADS) by lia.
      by pose proof (proj2 (Hc _ El Hu Hs Hb) (conj Hlt (conj Hok (conj Hfr eq_refl)))).
  - rewrite check_other by done. by rewrite IH.
Qed.

Lemma fresh_snoc base seen r ph : fresh_range base (seen ++ [r]) ph <->
  fresh_range base seen ph /\ overlaps (load_range base ph).1 (load_range base ph).2 r = false.
Proof. unfold fresh_range. rewrite existsb_app. cbn [existsb]. by rewrite orb_false_r, orb_false_iff. Qed.

Lemma ord_pairs_cons {A} (R : A -> A -> Prop) x l :
  ForallOrdPairs R (x :: l) <-> Forall (R x) l /\ ForallOrdPairs R l.
Proof. split; [by inversion_clear 1|intros []; by constructor]. Qed.

Lemma all_fresh_apart size base l : 0 <= base <= ELF_DYN_BASE -> Forall u64_phdr l -> Forall (segment_ok size base) l ->
  forall seen, all_fresh base seen l <-> Forall (fresh_range base seen) l /\ ForallOrdPairs (apart base) l.
Proof.
  intros Hb. induction 1 as [|ph l Hu Hl IH]; intros Ho seen; cbn [all_fresh].
  { split; [intros _; split; constructor|done]. }
  apply Forall_cons in Ho as [Hph Ho]. rewrite IH, !Forall_cons, ord_pairs_cons by done.
  assert (Hs : Forall (fresh_range base (seen ++ [load_range base ph])) l <->
    Forall (fresh_range base seen) l /\ Forall (apart base ph) l).
  { rewrite <- Forall_and, !Forall_forall. rewrite Forall_forall in Hl, Ho.
    split; intros H x Hx; specialize (H x Hx); rewrite fresh_snoc in *;
      pose proof (overlaps_apart size base ph x Hu (Hl x Hx) Hb Hph (Ho x Hx)); tauto. }
  rewrite Hs. naive_solver.
Qed.

Lemma loads_sub l ph : ph ∈ loads l -> ph ∈ l /\ is_load ph = true.
Proof. unfold loads. rewrite list_elem_of_filter. tauto. Qed.

Lemma is_entry_spec size base entry l : Forall u64_phdr l -> Forall (segment_ok size base) l ->
  existsb (is_entry entry) l = true <-> Exists (entry_in entry) l.
Proof.
  intros Hu Ho. induction l as [|ph l IH]; cbn [existsb]; [rewrite Exists_nil; done|].
  apply Forall_cons in Hu as [(_ & Hv & _ & Hm & _) Hu], Ho as [[_ _ Hn _ _ _] Ho].
  rewrite orb_true_iff, Exists_cons, IH by done. unfold is_entry, entry_in. rewrite u64_id by lia.
  rewrite !andb_true_iff, Z.leb_le, Z.ltb_lt. tauto.
Qed.

Lemma loads_phdrs img : Forall (fun b => 0 <= b < 256) img ->
  Forall u64_phdr (phdrs img (read_ehdr img)) /\ Forall u64_phdr (loads (phdrs img (read_ehdr img))).
Proof.
  intros Hb. assert (H : Forall u64_phdr (phdrs img (read_ehdr img))).
  { unfold phdrs. apply Forall_fmap, Forall_true. intros i. by apply phdr_u64. }
  split; [done|]. rewrite Forall_forall in H |- *. intros ph [Hin _]%loads_sub. by apply H.
Qed.

Lemma elf_validate_cases img : Forall (fun b => 0 <= b < 256) img -> Z.of_nat (length img) < 2 ^ 63 ->
  (valid_image img /\ elf_validate img = inr (ElfLoader img (read_ehdr img) (e_entry (read_ehdr img))
     (vbase (read_ehdr img)) (interp_path img (read_ehdr img)) (u64 (e_phoff (read_ehdr img) + vbase (read_ehdr img))))) \/
  (~ valid_image img /\ elf_validate img = inl ELF_ERR_NOEXEC).
Proof.
  intros Hb Hlen. destruct (loads_phdrs img Hb) as [Hu Hul]. unfold elf_validate, valid_image. set (size := Z.of_nat _) in *.
  set (eh := read_ehdr img) in *. fold (vbase eh). cbn zeta.
  destruct (Z.ltb_spec size EHDR_SIZE) as [|Hs]; [right; split; [lia|done]|].
  destruct (ehdr_ok size eh) eqn:Eh; cbn [negb]; [|right; split; [by intros (_ & ? & _)|done]].
  assert (Htab : e_phoff eh + e_phnum eh * PHDR_SIZE <= size).
  { unfold ehdr_ok in Eh. repeat apply andb_true_iff in Eh as [Eh ?]. lia. }
  assert (Hbase : 0 <= vbase eh <= ELF_DYN_BASE) by (unfold vbase; destruct (_ =? _); unfold ELF_DYN_BASE; lia).
  pose proof (check_phdrs_spec size (vbase eh) (e_entry eh) (phdrs img eh) ltac:(lia) Hbase Hu (Scan [] false 0 0)) as Hc.
  destruct (check_phdrs size _ _ _ _) as [st|] eqn:Ec.
  - destruct (proj1 (Hc st ltac:(done)) eq_refl) as (Hi & Hn & Ho & Hf & ->). cbn [length seen] in *.
    apply (all_fresh_apart size _ _ Hbase Hul Ho []) in Hf as [_ Hap].
    pose proof (is_entry_spec size (vbase eh) (e_entry eh) _ Hul Ho) as He.
    set (sc := scan_end _ _ _ _).
    assert (E1 : length (seen sc) = length (loads (phdrs img eh))) by (unfold sc, scan_end; cbn; by rewrite length_fmap).
    assert (E2 : entry_ok sc = existsb (is_entry (e_entry eh)) (loads (phdrs img eh))) by done. rewrite E1, E2.
    destruct (Z.eqb_spec (Z.of_nat (length (loads (phdrs img eh)))) 0) as [E0|].
    { right. split; [|done]. intros (_ & _ & _ & []). destruct (loads (phdrs img eh)); [by apply Exists_nil in vp_entry0|done]. }
    destruct (existsb _ (loads (phdrs img eh))); cbn [negb].
    + left. split; [split_and!; [done|done|done|]; split; try done; by apply He|]. do 2 f_equal.
      unfold interp_path, sc, scan_end. cbn [interp_off interp_len]. destruct (last (interps (phdrs img eh))) as [ph|] eqn:El; [|done].
      apply last_Some_elem_of in El. rewrite Forall_forall in Hi. destruct (Hi ph El). cbn [fst snd fmap option_fmap option_map].
      by rewrite (proj2 (Z.eqb_neq _ _)) by lia.
    + right. split; [|done]. intros (_ & _ & _ & []). by apply He in vp_entry0.
  - right. split; [|done]. intros (_ & _ & _ & []).
    discriminate (proj2 (Hc (scan_end (vbase eh) (e_entry eh) (Scan [] false 0 0) (phdrs img eh)) ltac:(done))).
    split_and!; try done. apply (all_fresh_apart size _ _ Hbase Hul); [done|]. split; [|done]. by apply Forall_true.
Qed.

(** ** What an acceptable image is, byte by byte

  The specification of the loader's checks, read off the ELF64 format: fields
  by their offsets, constants by their values, independently of the loader. *)
Definition word (img : list Z) (off n : Z) : Z := le_val (take (Z.to_nat n) (drop (Z.to_nat off) img)).

Definition headers (img : list Z) : list Elf64_Phdr :=
  (fun i =>
     let o := word img 32 8 + 56 * i in
     Phdr (word img o 4) (word img (o + 4) 4) (word img (o + 8) 8) (word img (o + 16) 8) (word img (o + 24) 8)
       (word img (o + 32) 8) (word img (o + 40) 8) (word img (o + 48) 8)) <$> range 0 (word img 56 2).

Definition segments (img : list Z) : list Elf64_Phdr :=
  filter (fun ph => p_type ph = 1 /\ p_memsz ph <> 0) (headers img).
Definition paths (img : list Z) : list Elf64_Phdr := filter (fun ph => p_type ph = 3) (headers img).

(** Position-independent images are biased. *)
Definition bias (img : list Z) : Z := if decide (word img 16 2 = 3) then 0x40000000 else 0.

Record good_segment (size base : Z) (ph : Elf64_Phdr) : Prop := {
  gs_file : p_filesz ph <= p_memsz ph /\ p_offset ph + p_filesz ph <= size;
  gs_start : 0x10000 <= base + p_vaddr ph < 2 ^ 64;
  gs_nowrap : p_vaddr ph + p_memsz ph < 2 ^ 64;
  gs_stop : base + p_vaddr ph + p_memsz ph < 2 ^ 64 ->
    base + p_vaddr ph + p_memsz ph <= 0x800000000000 /\
    (0x700000000000 <= base + p_vaddr ph \/ base + p_vaddr ph + p_memsz ph <= 0x6FFFFFFF0000);
  gs_readable : Z.testbit (p_flags ph) 2 = true;
  gs_w_xor_x : ~ (Z.testbit (p_flags ph) 1 = true /\ Z.testbit (p_flags ph) 0 = true);
  gs_align : 1 < p_align ph -> exists k, 0 <= k /\ p_align ph = 2 ^ k /\ p_vaddr ph mod 2 ^ k = p_offset ph mod 2 ^ k
}.

(** Disjoint ranges, of segments that do not pass the top of the address space. *)
Definition disjoint_segments (base : Z) (ph ph' : Elf64_Phdr) : Prop :=
  2 ^ 64 <= base + p_vaddr ph + p_memsz ph \/ 2 ^ 64 <= base + p_vaddr ph' + p_memsz ph' \/
  p_vaddr ph + p_memsz ph <= p_vaddr ph' \/ p_vaddr ph' + p_memsz ph' <= p_vaddr ph.

Record good_image (img : list Z) : Prop := {
  gi_size : 64 <= Z.of_nat (length img);
  gi_ident : take 7 img = [0x7F; 0x45; 0x4C; 0x46; 2; 1; 1];
  gi_type : word img 16 2 = 2 \/ word img 16 2 = 3;
  gi_machine : word img 18 2 = 62;
  gi_version : word img 20 4 = 1;
  gi_ehsize : word img 52 2 = 64;
  gi_phentsize : word img 54 2 = 56;
  gi_phnum : 1 <= word img 56 2 <= 64;
  gi_table : word img 32 8 + 56 * word img 56 2 <= Z.of_nat (length img);
  gi_paths : Forall (fun ph => 0 < p_filesz ph < 64 /\ p_offset ph + p_filesz ph <= Z.of_nat (length img)) (paths img);
  gi_count : (length (segments img) <= 16)%nat;
  gi_segments : Forall (good_segment (Z.of_nat (length img)) (bias img)) (segments img);
  gi_disjoint : ForallOrdPairs (disjoint_segments (bias img)) (segments img);
  gi_entry : Exists (fun ph => Z.testbit (p_flags ph) 0 = true /\
               p_vaddr ph <= word img 24 8 < p_vaddr ph + p_memsz ph) (segments img)
}.

(** The interpreter of an image: the file bytes of its last path header, up to
  the first NUL. *)
Definition interpreter (img : list Z) (s : option (list Z)) : Prop :=
  match last (paths img) with
  | None => s = None
  | Some ph =>
      let bytes := take (Z.to_nat (p_filesz ph)) (drop (Z.to_nat (p_offset ph)) img) in
      exists t, s = Some t /\ 0 ∉ t /\ (bytes = t \/ exists rest, bytes = t ++ 0 :: rest)
  end.

(** ** The specification and the loader's checks agree *)
Lemma c_string_spec l : 0 ∉ c_string l /\ (l = c_string l \/ exists rest, l = c_string l ++ 0 :: rest).
Proof.
  induction l as [|c l [H1 H2]]; cbn [c_string]; [split; [by apply not_elem_of_nil|by left]|].
  destruct (Z.eqb_spec c 0) as [->|Hc]; [split; [by apply not_elem_of_nil|right; by exists l]|].
  split; [by apply not_elem_of_cons|]. destruct H2 as [E|[r E]]; [left|right; exists r; cbn [app]]; congruence.
Qed.

Lemma headers_phdrs img : Forall (fun b => 0 <= b < 256) img -> Z.of_nat (length img) < 2 ^ 63 ->
  word img 32 8 + 56 * word img 56 2 <= Z.of_nat (length img) -> headers img = phdrs img (read_ehdr img).
Proof.
  intros Hb Hl Ht. unfold headers, phdrs. apply list_fmap_ext. intros j i Hi%list_elem_of_lookup_2%elem_of_range.
  unfold phdr_at, read_ehdr. cbn [e_phoff]. change (field img 32 8) with (word img 32 8).
  rewrite u64_id; [by rewrite (Z.mul_comm i)|].
  pose proof (field_bound img 32 8 Hb ltac:(lia)) as H. change (field img 32 8) with (word img 32 8) in H.
  change (e_phnum (read_ehdr img)) with (word img 56 2) in Hi. unfold PHDR_SIZE. lia.
Qed.

Lemma segments_loads img : headers img = phdrs img (read_ehdr img) ->
  segments img = loads (phdrs img (read_ehdr img)) /\ paths img = interps (phdrs img (read_ehdr img)).
Proof.
  unfold segments, paths, loads, interps. intros ->. split; apply list_filter_iff; intros ph.
  - unfold is_load, PT_LOAD. rewrite andb_true_iff, negb_true_iff, Z.eqb_eq, Z.eqb_neq. done.
  - unfold is_interp, PT_INTERP. by rewrite Z.eqb_eq.
Qed.

Lemma bias_vbase img : bias img = vbase (read_ehdr img).
Proof. unfold bias, vbase. change (e_type (read_ehdr img)) with (word img 16 2). unfold ET_DYN.
  destruct (Z.eqb_spec (word img 16 2) 3); [by rewrite decide_True|by rewrite decide_False]. Qed.

Lemma good_segment_ok size base ph : good_segment size base ph <-> segment_ok size base ph.
Proof.
  assert (Ef : (has (p_flags ph) PF_R = true /\ has (p_flags ph) PF_W && has (p_flags ph) PF_X = false) <->
    Z.testbit (p_flags ph) 2 = true /\ ~ (Z.testbit (p_flags ph) 1 = true /\ Z.testbit (p_flags ph) 0 = true)).
  { unfold PF_R, PF_W, PF_X. change 4 with (2 ^ 2). change 2 with (2 ^ 1) at 3. change (has _ 1) with (has (p_flags ph) (2 ^ 0)).
    rewrite !has_bit, <- andb_true_iff, not_true_iff_false by done. done. }
  split.
  - intros []. split; [done|elia|done|elia|by apply Ef|done].
  - intros []. apply Ef in so_flags0 as []. split; try done; elia.
Qed.

Lemma disjoint_apart base ph ph' : disjoint_segments base ph ph' <-> apart base ph ph'.
Proof. unfold disjoint_segments, apart, vstart, vstop. lia. Qed.

Lemma entry_in_spec entry ph : entry_in entry ph <->
  Z.testbit (p_flags ph) 0 = true /\ p_vaddr ph <= entry < p_vaddr ph + p_memsz ph.
Proof. unfold entry_in, PF_X. change 1 with (2 ^ 0). by rewrite has_bit. Qed.

Lemma ForallOrdPairs_mono {A} (R S : A -> A -> Prop) l : (forall x y, R x y -> S x y) ->
  ForallOrdPairs R l -> ForallOrdPairs S l.
Proof. intros H. induction 1; constructor; [|done]. eapply Forall_impl; [done|]. intros ?. apply H. Qed.

Lemma ehdr_ok_spec img : Forall (fun b => 0 <= b < 256) img -> 64 <= Z.of_nat (length img) ->
  ehdr_ok (Z.of_nat (length img)) (read_ehdr img) = true <->
  take 7 img = [0x7F; 0x45; 0x4C; 0x46; 2; 1; 1] /\ (word img 16 2 = 2 \/ word img 16 2 = 3) /\ word img 18 2 = 62 /\
  word img 20 4 = 1 /\ word img 52 2 = 64 /\ word img 54 2 = 56 /\ 1 <= word img 56 2 <= 64 /\
  word img 32 8 + 56 * word img 56 2 <= Z.of_nat (length img).
Proof.
  intros Hb Hl. pose proof (field_bound img 56 2 Hb ltac:(lia)) as Hn. change (field img 56 2) with (word img 56 2) in Hn.
  unfold ehdr_ok. rewrite !andb_true_iff, orb_true_iff, negb_true_iff, !Z.eqb_eq, !Z.leb_le, Z.eqb_neq, bool_decide_eq_true.
  unfold read_ehdr. cbn [e_ident e_type e_machine e_version e_ehsize e_phentsize e_phnum e_phoff].
  change (field img) with (word img). set (w := word img) in *. clearbody w.
  assert (Hi : (take 4 (take 16 img) = ELFMAG /\ zget 0 (take 16 img) EI_CLASS = ELFCLASS64 /\
    zget 0 (take 16 img) EI_DATA = ELFDATA2LSB /\ zget 0 (take 16 img) EI_VERSION = EV_CURRENT) <->
    take 7 img = [0x7F; 0x45; 0x4C; 0x46; 2; 1; 1]).
  { do 16 (destruct img as [|? img]; [cbn [length] in Hl; lia|]). clear.
    unfold ELFMAG, zget, EI_CLASS, EI_DATA, EI_VERSION, ELFCLASS64, ELFDATA2LSB, EV_CURRENT. simpl.
    split; [intros ([= -> -> -> ->] & -> & -> & ->); done|intros [= -> -> -> -> -> -> ->]; done]. }
  unfold ET_EXEC, ET_DYN, EM_X86_64, EHDR_SIZE, PHDR_SIZE, ELF_MAX_PHNUM. unfold EV_CURRENT in *.
  split; [intros H|intros H]; destruct_and! H; split_and!; try tauto; try lia.
Qed.

Lemma good_image_valid img : Forall (fun b => 0 <= b < 256) img -> Z.of_nat (length img) < 2 ^ 63 ->
  good_image img <-> valid_image img.
Proof.
  intros Hb Hlen. unfold valid_image. cbn zeta. change (e_phoff (read_ehdr img)) with (word img 32 8).
  change (e_phnum (read_ehdr img)) with (word img 56 2). change (e_entry (read_ehdr img)) with (word img 24 8).
  rewrite <- bias_vbase. split.
  - intros G. destruct (segments_loads img (headers_phdrs img Hb Hlen (gi_table _ G))) as [El Ei]. destruct G.
    split_and!; [done|by apply ehdr_ok_spec|unfold PHDR_SIZE; lia|].
    split; rewrite <- ?El, <- ?Ei; [done|unfold ELF_MAX_LOADS; lia| | |].
    + eapply Forall_impl; [done|]. intros ph. by apply good_segment_ok.
    + eapply ForallOrdPairs_mono; [|done]. intros ph ph'. by rewrite disjoint_apart.
    + eapply Exists_impl; [done|]. intros ph. by apply entry_in_spec.
  - intros (Hs & Hh & Ht & V). apply ehdr_ok_spec in Hh as (H1 & H2 & H3 & H4 & H5 & H6 & H7 & H8); [|done..].
    destruct (segments_loads img (headers_phdrs img Hb Hlen H8)) as [El Ei].
    destruct V as [Vi Vc Vs Va Ve]. rewrite <- El in *. rewrite <- Ei in *. split; try done.
    + unfold ELF_MAX_LOADS in Vc. lia.
    + eapply Forall_impl; [done|]. intros ph. by apply good_segment_ok.
    + eapply ForallOrdPairs_mono; [|done]. intros ph ph'. by rewrite disjoint_apart.
    + eapply Exists_impl; [done|]. intros ph. by apply entry_in_spec.
Qed.

(** What [elf_validate] answers for an acceptable image. *)
Record accepted_as (img : list Z) (ctx : elf_loader_t) : Prop := {
  ac_image : image ctx = img;
  ac_entry : entry_ ctx = word img 24 8;
  ac_base : base_ ctx = bias img;
  ac_phdr : phdr_va ctx = (word img 32 8 + bias img) mod 2 ^ 64;
  ac_type : e_type (ehdr ctx) = word img 16 2;
  ac_phoff : e_phoff (ehdr ctx) = word img 32 8;
  ac_phnum : e_phnum (ehdr ctx) = word img 56 2;
  ac_interp : interpreter img (interp ctx)
}.

Lemma interpreter_path img : Forall (fun b => 0 <= b < 256) img -> Z.of_nat (length img) < 2 ^ 63 -> good_image img ->
  interpreter img (interp_path img (read_ehdr img)).
Proof.
  intros Hb Hlen G. destruct (segments_loads img (headers_phdrs img Hb Hlen (gi_table _ G))) as [_ Ei].
  unfold interpreter, interp_path. rewrite <- Ei. destruct (last (paths img)) as [ph|]; [|done].
  cbn [fmap option_fmap option_map]. eexists. split; [done|]. apply c_string_spec.
Qed.

(** ** Properties *)

(** C14.  The loader's checks are exact.  [good_image] is read off the ELF64
  format, by byte offsets and values, without the loader's functions: an image
  is acceptable if its first bytes are those of a 64-bit little-endian ELF file,
  its type is 2 or 3, its machine 62 (x86-64), its version and header sizes are
  the ones of the format, its 1 to 64 program headers lie inside the image;
  every interpreter path is a short string inside the image; there are at most 16
  loadable segments, each with its file bytes inside the image, starting in user
  space, ending below the end of user space and off the stack unless its end passes
  the top of the 64-bit address space, readable, not writable and executable at once,
  aligned congruently; their address ranges do not overlap; and the entry point lies
  in an executable segment.
  [elf_validate] accepts exactly these images, with the entry point, the load
  base, the address of the headers and the interpreter read from the file; any
  other image is answered with -8 (ELF_ERR_NOEXEC). *)
Theorem elf_validate_exact img : Forall (fun b => 0 <= b < 256) img -> Z.of_nat (length img) < 2 ^ 63 ->
  (good_image img /\ exists ctx, elf_validate img = inr ctx /\ accepted_as img ctx) \/
  (~ good_image img /\ elf_validate img = inl (-8)).
Proof.
  intros Hb Hlen. pose proof (good_image_valid img Hb Hlen) as Hg. rewrite Hg.
  destruct (elf_validate_cases img Hb Hlen) as [[Hv E]|[Hv E]]; [left|by right].
  split; [done|]. eexists. split; [exact E|]. split; try done; cbn [base_ phdr_va interp].
  - by rewrite bias_vbase.
  - by rewrite bias_vbase.
  - apply interpreter_path; tauto.
Qed.

(** A minimal executable: one readable and executable page at the usual address. *)
Definition demo_ehdr (type entry phnum : Z) : list Z :=
  ELFMAG ++ [ELFCLASS64; ELFDATA2LSB; EV_CURRENT] ++ replicate 9 0 ++ le_bytes 2 type ++ le_bytes 2 EM_X86_64 ++
  le_bytes 4 EV_CURRENT ++ le_bytes 8 entry ++ le_bytes 8 EHDR_SIZE ++ le_bytes 8 0 ++ le_bytes 4 0 ++
  le_bytes 2 EHDR_SIZE ++ le_bytes 2 PHDR_SIZE ++ le_bytes 2 phnum ++ le_bytes 2 0 ++ le_bytes 2 0 ++ le_bytes 2 0.

Definition demo_phdr (flags off vaddr filesz memsz align : Z) : list Z :=
  le_bytes 4 PT_LOAD ++ le_bytes 4 flags ++ le_bytes 8 off ++ le_bytes 8 vaddr ++ le_bytes 8 vaddr ++ le_bytes 8 filesz ++
  le_bytes 8 memsz ++ le_bytes 8 align.

Definition demo_elf : list Z := demo_ehdr ET_EXEC 0x400078 1 ++ demo_phdr 5 0 0x400000 122 130 4096 ++ [0xEB; 0xFE].

Lemma elf_validate_exact_witness : good_image demo_elf.
Proof.
  destruct (elf_validate_exact demo_elf (bytesb_ok demo_elf ltac:(by vm_compute)) ltac:(by vm_compute)) as [[H _]|[_ H]]; [exact H|].
  vm_compute in H. discriminate H.
Defined.

(** The check of the biased end of a segment is passed by wrapping around: this
  position-independent image has its only segment in the kernel half. *)
Definition kernel_elf : list Z :=
  demo_ehdr ET_DYN (0xFFFFFFFF80000000 - ELF_DYN_BASE) 1 ++
  demo_phdr 5 0 (0xFFFFFFFF80000000 - ELF_DYN_BASE) 122 0x80000000 1 ++ [0xEB; 0xFE].

Example kernel_segment_accepted :
  match elf_validate kernel_elf with
  | inr ctx => u64 (entry_ ctx + base_ ctx) = 0xFFFFFFFF80000000
  | inl _ => False
  end.
Proof. vm_compute. reflexivity. Qed.

Lemma names_match_spec a b : names_match a b = true <->
  (a = [] /\ b = []) \/ (a <> [] /\ b <> [] /\ (a `prefix_of` b \/ b `prefix_of` a)).
Proof.
  revert b. induction a as [|x a IH]; intros [|y b]; cbn [names_match]; [naive_solver..|].
  rewrite andb_true_iff, Z.eqb_eq. split.
  - intros [<- H]. right. split_and!; [done..|]. destruct a as [|x' a]; [left; by exists b|].
    destruct b as [|y' b]; [right; by exists (x' :: a)|]. apply IH in H as [[? _]|(_ & _ & [?|?])]; [done|left|right]; by apply prefix_cons.
  - intros [[? _]|(_ & _ & H)]; [done|]. assert (Hxy : x = y) by (destruct H as [H|H]; by apply prefix_cons_inv_1 in H).
    split; [done|]. destruct a as [|x' a]; [done|]. destruct b as [|y' b]; [done|]. apply IH. right. split_and!; [done..|].
    destruct H as [H|H]; [left|right]; by apply prefix_cons_inv_2 in H.
Qed.

(** Names of embedded images.  Looking up a name gives the first image of the
  table whose name begins with the given one or is a beginning of it, and
  ELF_ERR_NOEXEC when there is none; every name of the table gives its own image. *)
Theorem elf_find_embedded_prefix blobs name : name <> [] ->
  match elf_find_embedded blobs name with
  | inr blob => exists i nm, blob_names !! i = Some nm /\ (name `prefix_of` nm \/ nm `prefix_of` name) /\
      blob = nth i blobs [] /\
      forall j nm', (j < i)%nat -> blob_names !! j = Some nm' -> ~ (name `prefix_of` nm' \/ nm' `prefix_of` name)
  | inl e => e = ELF_ERR_NOEXEC /\ forall nm, nm ∈ blob_names -> ~ (name `prefix_of` nm \/ nm `prefix_of` name)
  end /\
  forall i nm, blob_names !! i = Some nm -> elf_find_embedded blobs nm = inr (nth i blobs []).
Proof.
  intros Hn. assert (Hne : forall nm, nm ∈ blob_names -> nm <> []).
  { apply Forall_forall. by repeat constructor. }
  assert (Hm : forall nm, nm ∈ blob_names -> names_match name nm = true <-> (name `prefix_of` nm \/ nm `prefix_of` name)).
  { intros nm Hin. rewrite names_match_spec. specialize (Hne nm Hin). naive_solver. }
  split.
  - unfold elf_find_embedded. destruct (first_index _ _) as [i|] eqn:E.
    + apply first_index_Some in E as (nm & Hi & Hf & Hb). exists i, nm. split_and!; [done| |done|].
      * apply Hm; [by eapply list_elem_of_lookup_2|done].
      * intros j nm' Hj Hl Hc. apply Hm in Hc; [|by eapply list_elem_of_lookup_2]. by rewrite (Hb j nm' Hj Hl) in Hc.
    + rewrite first_index_None in E. split; [done|]. intros nm Hin Hc. apply Hm in Hc; [|done]. by rewrite E in Hc.
  - intros i nm Hi. assert (Hlt : (i < 12)%nat) by (apply lookup_lt_Some in Hi; done).
    do 12 (destruct i as [|i]; [vm_compute in Hi; injection Hi as <-; reflexivity|]). lia.
Qed.

Lemma elf_find_embedded_prefix_witness :
  elf_find_embedded [[1]; [2]] (str "in") = inr [1] /\ elf_find_embedded [[1]; [2]] (str "init2") = inr [1] /\
  ~ (str "in" `prefix_of` str "elf_test").
Proof.
  split; [reflexivity|]. split; [reflexivity|]. intros Hp.
  destruct (elf_find_embedded_prefix [[1]; [2]] (str "elf_test") ltac:(discriminate)) as [_ H].
  destruct (H 1%nat (str "elf_test") eq_refl). apply prefix_cons_inv_1 in Hp. discriminate Hp.
Defined.
