(* ===== verification/ElfLoad.v ===== *)
(** * Loading is correct

  A loaded image: every byte of every segment is where the program headers put it,
  the rest of each segment is zero, no page is writable and executable at once, and
  the address space stays sound on every outcome, running out of memory included. *)
From S2P Require Import Prelude Pmm PhysMem Vmm ProcData UserMem AddrSpace Teardown Uaccess Vfs Elf.

(** ** Page permissions *)

(** Writable pages are not executable. *)
Definition wx_flags (fl : Z) : Prop := has fl VMM_WRITE = true -> has fl VMM_NX = true.

Definition wx_ok (s : mstate) (p : process_t) : Prop := forall va, user_half va -> page_present s p va = true ->
  wx_flags (vmm_get_pte (ms_mem s) (cr3 p) va).

Lemma seg_flags_ok (nx : bool) fl : page_flags_ok (seg_page_flags nx fl) /\
  (nx = true -> has fl PF_W && has fl PF_X = false -> wx_flags (seg_page_flags nx fl)).
Proof. unfold seg_page_flags, wx_flags. destruct (has fl PF_W), (has fl PF_X), nx; split; by vm_compute. Qed.

Lemma stack_flags_ok (nx : bool) : page_flags_ok (Z.lor VMM_WRITE (if nx then VMM_NX else 0)) /\
  (nx = true -> wx_flags (Z.lor VMM_WRITE (if nx then VMM_NX else 0))).
Proof. unfold wx_flags. destruct nx; split; by vm_compute. Qed.

Lemma user_pte_wx f fl : frame_addr f -> wx_flags fl -> wx_flags (user_pte f fl).
Proof.
  unfold wx_flags, user_pte. intros Hf. change VMM_PRESENT with (2 ^ 0). change VMM_USER with (2 ^ 2).
  change VMM_WRITE with (2 ^ 1). change VMM_NX with (2 ^ 63). rewrite !has_lor, !(has_frame f) by (done || lia).
  change (has (2 ^ 0) _) with false. change (has (2 ^ 2) _) with false.
  change (has (2 ^ 0) (2 ^ 63)) with false. change (has (2 ^ 2) (2 ^ 63)) with false. rewrite !orb_false_r. cbn [orb]. done.
Qed.

(** The entry a shared page gets. *)
Definition merged_pte (pte fl : Z) : Z :=
  Z.lor (Z.land (Z.land pte PHYS_MASK) PHYS_MASK) (Z.lor (Z.lor (merge_flags pte fl) VMM_PRESENT) VMM_USER).

Lemma merged_bits pte fl k : 0 <= k < 64 -> Z.testbit (merged_pte pte fl) k =
  if k =? 1 then Z.testbit pte 1 || Z.testbit fl 1
  else if k =? 63 then Z.testbit pte 63 && Z.testbit fl 63
  else Z.testbit pte k || (k =? 0) || (k =? 2).
Proof.
  intros Hk. unfold merged_pte, merge_flags.
  replace (2 ^ 64 - 1 - Z.lor VMM_WRITE VMM_NX) with (Z.land (Z.ones 64) (Z.lnot (Z.lor VMM_WRITE VMM_NX))) by (by vm_compute).
  change VMM_PRESENT with (2 ^ 0). change VMM_USER with (2 ^ 2). change VMM_WRITE with (2 ^ 1). change VMM_NX with (2 ^ 63).
  rewrite !has_bit by lia. set (b1 := Z.testbit pte 1 || Z.testbit fl 1). set (b2 := Z.testbit pte 63 && Z.testbit fl 63).
  assert (E : forall x y, Z.testbit (if b2 then Z.lor x (2 ^ 63) else x) y = Z.testbit x y || (b2 && Z.testbit (2 ^ 63) y)).
  { intros. destruct b2; cbn [andb]; [by rewrite Z.lor_spec|by rewrite orb_false_r]. }
  assert (E1 : forall x y, Z.testbit (if b1 then Z.lor x (2 ^ 1) else x) y = Z.testbit x y || (b1 && Z.testbit (2 ^ 1) y)).
  { intros. destruct b1; cbn [andb]; [by rewrite Z.lor_spec|by rewrite orb_false_r]. }
  rewrite !Z.lor_spec, E, E1, !Z.land_spec, Z.lnot_spec, Z.lor_spec, !testbit_pow2 by lia. rewrite Z.testbit_ones by lia.
  rewrite (proj2 (Z.leb_le 0 k)), (proj2 (Z.ltb_lt k 64)), testbit_phys_mask by lia.
  rewrite (Z.eqb_sym 1 k), (Z.eqb_sym 63 k), (Z.eqb_sym 0 k), (Z.eqb_sym 2 k).
  destruct (Z.eqb_spec k 1) as [->|]; [by destruct (Z.testbit pte 1), b1, b2|].
  destruct (Z.eqb_spec k 63) as [->|]; [by destruct (Z.testbit pte 63), b1, b2|]. cbn [orb negb].
  destruct (Z.testbit pte k), b1, b2, (12 <=? k), (k <? 52), (k =? 0), (k =? 2); reflexivity.
Qed.

Lemma merge_bound pte fl : 0 <= pte < 2 ^ 64 ->
  0 <= Z.lor (Z.lor (merge_flags pte fl) VMM_PRESENT) VMM_USER < 2 ^ 64.
Proof.
  intros Hp. unfold merge_flags, VMM_PRESENT, VMM_USER, VMM_WRITE, VMM_NX.
  pose proof (land_bound pte (2 ^ 64 - 1 - Z.lor (2 ^ 1) (2 ^ 63)) 64 ltac:(lia) Hp).
  repeat apply lor_bound; try lia; repeat case_match; repeat apply lor_bound; lia.
Qed.

Lemma merged_facts pte fl : 0 <= pte < 2 ^ 64 -> has (merged_pte pte fl) VMM_PRESENT = true /\
  Z.land (merged_pte pte fl) PHYS_MASK = Z.land pte PHYS_MASK /\
  (has (merge_flags pte fl) VMM_WRITE && negb (has (merge_flags pte fl) VMM_NX) = false -> wx_flags (merged_pte pte fl)).
Proof.
  intros Hp. unfold wx_flags. change VMM_PRESENT with (2 ^ 0). change VMM_WRITE with (2 ^ 1). change VMM_NX with (2 ^ 63).
  rewrite !has_bit by lia. split_and!.
  - rewrite merged_bits by lia. cbn. by rewrite orb_true_r.
  - apply Z.bits_inj'. intros k Hk. rewrite !Z.land_spec, testbit_phys_mask by done.
    destruct (Z.leb_spec 12 k); [|by rewrite !andb_false_r]. destruct (Z.ltb_spec k 52); [|by rewrite !andb_false_r].
    rewrite merged_bits, !(proj2 (Z.eqb_neq k _)) by lia. by rewrite !orb_false_r.
  - rewrite !merged_bits by lia. cbn [Z.eqb Pos.eqb]. intros Hm Hw. revert Hm. unfold merge_flags.
    change VMM_WRITE with (2 ^ 1). change VMM_NX with (2 ^ 63). rewrite !has_bit, Hw by lia.
    destruct (Z.testbit pte 63 && Z.testbit fl 63); [done|]. rewrite !Z.lor_spec, !Z.land_spec, !testbit_pow2 by lia.
    change (Z.testbit (2 ^ 64 - 1 - Z.lor (2 ^ 1) (2 ^ 63)) 63) with false. cbn [Z.eqb Pos.eqb]. by rewrite orb_true_r, andb_false_r.
Qed.

Lemma get_pte_bound m root va : 0 <= vmm_get_pte m root va < 2 ^ 64.
Proof. unfold vmm_get_pte, entry. repeat case_match; try lia; apply rd64_range. Qed.

(** ** The effect of mapping pages *)
Section Load.
Context (F : gset Z) (nx : bool).

(** Pages are only added; what is present keeps its contents and what is new is zero. *)
Record loaded (s : mstate) (p : process_t) (s' : mstate) (p' : process_t) : Prop := {
  ld_inv : exists G, um_inv F s' p' G;
  ld_proc : p' = set_umap p (umap p');
  ld_mono : forall va, user_half va -> page_present s p va = true -> page_present s' p' va = true;
  ld_bytes : forall va, user_half va -> page_present s' p' va = true ->
    user_byte (ms_mem s') p' va = if page_present s p va then user_byte (ms_mem s) p va else 0;
  ld_wx : nx = true -> wx_ok s p -> wx_ok s' p'
}.

Lemma loaded_refl s p G : um_inv F s p G -> loaded s p s p.
Proof. intros Hum. split; try done; [by exists G|by destruct p|]. by intros va _ ->. Qed.

Lemma loaded_trans s p s1 p1 s2 p2 : loaded s p s1 p1 -> loaded s1 p1 s2 p2 -> loaded s p s2 p2.
Proof.
  intros [I1 E1 M1 B1 W1] [I2 E2 M2 B2 W2]. split; [done| |auto| |auto].
  - rewrite E2, E1. by destruct p, p1.
  - intros va Hv Hp. rewrite B2 by done. destruct (page_present s1 p1 va) eqn:Ep; [by apply B1|].
    destruct (page_present s p va) eqn:E0; [|done]. apply M1 in E0; [congruence|done].
Qed.

Lemma page_eq_mod va va' : page_of va = page_of va' -> va - va mod PAGE_SIZE = va' - va' mod PAGE_SIZE.
Proof. unfold page_of, PAGE_SIZE. intros H. Z.div_mod_to_equations. lia. Qed.

(** Bytes of a page whose entry and frame did not change. *)
Lemma byte_same s p G s' p' G' va : um_inv F s p G -> um_inv F s' p' G' -> cr3 p' = cr3 p -> keeps_umap s p s' ->
  user_half va -> page_present s p va = true -> page_present s' p' va = true ->
  Z.land (vmm_get_pte (ms_mem s') (cr3 p) va) PHYS_MASK = Z.land (vmm_get_pte (ms_mem s) (cr3 p) va) PHYS_MASK ->
  user_byte (ms_mem s') p' va = user_byte (ms_mem s) p va.
Proof.
  intros Hum Hum' Hc Hk Hv Hp Hp' He. unfold user_byte. rewrite (user_phys F s p G), (user_phys F s' p' G') by done.
  unfold backing. rewrite Hc, He. destruct (um_present _ _ _ _ Hum va Hv Hp) as (v & Hin & _).
  apply (Hk _ _ _ Hin). pose proof (Z.mod_pos_bound va PAGE_SIZE ltac:(unfold PAGE_SIZE; lia)). lia.
Qed.

Lemma fresh_page s p G va flags st s' p' : um_inv F s p G -> 0 <= va -> page_flags_ok flags ->
  (nx = true -> wx_flags flags) -> (user_half va -> page_present s p va = false) ->
  process_alloc_user_page s p va flags = (st, s', p') ->
  loaded s p s' p' /\ ((st = VOID_OK /\ user_half va /\ page_present s' p' va = true) \/ st = VOID_ERR_NOMEM).
Proof.
  intros Hum Hv Hfl Hwx Habs E. apply (alloc_user_spec F s p G) in E as ([G' Hum'] & Hk & Hc); try done.
  destruct Hc as [(-> & Hvh & Hoth & f & -> & Hpte & Hf & _ & Hz)|(-> & -> & Hsm)].
  - destruct (user_pte_facts f flags Hf Hfl) as [Hpr Hmask]. specialize (Habs Hvh).
    assert (Hpg : forall va', page_of va' = page_of va ->
      vmm_get_pte (ms_mem s') (cr3 p) va' = user_pte f flags).
    { intros va' He. by rewrite (get_pte_page _ _ _ va He). }
    split; [split|left; split_and!; [done|done|unfold page_present; cbn [cr3 set_umap]; by rewrite Hpte]].
    + by exists G'.
    + by destruct p.
    + intros va' Hv' Hp'. unfold page_present in *. cbn [cr3 set_umap]. destruct (decide (page_of va' = page_of va)) as [He|Hne].
      * by rewrite (Hpg va' He).
      * by rewrite Hoth.
    + intros va' Hv' Hp'. destruct (decide (page_of va' = page_of va)) as [He|Hne].
      * rewrite (page_present_page _ _ _ va He), Habs. unfold user_byte. rewrite (user_phys F s' _ G') by done.
        unfold backing. cbn [cr3 set_umap]. rewrite (Hpg va' He), Hmask. apply Hz.
        pose proof (Z.mod_pos_bound va' PAGE_SIZE ltac:(unfold PAGE_SIZE; lia)). lia.
      * assert (Hp0 : page_present s p va' = true) by (unfold page_present in *; cbn [cr3 set_umap] in Hp'; by rewrite Hoth in Hp').
        rewrite Hp0. apply (byte_same s p G s' _ G'); try done. by rewrite Hoth.
    + intros Hnx Hw va' Hv' Hp'. unfold page_present in Hp'. cbn [cr3 set_umap] in *.
      destruct (decide (page_of va' = page_of va)) as [He|Hne].
      * rewrite (Hpg va' He). apply user_pte_wx; auto.
      * rewrite Hoth in Hp' |- * by done. by apply Hw.
  - split; [|by right]. split.
    + by exists G'.
    + by destruct p.
    + intros va' Hv' Hp'. unfold page_present in *. by rewrite Hsm.
    + intros va' Hv' Hp'. assert (Hp0 : page_present s p va' = true) by (unfold page_present in *; by rewrite Hsm in Hp').
      rewrite Hp0. apply (byte_same s p G s' p G'); try done. by rewrite Hsm.
    + intros Hnx Hw va' Hv' Hp'. unfold page_present in Hp'. rewrite Hsm in Hp' |- * by done. by apply Hw.
Qed.

(** Mapping a page that is present again, with merged permissions. *)
Lemma remap_page s p G va flags st s' : um_inv F s p G -> user_half va -> page_present s p va = true ->
  let pte := vmm_get_pte (ms_mem s) (cr3 p) va in
  (nx = true -> has (merge_flags pte flags) VMM_WRITE && negb (has (merge_flags pte flags) VMM_NX) = false) ->
  vmm_map_page s (cr3 p) va (Z.land pte PHYS_MASK) (Z.lor (Z.lor (merge_flags pte flags) VMM_PRESENT) VMM_USER) = (st, s') ->
  loaded s p s' p /\ (st = VOID_OK \/ st = VOID_ERR_NOMEM).
Proof.
  intros Hum Hv Hp pte Hwx E. pose proof (get_pte_bound (ms_mem s) (cr3 p) va : 0 <= pte < 2 ^ 64) as Hb.
  apply (map_page_cases s (cr3 p) G) in E as (G' & Hok & Hpt & He & Hcase); try done;
    [|apply Hum|apply Hum|by apply (land_bound pte PHYS_MASK 64)|by apply merge_bound].
  fold (merged_pte pte flags) in Hcase. destruct (merged_facts pte flags Hb) as (Hpr & Hmask & Hmw).
  assert (Hst : st = VOID_OK \/ st = VOID_ERR_NOMEM) by (destruct Hcase as [[-> _]|[-> _]]; auto).
  assert (Hall : forall va', user_half va' ->
    has (vmm_get_pte (ms_mem s') (cr3 p) va') VMM_PRESENT = has (vmm_get_pte (ms_mem s) (cr3 p) va') VMM_PRESENT /\
    Z.land (vmm_get_pte (ms_mem s') (cr3 p) va') PHYS_MASK = Z.land (vmm_get_pte (ms_mem s) (cr3 p) va') PHYS_MASK /\
    (nx = true -> wx_flags (vmm_get_pte (ms_mem s) (cr3 p) va') -> wx_flags (vmm_get_pte (ms_mem s') (cr3 p) va'))).
  { intros va' Hv'. destruct Hcase as [(_ & Hpte & Hoth)|(_ & _ & Hsm)]; [|by rewrite Hsm].
    destruct (decide (page_of va' = page_of va)) as [Hpg|Hne]; [|by rewrite Hoth].
    rewrite !(get_pte_page _ _ va' va Hpg), Hpte, Hpr, Hmask. unfold page_present in Hp. fold pte in Hp |- *.
    rewrite Hp. split_and!; [done|done|]. intros Hnx _. auto. }
  assert (Hum' : um_inv F s' p G').
  { split; try done; try apply Hum.
    - by apply (ext_tables_bound _ _ _ _ _ He), Hum.
    - intros v g Hin. destruct (um_frames _ _ _ _ Hum _ _ Hin). split; [done|]. by eapply ext_user_frame.
    - intros va' Hv' Hp'. destruct (Hall va' Hv') as (E1 & -> & _). unfold page_present in Hp'. rewrite E1 in Hp'.
      by apply (um_present _ _ _ _ Hum).
    - rewrite (ext_account _ _ _ _ _ (umap p) He). apply Hum. }
  split; [|done]. pose proof (ext_keeps_data _ _ _ _ _ He Hpt) as Hd. pose proof (keeps_data_umap _ _ _ _ _ Hum Hd) as Hk. split.
  - by exists G'.
  - by destruct p.
  - intros va' Hv'. unfold page_present. by destruct (Hall va' Hv') as (-> & _).
  - intros va' Hv' Hp'. destruct (Hall va' Hv') as (E1 & E2 & _).
    assert (Hp0 : page_present s p va' = true) by (unfold page_present in *; by rewrite E1 in Hp').
    rewrite Hp0. by apply (byte_same s p G s' p G').
  - intros Hnx Hw va' Hv' Hp'. destruct (Hall va' Hv') as (E1 & _ & Hx). unfold page_present in Hp'. rewrite E1 in Hp'.
    apply Hx; [done|]. by apply Hw.
Qed.
(** A process owns at most 256 pages, so no longer run of pages is present. *)
Lemma present_bound s p G first n : um_inv F s p G -> aligned first -> 0 <= n ->
  (forall k, 0 <= k < n -> user_half (first + k * PAGE_SIZE) /\ page_present s p (first + k * PAGE_SIZE) = true) -> n <= 256.
Proof.
  intros Hum Ha Hn Hp. set (l := (fun k => page_of first + k) <$> range 0 n).
  assert (Hl : Z.of_nat (length l) = n).
  { unfold l, range. rewrite length_fmap, length_seqZ. lia. }
  assert (Hsub : l ⊆+ ((fun e => page_of e.1) <$> umap p)).
  { apply NoDup_submseteq.
    - apply NoDup_fmap_2; [intros x y ?; lia|apply NoDup_range].
    - intros x (k & -> & Hk%elem_of_range)%list_elem_of_fmap. destruct (Hp k Hk) as [Hv Hpr].
      destruct (um_present _ _ _ _ Hum _ Hv Hpr) as (v & Hin & He). apply list_elem_of_fmap.
      eexists. split; [|exact Hin]. cbn [fst]. rewrite He. unfold page_of, aligned, PAGE_SIZE in *.
      rewrite Z.div_add by lia. done. }
  apply submseteq_length in Hsub. rewrite length_fmap in Hsub. pose proof (um_len _ _ _ _ Hum). unfold UMAP_MAX in *. lia.
Qed.

Definition load_status (r : Z) : Prop := r = ELF_OK \/ r = ELF_ERR_NOMEM \/ r = ELF_ERR_NOEXEC.

Lemma map_pages_spec flags first last fuel : aligned first -> 0 <= first -> last < USER_LIMIT -> page_flags_ok flags ->
  (nx = true -> wx_flags flags) -> forall s p G n, um_inv F s p G -> 0 <= n -> 256 < n + Z.of_nat fuel ->
  (forall k, 0 <= k < n -> user_half (first + k * PAGE_SIZE) /\ page_present s p (first + k * PAGE_SIZE) = true) ->
  match map_pages fuel nx s p flags (first + n * PAGE_SIZE) last with
  | None => False
  | Some (r, s', p') => loaded s p s' p' /\ load_status r /\
      (r = ELF_OK -> forall k, 0 <= k -> first + k * PAGE_SIZE <= last -> page_present s' p' (first + k * PAGE_SIZE) = true)
  end.
Proof.
  intros Ha H0 Hl Hfl Hwx. unfold load_status. induction fuel as [|fuel IH]; intros s p G n Hum Hn Hfu Hp; cbn [map_pages].
  { pose proof (present_bound s p G first n Hum Ha Hn Hp). lia. }
  destruct (Z.leb_spec (first + n * PAGE_SIZE) last) as [Hle|Hgt].
  2: { split; [by eapply loaded_refl|]. split; [auto|]. intros _ k Hk Hkl. apply Hp. unfold PAGE_SIZE in *. lia. }
  set (va := first + n * PAGE_SIZE) in *.
  assert (Hv : user_half va) by (unfold user_half, USER_LIMIT, va, PAGE_SIZE in *; lia).
  assert (Hnext : u64 (va + PAGE_SIZE) = first + (n + 1) * PAGE_SIZE).
  { rewrite u64_id; unfold va, user_half, PAGE_SIZE in *; lia. }
  assert (Hstep : forall s1 p1, loaded s p s1 p1 -> page_present s1 p1 va = true ->
    match map_pages fuel nx s1 p1 flags (u64 (va + PAGE_SIZE)) last with
    | None => False
    | Some (r, s', p') => loaded s p s' p' /\ (r = ELF_OK \/ r = ELF_ERR_NOMEM \/ r = ELF_ERR_NOEXEC) /\
        (r = ELF_OK -> forall k, 0 <= k -> first + k * PAGE_SIZE <= last -> page_present s' p' (first + k * PAGE_SIZE) = true)
    end).
  { intros s1 p1 Hld Hpv. destruct (ld_inv _ _ _ _ Hld) as [G1 Hum1]. rewrite Hnext.
    specialize (IH s1 p1 G1 (n + 1) Hum1 ltac:(lia) ltac:(lia)).
    destruct (map_pages fuel nx s1 p1 flags _ last) as [[[r s'] p']|].
    - destruct IH as (Hld' & Hr & Hok).
      + intros k Hk. destruct (decide (k = n)) as [->|]; [done|]. destruct (Hp k ltac:(lia)) as [? ?].
        split; [done|]. by apply (ld_mono _ _ _ _ Hld).
      + split_and!; [by eapply loaded_trans|done|done].
    - apply IH. intros k Hk. destruct (decide (k = n)) as [->|]; [done|]. destruct (Hp k ltac:(lia)) as [? ?].
      split; [done|]. by apply (ld_mono _ _ _ _ Hld). }
  destruct (has (vmm_get_pte (ms_mem s) (cr3 p) va) VMM_PRESENT) eqn:Epr; cbn [negb].
  - assert (Hprs : page_present s p va = true) by done.
    destruct (nx && has (merge_flags _ flags) VMM_WRITE && negb _) eqn:Ewx.
    { split_and!; [by eapply loaded_refl|auto|done]. }
    destruct (vmm_map_page s (cr3 p) va _ _) as [st s1] eqn:Em.
    eapply (remap_page s p G va flags st s1) in Em as [Hld Hst]; [|done..|].
    2: { intros ->. cbn [andb] in Ewx. done. }
    destruct Hst as [-> | ->]; cbn [Z.eqb VOID_OK VOID_ERR_NOMEM negb].
    + apply Hstep; [done|]. by apply (ld_mono _ _ _ _ Hld).
    + split_and!; [done|auto|done].
  - destruct (process_alloc_user_page s p va flags) as [[st s1] p1] eqn:Em.
    apply (fresh_page s p G) in Em as [Hld Hst]; [|done|unfold user_half in Hv; lia|done..].
    destruct Hst as [(-> & _ & Hpv)| ->]; cbn [Z.eqb VOID_OK VOID_ERR_NOMEM negb]; [by apply Hstep|].
    split_and!; [done|auto|done].
Qed.
(** ** One segment, and all of them *)

(** The segments whose end does not pass the top of the address space. *)
Definition seg_good (size base : Z) (ph : Elf64_Phdr) : Prop :=
  is_load ph = true /\ u64_phdr ph /\ segment_ok size base ph /\ vstop base ph < 2 ^ 64.

Definition seg_bytes (base : Z) (ph : Elf64_Phdr) (P : Z -> Prop) : Prop :=
  forall i, 0 <= i < p_memsz ph -> user_half (vstart base ph + i) /\ P (vstart base ph + i).

Lemma seg_good_facts size base ph : 0 <= base <= ELF_DYN_BASE -> seg_good size base ph ->
  u64 (p_vaddr ph + base) = vstart base ph /\ 1 <= p_memsz ph /\ USER_MIN_VADDR <= vstart base ph /\
  vstart base ph + p_memsz ph = vstop base ph /\ vstop base ph <= USER_LIMIT.
Proof.
  intros Hb (Hl & Hu & [_ Hs Hn Hst _ _] & Hw). apply andb_true_iff in Hl as [_ Hm%negb_true_iff%Z.eqb_neq].
  destruct (Hst Hw). unfold vstart, vstop, USER_LIMIT, USER_MAX_VADDR, u64_phdr in *. rewrite u64_id by lia.
  split_and!; try lia. 
Qed.

Lemma page_floor x : 0 <= x < 2 ^ 64 -> Z.land x PAGE_MASK = page_of x * PAGE_SIZE.
Proof. intros Hx. rewrite land_page_mask by done. unfold page_of, PAGE_SIZE. Z.div_mod_to_equations. lia. Qed.

Lemma page_aligned k : aligned (k * PAGE_SIZE).
Proof. unfold aligned. apply Z_mod_mult. Qed.

Lemma page_of_mul k : page_of (k * PAGE_SIZE) = k.
Proof. unfold page_of, PAGE_SIZE. by rewrite Z.div_mul. Qed.

Lemma page_of_mono a b : a <= b -> page_of a <= page_of b.
Proof. intros H. unfold page_of, PAGE_SIZE. apply Z.div_le_mono; lia. Qed.

Lemma map_segment_spec size base ph s p G : 0 <= base <= ELF_DYN_BASE -> seg_good size base ph -> um_inv F s p G ->
  match map_segment_pages nx s p ph base with
  | None => False
  | Some (r, s', p') => loaded s p s' p' /\ load_status r /\
      (r = ELF_OK -> seg_bytes base ph (fun va => page_present s' p' va = true))
  end.
Proof.
  intros Hb Hg Hum. destruct (seg_good_facts _ _ _ Hb Hg) as (E & Hm & Hlo & Hend & Hlim).
  destruct Hg as (_ & _ & [_ _ _ _ [_ Hwx] _] & _). destruct (seg_flags_ok nx (p_flags ph)) as [Hfl Hw].
  unfold map_segment_pages. rewrite E, Hend. unfold USER_LIMIT, USER_MIN_VADDR in *.
  rewrite (u64_id (vstop base ph - 1)), !page_floor by lia.
  set (a := page_of (vstart base ph)). set (b := page_of (vstop base ph - 1)).
  pose proof (map_pages_spec (seg_page_flags nx (p_flags ph)) (a * PAGE_SIZE) (b * PAGE_SIZE) page_fuel (page_aligned a)) as Hsp.
  assert (Ha0 : 0 <= a) by (unfold a, page_of, PAGE_SIZE; apply Z.div_pos; lia).
  assert (Hb0 : b * PAGE_SIZE <= vstop base ph - 1) by (unfold b, page_of, PAGE_SIZE; Z.div_mod_to_equations; lia).
  specialize (Hsp ltac:(unfold PAGE_SIZE; lia) ltac:(unfold USER_LIMIT; lia) Hfl ltac:(auto) s p G 0 Hum ltac:(lia)
    ltac:(unfold page_fuel; lia) ltac:(lia)). rewrite Z.mul_0_l, Z.add_0_r in Hsp.
  destruct (map_pages _ _ _ _ _ _ _) as [[[r s'] p']|]; [|done]. destruct Hsp as (Hld & Hr & Hok). split_and!; [done|done|].
  intros Hr0 i Hi. split; [unfold user_half; lia|]. set (va := vstart base ph + i).
  assert (Hpg : a <= page_of va <= b) by (split; apply page_of_mono; unfold va; lia).
  rewrite (page_present_page _ _ va (page_of va * PAGE_SIZE)) by by rewrite page_of_mul.
  specialize (Hok Hr0 (page_of va - a) ltac:(lia) ltac:(unfold PAGE_SIZE; lia)).
  by replace (a * PAGE_SIZE + (page_of va - a) * PAGE_SIZE) with (page_of va * PAGE_SIZE) in Hok by lia.
Qed.

Lemma map_segments_spec size base l : 0 <= base <= ELF_DYN_BASE -> Forall (seg_good size base) (loads l) ->
  forall s p G, um_inv F s p G ->
  match map_segments nx s p base l with
  | None => False
  | Some (r, s', p') => loaded s p s' p' /\ load_status r /\
      (r = ELF_OK -> Forall (fun ph => seg_bytes base ph (fun va => page_present s' p' va = true)) (loads l))
  end.
Proof.
  intros Hb. induction l as [|ph l IH]; intros Hg s p G Hum; cbn [map_segments].
  { split_and!; [by eapply loaded_refl|by left|]. intros _. constructor. }
  rewrite loads_cons in *. destruct (is_load ph) eqn:El; cbn [negb]; [|by apply (IH Hg s p G)].
  apply Forall_cons in Hg as [Hph Hg]. pose proof (map_segment_spec size base ph s p G Hb Hph Hum) as Hs.
  destruct (map_segment_pages nx s p ph base) as [[[r s1] p1]|]; [|done]. destruct Hs as (Hld & Hr & Hok).
  destruct (Z.eqb_spec r ELF_OK) as [->|Hne]; cbn [negb]; [|by split_and!].
  destruct (ld_inv _ _ _ _ Hld) as [G1 Hum1]. specialize (IH Hg s1 p1 G1 Hum1).
  destruct (map_segments nx s1 p1 base l) as [[[r s2] p2]|]; [|done]. destruct IH as (Hld2 & Hr2 & Hok2).
  split_and!; [by eapply loaded_trans|done|]. intros H0. constructor; [|by apply Hok2].
  intros i Hi. destruct (Hok eq_refl i Hi) as [Hv Hp]. split; [done|]. by apply (ld_mono _ _ _ _ Hld2).
Qed.
End Load.

(** ** Copying *)
Section Copy.
Context (F : gset Z) (p : process_t) (G : table_map).

(** A store of [src] at [base] as the process sees it: the address space is the same
  and the other bytes of its pages keep their values. *)
Record stored (s : mstate) (base : Z) (src : list Z) (s' : mstate) : Prop := {
  st_inv : um_inv F s' p G;
  st_map : same_map (cr3 p) s s';
  st_bytes : forall va, user_half va -> page_present s p va = true ->
    user_byte (ms_mem s') p va =
    if (base <=? va) && (va <? base + Z.of_nat (length src)) then nth (Z.to_nat (va - base)) src 0 else user_byte (ms_mem s) p va
}.

Lemma copied_stored s base src s' : um_inv F s p G -> mapped_range s p base (Z.of_nat (length src)) ->
  copied F p G s base src 0 s' -> stored s base src s'.
Proof.
  intros Hum Hr [M I S B R]. split; [done|done|]. intros va Hv Hp.
  destruct ((base <=? va) && (va <? base + Z.of_nat (length src))) eqn:E.
  - apply andb_true_iff in E as [? ?]. replace va with (base + (va - base)) at 1 by lia. apply B. lia.
  - unfold user_byte. rewrite (same_map_phys F p G s s') by done. apply R. intros i Hi He.
    destruct (mapped_range_va _ _ _ _ (base + i) Hr ltac:(lia)).
    apply (user_phys_inj F s p G) in He; try done. apply andb_false_iff in E as [?%Z.leb_gt|?%Z.ltb_ge]; lia.
Qed.

Lemma same_map_mapped s s' base len : same_map (cr3 p) s s' -> mapped_range s p base len -> mapped_range s' p base len.
Proof.
  intros Hs Hr. pose proof Hr as [? ? ? _]. split; try done. intros va Hva. unfold page_present.
  destruct (mapped_range_va _ _ _ _ va Hr Hva). by rewrite Hs.
Qed.

Lemma chunk_size_eq va0 len lo : 0 <= va0 + lo < 2 ^ 64 ->
  chunk_size va0 len lo = (let chunk := PAGE_SIZE - Z.land (va0 + lo) (PAGE_SIZE - 1) in if len - lo <? chunk then len - lo else chunk).
Proof.
  intros Hr. unfold chunk_size. rewrite u64_id by done. destruct (page_start (va0 + lo) Hr) as (_ & _ & _ & ->).
  by rewrite land_page_low.
Qed.

Lemma piece_eq (img : list Z) off n lo c : 0 <= off -> 0 <= lo -> 0 <= c -> lo + c <= n ->
  take (Z.to_nat c) (drop (Z.to_nat lo) (take (Z.to_nat n) (drop (Z.to_nat off) img))) =
  take (Z.to_nat c) (drop (Z.to_nat (off + lo)) img).
Proof.
  intros. rewrite skipn_firstn_comm, take_take, drop_drop. f_equal; [lia|]. f_equal. lia.
Qed.

Lemma copy_pages_spec img va0 off n fuel : Forall (fun b => 0 <= b < 256) img -> 0 <= off -> 0 < n ->
  off + n <= Z.of_nat (length img) ->
  let src := take (Z.to_nat n) (drop (Z.to_nat off) img) in
  forall s lo, um_inv F s p G -> mapped_range s p va0 n -> 0 <= lo <= n -> pages_left va0 n lo < Z.of_nat fuel ->
  exists s', copy_pages fuel s p img va0 off n lo = Some (ELF_OK, s') /\ copied F p G s va0 src lo s'.
Proof.
  intros Hby Hoff Hn Hin src. assert (Hlen : Z.of_nat (length src) = n).
  { unfold src. rewrite length_take, length_drop. lia. }
  assert (Hbs : Forall (fun b => 0 <= b < 256) src) by by apply Forall_take, Forall_drop.
  induction fuel as [|fuel IH]; intros s lo Hum Hmr Hlo Hf; pose proof Hmr as [Hb _ Hlim _].
  { unfold pages_left in Hf. destruct (Z.ltb_spec lo n); [|lia].
    pose proof (page_of_mono (va0 + lo) (va0 + n - 1) ltac:(lia)). lia. }
  cbn [copy_pages]. destruct (Z.ltb_spec lo n) as [Hlt|].
  2: { exists s. split; [done|]. replace lo with (Z.of_nat (length src)) by lia. by apply copied_none. }
  unfold USER_LIMIT in *. rewrite u64_id by lia. pose proof (chunk_size_eq va0 n lo ltac:(lia)) as Hcs. cbn zeta in Hcs |- *.
  rewrite <- Hcs. destruct (chunk_facts va0 n lo Hb ltac:(lia) ltac:(unfold USER_LIMIT; lia)) as (Hc & _ & Hpl & _).
  destruct (mapped_range_va _ _ _ _ (va0 + lo) Hmr ltac:(lia)) as [Hv Hp].
  rewrite (proj2 (Z.eqb_neq _ _)) by by apply (phys_nonzero F p G).
  rewrite <- Hlen in Hmr. destruct (copy_to_step F p G s va0 src lo Hum Hmr Hbs ltac:(lia)) as (Hum1 & Hs1 & Hstep).
  rewrite Hlen in *. set (c := chunk_size va0 n lo) in *. 
  assert (Hpe : take (Z.to_nat c) (drop (Z.to_nat lo) src) = take (Z.to_nat c) (drop (Z.to_nat (off + lo)) img))
    by (apply piece_eq; lia).
  rewrite Hpe in Hum1, Hs1, Hstep. set (s1 := with_mem s _) in *.
  destruct (IH s1 (lo + c) Hum1) as (s' & E & Hcp); [by eapply same_map_mapped|lia|lia|].
  exists s'. split; [exact E|]. by apply Hstep.
Qed.

(** The file part of a segment. *)
Definition seg_src (img : list Z) (ph : Elf64_Phdr) : list Z :=
  take (Z.to_nat (p_filesz ph)) (drop (Z.to_nat (p_offset ph)) img).

Lemma mapped_pages s base n : um_inv F s p G -> mapped_range s p base n -> pages_left base n 0 < 257.
Proof.
  intros Hum Hr. pose proof Hr as [Hb Hn Hlim _]. unfold pages_left, USER_LIMIT in *. rewrite (proj2 (Z.ltb_lt 0 n)), Z.add_0_r by lia.
  set (a := page_of base). set (b := page_of (base + n - 1)).
  assert (Ha0 : 0 <= a) by (unfold a, page_of, PAGE_SIZE; apply Z.div_pos; lia).
  assert (Hab : a <= b) by (apply page_of_mono; lia).
  enough (b - a + 1 <= 256) by lia. apply (present_bound F s p G (a * PAGE_SIZE)); [done|apply page_aligned|lia|].
  intros k Hk. replace (a * PAGE_SIZE + k * PAGE_SIZE) with ((a + k) * PAGE_SIZE) by lia.
  assert (Hx : exists x, base <= x < base + n /\ page_of x = a + k).
  { exists (Z.max base ((a + k) * PAGE_SIZE)). destruct (Z.max_spec base ((a + k) * PAGE_SIZE)) as [[? ->]|[? ->]].
    - rewrite page_of_mul. split; [|done]. assert (b * PAGE_SIZE <= base + n - 1); [|unfold PAGE_SIZE in *; lia].
      unfold b, page_of, PAGE_SIZE. Z.div_mod_to_equations. lia.
    - split; [lia|]. pose proof (page_of_mono _ _ H) as Hm. rewrite page_of_mul in Hm. fold a in Hm |- *. lia. }
  destruct Hx as (x & Hx & Hpx). destruct (mapped_range_va _ _ _ _ x Hr Hx) as [Hv Hp]. split.
  - unfold user_half, page_of, PAGE_SIZE in *. Z.div_mod_to_equations. lia.
  - rewrite (page_present_page _ _ _ x); [done|]. by rewrite page_of_mul.
Qed.

Lemma stored_nil s base : um_inv F s p G -> stored s base [] s.
Proof.
  intros Hum. split; [done|done|]. intros va _ _. cbn [length]. rewrite Z.add_0_r.
  destruct (Z.leb_spec base va), (Z.ltb_spec va base); try done. lia.
Qed.

Lemma copy_segment_spec img base ph s : Forall (fun b => 0 <= b < 256) img -> 0 <= base <= ELF_DYN_BASE ->
  seg_good (Z.of_nat (length img)) base ph -> um_inv F s p G -> seg_bytes base ph (fun va => page_present s p va = true) ->
  exists s', copy_segment_data s p img ph base = Some (ELF_OK, s') /\ stored s (vstart base ph) (seg_src img ph) s'.
Proof.
  intros Hby Hb Hg Hum Hseg. destruct (seg_good_facts _ _ _ Hb Hg) as (E & Hm & Hlo & Hend & Hlim).
  destruct Hg as (_ & (? & _ & ? & _) & [[Hf1 Hf2] _ _ _ _ _] & _). unfold copy_segment_data. rewrite E. unfold seg_src.
  destruct (decide (p_filesz ph = 0)) as [Hz|Hne].
  { rewrite Hz. exists s. split; [done|]. by apply stored_nil. }
  assert (Hmr : mapped_range s p (vstart base ph) (p_filesz ph)).
  { unfold USER_MIN_VADDR in *. split; [lia|lia|lia|]. intros va Hva. destruct (Hseg (va - vstart base ph) ltac:(lia)) as [_ Hp].
    by replace (vstart base ph + (va - vstart base ph)) with va in Hp by lia. }
  destruct (copy_pages_spec img (vstart base ph) (p_offset ph) (p_filesz ph) page_fuel Hby ltac:(lia) ltac:(lia) Hf2
    s 0 Hum Hmr ltac:(lia)) as (s' & Ec & Hcp).
  { pose proof (mapped_pages s _ _ Hum Hmr). unfold page_fuel. lia. }
  exists s'. split; [done|]. apply copied_stored; [done| |done].
  assert (Hlen : Z.of_nat (length (take (Z.to_nat (p_filesz ph)) (drop (Z.to_nat (p_offset ph)) img))) = p_filesz ph)
    by (rewrite length_take, length_drop; lia). by rewrite Hlen.
Qed.
End Copy.

(** ** What a step keeps *)
Section Kept.
Context (F : gset Z) (nx : bool).

(** Outside [R] the process still sees what it saw. *)
Record kept (R : Z -> Prop) (s : mstate) (p : process_t) (s' : mstate) (p' : process_t) : Prop := {
  kp_inv : exists G, um_inv F s' p' G;
  kp_proc : p' = set_umap p (umap p');
  kp_mono : forall va, user_half va -> page_present s p va = true -> page_present s' p' va = true;
  kp_bytes : forall va, user_half va -> ~ R va -> page_present s p va = true ->
    user_byte (ms_mem s') p' va = user_byte (ms_mem s) p va;
  kp_wx : nx = true -> wx_ok s p -> wx_ok s' p'
}.

Lemma kept_refl R s p G : um_inv F s p G -> kept R s p s p.
Proof. intros Hum. split; try done; [by exists G|by destruct p]. Qed.

Lemma kept_trans R s p s1 p1 s2 p2 : kept R s p s1 p1 -> kept R s1 p1 s2 p2 -> kept R s p s2 p2.
Proof.
  intros [I1 E1 M1 B1 W1] [I2 E2 M2 B2 W2]. split; [done| |auto| |auto].
  - rewrite E2, E1. by destruct p, p1.
  - intros va Hv HR Hp. rewrite B2 by auto. by apply B1.
Qed.

Lemma kept_weaken (R R' : Z -> Prop) s p s' p' : (forall va, R va -> R' va) -> kept R s p s' p' -> kept R' s p s' p'.
Proof. intros HR [I E M B W]. split; [done..| |done]. intros va Hv Hn. apply B; auto. Qed.

Lemma loaded_kept R s p s' p' : loaded F nx s p s' p' -> kept R s p s' p'.
Proof. intros [I E M B W]. split; [done..| |done]. intros va Hv _ Hp. rewrite B, Hp by auto. done. Qed.

Lemma same_map_kept R s p s' G : um_inv F s' p G -> same_map (cr3 p) s s' ->
  (forall va, user_half va -> ~ R va -> page_present s p va = true -> user_byte (ms_mem s') p va = user_byte (ms_mem s) p va) ->
  kept R s p s' p.
Proof.
  intros Hum Hs Hb. split; [by exists G|by destruct p| |done|].
  - intros va Hv. unfold page_present. by rewrite Hs.
  - intros _ Hw va Hv. unfold page_present. rewrite Hs by done. by apply Hw.
Qed.

Lemma alloc_kept R s p G va flags st s' p' : um_inv F s p G -> 0 <= va -> page_flags_ok flags ->
  (nx = true -> wx_flags flags) -> (forall va', page_of va' = page_of va -> R va') ->
  process_alloc_user_page s p va flags = (st, s', p') ->
  kept R s p s' p' /\ ((st = VOID_OK /\ page_present s' p' va = true) \/ st = VOID_ERR_NOMEM).
Proof.
  intros Hum Hv Hfl Hwx HR E. apply (alloc_user_spec F s p G) in E as ([G' Hum'] & Hk & Hc); try done.
  destruct Hc as [(-> & Hvh & Hoth & f & -> & Hpte & Hf & _ & _)|(-> & -> & Hsm)].
  - destruct (user_pte_facts f flags Hf Hfl) as [Hpr _].
    assert (Hpg : forall va', page_of va' = page_of va -> vmm_get_pte (ms_mem s') (cr3 p) va' = user_pte f flags).
    { intros va' He. by rewrite (get_pte_page _ _ _ va He). }
    assert (Hmono : forall va', user_half va' -> page_present s p va' = true -> page_present s' (set_umap p (umap p ++ [(va, f)])) va' = true).
    { intros va' Hv' Hp'. unfold page_present in *. cbn [cr3 set_umap]. destruct (decide (page_of va' = page_of va)) as [He|Hne].
      - by rewrite (Hpg va' He).
      - by rewrite Hoth. }
    split; [split|left; split; [done|unfold page_present; cbn [cr3 set_umap]; by rewrite Hpte]].
    + by exists G'.
    + by destruct p.
    + done.
    + intros va' Hv' HnR Hp'. apply (byte_same F s p G s' _ G'); try done; [by apply Hmono|]. rewrite Hoth; [done|done|auto].
    + intros Hnx Hw va' Hv' Hp'. unfold page_present in Hp'. cbn [cr3 set_umap] in *.
      destruct (decide (page_of va' = page_of va)) as [He|Hne].
      * rewrite (Hpg va' He). apply user_pte_wx; auto.
      * rewrite Hoth in Hp' |- * by done. by apply Hw.
  - split; [|by right]. apply (same_map_kept _ _ _ _ G'); [done|done|]. intros va' Hv' _ Hp'.
    apply (byte_same F s p G s' p G'); try done; [unfold page_present in *; by rewrite Hsm|by rewrite Hsm].
Qed.

(** ** The contents of all segments *)
Definition in_file (base : Z) (l : list Elf64_Phdr) (va : Z) : Prop :=
  exists ph, ph ∈ l /\ vstart base ph <= va < vstart base ph + p_filesz ph.

Lemma length_seg_src img ph : p_offset ph + p_filesz ph <= Z.of_nat (length img) -> 0 <= p_offset ph -> 0 <= p_filesz ph ->
  Z.of_nat (length (seg_src img ph)) = p_filesz ph.
Proof. intros. unfold seg_src. rewrite length_take, length_drop. lia. Qed.

Lemma nth_seg_src img ph i : 0 <= p_offset ph -> 0 <= i < p_filesz ph ->
  nth (Z.to_nat i) (seg_src img ph) 0 = nth (Z.to_nat (p_offset ph + i)) img 0.
Proof. intros. unfold seg_src. rewrite !nth_lookup, lookup_take_lt, lookup_drop by lia. do 2 f_equal. lia. Qed.

Lemma copy_segments_spec img base l p G : Forall (fun b => 0 <= b < 256) img -> 0 <= base <= ELF_DYN_BASE ->
  Forall (seg_good (Z.of_nat (length img)) base) (loads l) -> ForallOrdPairs (apart base) (loads l) ->
  forall s, um_inv F s p G -> Forall (fun ph => seg_bytes base ph (fun va => page_present s p va = true)) (loads l) ->
  exists s', copy_segments s p img base l = Some (ELF_OK, s') /\ um_inv F s' p G /\ same_map (cr3 p) s s' /\
    (forall ph i, ph ∈ loads l -> 0 <= i < p_filesz ph ->
       user_byte (ms_mem s') p (vstart base ph + i) = nth (Z.to_nat (p_offset ph + i)) img 0) /\
    (forall va, user_half va -> page_present s p va = true -> ~ in_file base (loads l) va ->
       user_byte (ms_mem s') p va = user_byte (ms_mem s) p va).
Proof.
  intros Hby Hb. induction l as [|ph l IH]; intros Hg Hap s Hum Hpr; cbn [copy_segments].
  { exists s. split_and!; try done. by intros ph i ?%not_elem_of_nil. }
  rewrite loads_cons in *. destruct (is_load ph) eqn:El; cbn [negb]; [|by apply (IH Hg Hap s)].
  apply Forall_cons in Hg as [Hph Hg], Hpr as [Hpp Hpr]. apply ord_pairs_cons in Hap as [Ha Hap].
  destruct (copy_segment_spec F p G img base ph s Hby Hb Hph Hum Hpp) as (s1 & -> & [Hum1 Hs1 Hb1]). cbn [Z.eqb ELF_OK negb].
  destruct (IH Hg Hap s1 Hum1) as (s' & E & Hum' & Hs' & Hfile & Hrest).
  { eapply Forall_impl; [exact Hpr|]. intros q Hq i Hi. destruct (Hq i Hi). unfold page_present. by rewrite Hs1. }
  destruct (seg_good_facts _ _ _ Hb Hph) as (_ & Hm & Hlo & Hend & Hlim).
  pose proof Hph as (_ & (? & _ & ? & _) & [[Hf1 Hf2] _ _ _ _ _] & Hnw). pose proof (length_seg_src img ph Hf2) as Hlen.
  rewrite Hlen in Hb1 by lia. exists s'. split_and!; [done|done|by eapply same_map_trans| |].
  - intros q i [-> |Hq]%elem_of_cons Hi; [|by apply Hfile]. destruct (Hpp i ltac:(lia)) as [Hv Hp].
    rewrite Hrest; [|done|unfold page_present; by rewrite Hs1|].
    + rewrite Hb1 by done. rewrite (proj2 (Z.leb_le _ _)), (proj2 (Z.ltb_lt _ _)) by lia. cbn [andb].
      replace (vstart base ph + i - vstart base ph) with i by lia. apply nth_seg_src; lia.
    + intros (q & Hq & Hr). rewrite Forall_forall in Ha, Hg. specialize (Ha q Hq). specialize (Hg q Hq).
      destruct (seg_good_facts _ _ _ Hb Hg) as (_ & _ & _ & Hqe & Hql). destruct Hg as (_ & _ & [[? _] _ _ _ _ _] & Hqw).
      unfold apart in Ha. lia.
  - intros va Hv Hp Hn. rewrite Hrest; [|done|unfold page_present; by rewrite Hs1|].
    + rewrite Hb1 by done. destruct (Z.leb_spec (vstart base ph) va), (Z.ltb_spec va (vstart base ph + p_filesz ph)); try done.
      destruct Hn. exists ph. split; [apply elem_of_cons; by left|lia].
    + intros (q & Hq & Hr). destruct Hn. exists q. split; [apply elem_of_cons; by right|done].
Qed.
End Kept.

(** ** Loading the segments *)
Section Segments.
Context (F : gset Z) (nx : bool).

Definition in_memory (base : Z) (l : list Elf64_Phdr) (va : Z) : Prop :=
  exists ph, ph ∈ l /\ vstart base ph <= va < vstop base ph.

(** The contents of a segment: the bytes of the file, then zeros, except on pages
  that were there before. *)
Definition seg_content (img : list Z) (base : Z) (s : mstate) (p : process_t) (s' : mstate) (p' : process_t)
    (ph : Elf64_Phdr) : Prop :=
  forall i, 0 <= i < p_memsz ph ->
    let va := vstart base ph + i in
    user_half va /\ page_present s' p' va = true /\
    user_byte (ms_mem s') p' va =
      if i <? p_filesz ph then nth (Z.to_nat (p_offset ph + i)) img 0
      else if page_present s p va then user_byte (ms_mem s) p va else 0.

Definition ctx_ok (ctx : elf_loader_t) : Prop :=
  let l := loads (phdrs (image ctx) (ehdr ctx)) in
  Forall (fun b => 0 <= b < 256) (image ctx) /\ 0 <= base_ ctx <= ELF_DYN_BASE /\
  Forall (seg_good (Z.of_nat (length (image ctx))) (base_ ctx)) l /\ ForallOrdPairs (apart (base_ ctx)) l.

Lemma ord_pairs_apart base l ph q : ForallOrdPairs (apart base) l -> ph ∈ l -> q ∈ l -> ph = q \/ apart base ph q.
Proof.
  induction 1 as [|x l Hx _ IH]; [by intros ?%not_elem_of_nil|]. rewrite Forall_forall in Hx.
  intros [-> |Hp]%elem_of_cons [-> |Hq]%elem_of_cons; [by left|right; by apply Hx| |by apply IH].
  right. specialize (Hx _ Hp). unfold apart in *. tauto.
Qed.

Lemma load_segments_spec ctx s p G : ctx_ok ctx -> um_inv F s p G ->
  let l := loads (phdrs (image ctx) (ehdr ctx)) in
  match elf_load_segments_only nx ctx s p with
  | None => False
  | Some (r, s', p') => kept F nx (in_memory (base_ ctx) l) s p s' p' /\ load_status r /\
      (r = ELF_OK -> Forall (seg_content (image ctx) (base_ ctx) s p s' p') l)
  end.
Proof.
  intros (Hby & Hb & Hg & Hap) Hum l. unfold elf_load_segments_only. set (img := image ctx) in *. set (base := base_ ctx) in *.
  pose proof (map_segments_spec F nx _ base (phdrs img (ehdr ctx)) Hb Hg s p G Hum) as Hm. fold l in Hg, Hap, Hm.
  destruct (map_segments nx s p base _) as [[[r s1] p1]|]; [|done]. destruct Hm as (Hld & Hr & Hok).
  destruct (Z.eqb_spec r ELF_OK) as [-> |Hne]; cbn [negb].
  2: { split_and!; [by apply loaded_kept|done|done]. }
  destruct (ld_inv _ _ _ _ _ _ Hld) as [G1 Hum1]. specialize (Hok eq_refl).
  destruct (copy_segments_spec F img base (phdrs img (ehdr ctx)) p1 G1 Hby Hb Hg Hap s1 Hum1 Hok)
    as (s' & -> & Hum' & Hs' & Hfile & Hrest). fold l in Hfile, Hrest.
  assert (Hgood : forall ph, ph ∈ l -> 0 <= p_filesz ph <= p_memsz ph /\ vstart base ph + p_memsz ph = vstop base ph /\
    vstop base ph < 2 ^ 64).
  { intros ph Hin. rewrite Forall_forall in Hg. specialize (Hg ph Hin).
    destruct (seg_good_facts _ _ _ Hb Hg) as (_ & _ & _ & ? & _). destruct Hg as (_ & (_ & _ & ? & _) & [[? _] _ _ _ _ _] & ?). lia. }
  split_and!; [|by left|].
  - eapply kept_trans; [by apply loaded_kept|]. apply (same_map_kept _ _ _ _ _ _ G1); [done|done|].
    intros va Hv Hn Hp. apply Hrest; [done|done|]. intros (ph & Hin & Hva). destruct Hn. exists ph. split; [done|].
    destruct (Hgood ph Hin). lia.
  - intros _. rewrite Forall_forall in Hok |- *. intros ph Hin i Hi. destruct (Hok ph Hin i Hi) as [Hv Hp]. cbn zeta.
    split_and!; [done|unfold page_present; by rewrite Hs'|]. destruct (Z.ltb_spec i (p_filesz ph)) as [Hlt|Hge].
    + apply Hfile; [done|lia].
    + rewrite Hrest; [by apply (ld_bytes _ _ _ _ _ _ Hld)|done|done|]. intros (q & Hq & Hva).
      destruct (Hgood ph Hin) as (? & ? & ?), (Hgood q Hq) as (? & ? & ?).
      destruct (ord_pairs_apart base l ph q Hap Hin Hq) as [<- |Ha]; [lia|]. unfold apart in Ha. lia.
Qed.

(** ** The initial stack *)
Definition stack_area (va : Z) : Prop := USER_STACK_TOP - USER_STACK_SIZE <= va < USER_STACK_TOP.

Lemma stack_pages_spec flags l : page_flags_ok flags -> (nx = true -> wx_flags flags) ->
  (forall va, va ∈ l -> aligned va /\ stack_area va) -> forall s p G, um_inv F s p G ->
  let '(r, s', p') := stack_pages l s p flags in
  kept F nx stack_area s p s' p' /\ load_status r /\ (r = ELF_OK -> forall va, va ∈ l -> page_present s' p' va = true).
Proof.
  intros Hfl Hwx. induction l as [|va l IH]; intros Hl s p G Hum; cbn [stack_pages].
  { split_and!; [by eapply kept_refl|by left|]. by intros _ va ?%not_elem_of_nil. }
  destruct (Hl va) as [Ha Hst]; [apply elem_of_cons; by left|].
  destruct (process_alloc_user_page s p va flags) as [[st s1] p1] eqn:E.
  apply (alloc_kept F nx stack_area s p G) in E as [Hk Hc]; [|done|unfold stack_area, USER_STACK_TOP, USER_STACK_SIZE in *; lia|done..|].
  2: { intros va' Hp. unfold stack_area, USER_STACK_TOP, USER_STACK_SIZE, page_of, aligned, PAGE_SIZE in *.
       Z.div_mod_to_equations. lia. }
  destruct Hc as [[-> Hp]| ->]; cbn [Z.eqb VOID_OK VOID_ERR_NOMEM negb].
  2: { split_and!; [done|by right; left|done]. }
  destruct (kp_inv _ _ _ _ _ _ _ Hk) as [G1 Hum1].
  specialize (IH ltac:(intros; apply Hl, elem_of_cons; by right) s1 p1 G1 Hum1).
  destruct (stack_pages l s1 p1 flags) as [[r s'] p']. destruct IH as (Hk' & Hr & Hok). split_and!; [by eapply kept_trans|done|].
  intros H0 va' [-> |Hin]%elem_of_cons; [|by apply Hok]. apply (kp_mono _ _ _ _ _ _ _ Hk'); [|done].
  unfold stack_area, user_half, USER_STACK_TOP, USER_STACK_SIZE in *. lia.
Qed.

(** A store within one page. *)
Lemma store_page p G s base src : um_inv F s p G -> mapped_range s p base (Z.of_nat (length src)) ->
  base mod PAGE_SIZE + Z.of_nat (length src) <= PAGE_SIZE -> Forall (fun b => 0 <= b < 256) src ->
  stored F p G s base src (with_mem s (mem_write (ms_mem s) (vmm_virt_to_phys (ms_mem s) (cr3 p) base) src)).
Proof.
  intros Hum Hmr Hpg Hby. pose proof Hmr as [Hb Hl Hlim _]. apply copied_stored; [done..|].
  destruct (copy_to_step F p G s base src 0 Hum Hmr Hby ltac:(lia)) as (Hum1 & Hs1 & Hstep).
  unfold USER_LIMIT in *. rewrite chunk_size_eq, land_page_low, Z.add_0_r in Hum1, Hs1, Hstep by lia. cbn zeta in *.
  assert (Hc : (if Z.of_nat (length src) - 0 <? PAGE_SIZE - base mod PAGE_SIZE then Z.of_nat (length src) - 0
      else PAGE_SIZE - base mod PAGE_SIZE) = Z.of_nat (length src)).
  { destruct (Z.ltb_spec (Z.of_nat (length src) - 0) (PAGE_SIZE - base mod PAGE_SIZE)); lia. }
  rewrite Hc, Nat2Z.id in *. cbn [Z.to_nat drop] in *. rewrite firstn_all in *. apply Hstep. rewrite Z.add_0_l. by apply copied_none.
Qed.
End Segments.

Definition stack_bytes (ctx : elf_loader_t) : list Z := concat (le_bytes 8 <$> stack_words ctx).

Lemma stack_layout ctx : stack_rsp = USER_STACK_TOP - 144 /\ stack_str = USER_STACK_TOP - 160 /\
  Z.of_nat (length argv0) = 8 /\ Z.of_nat (length (stack_bytes ctx)) = 144 /\
  Forall (fun b => 0 <= b < 256) argv0 /\ Forall (fun b => 0 <= b < 256) (stack_bytes ctx).
Proof.
  split_and!; [by vm_compute..|reflexivity| |].
  - vm_compute. repeat constructor; discriminate.
  - unfold stack_bytes. apply Forall_concat, Forall_fmap, Forall_true. intros v. apply le_bytes_range.
Qed.

(** What a process finds on its stack: the argument count, pointers and auxiliary
  vector at the stack pointer, and the name argv[0] points at. *)
Definition stack_ready (ctx : elf_loader_t) (s : mstate) (p : process_t) : Prop :=
  (forall i, 0 <= i < 144 -> user_byte (ms_mem s) p (stack_rsp + i) = nth (Z.to_nat i) (stack_bytes ctx) 0) /\
  (forall i, 0 <= i < 8 -> user_byte (ms_mem s) p (stack_str + i) = nth (Z.to_nat i) argv0 0).

Lemma setup_stack_spec F nx ctx s p G : um_inv F s p G ->
  let '(r, rsp, s', p') := setup_user_stack nx s p ctx in
  kept F nx stack_area s p s' p' /\ load_status r /\ (r = ELF_OK -> rsp = stack_rsp /\ stack_ready ctx s' p').
Proof.
  intros Hum. unfold setup_user_stack. destruct (stack_flags_ok nx) as [Hfl Hwx].
  destruct (stack_layout ctx) as (Er & Es & La & Lw & Ba & Bw). fold (stack_bytes ctx).
  pose proof (stack_pages_spec F nx _ (pages_from (USER_STACK_TOP - USER_STACK_SIZE) USER_STACK_TOP) Hfl Hwx) as Hsp.
  assert (Hst : forall va, va ∈ pages_from (USER_STACK_TOP - USER_STACK_SIZE) USER_STACK_TOP -> aligned va /\ stack_area va).
  { intros va (k & Hk & -> & Hlt)%elem_of_pages_from. split; [|unfold stack_area, PAGE_SIZE in *; lia].
    by apply aligned_add. }
  specialize (Hsp Hst s p G Hum).
  destruct (stack_pages _ s p _) as [[r s1] p1]. destruct Hsp as (Hk & Hr & Hpr).
  destruct (Z.eqb_spec r ELF_OK) as [-> |Hne]; cbn [negb]; [|by split_and!].
  destruct (kp_inv _ _ _ _ _ _ _ Hk) as [G1 Hum1]. specialize (Hpr eq_refl).
  assert (Hpage : forall va, USER_STACK_TOP - PAGE_SIZE <= va < USER_STACK_TOP -> user_half va /\ page_present s1 p1 va = true).
  { intros va Hva. split; [unfold user_half, USER_STACK_TOP, PAGE_SIZE in *; lia|].
    rewrite (page_present_page _ _ va (USER_STACK_TOP - PAGE_SIZE)).
    - apply Hpr, elem_of_pages_from. exists 15. unfold USER_STACK_TOP, USER_STACK_SIZE, PAGE_SIZE. lia.
    - unfold page_of, USER_STACK_TOP, PAGE_SIZE in *. Z.div_mod_to_equations. lia. }
  assert (Hmr : forall b n, USER_STACK_TOP - PAGE_SIZE <= b -> 0 < n -> b + n <= USER_STACK_TOP -> mapped_range s1 p1 b n).
  { intros b n ???. unfold USER_STACK_TOP, PAGE_SIZE in *. split; [lia|lia|unfold USER_LIMIT; lia|]. intros va Hva. apply Hpage. lia. }
  destruct (Hpage stack_str) as [Hv1 Hp1]; [rewrite Es; unfold PAGE_SIZE; lia|].
  destruct (Hpage stack_rsp) as [Hv2 Hp2]; [rewrite Er; unfold PAGE_SIZE; lia|].
  rewrite (proj2 (Z.eqb_neq _ _)) by by apply (phys_nonzero F p1 G1).
  assert (Hm1 : mapped_range s1 p1 stack_str (Z.of_nat (length argv0))) by (apply Hmr; rewrite ?Es, ?La; unfold PAGE_SIZE; lia).
  destruct (store_page F p1 G1 s1 stack_str argv0 Hum1 Hm1 ltac:(rewrite La; by vm_compute) Ba) as [Hum2 Hs2 Hb2].
  set (s2 := with_mem s1 _) in *. cbn zeta.
  assert (Hp2' : page_present s2 p1 stack_rsp = true) by (unfold page_present; by rewrite Hs2).
  rewrite (proj2 (Z.eqb_neq _ _)) by by apply (phys_nonzero F p1 G1).
  assert (Hm2 : mapped_range s2 p1 stack_rsp (Z.of_nat (length (stack_bytes ctx)))).
  { apply (same_map_mapped p1 s1 s2); [done|]. apply Hmr; rewrite ?Er, ?Lw; unfold PAGE_SIZE; lia. }
  destruct (store_page F p1 G1 s2 stack_rsp (stack_bytes ctx) Hum2 Hm2 ltac:(rewrite Lw; by vm_compute) Bw) as [Hum3 Hs3 Hb3].
  set (s3 := with_mem s2 _) in *. rewrite Lw in Hb3. rewrite La in Hb2. split_and!; [|by left|].
  - eapply kept_trans; [exact Hk|]. apply (same_map_kept _ _ _ _ _ _ G1); [done|by eapply same_map_trans|].
    intros va Hv Hn Hp. unfold stack_area, USER_STACK_SIZE in Hn. rewrite Hb3, Hb2 by (done || unfold page_present; by rewrite Hs2).
    rewrite Er, Es. destruct (Z.leb_spec (USER_STACK_TOP - 144) va), (Z.ltb_spec va (USER_STACK_TOP - 144 + 144)),
      (Z.leb_spec (USER_STACK_TOP - 160) va), (Z.ltb_spec va (USER_STACK_TOP - 160 + 8)); try done; lia.
  - intros _. split; [done|]. split.
    + intros i Hi. destruct (Hpage (stack_rsp + i)) as [Hv Hp]; [rewrite Er; unfold PAGE_SIZE; lia|].
      rewrite Hb3 by (done || unfold page_present; by rewrite Hs2).
      rewrite (proj2 (Z.leb_le _ _)), (proj2 (Z.ltb_lt _ _)) by lia. cbn [andb]. do 2 f_equal. lia.
    + intros i Hi. destruct (Hpage (stack_str + i)) as [Hv Hp]; [rewrite Es; unfold PAGE_SIZE; lia|].
      rewrite Hb3 by (done || unfold page_present; by rewrite Hs2). rewrite Er, Es in *.
      rewrite (proj2 (Z.leb_gt _ _)) by lia. cbn [andb]. rewrite Hb2 by done.
      rewrite (proj2 (Z.leb_le _ _)), (proj2 (Z.ltb_lt _ _)) by lia. cbn [andb]. do 2 f_equal. lia.
Qed.

(** An image that passed validation, with no segment passing the top of the
  address space, can be loaded. *)
Lemma valid_ctx_ok img ctx : Forall (fun b => 0 <= b < 256) img -> Z.of_nat (length img) < 2 ^ 63 ->
  elf_validate img = inr ctx ->
  Forall (fun ph => vstop (base_ ctx) ph < 2 ^ 64) (loads (phdrs (image ctx) (ehdr ctx))) ->
  ctx_ok ctx /\ image ctx = img /\
  Forall (fun ph => USER_STACK_TOP <= vstart (base_ ctx) ph \/ vstop (base_ ctx) ph <= USER_STACK_TOP - USER_STACK_SIZE)
    (loads (phdrs (image ctx) (ehdr ctx))).
Proof.
  intros Hby Hlen E Hnw. destruct (elf_validate_cases img Hby Hlen) as [[Hv E']|[_ E']]; [|congruence].
  rewrite E in E'. injection E' as ->. cbn [image base_ ehdr] in *. destruct Hv as (_ & _ & _ & [_ _ Hseg Hap _]).
  destruct (loads_phdrs img Hby) as [_ Hu]. rewrite Forall_forall in Hseg, Hu, Hnw.
  split_and!; [|done|].
  - split_and!; [done|cbn; unfold vbase, ELF_DYN_BASE; case_match; lia|cbn; unfold vbase, ELF_DYN_BASE; case_match; lia| |done].
    apply Forall_forall. intros ph Hin. destruct (loads_sub _ _ Hin). split_and!; auto.
  - apply Forall_forall. intros ph Hin. apply (Hseg ph Hin). auto.
Qed.

(** ** Properties *)

(** C5.  Loading puts the image into memory.  For an image that passed
  validation and has no segment passing the top of the address space, loading it
  into a process returns: it succeeds, runs out of memory or refuses a page shared
  by a writable and an executable segment, and on every outcome the address space
  is sound, its frames accounted for, and, with the NX bit available, no page is
  both writable and executable if none was before.  On success every byte of every
  segment is mapped and holds the byte of the file, or zero behind the file part
  unless the page was there before; the initial stack holds the argument count and
  vector and the auxiliary vector; and entry point and stack pointer are returned. *)
Theorem elf_load_correct F nx img ctx s p G : um_inv F s p G ->
  Forall (fun b => 0 <= b < 256) img -> Z.of_nat (length img) < 2 ^ 63 -> elf_validate img = inr ctx ->
  Forall (fun ph => vstop (base_ ctx) ph < 2 ^ 64) (loads (phdrs (image ctx) (ehdr ctx))) ->
  match elf_load_into_process nx ctx s p with
  | None => False
  | Some (r, entry, rsp, s', p') =>
      (exists G', um_inv F s' p' G') /\ p' = set_umap p (umap p') /\
      (r = ELF_OK \/ r = ELF_ERR_NOMEM \/ r = ELF_ERR_NOEXEC) /\ (nx = true -> wx_ok s p -> wx_ok s' p') /\
      (r = ELF_OK -> entry = u64 (entry_ ctx + base_ ctx) /\ rsp = stack_rsp /\ stack_ready ctx s' p' /\
         Forall (seg_content img (base_ ctx) s p s' p') (loads (phdrs img (ehdr ctx))))
  end.
Proof.
  intros Hum Hby Hlen E Hnw. destruct (valid_ctx_ok img ctx Hby Hlen E Hnw) as (Hok & <- & Hoff).
  unfold elf_load_into_process. pose proof (load_segments_spec F nx ctx s p G Hok Hum) as Hl. cbn zeta in Hl.
  destruct (elf_load_segments_only nx ctx s p) as [[[r s1] p1]|]; [|done]. destruct Hl as (Hk & Hr & Hseg).
  destruct (Z.eqb_spec r ELF_OK) as [-> |Hne]; cbn [negb].
  2: { destruct Hk. split_and!; done. }
  destruct (kp_inv _ _ _ _ _ _ _ Hk) as [G1 Hum1]. specialize (Hseg eq_refl).
  pose proof (setup_stack_spec F nx ctx s1 p1 G1 Hum1) as Hs. destruct (setup_user_stack nx s1 p1 ctx) as [[[r rsp] s2] p2].
  destruct Hs as (Hk2 & Hr2 & Hst).
  pose proof (kept_trans F nx (fun _ => True) s p s1 p1 s2 p2 ltac:(by eapply kept_weaken, Hk) ltac:(by eapply kept_weaken, Hk2))
    as [I12 E12 _ _ W12].
  destruct (Z.eqb_spec r ELF_OK) as [-> |Hne]; cbn [negb]; [|by split_and!].
  destruct (Hst eq_refl) as [-> Hready]. split_and!; [done|done|by left|done|]. intros _. split_and!; [done..|].
  rewrite Forall_forall in Hseg, Hoff |- *. intros ph Hin i Hi. destruct (Hseg ph Hin i Hi) as (Hv & Hp & Hb). cbn zeta in *.
  split_and!; [done|by apply (kp_mono _ _ _ _ _ _ _ Hk2)|]. rewrite <- Hb. apply (kp_bytes _ _ _ _ _ _ _ Hk2); [done| |done].
  specialize (Hoff ph Hin). unfold stack_area, vstop, vstart in *. lia.
Qed.


Lemma elf_load_correct_witness :
  match elf_validate demo_elf with
  | inr ctx =>
      match elf_load_into_process true ctx demo_state demo_proc with
      | Some (r, entry, rsp, s', p') => r = ELF_OK /\ entry = 0x400078 /\ user_byte (ms_mem s') p' 0x400078 = 0xEB
      | None => False
      end
  | inl _ => False
  end.
Proof.
  assert (Hc : match elf_validate demo_elf with
    | inr ctx => match elf_load_into_process true ctx demo_state demo_proc with Some (r, _, _, _, _) => r =? ELF_OK | None => false end &&
        (u64 (entry_ ctx + base_ ctx) =? 0x400078) && (base_ ctx =? 0) && bool_decide (ehdr ctx = read_ehdr demo_elf) &&
        forallb (fun ph => vstop (base_ ctx) ph <? 2 ^ 64) (loads (phdrs (image ctx) (ehdr ctx)))
    | inl _ => false end = true) by (vm_compute; reflexivity).
  destruct (elf_validate demo_elf) as [e|ctx] eqn:E; [discriminate Hc|].
  apply andb_true_iff in Hc as [Hc Hn]. apply andb_true_iff in Hc as [Hc He]. apply andb_true_iff in Hc as [Hc Hb].
  apply andb_true_iff in Hc as [Hr Hen]. apply Z.eqb_eq in Hen, Hb. apply bool_decide_eq_true in He.
  pose proof (elf_load_correct demo_account true demo_elf ctx demo_state demo_proc demo_tables demo_um_inv
    (bytesb_ok demo_elf ltac:(by vm_compute)) ltac:(by vm_compute) E) as H.
  specialize (H ltac:(apply Forall_forall; intros ph Hin; revert Hn; rewrite forallb_forall;
    intros Hn; apply list_elem_of_In, Hn in Hin; lia)).
  destruct (elf_load_into_process true ctx demo_state demo_proc) as [[[[[r entry] rsp] s'] p']|]; [|destruct H].
  apply Z.eqb_eq in Hr. destruct H as (_ & _ & _ & _ & H). destruct (H Hr) as (-> & _ & _ & Hseg). rewrite Hb, He in Hseg.
  split; [exact Hr|]. split; [exact Hen|]. clear -Hseg.
  assert (Hl : exists ph, loads (phdrs demo_elf (read_ehdr demo_elf)) = [ph] /\ p_vaddr ph = 0x400000 /\ p_memsz ph = 130 /\
    p_filesz ph = 122 /\ p_offset ph = 0) by (eexists; split; [vm_compute; reflexivity|repeat split]).
  destruct Hl as (ph & El & Ev & Em & Ef & Eo). rewrite El in Hseg. apply Forall_inv in Hseg. destruct (Hseg 0x78 ltac:(lia)) as (_ & _ & Hx).
  cbn zeta in Hx. unfold vstart in Hx. rewrite Ev, Ef, Eo in Hx. exact Hx.
Defined.
