(* ===== verification/ElfCheck.v ===== *)
(** * The loader's self-test ([elf/elf_selftest.c])

  The kernel copies a reference executable into a scratch buffer, damages one field at a
  time and expects [elf_validate] to refuse the result.  [scratch] is the copied prefix
  of the buffer, and the sizes of the source are those of C: a store that leaves a field
  wraps.  [None] is a dereference of the NULL that [sc_first_load] returns. *)
From S2P Require Import Prelude Pmm PhysMem ProcData Console Elf.

(** ** The scratch copy *)
Definition SCRATCH_MAX : Z := 32 * 1024.

(** A store of [n] bytes at offset [off]. *)
Definition set_field (sc : list Z) (off n v : Z) : list Z :=
  take (Z.to_nat off) sc ++ le_bytes (Z.to_nat n) v ++ drop (Z.to_nat (off + n)) sc.

(** The offset of the first PT_LOAD header. *)
Definition sc_first_load (sc : list Z) : option Z :=
  let eh := read_ehdr sc in
  (fun i => u64 (e_phoff eh + i * PHDR_SIZE)) <$> List.find (fun i => p_type (phdr_at sc eh i) =? PT_LOAD) (range 0 (e_phnum eh)).

Definition sc_reset (img : list Z) : list Z := img.

(** The fields the test damages: an offset and a width, in the header or in the first
  PT_LOAD header. *)
Definition set_ehdr (off n v : Z) (sc : list Z) : option (list Z) := Some (set_field sc off n v).
Definition set_load (off n : Z) (v : Elf64_Phdr -> Z) (sc : list Z) : option (list Z) :=
  (fun a => set_field sc (a + off) n (v (read_phdr sc a))) <$> sc_first_load sc.

Definition E_TYPE : Z := 16.
Definition E_MACHINE : Z := 18.
Definition E_VERSION : Z := 20.
Definition E_ENTRY : Z := 24.
Definition E_PHOFF : Z := 32.
Definition E_EHSIZE : Z := 52.
Definition E_PHENTSIZE : Z := 54.
Definition E_PHNUM : Z := 56.
Definition P_FLAGS : Z := 4.
Definition P_OFFSET : Z := 8.
Definition P_VADDR : Z := 16.
Definition P_FILESZ : Z := 32.
Definition P_MEMSZ : Z := 40.
Definition P_ALIGN : Z := 48.

(** ** The cases *)

(** A case: its name, what it does to the copy, the size it passes. *)
Record check_case := Case { cname : string; damage : list Z -> option (list Z); clen : Z }.

Definition entry_past (sc : list Z) : option (list Z) :=
  a ← sc_first_load sc; set_ehdr E_ENTRY 8 (u64 (p_vaddr (read_phdr sc a) + p_memsz (read_phdr sc a) + 0x8)) sc.

Definition cases (size : Z) : list check_case := [
  Case "bad magic" (set_ehdr 0 1 0x7E) size;
  Case "wrong class" (set_ehdr EI_CLASS 1 1) size;
  Case "wrong endianness" (set_ehdr EI_DATA 1 2) size;
  Case "bad ident version" (set_ehdr EI_VERSION 1 0) size;
  Case "wrong machine" (set_ehdr E_MACHINE 2 3) size;
  Case "not ET_EXEC" (set_ehdr E_TYPE 2 1) size;
  Case "bad e_version" (set_ehdr E_VERSION 4 0) size;
  Case "bad e_ehsize" (set_ehdr E_EHSIZE 2 52) size;
  Case "truncated header" Some (EHDR_SIZE - 1);
  Case "oversized e_phentsize" (set_ehdr E_PHENTSIZE 2 (56 + 8)) size;
  Case "undersized e_phentsize" (set_ehdr E_PHENTSIZE 2 32) size;
  Case "zero e_phnum" (set_ehdr E_PHNUM 2 0) size;
  Case "absurd e_phnum" (set_ehdr E_PHNUM 2 4096) size;
  Case "phdr table past EOF" (set_ehdr E_PHOFF 8 (u64 (size - 8))) size;
  Case "e_phoff overflow" (set_ehdr E_PHOFF 8 0xFFFFFFFFFFFFFF00) size;
  Case "p_filesz > p_memsz" (set_load P_FILESZ 8 (fun ph => u64 (p_memsz ph + 1))) size;
  Case "p_offset past EOF" (set_load P_OFFSET 8 (fun _ => u64 (size + 0x1000))) size;
  Case "file range overflow" (fun sc => set_load P_FILESZ 8 (fun _ => 0xFFFFFFFFFFFFFFF0) sc ≫= set_load P_MEMSZ 8 (fun _ => 0xFFFFFFFFFFFFFFF0)) size;
  Case "vaddr+memsz overflow" (set_load P_VADDR 8 (fun _ => 0xFFFFFFFFFFFFF000)) size;
  Case "kernel-half vaddr" (set_load P_VADDR 8 (fun _ => 0xFFFFFFFF80000000)) size;
  Case "non-canonical vaddr" (set_load P_VADDR 8 (fun _ => 0x0000800000000000)) size;
  Case "vaddr below user minimum" (set_load P_VADDR 8 (fun _ => 0x1000)) size;
  Case "vaddr collides with user stack" (set_load P_VADDR 8 (fun _ => USER_STACK_TOP - 0x2000)) size;
  Case "W+X segment" (set_load P_FLAGS 4 (fun _ => Z.lor (Z.lor PF_R PF_W) PF_X)) size;
  Case "segment without PF_R" (set_load P_FLAGS 4 (fun _ => PF_X)) size;
  Case "p_align not a power of two" (set_load P_ALIGN 8 (fun _ => 3)) size;
  Case "p_offset/p_vaddr congruence broken" (set_load P_VADDR 8 (fun ph => u64 (p_vaddr ph + 1))) size;
  Case "null entry point" (set_ehdr E_ENTRY 8 0) size;
  Case "kernel-half entry point" (set_ehdr E_ENTRY 8 0xFFFFFFFF80000000) size;
  Case "entry outside executable segment" entry_past size
].

(** [kprintf] calls: formats with their arguments. *)
Definition message : Type := list Z * list karg.

Definition accepted (img : list Z) : bool := match elf_validate img with inr _ => true | inl _ => false end.

(** [expect_reject]: whether the copy, cut to [len] bytes, is refused. *)
Definition expect_reject (name : string) (sc : list Z) (len : Z) : bool * list message :=
  if accepted (take (Z.to_nat len) sc) then
    (false, [(str "[ELF-TEST] FAIL: accepted malformed image (%s)" ++ [10; 13], [KStr (Some (str name))])])
  else (true, []).

Definition run_case (img : list Z) (st : Z * Z * list message) (c : check_case) : option (Z * Z * list message) :=
  let '(fails, n, log) := st in
  sc ← damage c (sc_reset img);
  let '(ok, m) := expect_reject (cname c) sc (clen c) in
  Some (u32 (fails + if ok then 0 else 1), u32 (n + 1), log ++ m).

Fixpoint run_cases (img : list Z) (st : Z * Z * list message) (l : list check_case) : option (Z * Z * list message) :=
  match l with
  | [] => Some st
  | c :: l => st ← run_case img st c; run_cases img st l
  end.

(** The number of failures; a NULL image is refused before anything is read, and so is
  counted. *)
Definition elf_selftest (img : list Z) : option (Z * list message) :=
  let size := Z.of_nat (length img) in
  if SCRATCH_MAX <? size then
    Some (0, [(str "[ELF-TEST] SKIP: image %u B exceeds %u B scratch" ++ [10; 13], [KInt size; KInt SCRATCH_MAX])])
  else if negb (accepted img) then
    Some (1, [(str "[ELF-TEST] FAIL: rejected the valid reference image" ++ [10; 13], [])])
  else
    st ← run_cases img (0, 1, []) (cases size);
    let '(fails, n, log) := st in
    let n := u32 (n + 1) in
    let '(fails, n, log) :=
      if accepted [] then (u32 (fails + 1), u32 (n + 1), log ++ [(str "[ELF-TEST] FAIL: accepted zero-length image" ++ [10; 13], [])])
      else (fails, u32 (n + 1), log) in
    Some (fails, log ++ [(str "[ELF-TEST] %s: %u/%u validation cases" ++ [10; 13],
                          [KStr (Some (str (if fails =? 0 then "PASS" else "FAIL"))); KInt (u32 (n - fails)); KInt n])]).

Example selftest_demo : elf_selftest demo_elf =
  Some (0, [(str "[ELF-TEST] %s: %u/%u validation cases" ++ [10; 13], [KStr (Some (str "PASS")); KInt 33; KInt 33])]).
Proof. vm_compute. reflexivity. Qed.

(** ** Damaged fields *)

Lemma length_set_field sc off n v : 0 <= off -> 0 <= n -> off + n <= Z.of_nat (length sc) -> length (set_field sc off n v) = length sc.
Proof. intros. unfold set_field. rewrite !length_app, length_le_bytes, length_take, length_drop. lia. Qed.

Lemma set_field_bytes sc off n v : Forall (fun b => 0 <= b < 256) sc -> Forall (fun b => 0 <= b < 256) (set_field sc off n v).
Proof. intros. unfold set_field. rewrite !Forall_app. split_and!; [by apply Forall_take|apply le_bytes_range|by apply Forall_drop]. Qed.

Lemma field_set_same sc off n v : 0 <= off -> 0 <= n -> off + n <= Z.of_nat (length sc) -> 0 <= v < 2 ^ (8 * n) ->
  field (set_field sc off n v) off n = v.
Proof.
  intros Ho Hn Hl Hv. unfold field, set_field. rewrite drop_app_length' by (rewrite length_take; lia).
  rewrite take_app_length' by (by rewrite length_le_bytes). rewrite le_val_bytes, Z2Nat.id by done. by apply Z.mod_small.
Qed.

(** The bytes from [o] on, [m] of them, when the store does not touch them. *)
Lemma slice_set_other sc off n v o m : 0 <= off -> 0 <= n -> off + n <= Z.of_nat (length sc) -> 0 <= o -> 0 <= m ->
  o + m <= off \/ off + n <= o ->
  take (Z.to_nat m) (drop (Z.to_nat o) (set_field sc off n v)) = take (Z.to_nat m) (drop (Z.to_nat o) sc).
Proof.
  intros Ho Hn Hl Ho' Hm Hd. unfold set_field. destruct Hd.
  - rewrite drop_app_le by (rewrite length_take; lia). rewrite take_app_le by (rewrite length_drop, length_take; lia).
    rewrite !take_drop_commute, take_take. do 2 f_equal. lia.
  - rewrite app_assoc, drop_app_ge by (rewrite length_app, length_take, length_le_bytes; lia).
    rewrite drop_drop, length_app, length_take, length_le_bytes. do 2 f_equal. lia.
Qed.

Lemma field_set_other sc off n v o m : 0 <= off -> 0 <= n -> off + n <= Z.of_nat (length sc) -> 0 <= o -> 0 <= m ->
  o + m <= off \/ off + n <= o -> field (set_field sc off n v) o m = field sc o m.
Proof. intros. unfold field. by rewrite slice_set_other. Qed.

(** A store behind the header leaves the header, a store into the header the others. *)
Lemma read_ehdr_set sc off n v : EHDR_SIZE <= off -> 0 <= n -> off + n <= Z.of_nat (length sc) ->
  read_ehdr (set_field sc off n v) = read_ehdr sc.
Proof.
  unfold EHDR_SIZE. intros Ho Hn Hl. unfold read_ehdr. assert (E : take 16 (set_field sc off n v) = take 16 sc).
  { apply (slice_set_other sc off n v 0 16); lia. }
  rewrite E. by rewrite !field_set_other by lia.
Qed.

Lemma read_phdr_set sc off n v a : 0 <= off -> 0 <= n -> off + n <= Z.of_nat (length sc) -> 0 <= a ->
  a + PHDR_SIZE <= off \/ off + n <= a -> read_phdr (set_field sc off n v) a = read_phdr sc a.
Proof. unfold PHDR_SIZE. intros. unfold read_phdr. by rewrite !field_set_other by lia. Qed.

Lemma refused sc : Forall (fun b => 0 <= b < 256) sc -> Z.of_nat (length sc) < 2 ^ 63 -> ~ valid_image sc -> accepted sc = false.
Proof. intros Hb Hl Hn. unfold accepted. by destruct (elf_validate_cases sc Hb Hl) as [[? _]|[_ ->]]. Qed.

(** ** What the test needs of its reference image *)

(** A valid program at a fixed address whose header table lies behind the header, whose
  first PT_LOAD segment is not empty and has an alignment, and whose other executable
  segments do not begin right behind it. *)
Record reference_image (img : list Z) (a : Z) : Prop := {
  ri_bytes : Forall (fun b => 0 <= b < 256) img;
  ri_size : Z.of_nat (length img) <= SCRATCH_MAX;
  ri_valid : valid_image img;
  ri_exec : e_type (read_ehdr img) = ET_EXEC;
  ri_table : EHDR_SIZE <= e_phoff (read_ehdr img);
  ri_first : sc_first_load img = Some a;
  ri_memsz : p_memsz (read_phdr img a) <> 0;
  ri_align : 1 < p_align (read_phdr img a);
  ri_entry : ~ Exists (entry_in (u64 (p_vaddr (read_phdr img a) + p_memsz (read_phdr img a) + 8))) (loads (phdrs img (read_ehdr img)))
}.

Lemma phdr_offset img i : EHDR_SIZE <= Z.of_nat (length img) <= SCRATCH_MAX -> EHDR_SIZE <= e_phoff (read_ehdr img) ->
  e_phoff (read_ehdr img) + e_phnum (read_ehdr img) * PHDR_SIZE <= Z.of_nat (length img) -> 0 <= i < e_phnum (read_ehdr img) ->
  let a := u64 (e_phoff (read_ehdr img) + i * PHDR_SIZE) in
  a = e_phoff (read_ehdr img) + i * PHDR_SIZE /\ EHDR_SIZE <= a /\ a + PHDR_SIZE <= Z.of_nat (length img).
Proof.
  unfold SCRATCH_MAX, EHDR_SIZE, PHDR_SIZE. intros Hs Ho Ht Hi. cbn zeta. rewrite u64_id by nia. split_and!; nia.
Qed.

Lemma first_load_spec img a : reference_image img a -> exists i, 0 <= i < e_phnum (read_ehdr img) /\
  a = e_phoff (read_ehdr img) + i * PHDR_SIZE /\ read_phdr img a = phdr_at img (read_ehdr img) i /\
  EHDR_SIZE <= a /\ a + PHDR_SIZE <= Z.of_nat (length img) /\ p_type (read_phdr img a) = PT_LOAD.
Proof.
  intros [_ Hs (H1 & _ & H3 & _) _ Ht Hf _ _ _]. unfold sc_first_load in Hf.
  destruct (List.find _ _) as [i|] eqn:E; [|done]. apply (inj Some) in Hf as Ha. apply find_some in E as [Hin Hp].
  apply list_elem_of_In, elem_of_range in Hin. exists i.
  pose proof (phdr_offset img i ltac:(done) Ht H3 Hin) as (E1 & E2 & E3).
  assert (Er : read_phdr img a = phdr_at img (read_ehdr img) i) by (unfold phdr_at; by rewrite Ha).
  rewrite Ha in E1, E2, E3. rewrite <- Er in Hp. split_and!; try done; lia.
Qed.

Lemma find_ext {A} (f g : A -> bool) l : (forall x, x ∈ l -> f x = g x) -> List.find f l = List.find g l.
Proof.
  induction l as [|x l IH]; intros H; [done|]. cbn. rewrite (H x) by left. destruct (g x); [done|]. apply IH. intros. apply H. by right.
Qed.

(** ** Every case is refused *)
Section Cases.
Context (img : list Z) (a : Z) (R : reference_image img a).
Notation size := (Z.of_nat (length img)).
Notation eh := (read_ehdr img).
Notation ph := (read_phdr img a).

Lemma ref_size : EHDR_SIZE <= size <= SCRATCH_MAX.
Proof. destruct R as [_ ? [? _]]. done. Qed.

(** A damaged copy: bytes as many as the image has. *)
Definition copy (sc : list Z) : Prop := Forall (fun b => 0 <= b < 256) sc /\ Z.of_nat (length sc) = size.

Lemma copy_img : copy img.
Proof. split; [apply R|done]. Qed.

Lemma copy_set sc off n v : copy sc -> 0 <= off -> 0 <= n -> off + n <= size -> copy (set_field sc off n v).
Proof. intros [Hb Hl] ???. split; [by apply set_field_bytes|]. rewrite length_set_field; lia. Qed.

Lemma copy_refused sc : copy sc -> ~ valid_image sc -> accepted sc = false.
Proof. intros [Hb Hl] H. apply refused; [done| |done]. rewrite Hl. pose proof ref_size. unfold SCRATCH_MAX in *. lia. Qed.

Lemma header_refused sc : copy sc -> ehdr_ok size (read_ehdr sc) = false -> accepted sc = false.
Proof. intros Hc He. apply copy_refused; [done|]. intros (_ & H & _). destruct Hc as [_ E]. rewrite E in H. congruence. Qed.

(** A header field out of its range. *)
Lemma ehdr_field_refused off n v : 0 <= off -> 0 <= n -> off + n <= EHDR_SIZE ->
  ehdr_ok size (read_ehdr (set_field img off n v)) = false -> accepted (set_field img off n v) = false.
Proof. intros. pose proof ref_size. apply header_refused; [apply copy_set; [apply copy_img|lia..]|done]. Qed.

(** The first segment in a copy: the header and the place are those of the image. *)
Lemma segment_refused sc : copy sc -> read_ehdr sc = eh -> p_type (read_phdr sc a) = PT_LOAD -> p_memsz (read_phdr sc a) <> 0 ->
  ~ segment_ok size 0 (read_phdr sc a) -> accepted sc = false.
Proof.
  intros Hc Eh Et Em Hno. apply copy_refused; [done|]. intros (_ & _ & _ & [_ _ Hseg _ _]). destruct Hc as [_ El].
  rewrite El, Eh in Hseg. apply Hno. destruct (first_load_spec img a R) as (i & Hi & Ea & _ & Ha & Hs & _).
  assert (Eb : vbase eh = 0) by (unfold vbase; by rewrite (ri_exec _ _ R)). rewrite Eb in Hseg.
  rewrite Forall_forall in Hseg. apply Hseg. unfold loads. apply list_elem_of_filter.
  split; [unfold is_load; by rewrite Et, (proj2 (Z.eqb_neq _ _) Em)|]. unfold phdrs. apply list_elem_of_fmap. exists i.
  split; [|by apply elem_of_range]. unfold phdr_at. rewrite <- Ea, u64_id; [done|]. pose proof ref_size.
  unfold PHDR_SIZE, EHDR_SIZE, SCRATCH_MAX in *. lia.
Qed.

Lemma image_segment : segment_ok size 0 ph.
Proof.
  destruct (first_load_spec img a R) as (i & Hi & _ & Ei & _ & _ & Et). destruct (ri_valid _ _ R) as (_ & _ & _ & [_ _ Hs _ _]).
  assert (Eb : vbase eh = 0) by (unfold vbase; by rewrite (ri_exec _ _ R)). rewrite Eb in Hs. rewrite Forall_forall in Hs.
  apply Hs. apply list_elem_of_filter. split; [unfold is_load; by rewrite Et, (proj2 (Z.eqb_neq _ _) (ri_memsz _ _ R))|].
  rewrite Ei. apply list_elem_of_fmap. exists i. split; [done|]. by apply elem_of_range.
Qed.

(** An entry point outside every executable segment. *)
Lemma entry_refused v : 0 <= v < 2 ^ 64 -> ~ Exists (entry_in v) (loads (phdrs img eh)) -> accepted (set_field img E_ENTRY 8 v) = false.
Proof.
  intros Hv Hno. pose proof ref_size as Hs. unfold E_ENTRY, EHDR_SIZE in *. apply copy_refused; [apply copy_set; [apply copy_img|lia..]|].
  intros (_ & _ & _ & [_ _ _ _ He]). apply Hno.
  assert (E1 : e_entry (read_ehdr (set_field img 24 8 v)) = v) by (apply field_set_same; cbn; lia). rewrite E1 in He.
  assert (E2 : phdrs (set_field img 24 8 v) (read_ehdr (set_field img 24 8 v)) = phdrs img eh); [|by rewrite E2 in He].
  assert (E3 : e_phoff (read_ehdr (set_field img 24 8 v)) = e_phoff eh) by (apply field_set_other; lia).
  assert (E4 : e_phnum (read_ehdr (set_field img 24 8 v)) = e_phnum eh) by (apply field_set_other; lia).
  unfold phdrs. rewrite E4. apply list_fmap_ext. intros j i Hi%list_elem_of_lookup_2%elem_of_range. unfold phdr_at. rewrite E3.
  destruct (ri_valid _ _ R) as (_ & _ & Ht & _). pose proof (phdr_offset img i ref_size (ri_table _ _ R) Ht Hi) as (E5 & E6 & E7).
  cbn zeta in *. rewrite E5 in *. unfold EHDR_SIZE in *. apply read_phdr_set; lia.
Qed.

(** A case: its copy exists and is refused. *)
Definition case_refused (c : check_case) : Prop := exists sc, damage c img = Some sc /\ accepted (take (Z.to_nat (clen c)) sc) = false.

Lemma case_intro name damage sc : damage img = Some sc -> length sc = length img -> accepted sc = false ->
  case_refused (Case name damage size).
Proof. intros Hd Hl Ha. exists sc. split; [exact Hd|]. cbn [clen]. by rewrite take_ge by lia. Qed.

Lemma header_case name off n v : 0 <= off -> 0 <= n -> off + n <= EHDR_SIZE ->
  ehdr_ok size (read_ehdr (set_field img off n v)) = false -> case_refused (Case name (set_ehdr off n v) size).
Proof.
  intros. pose proof ref_size. apply (case_intro _ _ (set_field img off n v)); [done|apply length_set_field; lia|].
  by apply ehdr_field_refused.
Qed.

Lemma load_case name off n f : 4 <= off -> 0 <= n -> off + n <= PHDR_SIZE ->
  let sc := set_field img (a + off) n (f ph) in
  (p_type (read_phdr sc a) = PT_LOAD -> p_memsz (read_phdr sc a) <> 0 /\ ~ segment_ok size 0 (read_phdr sc a)) ->
  case_refused (Case name (set_load off n f) size).
Proof.
  intros Ho Hn Hl sc Hsc. destruct (first_load_spec img a R) as (_ & _ & _ & _ & Ha & Hs & Et).
  unfold EHDR_SIZE in *. apply (case_intro _ _ sc).
  - unfold set_load. by rewrite (ri_first _ _ R).
  - apply length_set_field; lia.
  - assert (Et' : p_type (read_phdr sc a) = PT_LOAD) by (rewrite <- Et; apply field_set_other; lia).
    destruct (Hsc Et') as [Hm Hno]. apply segment_refused; [apply copy_set; [apply copy_img|lia..]| |done|done|done].
    apply read_ehdr_set; unfold EHDR_SIZE; lia.
Qed.

(** What a header that passes says about each damaged field. *)
Lemma ehdr_ok_fields e : ehdr_ok size e = true -> take 4 (e_ident e) = ELFMAG /\ zget 0 (e_ident e) EI_CLASS = ELFCLASS64 /\
  zget 0 (e_ident e) EI_DATA = ELFDATA2LSB /\ zget 0 (e_ident e) EI_VERSION = EV_CURRENT /\ (e_type e = ET_EXEC \/ e_type e = ET_DYN) /\
  e_machine e = EM_X86_64 /\ e_version e = EV_CURRENT /\ e_ehsize e = EHDR_SIZE /\ e_phentsize e = PHDR_SIZE /\
  e_phnum e <> 0 /\ e_phnum e <= ELF_MAX_PHNUM /\ e_phoff e <= size /\ e_phnum e * PHDR_SIZE <= size - e_phoff e.
Proof.
  unfold ehdr_ok. intros H. repeat apply andb_true_iff in H as [H ?]. apply bool_decide_eq_true in H.
  apply orb_true_iff in H8. split_and!; try done; lia.
Qed.

Lemma ident_byte i v : 0 <= i < 16 -> 0 <= v < 256 -> zget 0 (e_ident (read_ehdr (set_field img i 1 v))) i = v.
Proof.
  intros Hi Hv. pose proof ref_size as Hs. unfold EHDR_SIZE in *. cbn [read_ehdr e_ident]. rewrite zget_lookup, lookup_take_lt by lia.
  unfold set_field. rewrite lookup_app_r by (rewrite length_take; lia). rewrite length_take.
  replace (Z.to_nat i - _)%nat with 0%nat by lia. exact (Z.mod_small v 256 Hv).
Qed.

(** The header field under the store. *)
Lemma header_field off n v : 0 <= off -> 0 <= n -> off + n <= EHDR_SIZE -> 0 <= v < 2 ^ (8 * n) -> field (set_field img off n v) off n = v.
Proof. intros. pose proof ref_size. apply field_set_same; lia. Qed.

Ltac header_case := apply header_case; [done..|]; apply not_true_is_false; intros (H1 & H2 & H3 & H4 & H5 & H6 & H7 & H8 & H9 & H10 & H11 & H12 & H13)%ehdr_ok_fields.

Ltac damaged p H off n v :=
  change (p (read_ehdr (set_field img off n v))) with (field (set_field img off n v) off n) in H;
  rewrite (header_field off n v) in H by (first [done|split; [lia|cbn; lia]]).

Lemma header_cases : Forall case_refused (take 15 (cases size)).
Proof.
  pose proof ref_size as Hs. unfold EHDR_SIZE, SCRATCH_MAX in Hs. assert (Eo : u64 (size - 8) = size - 8) by (apply u64_id; lia).
  repeat constructor; try header_case.
  - cbn in H1. discriminate H1.
  - by rewrite ident_byte in H2.
  - by rewrite ident_byte in H3.
  - by rewrite ident_byte in H4.
  - by damaged e_machine H6 E_MACHINE 2 3.
  - damaged e_type H5 E_TYPE 2 1. by destruct H5.
  - by damaged e_version H7 E_VERSION 4 0.
  - by damaged e_ehsize H8 E_EHSIZE 2 52.
  - exists img. split; [done|]. cbn [clen]. unfold accepted, elf_validate. rewrite length_take.
    rewrite (proj2 (Z.ltb_lt _ _)); [done|]. unfold EHDR_SIZE. lia.
  - by damaged e_phentsize H9 E_PHENTSIZE 2 (56 + 8).
  - by damaged e_phentsize H9 E_PHENTSIZE 2 32.
  - by damaged e_phnum H10 E_PHNUM 2 0.
  - by damaged e_phnum H11 E_PHNUM 2 4096.
  - damaged e_phoff H13 E_PHOFF 8 (u64 (size - 8)). rewrite Eo in *. unfold PHDR_SIZE in *.
    pose proof (field_bound (set_field img E_PHOFF 8 (size - 8)) 56 2 (set_field_bytes _ _ _ _ (ri_bytes _ _ R)) ltac:(done)) as Hb.
    cbn [read_ehdr e_phnum] in *. lia.
  - damaged e_phoff H12 E_PHOFF 8 0xFFFFFFFFFFFFFF00. lia.
Qed.

(** The damaged segment header. *)
Definition damage_phdr (off v : Z) (p : Elf64_Phdr) : Elf64_Phdr :=
  let f k x := if k =? off then v else x in
  Phdr (p_type p) (f P_FLAGS (p_flags p)) (f P_OFFSET (p_offset p)) (f P_VADDR (p_vaddr p)) (p_paddr p) (f P_FILESZ (p_filesz p))
    (f P_MEMSZ (p_memsz p)) (f P_ALIGN (p_align p)).

Lemma read_load off n v : (off, n) ∈ [(P_FLAGS, 4); (P_OFFSET, 8); (P_VADDR, 8); (P_FILESZ, 8); (P_MEMSZ, 8); (P_ALIGN, 8)] ->
  0 <= v < 2 ^ (8 * n) -> read_phdr (set_field img (a + off) n v) a = damage_phdr off v ph.
Proof.
  intros Hin Hv. destruct (first_load_spec img a R) as (_ & _ & _ & _ & Ha & Hs & _). unfold EHDR_SIZE, PHDR_SIZE in *.
  rewrite !elem_of_cons in Hin. destruct_or! Hin; [..|by apply not_elem_of_nil in Hin]; injection Hin as -> ->;
    unfold read_phdr, damage_phdr, P_FLAGS, P_OFFSET, P_VADDR, P_FILESZ, P_MEMSZ, P_ALIGN in *;
    (rewrite field_set_same by lia); by rewrite !field_set_other by lia.
Qed.

Lemma segment_case name off n f : (off, n) ∈ [(P_FLAGS, 4); (P_OFFSET, 8); (P_VADDR, 8); (P_FILESZ, 8); (P_MEMSZ, 8); (P_ALIGN, 8)] ->
  0 <= f ph < 2 ^ (8 * n) -> off <> P_MEMSZ -> ~ segment_ok size 0 (damage_phdr off (f ph) ph) ->
  case_refused (Case name (set_load off n f) size).
Proof.
  intros Hin Hv Hne Hno. rewrite <- (read_load off n) in Hno by done.
  assert (Hm : p_memsz (read_phdr (set_field img (a + off) n (f ph)) a) <> 0).
  { rewrite (read_load off n) by done. cbn [damage_phdr p_memsz]. rewrite (proj2 (Z.eqb_neq _ _)) by done. apply R. }
  rewrite !elem_of_cons in Hin. destruct_or! Hin; [..|by apply not_elem_of_nil in Hin]; injection Hin as -> ->;
    by apply load_case.
Qed.

Lemma first_load_set off n v : 4 <= off -> 0 <= n -> off + n <= PHDR_SIZE -> sc_first_load (set_field img (a + off) n v) = Some a.
Proof.
  intros Ho Hn Hl. destruct (first_load_spec img a R) as (j & Hj & Ea & _ & Ha & Hs & _). pose proof ref_size as Hsz.
  unfold EHDR_SIZE, PHDR_SIZE, SCRATCH_MAX in *. rewrite <- (ri_first _ _ R). unfold sc_first_load.
  rewrite read_ehdr_set by (unfold EHDR_SIZE; lia). f_equal. apply find_ext. intros i Hi%elem_of_range.
  destruct (ri_valid _ _ R) as (_ & _ & Ht & _). destruct (phdr_offset img i Hsz (ri_table _ _ R) Ht Hi) as (E1 & E2 & E3).
  unfold phdr_at, read_phdr, PHDR_SIZE in *. cbn [p_type]. rewrite E1 in *. unfold EHDR_SIZE in *. by rewrite field_set_other by lia.
Qed.

Lemma huge_case name : case_refused (Case name (fun sc => set_load P_FILESZ 8 (fun _ => 0xFFFFFFFFFFFFFFF0) sc ≫= set_load P_MEMSZ 8 (fun _ => 0xFFFFFFFFFFFFFFF0)) size).
Proof.
  destruct (first_load_spec img a R) as (_ & _ & _ & _ & Ha & Hs & Et). unfold EHDR_SIZE, PHDR_SIZE in *.
  set (v := 0xFFFFFFFFFFFFFFF0). set (sc := set_field (set_field img (a + P_FILESZ) 8 v) (a + P_MEMSZ) 8 v).
  assert (L1 : length (set_field img (a + P_FILESZ) 8 v) = length img) by (apply length_set_field; unfold P_FILESZ; lia).
  assert (L2 : length sc = length img) by (unfold sc; rewrite length_set_field; unfold P_MEMSZ; lia).
  assert (Ho : forall o m, 0 <= o -> 0 <= m -> o + m <= a + P_FILESZ -> field sc o m = field img o m).
  { intros. unfold sc, P_FILESZ, P_MEMSZ in *. by rewrite !field_set_other by lia. }
  assert (Hf : field sc (a + P_FILESZ) 8 = v).
  { unfold sc, P_FILESZ, P_MEMSZ in *. rewrite field_set_other by lia. apply field_set_same; [lia..|by vm_compute]. }
  assert (Hm : field sc (a + P_MEMSZ) 8 = v) by (apply field_set_same; [unfold P_MEMSZ; lia..|by vm_compute]).
  assert (Hb : Forall (fun b => 0 <= b < 256) sc) by apply set_field_bytes, set_field_bytes, R.
  unfold P_FILESZ, P_MEMSZ in *. apply (case_intro _ _ sc); [|exact L2|].
  - unfold set_load. rewrite (ri_first _ _ R). cbn [fmap option_fmap option_map mbind option_bind].
    by rewrite first_load_set by done.
  - apply segment_refused.
    + split; [exact Hb|lia].
    + unfold sc. by rewrite !read_ehdr_set by (unfold EHDR_SIZE; lia).
    + rewrite <- Et. cbn [read_phdr p_type]. by apply Ho; lia.
    + cbn [read_phdr p_memsz]. rewrite Hm. done.
    + intros [[_ Hfile] _ _ _ _ _]. cbn [read_phdr p_filesz p_offset] in Hfile. rewrite Hf in Hfile.
      pose proof (field_bound sc (a + 8) 8 Hb ltac:(done)). pose proof ref_size. unfold v, SCRATCH_MAX in *. lia.
Qed.

Lemma segment_cases : Forall case_refused (take 12 (drop 15 (cases size))).
Proof.
  pose proof ref_size as Hs. unfold EHDR_SIZE, SCRATCH_MAX in Hs.
  destruct image_segment as [F S N P L A]. pose proof (ri_align _ _ R) as A1. pose proof (ri_memsz _ _ R) as M1.
  assert (Hu : u64_phdr ph) by (repeat split; apply (field_bound img _ 8 (ri_bytes _ _ R)); done).
  destruct Hu as (Uo & Uv & Uf & Um & Ua). unfold vstart, vstop, USER_MIN_VADDR, USER_MAX_VADDR in *.
  assert (Ov : u64 (p_vaddr ph + 1) = p_vaddr ph + 1) by (apply u64_id; lia).
  repeat constructor; try exact (huge_case _); apply segment_case; try done; try (by repeat constructor); try apply u64_range;
    (intros [[F1 F2] S1 N1 P1 [L1 L2] A2]; unfold vstart, vstop, USER_MIN_VADDR, USER_MAX_VADDR in *;
     cbn [damage_phdr p_filesz p_memsz p_offset p_vaddr p_flags p_align Z.eqb Pos.eqb P_FLAGS P_OFFSET P_VADDR P_FILESZ P_MEMSZ P_ALIGN] in *).
  - rewrite u64_id in F1 by lia. lia.
  - rewrite u64_id in F2 by lia. lia.
  - lia.
  - lia.
  - lia.
  - lia.
  - unfold USER_STACK_TOP, USER_STACK_SIZE in *. lia.
  - done.
  - done.
  - destruct (A2 ltac:(done)) as (k & Hk & E & _). destruct (Z.eq_dec k 0) as [->|]; [done|].
    replace k with (Z.succ (k - 1)) in E by lia. rewrite Z.pow_succ_r in E by lia. lia.
  - rewrite Ov in *. destruct (A A1) as (k & Hk & E & E1). destruct (A2 A1) as (k' & Hk' & E' & E2).
    assert (Ek : 2 ^ k' = 2 ^ k) by congruence. rewrite Ek in E2. rewrite E in A1.
    assert (Hd : (p_vaddr ph + 1 - p_vaddr ph) mod 2 ^ k = 0) by (rewrite Zminus_mod, E2, <- E1, Z.sub_diag; by apply Z.mod_0_l; lia).
    replace (p_vaddr ph + 1 - p_vaddr ph) with 1 in Hd by lia. rewrite Z.mod_small in Hd by lia. done.
Qed.

(** No executable segment of the image reaches the kernel half or address 0. *)
Lemma entry_in_range v p : p ∈ loads (phdrs img eh) -> entry_in v p -> USER_MIN_VADDR <= v < USER_MAX_VADDR.
Proof.
  intros Hp [_ Hv]. destruct (ri_valid _ _ R) as (_ & _ & _ & [_ _ Hs _ _]).
  assert (Eb : vbase eh = 0) by (unfold vbase; by rewrite (ri_exec _ _ R)). rewrite Eb in Hs.
  rewrite Forall_forall in Hs. destruct (Hs p Hp) as [_ S N P _ _]. unfold vstart, vstop in *. lia.
Qed.

Lemma entry_case name v : 0 <= v < 2 ^ 64 -> ~ (USER_MIN_VADDR <= v < USER_MAX_VADDR) -> case_refused (Case name (set_ehdr E_ENTRY 8 v) size).
Proof.
  intros Hv Hr. pose proof ref_size. unfold EHDR_SIZE in *.
  apply (case_intro _ _ (set_field img E_ENTRY 8 v)); [done|apply length_set_field; unfold E_ENTRY; lia|].
  apply entry_refused; [done|]. intros (p & Hp & He)%Exists_exists. by apply Hr, (entry_in_range v p).
Qed.

Lemma entry_cases : Forall case_refused (drop 27 (cases size)).
Proof.
  repeat constructor; [apply entry_case; unfold USER_MIN_VADDR, USER_MAX_VADDR; lia..|].
  pose proof ref_size. unfold EHDR_SIZE in *.
  apply (case_intro _ _ (set_field img E_ENTRY 8 (u64 (p_vaddr ph + p_memsz ph + 0x8)))); [|apply length_set_field; unfold E_ENTRY; lia|].
  - unfold entry_past. by rewrite (ri_first _ _ R).
  - apply entry_refused; [apply u64_range|apply R].
Qed.

Lemma all_refused : Forall case_refused (cases size).
Proof.
  pose proof header_cases as H1. pose proof segment_cases as H2. pose proof entry_cases as H3. cbn [take drop cases] in *.
  rewrite (eq_refl : cases size = take 15 (cases size) ++ take 12 (drop 15 (cases size)) ++ drop 27 (cases size)).
  by rewrite !Forall_app.
Qed.

Lemma run_cases_pass l : forall n log, Forall case_refused l -> 0 <= n -> n + Z.of_nat (length l) < 2 ^ 32 ->
  run_cases img (0, n, log) l = Some (0, n + Z.of_nat (length l), log).
Proof.
  induction l as [|c l IH]; intros n log Hl Hn Hb; cbn [run_cases]; [by rewrite Z.add_0_r|].
  apply Forall_cons in Hl as [(sc & Hd & Ha) Hl]. unfold run_case, sc_reset. rewrite Hd. cbn [mbind option_bind].
  unfold expect_reject. rewrite Ha, app_nil_r. cbn [length] in Hb.
  change (u32 (0 + 0)) with 0. rewrite u32_id by lia. cbn [mbind option_bind]. rewrite IH by (done || lia).
  do 3 f_equal. cbn [length]. lia.
Qed.

End Cases.

(** The self-test of the loader never blames a sound loader.  For every reference
  image (a valid program at a fixed address whose header table lies behind its header,
  whose first PT_LOAD segment is not empty and has an alignment, and with no other
  executable segment right behind that one), each of the 30 damaged copies is refused,
  the counters reach 33 of 33, and the answer is 0 with a single message that passes. *)
Theorem elf_selftest_passes img a : reference_image img a ->
  elf_selftest img = Some (0, [(str "[ELF-TEST] %s: %u/%u validation cases" ++ [10; 13], [KStr (Some (str "PASS")); KInt 33; KInt 33])]).
Proof.
  intros R. unfold elf_selftest. rewrite (proj2 (Z.ltb_ge _ _)) by apply R.
  assert (Ha : accepted img = true).
  { unfold accepted. destruct (elf_validate_cases img (ri_bytes _ _ R)) as [[_ ->]|[Hn _]]; [|done|by destruct Hn; apply R].
    pose proof (ri_size _ _ R). unfold SCRATCH_MAX in *. lia. }
  rewrite Ha, (run_cases_pass img) by (done || by apply all_refused with a). reflexivity.
Qed.

Lemma elf_selftest_passes_witness : reference_image demo_elf EHDR_SIZE /\ elf_selftest demo_elf =
  Some (0, [(str "[ELF-TEST] %s: %u/%u validation cases" ++ [10; 13], [KStr (Some (str "PASS")); KInt 33; KInt 33])]).
Proof.
  assert (R : reference_image demo_elf EHDR_SIZE).
  { split.
    - apply bytesb_ok. vm_compute. reflexivity.
    - by vm_compute.
    - destruct (elf_validate_cases demo_elf (bytesb_ok demo_elf ltac:(by vm_compute)) ltac:(by vm_compute)) as [[H _]|[_ H]]; [exact H|].
      vm_compute in H. discriminate H.
    - vm_compute. reflexivity.
    - by vm_compute.
    - vm_compute. reflexivity.
    - by vm_compute.
    - by vm_compute.
    - intros (p & Hp & [_ He])%Exists_exists. apply list_elem_of_filter in Hp as [_ Hp].
      assert (El : phdrs demo_elf (read_ehdr demo_elf) = [Phdr 1 5 0 0x400000 0x400000 122 130 4096]) by (vm_compute; reflexivity).
      rewrite El in Hp. apply list_elem_of_singleton in Hp as ->. vm_compute in He. by destruct He as [_ He]. }
  split; [exact R|exact (elf_selftest_passes demo_elf EHDR_SIZE R)].
Defined.
