(* ===== verification/Rtld.v ===== *)
(** * The dynamic linker ([userland/ld.so/rtld.c], [rtld.h])

  The interpreter the kernel starts in front of a dynamically linked program.  It
  reads the initial stack, finds the dynamic section of the program and applies
  its relocations, then returns the entry point to jump to.  It runs in the memory
  of the process ([UserBytes]); what it writes to descriptor 1 is kept as the list
  of its [write] calls.  A run ends with a value, in [exit], with a fault, or
  (loops without a bound of their own take fuel) in [RSpin]. *)
From S2P Require Import Prelude Digits PhysMem UserWorld LibcMem Malloc MallocHeap Elf.

Definition R_X86_64_64 : Z := 1.
Definition R_X86_64_GLOB_DAT : Z := 6.
Definition R_X86_64_JUMP_SLOT : Z := 7.
Definition R_X86_64_RELATIVE : Z := 8.
Definition DT_NULL : Z := 0.
Definition DT_NEEDED : Z := 1.
Definition DT_PLTRELSZ : Z := 2.
Definition DT_STRTAB : Z := 5.
Definition DT_SYMTAB : Z := 6.
Definition DT_RELA : Z := 7.
Definition DT_RELASZ : Z := 8.
Definition DT_RELAENT : Z := 9.
Definition DT_JMPREL : Z := 23.
Definition SHN_UNDEF : Z := 0.

Definition ELF64_R_SYM (i : Z) : Z := u32 (Z.shiftr i 32).
Definition ELF64_R_TYPE (i : Z) : Z := u32 (Z.land i 0xFFFFFFFF).

(** The sizes of [Elf64_Phdr], [Elf64_Dyn], [Elf64_Sym] and [Elf64_Rela]. *)
Definition PHDR_SZ : Z := 56.
Definition DYN_SZ : Z := 16.
Definition SYM_SZ : Z := 24.
Definition RELA_SZ : Z := 24.

Definition NL : Z := 10.

(** What [rtld_main] keeps of the dynamic section. *)
Record dyninfo := Dyn {
  rela : Z; relasz : Z; relaent : Z; jmprel : Z; pltrelsz : Z; symtab : Z; strtab : Z; needed : Z
}.

Inductive rout (W A : Type) := RVal (x : A) (w : W) | RExit (code : Z) (w : W) | RFault | RSpin.
Arguments RVal {W A} x w.
Arguments RExit {W A} code w.
Arguments RFault {W A}.
Arguments RSpin {W A}.

Section Rtld.
Context {K : Type} `{UB : UserBytes K}.

Record rworld := RWorld { rmem : K; sent : list (list Z) }.

Definition RM (A : Type) : Type := rworld -> rout rworld A.
#[local] Instance RM_ret : MRet RM := fun A x w => RVal x w.
#[local] Instance RM_bind : MBind RM := fun A B f m w =>
  match m w with
  | RVal x w => f x w
  | RExit c w => RExit c w
  | RFault => RFault
  | RSpin => RSpin
  end.

(** ** Accesses and calls *)

(** A little-endian load of [n] bytes in a memory [m]. *)
Definition load (m : Z -> option Z) (n a : Z) : option Z := le_val <$> mapM (fun i => m (a + i)) (range 0 n).

Definition rd (n a : Z) : RM Z := fun w => match load (ubyte (rmem w)) n a with Some v => RVal v w | None => RFault end.

Definition wr (a v : Z) : RM unit := fun w =>
  match put_bytes (rmem w) a (le_bytes 8 v) with Some k => RVal tt (RWorld k (sent w)) | None => RFault end.

Definition rtld_write (l : list Z) : RM unit := fun w => RVal tt (RWorld (rmem w) (sent w ++ [l])).
Definition rtld_exit {A} (code : Z) : RM A := fun w => RExit code w.
Definition rtld_spin {A} : RM A := fun _ => RSpin.

(** [slen], with the bytes it has passed. *)
Fixpoint slen (fuel : nat) (s : Z) : RM (list Z) :=
  match fuel with
  | O => rtld_spin
  | S fuel => b ← rd 1 s; if b =? 0 then mret [] else l ← slen fuel (u64 (s + 1)); mret (b :: l)
  end.

(** [say] of a literal, and of a string of the program. *)
Definition say (l : list Z) : RM unit := rtld_write l.
Definition say_at (fuel : nat) (s : Z) : RM unit := l ← slen fuel s; rtld_write l.

Definition fail {A} (why : list Z) : RM A :=
  say (str "[rtld] fatal: ");; say why;; say [NL];; rtld_exit 127.

(** ** The auxiliary vector *)

(** [while ( *p) p++;] *)
Fixpoint skip_words (fuel : nat) (p : Z) : RM Z :=
  match fuel with
  | O => rtld_spin
  | S fuel => v ← rd 8 p; if v =? 0 then mret p else skip_words fuel (u64 (p + 8))
  end.

Definition auxv_of (fuel : nat) (frame : Z) : RM Z :=
  argc ← rd 8 frame;
  let p := u64 (frame + 8 + 8 * argc) in
  v ← rd 8 p;
  if negb (v =? 0) then mret 0
  else p ← skip_words fuel (u64 (p + 8)); mret (u64 (p + 8)).

Fixpoint aux_loop (fuel : nat) (a ty : Z) : RM (bool * Z) :=
  match fuel with
  | O => rtld_spin
  | S fuel =>
      t ← rd 8 a;
      if t =? AT_NULL then mret (false, 0)
      else if t =? ty then v ← rd 8 (u64 (a + 8)); mret (true, v)
      else aux_loop fuel (u64 (a + 16)) ty
  end.

(** [( *found, value)] *)
Definition auxv_get (fuel : nat) (auxv ty : Z) : RM (bool * Z) :=
  if auxv =? 0 then mret (false, 0) else aux_loop fuel auxv ty.

(** ** Relocation *)

Definition resolve (fuel : nat) (symtab strtab idx base : Z) : RM Z :=
  let s := u64 (symtab + SYM_SZ * idx) in
  shndx ← rd 2 (u64 (s + 6));
  if shndx =? SHN_UNDEF then
    say (str "[rtld] undefined symbol: ");;
    name ← rd 4 s;
    say_at fuel (u64 (strtab + name));;
    say [NL];;
    fail (str "unresolved import (no DSO loading yet)")
  else v ← rd 8 (u64 (s + 8)); mret (u64 (base + v)).

(** [counts[i]++] *)
Definition count (i : nat) (counts : list Z) : list Z := alter (fun c => u32 (c + 1)) i counts.

(** The cases that look a symbol up. *)
Definition with_symbols {A} (symtab strtab : Z) (why : list Z) (m : RM A) : RM A :=
  if (symtab =? 0) || (strtab =? 0) then fail why else m.

(** One turn of the loop of [apply_rela], [r] the entry. *)
Definition apply_one (fuel : nat) (r symtab strtab base : Z) (counts : list Z) : RM (list Z) :=
  off ← rd 8 r;
  info ← rd 8 (u64 (r + 8));
  let target := u64 (base + off) in
  let type := ELF64_R_TYPE info in
  let sym := ELF64_R_SYM info in
  if type =? R_X86_64_RELATIVE then
    a ← rd 8 (u64 (r + 16)); wr target (u64 (base + a));; mret (count 0 counts)
  else if type =? R_X86_64_GLOB_DAT then
    with_symbols symtab strtab (str "GLOB_DAT without a symbol table")
      (v ← resolve fuel symtab strtab sym base; wr target v;; mret (count 1 counts))
  else if type =? R_X86_64_JUMP_SLOT then
    with_symbols symtab strtab (str "JUMP_SLOT without a symbol table")
      (v ← resolve fuel symtab strtab sym base; wr target v;; mret (count 2 counts))
  else if type =? R_X86_64_64 then
    with_symbols symtab strtab (str "R_X86_64_64 without a symbol table")
      (v ← resolve fuel symtab strtab sym base; a ← rd 8 (u64 (r + 16)); wr target (u64 (v + a));; mret (count 3 counts))
  else fail (str "unsupported relocation type").

Fixpoint rela_loop (n fuel : nat) (rela bytes ent off symtab strtab base : Z) (counts : list Z) : RM (list Z) :=
  match n with
  | O => rtld_spin
  | S n =>
      if u64 (off + ent) <=? bytes then
        counts ← apply_one fuel (u64 (rela + off)) symtab strtab base counts;
        rela_loop n fuel rela bytes ent (u64 (off + ent)) symtab strtab base counts
      else mret counts
  end.

Definition apply_rela (fuel : nat) (rela bytes ent symtab strtab base : Z) (counts : list Z) : RM (list Z) :=
  if (rela =? 0) || (bytes =? 0) then mret counts
  else rela_loop fuel fuel rela bytes (if ent =? 0 then RELA_SZ else ent) 0 symtab strtab base counts.

(** ** [rtld_main] *)

(** The search for [PT_DYNAMIC]: the address of the section, 0 when there is none. *)
Fixpoint find_dyn (fuel : nat) (ph phnum i base : Z) : RM Z :=
  match fuel with
  | O => rtld_spin
  | S fuel =>
      if i <? phnum then
        let p := u64 (ph + PHDR_SZ * i) in
        t ← rd 4 p;
        if t =? PT_DYNAMIC then v ← rd 8 (u64 (p + 16)); mret (u64 (base + v))
        else find_dyn fuel ph phnum (i + 1) base
      else mret 0
  end.

Definition dyn_zero : dyninfo := Dyn 0 0 0 0 0 0 0 0.

(** The [switch] on the tag. *)
Definition dyn_step (base : Z) (d : dyninfo) (tv : Z * Z) : dyninfo :=
  let '(tag, val) := tv in
  let '(Dyn r rs re j ps sy st nd) := d in
  if tag =? DT_RELA then Dyn (u64 (base + val)) rs re j ps sy st nd
  else if tag =? DT_RELASZ then Dyn r val re j ps sy st nd
  else if tag =? DT_RELAENT then Dyn r rs val j ps sy st nd
  else if tag =? DT_JMPREL then Dyn r rs re (u64 (base + val)) ps sy st nd
  else if tag =? DT_PLTRELSZ then Dyn r rs re j val sy st nd
  else if tag =? DT_SYMTAB then Dyn r rs re j ps (u64 (base + val)) st nd
  else if tag =? DT_STRTAB then Dyn r rs re j ps sy (u64 (base + val)) nd
  else if tag =? DT_NEEDED then Dyn r rs re j ps sy st (u32 (nd + 1))
  else d.

Fixpoint dyn_walk (fuel : nat) (d base : Z) (acc : dyninfo) : RM dyninfo :=
  match fuel with
  | O => rtld_spin
  | S fuel =>
      tag ← rd 8 d;
      if tag =? DT_NULL then mret acc
      else val ← rd 8 (u64 (d + 8)); dyn_walk fuel (u64 (d + DYN_SZ)) base (dyn_step base acc (tag, val))
  end.

(** [do { tmp[t++] = '0' + v % 10; v /= 10; } while (v);] *)
Fixpoint tmp_loop (fuel : nat) (v : Z) : list Z :=
  match fuel with
  | O => []
  | S fuel => (48 + v mod 10) :: (if v / 10 =? 0 then [] else tmp_loop fuel (v / 10))
  end.

(** The line built in [buf], with [/] (47) between the counts; the fuel is the size
  of [tmp]. *)
Definition count_text (k : nat) (v : Z) : list Z := reverse (tmp_loop 12 v) ++ [if (k =? 3)%nat then NL else 47].
Definition summary (counts : list Z) : list Z := str "[rtld] relocated: " ++ concat (imap count_text counts).

Definition NEEDED_WARNING : list Z :=
  str "[rtld] warning: DT_NEEDED present but DSO loading is not implemented; imports must be resolvable in-image" ++ [NL].
Definition STATIC_NOTE : list Z := str "[rtld] static image, nothing to relocate" ++ [NL].

(** From the dynamic section on. *)
Definition relocate (fuel : nat) (dyn base entry : Z) : RM Z :=
  d ← dyn_walk fuel dyn base dyn_zero;
  (if negb (needed d =? 0) then say NEEDED_WARNING else mret tt);;
  counts ← apply_rela fuel (rela d) (relasz d) (relaent d) (symtab d) (strtab d) base [0; 0; 0; 0];
  counts ← apply_rela fuel (jmprel d) (pltrelsz d) (relaent d) (symtab d) (strtab d) base counts;
  rtld_write (summary counts);;
  mret entry.

Definition rtld_main (fuel : nat) (frame : Z) : RM Z :=
  auxv ← auxv_of fuel frame;
  if auxv =? 0 then fail (str "malformed initial stack (no auxv)")
  else
    '(have_phdr, phdr_va) ← auxv_get fuel auxv AT_PHDR;
    '(have_phnum, phnum) ← auxv_get fuel auxv AT_PHNUM;
    '(have_entry, entry) ← auxv_get fuel auxv AT_ENTRY;
    '(have_base, base) ← auxv_get fuel auxv AT_BASE;
    if negb have_phdr || negb have_phnum then fail (str "auxv lacks AT_PHDR/AT_PHNUM")
    else if negb have_entry || (entry =? 0) then fail (str "auxv lacks AT_ENTRY")
    else if negb have_base then fail (str "auxv lacks AT_BASE")
    else
      dyn ← find_dyn fuel phdr_va phnum 0 base;
      if dyn =? 0 then say STATIC_NOTE;; mret entry
      else relocate fuel dyn base entry.
End Rtld.
