(* ===== verification/RtldSpec.v ===== *)
(** * What the dynamic linker does to a program

  The tables of the program (its initial stack, program headers, dynamic section,
  relocations, symbols) are a partial memory [m] that the process memory extends
  and the relocation targets avoid.  The linker then either applies every
  relocation, changes nothing else and returns the entry point, or stops the
  process at the first relocation it refuses.  What the tables mean (tags, types,
  sizes, the last entry of a tag) is stated with the numbers of the ELF format,
  not with the linker's functions. *)
From S2P Require Import Prelude Digits PhysMem UserWorld LibcMem Malloc MallocHeap Elf Rtld.

(** ** Reading the tables *)

Definition view : Type := Z -> option Z.

(** 64-bit words from [a] on. *)
Definition words (m : view) (a : Z) (l : list Z) : Prop :=
  forall i v, l !! i = Some v -> load m 8 (u64 (a + 8 * Z.of_nat i)) = Some v.

Definition pairs (l : list (Z * Z)) : list Z := concat ((fun tv => [tv.1; tv.2]) <$> l).

Lemma u64_add_l a b : u64 (u64 a + b) = u64 (a + b).
Proof. unfold u64. by rewrite Zplus_mod_idemp_l. Qed.

Lemma u64_add_r a b : u64 (a + u64 b) = u64 (a + b).
Proof. unfold u64. by rewrite Zplus_mod_idemp_r. Qed.

Lemma u64_idem a : u64 (u64 a) = u64 a.
Proof. unfold u64. by rewrite Zmod_mod. Qed.

Lemma words_u64 m a l : words m (u64 a) l <-> words m a l.
Proof. unfold words. by setoid_rewrite u64_add_l. Qed.

Lemma words_cons m a v l : words m a (v :: l) <-> load m 8 (u64 a) = Some v /\ words m (a + 8) l.
Proof.
  unfold words. split.
  - intros H. split; [rewrite <- (H 0%nat v eq_refl); do 2 f_equal; lia|].
    intros i x Hi. rewrite <- (H (S i) x Hi). do 2 f_equal. lia.
  - intros [H0 H] [|i] x Hi; cbn in Hi.
    + injection Hi as <-. rewrite <- H0. do 2 f_equal. lia.
    + rewrite <- (H i x Hi). do 2 f_equal. lia.
Qed.

Lemma words_app m a l l' : words m a (l ++ l') <-> words m a l /\ words m (a + 8 * Z.of_nat (length l)) l'.
Proof.
  revert a. induction l as [|v l IH]; intros a; cbn [app length].
  - split; [|intros [_ H]]; [intros H; split; [intros ? ? [=]|]|]; by replace (a + 8 * Z.of_nat 0) with a in * by lia.
  - rewrite !words_cons, IH. replace (a + 8 * Z.of_nat (S (length l))) with (a + 8 + 8 * Z.of_nat (length l)) by lia. tauto.
Qed.

(** The first pair with a given type. *)
Fixpoint aux_find (l : list (Z * Z)) (ty : Z) : bool * Z :=
  match l with
  | [] => (false, 0)
  | (t, v) :: l => if t =? ty then (true, v) else aux_find l ty
  end.

(** Program headers: their types and addresses. *)
Definition phdrs_at (m : view) (ph : Z) (phs : list (Z * Z)) : Prop :=
  forall i t v, phs !! i = Some (t, v) ->
    load m 4 (u64 (ph + 56 * Z.of_nat i)) = Some t /\ load m 8 (u64 (ph + 56 * Z.of_nat i + 16)) = Some v.

Fixpoint dyn_addr (base : Z) (phs : list (Z * Z)) : Z :=
  match phs with
  | [] => 0
  | (t, v) :: phs => if t =? 2 then u64 (base + v) else dyn_addr base phs
  end.

(** A relocation entry and a table of them. *)
Record rel := Rel { r_offset : Z; r_info : Z; r_addend : Z }.

Definition table_at (m : view) (t ent bytes : Z) (rels : list rel) : Prop :=
  if (t =? 0) || (bytes =? 0) then rels = []
  else
    let e := if ent =? 0 then 24 else ent in
    0 < e /\ 0 <= bytes /\ bytes + e < 2 ^ 64 /\ bytes / e = Z.of_nat (length rels) /\
    forall i r, rels !! i = Some r -> words m (t + e * Z.of_nat i) [r_offset r; r_info r; r_addend r].

(** A NUL-terminated string. *)
Fixpoint string_at (m : view) (a : Z) (l : list Z) : Prop :=
  match l with
  | [] => load m 1 (u64 a) = Some 0
  | b :: l => load m 1 (u64 a) = Some b /\ b <> 0 /\ string_at m (a + 1) l
  end.

(** ** What a relocation asks for *)

Section Plan.
Context (m : view) (symtab strtab base : Z).

Definition sym_defined (idx v : Z) : Prop :=
  exists x, load m 2 (u64 (symtab + 24 * idx + 6)) = Some x /\ x <> 0 /\
    load m 8 (u64 (symtab + 24 * idx + 8)) = Some v.

Definition sym_undefined (idx : Z) (name : list Z) : Prop :=
  load m 2 (u64 (symtab + 24 * idx + 6)) = Some 0 /\
  exists n, load m 4 (u64 (symtab + 24 * idx)) = Some n /\ string_at m (strtab + n) name.

(** The type and the symbol of an entry. *)
Definition r_type (r : rel) : Z := r_info r mod 2 ^ 32.
Definition r_sym (r : rel) : Z := (r_info r / 2 ^ 32) mod 2 ^ 32.

Lemma r_type_eq r : ELF64_R_TYPE (r_info r) = r_type r.
Proof. unfold ELF64_R_TYPE, r_type, u32. change 0xFFFFFFFF with (Z.ones 32). rewrite Z.land_ones by lia. by rewrite Z.mod_mod. Qed.

Lemma r_sym_eq r : ELF64_R_SYM (r_info r) = r_sym r.
Proof. unfold ELF64_R_SYM, r_sym, u32. by rewrite Z.shiftr_div_pow2. Qed.

(** Which counter a type has, and whether it adds the addend: GLOB_DAT (6),
  JUMP_SLOT (7), 64 (1). *)
Definition sym_kind (ty : Z) : option (nat * bool) :=
  if ty =? 6 then Some (1%nat, false)
  else if ty =? 7 then Some (2%nat, false)
  else if ty =? 1 then Some (3%nat, true)
  else None.

Lemma sym_kind_not_relative ty c : sym_kind ty = Some c -> (ty =? 8) = false.
Proof. destruct (Z.eqb_spec ty 8) as [->|]; [by vm_compute|done]. Qed.

Definition target (r : rel) : Z := u64 (base + r_offset r).

(** The value the ABI prescribes: [B + A] for RELATIVE (8), [S], [S + A]. *)
Inductive prescribes (r : rel) : nat -> Z -> Prop :=
  | pr_relative : r_type r = 8 -> prescribes r 0 (u64 (base + r_addend r))
  | pr_symbol c add v : sym_kind (r_type r) = Some (c, add) -> symtab <> 0 -> strtab <> 0 ->
      sym_defined (r_sym r) v ->
      prescribes r c (u64 (base + v + (if add then r_addend r else 0))).

Definition fatal (why : list Z) : list (list Z) := [str "[rtld] fatal: "; why; [NL]].

Definition no_symbols (c : nat) : list Z :=
  match c with
  | 1%nat => str "GLOB_DAT without a symbol table"
  | 2%nat => str "JUMP_SLOT without a symbol table"
  | _ => str "R_X86_64_64 without a symbol table"
  end.

(** Why a relocation is refused, with the messages. *)
Inductive refused (r : rel) : list (list Z) -> Prop :=
  | rf_type : r_type r <> 8 -> sym_kind (r_type r) = None ->
      refused r (fatal (str "unsupported relocation type"))
  | rf_tables c add : sym_kind (r_type r) = Some (c, add) -> symtab = 0 \/ strtab = 0 ->
      refused r (fatal (no_symbols c))
  | rf_undefined c add name : sym_kind (r_type r) = Some (c, add) -> symtab <> 0 -> strtab <> 0 ->
      sym_undefined (r_sym r) name ->
      refused r ([str "[rtld] undefined symbol: "; name; [NL]] ++ fatal (str "unresolved import (no DSO loading yet)")).

(** A patch: the counter, the target and the value. *)
Definition patch : Type := nat * (Z * Z).

(** The patches of a table, up to the first refused relocation. *)
Inductive planned : list rel -> list patch -> option (list (list Z)) -> Prop :=
  | pl_end : planned [] [] None
  | pl_apply r c v rels ps stop : prescribes r c v -> planned rels ps stop -> planned (r :: rels) ((c, (target r, v)) :: ps) stop
  | pl_stop r rels msgs : refused r msgs -> planned (r :: rels) [] (Some msgs).

Lemma planned_app l1 l2 ps stop : planned (l1 ++ l2) ps stop ->
  (exists ps1 ps2, planned l1 ps1 None /\ planned l2 ps2 stop /\ ps = ps1 ++ ps2) \/
  exists msgs, stop = Some msgs /\ planned l1 ps stop.
Proof.
  revert ps. induction l1 as [|r l1 IH]; intros ps H; cbn [app] in H.
  - left. exists [], ps. split_and!; [constructor|done|done].
  - inversion H as [|? c v ? ps' ? Hv Hp|? ? msgs Hr]; subst.
    + destruct (IH _ Hp) as [(ps1 & ps2 & H1 & H2 & ->)|(msgs & -> & H1)]; [left|right].
      * exists ((c, (target r, v)) :: ps1), ps2. split_and!; [by constructor|done|done].
      * exists msgs. split; [done|by constructor].
    + right. exists msgs. split; [done|by constructor].
Qed.
End Plan.

Definition counted (ps : list patch) (counts : list Z) : list Z := foldl (fun cs p => count p.1 cs) counts ps.

(** ** Running the code *)

Section Run.
Context {K : Type} {UB : UserBytes K} {rw : K -> Z -> Prop} {env : K -> K -> Prop} {UL : UserBytesLaws K rw env}.
Context (m : view).

#[local] Existing Instances RM_ret RM_bind.
#[local] Notation RM := (@RM K).

(** The process memory extends [m]. *)
Definition extends (k : K) : Prop := forall x b, m x = Some b -> ubyte k x = Some b.

Lemma load_extends k n a v : extends k -> load m n a = Some v -> load (ubyte k) n a = Some v.
Proof.
  intros Hs. unfold load. intros (l & El & ->)%fmap_Some. apply mapM_Some in El.
  apply fmap_Some. exists l. split; [|done]. apply mapM_Some. eapply Forall2_impl; [exact El|]. intros x y. apply Hs.
Qed.

Lemma rd_val w n a v : extends (rmem w) -> load m n a = Some v -> rd n a w = RVal v w.
Proof. intros Hs Hl. unfold rd. by rewrite (load_extends _ _ _ _ Hs Hl). Qed.

Lemma bind_val {A B} (x : RM A) (f : A -> RM B) w a w' : x w = RVal a w' -> (x ≫= f) w = f a w'.
Proof. intros E. unfold mbind, RM_bind. by rewrite E. Qed.

Lemma bind_exit {A B} (x : RM A) (f : A -> RM B) w c w' : x w = RExit c w' -> (x ≫= f) w = RExit c w'.
Proof. intros E. unfold mbind, RM_bind. by rewrite E. Qed.

Lemma bind_assoc {A B C} (x : RM A) (f : A -> RM B) (g : B -> RM C) w : ((x ≫= f) ≫= g) w = (x ≫= fun a => f a ≫= g) w.
Proof. unfold mbind, RM_bind. by destruct (x w). Qed.

Lemma bind_rd {B} (f : Z -> RM B) w n a v : extends (rmem w) -> load m n a = Some v -> (rd n a ≫= f) w = f v w.
Proof. intros Hs Hl. by apply bind_val, rd_val. Qed.

Lemma fail_exit {A} why w : (fail why : RM A) w = RExit 127 (RWorld (rmem w) (sent w ++ fatal why)).
Proof. unfold fail, say, rtld_write, rtld_exit, fatal, mbind, RM_bind. cbn [rmem sent]. by rewrite <- !app_assoc. Qed.

(** ** The initial stack *)

Lemma skip_words_spec fuel : forall p envp rest w, extends (rmem w) -> words m p (envp ++ 0 :: rest) -> Forall (fun v => v <> 0) envp ->
  (length envp < fuel)%nat -> skip_words fuel (u64 p) w = RVal (u64 (p + 8 * Z.of_nat (length envp))) w.
Proof.
  induction fuel as [|fuel IH]; intros p envp rest w Hs Hw He Hf; [lia|]. cbn [skip_words].
  destruct envp as [|v envp]; cbn [app length] in *; apply words_cons in Hw as [H0 Hw].
  - rewrite (bind_rd _ w 8 _ 0) by done. cbn. do 2 f_equal. lia.
  - apply Forall_cons in He as [Hv He]. rewrite (bind_rd _ w 8 _ v) by done. rewrite (proj2 (Z.eqb_neq _ _) Hv).
    rewrite u64_add_l, (IH (p + 8) envp rest) by (done || lia). do 2 f_equal. lia.
Qed.

Lemma auxv_of_spec fuel frame argv envp rest w : extends (rmem w) -> 0 <= frame < 2 ^ 64 ->
  words m frame (Z.of_nat (length argv) :: argv ++ 0 :: envp ++ 0 :: rest) -> Forall (fun v => v <> 0) envp -> (length envp < fuel)%nat ->
  auxv_of fuel frame w = RVal (u64 (frame + 8 * (3 + Z.of_nat (length argv) + Z.of_nat (length envp)))) w.
Proof.
  intros Hs Hfr Hw He Hf. unfold auxv_of. apply words_cons in Hw as [H0 Hw]. rewrite u64_id in H0 by done.
  rewrite (bind_rd _ w 8 _ _ Hs H0). cbv zeta. apply words_app in Hw as [_ Hw]. apply words_cons in Hw as [H1 Hw].
  rewrite (bind_rd _ w 8 _ 0) by done. cbn [Z.eqb negb].
  erewrite bind_val; [|rewrite u64_add_l; by eapply skip_words_spec]. unfold mret, RM_ret. rewrite u64_add_l. do 2 f_equal. lia.
Qed.

Lemma aux_loop_spec fuel ty : forall a l rest w, extends (rmem w) -> words m a (pairs l ++ AT_NULL :: rest) ->
  Forall (fun tv => tv.1 <> AT_NULL) l -> (length l < fuel)%nat -> aux_loop fuel (u64 a) ty w = RVal (aux_find l ty) w.
Proof.
  induction fuel as [|fuel IH]; intros a l rest w Hs Hw Hl Hf; [lia|]. cbn [aux_loop].
  destruct l as [|[t v] l]; cbn [pairs fmap list_fmap concat app length aux_find fst snd] in *.
  - apply words_cons in Hw as [H0 _]. by rewrite (bind_rd _ w 8 _ _ Hs H0).
  - apply Forall_cons in Hl as [Ht Hl]. apply words_cons in Hw as [H0 Hw]. apply words_cons in Hw as [H1 Hw]. rewrite (bind_rd _ w 8 _ _ Hs H0).
    cbn [fst] in Ht. rewrite (proj2 (Z.eqb_neq _ _) Ht). rewrite !u64_add_l. destruct (t =? ty).
    + by rewrite (bind_rd _ w 8 _ _ Hs H1).
    + replace (a + 16) with (a + 8 + 8) by lia. by apply (IH _ _ rest); [..|lia].
Qed.

(** ** The program headers and the dynamic section *)

Lemma find_dyn_spec fuel base ph phs : forall i l w, extends (rmem w) -> phdrs_at m ph phs -> phs = i ++ l -> (length l < fuel)%nat ->
  find_dyn fuel ph (Z.of_nat (length phs)) (Z.of_nat (length i)) base w = RVal (dyn_addr base l) w.
Proof.
  induction fuel as [|fuel IH]; intros i l w Hs Hp E Hf; [lia|]. cbn [find_dyn]. unfold PHDR_SZ, PT_DYNAMIC.
  destruct l as [|[t v] l]; cbn [dyn_addr length] in *.
  - rewrite E, app_nil_r, (proj2 (Z.ltb_ge _ _)) by lia. done.
  - assert (Hlen : length phs = (length i + S (length l))%nat) by (by rewrite E, length_app).
    rewrite (proj2 (Z.ltb_lt _ _)) by lia. destruct (Hp (length i) t v) as [H0 H1]; [by rewrite E, list_lookup_middle|]. cbv zeta.
    rewrite (bind_rd _ w 4 _ _ Hs H0). destruct (t =? 2).
    + rewrite u64_add_l. by rewrite (bind_rd _ w 8 _ _ Hs H1).
    + replace (Z.of_nat (length i) + 1) with (Z.of_nat (length (i ++ [(t, v)]))) by (rewrite length_app; cbn; lia).
      apply IH; [done|done|by rewrite <- app_assoc|lia].
Qed.

Lemma dyn_walk_spec fuel base : forall d l rest acc w, extends (rmem w) -> words m d (pairs l ++ DT_NULL :: rest) ->
  Forall (fun tv => tv.1 <> DT_NULL) l -> (length l < fuel)%nat ->
  dyn_walk fuel (u64 d) base acc w = RVal (foldl (dyn_step base) acc l) w.
Proof.
  induction fuel as [|fuel IH]; intros d l rest acc w Hs Hw Hl Hf; [lia|]. cbn [dyn_walk].
  destruct l as [|[t v] l]; cbn [pairs fmap list_fmap concat app length foldl fst snd] in *.
  - apply words_cons in Hw as [H0 _]. by rewrite (bind_rd _ w 8 _ _ Hs H0).
  - apply Forall_cons in Hl as [Ht Hl]. apply words_cons in Hw as [H0 Hw]. apply words_cons in Hw as [H1 Hw]. rewrite (bind_rd _ w 8 _ _ Hs H0).
    cbn [fst] in Ht. rewrite (proj2 (Z.eqb_neq _ _) Ht), !u64_add_l, (bind_rd _ w 8 _ _ Hs H1). unfold DYN_SZ.
    replace (d + 16) with (d + 8 + 8) by lia. by apply (IH _ _ rest); [..|lia].
Qed.
(** ** One relocation *)

Lemma slen_spec fuel : forall a l w, extends (rmem w) -> string_at m a l -> (length l < fuel)%nat -> slen fuel (u64 a) w = RVal l w.
Proof.
  induction fuel as [|fuel IH]; intros a l w Hs Hl Hf; [lia|]. cbn [slen]. destruct l as [|b l]; cbn [string_at length] in *.
  - by rewrite (bind_rd _ w 1 _ 0).
  - destruct Hl as (H0 & Hb & Hl). rewrite (bind_rd _ w 1 _ b), (proj2 (Z.eqb_neq _ _) Hb), u64_add_l by done.
    erewrite bind_val; [done|]. apply IH; [done|done|lia].
Qed.

Lemma say_at_spec fuel a l w : extends (rmem w) -> string_at m a l -> (length l < fuel)%nat ->
  say_at fuel (u64 a) w = RVal tt (RWorld (rmem w) (sent w ++ [l])).
Proof. intros Hs Hl Hf. unfold say_at. by rewrite (bind_val _ _ w l w) by by apply slen_spec. Qed.

Lemma resolve_defined fuel sy st idx base v w : extends (rmem w) -> sym_defined m sy idx v ->
  resolve fuel sy st idx base w = RVal (u64 (base + v)) w.
Proof.
  intros Hs (x & H1 & Hx & H2). unfold resolve, SYM_SZ, SHN_UNDEF. cbv zeta. rewrite !u64_add_l, (bind_rd _ w 2 _ x) by done.
  rewrite (proj2 (Z.eqb_neq _ _) Hx). by rewrite (bind_rd _ w 8 _ v).
Qed.

Lemma resolve_undefined fuel sy st idx base name w : extends (rmem w) -> sym_undefined m sy st idx name -> (length name < fuel)%nat ->
  resolve fuel sy st idx base w = RExit 127 (RWorld (rmem w) (sent w ++ [str "[rtld] undefined symbol: "; name; [NL]] ++
    fatal (str "unresolved import (no DSO loading yet)"))).
Proof.
  intros Hs (H1 & n & H2 & Hn) Hf. unfold resolve, SYM_SZ, SHN_UNDEF. cbv zeta. rewrite !u64_add_l, (bind_rd _ w 2 _ 0) by done. cbn [Z.eqb].
  unfold say at 1. erewrite bind_val; [|reflexivity]. rewrite (bind_rd _ _ 4 _ n) by done.
  erewrite bind_val; [|eapply say_at_spec; [done|exact Hn|done]]. erewrite bind_val; [|reflexivity]. cbn [rmem sent]. rewrite fail_exit. cbn [rmem sent].
  by rewrite <- !app_assoc.
Qed.

Definition in_word (a x : Z) : Prop := a <= x < a + 8.

Lemma extends_touch k k' a : extends k -> touch (env := env) k k' (in_word a) -> (forall x, in_word a x -> m x = None) -> extends k'.
Proof.
  intros Hs [_ Ht] Ho x b Hx. rewrite Ht; [by apply Hs|]. intros Hin. by rewrite (Ho x Hin) in Hx.
Qed.

(** The target of a relocation may be written and holds no table. *)
Definition may_patch (k : K) (a : Z) : Prop := rw_range (rw := rw) k a 8 /\ forall x, in_word a x -> m x = None.

Lemma wr_spec k log a v : extends k -> may_patch k a -> 0 <= v < 2 ^ 64 -> exists k',
  wr a v (RWorld k log) = RVal tt (RWorld k' log) /\ touch (env := env) k k' (in_word a) /\ load64 k' a = Some v /\ extends k'.
Proof.
  intros Hs [Hw Ho] Hv. destruct (put_word k a v Hw Hv) as (k' & E & Ht & Hl). exists k'. unfold wr. cbn [rmem sent]. rewrite E.
  split_and!; [done|done|done|by eapply extends_touch].
Qed.

Section Table.
Context (sy st base : Z) (fuel : nat).

Lemma apply_one_spec r a c v k log counts : extends k -> words m a [r_offset r; r_info r; r_addend r] -> prescribes m sy st base r c v ->
  may_patch k (target base r) -> exists k',
  apply_one fuel (u64 a) sy st base counts (RWorld k log) = RVal (count c counts) (RWorld k' log) /\
  touch (env := env) k k' (in_word (target base r)) /\ load64 k' (target base r) = Some v /\ extends k'.
Proof.
  intros Hs Hr Hv Hp. apply words_cons in Hr as [H0 Hr]. apply words_cons in Hr as [H1 Hr]. apply words_cons in Hr as [H2 _].
  replace (a + 8 + 8) with (a + 16) in H2 by lia.
  assert (Hvr : 0 <= v < 2 ^ 64) by (destruct Hv; apply u64_range).
  destruct (wr_spec k log (target base r) v Hs Hp Hvr) as (k' & E & Hk'). exists k'. split; [|done].
  unfold apply_one. rewrite !u64_add_l, (bind_rd _ (RWorld k log) 8 _ _ Hs H0), (bind_rd _ (RWorld k log) 8 _ _ Hs H1). cbv zeta.
  fold (target base r). rewrite r_type_eq, r_sym_eq. unfold R_X86_64_RELATIVE, R_X86_64_GLOB_DAT, R_X86_64_JUMP_SLOT, R_X86_64_64. destruct Hv as [Ht|c add v Hk Hsy Hst Hd].
  - rewrite Ht, Z.eqb_refl. rewrite (bind_rd _ (RWorld k log) 8 _ _ Hs H2). by erewrite bind_val.
  - pose proof (sym_kind_not_relative _ _ Hk) as Hn.
    rewrite Hn. unfold sym_kind in Hk. unfold with_symbols. rewrite (proj2 (Z.eqb_neq _ _) Hsy), (proj2 (Z.eqb_neq _ _) Hst). cbn [orb].
    repeat (case_if_in Hk; [injection Hk as <- <-|]); [..|done].
    1, 2: rewrite (bind_val _ _ _ (u64 (base + v)) (RWorld k log)) by (by apply resolve_defined); rewrite Z.add_0_r in E; by erewrite bind_val.
    rewrite (bind_val _ _ _ (u64 (base + v)) (RWorld k log)) by (by apply resolve_defined).
    rewrite (bind_rd _ (RWorld k log) 8 _ _ Hs H2), u64_add_l. by erewrite bind_val.
Qed.

Lemma apply_one_refused r a msgs k log counts : extends k -> words m a [r_offset r; r_info r; r_addend r] -> refused m sy st r msgs ->
  (Forall (fun l => (length l < fuel)%nat) msgs) ->
  apply_one fuel (u64 a) sy st base counts (RWorld k log) = RExit 127 (RWorld k (log ++ msgs)).
Proof.
  intros Hs Hr Hv Hf. apply words_cons in Hr as [H0 Hr]. apply words_cons in Hr as [H1 Hr].
  unfold apply_one. rewrite !u64_add_l, (bind_rd _ (RWorld k log) 8 _ _ Hs H0), (bind_rd _ (RWorld k log) 8 _ _ Hs H1). cbv zeta.
  rewrite r_type_eq, r_sym_eq. unfold R_X86_64_RELATIVE, R_X86_64_GLOB_DAT, R_X86_64_JUMP_SLOT, R_X86_64_64.
  destruct Hv as [Hn Hk|c add Hk Hz|c add name Hk Hsy Hst Hu].
  - rewrite (proj2 (Z.eqb_neq _ _) Hn). unfold sym_kind in Hk. repeat (case_if_in Hk; [done|]). apply fail_exit.
  - pose proof (sym_kind_not_relative _ _ Hk) as Hn.
    rewrite Hn. unfold sym_kind in Hk. unfold with_symbols.
    assert (Hz' : (sy =? 0) || (st =? 0) = true) by (apply orb_true_iff; rewrite !Z.eqb_eq; tauto). rewrite Hz'.
    repeat (case_if_in Hk; [injection Hk as <- <-; apply fail_exit|]). done.
  - pose proof (sym_kind_not_relative _ _ Hk) as Hn.
    apply Forall_app in Hf as [Hf _]. apply Forall_cons in Hf as [_ Hf]. apply Forall_cons in Hf as [Hf _].
    rewrite Hn. unfold sym_kind in Hk. unfold with_symbols. rewrite (proj2 (Z.eqb_neq _ _) Hsy), (proj2 (Z.eqb_neq _ _) Hst). cbn [orb].
    repeat (case_if_in Hk; [injection Hk as <- <-; apply bind_exit; by apply (resolve_undefined fuel sy st _ base name (RWorld k log))|]). done.
Qed.

(** ** A table *)

(** The words of the patches are written, nothing else. *)
Definition patched (k : K) (ps : list patch) (k' : K) : Prop :=
  touch (env := env) k k' (fun x => exists p, p ∈ ps /\ in_word p.2.1 x) /\ forall p, p ∈ ps -> load64 k' p.2.1 = Some p.2.2.

(** No two targets overlap. *)
Fixpoint apart (ps : list patch) : Prop :=
  match ps with
  | [] => True
  | p :: ps => Forall (fun q => q.2.1 + 8 <= p.2.1 \/ p.2.1 + 8 <= q.2.1) ps /\ apart ps
  end.

Lemma patched_cons p ps k k1 k' : touch (env := env) k k1 (in_word p.2.1) -> load64 k1 p.2.1 = Some p.2.2 ->
  Forall (fun q => q.2.1 + 8 <= p.2.1 \/ p.2.1 + 8 <= q.2.1) ps -> patched k1 ps k' -> patched k (p :: ps) k'.
Proof.
  intros Ht Hl Ha [Ht' Hl']. split.
  - eapply touch_trans; eapply touch_mono; [exact Ht| |exact Ht'|].
    + intros x Hx. exists p. split; [by left|done].
    + intros x (q & Hq & Hx). exists q. split; [by right|done].
  - intros q [->|Hq]%elem_of_cons; [|by apply Hl']. rewrite (load64_touch _ _ _ _ Ht'); [done|].
    intros x Hx (q & Hq & Hin). rewrite Forall_forall in Ha. specialize (Ha q Hq). unfold in_word in Hin. lia.
Qed.

Lemma may_patch_touch k k' a b : touch (env := env) k k' (in_word a) -> may_patch k b -> may_patch k' b.
Proof. intros [E _] [Hw Ho]. split; [|done]. by eapply rw_range_env. Qed.

(** The result of a run over relocations: all applied, or stopped at one. *)
Definition table_result (stop : option (list (list Z))) (counts : list Z) (k : K) (log : list (list Z)) : rout rworld (list Z) :=
  match stop with
  | None => RVal counts (RWorld k log)
  | Some msgs => RExit 127 (RWorld k (log ++ msgs))
  end.

Lemma rela_loop_spec t e bytes rels : 0 < e -> 0 <= bytes -> bytes + e < 2 ^ 64 -> bytes / e = Z.of_nat (length rels) ->
  (forall i r, rels !! i = Some r -> words m (t + e * Z.of_nat i) [r_offset r; r_info r; r_addend r]) ->
  forall n pre post ps stop k log counts, rels = pre ++ post -> planned m sy st base post ps stop -> extends k ->
  Forall (fun p => may_patch k p.2.1) ps -> apart ps -> (length post < n)%nat -> Forall (fun l => (length l < fuel)%nat) (default [] stop) ->
  exists k', rela_loop n fuel (u64 t) bytes e (e * Z.of_nat (length pre)) sy st base counts (RWorld k log) =
    table_result stop (counted ps counts) k' log /\ patched k ps k' /\ extends k'.
Proof.
  intros He Hb Hbe Hlen Hrel. induction n as [|n IH]; intros pre post ps stop k log counts E Hpl Hs Hm Ha Hn Hf; [lia|].
  cbn [rela_loop]. assert (Hl : length rels = (length pre + length post)%nat) by (by rewrite E, length_app).
  assert (Hoff : e * Z.of_nat (length pre) + e <= bytes <-> (length pre < length rels)%nat).
  { pose proof (Z.div_mod bytes e ltac:(lia)). pose proof (Z.mod_pos_bound bytes e He). nia. }
  assert (Hle : e * Z.of_nat (length pre) <= bytes).
  { pose proof (Z.div_mod bytes e ltac:(lia)). pose proof (Z.mod_pos_bound bytes e He). nia. }
  rewrite (u64_id (e * Z.of_nat (length pre) + e)) by lia.
  destruct Hpl as [|r c v post ps stop Hv Hp|r post msgs Hr]; cbn [length] in *.
  - rewrite (proj2 (Z.leb_gt _ _)) by lia. exists k. split; [done|]. split; [|done]. split; [apply touch_refl|].
    intros p Hp. by apply not_elem_of_nil in Hp.
  - rewrite (proj2 (Z.leb_le _ _)) by (apply Hoff; lia). rewrite u64_add_l.
    apply Forall_cons in Hm as [Hm1 Hm]. destruct Ha as [Ha1 Ha]. cbn [fst snd] in *.
    destruct (apply_one_spec r (t + e * Z.of_nat (length pre)) c v k log counts Hs) as (k1 & E1 & Ht & Hld & Hs1); [|done|done|].
    { apply Hrel. by rewrite E, list_lookup_middle. }
    rewrite (bind_val _ _ _ _ _ E1).
    destruct (IH (pre ++ [r]) post ps stop k1 log (count c counts)) as (k' & E2 & Hpa & Hs2); try done.
    + by rewrite <- app_assoc.
    + eapply Forall_impl; [exact Hm|]. intros p. by eapply may_patch_touch.
    + lia.
    + rewrite length_app in E2. cbn [length] in E2. replace (e * Z.of_nat (length pre + 1)) with (e * Z.of_nat (length pre) + e) in E2 by lia.
      exists k'. split; [exact E2|]. split; [|done]. by eapply patched_cons.
  - rewrite (proj2 (Z.leb_le _ _)) by (apply Hoff; lia). rewrite u64_add_l.
    exists k. split; [|split; [|done]].
    + apply bind_exit, (apply_one_refused r (t + e * Z.of_nat (length pre))); [done| |done|done]. apply Hrel. by rewrite E, list_lookup_middle.
    + split; [apply touch_refl|]. intros p Hp. by apply not_elem_of_nil in Hp.
Qed.

Lemma apply_rela_spec t e bytes rels ps stop k log counts : table_at m (u64 t) e bytes rels -> planned m sy st base rels ps stop -> extends k ->
  Forall (fun p => may_patch k p.2.1) ps -> apart ps -> (length rels < fuel)%nat -> Forall (fun l => (length l < fuel)%nat) (default [] stop) ->
  exists k', apply_rela fuel (u64 t) bytes e sy st base counts (RWorld k log) = table_result stop (counted ps counts) k' log /\
    patched k ps k' /\ extends k'.
Proof.
  intros Ht Hp Hs Hm Ha Hn Hf. unfold apply_rela, table_at, RELA_SZ in *. destruct ((u64 t =? 0) || (bytes =? 0)).
  - subst rels. inversion Hp; subst. exists k. split; [done|]. split; [|done]. split; [apply touch_refl|].
    intros p Hin. by apply not_elem_of_nil in Hin.
  - destruct Ht as (He & Hb & Hbe & Hl & Hr). set (e' := if e =? 0 then 24 else e) in *. clearbody e'.
    destruct (rela_loop_spec t e' bytes rels He Hb Hbe Hl) with (n := fuel) (pre := @nil rel) (post := rels) (ps := ps) (stop := stop)
      (k := k) (log := log) (counts := counts) as (k' & E & H); try done.
    + intros i r Hi j x Hj. pose proof (Hr i r Hi j x Hj) as Hw. by rewrite <- Z.add_assoc, u64_add_l, Z.add_assoc in Hw.
    + cbn [length] in E. change (Z.of_nat 0) with 0 in E. rewrite Z.mul_0_r in E. by exists k'.
Qed.
End Table.

(** ** The whole run *)

(** The tables of a dynamically linked program behind its initial stack. *)
Record dyn_image := DynImage { phs : list (Z * Z); dynl : list (Z * Z); rels1 : list rel; rels2 : list rel }.
Implicit Types I : dyn_image.

(** What the dynamic section says: the value of a tag is that of its last entry,
  0 without one; tables are addressed relative to the load base.  The tags are
  DT_RELA (7), DT_RELASZ (8), DT_RELAENT (9), DT_JMPREL (23), DT_PLTRELSZ (2),
  DT_SYMTAB (6), DT_STRTAB (5) and DT_NEEDED (1). *)
Definition entries_of (tag : Z) (l : list (Z * Z)) : list Z := snd <$> filter (fun tv => tv.1 = tag) l.
Definition value_of (tag : Z) (l : list (Z * Z)) : Z := default 0 (last (entries_of tag l)).
Definition address_of (base tag : Z) (l : list (Z * Z)) : Z :=
  default 0 ((fun v => (base + v) mod 2 ^ 64) <$> last (entries_of tag l)).

Definition section (base : Z) (l : list (Z * Z)) : dyninfo := {|
  rela := address_of base 7 l;
  relasz := value_of 8 l;
  relaent := value_of 9 l;
  jmprel := address_of base 23 l;
  pltrelsz := value_of 2 l;
  symtab := address_of base 6 l;
  strtab := address_of base 5 l;
  needed := Z.of_nat (length (entries_of 1 l)) mod 2 ^ 32
|}.

Definition info (base : Z) I : dyninfo := section base (dynl I).
Definition all_rels I : list rel := rels1 I ++ rels2 I.

Record image_at (ph base : Z) I : Prop := {
  ia_phs : phdrs_at m ph (phs I);
  ia_dyn : dyn_addr base (phs I) <> 0;
  ia_tags : Forall (fun tv => tv.1 <> DT_NULL) (dynl I);
  ia_dynl : words m (dyn_addr base (phs I)) (pairs (dynl I) ++ [DT_NULL]);
  ia_rela : table_at m (rela (info base I)) (relaent (info base I)) (relasz (info base I)) (rels1 I);
  ia_jmprel : table_at m (jmprel (info base I)) (relaent (info base I)) (pltrelsz (info base I)) (rels2 I)
}.

(** Enough turns for every loop. *)
Definition fuel_ok (fuel : nat) I (stop : option (list (list Z))) : Prop :=
  (16 + length (phs I) + length (dynl I) + length (all_rels I) < fuel)%nat /\ Forall (fun l => (length l < fuel)%nat) (default [] stop).

Definition warning (base : Z) I : list (list Z) := if negb (needed (info base I) =? 0) then [NEEDED_WARNING] else [].

(** What a run ends with. *)
Definition main_result (entry : Z) (stop : option (list (list Z))) (ps : list patch) (k : K) (log : list (list Z)) : rout rworld Z :=
  match stop with
  | None => RVal entry (RWorld k (log ++ [summary (counted ps [0; 0; 0; 0])]))
  | Some msgs => RExit 127 (RWorld k (log ++ msgs))
  end.

Lemma apart_app ps qs : apart (ps ++ qs) -> apart ps /\ apart qs /\
  forall p q, p ∈ ps -> q ∈ qs -> q.2.1 + 8 <= p.2.1 \/ p.2.1 + 8 <= q.2.1.
Proof.
  induction ps as [|p ps IH]; cbn [app apart].
  - intros H. split_and!; [done..|]. intros p q Hp. by apply not_elem_of_nil in Hp.
  - intros [H1 H2]. apply Forall_app in H1 as [H1 H1']. destruct (IH H2) as (A1 & A2 & A3). split_and!; [done..|].
    intros x q [->|Hx]%elem_of_cons Hq; [|by apply A3]. rewrite Forall_forall in H1'. by apply H1'.
Qed.

Lemma patched_app ps qs k k1 k2 : patched k ps k1 -> patched k1 qs k2 ->
  (forall p q, p ∈ ps -> q ∈ qs -> q.2.1 + 8 <= p.2.1 \/ p.2.1 + 8 <= q.2.1) -> patched k (ps ++ qs) k2.
Proof.
  intros [T1 L1] [T2 L2] Ha. split.
  - eapply touch_trans; eapply touch_mono; [exact T1| |exact T2|]; intros x (p & Hp & Hx); exists p; (split; [|done]);
      apply elem_of_app; [by left|by right].
  - intros p [Hp|Hp]%elem_of_app; [|by apply L2]. rewrite (load64_touch _ _ _ _ T2); [by apply L1|].
    intros x Hx (q & Hq & Hin). specialize (Ha p q Hp Hq). unfold in_word in Hin. lia.
Qed.

Lemma may_patch_all k ps k' a : patched k ps k' -> may_patch k a -> may_patch k' a.
Proof. intros [[E _] _] [Hw Ho]. split; [|done]. by eapply rw_range_env. Qed.

Lemma dyn_addr_u64 base l : u64 (dyn_addr base l) = dyn_addr base l.
Proof. induction l as [|[t v] l IH]; cbn [dyn_addr]; [done|]. destruct (_ =? _); [apply u64_idem|done]. Qed.

Lemma address_u64 base tag l : u64 (address_of base tag l) = address_of base tag l.
Proof. unfold address_of. destruct (last _); [apply u64_idem|done]. Qed.

Lemma entries_snoc tag l t v : entries_of tag (l ++ [(t, v)]) = if t =? tag then entries_of tag l ++ [v] else entries_of tag l.
Proof.
  unfold entries_of. rewrite filter_app, fmap_app. destruct (Z.eqb_spec t tag) as [<-|H].
  - by rewrite filter_cons_True.
  - rewrite filter_cons_False by done. by rewrite app_nil_r.
Qed.

Lemma dyn_step_section base l t v : dyn_step base (section base l) (t, v) = section base (l ++ [(t, v)]).
Proof.
  unfold dyn_step, section, value_of, address_of. rewrite !entries_snoc.
  unfold DT_RELA, DT_RELASZ, DT_RELAENT, DT_JMPREL, DT_PLTRELSZ, DT_SYMTAB, DT_STRTAB, DT_NEEDED.
  destruct (Z.eqb_spec t 7) as [->|]; [cbn; by rewrite last_snoc|].
  destruct (Z.eqb_spec t 8) as [->|]; [cbn; by rewrite last_snoc|].
  destruct (Z.eqb_spec t 9) as [->|]; [cbn; by rewrite last_snoc|].
  destruct (Z.eqb_spec t 23) as [->|]; [cbn; by rewrite last_snoc|].
  destruct (Z.eqb_spec t 2) as [->|]; [cbn; by rewrite last_snoc|].
  destruct (Z.eqb_spec t 6) as [->|]; [cbn; by rewrite last_snoc|].
  destruct (Z.eqb_spec t 5) as [->|]; [cbn; by rewrite last_snoc|].
  destruct (Z.eqb_spec t 1) as [->|]; [|done].
  rewrite length_app, Nat2Z.inj_add. unfold u32. by rewrite Zplus_mod_idemp_l.
Qed.

(** The linker's walk collects exactly that. *)
Lemma dyn_walk_section base l : foldl (dyn_step base) dyn_zero l = section base l.
Proof. induction l as [|[t v] l IH] using rev_ind; [done|]. rewrite foldl_app, IH. apply dyn_step_section. Qed.

(** Both tables, one after the other. *)
Lemma tables_spec fuel base I ps stop k log : extends k -> planned m (symtab (info base I)) (strtab (info base I)) base (all_rels I) ps stop ->
  table_at m (rela (info base I)) (relaent (info base I)) (relasz (info base I)) (rels1 I) ->
  table_at m (jmprel (info base I)) (relaent (info base I)) (pltrelsz (info base I)) (rels2 I) ->
  Forall (fun p => may_patch k p.2.1) ps -> apart ps -> fuel_ok fuel I stop -> exists k',
  let d := info base I in
  (counts ← apply_rela fuel (rela d) (relasz d) (relaent d) (symtab d) (strtab d) base [0; 0; 0; 0];
   apply_rela fuel (jmprel d) (pltrelsz d) (relaent d) (symtab d) (strtab d) base counts) (RWorld k log) =
    table_result stop (counted ps [0; 0; 0; 0]) k' log /\ patched k ps k'.
Proof.
  intros Hs Hp H1 H2 Hm Ha [Hf Hfl]. cbv zeta.
  assert (Hu1 : u64 (rela (info base I)) = rela (info base I)) by apply address_u64.
  assert (Hu2 : u64 (jmprel (info base I)) = jmprel (info base I)) by apply address_u64.
  unfold all_rels in *. rewrite length_app in Hf. rewrite <- Hu1 in H1. rewrite <- Hu2 in H2.
  destruct (planned_app _ _ _ _ _ _ _ _ Hp) as [(ps1 & ps2 & P1 & P2 & ->)|(msgs & -> & P1)].
  - apply apart_app in Ha as (A1 & A2 & A3). apply Forall_app in Hm as [M1 M2].
    destruct (apply_rela_spec _ _ base fuel _ _ _ _ ps1 None k log [0; 0; 0; 0] H1 P1 Hs M1 A1 ltac:(lia) ltac:(constructor)) as (k1 & E1 & Q1 & Hs1).
    rewrite Hu1 in E1. rewrite (bind_val _ _ _ _ _ E1).
    destruct (apply_rela_spec _ _ base fuel _ _ _ _ ps2 stop k1 log (counted ps1 [0; 0; 0; 0]) H2 P2 Hs1) as (k2 & E2 & Q2 & Hs2); try done; [|lia|].
    + eapply Forall_impl; [exact M2|]. intros p. by eapply may_patch_all.
    + rewrite Hu2 in E2. exists k2. rewrite E2. unfold counted. rewrite foldl_app. split; [done|]. by eapply patched_app.
  - destruct (apply_rela_spec _ _ base fuel _ _ _ _ ps (Some msgs) k log [0; 0; 0; 0] H1 P1 Hs Hm Ha ltac:(lia) Hfl) as (k1 & E1 & Q1 & Hs1).
    rewrite Hu1 in E1. exists k1. split; [|done]. by apply bind_exit.
Qed.

Lemma relocate_spec fuel ph base entry I ps stop k log : extends k -> image_at ph base I ->
  planned m (symtab (info base I)) (strtab (info base I)) base (all_rels I) ps stop ->
  Forall (fun p => may_patch k p.2.1) ps -> apart ps -> fuel_ok fuel I stop -> exists k',
  relocate fuel (dyn_addr base (phs I)) base entry (RWorld k log) = main_result entry stop ps k' (log ++ warning base I) /\ patched k ps k'.
Proof.
  intros Hs [H1 H2 H3 H4 H5 H6] Hp Hm Ha Hf. pose proof Hf as [Hf1 Hf2]. unfold relocate.
  rewrite <- dyn_addr_u64. erewrite bind_val; [|eapply dyn_walk_spec; [done|exact H4|done|lia]]. rewrite dyn_walk_section. fold (info base I).
  destruct (tables_spec fuel base I ps stop k (log ++ warning base I) Hs Hp H5 H6 Hm Ha Hf) as (k' & E & Hk). exists k'. split; [|done].
  rewrite (bind_val _ _ _ tt (RWorld k (log ++ warning base I))).
  2: { unfold warning, say, rtld_write, mret, RM_ret. destruct (negb _); [done|]. by rewrite app_nil_r. }
  rewrite <- bind_assoc. destruct stop as [msgs|]; [by apply bind_exit|]. rewrite (bind_val _ _ _ _ _ E). done.
Qed.
(** The stack that [setup_user_stack] builds, as the linker reads it. *)
Definition kernel_auxv (ctx : elf_loader_t) : list (Z * Z) :=
  [(AT_PHDR, phdr_va ctx); (AT_PHENT, PHDR_SIZE); (AT_PHNUM, e_phnum (ehdr ctx)); (AT_ENTRY, u64 (entry_ ctx + base_ ctx));
   (AT_BASE, base_ ctx); (AT_PAGESZ, PAGE_SIZE)].

Lemma kernel_stack ctx : stack_words ctx = 1 :: [stack_str] ++ 0 :: [] ++ 0 :: pairs (kernel_auxv ctx) ++ AT_NULL :: [0].
Proof. reflexivity. Qed.

Lemma aux_get_spec fuel frame ctx ty w : extends (rmem w) -> 0 <= frame < USER_TOP -> words m frame (stack_words ctx) -> (6 < fuel)%nat ->
  auxv_get fuel (u64 (frame + 32)) ty w = RVal (aux_find (kernel_auxv ctx) ty) w.
Proof.
  intros Hs Hfr Hw Hf. unfold auxv_get, USER_TOP in *. rewrite (proj2 (Z.eqb_neq _ _)) by (rewrite u64_id; lia).
  rewrite kernel_stack in Hw. apply words_cons in Hw as [_ Hw]. apply words_app in Hw as [_ Hw]. apply words_cons in Hw as [_ Hw].
  apply words_cons in Hw as [_ Hw]. apply (aux_loop_spec _ _ _ _ [0]); [done| |by repeat constructor|cbn; lia].
  cbn [length] in Hw. by replace (frame + 8 + 8 * Z.of_nat 1 + 8 + 8) with (frame + 32) in Hw by lia.
Qed.

Lemma rtld_main_spec fuel frame ctx I ps stop k log : extends k -> 0 <= frame < USER_TOP -> words m frame (stack_words ctx) ->
  e_phnum (ehdr ctx) = Z.of_nat (length (phs I)) -> u64 (entry_ ctx + base_ ctx) <> 0 -> image_at (phdr_va ctx) (base_ ctx) I ->
  planned m (symtab (info (base_ ctx) I)) (strtab (info (base_ ctx) I)) (base_ ctx) (all_rels I) ps stop ->
  Forall (fun p => may_patch k p.2.1) ps -> apart ps -> fuel_ok fuel I stop -> exists k',
  rtld_main fuel frame (RWorld k log) = main_result (u64 (entry_ ctx + base_ ctx)) stop ps k' (log ++ warning (base_ ctx) I) /\ patched k ps k'.
Proof.
  intros Hs Hfr Hw Hph Hen Hi Hp Hm Ha Hf. destruct (relocate_spec fuel _ _ (u64 (entry_ ctx + base_ ctx)) I ps stop k log Hs Hi Hp Hm Ha Hf) as (k' & E & Hk).
  exists k'. split; [|done]. destruct Hf as [Hf _]. unfold rtld_main.
  erewrite bind_val.
  2: { rewrite kernel_stack in Hw. unfold USER_TOP in *.
       apply (auxv_of_spec fuel frame [stack_str] [] (pairs (kernel_auxv ctx) ++ AT_NULL :: [0])); [done|lia|done|constructor|cbn; lia]. }
  cbn [length]. replace (frame + 8 * (3 + Z.of_nat 1 + Z.of_nat 0)) with (frame + 32) by lia.
  rewrite (proj2 (Z.eqb_neq (u64 (frame + 32)) 0)) by (unfold USER_TOP in *; rewrite u64_id; lia).
  assert (Hget : forall ty, auxv_get fuel (u64 (frame + 32)) ty (RWorld k log) = RVal (aux_find (kernel_auxv ctx) ty) (RWorld k log)).
  { intros ty. by apply aux_get_spec; [..|lia]. }
  do 4 (rewrite (bind_val _ _ _ _ _ (Hget _)); cbn [kernel_auxv aux_find Z.eqb Pos.eqb AT_PHDR AT_PHENT AT_PHNUM AT_ENTRY AT_BASE AT_PAGESZ]).
  cbn [negb orb]. rewrite (proj2 (Z.eqb_neq _ _) Hen). pose proof Hi as [H1 H2 _ _ _ _].
  rewrite Hph. erewrite bind_val; [|apply (find_dyn_spec fuel (base_ ctx) (phdr_va ctx) (phs I) [] (phs I)); [done|done|done|lia]].
  by rewrite (proj2 (Z.eqb_neq _ _) H2).
Qed.
End Run.

(** ** The report *)

Lemma tmp_loop_digits fuel v : tmp_loop fuel v = Z.add 48 <$> digits fuel 10 v.
Proof. revert v. induction fuel as [|fuel IH]; intros v; [done|]. cbn [tmp_loop digits]. rewrite fmap_cons. f_equal. destruct (_ =? 0); [done|apply IH]. Qed.

Lemma count_text_length k v : 0 <= v < 2 ^ 32 -> (length (count_text k v) <= 11)%nat.
Proof.
  intros Hv. unfold count_text. rewrite length_app, length_reverse, tmp_loop_digits, length_fmap. cbn [length].
  rewrite (digits_fuel 10 ltac:(lia) 10) by lia. pose proof (digits_length 10 10 v). lia.
Qed.

(** The report fits the 96 bytes of [buf], and a count the 12 of [tmp]. *)
Lemma summary_fits counts : length counts = 4%nat -> Forall (fun c => 0 <= c < 2 ^ 32) counts -> (length (summary counts) <= 96)%nat.
Proof.
  intros Hl Hc. destruct counts as [|a [|b [|c [|d [|]]]]]; try done. repeat (apply Forall_cons in Hc as [? Hc]).
  unfold summary. cbn [imap concat]. rewrite !length_app. cbn [length compose].
  pose proof (count_text_length 0 a). pose proof (count_text_length 1 b). pose proof (count_text_length 2 c). pose proof (count_text_length 3 d).
  change (length (str "[rtld] relocated: ")) with 18%nat. cbn [compose] in *. lia.
Qed.

Lemma count_range i counts : Forall (fun c => 0 <= c < 2 ^ 32) counts -> Forall (fun c => 0 <= c < 2 ^ 32) (count i counts).
Proof. intros H. unfold count. apply Forall_alter; [done|]. intros. apply u32_range. Qed.

Lemma counted_ok ps : forall counts, length counts = 4%nat -> Forall (fun c => 0 <= c < 2 ^ 32) counts ->
  length (counted ps counts) = 4%nat /\ Forall (fun c => 0 <= c < 2 ^ 32) (counted ps counts).
Proof.
  induction ps as [|p ps IH]; intros counts Hl Hc; [done|]. unfold counted. cbn [foldl]. apply IH; [|by apply count_range].
  unfold count. by rewrite length_alter.
Qed.

(** ** Properties *)

Section Properties.
Context {K : Type} {UB : UserBytes K} {rw : K -> Z -> Prop} {env : K -> K -> Prop} {UL : UserBytesLaws K rw env}.
Context (m : view).

(** Words at these addresses do not overlap. *)
Fixpoint spread (l : list Z) : Prop :=
  match l with
  | [] => True
  | a :: l => Forall (fun b => b + 8 <= a \/ a + 8 <= b) l /\ spread l
  end.

Lemma apart_spread ps : apart ps <-> spread ((fun p : patch => p.2.1) <$> ps).
Proof. induction ps as [|p ps IH]; [done|]. cbn [apart spread fmap list_fmap]. by rewrite Forall_fmap, IH. Qed.

Section Plans.
Context (sy st base : Z).

Lemma prescribes_fun r c v c' v' : prescribes m sy st base r c v -> prescribes m sy st base r c' v' -> c' = c /\ v' = v.
Proof.
  intros [Ht|c1 add1 x1 K1 _ _ (y1 & _ & _ & D1)] [Ht2|c2 add2 x2 K2 _ _ (y2 & _ & _ & D2)]; [done| | |].
  - by rewrite Ht in K2.
  - by rewrite Ht2 in K1.
  - rewrite K1 in K2. injection K2 as -> ->. rewrite D1 in D2. by injection D2 as ->.
Qed.

(** The patches for relocations that can all be applied, in front of others. *)
Lemma plan_prefix pre post qs stop : Forall (fun r => exists c v, prescribes m sy st base r c v) pre -> planned m sy st base post qs stop ->
  exists ps, planned m sy st base (pre ++ post) (ps ++ qs) stop /\ (fun p : patch => p.2.1) <$> ps = target base <$> pre /\
    forall r c v, r ∈ pre -> prescribes m sy st base r c v -> (c, (target base r, v)) ∈ ps.
Proof.
  intros Hpre Hq. induction Hpre as [|r pre (c & v & Hv) _ (ps & Hp & Ht & Hin)].
  - exists []. split_and!; [done|done|]. intros r c v Hr. by apply not_elem_of_nil in Hr.
  - exists ((c, (target base r, v)) :: ps). split_and!; [by constructor|by rewrite !fmap_cons, Ht|].
    intros r' c' v' [->|Hr]%elem_of_cons Hv'; [|right; by apply Hin]. destruct (prescribes_fun _ _ _ _ _ Hv Hv') as [-> ->]. by left.
Qed.
End Plans.

Lemma targets_elem base (ps : list patch) (rels : list rel) p : (fun q : patch => q.2.1) <$> ps = target base <$> rels -> p ∈ ps -> exists r, r ∈ rels /\ p.2.1 = target base r.
Proof.
  intros Ht Hp. apply (list_elem_of_fmap_2 (fun q : patch => q.2.1)) in Hp. rewrite Ht in Hp.
  apply list_elem_of_fmap in Hp as (r & E & Hr). by exists r.
Qed.

Lemma targets_may base k (ps : list patch) (rels : list rel) : (fun q : patch => q.2.1) <$> ps = target base <$> rels ->
  Forall (fun r => may_patch (rw := rw) m k (target base r)) rels -> Forall (fun p : patch => may_patch (rw := rw) m k p.2.1) ps.
Proof.
  intros Ht Hr. apply Forall_forall. intros p Hp. destruct (targets_elem _ _ _ _ Ht Hp) as (r & Hin & ->).
  rewrite Forall_forall in Hr. by apply Hr.
Qed.

(** A program is ready to be linked: its tables and the stack of the kernel are in
  [m], part of its memory. *)
Record ready (fuel : nat) (frame : Z) (ctx : elf_loader_t) (I : dyn_image) (k : K) : Prop := {
  re_extends : extends m k;
  re_frame : 0 <= frame < USER_TOP;
  re_stack : words m frame (stack_words ctx);
  re_phnum : e_phnum (ehdr ctx) = Z.of_nat (length (phs I));
  re_entry : u64 (entry_ ctx + base_ ctx) <> 0;
  re_image : image_at m (phdr_va ctx) (base_ ctx) I;
  re_fuel : (50 + length (phs I) + length (dynl I) + length (all_rels I) < fuel)%nat
}.

Definition prescribed (ctx : elf_loader_t) (I : dyn_image) : rel -> nat -> Z -> Prop :=
  prescribes m (symtab (info (base_ ctx) I)) (strtab (info (base_ ctx) I)) (base_ ctx).

(** C11.  The dynamic linker relocates.  Started on the stack the kernel builds for a
  program whose relocations all have a value (base and addend, or a symbol defined in
  the image), with targets that may be written and overlap neither each other nor
  the tables, [rtld_main] returns the entry point; every target of both tables, the
  one of DT_RELA and the one of DT_JMPREL with DT_PLTRELSZ, then holds the value
  the ABI prescribes, no other byte has changed, and its report fits the buffer.
  Which tables the dynamic section names is stated by [section], without the
  linker's walk. *)
Theorem rtld_relocates fuel frame ctx I k log : ready fuel frame ctx I k ->
  Forall (fun r => exists c v, prescribed ctx I r c v) (all_rels I) ->
  Forall (fun r => may_patch (rw := rw) m k (target (base_ ctx) r)) (all_rels I) -> spread (target (base_ ctx) <$> all_rels I) ->
  exists k' report, (length report <= 96)%nat /\
    rtld_main fuel frame (RWorld k log) = RVal (u64 (entry_ ctx + base_ ctx)) (RWorld k' (log ++ warning (base_ ctx) I ++ [report])) /\
    (forall r c v, r ∈ all_rels I -> prescribed ctx I r c v -> load64 k' (target (base_ ctx) r) = Some v) /\
    env k k' /\ forall x, (forall r, r ∈ all_rels I -> ~ in_word (target (base_ ctx) r) x) -> ubyte k' x = ubyte k x.
Proof.
  intros [H1 H2 H3 H4 H5 H6 H7] Hall Hmp Hsp.
  destruct (plan_prefix _ _ (base_ ctx) (all_rels I) [] [] None Hall ltac:(constructor)) as (ps & Hp & Ht & Hin). rewrite !app_nil_r in Hp.
  rewrite <- Ht in Hsp. apply apart_spread in Hsp.
  pose proof (targets_may _ _ _ _ Ht Hmp) as Hmp'.
  destruct (rtld_main_spec (UL := UL) m fuel frame ctx I ps None k log H1 H2 H3 H4 H5 H6 Hp Hmp' Hsp) as (k' & E & [He Hx] & Hl); [split; [lia|constructor]|].
  cbn [main_result] in E. rewrite <- app_assoc in E. exists k', (summary (counted ps [0; 0; 0; 0])). split; [|split; [done|]].
  - apply summary_fits; apply counted_ok; (done || by repeat constructor).
  - split; [|split; [done|]].
    + intros r c v Hr Hv. exact (Hl _ (Hin r c v Hr Hv)).
    + intros x Hn. apply Hx. intros (p & Hpin & Hw). destruct (targets_elem _ _ _ _ Ht Hpin) as (r & Hr & Ep). rewrite Ep in Hw. by apply (Hn r).
Qed.

(** C12.  The dynamic linker refuses.  At the first relocation it cannot apply (an
  unknown type, a symbol without a symbol table, an undefined symbol) it names the
  reason and ends the process with status 127; the relocations before it are in
  place, no other byte has changed, and the program never runs. *)
Theorem rtld_refuses fuel frame ctx I k log pre r post msgs : ready fuel frame ctx I k -> all_rels I = pre ++ r :: post ->
  Forall (fun r => exists c v, prescribed ctx I r c v) pre ->
  refused m (symtab (info (base_ ctx) I)) (strtab (info (base_ ctx) I)) r msgs -> Forall (fun l => (length l < fuel)%nat) msgs ->
  Forall (fun r => may_patch (rw := rw) m k (target (base_ ctx) r)) pre -> spread (target (base_ ctx) <$> pre) ->
  exists k', rtld_main fuel frame (RWorld k log) = RExit 127 (RWorld k' (log ++ warning (base_ ctx) I ++ msgs)) /\
    (forall r c v, r ∈ pre -> prescribed ctx I r c v -> load64 k' (target (base_ ctx) r) = Some v) /\
    env k k' /\ forall x, (forall r, r ∈ pre -> ~ in_word (target (base_ ctx) r) x) -> ubyte k' x = ubyte k x.
Proof.
  intros [H1 H2 H3 H4 H5 H6 H7] Eall Hall Href Hfl Hmp Hsp.
  destruct (plan_prefix _ _ (base_ ctx) pre (r :: post) [] (Some msgs) Hall ltac:(by constructor)) as (ps & Hp & Ht & Hin).
  rewrite app_nil_r, <- Eall in Hp. rewrite <- Ht in Hsp. apply apart_spread in Hsp.
  pose proof (targets_may _ _ _ _ Ht Hmp) as Hmp'.
  destruct (rtld_main_spec (UL := UL) m fuel frame ctx I ps (Some msgs) k log H1 H2 H3 H4 H5 H6 Hp Hmp' Hsp) as (k' & E & [He Hx] & Hl); [split; [lia|done]|].
  cbn [main_result] in E. rewrite <- app_assoc in E. exists k'. split; [done|]. split; [|split; [done|]].
  - intros r' c v Hr Hv. exact (Hl _ (Hin r' c v Hr Hv)).
  - intros x Hn. apply Hx. intros (p & Hpin & Hw). destruct (targets_elem _ _ _ _ Ht Hpin) as (r' & Hr & Ep). rewrite Ep in Hw. by apply (Hn r').
Qed.
End Properties.

(** ** A small program

  Headers at 0x400040, the dynamic section at 0x400100, three relocations: a
  relative one and a data symbol in the first table, a symbol with an addend in
  the table of DT_JMPREL.  In the second version the last symbol is undefined. *)
Section Demo.
Definition demo_base : Z := 0x400000.
Definition demo_stack : Z := 0x401000.
Definition demo_ctx : elf_loader_t :=
  ElfLoader [] (Ehdr [] 3 62 1 0x600 64 0 0 64 56 1 0 0 0) 0x600 demo_base None (demo_base + 0x40).

Definition demo_image (bad : bool) : dyn_image :=
  DynImage [(2, 0x100)] [(7, 0x200); (8, 48); (9, 24); (23, 0x230); (2, 24); (6, 0x300); (5, 0x400)]
    [Rel 0x500 8 0x1234; Rel 0x508 (2 ^ 32 + 6) 0] [Rel 0x510 ((if bad then 2 else 1) * 2 ^ 32 + 1) 7].

Definition rel_words (r : rel) : list Z := [r_offset r; r_info r; r_addend r].

(** The contents of the memory: words, but for the symbols and the strings. *)
Definition demo_pieces (bad : bool) : list (Z * list Z) :=
  [(demo_stack, concat (le_bytes 8 <$> stack_words demo_ctx));
   (demo_base + 0x40, le_bytes 8 2 ++ le_bytes 8 0 ++ le_bytes 8 0x100 ++ replicate 32 0);
   (demo_base + 0x100, concat (le_bytes 8 <$> (pairs (dynl (demo_image bad)) ++ [0; 0])));
   (demo_base + 0x200, concat (le_bytes 8 <$> concat (rel_words <$> all_rels (demo_image bad))));
   (demo_base + 0x318, le_bytes 4 1 ++ le_bytes 2 0x10 ++ le_bytes 2 5 ++ le_bytes 8 0x777 ++ le_bytes 8 0);
   (demo_base + 0x330, le_bytes 4 3 ++ le_bytes 2 0x10 ++ le_bytes 2 0 ++ le_bytes 8 0 ++ le_bytes 8 0);
   (demo_base + 0x400, [0; 97; 0] ++ str "puts" ++ [0])].

Definition demo_memory (bad : bool) : flat :=
  foldl (fun k p => default k (put_bytes k p.1 p.2)) (Flat 0x402000 FLAT_TOP [] ∅) (demo_pieces bad).

(** The tables: everything but the three targets. *)
Definition demo_view (bad : bool) : view :=
  fun x => if (demo_base + 0x500 <=? x) && (x <? demo_base + 0x518) then None else ubyte (demo_memory bad) x.

Ltac words_tac := repeat (apply words_cons; split; [vm_compute; reflexivity|]); intros ? ? [=].

Lemma demo_image_at bad : image_at (demo_view bad) (phdr_va demo_ctx) (base_ demo_ctx) (demo_image bad).
Proof.
  split.
  - intros [|i] t v; [|done]. intros [= <- <-]. destruct bad; split; vm_compute; reflexivity.
  - by destruct bad.
  - by repeat constructor.
  - destruct bad; cbn [dynl demo_image pairs fmap list_fmap concat app fst snd]; words_tac.
  - destruct bad; (split; [done|]; split; [done|]; split; [done|]; split; [vm_compute; reflexivity|]);
      intros [|[|i]] r; try done; intros [= <-]; words_tac.
  - destruct bad; (split; [done|]; split; [done|]; split; [done|]; split; [vm_compute; reflexivity|]);
      intros [|i] r; try done; intros [= <-]; words_tac.
Qed.

Lemma demo_ready bad : ready (demo_view bad) 64 demo_stack demo_ctx (demo_image bad) (demo_memory bad).
Proof.
  split.
  - intros x b. unfold demo_view. by destruct (_ && _).
  - by unfold demo_stack, USER_TOP.
  - destruct bad; rewrite kernel_stack; cbn [kernel_auxv pairs fmap list_fmap concat app fst snd]; words_tac.
  - done.
  - done.
  - apply demo_image_at.
  - cbn. lia.
Qed.

Lemma demo_may_patch bad x : 0x500 <= x <= 0x510 -> may_patch (rw := flat_rw) (demo_view bad) (demo_memory bad) (demo_base + x).
Proof.
  intros Hx. unfold demo_base. split.
  - intros y Hy. apply flat_mapped_true. left.
    replace (f_brk (demo_memory bad)) with 0x402000 by (destruct bad; vm_compute; reflexivity). unfold FLAT_BASE. lia.
  - intros y Hy. unfold in_word in Hy. unfold demo_view, demo_base. by rewrite (proj2 (Z.leb_le _ _)), (proj2 (Z.ltb_lt _ _)) by lia.
Qed.

Lemma demo_targets bad rels : Forall (fun r => r_offset r ∈ [0x500; 0x508; 0x510]) rels ->
  Forall (fun r => may_patch (rw := flat_rw) (demo_view bad) (demo_memory bad) (target (base_ demo_ctx) r)) rels.
Proof.
  intros H. eapply Forall_impl; [exact H|]. intros r Hr. cbn beta in *. unfold target. cbn [base_ demo_ctx].
  rewrite !elem_of_cons, elem_of_nil in Hr. rewrite u64_id by (unfold demo_base; lia). apply demo_may_patch. lia.
Qed.

Lemma demo_spread : spread (target (base_ demo_ctx) <$> all_rels (demo_image false)) /\
  spread (target (base_ demo_ctx) <$> [Rel 0x500 8 0x1234; Rel 0x508 (2 ^ 32 + 6) 0]).
Proof. split; cbn; repeat (split || constructor); vm_compute; intuition discriminate. Qed.

Lemma demo_prescribed bad : exists c0 v0 c1 v1,
  prescribed (demo_view bad) demo_ctx (demo_image bad) (Rel 0x500 8 0x1234) c0 v0 /\
  prescribed (demo_view bad) demo_ctx (demo_image bad) (Rel 0x508 (2 ^ 32 + 6) 0) c1 v1.
Proof.
  do 4 eexists. split; [by apply pr_relative|].
  destruct bad; (eapply pr_symbol; [reflexivity|vm_compute; done|vm_compute; done|exists 5; split_and!; [vm_compute; reflexivity|done|vm_compute; reflexivity]]).
Qed.

Lemma rtld_relocates_witness : exists k' w, rtld_main 64 demo_stack (RWorld (demo_memory false) []) = RVal 0x400600 w /\ rmem w = k' /\
  load64 k' (demo_base + 0x510) = Some 0x40077E.
Proof.
  assert (P2 : prescribed (demo_view false) demo_ctx (demo_image false) (Rel 0x510 (2 ^ 32 + 1) 7) 3 (u64 (demo_base + 0x777 + 7))).
  { apply (pr_symbol _ _ _ (base_ demo_ctx) (Rel 0x510 (2 ^ 32 + 1) 7) 3 true 0x777); [reflexivity|vm_compute; done|vm_compute; done|].
    exists 5; split_and!; [vm_compute; reflexivity|done|vm_compute; reflexivity]. }
  destruct (demo_prescribed false) as (c0 & v0 & c1 & v1 & P0 & P1).
  destruct (rtld_relocates (UL := flat_bytes_laws) (demo_view false) 64 demo_stack demo_ctx (demo_image false) (demo_memory false) [])
    as (k' & rep & _ & E & Hl & _).
  - apply demo_ready.
  - repeat constructor; [by exists c0, v0|by exists c1, v1|by eexists _, _].
  - apply demo_targets. repeat constructor.
  - apply demo_spread.
  - exists k'. eexists. split; [exact E|]. split; [reflexivity|]. apply (Hl (Rel 0x510 (2 ^ 32 + 1) 7) 3%nat _); [by right; right; left|exact P2].
Defined.

Lemma rtld_refuses_witness : exists w, rtld_main 64 demo_stack (RWorld (demo_memory true) []) = RExit 127 w /\ str "puts" ∈ sent w.
Proof.
  destruct (demo_prescribed true) as (c0 & v0 & c1 & v1 & P0 & P1).
  destruct (rtld_refuses (UL := flat_bytes_laws) (demo_view true) 64 demo_stack demo_ctx (demo_image true) (demo_memory true) []
    [Rel 0x500 8 0x1234; Rel 0x508 (2 ^ 32 + 6) 0] (Rel 0x510 (2 * 2 ^ 32 + 1) 7) []
    ([str "[rtld] undefined symbol: "; str "puts"; [NL]] ++ fatal (str "unresolved import (no DSO loading yet)"))) as (k' & E & _).
  - apply demo_ready.
  - done.
  - repeat constructor; [by exists c0, v0|by exists c1, v1].
  - apply (rf_undefined _ _ _ _ 3 true); [reflexivity|vm_compute; done|vm_compute; done|].
    split; [vm_compute; reflexivity|]. exists 3. split; [vm_compute; reflexivity|]. cbn. by repeat (split; [vm_compute; done|]).
  - repeat constructor; cbn; lia.
  - apply demo_targets. repeat constructor.
  - apply demo_spread.
  - eexists. split; [exact E|]. cbn [sent]. cbn. right. left.
Defined.
End Demo.
