(* ===== verification/Process.v ===== *)
(** * Processes ([proc/process.c])

  The process table and the life of a process: creation from a blob or an
  executable image, fork, exec, exit and wait.  The state of the kernel is composed
  of the scheduler, the message queues, the service names, the file system and the
  physical memory; the kernel heap is an interface, and the memory its pages come
  from is the memory processes use ([HeapMemory]).  Process pointers are indices
  into the table, frame pointers are addresses of interrupt frames on kernel stacks.

  [None] as a result of [process_execve_current] means that the kernel dereferences
  the missing thread of a process. *)
From S2P Require Import Prelude Interfaces Pmm PhysMem Vmm ProcData UserMem Uaccess Arch Sched Ipc Svc Vfs VfsFiles Elf.

(** The memory a heap takes its pages from. *)
Class HeapMemory (H : Type) := { heap_mem : H -> mstate; set_heap_mem : H -> mstate -> H }.

Definition pid_t_v (x : Z) : Z := i32 x.

Definition set_name_ids (p : process_t) (i pp : Z) (st : proc_state_t) : process_t := set_state (set_ids p i pp) st.

(** What [process_alloc] puts into the first descriptors. *)
Definition console_fds : list fd_entry_t := replicate 3 (FdEntry FD_TTY 0 0) ++ replicate 13 fd_none.

Section Process.
Context {Hp : Type} `{KH : KernelHeap Hp} `{HM : HeapMemory Hp}.

(** The kernel page table, whether the processor has the NX bit, and the embedded
  executables. *)
Context (kpml4 : Z) (nx_ok : bool) (blobs : list (list Z)).

Record kstate := KState {
  proc_table : list process_t;
  next_pid : Z;
  ksched : sched;
  frames : gmap Z isr_frame_t;
  kreg : registry;
  ksvc : svc;
  vnodes : tree;
  vroot : Z;
  vfiles : gmap Z vfs_file_t;
  kheap_ : Hp
}.
Implicit Types k : kstate.

Definition with_procs k l : kstate :=
  KState l (next_pid k) (ksched k) (frames k) (kreg k) (ksvc k) (vnodes k) (vroot k) (vfiles k) (kheap_ k).
Definition with_next k n : kstate :=
  KState (proc_table k) n (ksched k) (frames k) (kreg k) (ksvc k) (vnodes k) (vroot k) (vfiles k) (kheap_ k).
Definition with_sched k s : kstate :=
  KState (proc_table k) (next_pid k) s (frames k) (kreg k) (ksvc k) (vnodes k) (vroot k) (vfiles k) (kheap_ k).
Definition with_frames k f : kstate :=
  KState (proc_table k) (next_pid k) (ksched k) f (kreg k) (ksvc k) (vnodes k) (vroot k) (vfiles k) (kheap_ k).
Definition with_kheap k h : kstate :=
  KState (proc_table k) (next_pid k) (ksched k) (frames k) (kreg k) (ksvc k) (vnodes k) (vroot k) (vfiles k) h.
Definition with_ksvc k r : kstate :=
  KState (proc_table k) (next_pid k) (ksched k) (frames k) (kreg k) r (vnodes k) (vroot k) (vfiles k) (kheap_ k).

(** The views the components have of the state. *)
Definition kmem k : mstate := heap_mem (kheap_ k).
Definition with_kmem k (m : mstate) : kstate := with_kheap k (set_heap_mem (kheap_ k) m).
Definition kipc k : @ipc Hp svc := Ipc (kreg k) (kheap_ k) (ksvc k).
Definition with_kipc k (g : @ipc Hp svc) : kstate :=
  KState (proc_table k) (next_pid k) (ksched k) (frames k) (ip_reg g) (ip_svc g) (vnodes k) (vroot k) (vfiles k) (ip_heap g).
Definition kvfs k : @vfs Hp := Vfs (vnodes k) (vroot k) (vfiles k) (kheap_ k).
Definition with_kvfs k (v : @vfs Hp) : kstate :=
  KState (proc_table k) (next_pid k) (ksched k) (frames k) (kreg k) (ksvc k) (nodes v) (g_root v) (files v) (v_heap v).

Definition get_p k (i : Z) : process_t := zget process_zero (proc_table k) i.
Definition set_p k (i : Z) (p : process_t) : kstate := with_procs k (zset (proc_table k) i p).

Definition unused (p : process_t) : bool := bool_decide (state p = PROC_UNUSED).

Definition frame_at k (a : Z) : isr_frame_t := default frame_zero (frames k !! a).
Definition set_frame k (a : Z) (f : isr_frame_t) : kstate := with_frames k (<[a := f]> (frames k)).

(** [frame->rax = (uint64_t)(int64_t)v] *)
Definition ret k (frame v : Z) : kstate := set_frame k frame (set_rax (frame_at k frame) (u64 v)).

(** [if (frame) frame->rax = ...; return frame;] *)
Definition ret_frame k (frame v : Z) : Z * kstate := (frame, if frame =? 0 then k else ret k frame v).

(** ** The table *)

Definition process_init k : kstate :=
  let l := (fun p => set_name_ids p (-1) (ppid p) PROC_UNUSED) <$> proc_table k in
  let p := zget process_zero l 0 in
  let c := current (ksched k) in
  let p := set_ids (set_state p PROC_RUNNING) 0 (-1) in
  let p := set_thread (set_exit (set_cr3 (set_umap p []) kpml4) 0 false) (Some c) in
  let p := set_cwd (set_fds p ((fun e => FdEntry FD_NONE (fd_object e) (fd_offset e)) <$> fds p)) [SLASH] in
  let t := get_t (ksched k) c in
  let t := Thread (t_rsp t) (t_cr3 t) (stack_base t) (stack_size t) (tid t) (t_state t) (Some 0) (next t) in
  with_next (with_sched (with_procs k (zset l 0 p)) (set_t (ksched k) c t)) 1.

(** What [process_alloc] stores into the slot. *)
Definition alloc_slot (p : process_t) (i parent cr : Z) : process_t :=
  let p := set_cr3 (set_name_ids p i parent PROC_EMBRYO) cr in
  let p := set_heap (set_umap (set_thread (set_exit p 0 false) None) []) 0 0 0 in
  set_handles (set_cwd (set_fds p console_fds) [SLASH]) None.

(** Returns the index of the slot; the first free slot is tried only. *)
Definition process_alloc k (parent : Z) : option Z * kstate :=
  match first_index unused (proc_table k) with
  | None => (None, k)
  | Some i =>
      let '(cr, m) := address_space_create (kmem k) kpml4 in
      let k := with_kmem k m in
      if cr =? 0 then (None, k)
      else
        let i := Z.of_nat i in
        (Some i, set_p (with_next k (pid_t_v (next_pid k + 1))) i (alloc_slot (get_p k i) (next_pid k) parent cr))
  end.

Definition process_destroy k (i : Z) : kstate :=
  if unused (get_p k i) then k
  else
    let '(m, p) := process_destroy_user_space (kmem k) (get_p k i) in
    let k := with_kmem k m in
    let '(v, p) := vfs_close_process_fds (kvfs k) p in
    let k := with_kvfs k v in
    let k := with_kipc k (ipc_endpoint_unregister_by_owner (kipc k) (pid p)) in
    let k := with_kheap k (ipc_handle_table_destroy (kheap_ k) (ipc_handles p)) in
    let k := with_ksvc k (svc_cleanup_owner (ksvc k) (pid p)) in
    set_p k i (set_name_ids (set_handles p None) (-1) (ppid p) PROC_UNUSED).

Definition process_get k (id : Z) : option Z :=
  Z.of_nat <$> first_index (fun p => negb (unused p) && (pid p =? id)) (proc_table k).

Definition process_current k : option Z := t_proc (get_t (ksched k) (current (ksched k))).

(** ** Spawning *)

(** The code pages of a blob: the byte range [i * PAGE_SIZE] of [code] goes to page [i]. *)
Fixpoint code_pages (code : list Z) (m : mstate) (p : process_t) (l : list Z) : bool * mstate * process_t :=
  match l with
  | [] => (true, m, p)
  | i :: l =>
      let va := USER_CODE_BASE + i * PAGE_SIZE in
      let '(st, m, p) := process_alloc_user_page m p va 0 in
      if negb (st =? VOID_OK) then (false, m, p)
      else
        let phys := vmm_virt_to_phys (ms_mem m) (cr3 p) va in
        let bytes := take (Z.to_nat PAGE_SIZE) (drop (Z.to_nat (i * PAGE_SIZE)) code) in
        code_pages code (with_mem m (mem_write (ms_mem m) phys bytes)) p l
  end.

Definition user_frame_at (rip rsp : Z) : isr_frame_t :=
  IsrFrame 0 0 0 0 0 0 0 0 0 0 0 0 0 0 0 0 0 rip GDT_SEL_UCODE3 0x202 rsp GDT_SEL_UDATA3.

(** A kernel stack with the initial frame [f], and a thread for the process; the
  process becomes ready.  [None] when one of them is not available. *)
Definition start_thread k (i : Z) (f : isr_frame_t) : option kstate * kstate :=
  let '(ktop, kbase, s, m) := sched_alloc_kstack (ksched k) (kmem k) kpml4 in
  let k := with_kmem (with_sched k s) m in
  if ktop =? 0 then (None, k)
  else
    let fa := u64 (ktop - FRAME_SIZE) in
    let k := set_frame k fa f in
    let '(t, s) := sched_adopt_thread (ksched k) fa (cr3 (get_p k i)) (Some i) kbase KTHREAD_STACK_SIZE in
    let k := with_sched k s in
    match t with
    | None => (None, k)
    | Some t => (Some (set_p k i (set_state (set_thread (get_p k i) (Some t)) PROC_READY)), k)
    end.

Definition process_spawn_user k (code : list Z) (parent : Z) : Z * kstate :=
  let code_len := Z.of_nat (length code) in
  if code_len =? 0 then (-1, k)
  else
    let '(i, k) := process_alloc k parent in
    match i with
    | None => (-1, k)
    | Some i =>
        let n := (code_len + PAGE_SIZE - 1) / PAGE_SIZE in
        let '(ok, m, p) := code_pages code (kmem k) (get_p k i) (range 0 n) in
        let k := set_p (with_kmem k m) i p in
        if negb ok then (-1, process_destroy k i)
        else
          let '(r, m, p) := stack_pages (pages_from (USER_STACK_TOP - USER_STACK_SIZE) USER_STACK_TOP) (kmem k) p VMM_WRITE in
          let k := set_p (with_kmem k m) i p in
          if negb (r =? ELF_OK) then (-1, process_destroy k i)
          else
            let k := set_p k i (brk_init nx_ok p (USER_CODE_BASE + code_len)) in
            match start_thread k i (user_frame_at USER_CODE_BASE (USER_STACK_TOP - 16)) with
            | (None, k) => (-1, process_destroy k i)
            | (Some k, _) => (pid (get_p k i), k)
            end
    end.

(** Loading an image and, when it asks for one, its interpreter. *)
Definition load_image (ctx : elf_loader_t) (m : mstate) (p : process_t) : option (Z * Z * Z * mstate * process_t) :=
  match elf_load_into_process nx_ok ctx m p with
  | None => None
  | Some (es, entry, rsp, m, p) =>
      if negb (es =? ELF_OK) then Some (es, 0, 0, m, p)
      else
        match interp ctx with
        | None => Some (ELF_OK, entry, rsp, m, p)
        | Some _ =>
            match elf_load_interp nx_ok blobs ctx m p with
            | None => None
            | Some (es, entry, m, p) => Some (es, entry, rsp, m, p)
            end
        end
  end.

Definition process_spawn_elf k (image : list Z) (parent : Z) : option (Z * kstate) :=
  if Z.of_nat (length image) =? 0 then Some (-1, k)
  else
    match elf_validate image with
    | inl es => Some (es, k)
    | inr ctx =>
        let '(i, k) := process_alloc k parent in
        match i with
        | None => Some (-1, k)
        | Some i =>
            match load_image ctx (kmem k) (get_p k i) with
            | None => None
            | Some (es, entry, rsp, m, p) =>
                let k := set_p (with_kmem k m) i p in
                if negb (es =? ELF_OK) then Some (es, process_destroy k i)
                else
                  let k := set_p k i (brk_init nx_ok p (elf_load_end ctx)) in
                  match start_thread k i (user_frame_at entry rsp) with
                  | (None, k) => Some (ELF_ERR_NOMEM, process_destroy k i)
                  | (Some k, _) => Some (pid (get_p k i), k)
                  end
            end
        end
    end.

(** ** Fork *)

Definition fork_flags (pte : Z) : Z :=
  let f := if has pte VMM_WRITE then VMM_WRITE else 0 in
  if has pte VMM_NX then Z.lor f VMM_NX else f.

(** The eager copy of the pages [l] of [p] into [c]. *)
Fixpoint fork_pages (l : list (Z * Z)) (m : mstate) (p c : process_t) : bool * mstate * process_t :=
  match l with
  | [] => (true, m, c)
  | (virt, phys) :: l =>
      let flags := fork_flags (vmm_get_pte (ms_mem m) (cr3 p) virt) in
      let '(cphys, pm) := pmm_alloc_frame (ms_pmm m) in
      let m := with_pmm m pm in
      if cphys =? 0 then (false, m, c)
      else
        let m := with_mem m (mem_write (ms_mem m) cphys (mem_read (ms_mem m) phys PAGE_SIZE)) in
        let '(st, m, c) := process_map_user m c virt cphys flags in
        if negb (st =? VOID_OK) then (false, with_pmm m (pmm_free_frame (ms_pmm m) cphys), c)
        else fork_pages l m p c
  end.

(** A copy of the parent's handle table; [None] when there is no memory for it. *)
Definition fork_handles k (p : process_t) : option (option (Z * list ipc_handle_entry_t)) * kstate :=
  match ipc_handles p with
  | None => (Some None, k)
  | Some (_, hs) =>
      let '(t, h) := ipc_handle_table_create (kheap_ k) in
      let k := with_kheap k h in
      match t with
      | None => (None, k)
      | Some (a, _) => (Some (Some (a, hs)), k)
      end
  end.

Definition process_fork_current k (frame : Z) : Z * kstate :=
  match process_current k with
  | None => ret_frame k frame (- VE_PERM)
  | Some pi =>
      let p := get_p k pi in
      if pid p =? 0 then ret_frame k frame (- VE_PERM)
      else if bool_decide (state p = PROC_ZOMBIE) || bool_decide (state p = PROC_BLOCKED) then ret_frame k frame (- VE_PERM)
      else
        let '(ci, k) := process_alloc k (pid p) in
        match ci with
        | None => ret_frame k frame (- VE_NOMEM)
        | Some ci =>
            let '(ok, m, c) := fork_pages (umap p) (kmem k) p (get_p k ci) in
            let k := set_p (with_kmem k m) ci c in
            if negb ok then ret_frame (process_destroy k ci) frame (- VE_NOMEM)
            else
              let c := set_heap c (heap_start p) (brk_current p) (brk_perm p) in
              let '(hs, k) := fork_handles k p in
              let k := set_p k ci c in
              match hs with
              | None => ret_frame (process_destroy k ci) frame (- VE_NOMEM)
              | Some hs =>
                  let '(v, c) := fork_fds (kvfs k) p (set_handles c hs) in
                  let k := set_p (with_kvfs k v) ci c in
                  match start_thread k ci (set_rax (frame_at k frame) 0) with
                  | (None, k) => ret_frame (process_destroy k ci) frame (- VE_NOMEM)
                  | (Some k, _) => ret_frame k frame (pid (get_p k ci))
                  end
              end
        end
  end.

(** ** Exec *)

Definition EXEC_NAME : Z := 32.

Definition process_execve_current k (frame upath : Z) : option (Z * kstate) :=
  match process_current k with
  | None => Some (ret_frame k frame (- VE_PERM))
  | Some pi =>
      let p := get_p k pi in
      if pid p =? 0 then Some (ret_frame k frame (- VE_PERM))
      else if bool_decide (state p = PROC_ZOMBIE) then Some (ret_frame k frame (- VE_PERM))
      else
        match copy_from_user (ms_mem (kmem k)) p upath (EXEC_NAME - 1) with
        | None => Some (ret_frame k frame (- VE_FAULT))
        | Some bytes =>
            match elf_find_embedded blobs (c_string bytes) with
            | inl es => Some (ret_frame k frame es)
            | inr blob =>
                match elf_validate blob with
                | inl es => Some (ret_frame k frame es)
                | inr ctx =>
                    let '(cr, m) := address_space_create (kmem k) kpml4 in
                    if cr =? 0 then Some (ret_frame (with_kmem k m) frame (- VE_NOMEM))
                    else
                      match load_image ctx m (set_cr3 process_zero cr) with
                      | None => None
                      | Some (es, entry, rsp, m, scratch) =>
                          if negb (es =? ELF_OK) then
                            Some (ret_frame (with_kmem k (process_destroy_user_space m scratch).1) frame es)
                          else
                            let scratch := brk_init nx_ok scratch (elf_load_end ctx) in
                            let '(m, p) := process_destroy_user_space m p in
                            let p := set_umap (set_cr3 p cr) (umap scratch) in
                            let p := set_heap p (heap_start scratch) (brk_current scratch) (brk_perm scratch) in
                            let k := set_p (with_kmem k m) pi p in
                            match thread p with
                            | None => None
                            | Some ti =>
                                let s := ksched k in
                                let t := get_t s ti in
                                let t := Thread (t_rsp t) cr (stack_base t) (stack_size t) (tid t) (t_state t) (t_proc t) (next t) in
                                let s := set_t s ti t in
                                let k := with_sched k (set_hw s cr (tss_rsp0 s) (syscall_kernel_rsp s)) in
                                let f := frame_at k frame in
                                let f := IsrFrame (f_r15 f) (f_r14 f) (f_r13 f) (f_r12 f) (f_r11 f) (f_r10 f) (f_r9 f) (f_r8 f)
                                           (f_rbp f) (f_rdi f) (f_rsi f) (f_rdx f) (f_rcx f) (f_rbx f) 0
                                           (f_vector f) (f_error_code f) entry (f_cs f) (f_rflags f) rsp (f_ss f) in
                                Some (frame, set_frame k frame f)
                            end
                      end
                end
            end
        end
  end.

(** ** Exit *)

(** Children of [id] become children of [pp]. *)
Definition reparent (id pp : Z) (c : process_t) : process_t :=
  if negb (unused c) && (ppid c =? id) then set_ids c (pid c) pp else c.

(** Wakes the parent when it is blocked. *)
Definition wake_parent k (id : Z) : kstate :=
  match process_get k id with
  | None => k
  | Some i =>
      let q := get_p k i in
      if bool_decide (state q = PROC_BLOCKED) then
        let k := set_p k i (set_state q PROC_READY) in
        match thread q with
        | None => k
        | Some t => with_sched k (set_t (ksched k) t (t_set_state (get_t (ksched k) t) THREAD_READY))
        end
      else k
  end.

(** Everything before the switch away. *)
Definition exit_cleanup k (pi status : Z) : kstate :=
  let p := set_state (set_exit (get_p k pi) status true) PROC_ZOMBIE in
  let k := set_p k pi p in
  let k := with_procs k (reparent (pid p) (ppid p) <$> proc_table k) in
  let p := get_p k pi in
  let k := with_kmem k (free_user_pages (kmem k) p) in
  let '(v, p) := vfs_close_process_fds (kvfs k) (set_umap p []) in
  let k := set_p (with_kvfs k v) pi p in
  let k := with_kipc k (ipc_endpoint_unregister_by_owner (kipc k) (pid p)) in
  let k := with_ksvc k (svc_cleanup_owner (ksvc k) (pid p)) in
  wake_parent k (ppid p).

Definition process_exit_current k (frame status : Z) : Z * kstate :=
  match process_current k with
  | None => (frame, ret k frame (-1))
  | Some pi =>
      if pid (get_p k pi) =? 0 then (frame, ret k frame (-1))
      else
        let t := current (ksched k) in
        let k := exit_cleanup k pi status in
        let k := with_sched k (set_t (ksched k) t (t_set_state (get_t (ksched k) t) THREAD_EXITED)) in
        let '(f, s) := sched_tick (ksched k) frame in
        (f, with_sched k s)
  end.

(** ** Wait *)

Definition child_of (parent id : Z) (c : process_t) : bool :=
  negb (unused c) && (ppid c =? parent) && ((id =? -1) || (pid c =? id)).

Definition zombie (c : process_t) : bool := bool_decide (state c = PROC_ZOMBIE).

(** The pid with the exit status, 0, or an error. *)
Definition process_try_reap k (parent id : Z) : Z * option Z * kstate :=
  match first_index (fun c => child_of parent id c && zombie c) (proc_table k) with
  | Some i =>
      let c := get_p k (Z.of_nat i) in
      (pid c, Some (exit_status c), process_destroy k (Z.of_nat i))
  | None => (if existsb (child_of parent id) (proc_table k) then 0 else - VE_CHILD, None, k)
  end.

(** The write of the status is dropped when the pointer is not a writable user page. *)
Definition store_status k (p : process_t) (ustatus st : Z) : kstate :=
  if ustatus =? 0 then k
  else
    let m := ms_mem (kmem k) in
    let pte := vmm_get_pte m (cr3 p) ustatus in
    if Z.land pte (Z.lor (Z.lor VMM_PRESENT VMM_USER) VMM_WRITE) =? Z.lor (Z.lor VMM_PRESENT VMM_USER) VMM_WRITE then
      let phys := vmm_virt_to_phys m (cr3 p) ustatus in
      if phys =? 0 then k else with_kmem k (with_mem (kmem k) (wr32 m phys (u32 st)))
    else k.

Definition process_wait_current k (frame id ustatus : Z) : Z * kstate :=
  match process_current k with
  | None => (frame, ret k frame (- VE_PERM))
  | Some pi =>
      let '(r, st, k) := process_try_reap k (pid (get_p k pi)) id in
      if 0 <? r then
        let k := store_status k (get_p k pi) ustatus (default 0 st) in
        (frame, ret k frame r)
      else if r <? 0 then (frame, ret k frame r)
      else
        let k := set_p k pi (set_state (get_p k pi) PROC_BLOCKED) in
        let t := current (ksched k) in
        let k := with_sched k (set_t (ksched k) t (t_set_state (get_t (ksched k) t) THREAD_BLOCKED)) in
        let '(nf, s) := sched_tick (ksched k) frame in
        let k := with_sched k s in
        if negb (nf =? frame) then (nf, ret k frame 0)
        else
          let k := set_p k pi (set_state (get_p k pi) PROC_RUNNING) in
          let k := with_sched k (set_t (ksched k) t (t_set_state (get_t (ksched k) t) THREAD_RUNNING)) in
          (frame, ret k frame 0)
  end.

(** ** The timer interrupt *)

Definition timer k (frame : Z) : Z * kstate :=
  let '(f, s) := sched_tick (ksched k) frame in (f, with_sched k s).
End Process.
