(* ===== verification/ProcLife.v ===== *)
(** * The life of processes

  What every sequence of process operations keeps: process ids are unique, the
  kernel process is never lost, a thread that can still run belongs to a live
  process, and a zombie's thread has exited.  The table is seen through the fields
  that matter here, a [slot] per entry. *)
From S2P Require Import Prelude Interfaces Pmm PhysMem Vmm ProcData UserMem Uaccess Arch Sched Ipc Svc Vfs VfsFiles Elf Process.

Record slot := Slot { c_pid : Z; c_ppid : Z; c_state : proc_state_t; c_thread : option Z }.

Definition core (p : process_t) : slot := Slot (pid p) (ppid p) (state p) (thread p).

Definition used (c : slot) : Prop := c_state c <> PROC_UNUSED.
Definition live (c : slot) : Prop := used c /\ c_state c <> PROC_ZOMBIE.

(** [d] is a thread that is about to exit. *)
Record life_ok (d : option Z) (l : list slot) (n : Z) (s : sched) : Prop := {
  lf_len : length l = 64%nat;
  lf_next : 1 <= n < 2 ^ 31;
  lf_kernel : exists c, l !! 0%nat = Some c /\ c_pid c = 0 /\ c_ppid c = -1 /\ live c;
  lf_pid : forall i c, l !! S i = Some c -> used c -> 0 < c_pid c < n;
  lf_ppid : forall i c, l !! i = Some c -> used c -> c_ppid c < c_pid c;
  lf_uniq : forall i j c c', l !! i = Some c -> l !! j = Some c' -> used c -> used c' -> c_pid c = c_pid c' -> i = j;
  lf_sched : exists r, sched_inv s r;
  lf_idle : t_proc (get_t s (idle_thread s)) = None;
  lf_owner : forall t i, 0 <= t < next_tid s -> t_proc (get_t s t) = Some i -> t_state (get_t s t) <> THREAD_EXITED ->
    d <> Some t -> 0 <= i /\ exists c, l !! Z.to_nat i = Some c /\ live c /\ c_thread c = Some t;
  lf_thread : forall i c t, l !! i = Some c -> used c -> c_thread c = Some t ->
    0 <= t < next_tid s /\ t_proc (get_t s t) = Some (Z.of_nat i);
  lf_unborn : forall t, next_tid s <= t < 64 -> t_proc (get_t s t) = None
}.

Section Lists.
Context (d : option Z) (n : Z) (s : sched).
Implicit Types l : list slot.

Lemma kernel_live l c : life_ok d l n s -> l !! 0%nat = Some c -> c_pid c = 0 /\ c_ppid c = -1 /\ live c.
Proof. intros H E. destruct (lf_kernel _ _ _ _ H) as (c' & E' & ?). rewrite E in E'. by injection E' as ->. Qed.

Lemma pid_bounds l i c : life_ok d l n s -> l !! i = Some c -> used c -> 0 <= c_pid c < n /\ (c_pid c = 0 -> i = 0%nat).
Proof.
  intros H E Hu. destruct i as [|i].
  - destruct (kernel_live l c H E) as (-> & _). pose proof (lf_next _ _ _ _ H). split; [lia|done].
  - pose proof (lf_pid _ _ _ _ H i c E Hu). lia.
Qed.

(** Changing a slot that stays in use. *)
Lemma life_set l i c c' : life_ok d l n s -> l !! i = Some c -> used c -> used c' ->
  c_pid c' = c_pid c -> c_thread c' = c_thread c -> c_ppid c' < c_pid c' ->
  (i = 0%nat -> c_ppid c' = -1 /\ live c') ->
  (c_state c' = PROC_ZOMBIE -> forall t, c_thread c = Some t -> t_state (get_t s t) = THREAD_EXITED \/ d = Some t) ->
  life_ok d (<[i := c']> l) n s.
Proof.
  intros H E Hu Hu' Hpid Hth Hpp H0 Hz. pose proof H as [L N K P PP U S I O T B].
  assert (Hi : (i < length l)%nat) by by eapply lookup_lt_Some.
  split; try done.
  - by rewrite length_insert.
  - destruct i as [|i].
    + exists c'. rewrite list_lookup_insert_eq by done. destruct (H0 eq_refl). destruct (kernel_live l c H E) as (? & _).
      split_and!; try done. congruence.
    + destruct K as (k & Ek & ?). exists k. by rewrite list_lookup_insert_ne.
  - intros j x [(-> & <- & _)|[_ Hx]]%list_lookup_insert_Some Hux; [|by apply (P j)].
    rewrite Hpid. by apply (P j c).
  - intros j x [(<- & <- & _)|[_ Hx]]%list_lookup_insert_Some Hux; [done|by apply (PP j)].
  - intros j j' x x' Hx Hx' Hux Hux' Hp.
    apply list_lookup_insert_Some in Hx as [(<- & <- & _)|[Hne Hx]], Hx' as [(<- & <- & _)|[Hne' Hx']]; [done| | |].
    + rewrite Hpid in Hp. by apply (U i j' c x').
    + rewrite Hpid in Hp. by apply (U j i x c).
    + by apply (U j j' x x').
  - intros t j Ht Hpr Hst Hd. destruct (O t j Ht Hpr Hst Hd) as (Hj & x & Hx & Hl & Hxt). split; [done|].
    destruct (decide (i = Z.to_nat j)) as [Heq|Hne]; [|exists x; by rewrite list_lookup_insert_ne].
    rewrite <- Heq in Hx. rewrite E in Hx. injection Hx as <-. exists c'. rewrite <- Heq, list_lookup_insert_eq by done.
    split_and!; [done| |congruence]. split; [done|]. intros Hzz. destruct (Hz Hzz t Hxt); done.
  - intros j x t [(<- & <- & _)|[_ Hx]]%list_lookup_insert_Some Hux Hxt; [|by apply (T j x)].
    apply (T i c); congruence.
Qed.

(** Nobody runs for the slot. *)
Definition idle_slot (c : slot) : Prop := c_state c = PROC_ZOMBIE \/ c_thread c = None.

(** Freeing a slot. *)
Lemma life_free l i c c' : life_ok d l n s -> l !! i = Some c -> i <> 0%nat -> idle_slot c -> c_state c' = PROC_UNUSED ->
  life_ok d (<[i := c']> l) n s.
Proof.
  intros H E Hi0 Hid Hu'. pose proof H as [L N K P PP U S I O T B].
  assert (Hi : (i < length l)%nat) by by eapply lookup_lt_Some.
  split; try done.
  - by rewrite length_insert.
  - destruct K as (k & Ek & ?). exists k. by rewrite list_lookup_insert_ne.
  - intros j x [(<- & <- & _)|[_ Hx]]%list_lookup_insert_Some Hux; [done|by apply (P j)].
  - intros j x [(<- & <- & _)|[_ Hx]]%list_lookup_insert_Some Hux; [done|by apply (PP j)].
  - intros j j' x x' [(<- & <- & _)|[Hne Hx]]%list_lookup_insert_Some [(<- & <- & _)|[Hne' Hx']]%list_lookup_insert_Some Hux Hux' Hp;
      [done..|]. by apply (U j j' x x').
  - intros t j Ht Hpr Hst Hd. destruct (O t j Ht Hpr Hst Hd) as (Hj & x & Hx & Hl & Hxt). split; [done|].
    destruct (decide (i = Z.to_nat j)) as [Heq|Hne]; [|exists x; by rewrite list_lookup_insert_ne].
    rewrite <- Heq in Hx. rewrite E in Hx. injection Hx as <-. destruct Hid as [Hid|Hid]; [by destruct Hl|congruence].
  - intros j x t [(<- & <- & _)|[_ Hx]]%list_lookup_insert_Some Hux Hxt; [done|by apply (T j x)].
Qed.
End Lists.

(** Filling a free slot. *)
Lemma life_alloc d n s l i c parent : life_ok d l n s -> l !! i = Some c -> c_state c = PROC_UNUSED ->
  0 <= parent < n -> n < 2 ^ 31 - 1 -> life_ok d (<[i := Slot n parent PROC_EMBRYO None]> l) (n + 1) s.
Proof.
  intros H E Hun Hpar Hn. pose proof H as [L N K P PP U S I O T B].
  assert (Hi : (i < length l)%nat) by by eapply lookup_lt_Some.
  assert (Hi0 : i <> 0%nat). { intros ->. by destruct (kernel_live _ _ _ _ _ H E) as (_ & _ & [? _]). }
  assert (Hb : forall j x, l !! j = Some x -> used x -> 0 <= c_pid x < n).
  { intros j x Hx Hux. by destruct (pid_bounds _ _ _ l j x H Hx Hux). }
  split; try done; cbn [c_pid c_ppid c_state c_thread].
  - by rewrite length_insert.
  - lia.
  - destruct K as (k & Ek & ?). exists k. by rewrite list_lookup_insert_ne.
  - intros j x [(<- & <- & _)|[_ Hx]]%list_lookup_insert_Some Hux; [cbn; lia|]. pose proof (P j x Hx Hux). lia.
  - intros j x [(<- & <- & _)|[_ Hx]]%list_lookup_insert_Some Hux; [cbn; lia|by apply (PP j)].
  - intros j j' x x' [(<- & <- & _)|[Hne Hx]]%list_lookup_insert_Some [(<- & <- & _)|[Hne' Hx']]%list_lookup_insert_Some Hux Hux' Hp;
      [done| | |by apply (U j j' x x')]; cbn [c_pid] in Hp.
    + specialize (Hb j' x' Hx' Hux'). lia.
    + specialize (Hb j x Hx Hux). lia.
  - intros t j Ht Hpr Hst Hd. destruct (O t j Ht Hpr Hst Hd) as (Hj & x & Hx & Hl & Hxt). split; [done|].
    destruct (decide (i = Z.to_nat j)) as [Heq|Hne]; [|exists x; by rewrite list_lookup_insert_ne].
    rewrite <- Heq in Hx. rewrite E in Hx. injection Hx as <-. by destruct Hl as [? _].
  - intros j x t [(<- & <- & _)|[_ Hx]]%list_lookup_insert_Some Hux Hxt; [done|by apply (T j x)].
Qed.

(** ** The scheduler's side *)

(** A scheduler that differs in nothing that matters. *)
Record same_threads (s s' : sched) : Prop := {
  sm_inv : forall r, sched_inv s r -> exists r', sched_inv s' r';
  sm_next : next_tid s' = next_tid s;
  sm_idle : idle_thread s' = idle_thread s;
  sm_current : current s' = current s;
  sm_proc : forall t, 0 <= t -> t_proc (get_t s' t) = t_proc (get_t s t);
  sm_state : forall t, 0 <= t -> t_state (get_t s' t) = t_state (get_t s t)
}.

Definition running (s : sched) : Prop := t_state (get_t s (current s)) = THREAD_RUNNING.

Lemma sched_bounds s r : sched_inv s r -> 0 <= current s < next_tid s /\ next_tid s <= 64 /\ length (threads s) = 64%nat /\
  0 <= idle_thread s < next_tid s.
Proof.
  intros [_ _ R M L I]. unfold MAX_THREADS in *. rewrite Forall_forall in R. split_and!; try done; apply R; (done || by left).
Qed.

Lemma life_same d l n s s' : life_ok d l n s -> same_threads s s' -> life_ok d l n s'.
Proof.
  intros [L N K P PP U [r S] I O T B] [Hi Hn Hid Hc Hp Hs]. destruct (sched_bounds s r S) as (_ & _ & _ & Hidle).
  split; try done.
  - by apply (Hi r).
  - by rewrite Hid, Hp by lia.
  - intros t i Ht Hpr Hst Hd. rewrite Hn in Ht. rewrite Hp in Hpr by lia. rewrite Hs in Hst by lia. by apply O.
  - intros i c t Hc' Hu Hth. destruct (T i c t Hc' Hu Hth). rewrite Hn, Hp by lia. done.
  - intros t Ht. rewrite Hn in Ht. rewrite Hp by lia. by apply B.
Qed.

Lemma same_vaddr s v : same_threads s (set_vaddr s v).
Proof. split; try done. intros r Hr. exists r. by apply set_vaddr_inv. Qed.

Lemma same_running s s' : same_threads s s' -> 0 <= current s -> running s -> running s'.
Proof. intros H Hc Hr. unfold running. rewrite (sm_current _ _ H), (sm_state _ _ H) by done. done. Qed.

(** A new thread for a slot. *)
Lemma adopt_full s r rsp cr3 proc kb ks t s' : sched_inv s r -> sched_adopt_thread s rsp cr3 proc kb ks = (Some t, s') ->
  t = next_tid s /\ t < 64 /\ next_tid s' = t + 1 /\ (exists r', sched_inv s' r') /\ idle_thread s' = idle_thread s /\
  scheduler_active s' = scheduler_active s /\ current s' = current s /\
  t_proc (get_t s' t) = proc /\
  forall j, 0 <= j < 64 -> j <> t -> t_proc (get_t s' j) = t_proc (get_t s j) /\ t_state (get_t s' j) = t_state (get_t s j).
Proof.
  intros Hi E. destruct (sched_bounds s r Hi) as (Hc & Hm & Hl & _). pose proof (adopt_spec s r rsp cr3 proc kb ks Hi) as Hs.
  rewrite E in Hs. destruct Hs as [(? & _)|([= ->] & Hlt & Hn & Hg & (_ & _ & Hp & _))]; [done|].
  destruct Hg as [Hi' _ _ Hc' Ha' _]. unfold MAX_THREADS in *. revert E. unfold sched_adopt_thread.
  rewrite (proj2 (Z.leb_gt MAX_THREADS (next_tid s))) by (unfold MAX_THREADS; lia). intros [= <-].
  set (tt := Thread _ _ _ _ _ _ _ _) in *. pose proof (Sched.bump_inv s r tt Hi ltac:(unfold MAX_THREADS; lia)) as H1.
  set (s1 := set_t (set_next_tid s (u32 (next_tid s + 1))) (next_tid s) tt) in *.
  assert (Hn1 : next_tid s1 = next_tid s + 1) by (apply u32_id; lia).
  destruct (ring_insert_spec s1 r (next_tid s) H1) as (_ & _ & _ & Hid & _ & _ & Hk).
  { rewrite Hn1. lia. } { by apply (tid_not_in_ring s r Hi). }
  split_and!; try done; [by eexists|]. intros j Hj Hjt. destruct (Hk j ltac:(lia)) as (-> & _ & _ & -> & _).
  unfold s1, get_t. cbn [set_t set_threads set_next_tid threads]. by rewrite zget_zset_ne by lia.
Qed.

Lemma life_start d l n s i c rsp cr3 kb ks t s' : life_ok d l n s -> l !! i = Some c -> i <> 0%nat -> used c ->
  c_state c <> PROC_ZOMBIE -> c_thread c = None ->
  sched_adopt_thread s rsp cr3 (Some (Z.of_nat i)) kb ks = (Some t, s') ->
  life_ok d (<[i := Slot (c_pid c) (c_ppid c) PROC_READY (Some t)]> l) n s'.
Proof.
  intros H E Hi0 Hu Hz Hth Ea. pose proof H as [L N K P PP U [r S] I O T B]. assert (Hi : (i < length l)%nat) by by eapply lookup_lt_Some.
  destruct (adopt_full _ _ _ _ _ _ _ _ _ S Ea) as (-> & Hlt & Hn & Hr & Hid & Ha & Hc & Hp & Ho).
  destruct (sched_bounds s r S) as (_ & _ & _ & Hidle).
  split; try done; cbn [c_pid c_ppid c_state c_thread].
  - by rewrite length_insert.
  - destruct K as (k & Ek & ?). exists k. by rewrite list_lookup_insert_ne.
  - intros j x [(-> & <- & _)|[_ Hx]]%list_lookup_insert_Some Hux; [by apply (P j c)|by apply (P j)].
  - intros j x [(<- & <- & _)|[_ Hx]]%list_lookup_insert_Some Hux; [by apply (PP i c)|by apply (PP j)].
  - intros j j' x x' [(<- & <- & _)|[Hne Hx]]%list_lookup_insert_Some [(<- & <- & _)|[Hne' Hx']]%list_lookup_insert_Some Hux Hux' Hpp;
      [done|by apply (U i j' c x')|by apply (U j i x c)|by apply (U j j' x x')].
  - rewrite Hid. destruct (Ho (idle_thread s) ltac:(lia) ltac:(lia)) as [-> _]. done.
  - intros t j Ht Hpr Hst Hd. rewrite Hn in Ht. destruct (decide (t = next_tid s)) as [->|Hne].
    + rewrite Hp in Hpr. injection Hpr as <-. split; [lia|]. eexists. rewrite Nat2Z.id, list_lookup_insert_eq by done. done.
    + destruct (Ho t ltac:(lia) Hne) as [E1 E2]. rewrite E1 in Hpr. rewrite E2 in Hst.
      destruct (O t j ltac:(lia) Hpr Hst Hd) as (Hj & x & Hx & Hl & Hxt). split; [done|]. exists x. split; [|done].
      rewrite list_lookup_insert_ne; [done|]. intros Heq. rewrite <- Heq, E in Hx. injection Hx as <-. congruence.
  - intros j x t [(<- & <- & _)|[_ Hx]]%list_lookup_insert_Some Hux Hxt; cbn [c_thread] in Hxt.
    + injection Hxt as <-. split; [lia|done].
    + destruct (T j x t Hx Hux Hxt). destruct (Ho t ltac:(lia) ltac:(lia)) as [-> _]. split; [lia|done].
  - intros t Ht. destruct (Ho t ltac:(lia) ltac:(lia)) as [-> _]. apply B. lia.
Qed.

(** A kernel thread, which belongs to no process. *)
Lemma create_full s r m kcr3 entry func arg t s' m' fr : sched_inv s r ->
  sched_create_kthread s m kcr3 entry func arg = (t, s', m', fr) ->
  (exists r', sched_inv s' r') /\ next_tid s <= next_tid s' /\ idle_thread s' = idle_thread s /\ current s' = current s /\
  scheduler_active s' = scheduler_active s /\
  (forall j, 0 <= j < 64 -> t_proc (get_t s' j) = t_proc (get_t s j)) /\
  (forall j, 0 <= j < next_tid s -> t_state (get_t s' j) = t_state (get_t s j)).
Proof.
  intros Hi E. destruct (create_spec s r _ _ _ _ _ _ _ _ _ Hi E) as (r' & [Hi' _ _ Hc Ha _] & _).
  destruct (sched_bounds s r Hi) as (Hcb & Hm & Hl & _). revert E. unfold sched_create_kthread.
  destruct (Z.leb_spec MAX_THREADS (next_tid s)) as [|Hlt]; [intros [= _ <- _ _]; split_and!; try done; by eexists|].
  unfold MAX_THREADS in Hlt. set (n := next_tid s) in *. set (t1 := Thread _ _ _ _ _ _ _ _).
  pose proof (Sched.bump_inv s r t1 Hi Hlt) as H1. set (s1 := set_t (set_next_tid s (u32 (n + 1))) n t1) in *.
  assert (Hn1 : next_tid s1 = n + 1) by (apply u32_id; lia).
  assert (Hg : forall j, 0 <= j < 64 -> t_proc (get_t s1 j) = t_proc (get_t s j)).
  { intros j Hj. unfold s1, get_t. cbn [set_t set_threads set_next_tid threads]. destruct (decide (j = n)) as [->|Hne];
      [by rewrite zget_zset_eq by lia|by rewrite zget_zset_ne by lia]. }
  assert (Hs : forall j, 0 <= j < n -> t_state (get_t s1 j) = t_state (get_t s j)).
  { intros j Hj. unfold s1, get_t. cbn [set_t set_threads set_next_tid threads]. by rewrite zget_zset_ne by lia. }
  destruct (alloc_kstack s1 m kcr3) as [[[top base] s2] m2] eqn:Ea. apply alloc_kstack_sched in Ea as [v ->].
  destruct (top =? 0); [intros [= _ <- _ _]; split_and!; try done; [by eexists|cbn [next_tid set_vaddr]; lia]|].
  set (t3 := Thread _ _ _ _ _ _ _ _). intros [= _ <- _ _].
  pose proof (set_t_inv _ _ n t3 (set_vaddr_inv _ _ v H1) ltac:(lia) eq_refl) as H3.
  set (s3 := set_t (set_vaddr s1 v) n t3) in *.
  destruct (ring_insert_spec s3 r n H3) as (_ & _ & Hn & Hid & _ & _ & Hk).
  { change (next_tid s3) with (next_tid s1). lia. } { by apply (tid_not_in_ring s r Hi). }
  assert (L1 : length (threads s1) = 64%nat) by apply (si_len _ _ H1).
  split_and!; try done; [by eexists|rewrite Hn; change (next_tid s3) with (next_tid s1); lia|..]; intros j Hj;
    destruct (Hk j ltac:(lia)) as (Es & _ & _ & Ep & _); rewrite ?Es, ?Ep; unfold s3.
  - destruct (decide (j = n)) as [->|]; [rewrite get_set_eq by (done || lia)|rewrite get_set_ne by lia]; by rewrite <- Hg.
  - rewrite get_set_ne by lia. by rewrite <- Hs.
Qed.

Lemma life_create d l n s m kcr3 entry func arg t s' m' fr : life_ok d l n s ->
  sched_create_kthread s m kcr3 entry func arg = (t, s', m', fr) ->
  life_ok d l n s' /\ (running s -> running s').
Proof.
  intros [L N K P PP U [r S] I O T B] E. destruct (create_full _ _ _ _ _ _ _ _ _ _ _ S E) as (Hi & Hn & Hid & Hc & _ & Hp & Hs).
  destruct (sched_bounds s r S) as (Hcb & Hm & _ & Hidle). destruct Hi as [r' Hi]. destruct (sched_bounds s' r' Hi) as (_ & Hm' & _).
  split; [split; try done|].
  - by eexists.
  - by rewrite Hid, Hp by lia.
  - intros x i Hx Hpr Hst Hd. rewrite Hp in Hpr by lia. destruct (decide (x < next_tid s)) as [Hlt|Hge].
    + rewrite Hs in Hst by lia. apply O; try done. lia.
    + rewrite B in Hpr by lia. done.
  - intros i c x Hc' Hu Hth. destruct (T i c x Hc' Hu Hth). rewrite Hp by lia. split; [lia|done].
  - intros x Hx. rewrite Hp by lia. apply B. lia.
  - unfold running. by rewrite Hc, Hs by lia.
Qed.

(** Changing the state of one thread. *)
Lemma life_set_state d d' l n s t st : life_ok d l n s -> 0 <= t < next_tid s ->
  (forall t', t' <> t -> d' <> Some t' -> d <> Some t') ->
  (forall i, st <> THREAD_EXITED -> t_proc (get_t s t) = Some i -> d' <> Some t ->
     0 <= i /\ exists c, l !! Z.to_nat i = Some c /\ live c /\ c_thread c = Some t) ->
  life_ok d' l n (set_t s t (t_set_state (get_t s t) st)).
Proof.
  intros [L N K P PP U [r S] I O T B] Ht Hd Ho. destruct (sched_bounds s r S) as (_ & Hm & Hl & Hidle).
  assert (Hg : forall j, 0 <= j -> t_proc (get_t (set_t s t (t_set_state (get_t s t) st)) j) = t_proc (get_t s j)).
  { intros j Hj. destruct (decide (j = t)) as [->|Hne]; [by rewrite get_set_eq by (done || lia)|by rewrite get_set_ne by lia]. }
  split; try done.
  - exists r. apply set_t_inv; [done|lia|done].
  - by rewrite Hg by (cbn; lia).
  - intros t' i Ht' Hpr Hst Hd'. rewrite Hg in Hpr by lia. destruct (decide (t' = t)) as [->|Hne].
    + rewrite get_set_eq in Hst by (done || lia). by apply Ho.
    + rewrite get_set_ne in Hst by lia. apply (O t'); auto.
  - intros i c t' Hc Hu Hth. destruct (T i c t' Hc Hu Hth). rewrite Hg by lia. done.
  - intros t' Ht'. cbn [next_tid set_t set_threads] in Ht'. rewrite Hg by lia. by apply B.
Qed.

(** A tick hands the CPU to a thread that may run. *)
Lemma life_tick l n s frame : life_ok None l n s -> scheduler_active s = true ->
  life_ok None l n (sched_tick s frame).2 /\ running (sched_tick s frame).2 /\ scheduler_active (sched_tick s frame).2 = true.
Proof.
  intros [L N K P PP U [r S] I O T B] A. pose proof (tick_spec s r frame S A) as Ht.
  destruct (park_spec s r frame S) as (_ & Ec & Eo & Hcp & Hid & _). destruct (sched_bounds s r S) as (Hc & Hm & Hl & Hidle).
  set (m := chosen s r frame) in *. destruct (sched_tick s frame) as [x s'].
  destruct Ht as (Hin & _ & Hcur & En & Eoth & Hn & Hi & Ha & _ & _ & Hinv). cbn [snd].
  pose proof (si_range _ _ S) as R. rewrite Forall_forall in R. specialize (R m Hin). cbn beta in R.
  assert (Hproc : forall t, 0 <= t -> t_proc (get_t s' t) = t_proc (get_t s t)).
  { intros t Ht. assert (E : t_proc (get_t s' t) = t_proc (get_t (park s frame) t)).
    { destruct (decide (t = m)) as [->|]; [by rewrite En|by rewrite Eoth]. }
    rewrite E. destruct (decide (t = current s)) as [->|]; [by rewrite Ec|by rewrite Eo]. }
  assert (Hstate : forall t i, 0 <= t -> t_proc (get_t s t) = Some i -> t_state (get_t s' t) <> THREAD_EXITED ->
    t_state (get_t s t) <> THREAD_EXITED).
  { intros t i Ht0 Hpr Hst. destruct (decide (t = m)) as [->|Hne].
    - unfold m, chosen in Hpr |- *. destruct (first_ready (park s frame) (r ++ [current s])) as [x'|] eqn:Ef;
        cbn [default] in *; unfold id in *; [|congruence].
      destruct (first_ready_in _ _ _ Ef) as [_ Hr]. unfold ready in Hr. case_decide as Hrd; [|done].
      destruct (decide (x' = current s)) as [->|Hnc].
      + rewrite Ec in Hrd. unfold parked, parked_state in Hrd. cbn [t_state t_set_state] in Hrd. case_decide; congruence.
      + assert (0 <= x') by (unfold m, chosen in R; rewrite Ef in R; apply R). rewrite Eo in Hrd by done. congruence.
    - rewrite Eoth in Hst by done. destruct (decide (t = current s)) as [->|Hnc].
      + rewrite Ec in Hst. unfold parked, parked_state in Hst. cbn [t_state t_set_state] in Hst. case_decide; congruence.
      + by rewrite Eo in Hst. }
  split; [split; try done|split; [|done]].
  - apply list_elem_of_split in Hin as (pre & post & He). exists (post ++ pre). by apply Hinv.
  - by rewrite Hi, Hproc by lia.
  - intros t i Ht Hpr Hst Hd. rewrite Hn in Ht. rewrite Hproc in Hpr by lia. apply O; try done. by apply (Hstate t i); try lia.
  - intros i c t Hcc Hu Hth. destruct (T i c t Hcc Hu Hth). rewrite Hn, Hproc by lia. done.
  - intros t Ht. rewrite Hn in Ht. rewrite Hproc by lia. by apply B.
  - unfold running. by rewrite Hcur, En.
Qed.

(** ** Operations on memory keep the slot *)
Ltac keep_core := repeat case_match; simplify_eq; try done.

Lemma alloc_page_core m p va fl r m' p' : process_alloc_user_page m p va fl = (r, m', p') -> core p' = core p.
Proof. unfold process_alloc_user_page, process_map_user. intros E. keep_core. Qed.

Lemma map_user_core m p va ph fl r m' p' : process_map_user m p va ph fl = (r, m', p') -> core p' = core p.
Proof. unfold process_map_user. intros E. keep_core. Qed.

Lemma stack_pages_core l fl : forall m p r m' p', stack_pages l m p fl = (r, m', p') -> core p' = core p.
Proof.
  induction l as [|va l IH]; intros m p r m' p'; cbn [stack_pages]; [by intros [= _ _ <-]|].
  destruct (process_alloc_user_page m p va fl) as [[st m1] p1] eqn:E. apply alloc_page_core in E. case_match; [by intros [= _ _ <-]|].
  intros ->%IH. done.
Qed.

Lemma code_pages_core code l : forall m p r m' p', code_pages code m p l = (r, m', p') -> core p' = core p.
Proof.
  induction l as [|i l IH]; intros m p r m' p'; cbn [code_pages]; [by intros [= _ _ <-]|].
  destruct (process_alloc_user_page m p _ 0) as [[st m1] p1] eqn:E. apply alloc_page_core in E. case_match; [by intros [= _ _ <-]|].
  intros ->%IH. done.
Qed.

Lemma fork_pages_core l p : forall m c r m' c', fork_pages l m p c = (r, m', c') -> core c' = core c.
Proof.
  induction l as [|[v f] l IH]; intros m c r m' c'; cbn [fork_pages]; [by intros [= _ _ <-]|].
  destruct (pmm_alloc_frame (ms_pmm m)) as [cf pm]. case_match; [by intros [= _ _ <-]|].
  destruct (process_map_user _ c v cf _) as [[st m1] c1] eqn:E. apply map_user_core in E. case_match; [by intros [= _ _ <-]|].
  intros ->%IH. done.
Qed.

Lemma map_pages_core nx fl last fuel : forall m p va r m' p', map_pages fuel nx m p fl va last = Some (r, m', p') -> core p' = core p.
Proof.
  induction fuel as [|fuel IH]; intros m p va r m' p'; cbn [map_pages]; [done|]. case_match; [|by intros [= _ _ <-]]. cbn zeta.
  case_match.
  - destruct (process_alloc_user_page m p va fl) as [[st m1] p1] eqn:E. apply alloc_page_core in E.
    case_match; [by intros [= _ _ <-]|]. intros ->%IH. done.
  - case_match; [by intros [= _ _ <-]|]. destruct (vmm_map_page m _ va _ _) as [st m1]. case_match; [by intros [= _ _ <-]|].
    intros ->%IH. done.
Qed.

Lemma map_segment_core nx base ph m p r m' p' : map_segment_pages nx m p ph base = Some (r, m', p') -> core p' = core p.
Proof. unfold map_segment_pages. cbn zeta. generalize page_fuel. intros fuel. apply map_pages_core. Qed.

Lemma map_segments_core nx base l : forall m p r m' p', map_segments nx m p base l = Some (r, m', p') -> core p' = core p.
Proof.
  induction l as [|ph l IH]; intros m p r m' p'; cbn [map_segments]; [by intros [= _ _ <-]|]. case_match; [apply IH|].
  destruct (map_segment_pages nx m p ph base) as [[[r1 m1] p1]|] eqn:E; [|done]. apply map_segment_core in E.
  case_match; [by intros [= _ _ <-]|]. intros ->%IH. done.
Qed.

Lemma load_segments_core nx ctx m p r m' p' : elf_load_segments_only nx ctx m p = Some (r, m', p') -> core p' = core p.
Proof.
  unfold elf_load_segments_only. cbn zeta. destruct (map_segments nx m p _ _) as [[[r1 m1] p1]|] eqn:E; [|done].
  apply map_segments_core in E. destruct (negb (r1 =? ELF_OK)); [by intros [= _ _ <-]|].
  destruct (copy_segments m1 p1 _ _ _) as [[r2 m2]|]; [by intros [= _ _ <-]|done].
Qed.

Lemma setup_stack_core nx m p ctx r x m' p' : setup_user_stack nx m p ctx = (r, x, m', p') -> core p' = core p.
Proof.
  unfold setup_user_stack. generalize (pages_from (USER_STACK_TOP - USER_STACK_SIZE) USER_STACK_TOP) stack_str stack_rsp.
  intros l a1 a2. cbn zeta. destruct (stack_pages l m p _) as [[r2 m2] p2] eqn:E2. apply stack_pages_core in E2.
  destruct (negb (r2 =? ELF_OK)); [by intros [= _ _ _ <-]|]. destruct (_ =? 0); [by intros [= _ _ _ <-]|].
  destruct (_ =? 0); by intros [= _ _ _ <-].
Qed.

Lemma load_process_core nx ctx m p r e x m' p' : elf_load_into_process nx ctx m p = Some (r, e, x, m', p') -> core p' = core p.
Proof.
  unfold elf_load_into_process. destruct (elf_load_segments_only nx ctx m p) as [[[r1 m1] p1]|] eqn:E; [|done].
  apply load_segments_core in E. destruct (negb (r1 =? ELF_OK)); [by intros [= _ _ _ _ <-]|].
  destruct (setup_user_stack nx m1 p1 ctx) as [[[r2 x2] m2] p2] eqn:E2. apply setup_stack_core in E2.
  destruct (negb (r2 =? ELF_OK)); intros [= _ _ _ _ <-]; congruence.
Qed.

Lemma load_interp_core nx blobs ctx m p r e m' p' : elf_load_interp nx blobs ctx m p = Some (r, e, m', p') -> core p' = core p.
Proof.
  unfold elf_load_interp. destruct (interp ctx) as [path|]; [|by intros [= _ _ _ <-]].
  destruct (elf_find_embedded blobs _) as [es|blob]; [by intros [= _ _ _ <-]|].
  destruct (elf_validate blob) as [es|ic]; [by intros [= _ _ _ <-]|]. destruct (interp ic); [by intros [= _ _ _ <-]|].
  destruct (elf_load_segments_only nx ic m p) as [[[r1 m1] p1]|] eqn:E; [|done]. apply load_segments_core in E.
  destruct (negb (r1 =? ELF_OK)); by intros [= _ _ _ <-].
Qed.

Lemma load_image_core nx blobs ctx m p r e x m' p' : load_image nx blobs ctx m p = Some (r, e, x, m', p') -> core p' = core p.
Proof.
  unfold load_image. destruct (elf_load_into_process nx ctx m p) as [[[[[r1 e1] x1] m1] p1]|] eqn:E; [|done].
  apply load_process_core in E. destruct (negb (r1 =? ELF_OK)); [by intros [= _ _ _ _ <-]|].
  destruct (interp ctx); [|by intros [= _ _ _ _ <-]].
  destruct (elf_load_interp nx blobs ctx m1 p1) as [[[[r2 e2] m2] p2]|] eqn:E2; [|done]. apply load_interp_core in E2.
  intros [= _ _ _ _ <-]. congruence.
Qed.

Lemma close_fds_core {H} `{KernelHeap H} (v : @vfs H) p : core (vfs_close_process_fds v p).2 = core p.
Proof.
  unfold vfs_close_process_fds. generalize (seq 0 (length (fds p))). intros l. revert v p.
  induction l as [|fd l IH]; intros v p; cbn [foldl]; [done|]. unfold close_slot at 2. repeat case_match; by rewrite IH.
Qed.

(** ** The operations *)
Section Kernel.
Context {Hp : Type} `{KH : KernelHeap Hp} `{HM : HeapMemory Hp}.
Context (kpml4 : Z) (nx_ok : bool) (blobs : list (list Z)).
Notation kstate := (@kstate Hp).
Implicit Types k : kstate.

Definition cores k : list slot := core <$> proc_table k.
Definition klife (d : option Z) k : Prop := life_ok d (cores k) (next_pid k) (ksched k).

(** Between two steps the current thread runs. *)
Definition sys_ok k : Prop := klife None k /\ running (ksched k).

Lemma cores_set_p k i p : cores (set_p k i p) = <[Z.to_nat i := core p]> (cores k).
Proof. unfold cores, set_p, zset. cbn [proc_table with_procs]. by rewrite list_fmap_insert. Qed.

Lemma core_get k i c : cores k !! Z.to_nat i = Some c -> core (get_p k i) = c.
Proof.
  unfold cores, get_p. rewrite list_lookup_fmap, zget_lookup. by destruct (proc_table k !! Z.to_nat i); intros [= <-].
Qed.

Lemma klife_len d k : klife d k -> length (proc_table k) = 64%nat.
Proof. intros H. pose proof (lf_len _ _ _ _ H) as Hl. unfold cores in Hl. by rewrite length_fmap in Hl. Qed.

Lemma get_set_p k i p : 0 <= i < Z.of_nat (length (proc_table k)) -> get_p (set_p k i p) i = p.
Proof. intros H. unfold get_p, set_p. cbn [proc_table with_procs]. apply zget_zset_eq. lia. Qed.

(** *** Freeing *)
Lemma destroy_life k i : unused (get_p k i) = false ->
  cores (process_destroy k i) = <[Z.to_nat i := Slot (-1) (ppid (get_p k i)) PROC_UNUSED (thread (get_p k i))]> (cores k) /\
  next_pid (process_destroy k i) = next_pid k /\ ksched (process_destroy k i) = ksched k.
Proof.
  intros Hu. unfold process_destroy. rewrite Hu. destruct (process_destroy_user_space (kmem k) (get_p k i)) as [m p] eqn:E.
  assert (Ep : core p = core (get_p k i)) by (change p with ((m, p).2); by rewrite <- E).
  pose proof (close_fds_core (kvfs (with_kmem k m)) p) as Ec. destruct (vfs_close_process_fds _ p) as [v p']. cbn [snd] in Ec.
  cbn zeta. rewrite cores_set_p. split; [|done]. f_equal. rewrite Ep in Ec. unfold core in Ec. injection Ec as E1 E2 E3 E4.
  unfold core. cbn [pid ppid state thread set_name_ids set_state set_ids set_handles]. congruence.
Qed.

Lemma destroy_ok d k i c : klife d k -> 0 < i -> cores k !! Z.to_nat i = Some c -> idle_slot c -> used c ->
  klife d (process_destroy k i) /\ ksched (process_destroy k i) = ksched k.
Proof.
  intros H Hi Hc Hid Hu. pose proof (core_get k i c Hc) as Eg.
  assert (Hun : unused (get_p k i) = false) by (apply bool_decide_eq_false; intros Hs; apply Hu; by rewrite <- Eg).
  destruct (destroy_life k i Hun) as (E1 & E2 & E3). split; [|done]. unfold klife. rewrite E1, E2, E3.
  apply (life_free _ _ _ _ (Z.to_nat i) c); try done. lia.
Qed.

(** *** Allocating *)
Lemma alloc_ok d k parent r k' : klife d k -> 0 <= parent < next_pid k -> next_pid k < 2 ^ 31 - 1 ->
  process_alloc kpml4 k parent = (r, k') ->
  ksched k' = ksched k /\
  match r with
  | None => klife d k'
  | Some i => 0 < i < 64 /\ cores k' = <[Z.to_nat i := Slot (next_pid k) parent PROC_EMBRYO None]> (cores k) /\ klife d k' /\
      next_pid k' = next_pid k + 1
  end.
Proof.
  intros H Hpar Hn. unfold process_alloc. destruct (first_index unused (proc_table k)) as [i|] eqn:Ei; [|by intros [= <- <-]].
  destruct (address_space_create (kmem k) kpml4) as [cr m]. destruct (cr =? 0); [by intros [= <- <-]|].
  intros [= <- <-]. split; [done|]. pose proof (klife_len d k H) as Hlen. pose proof (lf_next _ _ _ _ H) as Hnx.
  apply first_index_Some in Ei as (p & Hi & Hu & _). apply bool_decide_eq_true in Hu.
  assert (Hlt : (i < 64)%nat) by (rewrite <- Hlen; by eapply lookup_lt_Some).
  assert (Hc : cores k !! i = Some (core p)) by (unfold cores; by rewrite list_lookup_fmap, Hi).
  assert (Hi0 : i <> 0%nat). { intros ->. by destruct (kernel_live _ _ _ _ _ H Hc) as (_ & _ & [? _]). }
  assert (Hpid : pid_t_v (next_pid k + 1) = next_pid k + 1).
  { unfold pid_t_v, i32. rewrite u32_id by lia. cbn zeta. by rewrite (proj2 (Z.ltb_lt _ _)) by lia. }
  assert (Ecores : cores (set_p (with_next (with_kmem k m) (pid_t_v (next_pid k + 1))) (Z.of_nat i)
      (alloc_slot (get_p (with_kmem k m) (Z.of_nat i)) (next_pid k) parent cr)) =
      <[i := Slot (next_pid k) parent PROC_EMBRYO None]> (cores k)) by (rewrite cores_set_p, Nat2Z.id; done).
  cbn [next_pid with_kmem with_kheap] in *. rewrite Nat2Z.id. split_and!; [lia|lia|done| |done].
  unfold klife. rewrite Ecores. cbn [next_pid set_p with_procs with_next ksched]. rewrite Hpid.
  by apply (life_alloc d (next_pid k) (ksched k) (cores k) i (core p)).
Qed.

(** *** Starting a thread *)
Lemma start_ok d k i c f r k1 : klife d k -> 0 < i -> cores k !! Z.to_nat i = Some c -> used c -> c_state c <> PROC_ZOMBIE ->
  c_thread c = None -> start_thread kpml4 k i f = (r, k1) ->
  let k' := match r with Some k' => k' | None => k1 end in
  klife d k' /\ (running (ksched k) -> running (ksched k')) /\
  (r = None -> cores k' = cores k).
Proof.
  intros H Hi Hc Hu Hz Hth. unfold start_thread, sched_alloc_kstack.
  destruct (alloc_kstack (ksched k) (kmem k) kpml4) as [[[ktop kbase] s] m] eqn:Ea. apply alloc_kstack_sched in Ea as [v ->].
  set (k2 := with_kmem (with_sched k (set_vaddr (ksched k) v)) m).
  assert (H2 : klife d k2) by by apply (life_same _ _ _ (ksched k)), same_vaddr.
  destruct (ktop =? 0); [by intros [= <- <-]|]. cbn zeta. set (k3 := set_frame k2 _ f).
  destruct (sched_adopt_thread (ksched k3) _ _ _ _ _) as [t s'] eqn:Ead.
  pose proof (lf_sched _ _ _ _ H) as [rr Hinv]. destruct (sched_bounds _ _ Hinv) as (Hcur & _ & _ & _).
  destruct t as [t|].
  - intros [= <- <-]. change (ksched k3) with (set_vaddr (ksched k) v) in Ead.
    assert (Hi' : i = Z.of_nat (Z.to_nat i)) by lia. split; [|split; [|done]].
    + unfold klife. rewrite cores_set_p. cbn [set_state set_thread core pid ppid state thread].
      pose proof (core_get k i c Hc) as Eg. change (get_p (with_sched k3 s') i) with (get_p k i).
      replace (core (set_state (set_thread (get_p k i) (Some t)) PROC_READY)) with (Slot (c_pid c) (c_ppid c) PROC_READY (Some t))
        by (rewrite <- Eg; done).
      rewrite Hi' in Ead. apply (life_start d (cores k) (next_pid k) (set_vaddr (ksched k) v) (Z.to_nat i) c) in Ead; try done; lia.
    + intros Hr. cbn [ksched set_p with_procs with_sched]. destruct (adopt_full _ rr _ _ _ _ _ _ _ (set_vaddr_inv _ _ v Hinv) Ead)
        as (-> & _ & _ & _ & _ & _ & Hc' & _ & Ho). unfold running. rewrite Hc'. destruct (sched_bounds _ _ Hinv) as (_ & Hm & _).
      destruct (Ho (current (set_vaddr (ksched k) v)) ltac:(cbn; lia) ltac:(cbn; lia)) as [_ ->]. exact Hr.
  - intros [= <- <-]. unfold sched_adopt_thread in Ead. destruct (MAX_THREADS <=? next_tid (ksched k3)); [|discriminate Ead].
    injection Ead as <-. done.
Qed.
(** *** Steps that change nothing that matters *)
Record sim k k' : Prop := {
  sim_cores : cores k' = cores k;
  sim_next : next_pid k' = next_pid k;
  sim_sched : ksched k' = ksched k
}.

Lemma sim_refl k : sim k k.
Proof. done. Qed.

Lemma sim_trans k k1 k2 : sim k k1 -> sim k1 k2 -> sim k k2.
Proof. intros [] []. split; congruence. Qed.

Lemma sim_life d k k' : sim k k' -> klife d k -> klife d k'.
Proof. unfold klife. by intros [-> -> ->]. Qed.

Lemma sim_sys k k' : sim k k' -> sys_ok k -> sys_ok k'.
Proof. intros Hs [H1 H2]. split; [by apply (sim_life _ k)|]. by rewrite (sim_sched _ _ Hs). Qed.

Lemma sim_set_p k i p : 0 <= i -> core p = core (get_p k i) -> sim k (set_p k i p).
Proof.
  intros Hi E. split; [|done..]. rewrite cores_set_p, E. unfold cores, get_p. rewrite <- list_fmap_insert. f_equal.
  apply list_eq. intros j. destruct (decide (j = Z.to_nat i)) as [->|Hne]; [|by rewrite list_lookup_insert_ne].
  destruct (proc_table k !! Z.to_nat i) as [q|] eqn:Eq.
  - rewrite list_lookup_insert_eq by by eapply lookup_lt_Some. rewrite zget_lookup, Eq. done.
  - apply lookup_ge_None_2. rewrite length_insert. by apply lookup_ge_None_1.
Qed.

Lemma sim_store k m i p : 0 <= i -> core p = core (get_p k i) -> sim k (set_p (with_kmem k m) i p).
Proof. intros Hi E. apply (sim_trans _ (with_kmem k m)); [done|by apply sim_set_p]. Qed.

Lemma get_store k m i p : klife None k -> 0 <= i < 64 -> get_p (set_p (with_kmem k m) i p) i = p.
Proof. intros H Hi. apply get_set_p. cbn [proc_table with_kmem with_kheap]. rewrite (klife_len _ _ H). lia. Qed.

Lemma sim_ret k a v : sim k (ret k a v).
Proof. done. Qed.

Lemma sim_ret_frame k a v : sim k (ret_frame k a v).2.
Proof. unfold ret_frame. cbn [snd]. by destruct (a =? 0). Qed.

(** The slot under construction. *)
Definition building k (i : Z) : Prop :=
  0 < i < 64 /\ exists c, cores k !! Z.to_nat i = Some c /\ used c /\ c_state c <> PROC_ZOMBIE /\ c_thread c = None.

Lemma building_sim k k' i : sim k k' -> building k i -> building k' i.
Proof. unfold building. by intros [-> _ _]. Qed.

Lemma alloc_building k parent i k' : sys_ok k -> 0 <= parent < next_pid k -> next_pid k < 2 ^ 31 - 1 ->
  process_alloc kpml4 k parent = (Some i, k') -> sys_ok k' /\ building k' i.
Proof.
  intros [H Hr] Hpar Hn E. pose proof (lf_len _ _ _ _ H) as Hl.
  destruct (alloc_ok None k parent _ _ H Hpar Hn E) as (Es & Hi & Ec & H' & _). split; [split; [done|by rewrite Es]|].
  split; [done|]. eexists. rewrite Ec, list_lookup_insert_eq by lia. done.
Qed.

Lemma alloc_none k parent k' : sys_ok k -> 0 <= parent < next_pid k -> next_pid k < 2 ^ 31 - 1 ->
  process_alloc kpml4 k parent = (None, k') -> sys_ok k'.
Proof.
  intros [H Hr] Hpar Hn E. destruct (alloc_ok None k parent _ _ H Hpar Hn E) as (Es & H'). split; [done|by rewrite Es].
Qed.

Lemma building_destroy k i : sys_ok k -> building k i -> sys_ok (process_destroy k i).
Proof.
  intros [H Hr] (Hi & c & Hc & Hu & Hz & Ht). destruct (destroy_ok None k i c H ltac:(lia) Hc (or_intror Ht) Hu) as [H' Es].
  split; [done|by rewrite Es].
Qed.

Lemma building_start k i f r k1 : sys_ok k -> building k i -> start_thread kpml4 k i f = (r, k1) ->
  match r with Some k' => sys_ok k' | None => sys_ok (process_destroy k1 i) end.
Proof.
  intros [H Hr] (Hi & c & Hc & Hu & Hz & Ht) E. destruct (start_ok None k i c f r k1 H ltac:(lia) Hc Hu Hz Ht E) as (H' & Hr' & Hn).
  destruct r as [k'|]; [split; [done|by apply Hr']|]. apply building_destroy; [split; [done|by apply Hr']|]. split; [done|].
  exists c. by rewrite (Hn eq_refl).
Qed.

(** *** Spawning *)
Lemma spawn_user_ok k code parent : sys_ok k -> 0 <= parent < next_pid k -> next_pid k < 2 ^ 31 - 1 ->
  sys_ok (process_spawn_user kpml4 nx_ok k code parent).2.
Proof.
  intros H Hpar Hn. unfold process_spawn_user. cbn zeta. destruct (Z.of_nat (length code) =? 0); [done|].
  destruct (process_alloc kpml4 k parent) as [[i|] k1] eqn:Ea; [|by apply (alloc_none k parent)].
  destruct (alloc_building k parent i k1 H Hpar Hn Ea) as [H1 B1].
  destruct (code_pages code (kmem k1) (get_p k1 i) _) as [[ok m] p] eqn:Ec. apply code_pages_core in Ec.
  assert (S2 : sim k1 (set_p (with_kmem k1 m) i p)) by (apply sim_store; [destruct B1; lia|done]).
  set (k2 := set_p (with_kmem k1 m) i p) in *. pose proof (sim_sys _ _ S2 H1) as H2. pose proof (building_sim _ _ _ S2 B1) as B2.
  destruct ok; cbn [negb]; [|by apply building_destroy].
  destruct (stack_pages _ (kmem k2) p VMM_WRITE) as [[r m'] p'] eqn:Es. apply stack_pages_core in Es.
  destruct B1 as [Hi _].
  assert (Eg : get_p k2 i = p) by (apply get_store; [apply H1|lia]).
  assert (S3 : sim k2 (set_p (with_kmem k2 m') i p')) by (apply sim_store; [lia|congruence]).
  set (k3 := set_p (with_kmem k2 m') i p') in *. pose proof (sim_sys _ _ S3 H2) as H3. pose proof (building_sim _ _ _ S3 B2) as B3.
  destruct (negb (r =? ELF_OK)); [by apply building_destroy|].
  assert (Eg3 : get_p k3 i = p') by (apply get_store; [apply H2|lia]).
  set (pb := brk_init nx_ok p' _). assert (S4 : sim k3 (set_p k3 i pb)) by (apply sim_set_p; [lia|by rewrite Eg3]).
  destruct (start_thread kpml4 (set_p k3 i pb) i _) as [st k4] eqn:E4.
  apply building_start in E4; [|by apply (sim_sys k3)|by apply (building_sim k3)]. by destruct st.
Qed.

Lemma spawn_elf_ok k image parent r k' : sys_ok k -> 0 <= parent < next_pid k -> next_pid k < 2 ^ 31 - 1 ->
  process_spawn_elf kpml4 nx_ok blobs k image parent = Some (r, k') -> sys_ok k'.
Proof.
  intros H Hpar Hn. unfold process_spawn_elf. destruct (Z.of_nat (length image) =? 0); [by intros [= _ <-]|].
  destruct (elf_validate image) as [es|ctx]; [by intros [= _ <-]|].
  destruct (process_alloc kpml4 k parent) as [[i|] k1] eqn:Ea; [|intros [= _ <-]; by apply (alloc_none k parent)].
  destruct (alloc_building k parent i k1 H Hpar Hn Ea) as [H1 B1].
  destruct (load_image nx_ok blobs ctx (kmem k1) (get_p k1 i)) as [[[[[es entry] rsp] m] p]|] eqn:El; [|done].
  apply load_image_core in El. pose proof B1 as [Hi _].
  assert (S2 : sim k1 (set_p (with_kmem k1 m) i p)) by (apply sim_store; [lia|done]).
  set (k2 := set_p (with_kmem k1 m) i p) in *. pose proof (sim_sys _ _ S2 H1) as H2. pose proof (building_sim _ _ _ S2 B1) as B2.
  destruct (negb (es =? ELF_OK)); [intros [= _ <-]; by apply building_destroy|].
  assert (Eg : get_p k2 i = p) by (apply get_store; [apply H1|lia]).
  set (pb := brk_init nx_ok p _). assert (S3 : sim k2 (set_p k2 i pb)) by (apply sim_set_p; [lia|by rewrite Eg]).
  cbn zeta. destruct (start_thread kpml4 (set_p k2 i pb) i _) as [st k4] eqn:E4.
  apply building_start in E4; [|by apply (sim_sys k2)|by apply (building_sim k2)]. by destruct st; intros [= _ <-].
Qed.
End Kernel.
