(* ===== verification/ProcRun.v ===== *)
(** * Processes over time

  Fork, exec, exit and wait keep the process table and the scheduler in step; runs of
  the kernel; and the way of an exit status from the child to its parent. *)
From S2P Require Import Prelude Interfaces Pmm PhysMem Vmm ProcData UserMem Uaccess Arch Sched Ipc Svc Vfs VfsFiles Elf Process ProcLife.

(** A thread about to exit may be left out of account. *)
Lemma life_weaken d l n s : life_ok None l n s -> life_ok d l n s.
Proof. intros [L N K P PP U S I O T B]. split; try done. intros t i Ht Hp Hs _. by apply O. Qed.

(** New parents, all older than their children. *)
Lemma life_ppids d l n s (f : slot -> slot) : life_ok d l n s ->
  (forall c, c_pid (f c) = c_pid c /\ c_state (f c) = c_state c /\ c_thread (f c) = c_thread c) ->
  (forall c, used c -> c_ppid c < c_pid c -> c_ppid (f c) < c_pid c) ->
  (forall c, c_ppid c = -1 -> f c = c) ->
  life_ok d (f <$> l) n s.
Proof.
  intros [L N K P PP U S I O T B] Hf Hlt Hk. assert (Hu : forall c, used (f c) -> used c).
  { intros c. unfold used. by destruct (Hf c) as (_ & -> & _). }
  assert (Hl : forall i x, (f <$> l) !! i = Some x -> exists c, l !! i = Some c /\ x = f c).
  { intros i x. rewrite list_lookup_fmap. destruct (l !! i) as [c|]; [|done]. intros [= <-]. by exists c. }
  split; try done.
  - by rewrite length_fmap.
  - destruct K as (c & Ec & Hp & Hpp & Hlv). exists c. rewrite list_lookup_fmap, Ec. cbn [fmap option_fmap option_map]. by rewrite Hk.
  - intros i x (c & Ec & ->)%Hl Hux%Hu. destruct (Hf c) as (-> & _). by apply (P i).
  - intros i x (c & Ec & ->)%Hl Hux%Hu. destruct (Hf c) as (-> & _). apply Hlt; [done|]. by apply (PP i).
  - intros i j x x' (c & Ec & ->)%Hl (c' & Ec' & ->)%Hl Hux%Hu Hux'%Hu.
    destruct (Hf c) as (-> & _), (Hf c') as (-> & _). by apply U.
  - intros t i Ht Hp Hs Hd. destruct (O t i Ht Hp Hs Hd) as (Hi & c & Ec & Hlv & Hth). split; [done|]. exists (f c).
    destruct (Hf c) as (_ & Es & Et). rewrite list_lookup_fmap, Ec. split_and!; [done| |by rewrite Et].
    unfold live, used in *. by rewrite Es.
  - intros i x t (c & Ec & ->)%Hl Hux%Hu. destruct (Hf c) as (_ & _ & ->). by apply T.
Qed.

Section Kernel.
Context {Hp : Type} `{KH : KernelHeap Hp} `{HM : HeapMemory Hp}.
Context (kpml4 : Z) (nx_ok : bool) (blobs : list (list Z)).
Notation kstate := (@kstate Hp).
Implicit Types k : kstate.

(** The process of the running thread. *)
Lemma current_live k pi : sys_ok k -> process_current k = Some pi ->
  0 <= pi < 64 /\ exists c, cores k !! Z.to_nat pi = Some c /\ core (get_p k pi) = c /\ live c /\
    c_thread c = Some (current (ksched k)) /\ 0 <= c_pid c < next_pid k.
Proof.
  intros [H Hr] Hc. destruct (lf_sched _ _ _ _ H) as [r Hi]. destruct (sched_bounds _ _ Hi) as (Hcur & _).
  unfold running in Hr. destruct (lf_owner _ _ _ _ H (current (ksched k)) pi Hcur Hc ltac:(congruence) ltac:(done))
    as (Hpi & c & Ec & Hl & Ht).
  pose proof (lookup_lt_Some _ _ _ Ec) as Hlt. rewrite (lf_len _ _ _ _ H) in Hlt.
  split; [lia|]. exists c. split_and!; try done; [by apply core_get| |];
    destruct (pid_bounds _ _ _ _ _ c H Ec (proj1 Hl)); lia.
Qed.

Lemma fork_handles_sim k p hs k' : fork_handles k p = (hs, k') -> sim k k'.
Proof.
  unfold fork_handles. destruct (ipc_handles p) as [[a l]|]; [|by intros [= _ <-]].
  destruct (ipc_handle_table_create (kheap_ k)) as [[[a' l']|] h]; by intros [= _ <-].
Qed.

Lemma ret_frame_ok k a v : sys_ok k -> sys_ok (ret_frame k a v).2.
Proof. apply sim_sys, sim_ret_frame. Qed.

Lemma ret_ok k a v : sys_ok k -> sys_ok (ret k a v).
Proof. apply sim_sys, sim_ret. Qed.

(** *** Fork *)
Lemma fork_sys_ok k frame : sys_ok k -> next_pid k < 2 ^ 31 - 1 -> sys_ok (process_fork_current kpml4 k frame).2.
Proof.
  intros H Hn. unfold process_fork_current. destruct (process_current k) as [pi|] eqn:Ecur; [|by apply ret_frame_ok].
  destruct (current_live k pi H Ecur) as (Hpi & c & Hc & Eg & Hl & _ & Hpid). set (p := get_p k pi) in *.
  assert (Ep : pid p = c_pid c) by by rewrite <- Eg. cbn zeta.
  destruct (pid p =? 0); [by apply ret_frame_ok|].
  destruct (bool_decide (state p = PROC_ZOMBIE) || bool_decide (state p = PROC_BLOCKED)); [by apply ret_frame_ok|].
  destruct (process_alloc kpml4 k (pid p)) as [[ci|] k1] eqn:Ea;
    [|apply ret_frame_ok; apply (alloc_none kpml4 k (pid p)); try done; lia].
  destruct (alloc_building kpml4 k (pid p) ci k1 H ltac:(lia) Hn Ea) as [H1 B1]. pose proof B1 as [Hci _].
  destruct (fork_pages (umap p) (kmem k1) p (get_p k1 ci)) as [[ok m] ch] eqn:Ef. apply fork_pages_core in Ef.
  assert (S2 : sim k1 (set_p (with_kmem k1 m) ci ch)) by (apply sim_store; [lia|done]).
  assert (G2 : get_p (set_p (with_kmem k1 m) ci ch) ci = ch) by (apply get_store; [apply H1|lia]).
  set (k2 := set_p (with_kmem k1 m) ci ch) in *. pose proof (sim_sys _ _ S2 H1) as H2. pose proof (building_sim _ _ _ S2 B1) as B2.
  destruct ok; cbn [negb]; [|by apply ret_frame_ok, building_destroy].
  destruct (fork_handles k2 p) as [hs k3] eqn:Eh. apply fork_handles_sim in Eh.
  set (ch' := set_heap ch _ _ _).
  assert (E3 : core ch' = core (get_p k3 ci)).
  { assert (Hcc : cores k3 !! Z.to_nat ci = Some (core ch)); [|by rewrite (core_get _ _ _ Hcc)].
    rewrite (sim_cores _ _ Eh). unfold k2. rewrite cores_set_p.
    apply list_lookup_insert_eq. unfold cores. rewrite length_fmap. cbn [proc_table with_kmem with_kheap].
    rewrite (klife_len None k1); [lia|apply H1]. }
  assert (S3 : sim k2 (set_p k3 ci ch')) by (apply (sim_trans _ k3); [done|]; apply sim_set_p; [lia|done]).
  set (k4 := set_p k3 ci ch') in *. pose proof (sim_sys _ _ S3 H2) as H4. pose proof (building_sim _ _ _ S3 B2) as B4.
  destruct hs as [hs|]; [|by apply ret_frame_ok, building_destroy].
  unfold fork_fds. set (k5 := set_p (with_kvfs k4 _) ci _).
  assert (S5 : sim k4 k5).
  { apply (sim_trans _ (with_kvfs k4 (foldl dup_fd (kvfs k4) (fds p)))); [done|]. apply sim_set_p; [lia|].
    change (get_p (with_kvfs k4 (foldl dup_fd (kvfs k4) (fds p))) ci) with (get_p k4 ci).
    unfold k4. rewrite get_set_p; [done|]. rewrite <- (length_fmap core). fold (cores k3). rewrite (sim_cores _ _ Eh).
    unfold cores. rewrite length_fmap, (klife_len None k2); [lia|apply H2]. }
  pose proof (sim_sys _ _ S5 H4) as H5. pose proof (building_sim _ _ _ S5 B4) as B5.
  destruct (start_thread kpml4 k5 ci _) as [st k6] eqn:E6. apply building_start in E6; [|done..].
  destruct st as [k7|]; by apply ret_frame_ok.
Qed.

(** *** Exec *)
Lemma destroy_space_core m p : core (process_destroy_user_space m p).2 = core p.
Proof. done. Qed.

Lemma same_hw s cr a b : same_threads s (set_hw s cr a b).
Proof. split; try done. intros r [C N R M L I]. exists r. by split. Qed.

Lemma same_cr3 s r t cr : sched_inv s r -> 0 <= t < 64 -> let x := get_t s t in
  same_threads s (set_t s t (Thread (t_rsp x) cr (stack_base x) (stack_size x) (tid x) (t_state x) (t_proc x) (next x))).
Proof.
  intros Hi Ht. cbn zeta. pose proof (si_len _ _ Hi) as Hl. split; try done.
  - intros r' Hr'. exists r'. by apply set_t_inv.
  - intros j Hj. destruct (decide (j = t)) as [->|]; [by rewrite get_set_eq|by rewrite get_set_ne by lia].
  - intros j Hj. destruct (decide (j = t)) as [->|]; [by rewrite get_set_eq|by rewrite get_set_ne by lia].
Qed.

Lemma same_trans s1 s2 s3 : same_threads s1 s2 -> same_threads s2 s3 -> same_threads s1 s3.
Proof.
  intros [A1 A2 A4 A5 A6 A7] [B1 B2 B4 B5 B6 B7]. split; try congruence.
  - intros r (r' & Hr)%A1. by apply (B1 r').
  - intros t Ht. by rewrite B6, A6.
  - intros t Ht. by rewrite B7, A7.
Qed.

Lemma same_sys k s : sys_ok k -> same_threads (ksched k) s -> sys_ok (with_sched k s).
Proof.
  intros [H Hr] Hs. destruct (lf_sched _ _ _ _ H) as [r Hi]. destruct (sched_bounds _ _ Hi) as (Hc & _). split.
  - by apply (life_same _ _ _ (ksched k)).
  - apply (same_running (ksched k)); [done|lia|done].
Qed.

Lemma exec_sys_ok k frame upath a k' : sys_ok k -> process_execve_current kpml4 nx_ok blobs k frame upath = Some (a, k') -> sys_ok k'.
Proof.
  intros H. assert (Hret : forall k1 v r k2, sim k k1 -> Some (ret_frame k1 frame v) = Some (r, k2) -> sys_ok k2).
  { intros k1 v r k2 Hs. pose proof (ret_frame_ok k1 frame v (sim_sys _ _ Hs H)) as Hr.
    destruct (ret_frame k1 frame v). by intros [= _ <-]. }
  unfold process_execve_current. destruct (process_current k) as [pi|] eqn:Ecur; [|by apply Hret].
  destruct (current_live k pi H Ecur) as (Hpi & c & Hc & Eg & Hl & Ht & _). cbn zeta.
  destruct (pid (get_p k pi) =? 0); [by apply Hret|]. destruct (bool_decide _); [by apply Hret|].
  destruct (copy_from_user _ _ _ _) as [bytes|]; [|by apply Hret].
  destruct (elf_find_embedded blobs _) as [es|blob]; [by apply Hret|].
  destruct (elf_validate blob) as [es|ctx]; [by apply Hret|].
  destruct (address_space_create (kmem k) kpml4) as [cr m]. destruct (cr =? 0); [by apply Hret|].
  destruct (load_image nx_ok blobs ctx m _) as [[[[[es entry] rsp] m1] scratch]|]; [|done].
  destruct (negb (es =? ELF_OK)); [by apply Hret|].
  destruct (process_destroy_user_space m1 (get_p k pi)) as [m2 p2] eqn:Ed.
  assert (Ep : core p2 = core (get_p k pi)) by (change p2 with ((m2, p2).2); by rewrite <- Ed).
  destruct (thread _) as [ti|] eqn:Eti; [|done]. set (p3 := set_heap _ _ _ _) in *.
  assert (S1 : sim k (set_p (with_kmem k m2) pi p3)) by (apply sim_store; [lia|exact Ep]).
  set (k1 := set_p (with_kmem k m2) pi p3) in *. intros [= _ <-].
  match goal with |- sys_ok (set_frame (with_sched k1 ?s) frame ?f) => set (s' := s) end.
  assert (Hs : sys_ok (with_sched k1 s')); [|exact (sim_sys (with_sched k1 s') _ (Build_sim _ _ eq_refl eq_refl eq_refl) Hs)].
  apply same_sys; [by apply (sim_sys k)|]. destruct H as [H Hr]. destruct (lf_sched _ _ _ _ H) as [r Hi].
  destruct (lf_thread _ _ _ _ H _ _ ti Hc (proj1 Hl)) as [Hti _].
  { rewrite <- Eg, <- Ep. exact Eti. }
  destruct (sched_bounds _ _ Hi) as (_ & Hm & _). unfold s'. eapply same_trans; [|apply same_hw].
  apply (same_cr3 _ r); [exact Hi|lia].
Qed.
(** *** Exit *)
Lemma cores_reparent k id pp : cores (with_procs k (reparent id pp <$> proc_table k)) =
  (fun c => if bool_decide (used c) && (c_ppid c =? id) then Slot (c_pid c) pp (c_state c) (c_thread c) else c) <$> cores k.
Proof.
  unfold cores. cbn [proc_table with_procs]. rewrite <- !list_fmap_compose. apply list_fmap_ext. intros _ c _.
  unfold compose, reparent, core, used, unused. cbn [c_state c_ppid]. by repeat case_bool_decide; destruct (ppid c =? id).
Qed.

Lemma wake_ok d k id : klife d k ->
  klife d (wake_parent k id) /\ current (ksched (wake_parent k id)) = current (ksched k) /\
  scheduler_active (ksched (wake_parent k id)) = scheduler_active (ksched k) /\
  (forall i, cores (wake_parent k id) !! i = cores k !! i \/
     exists c, cores k !! i = Some c /\ c_state c = PROC_BLOCKED /\ cores (wake_parent k id) !! i = Some (Slot (c_pid c) (c_ppid c) PROC_READY (c_thread c))).
Proof.
  intros H. unfold wake_parent. destruct (process_get k id) as [i|] eqn:Eg; [|by eauto]. cbn zeta.
  destruct (bool_decide (state (get_p k i) = PROC_BLOCKED)) eqn:Eb; [|by eauto]. apply bool_decide_eq_true in Eb.
  unfold process_get in Eg. destruct (first_index _ (proc_table k)) as [j|] eqn:Ej; [|done]. injection Eg as <-.
  apply first_index_Some in Ej as (q & Hj & Hq & _). unfold get_p in *. rewrite zget_lookup, Nat2Z.id, Hj in *. cbn [default] in *.
  unfold Datatypes.id in *. assert (Hc : cores k !! j = Some (core q)) by (unfold cores; by rewrite list_lookup_fmap, Hj).
  assert (Hu : used (core q)) by (unfold used; cbn; by rewrite Eb).
  set (k1 := set_p k (Z.of_nat j) _).
  assert (Ec : cores k1 = <[j := Slot (pid q) (ppid q) PROC_READY (thread q)]> (cores k)).
  { unfold k1. by rewrite cores_set_p, Nat2Z.id. }
  assert (H1 : klife d k1).
  { unfold klife. rewrite Ec. apply (life_set _ _ _ _ j (core q)); try done.
    - cbn. by apply (lf_ppid _ _ _ _ H j (core q)).
    - intros ->. destruct (kernel_live _ _ _ _ _ H Hc) as (_ & ? & _). done. }
  assert (Hcs : forall k', cores k' = cores k1 -> forall i, cores k' !! i = cores k !! i \/
     exists c, cores k !! i = Some c /\ c_state c = PROC_BLOCKED /\ cores k' !! i = Some (Slot (c_pid c) (c_ppid c) PROC_READY (c_thread c))).
  { intros k' Hk i. rewrite Hk, Ec. destruct (decide (i = j)) as [->|]; [right|left; by rewrite list_lookup_insert_ne].
    exists (core q). by rewrite list_lookup_insert_eq by by eapply lookup_lt_Some. }
  cbn [thread set_state]. destruct (thread q) as [t|] eqn:Et; [|by split_and!; [|..|apply Hcs]].
  split_and!; [|done|done|by apply Hcs]. destruct (lf_thread _ _ _ _ H j (core q) t Hc Hu Et) as [Ht Hp'].
  apply (life_set_state d d); [exact H1|exact Ht|tauto|]. intros i _ Hi _. change (ksched k1) with (ksched k) in Hi.
  rewrite Hp' in Hi. injection Hi as <-. split; [lia|]. match goal with |- context [cores ?k2] => change (cores k2) with (cores k1) end. rewrite Nat2Z.id, Ec.
  rewrite list_lookup_insert_eq by by eapply lookup_lt_Some. by eexists.
Qed.

(** The zombie that [exit_cleanup] leaves behind, with the rest of the table. *)
Lemma cleanup_ok k pi status : sys_ok k -> process_current k = Some pi -> pid (get_p k pi) <> 0 ->
  klife (Some (current (ksched k))) (exit_cleanup k pi status) /\
  current (ksched (exit_cleanup k pi status)) = current (ksched k) /\
  scheduler_active (ksched (exit_cleanup k pi status)) = scheduler_active (ksched k).
Proof.
  intros Hs Ecur Hp0. destruct (current_live k pi Hs Ecur) as (Hpi & c & Hc & Eg & Hl & Ht & Hpid). destruct Hs as [H Hr].
  assert (Ep : pid (get_p k pi) = c_pid c /\ ppid (get_p k pi) = c_ppid c) by by rewrite <- Eg. destruct Ep as [Ep Epp].
  assert (Hi0 : Z.to_nat pi <> 0%nat). { intros E0. rewrite E0 in Hc. destruct (kernel_live _ _ _ _ _ H Hc). congruence. }
  pose proof (lf_ppid _ _ _ _ H _ _ Hc (proj1 Hl)) as Hlt.
  unfold exit_cleanup. cbn zeta. set (z := set_state _ PROC_ZOMBIE). set (k1 := set_p k pi z).
  assert (H1 : klife (Some (current (ksched k))) k1).
  { unfold k1, klife. rewrite cores_set_p. cbn [next_pid ksched set_p with_procs].
    apply (life_set _ _ _ _ (Z.to_nat pi) c); try done; [by apply life_weaken|apply Hl|rewrite <- Eg; done..| |].
    - by rewrite <- Eg in Hlt.
    - intros _ t Htt. right. congruence. }
  set (k2 := with_procs k1 _).
  assert (H2 : klife (Some (current (ksched k))) k2).
  { unfold klife, k2. rewrite cores_reparent. apply life_ppids; [exact H1|intros x; by destruct (_ && _)|..].
    - intros x Hu Hx. destruct (bool_decide (used x) && _) eqn:E; [|done]. apply andb_prop in E as [_ E%Z.eqb_eq].
      cbn [c_ppid]. change (pid z) with (pid (get_p k pi)) in E. change (ppid z) with (ppid (get_p k pi)). lia.
    - intros x Hx. destruct (bool_decide (used x) && _) eqn:E; [|done]. apply andb_prop in E as [_ E%Z.eqb_eq].
      change (pid z) with (pid (get_p k pi)) in E. lia. }
  set (q := get_p k2 pi). set (k3 := with_kmem k2 _). pose proof (close_fds_core (kvfs k3) (set_umap q [])) as Ecl.
  destruct (vfs_close_process_fds (kvfs k3) (set_umap q [])) as [v p]. cbn [snd] in Ecl.
  assert (S4 : sim k2 (set_p (with_kvfs k3 v) pi p)) by (apply (sim_trans _ (with_kvfs k3 v)); [done|]; apply sim_set_p; [lia|done]).
  match goal with |- context [wake_parent ?k4 ?i] => destruct (wake_ok (Some (current (ksched k))) k4 i) as (H5 & -> & -> & _) end; [|done].
  by apply (sim_life _ k2), H2; apply (sim_trans _ _ _ S4).
Qed.

Lemma exit_sys_ok k frame status : sys_ok k -> scheduler_active (ksched k) = true ->
  sys_ok (process_exit_current k frame status).2.
Proof.
  intros H Ha. unfold process_exit_current. destruct (process_current k) as [pi|] eqn:Ecur; [|by apply ret_ok].
  destruct (Z.eqb_spec (pid (get_p k pi)) 0) as [|Hp0]; [by apply ret_ok|]. cbn zeta.
  destruct (cleanup_ok k pi status H Ecur Hp0) as (H1 & Ec & Ea). set (k1 := exit_cleanup k pi status) in *.
  set (t := current (ksched k)) in *. set (s := set_t (ksched k1) t _).
  destruct (lf_sched _ _ _ _ H1) as [r Hi]. destruct (sched_bounds _ _ Hi) as (Hcur & _). rewrite Ec in Hcur.
  assert (H2 : life_ok None (cores k1) (next_pid k1) s).
  { apply (life_set_state (Some t) None); [exact H1|exact Hcur| |done]. intros t' Hne _. congruence. }
  destruct (life_tick _ _ s frame H2) as (H3 & Hr & _); [by cbn; rewrite Ea|].
  change (ksched (with_sched k1 s)) with s. destruct (sched_tick s frame) as [f s']. done.
Qed.

(** *** Wait *)
Lemma zombie_slot k i c : klife None k -> proc_table k !! i = Some c -> zombie c = true ->
  cores k !! i = Some (core c) /\ (0 < i < 64)%nat /\ used (core c) /\ idle_slot (core c).
Proof.
  intros H Hi Hz%bool_decide_eq_true. assert (Hc : cores k !! i = Some (core c)) by (unfold cores; by rewrite list_lookup_fmap, Hi).
  pose proof (lookup_lt_Some _ _ _ Hi) as Hlt. rewrite (klife_len None k H) in Hlt. split_and!; try done.
  - destruct i; [|lia]. destruct (kernel_live _ _ _ _ _ H Hc) as (_ & _ & _ & Hn). by destruct Hn.
  - unfold used. cbn. by rewrite Hz.
  - by left.
Qed.

Lemma reap_ok k parent id : sys_ok k -> sys_ok (process_try_reap k parent id).2 /\
  ksched (process_try_reap k parent id).2 = ksched k /\ (forall i c, cores k !! i = Some c -> c_state c <> PROC_ZOMBIE ->
    cores (process_try_reap k parent id).2 !! i = Some c).
Proof.
  intros [H Hr]. unfold process_try_reap. destruct (first_index _ _) as [i|] eqn:Ei; [|done]. cbn zeta. cbn [snd].
  apply first_index_Some in Ei as (c & Hi & Hc & _). apply andb_prop in Hc as [_ Hz].
  destruct (zombie_slot k i c H Hi Hz) as (Hcc & Hlt & Hu & Hid). rewrite <- (Nat2Z.id i) in Hcc.
  destruct (destroy_ok None k (Z.of_nat i) (core c) H ltac:(lia) Hcc Hid Hu) as [H' Es]. split_and!; [split; [done|by rewrite Es]|done|].
  intros j x Hx Hnz. assert (Hun : unused (get_p k (Z.of_nat i)) = false).
  { apply bool_decide_eq_false. intros Hs. apply Hu. by rewrite <- (core_get k _ _ Hcc). }
  destruct (destroy_life k (Z.of_nat i) Hun) as (-> & _). rewrite list_lookup_insert_ne; [done|]. intros <-.
  rewrite Hx in Hcc. injection Hcc as ->. apply Hnz. by apply bool_decide_eq_true in Hz.
Qed.

Lemma store_status_sim k p a st : sim k (store_status k p a st).
Proof. unfold store_status. by repeat case_match. Qed.

(** Giving a live slot and its thread another state. *)
Lemma life_state d l n s i c t st ts : life_ok d l n s -> l !! i = Some c -> live c -> c_thread c = Some t ->
  st <> PROC_UNUSED -> st <> PROC_ZOMBIE ->
  life_ok d (<[i := Slot (c_pid c) (c_ppid c) st (c_thread c)]> l) n (set_t s t (t_set_state (get_t s t) ts)).
Proof.
  intros H Ec [Hu Hz] Ht H1 H2. destruct (lf_thread _ _ _ _ H i c t Ec Hu Ht) as [Htb Htp].
  assert (H' : life_ok d (<[i := Slot (c_pid c) (c_ppid c) st (c_thread c)]> l) n s).
  { apply (life_set _ _ _ _ i c); try done; [by apply (lf_ppid _ _ _ _ H i c)|].
    intros ->. by destruct (kernel_live _ _ _ _ _ H Ec) as (_ & ? & _). }
  apply (life_set_state d d); [done|done|tauto|]. intros j _ Hj _. rewrite Htp in Hj. injection Hj as <-.
  split; [lia|]. rewrite Nat2Z.id, list_lookup_insert_eq by by eapply lookup_lt_Some. by eexists.
Qed.

Lemma wait_sys_ok k frame id ustatus : sys_ok k -> scheduler_active (ksched k) = true ->
  sys_ok (process_wait_current k frame id ustatus).2.
Proof.
  intros H Ha. unfold process_wait_current. destruct (process_current k) as [pi|] eqn:Ecur; [|by apply ret_ok].
  destruct (current_live k pi H Ecur) as (Hpi & c & Hc & Eg & Hl & Ht & _).
  pose proof (reap_ok k (pid (get_p k pi)) id H) as (H1 & Es & Hk). specialize (Hk _ _ Hc (proj2 Hl)).
  destruct (process_try_reap k (pid (get_p k pi)) id) as [[r st] k1]. cbn [snd] in *. cbn zeta.
  destruct (0 <? r); [by apply ret_ok, (sim_sys k1), H1; apply store_status_sim|].
  destruct (r <? 0); [by apply ret_ok|]. set (t := current (ksched k1)).
  assert (Et : c_thread c = Some t) by (unfold t; by rewrite Es). destruct H1 as [H1 Hr1].
  pose proof (core_get k1 pi c Hk) as Eg1.
  set (k2 := set_p k1 pi _). pose (s2 := set_t (ksched k2) t (t_set_state (get_t (ksched k2) t) THREAD_BLOCKED)).
  match goal with |- context [with_sched k2 ?x] => change x with s2 end. change (current (ksched k2)) with t.
  assert (Hb : forall ps ts k3 s3 d, ps <> PROC_UNUSED -> ps <> PROC_ZOMBIE -> cores k3 !! Z.to_nat pi = Some d -> live d ->
    c_thread d = Some t -> life_ok None (cores k3) (next_pid k3) s3 ->
    life_ok None (cores (set_p k3 pi (set_state (get_p k3 pi) ps))) (next_pid k3) (set_t s3 t (t_set_state (get_t s3 t) ts))).
  { intros ps ts k3 s3 d Hn1 Hn2 Hd Hld Htd H3. pose proof (core_get k3 pi d Hd) as Egd. rewrite cores_set_p.
    replace (core (set_state (get_p k3 pi) ps)) with (Slot (c_pid d) (c_ppid d) ps (c_thread d)) by (rewrite <- Egd; done).
    by apply life_state. }
  assert (H2 : life_ok None (cores k2) (next_pid k2) s2) by (apply (Hb PROC_BLOCKED THREAD_BLOCKED k1 (ksched k1) c); done).
  destruct (life_tick _ _ s2 frame H2) as (H3 & Hr & _).
  { unfold s2, k2. cbn [scheduler_active set_t set_threads ksched set_p with_procs]. by rewrite Es. }
  change (ksched (with_sched k2 s2)) with s2. destruct (sched_tick s2 frame) as [nf s3]. cbn [snd] in *.
  assert (Hs3 : sys_ok (with_sched (with_sched k2 s2) s3)) by done. set (k3 := with_sched (with_sched k2 s2) s3) in *.
  destruct (negb (nf =? frame)); [by apply ret_ok|]. apply ret_ok. split.
  - apply (Hb PROC_RUNNING THREAD_RUNNING k3 s3 (Slot (c_pid c) (c_ppid c) PROC_BLOCKED (c_thread c))); try done.
    change (cores k3) with (cores k2). unfold k2. rewrite cores_set_p, list_lookup_insert_eq by by eapply lookup_lt_Some.
    by rewrite <- Eg1.
  - unfold running. cbn [ksched with_sched set_p with_procs]. destruct (lf_sched _ _ _ _ H3) as [rr Hi].
    destruct (lf_sched _ _ _ _ H1) as [r1 Hi1]. destruct (sched_bounds _ _ Hi1) as (Ht1 & Hm1 & _). fold t in Ht1.
    destruct (sched_bounds _ _ Hi) as (Hc3 & Hm & Hlen & _). 
    change (t_state (get_t (set_t s3 t (t_set_state (get_t s3 t) THREAD_RUNNING)) (current s3)) = THREAD_RUNNING).
    destruct (decide (current s3 = t)) as [->|Hne]; [by rewrite get_set_eq by lia|by rewrite get_set_ne by lia].
Qed.

(** *** The timer *)
Lemma timer_ok k frame : sys_ok k -> sys_ok (timer k frame).2.
Proof.
  intros [H Hr]. unfold timer. destruct (scheduler_active (ksched k)) eqn:Ea.
  - destruct (life_tick _ _ _ frame H Ea) as (H3 & Hr3 & _). by destruct (sched_tick (ksched k) frame).
  - unfold sched_tick. rewrite Ea. done.
Qed.

(** *** Kernel threads *)
Definition kthread k (entry func arg : Z) : kstate :=
  let '(_, s, m, fr) := sched_create_kthread (ksched k) (kmem k) kpml4 entry func arg in
  let k := with_kmem (with_sched k s) m in
  match fr with
  | Some f => set_frame k (t_rsp (get_t s (next_tid s - 1))) f
  | None => k
  end.

Lemma kthread_ok k entry func arg : sys_ok k -> sys_ok (kthread k entry func arg).
Proof.
  intros [H Hr]. unfold kthread. destruct (sched_create_kthread _ _ _ _ _ _) as [[[t s] m] fr] eqn:E.
  destruct (life_create _ _ _ _ _ _ _ _ _ _ _ _ _ H E) as [H' Hr']. specialize (Hr' Hr). by destruct fr.
Qed.

(** A kernel thread that returns. *)
Definition kthread_exit k (frame : Z) : kstate := with_sched k (sched_tick (sched_exit (ksched k)) frame).2.

Lemma kthread_exit_ok k frame : sys_ok k -> process_current k = None -> scheduler_active (ksched k) = true ->
  sys_ok (kthread_exit k frame).
Proof.
  intros [H Hr] Hc Ha. destruct (lf_sched _ _ _ _ H) as [r Hi]. destruct (sched_bounds _ _ Hi) as (Hcb & _).
  assert (H2 : life_ok None (cores k) (next_pid k) (sched_exit (ksched k))) by by apply (life_set_state None None).
  by destruct (life_tick _ _ _ frame H2 Ha) as (H3 & Hr3 & _).
Qed.

(** *** The boot state *)
Record boot_kstate k : Prop := {
  bk_procs : length (proc_table k) = 64%nat;
  bk_sched : exists m entry idle, ksched k = (sched_init m kpml4 entry idle).1;
  bk_idle : idle_thread (ksched k) <> 0
}.

Lemma boot_threads j : 0 <= j < 64 -> t_proc (get_t (boot_sched kpml4) j) = None.
Proof.
  intros Hj. unfold get_t, boot_sched. cbn [threads]. destruct (decide (j = 0)) as [->|Hne]; [done|].
  rewrite zget_zset_ne by lia. rewrite zget_lookup, lookup_replicate_2 by lia. done.
Qed.

Lemma sched_init_full m entry idle : let s := (sched_init m kpml4 entry idle).1 in
  (exists r, sched_inv s r) /\ current s = 0 /\ running s /\ forall j, 0 <= j < 64 -> t_proc (get_t s j) = None.
Proof.
  cbn zeta. destruct (sched_run_inv _ _ _ _ _ (sr_init m kpml4 entry idle)) as (Hi & _). split; [done|].
  unfold sched_init in *. fold (boot_sched kpml4) in *. destruct (boot_inv kpml4) as (H0 & _).
  destruct (sched_create_kthread (boot_sched kpml4) m kpml4 entry idle 0) as [[[t s1] m1] fr] eqn:E. cbn [fst] in *.
  destruct (create_full _ _ _ _ _ _ _ _ _ _ _ H0 E) as (_ & _ & _ & Hc & _ & Hpr & Hs).
  split_and!; [done| |].
  - unfold running. change (get_t (set_idle s1 t)) with (get_t s1). change (current (set_idle s1 t)) with (current s1).
    rewrite Hc. by rewrite Hs by (cbn; lia).
  - intros j Hj. change (get_t (set_idle s1 t) j) with (get_t s1 j). rewrite Hpr by done. by apply boot_threads.
Qed.

Lemma unused_slots (l : list process_t) i c :
  core <$> ((fun p => set_name_ids p (-1) (ppid p) PROC_UNUSED) <$> l) !! i = Some c -> ~ used c.
Proof. rewrite list_lookup_fmap. destruct (l !! i); [|done]. intros [= <-]. unfold used. cbn. tauto. Qed.

Lemma boot_ok k : boot_kstate k -> sys_ok (process_init kpml4 k).
Proof.
  intros [Hl (m & entry & idle & Es) Hid]. pose proof (sched_init_full m entry idle) as (Hi & Hc & Hr & Hnp).
  rewrite <- Es in *. destruct Hi as [r Hi]. destruct (sched_bounds _ _ Hi) as (Hcb & Hm & Hlen & Hidle).
  unfold process_init. set (p0 := set_cwd _ _). set (l := _ <$> proc_table k). set (s' := set_t (ksched k) _ _).
  assert (Hll : length l = 64%nat) by (unfold l; by rewrite length_fmap).
  assert (Eg : forall j, 0 <= j < 64 -> j <> 0 -> get_t s' j = get_t (ksched k) j).
  { intros j Hj Hne. unfold s'. rewrite Hc. by rewrite get_set_ne by lia. }
  assert (E0 : t_proc (get_t s' 0) = Some 0 /\ t_state (get_t s' 0) = THREAD_RUNNING).
  { unfold s'. rewrite Hc in *. rewrite get_set_eq by (done || lia). unfold running in Hr. by rewrite Hc in Hr. }
  assert (Hu : forall i c, (core <$> zset l 0 p0) !! i = Some c -> used c -> i = 0%nat /\ c = Slot 0 (-1) PROC_RUNNING (Some 0)).
  { intros i c Hic Huc. rewrite list_lookup_fmap in Hic. destruct i as [|i].
    - split; [done|]. revert Hic. unfold zset. rewrite list_lookup_insert_eq by (rewrite Hll; cbn; lia). intros [= <-].
      unfold core, p0. cbn [pid ppid state thread set_cwd set_fds set_thread set_exit set_cr3 set_umap set_ids set_state]. by rewrite Hc.
    - exfalso. unfold zset in Hic. rewrite list_lookup_insert_ne in Hic by done. by apply (unused_slots (proc_table k) (S i) c). }
  assert (H00 : (core <$> zset l 0 p0) !! 0%nat = Some (Slot 0 (-1) PROC_RUNNING (Some 0))).
  { rewrite list_lookup_fmap. unfold zset. rewrite list_lookup_insert_eq by (rewrite Hll; cbn; lia). cbn [option_fmap option_map fmap].
    unfold core, p0. cbn [pid ppid state thread set_cwd set_fds set_thread set_exit set_cr3 set_umap set_ids set_state]. by rewrite Hc. }
  split.
  - unfold klife. cbn [next_pid ksched with_next with_sched with_procs]. change (cores _) with (core <$> zset l 0 p0).
    split; try lia.
    + by rewrite length_fmap, length_zset.
    + eexists. split; [exact H00|]. done.
    + intros i c Hic Huc. by destruct (Hu _ _ Hic Huc).
    + intros i c Hic Huc. by destruct (Hu _ _ Hic Huc) as [_ ->].
    + intros i j c c' Hi' Hj' Hui Huj _. destruct (Hu _ _ Hi' Hui) as [-> _]. by destruct (Hu _ _ Hj' Huj) as [-> _].
    + exists r. apply set_t_inv; [done|lia|done].
    + change (idle_thread s') with (idle_thread (ksched k)). rewrite Eg by lia. apply Hnp. lia.
    + intros t i Ht Hpr _ _. change (next_tid s') with (next_tid (ksched k)) in Ht. destruct (decide (t = 0)) as [->|Hne].
      * destruct E0 as [E0 _]. rewrite E0 in Hpr. injection Hpr as <-. split; [done|]. eexists. split; [exact H00|]. done.
      * rewrite Eg in Hpr by lia. by rewrite Hnp in Hpr by lia.
    + intros i c t Hic Huc Hth. destruct (Hu _ _ Hic Huc) as [-> ->]. injection Hth as <-.
      destruct E0 as [-> _]. change (next_tid s') with (next_tid (ksched k)). split; [lia|done].
    + intros t Ht. change (next_tid s') with (next_tid (ksched k)) in Ht. rewrite Eg by lia. apply Hnp. lia.
  - unfold running. change (t_state (get_t s' (current (ksched k))) = THREAD_RUNNING). rewrite Hc. apply E0.
Qed.

(** ** The way of an exit status *)

Lemma close_fds_exit {H} `{KernelHeap H} (v : @vfs H) p : exit_status (vfs_close_process_fds v p).2 = exit_status p.
Proof.
  unfold vfs_close_process_fds. generalize (seq 0 (length (fds p))). intros l. revert v p.
  induction l as [|fd l IH]; intros v p; cbn [foldl]; [done|]. unfold close_slot at 2. repeat case_match; by rewrite IH.
Qed.

Lemma wake_other k id i : state (get_p k i) <> PROC_BLOCKED -> 0 <= i -> get_p (wake_parent k id) i = get_p k i.
Proof.
  intros Hs Hi. unfold wake_parent. destruct (process_get k id) as [j|] eqn:Ej; [|done]. cbn zeta.
  destruct (bool_decide (state (get_p k j) = PROC_BLOCKED)) eqn:Eb; [|done]. apply bool_decide_eq_true in Eb.
  assert (Hne : j <> i) by (by intros ->). assert (0 <= j).
  { unfold process_get in Ej. destruct (first_index _ _); [|done]. injection Ej as <-. lia. }
  destruct (thread _); unfold get_p, set_p; cbn [proc_table with_sched with_procs]; by rewrite zget_zset_ne.
Qed.

Lemma cleanup_slot k pi status : 0 <= pi < Z.of_nat (length (proc_table k)) -> ppid (get_p k pi) <> pid (get_p k pi) ->
  let p := get_p (exit_cleanup k pi status) pi in
  core p = Slot (pid (get_p k pi)) (ppid (get_p k pi)) PROC_ZOMBIE (thread (get_p k pi)) /\ exit_status p = status.
Proof.
  intros Hpi Hne. unfold exit_cleanup. cbn zeta. set (z := set_state _ PROC_ZOMBIE). set (k1 := set_p k pi z).
  set (k2 := with_procs k1 _). assert (E2 : get_p k2 pi = z).
  { unfold k2, k1, get_p, set_p. cbn [proc_table with_procs]. rewrite zget_lookup. unfold zset.
    rewrite list_lookup_fmap, list_lookup_insert_eq by lia. cbn [fmap option_fmap option_map default]. unfold Datatypes.id, reparent.
    change (ppid z) with (ppid (get_p k pi)). change (pid z) with (pid (get_p k pi)).
    rewrite (proj2 (Z.eqb_neq _ _)) by done. by rewrite andb_false_r. }
  rewrite E2. set (k3 := with_kmem k2 _). pose proof (close_fds_core (kvfs k3) (set_umap z [])) as Ec.
  pose proof (close_fds_exit (kvfs k3) (set_umap z [])) as Ee. destruct (vfs_close_process_fds _ _) as [v p]. cbn [snd] in *.
  assert (Eg : get_p (set_p (with_kvfs k3 v) pi p) pi = p).
  { apply get_set_p. cbn. rewrite length_fmap, length_zset. lia. }
  set (k4 := with_ksvc _ _). assert (Eg4 : get_p k4 pi = p) by exact Eg.
  rewrite wake_other; [rewrite Eg4; split; [exact Ec|exact Ee]| |lia].
  rewrite Eg4. assert (state p = PROC_ZOMBIE) as ->; [|done]. by injection Ec.
Qed.


Lemma slot_core k i z : proc_table k !! i = Some z -> cores k !! i = Some (core z).
Proof. intros H. unfold cores. by rewrite list_lookup_fmap, H. Qed.

(** There is one process with a given pid. *)
Lemma pid_unique k i z : klife None k -> proc_table k !! i = Some z -> unused z = false ->
  forall j y, proc_table k !! j = Some y -> unused y = false -> pid y = pid z -> j = i.
Proof.
  intros H Hz%slot_core Huz%bool_decide_eq_false j y Hy%slot_core Huy%bool_decide_eq_false Hp'.
  by apply (lf_uniq _ _ _ _ H j i (core y) (core z)).
Qed.

Lemma child_of_pid parent id y : 0 < id -> child_of parent id y = true -> unused y = false /\ pid y = id.
Proof.
  intros Hid [[Hu%negb_true_iff _]%andb_prop [Hm%Z.eqb_eq|Hm%Z.eqb_eq]%orb_prop]%andb_prop; [lia|done].
Qed.

(** A wait that finds its zombie. *)
Lemma reap_zombie k i z : klife None k -> 0 <= i -> proc_table k !! Z.to_nat i = Some z -> unused z = false -> zombie z = true ->
  0 < pid z ->
  process_get k (pid z) = Some i /\
  process_try_reap k (ppid z) (pid z) = (pid z, Some (exit_status z), process_destroy k i).
Proof.
  intros H Hi Hz Hu Hzz Hp'. pose proof (pid_unique k _ z H Hz Hu) as Huniq. split.
  - unfold process_get. rewrite (first_index_unique _ _ (Z.to_nat i) z); [cbn; f_equal; lia|done|by rewrite Hu, Z.eqb_refl|].
    intros j y Hj [Huy%negb_true_iff Hm%Z.eqb_eq]%andb_prop. by apply (Huniq j y).
  - unfold process_try_reap. rewrite (first_index_unique _ _ (Z.to_nat i) z); [|done| |].
    + rewrite Z2Nat.id by done. assert (Eg : get_p k i = z) by (unfold get_p; by rewrite zget_lookup, Hz). by rewrite Eg.
    + unfold child_of. by rewrite Hu, !Z.eqb_refl, orb_true_r, Hzz.
    + intros j y Hj [[Huy Hm]%child_of_pid _]%andb_prop; [by apply (Huniq j y)|done].
Qed.

(** Nothing is left of a process that was destroyed. *)
Lemma destroyed_gone k i z parent : klife None k -> 0 <= i -> proc_table k !! Z.to_nat i = Some z -> unused z = false -> 0 < pid z ->
  let k2 := process_destroy k i in
  unused (get_p k2 i) = true /\ process_get k2 (pid z) = None /\ (process_try_reap k2 parent (pid z)).1 = (- VE_CHILD, None).
Proof.
  intros H Hi Hz Hu Hp'. cbn zeta. assert (Eg : get_p k i = z) by (unfold get_p; by rewrite zget_lookup, Hz).
  destruct (destroy_life k i ltac:(by rewrite Eg)) as (Ec & _). set (k2 := process_destroy k i) in *.
  pose proof (lookup_lt_Some _ _ _ (slot_core _ _ _ Hz)) as Hlt.
  assert (Hno : forall g : process_t -> bool, (forall y, g y = true -> unused y = false /\ pid y = pid z) ->
     forall y, y ∈ proc_table k2 -> g y = false).
  { intros g Hg y [j Hj]%list_elem_of_lookup. apply not_true_iff_false. intros Hy. destruct (Hg y Hy) as [Huy Hpy].
    apply bool_decide_eq_false in Huy. apply slot_core in Hj. rewrite Ec in Hj.
    apply list_lookup_insert_Some in Hj as [(_ & Hx & _)|[Hne Hx]]; [by injection Hx as _ _ Hx _|].
    unfold cores in Hx. rewrite list_lookup_fmap in Hx. destruct (proc_table k !! j) as [x|] eqn:Ej; [|done].
    injection Hx as Hx1 _ Hx3 _. apply Hne. symmetry. apply (pid_unique k _ z H Hz Hu j x); [done|apply bool_decide_eq_false|]; congruence. }
  split_and!.
  - assert (Hx : cores k2 !! Z.to_nat i = Some (Slot (-1) (ppid (get_p k i)) PROC_UNUSED (thread (get_p k i))))
      by (rewrite Ec; by apply list_lookup_insert_eq).
    pose proof (core_get k2 i _ Hx) as Hy. apply bool_decide_eq_true. by injection Hy.
  - unfold process_get. rewrite (proj2 (first_index_None _ _)); [done|]. apply Hno.
    intros y [Huy%negb_true_iff Hm%Z.eqb_eq]%andb_prop. done.
  - unfold process_try_reap. rewrite (proj2 (first_index_None _ _)).
    + cbn zeta. cbn [fst]. replace (existsb _ _) with false; [done|]. symmetry. apply not_true_iff_false.
      intros (y & Hy%list_elem_of_In & Hcy)%existsb_exists. revert Hcy. rewrite Hno; [done| |done].
      intros x. by apply child_of_pid.
    + apply Hno. intros y [Hy _]%andb_prop. by apply (child_of_pid parent).
Qed.

(** The slot of a process that exits. *)
Lemma exit_slot k pi frame status : sys_ok k -> process_current k = Some pi -> pid (get_p k pi) <> 0 ->
  let p := get_p k pi in let k1 := (process_exit_current k frame status).2 in
  0 <= pi /\ 0 < pid p /\
  exists z, proc_table k1 !! Z.to_nat pi = Some z /\ core z = Slot (pid p) (ppid p) PROC_ZOMBIE (thread p) /\ exit_status z = status.
Proof.
  intros Hs Hcur Hp0. cbn zeta. set (p := get_p k pi) in *.
  destruct (current_live k pi Hs Hcur) as (Hpi & c & Hc & Eg & Hl & _ & Hpid). destruct Hs as [H _]. fold p in Eg.
  pose proof (lf_ppid _ _ _ _ H _ _ Hc (proj1 Hl)) as Hlt. pose proof (klife_len None k H) as Hlen.
  rewrite <- Eg in Hlt, Hpid. cbn [c_pid c_ppid core] in Hlt, Hpid. split; [lia|]. split; [lia|].
  destruct (cleanup_slot k pi status ltac:(lia) ltac:(fold p; lia)) as [Ec Ee]. fold p in Ec.
  set (k1 := (process_exit_current k frame status).2).
  assert (E1 : proc_table k1 = proc_table (exit_cleanup k pi status)).
  { unfold k1, process_exit_current. rewrite Hcur. fold p. rewrite (proj2 (Z.eqb_neq _ _)) by done. cbn zeta. by destruct (sched_tick _ _). }
  unfold get_p in Ec, Ee. rewrite <- E1, zget_lookup in Ec, Ee.
  destruct (proc_table k1 !! Z.to_nat pi) as [z|]; [by exists z|]. cbn [default] in Ec. by injection Ec.
Qed.
End Kernel.
