(* ===== verification/Slots.v ===== *)
(** * The slots a process operation leaves alone

  The process table is an array of records; an operation of [Process] writes the
  slot of the running process, a slot that was unused, the slot of a zombie that it
  destroys, or the slot of a parent that it wakes.  All other records stay as they
  are, field by field. *)
From S2P Require Import Prelude Interfaces Pmm PhysMem Vmm ProcData UserMem Uaccess Sched Ipc Svc Vfs VfsFiles Elf Process.

Section Slots.
Context {Hp : Type} `{KH : KernelHeap Hp} `{HM : HeapMemory Hp}.
Context (kpml4 : Z) (nx_ok : bool) (blobs : list (list Z)).
Notation kstate := (@kstate Hp).
Implicit Types k : kstate.

(** The record in slot [i] is the same. *)
Definition keep (i : nat) k k' : Prop := proc_table k' !! i = proc_table k !! i.

#[export] Instance keep_refl i : Reflexive (keep i).
Proof. by intros k. Qed.

#[export] Instance keep_trans i : Transitive (keep i).
Proof. unfold keep. intros k1 k2 k3 H1 H2. congruence. Qed.

(** Slot [i] holds a process. *)
Definition taken k (i : nat) : Prop := exists p, proc_table k !! i = Some p /\ unused p = false.

Lemma taken_keep k k' i : keep i k k' -> taken k i -> taken k' i.
Proof. unfold keep, taken. by intros ->. Qed.

Lemma keep_set_p k j p i : 0 <= j -> j <> Z.of_nat i -> keep i k (set_p k j p).
Proof. intros Hj Hne. unfold keep, set_p. cbn [proc_table with_procs]. unfold zset. apply list_lookup_insert_ne. lia. Qed.

Lemma keep_store k k' j p i : proc_table k' = proc_table k -> 0 <= j -> j <> Z.of_nat i -> keep i k (set_p k' j p).
Proof. intros E Hj Hne. transitivity k'; [unfold keep; by rewrite E|by apply keep_set_p]. Qed.

Lemma keep_destroy k j i : 0 <= j -> j <> Z.of_nat i -> keep i k (process_destroy k j).
Proof.
  intros Hj Hne. unfold process_destroy. destruct (unused _); [done|]. destruct (process_destroy_user_space _ _) as [m p].
  destruct (vfs_close_process_fds _ _) as [v p']. by apply keep_store.
Qed.

Lemma keep_ret_frame k fr v i : keep i k (ret_frame k fr v).2.
Proof. unfold ret_frame. cbn [snd]. by destruct (fr =? 0). Qed.

Lemma keep_alloc k parent r k' i : taken k i -> process_alloc kpml4 k parent = (r, k') ->
  keep i k k' /\ forall j, r = Some j -> 0 <= j /\ j <> Z.of_nat i.
Proof.
  intros (p & Ep & Hu). unfold process_alloc. destruct (first_index unused (proc_table k)) as [j|] eqn:Ej; [|by intros [= <- <-]].
  destruct (address_space_create (kmem k) kpml4) as [cr m]. cbn zeta. destruct (cr =? 0); [by intros [= <- <-]|].
  apply first_index_Some in Ej as (q & Hq & Huq & _). assert (Hne : j <> i) by congruence.
  intros [= <- <-]. split; [apply keep_store; [done|lia..]|]. intros x [= <-]. lia.
Qed.

Lemma keep_start k j f r k' i : 0 <= j -> j <> Z.of_nat i -> start_thread kpml4 k j f = (r, k') ->
  keep i k k' /\ forall k2, r = Some k2 -> keep i k k2.
Proof.
  intros Hj Hne. unfold start_thread. destruct (sched_alloc_kstack _ _ _) as [[[ktop kbase] s] m]. cbn zeta.
  destruct (ktop =? 0); [by intros [= <- <-]|]. destruct (sched_adopt_thread _ _ _ _ _ _) as [[t|] s']; [|by intros [= <- <-]].
  intros [= <- <-]. split; [done|]. intros k2 [= <-]. by apply keep_store.
Qed.

Ltac keep_tac := eauto using keep_store, keep_destroy, keep_set_p.

Lemma keep_spawn_user k code parent i : taken k i -> keep i k (process_spawn_user kpml4 nx_ok k code parent).2.
Proof.
  intros Ht. unfold process_spawn_user. cbn zeta. destruct (_ =? 0); [done|].
  destruct (process_alloc kpml4 k parent) as [[j|] k1] eqn:Ea; destruct (keep_alloc _ _ _ _ _ Ht Ea) as [K1 Hj]; [|done].
  destruct (Hj j eq_refl) as [H0 Hne]. destruct (code_pages _ _ _ _) as [[ok m] p].
  set (k2 := set_p (with_kmem k1 m) j p). assert (K2 : keep i k k2) by (transitivity k1; [done|by apply keep_store]).
  destruct (negb ok); [transitivity k2; keep_tac|]. destruct (stack_pages _ _ _ _) as [[r m'] p'].
  set (k3 := set_p (with_kmem k2 m') j p'). assert (K3 : keep i k k3) by (transitivity k2; [done|by apply keep_store]).
  destruct (negb (r =? ELF_OK)); [transitivity k3; keep_tac|].
  set (k4 := set_p k3 j _). assert (K4 : keep i k k4) by (transitivity k3; [done|by apply keep_set_p]).
  destruct (start_thread kpml4 k4 j _) as [st k5] eqn:Es. destruct (keep_start _ _ _ _ _ _ H0 Hne Es) as [K5 K6].
  destruct st as [k6|]; cbn [snd]; [transitivity k4; [done|by apply K6]|].
  transitivity k4; [done|]. transitivity k5; [done|by apply keep_destroy].
Qed.

Lemma keep_spawn_elf k image parent r k' i : taken k i -> process_spawn_elf kpml4 nx_ok blobs k image parent = Some (r, k') -> keep i k k'.
Proof.
  intros Ht. unfold process_spawn_elf. destruct (_ =? 0); [by intros [= _ <-]|].
  destruct (elf_validate image) as [es|ctx]; [by intros [= _ <-]|].
  destruct (process_alloc kpml4 k parent) as [[j|] k1] eqn:Ea; destruct (keep_alloc _ _ _ _ _ Ht Ea) as [K1 Hj]; [|by intros [= _ <-]].
  destruct (Hj j eq_refl) as [H0 Hne]. destruct (load_image _ _ _ _ _) as [[[[[es entry] rsp] m] p]|]; [|done].
  set (k2 := set_p (with_kmem k1 m) j p). assert (K2 : keep i k k2) by (transitivity k1; [done|by apply keep_store]). cbn zeta.
  destruct (negb (es =? ELF_OK)); [intros [= _ <-]; transitivity k2; keep_tac|].
  set (k4 := set_p k2 j _). assert (K4 : keep i k k4) by (transitivity k2; [done|by apply keep_set_p]).
  destruct (start_thread kpml4 k4 j _) as [st k5] eqn:Es. destruct (keep_start _ _ _ _ _ _ H0 Hne Es) as [K5 K6].
  destruct st as [k6|]; intros [= _ <-]; [transitivity k4; [done|by apply K6]|].
  transitivity k4; [done|]. transitivity k5; [done|by apply keep_destroy].
Qed.

Lemma keep_fork_handles k p r k' i : fork_handles k p = (r, k') -> keep i k k'.
Proof.
  unfold fork_handles. destruct (ipc_handles p) as [[a hs]|]; [|by intros [= _ <-]].
  destruct (ipc_handle_table_create _) as [[[a' l]|] h]; by intros [= _ <-].
Qed.

Lemma keep_fork k frame i : taken k i -> keep i k (process_fork_current kpml4 k frame).2.
Proof.
  intros Ht. assert (Hret : forall k1 v, keep i k k1 -> keep i k (ret_frame k1 frame v).2).
  { intros k1 v K. transitivity k1; [done|apply keep_ret_frame]. }
  unfold process_fork_current. destruct (process_current k) as [pi|]; [|by apply Hret]. cbn zeta. set (p := get_p k pi).
  destruct (pid p =? 0); [by apply Hret|]. destruct (_ || _); [by apply Hret|].
  destruct (process_alloc kpml4 k (pid p)) as [[j|] k1] eqn:Ea; destruct (keep_alloc _ _ _ _ _ Ht Ea) as [K1 Hj]; [|by apply Hret].
  destruct (Hj j eq_refl) as [H0 Hne]. destruct (fork_pages _ _ _ _) as [[ok m] c].
  set (k2 := set_p (with_kmem k1 m) j c). assert (K2 : keep i k k2) by (transitivity k1; [done|by apply keep_store]).
  destruct (negb ok); [apply Hret; transitivity k2; keep_tac|].
  destruct (fork_handles k2 p) as [hs k3] eqn:Eh. apply (keep_fork_handles _ _ _ _ i) in Eh.
  set (k4 := set_p k3 j _). assert (K4 : keep i k k4) by (transitivity k2; [done|transitivity k3; keep_tac]).
  destruct hs as [hs|]; [|apply Hret; transitivity k4; keep_tac].
  unfold fork_fds. set (k5 := set_p (with_kvfs k4 _) j _). assert (K5 : keep i k k5) by (transitivity k4; [done|by apply keep_store]).
  destruct (start_thread kpml4 k5 j _) as [st k6] eqn:Es. destruct (keep_start _ _ _ _ _ _ H0 Hne Es) as [K6 K7].
  destruct st as [k7|]; apply Hret; [transitivity k5; [done|by apply K7]|].
  transitivity k5; [done|]. transitivity k6; [done|by apply keep_destroy].
Qed.

Lemma keep_exec k frame upath a k' i : process_execve_current kpml4 nx_ok blobs k frame upath = Some (a, k') ->
  (forall pi, process_current k = Some pi -> 0 <= pi /\ pi <> Z.of_nat i) -> keep i k k'.
Proof.
  intros E Hc. revert E. assert (Hret : forall k1 v r k2, keep i k k1 -> Some (ret_frame k1 frame v) = Some (r, k2) -> keep i k k2).
  { intros k1 v r k2 K. pose proof (keep_ret_frame k1 frame v i) as Hr. destruct (ret_frame k1 frame v).
    intros [= _ <-]. transitivity k1; done. }
  unfold process_execve_current. destruct (process_current k) as [pi|]; [|by apply Hret]. destruct (Hc pi eq_refl) as [H0 Hne]. cbn zeta.
  destruct (pid (get_p k pi) =? 0); [by apply Hret|]. destruct (bool_decide _); [by apply Hret|].
  destruct (copy_from_user _ _ _ _) as [bytes|]; [|by apply Hret].
  destruct (elf_find_embedded blobs _) as [es|blob]; [by apply Hret|].
  destruct (elf_validate blob) as [es|ctx]; [by apply Hret|].
  destruct (address_space_create (kmem k) kpml4) as [cr m]. destruct (cr =? 0); [by apply Hret|].
  destruct (load_image nx_ok blobs ctx m _) as [[[[[es entry] rsp] m1] scratch]|]; [|done].
  destruct (negb (es =? ELF_OK)); [by apply Hret|].
  destruct (process_destroy_user_space m1 (get_p k pi)) as [m2 p2]. destruct (thread _) as [ti|]; [|done].
  intros [= _ <-]. by apply keep_store.
Qed.

Lemma keep_wake k id i : (forall p, proc_table k !! i = Some p -> state p <> PROC_BLOCKED) -> keep i k (wake_parent k id).
Proof.
  intros Hs. unfold wake_parent. destruct (process_get k id) as [j|] eqn:Ej; [|done]. cbn zeta.
  unfold process_get in Ej. destruct (first_index _ _) as [n|] eqn:En; [|done]. injection Ej as <-.
  apply first_index_Some in En as (q & Hq & _). unfold get_p. rewrite zget_lookup, Nat2Z.id, Hq. cbn [default].
  unfold Datatypes.id. destruct (bool_decide (state q = PROC_BLOCKED)) eqn:Eb; [|done]. apply bool_decide_eq_true in Eb.
  assert (Hne : Z.of_nat n <> Z.of_nat i) by (intros ->%Nat2Z.inj; by apply (Hs q)).
  destruct (thread _); by apply keep_store; [|lia|].
Qed.

(** Exit changes a zombie's parent at most. *)
Lemma exit_zombie k pi frame status i z : process_current k = Some pi -> 0 <= pi -> pi <> Z.of_nat i ->
  proc_table k !! i = Some z -> zombie z = true ->
  let k' := (process_exit_current k frame status).2 in
  proc_table k' !! i = Some (if (pid (get_p k pi) =? 0) then z else reparent (pid (get_p k pi)) (ppid (get_p k pi)) z).
Proof.
  intros Hcur H0 Hne Hz Hzz. cbn zeta. unfold process_exit_current. rewrite Hcur. destruct (pid (get_p k pi) =? 0); [done|]. cbn zeta.
  destruct (sched_tick _ _) as [f s]. cbn [snd proc_table with_sched]. unfold exit_cleanup. cbn zeta.
  set (p := set_state _ PROC_ZOMBIE). set (k1 := set_p k pi p). set (k2 := with_procs k1 _).
  assert (E2 : proc_table k2 !! i = Some (reparent (pid p) (ppid p) z)).
  { unfold k2. cbn [proc_table with_procs]. rewrite list_lookup_fmap. unfold k1. rewrite keep_set_p by done. by rewrite Hz. }
  set (k3 := with_kmem k2 _). destruct (vfs_close_process_fds _ _) as [v q].
  match goal with |- context [wake_parent ?k4 ?pp] => assert (K4 : keep i k2 k4) by (by apply keep_store);
    assert (K5 : keep i k4 (wake_parent k4 pp)) end.
  { apply keep_wake. intros x. rewrite K4, E2. intros [= <-]. unfold reparent. apply bool_decide_eq_true in Hzz.
    case_match; cbn; by rewrite Hzz. }
  rewrite K5, K4. exact E2.
Qed.

Lemma keep_store_status k p a st i : keep i k (store_status k p a st).
Proof. unfold store_status. by repeat case_match. Qed.

(** A wait leaves everything but the caller and the child it reaps. *)
Lemma keep_wait k pi frame id ustatus i : process_current k = Some pi -> 0 <= pi -> pi <> Z.of_nat i ->
  keep i (process_try_reap k (pid (get_p k pi)) id).2 (process_wait_current k frame id ustatus).2.
Proof.
  intros Hcur H0 Hne. unfold process_wait_current. rewrite Hcur. destruct (process_try_reap _ _ _) as [[r st] k1]. cbn [snd].
  destruct (0 <? r); [apply keep_store_status|]. destruct (r <? 0); [done|]. cbn zeta.
  destruct (sched_tick _ _) as [nf s]. destruct (negb _); [by apply keep_store|]. cbn [snd].
  match goal with |- keep i k1 (ret (with_sched (set_p ?k2 _ _) _) _ _) => assert (K2 : keep i k1 k2) by (by apply keep_store) end.
  etransitivity; [exact K2|]. by apply keep_store.
Qed.

(** Reaping leaves every slot but the one of the zombie found. *)
Lemma reap_slot k parent id : 
  match first_index (fun c => child_of parent id c && zombie c) (proc_table k) with
  | Some j => exists c, proc_table k !! j = Some c /\ child_of parent id c = true /\ zombie c = true /\
      process_try_reap k parent id = (pid c, Some (exit_status c), process_destroy k (Z.of_nat j)) /\
      forall i, i <> j -> keep i k (process_destroy k (Z.of_nat j))
  | None => exists r, process_try_reap k parent id = (r, None, k) /\ r <= 0
  end.
Proof.
  unfold process_try_reap. destruct (first_index _ _) as [j|] eqn:Ej.
  - apply first_index_Some in Ej as (c & Hj & [Hc Hz]%andb_prop & _). exists c. unfold get_p. rewrite zget_lookup, Nat2Z.id, Hj.
    split_and!; try done. intros i Hne. apply keep_destroy; lia.
  - eexists. split; [done|]. destruct (existsb _ _); [done|]. by vm_compute.
Qed.
End Slots.
