(* ===== verification/Syscall.v ===== *)
(** * System calls ([syscall/syscall.c])

  Console reads and writes, and the dispatcher: the arguments of a call are the saved
  registers of its frame, the result is stored into the saved RAX.  The state is that of
  the processes and the kernel's components ([Process]) with the device registry, the
  terminal and the port.

  [None] as a result means that the kernel does not return: it dereferences a NULL
  pointer, faults on a service name, or loops for ever.  The setup of the SYSCALL
  registers and the message about an unknown number are not modelled. *)
From S2P Require Import Prelude Interfaces Pmm PhysMem Vmm ProcData UserMem Uaccess Arch Sched Ipc Svc Vfs VfsFiles Elf Process Serial Device Tty.

Definition SYS_read : Z := 0.
Definition SYS_write : Z := 1.
Definition SYS_open : Z := 2.
Definition SYS_close : Z := 3.
Definition SYS_lseek : Z := 8.
Definition SYS_mmap : Z := 9.
Definition SYS_munmap : Z := 11.
Definition SYS_brk : Z := 12.
Definition SYS_ioctl : Z := 16.
Definition SYS_sched_yield : Z := 24.
Definition SYS_getpid : Z := 39.
Definition SYS_exit : Z := 60.
Definition SYS_wait4 : Z := 61.
Definition SYS_execve : Z := 59.
Definition SYS_ipc_endpoint_create : Z := 62.
Definition SYS_ipc_send : Z := 63.
Definition SYS_ipc_recv : Z := 64.
Definition SYS_ipc_close : Z := 65.
Definition SYS_ipc_connect : Z := 66.
Definition SYS_fork : Z := 67.
Definition SYS_svc_name_register : Z := 68.
Definition SYS_svc_name_unregister : Z := 69.
Definition SYS_svc_lookup : Z := 70.
Definition SYS_getcwd : Z := 79.
Definition SYS_chdir : Z := 80.
Definition SYS_readdir : Z := 89.

(** The staging buffers of [sys_read] and [sys_write]. *)
Definition STAGING : Z := 256.

Section Syscall.
Context {Hp : Type} `{KH : KernelHeap Hp} `{HM : HeapMemory Hp} {W : Type} `{SP : SerialPort W}.
Context (kpml4 : Z) (nx_ok : bool) (blobs : list (list Z)).

Record sys := Sys {
  kern : @kstate Hp;
  kdevs : devs W;
  console_inst : Z;
  ktty : tty;
  uart : W
}.
Implicit Types s : sys.

Definition with_kern s k : sys := Sys k (kdevs s) (console_inst s) (ktty s) (uart s).
Definition with_uart s w : sys := Sys (kern s) (kdevs s) (console_inst s) (ktty s) w.
Definition with_tty s t w : sys := Sys (kern s) (kdevs s) (console_inst s) t w.

Definition umem s : mem := ms_mem (kmem (kern s)).
Definition with_umem s (m : mem) : sys := with_kern s (with_kmem (kern s) (with_mem (kmem (kern s)) m)).
Definition set_proc s (pi : Z) (p : process_t) : sys := with_kern s (set_p (kern s) pi p).

(** ** Console input and output *)

(** [copy_to_user] of what was read. *)
Definition deliver s (p : process_t) (ubuf nread : Z) (out : list Z) : Z * sys :=
  if nread <? 0 then (nread, s)
  else if nread =? 0 then (0, s)
  else
    let '(ok, m) := copy_to_user (umem s) p ubuf out in
    (if ok then nread else - VE_FAULT, with_umem s m).

Definition sys_read s (p : process_t) (fd ubuf count : Z) : Z * sys :=
  if (fd <? 0) || (MAX_FDS <=? fd) then (- VE_BADF, s)
  else if count =? 0 then (0, s)
  else
    match fd_type (zget fd_none (fds p) fd) with
    | FD_VFS =>
        let '(r, m, v) := sys_vfs_read (umem s) (kvfs (kern s)) p fd ubuf count in
        let s := with_kern s (with_kvfs (kern s) v) in
        (r, with_umem s m)
    | FD_TTY =>
        let to_read := if STAGING <? count then STAGING else count in
        let '(nread, out, t, w) := tty_read (kdevs s) (console_inst s) (ktty s) (uart s) to_read in
        deliver (with_tty s t w) p ubuf nread out
    | FD_SERIAL =>
        let to_read := if STAGING <? count then STAGING else count in
        let '(nread, out, w) := dev_read (kdevs s) (uart s) (console_inst s) to_read in
        deliver (with_uart s w) p ubuf nread out
    | FD_NONE => (- VE_BADF, s)
    end.

(** The loop of [sys_write]. *)
Fixpoint write_loop (fuel : nat) s (p : process_t) (is_tty : bool) (ubuf count written : Z) : option (Z * sys) :=
  match fuel with
  | O => None
  | S fuel =>
      if count <=? written then Some (i64 written, s)
      else
        let chunk := if STAGING <? count - written then STAGING else count - written in
        match copy_from_user (umem s) p (u64 (ubuf + written)) chunk with
        | None => Some (if written =? 0 then - VE_FAULT else i64 written, s)
        | Some buf =>
            let '(r, w) := if is_tty then tty_write (kdevs s) (console_inst s) (uart s) buf
                           else dev_write (kdevs s) (uart s) (console_inst s) buf in
            let s := with_uart s w in
            if r <? 0 then Some (if written =? 0 then r else i64 written, s)
            else write_loop fuel s p is_tty ubuf count (u64 (written + r))
        end
  end.

(** Enough for every driver that makes progress: each turn writes a byte at least. *)
Definition write_fuel (count : Z) : nat := Z.to_nat (count + 1).

Definition sys_write s (p : process_t) (fd ubuf count : Z) : option (Z * sys) :=
  if (fd <? 0) || (MAX_FDS <=? fd) then Some (- VE_BADF, s)
  else if count =? 0 then Some (0, s)
  else
    match fd_type (zget fd_none (fds p) fd) with
    | FD_VFS => Some (sys_vfs_write (kvfs (kern s)) p fd, s)
    | FD_NONE => Some (- VE_BADF, s)
    | ty =>
        if console_inst s =? 0 then Some (- VE_IO, s)
        else write_loop (write_fuel count) s p (bool_decide (ty = FD_TTY)) ubuf count 0
    end.

(** ** The dispatcher *)

(** A service name, read through the pointer up to its NUL, [None] when a page is not
  mapped. *)
Fixpoint read_name (n : nat) (m : mem) (cr va : Z) : option (list Z) :=
  match n with
  | O => Some []
  | S n' =>
      let phys := vmm_virt_to_phys m cr va in
      if phys =? 0 then None
      else
        let b := mem_get m phys in
        if b =? 0 then Some (replicate n 0) else cons b <$> read_name n' m cr (u64 (va + 1))
  end.

(** [None] inside for NULL. *)
Definition name_arg s (p : process_t) (va : Z) : option (option (list Z)) :=
  if va =? 0 then Some None else Some <$> read_name 32 (umem s) (cr3 p) va.

(** [frame->rax = ...; return frame;] *)
Definition done s (fa v : Z) : option (Z * sys) := Some (fa, with_kern s (ret (kern s) fa v)).

Definition lift s (x : Z * @kstate Hp) : Z * sys := (x.1, with_kern s x.2).

(** Without a current process. *)
Definition no_process s (fa : Z) (f : isr_frame_t) : option (Z * sys) :=
  let nr := f_rax f in
  let bad_fd := (i32 (f_rdi f) <? 0) || (MAX_FDS <=? i32 (f_rdi f)) in
  if (nr =? SYS_read) || (nr =? SYS_write) then
    if bad_fd then done s fa (- VE_BADF) else if f_rdx f =? 0 then done s fa 0 else None
  else if nr =? SYS_brk then done s fa (- VE_INVAL)
  else if (nr =? SYS_mmap) || (nr =? SYS_munmap) || (nr =? SYS_getpid) then done s fa (- VE_PERM)
  else if (nr =? SYS_ipc_endpoint_create) || (nr =? SYS_ipc_send) || (nr =? SYS_ipc_recv) || (nr =? SYS_ipc_close) ||
          (nr =? SYS_ipc_connect) then done s fa (- VE_PERM)
  else if (nr =? SYS_svc_name_register) || (nr =? SYS_svc_name_unregister) || (nr =? SYS_svc_lookup) then done s fa SVC_E_FAULT
  else if nr =? SYS_ioctl then done s fa (- VE_BADF)
  else if (nr =? SYS_open) || (nr =? SYS_chdir) || (nr =? SYS_getcwd) then done s fa (- VE_PERM)
  else if (nr =? SYS_close) || (nr =? SYS_lseek) || (nr =? SYS_readdir) then
    if bad_fd then done s fa (- VE_BADF) else None
  else done s fa (- VE_NOSYS).

(** The calls of the process in slot [pi]. *)
Definition process_call s (pi fa : Z) (f : isr_frame_t) : option (Z * sys) :=
  let k := kern s in
  let p := get_p k pi in
  let nr := f_rax f in
  let fd := i32 (f_rdi f) in
  let fin '(r, s) := done s fa r in
  let keep_p (r : Z) (g : @ipc Hp svc) (p : process_t) := done (with_kern s (set_p (with_kipc k g) pi p)) fa r in
  if nr =? SYS_read then fin (sys_read s p fd (f_rsi f) (f_rdx f))
  else if nr =? SYS_write then
    match sys_write s p fd (f_rsi f) (f_rdx f) with None => None | Some x => fin x end
  else if nr =? SYS_brk then
    match sys_brk (kmem k) p (f_rdi f) with
    | None => None
    | Some (r, m, p) => done (with_kern s (set_p (with_kmem k m) pi p)) fa r
    end
  else if nr =? SYS_mmap then
    match sys_mmap nx_ok (kmem k) p (f_rdi f) (f_rsi f) (i32 (f_rdx f)) (i32 (f_r10 f)) (i32 (f_r8 f)) (f_r9 f) with
    | None => None
    | Some (r, m, p) => done (with_kern s (set_p (with_kmem k m) pi p)) fa r
    end
  else if nr =? SYS_munmap then
    let '(r, m, p) := sys_munmap (kmem k) p (f_rdi f) (f_rsi f) in
    done (with_kern s (set_p (with_kmem k m) pi p)) fa r
  else if nr =? SYS_getpid then done s fa (pid p)
  else if nr =? SYS_ipc_endpoint_create then
    let '(r, g, p) := sys_ipc_endpoint_create (kipc k) p in keep_p r g p
  else if nr =? SYS_ipc_send then
    let '(r, g, p) := sys_ipc_send (umem s) (kipc k) p fd (u32 (f_rsi f)) (f_rdx f) (u32 (f_r10 f)) in keep_p r g p
  else if nr =? SYS_ipc_recv then
    let '(r, m, g, p) := sys_ipc_recv (umem s) (kipc k) p fd (f_rsi f) (f_rdx f) (u32 (f_r10 f)) in
    let s := with_kern s (set_p (with_kipc k g) pi p) in
    done (with_umem s m) fa r
  else if nr =? SYS_ipc_close then
    let '(r, g, p) := sys_ipc_close (kipc k) p fd in keep_p r g p
  else if nr =? SYS_ipc_connect then
    let '(r, g, p) := sys_ipc_connect (kipc k) p fd (u32 (f_rsi f)) in keep_p r g p
  else if nr =? SYS_svc_name_register then
    match name_arg s p (f_rdi f) with
    | None => None
    | Some nm =>
        let '(r, sv) := sys_sr_register (kreg k) (ksvc k) p nm (i32 (f_rsi f)) in
        done (with_kern s (with_ksvc k sv)) fa r
    end
  else if nr =? SYS_svc_name_unregister then
    match name_arg s p (f_rdi f) with
    | None => None
    | Some nm =>
        let '(r, sv) := sys_sr_unregister (kreg k) (ksvc k) p nm (i32 (f_rsi f)) in
        done (with_kern s (with_ksvc k sv)) fa r
    end
  else if nr =? SYS_svc_lookup then
    match name_arg s p (f_rdi f) with
    | None => None
    | Some nm => let '(r, g, p) := sys_sr_lookup (kipc k) p nm in keep_p r g p
    end
  else if nr =? SYS_ioctl then
    if (fd <? 0) || (MAX_FDS <=? fd) then done s fa (- VE_BADF)
    else
      match fd_type (zget fd_none (fds p) fd) with
      | FD_TTY => let '(r, t) := tty_ioctl (ktty s) (f_rsi f) in done (with_tty s t (uart s)) fa r
      | _ => done s fa (- VE_BADF)
      end
  else if nr =? SYS_open then
    let '(r, v, p) := sys_vfs_open (umem s) (kvfs k) p (f_rdi f) (i32 (f_rsi f)) in
    done (with_kern s (set_p (with_kvfs k v) pi p)) fa r
  else if nr =? SYS_close then
    let '(r, v, p) := sys_vfs_close (kvfs k) p fd in
    done (with_kern s (set_p (with_kvfs k v) pi p)) fa r
  else if nr =? SYS_lseek then
    let '(r, v) := sys_vfs_lseek (kvfs k) p fd (i64 (f_rsi f)) (i32 (f_rdx f)) in
    done (with_kern s (with_kvfs k v)) fa r
  else if nr =? SYS_getcwd then
    let '(r, m) := sys_vfs_getcwd (umem s) p (f_rdi f) (f_rsi f) in done (with_umem s m) fa r
  else if nr =? SYS_chdir then
    let '(r, p) := sys_vfs_chdir (umem s) (kvfs k) p (f_rdi f) in done (set_proc s pi p) fa r
  else if nr =? SYS_readdir then
    let '(r, m, v) := sys_vfs_readdir (umem s) (kvfs k) p fd (f_rsi f) in
    let s := with_kern s (with_kvfs k v) in
    done (with_umem s m) fa r
  else done s fa (- VE_NOSYS).

(** [fa] is the address of the frame; the result is the address of the frame to return
  through. *)
Definition syscall_dispatch s (fa : Z) : option (Z * sys) :=
  let k := kern s in
  let f := frame_at k fa in
  let nr := f_rax f in
  if nr =? SYS_sched_yield then
    let k := ret k fa 0 in
    let '(fa', sc) := sched_tick (ksched k) fa in
    Some (fa', with_kern s (with_sched k sc))
  else if nr =? SYS_exit then Some (lift s (process_exit_current k fa (i32 (f_rdi f))))
  else if nr =? SYS_fork then Some (lift s (process_fork_current kpml4 k fa))
  else if nr =? SYS_execve then lift s <$> process_execve_current kpml4 nx_ok blobs k fa (f_rdi f)
  else if nr =? SYS_wait4 then Some (lift s (process_wait_current k fa (i32 (f_rdi f)) (f_rsi f)))
  else
    match process_current k with
    | Some pi => process_call s pi fa f
    | None => no_process s fa f
    end.

(** ** Interrupts

  [timer_handler] is the only handler [main.c] registers. *)
Definition interrupt s (fa : Z) : option (Z * sys) :=
  match isr_dispatch (frame_at (kern s) fa) with
  | RunIrq irq => if irq =? 0 then Some (lift s (timer (kern s) fa)) else Some (fa, s)
  | IgnoreVector => Some (fa, s)
  | KillProcess st => Some (lift s (process_exit_current (kern s) fa st))
  | HaltKernel => None
  end.
End Syscall.
