(* ===== verification/SysRun.v ===== *)
(** * System calls over time

  Every system call keeps the process table and the scheduler in step ([ProcLife],
  [ProcRun]); runs of the whole kernel, from boot over system calls, timer ticks and
  faults; and what follows for them. *)
From S2P Require Import Prelude Interfaces Pmm PhysMem Vmm ProcData UserMem Uaccess Arch Sched Ipc Svc Vfs VfsFiles Elf Process ProcLife ProcRun Slots Serial Device Tty Syscall.

(** ** Calls that keep the fields of the process table *)

Lemma release_loop_core n start : forall s p i s' p', release_loop n s p start i = (s', p') -> core p' = core p.
Proof.
  induction n as [|n IH]; intros s p i s' p'; cbn [release_loop]; [by intros [= _ <-]|].
  repeat case_match; [by intros ->%IH|by intros ->%IH|by intros [= _ <-]].
Qed.

Lemma brk_grow_core n new : forall s p va r s' p', brk_grow_loop n s p va new = Some (r, s', p') -> core p' = core p.
Proof.
  induction n as [|n IH]; intros s p va r s' p'; cbn [brk_grow_loop]; [done|]. case_match; [|by intros [= _ _ <-]].
  destruct (process_alloc_user_page s p va (brk_perm p)) as [[st s1] p1] eqn:E. apply alloc_page_core in E.
  case_match; [by intros [= _ _ <-]|]. intros ->%IH. done.
Qed.

Lemma brk_core s p a r s' p' : sys_brk s p a = Some (r, s', p') -> core p' = core p.
Proof.
  unfold sys_brk, um_brk_set, um_brk_grow, um_release_from. generalize page_fuel. intros n. repeat (case_match; try done).
  all: try (intros [= _ _ <-]); try done; simplify_eq.
  all: repeat match goal with
    | H : brk_grow_loop _ _ _ _ _ = Some _ |- _ => apply brk_grow_core in H
    | H : release_loop _ _ _ _ _ = _ |- _ => apply release_loop_core in H
    | H : Some _ = Some _ |- _ => injection H as; subst
    end; try done.
Qed.

Lemma mmap_loop_core n base end_ f : forall s p va r s' p', mmap_loop n s p base va end_ f = Some (r, s', p') -> core p' = core p.
Proof.
  induction n as [|n IH]; intros s p va r s' p'; cbn [mmap_loop]; [done|]. case_match; [|by intros [= _ _ <-]].
  destruct (process_alloc_user_page s p va f) as [[st s1] p1] eqn:E. apply alloc_page_core in E.
  case_match; [by intros [= _ _ <-]|]. intros ->%IH. done.
Qed.

Lemma mmap_core nx s p a len pr fl fd off r s' p' : sys_mmap nx s p a len pr fl fd off = Some (r, s', p') -> core p' = core p.
Proof.
  unfold sys_mmap. repeat (match goal with |- (if ?b then _ else _) = _ -> _ => destruct b; [by intros [= _ _ <-]|] end).
  cbn zeta. destruct (mmap_base s p a (page_up len)) as [[e|base]|]; [by intros [= _ _ <-]| |done]. apply mmap_loop_core.
Qed.

Lemma munmap_core s p a len : core (sys_munmap s p a len).2 = core p.
Proof.
  unfold sys_munmap, um_release_from. cbn zeta. repeat (match goal with |- context [if ?b then _ else _] => destruct b; [done|] end).
  destruct (release_loop _ _ _ _ _) as [s1 p1] eqn:E. by apply release_loop_core in E.
Qed.

Section Calls.
Context {Hp : Type} `{KH : KernelHeap Hp} `{HM : HeapMemory Hp}.
Implicit Types (g : @ipc Hp svc) (p : process_t).

Lemma ensure_core g p : core (ensure_table g p).2 = core p.
Proof. unfold ensure_table. repeat case_match; done. Qed.

Ltac ipc_core := 
  match goal with |- context [ensure_table ?g ?p] =>
    let E := fresh in pose proof (ensure_core g p) as E; destruct (ensure_table g p) as [[[] ?] ?]; cbn [snd] in *; try done
  end; repeat (case_match; try done).

Lemma ipc_create_core g p : core (sys_ipc_endpoint_create g p).2 = core p.
Proof. unfold sys_ipc_endpoint_create. ipc_core. Qed.

Lemma ipc_send_core m g p h tag a n : core (sys_ipc_send (M := mem) m g p h tag a n).2 = core p.
Proof. unfold sys_ipc_send. ipc_core. Qed.

Lemma ipc_recv_core m g p h t a n : core (sys_ipc_recv (M := mem) m g p h t a n).2 = core p.
Proof. unfold sys_ipc_recv. ipc_core. Qed.

Lemma ipc_connect_core g p a id : core (sys_ipc_connect g p a id).2 = core p.
Proof. unfold sys_ipc_connect. cbn zeta. case_match; [done|]. ipc_core. Qed.

Lemma ipc_close_core g p h : core (sys_ipc_close g p h).2 = core p.
Proof. unfold sys_ipc_close. ipc_core. Qed.

Lemma sr_lookup_core g p nm : core (sys_sr_lookup g p nm).2 = core p.
Proof. unfold sys_sr_lookup. cbn zeta. do 3 (case_match; [try done|try done]). ipc_core. Qed.
End Calls.

Section Files.
Context {Hp : Type} `{KH : KernelHeap Hp}.
Implicit Types (v : @vfs Hp) (p : process_t) (m : mem).

Lemma vfs_open_core m v p u fl : core (sys_vfs_open m v p u fl).2 = core p.
Proof.
  unfold sys_vfs_open. destruct (resolve_user m v p u); [done|]. destruct (negb _); [done|].
  destruct (kmalloc _ _). cbn zeta. case_match; [done|]. by destruct (find_free_fd p).
Qed.

Lemma vfs_close_core v p fd : core (sys_vfs_close v p fd).2 = core p.
Proof. unfold sys_vfs_close. by destruct (vfs_fd v p fd) as [[]|]. Qed.

Lemma vfs_chdir_core m v p u : core (sys_vfs_chdir m v p u).2 = core p.
Proof. unfold sys_vfs_chdir. by repeat case_match. Qed.
End Files.

(** ** The dispatcher *)
Section Run.
Context {Hp : Type} `{KH : KernelHeap Hp} `{HM : HeapMemory Hp} {W : Type} `{SP : SerialPort W}.
Context (kpml4 : Z) (nx_ok : bool) (blobs : list (list Z)).
Notation kstate := (@kstate Hp).
Notation sys := (@sys Hp W).
Implicit Types (s : sys) (k : kstate).

Definition ready_sys s : Prop := sys_ok (kern s).

(** An effect on the kernel that is a [sim] and leaves every record but the caller's. *)
Record own_slot (pi : Z) k k' : Prop := {
  q_sim : sim k k';
  q_keep : forall i, pi <> Z.of_nat i -> keep i k k'
}.

Definition quiet_call pi s (x : option (Z * sys)) : Prop :=
  match x with Some (_, s') => own_slot pi (kern s) (kern s') | None => True end.

Lemma own_slot_trans pi k1 k2 k3 : own_slot pi k1 k2 -> own_slot pi k2 k3 -> own_slot pi k1 k3.
Proof. intros [S1 K1] [S2 K2]. split; [by eapply sim_trans|]. intros i Hi. etransitivity; [by apply K1|by apply K2]. Qed.

Lemma done_quiet pi s s' fa v : own_slot pi (kern s) (kern s') -> quiet_call pi s (done s' fa v).
Proof. intros H. apply (own_slot_trans _ _ (kern s')); [done|]. split; [apply sim_ret|done]. Qed.

Lemma quiet_proc k k' pi p : sim k k' -> 0 <= pi -> proc_table k' = proc_table k -> core p = core (get_p k pi) ->
  own_slot pi k (set_p k' pi p).
Proof.
  intros Hs Hpi Ht Hc. split.
  - apply (sim_trans _ k'); [done|]. apply sim_set_p; [done|]. unfold get_p in *. by rewrite Ht.
  - intros i Hi. by apply keep_store.
Qed.

Lemma deliver_quiet pi s p u n out : own_slot pi (kern s) (kern (deliver s p u n out).2).
Proof. unfold deliver. repeat (case_match; try done). Qed.

Lemma read_quiet pi s p fd u n : own_slot pi (kern s) (kern (sys_read s p fd u n).2).
Proof.
  unfold sys_read. destruct (_ || _); [done|]. destruct (n =? 0); [done|]. destruct (fd_type _); [done| | |].
  - destruct (dev_read _ _ _ _) as [[r out] w]. apply (deliver_quiet pi (with_uart s w)).
  - destruct (tty_read _ _ _ _ _) as [[[r out] t] w]. apply (deliver_quiet pi (with_tty s t w)).
  - by destruct (sys_vfs_read _ _ _ _ _ _) as [[r m] v].
Qed.

Lemma write_loop_kern fuel : forall s p tt u n x r s', write_loop fuel s p tt u n x = Some (r, s') -> kern s' = kern s.
Proof.
  induction fuel as [|fuel IH]; intros s p tt u n x r s'; cbn [write_loop]; [done|]. case_match; [by intros [= _ <-]|]. cbn zeta.
  destruct (copy_from_user _ _ _ _) as [buf|]; [|by intros [= _ <-]].
  destruct (if tt then tty_write _ _ _ _ else dev_write _ _ _ _) as [r0 w]. case_match; [by intros [= _ <-]|]. by intros ->%IH.
Qed.

Lemma write_kern s p fd u n r s' : sys_write s p fd u n = Some (r, s') -> kern s' = kern s.
Proof.
  unfold sys_write.
  destruct (_ || _); [by intros [= _ <-]|]. destruct (n =? 0); [by intros [= _ <-]|].
  destruct (fd_type _); [by intros [= _ <-]| | |by intros [= _ <-]];
    (destruct (console_inst s =? 0); [by intros [= _ <-]|apply write_loop_kern]).
Qed.

Lemma no_process_quiet pi s fa f : quiet_call pi s (no_process s fa f).
Proof.
  unfold no_process. cbn zeta. assert (Hd : forall v, quiet_call pi s (done s fa v)) by (intros v; by apply done_quiet).
  repeat case_match; (apply Hd || exact I).
Qed.

(** The calls of a process, other than fork, exec, exit and wait, change no field of the
  process table that matters, no record of another process, nor the scheduler. *)
Lemma process_call_quiet s pi fa f : 0 <= pi -> quiet_call pi s (process_call nx_ok s pi fa f).
Proof.
  intros Hpi. unfold process_call. cbn zeta. set (k := kern s). set (p := get_p k pi). set (fd := i32 (f_rdi f)).
  assert (Hset : forall k' p' v, sim k k' -> proc_table k' = proc_table k -> core p' = core p ->
    quiet_call pi s (done (with_kern s (set_p k' pi p')) fa v)).
  { intros k' p' v H1 H2 H3. apply done_quiet. by apply quiet_proc. }
  destruct (f_rax f =? SYS_read).
  { pose proof (read_quiet pi s p fd (f_rsi f) (f_rdx f)) as H. destruct (sys_read _ _ _ _ _) as [r s']. by apply done_quiet. }
  destruct (f_rax f =? SYS_write).
  { destruct (sys_write _ _ _ _ _) as [[r s']|] eqn:E; [|done]. apply done_quiet. apply write_kern in E. by rewrite E. }
  destruct (f_rax f =? SYS_brk).
  { destruct (sys_brk _ _ _) as [[[r m] p']|] eqn:E; [|done]. apply brk_core in E. by apply Hset. }
  destruct (f_rax f =? SYS_mmap).
  { destruct (sys_mmap _ _ _ _ _ _ _ _ _) as [[[r m] p']|] eqn:E; [|done]. apply mmap_core in E. by apply Hset. }
  destruct (f_rax f =? SYS_munmap).
  { pose proof (munmap_core (kmem k) p (f_rdi f) (f_rsi f)) as E. destruct (sys_munmap _ _ _ _) as [[r m] p']. by apply Hset. }
  destruct (f_rax f =? SYS_getpid); [by apply done_quiet|].
  destruct (f_rax f =? SYS_ipc_endpoint_create).
  { pose proof (ipc_create_core (kipc k) p) as E. destruct (sys_ipc_endpoint_create _ _) as [[r g] p']. by apply Hset. }
  destruct (f_rax f =? SYS_ipc_send).
  { pose proof (ipc_send_core (umem s) (kipc k) p fd (u32 (f_rsi f)) (f_rdx f) (u32 (f_r10 f))) as E.
    destruct (sys_ipc_send _ _ _ _ _ _ _) as [[r g] p']. by apply Hset. }
  destruct (f_rax f =? SYS_ipc_recv).
  { pose proof (ipc_recv_core (umem s) (kipc k) p fd (f_rsi f) (f_rdx f) (u32 (f_r10 f))) as E.
    destruct (sys_ipc_recv _ _ _ _ _ _ _) as [[[r m] g] p']. cbn [snd] in E. apply done_quiet.
    apply (own_slot_trans _ _ (set_p (with_kipc k g) pi p')); [by apply quiet_proc|done]. }
  destruct (f_rax f =? SYS_ipc_close).
  { pose proof (ipc_close_core (kipc k) p fd) as E. destruct (sys_ipc_close _ _ _) as [[r g] p']. by apply Hset. }
  destruct (f_rax f =? SYS_ipc_connect).
  { pose proof (ipc_connect_core (kipc k) p fd (u32 (f_rsi f))) as E. destruct (sys_ipc_connect _ _ _ _) as [[r g] p']. by apply Hset. }
  destruct (f_rax f =? SYS_svc_name_register).
  { destruct (name_arg _ _ _) as [nm|]; [|done]. destruct (sys_sr_register _ _ _ _ _). by apply done_quiet. }
  destruct (f_rax f =? SYS_svc_name_unregister).
  { destruct (name_arg _ _ _) as [nm|]; [|done]. destruct (sys_sr_unregister _ _ _ _ _). by apply done_quiet. }
  destruct (f_rax f =? SYS_svc_lookup).
  { destruct (name_arg _ _ _) as [nm|]; [|done]. pose proof (sr_lookup_core (kipc k) p nm) as E.
    destruct (sys_sr_lookup _ _ _) as [[r g] p']. by apply Hset. }
  destruct (f_rax f =? SYS_ioctl).
  { destruct (_ || _); [by apply done_quiet|]. destruct (fd_type _); try by apply done_quiet.
    destruct (tty_ioctl _ _). by apply done_quiet. }
  destruct (f_rax f =? SYS_open).
  { pose proof (vfs_open_core (umem s) (kvfs k) p (f_rdi f) (i32 (f_rsi f))) as E. destruct (sys_vfs_open _ _ _ _ _) as [[r v] p']. by apply Hset. }
  destruct (f_rax f =? SYS_close).
  { pose proof (vfs_close_core (kvfs k) p fd) as E. destruct (sys_vfs_close _ _ _) as [[r v] p']. by apply Hset. }
  destruct (f_rax f =? SYS_lseek); [destruct (sys_vfs_lseek _ _ _ _ _); by apply done_quiet|].
  destruct (f_rax f =? SYS_getcwd); [destruct (sys_vfs_getcwd _ _ _ _); by apply done_quiet|].
  destruct (f_rax f =? SYS_chdir).
  { pose proof (vfs_chdir_core (umem s) (kvfs k) p (f_rdi f)) as E. destruct (sys_vfs_chdir _ _ _ _) as [r p']. by apply Hset. }
  destruct (f_rax f =? SYS_readdir); [destruct (sys_vfs_readdir _ _ _ _ _) as [[r m] v]; by apply done_quiet|].
  by apply done_quiet.
Qed.

Lemma dispatch_ok s fa a s' : sys_ok (kern s) -> scheduler_active (ksched (kern s)) = true -> next_pid (kern s) < 2 ^ 31 - 1 ->
  syscall_dispatch kpml4 nx_ok blobs s fa = Some (a, s') -> sys_ok (kern s').
Proof.
  intros H Ha Hn. unfold syscall_dispatch. cbn zeta. set (k := kern s) in *. set (f := frame_at k fa).
  destruct (f_rax f =? SYS_sched_yield).
  { pose proof (timer_ok (ret k fa 0) fa (ret_ok k fa 0 H)) as Ht. unfold timer in Ht.
    destruct (sched_tick _ _) as [fa' sc]. by intros [= _ <-]. }
  destruct (f_rax f =? SYS_exit); [intros [= _ <-]; by apply exit_sys_ok|].
  destruct (f_rax f =? SYS_fork); [intros [= _ <-]; by apply fork_sys_ok|].
  destruct (f_rax f =? SYS_execve).
  { destruct (process_execve_current _ _ _ _ _ _) as [[a' k']|] eqn:E; [|done]. intros [= _ <-]. by apply exec_sys_ok in E. }
  destruct (f_rax f =? SYS_wait4); [intros [= _ <-]; by apply wait_sys_ok|].
  intros E. assert (Hq : exists pi, quiet_call pi s (Some (a, s'))); [|destruct Hq as [pi [Hq _]]; by apply (sim_sys k)].
  rewrite <- E. destruct (process_current k) as [pi|] eqn:Ec; [|exists 0; apply no_process_quiet].
  exists pi. apply process_call_quiet. destruct (current_live k pi H Ec). lia.
Qed.

Lemma interrupt_ok s fa a s' : sys_ok (kern s) -> scheduler_active (ksched (kern s)) = true ->
  interrupt s fa = Some (a, s') -> sys_ok (kern s').
Proof.
  intros H Ha. unfold interrupt. destruct (isr_dispatch _) as [irq| |st|]; [|by intros [= _ <-]| |done].
  - destruct (irq =? 0); intros [= _ <-]; [|done]. by apply timer_ok.
  - intros [= _ <-]. by apply exit_sys_ok.
Qed.

(** ** Runs of the kernel

  Booting: [main.c] initialises the scheduler and the processes, creates kernel threads
  and processes, whose parent is the kernel, and starts the scheduler.  Then the
  threads run: system calls, interrupts and faults of user programs, kernel threads that
  return, and the idle loop, which reaps the kernel's children.  Interrupts and system
  calls need an active scheduler: before it is started interrupts are off and no user
  program runs. *)
Inductive sys_step : sys -> sys -> Prop :=
  | ys_kthread s entry func arg : sys_step s (with_kern s (kthread kpml4 (kern s) entry func arg))
  | ys_spawn_user s code : next_pid (kern s) < 2 ^ 31 - 1 ->
      sys_step s (with_kern s (process_spawn_user kpml4 nx_ok (kern s) code 0).2)
  | ys_spawn_elf s image r k' : next_pid (kern s) < 2 ^ 31 - 1 ->
      process_spawn_elf kpml4 nx_ok blobs (kern s) image 0 = Some (r, k') -> sys_step s (with_kern s k')
  | ys_start s : sys_step s (with_kern s (with_sched (kern s) (sched_start (ksched (kern s)))))
  | ys_syscall s fa a s' : scheduler_active (ksched (kern s)) = true -> next_pid (kern s) < 2 ^ 31 - 1 ->
      syscall_dispatch kpml4 nx_ok blobs s fa = Some (a, s') -> sys_step s s'
  | ys_interrupt s fa a s' : scheduler_active (ksched (kern s)) = true -> interrupt s fa = Some (a, s') -> sys_step s s'
  | ys_kthread_exit s fa : process_current (kern s) = None -> scheduler_active (ksched (kern s)) = true ->
      sys_step s (with_kern s (kthread_exit (kern s) fa))
  | ys_reap s id : sys_step s (with_kern s (process_try_reap (kern s) 0 id).2).

Inductive sys_run : sys -> Prop :=
  | yr_boot k g inst t w : boot_kstate kpml4 k -> sys_run (Sys (process_init kpml4 k) g inst t w)
  | yr_step s s' : sys_run s -> sys_step s s' -> sys_run s'.

Lemma step_ok s s' : sys_ok (kern s) -> sys_step s s' -> sys_ok (kern s').
Proof.
  assert (Hn : forall k, sys_ok k -> 0 <= 0 < next_pid k) by (intros k [H _]; pose proof (lf_next _ _ _ _ H); lia).
  intros IH H. destruct H as [s entry func arg|s code Hp'|s image r k' Hp' E|s|s fa a s' Ha Hp' E|s fa a s' Ha E|s fa Hc Ha|s id].
  - by apply kthread_ok.
  - apply spawn_user_ok; [done|by apply Hn|done].
  - eapply spawn_elf_ok; [exact IH|by apply Hn|exact Hp'|exact E].
  - apply same_sys; [done|]. split; try done. intros r [C N R M L I]. exists r. by split.
  - by eapply dispatch_ok.
  - by eapply interrupt_ok.
  - by apply kthread_exit_ok.
  - by apply reap_ok.
Qed.

Lemma run_ok s : sys_run s -> sys_ok (kern s).
Proof. induction 1 as [k g inst t w Hb|s s' _ IH Hs]; [by apply boot_ok|by apply (step_ok s)]. Qed.

(** C4.  In every run of the kernel no two processes in the table have the same pid, the
  kernel process stays alive in slot 0, every other process is younger than its parent,
  the running thread is in the state RUNNING, and every thread that has not exited and
  belongs to a process belongs to one that is alive and names it as its thread. *)
Theorem process_table_sound s : sys_run s -> let k := kern s in
  (forall i j p q, proc_table k !! i = Some p -> proc_table k !! j = Some q -> unused p = false -> unused q = false ->
     pid p = pid q -> i = j) /\
  (exists p, proc_table k !! 0%nat = Some p /\ pid p = 0 /\ unused p = false /\ zombie p = false) /\
  (forall i p, proc_table k !! i = Some p -> unused p = false -> ppid p < pid p < next_pid k) /\
  t_state (get_t (ksched k) (current (ksched k))) = THREAD_RUNNING /\
  (forall t i, 0 <= t < next_tid (ksched k) -> t_proc (get_t (ksched k) t) = Some i ->
     t_state (get_t (ksched k) t) <> THREAD_EXITED ->
     exists p, proc_table k !! Z.to_nat i = Some p /\ unused p = false /\ zombie p = false /\ thread p = Some t).
Proof.
  intros H%run_ok. cbn zeta. set (k := kern s) in *. destruct H as [H Hr].
  assert (Hc : forall i p, proc_table k !! i = Some p -> cores k !! i = Some (core p)).
  { intros i p Hi. unfold cores. by rewrite list_lookup_fmap, Hi. }
  assert (Hb : forall i c, cores k !! i = Some c -> exists p, proc_table k !! i = Some p /\ c = core p).
  { intros i c. unfold cores. rewrite list_lookup_fmap. destruct (proc_table k !! i) as [p|]; intros [= <-]. by exists p. }
  assert (Hu : forall p, unused p = false <-> used (core p)) by (intros p; apply bool_decide_eq_false).
  assert (Hz : forall p, live (core p) -> zombie p = false) by (intros p [_ Hz]; by apply bool_decide_eq_false).
  split_and!; [| | |done|].
  - intros i j p q Hi%Hc Hj%Hc Hp'%Hu Hq%Hu He. by apply (lf_uniq _ _ _ _ H i j (core p) (core q)).
  - destruct (lf_kernel _ _ _ _ H) as (c & (p & Ep & ->)%Hb & Hpid & _ & Hl). exists p. split_and!; try done; [apply Hu, Hl|by apply Hz].
  - intros i p Hi%Hc Hp'%Hu. split; [by apply (lf_ppid _ _ _ _ H i (core p))|].
    apply (pid_bounds _ _ _ _ i (core p) H Hi Hp').
  - intros t i Ht Hpr Hst. destruct (lf_owner _ _ _ _ H t i Ht Hpr Hst) as (_ & c & (p & Ep & ->)%Hb & Hl & Hth); [done|].
    exists p. split_and!; [done|apply Hu, Hl|by apply Hz|done].
Qed.

End Run.


(** ** A machine with one user process *)
Section Demo.
#[local] Instance demo_heap : KernelHeap (Z * mstate) :=
  {| kmalloc h n := (h.1, (h.1 + Z.max n 1, h.2)); kfree h _ := h |}.
#[local] Existing Instance demo_port.
#[local] Instance demo_heap_memory : HeapMemory (Z * mstate) :=
  {| heap_mem h := h.2; set_heap_mem h m := (h.1, m) |}.

Definition machine : mstate := MState (Pmm (replicate 2 255 ++ replicate 30 0) 32 256 240) (fun _ => 0).
Definition demo_init : sched * mstate := sched_init machine demo_root 0xFFFFFFFF80001000 0xFFFFFFFF80002000.
(** A frame of the timer interrupt, at 0x8000. *)
Definition irq0_frame : isr_frame_t := IsrFrame 0 0 0 0 0 0 0 0 0 0 0 0 0 0 0 32 0 0 GDT_SEL_KCODE 0 0 0.
Definition demo_boot : @kstate (Z * mstate) :=
  KState (replicate 64 process_zero) 0 demo_init.1 {[ 0x8000 := irq0_frame ]} [] [] ∅ 0 ∅ (0x100000, demo_init.2).

(** A process that loops, chosen by the first tick. *)
Definition demo_spawned : Z * @kstate (Z * mstate) :=
  process_spawn_user demo_root true (process_init demo_root demo_boot) [0xEB; 0xFE] 0.
Definition demo_started : @kstate (Z * mstate) := with_sched demo_spawned.2 (sched_start (ksched demo_spawned.2)).
Definition demo_user : @kstate (Z * mstate) := (timer demo_started 0x8000).2.

(** With the terminal and the port of the terminal's demonstration. *)
Definition on_console (k : @kstate (Z * mstate)) : @sys (Z * mstate) demo_uart :=
  Sys k demo_console.1.1.2 0x1000 (Tty [] 1) plain_wire.


Lemma demo_boot_ok : boot_kstate demo_root demo_boot.
Proof.
  assert (H : (idle_thread demo_init.1 =? 0) = false) by (vm_compute; reflexivity). apply Z.eqb_neq in H.
  split; [reflexivity| |exact H]. exists machine, 0xFFFFFFFF80001000, 0xFFFFFFFF80002000. reflexivity.
Qed.

Definition demo_check (k : @kstate (Z * mstate)) : bool :=
  let u := (timer k 0x8000).2 in
  bool_decide (process_current u = Some 1) && (pid (get_p u 1) =? 1) && (ppid (get_p u 1) =? 0) &&
  scheduler_active (ksched u) && scheduler_active (ksched k) && match isr_dispatch (frame_at k 0x8000) with RunIrq n => n =? 0 | _ => false end.

Lemma demo_check_facts k : demo_check k = true -> let u := (timer k 0x8000).2 in
  (process_current u = Some 1 /\ pid (get_p u 1) = 1 /\ ppid (get_p u 1) = 0 /\ scheduler_active (ksched u) = true) /\
  scheduler_active (ksched k) = true /\ isr_dispatch (frame_at k 0x8000) = RunIrq 0.
Proof.
  intros H. unfold demo_check in H. cbn zeta in *.
  apply andb_true_iff in H as [H Hi]. apply andb_true_iff in H as [H Hs]. apply andb_true_iff in H as [H Ha].
  apply andb_true_iff in H as [H Hpp]. apply andb_true_iff in H as [H Hpid].
  apply bool_decide_eq_true in H. apply Z.eqb_eq in Hpp, Hpid.
  destruct (isr_dispatch _) as [n| | |]; [|discriminate Hi..]. apply Z.eqb_eq in Hi. by rewrite Hi.
Qed.

Lemma demo_checked : demo_check demo_started = true.
Proof. vm_compute. reflexivity. Qed.

(** A boot with one user process, up to the first tick. *)
Lemma demo_runs k0 code k1 : boot_kstate demo_root k0 -> next_pid (process_init demo_root k0) < 2 ^ 31 - 1 ->
  k1 = (process_spawn_user demo_root true (process_init demo_root k0) code 0).2 ->
  let k2 := with_sched k1 (sched_start (ksched k1)) in
  scheduler_active (ksched k2) = true -> isr_dispatch (frame_at k2 0x8000) = RunIrq 0 ->
  sys_run demo_root true [] (on_console (timer k2 0x8000).2).
Proof.
  intros Hb Hn -> k2 Ha Hi. pose proof (yr_boot demo_root true [] k0 demo_console.1.1.2 0x1000 (Tty [] 1) plain_wire Hb) as H.
  pose proof (yr_step _ _ _ _ _ H (ys_spawn_user demo_root true [] (on_console (process_init demo_root k0)) code Hn)) as H1.
  pose proof (yr_step _ _ _ _ _ H1 (ys_start demo_root true [] _)) as H2. eapply yr_step; [exact H2|].
  apply (ys_interrupt demo_root true [] (on_console k2) 0x8000 (timer k2 0x8000).1 _ Ha). unfold interrupt. cbn [kern on_console]. by rewrite Hi.
Qed.

Lemma demo_user_run : sys_run demo_root true [] (on_console demo_user).
Proof.
  destruct (demo_check_facts _ demo_checked) as (_ & Ha & Hi).
  assert (Hn : forall k : @kstate (Z * mstate), next_pid (process_init demo_root k) < 2 ^ 31 - 1) by reflexivity.
  apply (demo_runs demo_boot [0xEB; 0xFE] demo_spawned.2 demo_boot_ok (Hn _)); [unfold demo_spawned; reflexivity|exact Ha|exact Hi].
Qed.

Lemma process_table_sound_witness :
  exists p, proc_table demo_user !! 0%nat = Some p /\ pid p = 0 /\ unused p = false /\ zombie p = false.
Proof. destruct (process_table_sound demo_root true [] _ demo_user_run) as (_ & H & _). exact H. Defined.
End Demo.
