(* ===== verification/ExitStatus.v ===== *)
(** * The way of an exit status

  A process that exits stays in the table as a zombie until a wait of its parent
  collects it.  No step of the kernel changes its record meanwhile, but for the
  parent, when that exits first; and no step removes it but a wait of its parent,
  which gets its pid and its status. *)
From S2P Require Import Prelude Interfaces Pmm PhysMem Vmm ProcData UserMem Uaccess Arch Sched Ipc Svc Vfs VfsFiles Elf Process.
From S2P Require Import ProcLife ProcRun Slots Serial Device Tty Syscall SysRun.

Section Status.
Context {Hp : Type} `{KH : KernelHeap Hp} `{HM : HeapMemory Hp} {W : Type} `{SP : SerialPort W}.
Context (kpml4 : Z) (nx_ok : bool) (blobs : list (list Z)).
Notation kstate := (@kstate Hp).
Notation sys := (@sys Hp W).
Notation sys_step := (sys_step kpml4 nx_ok blobs).
Implicit Types (s : sys) (k : kstate) (z : process_t).

(** The zombie [z] of slot [i] is there after a step as well, with another parent at
  most: its grandparent, when its parent exits in this step. *)
Definition still k k' (i : nat) z : Prop :=
  exists pp, proc_table k' !! i = Some (set_ids z (pid z) pp) /\
    (pp = ppid z \/ exists ci, process_current k = Some ci /\ pid (get_p k ci) = ppid z /\
       pp = ppid (get_p k ci) /\ zombie (get_p k' ci) = true).

(** The status word at the user address [a]: written when a present, user, writable
  page is there, dropped otherwise. *)
Definition stored (m m' : mem) (cr a st : Z) : Prop :=
  let phys := vmm_virt_to_phys m cr a in
  if bool_decide (a <> 0 /\ Z.land (vmm_get_pte m cr a) 7 = 7 /\ phys <> 0)
  then rd32 m' phys = st mod 2 ^ 32 /\ forall y, ~ phys <= y < phys + 4 -> mem_get m' y = mem_get m y
  else m' = m.

(** A step in which the parent collects the zombie [z] of slot [i]: the kernel itself,
  or the running process by [wait4]. *)
Definition collected s s' (i : nat) z : Prop :=
  let k2 := process_destroy (kern s) (Z.of_nat i) in
  (ppid z = 0 /\ s' = with_kern s k2 /\ exists id, process_try_reap (kern s) 0 id = (pid z, Some (exit_status z), k2)) \/
  exists fa ci, let f := frame_at (kern s) fa in
    process_current (kern s) = Some ci /\ pid (get_p (kern s) ci) = ppid z /\
    f_rax f = 61 /\ (i32 (f_rdi f) = -1 \/ i32 (f_rdi f) = pid z) /\
    f_rax (frame_at (kern s') fa) = pid z /\
    stored (ms_mem (kmem k2)) (ms_mem (kmem (kern s'))) (cr3 (get_p k2 ci)) (f_rsi f) (exit_status z) /\
    proc_table (kern s') = proc_table k2.

(** A process with the pid is in the table. *)
Definition present k (id : Z) : Prop := exists j q, proc_table k !! j = Some q /\ unused q = false /\ pid q = id.

Definition uncollected (id : Z) s s' : Prop := sys_step s s' /\ present (kern s') id.

(** ** The wait

  The memory that processes use is a field of the heap's state. *)
Section Wait.
Context (Hheap : forall (h : Hp) m, heap_mem (set_heap_mem h m) = m).

Lemma stored_status k p a st : stored (ms_mem (kmem k)) (ms_mem (kmem (store_status k p a st))) (cr3 p) a st.
Proof.
  unfold stored, store_status. change (Z.lor (Z.lor VMM_PRESENT VMM_USER) VMM_WRITE) with 7. cbn zeta.
  destruct (Z.eqb_spec a 0) as [->|Ha]; [by rewrite bool_decide_eq_false_2 by tauto|].
  destruct (Z.eqb_spec (Z.land (vmm_get_pte (ms_mem (kmem k)) (cr3 p) a) 7) 7); [|by rewrite bool_decide_eq_false_2 by tauto].
  set (phys := vmm_virt_to_phys _ _ _). destruct (Z.eqb_spec phys 0); [by rewrite bool_decide_eq_false_2 by tauto|].
  rewrite bool_decide_eq_true_2 by done. 
  assert (Ek : forall m, kmem (with_kmem k m) = m) by (intros m; apply Hheap). rewrite Ek. cbn [ms_mem with_mem].
  unfold rd32, wr32. split.
  - pose proof (mem_read_write_eq (ms_mem (kmem k)) phys (le_bytes 4 (u32 st)) (le_bytes_range 4 _)) as E.
    rewrite length_le_bytes in E. change (Z.of_nat 4) with 4 in E. rewrite E, le_val_bytes. change (256 ^ Z.of_nat 4) with (2 ^ 32).
    unfold u32. by rewrite Zmod_mod.
  - intros y Hy. apply mem_get_write_out. rewrite length_le_bytes. lia.
Qed.

Lemma reap_ext k k' parent id : proc_table k' = proc_table k -> (process_try_reap k' parent id).1 = (process_try_reap k parent id).1.
Proof. intros E. unfold process_try_reap, get_p. rewrite E. by destruct (first_index _ _). Qed.

Lemma frame_ret k fa v : f_rax (frame_at (ret k fa v) fa) = u64 v.
Proof. unfold ret, frame_at, set_frame. cbn [frames with_frames]. by rewrite lookup_insert_eq. Qed.

Lemma store_status_table k p a st : proc_table (store_status k p a st) = proc_table k /\ ksched (store_status k p a st) = ksched k.
Proof. unfold store_status. by repeat case_match. Qed.

(** A wait that reaps. *)
Lemma wait_reaps k ci fa id a r st k2 : process_current k = Some ci -> process_try_reap k (pid (get_p k ci)) id = (r, Some st, k2) ->
  0 < r < 2 ^ 31 -> let k' := (process_wait_current k fa id a).2 in
  f_rax (frame_at k' fa) = r /\ stored (ms_mem (kmem k2)) (ms_mem (kmem k')) (cr3 (get_p k2 ci)) a st /\
  proc_table k' = proc_table k2 /\ ksched k' = ksched k2.
Proof.
  intros Hc E Hr. cbn zeta. unfold process_wait_current. rewrite Hc, E, (proj2 (Z.ltb_lt 0 r)) by lia. cbn [snd default]. cbn zeta.
  unfold Datatypes.id. destruct (store_status_table k2 (get_p k2 ci) a st) as [E1 E2]. split_and!; try done.
  - rewrite frame_ret. apply u64_id. lia.
  - apply stored_status.
Qed.

(** ** One step *)

Lemma set_ids_same z : set_ids z (pid z) (ppid z) = z.
Proof. by destruct z. Qed.

Lemma still_keep k k' i z : proc_table k !! i = Some z -> keep i k k' -> still k k' i z.
Proof. intros Hz Hk. exists (ppid z). rewrite set_ids_same, Hk. split; [done|by left]. Qed.

Lemma zombie_taken k i z : proc_table k !! i = Some z -> zombie z = true -> taken k i.
Proof.
  intros Hz Hzz%bool_decide_eq_true. exists z. split; [done|]. apply bool_decide_eq_false. by rewrite Hzz.
Qed.

(** A process that runs is no zombie. *)
Lemma current_other k i z ci : sys_ok k -> proc_table k !! i = Some z -> zombie z = true -> process_current k = Some ci ->
  0 <= ci < 64 /\ ci <> Z.of_nat i.
Proof.
  intros H Hz Hzz%bool_decide_eq_true Hc. destruct (current_live k ci H Hc) as (Hb & c & Ec & _ & Hl & _). split; [done|].
  intros ->. rewrite Nat2Z.id in Ec. rewrite (slot_core k i z Hz) in Ec. injection Ec as <-. by apply (proj2 Hl).
Qed.

Lemma exit_still k fa st i z : sys_ok k -> proc_table k !! i = Some z -> zombie z = true ->
  still k (process_exit_current k fa st).2 i z.
Proof.
  intros H Hz Hzz. destruct (process_current k) as [ci|] eqn:Hc.
  2: { apply still_keep; [done|]. unfold process_exit_current. by rewrite Hc. }
  destruct (current_other k i z ci H Hz Hzz Hc) as [Hb Hne].
  pose proof (exit_zombie k ci fa st i z Hc ltac:(lia) Hne Hz Hzz) as E. cbn zeta in E.
  destruct (Z.eqb_spec (pid (get_p k ci)) 0) as [|H0]; [apply still_keep; [done|]; unfold keep; congruence|].
  unfold reparent in E. destruct (negb (unused z) && (ppid z =? pid (get_p k ci))) eqn:Er.
  - apply andb_prop in Er as [_ Er%Z.eqb_eq]. exists (ppid (get_p k ci)). split; [done|right]. exists ci. split_and!; try done.
    destruct (exit_slot k ci fa st H Hc H0) as (_ & _ & y & Hy & Ey & _). unfold get_p. rewrite zget_lookup, Hy.
    apply bool_decide_eq_true. by injection Ey.
  - apply still_keep; [done|]. unfold keep. congruence.
Qed.

Lemma pid_range k i z : sys_ok k -> proc_table k !! i = Some z -> zombie z = true -> 0 < pid z < 2 ^ 31 /\ unused z = false.
Proof.
  intros [H _] Hz Hzz. destruct (zombie_slot k i z H Hz Hzz) as (Hc & Hi & Hu & _). split; [|by apply bool_decide_eq_false].
  destruct i as [|i]; [lia|]. pose proof (lf_pid _ _ _ _ H i _ Hc Hu) as Hp'. cbn in Hp'. pose proof (lf_next _ _ _ _ H). lia.
Qed.

(** Reaping takes the zombie or leaves it. *)
Lemma reap_zombie_or k parent id i z : sys_ok k -> proc_table k !! i = Some z -> zombie z = true ->
  let '(r, st, k') := process_try_reap k parent id in
  keep i k k' \/
  ppid z = parent /\ (id = -1 \/ id = pid z) /\ r = pid z /\ st = Some (exit_status z) /\ k' = process_destroy k (Z.of_nat i).
Proof.
  intros H Hz Hzz. pose proof (reap_slot k parent id) as Hr. destruct (first_index _ _) as [j|].
  - destruct Hr as (c & Hj & Hch & _ & -> & Hk). destruct (decide (i = j)) as [<-|Hne]; [right|left; by apply Hk].
    rewrite Hz in Hj. injection Hj as <-. unfold child_of in Hch. apply andb_prop in Hch as [[_ Hpp%Z.eqb_eq]%andb_prop Hid].
    split_and!; try done. apply orb_prop in Hid as [Hid%Z.eqb_eq|Hid%Z.eqb_eq]; auto.
  - destruct Hr as (r & -> & _). by left.
Qed.

Lemma dispatch_zombie s fa a s' i z : sys_ok (kern s) -> proc_table (kern s) !! i = Some z -> zombie z = true ->
  syscall_dispatch kpml4 nx_ok blobs s fa = Some (a, s') -> still (kern s) (kern s') i z \/ collected s s' i z.
Proof.
  intros H Hz Hzz. pose proof (zombie_taken _ _ _ Hz Hzz) as Ht. set (k := kern s) in *.
  assert (Hcur : forall ci, process_current k = Some ci -> 0 <= ci /\ ci <> Z.of_nat i).
  { intros ci Hc. destruct (current_other k i z ci H Hz Hzz Hc). split; [lia|done]. }
  unfold syscall_dispatch. cbn zeta. fold k. set (f := frame_at k fa).
  destruct (f_rax f =? SYS_sched_yield).
  { destruct (sched_tick _ _) as [fa' sc]. intros [= _ <-]. left. by apply still_keep. }
  destruct (f_rax f =? SYS_exit); [intros [= _ <-]; left; by apply exit_still|].
  destruct (f_rax f =? SYS_fork); [intros [= _ <-]; left; apply still_keep; [done|by apply keep_fork]|].
  destruct (f_rax f =? SYS_execve).
  { destruct (process_execve_current _ _ _ _ _ _) as [[a' k']|] eqn:E; [|done]. intros [= _ <-]. left. apply still_keep; [done|].
    by apply (keep_exec _ _ _ _ _ _ _ _ i) in E. }
  destruct (f_rax f =? SYS_wait4) eqn:Ew.
  { apply Z.eqb_eq in Ew. intros [= _ <-]. cbn [kern lift snd with_kern]. destruct (process_current k) as [ci|] eqn:Hc.
    2: { left. apply still_keep; [done|]. unfold process_wait_current. by rewrite Hc. }
    destruct (Hcur ci eq_refl) as [H0 Hne]. set (w := i32 (f_rdi f)).
    pose proof (keep_wait k ci fa w (f_rsi f) i Hc H0 Hne) as Hk.
    pose proof (reap_zombie_or k (pid (get_p k ci)) w i z H Hz Hzz) as Hr.
    destruct (process_try_reap k (pid (get_p k ci)) w) as [[r st] k2] eqn:E. cbn [snd] in Hk.
    destruct Hr as [Hr|(Hpp & Hid & -> & -> & ->)]; [left; apply still_keep; [done|by transitivity k2]|right].
    destruct (pid_range k i z H Hz Hzz) as [Hp' _].
    destruct (wait_reaps k ci fa w (f_rsi f) _ _ _ Hc E Hp') as (E1 & E2 & E3 & _).
    right. exists fa, ci. fold k f. split_and!; try done. }
  intros E. left. apply still_keep; [done|].
  assert (Hq : exists pi, pi <> Z.of_nat i /\ quiet_call pi s (Some (a, s'))); [|destruct Hq as (pi & Hne & [_ Hk]); by apply Hk].
  rewrite <- E. destruct (process_current k) as [ci|] eqn:Hc.
  - destruct (Hcur ci eq_refl) as [H0 Hne]. exists ci. split; [done|by apply process_call_quiet].
  - exists (-1). split; [lia|apply no_process_quiet].
Qed.

(** A step of the kernel leaves a zombie where it is, or collects it. *)
Lemma zombie_step s s' i z : sys_ok (kern s) -> sys_step s s' -> proc_table (kern s) !! i = Some z -> zombie z = true ->
  still (kern s) (kern s') i z \/ collected s s' i z.
Proof.
  intros H Hs Hz Hzz. pose proof (zombie_taken _ _ _ Hz Hzz) as Ht.
  destruct Hs as [s entry func arg|s code Hp'|s image r k' Hp' E|s|s fa a s' Ha Hp' E|s fa a s' Ha E|s fa Hc Ha|s id].
  - left. apply still_keep; [done|]. cbn [kern with_kern]. unfold kthread. destruct (sched_create_kthread _ _ _ _ _ _) as [[[t sc] m] [fr|]]; done.
  - left. apply still_keep; [done|]. by apply keep_spawn_user.
  - left. apply still_keep; [done|]. by eapply keep_spawn_elf.
  - left. by apply still_keep.
  - by eapply dispatch_zombie.
  - left. unfold interrupt in E. destruct (isr_dispatch _) as [irq| |st|]; [| | |done].
    + destruct (irq =? 0); injection E as _ <-; apply still_keep; try done. cbn [kern lift with_kern snd]. unfold timer.
      by destruct (sched_tick _ _).
    + injection E as _ <-. by apply still_keep.
    + injection E as _ <-. by apply exit_still.
  - left. by apply still_keep.
  - pose proof (reap_zombie_or (kern s) 0 id i z H Hz Hzz) as Hr. destruct (process_try_reap (kern s) 0 id) as [[r st] k2] eqn:E.
    destruct Hr as [Hr|(Hpp & _ & -> & -> & ->)]; [left; by apply still_keep|right; left]. split_and!; [done|done|by exists id].
Qed.

(** Nothing of the pid is left in the table. *)
Lemma collected_absent s s' i z : sys_ok (kern s) -> proc_table (kern s) !! i = Some z -> zombie z = true ->
  collected s s' i z -> ~ present (kern s') (pid z).
Proof.
  intros H Hz Hzz Hc (j & q & Hj & Hu & Hq). destruct (pid_range _ i z H Hz Hzz) as [Hp' Huz].
  assert (Et : proc_table (kern s') = proc_table (process_destroy (kern s) (Z.of_nat i))).
  { destruct Hc as [(_ & -> & _)|(fa & ci & _ & _ & _ & _ & _ & _ & E)]; done. }
  pose proof (destroyed_gone (kern s) (Z.of_nat i) z 0 (proj1 H) ltac:(lia) ltac:(by rewrite Nat2Z.id) Huz ltac:(lia)) as (_ & Hg & _).
  unfold process_get in Hg. destruct (first_index _ _) as [|] eqn:Ef; [done|]. rewrite first_index_None in Ef.
  rewrite Et in Hj. pose proof (Ef q (list_elem_of_lookup_2 _ _ _ Hj)) as Hf. by rewrite Hu, Hq, Z.eqb_refl in Hf.
Qed.

Lemma zombie_run id s s' i z : sys_ok (kern s) -> rtc (uncollected id) s s' ->
  proc_table (kern s) !! i = Some z -> zombie z = true -> pid z = id ->
  sys_ok (kern s') /\ exists pp, proc_table (kern s') !! i = Some (set_ids z id pp).
Proof.
  intros H Hrun. revert z H. induction Hrun as [s|s s1 s' [Hs Hpr] _ IH]; intros z H Hz Hzz Hid.
  - split; [done|]. exists (ppid z). by rewrite <- Hid, set_ids_same.
  - pose proof (step_ok _ _ _ _ _ H Hs) as H1. destruct (zombie_step s s1 i z H Hs Hz Hzz) as [(pp & Hz1 & _)|Hc].
    + rewrite Hid in Hz1. destruct (IH (set_ids z id pp) H1 Hz1 Hzz eq_refl) as [H' (pp' & Hz')]. split; [done|]. by exists pp'.
    + exfalso. by apply (collected_absent s s1 i z H Hz Hzz Hc); rewrite Hid.
Qed.

(** The parent's wait for the zombie. *)
Lemma wait_gets k i z ci fa a : sys_ok k -> proc_table k !! i = Some z -> zombie z = true ->
  process_current k = Some ci -> pid (get_p k ci) = ppid z ->
  let k2 := process_destroy k (Z.of_nat i) in let k' := (process_wait_current k fa (pid z) a).2 in
  f_rax (frame_at k' fa) = pid z /\
  stored (ms_mem (kmem k2)) (ms_mem (kmem k')) (cr3 (get_p k2 ci)) a (exit_status z) /\
  unused (get_p k' (Z.of_nat i)) = true /\ process_get k' (pid z) = None /\
  f_rax (frame_at (process_wait_current k' fa (pid z) a).2 fa) = 2 ^ 64 - 10.
Proof.
  intros H Hz Hzz Hc Hpp. cbn zeta. destruct (pid_range k i z H Hz Hzz) as [Hp' Hu]. destruct (current_other k i z ci H Hz Hzz Hc) as [Hb Hne].
  pose proof (reap_zombie k (Z.of_nat i) z (proj1 H) ltac:(lia) ltac:(by rewrite Nat2Z.id) Hu Hzz ltac:(lia)) as (_ & Er).
  rewrite <- Hpp in Er. destruct (wait_reaps k ci fa (pid z) a _ _ _ Hc Er Hp') as (E1 & E2 & E3 & E4).
  set (k' := (process_wait_current k fa (pid z) a).2) in *. set (k2 := process_destroy k (Z.of_nat i)) in *.
  pose proof (destroyed_gone k (Z.of_nat i) z (ppid z) (proj1 H) ltac:(lia) ltac:(by rewrite Nat2Z.id) Hu ltac:(lia)) as (Hf & Hn & Hch).
  fold k2 in Hf, Hn, Hch. split_and!; [done|done|unfold get_p; by rewrite E3|unfold process_get; by rewrite E3|].
  assert (Hun : unused (get_p k (Z.of_nat i)) = false) by (unfold get_p; by rewrite zget_lookup, Nat2Z.id, Hz).
  assert (Hc' : process_current k' = Some ci).
  { unfold process_current. rewrite E4. unfold k2. by rewrite (proj2 (proj2 (destroy_life k (Z.of_nat i) Hun))). }
  assert (Hg : get_p k' ci = get_p k ci).
  { unfold get_p. rewrite !zget_lookup, E3. f_equal. unfold k2. apply keep_destroy; lia. }
  unfold process_wait_current. rewrite Hc', Hg, Hpp.
  pose proof (reap_ext k2 k' (ppid z) (pid z) E3) as Ex. rewrite Hch in Ex.
  destruct (process_try_reap k' (ppid z) (pid z)) as [[r st] k3]. injection Ex as -> ->.
  change (0 <? - VE_CHILD) with false. change (- VE_CHILD <? 0) with true. cbv iota. cbn [snd]. by rewrite frame_ret.
Qed.

(** C9.  An exit status reaches the parent.  Whatever the kernel did before, a process
  that exits with a status becomes a zombie that keeps the status and, at first, its
  parent.  It stays one through all further steps of the kernel as long as its pid is
  in the table: system calls and faults of other processes, forks and new processes,
  timer ticks, kernel threads, other waits.  In each of them its record stays the same,
  but for the parent, which becomes the grandparent when the parent exits; and no step
  removes it but its parent's wait or the kernel's own reaping, which get its pid and
  exactly this status.  When its parent runs and waits for it, [wait4] returns its pid,
  stores the status where the status pointer allows it, frees the slot, and the next
  such wait finds no child. *)
Theorem exit_status_delivered s pi frame status s' : sys_run kpml4 nx_ok blobs s -> let k := kern s in
  process_current k = Some pi -> pid (get_p k pi) <> 0 -> scheduler_active (ksched k) = true ->
  let id := pid (get_p k pi) in
  let k1 := (process_exit_current k frame status).2 in
  let i := Z.to_nat pi in
  process_get k1 id = Some pi /\ zombie (get_p k1 pi) = true /\ ppid (get_p k1 pi) = ppid (get_p k pi) /\
  (rtc (uncollected id) (with_kern s k1) s' -> let k' := kern s' in
   exists z, proc_table k' !! i = Some z /\ pid z = id /\ zombie z = true /\ exit_status z = status /\
    (forall s'', sys_step s' s'' -> still k' (kern s'') i z \/ collected s' s'' i z) /\
    (forall ci fa a, process_current k' = Some ci -> pid (get_p k' ci) = ppid z ->
       let k2 := (process_wait_current k' fa id a).2 in
       f_rax (frame_at k2 fa) = id /\
       stored (ms_mem (kmem (process_destroy k' pi))) (ms_mem (kmem k2)) (cr3 (get_p (process_destroy k' pi) ci)) a status /\
       unused (get_p k2 pi) = true /\ process_get k2 id = None /\
       f_rax (frame_at (process_wait_current k2 fa id a).2 fa) = 2 ^ 64 - 10)).
Proof.
  intros Hrun%run_ok k Hcur Hp0 Ha. cbn zeta. set (p := get_p k pi) in *.
  pose proof (exit_sys_ok k frame status Hrun Ha) as H1.
  destruct (exit_slot k pi frame status Hrun Hcur Hp0) as (Hpi & Hpos & z & Hz & Ec & Ee). fold p in Ec, Hpos.
  set (k1 := (process_exit_current k frame status).2) in *. injection Ec as Epid Eppid Est Eth.
  assert (Hzz : zombie z = true) by by apply bool_decide_eq_true.
  assert (Hg : get_p k1 pi = z) by (unfold get_p; by rewrite zget_lookup, Hz).
  destruct (pid_range k1 _ z H1 Hz Hzz) as [Hb Hu].
  destruct (reap_zombie k1 pi z (proj1 H1) Hpi Hz Hu Hzz ltac:(lia)) as [Hget _]. rewrite Hg, Epid in *.
  split_and!; [done|done|done|]. intros Hr.
  destruct (zombie_run (pid p) (with_kern s k1) s' (Z.to_nat pi) z H1 Hr Hz Hzz Epid) as [H' [pp Hz']].
  exists (set_ids z (pid p) pp). split_and!; [done|done|done|done| |].
  - intros s'' Hs. by apply zombie_step.
  - intros ci fa a Hc Hpp. pose proof (wait_gets (kern s') _ _ ci fa a H' Hz' Hzz Hc Hpp) as Hw. cbn zeta in Hw.
    rewrite Z2Nat.id in Hw by done. cbn [pid set_ids exit_status] in Hw. by rewrite Ee in Hw.
Qed.
End Wait.
End Status.

(** ** A wait of the parent *)
Section Demo.
#[local] Existing Instances demo_heap demo_port demo_heap_memory.

(** The only user process exits; a tick later the kernel's process runs. *)
Definition exited (k : @kstate (Z * mstate)) := (process_exit_current k 0x8000 7).2.
Definition ticked (k : @kstate (Z * mstate)) := (timer (exited k) 0x8000).2.

Definition demo_wait_check (k : @kstate (Z * mstate)) : bool :=
  bool_decide (process_current (ticked k) = Some 0) && (pid (get_p (ticked k) 0) =? 0) && scheduler_active (ksched (exited k)) &&
  match isr_dispatch (frame_at (exited k) 0x8000) with RunIrq n => n =? 0 | _ => false end.

Lemma ticked_step (k : @kstate (Z * mstate)) : demo_wait_check k = true -> process_get (exited k) 1 = Some 1 ->
  uncollected demo_root true [] 1 (on_console (exited k)) (on_console (ticked k)) /\ proc_table (ticked k) = proc_table (exited k).
Proof.
  unfold demo_wait_check. intros H Hg. apply andb_true_iff in H as [H Hi]. apply andb_true_iff in H as [_ Ha].
  destruct (isr_dispatch _) as [n| | |] eqn:Ei; [|discriminate Hi..]. apply Z.eqb_eq in Hi. subst n.
  assert (Et : proc_table (ticked k) = proc_table (exited k)) by (unfold ticked, timer; by destruct (sched_tick _ _)).
  split; [|exact Et]. split.
  - apply (ys_interrupt demo_root true [] (on_console (exited k)) 0x8000 (timer (exited k) 0x8000).1 _ Ha). unfold interrupt.
    cbn [kern on_console]. by rewrite Ei.
  - unfold present. cbn [kern on_console]. rewrite Et. unfold process_get in Hg. destruct (first_index _ _) as [j|] eqn:Ej; [|done].
    apply first_index_Some in Ej as (q & Hq & [Hu%negb_true_iff Hid%Z.eqb_eq]%andb_prop & _). by exists j, q.
Qed.

(** The exit, a tick, and the wait of the parent, which here is the kernel's process. *)
Lemma exit_status_delivered_witness :
  f_rax (frame_at (process_wait_current (ticked demo_user) 0x8000 1 0).2 0x8000) = 1 /\
  exists z, proc_table (ticked demo_user) !! 1%nat = Some z /\ zombie z = true /\ exit_status z = 7.
Proof.
  destruct (demo_check_facts _ demo_checked) as ((Hc & Hpid & Hpp & Ha) & _). fold demo_user in *. pose proof demo_user_run as Hrun.
  assert (Hk : demo_wait_check demo_user = true) by (vm_compute; reflexivity).
  generalize dependent demo_user. intros k Hc Hpid Hpp Ha Hrun Hk.
  assert (Hp0 : pid (get_p k 1) <> 0) by (rewrite Hpid; lia).
  destruct (exit_status_delivered (HM := demo_heap_memory) demo_root true [] (fun _ _ => eq_refl) (on_console k) 1 0x8000 7
    (on_console (ticked k)) Hrun Hc Hp0 Ha) as (Hg & Hz1 & Hpp1 & H).
  cbn [kern on_console] in Hg, Hz1, Hpp1, H. rewrite Hpid in Hg, H. fold (exited k) in Hg, Hz1, Hpp1, H.
  destruct (ticked_step k Hk Hg) as [Hs Et].
  destruct (H (rtc_once _ _ Hs)) as (z & Hz & Hid & Hzz & Hst & _ & Hw). change (Z.to_nat 1) with 1%nat in Hz.
  unfold demo_wait_check in Hk. apply andb_true_iff in Hk as [Hk _]. apply andb_true_iff in Hk as [Hk _].
  apply andb_true_iff in Hk as [Hcur%bool_decide_eq_true Hp%Z.eqb_eq].
  assert (Hzp : ppid z = 0).
  { rewrite <- Hpp, <- Hpp1. unfold get_p. rewrite zget_lookup, <- Et. change (Z.to_nat 1) with 1%nat. by rewrite Hz. }
  split; [|exists z; exact (conj Hz (conj Hzz Hst))].
  destruct (Hw 0 0x8000 0 Hcur ltac:(rewrite Hzp; exact Hp)) as (Hr & _). exact Hr.
Defined.
End Demo.
