(* ===== verification/SysWrite.v ===== *)
(** * Console output and refused calls

  [sys_write] on the console always returns and sends exactly the bytes it reports; a
  call with an unknown number or a bad file descriptor is refused and changes nothing
  but the result register. *)
From S2P Require Import Prelude Interfaces Pmm PhysMem Vmm ProcData UserMem AddrSpace Uaccess Arch Sched Ipc Svc Vfs VfsFiles Elf Process Serial Device Tty Syscall Teardown.

Section Write.
Context {Hp : Type} `{KH : KernelHeap Hp} `{HM : HeapMemory Hp} {W : Type} `{SPL : SerialPortLaws W tx rx}.
Notation sys := (@sys Hp W).
Implicit Types s : sys.

(** The bytes the process has at [a]. *)
Definition user_bytes (m : mem) (p : process_t) (a n : Z) : list Z := (fun i => user_byte m p (a + i)) <$> range 0 n.

(** The next piece [sys_write] stages. *)
Definition piece (count n : Z) : Z := if STAGING <? count - n then STAGING else count - n.

(** [n] bytes get through: whole pieces the process can read, up to the end or to the
  first piece it cannot read. *)
Record sendable (m : mem) (p : process_t) (ubuf count n : Z) : Prop := {
  sd_range : 0 <= n <= count;
  sd_readable : n = 0 \/ user_range_ok m p ubuf n false = true;
  sd_whole : n = count \/ (n mod STAGING = 0 /\ user_range_ok m p (ubuf + n) (piece count n) false = false)
}.

Lemma putchars_law l : Forall (fun b => 0 <= b < 256) l -> forall w,
  tx (foldl serial_putchar w l) = tx w ++ l /\ rx (foldl serial_putchar w l) = rx w.
Proof.
  induction 1 as [|b l Hb _ IH]; intros w; cbn [foldl]; [by rewrite app_nil_r|]. destruct (IH (serial_putchar w b)) as [-> ->].
  destruct (putchar_law w b) as [-> ->]. rewrite u8_id by lia. by rewrite <- app_assoc.
Qed.

(** Both kinds of console descriptor send the piece through the serial driver. *)
Lemma console_write g inst w (is_tty : bool) buf : console_ok g inst -> inst <> 0 -> Z.of_nat (length buf) <= STAGING ->
  (if is_tty then tty_write g inst w buf else dev_write g w inst buf) = (Z.of_nat (length buf), foldl serial_putchar w buf).
Proof.
  intros (priv & Hw & _) Hi Hl. unfold tty_write. rewrite (proj2 (Z.eqb_neq _ _) Hi), Hw. unfold serial_write, STAGING in *.
  assert (E : i32 (Z.of_nat (length buf)) = Z.of_nat (length buf)) by (apply i32_id; lia).
  rewrite E. rewrite (proj2 (Z.ltb_ge _ _)) by lia. by destruct is_tty.
Qed.

Lemma user_range_app m p a n c : 0 <= a < 2 ^ 64 -> (n = 0 \/ user_range_ok m p a n false = true) -> 0 <= n < 2 ^ 63 -> 0 < c < 2 ^ 63 ->
  a + n < 2 ^ 64 -> user_range_ok m p (a + n) c false = true -> user_range_ok m p a (n + c) false = true.
Proof.
  intros Ha [->|H1] Hn Hc Hs H2; [by rewrite Z.add_0_r in H2|].
  apply user_range_ok_iff in H1 as (_ & _ & Hq); [|lia..]. apply user_range_ok_iff in H2 as (_ & Hl & Hp2); [|lia..].
  apply user_range_ok_iff; [lia..|]. split_and!; [lia|lia|]. intros va Hva.
  destruct (decide (va < a + n)); [apply Hq; lia|apply Hp2; lia].
Qed.

Lemma write_loop_spec F G p (is_tty : bool) ubuf count fuel : 0 <= ubuf < 2 ^ 64 -> 0 <= count < 2 ^ 64 -> forall s n,
  um_inv F (kmem (kern s)) p G -> console_ok (kdevs s) (console_inst s) -> console_inst s <> 0 ->
  0 <= n <= count -> (n = 0 \/ user_range_ok (umem s) p ubuf n false = true) -> (n = count \/ n mod STAGING = 0) ->
  count - n < Z.of_nat fuel ->
  exists n' w, write_loop fuel s p is_tty ubuf count n = Some (if n' =? 0 then (if count =? 0 then 0 else - VE_FAULT) else n', with_uart s w) /\
    n <= n' /\ sendable (umem s) p ubuf count n' /\
    tx w = tx (uart s) ++ user_bytes (umem s) p (ubuf + n) (n' - n) /\ rx w = rx (uart s).
Proof.
  intros Hu Hct. induction fuel as [|fuel IH]; intros s n Hum Hc Hi Hn Hr Hw Hf; [lia|]. cbn [write_loop].
  assert (Hlim : n = 0 \/ ubuf + n <= USER_LIMIT).
  { destruct Hr as [?|Hr]; [by left|right]. apply user_range_ok_iff in Hr as (_ & ? & _); lia. }
  unfold USER_LIMIT in Hlim.
  assert (Ei : i64 n = n \/ n = count).
  { destruct Hlim as [->|?]; [by left|]. left. apply i64_id. lia. }
  destruct (Z.leb_spec count n) as [Hle|Hlt].
  - assert (n = count) as -> by lia. exists count, (uart s). split.
    + assert (i64 count = if count =? 0 then 0 else count) as ->; [|by destruct s, (count =? 0)].
      destruct (Z.eqb_spec count 0) as [->|]; [done|]. destruct Hlim as [?|?]; [lia|]. apply i64_id. lia.
    + split_and!; [lia|split; [lia|done|by left]| |done]. unfold user_bytes. rewrite Z.sub_diag, range_nil by lia. by rewrite app_nil_r.
  - fold (piece count n). assert (Hpc : 0 < piece count n <= STAGING /\ n + piece count n <= count).
    { unfold piece, STAGING in *. destruct (Z.ltb_spec 256 (count - n)); lia. }
    unfold STAGING in Hpc.
    rewrite u64_id by lia. unfold umem. rewrite (copy_from_user_spec F p G) by (done || lia). fold (umem s).
    destruct (user_range_ok (umem s) p (ubuf + n) (piece count n) false) eqn:Ok.
    + set (buf := _ <$> range 0 _). assert (Hb : Forall (fun b => 0 <= b < 256) buf).
      { apply Forall_fmap, Forall_true. intros i. unfold compose. apply user_byte_range. }
      assert (Hbl : Z.of_nat (length buf) = piece count n) by (unfold buf, range; rewrite length_fmap, length_seqZ; lia).
      rewrite (console_write _ _ _ is_tty buf Hc Hi) by (unfold STAGING; lia). rewrite Hbl, (proj2 (Z.ltb_ge _ 0)) by lia.
      destruct (putchars_law buf Hb (uart s)) as [Et Er]. set (w1 := foldl _ _ _) in *.
      assert (Hr1 : user_range_ok (umem s) p ubuf (n + piece count n) false = true) by (apply user_range_app; (done || lia)).
      pose proof Hr1 as Hlim1. apply user_range_ok_iff in Hlim1 as (_ & Hlim1 & _); [|lia..]. unfold USER_LIMIT in Hlim1.
      rewrite u64_id by lia.
      destruct (IH (with_uart s w1) (n + piece count n)) as (n' & w & E & Hn' & Hs & Etx & Erx); cbn [kern with_uart kdevs console_inst];
        [done..|lia|by right| |lia|].
      { unfold piece, STAGING in *. destruct (Z.ltb_spec 256 (count - n)); [right|left; lia].
        destruct Hw as [?|Hw]; [lia|]. Z.div_mod_to_equations. lia. }
      exists n', w. rewrite E. split; [done|]. split; [lia|]. split; [done|]. split; [|by rewrite Erx].
      rewrite Etx. cbn [uart with_uart]. rewrite Et, <- app_assoc. f_equal. unfold user_bytes.
      rewrite (range_app 0 (piece count n) (n' - n)) by lia. rewrite fmap_app. f_equal.
      replace (range (piece count n) (n' - n)) with (range (piece count n) (piece count n + (n' - n - piece count n))) by (f_equal; lia).
      rewrite range_shift, <- list_fmap_compose.
      change (umem (with_uart s w1)) with (umem s). replace (n' - (n + piece count n)) with (n' - n - piece count n) by lia.
      apply list_fmap_ext. intros k i _. cbn [compose]. f_equal. lia.
    + exists n, (uart s). split; [|split_and!; [lia|split; [lia|done|]| |done]].
      * rewrite (proj2 (Z.eqb_neq count 0)) by lia. destruct Ei as [->|?]; [|lia]. by destruct s.
      * right. destruct Hw as [?|?]; [lia|done].
      * unfold user_bytes. rewrite Z.sub_diag, range_nil by lia. by rewrite app_nil_r.
Qed.

(** C24.  A write to the console always returns.  It sends, in order and unchanged, the
  first [n] bytes of the buffer of the process and nothing else, where [n] covers the
  pieces of 256 bytes the process can read: [n] is the result, or -EFAULT when not even
  the first piece is readable.  Nothing but the port changes. *)
Theorem sys_write_sends F G s p fd ubuf count : um_inv F (kmem (kern s)) p G -> console_ok (kdevs s) (console_inst s) ->
  console_inst s <> 0 -> 0 <= fd < MAX_FDS -> fd_type (zget fd_none (fds p) fd) ∈ [FD_TTY; FD_SERIAL] ->
  0 <= ubuf < 2 ^ 64 -> 0 < count < 2 ^ 64 ->
  exists n w, sys_write s p fd ubuf count = Some (if n =? 0 then - VE_FAULT else n, with_uart s w) /\
    sendable (umem s) p ubuf count n /\ tx w = tx (uart s) ++ user_bytes (umem s) p ubuf n /\ rx w = rx (uart s).
Proof.
  intros Hum Hc Hi Hfd Hty Hu Hct. unfold sys_write. rewrite (proj2 (Z.ltb_ge fd 0)), (proj2 (Z.leb_gt MAX_FDS fd)) by lia.
  rewrite (proj2 (Z.eqb_neq count 0)) by lia. cbn [orb].
  assert (HW : forall t, exists n w, write_loop (write_fuel count) s p t ubuf count 0 = Some (if n =? 0 then - VE_FAULT else n, with_uart s w) /\
    sendable (umem s) p ubuf count n /\ tx w = tx (uart s) ++ user_bytes (umem s) p ubuf n /\ rx w = rx (uart s)).
  { intros t. destruct (write_loop_spec F G p t ubuf count (write_fuel count) Hu ltac:(lia) s 0 Hum Hc Hi ltac:(lia))
      as (n & w & E & _ & Hs & Et & Er); [by left|right; done|unfold write_fuel; lia|].
    rewrite (proj2 (Z.eqb_neq count 0)) in E by lia. exists n, w. rewrite Z.add_0_r, Z.sub_0_r in Et. done. }
  apply Z.eqb_neq in Hi. rewrite !elem_of_cons in Hty. destruct Hty as [->|[->|[]%elem_of_nil]]; rewrite Hi; apply HW.
Qed.
End Write.

(** ** A process with one page that writes across its end *)
Section Demo.
#[local] Instance demo_heap : KernelHeap (Z * mstate) :=
  {| kmalloc h n := (h.1, (h.1 + Z.max n 1, h.2)); kfree h _ := h |}.
#[local] Instance demo_heap_memory : HeapMemory (Z * mstate) :=
  {| heap_mem h := h.2; set_heap_mem h m := (h.1, m) |}.
#[local] Existing Instance demo_port.
#[local] Existing Instance demo_port_laws.

Definition demo_writer : process_t := set_fds demo_page.2 console_fds.
Definition demo_sys (m : mstate) : @sys (Z * mstate) demo_uart :=
  Sys (KState [] 0 (sched_init demo_state demo_root2 0 0).1 ∅ [] [] ∅ 0 ∅ (0x100000, m)) demo_console.1.1.2 0x1000 (Tty [] 1) plain_wire.

Lemma demo_sys_mem m : kmem (kern (demo_sys m)) = m.
Proof. reflexivity. Qed.

Lemma demo_pieces : user_range_ok (ms_mem demo_page.1.2) demo_writer 0x400F00 256 false = true /\
  user_range_ok (ms_mem demo_page.1.2) demo_writer 0x401000 44 false = false.
Proof. vm_compute. by split. Qed.

(** 300 bytes from the last 256 of the page: one piece gets through. *)
Lemma sys_write_sends_witness : exists w, sys_write (demo_sys demo_page.1.2) demo_writer 1 0x400F00 300 = Some (256, with_uart (demo_sys demo_page.1.2) w) /\
  demo_tx w = user_bytes (ms_mem demo_page.1.2) demo_writer 0x400F00 256.
Proof.
  destruct demo_page_inv as [G Hum]. apply (um_inv_same _ _ _ demo_writer) in Hum; [|reflexivity..].
  pose proof demo_pieces as [H1 H2].
  assert (Hty : fd_type (zget fd_none (fds demo_writer) 1) ∈ [FD_TTY; FD_SERIAL]) by (vm_compute; left).
  generalize dependent demo_writer. intros p Hum H1 H2 Hty. generalize dependent demo_page.1.2. intros m Hum H1 H2.
  destruct (sys_write_sends demo_account G (demo_sys m) p 1 0x400F00 300) as (n & w & E & Hs & Ht & _);
    [exact Hum|exact demo_console_ok|discriminate|by split|exact Hty|lia|lia|].
  unfold umem in *. rewrite demo_sys_mem in *. destruct Hs as [Hn Hr Hw].
  assert (n = 256) as ->.
  { unfold piece, STAGING in Hw. destruct (decide (n < 256)) as [Hl|Hg].
    - destruct Hw as [?|[Hm Hw]]; [lia|]. assert (n = 0) as -> by (Z.div_mod_to_equations; lia).
      change (256 <? 300 - 0) with true in Hw. cbn iota in Hw. rewrite Z.add_0_r, H1 in Hw. discriminate.
    - destruct Hr as [?|Hr]; [lia|]. destruct (decide (n = 256)) as [|Hne]; [done|]. exfalso.
      apply user_range_ok_iff in Hr as (_ & _ & Hp); [|lia..].
      assert (Hf : user_range_ok (ms_mem m) p 0x401000 44 false = true); [|congruence].
      destruct Hw as [->|[Hm _]]; [|Z.div_mod_to_equations; lia].
      apply user_range_ok_iff; [lia..|]. split_and!; [lia|unfold USER_LIMIT; lia|]. intros va Hva. apply Hp. lia. }
  exists w. split; [exact E|exact Ht].
Defined.
End Demo.
