(* ===== verification/KernelMain.v ===== *)
(** * The idle loop of the kernel ([main.c])

  After booting, [kernel_main] halts until an interrupt and then reaps the kernel's own
  zombie children: orphans are given to pid 0, and no process could ever wait for them. *)
From S2P Require Import Prelude Interfaces Pmm PhysMem Vmm ProcData UserMem Uaccess Arch Sched Ipc Svc Vfs VfsFiles Elf Process.
From S2P Require Import ProcLife ProcRun Slots Serial Device Tty Syscall SysRun.

Definition IDLE_PARENT : Z := 0.

Section Idle.
Context {Hp : Type} `{KH : KernelHeap Hp} `{HM : HeapMemory Hp} {W : Type} `{SP : SerialPort W}.
Context (kpml4 : Z) (nx_ok : bool) (blobs : list (list Z)).
Notation kstate := (@kstate Hp).
Notation sys := (@sys Hp W).

(** [for (i = 0; i < n; i++) if (process_try_reap(0, -1, &st) <= 0) break;] *)
Fixpoint idle_loop (n : nat) (k : kstate) : kstate :=
  match n with
  | O => k
  | S n => let '(r, _, k) := process_try_reap k IDLE_PARENT (-1) in if r <=? 0 then k else idle_loop n k
  end.

(** What the idle loop does after an interrupt. *)
Definition idle_reap (k : kstate) : kstate := idle_loop 64 k.

(** The status of the wait in [init_thread]: reaped, an error, or another turn. *)
Inductive init_wait := InitExited (status : Z) | InitReaped | InitError (r : Z) | InitYield.

Definition init_wait_step (k : kstate) (init_pid : Z) : init_wait * kstate :=
  let '(r, st, k) := process_try_reap k IDLE_PARENT init_pid in
  (if 0 <? r then InitExited (default 0 st)
   else if r <? 0 then (if r =? - VE_CHILD then InitReaped else InitError r) else InitYield, k).

(** ** Zombies that wait for the kernel *)

Definition orphan (c : slot) : bool := bool_decide (c_state c = PROC_ZOMBIE) && (c_ppid c =? IDLE_PARENT).
Definition orphans (k : kstate) : nat := length (filter (fun c => orphan c = true) (cores k)).

Lemma orphan_core c : child_of IDLE_PARENT (-1) c && zombie c = orphan (core c).
Proof.
  unfold child_of, zombie, orphan, unused. cbn [core c_state c_ppid]. rewrite Z.eqb_refl. cbn [orb]. rewrite andb_true_r.
  destruct (state c); cbn; by rewrite ?andb_false_r, ?andb_true_r.
Qed.

Lemma filter_insert_lt {A} (f : A -> bool) l i x y : l !! i = Some x -> f x = true -> f y = false ->
  S (length (filter (fun c => f c = true) (<[i := y]> l))) = length (filter (fun c => f c = true) l).
Proof.
  revert i. induction l as [|z l IH]; intros [|i] Hi Hx Hy; try done; cbn [list_insert insert].
  - injection Hi as ->. change (<[0%nat := y]> (x :: l)) with (y :: l). rewrite !filter_cons, Hx, Hy.
    by rewrite decide_False, decide_True by done.
  - change (<[S i := y]> (z :: l)) with (z :: <[i := y]> l). rewrite !filter_cons. case_decide; cbn [length]; rewrite <- (IH i Hi Hx Hy); done.
Qed.

(** Tearing a process down changes no other record, no thread and no interrupt frame. *)
Lemma destroy_frames (k : kstate) i : frames (process_destroy k i) = frames k /\ next_pid (process_destroy k i) = next_pid k.
Proof.
  unfold process_destroy. destruct (unused _); [done|]. destruct (process_destroy_user_space _ _) as [m p].
  by destruct (vfs_close_process_fds _ _) as [v p'].
Qed.

(** One reap: either there is nothing to do, or one orphan goes and no other slot changes. *)
Lemma reap_cases (k : kstate) : klife None k -> let '(r, st, k') := process_try_reap k IDLE_PARENT (-1) in
  (r <= 0 /\ k' = k /\ orphans k = 0%nat) \/
  (0 < r /\ S (orphans k') = orphans k /\ exists i c y, cores k !! i = Some c /\ orphan c = true /\ c_state y = PROC_UNUSED /\ cores k' = <[i := y]> (cores k) /\
     ksched k' = ksched k /\ frames k' = frames k /\ forall j, j <> i -> keep j k k').
Proof.
  intros H. unfold process_try_reap. destruct (first_index _ _) as [i|] eqn:Ei.
  - cbn zeta. right. apply first_index_Some in Ei as (c & Hi & Hc & _). pose proof Hc as Ho. rewrite orphan_core in Ho.
    apply andb_prop in Hc as [_ Hz]. destruct (zombie_slot k i c H Hi Hz) as (Hcc & Hlt & Hu & _).
    assert (Eg : get_p k (Z.of_nat i) = c) by (unfold get_p; by rewrite zget_lookup, Nat2Z.id, Hi). rewrite Eg.
    assert (Hun : unused c = false) by by apply bool_decide_eq_false.
    destruct (destroy_life k (Z.of_nat i) ltac:(by rewrite Eg)) as (Ec & _ & Es). rewrite Nat2Z.id, Eg in Ec. split_and!.
    + destruct i as [|i]; [lia|]. pose proof (lf_pid _ _ _ _ H i (core c) Hcc Hu) as Hp'. cbn in Hp'. lia.
    + unfold orphans. rewrite Ec. by eapply filter_insert_lt.
    + exists i, (core c). eexists. split_and!; [done|done| |exact Ec|exact Es|apply destroy_frames|]; [done|].
      intros j Hne. apply keep_destroy; lia.
  - left. split_and!; [destruct (existsb _ _); [done|by vm_compute]|done|]. unfold orphans.
    rewrite filter_none; [done|]. intros x Hx. unfold cores in Hx. apply list_elem_of_fmap in Hx as (c & -> & Hc).
    rewrite <- orphan_core. rewrite first_index_None in Ei. by rewrite (Ei c Hc).
Qed.

(** The loop reaps every orphan when it has as many turns. *)
Lemma idle_loop_spec n : forall s : sys, sys_run kpml4 nx_ok blobs s -> (orphans (kern s) <= n)%nat ->
  sys_run kpml4 nx_ok blobs (with_kern s (idle_loop n (kern s))) /\ orphans (idle_loop n (kern s)) = 0%nat /\
  (forall i p, proc_table (kern s) !! i = Some p -> orphan (core p) = false -> proc_table (idle_loop n (kern s)) !! i = Some p) /\
  ksched (idle_loop n (kern s)) = ksched (kern s) /\ frames (idle_loop n (kern s)) = frames (kern s).
Proof.
  induction n as [|n IH]; intros s Hs Hn; cbn [idle_loop].
  - split_and!; [by destruct s|lia|done|done|done].
  - pose proof (run_ok kpml4 nx_ok blobs s Hs) as [Hk _]. pose proof (reap_cases (kern s) Hk) as Hr.
    pose proof (yr_step _ _ _ _ _ Hs (ys_reap kpml4 nx_ok blobs s (-1))) as Hs'. unfold IDLE_PARENT in *.
    destruct (process_try_reap (kern s) 0 (-1)) as [[r st] k']. cbn [snd] in Hs'.
    destruct Hr as [(Hle & -> & H0)|(Hpos & Hcount & i & c & y & Hi & Ho & Hy & Ec & Es & Ef & Hk')].
    + rewrite (proj2 (Z.leb_le r 0) Hle). split_and!; [by destruct s|done|done|done|done].
    + rewrite (proj2 (Z.leb_gt r 0)) by lia. destruct (IH (with_kern s k') Hs' ltac:(cbn; lia)) as (H1 & H2 & H3 & H4 & H5).
      cbn [kern with_kern] in *. split_and!; [exact H1|exact H2| |congruence|congruence]. intros j x Hj Hx. apply H3; [|done].
      rewrite Hk'; [done|]. intros ->. rewrite (slot_core _ _ _ Hj) in Hi. injection Hi as <-. congruence.
Qed.

End Idle.

(** ** A user process that faults

  The machine of the demonstration with a second interrupt frame: a page fault in user
  mode, which kills the process; its parent is the kernel. *)
Section Demo.
#[local] Existing Instances demo_heap demo_port demo_heap_memory.

Definition fault_frame : isr_frame_t := IsrFrame 0 0 0 0 0 0 0 0 0 0 0 0 0 0 0 14 0 0x401000 GDT_SEL_UCODE3 0 0 0.
Definition crash_boot : @kstate (Z * mstate) :=
  KState (replicate 64 process_zero) 0 demo_init.1 {[ 0x8000 := irq0_frame; 0x9000 := fault_frame ]} [] [] ∅ 0 ∅ (0x100000, demo_init.2).
Definition crash_spawned : Z * @kstate (Z * mstate) :=
  process_spawn_user demo_root true (process_init demo_root crash_boot) [0xEB; 0xFE] 0.
Definition crash_started : @kstate (Z * mstate) := with_sched crash_spawned.2 (sched_start (ksched crash_spawned.2)).
Definition crash_user : @kstate (Z * mstate) := (timer crash_started 0x8000).2.
Definition crashed : @kstate (Z * mstate) := (process_exit_current crash_user 0x9000 11).2.

Lemma crash_boot_ok : boot_kstate demo_root crash_boot.
Proof.
  assert (H : (idle_thread demo_init.1 =? 0) = false) by (vm_compute; reflexivity). apply Z.eqb_neq in H.
  split; [reflexivity| |exact H]. exists machine, 0xFFFFFFFF80001000, 0xFFFFFFFF80002000. reflexivity.
Qed.

Lemma crash_user_run : sys_run demo_root true [] (on_console crash_user).
Proof.
  assert (Hc : demo_check crash_started = true) by (vm_compute; reflexivity).
  destruct (demo_check_facts _ Hc) as (_ & Ha & Hi).
  assert (Hn : forall k : @kstate (Z * mstate), next_pid (process_init demo_root k) < 2 ^ 31 - 1) by reflexivity.
  apply (demo_runs crash_boot [0xEB; 0xFE] crash_spawned.2 crash_boot_ok (Hn _)); [unfold crash_spawned; reflexivity|exact Ha|exact Hi].
Qed.

Lemma fault_run (k : @kstate (Z * mstate)) fa st : sys_run demo_root true [] (on_console k) ->
  scheduler_active (ksched k) = true -> isr_dispatch (frame_at k fa) = KillProcess st ->
  sys_run demo_root true [] (on_console (process_exit_current k fa st).2).
Proof.
  intros H Ha Hi. apply (yr_step _ _ _ _ _ H). apply (ys_interrupt demo_root true [] (on_console k) fa (process_exit_current k fa st).1 _ Ha).
  unfold interrupt. cbn [kern on_console]. by rewrite Hi.
Qed.

Lemma crashed_run : sys_run demo_root true [] (on_console crashed).
Proof.
  assert (Ha : scheduler_active (ksched crash_user) = true) by (vm_compute; reflexivity).
  assert (Hi : match isr_dispatch (frame_at crash_user 0x9000) with KillProcess st => st =? 11 | _ => false end = true) by (vm_compute; reflexivity).
  destruct (isr_dispatch _) as [ | |st| ] eqn:E; try discriminate Hi. apply Z.eqb_eq in Hi as ->.
  exact (fault_run crash_user 0x9000 11 crash_user_run Ha E).
Qed.

Lemma crashed_orphan : exists c, c ∈ cores crashed /\ orphan c = true.
Proof.
  assert (H : existsb orphan (cores crashed) = true) by (vm_compute; reflexivity).
  apply existsb_exists in H as (c & Hc & Ho). exists c. split; [by apply list_elem_of_In|exact Ho].
Qed.
End Demo.

(** C10.  No orphan stays a zombie.  After any run of the kernel, one turn of the idle loop
  frees the slot of every child of the kernel that has exited, and continues a run of
  the kernel.  Every other record of the process table stays as it is, field by field:
  exit status, address space, heap, handles and descriptors included; so do the threads
  and the interrupt frames. *)
Theorem idle_reaps_orphans {Hp : Type} `{KH : KernelHeap Hp} `{HM : HeapMemory Hp} {W : Type} `{SP : SerialPort W} kpml4 nx_ok blobs (s : @sys Hp W) :
  sys_run kpml4 nx_ok blobs s -> let k' := idle_reap (kern s) in
  sys_run kpml4 nx_ok blobs (with_kern s k') /\
  (forall c, c ∈ proc_table k' -> child_of 0 (-1) c = true -> zombie c = false) /\
  (forall i p, proc_table (kern s) !! i = Some p -> child_of 0 (-1) p && zombie p = false -> proc_table k' !! i = Some p) /\
  ksched k' = ksched (kern s) /\ frames k' = frames (kern s).
Proof.
  intros Hs. cbn zeta. destruct (idle_loop_spec kpml4 nx_ok blobs 64 s Hs) as (H1 & H2 & H3 & H4 & H5).
  { unfold orphans. etrans; [apply length_filter|]. destruct (run_ok _ _ _ s Hs) as [Hk _]. by rewrite (lf_len _ _ _ _ Hk). }
  split_and!; [exact H1| |intros i p Hi Ho; apply H3; [done|]; rewrite <- orphan_core; exact Ho|exact H4|exact H5].
  intros c Hc Hch. apply not_true_iff_false. intros Hz.
  apply length_zero_iff_nil in H2. assert (Hin : core c ∈ filter (fun c => orphan c = true) (cores (idle_reap (kern s)))).
  { apply list_elem_of_filter. split; [|by apply list_elem_of_fmap; eauto]. rewrite <- orphan_core. unfold IDLE_PARENT. by rewrite Hch, Hz. }
  unfold idle_reap in Hin. rewrite H2 in Hin. by apply not_elem_of_nil in Hin.
Qed.

Lemma idle_reaps_orphans_witness : (exists c, c ∈ cores crashed /\ orphan c = true) /\
  Forall (fun c => child_of 0 (-1) c = true -> zombie c = false) (proc_table (idle_reap (KH := demo_heap) (HM := demo_heap_memory) crashed)).
Proof.
  split; [exact crashed_orphan|]. apply Forall_forall.
  assert (H : forall k, sys_run (KH := demo_heap) (HM := demo_heap_memory) (SP := demo_port) demo_root true [] (on_console k) ->
    forall c, c ∈ proc_table (idle_reap (KH := demo_heap) (HM := demo_heap_memory) k) -> child_of 0 (-1) c = true -> zombie c = false).
  { intros k Hr. exact (proj1 (proj2 (idle_reaps_orphans (KH := demo_heap) (HM := demo_heap_memory) (SP := demo_port) demo_root true [] (on_console k) Hr))). }
  exact (H crashed crashed_run).
Defined.
