(* ===== verification/BootTest.v ===== *)
(** * The isolation test of the boot ([main.c])

  [test_address_space_isolation] maps one user address in two new processes, stores a
  word through either address space and reads both back.  The stores are the kernel's own,
  under the page table just loaded: [probe_addr] is the walk of the processor, [None] a
  page fault.  The theorem composes the address spaces of [AddrSpace], the separation of
  processes of [Isolation] and the process table of [Process]. *)
From S2P Require Import Prelude Interfaces Pmm PhysMem Vmm KernelMap ProcData UserMem AddrSpace UserOps Teardown Uaccess Arch Sched Ipc Svc Vfs VfsFiles Process Isolation.

Definition PROBE : Z := 0x401000.
Definition PROBE_A : Z := 0xAAAAAAAAAAAAAAAA.
Definition PROBE_B : Z := 0xBBBBBBBBBBBBBBBB.

(** ** The probe *)

Definition probe_addr (s : mstate) (root : Z) (write : bool) : option Z :=
  let pte := vmm_get_pte (ms_mem s) root PROBE in
  if has pte VMM_PRESENT && (negb write || has pte VMM_WRITE) then Some (vmm_virt_to_phys (ms_mem s) root PROBE) else None.

(** The store of [v] to the probe address, and the read of it, under the root table [root]. *)
Definition probe_store (s : mstate) (root v : Z) : option mstate :=
  a ← probe_addr s root true; Some (with_mem s (wr64 (ms_mem s) a v)).
Definition probe_load (s : mstate) (root : Z) : option Z := a ← probe_addr s root false; Some (rd64 (ms_mem s) a).

(** The four accesses, between the six loads of CR3. *)
Definition probe_both (s : mstate) (ra rb : Z) : option (Z * Z * mstate) :=
  s ← probe_store s ra PROBE_A;
  s ← probe_store s rb PROBE_B;
  va ← probe_load s ra;
  vb ← probe_load s rb;
  Some (va, vb, s).

(** The test ends early without processes or without pages, or reports two results. *)
Inductive iso_outcome := NoProcess | NoPage | Report (isolated kernel_shared : bool).

Section Test.
Context {Hp : Type} `{KH : KernelHeap Hp} `{HM : HeapMemory Hp} (kpml4 : Z).
Notation kstate := (@kstate Hp).
Implicit Types k : kstate.

(** The page of the probe for slot [i]. *)
Definition map_probe k (i : Z) : Z * kstate :=
  let '(st, m, p) := process_alloc_user_page (kmem k) (get_p k i) PROBE VMM_WRITE in (st, set_p (with_kmem k m) i p).

(** [kaddr] is the address of a variable on the kernel stack. *)
Definition test_address_space_isolation k (kaddr : Z) : option (iso_outcome * kstate) :=
  let '(a, k) := process_alloc kpml4 k 0 in
  let '(b, k) := process_alloc kpml4 k 0 in
  match a, b with
  | Some a, Some b =>
      let '(st, k) := map_probe k a in
      if negb (st =? VOID_OK) then Some (NoPage, k)
      else
        let '(st, k) := map_probe k b in
        if negb (st =? VOID_OK) then Some (NoPage, k)
        else
          '(va, vb, m) ← probe_both (kmem k) (cr3 (get_p k a)) (cr3 (get_p k b));
          let k := with_kmem k m in
          let kprobe := vmm_virt_to_phys (ms_mem m) (cr3 (get_p k a)) kaddr in
          let o := Report ((va =? PROBE_A) && (vb =? PROBE_B)) (negb (kprobe =? 0)) in
          Some (o, process_destroy (process_destroy k a) b)
  | _, _ => Some (NoProcess, k)
  end.
End Test.

(** ** The kernel half *)

(** The tables below the root that the translation of [va] reads. *)
Definition lower_tables (m : mem) (root va : Z) : list Z :=
  let e4 := entry m root (PML4_IDX va) in
  if negb (has e4 VMM_PRESENT) then [] else
  let t3 := Z.land e4 PHYS_MASK in let e3 := entry m t3 (PDPT_IDX va) in
  if negb (has e3 VMM_PRESENT) || has e3 VMM_HUGE then [t3] else
  let t2 := Z.land e3 PHYS_MASK in let e2 := entry m t2 (PD_IDX va) in
  if negb (has e2 VMM_PRESENT) || has e2 VMM_HUGE then [t3; t2] else
  [t3; t2; Z.land e2 PHYS_MASK].

Lemma entry_confined F s s' t i : confined F s s' -> frame_addr t -> frame_no t ∉ F -> index_ok i ->
  entry (ms_mem s') t i = entry (ms_mem s) t i.
Proof.
  intros Hc Ht Hn Hi. apply entry_outside; [done|]. intros x Hx. apply (cf_mem _ _ _ Hc). by rewrite (frame_no_in t).
Qed.

(** The translation depends on the root's entry and the tables below it. *)
Lemma shared_phys F s s' r r' va : confined F s s' -> Forall (fun t => frame_addr t /\ frame_no t ∉ F) (lower_tables (ms_mem s) r va) ->
  entry (ms_mem s') r' (PML4_IDX va) = entry (ms_mem s) r (PML4_IDX va) ->
  vmm_virt_to_phys (ms_mem s') r' va = vmm_virt_to_phys (ms_mem s) r va.
Proof.
  intros Hc Hl He. assert (Hix : forall n, 0 <= n -> index_ok (Z.land (Z.shiftr va n) 0x1FF)) by (intros; by apply idx_range).
  unfold vmm_virt_to_phys, lower_tables in *. rewrite He. destruct (has (entry _ r _) VMM_PRESENT); cbn [negb] in *; [|done].
  set (t3 := Z.land (entry _ r _) PHYS_MASK) in *.
  assert (E3 : entry (ms_mem s') t3 (PDPT_IDX va) = entry (ms_mem s) t3 (PDPT_IDX va)).
  { apply (entry_confined F); [done|..|by apply Hix]; repeat case_match; by apply Forall_cons in Hl as [[] _]. }
  rewrite E3. destruct (has (entry _ t3 _) VMM_PRESENT); cbn [negb orb] in *; [|done]. destruct (has (entry _ t3 _) VMM_HUGE); [done|].
  set (t2 := Z.land (entry _ t3 _) PHYS_MASK) in *.
  assert (E2 : entry (ms_mem s') t2 (PD_IDX va) = entry (ms_mem s) t2 (PD_IDX va)).
  { apply (entry_confined F); [done|..|by apply Hix]; repeat case_match; apply Forall_cons in Hl as [_ Hl]; by apply Forall_cons in Hl as [[] _]. }
  rewrite E2. destruct (has (entry _ t2 _) VMM_PRESENT); cbn [negb orb] in *; [|done]. destruct (has (entry _ t2 _) VMM_HUGE); [done|].
  rewrite !Forall_cons in Hl. destruct Hl as (_ & _ & [? ?] & _). rewrite (entry_confined F s s'); [done..|by apply Hix].
Qed.

(** The upper half of a root table. *)
Definition upper (s : mstate) (root : Z) (s' : mstate) (root' : Z) : Prop :=
  forall i, 256 <= i < 512 -> entry (ms_mem s') root' i = entry (ms_mem s) root i.

Lemma upper_trans s r s1 r1 s2 r2 : upper s r s1 r1 -> upper s1 r1 s2 r2 -> upper s r s2 r2.
Proof. intros H1 H2 i Hi. by rewrite H2, H1. Qed.

Lemma upper_confined F s s' r : confined F s s' -> frame_addr r -> frame_no r ∉ F -> upper s r s' r.
Proof. intros Hc Hr Hn i Hi. apply (entry_confined F); try done. unfold index_ok. lia. Qed.

(** ** A page for a process *)

(** Mapping the page keeps the kernel half; it fails when memory has run out. *)
Lemma alloc_page_more F s p G va fl st s' p' : um_inv F s p G -> user_half va -> page_flags_ok fl -> Z.of_nat (length (umap p)) < UMAP_MAX ->
  process_alloc_user_page s p va fl = (st, s', p') ->
  upper s (cr3 p) s' (cr3 p) /\ (st <> VOID_OK -> exists f, free_set (ms_pmm s') ⊆ {[f]}).
Proof.
  intros Hum Hv Hfl Hlen. unfold process_alloc_user_page. destruct (pmm_alloc_frame (ms_pmm s)) as [f pm] eqn:Ha.
  destruct (Z.eqb_spec f 0) as [->|Hnz].
  { pose proof (alloc_frame_cases _ (inv_wf _ (vm_pmm _ (um_ok _ _ _ _ Hum)))) as Hc. rewrite Ha in Hc. intros [= <- <- <-]. split; [done|].
    intros _. exists 0. destruct Hc as [(g & [Hg _] & _ & Hr & _)|(He & _ & ->)]; [|cbn; rewrite He; set_solver +].
    assert (g = 0) as -> by (unfold PAGE_SIZE in *; lia). by destruct (vm_zero _ (um_ok _ _ _ _ Hum)). }
  destruct (um_alloc F s p G f pm Hum Ha Hnz) as (Hok1 & Hpt1 & _ & (Hf & Hft & _) & Htot & _).
  set (s1 := MState pm (zero_frame (ms_mem s) f)) in *.
  pose proof (pt_root _ _ _ (um_pt _ _ _ _ Hum)) as Hr. destruct (pt_frames _ _ _ (um_pt _ _ _ _ Hum) _ _ _ Hr) as (Hrf & _).
  assert (Hrn : f <> cr3 p).
  { intros ->. destruct (um_alloc F s p G _ pm Hum Ha Hnz) as (_ & _ & _ & (_ & _ & _ & HG) & _). congruence. }
  assert (U1 : upper s (cr3 p) s1 (cr3 p)).
  { intros i Hi. cbn [s1 ms_mem]. rewrite entry_zero_frame by (done || lia). by rewrite decide_False by done. }
  unfold process_map_user. unfold user_half, USER_LIMIT in *. rewrite (proj2 (Z.leb_gt _ va)), (proj2 (Z.leb_gt UMAP_MAX _)) by lia.
  destruct (vmm_map_page s1 (cr3 p) va f _) as [r s2] eqn:Em.
  apply (map_page_cases s1 (cr3 p) G) in Em as (G' & Hok & _ & He & Hcase); try done; [|destruct Hf; lia|by apply user_flags_ok].
  assert (U2 : upper s1 (cr3 p) s2 (cr3 p)) by exact (ext_kernel _ _ _ _ _ He).
  destruct Hcase as [(-> & _)|(-> & He0 & _)]; cbn [negb Z.eqb VOID_OK VOID_ERR_NOMEM]; intros [= <- <- <-].
  - split; [by eapply upper_trans|done].
  - split; [by eapply upper_trans|]. intros _. exists (frame_no f).
    change (with_pmm s2 (pmm_free_frame (ms_pmm s2) f)) with (free_frame_s s2 f).
    rewrite free_frame_s_set, He0; [set_solver +|done|done|]. rewrite (ext_total _ _ _ _ _ He). done.
Qed.

(** ** Two processes *)

(** The processes of the test have no heap, which [world_ok] asks for; nothing else of
  the control block matters here. *)
Definition with_a_heap (p : process_t) : process_t := set_heap p 0x500000 0x501000 VMM_WRITE.

Lemma with_a_heap_ok p : heap_ok (with_a_heap p).
Proof. by split; vm_compute. Qed.

Lemma probe_user : user_half PROBE.
Proof. by split. Qed.

(** The page of the probe is there and may be written. *)
Definition probe_ready (s : mstate) (p : process_t) : Prop :=
  has (vmm_get_pte (ms_mem s) (cr3 p) PROBE) VMM_PRESENT = true /\ has (vmm_get_pte (ms_mem s) (cr3 p) PROBE) VMM_WRITE = true.

Lemma probe_ready_same s s' p : same_map (cr3 p) s s' -> probe_ready s p -> probe_ready s' p.
Proof. intros Hm. unfold probe_ready. by rewrite (Hm PROBE probe_user). Qed.

Lemma user_pte_probe f : frame_addr f -> has (user_pte f VMM_WRITE) VMM_PRESENT = true /\ has (user_pte f VMM_WRITE) VMM_WRITE = true.
Proof.
  intros Hf. destruct (user_pte_facts f VMM_WRITE Hf) as [Hp _]; [by vm_compute|]. split; [done|].
  unfold user_pte, VMM_PRESENT, VMM_USER, VMM_WRITE. rewrite !has_lor by lia. by rewrite orb_true_r.
Qed.

(** The word at the probe address. *)
Definition probe_word (s : mstate) (p : process_t) : Z := rd64 (ms_mem s) (vmm_virt_to_phys (ms_mem s) (cr3 p) PROBE).

Lemma probe_byte F s p G i : um_inv F s p G -> probe_ready s p -> 0 <= i < 8 ->
  user_half (PROBE + i) /\ page_present s p (PROBE + i) = true /\
  vmm_virt_to_phys (ms_mem s) (cr3 p) (PROBE + i) = vmm_virt_to_phys (ms_mem s) (cr3 p) PROBE + i.
Proof.
  intros Hum [Hp _] Hi. assert (Hv : user_half (PROBE + i)) by (unfold user_half, PROBE; lia).
  assert (Hpg : page_of (PROBE + i) = page_of PROBE).
  { apply page_of_offset; [done|unfold PAGE_SIZE; lia]. }
  assert (Hp' : page_present s p (PROBE + i) = true) by by rewrite (page_present_page s p _ PROBE Hpg).
  split_and!; [done|done|]. rewrite !(user_phys _ _ _ _ Hum) by (done || apply probe_user).
  assert (Hb : backing s p (PROBE + i) = backing s p PROBE).
  { unfold backing. f_equal. by apply get_pte_page. }
  rewrite Hb. unfold PROBE, PAGE_SIZE. Z.div_mod_to_equations. lia.
Qed.

(** A step that does not touch the process keeps its word. *)
Lemma probe_word_untouched F F' s s' p G : um_inv F s p G -> um_inv F' s' p G -> probe_ready s p -> untouched s p s' ->
  probe_ready s' p /\ probe_word s' p = probe_word s p.
Proof.
  intros Hum Hum' Hr [Hm Hb]. pose proof (probe_ready_same _ _ _ Hm Hr) as Hr'. split; [done|].
  unfold probe_word, rd64. f_equal. unfold mem_read. apply list_fmap_ext. intros j i Hj.
  assert (Hi : 0 <= i < 8) by (apply elem_of_range; by eapply list_elem_of_lookup_2).
  destruct (probe_byte _ _ _ _ i Hum Hr Hi) as (Hv & Hp & <-). destruct (probe_byte _ _ _ _ i Hum' Hr' Hi) as (_ & _ & <-).
  by apply Hb.
Qed.

Section Stages.
Context (s0 : mstate) (kpml4 : Z).
Context (Hok0 : vm_ok s0) (Hk : frame_addr kpml4) (Hkn : frame_no kpml4 ∉ free_set (ms_pmm s0)).
Implicit Types (w : world) (T : gmap Z table_map).

(** The frames that were free at the start are all that the test changes. *)
Record good w T : Prop := { good_ok : world_ok s0 w T; good_in : confined (free_set (ms_pmm s0)) s0 (wmem w) }.

Lemma good_boot : good (World s0 ∅) ∅.
Proof using Hok0.
  split; [|done]. split; cbn [wmem procs]; [done| | |].
  - intros i p Hp. by rewrite lookup_empty in Hp.
  - intros i j p q G H _ Hp. by rewrite lookup_empty in Hp.
  - intros x. split; [by left|]. intros [?|(i & p & G & Hp & _)]; [done|]. by rewrite lookup_empty in Hp.
Qed.

Lemma holds_sub w T i O : world_ok s0 w T -> holds w T i O -> free_set (ms_pmm (wmem w)) ∪ O ⊆ free_set (ms_pmm s0).
Proof. intros HW HO x Hx. apply (holds_sum s0 w T i O x HW HO). by left. Qed.

Lemma good_kernel w T : good w T -> frame_no kpml4 ∉ free_set (ms_pmm (wmem w)).
Proof using Hkn. intros [HW _] Hx. apply Hkn, (wo_sum _ _ _ HW). by left. Qed.

Lemma good_put w T i O s' p' G' : good w T -> holds w T i O -> um_inv (free_set (ms_pmm (wmem w)) ∪ O) s' p' G' -> heap_ok p' ->
  confined (free_set (ms_pmm (wmem w)) ∪ O) (wmem w) s' -> good (World s' (<[i := p']> (procs w))) (<[i := G']> T) /\
  forall j q, j <> i -> procs w !! j = Some q -> untouched (wmem w) q s'.
Proof using Hok0 Hk Hkn.
  intros [HW Hin] HO Hum Hh Hc. destruct (put_ok s0 kpml4 Hok0 Hk Hkn w T i O s' p' G' HW HO Hum Hh Hc) as [HW' Hun].
  split; [|exact Hun]. split; [done|]. etransitivity; [exact Hin|]. eapply confined_mono; [by eapply (holds_sub w T i)|done].
Qed.

Definition inv_of w T i p : Prop := exists G, T !! i = Some G /\ um_inv (free_set (ms_pmm (wmem w)) ∪ owned (umap p) G) (wmem w) p G.

Lemma good_inv w T i p : good w T -> procs w !! i = Some p -> inv_of w T i p.
Proof. intros [HW _] Hp. destruct (wo_proc _ _ _ HW i p Hp) as (G & HG & Hum & _). by exists G. Qed.

(** The root table of a process belongs to it alone. *)
Lemma root_apart w T i j p O : good w T -> procs w !! i = Some p -> j <> i -> holds w T j O ->
  frame_addr (cr3 p) /\ frame_no (cr3 p) ∉ free_set (ms_pmm (wmem w)) ∪ O.
Proof.
  intros Hg Hp Hj HO. destruct (good_inv _ _ _ _ Hg Hp) as (G & HG & Hum).
  pose proof (pt_root _ _ _ (um_pt _ _ _ _ Hum)) as Hr. destruct (pt_frames _ _ _ (um_pt _ _ _ _ Hum) _ _ _ Hr) as (Hf & _).
  split; [done|]. assert (Hin : frame_no (cr3 p) ∈ owned (umap p) G) by (apply elem_of_owned; right; by eexists _, _).
  intros [Hx|Hx]%elem_of_union.
  - by destruct (owned_not_free _ _ _ _ _ Hum Hin).
  - by apply (holds_apart s0 w T j O i p G (good_ok _ _ Hg) HO (not_eq_sym Hj) Hp HG (frame_no (cr3 p))).
Qed.

(** A new process takes over the kernel half. *)
Lemma create_stage w T i p r s' : good w T -> procs w !! i = None -> address_space_create (wmem w) kpml4 = (r, s') -> r <> 0 ->
  fresh_space p r ->
  (exists T', good (World s' (<[i := with_a_heap p]> (procs w))) T') /\
  upper (wmem w) kpml4 s' r /\ frame_no r ∈ free_set (ms_pmm (wmem w)) /\
  forall j q, procs w !! j = Some q -> untouched (wmem w) q s' /\ upper (wmem w) (cr3 q) s' (cr3 q).
Proof using Hok0 Hk Hkn.
  intros Hg Hi Hcr Hr Hp. pose proof (wo_vm _ _ _ (good_ok _ _ Hg)) as Hok. pose proof (good_kernel w T Hg) as Hkf.
  pose proof (address_space_create_spec (wmem w) kpml4 Hok Hk Hkf) as Hs. pose proof (create_confined (wmem w) kpml4 Hok Hk Hkf) as Hcf.
  rewrite Hcr in Hs, Hcf. destruct Hs as [(? & _)|(_ & Hum & Hup & Hin & _)]; [done|].
  assert (HO : holds w T i ∅) by by left. rewrite <- (right_id_L ∅ (∪) (free_set (ms_pmm (wmem w)))) in Hum, Hcf.
  destruct (good_put w T i ∅ s' (with_a_heap p) _ Hg HO (Hum (with_a_heap p) Hp) (with_a_heap_ok p) Hcf) as [Hg' Hun].
  split_and!; [by eexists|exact Hup|done|]. intros j q Hq. assert (Hj : j <> i) by (intros ->; congruence). split; [by eapply Hun|].
  destruct (root_apart w T j i q ∅ Hg Hq ltac:(done) HO). by eapply upper_confined.
Qed.

(** The page of the probe, or no memory. *)
Lemma page_stage w T i p st s' p' : good w T -> procs w !! i = Some (with_a_heap p) -> umap p = [] ->
  process_alloc_user_page (wmem w) p PROBE VMM_WRITE = (st, s', p') ->
  (exists T', good (World s' (<[i := with_a_heap p']> (procs w))) T') /\ upper (wmem w) (cr3 p) s' (cr3 p) /\
  ((st = VOID_OK /\ (exists f, p' = set_umap p [(PROBE, f)]) /\ probe_ready s' p) \/
   (st = VOID_ERR_NOMEM /\ p' = p /\ exists f, free_set (ms_pmm s') ⊆ {[f]})) /\
  forall j q, j <> i -> procs w !! j = Some q -> untouched (wmem w) q s' /\ upper (wmem w) (cr3 q) s' (cr3 q).
Proof using Hok0 Hk Hkn.
  intros Hg Hi Hu E. destruct (good_inv _ _ _ _ Hg Hi) as (G & HG & Hum).
  assert (HO : holds w T i (owned (umap p) G)) by (right; by eexists _, G).
  pose proof (um_inv_same _ _ _ p _ Hum eq_refl eq_refl) as Hump. change (umap (with_a_heap p)) with (umap p) in *.
  assert (Hfl : page_flags_ok VMM_WRITE) by by vm_compute.
  destruct (alloc_page_more _ _ _ _ _ _ _ _ _ Hump probe_user Hfl ltac:(by rewrite Hu) E) as [Hup Hfail].
  pose proof (alloc_confined _ p G (wmem w) PROBE VMM_WRITE Hump (proj1 probe_user) Hfl) as Hcf. rewrite E in Hcf. cbn [fst snd] in Hcf.
  destruct (alloc_user_spec _ _ _ _ _ _ _ _ _ Hump (proj1 probe_user) Hfl E) as ([G' Hum'] & _ & Hc).
  pose proof (um_inv_same _ _ _ (with_a_heap p') _ Hum' eq_refl eq_refl) as Hum2.
  destruct (good_put w T i _ s' (with_a_heap p') G' Hg HO Hum2 (with_a_heap_ok p') Hcf) as [Hg' Hun].
  split_and!; [by eexists|done| |].
  - destruct Hc as [(-> & _ & _ & f & -> & Hpte & Hf & _)|(-> & -> & _)]; [|right; split_and!; [done|done|by apply Hfail]].
    left. rewrite Hu. split_and!; [done|by exists f|]. unfold probe_ready. rewrite Hpte. by apply user_pte_probe.
  - intros j q Hj Hq. split; [by eapply Hun|]. destruct (root_apart w T j i q _ Hg Hq ltac:(done) HO). by eapply upper_confined.
Qed.

(** The store through one address space. *)
Lemma store_stage w T i p v : good w T -> procs w !! i = Some p -> probe_ready (wmem w) p -> 0 <= v < 2 ^ 64 ->
  exists s', probe_store (wmem w) (cr3 p) v = Some s' /\ good (World s' (procs w)) T /\ probe_ready s' p /\ probe_word s' p = v /\
  (forall j q, procs w !! j = Some q -> upper (wmem w) (cr3 q) s' (cr3 q)) /\
  forall j q, j <> i -> procs w !! j = Some q -> untouched (wmem w) q s'.
Proof using Hok0 Hk Hkn.
  intros Hg Hi Hr Hv. destruct (good_inv _ _ _ _ Hg Hi) as (G & HG & Hum).
  assert (HO : holds w T i (owned (umap p) G)) by (right; by eexists _, G).
  pose proof Hr as [Hp Hw]. pose proof (backing_frame _ _ _ _ Hum PROBE probe_user Hp) as Huf.
  pose proof (user_phys _ _ _ _ Hum PROBE probe_user Hp) as Hph. change (PROBE mod PAGE_SIZE) with 0 in Hph. rewrite Z.add_0_r in Hph.
  set (f := backing (wmem w) p PROBE) in *. pose proof Huf as (Hf & _ & _ & HGf).
  set (s' := with_mem (wmem w) (wr64 (ms_mem (wmem w)) f v)).
  destruct (write_user _ _ _ _ Hum f f (le_bytes 8 v) Huf ltac:(lia) ltac:(rewrite length_le_bytes; unfold PAGE_SIZE; lia)) as [Hum' Hsm].
  change (with_mem _ _) with s' in Hum', Hsm.
  assert (Hcf : confined (free_set (ms_pmm (wmem w)) ∪ owned (umap p) G) (wmem w) s').
  { split; [|done]. intros x Hx. apply mem_get_write_out. rewrite length_le_bytes.
    destruct (decide (f <= x < f + 8)); [|lia]. destruct Hx. apply elem_of_union. right. apply elem_of_owned. left.
    destruct (um_present _ _ _ _ Hum PROBE probe_user Hp) as (u & Hin & _). exists u, f. split; [done|].
    apply frame_no_in; [done|unfold PAGE_SIZE; lia]. }
  destruct (wo_proc _ _ _ (good_ok _ _ Hg) i p Hi) as (_ & _ & _ & Hh).
  destruct (good_put w T i _ s' p G Hg HO Hum' Hh Hcf) as [Hg' Hun]. rewrite !insert_id in Hg' by done.
  pose proof (probe_ready_same _ _ _ Hsm Hr) as Hr'. exists s'. split_and!; [|done|done| | |done].
  - unfold probe_store, probe_addr. cbn zeta. rewrite Hp, Hw. cbn. by rewrite Hph.
  - unfold probe_word. rewrite (user_phys _ _ _ _ Hum') by (done || apply Hr' || apply probe_user).
    assert (Hb : backing s' p PROBE = f) by (unfold f, backing; by rewrite (Hsm PROBE probe_user)).
    rewrite Hb. change (PROBE mod PAGE_SIZE) with 0. rewrite Z.add_0_r. by apply rd64_wr64_eq.
  - intros j q Hq. destruct (decide (j = i)) as [->|Hj].
    + rewrite Hi in Hq. injection Hq as <-. intros x Hx. unfold entry, s', wr64. apply rd64_write_out.
      rewrite length_le_bytes. pose proof (pt_root _ _ _ (um_pt _ _ _ _ Hum)) as Hrt. destruct (pt_frames _ _ _ (um_pt _ _ _ _ Hum) _ _ _ Hrt) as (Hrf & _).
      pose proof (frames_disjoint f (cr3 p) Hf Hrf ltac:(congruence)). unfold PAGE_SIZE in *. lia.
    + destruct (root_apart w T j i q _ Hg Hq ltac:(done) HO). by eapply upper_confined.
Qed.
End Stages.

(** ** The process table *)
Section Kernel.
Context {Hp : Type} `{KH : KernelHeap Hp} `{HM : HeapMemory Hp} (kpml4 : Z).
Context (Hheap : forall (h : Hp) m, heap_mem (set_heap_mem h m) = m).
Notation kstate := (@kstate Hp).
Implicit Types k : kstate.

Lemma close_no_files (v : @vfs Hp) p : Forall (fun e => fd_type e <> FD_VFS) (fds p) -> vfs_close_process_fds v p = (v, p).
Proof.
  intros Hf. unfold vfs_close_process_fds. induction (seq 0 _) as [|fd l IH]; [done|]. cbn [foldl]. unfold close_slot at 2.
  destruct (fds p !! fd) as [e|] eqn:E; [|done]. rewrite bool_decide_eq_false_2; [done|]. rewrite Forall_forall in Hf.
  apply Hf. by eapply list_elem_of_lookup_2.
Qed.

(** A process of the test: made by [process_alloc], with nothing open and nothing registered. *)
Record test_process (p : process_t) : Prop := {
  tp_state : state p = PROC_EMBRYO;
  tp_fds : Forall (fun e => fd_type e <> FD_VFS) (fds p);
  tp_handles : ipc_handles p = None
}.

Definition quiet_kernel k : Prop := kreg k = [] /\ ksvc k = [].

Lemma destroy_stage k i p : quiet_kernel k -> get_p k i = p -> test_process p ->
  exists q, unused q = true /\ process_destroy k i = set_p (with_kmem k (process_destroy_user_space (kmem k) p).1) i q.
Proof.
  intros [Hreg Hsvc] Hg [Hs Hf Hh]. unfold process_destroy. rewrite Hg. unfold unused at 2. rewrite bool_decide_eq_false_2 by by rewrite Hs.
  pose proof (close_no_files (kvfs (with_kmem k (process_destroy_user_space (kmem k) p).1)) (process_destroy_user_space (kmem k) p).2 Hf) as Hc.
  destruct (process_destroy_user_space (kmem k) p) as [m q] eqn:E. cbn [fst snd] in *. rewrite Hc.
  assert (Hq : ipc_handles q = None) by (change q with ((m, q).2); by rewrite <- E). rewrite Hq.
  unfold ipc_endpoint_unregister_by_owner, svc_cleanup_owner. cbn. rewrite Hreg. cbn. rewrite Hsvc. cbn.
  eexists. split; [|unfold set_p, with_ksvc, with_kmem, with_kheap; cbn; by rewrite Hsvc]. done.
Qed.

Context (k0 : kstate) (Hok0 : vm_ok (kmem k0)) (Hk : frame_addr kpml4) (Hkn : frame_no kpml4 ∉ free_set (ms_pmm (kmem k0))).

(** The two processes of the test, in the slots [a] and [b]. *)
Record phase k (a b : Z) (pa pb : process_t) : Prop := {
  ph_good : exists T, good (kmem k0) (World (kmem k) (<[a := with_a_heap pa]> (<[b := with_a_heap pb]> ∅))) T;
  ph_slot : forall j, proc_table k !! j =
    if decide (j = Z.to_nat a) then Some pa else if decide (j = Z.to_nat b) then Some pb else proc_table k0 !! j;
  ph_index : 0 <= a /\ 0 <= b /\ a <> b;
  ph_free : (exists x, proc_table k0 !! Z.to_nat a = Some x /\ unused x = true) /\ (exists x, proc_table k0 !! Z.to_nat b = Some x /\ unused x = true);
  ph_quiet : quiet_kernel k;
  ph_test : test_process pa /\ test_process pb;
  ph_upper : upper (kmem k0) kpml4 (kmem k) (cr3 pa) /\ upper (kmem k0) kpml4 (kmem k) (cr3 pb)
}.

Lemma phase_swap k a b pa pb : phase k a b pa pb -> phase k b a pb pa.
Proof.
  intros [[T Hg] Hs (Ha & Hb & Hab) [Fa Fb] Q [Ta Tb] [Ua Ub]]. split; try done.
  - exists T. by rewrite insert_insert_ne.
  - intros j. rewrite Hs. repeat case_decide; try done. lia.
Qed.

Lemma phase_get k a b pa pb : phase k a b pa pb -> get_p k a = pa /\ get_p k b = pb.
Proof.
  intros [_ Hs (Ha & Hb & Hab) _ _ _ _]. unfold get_p. rewrite !zget_lookup, !Hs. by rewrite decide_True, decide_False, decide_True by (done || lia).
Qed.

Lemma kmem_store k m : kmem (with_kmem k m) = m.
Proof using Hheap. apply Hheap. Qed.

(** A step that leaves the slots alone or replaces the process in [a]. *)
Lemma phase_put k a b pa pb m pa' : phase k a b pa pb -> test_process pa' -> cr3 pa' = cr3 pa ->
  (exists T, good (kmem k0) (World m (<[a := with_a_heap pa']> (<[b := with_a_heap pb]> ∅))) T) ->
  upper (kmem k) (cr3 pa) m (cr3 pa) -> upper (kmem k) (cr3 pb) m (cr3 pb) -> phase (set_p (with_kmem k m) a pa') a b pa' pb.
Proof using Hheap.
  intros [_ Hs (Ha & Hb & Hab) [Fa Fb] Q [_ Tb] [Ua Ub]] Ta Hc Hg U1 U2. split; try done.
  - unfold kmem in *. cbn in *. by rewrite Hheap.
  - intros j. cbn. unfold zset. destruct (decide (j = Z.to_nat a)) as [->|Hne].
    + rewrite list_lookup_insert_eq; [done|]. apply (lookup_lt_Some _ _ pa). by rewrite Hs, decide_True.
    + rewrite list_lookup_insert_ne, Hs by congruence. by rewrite decide_False.
  - unfold kmem in *. cbn in *.
    rewrite Hheap, Hc. split; [exact (upper_trans _ _ _ _ _ _ Ua U1)|exact (upper_trans _ _ _ _ _ _ Ub U2)].
Qed.

(** *** Allocation *)

Definition no_slot k : Prop := forall p, p ∈ proc_table k -> unused p = false.

Record allocated k (i : Z) (p : process_t) k' : Prop := {
  al_space : address_space_create (kmem k) kpml4 = (cr3 p, kmem k');
  al_fresh : cr3 p <> 0 /\ umap p = [];
  al_index : 0 <= i;
  al_free : exists x, proc_table k !! Z.to_nat i = Some x /\ unused x = true;
  al_table : proc_table k' = <[Z.to_nat i := p]> (proc_table k);
  al_test : test_process p;
  al_quiet : quiet_kernel k -> quiet_kernel k'
}.

Lemma alloc_stage k r k' : vm_ok (kmem k) -> frame_no kpml4 ∉ free_set (ms_pmm (kmem k)) -> process_alloc kpml4 k 0 = (r, k') ->
  match r with
  | None => (no_slot k \/ free_set (ms_pmm (kmem k)) = ∅) /\ kmem k' = kmem k
  | Some i => exists p, allocated k i p k'
  end.
Proof using Hheap Hk.
  intros Hok Hkf. unfold process_alloc. destruct (first_index unused (proc_table k)) as [i|] eqn:Ei.
  2: { intros [= <- <-]. split; [|done]. left. exact (proj1 (first_index_None _ _) Ei). }
  pose proof (address_space_create_spec (kmem k) kpml4 Hok Hk Hkf) as Hs.
  destruct (address_space_create (kmem k) kpml4) as [root m] eqn:E. destruct (Z.eqb_spec root 0) as [->|Hr].
  - intros [= <- <-]. destruct Hs as [(_ & -> & He)|(? & _)]; [|done]. split; [by right|apply kmem_store].
  - intros [= <- <-]. apply first_index_Some in Ei as (x & Hi & Hx & _). exists (alloc_slot (get_p (with_kmem k m) (Z.of_nat i)) (next_pid k) 0 root).
    split; [|done|lia|rewrite Nat2Z.id; by eauto|done| |done].
    + rewrite E. f_equal. symmetry. apply (Hheap (kheap_ k) m).
    + split; [done| |done]. by repeat constructor.
Qed.

Lemma allocated_lt k i p k' : allocated k i p k' -> (Z.to_nat i < length (proc_table k))%nat.
Proof. intros H. destruct (al_free _ _ _ _ H) as (x & Hx & _). by eapply lookup_lt_Some. Qed.

(** A slot that was free is free after another one was taken. *)
Lemma still_free i j x y a pa k1 : i <> j -> proc_table k0 !! i = Some x -> unused x = true -> proc_table k0 !! j = Some y -> unused y = true ->
  allocated k0 a pa k1 -> ~ no_slot k1.
Proof.
  intros Hij Hx Ux Hy Uy A Hn. unfold no_slot in Hn. rewrite (al_table _ _ _ _ A) in Hn. destruct (decide (i = Z.to_nat a)) as [->|Hne].
  - specialize (Hn y). rewrite Hn in Uy; [done|]. apply (list_elem_of_lookup_2 _ j). by rewrite list_lookup_insert_ne.
  - specialize (Hn x). rewrite Hn in Ux; [done|]. apply (list_elem_of_lookup_2 _ i). by rewrite list_lookup_insert_ne.
Qed.

Lemma first_good a pa k1 : allocated k0 a pa k1 ->
  (exists T, good (kmem k0) (World (kmem k1) (<[a := with_a_heap pa]> ∅)) T) /\ upper (kmem k0) kpml4 (kmem k1) (cr3 pa) /\
  vm_ok (kmem k1) /\ frame_no kpml4 ∉ free_set (ms_pmm (kmem k1)).
Proof using Hok0 Hk Hkn.
  intros [Hc [Hr Hu] _ _ _ _ _].
  destruct (create_stage (kmem k0) kpml4 Hok0 Hk Hkn _ _ a pa _ _ (good_boot (kmem k0) Hok0) (lookup_empty a) Hc Hr (conj eq_refl Hu))
    as ([T G] & U & _ & _). cbn [wmem procs] in *. split_and!; [by exists T|done| |].
  - apply (wo_vm _ _ _ (good_ok _ _ _ G)).
  - apply (good_kernel _ _ Hkn _ _ G).
Qed.

Lemma phase_start a b k1 k2 pa pb : quiet_kernel k0 -> allocated k0 a pa k1 -> allocated k1 b pb k2 -> phase k2 a b pa pb.
Proof using Hok0 Hk Hkn.
  intros Q A B. destruct (first_good a pa k1 A) as ([T1 G1] & U1 & _). pose proof (allocated_lt _ _ _ _ A) as Hla.
  pose proof (allocated_lt _ _ _ _ B) as Hlb. destruct A as [_ _ Ha Fa Ht Tp Q1], B as [Hc [Hr Hu] Hb (z & Hz & Uz) Ht' Tp' Q2].
  assert (Hab : b <> a).
  { intros ->. rewrite Ht, list_lookup_insert_eq in Hz by done. injection Hz as <-. unfold unused in Uz. by rewrite (tp_state _ Tp) in Uz. }
  rewrite Ht in Ht', Hz. rewrite list_lookup_insert_ne in Hz by lia.
  destruct (create_stage (kmem k0) kpml4 Hok0 Hk Hkn _ _ b pb _ _ G1 ltac:(cbn; by rewrite lookup_insert_ne) Hc Hr (conj eq_refl Hu))
    as ([T2 G2] & U2 & _ & Hoth). cbn [wmem procs] in *.
  destruct (Hoth a (with_a_heap pa) ltac:(by rewrite lookup_insert_eq)) as [_ Ua]. change (cr3 (with_a_heap pa)) with (cr3 pa) in Ua.
  split; [exists T2; by rewrite insert_insert_ne| |done|split; [done|by exists z]|by apply Q2, Q1|done|].
  - intros n. rewrite Ht'. destruct (decide (n = Z.to_nat b)) as [->|Hnb].
    + rewrite list_lookup_insert_eq by by rewrite Ht in Hlb. by rewrite decide_False by lia.
    + rewrite list_lookup_insert_ne by done. destruct (decide (n = Z.to_nat a)) as [->|Hna]; [by rewrite list_lookup_insert_eq|].
      by rewrite list_lookup_insert_ne.
  - split; [exact (upper_trans _ _ _ _ _ _ U1 Ua)|].
    exact (upper_trans _ _ _ _ _ _ (upper_confined _ _ _ kpml4 (good_in _ _ _ G1) Hk Hkn) U2).
Qed.

(** Both allocations: the processes are set up, or memory has run out. *)
Lemma both_allocated ra k1 rb k2 i j x y : quiet_kernel k0 ->
  i <> j -> proc_table k0 !! i = Some x -> unused x = true -> proc_table k0 !! j = Some y -> unused y = true ->
  process_alloc kpml4 k0 0 = (ra, k1) -> process_alloc kpml4 k1 0 = (rb, k2) ->
  match ra, rb with
  | Some a, Some b => exists pa pb, phase k2 a b pa pb /\ umap pa = [] /\ umap pb = []
  | _, _ => free_set (ms_pmm (kmem k2)) = ∅
  end.
Proof using Hheap Hok0 Hk Hkn.
  intros Q Hij Hx Ux Hy Uy E1 E2. apply alloc_stage in E1; [|done..]. destruct ra as [a|].
  - destruct E1 as [pa A]. destruct (first_good a pa k1 A) as (_ & _ & Hok1 & Hkn1).
    apply alloc_stage in E2; [|done..]. destruct rb as [b|].
    + destruct E2 as [pb B]. exists pa, pb. split; [by apply (phase_start a b k1)|]. split; [apply (al_fresh _ _ _ _ A)|apply (al_fresh _ _ _ _ B)].
    + destruct E2 as ([Hn|He] & ->); [|done]. by destruct (still_free i j x y a pa k1).
  - destruct E1 as ([Hno|He] & Hm).
    { exfalso. specialize (Hno x). rewrite Hno in Ux; [done|]. by eapply list_elem_of_lookup_2. }
    rewrite <- Hm in *. apply alloc_stage in E2; [|done..]. destruct rb as [b|]; [|by destruct E2 as (_ & ->)].
    destruct E2 as [p [Hc [Hr _] _ _ _ _ _]]. pose proof (address_space_create_spec (kmem k1) kpml4 Hok0 Hk Hkn) as Hs.
    rewrite Hc in Hs. destruct Hs as [(? & _)|(_ & _ & _ & Hin & _)]; [done|]. by rewrite He in Hin.
Qed.

(** *** The page, the probe, the end *)

Lemma phase_map k a b pa pb st k' : phase k a b pa pb -> umap pa = [] -> map_probe k a = (st, k') ->
  exists pa', phase k' a b pa' pb /\ cr3 pa' = cr3 pa /\ same_map (cr3 pb) (kmem k) (kmem k') /\
  ((st = VOID_OK /\ probe_ready (kmem k') pa') \/ (st = VOID_ERR_NOMEM /\ exists f, free_set (ms_pmm (kmem k')) ⊆ {[f]})).
Proof using Hheap Hok0 Hk Hkn.
  intros P Hu. unfold map_probe. destruct (phase_get k a b pa pb P) as [-> _]. pose proof P as [[T G] _ (_ & _ & Hab) _ _ [Ta _] _].
  destruct (process_alloc_user_page (kmem k) pa PROBE VMM_WRITE) as [[r m] pa'] eqn:E. intros [= <- <-].
  destruct (page_stage (kmem k0) kpml4 Hok0 Hk Hkn _ _ a pa r m pa' G ltac:(apply lookup_insert_eq) Hu E) as (G' & U & Hc & Hoth).
  cbn [wmem procs] in *. rewrite insert_insert_eq in G'.
  destruct (Hoth b (with_a_heap pb) ltac:(done) ltac:(by rewrite lookup_insert_ne, lookup_insert_eq)) as [Hun Ub].
  change (cr3 (with_a_heap pb)) with (cr3 pb) in *. pose proof (kmem_store k m) as Hm.
  assert (Htc : test_process pa' /\ cr3 pa' = cr3 pa)
    by (destruct Hc as [(_ & [f ->] & _)|(_ & -> & _)]; [by destruct Ta|done]).
  destruct Htc as [Tp Hcr]. exists pa'. change (kmem (set_p (with_kmem k m) a pa')) with (kmem (with_kmem k m)). rewrite Hm.
  split_and!; [by apply (phase_put k a b pa)|done|apply (un_map _ _ _ Hun)|].
  destruct Hc as [(-> & _ & Hr)|(-> & _ & Hf)]; [left|by right]. split; [done|]. unfold probe_ready. by rewrite Hcr.
Qed.

(** The word of a process whose page is ready. *)
Lemma load_ready s p : probe_ready s p -> probe_load s (cr3 p) = Some (probe_word s p).
Proof. intros [Hr _]. unfold probe_load, probe_addr. cbn zeta. by rewrite Hr. Qed.

Lemma phase_probe k a b pa pb : phase k a b pa pb -> probe_ready (kmem k) pa -> probe_ready (kmem k) pb ->
  exists m, probe_both (kmem k) (cr3 pa) (cr3 pb) = Some (PROBE_A, PROBE_B, m) /\ phase (with_kmem k m) a b pa pb.
Proof using Hheap Hok0 Hk Hkn.
  intros P Ra Rb. pose proof P as [[T G] _ (_ & _ & Hab) _ _ [Ta _] _]. set (w := <[a := _]> _) in G.
  assert (La : w !! a = Some (with_a_heap pa)) by apply lookup_insert_eq.
  assert (Lb : w !! b = Some (with_a_heap pb)) by (unfold w; by rewrite lookup_insert_ne, lookup_insert_eq).
  destruct (store_stage (kmem k0) kpml4 Hok0 Hk Hkn _ _ a (with_a_heap pa) PROBE_A G La Ra ltac:(done)) as (m1 & E1 & G1 & Ra1 & Wa & U1 & O1).
  cbn [wmem procs] in *. pose proof (probe_ready_same _ _ (with_a_heap pb) (un_map _ _ _ (O1 b _ ltac:(done) Lb)) Rb) as Rb1.
  destruct (store_stage (kmem k0) kpml4 Hok0 Hk Hkn _ _ b (with_a_heap pb) PROBE_B G1 Lb Rb1 ltac:(done)) as (m2 & E2 & G2 & Rb2 & Wb & U2 & O2).
  cbn [wmem procs] in *. destruct (good_inv _ _ _ _ _ G1 La) as (Ga & HG1 & I1). destruct (good_inv _ _ _ _ _ G2 La) as (Ga' & HG' & I2).
  rewrite HG1 in HG'. injection HG' as <-.
  destruct (probe_word_untouched _ _ _ _ _ _ I1 I2 Ra1 (O2 a _ ltac:(done) La)) as [Ra2 Wa2]. exists m2. split.
  - change (cr3 pa) with (cr3 (with_a_heap pa)). change (cr3 pb) with (cr3 (with_a_heap pb)). unfold probe_both.
    rewrite E1. cbn [mbind option_bind]. rewrite E2. cbn [mbind option_bind].
    rewrite (load_ready m2 _ Ra2), (load_ready m2 _ Rb2). cbn in Wa, Wa2, Wb |- *. by rewrite Wa2, Wa, Wb.
  - pose proof (phase_put k a b pa pb m2 pa P Ta eq_refl (ex_intro _ T G2) (upper_trans _ _ _ _ _ _ (U1 a _ La) (U2 a _ La))
      (upper_trans _ _ _ _ _ _ (U1 b _ Lb) (U2 b _ Lb))) as P'.
    destruct P' as [Hg' Hs' Hi' Hf' Hq' Ht' Hu']. split; try done. intros j. rewrite <- Hs'. cbn. unfold zset.
    rewrite list_insert_id; [done|]. rewrite (ph_slot _ _ _ _ _ P). by rewrite decide_True.
Qed.

Lemma exit_stage w T i p : world_ok (kmem k0) w T -> procs w !! i = Some (with_a_heap p) ->
  exists T', world_ok (kmem k0) (World (process_destroy_user_space (wmem w) p).1 (delete i (procs w))) T'.
Proof using Hok0 Hk Hkn.
  intros W Hi. assert (Hf : frame_no kpml4 ∉ free_set (ms_pmm (wmem w))) by (intros Hx; apply Hkn, (wo_sum _ _ _ W); by left).
  destruct (wstep_ok (kmem k0) kpml4 true Hok0 Hk Hkn w T i _ W Hf (ws_exit kpml4 true w i (with_a_heap p) _ _ Hi eq_refl)) as (T' & W' & _).
  by exists T'.
Qed.

(** The processes go: every frame is free again, and so are the slots. *)
Lemma phase_end k a b pa pb : phase k a b pa pb -> let k' := process_destroy (process_destroy k a) b in
  free_set (ms_pmm (kmem k')) = free_set (ms_pmm (kmem k0)) /\ unused <$> proc_table k' = unused <$> proc_table k0.
Proof using Hheap Hok0 Hk Hkn.
  intros P. pose proof P as [[T [W _]] Hs (Ha & Hb & Hab) [(xa & Fa & Ua) (xb & Fb & Ub)] Q [Ta Tb] _].
  destruct (phase_get _ _ _ _ _ P) as [Ga Gb]. destruct (destroy_stage k a pa Q Ga Ta) as (qa & Uqa & ->).
  set (m1 := (process_destroy_user_space (kmem k) pa).1). set (k1 := set_p (with_kmem k m1) a qa).
  assert (Gb1 : get_p k1 b = pb) by (unfold get_p, k1, set_p; cbn [proc_table with_procs]; by rewrite zget_zset_ne by lia).
  destruct (destroy_stage k1 b pb Q Gb1 Tb) as (qb & Uqb & ->). change (kmem k1) with (kmem (with_kmem k m1)). rewrite kmem_store.
  intros k'. assert (Ek : kmem k' = (process_destroy_user_space m1 pb).1) by apply Hheap. rewrite Ek. split.
  - destruct (exit_stage _ T a pa W ltac:(apply lookup_insert_eq)) as [T1 W1]. cbn [wmem procs] in W1. fold m1 in W1.
    rewrite delete_insert_eq, (delete_id (<[b := _]> _)) in W1 by by rewrite lookup_insert_ne.
    destruct (exit_stage _ T1 b pb W1 ltac:(apply lookup_insert_eq)) as [T2 W2]. cbn [wmem procs] in W2.
    rewrite delete_insert_id in W2 by apply lookup_empty.
    apply set_eq. intros x. rewrite (wo_sum _ _ _ W2). split; [by left|].
    intros [?|(j & q & G & Hq & _)]; [done|]. cbn in Hq. by rewrite lookup_empty in Hq.
  - apply list_eq. intros j. rewrite !list_lookup_fmap.
    change (proc_table k') with (<[Z.to_nat b := qb]> (<[Z.to_nat a := qa]> (proc_table k))).
    destruct (decide (j = Z.to_nat b)) as [->|Hjb]; [|destruct (decide (j = Z.to_nat a)) as [->|Hja]].
    + rewrite list_lookup_insert_eq by (rewrite length_insert; apply (lookup_lt_Some _ _ pb); rewrite Hs; by rewrite decide_False, decide_True by lia).
      rewrite Fb. cbn. congruence.
    + rewrite list_lookup_insert_ne, list_lookup_insert_eq by (done || apply (lookup_lt_Some _ _ pa); rewrite Hs; by rewrite decide_True).
      rewrite Fa. cbn. congruence.
    + rewrite !list_lookup_insert_ne by done. rewrite Hs. by rewrite !decide_False.
Qed.

(** C3.  The isolation test of the boot reports success whenever there is memory for it.
  On a kernel with two free slots and nothing registered, the test ends without a fault.
  It ends early only when at most one frame is left; otherwise it finds distinct values
  at the same address, and the translation of [kaddr] under a process is the kernel's own,
  so the second line passes exactly when the kernel maps the address; then every frame and
  every slot is free again. *)
Theorem isolation_test_correct kaddr i j x y : quiet_kernel k0 -> 256 <= PML4_IDX kaddr ->
  Forall (table_ok (kmem k0)) (lower_tables (ms_mem (kmem k0)) kpml4 kaddr) ->
  i <> j -> proc_table k0 !! i = Some x -> unused x = true -> proc_table k0 !! j = Some y -> unused y = true ->
  exists o k', test_address_space_isolation kpml4 k0 kaddr = Some (o, k') /\
    match o with
    | NoProcess | NoPage => exists f, free_set (ms_pmm (kmem k')) ⊆ {[f]}
    | Report isolated shared => isolated = true /\ shared = negb (vmm_virt_to_phys (ms_mem (kmem k0)) kpml4 kaddr =? 0) /\
        free_set (ms_pmm (kmem k')) = free_set (ms_pmm (kmem k0)) /\ unused <$> proc_table k' = unused <$> proc_table k0
    end.
Proof using Hheap Hok0 Hk Hkn.
  intros Q Hka Hl Hij Hx Ux Hy Uy. unfold test_address_space_isolation.
  destruct (process_alloc kpml4 k0 0) as [ra k1] eqn:E1. destruct (process_alloc kpml4 k1 0) as [rb k2] eqn:E2.
  pose proof (both_allocated _ _ _ _ i j x y Q Hij Hx Ux Hy Uy E1 E2) as Hb.
  destruct ra as [a|], rb as [b|]; [|by eexists _, _; split; [done|]; exists 0; rewrite Hb; set_solver +..].
  destruct Hb as (pa & pb & P & Hua & Hub). destruct (map_probe k2 a) as [st k3] eqn:E3.
  destruct (phase_map _ _ _ _ _ _ _ P Hua E3) as (pa' & P3 & Ca & _ & [(-> & Ra)|(-> & Hf)]); [|by eexists _, _].
  cbn [negb Z.eqb VOID_OK]. destruct (map_probe k3 b) as [st k4] eqn:E4.
  destruct (phase_map _ _ _ _ _ _ _ (phase_swap _ _ _ _ _ P3) Hub E4) as (pb' & P4 & Cb & Hs & [(-> & Rb)|(-> & Hf)]); [|by eexists _, _].
  apply phase_swap in P4. apply (probe_ready_same _ _ pa' Hs) in Ra. destruct (phase_get _ _ _ _ _ P4) as [Ga Gb].
  destruct (phase_probe _ _ _ _ _ P4 Ra Rb) as (m & E5 & P5). cbn [negb Z.eqb VOID_OK]. rewrite Ga, Gb, E5. cbn [mbind option_bind].
  destruct (phase_get _ _ _ _ _ P5) as [-> _]. eexists _, _. split; [done|]. destruct (phase_end _ _ _ _ _ P5) as [H1 H2].
  split_and!; [done| |exact H1|exact H2]. destruct (ph_good _ _ _ _ _ P5) as [T G]. pose proof (good_in _ _ _ G) as Hin. cbn [wmem] in Hin.
  destruct (ph_upper _ _ _ _ _ P5) as [Hup _]. rewrite kmem_store in Hin, Hup. do 2 f_equal.
  apply (shared_phys _ _ _ _ _ _ Hin Hl). apply Hup. split; [done|by apply idx_range].
Qed.
End Kernel.

(** ** A kernel mapped by a huge page *)
Section Demo.
#[local] Instance test_heap : KernelHeap (Z * mstate) :=
  {| kmalloc h n := (h.1, (h.1 + Z.max n 1, h.2)); kfree h _ := h |}.
#[local] Instance test_heap_memory : HeapMemory (Z * mstate) :=
  {| heap_mem h := h.2; set_heap_mem h m := (h.1, m) |}.

Definition KSTACK_VAR : Z := 0xFFFFFFFF80001000.
Definition test_mem : mem := wr64 (wr64 (fun _ => 0) (demo_root2 + 8 * 511) 0x7003) (0x7000 + 8 * 510) 0x40000083.
Definition test_kernel : @kstate (Z * mstate) :=
  KState (set_state process_zero PROC_RUNNING :: replicate 63 (set_state process_zero PROC_UNUSED)) 1 demo_sched ∅ [] [] ∅ 0 ∅
    (0x100000, MState demo_machine_pmm test_mem).

Definition pages_mapped (k : @kstate (Z * mstate)) : bool :=
  let '(a, k) := process_alloc demo_root2 k 0 in
  let '(b, k) := process_alloc demo_root2 k 0 in
  match a, b with
  | Some a, Some b => let '(r, k) := map_probe k a in (r =? VOID_OK) && ((map_probe k b).1 =? VOID_OK)
  | _, _ => false
  end.

(** With both pages mapped, the test gets to its report. *)
Lemma mapped_reports k kaddr o k' : pages_mapped k = true -> test_address_space_isolation demo_root2 k kaddr = Some (o, k') ->
  exists i s, o = Report i s.
Proof.
  unfold pages_mapped, test_address_space_isolation. destruct (process_alloc _ k 0) as [[a|] k1]; [|by destruct (process_alloc _ k1 0)].
  destruct (process_alloc _ k1 0) as [[b|] k2]; [|done]. destruct (map_probe k2 a) as [r k3]. destruct (map_probe k3 b) as [r' k4].
  cbn [fst]. intros [-> ->]%andb_prop. cbn [negb]. destruct (probe_both _ _ _) as [[[va vb] m]|]; [|done].
  intros [= <- _]. by eexists _, _.
Qed.

Lemma test_mapped : pages_mapped test_kernel = true.
Proof. vm_compute. reflexivity. Qed.

Lemma test_memory : vm_ok (kmem test_kernel) /\ frame_addr demo_root2 /\ frame_no demo_root2 ∉ free_set (ms_pmm (kmem test_kernel)).
Proof. split_and!; [destruct demo_vm_ok; by split|split; [unfold demo_root2; lia|reflexivity]|]. vm_compute. intros; discriminate. Qed.

Lemma test_shared : Forall (table_ok (kmem test_kernel)) (lower_tables (ms_mem (kmem test_kernel)) demo_root2 KSTACK_VAR) /\
  (vmm_virt_to_phys (ms_mem (kmem test_kernel)) demo_root2 KSTACK_VAR =? 0) = false.
Proof.
  split; [|vm_compute; reflexivity].
  assert (E : lower_tables (ms_mem (kmem test_kernel)) demo_root2 KSTACK_VAR = [0x7000]) by (vm_compute; reflexivity).
  rewrite E. apply Forall_singleton. split; [split; [lia|reflexivity]|]. vm_compute. intros; discriminate.
Qed.

Lemma isolation_test_correct_witness : exists k',
  test_address_space_isolation demo_root2 test_kernel KSTACK_VAR = Some (Report true true, k') /\
  free_set (ms_pmm (kmem k')) = free_set (ms_pmm (kmem test_kernel)).
Proof.
  destruct test_memory as (Hok & Hk & Hkn). destruct test_shared as [Hl Hs]. pose proof test_mapped as Hm.
  assert (H : quiet_kernel test_kernel /\ exists x y, proc_table test_kernel !! 1%nat = Some x /\ unused x = true /\
    proc_table test_kernel !! 2%nat = Some y /\ unused y = true).
  { split; [split; reflexivity|]. exists (set_state process_zero PROC_UNUSED), (set_state process_zero PROC_UNUSED).
    repeat split; reflexivity. }
  assert (Hx : 256 <= PML4_IDX KSTACK_VAR) by (vm_compute; discriminate).
  assert (HL : forall (h : Z * mstate) m, heap_mem (set_heap_mem h m) = m) by done.
  generalize dependent test_kernel. intros k Hok Hkn Hl Hs Hm (Q & x & y & Lx & Ux & Ly & Uy).
  destruct (isolation_test_correct demo_root2 HL k Hok Hk Hkn KSTACK_VAR 1 2 x y Q Hx Hl ltac:(done) Lx Ux Ly Uy)
    as (o & k' & E & Ho). destruct (mapped_reports k _ _ _ Hm E) as (i & s & ->). destruct Ho as (-> & -> & Hf & _).
  rewrite Hs in E. by exists k'.
Defined.
End Demo.
