(* ===== verification/ProcWorld.v ===== *)
(** * The kernel as its user programs see it

  A process of the kernel model, seen through its page tables, has the interface of
  [UserWorld]: loads and stores go through the tables and fault where the processor
  would, and the three calls are the kernel's [sys_brk], [sys_mmap] and [sys_munmap].
  The laws the C library relies on hold for it, so what is proved of the library
  against the interface holds on this kernel. *)
From S2P Require Import Prelude UserWorld LibcMem Malloc MallocHeap MallocSpec MallocStore Pmm PhysMem Vmm ProcData UserMem AddrSpace UserOps Teardown Uaccess.

(** ** The processor's view *)

Record proc_world := ProcWorld { pw_mem : mstate; pw_proc : process_t }.
Implicit Types k : proc_world.

(** The byte at [a] may be read, or written. *)
Definition reachable (k : proc_world) (write : bool) (a : Z) : bool :=
  (0 <=? a) && (a <? USER_LIMIT) && user_page_ok (ms_mem (pw_mem k)) (cr3 (pw_proc k)) write a.

#[export] Instance proc_bytes : UserBytes proc_world := {|
  ubyte k a := if reachable k false a then Some (user_byte (ms_mem (pw_mem k)) (pw_proc k) a) else None;
  uput k a v :=
    if reachable k true a
    then Some (ProcWorld (with_mem (pw_mem k) (mem_write (ms_mem (pw_mem k)) (vmm_virt_to_phys (ms_mem (pw_mem k)) (cr3 (pw_proc k)) a) [v]))
                 (pw_proc k))
    else None
|}.

(** A call answered by [f]; the kernel's calls always return ([sys_brk_cases],
  [sys_mmap_inv]). *)
Definition answer k (r : option (Z * mstate * process_t)) : Z * proc_world :=
  match r with Some (r, s, p) => (r, ProcWorld s p) | None => (0, k) end.

(** The wrappers of [void.h]: the arguments travel as 64-bit words. *)
Definition call_brk k (a : Z) : Z * proc_world := answer k (sys_brk (pw_mem k) (pw_proc k) (u64 a)).

Definition call_mmap (nx : bool) k (a len prot flags fd off : Z) : Z * proc_world :=
  answer k (sys_mmap nx (pw_mem k) (pw_proc k) (u64 a) (u64 len) prot flags fd (u64 off)).

Definition call_munmap k (a len : Z) : Z * proc_world :=
  answer k (Some (sys_munmap (pw_mem k) (pw_proc k) (u64 a) (u64 len))).

#[export] Instance proc_kernel (nx : bool) : UserKernel proc_world := {|
  k_brk := call_brk; k_mmap := call_mmap nx; k_munmap := call_munmap
|}.

(** ** Page table entries *)

Definition writable (e : Z) : Prop := has e VMM_PRESENT = true /\ has e VMM_USER = true /\ has e VMM_WRITE = true.

Lemma user_pte_writable g fl : frame_addr g -> page_flags_ok fl -> has fl VMM_WRITE = true -> writable (user_pte g fl).
Proof.
  intros Hg Hfl Hw. destruct (user_pte_facts g fl Hg Hfl) as [Hp _]. split; [done|].
  unfold user_pte, VMM_PRESENT, VMM_USER, VMM_WRITE in *. rewrite !has_lor in * by lia. rewrite Hw.
  change (has (2 ^ 2) (2 ^ 2)) with true. by rewrite !orb_true_r.
Qed.

Lemma reachable_true k w a : reachable k w a = true <-> user_half a /\ user_page (ms_mem (pw_mem k)) (pw_proc k) w a.
Proof.
  unfold reachable, user_half, USER_LIMIT. rewrite !andb_true_iff, Z.leb_le, Z.ltb_lt, user_page_ok_iff. tauto.
Qed.

Lemma reachable_writable k a : reachable k true a = true <-> user_half a /\ writable (vmm_get_pte (ms_mem (pw_mem k)) (cr3 (pw_proc k)) a).
Proof. rewrite reachable_true. unfold user_page, writable. intuition. Qed.

(** ** Growing the heap *)

Lemma aligned_le a b : aligned a -> aligned b -> a < b -> a + PAGE_SIZE <= b.
Proof. unfold aligned, PAGE_SIZE. intros ? ? ?. Z.div_mod_to_equations. lia. Qed.

Lemma aligned_next a : aligned a -> aligned (a + PAGE_SIZE).
Proof. intros H. replace (a + PAGE_SIZE) with (a + 1 * PAGE_SIZE) by lia. by apply aligned_add. Qed.

Lemma brk_grow_pages F fuel : forall s p G va nb r s' p', um_inv F s p G -> page_flags_ok (brk_perm p) ->
  aligned va -> aligned nb -> 0 <= va -> brk_grow_loop fuel s p va nb = Some (r, s', p') ->
  (forall w, user_half w -> w < va \/ va + Z.of_nat fuel * PAGE_SIZE <= w -> vmm_get_pte (ms_mem s') (cr3 p) w = vmm_get_pte (ms_mem s) (cr3 p) w) /\
  (r = 0 -> (va < nb -> nb <= USER_LIMIT) /\
     forall w, va <= w < nb -> exists g, vmm_get_pte (ms_mem s') (cr3 p) w = user_pte g (brk_perm p) /\ frame_addr g).
Proof.
  induction fuel as [|fuel IH]; intros s p G va nb r s' p' Hum Hfl Hva Hnb H0; cbn [brk_grow_loop]; [done|].
  destruct (Z.ltb_spec va nb) as [Hlt|Hge].
  2: { intros [= <- <- _]. split; [done|]. intros _. split; lia. }
  destruct (process_alloc_user_page s p va (brk_perm p)) as [[st s1] p1] eqn:Ea.
  apply (alloc_user_spec F s p G) in Ea; [|done|lia|done].
  destruct Ea as ([G1 Hum1] & _ & [(-> & Hvh & Hoth & f & -> & Hpte & Hf & _)|(-> & -> & Hsame)]);
    cbn [negb Z.eqb VOID_OK VOID_ERR_NOMEM].
  2: { intros [= <- <- _]. split; [intros w Hw _; by apply Hsame|done]. }
  assert (Hoth' : forall w, user_half w -> ~ (va <= w < va + PAGE_SIZE) ->
    vmm_get_pte (ms_mem s1) (cr3 p) w = vmm_get_pte (ms_mem s) (cr3 p) w).
  { intros w Hw Hn. apply Hoth; [done|]. by rewrite page_of_eq_range. }
  unfold user_half in Hvh. pose proof (aligned_next va Hva) as Hnx. pose proof (aligned_le va nb Hva Hnb Hlt) as Hne.
  assert (HP : PAGE_SIZE = 4096) by reflexivity. rewrite u64_id by lia.
  intros E. apply (IH _ _ G1) in E as [Hout Hin]; [|done|done|done|done|lia].
  cbn [set_umap cr3 brk_perm] in *. split.
  - intros w Hw Ho. rewrite Hout by (done || lia). apply Hoth'; [done|]. lia.
  - intros Hr. destruct (Hin Hr) as [Hlim Hp].
    assert (Hnl : nb <= USER_LIMIT).
    { destruct (decide (va + PAGE_SIZE < nb)) as [Hl|]; [by apply Hlim|]. replace nb with (va + PAGE_SIZE) by lia.
      apply aligned_le; [done|reflexivity|unfold USER_LIMIT; lia]. }
    split; [done|]. intros w Hw.
    destruct (decide (va + PAGE_SIZE <= w)) as [|Hl]; [apply Hp; lia|]. exists f. split; [|done]. unfold USER_LIMIT in *.
    rewrite Hout by (unfold user_half; lia). rewrite (get_pte_page _ _ w va); [done|]. apply page_of_eq_range; [done|lia].
Qed.

(** ** A process has at most [UMAP_MAX] pages *)

Lemma present_pages_bound F s p G a n : um_inv F s p G -> aligned a -> 0 <= a -> 0 <= n -> a + n * PAGE_SIZE <= USER_LIMIT ->
  (forall w, a <= w < a + n * PAGE_SIZE -> page_present s p w = true) -> n <= UMAP_MAX.
Proof.
  intros Hum Ha H0 Hn Hlim Hp. pose proof (um_len _ _ _ _ Hum) as Hl. unfold USER_LIMIT, PAGE_SIZE in *.
  assert (Hs : range (page_of a) (page_of a + n) ⊆ (fun e : Z * Z => page_of e.1) <$> umap p).
  { intros x Hx%elem_of_range. destruct (um_present _ _ _ _ Hum (x * 4096)) as (v & Hin & Hv).
    - unfold user_half, page_of, PAGE_SIZE in *. Z.div_mod_to_equations. lia.
    - apply Hp. unfold aligned, page_of, PAGE_SIZE in *. Z.div_mod_to_equations. lia.
    - apply list_elem_of_fmap. eexists. split; [|exact Hin]. cbn [fst]. rewrite Hv. unfold page_of, PAGE_SIZE. by rewrite Z.div_mul. }
  apply NoDup_submseteq, submseteq_length in Hs; [|apply NoDup_seqZ].
  rewrite length_fmap in Hs. unfold range in Hs. rewrite length_seqZ in Hs. lia.
Qed.

(** ** Releasing keeps the bytes of the other pages *)

Lemma release_page_keeps F s p G v f u : um_inv F s p G -> umap p ≡ₚ (v, f) :: u ->
  keeps_umap s (set_umap p u) (release_page s (cr3 p) (v, f)).
Proof.
  intros Hum Hu w g a Hin Ha. cbn [umap set_umap] in Hin. unfold release_page.
  destruct (um_frames _ _ _ _ Hum v f) as [Hv _]; [rewrite Hu; by left|].
  destruct (um_frames _ _ _ _ Hum w g) as [_ Hg]; [rewrite Hu; by right|].
  pose proof (unmap_cases s (cr3 p) G v (um_ok _ _ _ _ Hum) (um_pt _ _ _ _ Hum) Hv) as Hc.
  destruct (vmm_unmap_page s (cr3 p) v) as [r s1]. destruct Hc as (_ & Hpt & He & _).
  exact (ext_keeps_data _ _ _ _ _ He Hpt g a Hg Ha).
Qed.

Lemma release_loop_keeps F start n : forall s p G i, um_inv F s p G -> 0 <= i ->
  let '(s', p') := release_loop n s p start i in umap p' ⊆ umap p /\ keeps_umap s p' s'.
Proof.
  induction n as [|n IH]; intros s p G i Hum Hi; cbn [release_loop]; [done|].
  destruct (Z.ltb_spec i (Z.of_nat (length (umap p)))) as [Hlt|]; [|done].
  destruct (in_release_range start _); [|apply (IH s p G); [done|lia]].
  destruct (release_page_at F s p G i Hum ltac:(lia)) as (Hum1 & _). pose proof (umap_remove_perm (umap p) i ltac:(lia)) as Hp.
  destruct (zget (0, 0) (umap p) i) as [v f] eqn:Ee. pose proof (release_page_keeps F s p G v f _ Hum Hp) as Hk.
  specialize (IH _ _ G i Hum1 Hi). destruct (release_loop n _ _ start i) as [s' p']. destruct IH as [Hs Hk'].
  cbn [umap set_umap] in *. split; [intros x Hx; rewrite Hp; right; by apply Hs|].
  intros w g a Hin Ha. rewrite (Hk' w g) by done. apply (Hk w g); [by apply Hs|done].
Qed.

(** ** Placing an anonymous mapping *)

(** Each turn of the carving loop goes down by at most the length asked for.  When
  an occupied page is lower than the length, the subtraction of
  [um_mmap_reserve] wraps and the window test succeeds on an empty range. *)
Lemma reserve_loop_cases F s p G n floor fuel : um_inv F s p G -> cr3 p <> 0 -> 1 <= n -> n * PAGE_SIZE <= USER_MMAP_TOP ->
  0 <= floor -> forall base r out, 0 <= base -> aligned base -> base + n * PAGE_SIZE <= USER_MMAP_TOP ->
  reserve_loop fuel s p n floor base = Some (r, out) ->
  r = - VE_NOMEM \/
  r = 0 /\ (aligned out /\ base - Z.of_nat fuel * (n * PAGE_SIZE) <= out <= base /\ 0 <= out /\ window_clear s p out n \/
            2 ^ 63 <= out < 2 ^ 64 /\ u64 (out + n * PAGE_SIZE) <= out).
Proof.
  intros Hum Hc Hn HnT Hfl. assert (HT : USER_MMAP_TOP < 2 ^ 47) by done. assert (HP : PAGE_SIZE = 4096) by done.
  induction fuel as [|fuel IH]; intros base r out Hb Hal Htop; cbn [reserve_loop]; [done|].
  rewrite (u64_id (base + n * PAGE_SIZE)) by lia.
  destruct (um_range_clear s p base (base + n * PAGE_SIZE)) eqn:Ecl.
  { intros [= <- <-]. right. split; [done|left]. rewrite range_clear_true in Ecl by (done || lia). by split_and!; [|lia..|]. }
  destruct (highest_occupied_spec s p base n Hc ltac:(lia) Hal ltac:(lia) Ecl) as (Hocc & Hoal & Hop).
  set (occ := highest_occupied s p base (base + n * PAGE_SIZE)) in *. clearbody occ.
  destruct (decide (n * PAGE_SIZE <= occ)) as [Hnw|Hw].
  - assert (Hal' : aligned (occ - n * PAGE_SIZE)).
    { replace (occ - n * PAGE_SIZE) with (occ + (- n) * PAGE_SIZE) by lia. by apply aligned_add. }
    rewrite (u64_id (occ - n * PAGE_SIZE)), land_page_mask_aligned by (done || lia).
    case_if; [intros [= <- <-]; by left|]. intros E.
    destruct (IH (occ - n * PAGE_SIZE) r out ltac:(lia) Hal' ltac:(lia) E) as [?|(? & [(? & ? & ? & ?)|?])]; [by left|right..].
    + split; [done|left]. split_and!; (done || lia).
    + split; [done|by right].
  - rewrite u64_neg by lia.
    assert (Hal' : aligned (occ - n * PAGE_SIZE + 2 ^ 64)).
    { replace (occ - n * PAGE_SIZE + 2 ^ 64) with (occ + (2 ^ 52 - n) * PAGE_SIZE) by lia. by apply aligned_add. }
    rewrite land_page_mask_aligned by (done || lia). case_if; [intros [= <- <-]; by left|].
    destruct fuel as [|fuel]; [done|]. cbn [reserve_loop].
    assert (Hu : u64 (occ - n * PAGE_SIZE + 2 ^ 64 + n * PAGE_SIZE) = occ) by (rewrite u64_wrap; lia).
    assert (Hcl : um_range_clear s p (occ - n * PAGE_SIZE + 2 ^ 64) occ = true).
    { unfold um_range_clear. rewrite (proj2 (Z.eqb_neq _ _) Hc), (proj2 (Z.leb_le _ _)) by lia. done. }
    rewrite Hu, Hcl. intros [= <- <-]. right. split; [done|right]. lia.
Qed.

(** What [mmap_base] chooses when the caller leaves the choice to the kernel. *)
Lemma mmap_base_any F s p G n : um_inv F s p G -> cr3 p <> 0 -> 0 < n -> aligned n -> n <= USER_MMAP_TOP ->
  exists res, mmap_base s p 0 n = Some res /\
    match res with
    | inl r => - 2 ^ 63 <= r < 0
    | inr base =>
        aligned base /\ 0 <= base /\ USER_MMAP_TOP - n - 257 * n <= base /\ base + n <= USER_MMAP_TOP /\ window_clear s p base (n / PAGE_SIZE) \/
        2 ^ 63 <= base < 2 ^ 64 /\ u64 (base + n) <= base
    end.
Proof.
  intros Hum Hc Hn Hal HnT. assert (HT : USER_MMAP_TOP < 2 ^ 47) by done. assert (HT' : aligned USER_MMAP_TOP) by done.
  destruct (mmap_base_total F s p G 0 n Hum Hc ltac:(lia) ltac:(lia)) as (res & E & _). exists res. split; [done|].
  revert E. unfold mmap_base, um_mmap_reserve. cbn [Z.eqb]. rewrite (proj2 (Z.eqb_neq _ _) Hc), (proj2 (Z.eqb_neq n 0)) by lia.
  cbn [orb]. rewrite land_page_low, Hal. cbn [Z.eqb negb].
  assert (Hnp : n / PAGE_SIZE * PAGE_SIZE = n).
  { unfold aligned, PAGE_SIZE in *. Z.div_mod_to_equations. lia. }
  rewrite Hnp. fold (mmap_floor p). pose proof (mmap_floor_min p). unfold USER_CODE_BASE in *.
  case_if; [intros [= <-]; by vm_compute|]. case_if; [intros [= <-]; by vm_compute|].
  assert (Ha : aligned (USER_MMAP_TOP - n)) by (unfold aligned in *; by rewrite Zminus_mod, Hal, HT').
  rewrite land_page_mask_aligned by (done || lia).
  destruct (reserve_loop page_fuel s p (n / PAGE_SIZE) (mmap_floor p) (USER_MMAP_TOP - n)) as [[r out]|] eqn:E; [|done].
  assert (0 < n / PAGE_SIZE) by (unfold PAGE_SIZE in *; lia).
  apply (reserve_loop_cases F s p G) in E; [|done|done|lia|lia|lia|lia|done|lia]. rewrite Hnp in E.
  destruct E as [->|(-> & Ho)]; cbn [Z.eqb negb VE_NOMEM]; intros [= <-]; [by vm_compute|].
  destruct Ho as [(? & ? & ? & ?)|?]; [left|by right]. unfold page_fuel in *. split_and!; (done || lia).
Qed.

(** ** A sound process

  Anonymous mappings lie above [MAP_LOW]: they span at most 256 pages (the size of
  [umap]) and the search starts below the stack and gives up after 257 turns.  The
  heap lies below: it starts at [B0], all of it is mapped, so it spans at most 256
  pages too. *)
Definition MAP_LOW : Z := USER_MMAP_TOP - 258 * (UMAP_MAX * PAGE_SIZE).

Section Laws.
Context (nx : bool) (B0 : Z).

Record proc_ok (k : proc_world) : Prop := {
  po_space : exists F G, um_inv F (pw_mem k) (pw_proc k) G;
  po_root : cr3 (pw_proc k) <> 0;
  po_heap : heap_ok (pw_proc k);
  po_start : 0 < B0 /\ aligned B0 /\ B0 + 4 * (UMAP_MAX * PAGE_SIZE) <= MAP_LOW;
  po_brk : heap_start (pw_proc k) <= brk_current (pw_proc k) /\ B0 <= brk_current (pw_proc k) <= MAP_LOW /\ aligned (brk_current (pw_proc k));
  po_perm : has (brk_perm (pw_proc k)) VMM_WRITE = true;
  po_mapped : forall w, B0 <= w < brk_current (pw_proc k) -> page_present (pw_mem k) (pw_proc k) w = true
}.

(** What the program may use: writable bytes outside the gap between the break and
  the anonymous mappings. *)
Definition usable k (x : Z) : Prop :=
  proc_ok k /\ 0 < x /\ reachable k true x = true /\ (x < brk_current (pw_proc k) \/ MAP_LOW <= x).

(** Only the contents of the memory differ. *)
Definition contents_only k k' : Prop :=
  k' = k \/ proc_ok k /\ proc_ok k' /\ pw_proc k' = pw_proc k /\ same_map (cr3 (pw_proc k)) (pw_mem k) (pw_mem k').

Lemma same_map_reachable k k' w x : pw_proc k' = pw_proc k -> same_map (cr3 (pw_proc k)) (pw_mem k) (pw_mem k') ->
  reachable k' w x = reachable k w x.
Proof.
  intros Hp Hs. unfold reachable, user_page_ok. rewrite Hp. destruct (Z.leb_spec 0 x); [|done].
  destruct (Z.ltb_spec x USER_LIMIT); [|done]. cbn [andb]. by rewrite Hs by by split.
Qed.

Lemma reachable_present k w x : reachable k w x = true -> user_half x /\ page_present (pw_mem k) (pw_proc k) x = true.
Proof. rewrite reachable_true. intros (? & ? & _). by split. Qed.

Lemma reachable_read k x : reachable k true x = true -> reachable k false x = true.
Proof. rewrite !reachable_true. intros (? & ? & ? & _). by split_and!. Qed.

(** Storing a byte of the process. *)
Lemma put_spec k a v : proc_ok k -> reachable k true a = true -> 0 <= v < 256 -> exists k', uput k a v = Some k' /\
  contents_only k k' /\ forall x, ubyte k' x = if x =? a then Some v else ubyte k x.
Proof.
  intros Hk Ha Hv. pose proof Hk as [(F & G & Hum) Hc Hh Hst Hb Hw Hm]. destruct (reachable_present k _ a Ha) as [Hah Hap].
  destruct k as [s p]. cbn [pw_mem pw_proc] in *. cbn [uput ubyte proc_bytes]. rewrite Ha. eexists. split; [reflexivity|].
  cbn [pw_mem pw_proc]. set (b := vmm_virt_to_phys (ms_mem s) (cr3 p) a).
  assert (Hbk : b = backing s p a + a mod PAGE_SIZE) by by apply (user_phys F s p G).
  pose proof (Z.mod_pos_bound a PAGE_SIZE ltac:(by unfold PAGE_SIZE)) as Hmod.
  destruct (write_user F s p G Hum (backing s p a) b [v]) as [Hum' Hs].
  { by apply (backing_frame F s p G). } { lia. } { cbn [length]. lia. }
  assert (Hb' : b = vmm_virt_to_phys (ms_mem s) (cr3 p) a) by reflexivity. clearbody b.
  set (s' := with_mem s (mem_write (ms_mem s) b [v])) in *.
  assert (Hk' : proc_ok (ProcWorld s' p)).
  { split; cbn [pw_mem pw_proc]; try done; [by exists F, G|]. intros w Hw'. unfold page_present. rewrite Hs; [by apply Hm|].
    unfold user_half, MAP_LOW in *. assert (USER_MMAP_TOP < 2 ^ 47) by done. unfold UMAP_MAX, PAGE_SIZE in *. lia. }
  split; [by right|]. intros x. cbn [pw_mem pw_proc].
  rewrite (same_map_reachable (ProcWorld s p) (ProcWorld s' p) false x) by done.
  destruct (reachable (ProcWorld s p) false x) eqn:Ex.
  2: { destruct (Z.eqb_spec x a) as [->|]; [|done]. by rewrite (reachable_read _ _ Ha) in Ex. }
  destruct (reachable_present _ _ _ Ex) as [Hxh Hxp]. cbn [pw_mem pw_proc] in *.
  unfold user_byte. rewrite (same_map_phys F p G s s') by done.
  destruct (Z.eqb_spec x a) as [->|Hne]; unfold s'; cbn [ms_mem with_mem].
  - rewrite <- Hb'. rewrite <- (Z.add_0_r b) at 2. rewrite mem_get_write_in; [done|cbn [length]; lia|by constructor].
  - f_equal. apply mem_get_write_out. cbn [length].
    assert (vmm_virt_to_phys (ms_mem s) (cr3 p) x <> b); [|lia]. rewrite Hb'. intros E. by apply (user_phys_inj F s p G) in E.
Qed.

#[export] Instance proc_bytes_laws : UserBytesLaws proc_world usable contents_only.
Proof using Type.
  split.
  - by left.
  - intros k1 k2 k3 [->|(H1 & H2 & E1 & S1)]; [done|]. intros [->|(_ & H3 & E2 & S2)]; right; [done|].
    split_and!; [done|done|congruence|]. eapply same_map_trans; [done|]. by rewrite <- E1.
  - intros k k' [->|(H1 & H2 & E & S)] x; [done|]. unfold usable. rewrite (same_map_reachable k k' true x E S), E. tauto.
  - intros k a b. cbn [ubyte proc_bytes]. destruct (reachable k false a); [|done]. intros [= <-]. apply user_byte_range.
  - intros k a (_ & _ & Ha%reachable_read & _). cbn [ubyte proc_bytes]. rewrite Ha. by eexists.
  - intros k a v (Hk & _ & Ha & _) Hv. by apply put_spec.
Qed.

(** ** What the calls keep *)

(** The bytes of pages whose entry is unchanged and whose frame the call spares. *)
Lemma keeps_usable k k' (P : Z -> Prop) : proc_ok k -> proc_ok k' -> cr3 (pw_proc k') = cr3 (pw_proc k) ->
  (forall x v g, P x -> user_half x -> (v, g) ∈ umap (pw_proc k) -> page_of v = page_of x -> forall a, g <= a < g + PAGE_SIZE ->
     mem_get (ms_mem (pw_mem k')) a = mem_get (ms_mem (pw_mem k)) a) ->
  (forall x, P x -> user_half x -> x < brk_current (pw_proc k) \/ MAP_LOW <= x -> page_present (pw_mem k) (pw_proc k) x = true ->
     vmm_get_pte (ms_mem (pw_mem k')) (cr3 (pw_proc k)) x = vmm_get_pte (ms_mem (pw_mem k)) (cr3 (pw_proc k)) x) ->
  (forall x, P x -> x < brk_current (pw_proc k) -> x < brk_current (pw_proc k') \/ MAP_LOW <= x) ->
  forall x, P x -> usable k x -> usable k' x /\ ubyte k' x = ubyte k x.
Proof.
  intros Hk Hk' Hc Hd He Hb x HP (_ & Hx & Hr & Hz). destruct (reachable_present _ _ _ Hr) as [Hh Hp].
  specialize (He x HP Hh Hz Hp). assert (Hr' : forall w, reachable k' w x = reachable k w x).
  { intros w. unfold reachable, user_page_ok. by rewrite Hc, He. }
  split; [split_and!; [done|done|by rewrite Hr'|destruct Hz as [Hz|Hz]; [by apply Hb|by right]]|].
  cbn [ubyte proc_bytes]. rewrite Hr'. destruct (reachable k false x) eqn:E; [|done]. f_equal.
  destruct Hk as [(F & G & Hum) _ _ _ _ _ _], Hk' as [(F' & G' & Hum') _ _ _ _ _ _]. unfold user_byte.
  assert (Hp' : page_present (pw_mem k') (pw_proc k') x = true) by (unfold page_present; by rewrite Hc, He).
  rewrite (user_phys F' (pw_mem k') (pw_proc k') G' Hum' x), (user_phys F (pw_mem k) (pw_proc k) G Hum x) by done.
  assert (Hbk : backing (pw_mem k') (pw_proc k') x = backing (pw_mem k) (pw_proc k) x) by (unfold backing; by rewrite Hc, He). rewrite Hbk.
  destruct (um_present _ _ _ _ Hum x Hh Hp) as (v & Hin & Hv). apply (Hd x v (backing (pw_mem k) (pw_proc k) x)); try done.
  pose proof (Z.mod_pos_bound x PAGE_SIZE ltac:(by unfold PAGE_SIZE)). lia.
Qed.

Definition brk_of k : Z := brk_current (pw_proc k).

Lemma proc_bounds k : proc_ok k -> 0 < B0 /\ B0 <= brk_of k <= MAP_LOW /\ MAP_LOW < 2 ^ 47 /\ aligned (brk_of k).
Proof using Type. intros [_ _ _ (? & _) (_ & ? & ?) _ _]. unfold brk_of. split_and!; try done; lia. Qed.

(** The whole heap is mapped, so the break is at most 256 pages above [B0]. *)
Lemma heap_bounded F s p G b : um_inv F s p G -> 0 < B0 -> aligned B0 -> aligned b -> B0 <= b -> b <= USER_LIMIT ->
  (forall w, B0 <= w < b -> page_present s p w = true) -> b <= B0 + UMAP_MAX * PAGE_SIZE.
Proof using Type.
  intros Hum HB Ha Hb Hle Hlim Hp. assert (HP : PAGE_SIZE = 4096) by done.
  assert (E : b = B0 + (b - B0) / PAGE_SIZE * PAGE_SIZE) by (unfold aligned in *; rewrite HP in *; Z.div_mod_to_equations; lia).
  pose proof (present_pages_bound F s p G B0 ((b - B0) / PAGE_SIZE) Hum Ha ltac:(lia)) as H.
  rewrite <- E in H. specialize (H ltac:(rewrite HP; Z.div_mod_to_equations; lia) Hlim Hp). nia.
Qed.

Lemma reachable_pte s p w x g fl : user_half x -> vmm_get_pte (ms_mem s) (cr3 p) x = user_pte g fl -> frame_addr g -> page_flags_ok fl ->
  has fl VMM_WRITE = true -> reachable (ProcWorld s p) w x = true.
Proof using Type.
  intros Hx E Hg Hf Hw. destruct (user_pte_writable g fl Hg Hf Hw) as (H1 & H2 & H3).
  apply reachable_true. split; [done|]. unfold user_page. cbn [pw_mem pw_proc]. rewrite E. by split_and!.
Qed.

Lemma brk_move_spec k nb : proc_ok k -> brk_of k < nb < 2 ^ 63 -> nb mod 4096 = 0 ->
  let '(r, k') := answer k (sys_brk (pw_mem k) (pw_proc k) (u64 nb)) in
  proc_ok k' /\ keeps usable k k' /\
  (r = nb /\ brk_of k' = nb /\ (forall x, brk_of k <= x < nb -> usable k' x /\ ~ usable k x) \/ r <> nb /\ brk_of k' = brk_of k).
Proof using Type.
  intros Hk Hnb Hal. pose proof (proc_bounds k Hk) as (HB0 & HBk & HML & Hba). destruct k as [s p]. unfold brk_of in *. cbn [pw_mem pw_proc] in *.
  pose proof Hk as [(F & G & Hum) Hc [Hh1 Hh2 Hh3] (_ & Hst & HstL) (Hb0 & Hb & _) Hw Hm]. cbn [pw_mem pw_proc] in *.
  rewrite u64_id by lia.
  assert (HP : UMAP_MAX * PAGE_SIZE = 1048576 /\ 257 * PAGE_SIZE = 1052672 /\ MAP_LOW = 123145031712768 /\ USER_LIMIT = 2 ^ 47) by done. destruct HP as (HP & HP' & HPL & HPU).
  unfold sys_brk, um_brk_set, um_brk_grow. rewrite (proj2 (Z.eqb_neq _ _) Hh1).
  destruct (Z.eqb_spec nb 0); [lia|]. destruct (Z.ltb_spec nb (heap_start p)); [lia|]. destruct (Z.ltb_spec (brk_current p) nb); [|lia].
  destruct (brk_grow_loop_spec F page_fuel s p G (brk_current p) nb Hum Hh2 Hh3) as (r & s' & p' & E & Hg); [unfold page_fuel, UMAP_MAX; lia|].
  pose proof (brk_grow_pages F page_fuel s p G _ _ _ _ _ Hum Hh2 Hba Hal ltac:(lia) E) as [Hout Hin].
  rewrite E. destruct Hg as [[G' Hum'] Hp' _ Hk' _ Hr]. change (Z.of_nat page_fuel) with 257 in Hout.
  assert (HbL : brk_current p <= B0 + UMAP_MAX * PAGE_SIZE) by (apply (heap_bounded F s p G); (done || lia)).
  assert (Hsame : forall w, user_half w -> w < brk_current p \/ MAP_LOW <= w ->
    vmm_get_pte (ms_mem s') (cr3 p) w = vmm_get_pte (ms_mem s) (cr3 p) w).
  { intros w Hwh Hwz. apply Hout; [done|]. lia. }
  assert (Hold : forall w, B0 <= w < brk_current p -> page_present s' p w = true).
  { intros w Hwr. unfold page_present. rewrite Hsame by (unfold user_half; lia). by apply Hm. }
  assert (Hkeep : forall p2, proc_ok (ProcWorld s' p2) -> cr3 p2 = cr3 p -> brk_current p <= brk_current p2 ->
    keeps usable (ProcWorld s p) (ProcWorld s' p2)).
  { intros p2 Hk2 Hc2 Hb2 x. apply (keeps_usable _ _ (fun _ => True)); cbn [pw_mem pw_proc]; try done; [|by auto|lia].
    intros _ v g _ _ Hvg _ a Ha. by apply (Hk' v g). }
  destruct Hr as [[-> _]|[-> _]].
  - cbn [negb Z.eqb answer]. rewrite Hp'. cbn [set_brk brk_current set_umap].
    destruct (Hin eq_refl) as [Hlim Hnew]. specialize (Hlim ltac:(lia)).
    assert (Hnp : forall w, B0 <= w < nb -> page_present s' p w = true).
    { intros w Hwr. destruct (decide (w < brk_current p)); [by apply Hold; lia|]. destruct (Hnew w ltac:(lia)) as (g & Eg & Hg).
      unfold page_present. rewrite Eg. by apply user_pte_facts. }
    assert (Hnb' : nb <= B0 + UMAP_MAX * PAGE_SIZE).
    { apply (heap_bounded F s' p' G'); try done; try lia. intros w Hwr. rewrite Hp'. by apply Hnp. }
    assert (Hk2 : proc_ok (ProcWorld s' (set_brk (set_umap p (umap p')) nb))).
    { split; cbn [pw_mem pw_proc set_brk set_umap cr3 heap_start brk_current brk_perm]; try done; try lia.
      - exists F, G'. apply um_inv_set_brk. by rewrite <- Hp'.
      - split; cbn; (done || lia).
      - split_and!; (done || lia). }
    split_and!; [done|by apply Hkeep; cbn; (done || lia)|]. left. rewrite i64_id by lia. split_and!; [done|done|].
    intros x Hx. assert (Hxh : user_half x) by (unfold user_half; lia). destruct (Hnew x Hx) as (g & Eg & Hg). split.
    + split_and!; [done|lia|by apply (reachable_pte _ _ _ _ g (brk_perm p))|left; cbn; lia].
    + intros (_ & _ & _ & [Hn|Hn]); cbn [pw_proc] in Hn; lia.
  - cbn [negb Z.eqb VE_NOMEM answer]. cbn [Z.opp Z.eqb negb answer]. rewrite Hp'. cbn [set_umap brk_current].
    assert (Hk2 : proc_ok (ProcWorld s' (set_umap p (umap p')))).
    { split; cbn [pw_mem pw_proc set_umap cr3 heap_start brk_current brk_perm]; try done.
      exists F, G'. by rewrite <- Hp'. }
    split_and!; [done|by apply Hkeep|]. right. split; [unfold VE_NOMEM; lia|done].
Qed.

Lemma proc_ok_same s p s' p' : proc_ok (ProcWorld s p) -> (exists F G, um_inv F s' p' G) -> p' = set_umap p (umap p') ->
  (forall w, B0 <= w < brk_current p -> page_present s' p w = true) -> proc_ok (ProcWorld s' p').
Proof using Type.
  intros [_ Hc [] Hst Hb Hw _] HG Hp Hm. rewrite Hp in *. split; cbn [pw_mem pw_proc set_umap cr3 heap_start brk_current brk_perm] in *; done.
Qed.

(** The allocating loop of [sys_mmap] on a clear window above the break. *)
Lemma mmap_pages_spec F s p G base n : proc_ok (ProcWorld s p) -> um_inv F s p G -> aligned base -> aligned n -> 0 < n -> 0 <= base ->
  USER_MMAP_TOP - n - 257 * n <= base -> base + n <= USER_MMAP_TOP -> window_clear s p base (n / PAGE_SIZE) ->
  let '(r, k') := answer (ProcWorld s p) (mmap_loop page_fuel s p base base (u64 (base + n)) (mmap_prot_flags nx PROT_RW)) in
  proc_ok k' /\ keeps usable (ProcWorld s p) k' /\ brk_of k' = brk_current p /\
  (- 2 ^ 63 <= r < 0 \/ 0 < n /\ brk_current p <= r /\ r mod 4096 = 0 /\ forall x, r <= x < r + n -> usable k' x /\ ~ usable (ProcWorld s p) x).
Proof using Type.
  intros Hk Hum Hab Han Hn Hb0 Hlow Htop Hcl. pose proof (proc_bounds _ Hk) as (HB0 & HBk & HML & _). unfold brk_of in *. cbn [pw_proc] in *.
  assert (HP : UMAP_MAX = 256 /\ PAGE_SIZE = 4096 /\ MAP_LOW = 123145031712768 /\ USER_MMAP_TOP = 123145302245376 /\ USER_LIMIT = 2 ^ 47) by done.
  destruct HP as (HU & HP & HPL & HPT & HPU).
  assert (Hae : aligned (base + n)) by (unfold aligned in *; by rewrite Z.add_mod, Hab, Han).
  assert (Hnp : n / PAGE_SIZE * PAGE_SIZE = n) by (unfold aligned in *; rewrite HP in *; Z.div_mod_to_equations; lia).
  unfold window_clear in Hcl. rewrite Hnp in Hcl. rewrite u64_id by lia.
  destruct (mmap_loop_spec F base (base + n) (mmap_prot_flags nx PROT_RW) page_fuel (mmap_prot_flags_ok nx PROT_RW) Hab Hae Hb0 ltac:(lia)
    s p G base Hum Hab ltac:(lia) ltac:(lia)) as (r & s' & p' & -> & [(G' & Hum') Hp Hd Hsub Hout Hr]).
  { unfold page_fuel. lia. }
  unfold brk_same in Hp. cbn [answer].
  assert (Hsame : forall w, user_half w -> page_present s p w = true -> vmm_get_pte (ms_mem s') (cr3 p) w = vmm_get_pte (ms_mem s) (cr3 p) w).
  { intros w Hw Hpw. apply Hout; [done|]. destruct (decide (base <= w < base + n)) as [Hi|]; [|lia]. by rewrite Hcl in Hpw. }
  assert (Hk' : proc_ok (ProcWorld s' p')).
  { apply (proc_ok_same s p); [done|by exists F, G'|done|]. intros w Hw. pose proof (po_mapped _ Hk w Hw) as Hpw. cbn [pw_mem pw_proc] in Hpw.
    unfold page_present. rewrite Hsame; [done|unfold user_half; lia|done]. }
  split_and!; [done| |by rewrite Hp|].
  { intros x. apply (keeps_usable _ _ (fun _ => True)); cbn [pw_mem pw_proc]; try done.
    - by rewrite Hp.
    - intros _ v g _ _ Hvg _ a Ha. by apply (Hd v g).
    - intros y _ Hy _ Hpy. by apply Hsame.
    - rewrite Hp. cbn. by auto. }
  destruct Hr as [(-> & _ & Hnew)|(-> & _)]; [right|left; unfold VE_NOMEM; lia].
  assert (Hnew' : forall w, base <= w < base + n -> exists g, vmm_get_pte (ms_mem s') (cr3 p') w = user_pte g (mmap_prot_flags nx PROT_RW) /\ frame_addr g).
  { intros w Hw. destruct (Hnew w Hw) as (g & Eg & Hg & _). exists g. rewrite Hp. by split. }
  assert (Hsz : n / PAGE_SIZE <= UMAP_MAX).
  { apply (present_pages_bound F s' p' G' base); try done; try lia. rewrite Hnp.
    intros w Hw. destruct (Hnew' w Hw) as (g & Eg & Hg). unfold page_present. rewrite Eg. apply user_pte_facts; [done|apply mmap_prot_flags_ok]. }
  assert (Hbl : MAP_LOW <= base) by (rewrite HP in *; lia).
  split_and!; [done|lia|done|]. intros x Hx. assert (Hxh : user_half x) by (unfold user_half; lia). split.
  - destruct (Hnew' x Hx) as (g & Eg & Hg). split_and!; [done|lia| |right; lia].
    apply (reachable_pte _ _ _ _ g (mmap_prot_flags nx PROT_RW)); try done; [apply mmap_prot_flags_ok|by destruct nx].
  - intros (_ & _ & Hrx & _). apply reachable_present in Hrx as [_ Hpx]. cbn [pw_mem pw_proc] in Hpx. by rewrite Hcl in Hpx.
Qed.

Lemma mmap_anon_spec k len : proc_ok k -> 0 <= len < 2 ^ 64 -> len mod 4096 = 0 ->
  let '(r, k') := answer k (sys_mmap nx (pw_mem k) (pw_proc k) (u64 0) (u64 len) PROT_RW MAP_ANON_PRIVATE (-1) (u64 0)) in
  proc_ok k' /\ keeps usable k k' /\ brk_of k' = brk_of k /\
  (- 2 ^ 63 <= r < 0 \/ 0 < len /\ brk_of k <= r /\ r mod 4096 = 0 /\ forall x, r <= x < r + len -> usable k' x /\ ~ usable k x).
Proof using Type.
  intros Hk Hlen Hal. change (u64 0) with 0. rewrite u64_id by done. destruct k as [s p]. unfold sys_mmap, brk_of. cbn [pw_mem pw_proc].
  assert (Herr : forall e, - 2 ^ 63 <= e < 0 -> let '(r, k') := answer (ProcWorld s p) (Some (e, s, p)) in
    proc_ok k' /\ keeps usable (ProcWorld s p) k' /\ brk_current (pw_proc k') = brk_current p /\
    (- 2 ^ 63 <= r < 0 \/ 0 < len /\ brk_current p <= r /\ r mod 4096 = 0 /\ forall x, r <= x < r + len -> usable k' x /\ ~ usable (ProcWorld s p) x)).
  { intros e He. cbn [answer]. split_and!; [done|by intros x Hx|done|by left]. }
  pose proof (po_root _ Hk) as Hc. destruct (po_space _ Hk) as (F & G & Hum). cbn [pw_mem pw_proc] in Hc, Hum.
  rewrite (proj2 (Z.eqb_neq _ _) Hc). destruct (Z.eqb_spec len 0); [by apply Herr|]. destruct (Z.leb_spec USER_MMAP_TOP len); [by apply Herr|].
  change (negb (-1 =? -1) || negb (0 =? 0)) with false. change (negb (MAP_ANON_PRIVATE =? _)) with false. change (PROT_RW =? PROT_NONE) with false.
  cbn iota. assert (HPT : USER_MMAP_TOP = 123145302245376) by done.
  assert (Hup : page_up len = len).
  { destruct (page_up_spec len ltac:(lia) ltac:(unfold PAGE_SIZE; lia)) as [Ha Hr]. unfold aligned, PAGE_SIZE in *. Z.div_mod_to_equations. lia. }
  rewrite Hup. destruct (mmap_base_any F s p G len Hum Hc ltac:(lia) Hal ltac:(lia)) as (res & -> & Hres).
  destruct res as [e|base]; [by apply Herr|]. destruct Hres as [(? & ? & ? & ? & ?)|[Hw Hle]].
  - apply (mmap_pages_spec F s p G); (done || lia).
  - cbn [mmap_loop page_fuel]. rewrite (proj2 (Z.ltb_ge _ _)) by lia. apply Herr. rewrite i64_wrap; lia.
Qed.

Lemma munmap_below_spec k a len : proc_ok k -> brk_of k <= a < USER_TOP -> a mod 4096 = 0 -> 0 < len ->
  let '(r, k') := answer k (Some (sys_munmap (pw_mem k) (pw_proc k) (u64 a) (u64 len))) in
  proc_ok k' /\ brk_of k' = brk_of k /\ forall x, x < a -> usable k x -> usable k' x /\ ubyte k' x = ubyte k x.
Proof using Type.
  intros Hk [Ha Ha'] Hal _. pose proof (proc_bounds _ Hk) as (HB0 & HBk & _ & _). destruct k as [s p]. unfold brk_of, USER_TOP in *.
  cbn [pw_mem pw_proc] in *. rewrite (u64_id a) by lia.
  assert (Hsel : forall v x, in_release_range a v = true -> x < a -> page_of v <> page_of x).
  { unfold in_release_range. intros v x [Hv%Z.leb_le _]%andb_true_iff Hx. pose proof (page_of_lt x a Hal Hx).
    assert (page_of a <= page_of v) by (apply Z.div_le_mono; (done || lia)). lia. }
  unfold sys_munmap. repeat (case_if; [by cbn [answer pw_proc]|]).
  destruct (po_space _ Hk) as (F & G & Hum). cbn [pw_mem pw_proc] in Hum.
  pose proof (release_from_spec F s p G a Hum) as Hr. pose proof (release_loop_keeps F a (length (umap p)) s p G 0 Hum ltac:(lia)) as Hd.
  fold (um_release_from s p a) in Hd. destruct (um_release_from s p a) as [s' p']. cbn [answer].
  destruct Hr as [Hum' Hp Hkept _ Hsame _ _]. destruct Hd as [_ Hd].
  assert (Hlow : forall x, x < a -> user_half x -> vmm_get_pte (ms_mem s') (cr3 p) x = vmm_get_pte (ms_mem s) (cr3 p) x).
  { intros x Hx Hxh. apply Hsame; [done|]. intros v f _ Hv. by apply Hsel. }
  assert (Hk' : proc_ok (ProcWorld s' p')).
  { apply (proc_ok_same s p); [done|by exists F, G|done|]. intros w Hw. pose proof (po_mapped _ Hk w Hw) as Hpw. cbn [pw_mem pw_proc] in Hpw.
    unfold page_present. rewrite Hlow; [done|lia|unfold user_half; lia]. }
  split_and!; [done|by rewrite Hp|]. apply keeps_usable; cbn [pw_mem pw_proc]; try done.
  - by rewrite Hp.
  - intros x v g Hx _ Hin Hv b Hb. apply (Hd v g); [|done]. rewrite Hkept. apply list_elem_of_filter. split; [|done]. cbn [fst].
    destruct (in_release_range a v) eqn:E; [|done]. by destruct (Hsel v x E Hx).
  - intros x Hx Hxh _ _. by apply Hlow.
  - rewrite Hp. cbn. by auto.
Qed.

#[export] Instance proc_kernel_laws : UserKernelLaws (H1 := proc_kernel nx) proc_ok brk_of.
Proof using Type.
  split.
  - intros k x _ (_ & ? & [[? ?] _]%reachable_present & _). unfold USER_TOP. lia.
  - intros k x v _ Hx. cbn [uput proc_bytes]. destruct (reachable k true x) eqn:E; [|done]. apply reachable_present in E as [Hxh _]. by destruct Hx.
  - intros k k' [->|(_ & ? & _)]; done.
  - intros k k' [->|(_ & _ & E & _)]; [done|]. unfold brk_of. by rewrite E.
  - intros k Hk. pose proof (proc_bounds k Hk) as (? & ? & ? & ?). unfold USER_TOP. split; [lia|done].
  - intros k Hk. pose proof (proc_bounds k Hk) as (? & ? & ? & _). destruct Hk as [_ _ [Hh _ _] _ _ _ _]. destruct k as [s p]. unfold brk_of in *. cbn [k_brk proc_kernel]. unfold call_brk. cbn [pw_mem pw_proc] in *.
    unfold sys_brk. rewrite (proj2 (Z.eqb_neq _ _) Hh). cbn [u64 Z.modulo Z.eqb answer]. rewrite i64_id by lia. done.
  - intros k nb. apply brk_move_spec.
  - intros k len. apply mmap_anon_spec.
  - intros k a len. apply munmap_below_spec.
Qed.
End Laws.

(** ** A program that has just been loaded *)

Lemma brk_init_ok F nx s q G image_end : um_inv F s q G -> cr3 q <> 0 -> 0 < image_end <= 2 ^ 46 ->
  proc_ok (brk_current (brk_init nx q image_end)) (ProcWorld s (brk_init nx q image_end)).
Proof.
  intros Hum Hc Hi. unfold brk_init. destruct (page_up_spec image_end ltac:(lia) ltac:(unfold PAGE_SIZE; lia)) as [Ha Hr].
  set (st := page_up image_end) in *. clearbody st. pose proof (aligned_next st Ha) as Hn.
  assert (HP : UMAP_MAX * PAGE_SIZE = 1048576 /\ PAGE_SIZE = 4096 /\ MAP_LOW = 123145031712768) by done. destruct HP as (HP & HP' & HL).
  cbv zeta. rewrite u64_id by lia.
  split; cbn [pw_mem pw_proc set_heap cr3 heap_start brk_current brk_perm]; try done; try lia.
  - exists F, G. by apply (um_inv_same F s q).
  - split; cbn [set_heap heap_start brk_current brk_perm]; [lia|by destruct nx|lia].
  - split_and!; (done || lia).
  - split_and!; (done || lia).
  - by destruct nx.
Qed.

(** C8.  The C library's allocator on this kernel.  A process of the kernel, seen
  through its page tables and its three memory calls, is a user world as the
  library expects it, for every process whose heap [brk_init] has set up: stores
  change one byte, [brk] and anonymous [mmap] give fresh writable pages and keep all
  others, [munmap] keeps what is below the address.  So a program started there has
  an empty object store, and each [malloc], [calloc], [realloc], [free] or store of
  any reachable state ends as the contract [store_step] says (or, for a request of
  128 KiB or more whose mapping the kernel refuses, faults). *)
Theorem kernel_runs_malloc F nx nx' s q G image_end : um_inv F s q G -> cr3 q <> 0 -> 0 < image_end <= 2 ^ 46 ->
  let p := brk_init nx q image_end in
  let B0 := brk_current p in
  UserBytesLaws proc_world (usable B0) (contents_only B0) /\
  UserKernelLaws (rw := usable B0) (env := contents_only B0) (H1 := proc_kernel nx') (proc_ok B0) brk_of /\
  MallocStore.heap_ok (rw := usable B0) (kinv := proc_ok B0) (brk_now := brk_of) (Heap 0 0 0 0 (ProcWorld s p)) ∅ /\
  forall h objs c, MallocStore.heap_ok (rw := usable B0) (kinv := proc_ok B0) (brk_now := brk_of) h objs ->
    MallocStore.call_ok objs c ->
    (exists r h' objs', exec (UK := proc_kernel nx') c h = Val (r, h') /\ store_step objs c r objs' /\
       MallocStore.heap_ok (rw := usable B0) (kinv := proc_ok B0) (brk_now := brk_of) h' objs') \/
    exec (UK := proc_kernel nx') c h = Fault /\ MALLOC_MMAP_THRESHOLD <= wanted c /\
      refused (UK := proc_kernel nx') (world h) (wanted c).
Proof.
  intros Hum Hc Hi p B0. pose proof (proc_kernel_laws nx' B0) as HL. split; [apply proc_bytes_laws|]. split; [done|].
  split; [by apply heap_ok_init, (brk_init_ok F nx s q G)|]. intros h objs c. apply (exec_spec (KL := HL)).
Qed.

(** The first [malloc] of a program on the demonstration machine. *)
Definition demo_program : proc_world := ProcWorld demo_state (brk_init true demo_proc 0x4FF123).

Lemma kernel_runs_malloc_witness : exists r h' objs',
  exec (UK := proc_kernel true) (CMalloc 100) (Heap 0 0 0 0 demo_program) = Val (r, h') /\ store_step ∅ (CMalloc 100) r objs'.
Proof.
  destruct (kernel_runs_malloc demo_account true true demo_state demo_proc demo_tables 0x4FF123 demo_um_inv) as (_ & _ & HI & HS).
  - by unfold demo_proc, demo_root.
  - lia.
  - destruct (HS _ _ (CMalloc 100) HI) as [(r & h' & objs' & E & S & _)|(_ & H & _)].
    + unfold MallocStore.call_ok. lia.
    + exact (ex_intro _ r (ex_intro _ h' (ex_intro _ objs' (conj E S)))).
    + exfalso. unfold MALLOC_MMAP_THRESHOLD, wanted in H. lia.
Defined.
